(* ===== verification/_CoqProject ===== *)
-Q . S2P
Prelude.v
CDouble.v
Minix.v
Sched.v
SlugMem.v
KProc.v
KIpc.v
KSys.v
KSysInv.v
KSysCalls.v
KSysTime.v
KSysEnd.v
KSysFork.v
KSysPriv.v
KSysMask.v
KSysMain.v
KSysDemo.v
IpcBase.v
Sem.v
Shm.v
IpcMain.v
DataStore.v
Lex.v
Shell.v
PmBase.v
Pm.v
PmAlarm.v
PmSignal.v
PmCalls.v
PmMain.v
PmTree.v
PmInv.v
PmEnd.v
PmWf.v
PmFork.v
PmRun.v
PmTrace.v
PmLoop.v
PmBoot.v
PmSpec.v
PmClaims.v
PmDemo.v
VfsBase.v
VfsLock.v
VfsFd.v
VfsRefs.v
VfsInv.v
VfsClose.v
VfsProc.v
VfsMain.v
VfsDemo.v
