(* ===== verification/Prelude.v ===== *)
(** * A verification of the CS111 group repository

    The repository holds three projects: a shell ([src/Project_1]), a MINIX 3 system whose
    scheduling server was given a lottery policy ([src/Project_2]), and a debugging
    allocator ([src/Project_3]).  Project 2 is the whole source of the system, of which the
    group changed [src/sched/schedule.c], [src/pm/schedule.c], [src/pm/utility.c],
    [src/schedproc.h] and [src/config.h]; an install script copies these over
    [servers/sched], [servers/pm] and the headers.

    ** How the parts work together

    The servers of MINIX are processes that pass messages through the kernel.
    - The kernel keeps the process table, the run queues and the state of message passing
      ([kernel/proc.c]).
    - When a process has used up its quantum the kernel tells SCHED, which decides on its
      next priority and quantum and tells the kernel ([servers/sched]).
    - PM starts and ends processes, delivers signals, and passes a request to change a nice
      value on to SCHED ([servers/pm]).  What a process has open is kept by VFS: PM
      asks VFS in a message, goes on with other calls, and takes the answer in its main loop.
    - VFS keeps the descriptors of processes, the open files they share and the vnodes
      these refer to, with pipes and record locks; it asks the file servers and the drivers
      for the rest ([servers/vfs]).
    - The IPC server keeps System V semaphores and shared memory for processes, and
      is told by VM ([vm_notify_sig], which PM asks for) when one of them gets a signal or
      ends ([servers/ipc]).
    - The data store keeps values and labels that servers publish under a key, and notifies
      those that subscribed ([servers/ds]).

    The shell and the allocator are programs of their own.

    ** How C is modelled

    [Prelude] has a monad [M S A] of a state and two ways to stop: a result with the new
    state, or [Halt w s] with the reason [w] of type [stop]: undefined behaviour of C
    ([Undef]: a read or write outside an array, an invalid pointer, a conversion out of
    range), a failed assertion or a call of panic ([Panic]), a call of exit ([Exit]), or the
    end of the fuel ([NoFuel]).  Loops of C are
    [for_], [foreach], [while_] and
    [loop_] on that monad; [wp m Q E s] says that [m] started in [s] ends in a state with
    [Q], or stops with a reason and state in [E], so that a theorem with the
    postcondition [never] or with a list of reasons that leaves out [NoFuel] says that the
    code ends.  Integers are [Z] with [u32], [s32] and the like for the wrap-around;
    an array is a list with [aget] and [aupd] on [Z] indexes; a record is updated with
    [r <| field := v |>].
    What is not in the repository (headers of [/usr/include], the C library, the kernel
    calls as a server sees them) is an argument: a class of constants with a class of laws
    the code relies on ([Minix.MinixHeaders] and [MinixLaws]), and per component a class of
    operations on an abstract world.  Each component closes with a [Module Demo] that
    instantiates them with concrete functions, runs the code, and has the witnesses.

    ** Files

    - [Prelude]: the monad, its postconditions and loop rules, record update, arrays,
      machine integers, lists.  [CDouble]: the C double, on [SpecFloat].  [Minix]: headers.
    - [Sched]: [Project_2/src/sched/schedule.c], [schedproc.h], with
      [servers/sched/utility.c] and [main.c].  State: [schedproc] table, current total of
      tickets and message; one definition per function, [sched_main_step] for a turn of
      the main loop.  Theorems: the table stays well formed, the exact effect of each
      request, who wins the draw and how often.
    - [SlugMem]: [Project_3/slugmem.c]: hash table, statistics and trace.  Theorems: every
      sequence of calls keeps table, heap and counters consistent; what free and double
      free do; doubling keeps every lookup.
    - [KProc]: process table and run queues of [kernel/proc.c], [proc.h], [priv.h],
      [system.c] and [debug.c].  Theorems: setting and clearing a run-time flag refine a
      list per priority; [pick_proc]; [sched_proc].
    - [KIpc]: message passing of [kernel/proc.c] on the state of [KProc].  Theorems: send,
      receive and notify on every branch, deadlock detection, clean-up of an exiting
      process.
    - [KSys]: the kernel calls, [kernel/system.c] and [kernel/system], and the tick of
      [clock.c], on the state of [KProc] and [KIpc]: the dispatch of a call, its end and its
      resumption; the allocation of privileges and the masks of targets; one definition per
      handler that starts, stops, schedules, signals, traces or ends processes, sets their
      privileges, or keeps time.  [KSysInv]: the invariant [good]: that of the run queues and
      of the queues of senders, and [sane]: identities and lengths of the privileges, signal
      managers that exist, who can be given a message; [stays], the changes that keep it.
      [KSysCalls], [KSysTime], [KSysEnd], [KSysFork], [KSysPriv], [KSysMask]: the handlers
      keep it; what [do_clear], [do_fork], [fill_sendto_mask] and a sample of the load do.
      [KSysMain]: a kernel call ends, never panics and keeps the invariant; refusals;
      [do_getksig].  [KSysDemo]: a machine that meets the laws, with a run for each claim.
    - [IpcBase], [Sem], [Shm], [IpcMain]: [servers/ipc].  Theorems: no sequence of messages
      within the stated bounds leads to undefined behaviour; [semop] refines an operation
      on values and queues; all waiters are woken; permissions; destruction of segments.
    - [DataStore]: [servers/ds].  Theorems: the entries stay well typed; publishing and
      retrieving; notification of subscribers; two ways to bring the server down.
    - [Lex], [Shell]: [Project_1/src]: the tables of the generated scanner against the rules
      of [lex.c]; [get_line], [parse], [execute] and both main loops.  Theorems: longest
      match; a command line reaches [execvp] unharmed; how the programs end.
    - [Pm]: [Project_2/src/pm] and [do_getsetpriority].  Theorems: fresh process numbers,
      boot parameters, the range of nice values, and a run through PM and SCHED.
    - [PmBase], [PmAlarm], [PmSignal], [PmCalls], [PmMain], [PmBoot]: the process manager,
      [servers/pm]: [mproc.h], [glo.h], [param.h] and [const.h]; [alarm.c]; the ends of
      processes and the delivery of signals ([forkexit.c], [signal.c]), which call each
      other; the calls of [forkexit.c], [signal.c], [exec.c], [getset.c], [trace.c] and three
      of [misc.c]; [table.c] and the loop of [main.c]; its start.  The state is the record
      [PmBase.state]: the table [mproc] (a pointer to a slot is its index, [mp] the slot of
      the caller), the other global and static variables, and the world.
    - [PmTree]: the invariant [tree] of the table, on the fields [life] of each slot that it
      is about: fathers and tracers are alive, who waits has nobody to be told of, numbers
      are different, [procs_in_use] counts, which flags go together; and [evolves], how
      a call may change it.  [PmInv]: the laws of the environment, the rest of the invariant
      slot by slot, and the rules of [wp] that keep it.  [PmEnd]: ends and signals, by
      induction on the processes that are alive.  [PmWf], [PmFork], [PmRun], [PmTrace],
      [PmLoop]: the answers of VFS, the calls, [trace], and the main loop.
    - [PmClaims], [PmSpec]: what follows.  PM, started from a boot image, handles every
      sequence of events that fit ([PmLoop.event_ok]) without a panic, undefined behaviour
      or endless loop; what [fork], [exit], [waitpid] and the null signal do; the times of
      [alarm.c].  [PmDemo]: a machine of eight slots that meets the laws, a run on
      it for each claim, and runs outside of what PM may rely on that end in a panic.
    - [VfsBase], [VfsLock], [VfsFd]: the part of [servers/vfs] that keeps track of what is
      open: [fproc.h], [file.h], [vnode.h] and [lock.h]; [vnode.c]; [lock.c];
      [filedes.c], [close] of [open.c], [dup] and [fcntl] of [misc.c], [pipe.c]; and what PM asks for
      ([service_pm] of [main.c], [misc.c]).  The state is the record [VfsBase.state]: the four
      tables, where a pointer is the index of a slot, the global variables, the message, and
      the world.  [VfsLock] has the theorems on record locks, stated on who holds a lock on
      which byte ([holds]).
    - [VfsRefs]: the abstract table of uses: which descriptors and directories each process
      has, and how often each open file and vnode is used; [counted] says that the counts are
      the numbers of uses, and [closed], [dup_slot], [forked] and [exited] are the operations.
      [VfsInv]: a state of VFS read as such a table ([view]), the rest of its invariant, and
      the laws of the calls outside of the model.  [VfsClose], [VfsProc], [VfsMain]: closing, dup,
      fork and exit, and the requests of PM change the view the way the abstract operation does.
      [VfsDemo]: a system that meets the laws, a run for each claim, and an exit that follows
      a null pointer.
    ** Bounds and fuel

    Every loop whose end is not plain from its text gets fuel, and its theorem gives the
    measure: the processes of the table for [deadlock] and for the queues of callers, the
    slots of the hash table for its probing, [NR_PROCS + 2] turns for [get_free_pid], the
    bytes of the input for the scanner and the shell, twelve tokens for [parse].
    [sig_proc] has fuel [S NR_PROCS]: each nested call has one process less that is alive,
    which [sig_proc_ends] proves enough.
    [main_loop_safe] takes fewer than 2^16 messages because the IPC server counts its
    waiters in 16 bits, [slug_calls_wf] a million calls because the sizes and counters of
    slugmem are 32-bit.

    ** What the kernel calls rely on

    [KSysInv.KSysLaws] and [KSysTime.ClockLaws]: how an endpoint
    number and the bits of a mask are laid out, that copies do not wait for VM, and that the
    signals of timers are not lethal.
    [KSysMain.request_ok] is what a handler relies on beyond the invariant: the parent of a
    fork has no senders waiting, who is cleared does not send and nobody sends to it, a
    scheduler gives a priority below the number of queues, a relative alarm fits
    a [clock_t], a signal has a manager.  The servers see to these; the kernel does not check
    them, and the findings of the manifest tell what happens to some of them otherwise.

    ** What PM relies on

    [PmInv.PmLaws] has the facts on the constants of headers, [PmInv.EnvLaws] and
    [PmBoot.BootLaws] the calls of the kernel, VM and VFS that PM takes for granted (it
    panics when [sys_stop] fails).  [PmLoop.event_ok] says which events PM may be given:
    senders are processes of the table that do not wait for an answer; VFS answers what it
    was asked; no delayed stop ends ([SIGSNDELAY]); a tracer lets a process go with no signal, and
    does not trace VFS; VFS gets no lethal signal; nice values and timers stay in the
    range of their type.  The findings of the manifest show for several of these what
    happens otherwise.  The sums of the times of children wrap around, as the
    compiler of the system does it; other overflow of signed integers stops with [Undef].

    ** What VFS relies on

    [VfsInv.VfsCallsLaws]: closing a device and [select] leave the tables of uses alone;
    [VfsInv.VfsEnvLaws]: grants can be revoked; [VfsLock.LockLaws]: the numbers of the headers are
    different.  The theorem on the end of a process asks that it does not wait for a device
    ([interruptible]); the example [exit_on_terminal_crashes] shows why.

    ** What is not modelled

    Of VFS: paths, [open], [read] and [write], directories, protection, mounting, [exec],
    [select], the device table and the loop that receives messages.
    Of the kernel: the calls on memory, grants, devices, interrupts, profiling and system
    information, the delivery of a signal on the stack of a user, and the requests of
    [do_trace] on memory and registers, which are the parameters [other_kernel_call] and
    [trace_memory]; the queue of timers, which is a library's; start and interrupts.
    The rest of MINIX (file servers, network, virtual memory, reincarnation and
    information servers, boot monitor, machine-dependent kernel code) is unchanged by the
    group.  Of the parts modelled, what is printed is left out except in slugmem, where it
    is the result; registration with SEF is left out; the calls of PM that copy its tables out
    or change the size of a segment are a parameter ([other_call]); the copying of data
    between address spaces and the schedule of processes are the environment; flex's
    management of its buffers is abstracted to the rest of the input.

    ** Plan

    Reading and writing of pipes in VFS; the checks of grants in [do_safecopy.c]; the regions
    of [servers/vm]. *)
From Stdlib Require Export ZArith Lia.
From stdpp Require Export base list gmap strings numbers option.
Set Warnings "-notation-overridden".

(** ** Machine integers
    A C integer of width w is a [Z]; the conversions below are the wrap-around of
    the unsigned types and the two's complement reading of the signed ones. *)
Definition u8 (z : Z) : Z := z mod 2 ^ 8.
Definition u16 (z : Z) : Z := z mod 2 ^ 16.
Definition u32 (z : Z) : Z := z mod 2 ^ 32.
Definition u64 (z : Z) : Z := z mod 2 ^ 64.
Definition s16 (z : Z) : Z := (z + 2 ^ 15) mod 2 ^ 16 - 2 ^ 15.
Definition s32 (z : Z) : Z := (z + 2 ^ 31) mod 2 ^ 32 - 2 ^ 31.

(** ** Computations of a C program
    A computation runs on a state and either returns or stops.  [Panic] is a failed
    [assert] or a call of [panic]; [Undef] is behaviour the C standard leaves undefined
    (an index outside its array, a NULL pointer followed, a division by zero); [Exit] is
    a call of [exit]; [NoFuel] is the end of the fuel of a loop that has no bound of
    its own. The state reached is kept in all cases. *)
Inductive stop := Panic | Undef | Exit | NoFuel.

Inductive outcome (S A : Type) :=
  | Ret (a : A) (s : S)
  | Halt (w : stop) (s : S).
Arguments Ret {S A} a s.
Arguments Halt {S A} w s.

Definition M (S A : Type) : Type := S -> outcome S A.

#[export] Instance M_ret (S : Type) : MRet (M S) := fun A a s => Ret a s.
#[export] Instance M_bind (S : Type) : MBind (M S) := fun A B f m s =>
  match m s with Ret a s' => f a s' | Halt w s' => Halt w s' end.

Section computations.
Context {S : Type}.

Definition halt {A} (w : stop) : M S A := fun s => Halt w s.
Definition get : M S S := fun s => Ret s s.
Definition gets {A} (f : S -> A) : M S A := fun s => Ret (f s) s.
Definition modify (f : S -> S) : M S unit := fun s => Ret tt (f s).
Definition put (s' : S) : M S unit := fun _ => Ret tt s'.

(** [assert(c)]: the program panics when the condition is false. *)
Definition assert_ (c : bool) : M S unit := if c then mret tt else halt Panic.

(** Reading through a pointer or an index that may be invalid. *)
Definition deref {A} (o : option A) : M S A :=
  match o with Some a => mret a | None => halt Undef end.

(** [for (x in l) body]: the body returns [Some r] to leave the loop with [r]. *)
Fixpoint for_ {X R} (l : list X) (body : X -> M S (option R)) : M S (option R) :=
  match l with
  | [] => mret None
  | x :: l' =>
      r ← body x;
      match r with
      | Some v => mret (Some v)
      | None => for_ l' body
      end
  end.

(** [for (x in l) body] without [break]. *)
Fixpoint foreach {X} (l : list X) (body : X -> M S unit) : M S unit :=
  match l with
  | [] => mret tt
  | x :: l' => body x;; foreach l' body
  end.

(** [while (1) body]: the body returns [Some r] to leave the loop with [r]. *)
Fixpoint while_ {R} (fuel : nat) (body : M S (option R)) : M S R :=
  match fuel with
  | O => halt NoFuel
  | Datatypes.S n =>
      r ← body;
      match r with
      | Some v => mret v
      | None => while_ n body
      end
  end.

(** A loop that carries the values [a] of its variables: the body goes on with new
    values or leaves with a result. *)
Fixpoint loop_ {A R} (fuel : nat) (body : A -> M S (A + R)) (a : A) : M S R :=
  match fuel with
  | O => halt NoFuel
  | Datatypes.S n =>
      r ← body a;
      match r with
      | inl a' => loop_ n body a'
      | inr v => mret v
      end
  end.

(** [for (x in l) body] that carries the value [a] of a variable. *)
Fixpoint fold_ {X A} (l : list X) (a : A) (body : A -> X -> M S A) : M S A :=
  match l with
  | [] => mret a
  | x :: l' => a' ← body a x; fold_ l' a' body
  end.

(** The same with [break]: [true] leaves the loop. *)
Fixpoint fold_break {X A} (l : list X) (a : A) (body : A -> X -> M S (A * bool)) : M S A :=
  match l with
  | [] => mret a
  | x :: l' => '(a', b) ← body a x; if b : bool then mret a' else fold_break l' a' body
  end.
End computations.

(** ** Weakest preconditions
    [wp m Q E s]: run from [s], [m] returns a value and a state in [Q], or stops for a
    reason and in a state in [E].  With [E := never] it is total correctness. *)
Definition wp {S A} (m : M S A) (Q : A -> S -> Prop) (E : stop -> S -> Prop) (s : S) : Prop :=
  match m s with Ret a s' => Q a s' | Halt w s' => E w s' end.
Definition never {S} (w : stop) (s : S) : Prop := False.

Section wp_rules.
Context {S : Type}.
Implicit Types (E : stop -> S -> Prop) (s : S).

Lemma wp_ret {A} (a : A) Q E s : Q a s -> wp (mret a) Q E s.
Proof. done. Qed.

Lemma wp_bind {A B} (m : M S A) (f : A -> M S B) Q E s :
  wp m (fun a s' => wp (f a) Q E s') E s -> wp (m ≫= f) Q E s.
Proof. unfold wp, mbind, M_bind. by destruct (m s). Qed.

Lemma wp_bind_inv {A B} (m : M S A) (f : A -> M S B) Q E s :
  wp (m ≫= f) Q E s -> wp m (fun a s' => wp (f a) Q E s') E s.
Proof. unfold wp, mbind, M_bind. by destruct (m s). Qed.

Lemma wp_mono {A} (m : M S A) Q Q' E E' s :
  wp m Q E s -> (forall a s', Q a s' -> Q' a s') -> (forall w s', E w s' -> E' w s') ->
  wp m Q' E' s.
Proof. unfold wp. destruct (m s); eauto. Qed.

Lemma wp_conj {A} (m : M S A) Q Q' E s :
  wp m Q E s -> wp m Q' E s -> wp m (fun a s' => Q a s' /\ Q' a s') E s.
Proof. unfold wp. by destruct (m s). Qed.

Lemma wp_halt {A} w (Q : A -> S -> Prop) E s : E w s -> wp (halt w) Q E s.
Proof. done. Qed.

Lemma wp_get (Q : S -> S -> Prop) E s : Q s s -> wp get Q E s.
Proof. done. Qed.

Lemma wp_gets {A} (f : S -> A) Q E s : Q (f s) s -> wp (gets f) Q E s.
Proof. done. Qed.

Lemma wp_modify f (Q : unit -> S -> Prop) E s : Q tt (f s) -> wp (modify f) Q E s.
Proof. done. Qed.

Lemma wp_put s' (Q : unit -> S -> Prop) E s : Q tt s' -> wp (put s') Q E s.
Proof. done. Qed.

Lemma wp_assert c (Q : unit -> S -> Prop) E s : c = true -> Q tt s -> wp (assert_ c) Q E s.
Proof. by intros ->. Qed.

Lemma wp_deref {A} (o : option A) a (Q : A -> S -> Prop) E s :
  o = Some a -> Q a s -> wp (deref o) Q E s.
Proof. by intros ->. Qed.

(** The loop rules: the invariant is indexed by the elements already visited. *)
Lemma wp_for {X R} (l : list X) (body : X -> M S (option R)) (I : list X -> S -> Prop) Q E s :
  I [] s ->
  (forall pre x post s', l = pre ++ x :: post -> I pre s' ->
     wp (body x) (fun r s'' => match r with Some v => Q (Some v) s'' | None => I (pre ++ [x]) s'' end)
        E s') ->
  (forall s', I l s' -> Q None s') ->
  wp (for_ l body) Q E s.
Proof.
  intros H0 Hstep Hend.
  enough (forall post pre s', l = pre ++ post -> I pre s' -> wp (for_ post body) Q E s') as H
    by (by apply (H l [])).
  induction post as [|x post IH]; intros pre s' -> HI; simpl.
  - apply wp_ret, Hend. by rewrite app_nil_r.
  - apply wp_bind. eapply wp_mono; [by eapply Hstep| |done].
    intros [v|] s'' HQ; [by apply wp_ret|].
    apply (IH (pre ++ [x])); [by rewrite <-app_assoc | done].
Qed.

Lemma wp_foreach {X} (l : list X) (body : X -> M S unit) (I : list X -> S -> Prop)
    (Q : unit -> S -> Prop) E s :
  I [] s ->
  (forall pre x post s', l = pre ++ x :: post -> I pre s' ->
     wp (body x) (fun _ s'' => I (pre ++ [x]) s'') E s') ->
  (forall s', I l s' -> Q tt s') ->
  wp (foreach l body) Q E s.
Proof.
  intros H0 Hstep Hend.
  enough (forall post pre s', l = pre ++ post -> I pre s' -> wp (foreach post body) Q E s') as H
    by (by apply (H l [])).
  induction post as [|x post IH]; intros pre s' -> HI; simpl.
  - apply wp_ret, Hend. by rewrite app_nil_r.
  - apply wp_bind. eapply wp_mono; [by eapply Hstep| |done].
    intros [] s'' HQ. apply (IH (pre ++ [x])); [by rewrite <-app_assoc | done].
Qed.

(** A [while] loop with a variant [n] terminates within its fuel. *)
Lemma wp_while {R} (fuel : nat) (body : M S (option R)) (I : nat -> S -> Prop) Q E n s :
  (forall n s', I n s' ->
     wp body (fun r s'' => match r with Some v => Q v s'' | None => exists n', n' < n /\ I n' s'' end)
        E s') ->
  I n s -> n < fuel -> wp (while_ fuel body) Q E s.
Proof.
  intros Hstep. revert n s. induction fuel as [|fuel IH]; intros n s HI Hn; [lia|].
  simpl. apply wp_bind. eapply wp_mono; [by eapply Hstep| |done].
  intros [v|] s'' HQ; [by apply wp_ret|]. destruct HQ as (n' & Hlt & HI').
  apply (IH n'); [done|lia].
Qed.

Lemma wp_fold {X A} (l : list X) (a : A) (body : A -> X -> M S A) (I : list X -> A -> S -> Prop)
    (Q : A -> S -> Prop) E s :
  I [] a s ->
  (forall pre x post a' s', l = pre ++ x :: post -> I pre a' s' ->
     wp (body a' x) (fun a'' s'' => I (pre ++ [x]) a'' s'') E s') ->
  (forall a' s', I l a' s' -> Q a' s') ->
  wp (fold_ l a body) Q E s.
Proof.
  intros H0 Hstep Hend.
  enough (forall post pre a' s', l = pre ++ post -> I pre a' s' -> wp (fold_ post a' body) Q E s')
    as H by (by apply (H l [])).
  induction post as [|x post IH]; intros pre a' s' -> HI; simpl.
  - apply wp_ret, Hend. by rewrite app_nil_r.
  - apply wp_bind. eapply wp_mono; [by eapply Hstep| |done].
    intros a'' s'' HQ. apply (IH (pre ++ [x])); [by rewrite <-app_assoc | done].
Qed.

Lemma wp_fold_break {X A} (l : list X) (a : A) (body : A -> X -> M S (A * bool))
    (I : list X -> A -> S -> Prop) (Q : A -> S -> Prop) E s :
  I [] a s ->
  (forall pre x post a' s', l = pre ++ x :: post -> I pre a' s' ->
     wp (body a' x) (fun r s'' => if r.2 then Q r.1 s'' else I (pre ++ [x]) r.1 s'') E s') ->
  (forall a' s', I l a' s' -> Q a' s') ->
  wp (fold_break l a body) Q E s.
Proof.
  intros H0 Hstep Hend.
  enough (forall post pre a' s', l = pre ++ post -> I pre a' s' -> wp (fold_break post a' body) Q E s')
    as H by (by apply (H l [])).
  induction post as [|x post IH]; intros pre a' s' -> HI; simpl.
  - apply wp_ret, Hend. by rewrite app_nil_r.
  - apply wp_bind. eapply wp_mono; [by eapply Hstep| |done].
    intros [a'' []] s'' HQ; [by apply wp_ret|]. apply (IH (pre ++ [x])); [by rewrite <-app_assoc | done].
Qed.

(** A loop with a variant [n] terminates within its fuel. *)
Lemma wp_loop {A R} (fuel : nat) (body : A -> M S (A + R)) (I : nat -> A -> S -> Prop)
    (Q : R -> S -> Prop) E n a s :
  (forall n a s', I n a s' ->
     wp (body a) (fun r s'' => match r with
                               | inl a' => exists n', n' < n /\ I n' a' s''
                               | inr v => Q v s'' end) E s') ->
  I n a s -> n < fuel -> wp (loop_ fuel body a) Q E s.
Proof.
  intros Hstep. revert n a s. induction fuel as [|fuel IH]; intros n a s HI Hn; [lia|].
  simpl. apply wp_bind. eapply wp_mono; [by eapply Hstep| |done].
  intros [a'|v] s'' HQ; [|by apply wp_ret]. destruct HQ as (n' & Hlt & HI').
  apply (IH n'); [done|lia].
Qed.

(** One turn of a loop. *)
Lemma while_none {R} (fuel : nat) (body : M S (option R)) s s' :
  body s = Ret None s' -> while_ (Datatypes.S fuel) body s = while_ fuel body s'.
Proof. intros Hb. simpl. unfold mbind, M_bind. by rewrite Hb. Qed.
Lemma loop_next {A R} (fuel : nat) (body : A -> M S (A + R)) a a' s s' :
  body a s = Ret (inl a') s' -> loop_ (Datatypes.S fuel) body a s = loop_ fuel body a' s'.
Proof. intros Hb. simpl. unfold mbind, M_bind. by rewrite Hb. Qed.
Lemma loop_end {A R} (fuel : nat) (body : A -> M S (A + R)) a r s s' :
  body a s = Ret (inr r) s' -> loop_ (Datatypes.S fuel) body a s = Ret r s'.
Proof. intros Hb. simpl. unfold mbind, M_bind. by rewrite Hb. Qed.

(** A loop that only reads the state: [f j] is the value carried at turn [j]. *)
Lemma loop_run {A R} (fuel : nat) (body : A -> M S (A + R)) (f : nat -> A) (d : nat) v s :
  (forall j, j < d -> body (f j) s = Ret (inl (f (Datatypes.S j))) s) ->
  body (f d) s = Ret (inr v) s -> d < fuel -> loop_ fuel body (f 0) s = Ret v s.
Proof.
  revert f fuel. induction d as [|d IH]; intros f fuel Hstep Hend Hf;
    (destruct fuel as [|fuel]; [lia|]); simpl; unfold mbind, M_bind.
  - by rewrite Hend.
  - rewrite (Hstep 0) by lia.
    apply (IH (fun j => f (Datatypes.S j))); [|done|lia].
    intros j Hj. apply Hstep. lia.
Qed.

(** The first turns of a loop, when they only read the state. *)
Lemma loop_steps {A R} (fuel : nat) (body : A -> M S (A + R)) (f : nat -> A) (d : nat) s :
  (forall j, j < d -> body (f j) s = Ret (inl (f (Datatypes.S j))) s) -> d <= fuel ->
  loop_ fuel body (f 0) s = loop_ (fuel - d) body (f d) s.
Proof.
  revert f fuel. induction d as [|d IH]; intros f fuel Hstep Hf; [by rewrite Nat.sub_0_r|].
  destruct fuel as [|fuel]; [lia|]. simpl. unfold mbind, M_bind. rewrite (Hstep 0) by lia.
  apply (IH (fun j => f (Datatypes.S j))); [|lia]. intros j Hj. apply Hstep. lia.
Qed.

Lemma loop_run_halt {A R} (fuel : nat) (body : A -> M S (A + R)) (f : nat -> A) (d : nat) w s :
  (forall j, j < d -> body (f j) s = Ret (inl (f (Datatypes.S j))) s) ->
  body (f d) s = Halt w s -> d < fuel -> loop_ fuel body (f 0) s = Halt w s.
Proof.
  revert f fuel. induction d as [|d IH]; intros f fuel Hstep Hend Hf;
    (destruct fuel as [|fuel]; [lia|]); simpl; unfold mbind, M_bind.
  - by rewrite Hend.
  - rewrite (Hstep 0) by lia.
    apply (IH (fun j => f (Datatypes.S j))); [|done|lia].
    intros j Hj. apply Hstep. lia.
Qed.
End wp_rules.

(** The least number with a decidable property. *)
Lemma least_nat (P : nat -> Prop) `{forall n, Decision (P n)} n :
  P n -> exists d, d <= n /\ P d /\ forall j, j < d -> ~ P j.
Proof.
  revert n. induction n as [n IH] using lt_wf_ind. intros Hn.
  destruct (decide (Exists P (seq 0 n))) as [He|He].
  - apply List.Exists_exists in He as (j & Hj & HPj). apply in_seq in Hj.
    destruct (IH j) as (d & ? & ? & ?); [lia|done|]. exists d. split_and!; [lia|done..].
  - exists n. split_and!; [done..|]. intros j Hj HPj. apply He.
    apply List.Exists_exists. exists j. split; [apply in_seq; lia|done].
Qed.

(** One step of symbolic execution; [wp_go] repeats it. *)
Ltac wp_step :=
  lazymatch goal with
  | |- wp (_ ≫= _) _ _ _ => apply wp_bind
  | |- wp (mret _) _ _ _ => apply wp_ret
  | |- wp get _ _ _ => apply wp_get
  | |- wp (gets _) _ _ _ => apply wp_gets
  | |- wp (modify _) _ _ _ => apply wp_modify
  | |- wp (put _) _ _ _ => apply wp_put
  | |- wp (halt _) _ _ _ => apply wp_halt
  end.
Ltac wp_go := repeat (wp_step; cbn beta).

(** ** Record update
    [r <| f := v |>] is [r] with the field [f] set to [v].  A record type takes part by
    an instance of [Eta], its eta expansion; the setter of a field is the expansion with
    that projection replaced. *)
Class Eta (R : Type) := eta : R -> R.
Class Upd {R T : Type} (proj : R -> T) := upd : (T -> T) -> R -> R.
Arguments upd {R T} proj {_} f r.

Ltac solve_upd :=
  lazymatch goal with
  | |- @Upd ?R ?T ?proj =>
      let e := constr:(@eta R _) in
      let b := eval hnf in e in
      let f := fresh "f" in
      let r := fresh "r" in
      intros f r;
      let t := eval cbv beta in (b r) in
      lazymatch t with
      | context C [proj r] => let t' := context C [f (proj r)] in exact t'
      end
  end.
#[export] Hint Extern 1 (Upd _) => solve_upd : typeclass_instances.

Declare Scope record_scope.
Delimit Scope record_scope with record.
#[warnings="-postfix-notation-not-level-1"]
Notation "r <| f := v |>" := (upd f (fun _ => v) r)
  (at level 12, left associativity, format "r  <|  f  :=  v  |>") : record_scope.
#[global] Open Scope record_scope.

(** ** Arrays
    A C array is a list and an index a [Z]; reading outside it gives [None]. *)
Definition aget {A} (l : list A) (i : Z) : option A :=
  if bool_decide (0 <= i)%Z then l !! Z.to_nat i else None.
Definition aupd {A} (i : Z) (f : A -> A) (l : list A) : list A :=
  if bool_decide (0 <= i)%Z then alter f (Z.to_nat i) l else l.
#[global] Arguments aget : simpl never.
#[global] Arguments aupd : simpl never.

Section arrays.
Context {A : Type}.
Implicit Types (l : list A) (i j : Z) (f : A -> A).
Local Open Scope Z_scope.

Lemma aget_Some l i x : aget l i = Some x <-> 0 <= i /\ l !! Z.to_nat i = Some x.
Proof. unfold aget. case_bool_decide; split; [done|by intros [_ ?]|done|by intros [? _]]. Qed.

Lemma aget_range l i x : aget l i = Some x -> 0 <= i < Z.of_nat (length l).
Proof. rewrite aget_Some. intros [? H%lookup_lt_Some]. lia. Qed.

Lemma aget_is_Some l i : 0 <= i < Z.of_nat (length l) -> exists x, aget l i = Some x.
Proof.
  intros Hi. unfold aget. rewrite bool_decide_true by lia.
  apply lookup_lt_is_Some_2. lia.
Qed.

Lemma aget_nat l (n : nat) : aget l (Z.of_nat n) = l !! n.
Proof. unfold aget. rewrite bool_decide_true by lia. by rewrite Nat2Z.id. Qed.

Lemma length_aupd l i f : length (aupd i f l) = length l.
Proof. unfold aupd. case_bool_decide; [apply length_alter | done]. Qed.

Lemma aget_aupd_eq l i f : aget (aupd i f l) i = f <$> aget l i.
Proof.
  unfold aget, aupd. case_bool_decide; [|done].
  apply list_lookup_alter_eq.
Qed.

Lemma aget_aupd_ne l i j f : i <> j -> aget (aupd i f l) j = aget l j.
Proof.
  intros Hne. unfold aget, aupd. repeat case_bool_decide; try done.
  apply list_lookup_alter_ne. lia.
Qed.

Lemma aget_aupd l i j f :
  aget (aupd i f l) j = if decide (i = j) then f <$> aget l j else aget l j.
Proof. case_decide as Hd; [subst; apply aget_aupd_eq | by apply aget_aupd_ne]. Qed.

Lemma aupd_aupd l i f g : aupd i f (aupd i g l) = aupd i (f ∘ g) l.
Proof.
  apply list_eq. intros n. rewrite <-!aget_nat.
  destruct (decide (i = Z.of_nat n)) as [->|Hne].
  - rewrite !aget_aupd_eq. by destruct (aget l (Z.of_nat n)).
  - by rewrite !aget_aupd_ne.
Qed.

Lemma aupd_ext l i f g : (forall x, aget l i = Some x -> f x = g x) -> aupd i f l = aupd i g l.
Proof.
  intros Hf. apply list_eq. intros n. rewrite <-!aget_nat.
  destruct (decide (i = Z.of_nat n)) as [->|Hne]; [|by rewrite !aget_aupd_ne].
  rewrite !aget_aupd_eq. destruct (aget l (Z.of_nat n)) eqn:E; [|done].
  simpl. f_equal. by apply Hf.
Qed.

Lemma aupd_id l i f : (forall x, aget l i = Some x -> f x = x) -> aupd i f l = l.
Proof.
  intros Hf. apply list_eq. intros n. rewrite <-!aget_nat.
  destruct (decide (i = Z.of_nat n)) as [->|Hne]; [|by rewrite aget_aupd_ne].
  rewrite aget_aupd_eq. destruct (aget l (Z.of_nat n)) eqn:E; [|done].
  simpl. f_equal. by apply Hf.
Qed.
End arrays.
Lemma aget_fmap {A B} (g : A -> B) (l : list A) i : aget (g <$> l) i = g <$> aget l i.
Proof. unfold aget. case_bool_decide; [|done]. by rewrite list_lookup_fmap. Qed.
Lemma fmap_aupd {A B} (g : A -> B) f f' i (l : list A) :
  (forall x, aget l i = Some x -> g (f x) = f' (g x)) -> g <$> aupd i f l = aupd i f' (g <$> l).
Proof.
  intros Hg. apply list_eq. intros n. rewrite list_lookup_fmap, <-!aget_nat, !aget_aupd, !aget_fmap.
  case_decide as Hi; [|done]. subst i. destruct (aget l (Z.of_nat n)) as [x|] eqn:E; [|done]. simpl. f_equal. by apply Hg.
Qed.
Lemma fmap_aupd_same {A B} (g : A -> B) i f (l : list A) : (forall x, aget l i = Some x -> g (f x) = g x) -> g <$> aupd i f l = g <$> l.
Proof. intros Hg. rewrite (fmap_aupd _ _ id) by done. by apply aupd_id. Qed.

(** The bytes of a C string in an array, up to the first zero. *)
Fixpoint cstr (buf : list Z) : list Z :=
  match buf with
  | [] => []
  | c :: buf => if (c =? 0)%Z then [] else c :: cstr buf
  end.

Create HintDb arr discriminated.
#[export] Hint Resolve aget_range aget_is_Some : arr.

(** Lemmas on the machine integers. *)
Section words.
Local Open Scope Z_scope.
Lemma u32_small z : 0 <= z < 2 ^ 32 -> u32 z = z.
Proof. apply Z.mod_small. Qed.
Lemma u32_range z : 0 <= u32 z < 2 ^ 32.
Proof. by apply Z.mod_pos_bound. Qed.
Lemma u16_small z : 0 <= z < 2 ^ 16 -> u16 z = z.
Proof. apply Z.mod_small. Qed.
Lemma u16_range z : 0 <= u16 z < 2 ^ 16.
Proof. by apply Z.mod_pos_bound. Qed.
Lemma u64_small z : 0 <= z < 2 ^ 64 -> u64 z = z.
Proof. apply Z.mod_small. Qed.
Lemma s32_small z : - 2 ^ 31 <= z < 2 ^ 31 -> s32 z = z.
Proof. intros. unfold s32. rewrite Z.mod_small; lia. Qed.
Lemma u32_u32 z : u32 (u32 z) = u32 z.
Proof. apply Z.mod_mod; lia. Qed.
Lemma u32_add_l a b : u32 (u32 a + b) = u32 (a + b).
Proof. apply Z.add_mod_idemp_l; lia. Qed.
Lemma u32_add_r a b : u32 (a + u32 b) = u32 (a + b).
Proof. apply Z.add_mod_idemp_r; lia. Qed.
Lemma s32_add_l a b : s32 (s32 a + b) = s32 (a + b).
Proof.
  unfold s32. f_equal.
  replace (_ - 2 ^ 31 + b + 2 ^ 31) with ((a + 2 ^ 31) mod 2 ^ 32 + b) by lia.
  rewrite Z.add_mod_idemp_l by lia. f_equal. lia.
Qed.
Lemma u32_s32 z : u32 (s32 z) = u32 z.
Proof.
  unfold u32, s32. rewrite Zminus_mod_idemp_l. f_equal. lia.
Qed.
End words.
Create Rewrite HintDb words.
#[export] Hint Rewrite u32_u32 u32_add_l u32_add_r u32_s32 : words.

(** ** Sums over a list *)
Definition sumZ {A} (f : A -> Z) (l : list A) : Z := foldr (fun x a => (f x + a)%Z) 0%Z l.
#[global] Arguments sumZ : simpl never.

Section sums.
Context {A : Type} (f : A -> Z).
Implicit Types (l : list A).
Local Open Scope Z_scope.

Lemma sumZ_cons x l : sumZ f (x :: l) = f x + sumZ f l.
Proof. done. Qed.

Lemma sumZ_app l l' : sumZ f (l ++ l') = sumZ f l + sumZ f l'.
Proof. induction l as [|x l IH]; [done|]. rewrite <-app_comm_cons, !sumZ_cons, IH. lia. Qed.

Lemma sumZ_nonneg l : Forall (fun x => 0 <= f x) l -> 0 <= sumZ f l.
Proof. induction 1; [done|]. rewrite sumZ_cons. lia. Qed.

Lemma sumZ_take_S l n x : l !! n = Some x -> sumZ f (take (S n) l) = sumZ f (take n l) + f x.
Proof. intros Hx. rewrite (take_S_r _ _ _ Hx), sumZ_app. unfold sumZ; simpl. lia. Qed.

Lemma sumZ_take_drop l n : sumZ f l = sumZ f (take n l) + sumZ f (drop n l).
Proof. by rewrite <-sumZ_app, take_drop. Qed.

Lemma sumZ_aupd l i g x :
  aget l i = Some x -> sumZ f (aupd i g l) = sumZ f l - f x + f (g x).
Proof.
  intros [Hi Hx]%aget_Some. unfold aupd. rewrite bool_decide_true by done.
  generalize dependent (Z.to_nat i). clear i Hi. intros n. revert l.
  induction n as [|n IH]; intros [|y l] Hx; simplify_eq/=; rewrite !sumZ_cons.
  - lia.
  - rewrite IH by done. lia.
Qed.
End sums.

Section filters.
Context {A : Type} (P : A -> Prop) `{forall x, Decision (P x)}.

Lemma filter_none (l : list A) : Forall (fun x => ~ P x) l -> filter P l = [].
Proof. induction 1; [done|]. by rewrite filter_cons_False. Qed.

Lemma filter_all (l : list A) : Forall P l -> filter P l = l.
Proof. induction 1; [done|]. rewrite filter_cons_True by done. by f_equal. Qed.
End filters.

Lemma list_filter_iff' {A} (P Q : A -> Prop) `{forall x, Decision (P x), forall x, Decision (Q x)}
    (l : list A) : Forall (fun x => P x <-> Q x) l -> filter P l = filter Q l.
Proof.
  induction 1 as [|x l Hx _ IH]; [done|]. rewrite !filter_cons, IH.
  repeat case_decide; first [done | by destruct Hx; exfalso; auto].
Qed.

(** How many numbers of a range lie in an interval. *)
Lemma count_interval (a b m n : Z) :
  (m <= a -> a <= b -> b <= m + n ->
   Z.of_nat (length (filter (fun k => a <= k < b) (seqZ m n))) = b - a)%Z.
Proof.
  intros Ha Hab Hb.
  replace n with ((a - m) + ((b - a) + (m + n - b)))%Z by lia.
  rewrite !seqZ_app, !list.filter_app by lia.
  replace (m + (a - m))%Z with a by lia. replace (a + (b - a))%Z with b by lia.
  rewrite (filter_none _ (seqZ m (a - m))), (filter_all _ (seqZ a (b - a))),
    (filter_none _ (seqZ b _)) by (apply Forall_seqZ; intros; lia).
  rewrite app_nil_r. simpl. rewrite length_seqZ. lia.
Qed.

(** The numbers visited by a loop from 0. *)
Lemma seqZ_visit n pre x post :
  seqZ 0 n = pre ++ x :: post -> x = Z.of_nat (length pre) /\ (0 <= x < n)%Z.
Proof.
  intros Hs. assert (seqZ 0 n !! length pre = Some x) as Hx.
  { by rewrite Hs, list_lookup_middle. }
  apply lookup_seqZ in Hx. lia.
Qed.

Lemma sumZ_replicate {A} (f : A -> Z) n x : sumZ f (replicate n x) = (Z.of_nat n * f x)%Z.
Proof. induction n as [|n IH]; [done|]. simpl replicate. rewrite sumZ_cons, IH. lia. Qed.

Lemma aget_replicate {A} (n : nat) (x y : A) i : aget (replicate n x) i = Some y -> y = x.
Proof. rewrite aget_Some. by intros [_ [-> _]%lookup_replicate]. Qed.

(** ** Running a computation step by step *)
Lemma wp_never_run {S A} (m : M S A) Q s : wp m Q never s -> exists a s', m s = Ret a s' /\ Q a s'.
Proof. unfold wp. destruct (m s); [eauto|done]. Qed.

Lemma bind_ret {S A B} (m : M S A) (f : A -> M S B) a s s' :
  m s = Ret a s' -> (m ≫= f) s = f a s'.
Proof. unfold mbind, M_bind. by intros ->. Qed.

Lemma get_run {S} (s : S) : get s = Ret s s.
Proof. done. Qed.
Lemma mret_run {S A} (x : A) (s : S) : (mret x : M S A) s = Ret x s.
Proof. done. Qed.

Lemma bind_halt {S A B} (m : M S A) (f : A -> M S B) w s s' :
  m s = Halt w s' -> (m ≫= f) s = Halt w s'.
Proof. unfold mbind, M_bind. by intros ->. Qed.

Lemma for_none_run {S X R} (l : list X) (body : X -> M S (option R)) s :
  (forall x, x ∈ l -> body x s = Ret None s) -> for_ l body s = Ret None s.
Proof.
  induction l as [|x l IH]; intros Hb; [done|]. simpl. rewrite (bind_ret _ _ _ _ _ (Hb x ltac:(by left))).
  apply IH. intros y Hy. apply Hb. by right.
Qed.

Lemma wp_ret_run {S A} (m : M S A) Q E a s s' : m s = Ret a s' -> Q a s' -> wp m Q E s.
Proof. unfold wp. by intros ->. Qed.

Lemma wp_bind_run {S A B} (m : M S A) (f : A -> M S B) Q E a s s' :
  m s = Ret a s' -> wp (f a) Q E s' -> wp (m ≫= f) Q E s.
Proof. intros Hm Hf. apply wp_bind. by eapply wp_ret_run. Qed.

(** [run_step] runs the first computation of a sequence by [reflexivity] or by a lemma
    of the hint database [run]. *)
Create HintDb run discriminated.
Ltac run_step :=
  first [ erewrite bind_ret by (first [reflexivity | eauto 3 with run])
        | erewrite bind_halt by (first [reflexivity | eauto 3 with run])
        | eapply wp_bind_run; [first [reflexivity | eauto 3 with run]|] ];
  cbn beta iota.

(** ** Loops that update an array element by element
    [map_pre n f l] applies [f] to the first [n] elements. *)
Definition map_pre {A} (n : nat) (f : A -> A) (l : list A) : list A :=
  (f <$> take n l) ++ drop n l.

Section map_pre.
Context {A : Type} (f : A -> A).
Implicit Types (l : list A).

Lemma length_map_pre n l : length (map_pre n f l) = length l.
Proof. unfold map_pre. rewrite length_app, length_fmap, length_take, length_drop. lia. Qed.

Lemma map_pre_0 l : map_pre 0 f l = l.
Proof. done. Qed.

Lemma map_pre_cons n x l : map_pre (S n) f (x :: l) = f x :: map_pre n f l.
Proof. done. Qed.

Lemma lookup_map_pre n l i :
  map_pre n f l !! i = if decide (i < n)%nat then f <$> l !! i else l !! i.
Proof.
  revert n i. induction l as [|x l IH]; intros [|n] [|i]; try done.
  - unfold map_pre. rewrite take_nil, drop_nil. simpl. by destruct (decide _).
  - rewrite map_pre_cons. simpl. rewrite IH. repeat case_decide; first [done | lia].
Qed.

Lemma aget_map_pre n l i :
  aget (map_pre n f l) i = if decide (i < Z.of_nat n)%Z then f <$> aget l i else aget l i.
Proof.
  unfold aget. case_bool_decide; [|by case_decide]. rewrite lookup_map_pre.
  repeat case_decide; first [done | lia].
Qed.
End map_pre.

Lemma aupd_0 {A} (f : A -> A) x l : aupd 0 f (x :: l) = f x :: l.
Proof. done. Qed.
Lemma aupd_app {A} (f : A -> A) pre x post :
  aupd (Z.of_nat (length pre)) f (pre ++ x :: post) = pre ++ f x :: post.
Proof.
  unfold aupd. rewrite bool_decide_true, Nat2Z.id by lia.
  induction pre as [|y pre IH]; [done|]. cbn. f_equal. apply IH.
Qed.
Lemma aget_app {A} pre (x : A) post : aget (pre ++ x :: post) (Z.of_nat (length pre)) = Some x.
Proof. rewrite aget_nat. by apply list_lookup_middle. Qed.

(** A loop whose turn [i] replaces element [x] at index [i] by [f x] and emits [g x]; [st]
    is the state that holds an array and a log. *)
Lemma foreach_update {S A P} (st : list A -> list P -> S) (body : Z -> M S unit)
    (f : A -> A) (g : A -> list P) (OKx : A -> Prop) (n : nat) l o :
  (n <= length l)%nat -> Forall OKx (take n l) ->
  (forall i l o x, (0 <= i)%Z -> aget l i = Some x -> OKx x ->
     (i < Z.of_nat n)%Z ->
     body i (st l o) = Ret tt (st (aupd i (fun _ => f x) l) (o ++ g x))) ->
  foreach (seqZ 0 (Z.of_nat n)) body (st l o) =
    Ret tt (st (map_pre n f l) (o ++ concat (g <$> take n l))).
Proof.
  intros Hn Hok Hbody.
  enough (forall m pre post o, (m <= length post)%nat -> Forall OKx (take m post) ->
     (length pre + m <= n)%nat ->
     foreach (seqZ (Z.of_nat (length pre)) (Z.of_nat m)) body (st (pre ++ post) o) =
       Ret tt (st (pre ++ map_pre m f post) (o ++ concat (g <$> take m post)))) as H
    by (by apply (H n [])).
  clear Hn Hok l o. induction m as [|m IH]; intros pre post o Hm Hok Hle.
  - rewrite map_pre_0. simpl. by rewrite app_nil_r.
  - destruct post as [|x post]; [simpl in Hm; lia|].
    simpl in Hok. apply list.Forall_cons in Hok as [Hx Hok].
    rewrite seqZ_cons by lia. cbn [foreach].
    rewrite (bind_ret _ _ tt _ (st (pre ++ f x :: post) (o ++ g x))).
    2:{ rewrite <-(aupd_app (fun _ => f x) pre x post).
        apply Hbody; [lia|apply aget_app|done|lia]. }
    replace (Z.succ (Z.of_nat (length pre))) with (Z.of_nat (length (pre ++ [f x])))
      by (rewrite length_app; simpl; lia).
    replace (Z.pred (Z.of_nat (Datatypes.S m))) with (Z.of_nat m) by lia.
    replace (pre ++ f x :: post) with ((pre ++ [f x]) ++ post) by (by rewrite <-app_assoc).
    rewrite IH; [|simpl in Hm; lia|done|rewrite length_app; simpl; lia].
    rewrite map_pre_cons. simpl. by rewrite <-!app_assoc.
Qed.

(** A loop over an array that leaves at the first element with a property and only reads
    before it. *)
Lemma for_first {S A R} (P : A -> Prop) `{forall x, Decision (P x)} (l : list A)
    (body : Z -> M S (option R)) s n :
  n = Z.of_nat (length l) ->
  (forall i x, l !! i = Some x -> ~ P x -> body (Z.of_nat i) s = Ret None s) ->
  (forall i x, list_find P l = Some (i, x) ->
     match body (Z.of_nat i) s with Ret None _ => False | _ => True end) ->
  for_ (seqZ 0 n) body s =
    match list_find P l with Some (i, x) => body (Z.of_nat i) s | None => Ret None s end.
Proof.
  intros -> Hno Hyes.
  enough (forall post pre, l = pre ++ post -> Forall (fun x => ~ P x) pre ->
     for_ (seqZ (Z.of_nat (length pre)) (Z.of_nat (length post))) body s =
       match list_find P l with Some (i, x) => body (Z.of_nat i) s | None => Ret None s end)
    as H0 by (by apply (H0 l [])).
  induction post as [|x post IH]; intros pre Hl Hpre.
  - rewrite app_nil_r in Hl. subst pre. simpl.
    destruct (list_find P l) as [[i x]|] eqn:E; [|done].
    apply list_find_Some in E as (Hi & HP & _). exfalso.
    rewrite Forall_lookup in Hpre. by apply (Hpre i x).
  - cbn [length]. rewrite seqZ_cons by lia. cbn [for_].
    assert (l !! length pre = Some x) as Hx by (rewrite Hl; by apply list_lookup_middle).
    destruct (decide (P x)) as [HP|HP].
    + assert (list_find P l = Some (length pre, x)) as Hf.
      { apply list_find_Some. split_and!; [done..|]. intros j y Hy Hj.
        rewrite Hl, lookup_app_l in Hy by done. rewrite Forall_lookup in Hpre. eauto. }
      rewrite Hf. specialize (Hyes _ _ Hf). unfold mbind, M_bind.
      by destruct (body (Z.of_nat (length pre)) s) as [[r|] s'|w s'].
    + rewrite (bind_ret _ _ None _ s) by eauto.
      replace (Z.succ (Z.of_nat (length pre))) with (Z.of_nat (length (pre ++ [x])))
        by (rewrite length_app; simpl; lia).
      replace (Z.pred (Z.of_nat (Datatypes.S (length post)))) with (Z.of_nat (length post)) by lia.
      apply IH; [by rewrite <-app_assoc|]. apply Forall_app. split; [done|by constructor].
Qed.

(** The first index with a property, as [for] finds it. *)
Definition first_index {A} (p : A -> bool) (l : list A) : option Z :=
  (fun x => Z.of_nat x.1) <$> list_find (fun x => p x = true) l.

Lemma first_index_Some {A} (p : A -> bool) (l : list A) i :
  first_index p l = Some i <->
  exists x, aget l i = Some x /\ p x = true /\
    forall j y, (0 <= j < i)%Z -> aget l j = Some y -> p y = false.
Proof.
  unfold first_index. rewrite fmap_Some. split.
  - intros ([n x] & Hf & ->). apply list_find_Some in Hf as (Hx & Hp & Hno). exists x.
    rewrite aget_nat. split_and!; [done..|]. intros j y Hj [_ Hy]%aget_Some.
    apply not_true_iff_false. eapply Hno; [done|]. simpl in *. lia.
  - intros (x & [Hi Hx]%aget_Some & Hp & Hno). exists (Z.to_nat i, x). simpl.
    rewrite Z2Nat.id by done. split; [|done]. apply list_find_Some. split_and!; [done..|].
    intros j y Hy Hj. apply not_true_iff_false, (Hno (Z.of_nat j)); [lia|]. by rewrite aget_nat.
Qed.
Lemma first_index_None {A} (p : A -> bool) (l : list A) :
  first_index p l = None <-> Forall (fun x => p x = false) l.
Proof.
  unfold first_index. rewrite fmap_None, list_find_None.
  split; intros Hf; (eapply list.Forall_impl; [exact Hf|]); intros x; simpl; by rewrite not_true_iff_false.
Qed.

(** A search of an array: the body only reads, and leaves with [f i] at the first element
    with the property. *)
Lemma for_search {S A R} (q : A -> bool) (f : Z -> R) (l : list A)
    (body : Z -> M S (option R)) s n :
  n = Z.of_nat (length l) ->
  (forall i x, l !! i = Some x ->
     body (Z.of_nat i) s = Ret (if q x then Some (f (Z.of_nat i)) else None) s) ->
  for_ (seqZ 0 n) body s = Ret (f <$> first_index q l) s.
Proof.
  intros Hn Hb. rewrite (for_first (fun x => q x = true) l); [|done|..].
  - unfold first_index. destruct (list_find _ _) as [[i x]|] eqn:E; [|done].
    apply list_find_Some in E as (Hx & Hq & _). by rewrite (Hb _ _ Hx), Hq.
  - intros i x Hx Hq. rewrite (Hb _ _ Hx). by destruct (q x).
  - intros i x E. apply list_find_Some in E as (Hx & Hq & _). by rewrite (Hb _ _ Hx), Hq.
Qed.

Lemma Forall_impl2 {A} (P Q R : A -> Prop) (l : list A) :
  Forall P l -> Forall Q l -> (forall x, P x -> Q x -> R x) -> Forall R l.
Proof. induction 1; inversion 1; constructor; auto. Qed.

(** The same loop when an element stops it. *)
Lemma foreach_update_halt {S A P} (st : list A -> list P -> S) (body : Z -> M S unit) w
    (f : A -> A) (g : A -> list P) (OKx bad : A -> Prop) (n : nat) l o :
  (n <= length l)%nat -> Forall (fun x => OKx x \/ bad x) (take n l) -> Exists bad (take n l) ->
  (forall i l o x, (0 <= i)%Z -> aget l i = Some x -> OKx x ->
     body i (st l o) = Ret tt (st (aupd i (fun _ => f x) l) (o ++ g x))) ->
  (forall i l o x, (0 <= i)%Z -> aget l i = Some x -> bad x ->
     exists s', body i (st l o) = Halt w s') ->
  exists s', foreach (seqZ 0 (Z.of_nat n)) body (st l o) = Halt w s'.
Proof.
  intros Hn Hok Hex Hbody Hbad.
  enough (forall m pre post o, (m <= length post)%nat ->
     Forall (fun x => OKx x \/ bad x) (take m post) -> Exists bad (take m post) ->
     exists s', foreach (seqZ (Z.of_nat (length pre)) (Z.of_nat m)) body (st (pre ++ post) o)
       = Halt w s') as H by (by apply (H n [])).
  clear Hn Hok Hex l o. induction m as [|m IH]; intros pre post o Hm Hok Hex; [inversion Hex|].
  destruct post as [|x post]; [simpl in Hm; lia|].
  simpl in Hok, Hex. apply list.Forall_cons in Hok as [Hx Hok].
  rewrite seqZ_cons by lia. cbn [foreach].
  destruct Hx as [Hx|Hx].
  2:{ destruct (Hbad (Z.of_nat (length pre)) (pre ++ x :: post) o x) as [s' Hs'];
        [lia|apply aget_app|done|]. exists s'. by apply bind_halt. }
  rewrite (bind_ret _ _ tt _ (st ((pre ++ [f x]) ++ post) (o ++ g x))).
  2:{ rewrite <-app_assoc. simpl. rewrite <-(aupd_app (fun _ => f x) pre x post).
      apply Hbody; [lia|apply aget_app|done]. }
  replace (Z.succ (Z.of_nat (length pre))) with (Z.of_nat (length (pre ++ [f x])))
    by (rewrite length_app; simpl; lia).
  replace (Z.pred (Z.of_nat (Datatypes.S m))) with (Z.of_nat m) by lia.
  apply List.Exists_cons in Hex as [Hex|Hex].
  - destruct (Hbad (Z.of_nat (length pre)) (pre ++ x :: post) o x) as [s' Hs'];
      [lia|apply aget_app|done|].
    rewrite (Hbody _ _ _ x) in Hs'; [done|lia|apply aget_app|done].
  - apply IH; [simpl in Hm; lia|done|done].
Qed.

Lemma Forall_elem {A} (P : A -> Prop) (l : list A) x : Forall P l -> x ∈ l -> P x.
Proof. rewrite list.Forall_forall. auto. Qed.

Lemma sublist_concat {A B} (f : A -> list B) (l : list A) x :
  x ∈ l -> sublist (f x) (concat (f <$> l)).
Proof.
  intros (l1 & l2 & ->)%list_elem_of_split. rewrite fmap_app, concat_app. simpl.
  apply sublist_inserts_l, sublist_inserts_r. reflexivity.
Qed.
