(* ===== verification/CDouble.v ===== *)
(** The C type [double]: the binary64 operations of the Standard Library's [SpecFloat]
    and the conversions from and to integers that the modelled code performs. *)
From S2P Require Import Prelude.
From Stdlib Require SpecFloat.
Local Open Scope Z_scope.

Module Double.
Import SpecFloat.
Definition double : Type := spec_float.
Definition prec : Z := 53.
Definition emax : Z := 1024.
(** Conversion of an integer, rounded to nearest, ties to even. *)
Definition of_Z (z : Z) : double := binary_normalize prec emax z 0 false.
Definition add : double -> double -> double := SFadd prec emax.
Definition sub : double -> double -> double := SFsub prec emax.
Definition mul : double -> double -> double := SFmul prec emax.
Definition div : double -> double -> double := SFdiv prec emax.
Definition sqrt : double -> double := SFsqrt prec emax.
Definition ge (x y : double) : bool := SFleb y x.
(** Truncation towards zero. *)
Definition trunc (x : double) : option Z :=
  match x with
  | S754_zero _ => Some 0
  | S754_finite s m e =>
      let a := if 0 <=? e then Z.shiftl (Zpos m) e else Z.shiftr (Zpos m) (- e) in
      Some (if s then - a else a)
  | _ => None
  end.
(** Conversion to [unsigned]: undefined when the truncated value does not fit. *)
Definition to_unsigned (x : double) : option Z :=
  match trunc x with
  | Some z => if (0 <=? z) && (z <? 2 ^ 32) then Some z else None
  | None => None
  end.
End Double.
