(* ===== verification/Minix.v ===== *)
(** The part of the MINIX headers that the modelled components read and that is not in
    the repository: [minix/const.h], [minix/com.h], [minix/endpoint.h], [sys/errno.h].
    Their constants are fields of the class [MinixHeaders]; the facts the code relies on
    are the fields of [MinixLaws]. [demo_headers] instantiates both for the examples.
    The constants of [src/Project_2/src/config.h], which the group installs as
    [minix/config.h], are definitions. *)
From S2P Require Import Prelude.
Local Open Scope Z_scope.

(** ** Result codes
    The code compares results with [OK] and passes the others on by name; [Rc n] is a
    result that is none of the names used, for instance a value a kernel call returned. *)
Inductive rc :=
  | OK | EPERM | ENOENT | ESRCH | EINTR | EIO | E2BIG | EBADF | EAGAIN | ENOMEM | EACCES
  | EFAULT | EEXIST | EINVAL | ENOSPC | EDOM | ERANGE | EFBIG | EIDRM | ENOLCK | ENOSYS
  | EBADEPT | EDEADEPT | EDEADSRCDST | ENOTREADY | ELOCKED | ETRAPDENIED | ECALLDENIED
  | EBADCALL | EDONTREPLY | SUSPEND | EBUSY | ECHILD | EMFILE | ENFILE | EPIPE | EBADREQUEST | VMSUSPEND
  | Rc (n : Z).

#[export] Instance rc_eq_dec : EqDecision rc.
Proof. solve_decision. Defined.

(** ** [config.h] *)
Definition NR_SCHED_QUEUES : Z := 18.
Definition TASK_Q : Z := 0.
Definition MAX_USER_Q : Z := 16.
Definition MIN_USER_Q : Z := NR_SCHED_QUEUES - 1.
Definition USER_Q : Z := (MIN_USER_Q - MAX_USER_Q) ÷ 2 + MAX_USER_Q.
Definition USER_QUANTUM : Z := 200.

(** ** The headers *)
Class MinixHeaders := {
  NR_PROCS : Z;                   (* slots of the process tables *)
  NR_TASKS : Z;                   (* kernel tasks, numbered below 0 *)
  NR_SYS_PROCS : Z;               (* privilege structures *)
  _ENDPOINT_P : Z -> Z;           (* slot number of an endpoint *)
  ANY : Z;                        (* receive from anyone *)
  NONE : Z;                       (* no endpoint *)
  PM_PROC_NR : Z;
  RS_PROC_NR : Z;
  VFS_PROC_NR : Z;
  SCHED_PROC_NR : Z;
  DS_PROC_NR : Z;
  VM_PROC_NR : Z;
  INIT_PROC_NR : Z;
  CLOCK : Z;
  SYSTEM : Z;
  KERNEL : Z;
  HARDWARE : Z;
}.

Class MinixLaws `{MinixHeaders} : Prop := {
  NR_PROCS_pos : 0 < NR_PROCS;
  NR_PROCS_bound : NR_PROCS <= 2 ^ 15;
  NR_TASKS_nonneg : 0 <= NR_TASKS;
  NR_TASKS_bound : NR_TASKS <= 2 ^ 15;
  NR_SYS_PROCS_pos : 0 < NR_SYS_PROCS;
  ANY_not_NONE : ANY <> NONE;
  ANY_no_slot : NR_PROCS <= _ENDPOINT_P ANY;
  NONE_no_slot : NR_PROCS <= _ENDPOINT_P NONE;
}.

(** A small instance for the examples: eight slots, four tasks, endpoints numbered by
    generations of 1024. *)
#[local] Instance demo_headers : MinixHeaders := {
  NR_PROCS := 8;
  NR_TASKS := 4;
  NR_SYS_PROCS := 4;
  _ENDPOINT_P := fun e => (e + 4) mod 1024 - 4;
  ANY := 1000;
  NONE := 1001;
  PM_PROC_NR := 0;
  VFS_PROC_NR := 1;
  RS_PROC_NR := 2;
  SCHED_PROC_NR := 4;
  DS_PROC_NR := 6;
  VM_PROC_NR := 8;
  INIT_PROC_NR := 10;
  CLOCK := -3;
  SYSTEM := -2;
  KERNEL := -1;
  HARDWARE := -1;
}.

#[local] Instance demo_laws : MinixLaws.
Proof. by constructor. Qed.

(** [OK] is the only success code. *)
Definition is_ok (r : rc) : bool := bool_decide (r = OK).
