(* ===== verification/Sched.v ===== *)
(** The SCHED server with the group's lottery policy: [src/Project_2/src/sched/schedule.c]
    and [src/Project_2/src/schedproc.h] (the files the install script copies over the
    server), with [servers/sched/utility.c] and [servers/sched/main.c] around them.
    The kernel calls, the C library's [rand] and the timer library are the operations of
    the class [SchedEnv], which act on a world [W]. *)
From S2P Require Import Prelude CDouble Minix.
Local Open Scope Z_scope.

(** ** Data *)
Record schedproc := mk_schedproc {
  endpoint : Z;
  parent : Z;
  flags : Z;
  max_priority : Z;
  priority : Z;
  time_slice : Z;
  tickets : Z;
}.
#[export] Instance eta_schedproc : Eta schedproc := fun r =>
  mk_schedproc (endpoint r) (parent r) (flags r) (max_priority r) (priority r) (time_slice r)
    (tickets r).
Definition IN_USE : Z := 0x1.

(** The fields of a [message] that the server reads and writes. *)
Record message := mk_message {
  m_source : Z;
  m_type : Z;
  NOTIFY_TIMESTAMP : Z;
  SCHEDULING_ENDPOINT : Z;
  SCHEDULING_PARENT : Z;
  SCHEDULING_MAXPRIO : Z;
  SCHEDULING_QUANTUM : Z;
  SCHEDULING_SCHEDULER : Z;
}.
#[export] Instance eta_message : Eta message := fun r =>
  mk_message (m_source r) (m_type r) (NOTIFY_TIMESTAMP r) (SCHEDULING_ENDPOINT r)
    (SCHEDULING_PARENT r) (SCHEDULING_MAXPRIO r) (SCHEDULING_QUANTUM r) (SCHEDULING_SCHEDULER r).

(** Request numbers and IPC status tests of [minix/com.h] and [minix/ipcconst.h]. *)
Class SchedHeaders := {
  SCHEDULING_NO_QUANTUM : Z;
  SCHEDULING_START : Z;
  SCHEDULING_STOP : Z;
  SCHEDULING_SET_NICE : Z;
  SCHEDULING_INHERIT : Z;
  is_ipc_notify : Z -> bool;
  from_kernel : Z -> bool;      (* IPC_STATUS_FLAGS_TEST(status, IPC_FLG_MSG_FROM_KERNEL) *)
}.
Class SchedHeaderLaws `{SchedHeaders} : Prop :=
  request_numbers_distinct :
    NoDup [SCHEDULING_NO_QUANTUM; SCHEDULING_START; SCHEDULING_STOP; SCHEDULING_SET_NICE;
           SCHEDULING_INHERIT].

(** What the server asks of the kernel, the C library and the timer library. *)
Class SchedEnv (W : Type) := {
  sys_schedule : Z -> Z -> Z -> W -> rc * W;
  sys_schedctl : Z -> Z -> Z -> Z -> W -> rc * W;
  sys_hz : Z;
  init_timer : W -> W;
  set_timer : Z -> W -> W;
  timer_expired : Z -> W -> bool * W;    (* does expire_timers(now) run the watchdog? *)
  rand : W -> Z * W;
  send : Z -> message -> rc -> W -> W;   (* the reply: m_type is the result code *)
}.
(** [rand] returns a value from 0 to [RAND_MAX], which is an [int]. *)
Class SchedEnvLaws (W : Type) `{SchedEnv W} : Prop :=
  rand_range : forall w, 0 <= (rand w).1 < 2 ^ 31.

Record state (W : Type) := mk_state {
  procs : list schedproc;       (* schedproc[NR_PROCS] *)
  total_tickets : Z;            (* unsigned *)
  balance_timeout : Z;          (* unsigned *)
  world : W;
}.
Arguments mk_state {W}.
Arguments procs {W}.
Arguments total_tickets {W}.
Arguments balance_timeout {W}.
Arguments world {W}.
#[export] Instance eta_state (W : Type) : Eta (state W) := fun r =>
  mk_state (procs r) (total_tickets r) (balance_timeout r) (world r).

Definition BALANCE_TIMEOUT : Z := 5.

Section operations.
Context `{MinixHeaders} `{SchedHeaders} {W : Type} `{SchedEnv W}.
Abbreviation cmd := (M (state W)).

(** [rmp->f = v] for [rmp = &schedproc[i]]. *)
Definition slot (i : Z) : cmd schedproc := s ← get; deref (aget (procs s) i).
Definition set_slot (i : Z) (f : schedproc -> schedproc) : cmd unit :=
  slot i;; modify (fun s => s <| procs := aupd i f (procs s) |>).

(** A call of the environment. *)
Definition env {A} (f : W -> A * W) : cmd A :=
  s ← get; let '(a, w) := f (world s) in modify (fun s => s <| world := w |>);; mret a.

(** *** utility.c *)
Definition no_sys (who_e call_nr : Z) : rc := ENOSYS.

Definition sched_isokendpt (ep : Z) : cmd (rc * Z) :=
  let proc := _ENDPOINT_P ep in
  if proc <? 0 then mret (EBADEPT, proc) else
  if NR_PROCS <=? proc then mret (EINVAL, proc) else
  p ← slot proc;
  if negb (ep =? endpoint p) then mret (EDEADEPT, proc) else
  if Z.land (flags p) IN_USE =? 0 then mret (EDEADEPT, proc) else
  mret (OK, proc).

Definition sched_isemtyendpt (ep : Z) : cmd (rc * Z) :=
  let proc := _ENDPOINT_P ep in
  if proc <? 0 then mret (EBADEPT, proc) else
  if NR_PROCS <=? proc then mret (EINVAL, proc) else
  p ← slot proc;
  if negb (Z.land (flags p) IN_USE =? 0) then mret (EDEADEPT, proc) else
  mret (OK, proc).

Definition accept_message (m : message) : bool :=
  (m_source m =? PM_PROC_NR) || (m_source m =? RS_PROC_NR).

(** *** schedule.c *)
Definition schedule_process (i : Z) : cmd rc :=
  p ← slot i; env (sys_schedule (endpoint p) (priority p) (time_slice p)).

Definition do_noquantum (m : message) : cmd rc :=
  '(r, proc_nr_n) ← sched_isokendpt (m_source m);
  if negb (is_ok r) then mret EBADEPT else
  p ← slot proc_nr_n;
  (if priority p <? MIN_USER_Q
   then set_slot proc_nr_n (fun p => p <| priority := u32 (priority p + 1) |>)
   else mret tt);;
  rv ← schedule_process proc_nr_n;
  if negb (is_ok rv) then mret rv else mret OK.

Definition do_stop_scheduling (m : message) : cmd rc :=
  if negb (accept_message m) then mret EPERM else
  '(r, proc_nr_n) ← sched_isokendpt (SCHEDULING_ENDPOINT m);
  if negb (is_ok r) then mret EBADEPT else
  set_slot proc_nr_n (fun p => p <| flags := 0 |>);;
  mret OK.

(** The request writes [SCHEDULING_SCHEDULER] into its message, so the message is a
    second result. *)
Definition do_start_scheduling (m : message) : cmd (rc * message) :=
  assert_ ((m_type m =? SCHEDULING_START) || (m_type m =? SCHEDULING_INHERIT));;
  if negb (accept_message m) then mret (EPERM, m) else
  '(rv, i) ← sched_isemtyendpt (SCHEDULING_ENDPOINT m);
  if negb (is_ok rv) then mret (rv, m) else
  set_slot i (fun p => p <| endpoint := SCHEDULING_ENDPOINT m |>
                         <| parent := SCHEDULING_PARENT m |>
                         <| max_priority := u32 (SCHEDULING_MAXPRIO m) |>);;
  p ← slot i;
  if NR_SCHED_QUEUES <=? max_priority p then mret (EINVAL, m) else
  rv ← (if m_type m =? SCHEDULING_START then
          set_slot i (fun p => p <| priority := max_priority p |>
                                 <| tickets := 20 |>
                                 <| time_slice := u32 (SCHEDULING_QUANTUM m) |>);;
          mret OK
        else
          '(rv, parent_nr_n) ← sched_isokendpt (SCHEDULING_PARENT m);
          if negb (is_ok rv) then mret rv else
          q ← slot parent_nr_n;
          set_slot i (fun p => p <| priority := priority q |>
                                 <| tickets := tickets q |>
                                 <| time_slice := time_slice q |>);;
          mret OK);
  if negb (is_ok rv) then mret (rv, m) else
  p ← slot i;
  modify (fun s => s <| total_tickets := u32 (total_tickets s + tickets p) |>);;
  rv ← env (sys_schedctl 0 (endpoint p) 0 0);
  if negb (is_ok rv) then mret (rv, m) else
  set_slot i (fun p => p <| flags := IN_USE |>);;
  rv ← schedule_process i;
  if negb (is_ok rv) then mret (rv, m) else
  mret (OK, m <| SCHEDULING_SCHEDULER := SCHED_PROC_NR |>).

(** [tickets_to_add = (nice / divisor) * 100], assigned to an [unsigned]. *)
Definition tickets_to_add (nice : Z) : option Z :=
  Double.to_unsigned (Double.mul (Double.div (Double.of_Z nice) (Double.of_Z 20))
                                 (Double.of_Z 100)).

Definition do_nice (m : message) : cmd rc :=
  if negb (accept_message m) then mret EPERM else
  '(r, i) ← sched_isokendpt (SCHEDULING_ENDPOINT m);
  if negb (is_ok r) then mret EBADEPT else
  let tmp := u32 (SCHEDULING_MAXPRIO m) in
  let nice := Double.of_Z (s32 tmp) in
  to_add ← deref (tickets_to_add (s32 tmp));
  if Double.ge nice (Double.of_Z NR_SCHED_QUEUES) then mret EINVAL else
  (if 0 <? s32 tmp then
     set_slot i (fun p => p <| tickets := s32 (u32 (tickets p) + to_add) |>);;
     p ← slot i;
     if 100 <=? s32 (tickets p) then set_slot i (fun p => p <| tickets := 100 |>) else mret tt
   else
     set_slot i (fun p => p <| tickets := s32 (u32 (tickets p) - to_add) |>);;
     p ← slot i;
     if s32 (tickets p) <? 1 then set_slot i (fun p => p <| tickets := 1 |>) else mret tt);;
  p ← slot i;
  let old_q := priority p in
  let old_max_q := max_priority p in
  set_slot i (fun p => p <| priority := tmp |> <| max_priority := tmp |>);;
  rv ← schedule_process i;
  (if negb (is_ok rv)
   then set_slot i (fun p => p <| priority := old_q |> <| max_priority := old_max_q |>)
   else mret tt);;
  mret rv.

Definition init_scheduling : cmd unit :=
  modify (fun s => s <| balance_timeout := u32 (BALANCE_TIMEOUT * sys_hz) |>);;
  env (fun w => (tt, init_timer w));;
  s ← get;
  env (fun w => (tt, set_timer (balance_timeout s) w));;
  modify (fun s => s <| total_tickets := 0 |>).

(** The body of the loop of [do_lottery]: [calculate_winner] runs along the used slots;
    [Some i] is the slot that wins. *)
Fixpoint lottery_winner (l : list schedproc) (i : Z) (calculate_winner lucky : Z) : option Z :=
  match l with
  | [] => None
  | p :: l' =>
      if negb (Z.land (flags p) IN_USE =? 0) then
        let cw := u32 (calculate_winner + tickets p) in
        if u32 lucky <? cw then Some i else lottery_winner l' (i + 1) cw lucky
      else lottery_winner l' (i + 1) calculate_winner lucky
  end.

Definition do_lottery : cmd unit :=
  s ← get;
  let upper_bound := s32 (total_tickets s) in
  r ← env rand;
  if upper_bound =? 0 then halt Undef else
  let lucky := Z.rem r upper_bound + 1 in
  s ← get;
  match lottery_winner (procs s) 0 0 lucky with
  | Some i =>
      set_slot i (fun p => p <| priority := u32 (priority p - 1) |>);;
      schedule_process i;; mret tt
  | None => mret tt
  end.

Definition balance_queues : cmd unit :=
  do_lottery;;
  s ← get;
  env (fun w => (tt, set_timer (balance_timeout s) w)).

(** *** main.c: one turn of the main loop, for a message already received. *)
Definition reply (who_e : Z) (m : message) (result : rc) : cmd unit :=
  env (fun w => (tt, send who_e m result w)).

Definition main_step (m : message) (ipc_status : Z) : cmd unit :=
  let who_e := m_source m in
  let call_nr := m_type m in
  let sendreply (m : message) (result : rc) : cmd unit :=
    if bool_decide (result = SUSPEND) then mret tt else reply who_e m result in
  if is_ipc_notify ipc_status then
    if who_e =? CLOCK then
      b ← env (timer_expired (NOTIFY_TIMESTAMP m));
      if (b : bool) then balance_queues else mret tt
    else sendreply m ENOSYS
  else if (call_nr =? SCHEDULING_INHERIT) || (call_nr =? SCHEDULING_START) then
    '(r, m') ← do_start_scheduling m; sendreply m' r
  else if call_nr =? SCHEDULING_STOP then
    r ← do_stop_scheduling m; sendreply m r
  else if call_nr =? SCHEDULING_SET_NICE then
    r ← do_nice m; sendreply m r
  else if call_nr =? SCHEDULING_NO_QUANTUM then
    if from_kernel ipc_status then do_noquantum m;; mret tt else sendreply m EPERM
  else sendreply m (no_sys who_e call_nr).
End operations.

(** ** Well-formed states *)
Definition in_use (p : schedproc) : Prop := Z.land (flags p) IN_USE <> 0.
#[export] Instance in_use_dec p : Decision (in_use p) := _.

Lemma not_in_use p : in_use (p <| flags := 0 |>) -> False.
Proof. unfold in_use; simpl. by intros []. Qed.

Definition ticket_of (p : schedproc) : Z := if decide (in_use p) then tickets p else 0.

Lemma ticket_of_used p : in_use p -> ticket_of p = tickets p.
Proof. intros Hu. unfold ticket_of. by rewrite decide_True. Qed.
Lemma ticket_of_unused p : ~ in_use p -> ticket_of p = 0.
Proof. intros Hu. unfold ticket_of. by rewrite decide_False. Qed.

Section properties.
Context `{MinixLaws} `{SchedHeaderLaws} {W : Type} `{SchedEnvLaws W}.
Implicit Types (s : state W) (m : message) (p q : schedproc).

(** The table has a slot per process; a slot in use holds the endpoint that names it and
    between 1 and 100 tickets. *)
Record wf (s : state W) : Prop := {
  wf_length : Z.of_nat (length (procs s)) = NR_PROCS;
  wf_total : 0 <= total_tickets s < 2 ^ 32;
  wf_slot : forall i p, aget (procs s) i = Some p -> in_use p ->
              _ENDPOINT_P (endpoint p) = i /\ 1 <= tickets p <= 100;
}.

(** [s] with the slot [i] changed by [f]. *)
Definition slot_set (i : Z) (f : schedproc -> schedproc) s : state W :=
  s <| procs := aupd i f (procs s) |>.

(** Endpoint [e] names the used slot [i], which holds [p]. *)
Definition names s (e i : Z) p : Prop :=
  _ENDPOINT_P e = i /\ aget (procs s) i = Some p /\ endpoint p = e /\ in_use p.

Lemma slot_run s i p : aget (procs s) i = Some p -> slot i s = Ret p s.
Proof. intros Hp. unfold slot. run_step. by rewrite Hp. Qed.
Hint Resolve slot_run : run.

Lemma set_slot_run s i p f : aget (procs s) i = Some p ->
  set_slot i f s = Ret tt (slot_set i f s).
Proof. intros Hp. unfold set_slot. by run_step. Qed.
Hint Resolve set_slot_run : run.

Lemma aget_slot_set s i f p :
  aget (procs s) i = Some p -> aget (procs (slot_set i f s)) i = Some (f p).
Proof. intros Hp. simpl. by rewrite aget_aupd_eq, Hp. Qed.
Hint Resolve aget_slot_set : run.

Lemma slot_set_compose s i f g : slot_set i f (slot_set i g s) = slot_set i (f ∘ g) s.
Proof. unfold slot_set; simpl. by rewrite aupd_aupd. Qed.

Lemma slot_set_ext s i p f g :
  aget (procs s) i = Some p -> f p = g p -> slot_set i f s = slot_set i g s.
Proof.
  intros Hp Hf. unfold slot_set.
  rewrite (aupd_ext _ i f g); [done|]. intros x Hx. by simplify_eq.
Qed.

Lemma env_run {A} (f : W -> A * W) s a w :
  f (world s) = (a, w) -> env f s = Ret a (s <| world := w |>).
Proof. intros Hf. unfold env. run_step. by rewrite Hf. Qed.
Hint Resolve env_run : run.

Lemma isokendpt_names s e i p :
  wf s -> names s e i p -> sched_isokendpt e s = Ret (OK, i) s.
Proof.
  intros Hwf (<- & Hp & <- & Hu). unfold sched_isokendpt.
  pose proof (aget_range _ _ _ Hp). pose proof (wf_length _ Hwf).
  rewrite (proj2 (Z.ltb_ge _ _)), (proj2 (Z.leb_gt _ _)) by lia.
  run_step. rewrite Z.eqb_refl. simpl. by rewrite (proj2 (Z.eqb_neq _ _)).
Qed.
Hint Resolve isokendpt_names : run.

Lemma isokendpt_total s e :
  wf s -> exists r, sched_isokendpt e s = Ret (r, _ENDPOINT_P e) s /\
    (r = OK -> exists p, names s e (_ENDPOINT_P e) p).
Proof.
  intros Hwf. unfold sched_isokendpt. cbv zeta.
  destruct (Z.ltb_spec (_ENDPOINT_P e) 0); [by eexists|].
  destruct (Z.leb_spec NR_PROCS (_ENDPOINT_P e)); [by eexists|].
  destruct (aget_is_Some (procs s) (_ENDPOINT_P e)) as [p Hp].
  { rewrite (wf_length _ Hwf). lia. }
  run_step. destruct (Z.eqb_spec e (endpoint p)) as [He|]; [|by eexists]; simpl.
  destruct (Z.eqb_spec (Z.land (flags p) IN_USE) 0) as [|Hu]; [by eexists|].
  eexists; split; [done|]. intros _. by exists p.
Qed.

Lemma isemtyendpt_total s e :
  wf s -> exists r, sched_isemtyendpt e s = Ret (r, _ENDPOINT_P e) s /\
    (r = OK <-> exists p, aget (procs s) (_ENDPOINT_P e) = Some p /\ ~ in_use p).
Proof.
  intros Hwf. unfold sched_isemtyendpt. cbv zeta.
  destruct (Z.ltb_spec (_ENDPOINT_P e) 0).
  { eexists; split; [done|]. split; [done|]. intros (p & Hp%aget_range & _). lia. }
  destruct (Z.leb_spec NR_PROCS (_ENDPOINT_P e)).
  { eexists; split; [done|]. split; [done|]. intros (p & Hp%aget_range & _).
    rewrite (wf_length _ Hwf) in Hp. lia. }
  destruct (aget_is_Some (procs s) (_ENDPOINT_P e)) as [p Hp].
  { rewrite (wf_length _ Hwf). lia. }
  run_step. destruct (Z.eqb_spec (Z.land (flags p) IN_USE) 0) as [Hu|Hu].
  - eexists; split; [done|]. split; [intros _; exists p; split; [done|by intros []]|done].
  - eexists; split; [done|]. split; [done|]. intros (q & Hq & Hnu). by simplify_eq.
Qed.

Lemma schedule_process_run s i p r w :
  aget (procs s) i = Some p ->
  sys_schedule (endpoint p) (priority p) (time_slice p) (world s) = (r, w) ->
  schedule_process i s = Ret r (s <| world := w |>).
Proof. intros Hp Hr. unfold schedule_process. run_step. by apply env_run. Qed.

Lemma wf_set_slot s i p f :
  wf s -> aget (procs s) i = Some p ->
  (in_use (f p) -> _ENDPOINT_P (endpoint (f p)) = i /\ 1 <= tickets (f p) <= 100) ->
  wf (slot_set i f s).
Proof.
  intros Hwf Hp Hf. constructor; simpl.
  - by rewrite length_aupd, (wf_length _ Hwf).
  - apply Hwf.
  - intros j q Hq Hu. rewrite aget_aupd in Hq. case_decide; simplify_eq/=.
    + rewrite Hp in Hq. simplify_eq/=. auto.
    + by apply (wf_slot _ Hwf).
Qed.

Lemma wf_world s w : wf s -> wf (s <| world := w |>).
Proof. intros [Hl Ht Hs]. by constructor. Qed.

Lemma wf_add_total s z : wf s -> wf (s <| total_tickets := u32 z |>).
Proof. intros [Hl Ht Hs]. constructor; [done|apply u32_range|done]. Qed.

Lemma wf_names s e i p : wf s -> names s e i p -> 1 <= tickets p <= 100.
Proof. intros Hwf (_ & Hp & _ & Hu). by apply (wf_slot _ Hwf _ _ Hp). Qed.
Hint Resolve wf_world wf_add_total : run.

Lemma schedule_process_wf s i p (Q : rc -> state W -> Prop) E :
  wf s -> aget (procs s) i = Some p ->
  (forall r w, wf (s <| world := w |>) -> Q r (s <| world := w |>)) ->
  wp (schedule_process i) Q E s.
Proof.
  intros Hwf Hp HQ.
  destruct (sys_schedule (endpoint p) (priority p) (time_slice p) (world s)) as [r w] eqn:Hr.
  eapply wp_ret_run; [by eapply schedule_process_run|]. apply HQ. by apply wf_world.
Qed.

Lemma do_noquantum_wf s m : wf s -> wp (do_noquantum m) (fun _ => wf) never s.
Proof.
  intros Hwf. unfold do_noquantum.
  destruct (isokendpt_total s (m_source m) Hwf) as (r & Hr & Hok).
  run_step. destruct r; try by apply wp_ret. simpl.
  destruct (Hok eq_refl) as (p & Hn). pose proof Hn as (_ & Hp & He & Hu).
  pose proof (wf_slot _ Hwf _ _ Hp Hu) as Hs.
  run_step. destruct (priority p <? MIN_USER_Q).
  - run_step. apply wp_bind. eapply schedule_process_wf.
    + by eapply wf_set_slot.
    + simpl. by rewrite aget_aupd_eq, Hp.
    + intros [] w Hw; by apply wp_ret.
  - run_step. apply wp_bind. eapply schedule_process_wf; [done..|].
    intros [] w Hw; by apply wp_ret.
Qed.

Lemma do_stop_scheduling_run s m i p :
  wf s -> accept_message m = true -> names s (SCHEDULING_ENDPOINT m) i p ->
  do_stop_scheduling m s = Ret OK (slot_set i (fun p => p <| flags := 0 |>) s).
Proof.
  intros Hwf Ha Hn. unfold do_stop_scheduling. rewrite Ha; simpl.
  pose proof Hn as (_ & Hp & _ & _). run_step. simpl. by run_step.
Qed.

Lemma do_stop_scheduling_wf s m : wf s -> wp (do_stop_scheduling m) (fun _ => wf) never s.
Proof.
  intros Hwf. unfold do_stop_scheduling.
  destruct (accept_message m); [|by apply wp_ret]. simpl.
  destruct (isokendpt_total s (SCHEDULING_ENDPOINT m) Hwf) as (r & Hr & Hok).
  run_step. destruct r; try by apply wp_ret. simpl.
  destruct (Hok eq_refl) as (p & _ & Hp & _).
  run_step. apply wp_ret. eapply wf_set_slot; [done..|]. by intros Hu%not_in_use.
Qed.

(** The slot that a request to start scheduling fills in before it is checked. *)
Definition filled m p : schedproc :=
  p <| endpoint := SCHEDULING_ENDPOINT m |> <| parent := SCHEDULING_PARENT m |>
    <| max_priority := u32 (SCHEDULING_MAXPRIO m) |>.

(** The slot of a started process: its own parameters for SCHEDULING_START, those of the
    parent [q] for SCHEDULING_INHERIT. *)
Definition started m q p : schedproc :=
  if m_type m =? SCHEDULING_START
  then filled m p <| priority := u32 (SCHEDULING_MAXPRIO m) |> <| tickets := 20 |>
         <| time_slice := u32 (SCHEDULING_QUANTUM m) |>
  else filled m p <| priority := priority q |> <| tickets := tickets q |>
         <| time_slice := time_slice q |>.

Lemma filled_names s i p e j q m :
  aget (procs s) i = Some p -> ~ in_use p -> names s e j q ->
  names (slot_set i (filled m) s) e j q.
Proof.
  intros Hp Hnu (He & Hq & Heq & Hu). split_and!; try done. simpl.
  rewrite aget_aupd_ne; [done|]. intros ->. by simplify_eq.
Qed.

Lemma names_filled s i p e j q m :
  aget (procs s) i = Some p -> ~ in_use p -> names (slot_set i (filled m) s) e j q ->
  names s e j q.
Proof.
  intros Hp Hnu (He & Hq & Heq & Hu). split_and!; try done. simpl in Hq.
  rewrite aget_aupd in Hq. case_decide; [|done]. subst i.
  rewrite Hp in Hq. simplify_eq/=. by destruct Hnu.
Qed.

Lemma started_wf s i p q m :
  wf s -> aget (procs s) i = Some p -> _ENDPOINT_P (SCHEDULING_ENDPOINT m) = i ->
  1 <= tickets (started m q p) <= 100 ->
  wf (slot_set i (fun p => started m q p <| flags := IN_USE |>) s).
Proof.
  intros Hwf Hp Hi Ht. eapply wf_set_slot; [done..|]. intros _.
  unfold started, filled in *. by destruct (m_type m =? SCHEDULING_START).
Qed.

(** The state when the free slot [i] has been filled for [m], with [q] as parent, the
    tickets have been accounted and the kernel has answered, leaving the world [w]. *)
Definition taken s m q (i : Z) (w : W) : state W :=
  slot_set i (started m q) s
    <| total_tickets := u32 (total_tickets s +
         (if m_type m =? SCHEDULING_START then 20 else tickets q)) |>
    <| world := w |>.
Definition running (i : Z) s : state W := slot_set i (fun p => p <| flags := IN_USE |>) s.

Lemma started_tickets m q p :
  tickets (started m q p) = if m_type m =? SCHEDULING_START then 20 else tickets q.
Proof. unfold started. by destruct (m_type m =? SCHEDULING_START). Qed.

Lemma started_endpoint m q p : endpoint (started m q p) = SCHEDULING_ENDPOINT m.
Proof. unfold started. by destruct (m_type m =? SCHEDULING_START). Qed.

(** The request up to the kernel call. *)
Lemma do_start_scheduling_run s m i p q :
  wf s -> (m_type m = SCHEDULING_START \/
           m_type m = SCHEDULING_INHERIT /\ exists j, names s (SCHEDULING_PARENT m) j q) ->
  accept_message m = true -> _ENDPOINT_P (SCHEDULING_ENDPOINT m) = i ->
  aget (procs s) i = Some p -> ~ in_use p -> u32 (SCHEDULING_MAXPRIO m) < NR_SCHED_QUEUES ->
  do_start_scheduling m s =
    let '(r1, w1) := sys_schedctl 0 (SCHEDULING_ENDPOINT m) 0 0 (world s) in
    if negb (is_ok r1) then Ret (r1, m) (taken s m q i w1) else
    let s2 := running i (taken s m q i w1) in
    let p' := started m q p in
    let '(r2, w2) := sys_schedule (endpoint p') (priority p') (time_slice p') w1 in
    if negb (is_ok r2) then Ret (r2, m) (s2 <| world := w2 |>)
    else Ret (OK, m <| SCHEDULING_SCHEDULER := SCHED_PROC_NR |>) (s2 <| world := w2 |>).
Proof.
  intros Hwf Ht Ha Hi Hp Hnu Hprio. unfold do_start_scheduling.
  assert ((m_type m =? SCHEDULING_START) || (m_type m =? SCHEDULING_INHERIT) = true) as ->.
  { destruct Ht as [->|[-> _]]; rewrite Z.eqb_refl; [done|by rewrite orb_true_r]. }
  run_step. rewrite Ha; simpl.
  destruct (isemtyendpt_total s (SCHEDULING_ENDPOINT m) Hwf) as (r & Hr & Hok).
  rewrite Hi in *. rewrite (proj2 Hok) in Hr by eauto.
  run_step. simpl. run_step.
  lazymatch goal with |- context [slot_set _ ?f _] => change f with (filled m) end.
  assert (wf (slot_set i (filled m) s)) by (by eapply wf_set_slot).
  run_step. simpl. rewrite (proj2 (Z.leb_gt _ _)) by done.
  erewrite (bind_ret _ _ OK _ (slot_set i (started m q) s)); cycle 1.
  { unfold started at 1. destruct (m_type m =? SCHEDULING_START) eqn:Et.
    - run_step. rewrite slot_set_compose. unfold mret, M_ret. f_equal; by eapply slot_set_ext.
    - destruct Ht as [Ht|[_ [j Hq]]]; [by rewrite Ht, Z.eqb_refl in Et|].
      eapply filled_names in Hq; [|done..]. run_step. simpl.
      pose proof Hq as (_ & Hq' & _). run_step. run_step.
      rewrite slot_set_compose. unfold mret, M_ret. f_equal; by eapply slot_set_ext. }
  simpl. run_step. rewrite started_tickets, started_endpoint.
  destruct (sys_schedctl 0 _ 0 0 (world s)) as [r1 w1] eqn:E1.
  run_step. erewrite bind_ret by (by apply env_run).
  destruct (is_ok r1); [|done]. simpl.
  fold (taken s m q i w1).
  assert (aget (procs (taken s m q i w1)) i = Some (started m q p)) as Hp1 by (by apply aget_slot_set).
  run_step. fold (running i (taken s m q i w1)).
  destruct (sys_schedule _ _ _ w1) as [r2 w2] eqn:E2.
  rewrite (bind_ret _ _ r2 _ (running i (taken s m q i w1) <| world := w2 |>)).
  { by destruct (is_ok r2). }
  eapply (schedule_process_run (running i (taken s m q i w1))); [exact (aget_slot_set _ _ _ _ Hp1)|].
  simpl. by rewrite started_endpoint.
Qed.

Definition start_request m : Prop :=
  m_type m = SCHEDULING_START \/ m_type m = SCHEDULING_INHERIT.

(** The conditions under which a request to start scheduling takes the slot [i]. *)
Record admissible s m (i : Z) p q : Prop := {
  adm_accept : accept_message m = true;
  adm_slot : _ENDPOINT_P (SCHEDULING_ENDPOINT m) = i;
  adm_free : aget (procs s) i = Some p /\ ~ in_use p;
  adm_prio : u32 (SCHEDULING_MAXPRIO m) < NR_SCHED_QUEUES;
  adm_parent : m_type m = SCHEDULING_START \/
    m_type m = SCHEDULING_INHERIT /\ exists j, names s (SCHEDULING_PARENT m) j q;
}.

Lemma start_request_assert m : start_request m ->
  (m_type m =? SCHEDULING_START) || (m_type m =? SCHEDULING_INHERIT) = true.
Proof. intros [->| ->]; rewrite Z.eqb_refl; [done|by rewrite orb_true_r]. Qed.

(** A request to start scheduling is refused before or after it has filled the free
    slot, or it is admissible. *)
Lemma do_start_scheduling_split s m :
  wf s -> start_request m ->
  (exists r, r <> OK /\ do_start_scheduling m s = Ret (r, m) s) \/
  (exists r i p, r <> OK /\ aget (procs s) i = Some p /\ ~ in_use p /\
     do_start_scheduling m s = Ret (r, m) (slot_set i (filled m) s)) \/
  (exists i p q, admissible s m i p q).
Proof.
  intros Hwf Ht. destruct (accept_message m) eqn:Ha; cycle 1.
  { left. exists EPERM. split; [done|]. unfold do_start_scheduling.
    rewrite (start_request_assert _ Ht). run_step. by rewrite Ha. }
  destruct (isemtyendpt_total s (SCHEDULING_ENDPOINT m) Hwf) as (r & Hr & Hok).
  destruct (decide (r = OK)) as [->|Hne]; cycle 1.
  { left. exists r. split; [done|]. unfold do_start_scheduling.
    rewrite (start_request_assert _ Ht). run_step. rewrite Ha; simpl. run_step.
    unfold is_ok. by rewrite bool_decide_false. }
  destruct (proj1 Hok eq_refl) as (p & Hp & Hnu). remember (_ENDPOINT_P _) as i eqn:Hi.
  right. set (s1 := slot_set i (filled m) s).
  assert (wf s1) as Hwf1 by (by eapply wf_set_slot).
  assert (aget (procs s1) i = Some (filled m p)) as Hp1 by (by apply aget_slot_set).
  destruct (decide (NR_SCHED_QUEUES <= u32 (SCHEDULING_MAXPRIO m))) as [Hprio|Hprio].
  { left. exists EINVAL, i, p. split_and!; try done. unfold do_start_scheduling.
    rewrite (start_request_assert _ Ht). run_step. rewrite Ha; simpl. run_step. simpl.
    run_step. run_step. simpl. by rewrite (proj2 (Z.leb_le _ _)). }
  destruct (isokendpt_total s1 (SCHEDULING_PARENT m) Hwf1) as (r & Hr1 & Hok1).
  destruct (decide (m_type m = SCHEDULING_START)) as [Hst|Hst].
  { right. exists i, p, p. constructor; auto. lia. }
  destruct (decide (r = OK)) as [->|Hne]; cycle 1.
  { left. exists r, i, p. split_and!; try done. unfold do_start_scheduling.
    rewrite (start_request_assert _ Ht). run_step. rewrite Ha; simpl. run_step. simpl.
    run_step. run_step. simpl. rewrite (proj2 (Z.leb_gt _ _)) by lia.
    rewrite (proj2 (Z.eqb_neq _ _)) by done.
    assert (is_ok r = false) as Hf by (unfold is_ok; by rewrite bool_decide_false).
    rewrite (bind_ret _ _ r s1 s1); [by rewrite Hf|].
    run_step. by rewrite Hf. }
  right. destruct (Hok1 eq_refl) as (q & Hq). exists i, p, q.
  constructor; [done|done|done|lia|]. right. destruct Ht as [|]; [done|].
  split; [done|]. eexists. by eapply names_filled.
Qed.

(** *** Tickets *)
Definition sum_tickets s : Z := sumZ ticket_of (procs s).
Definition balanced s : Prop := total_tickets s = u32 (sum_tickets s).

Lemma ticket_of_range s i p : wf s -> aget (procs s) i = Some p -> 0 <= ticket_of p <= 100.
Proof.
  intros Hwf Hp. unfold ticket_of. case_decide; [|lia].
  pose proof (wf_slot _ Hwf _ _ Hp ltac:(done)). lia.
Qed.

Lemma ticket_of_Forall s : wf s -> Forall (fun p => 0 <= ticket_of p <= 100) (procs s).
Proof.
  intros Hwf. apply Forall_lookup. intros n p Hp. rewrite <-aget_nat in Hp.
  by eapply ticket_of_range.
Qed.

Lemma sum_tickets_range s : wf s -> 0 <= sum_tickets s < 2 ^ 31.
Proof.
  intros Hwf. pose proof (ticket_of_Forall _ Hwf) as Hall.
  assert (sumZ ticket_of (procs s) <= 100 * Z.of_nat (length (procs s))) as Hle.
  { clear -Hall. induction Hall; [by unfold sumZ|]. rewrite sumZ_cons; simpl length. lia. }
  split.
  - apply sumZ_nonneg. eapply Forall_impl; [|exact Hall]. simpl; lia.
  - unfold sum_tickets. rewrite (wf_length _ Hwf) in Hle.
    pose proof NR_PROCS_bound. lia.
Qed.

Lemma balanced_total s : wf s -> balanced s -> total_tickets s = sum_tickets s.
Proof.
  intros Hwf ->. apply u32_small. pose proof (sum_tickets_range _ Hwf). lia.
Qed.

Lemma sum_slot_set s i p f :
  aget (procs s) i = Some p ->
  sum_tickets (slot_set i f s) = sum_tickets s - ticket_of p + ticket_of (f p).
Proof. intros Hp. unfold sum_tickets; simpl. by apply sumZ_aupd. Qed.

Lemma lottery_winner_cons p l i cw k :
  0 <= ticket_of p -> 0 <= cw <= k -> k < 2 ^ 32 -> cw + ticket_of p < 2 ^ 32 ->
  lottery_winner (p :: l) i cw k =
    if k <? cw + ticket_of p then Some i else lottery_winner l (i + 1) (cw + ticket_of p) k.
Proof.
  intros Hp Hcw Hk Hsum. simpl. unfold ticket_of in *. case_decide as Hu.
  - rewrite (proj2 (Z.eqb_neq _ _)) by done. simpl. by rewrite !u32_small by lia.
  - unfold in_use in Hu. assert (Z.land (flags p) IN_USE = 0) as -> by lia. simpl.
    by rewrite Z.add_0_r, (proj2 (Z.ltb_ge _ _)) by lia.
Qed.

(** The winner of a draw is the slot whose tickets cover it. *)
Lemma lottery_winner_covers l k cw i0 j :
  Forall (fun p => 0 <= ticket_of p) l -> 0 <= cw <= k -> k < 2 ^ 32 ->
  cw + sumZ ticket_of l < 2 ^ 32 ->
  lottery_winner l i0 cw k = Some j <->
  exists n p, j = i0 + Z.of_nat n /\ l !! n = Some p /\
    cw + sumZ ticket_of (take n l) <= k < cw + sumZ ticket_of (take n l) + ticket_of p.
Proof.
  intros Hall. revert cw i0. induction Hall as [|p l Hp Hall IH]; intros cw i0 Hcw Hk Hsum.
  { simpl. split; [done|]. by intros (n & p & _ & Hn & _). }
  rewrite sumZ_cons in Hsum. pose proof (sumZ_nonneg ticket_of l Hall) as Hl.
  rewrite lottery_winner_cons by lia. case_match eqn:Hlt.
  - apply Z.ltb_lt in Hlt. split.
    + intros [= <-]. exists 0%nat, p. unfold sumZ; simpl. split_and!; [lia|done|lia..].
    + intros ([|n] & q & -> & Hn & Hr); [f_equal; lia|].
      rewrite firstn_cons, sumZ_cons in Hr.
      assert (0 <= sumZ ticket_of (take n l)); [|lia].
      apply sumZ_nonneg. by apply Forall_take.
  - apply Z.ltb_ge in Hlt. rewrite IH by lia. split.
    + intros (n & q & -> & Hn & Hr). exists (S n), q. rewrite firstn_cons, sumZ_cons.
      split_and!; [lia|done|lia..].
    + intros ([|n] & q & -> & Hn & Hr).
      * unfold sumZ in Hr; simpl in Hr, Hn. simplify_eq. lia.
      * rewrite firstn_cons, sumZ_cons in Hr. exists n, q. split_and!; [lia|done|lia..].
Qed.

(** The same for a table, with the slot given by its index. *)
Lemma lottery_winner_slot s i p k :
  wf s -> aget (procs s) i = Some p -> 0 <= k < 2 ^ 32 ->
  let before := sumZ ticket_of (take (Z.to_nat i) (procs s)) in
  lottery_winner (procs s) 0 0 k = Some i <-> before <= k < before + ticket_of p.
Proof.
  intros Hwf Hp Hk before. pose proof (ticket_of_Forall _ Hwf) as Hall.
  pose proof (sum_tickets_range _ Hwf) as Hsum. unfold sum_tickets in Hsum.
  rewrite lottery_winner_covers; [|eapply Forall_impl; [|exact Hall]; simpl; lia|lia..].
  apply aget_Some in Hp as [Hi Hp]. split.
  - intros (n & q & -> & Hn & Hr). unfold before. rewrite Z.add_0_l, Nat2Z.id in *.
    simplify_eq. lia.
  - intros Hr. exists (Z.to_nat i), p. split_and!; [lia|done|lia..].
Qed.

Lemma before_le_total s i p :
  wf s -> aget (procs s) i = Some p ->
  0 <= sumZ ticket_of (take (Z.to_nat i) (procs s)) /\
  sumZ ticket_of (take (Z.to_nat i) (procs s)) + ticket_of p <= sum_tickets s.
Proof.
  intros Hwf [Hi Hp]%aget_Some. pose proof (ticket_of_Forall _ Hwf) as Hall.
  assert (forall l, l ⊆ procs s -> 0 <= sumZ ticket_of l) as Hnn.
  { intros l Hl. apply sumZ_nonneg. apply Forall_forall. intros x Hx.
    rewrite Forall_forall in Hall. apply list_elem_of_In, Hl, list_elem_of_In, Hall in Hx. lia. }
  split; [apply Hnn, subseteq_take|].
  rewrite <-(sumZ_take_S _ _ _ _ Hp). unfold sum_tickets.
  rewrite (sumZ_take_drop _ (procs s) (S (Z.to_nat i))).
  pose proof (Hnn _ (subseteq_drop (S (Z.to_nat i)) (procs s))). lia.
Qed.

Lemma sum_running s i p q m w :
  aget (procs s) i = Some p -> ~ in_use p ->
  sum_tickets (running i (taken s m q i w)) = sum_tickets s + tickets (started m q p).
Proof.
  intros Hp Hnu. unfold running.
  rewrite (sum_slot_set _ _ (started m q p)) by (by apply aget_slot_set).
  change (sum_tickets (taken s m q i w)) with (sum_tickets (slot_set i (started m q) s)).
  rewrite (sum_slot_set _ _ p), (ticket_of_unused p) by done.
  rewrite (ticket_of_used (_ <| flags := IN_USE |>)) by done. simpl. lia.
Qed.

Lemma sum_taken s i p q m w :
  aget (procs s) i = Some p -> ~ in_use p -> sum_tickets (taken s m q i w) = sum_tickets s.
Proof.
  intros Hp Hnu.
  change (sum_tickets (taken s m q i w)) with (sum_tickets (slot_set i (started m q) s)).
  rewrite (sum_slot_set _ _ p) by done.
  assert (flags (started m q p) = flags p) as Hf.
  { unfold started. by destruct (m_type m =? SCHEDULING_START). }
  rewrite !ticket_of_unused by (unfold in_use in *; by rewrite ?Hf). lia.
Qed.

Lemma admissible_tickets s m i p q :
  wf s -> admissible s m i p q -> 1 <= tickets (started m q p) <= 100.
Proof.
  intros Hwf [_ _ _ _ Hq]. rewrite started_tickets.
  destruct (Z.eqb_spec (m_type m) SCHEDULING_START); [lia|].
  destruct Hq as [|(_ & j & Hq)]; [done|]. by eapply wf_names.
Qed.

Lemma running_wf s i p q m w :
  wf s -> admissible s m i p q -> wf (running i (taken s m q i w)).
Proof.
  intros Hwf Ha. pose proof (admissible_tickets _ _ _ _ _ Hwf Ha) as Ht.
  destruct Ha as [_ Hs [Hp Hnu] _ _]. unfold running, taken.
  eapply wf_set_slot.
  - apply wf_world, wf_add_total. eapply wf_set_slot; [done..|].
    intros Hu. destruct Hnu. unfold in_use, started in *.
    by destruct (m_type m =? SCHEDULING_START).
  - by apply aget_slot_set.
  - intros _. simpl. by rewrite started_endpoint.
Qed.

Lemma taken_wf s i p q m w : wf s -> admissible s m i p q -> wf (taken s m q i w).
Proof.
  intros Hwf [_ Hs [Hp Hnu] _ _]. apply wf_world, wf_add_total. eapply wf_set_slot; [done..|].
  intros Hu. destruct Hnu. unfold in_use, started in *.
  by destruct (m_type m =? SCHEDULING_START).
Qed.

Lemma do_start_scheduling_admissible s m i p q :
  wf s -> admissible s m i p q ->
  do_start_scheduling m s =
    let '(r1, w1) := sys_schedctl 0 (SCHEDULING_ENDPOINT m) 0 0 (world s) in
    if negb (is_ok r1) then Ret (r1, m) (taken s m q i w1) else
    let s2 := running i (taken s m q i w1) in
    let p' := started m q p in
    let '(r2, w2) := sys_schedule (endpoint p') (priority p') (time_slice p') w1 in
    if negb (is_ok r2) then Ret (r2, m) (s2 <| world := w2 |>)
    else Ret (OK, m <| SCHEDULING_SCHEDULER := SCHED_PROC_NR |>) (s2 <| world := w2 |>).
Proof. intros Hwf [? ? [? ?] ? ?]. by apply do_start_scheduling_run. Qed.

Lemma do_start_scheduling_wf s m :
  wf s -> start_request m -> wp (do_start_scheduling m) (fun _ => wf) never s.
Proof.
  intros Hwf Ht.
  destruct (do_start_scheduling_split s m Hwf Ht)
    as [(r & _ & Hr)|[(r & i & p & _ & Hp & Hnu & Hr)|(i & p & q & Ha)]].
  - by eapply wp_ret_run.
  - eapply wp_ret_run; [done|]. by eapply wf_set_slot.
  - unfold wp. rewrite (do_start_scheduling_admissible _ _ _ _ _ Hwf Ha).
    destruct (sys_schedctl 0 _ 0 0 _) as [r1 w1]. destruct (is_ok r1); simpl.
    + destruct (sys_schedule _ _ _ w1) as [r2 w2].
      destruct (is_ok r2); simpl; by apply wf_world; eapply running_wf.
    + by eapply taken_wf.
Qed.

Lemma tickets_to_add_table :
  Forall (fun n => tickets_to_add n = if 0 <=? n then Some (5 * n) else None) (seqZ (-20) 41).
Proof. by repeat (constructor; [vm_compute; reflexivity|]). Qed.

Lemma tickets_to_add_nice n :
  -20 <= n <= 20 -> tickets_to_add n = if 0 <=? n then Some (5 * n) else None.
Proof. intros Hn. pose proof tickets_to_add_table as Ht. rewrite Forall_seqZ in Ht. apply Ht. lia. Qed.

Lemma nice_compare_table :
  Forall (fun n => Double.ge (Double.of_Z n) (Double.of_Z NR_SCHED_QUEUES) = (18 <=? n))
    (seqZ (-20) 41).
Proof. by repeat (constructor; [vm_compute; reflexivity|]). Qed.

Lemma nice_compare n :
  -20 <= n <= 20 -> Double.ge (Double.of_Z n) (Double.of_Z NR_SCHED_QUEUES) = (18 <=? n).
Proof. intros Hn. pose proof nice_compare_table as Ht. rewrite Forall_seqZ in Ht. apply Ht. lia. Qed.

(** *** do_nice *)
Definition niced (n : Z) p : schedproc := p <| tickets := Z.min 100 (tickets p + 5 * n) |>.
Definition reprioritised (n : Z) p : schedproc := p <| priority := n |> <| max_priority := n |>.

Lemma do_nice_tickets s i p n :
  wf s -> aget (procs s) i = Some p -> 1 <= tickets p <= 100 -> 0 <= n < 18 ->
  (if 0 <? n then
     set_slot i (fun p => p <| tickets := s32 (u32 (tickets p) + 5 * n) |>);;
     p ← slot i;
     if 100 <=? s32 (tickets p) then set_slot i (fun p => p <| tickets := 100 |>) else mret tt
   else
     set_slot i (fun p => p <| tickets := s32 (u32 (tickets p) - 5 * n) |>);;
     p ← slot i;
     if s32 (tickets p) <? 1 then set_slot i (fun p => p <| tickets := 1 |>) else mret tt) s
  = Ret tt (slot_set i (niced n) s).
Proof.
  intros Hwf Hp Ht Hn. destruct (Z.ltb_spec 0 n).
  - run_step. run_step. simpl.
    rewrite u32_small, (s32_small (tickets p + _)), s32_small by lia.
    destruct (Z.leb_spec 100 (tickets p + 5 * n)).
    + erewrite set_slot_run by (by apply aget_slot_set). rewrite slot_set_compose.
      f_equal. eapply slot_set_ext; [done|]. unfold niced. by rewrite Z.min_l by lia.
    + unfold mret, M_ret. f_equal. eapply slot_set_ext; [done|]. unfold niced.
      rewrite Z.min_r, u32_small, s32_small by lia. done.
  - assert (n = 0) as -> by lia. run_step. run_step. simpl.
    rewrite u32_small, (s32_small (tickets p - _)), s32_small by lia.
    rewrite (proj2 (Z.ltb_ge _ _)) by lia. unfold mret, M_ret. f_equal.
    eapply slot_set_ext; [done|]. unfold niced.
    rewrite Z.min_r, u32_small, s32_small by lia. by rewrite Z.sub_0_r, Z.add_0_r.
Qed.

Lemma do_nice_run s m i p n :
  wf s -> accept_message m = true -> names s (SCHEDULING_ENDPOINT m) i p ->
  SCHEDULING_MAXPRIO m = n -> 0 <= n < 18 ->
  do_nice m s =
    let '(r, w) := sys_schedule (endpoint p) n (time_slice p) (world s) in
    let f := if is_ok r then reprioritised n ∘ niced n else niced n in
    Ret r ((slot_set i f s) <| world := w |>).
Proof.
  intros Hwf Ha Hn Hm Hr. unfold do_nice. rewrite Ha; simpl. run_step. simpl.
  rewrite Hm. rewrite (u32_small n), (s32_small n) by lia.
  rewrite tickets_to_add_nice, (proj2 (Z.leb_le 0 n)) by lia. simpl.
  run_step. rewrite nice_compare, (proj2 (Z.leb_gt _ _)) by lia.
  pose proof Hn as (_ & Hp & _ & _). pose proof (wf_names _ _ _ _ Hwf Hn) as Ht.
  rewrite (bind_ret _ _ _ _ _ (do_nice_tickets s i p n Hwf Hp Ht Hr)).
  assert (aget (procs (slot_set i (niced n) s)) i = Some (niced n p)) as Hp1 by (by apply aget_slot_set).
  run_step. run_step. rewrite slot_set_compose.
  lazymatch goal with |- context [slot_set i (?f ∘ _) s] => set (g := f) end.
  assert (aget (procs (slot_set i (g ∘ niced n) s)) i = Some (g (niced n p))) as Hp2
    by (by apply (aget_slot_set _ _ (g ∘ niced n))).
  destruct (sys_schedule _ _ _ _) as [r w] eqn:Hw.
  rewrite (bind_ret _ _ r _ ((slot_set i (g ∘ niced n) s) <| world := w |>)); cycle 1.
  { by eapply schedule_process_run. }
  destruct (is_ok r); simpl; [done|]. run_step.
  unfold mret, M_ret. f_equal.
  change (slot_set i ?f ((slot_set i ?g s) <| world := w |>))
    with ((slot_set i f (slot_set i g s)) <| world := w |>).
  rewrite slot_set_compose. erewrite slot_set_ext; [done..|]. simpl. by destruct p.
Qed.

Lemma do_nice_negative s m i p n :
  wf s -> accept_message m = true -> names s (SCHEDULING_ENDPOINT m) i p ->
  SCHEDULING_MAXPRIO m = n -> -20 <= n < 0 -> do_nice m s = Halt Undef s.
Proof.
  intros Hwf Ha Hn Hm Hr. unfold do_nice. rewrite Ha; simpl. run_step. simpl.
  assert (s32 (u32 (SCHEDULING_MAXPRIO m)) = n) as ->.
  { rewrite Hm. unfold s32, u32. rewrite Zplus_mod_idemp_l, Z.mod_small; lia. }
  by rewrite tickets_to_add_nice, (proj2 (Z.leb_gt 0 n)) by lia.
Qed.

(** The states that differ from a well-formed one only in scheduling parameters. *)
Lemma wf_priority s i p f :
  wf s -> aget (procs s) i = Some p ->
  (endpoint (f p) = endpoint p /\ flags (f p) = flags p /\
   (tickets (f p) = tickets p \/ 1 <= tickets (f p) <= 100)) ->
  wf (slot_set i f s).
Proof.
  intros Hwf Hp (He & Hfl & Ht). eapply wf_set_slot; [done..|]. intros Hu.
  rewrite He. unfold in_use in Hu. rewrite Hfl in Hu.
  destruct (wf_slot _ Hwf _ _ Hp Hu). destruct Ht as [->|]; auto.
Qed.

Lemma lottery_winner_range l i cw k j :
  lottery_winner l i cw k = Some j -> i <= j < i + Z.of_nat (length l).
Proof.
  revert i cw. induction l as [|p l IH]; intros i cw Hj; [done|]. simpl in *.
  destruct (negb _); [destruct (u32 k <? _)|].
  - simplify_eq. lia.
  - apply IH in Hj. lia.
  - apply IH in Hj. lia.
Qed.

Definition promoted p : schedproc := p <| priority := u32 (priority p - 1) |>.

(** What a draw does: the slot it falls on, if any, is promoted and rescheduled. *)
Lemma do_lottery_run s :
  wf s -> s32 (total_tickets s) <> 0 ->
  let '(r, w) := rand (world s) in
  do_lottery s =
    match lottery_winner (procs s) 0 0 (Z.rem r (s32 (total_tickets s)) + 1) with
    | Some i =>
        match aget (procs s) i with
        | Some p => let '(_, w') := sys_schedule (endpoint p) (priority (promoted p)) (time_slice p) w in
                    Ret tt ((slot_set i promoted s) <| world := w' |>)
        | None => Halt Undef (s <| world := w |>)
        end
    | None => Ret tt (s <| world := w |>)
    end.
Proof.
  intros Hwf Ht. destruct (rand (world s)) as [r w] eqn:Hr. unfold do_lottery.
  run_step. erewrite bind_ret by (by apply env_run).
  rewrite (proj2 (Z.eqb_neq _ _)) by done. run_step. simpl.
  destruct (lottery_winner _ 0 0 _) as [i|] eqn:Hw; [|done].
  destruct (aget_is_Some (procs s) i) as [p Hp].
  { apply lottery_winner_range in Hw. lia. }
  rewrite Hp. destruct (sys_schedule _ _ _ w) as [r' w'] eqn:Hs.
  run_step. rewrite (bind_ret _ _ r' _ ((slot_set i promoted s) <| world := w' |>)); [done|].
  set (s1 := (slot_set i promoted s) <| world := w |>).
  change (schedule_process i s1 = Ret r' (s1 <| world := w' |>)).
  exact (schedule_process_run s1 i (promoted p) r' w' (aget_slot_set s i promoted p Hp) Hs).
Qed.

Lemma do_lottery_wf s :
  wf s -> wp do_lottery (fun _ => wf) (fun e s' => e = Undef /\ wf s') s.
Proof.
  intros Hwf. destruct (decide (s32 (total_tickets s) = 0)) as [Hz|Hz].
  - unfold do_lottery. run_step. destruct (rand (world s)) as [r w] eqn:Hr.
    eapply wp_bind_run; [by apply env_run|].
    rewrite (proj2 (Z.eqb_eq _ _)) by done. apply wp_halt. by auto using wf_world.
  - pose proof (do_lottery_run s Hwf Hz) as Hrun. destruct (rand (world s)) as [r w].
    unfold wp. rewrite Hrun. case_match; [|by apply wf_world].
    destruct (aget (procs s) _) eqn:Hp; [|by auto using wf_world].
    destruct (sys_schedule _ _ _ w) as [? w']. apply wf_world. by eapply wf_priority; [done..|]; auto.
Qed.

Lemma balance_queues_wf s :
  wf s -> wp balance_queues (fun _ => wf) (fun e s' => e = Undef /\ wf s') s.
Proof.
  intros Hwf. unfold balance_queues. apply wp_bind.
  eapply wp_mono; [by apply do_lottery_wf| |done].
  intros [] s' Hwf'. run_step. eapply wp_ret_run; [by apply env_run|]. by apply wf_world.
Qed.

Definition nice_range m : Prop := -20 <= SCHEDULING_MAXPRIO m <= 20.

Lemma do_nice_wf s m :
  wf s -> nice_range m -> wp (do_nice m) (fun _ => wf) (fun e s' => e = Undef /\ wf s') s.
Proof.
  intros Hwf Hn. destruct (accept_message m) eqn:Ha; cycle 1.
  { unfold do_nice. rewrite Ha. by apply wp_ret. }
  destruct (isokendpt_total s (SCHEDULING_ENDPOINT m) Hwf) as (r & Hr & Hok).
  destruct (decide (r = OK)) as [->|Hne]; cycle 1.
  { unfold do_nice. rewrite Ha; simpl. run_step. unfold is_ok.
    rewrite bool_decide_false by done. by apply wp_ret. }
  destruct (Hok eq_refl) as (p & Hp). pose proof (wf_names _ _ _ _ Hwf Hp) as Ht.
  pose proof Hp as (_ & Hg & _ & _).
  destruct (decide (SCHEDULING_MAXPRIO m < 0)).
  { unfold wp. erewrite do_nice_negative by (done || unfold nice_range in *; lia). done. }
  destruct (decide (SCHEDULING_MAXPRIO m < 18)).
  - unfold wp. erewrite do_nice_run by (done || lia).
    destruct (sys_schedule _ _ _ _) as [r w]. apply wf_world.
    destruct (is_ok r); (eapply wf_priority; [done..|]); unfold niced; simpl; split_and!; auto;
      right; lia.
  - unfold do_nice, nice_range in *. rewrite Ha; simpl. run_step. simpl.
    rewrite (u32_small (SCHEDULING_MAXPRIO m)), (s32_small (SCHEDULING_MAXPRIO m)) by lia.
    rewrite tickets_to_add_nice, (proj2 (Z.leb_le 0 _)) by lia. simpl. run_step.
    rewrite nice_compare, (proj2 (Z.leb_le _ _)) by lia. by apply wp_ret.
Qed.

Definition undef_only (e : stop) (s : state W) : Prop := e = Undef /\ wf s.

Lemma reply_wf s who m r Q :
  (forall w, wf (s <| world := w |>) -> Q tt (s <| world := w |>)) -> wf s ->
  wp (reply who m r) Q undef_only s.
Proof.
  intros HQ Hwf. unfold reply. eapply wp_ret_run; [by apply env_run|].
  by apply HQ, wf_world.
Qed.
End properties.

(** ** The properties *)
Section claims.
Context `{MinixLaws} `{SchedHeaderLaws} {W : Type} `{SchedEnvLaws W}.
Implicit Types (s : state W) (m : message) (p q : schedproc).


(** A request to start, stop or renice from a process other than PM and RS is
    refused with EPERM and changes nothing. *)
Theorem sched_unauthorised s m :
  accept_message m = false -> start_request m ->
  do_start_scheduling m s = Ret (EPERM, m) s /\ do_stop_scheduling m s = Ret EPERM s /\
  do_nice m s = Ret EPERM s.
Proof.
  intros Ha Ht. unfold do_start_scheduling, do_stop_scheduling, do_nice. rewrite Ha.
  by rewrite (start_request_assert _ Ht).
Qed.

(** An admissible request to start scheduling fills the free slot from the message
    (SCHEDULING_START: priority at its maximum, 20 tickets, the quantum asked for) or
    from the parent (SCHEDULING_INHERIT: its priority, tickets and time slice), marks it
    used once the kernel has handed the process over, and answers OK exactly when the
    kernel accepts both calls. *)
Theorem do_start_scheduling_spec s m i p q :
  wf s -> admissible s m i p q ->
  do_start_scheduling m s =
    let '(r1, w1) := sys_schedctl 0 (SCHEDULING_ENDPOINT m) 0 0 (world s) in
    if negb (is_ok r1) then Ret (r1, m) (taken s m q i w1) else
    let s2 := running i (taken s m q i w1) in
    let p' := started m q p in
    let '(r2, w2) := sys_schedule (endpoint p') (priority p') (time_slice p') w1 in
    if negb (is_ok r2) then Ret (r2, m) (s2 <| world := w2 |>)
    else Ret (OK, m <| SCHEDULING_SCHEDULER := SCHED_PROC_NR |>) (s2 <| world := w2 |>).
Proof. apply do_start_scheduling_admissible. Qed.

(** The lottery's total follows the slots in use: a start keeps the total equal to
    the sum of their tickets when the kernel hands the process over, and leaves it too
    large by the new tickets when the kernel refuses. *)
Theorem do_start_scheduling_total s m i p q :
  wf s -> balanced s -> admissible s m i p q ->
  wp (do_start_scheduling m)
    (fun _ s' =>
       if is_ok (sys_schedctl 0 (SCHEDULING_ENDPOINT m) 0 0 (world s)).1 then balanced s'
       else total_tickets s' = u32 (sum_tickets s' + tickets (started m q p)))
    never s.
Proof.
  intros Hwf Hb Ha. unfold wp. rewrite (do_start_scheduling_admissible _ _ _ _ _ Hwf Ha).
  pose proof (adm_free _ _ _ _ _ Ha) as [Hp Hnu].
  assert (total_tickets (taken s m q i (world s)) = u32 (sum_tickets s + tickets (started m q p)))
    as Htot by (simpl; by rewrite Hb, u32_add_l, started_tickets).
  destruct (sys_schedctl 0 _ 0 0 _) as [r1 w1]. simpl. destruct (is_ok r1); simpl.
  - destruct (sys_schedule _ _ _ w1) as [r2 w2].
    assert (balanced (running i (taken s m q i w1))).
    { unfold balanced. by rewrite (sum_running _ _ p). }
    by destruct (is_ok r2).
  - by rewrite (sum_taken _ _ p).
Qed.

(** Stopping a process frees its slot but leaves the lottery's total unchanged, so
    from a balanced state the total is too large by the tickets of the stopped process,
    and a draw above the remaining tickets has no winner. *)
Theorem do_stop_scheduling_total s m i p :
  wf s -> balanced s -> accept_message m = true -> names s (SCHEDULING_ENDPOINT m) i p ->
  wp (do_stop_scheduling m)
    (fun r s' => r = OK /\ total_tickets s' = sum_tickets s' + tickets p /\
       forall k, sum_tickets s' <= k <= total_tickets s' -> lottery_winner (procs s') 0 0 k = None)
    never s.
Proof.
  intros Hwf Hb Ha Hn. eapply wp_ret_run; [by eapply do_stop_scheduling_run|].
  pose proof Hn as (_ & Hp & _ & Hu). set (s' := slot_set _ _ _).
  assert (wf s') as Hwf'.
  { eapply wf_set_slot; [done..|]. by intros Hu'%not_in_use. }
  pose proof (sum_tickets_range _ Hwf). pose proof (sum_tickets_range _ Hwf').
  assert (sum_tickets s' = sum_tickets s - tickets p) as Hs.
  { unfold s'. rewrite (sum_slot_set _ _ p), (ticket_of_used p) by done.
    rewrite ticket_of_unused by (by intros ?%not_in_use). lia. }
  change (total_tickets s') with (total_tickets s).
  rewrite (balanced_total _ Hwf Hb). split_and!; [done|lia|]. intros k Hk.
  destruct (lottery_winner (procs s') 0 0 k) as [j|] eqn:Hw; [|done].
  pose proof (lottery_winner_range _ _ _ _ _ Hw) as Hj.
  destruct (aget_is_Some (procs s') j) as [x Hx]; [lia|].
  apply (lottery_winner_slot s' j x) in Hw; [|done..|lia].
  pose proof (before_le_total _ _ _ Hwf' Hx). lia.
Qed.

(** Renicing a used slot by n queues, 0 <= n < 18, gives it 5 n more tickets, at
    most 100, and sets its priority and maximum priority to n; when the kernel refuses the
    new priority the old priorities are restored and the tickets are kept. *)
Theorem do_nice_spec s m i p n :
  wf s -> accept_message m = true -> names s (SCHEDULING_ENDPOINT m) i p ->
  SCHEDULING_MAXPRIO m = n -> 0 <= n < 18 ->
  do_nice m s =
    let '(r, w) := sys_schedule (endpoint p) n (time_slice p) (world s) in
    let f := if is_ok r then reprioritised n ∘ niced n else niced n in
    Ret r ((slot_set i f s) <| world := w |>).
Proof. apply do_nice_run. Qed.

(** The tickets computed in binary64 for a nice value are exactly five per level for
    0 <= nice <= 20; for a negative nice the conversion to unsigned is undefined, and so
    is the whole request, before anything is changed. *)
Theorem do_nice_double s m i p n :
  wf s -> accept_message m = true -> names s (SCHEDULING_ENDPOINT m) i p ->
  SCHEDULING_MAXPRIO m = n -> -20 <= n <= 20 ->
  tickets_to_add n = (if 0 <=? n then Some (5 * n) else None) /\
  (n < 0 -> do_nice m s = Halt Undef s).
Proof.
  intros Hwf Ha Hn Hm Hr. split; [by apply tickets_to_add_nice|].
  intros Hneg. eapply do_nice_negative; [done..|lia].
Qed.

(** C39: the shares of the lottery. When the total is the sum of the tickets in use, of
    the equally likely draws 1, ..., total a slot in use wins as many as it has tickets,
    except that the first slot in use wins one less; the draw equal to the total has no
    winner. *)
Theorem lottery_shares s i p :
  wf s -> balanced s -> aget (procs s) i = Some p -> in_use p ->
  Z.of_nat (length (filter (fun k => lottery_winner (procs s) 0 0 k = Some i)
                           (seqZ 1 (total_tickets s)))) =
    tickets p - (if decide (sumZ ticket_of (take (Z.to_nat i) (procs s)) = 0) then 1 else 0)
  /\ lottery_winner (procs s) 0 0 (total_tickets s) = None.
Proof.
  intros Hwf Hb Hp Hu. pose proof (sum_tickets_range _ Hwf) as Hsum.
  rewrite (balanced_total _ Hwf Hb).
  pose proof (before_le_total _ _ _ Hwf Hp) as [Hb0 Hb1].
  pose proof (wf_slot _ Hwf _ _ Hp Hu) as [_ Ht]. rewrite (ticket_of_used p) in Hb1 by done.
  set (b := sumZ ticket_of (take (Z.to_nat i) (procs s))) in *. split.
  - rewrite (list_filter_iff' _ (fun k => Z.max 1 b <= k < b + tickets p) (seqZ 1 (sum_tickets s))).
    + rewrite count_interval by lia. case_decide; lia.
    + apply Forall_seqZ. intros k Hk.
      rewrite lottery_winner_slot by (done || lia). rewrite ticket_of_used by done. fold b. lia.
  - destruct (lottery_winner (procs s) 0 0 (sum_tickets s)) as [j|] eqn:Hw; [|done].
    pose proof (lottery_winner_range _ _ _ _ _ Hw) as Hj.
    destruct (aget_is_Some (procs s) j) as [x Hx]; [lia|].
    apply (lottery_winner_slot s j x) in Hw; [|done..|lia].
    pose proof (before_le_total _ _ _ Hwf Hx). lia.
Qed.

(** C40: a draw that falls on the tickets of slot [i] lowers the priority number of that
    slot by one, modulo 2^32, and reschedules it: a slot at queue 0 is handed to the
    kernel with priority 2^32 - 1. *)
Theorem do_lottery_spec s i p r w :
  wf s -> balanced s -> total_tickets s <> 0 -> rand (world s) = (r, w) ->
  aget (procs s) i = Some p ->
  let before := sumZ ticket_of (take (Z.to_nat i) (procs s)) in
  before <= r mod total_tickets s + 1 < before + ticket_of p ->
  do_lottery s =
    (let '(_, w') := sys_schedule (endpoint p) (u32 (priority p - 1)) (time_slice p) w in
     Ret tt ((slot_set i promoted s) <| world := w' |>))
  /\ (priority p = 0 -> priority (promoted p) = 2 ^ 32 - 1).
Proof.
  intros Hwf Hb Ht Hr Hp before Hk. split; cycle 1.
  { intros Hz. change (u32 (priority p - 1) = 2 ^ 32 - 1). by rewrite Hz. }
  pose proof (sum_tickets_range _ Hwf) as Hsum. pose proof (balanced_total _ Hwf Hb) as Htot.
  pose proof (rand_range (world s)) as Hrr. rewrite Hr in Hrr; simpl in Hrr.
  assert (s32 (total_tickets s) = total_tickets s) as Hs by (apply s32_small; lia).
  pose proof (do_lottery_run s Hwf) as Hrun. rewrite Hr, Hs in Hrun. rewrite Hrun by done.
  rewrite Z.rem_mod_nonneg by lia.
  pose proof (Z.mod_pos_bound r (total_tickets s) ltac:(lia)).
  rewrite (proj2 (lottery_winner_slot s i p (r mod total_tickets s + 1) Hwf Hp ltac:(lia)) Hk).
  by rewrite Hp.
Qed.
End claims.

(** ** Examples
    An environment whose kernel accepts every call but a priority of 13, and whose world
    is the next value of [rand]. *)
Module Demo.
#[local] Existing Instance demo_headers.
#[local] Existing Instance demo_laws.

#[local] Instance headers : SchedHeaders := {
  SCHEDULING_NO_QUANTUM := 1;
  SCHEDULING_START := 2;
  SCHEDULING_STOP := 3;
  SCHEDULING_SET_NICE := 4;
  SCHEDULING_INHERIT := 5;
  is_ipc_notify := fun st => st =? 1;
  from_kernel := fun st => st =? 2;
}.
#[local] Instance header_laws : SchedHeaderLaws.
Proof. unfold SchedHeaderLaws. simpl. by apply (bool_decide_unpack _). Qed.

#[local] Instance env : SchedEnv Z := {
  sys_schedule := fun _ q _ w => (if q =? 13 then EINVAL else OK, w);
  sys_schedctl := fun _ e _ _ w => (if e =? 5 then EPERM else OK, w);
  sys_hz := 60;
  init_timer := fun w => w;
  set_timer := fun _ w => w;
  timer_expired := fun _ w => (true, w);
  rand := fun w => (w mod 2 ^ 31, w + 1);
  send := fun _ _ _ w => w;
}.
#[local] Instance env_laws : SchedEnvLaws Z.
Proof. intros w. simpl. apply Z.mod_pos_bound. lia. Qed.

Definition free : schedproc := mk_schedproc 0 0 0 0 0 0 0.
Definition used (e prio t : Z) : schedproc := mk_schedproc e 0 1 prio prio 200 t.
(** Slots 0, 2 and 3 are used, with 20, 50 and 30 tickets. *)
Definition s0 : state Z :=
  mk_state [used 0 16 20; free; used 2 0 50; used 3 17 30; free; free; free; free] 100 300 24.
Definition msg (src ty e par prio : Z) : message := mk_message src ty 0 e par prio 200 0.

Lemma aget_procs (s : state Z) i p (P : Z -> schedproc -> Prop) :
  aget (procs s) i = Some p -> Forall (fun '(i, p) => P (Z.of_nat i) p) (imap pair (procs s)) -> P i p.
Proof.
  intros [Hi Hp]%aget_Some Hall. rewrite Forall_lookup in Hall.
  specialize (Hall (Z.to_nat i) (Z.to_nat i, p)). cbn beta iota in Hall. rewrite Z2Nat.id in Hall by done.
  apply Hall. by rewrite list_lookup_imap, Hp.
Qed.

Lemma s0_wf : wf s0.
Proof.
  constructor; [done|by split|]. intros i p Hp.
  refine (aget_procs s0 i p (fun i p => in_use p -> _ENDPOINT_P (endpoint p) = i /\ _) Hp _).
  simpl. repeat constructor; simpl; lia || done.
Qed.
Lemma s0_balanced : balanced s0.
Proof. reflexivity. Qed.


Lemma sched_unauthorised_witness :
  do_nice (msg 7 2 3 0 2) s0 = Ret EPERM s0.
Proof. apply (sched_unauthorised s0 (msg 7 2 3 0 2)); [reflexivity|by left]. Defined.

Lemma s0_admissible : admissible s0 (msg 0 5 4 2 16) 4 free (used 2 0 50).
Proof.
  constructor; [reflexivity..|split; [reflexivity|by intros Hu; apply Hu]|reflexivity|].
  right. split; [done|]. exists 2. by split_and!.
Qed.
Lemma s0_refused : admissible s0 (msg 0 2 5 0 16) 5 free free.
Proof.
  constructor; [reflexivity..|split; [reflexivity|by intros Hu; apply Hu]|reflexivity|].
  by left.
Qed.

Lemma do_start_scheduling_spec_witness :
  do_start_scheduling (msg 0 5 4 2 16) s0 =
    Ret (OK, (msg 0 5 4 2 16) <| SCHEDULING_SCHEDULER := 4 |>)
      (mk_state [used 0 16 20; free; used 2 0 50; used 3 17 30;
                 mk_schedproc 4 2 1 16 0 200 50; free; free; free] 150 300 24).
Proof. rewrite (do_start_scheduling_spec s0 _ _ _ _ s0_wf s0_admissible). reflexivity. Defined.

Lemma do_start_scheduling_total_witness :
  wp (do_start_scheduling (msg 0 2 5 0 16))
    (fun _ s' => total_tickets s' = u32 (sum_tickets s' + 20)) never s0.
Proof. exact (do_start_scheduling_total s0 _ _ _ _ s0_wf s0_balanced s0_refused). Defined.

Lemma do_stop_scheduling_total_witness :
  wp (do_stop_scheduling (msg 2 3 2 0 0))
    (fun r s' => r = OK /\ total_tickets s' = sum_tickets s' + 50 /\
       forall k, sum_tickets s' <= k <= total_tickets s' -> lottery_winner (procs s') 0 0 k = None)
    never s0.
Proof.
  apply (do_stop_scheduling_total s0 (msg 2 3 2 0 0) 2 (used 2 0 50) s0_wf s0_balanced); [done|].
  by split_and!.
Defined.

Lemma s0_names3 n : names s0 (SCHEDULING_ENDPOINT (msg 0 4 3 0 n)) 3 (used 3 17 30).
Proof. by split_and!. Qed.

Lemma do_nice_spec_witness :
  do_nice (msg 0 4 3 0 13) s0 =
    Ret EINVAL (mk_state [used 0 16 20; free; used 2 0 50; used 3 17 95; free; free; free; free]
                  100 300 24).
Proof.
  rewrite (do_nice_spec s0 (msg 0 4 3 0 13) 3 (used 3 17 30) 13 s0_wf eq_refl (s0_names3 13) eq_refl)
    by lia.
  reflexivity.
Defined.

Lemma do_nice_double_witness :
  tickets_to_add (-3) = None /\ do_nice (msg 0 4 3 0 (-3)) s0 = Halt Undef s0.
Proof.
  destruct (do_nice_double s0 (msg 0 4 3 0 (-3)) 3 (used 3 17 30) (-3) s0_wf eq_refl
              (s0_names3 (-3)) eq_refl ltac:(lia)) as [Ht Hn].
  split; [exact Ht|apply Hn; lia].
Defined.

Lemma lottery_shares_witness :
  Z.of_nat (length (filter (fun k => lottery_winner (procs s0) 0 0 k = Some 2) (seqZ 1 100))) = 50 /\
  lottery_winner (procs s0) 0 0 100 = None.
Proof. exact (lottery_shares s0 2 (used 2 0 50) s0_wf s0_balanced eq_refl ltac:(done)). Defined.

Lemma do_lottery_spec_witness :
  do_lottery s0 =
    Ret tt (mk_state [used 0 16 20; free; mk_schedproc 2 0 1 0 (2 ^ 32 - 1) 200 50; used 3 17 30;
                      free; free; free; free] 100 300 25).
Proof.
  destruct (do_lottery_spec s0 2 (used 2 0 50) 24 25 s0_wf s0_balanced ltac:(done) eq_refl eq_refl)
    as [Hrun _]; [by vm_compute|]. rewrite Hrun. reflexivity.
Defined.
End Demo.
