(* ===== verification/SlugMem.v ===== *)
(** The debugging allocator of [src/Project_3/slugmem.c]: a hash table with linear
    probing that records every block, and the checks that [slug_malloc], [slug_free] and
    the two functions registered with [atexit] make on it.
    The structures [struct allocation] live at the addresses [malloc] returned, so the
    table holds addresses and the structures are a map from addresses; [ht] is NULL, a
    pointer to a table or a pointer to a freed one.  What is printed is a trace of lines.
    [malloc], [calloc], [free], [time] and [pow] are the operations of [SlugEnv]. *)
From S2P Require Import Prelude CDouble.
Local Open Scope Z_scope.

(** ** Data *)
Record allocation := mk_allocation {
  loc : Z;
  where_ : string;
  when : Z;
  a_size : Z;
  active : bool;
}.
#[export] Instance eta_allocation : Eta allocation := fun r =>
  mk_allocation (loc r) (where_ r) (when r) (a_size r) (active r).

Record hashtable := mk_hashtable {
  size : Z;
  load : Z;
  table_at : Z;                 (* the address of the table *)
  table : list (option Z);      (* NULL or the address of a struct allocation *)
  active_entries : Z;
}.
#[export] Instance eta_hashtable : Eta hashtable := fun r =>
  mk_hashtable (size r) (load r) (table_at r) (table r) (active_entries r).

Inductive ht_pointer := NULL | Live (at_ : Z) (h : hashtable) | Freed.

Inductive handler := Slug_memstats | Leak_detection.

(** What the functions print, on stdout and stderr. *)
Inductive line :=
  | No_allocations
  | Memory_dump
  | Entry (i : Z) (where_ : string) (loc size : Z) (active : bool) (when : Z)
  | Average_block_size (mean : Double.double)
  | Standard_deviation (d : Double.double)
  | Problems (any : bool)
  | Unusual_size_0 (where_ : string)
  | Over_128MB (where_ : string) (size : Z)
  | Not_allocated (where_ : string) (addr : Z)
  | Already_freed (where_ : string)
  | Memory_leak (where_ : string).

Class SlugEnv (W : Type) := {
  malloc : Z -> W -> Z * W;           (* 0 is NULL *)
  calloc : Z -> Z -> W -> Z * W;
  free : Z -> W -> W;
  time : W -> Z * W;
  pow : Double.double -> Double.double -> Double.double;
  sizeof_hashtable : Z;
  sizeof_allocation : Z;
  sizeof_pointer : Z;
  garbage : W -> Z;                   (* an int in memory that malloc returned *)
  live : W -> gset Z;                 (* the blocks that are allocated *)
}.

(** [malloc] and [calloc] return NULL or a block that was not allocated; [free] gives one
    back. *)
Class SlugEnvLaws (W : Type) `{SlugEnv W} : Prop := {
  malloc_live n w p w' : malloc n w = (p, w') ->
    (p = 0 /\ live w' = live w) \/ (p <> 0 /\ (p ∉ live w) /\ live w' = ({[p]} ∪ live w));
  calloc_live n k w p w' : calloc n k w = (p, w') ->
    (p = 0 /\ live w' = live w) \/ (p <> 0 /\ (p ∉ live w) /\ live w' = ({[p]} ∪ live w));
  free_live p w : live (free p w) = live w ∖ {[p]};
  time_live w : live (time w).2 = live w;
}.

Record state (W : Type) := mk_state {
  ht : ht_pointer;
  EXIT_STATUS : Z;
  atexit : list handler;              (* the functions registered, the last one first *)
  allocs : gmap Z allocation;         (* the struct allocations by address *)
  out : list line;
  world : W;
}.
Arguments mk_state {W}.
Arguments ht {W}.
Arguments EXIT_STATUS {W}.
Arguments atexit {W}.
Arguments allocs {W}.
Arguments out {W}.
Arguments world {W}.
#[export] Instance eta_state (W : Type) : Eta (state W) := fun r =>
  mk_state (ht r) (EXIT_STATUS r) (atexit r) (allocs r) (out r) (world r).

Definition start {W} (w : W) : state W := mk_state NULL 0 [] ∅ [] w.

Section operations.
Context {W : Type} `{SlugEnv W}.
Abbreviation cmd := (M (state W)).

Definition env {A} (f : W -> A * W) : cmd A :=
  s ← get; let '(a, w) := f (world s) in modify (fun s => s <| world := w |>);; mret a.
Definition env_free (p : Z) : cmd unit := modify (fun s => s <| world := free p (world s) |>).
Definition print (l : line) : cmd unit := modify (fun s => s <| out := out s ++ [l] |>).
Definition exit_ {A} : cmd A := halt Exit.

(** [ht->f]: [ht] has to point to a table. *)
Definition get_ht : cmd hashtable :=
  s ← get; match ht s with Live _ h => mret h | _ => halt Undef end.
Definition set_ht (f : hashtable -> hashtable) : cmd unit :=
  s ← get;
  match ht s with Live a h => modify (fun s => s <| ht := Live a (f h) |>) | _ => halt Undef end.
(** [a->f] for the structure at address [p]. *)
Definition get_alloc (p : Z) : cmd allocation := s ← get; deref (allocs s !! p).
(** [ht->table[i]] *)
Definition entry (i : Z) : cmd (option Z) := h ← get_ht; deref (aget (table h) i).
Definition set_entry (i : Z) (e : option Z) : cmd unit :=
  entry i;; set_ht (fun h => h <| table := aupd i (fun _ => e) (table h) |>).

(** A loop index of type [int] may not pass 2^31 - 1. *)
Definition int_index (i : Z) : cmd unit := if i <? 2 ^ 31 then mret tt else halt Undef.

Definition double_hashtable (insert_into_hashtable : Z -> cmd unit) : cmd unit :=
  h ← get_ht;
  let oldtable := table h in
  let oldtable_at := table_at h in
  let oldsize := size h in
  let newsize := u64 (oldsize * oldsize) in
  p ← env (calloc newsize sizeof_pointer);
  set_ht (fun h => h <| size := newsize |> <| table_at := p |>
                     <| table := if p =? 0 then [] else replicate (Z.to_nat newsize) None |>);;
  foreach (seqZ 0 oldsize) (fun i =>
    int_index i;;
    e ← deref (aget oldtable i);
    match e with
    | Some a => insert_into_hashtable a
    | None => mret tt
    end);;
  env_free oldtable_at.

(** The [while] of the insertion: the first free position from [pos] on. *)
Definition insert_probe (fuel : nat) (pos : Z) : cmd Z :=
  loop_ fuel (fun pos =>
    e ← entry pos;
    match e with
    | None => mret (inr pos)
    | Some _ => h ← get_ht; mret (inl ((pos + 1) mod size h))
    end) pos.

(** [depth] bounds the recursion through [double_hashtable]; the probe visits a position
    at most once when one is free, so [size] turns are enough. *)
Fixpoint insert_into_hashtable (depth : nat) (a : Z) : cmd unit :=
  match depth with
  | O => halt NoFuel
  | S depth =>
      h ← get_ht;
      (if size h <? u64 (load h * 4) then double_hashtable (insert_into_hashtable depth)
       else mret tt);;
      x ← get_alloc a;
      h ← get_ht;
      pos ← (if size h =? 0 then halt Undef
             else insert_probe (Z.to_nat (size h)) (loc x mod size h));
      set_entry pos (Some a);;
      set_ht (fun h => h <| load := u64 (load h + 1) |>);;
      h ← get_ht;
      if active_entries h =? 2 ^ 31 - 1 then halt Undef
      else set_ht (fun h => h <| active_entries := active_entries h + 1 |>)
  end.

Definition is_in_hashtable (loc_ : Z) : cmd (option Z) :=
  h ← get_ht;
  if size h =? 0 then halt Undef else
  loop_ (Z.to_nat (size h)) (fun pos =>
    e ← entry pos;
    match e with
    | None => mret (inr None)
    | Some p =>
        x ← get_alloc p;
        if loc x =? loc_ then mret (inr (Some p))
        else h ← get_ht; mret (inl ((pos + 1) mod size h))
    end) (loc_ mod size h).

(** [for(i = 0; i < ht->size; ++i) { if(ht->table[i] == NULL) continue; body }] *)
Definition for_entries {A} (a : A) (body : A -> Z -> Z -> cmd A) : cmd A :=
  h ← get_ht;
  fold_ (seqZ 0 (size h)) a (fun a i =>
    int_index i;;
    e ← entry i;
    match e with
    | None => mret a
    | Some p => body a i p
    end).

Definition destroy_hashtable : cmd unit :=
  for_entries tt (fun _ i p =>
    modify (fun s => s <| allocs := delete p (allocs s) |>);;
    env_free p;;
    set_entry i None);;
  s ← get;
  match ht s with
  | Live a h =>
      env_free (table_at h);;
      env_free a;;
      modify (fun s => s <| ht := Freed |>)
  | _ => halt Undef
  end.

Definition slug_memstats : cmd unit :=
  s ← get;
  match ht s with
  | NULL => print No_allocations;; exit_
  | _ =>
      print Memory_dump;;
      '(n_allocs, total) ← for_entries (0, 0) (fun '(n_allocs, total) i p =>
        x ← get_alloc p;
        print (Entry i (where_ x) (loc x) (a_size x) (active x) (when x));;
        mret (n_allocs + 1, s32 (total + a_size x)));
      if n_allocs =? 0 then halt Undef else
      let mean := Double.of_Z (total ÷ n_allocs) in
      std_dev ← for_entries (Double.of_Z 0) (fun std_dev _ p =>
        x ← get_alloc p;
        mret (Double.add std_dev
                (pow (Double.sub (Double.of_Z (a_size x)) mean) (Double.of_Z 2))));
      print (Average_block_size mean);;
      print (Standard_deviation (Double.sqrt std_dev));;
      s ← get;
      (if EXIT_STATUS s =? 1 then print (Problems true) else mret tt);;
      (if EXIT_STATUS s =? 0 then print (Problems false) else mret tt);;
      destroy_hashtable
  end.

(** An error report: the status becomes 1 and the program exits. *)
Definition report_and_exit {A} (l : line) : cmd A :=
  print l;; modify (fun s => s <| EXIT_STATUS := 1 |>);; exit_.

Definition slug_free (addr : Z) (wh : string) : cmd unit :=
  s ← get;
  match ht s with
  | NULL => report_and_exit (Not_allocated wh addr)
  | _ =>
      a ← is_in_hashtable addr;
      match a with
      | None => report_and_exit (Not_allocated wh addr)
      | Some p =>
          x ← get_alloc p;
          if negb (active x) then report_and_exit (Already_freed wh) else
          modify (fun s => s <| allocs := alter (fun x => x <| active := false |>) p (allocs s) |>);;
          x ← get_alloc p;
          env_free (loc x)
      end
  end.

Definition init_hashtable : cmd unit :=
  a ← env (malloc sizeof_hashtable);
  if a =? 0 then halt Undef else
  g ← gets (fun s => garbage (world s));
  p ← env (calloc 2049 sizeof_pointer);
  modify (fun s => s <| ht := Live a (mk_hashtable 2049 0 p
                                        (if p =? 0 then [] else replicate 2049 None) g) |>);;
  modify (fun s => s <| atexit := Slug_memstats :: atexit s |>);;
  modify (fun s => s <| atexit := Leak_detection :: atexit s |>).

Definition slug_malloc (sz : Z) (wh : string) : cmd Z :=
  s ← get;
  (match ht s with NULL => init_hashtable | _ => mret tt end);;
  (if sz =? 0 then print (Unusual_size_0 wh) else mret tt);;
  if 128000000 <=? sz then report_and_exit (Over_128MB wh sz) else
  now ← env time;
  loc_ ← env (malloc sz);
  a ← env (malloc sizeof_allocation);
  if a =? 0 then halt Undef else
  modify (fun s => s <| allocs := <[a := mk_allocation loc_ wh now sz true]> (allocs s) |>);;
  insert_into_hashtable 3 a;;
  mret loc_.

Definition leak_detection : cmd unit :=
  leak ← for_entries None (fun leak _ p =>
    x ← get_alloc p;
    mret (if active x then Some (where_ x) else leak));
  match leak with
  | Some wh => report_and_exit (Memory_leak wh)
  | None => mret tt
  end.

(** [exit]: the registered functions run, the last one first; a second call of [exit],
    by one of them, is undefined (C99 7.20.4.3). *)
Definition run_handler (h : handler) : cmd unit :=
  match h with Slug_memstats => slug_memstats | Leak_detection => leak_detection end.
Definition run_atexit : cmd unit := fun s =>
  match foreach (atexit s) run_handler s with
  | Halt Exit s' => Halt Undef s'
  | o => o
  end.
End operations.

(** ** The probe invariant *)
Section table.
Implicit Types (h : hashtable) (m : gmap Z allocation).

Definition holds h (i p : Z) : Prop := aget (table h) i = Some (Some p).
Definition tracked h (p : Z) : Prop := exists i, holds h i p.
(** Offset [j] of the probe sequence of address [l]. *)
Definition probe_at h (l : Z) (j : nat) : Z := (l + Z.of_nat j) mod size h.
Definition occupied h (i : Z) : Prop := exists p, holds h i p.
(** Position [i] is on the probe sequence of [l], with no free position before it. *)
Definition reach h (l i : Z) : Prop :=
  exists d : nat, Z.of_nat d < size h /\ probe_at h l d = i /\
    forall j, (j < d)%nat -> occupied h (probe_at h l j).
(** The number of positions in use. *)
Definition in_use (e : option Z) : Z := match e with Some _ => 1 | None => 0 end.
Definition count h : Z := sumZ in_use (table h).

Lemma in_use_nonneg l : 0 <= sumZ in_use l.
Proof. apply sumZ_nonneg, Forall_true. intros []; simpl; lia. Qed.

Record wf_table h m : Prop := {
  t_size : size h = 2049 \/ size h = 2049 * 2049;
  t_length : Z.of_nat (length (table h)) = size h;
  t_count : count h <= load h;
  t_load : load h * 4 <= size h + 4;
  t_active : active_entries h <= 2 ^ 30 + load h;
  t_reach : forall i p, holds h i p -> exists x, m !! p = Some x /\ reach h (loc x) i;
  t_inj : forall i j p, holds h i p -> holds h j p -> i = j;
}.

Lemma t_bounds h m : wf_table h m -> 2049 <= size h <= 2049 * 2049.
Proof. intros Hwf. destruct (t_size _ _ Hwf); lia. Qed.

Lemma probe_range h l j : 0 < size h -> 0 <= probe_at h l j < size h.
Proof. apply Z.mod_pos_bound. Qed.

Lemma probe_next h l j : 0 < size h -> (probe_at h l j + 1) mod size h = probe_at h l (S j).
Proof.
  intros Hs. unfold probe_at. rewrite Z.add_mod_idemp_l by lia. f_equal. lia.
Qed.

Lemma probe_0 h l : l mod size h = probe_at h l 0.
Proof. unfold probe_at. f_equal. lia. Qed.

Lemma probe_onto h l i : 0 <= i < size h -> exists d : nat, Z.of_nat d < size h /\ probe_at h l d = i.
Proof.
  intros Hi. exists (Z.to_nat ((i - l) mod size h)).
  pose proof (Z.mod_pos_bound (i - l) (size h) ltac:(lia)). split; [lia|].
  unfold probe_at. rewrite Z2Nat.id, Z.add_mod_idemp_r by lia.
  replace (l + (i - l)) with i by lia. apply Z.mod_small. lia.
Qed.

(** A table that is not full has a free position. *)
Lemma count_lt_free (t : list (option Z)) :
  sumZ in_use t < Z.of_nat (length t) ->
  exists i, aget t i = Some None.
Proof.
  induction t as [|[p|] t IH]; rewrite ?sumZ_cons; simpl.
  - unfold sumZ; simpl. lia.
  - intros Hc. destruct IH as (i & [Hi Hx]%aget_Some); [lia|]. exists (i + 1).
    apply aget_Some. split; [lia|]. by replace (Z.to_nat (i + 1)) with (S (Z.to_nat i)) by lia.
  - intros _. by exists 0.
Qed.

Lemma free_exists h m : wf_table h m -> exists i, aget (table h) i = Some None.
Proof.
  intros Hwf. apply count_lt_free.
  pose proof (t_bounds _ _ Hwf). pose proof (t_count _ _ Hwf). pose proof (t_load _ _ Hwf).
  rewrite (t_length _ _ Hwf). unfold count in *. lia.
Qed.

Lemma slot_cases h m i : wf_table h m -> 0 <= i < size h ->
  occupied h i \/ aget (table h) i = Some None.
Proof.
  intros Hwf Hi. destruct (aget_is_Some (table h) i) as [[p|] Hp];
    [rewrite (t_length _ _ Hwf); lia|left; by exists p|by right].
Qed.

(** The probe sequence of every address meets a free position, and the first one is
    preceded by occupied positions only. *)
Lemma probe_free h m l : wf_table h m ->
  exists d : nat, Z.of_nat d < size h /\ aget (table h) (probe_at h l d) = Some None /\
    forall j, (j < d)%nat -> occupied h (probe_at h l j).
Proof.
  intros Hwf. pose proof (t_bounds _ _ Hwf) as Hb. destruct (free_exists _ _ Hwf) as [i Hi].
  pose proof (aget_range _ _ _ Hi) as Hir. rewrite (t_length _ _ Hwf) in Hir.
  destruct (probe_onto h l i Hir) as (d & Hd & <-).
  destruct (least_nat (fun d => aget (table h) (probe_at h l d) = Some None) d Hi)
    as (d' & Hle & Hfree & Hmin).
  exists d'. split_and!; [lia|done|]. intros j Hj.
  destruct (slot_cases h m (probe_at h l j) Hwf) as [|Hn]; [apply probe_range; lia|done|].
  by destruct (Hmin j Hj).
Qed.

Lemma tracked_known h m p : wf_table h m -> tracked h p -> exists x, m !! p = Some x.
Proof. intros Hwf (i & Hi). destruct (t_reach _ _ Hwf _ _ Hi) as (x & ? & _). by exists x. Qed.

(** *** The table after an insertion *)
Definition added h (i a : Z) : hashtable :=
  h <| table := aupd i (fun _ => Some a) (table h) |>
    <| load := load h + 1 |>
    <| active_entries := active_entries h + 1 |>.

Lemma holds_added h i a j p :
  aget (table h) i = Some None -> holds (added h i a) j p <-> (i = j /\ p = a) \/ holds h j p.
Proof.
  intros Hi. unfold holds, added. simpl. rewrite aget_aupd.
  case_decide as Hij; [subst j; rewrite Hi|]; simpl; split.
  - intros ?; simplify_eq. by left.
  - by intros [[_ ->]|?]; simplify_eq.
  - by right.
  - by intros [[? _]|?].
Qed.

Lemma tracked_added h i a p :
  aget (table h) i = Some None -> tracked (added h i a) p <-> p = a \/ tracked h p.
Proof.
  intros Hi. unfold tracked. split.
  - intros (j & Hj). rewrite holds_added in Hj by done. destruct Hj as [[_ ->]|Hj]; eauto.
  - intros [->|(j & Hj)].
    + exists i. apply holds_added; [done|]. by left.
    + exists j. apply holds_added; [done|]. by right.
Qed.

Lemma reach_mono h h' l i :
  size h' = size h -> (forall j, occupied h j -> occupied h' j) -> reach h l i -> reach h' l i.
Proof.
  intros Hs Ho (d & Hd & Hi & Hj). exists d. unfold probe_at in *. rewrite Hs. eauto.
Qed.

Lemma wf_added h m (d : nat) a x :
  wf_table h m -> m !! a = Some x -> ~ tracked h a -> load h * 4 <= size h ->
  Z.of_nat d < size h -> aget (table h) (probe_at h (loc x) d) = Some None ->
  (forall j, (j < d)%nat -> occupied h (probe_at h (loc x) j)) ->
  wf_table (added h (probe_at h (loc x) d) a) m.
Proof.
  intros Hwf Hx Hna Hl Hd Hfree Hocc.
  assert (forall j, occupied h j -> occupied (added h (probe_at h (loc x) d) a) j) as Hmono.
  { intros j [p Hp]. exists p. apply holds_added; eauto. }
  constructor; simpl.
  - apply (t_size _ _ Hwf).
  - rewrite length_aupd. apply (t_length _ _ Hwf).
  - unfold count. simpl. rewrite (sumZ_aupd _ _ _ _ None) by done. simpl.
    pose proof (t_count _ _ Hwf). unfold count in *. lia.
  - lia.
  - pose proof (t_active _ _ Hwf). lia.
  - intros i p Hi. rewrite holds_added in Hi by done. destruct Hi as [[<- ->]|Hi].
    + exists x. split; [done|]. exists d. split_and!; [done..|]. intros j Hj. by apply Hmono, Hocc.
    + destruct (t_reach _ _ Hwf _ _ Hi) as (y & Hy & Hr). exists y. split; [done|].
      by apply (reach_mono h).
  - intros i j p Hi Hj. rewrite !holds_added in * by done.
    destruct Hi as [[<- ->]|Hi], Hj as [[<- Hpa]|Hj]; subst; try done.
    + exfalso. apply Hna. by exists j.
    + exfalso. apply Hna. by exists i.
    + by eapply (t_inj _ _ Hwf).
Qed.

(** *** Lookups *)
(** The answer of a lookup of [l]: a record of [l], or none when no record has it. *)
Definition lookup_ok h m (l : Z) (r : option Z) : Prop :=
  match r with
  | Some p => tracked h p /\ exists x, m !! p = Some x /\ loc x = l
  | None => forall p x, tracked h p -> m !! p = Some x -> loc x <> l
  end.

(** The lookup of [l] ends at offset [d] with answer [r]. *)
Definition ends_at h m (l : Z) (d : nat) (r : option Z) : Prop :=
  Z.of_nat d < size h /\ aget (table h) (probe_at h l d) = Some r /\
  (forall p, r = Some p -> exists x, m !! p = Some x /\ loc x = l) /\
  forall j, (j < d)%nat -> exists p x,
    holds h (probe_at h l j) p /\ m !! p = Some x /\ loc x <> l.

Lemma lookup_ends h m l : wf_table h m -> exists d r, ends_at h m l d r.
Proof.
  intros Hwf. destruct (probe_free h m l Hwf) as (d0 & Hd0 & Hfree & Hocc).
  pose (P := fun d => match aget (table h) (probe_at h l d) with
                      | Some (Some p) => match m !! p with Some x => loc x = l | None => False end
                      | _ => True end).
  assert (forall d, Decision (P d)) as Hdec.
  { intros d. unfold P.
    destruct (aget (table h) (probe_at h l d)) as [[p|]|]; [destruct (m !! p)|..]; apply _. }
  destruct (least_nat P d0) as (d & Hle & HP & Hmin).
  { unfold P. by rewrite Hfree. }
  assert (0 < size h) as Hpos by (pose proof (t_bounds _ _ Hwf); lia).
  destruct (slot_cases h m (probe_at h l d) Hwf (probe_range h l d Hpos)) as [[p Hp]|Hn];
    [exists d, (Some p)|exists d, None]; (split; [lia|split; [done|split]]).
  - intros p' [= <-]. unfold P in HP. rewrite Hp in HP. destruct (m !! p) as [x|]; [|done].
    by exists x.
  - intros j Hj. destruct (Hocc j) as [q Hq]; [lia|]. specialize (Hmin j Hj). unfold P in Hmin.
    unfold holds in Hq. rewrite Hq in Hmin. destruct (t_reach _ _ Hwf _ _ Hq) as (x & Hx & _).
    exists q, x. rewrite Hx in Hmin. done.
  - done.
  - intros j Hj. destruct (Hocc j) as [q Hq]; [lia|]. specialize (Hmin j Hj). unfold P in Hmin.
    unfold holds in Hq. rewrite Hq in Hmin. destruct (t_reach _ _ Hwf _ _ Hq) as (x & Hx & _).
    exists q, x. rewrite Hx in Hmin. done.
Qed.

Lemma ends_at_ok h m l d r : wf_table h m -> ends_at h m l d r -> lookup_ok h m l r.
Proof.
  intros Hwf (Hd & Hr & Hp & Hj). destruct r as [p|]; simpl.
  - split; [by exists (probe_at h l d)|]. by apply Hp.
  - intros p x (i & Hi) Hx <-. destruct (t_reach _ _ Hwf _ _ Hi) as (x' & Hx' & d' & Hd' & <- & Hocc).
    simplify_eq. destruct (lt_eq_lt_dec d d') as [[Hlt| ->]|Hlt].
    + destruct (Hocc d Hlt) as [q Hq]. unfold holds in Hq. congruence.
    + unfold holds in Hi. congruence.
    + destruct (Hj d' Hlt) as (q & y & Hq & Hy & Hne). unfold holds in *. congruence.
Qed.

(** An insertion does not change the answer of a lookup that had one. *)
Lemma ends_at_added h m l d p i a :
  aget (table h) i = Some None -> ends_at h m l d (Some p) -> ends_at (added h i a) m l d (Some p).
Proof.
  intros Hi (Hd & Hr & Hp & Hj). split_and!; [done| |done|].
  - apply holds_added; [done|]. by right.
  - intros j Hlt. destruct (Hj j Hlt) as (q & x & Hq & ?). exists q, x.
    split; [|done]. apply holds_added; [done|]. by right.
Qed.

(** The answer does not depend on the rest of the structures. *)
Lemma ends_at_unique h m l d r d' r' :
  ends_at h m l d r -> ends_at h m l d' r' -> r = r'.
Proof.
  intros (Hd & Hr & Hp & Hj) (Hd' & Hr' & Hp' & Hj').
  destruct (lt_eq_lt_dec d d') as [[Hlt| ->]|Hlt]; [|congruence|].
  - destruct (Hj' d Hlt) as (q & x & Hq & Hx & Hne). unfold holds in Hq. simplify_eq.
    destruct (Hp q) as (y & ? & ?); [congruence|]. congruence.
  - destruct (Hj d' Hlt) as (q & x & Hq & Hx & Hne). unfold holds in Hq. simplify_eq.
    destruct (Hp' q) as (y & ? & ?); [congruence|]. congruence.
Qed.
End table.

(** ** Running the operations *)
Section running.
Context {W : Type} `{SlugEnvLaws W}.
Implicit Types (s : state W) (h : hashtable).
Abbreviation cmd := (M (state W)).

Lemma slug_env_run {A} (f : W -> A * W) s :
  env f s = Ret (f (world s)).1 (s <| world := (f (world s)).2 |>).
Proof. unfold env, mbind, M_bind, get. by destruct (f (world s)). Qed.

Lemma get_ht_run s at_ h : ht s = Live at_ h -> get_ht s = Ret h s.
Proof. unfold get_ht, mbind, M_bind, get. by intros ->. Qed.

Lemma set_ht_run s at_ h f : ht s = Live at_ h -> set_ht f s = Ret tt (s <| ht := Live at_ (f h) |>).
Proof. unfold set_ht, mbind, M_bind, get. by intros ->. Qed.

Lemma get_alloc_run s p x : allocs s !! p = Some x -> get_alloc p s = Ret x s.
Proof. unfold get_alloc, mbind, M_bind, get. by intros ->. Qed.

Lemma entry_run s at_ h i e : ht s = Live at_ h -> aget (table h) i = Some e -> entry i s = Ret e s.
Proof. intros Hht He. unfold entry. erewrite bind_ret by (by eapply get_ht_run). by rewrite He. Qed.

Lemma set_entry_run s at_ h i e e' :
  ht s = Live at_ h -> aget (table h) i = Some e ->
  set_entry i e' s = Ret tt (s <| ht := Live at_ (h <| table := aupd i (fun _ => e') (table h) |>) |>).
Proof.
  intros Hht He. unfold set_entry. erewrite bind_ret by (by eapply entry_run).
  etrans; [exact (set_ht_run _ _ _ _ Hht)|done].
Qed.

Lemma int_index_run s i : i < 2 ^ 31 -> int_index i s = Ret tt s.
Proof. intros Hi. unfold int_index. by destruct (Z.ltb_spec i (2 ^ 31)); [|lia]. Qed.
#[local] Hint Resolve get_ht_run set_ht_run get_alloc_run entry_run set_entry_run int_index_run : run.

(** A lookup finds the first record of the address on its probe sequence. *)
Lemma is_in_hashtable_run s at_ h l d r :
  ht s = Live at_ h -> wf_table h (allocs s) -> ends_at h (allocs s) l d r ->
  is_in_hashtable l s = Ret r s.
Proof.
  intros Hht Hwf (Hd & Hr & Hp & Hj). pose proof (t_bounds _ _ Hwf) as Hb.
  unfold is_in_hashtable. run_step.
  destruct (Z.eqb_spec (size h) 0) as [|_]; [lia|]. rewrite probe_0.
  apply (loop_run _ _ (probe_at h l) d); [| |lia].
  - intros j Hlt. destruct (Hj j Hlt) as (p & x & Hq & Hx & Hne).
    run_step. run_step. destruct (Z.eqb_spec (loc x) l) as [|_]; [done|].
    run_step. by rewrite probe_next by lia.
  - run_step. destruct r as [p|]; [|done]. destruct (Hp p eq_refl) as (x & Hx & Hl).
    run_step. by rewrite (proj2 (Z.eqb_eq _ _) Hl).
Qed.

Lemma insert_probe_run s at_ h l (d : nat) :
  ht s = Live at_ h -> 0 < size h -> Z.of_nat d < size h ->
  aget (table h) (probe_at h l d) = Some None ->
  (forall j, (j < d)%nat -> occupied h (probe_at h l j)) ->
  insert_probe (Z.to_nat (size h)) (l mod size h) s = Ret (probe_at h l d) s.
Proof.
  intros Hht Hs Hd Hfree Hocc. rewrite probe_0. unfold insert_probe.
  apply (loop_run _ _ (probe_at h l) d); [| |lia].
  - intros j Hlt. destruct (Hocc j Hlt) as (p & Hp). do 2 run_step. by rewrite probe_next by lia.
  - by run_step.
Qed.

(** An insertion into a table with room. *)
Lemma insert_room_run s at_ h a x (depth : nat) :
  ht s = Live at_ h -> wf_table h (allocs s) -> allocs s !! a = Some x -> ~ tracked h a ->
  load h * 4 <= size h ->
  exists d, aget (table h) (probe_at h (loc x) d) = Some None /\
    wf_table (added h (probe_at h (loc x) d) a) (allocs s) /\
    insert_into_hashtable (S depth) a s =
      Ret tt (s <| ht := Live at_ (added h (probe_at h (loc x) d) a) |>).
Proof.
  intros Hht Hwf Hx Hna Hl. destruct (probe_free h _ (loc x) Hwf) as (d & Hd & Hfree & Hocc).
  pose proof (t_bounds _ _ Hwf). pose proof (t_active _ _ Hwf).
  assert (0 <= count h) as Hc by apply in_use_nonneg.
  pose proof (t_count _ _ Hwf).
  exists d. split; [done|]. split; [by apply wf_added|]. simpl.
  run_step. rewrite u64_small by lia. rewrite (proj2 (Z.ltb_ge _ _) Hl).
  do 3 run_step. rewrite (proj2 (Z.eqb_neq (size h) 0)) by lia.
  rewrite (bind_ret _ _ _ _ _ (insert_probe_run _ at_ _ _ _ Hht ltac:(lia) Hd Hfree Hocc)).
  do 3 run_step. simpl. rewrite (proj2 (Z.eqb_neq _ _)) by lia.
  erewrite set_ht_run by done. unfold added. simpl. by rewrite u64_small by lia.
Qed.

(** *** Doubling *)
(** What the doubling of a table [h] of 2049 positions leaves. *)
Record doubled h h1 (m : gmap Z allocation) : Prop := {
  d_wf : wf_table h1 m;
  d_size : size h1 = size h * size h;
  d_load : load h1 = load h + count h;
  d_tracked q : tracked h1 q <-> tracked h q;
}.

Lemma holds_nth h (n : nat) p : holds h (Z.of_nat n) p <-> table h !! n = Some (Some p).
Proof. unfold holds. by rewrite aget_nat. Qed.

Lemma tracked_below h i p : holds h i p <-> exists n, i = Z.of_nat n /\ table h !! n = Some (Some p).
Proof.
  split; [|by intros (n & -> & ?); apply holds_nth].
  intros [Hi Hp]%aget_Some. exists (Z.to_nat i). by rewrite Z2Nat.id.
Qed.

(** The entries of the first [n] positions have been inserted again. *)
Record copied h (m : gmap Z allocation) (p : Z) (n : nat) h' : Prop := {
  c_wf : wf_table h' m;
  c_size : size h' = 2049 * 2049;
  c_at : table_at h' = p;
  c_load : load h' = load h + sumZ in_use (take n (table h));
  c_tracked q : tracked h' q <-> exists k, (k < n)%nat /\ table h !! k = Some (Some q);
}.

Lemma copied_0 h m p n h' :
  wf_table h m -> size h = 2049 -> Z.of_nat n = 2049 * 2049 ->
  h' = h <| size := 2049 * 2049 |> <| table_at := p |> <| table := replicate n None |> ->
  copied h m p 0 h'.
Proof.
  intros Hwf Hs Hn ->. set (h0 := _ <| table := replicate n None |>).
  assert (forall i q, ~ holds h0 i q) as Hno by (by intros i q Hi%aget_replicate).
  pose proof (t_load _ _ Hwf). pose proof (t_active _ _ Hwf). pose proof (t_count _ _ Hwf).
  pose proof (in_use_nonneg (table h)). unfold count in *.
  constructor; [constructor|..]; try done.
  - by right.
  - change (Z.of_nat (length (replicate n (@None Z))) = 2049 * 2049). by rewrite length_replicate.
  - change (sumZ in_use (replicate n None) <= load h). rewrite sumZ_replicate. simpl in_use. lia.
  - change (load h * 4 <= 2049 * 2049 + 4). lia.
  - intros i q Hi. by destruct (Hno i q).
  - intros i j q Hi. by destruct (Hno i q).
  - change (load h = load h + 0). lia.
  - intros q. split; [|intros (k & ? & _); lia]. intros (i & Hi). by destruct (Hno i q).
Qed.

Lemma copied_none h m p n h' :
  table h !! n = Some None -> copied h m p n h' -> copied h m p (S n) h'.
Proof.
  intros Hn [Hwf Hs Hat Hl Ht]. split; [done..| |].
  - rewrite (sumZ_take_S _ _ _ _ Hn). simpl. lia.
  - intros q. rewrite Ht. split; intros (k & Hk & Hq); exists k; (split; [|done]); [lia|].
    destruct (decide (k = n)) as [->|]; [congruence|lia].
Qed.

Lemma copied_some h m p n h' a i :
  wf_table h m -> table h !! n = Some (Some a) -> copied h m p n h' ->
  aget (table h') i = Some None -> wf_table (added h' i a) m -> copied h m p (S n) (added h' i a).
Proof.
  intros Hwf0 Hn [Hwf Hs Hat Hl Ht] Hi Hwf'. split; [done..| |].
  - rewrite (sumZ_take_S _ _ _ _ Hn). simpl. lia.
  - intros q. rewrite tracked_added, Ht by done. split.
    + intros [->|(k & Hk & Hq)]; [by exists n; split; [lia|]|]. exists k. split; [lia|done].
    + intros (k & Hk & Hq). destruct (decide (k = n)) as [->|]; [left; congruence|].
      right. exists k. split; [lia|done].
Qed.

Lemma copied_all h m p h1 :
  wf_table h m -> size h = 2049 -> copied h m p (Z.to_nat 2049) h1 -> doubled h h1 m.
Proof.
  intros Hwf Hs [Hwf1 Hs1 Hat Hl Ht]. pose proof (t_length _ _ Hwf) as Hlen.
  assert (Z.to_nat 2049 = length (table h)) as Hn by lia. rewrite Hn in *. split; [done|..].
  - by rewrite Hs1, Hs.
  - by rewrite Hl, firstn_all.
  - intros q. rewrite Ht. split.
    + intros (k & _ & Hk). exists (Z.of_nat k). by apply holds_nth.
    + intros (i & Hi). apply tracked_below in Hi as (k & _ & Hk). exists k.
      split; [by eapply lookup_lt_Some|done].
Qed.

(** One turn of the copying loop. *)
Lemma copy_step at_ h m p (n depth : nat) s h' e :
  wf_table h m -> size h = 2049 -> table h !! n = Some e ->
  ht s = Live at_ h' -> allocs s = m -> copied h m p n h' ->
  exists h'', copied h m p (S n) h'' /\
    match e with Some a => insert_into_hashtable (S depth) a | None => mret tt end s =
      Ret tt (s <| ht := Live at_ h'' |>).
Proof.
  intros Hwf Hs He Hht <- Hc. destruct e as [a|]; cycle 1.
  { exists h'. split; [by apply copied_none|]. rewrite <-Hht. by destruct s. }
  assert (holds h (Z.of_nat n) a) as Ha by by apply holds_nth.
  destruct (tracked_known h (allocs s) a Hwf) as [x Hx]; [by exists (Z.of_nat n)|].
  assert (~ tracked h' a) as Hna.
  { rewrite (c_tracked _ _ _ _ _ Hc). intros (k & Hk & Hka).
    pose proof (t_inj _ _ Hwf (Z.of_nat k) (Z.of_nat n) a (proj2 (holds_nth _ _ _) Hka) Ha). lia. }
  assert (load h' * 4 <= size h') as Hl.
  { rewrite (c_load _ _ _ _ _ Hc), (c_size _ _ _ _ _ Hc).
    pose proof (sumZ_take_drop in_use (table h) n). pose proof (in_use_nonneg (drop n (table h))).
    pose proof (t_count _ _ Hwf). pose proof (t_load _ _ Hwf). unfold count in *. lia. }
  destruct (insert_room_run s at_ h' a x depth Hht (c_wf _ _ _ _ _ Hc) Hx Hna Hl)
    as (d & Hfree & Hwf' & Hrun).
  eexists. split; [|exact Hrun]. by eapply copied_some.
Qed.

Lemma double_hashtable_run s at_ h (depth : nat) :
  ht s = Live at_ h -> wf_table h (allocs s) -> size h = 2049 ->
  let '(p, w) := calloc (2049 * 2049) sizeof_pointer (world s) in
  p <> 0 ->
  exists h1, doubled h h1 (allocs s) /\ table_at h1 = p /\
    double_hashtable (insert_into_hashtable (S depth)) s =
      Ret tt (s <| ht := Live at_ h1 |> <| world := free (table_at h) w |>).
Proof.
  intros Hht Hwf Hs. destruct (calloc _ _ _) as [p w] eqn:Hc. intros Hp.
  unfold double_hashtable. run_step.
  rewrite Hs. change (u64 (2049 * 2049)) with (2049 * 2049).
  rewrite (bind_ret _ _ _ _ _ (slug_env_run _ _)), Hc. cbn beta iota delta [fst snd].
  set (s0 := s <| world := w |>).
  rewrite (bind_ret _ _ _ _ _ (set_ht_run s0 at_ h _ Hht)).
  rewrite (proj2 (Z.eqb_neq p 0) Hp).
  remember (Z.to_nat (2049 * 2049)) as n eqn:Hn.
  assert (Z.of_nat n = 2049 * 2049) as Hn' by (subst n; by rewrite Z2Nat.id). clear Hn.
  set (s1 := _ <| ht := _ |>).
  destruct (wp_never_run (foreach (seqZ 0 2049) (fun i : Z => int_index i;;
      e ← deref (aget (table h) i);
      match e with Some a => insert_into_hashtable (S depth) a | None => mret tt end))
    (fun _ s' => exists h1, copied h (allocs s) p (Z.to_nat 2049) h1 /\
                   s' = s1 <| ht := Live at_ h1 |>) s1) as ([] & s2 & Hrun & h1 & Hh1 & ->).
  - apply wp_foreach with (I := fun pre s' => exists h', copied h (allocs s) p (length pre) h' /\
        s' = s1 <| ht := Live at_ h' |>).
    + eexists. split; [by apply (copied_0 _ _ _ n)|done].
    + intros pre x post s' [-> Hx]%seqZ_visit (h' & Hh' & ->).
      rewrite length_app, Nat.add_comm. simpl Nat.add.
      run_step; [apply int_index_run; lia|]. rewrite aget_nat.
      destruct (lookup_lt_is_Some_2 (table h) (length pre)) as [e He].
      { pose proof (t_length _ _ Hwf). lia. }
      rewrite He. run_step.
      destruct (copy_step at_ h (allocs s) p (length pre) depth (s1 <| ht := Live at_ h' |>) h' e)
        as (h'' & Hh'' & Hrun); [done..|].
      eapply wp_ret_run; [exact Hrun|]. by exists h''.
    + intros s' (h' & Hh' & ->). exists h'. by rewrite length_seqZ in Hh'.
  - exists h1. split; [by apply (copied_all _ _ p)|]. split; [by destruct Hh1|].
    by rewrite (bind_ret _ _ _ _ _ Hrun).
Qed.

(** *** The whole insertion *)
(** The table into which the insertion puts the record, and the world then. *)
Definition grown s h h1 (w1 : W) : Prop :=
  (h1 = h /\ w1 = world s) \/
  (size h = 2049 /\ size h < load h * 4 /\ doubled h h1 (allocs s) /\
   (table_at h1, w1) = let '(p, w) := calloc (2049 * 2049) sizeof_pointer (world s) in
                       (p, free (table_at h) w)).

(** [malloc] and [calloc] never return NULL, and the integer found in the memory of the
    table's counter, which [init_hashtable] leaves uninitialised, is not huge. *)
Record resources : Prop := {
  malloc_left n w : (malloc n w).1 <> 0;
  calloc_left n k w : (calloc n k w).1 <> 0;
  garbage_small w : garbage w <= 2 ^ 30;
}.

Lemma insert_run s at_ h a x :
  resources -> ht s = Live at_ h -> wf_table h (allocs s) -> allocs s !! a = Some x ->
  ~ tracked h a -> size h = 2049 \/ load h * 4 <= size h ->
  exists h1 w1 d, grown s h h1 w1 /\ wf_table h1 (allocs s) /\
    aget (table h1) (probe_at h1 (loc x) d) = Some None /\
    wf_table (added h1 (probe_at h1 (loc x) d) a) (allocs s) /\
    insert_into_hashtable 3 a s =
      Ret tt (s <| ht := Live at_ (added h1 (probe_at h1 (loc x) d) a) |> <| world := w1 |>).
Proof.
  intros Hres Hht Hwf Hx Hna Hroom. pose proof (t_bounds _ _ Hwf). pose proof (t_load _ _ Hwf).
  pose proof (t_count _ _ Hwf). pose proof (in_use_nonneg (table h)). unfold count in *.
  destruct (decide (load h * 4 <= size h)) as [Hl|Hl].
  { destruct (insert_room_run s at_ h a x 2 Hht Hwf Hx Hna Hl) as (d & ? & ? & Hrun).
    exists h, (world s), d. split_and!; [by left|done..|]. rewrite Hrun. by destruct s. }
  destruct Hroom as [Hs|]; [|done].
  pose proof (double_hashtable_run s at_ h 1 Hht Hwf Hs) as Hd.
  pose proof (calloc_left Hres (2049 * 2049) sizeof_pointer (world s)) as Hmem.
  destruct (calloc (2049 * 2049) sizeof_pointer (world s)) as [p w] eqn:Hc.
  destruct (Hd Hmem) as (h1 & Hh1 & Hp & Hrun). destruct Hh1 as [Hwf1 Hs1 Hl1 Ht1] eqn:Hdd.
  set (s1 := s <| ht := Live at_ h1 |> <| world := free (table_at h) w |>) in *.
  destruct (insert_room_run s1 at_ h1 a x 1 eq_refl Hwf1 Hx) as (d & Hfree & Hwf' & Hrun1).
  { by rewrite Ht1. }
  { rewrite Hl1, Hs1, Hs. unfold count. lia. }
  exists h1, (free (table_at h) w), d. split_and!; [|done..|].
  - right. rewrite Hc, Hp. split_and!; [done|lia|done|done].
  - simpl insert_into_hashtable in Hrun1 |- *.
    run_step. rewrite u64_small by lia. rewrite (proj2 (Z.ltb_lt _ _)) by lia.
    rewrite (bind_ret _ _ _ _ _ Hrun).
    rewrite (bind_ret _ _ _ _ _ (get_ht_run s1 at_ h1 eq_refl)), u64_small in Hrun1
      by (rewrite Hl1; unfold count; lia).
    rewrite (proj2 (Z.ltb_ge (size h1) _)) in Hrun1 by (rewrite Hl1, Hs1, Hs; unfold count; lia).
    exact Hrun1.
Qed.
End running.

(** ** The heap and the invariant *)
Section invariant.
Context {W : Type} `{SlugEnvLaws W}.
Implicit Types (s : state W) (h : hashtable).

(** What an address is used for: a record, the table, the header of the table, or the
    user's block of the record [p]. *)
Inductive use := Record_ | Table | Header | Block (p : Z).
Definition owns s (q : Z) (u : use) : Prop :=
  match u with
  | Record_ => is_Some (allocs s !! q)
  | Table => exists a h, ht s = Live a h /\ table_at h = q
  | Header => exists h, ht s = Live q h
  | Block p => exists x, allocs s !! p = Some x /\ active x = true /\ loc x = q /\ q <> 0
  end.

(** Every address in use is allocated, and used for one thing only: in particular no two
    active records have the same block. *)
Record heap_ok s : Prop := {
  h_live q u : owns s q u -> q <> 0 /\ q ∈ live (world s);
  h_excl q u u' : owns s q u -> owns s q u' -> u = u';
}.

Record wf s : Prop := {
  wf_status : EXIT_STATUS s = 0;
  wf_heap : heap_ok s;
  wf_ht : match ht s with
          | NULL => allocs s = ∅ /\ atexit s = []
          | Live _ h => wf_table h (allocs s) /\ (forall p, is_Some (allocs s !! p) -> tracked h p) /\
                        atexit s = [Leak_detection; Slug_memstats]
          | Freed => False
          end;
}.

(** *** How the operations change the heap *)
Lemma heap_same s s' :
  (forall q u, owns s' q u -> owns s q u) -> live (world s) ⊆ live (world s') ->
  heap_ok s -> heap_ok s'.
Proof.
  intros Ho Hl [Hlive Hexcl]. split.
  - intros q u Hq. destruct (Hlive q u) as [? ?]; [by apply Ho|]. split; [done|by apply Hl].
  - intros q u u' Hu Hu'. by apply (Hexcl q); apply Ho.
Qed.

Lemma heap_add_record s s' a x :
  heap_ok s -> ht s' = ht s -> allocs s' = <[a := x]> (allocs s) -> allocs s !! a = None ->
  a <> 0 -> a ∉ live (world s) -> loc x <> a -> (loc x <> 0 -> loc x ∉ live (world s)) ->
  a ∈ live (world s') -> (loc x <> 0 -> loc x ∈ live (world s')) ->
  live (world s) ⊆ live (world s') -> heap_ok s'.
Proof.
  intros [Hlive Hexcl] Hht Ha Hn Ha0 Hal Hxa Hxl Hal' Hxl' Hsub.
  assert (forall q u, owns s' q u ->
            owns s q u \/ (q = a /\ u = Record_) \/ (q = loc x /\ q <> 0 /\ u = Block a)) as Ho.
  { intros q [| | |p]; simpl; rewrite ?Hht, ?Ha; [|by left..|].
    - rewrite lookup_insert_is_Some. intros [->|[_ ?]]; [by right; left|by left].
    - rewrite lookup_insert. case_decide as Hp.
      + subst p. intros (y & [= <-] & Hy & <- & H0'). by right; right.
      + by left. }
  split.
  - intros q u [Hq|[[-> _]|(-> & ? & _)]]%Ho; [|by split|split; [done|by apply Hxl']].
    destruct (Hlive _ _ Hq). split; [done|by apply Hsub].
  - intros q u u' [Hq|[[-> ->]|(-> & ? & ->)]]%Ho [Hq'|[[Hqa ->]|(Hqx & ? & ->)]]%Ho;
      try done; try (by eapply Hexcl); exfalso;
      try (apply Hlive in Hq as [_ Hq]); try (apply Hlive in Hq' as [_ Hq']);
      subst; try done; try (by apply Hxl in Hq); try (by apply Hxl in Hq'); congruence.
Qed.

Lemma heap_table s s' at_ h h' :
  heap_ok s -> ht s = Live at_ h -> ht s' = Live at_ h' -> allocs s' = allocs s ->
  (table_at h' = table_at h /\ live (world s') = live (world s)) \/
  (table_at h' <> 0 /\ (table_at h' ∉ live (world s)) /\
   live (world s') = ({[table_at h']} ∪ live (world s)) ∖ {[table_at h]}) ->
  heap_ok s'.
Proof.
  intros [Hlive Hexcl] Hht Hht' Ha Hcase.
  assert (owns s (table_at h) Table) as Ht by by exists at_, h.
  assert (forall q u, owns s' q u -> u = Table /\ q = table_at h' \/ u <> Table /\ owns s q u) as Ho.
  { intros q [| | |p]; simpl; rewrite ?Ha.
    - by right.
    - intros (? & ? & Hq & <-). left. split; [done|congruence].
    - intros [h0 Hq]. right. split; [done|]. exists h. congruence.
    - by right. }
  destruct Hcase as [[Htab Hl]|(Hn0 & Hnew & Hl)]; split.
  - intros q u [[-> ->]|[_ ?]]%Ho; rewrite Hl; [rewrite Htab|]; by eapply Hlive.
  - intros q u u' [[-> ->]|[Hu Hq]]%Ho [[-> Hq']|[Hu' Hq']]%Ho; try done; rewrite ?Htab in *; subst.
    + by eapply Hexcl.
    + by eapply Hexcl.
    + by eapply Hexcl.
  - intros q u [[-> ->]|[Hu Hq]]%Ho; rewrite Hl.
    + split; [done|]. destruct (Hlive _ _ Ht) as [_ Hin]. 
      apply elem_of_difference. split; [clear; set_solver|].
      rewrite elem_of_singleton. intros Heq. by rewrite Heq in Hnew.
    + destruct (Hlive _ _ Hq) as [? Hin]. split; [done|].
      assert (q <> table_at h) as Hne by (intros ->; by destruct Hu; eapply Hexcl). clear -Hne Hin. set_solver.
  - intros q u u' [[-> ->]|[Hu Hq]]%Ho [[-> Hq']|[Hu' Hq']]%Ho; try done; subst.
    + by apply Hlive in Hq' as [_ ?].
    + by apply Hlive in Hq as [_ ?].
    + by eapply Hexcl.
Qed.

Definition deactivated (x : allocation) : allocation := x <| active := false |>.

Lemma heap_free s s' p x :
  heap_ok s -> ht s' = ht s -> allocs s !! p = Some x -> active x = true ->
  allocs s' = alter deactivated p (allocs s) -> live (world s') = live (world s) ∖ {[loc x]} ->
  heap_ok s'.
Proof.
  intros [Hlive Hexcl] Hht Hp Hact Ha Hl.
  assert (forall q u, owns s' q u -> owns s q u /\ u <> Block p) as Ho.
  { intros q [| | |p']; simpl; rewrite ?Hht, ?Ha; [|by split..|].
    - rewrite lookup_alter_is_Some. by split.
    - destruct (decide (p = p')) as [<-|].
      + rewrite lookup_alter_eq, Hp. by intros (y & [= <-] & ? & _).
      + rewrite lookup_alter_ne by done. split; [done|congruence]. }
  split.
  - intros q u [Hq Hu]%Ho. destruct (Hlive _ _ Hq) as [H0' Hq']. split; [done|]. rewrite Hl.
    assert (q <> loc x) as Hne; [|clear -Hne Hq'; set_solver]. intros ->. apply Hu. eapply Hexcl; [done|]. by exists x.
  - intros q u u' [Hq _]%Ho [Hq' _]%Ho. by eapply Hexcl.
Qed.

(** *** The first allocation: [init_hashtable] *)
Lemma wf_table_new m p g : g <= 2 ^ 30 -> wf_table (mk_hashtable 2049 0 p (replicate 2049 None) g) m.
Proof.
  intros Hg. constructor; simpl size; simpl load; simpl active_entries; try lia.
  - done.
  - by vm_compute.
  - intros i q Hi. by apply aget_replicate in Hi.
  - intros i j q Hi. by apply aget_replicate in Hi.
Qed.

Lemma init_run s :
  resources (W := W) -> wf s -> ht s = NULL ->
  exists s' at_ h, init_hashtable s = Ret tt s' /\ wf s' /\ ht s' = Live at_ h /\
    size h = 2049 /\ load h = 0 /\ allocs s' = ∅ /\ out s' = out s /\
    live (world s) ⊆ live (world s') /\ count h = 0.
Proof.
  intros Hres Hwf Hht. pose proof (wf_ht _ Hwf) as Hall. rewrite Hht in Hall.
  destruct Hall as [Hall Hat].
  destruct (malloc sizeof_hashtable (world s)) as [a w1] eqn:Ha.
  pose proof (malloc_left Hres sizeof_hashtable (world s)) as Ha0. rewrite Ha in Ha0; simpl in Ha0.
  destruct (calloc 2049 sizeof_pointer w1) as [p w2] eqn:Hp.
  pose proof (calloc_left Hres 2049 sizeof_pointer w1) as Hp0. rewrite Hp in Hp0; simpl in Hp0.
  destruct (malloc_live _ _ _ _ Ha) as [[? _]|(_ & Hal & Hl1)]; [done|].
  destruct (calloc_live _ _ _ _ _ Hp) as [[? _]|(_ & Hpl & Hl2)]; [done|].
  set (h := mk_hashtable 2049 0 p (replicate 2049 None) (garbage w1)).
  exists (mk_state (Live a h) (EXIT_STATUS s) [Leak_detection; Slug_memstats] (allocs s) (out s) w2).
  exists a, h. split_and!; try done.
  - unfold init_hashtable. rewrite (bind_ret _ _ _ _ _ (slug_env_run _ _)), Ha. cbn beta iota delta [fst snd].
    rewrite (proj2 (Z.eqb_neq a 0) Ha0). run_step.
    rewrite (bind_ret _ _ _ _ _ (slug_env_run _ _)). cbn beta iota delta [upd world]. rewrite Hp. cbn beta iota delta [fst snd].
    rewrite (proj2 (Z.eqb_neq p 0) Hp0). unfold h. rewrite <-Hat. reflexivity.
  - assert (allocs s = ∅) as Hall' by done.
    split; [apply (wf_status _ Hwf)| |simpl; rewrite Hall; split_and!; [|by intros q [? ?]|done]].
    + assert (forall q u, owns (mk_state (Live a h) (EXIT_STATUS s) [Leak_detection; Slug_memstats]
                (allocs s) (out s) w2) q u -> q = p /\ u = Table \/ q = a /\ u = Header) as Ho.
      { intros q [| | |p']; simpl; rewrite ?Hall.
        - by intros [? ?].
        - intros (? & ? & [= <- <-] & <-). by left.
        - intros (? & [= -> _]). by right.
        - by intros (? & ? & _). }
      split.
      * intros q u [[-> _]|[-> _]]%Ho; (split; [done|]); simpl; rewrite Hl2, Hl1; clear; set_solver.
      * intros q u u' [[-> ->]|[-> ->]]%Ho [[Hq ->]|[Hq ->]]%Ho; try done; exfalso;
          apply Hpl; rewrite Hl1; first [rewrite Hq|rewrite <-Hq]; clear; set_solver.
    + apply wf_table_new. apply (garbage_small Hres).
  - simpl. rewrite Hl2, Hl1. clear. set_solver.
Qed.

(** *** [slug_malloc] *)
(** The records a table of 2049 positions holds before it grows are counted twice. *)
Definition spent s : Z :=
  match ht s with Live _ h => if size h =? 2049 then load h else load h - 513 | _ => 0 end.

(** The state after an allocation of [sz] bytes at [l] whose record is at [a]. *)
Record malloced s s' (l sz : Z) (wh : string) (a : Z) : Prop := {
  m_wf : wf s';
  m_new : allocs s !! a = None;
  m_allocs : exists now, allocs s' = <[a := mk_allocation l wh now sz true]> (allocs s);
  m_live : l <> 0 /\ l ∉ live (world s);
  m_spent : spent s' <= spent s + 1;
  m_lookup : exists at_ h' d q, ht s' = Live at_ h' /\ ends_at h' (allocs s') l d (Some q) /\
    (q = a <-> forall p x, allocs s !! p = Some x -> loc x <> l);
}.

Definition unusual (sz : Z) (wh : string) : list line :=
  if sz =? 0 then [Unusual_size_0 wh] else [].

(** The part before the insertion: [l] and [a] are the two addresses. *)
Record prepared s s' (l sz : Z) (wh : string) (a : Z) : Prop := {
  p_heap : heap_ok s';
  p_same : ht s' = ht s /\ EXIT_STATUS s' = EXIT_STATUS s /\ atexit s' = atexit s;
  p_new : allocs s !! a = None;
  p_allocs : exists now, allocs s' = <[a := mk_allocation l wh now sz true]> (allocs s);
  p_live : l <> 0 /\ l ∉ live (world s);
}.

Lemma slug_malloc_prepare s sz wh at_ h :
  resources (W := W) -> wf s -> ht s = Live at_ h -> sz < 128000000 ->
  exists s' l a, prepared s s' l sz wh a /\
    slug_malloc sz wh s = (insert_into_hashtable 3 a;; mret l) s'.
Proof.
  intros Hres Hwf Hht Hsz. unfold slug_malloc.
  set (s0 := s <| out := out s ++ unusual sz wh |>).
  assert ((if sz =? 0 then print (Unusual_size_0 wh) else mret tt : M (state W) unit) s = Ret tt s0) as Hprint.
  { unfold s0, unusual. destruct (sz =? 0); [done|]. unfold mret, M_ret. f_equal.
    destruct s; unfold upd; simpl. by rewrite app_nil_r. }
  destruct (time (world s)) as [now w0] eqn:Ht.
  pose proof (time_live (world s)) as Hlt. rewrite Ht in Hlt; simpl in Hlt.
  destruct (malloc sz w0) as [l w1] eqn:Hl.
  pose proof (malloc_left Hres sz w0) as Hl0. rewrite Hl in Hl0; simpl in Hl0.
  destruct (malloc sizeof_allocation w1) as [a w2] eqn:Ha.
  pose proof (malloc_left Hres sizeof_allocation w1) as Ha0. rewrite Ha in Ha0; simpl in Ha0.
  destruct (malloc_live _ _ _ _ Hl) as [[? _]|(_ & Hll & Hlw)]; [done|].
  destruct (malloc_live _ _ _ _ Ha) as [[? _]|(_ & Hal & Haw)]; [done|].
  rewrite Hlt in Hll, Hlw. rewrite Hlw in Hal, Haw.
  set (s3 := mk_state (ht s) (EXIT_STATUS s) (atexit s)
               (<[a := mk_allocation l wh now sz true]> (allocs s)) (out s0) w2).
  assert (allocs s !! a = None) as Hnew.
  { apply eq_None_not_Some. intros Hs.
    destruct (h_live _ (wf_heap _ Hwf) a Record_ Hs) as [_ Hin].
    clear -Hal Hin. set_solver. }
  exists s3, l, a. split.
  - split; [|done|done|by exists now|done].
    eapply (heap_add_record s s3 a _ (wf_heap _ Hwf)); simpl; try done; rewrite ?Haw;
      try (clear -Hal; set_solver).
  - rewrite (bind_ret _ _ _ _ _ (get_run s)). rewrite Hht.
    rewrite (bind_ret _ _ _ _ _ (mret_run tt s)).
    rewrite (bind_ret _ _ _ _ _ Hprint). rewrite (proj2 (Z.leb_gt _ _) Hsz).
    rewrite (bind_ret _ _ _ _ _ (slug_env_run _ _)). cbn beta. change (world s0) with (world s). rewrite Ht.
    cbn beta iota delta [fst snd]. rewrite (bind_ret _ _ _ _ _ (slug_env_run _ _)). cbn beta iota delta [upd world]. rewrite Hl.
    cbn beta iota delta [fst snd]. rewrite (bind_ret _ _ _ _ _ (slug_env_run _ _)). cbn beta iota delta [upd world]. rewrite Ha.
    cbn beta iota delta [fst snd]. rewrite (proj2 (Z.eqb_neq a 0) Ha0). reflexivity.
Qed.

(** A grown table tracks the same records and is charged for them once. *)
Lemma grown_tracked s h h1 (w1 : W) q : grown s h h1 w1 -> tracked h1 q <-> tracked h q.
Proof. intros [[-> _]|(_ & _ & Hd & _)]; [done|]. apply (d_tracked _ _ _ Hd). Qed.

Lemma grown_heap s at_ h h1 h' (w1 : W) s' :
  resources (W := W) -> heap_ok s -> ht s = Live at_ h -> grown s h h1 w1 ->
  table_at h' = table_at h1 -> ht s' = Live at_ h' -> allocs s' = allocs s -> world s' = w1 ->
  heap_ok s'.
Proof.
  intros Hres Hok Hht Hg Hat Hht' Ha Hw. eapply heap_table; [done..|].
  rewrite Hw, Hat. destruct Hg as [[-> ->]|(_ & _ & _ & Hp)]; [by left|right].
  pose proof (calloc_left Hres (2049 * 2049) sizeof_pointer (world s)) as Hc0.
  destruct (calloc (2049 * 2049) sizeof_pointer (world s)) as [p w] eqn:Hc.
  injection Hp as Hp1 Hp2. simpl in Hc0. rewrite Hp1, Hp2.
  destruct (calloc_live _ _ _ _ _ Hc) as [[? _]|(_ & Hal & Hl)]; [done|].
  by rewrite free_live, Hl.
Qed.

Lemma slug_malloc_live s sz wh at_ h :
  resources (W := W) -> wf s -> ht s = Live at_ h -> sz < 128000000 -> spent s <= 1000000 ->
  exists l s' a, slug_malloc sz wh s = Ret l s' /\ malloced s s' l sz wh a.
Proof.
  intros Hres Hwf Hht Hsz Hsp.
  destruct (slug_malloc_prepare s sz wh at_ h Hres Hwf Hht Hsz) as (s1 & l & a & Hp & Hrun).
  destruct Hp as [Hok (Hht1 & Hex1 & Hat1) Hnew [now Hall] Hl].
  pose proof (wf_ht _ Hwf) as Hwfh. rewrite Hht in Hwfh, Hht1.
  destruct Hwfh as (Hwft & Htr & Hat). set (x := mk_allocation l wh now sz true) in *.
  assert (wf_table h (allocs s1)) as Hwft1.
  { rewrite Hall. destruct Hwft. split; try done. intros i p Hi.
    destruct (t_reach0 i p Hi) as (y & Hy & Hr). exists y. split; [|done].
    rewrite lookup_insert_ne; [done|]. congruence. }
  assert (allocs s1 !! a = Some x) as Hax by (by rewrite Hall, lookup_insert_eq).
  assert (~ tracked h a) as Hna.
  { intros Hta. destruct (tracked_known _ _ _ Hwft Hta). congruence. }
  assert (size h = 2049 \/ load h * 4 <= size h) as Hroom.
  { unfold spent in Hsp. rewrite Hht in Hsp. destruct (t_size _ _ Hwft) as [|Hs]; [by left|right].
    rewrite Hs in *. simpl in Hsp. lia. }
  destruct (insert_run s1 at_ h a x Hres Hht1 Hwft1 Hax Hna Hroom)
    as (h1 & w1 & d & Hg & Hwf1 & Hfree & Hwf1' & Hins).
  eexists l, _, a. split; [rewrite Hrun, (bind_ret _ _ _ _ _ Hins); reflexivity|].
  set (h' := added h1 (probe_at h1 (loc x) d) a) in *. set (s' := s1 <| ht := _ |> <| world := w1 |>).
  split; [|done|by exists now|done|..].
  - split; [by change (EXIT_STATUS s1 = 0); rewrite Hex1, (wf_status _ Hwf)|..].
    + by eapply (grown_heap s1 at_ h h1 h' w1 s').
    + simpl. split_and!; [done| |by rewrite Hat1]. intros p Hps.
      apply tracked_added; [done|]. rewrite Hall, lookup_insert_is_Some in Hps.
      destruct Hps as [->|[_ Hps]]; [by left|right].
      rewrite (grown_tracked _ _ _ _ _ Hg). by apply Htr.
  - unfold spent. simpl. rewrite Hht. destruct Hg as [[-> _]|(Hs & Hlt & Hd & _)].
    + destruct (size h =? 2049); lia.
    + rewrite (d_size _ _ _ Hd), (d_load _ _ _ Hd), Hs. simpl.
      pose proof (t_count _ _ Hwft). pose proof (t_load _ _ Hwft). lia.
  - assert (forall p, tracked h1 p -> p <> a /\ is_Some (allocs s !! p)) as Hold.
    { intros p Hp. apply (grown_tracked _ _ _ _ _ Hg) in Hp. split; [congruence|].
      by destruct (tracked_known _ _ _ Hwft Hp) as [y ->]. }
    assert (forall p y, p <> a -> allocs s1 !! p = Some y -> allocs s !! p = Some y) as Hback.
    { intros p y Hp. by rewrite Hall, lookup_insert_ne. }
    exists at_, h'. destruct (lookup_ends h1 (allocs s1) l Hwf1) as (d1 & [q|] & Hends1);
      pose proof (ends_at_ok _ _ _ _ _ Hwf1 Hends1) as Hok1.
    + exists d1, q. split_and!; [done|by apply ends_at_added|].
      destruct Hok1 as (Hq & y & Hy & Hly). destruct (Hold q Hq) as [Hqa _].
      split; [done|]. intros Hno. by destruct (Hno q y); [apply Hback|].
    + destruct (lookup_ends h' (allocs s1) l Hwf1') as (d2 & r & Hends2).
      pose proof (ends_at_ok _ _ _ _ _ Hwf1' Hends2) as Hok2.
      assert (tracked h' a) as Hta by (apply tracked_added; [done|by left]).
      destruct r as [q|]; [|by destruct (Hok2 a x)].
      exists d2, q. split_and!; [done..|]. destruct Hok2 as (Hq & y & Hy & Hly).
      apply tracked_added in Hq; [|done]. destruct Hq as [->|Hq]; [|by destruct (Hok1 q y)].
      split; [intros _|done]. intros p z Hpz.
      assert (p <> a) by congruence.
      apply (Hok1 p z); [|by rewrite Hall, lookup_insert_ne].
      apply (grown_tracked _ _ _ _ _ Hg), Htr. by exists z.
Qed.

Lemma slug_malloc_ok s sz wh :
  resources (W := W) -> wf s -> sz < 128000000 -> spent s <= 1000000 ->
  exists l s' a, slug_malloc sz wh s = Ret l s' /\ malloced s s' l sz wh a.
Proof.
  intros Hres Hwf Hsz Hsp. pose proof (wf_ht _ Hwf) as Hh. destruct (ht s) as [|at_ h|] eqn:Hht.
  - destruct Hh as [Hall Hat].
    destruct (init_run s Hres Hwf Hht) as (s1 & at_ & h & Hrun & Hwf1 & Hht1 & Hsz1 & Hl1 & Hall1 &
      _ & Hlive & _).
    assert (spent s1 = 0) as Hsp1 by (unfold spent; by rewrite Hht1, Hsz1).
    destruct (slug_malloc_live s1 sz wh at_ h Hres Hwf1 Hht1 Hsz ltac:(lia))
      as (l & s' & a & Hrun' & [? Hn [now Ha] [? Hlv] Hs Hlk]).
    exists l, s', a. split.
    + rewrite <-Hrun'. unfold slug_malloc.
      rewrite !(bind_ret _ _ _ _ _ (get_run _)), Hht, Hht1.
      by rewrite (bind_ret _ _ _ _ _ Hrun), (bind_ret _ _ _ _ _ (mret_run _ _)).
    + rewrite Hall1 in *. split; rewrite ?Hall; [done|done|by exists now| | |done].
      * split; [done|]. clear -Hlv Hlive. set_solver.
      * unfold spent at 2. rewrite Hht. lia.
  - by apply (slug_malloc_live s sz wh at_ h).
  - done.
Qed.

(** *** Reports *)
Definition reported s (l : line) : state W := s <| out := out s ++ [l] |> <| EXIT_STATUS := 1 |>.

Lemma report_run {A} s l : (report_and_exit l : M (state W) A) s = Halt Exit (reported s l).
Proof. done. Qed.

Lemma slug_malloc_big s sz wh :
  resources (W := W) -> wf s -> 128000000 <= sz ->
  exists s', slug_malloc sz wh s = Halt Exit (reported s' (Over_128MB wh sz)) /\ wf s' /\
    allocs s' = allocs s /\ exists at_ h, ht s' = Live at_ h /\ (allocs s = ∅ -> count h = 0).
Proof.
  intros Hres Hwf Hsz. assert ((sz =? 0) = false) as Hsz0 by lia.
  assert (forall s, ht s <> NULL ->
            slug_malloc sz wh s = Halt Exit (reported s (Over_128MB wh sz))) as Hlive.
  { intros s1 Hht. unfold slug_malloc. rewrite (bind_ret _ _ _ _ _ (get_run _)).
    destruct (ht s1); [done|..];
      rewrite (bind_ret _ _ _ _ _ (mret_run _ _)), Hsz0, (bind_ret _ _ _ _ _ (mret_run _ _)),
        (proj2 (Z.leb_le _ _) Hsz); apply report_run. }
  pose proof (wf_ht _ Hwf) as Hh. destruct (ht s) as [|at_ h|] eqn:Hht; [|..].
  - destruct Hh as [Hall Hat].
    destruct (init_run s Hres Hwf Hht) as (s1 & at_ & h & Hrun & Hwf1 & Hht1 & _ & _ & Hall1 &
      _ & _ & Hc).
    exists s1. split_and!; [|done|by rewrite Hall, Hall1|by exists at_, h].
    rewrite <-Hlive by (by rewrite Hht1). unfold slug_malloc.
    rewrite !(bind_ret _ _ _ _ _ (get_run _)), Hht, Hht1.
    by rewrite (bind_ret _ _ _ _ _ Hrun), (bind_ret _ _ _ _ _ (mret_run _ _)).
  - exists s. split_and!; [by apply Hlive; rewrite Hht|done..|]. exists at_, h. split; [done|].
    destruct Hh as (Hwft & _ & _). intros Hall. unfold count.
    rewrite <-(Z.mul_0_r (Z.of_nat (length (table h)))).
    assert (table h = replicate (length (table h)) None) as ->.
    { apply list_eq. intros i. destruct (table h !! i) as [[p|]|] eqn:Hi.
      - destruct (t_reach _ _ Hwft (Z.of_nat i) p) as (x & Hx & _); [by apply holds_nth|].
        by rewrite Hall in Hx.
      - symmetry. apply lookup_replicate. split; [done|by eapply lookup_lt_Some].
      - symmetry. apply lookup_replicate_None. by apply lookup_ge_None. }
    rewrite sumZ_replicate. simpl. lia.
  - done.
Qed.

(** *** [slug_free] *)
Definition freed s (p : Z) (x : allocation) : state W :=
  s <| allocs := alter deactivated p (allocs s) |> <| world := free (loc x) (world s) |>.

Lemma slug_free_run s addr wh at_ h d r :
  ht s = Live at_ h -> wf_table h (allocs s) -> ends_at h (allocs s) addr d r ->
  slug_free addr wh s =
    match r with
    | None => Halt Exit (reported s (Not_allocated wh addr))
    | Some p =>
        match allocs s !! p with
        | Some x => if active x then Ret tt (freed s p x) else Halt Exit (reported s (Already_freed wh))
        | None => Halt Undef s
        end
    end.
Proof.
  intros Hht Hwf Hends. unfold slug_free. rewrite (bind_ret _ _ _ _ _ (get_run _)), Hht.
  rewrite (bind_ret _ _ _ _ _ (is_in_hashtable_run _ _ _ _ _ _ Hht Hwf Hends)).
  destruct r as [p|]; [|done]. destruct Hends as (_ & _ & Hp & _).
  destruct (Hp p eq_refl) as (x & Hx & Hl). rewrite Hx.
  rewrite (bind_ret _ _ _ _ _ (get_alloc_run _ _ _ Hx)).
  destruct (active x); [|done]. cbn beta iota delta [negb]. run_step.
  set (s1 := s <| allocs := _ |>).
  assert (allocs s1 !! p = Some (deactivated x)) as Hx1.
  { change (alter deactivated p (allocs s) !! p = Some (deactivated x)).
    by rewrite lookup_alter_eq, Hx. }
  by rewrite (bind_ret _ _ _ _ _ (get_alloc_run _ _ _ Hx1)).
Qed.

Lemma wf_freed s p x at_ h :
  wf s -> ht s = Live at_ h -> allocs s !! p = Some x -> active x = true -> wf (freed s p x).
Proof.
  intros [Hst Hok Hh] Hht Hx Hact. rewrite Hht in Hh. destruct Hh as (Hwft & Htr & Hat).
  split; [done| |].
  - apply (heap_free s _ p x); try done. simpl. apply free_live.
  - simpl. rewrite Hht. split_and!; [|intros q Hq; apply Htr; by rewrite lookup_alter_is_Some in Hq|done].
    destruct Hwft. split; try done. intros i q Hi. destruct (t_reach0 i q Hi) as (y & Hy & Hr).
    destruct (decide (p = q)) as [<-|].
    + exists (deactivated y). rewrite lookup_alter_eq, Hy. by split.
    + exists y. by rewrite lookup_alter_ne.
Qed.

(** [slug_free] in every state the calls reach: it gives back an active block, or reports. *)
Lemma slug_free_cases s addr wh :
  wf s ->
  (exists p x, slug_free addr wh s = Ret tt (freed s p x) /\ wf (freed s p x) /\
     allocs s !! p = Some x /\ active x = true /\ loc x = addr) \/
  (exists l, slug_free addr wh s = Halt Exit (reported s l) /\
     (l = Not_allocated wh addr \/ l = Already_freed wh)).
Proof.
  intros Hwf. pose proof (wf_ht _ Hwf) as Hh. destruct (ht s) as [|at_ h|] eqn:Hht; [|..|done].
  { right. exists (Not_allocated wh addr). split; [|by left]. unfold slug_free.
    by rewrite (bind_ret _ _ _ _ _ (get_run _)), Hht. }
  destruct Hh as (Hwft & _ & _). destruct (lookup_ends h _ addr Hwft) as (d & r & Hends).
  rewrite (slug_free_run _ _ _ _ _ _ _ Hht Hwft Hends). destruct r as [p|]; [|right; eauto].
  destruct Hends as (_ & _ & Hp & _). destruct (Hp p eq_refl) as (x & Hx & Hl). rewrite Hx.
  destruct (active x) eqn:Hact; [left|right; eauto].
  exists p, x. split_and!; [done|by eapply wf_freed|done..].
Qed.

Lemma spent_freed s p x : spent (freed s p x) = spent s.
Proof. done. Qed.
End invariant.

(** ** Leak detection and statistics *)
Section at_exit.
Context {W : Type} `{SlugEnvLaws W}.
Implicit Types (s : state W) (h : hashtable).

Lemma wf_live_table s at_ h : wf s -> ht s = Live at_ h ->
  wf_table h (allocs s) /\ (forall p, is_Some (allocs s !! p) -> tracked h p) /\
  atexit s = [Leak_detection; Slug_memstats].
Proof. intros Hwf Hht. pose proof (wf_ht _ Hwf) as Hh. by rewrite Hht in Hh. Qed.

(** A loop over the used positions: the invariant [I] is indexed by the number of positions
    visited; [J] says which states the loop may pass through. *)
Lemma wp_for_entries {A} at_ h s (a : A) (body : A -> Z -> Z -> M (state W) A)
    (I : nat -> A -> state W -> Prop) (Q : A -> state W -> Prop) E :
  ht s = Live at_ h -> Z.of_nat (length (table h)) = size h -> size h < 2 ^ 31 ->
  I 0%nat a s ->
  (forall n a s', I n a s' -> exists h', ht s' = Live at_ h' /\ table h' !! n = table h !! n) ->
  (forall n a s', table h !! n = Some None -> I n a s' -> I (S n) a s') ->
  (forall n a s' p, table h !! n = Some (Some p) -> I n a s' ->
     wp (body a (Z.of_nat n) p) (I (S n)) E s') ->
  (forall a s', I (length (table h)) a s' -> Q a s') ->
  wp (for_entries a body) Q E s.
Proof.
  intros Hht Hlen Hsz Hi Hsame Hnone Hsome Hend. unfold for_entries.
  eapply wp_bind_run; [by eapply get_ht_run|].
  apply wp_fold with (I := fun pre a s' => I (length pre) a s'); [done| |].
  - intros pre x post a' s' [-> Hx]%seqZ_visit HI. rewrite length_app, Nat.add_comm. simpl Nat.add.
    eapply wp_bind_run; [apply int_index_run; lia|].
    destruct (Hsame _ _ _ HI) as (h' & Hht' & Htab).
    destruct (lookup_lt_is_Some_2 (table h) (length pre)) as [e He]; [lia|].
    eapply wp_bind_run; [eapply entry_run; [done|]; by rewrite aget_nat, Htab, He|].
    destruct e as [p|]; [by apply Hsome|]. apply wp_ret. by apply Hnone.
  - intros a' s'. rewrite length_seqZ, <-Hlen, Nat2Z.id. apply Hend.
Qed.

(** The last active record among the first [n] positions. *)
Fixpoint last_active (m : gmap Z allocation) (t : list (option Z)) : option string :=
  match t with
  | [] => None
  | e :: t =>
      match last_active m t with
      | Some wh => Some wh
      | None =>
          match e with
          | Some p => x ← m !! p; if active x then Some (where_ x) else None
          | None => None
          end
      end
  end.

Lemma last_active_snoc m t e :
  last_active m (t ++ [e]) =
    match e with
    | Some p => match m !! p with
                | Some x => if active x then Some (where_ x) else last_active m t
                | None => last_active m t
                end
    | None => last_active m t
    end.
Proof.
  induction t as [|e' t IH]; simpl.
  - destruct e as [p|]; [|done]. destruct (m !! p) as [x|]; simpl; [|done]. by destruct (active x).
  - rewrite IH. destruct e as [p|]; [|done]. destruct (m !! p) as [x|]; [|done].
    by destruct (active x).
Qed.

Lemma last_active_None m t :
  (forall p, Some p ∈ t -> is_Some (m !! p)) ->
  last_active m t = None <-> forall p x, Some p ∈ t -> m !! p = Some x -> active x = false.
Proof.
  induction t as [|e t IH] using rev_ind; intros Hm.
  - split; [|done]. intros _ p x Hp. by apply elem_of_nil in Hp.
  - rewrite last_active_snoc.
    destruct IH as [IH1 IH2]; [intros p Hp; apply Hm, elem_of_app; by left|].
    assert (forall p, Some p = e -> exists x, m !! p = Some x) as He.
    { intros p Hp. apply Hm, elem_of_app. right. rewrite Hp. by apply list_elem_of_singleton. }
    destruct e as [p|]; [destruct (He p eq_refl) as [x Hx]; rewrite Hx; destruct (active x) eqn:Ha|].
    + split; [done|]. intros Hall. specialize (Hall p x). rewrite Hall in Ha; [done| |done].
      apply elem_of_app. right. by apply list_elem_of_singleton.
    + split.
      * intros Hl q y [Hq|Hq%list_elem_of_singleton]%elem_of_app Hy; [by eapply IH1|congruence].
      * intros Hall. apply IH2. intros q y Hq. apply Hall, elem_of_app. by left.
    + split.
      * intros Hl q y [Hq|Hq%list_elem_of_singleton]%elem_of_app Hy; [by eapply IH1|congruence].
      * intros Hall. apply IH2. intros q y Hq. apply Hall, elem_of_app. by left.
Qed.

Lemma leak_loop_run s at_ h :
  ht s = Live at_ h -> wf_table h (allocs s) ->
  for_entries None (fun leak _ p =>
    x ← get_alloc p; mret (if active x then Some (where_ x) else leak)) s =
  Ret (last_active (allocs s) (table h)) s.
Proof.
  intros Hht Hwf. pose proof (t_bounds _ _ Hwf).
  edestruct (wp_never_run (for_entries None (fun leak _ p =>
      x ← get_alloc p; mret (if active x then Some (where_ x) else leak)))
      (fun r s' => r = last_active (allocs s) (table h) /\ s' = s) s) as (r & s' & Hrun & -> & ->);
    [|exact Hrun].
  apply wp_for_entries with (at_ := at_) (h := h)
    (I := fun n r s' => r = last_active (allocs s) (take n (table h)) /\ s' = s).
  - done.
  - apply (t_length _ _ Hwf).
  - lia.
  - done.
  - intros n a s' [_ ->]. by exists h.
  - intros n a s' Hn [-> ->]. by rewrite (take_S_r _ _ _ Hn), last_active_snoc.
  - intros n a s' p Hn [-> ->].
    destruct (t_reach _ _ Hwf (Z.of_nat n) p (proj2 (holds_nth _ _ _) Hn)) as (x & Hx & _).
    eapply wp_bind_run; [by apply get_alloc_run|]. apply wp_ret.
    by rewrite (take_S_r _ _ _ Hn), last_active_snoc, Hx.
  - intros a s' [-> ->]. by rewrite firstn_all.
Qed.

Lemma leak_detection_run s at_ h :
  ht s = Live at_ h -> wf_table h (allocs s) ->
  leak_detection s =
    match last_active (allocs s) (table h) with
    | Some wh => Halt Exit (reported s (Memory_leak wh))
    | None => Ret tt s
    end.
Proof.
  intros Hht Hwf. unfold leak_detection.
  rewrite (bind_ret _ _ _ _ _ (leak_loop_run _ _ _ Hht Hwf)). by destruct (last_active _ _).
Qed.

Lemma tracked_nth h p : tracked h p <-> Some p ∈ table h.
Proof.
  unfold tracked. rewrite list_elem_of_lookup. split.
  - intros (i & (n & _ & Hn)%tracked_below). by exists n.
  - intros (n & Hn). exists (Z.of_nat n). by apply holds_nth.
Qed.

(** *** The dump *)
(** The lines printed for the records at the positions from [i] on. *)
Fixpoint dump (m : gmap Z allocation) (i : Z) (t : list (option Z)) : list line :=
  match t with
  | [] => []
  | e :: t =>
      match e ≫= fun p => m !! p with
      | Some x => [Entry i (where_ x) (loc x) (a_size x) (active x) (when x)]
      | None => []
      end ++ dump m (i + 1) t
  end.

Lemma dump_snoc m t e i :
  dump m i (t ++ [e]) = dump m i t ++ dump m (i + Z.of_nat (length t)) [e].
Proof.
  revert i. induction t as [|e' t IH]; intros i.
  - simpl. by rewrite Z.add_0_r.
  - simpl dump at 1 2. cbn [app dump]. rewrite IH. rewrite <-app_assoc. do 2 f_equal.
    cbn [length]. replace (i + 1 + Z.of_nat (length t)) with (i + Z.of_nat (S (length t))) by lia.
    done.
Qed.

(** The sum [total] is kept in an [int]. *)
Definition size_of (m : gmap Z allocation) (e : option Z) : Z :=
  match e ≫= fun p => m !! p with Some x => a_size x | None => 0 end.

Lemma dump_loop_run s at_ h :
  ht s = Live at_ h -> wf_table h (allocs s) ->
  for_entries (0, 0) (fun '(n_allocs, total) i p =>
    x ← get_alloc p;
    print (Entry i (where_ x) (loc x) (a_size x) (active x) (when x));;
    mret (n_allocs + 1, s32 (total + a_size x))) s =
  Ret (count h, s32 (sumZ (size_of (allocs s)) (table h)))
    (s <| out := out s ++ dump (allocs s) 0 (table h) |>).
Proof.
  intros Hht Hwf. pose proof (t_bounds _ _ Hwf).
  pose (st n := s <| out := out s ++ dump (allocs s) 0 (take n (table h)) |>).
  edestruct (wp_never_run (for_entries (0, 0) (fun '(n_allocs, total) i p =>
      x ← get_alloc p;
      print (Entry i (where_ x) (loc x) (a_size x) (active x) (when x));;
      mret (n_allocs + 1, s32 (total + a_size x))))
      (fun r s' => r = (count h, s32 (sumZ (size_of (allocs s)) (table h))) /\
                   s' = st (length (table h))) s) as (r & s' & Hrun & -> & ->);
    [|unfold st in Hrun; by rewrite firstn_all in Hrun].
  apply wp_for_entries with (at_ := at_) (h := h)
    (I := fun n r s' => r = (sumZ in_use (take n (table h)),
                              s32 (sumZ (size_of (allocs s)) (take n (table h)))) /\ s' = st n).
  - done.
  - apply (t_length _ _ Hwf).
  - lia.
  - split; [done|]. unfold st. simpl. rewrite app_nil_r. by destruct s.
  - intros n a s' [_ ->]. by exists h.
  - intros n a s' Hn [-> ->]. unfold st.
    rewrite !(sumZ_take_S _ _ _ _ Hn), (take_S_r _ _ _ Hn), dump_snoc. simpl.
    by rewrite !Z.add_0_r, app_nil_r.
  - intros n [n_allocs total] s' p Hn [[= -> ->] ->].
    destruct (t_reach _ _ Hwf (Z.of_nat n) p (proj2 (holds_nth _ _ _) Hn)) as (x & Hx & _).
    eapply wp_bind_run; [by apply get_alloc_run|]. eapply wp_bind_run; [done|]. apply wp_ret.
    rewrite !(sumZ_take_S _ _ _ _ Hn). unfold st.
    rewrite (take_S_r _ _ _ Hn), dump_snoc, length_take_le
      by (apply Nat.lt_le_incl; by eapply lookup_lt_Some).
    assert (size_of (allocs s) (Some p) = a_size x) as ->.
    { change ((match allocs s !! p with Some x => a_size x | None => 0 end) = a_size x).
      by rewrite Hx. }
    simpl. rewrite Hx. simpl. split; [by rewrite s32_add_l|by rewrite app_assoc].
  - intros a s' [-> ->]. by rewrite firstn_all.
Qed.

Lemma std_dev_run s at_ h mean :
  ht s = Live at_ h -> wf_table h (allocs s) ->
  exists d, for_entries (Double.of_Z 0) (fun std_dev _ p =>
    x ← get_alloc p;
    mret (Double.add std_dev (pow (Double.sub (Double.of_Z (a_size x)) mean) (Double.of_Z 2)))) s =
  Ret d s.
Proof.
  intros Hht Hwf. pose proof (t_bounds _ _ Hwf).
  edestruct (wp_never_run (for_entries (Double.of_Z 0) (fun std_dev _ p =>
      x ← get_alloc p;
      mret (Double.add std_dev
              (pow (Double.sub (Double.of_Z (a_size x)) mean) (Double.of_Z 2)))))
      (fun _ s' => s' = s) s) as (d & s' & Hrun & ->); [|by exists d].
  apply wp_for_entries with (at_ := at_) (h := h) (I := fun _ _ s' => s' = s); try done.
  - apply (t_length _ _ Hwf).
  - lia.
  - intros n a s' ->. by exists h.
  - intros n a s' p Hn ->.
    destruct (t_reach _ _ Hwf (Z.of_nat n) p (proj2 (holds_nth _ _ _) Hn)) as (x & Hx & _).
    eapply wp_bind_run; [by apply get_alloc_run|]. by apply wp_ret.
Qed.

(** *** [destroy_hashtable] *)
(** The first [n] positions are cleared: their records are gone and their memory free. *)
Record cleared s at_ h (n : nat) s' : Prop := {
  k_ht : exists h', ht s' = Live at_ h' /\ table_at h' = table_at h /\
           forall k : nat, (n <= k)%nat -> table h' !! k = table h !! k;
  k_allocs p x : allocs s' !! p = Some x -> exists k : nat, (n <= k)%nat /\ table h !! k = Some (Some p);
  k_live : live (world s') ⊆ live (world s);
  k_free p (k : nat) : (k < n)%nat -> table h !! k = Some (Some p) -> p ∉ live (world s');
  k_out : out s' = out s /\ EXIT_STATUS s' = EXIT_STATUS s;
}.

Lemma clear_step s at_ h n p s' :
  wf_table h (allocs s) -> table h !! n = Some (Some p) -> cleared s at_ h n s' ->
  wp (modify (fun s => s <| allocs := delete p (allocs s) |>);;
      env_free p;;
      set_entry (Z.of_nat n) None)
     (fun _ s'' => cleared s at_ h (S n) s'') never s'.
Proof.
  intros Hwf Hn [(h' & Hht' & Hat & Htab) Hall Hlive Hfree [Hout Hex]].
  set (s1 := s' <| allocs := delete p (allocs s') |> <| world := free p (world s') |>).
  assert (aget (table h') (Z.of_nat n) = Some (Some p)) as Hn' by (by rewrite aget_nat, Htab).
  set (h'' := h' <| table := aupd (Z.of_nat n) (fun _ => None) (table h') |>).
  apply (wp_ret_run _ _ _ tt s' (s1 <| ht := Live at_ h'' |>)).
  { change (set_entry (Z.of_nat n) None s1 = Ret tt (s1 <| ht := Live at_ h'' |>)).
    exact (set_entry_run s1 at_ h' _ _ None Hht' Hn'). }
  split; simpl.
  - exists h''. split_and!; [done..|]. intros k Hk.
    pose proof (aget_aupd_ne (table h') (Z.of_nat n) (Z.of_nat k) (fun _ => None) ltac:(lia)) as Hne.
    rewrite !aget_nat in Hne. simpl. rewrite Hne. apply Htab. lia.
  - intros q x Hq. apply lookup_delete_Some in Hq as [Hpq Hq].
    destruct (Hall q x Hq) as (k & Hk & Hkq). exists k. split; [|done].
    destruct (decide (k = n)) as [->|]; [congruence|lia].
  - rewrite free_live. clear -Hlive. set_solver.
  - intros q k Hk Hkq. rewrite free_live. destruct (decide (k = n)) as [->|].
    + assert (q = p) as -> by congruence. clear. set_solver.
    + assert (q ∉ live (world s')) as Hq by (apply (Hfree q k); [lia|done]). clear -Hq. set_solver.
  - done.
Qed.

Lemma destroy_run s at_ h :
  wf s -> ht s = Live at_ h ->
  exists s', destroy_hashtable s = Ret tt s' /\ ht s' = Freed /\ allocs s' = ∅ /\
    out s' = out s /\ EXIT_STATUS s' = EXIT_STATUS s /\
    forall q u, owns s q u -> match u with Block _ => True | _ => q ∉ live (world s') end.
Proof.
  intros Hwf Hht. destruct (wf_live_table _ _ _ Hwf Hht) as (Hwft & Htr & _).
  pose proof (t_bounds _ _ Hwft) as Hb.
  edestruct (wp_never_run destroy_hashtable (fun _ s' => ht s' = Freed /\ allocs s' = ∅ /\
    out s' = out s /\ EXIT_STATUS s' = EXIT_STATUS s /\
    forall q u, owns s q u -> match u with Block _ => True | _ => q ∉ live (world s') end) s)
    as ([] & s' & Hrun & Hs'); [|by exists s'].
  unfold destroy_hashtable.
  apply wp_bind.
  apply wp_for_entries with (at_ := at_) (h := h) (I := fun n _ s' => cleared s at_ h n s').
  - done.
  - apply (t_length _ _ Hwft).
  - lia.
  - split; [by exists h| |done|lia|done]. intros p x Hx.
    destruct (Htr p) as (i & (k & _ & Hk)%tracked_below); [by exists x|].
    exists k. split; [lia|done].
  - intros n _ s' [(h' & ? & ? & Htab) _ _ _ _]. exists h'. split; [done|]. by apply Htab.
  - intros n _ s' Hn [(h' & ? & ? & Htab) Hall Hlive Hfree Hout]. split; [|..|done].
    + exists h'. split_and!; [done..|]. intros k Hk. apply Htab. lia.
    + intros p x Hp. destruct (Hall p x Hp) as (k & Hk & Hkp). exists k. split; [|done].
      destruct (decide (k = n)) as [->|]; [congruence|lia].
    + done.
    + intros p k Hk Hkp. apply (Hfree p k); [|done].
      destruct (decide (k = n)) as [->|]; [congruence|lia].
  - intros n [] s' p Hn Hc. by apply clear_step.
  - intros [] s' [(h' & Hht' & Hat & _) Hall Hlive Hfree [Hout Hex]]. wp_step. wp_step.
    rewrite Hht'. wp_go. split_and!; try done; simpl.
    + apply map_empty. intros p. apply eq_None_not_Some. intros [x Hx].
      destruct (Hall p x Hx) as (k & Hk & Hkp). apply lookup_lt_Some in Hkp. lia.
    + intros q u Hq. rewrite !free_live. destruct u as [| | |]; [..|done].
      * destruct (Htr q Hq) as (i & (k & _ & Hk)%tracked_below).
        assert (q ∉ live (world s')) as Hq' by (apply (Hfree q k); [by eapply lookup_lt_Some|done]).
        clear -Hq'. set_solver.
      * destruct Hq as (a & h0 & Hh0 & <-). assert (h0 = h) as -> by congruence. rewrite Hat.
        clear. set_solver.
      * destruct Hq as (h0 & Hh0). assert (q = at_) as -> by congruence. clear. set_solver.
Qed.

(** *** [slug_memstats] *)
Definition printed s (l : line) : state W := s <| out := out s ++ [l] |>.
Lemma print_run l s : print l s = Ret tt (printed s l).
Proof. done. Qed.

Definition with_dump s h : state W :=
  s <| out := out s ++ Memory_dump :: dump (allocs s) 0 (table h) |>.

(** The part up to the mean: the dump, and an undefined division when it is empty. *)
Lemma slug_memstats_dump s at_ h :
  ht s = Live at_ h -> wf_table h (allocs s) ->
  slug_memstats s =
    (if count h =? 0 then halt Undef else
     let mean := Double.of_Z (s32 (sumZ (size_of (allocs s)) (table h)) ÷ count h) in
     std_dev ← for_entries (Double.of_Z 0) (fun std_dev _ p =>
       x ← get_alloc p;
       mret (Double.add std_dev
               (pow (Double.sub (Double.of_Z (a_size x)) mean) (Double.of_Z 2))));
     print (Average_block_size mean);;
     print (Standard_deviation (Double.sqrt std_dev));;
     s ← get;
     (if EXIT_STATUS s =? 1 then print (Problems true) else mret tt);;
     (if EXIT_STATUS s =? 0 then print (Problems false) else mret tt);;
     destroy_hashtable) (with_dump s h).
Proof.
  intros Hht Hwft. unfold slug_memstats. rewrite !(bind_ret _ _ _ _ _ (get_run _)), Hht.
  set (s1 := s <| out := out s ++ [Memory_dump] |>).
  assert (print Memory_dump s = Ret tt s1) as Hp by done.
  rewrite !(bind_ret _ _ _ _ _ Hp).
  pose proof (dump_loop_run s1 at_ h Hht Hwft) as Hdump. rewrite !(bind_ret _ _ _ _ _ Hdump).
  assert (s1 <| out := out s1 ++ dump (allocs s1) 0 (table h) |> = with_dump s h) as Hs2.
  { unfold with_dump, s1, upd. simpl. by rewrite <-app_assoc. }
  by rewrite Hs2.
Qed.

Lemma slug_memstats_run s at_ h :
  wf s -> ht s = Live at_ h -> count h <> 0 ->
  exists s' d,
    slug_memstats s = Ret tt s' /\ ht s' = Freed /\ allocs s' = ∅ /\
    out s' = out (with_dump s h) ++
      [Average_block_size
         (Double.of_Z (s32 (sumZ (size_of (allocs s)) (table h)) ÷ count h));
       Standard_deviation d; Problems false] /\
    forall q u, owns s q u -> match u with Block _ => True | _ => q ∉ live (world s') end.
Proof.
  intros Hwf Hht Hc. destruct (wf_live_table _ _ _ Hwf Hht) as (Hwft & Htr & _).
  rewrite (slug_memstats_dump s at_ h Hht Hwft), (proj2 (Z.eqb_neq _ _) Hc). cbn zeta.
  set (mean := Double.of_Z _). set (s2 := with_dump s h).
  destruct (std_dev_run s2 at_ h mean Hht Hwft) as (d & Hd). rewrite (bind_ret _ _ _ _ _ Hd).
  set (s3 := printed (printed (printed s2 (Average_block_size mean))
                        (Standard_deviation (Double.sqrt d))) (Problems false)).
  assert (wf s3) as Hwf3.
  { destruct Hwf as [Hst Hok Hh]. split; [done|by eapply (heap_same s)|done]. }
  destruct (destroy_run s3 at_ h Hwf3 Hht) as (s' & Hrun & Hf & Hall & Hout & _ & Hown).
  exists s', (Double.sqrt d). split_and!; try done; cycle 1.
  { rewrite Hout. unfold s3, printed. simpl. by rewrite <-!app_assoc. }
  rewrite !(bind_ret _ _ _ _ _ (print_run _ _)), !(bind_ret _ _ _ _ _ (get_run _)).
  set (s4 := printed _ _). change (EXIT_STATUS s4) with (EXIT_STATUS s). rewrite (wf_status _ Hwf).
  cbn [Z.eqb]. rewrite (bind_ret _ _ _ _ _ (mret_run _ _)).
  by rewrite !(bind_ret _ _ _ _ _ (print_run _ _)).
Qed.
End at_exit.

(** ** The properties *)
Section claims.
Context {W : Type} `{SlugEnvLaws W}.
Implicit Types (s : state W).

(** A program is a sequence of calls. *)
Inductive call := Malloc (sz : Z) (wh : string) | Free (addr : Z) (wh : string).
Definition run_call (c : call) : M (state W) unit :=
  match c with Malloc sz wh => slug_malloc sz wh;; mret tt | Free addr wh => slug_free addr wh end.

Definition stopped (w : stop) s : Prop :=
  w = Exit /\ EXIT_STATUS s = 1 /\
  match list.last (out s) with
  | Some (Over_128MB _ _ | Not_allocated _ _ | Already_freed _) => True
  | _ => False
  end.

Lemma stopped_reported s l :
  match l with Over_128MB _ _ | Not_allocated _ _ | Already_freed _ => True | _ => False end ->
  stopped Exit (reported s l).
Proof. intros Hl. split_and!; [done..|]. simpl. by rewrite last_snoc. Qed.

Lemma count_empty s at_ h : wf s -> ht s = Live at_ h -> count h = 0 <-> allocs s = ∅.
Proof.
  intros Hwf Hht. destruct (wf_live_table _ _ _ Hwf Hht) as (Hwft & Htr & _). split.
  - intros Hc. apply map_empty. intros p. apply eq_None_not_Some. intros Hp.
    destruct (Htr p Hp) as (i & (n & _ & Hn)%tracked_below).
    pose proof (sumZ_take_drop in_use (table h) (S n)) as Hsum.
    rewrite (sumZ_take_S _ _ _ _ Hn) in Hsum. simpl in Hsum.
    pose proof (in_use_nonneg (take n (table h))). pose proof (in_use_nonneg (drop (S n) (table h))).
    unfold count in Hc. lia.
  - intros Hall. unfold count.
    assert (forall e, e ∈ table h -> in_use e = 0) as Hz.
    { intros [p|] He; [|done]. apply tracked_nth in He.
      destruct (tracked_known _ _ _ Hwft He) as [x Hx]. by rewrite Hall in Hx. }
    revert Hz. generalize (table h). induction l as [|e l IH]; intros Hz; [done|].
    rewrite sumZ_cons, IH, (Hz e); [done|by left|]. intros e' He'. apply Hz. by right.
Qed.

Lemma ends_at_deactivated h (m : gmap Z allocation) p l d r :
  ends_at h m l d r -> ends_at h (alter deactivated p m) l d r.
Proof.
  assert (forall q x, m !! q = Some x ->
            exists y, alter deactivated p m !! q = Some y /\ loc y = loc x) as Hm.
  { intros q x Hx. destruct (decide (p = q)) as [<-|].
    - exists (deactivated x). by rewrite lookup_alter_eq, Hx.
    - exists x. by rewrite lookup_alter_ne. }
  intros (Hd & Hr & Hp & Hj). split_and!; [done..| |].
  - intros q Hq. destruct (Hp q Hq) as (x & Hx & <-). by apply Hm.
  - intros j Hlt. destruct (Hj j Hlt) as (q & x & Hq & Hx & Hne).
    destruct (Hm q x Hx) as (y & Hy & Hl). exists q, y. by rewrite Hl.
Qed.

Lemma malloced_live s s' l sz wh a :
  malloced s s' l sz wh a -> (l ∈ live (world s')) /\
  exists x, allocs s' !! a = Some x /\ active x = true /\ loc x = l.
Proof.
  intros [Hwf _ [now Hall] [Hl0 _] _ _].
  assert (allocs s' !! a = Some (mk_allocation l wh now sz true)) as Ha
    by (by rewrite Hall, lookup_insert_eq).
  split; [|by eexists].
  apply (h_live _ (wf_heap _ Hwf) l (Block a)). by eexists.
Qed.

Lemma start_wf (w : W) : wf (start w).
Proof.
  assert (forall q u, ~ owns (start w) q u) as Hno.
  { intros q [| | |p]; simpl.
    - by intros [? ?].
    - by intros (? & ? & ? & _).
    - by intros [? ?].
    - by intros (? & ? & _). }
  split; [done| |done]. split; [intros q u Hq|intros q u u' Hq]; by destruct (Hno q u).
Qed.

Lemma slug_calls_invariant (w : W) calls :
  resources (W := W) -> Z.of_nat (length calls) <= 1000000 ->
  wp (foreach calls run_call) (fun _ s' => wf s' /\ spent s' <= Z.of_nat (length calls)) stopped
    (start w).
Proof.
  intros Hres Hlen.
  apply wp_foreach with (I := fun pre s' => wf s' /\ spent s' <= Z.of_nat (length pre)).
  - split; [apply start_wf|done].
  - intros pre c post s -> [Hwf Hsp]. rewrite length_app in Hlen |- *. simpl in Hlen.
    destruct c as [sz wh|addr wh]; unfold run_call.
    + destruct (decide (sz < 128000000)) as [Hsz|Hsz].
      * destruct (slug_malloc_ok s sz wh Hres Hwf Hsz ltac:(lia)) as (l & s' & a & Hrun & Hm).
        eapply wp_bind_run; [exact Hrun|]. apply wp_ret. split; [by destruct Hm|].
        pose proof (m_spent _ _ _ _ _ _ Hm). simpl. lia.
      * destruct (slug_malloc_big s sz wh Hres Hwf ltac:(lia)) as (s' & Hrun & _).
        unfold wp. rewrite (bind_halt _ _ _ _ _ Hrun). by apply stopped_reported.
    + unfold wp.
      destruct (slug_free_cases s addr wh Hwf) as [(p & x & -> & Hwf' & _)|(l & -> & Hl)].
      * split; [done|]. rewrite spent_freed. lia.
      * apply stopped_reported. by destruct Hl as [-> | ->].
  - done.
Qed.


(** Slug_free returns only when the address is an allocated block that an active
    record describes; the block is then free and the record inactive.  In every other case
    the program is told that the memory was not allocated or already freed, and exits. *)
Theorem slug_free_safe s addr wh :
  wf s -> addr <> 0 ->
  wp (slug_free addr wh)
    (fun _ s' => wf s' /\ (addr ∈ live (world s)) /\ (addr ∉ live (world s')) /\
       exists p x, allocs s !! p = Some x /\ active x = true /\ loc x = addr /\
                   allocs s' = <[p := deactivated x]> (allocs s))
    (fun w s' => w = Exit /\ EXIT_STATUS s' = 1 /\ allocs s' = allocs s /\ world s' = world s /\
       (list.last (out s') = Some (Not_allocated wh addr) \/ list.last (out s') = Some (Already_freed wh))) s.
Proof.
  intros Hwf Ha. unfold wp.
  destruct (slug_free_cases s addr wh Hwf) as [(p & x & -> & Hwf' & Hp & Hact & <-)|(l & -> & Hl)].
  - split; [done|]. split; [|split].
    + apply (h_live _ (wf_heap _ Hwf) _ (Block p)). by exists x.
    + simpl. rewrite free_live. clear. set_solver.
    + exists p, x. split_and!; [done..|]. simpl. apply map_eq. intros q.
    destruct (decide (p = q)) as [<-|]; [by rewrite lookup_alter_eq, lookup_insert_eq, Hp|].
    by rewrite lookup_alter_ne, lookup_insert_ne.
  - split_and!; [done..|]. simpl. rewrite last_snoc. by destruct Hl as [-> | ->]; [left|right].
Qed.

(** A block at an address that was never recorded before can be freed exactly once:
    the first slug_free gives it back, the second one reports it as already freed and
    exits. *)
Theorem slug_malloc_free s sz wh wh1 wh2 :
  resources (W := W) -> wf s -> sz < 128000000 -> spent s <= 1000000 ->
  exists l s1, slug_malloc sz wh s = Ret l s1 /\ wf s1 /\ (l ∈ live (world s1)) /\
    ((forall p x, allocs s !! p = Some x -> loc x <> l) ->
     exists s2, slug_free l wh1 s1 = Ret tt s2 /\ wf s2 /\ (l ∉ live (world s2)) /\
       slug_free l wh2 s2 = Halt Exit (reported s2 (Already_freed wh2))).
Proof.
  intros Hres Hwf Hsz Hsp. destruct (slug_malloc_ok s sz wh Hres Hwf Hsz Hsp) as (l & s1 & a & Hrun & Hm).
  pose proof (malloced_live _ _ _ _ _ _ Hm) as (Hl & x & Hx & Hact & Hxl).
  pose proof (m_lookup _ _ _ _ _ _ Hm) as (at_ & h & d & q & Hht & Hends & Hq).
  pose proof (m_wf _ _ _ _ _ _ Hm) as Hwf1.
  exists l, s1. split_and!; [done..|]. intros Hnew. apply Hq in Hnew as ->.
  destruct (wf_live_table _ _ _ Hwf1 Hht) as (Hwft & _ & _).
  pose proof (wf_freed _ _ _ _ _ Hwf1 Hht Hx Hact) as Hwf2.
  exists (freed s1 a x). split_and!; [|done| |].
  - by rewrite (slug_free_run _ _ _ _ _ _ _ Hht Hwft Hends), Hx, Hact.
  - simpl. rewrite free_live, Hxl. clear. set_solver.
  - destruct (wf_live_table (freed s1 a x) _ _ Hwf2 Hht) as (Hwft2 & _ & _).
    rewrite (slug_free_run (freed s1 a x) _ _ _ _ _ _ Hht Hwft2 (ends_at_deactivated _ _ _ _ _ _ Hends)).
    simpl. by rewrite lookup_alter_eq, Hx.
Qed.

(** The address of a block that was freed may be returned by malloc again, and then
    the new block cannot be freed: slug_free finds the old, inactive record first, reports
    the block as already freed and exits, although it is allocated. *)
Theorem slug_free_reused s sz wh wh1 p x :
  resources (W := W) -> wf s -> sz < 128000000 -> spent s <= 1000000 ->
  allocs s !! p = Some x ->
  wp (slug_malloc sz wh)
    (fun l s1 => l = loc x ->
       (l ∈ live (world s1)) /\ slug_free l wh1 s1 = Halt Exit (reported s1 (Already_freed wh1)))
    never s.
Proof.
  intros Hres Hwf Hsz Hsp Hp.
  destruct (slug_malloc_ok s sz wh Hres Hwf Hsz Hsp) as (l & s1 & a & Hrun & Hm).
  eapply wp_ret_run; [exact Hrun|]. intros ->. split; [by eapply malloced_live|].
  pose proof (m_lookup _ _ _ _ _ _ Hm) as (at_ & h & d & q & Hht & Hends & Hq).
  destruct (wf_live_table _ _ _ (m_wf _ _ _ _ _ _ Hm) Hht) as (Hwft & _ & _).
  rewrite (slug_free_run _ _ _ _ _ _ _ Hht Hwft Hends).
  destruct Hends as (_ & _ & Hr & _). destruct (Hr q eq_refl) as (y & Hy & Hyl). rewrite Hy.
  destruct (active y) eqn:Hact; [exfalso|done].
  assert (q <> a) as Hqa by (intros Ha; by apply (proj1 Hq Ha p x)).
  destruct (m_allocs _ _ _ _ _ _ Hm) as [now Hall]. rewrite Hall, lookup_insert_ne in Hy by done.
  destruct (m_live _ _ _ _ _ _ Hm) as [Hl0 Hl]. apply Hl.
  apply (h_live _ (wf_heap _ Hwf) (loc x) (Block q)). by exists y.
Qed.

(** Double_hashtable squares the size of the table (2049 becomes 4198401, not 4098),
    keeps exactly the records it had, so that every address is found or not found as
    before, and counts every record a second time in the load. *)
Theorem double_hashtable_spec s at_ h depth :
  resources (W := W) -> ht s = Live at_ h -> wf_table h (allocs s) -> size h = 2049 ->
  wp (double_hashtable (insert_into_hashtable (S depth)))
    (fun _ s' => allocs s' = allocs s /\ exists h1, ht s' = Live at_ h1 /\ wf_table h1 (allocs s) /\
       size h1 = size h * size h /\ load h1 = load h + count h /\
       (forall q, tracked h1 q <-> tracked h q) /\
       forall l, exists r r1, is_in_hashtable l s = Ret r s /\ is_in_hashtable l s' = Ret r1 s' /\
         (r = None <-> r1 = None))
    never s.
Proof.
  intros Hres Hht Hwf Hs. pose proof (double_hashtable_run s at_ h depth Hht Hwf Hs) as Hrun.
  pose proof (calloc_left Hres (2049 * 2049) sizeof_pointer (world s)) as Hc.
  destruct (calloc (2049 * 2049) sizeof_pointer (world s)) as [p w].
  destruct (Hrun Hc) as (h1 & [Hwf1 Hs1 Hl1 Ht1] & _ & Hd). clear Hrun.
  eapply wp_ret_run; [exact Hd|]. split; [done|]. exists h1. split_and!; try done.
  intros l. destruct (lookup_ends h _ l Hwf) as (d & r & He).
  destruct (lookup_ends h1 _ l Hwf1) as (d1 & r1 & He1).
  exists r, r1. split_and!.
  - by eapply is_in_hashtable_run.
  - by eapply (is_in_hashtable_run (_ <| world := _ |>) at_ h1).
  - pose proof (ends_at_ok _ _ _ _ _ Hwf He) as Hok.
    pose proof (ends_at_ok _ _ _ _ _ Hwf1 He1) as Hok1.
    destruct r as [q|], r1 as [q1|]; try done; exfalso.
    + destruct Hok as (Hq & y & Hy & Hyl). by apply (Hok1 q y); [apply Ht1|..].
    + destruct Hok1 as (Hq & y & Hy & Hyl). by apply (Hok q1 y); [apply Ht1|..].
Qed.

(** At exit, leak_detection is silent exactly when every record is inactive;
    otherwise it reports the place of an active one and calls exit, which inside a function
    registered with atexit is undefined. *)
Theorem leak_detection_spec s at_ h :
  wf s -> ht s = Live at_ h ->
  ((forall p x, allocs s !! p = Some x -> active x = false) /\ leak_detection s = Ret tt s) \/
  (exists p x wh, allocs s !! p = Some x /\ active x = true /\
     leak_detection s = Halt Exit (reported s (Memory_leak wh)) /\
     run_atexit s = Halt Undef (reported s (Memory_leak wh))).
Proof.
  intros Hwf Hht. destruct (wf_live_table _ _ _ Hwf Hht) as (Hwft & Htr & Hat).
  assert (forall p, Some p ∈ table h -> is_Some (allocs s !! p)) as Hk.
  { intros p Hp%tracked_nth. by destruct (tracked_known _ _ _ Hwft Hp) as [y ->]. }
  pose proof (last_active_None (allocs s) (table h) Hk) as [Hn1 Hn2].
  pose proof (leak_detection_run s at_ h Hht Hwft) as Hrun.
  destruct (last_active (allocs s) (table h)) as [wh|] eqn:Hl; [right|left].
  - destruct (decide (Exists (fun '(p, x) => active x = true) (map_to_list (allocs s)))) as [He|He].
    + apply Exists_exists in He as ([p x] & Hp%list_elem_of_In%elem_of_map_to_list & Hx). exists p, x, wh.
      split_and!; try done. unfold run_atexit. rewrite Hat. cbn [foreach run_handler].
      by rewrite (bind_halt _ _ _ _ _ Hrun).
    + exfalso. enough (Some wh = None) by done. apply Hn2. intros p x _ Hp. destruct (active x) eqn:Hact; [|done].
      destruct He. apply Exists_exists. exists (p, x). split; [by apply list_elem_of_In, elem_of_map_to_list|done].
  - split; [|done]. intros p x Hp. apply (Hn1 eq_refl p x); [|done].
    apply tracked_nth, Htr. by exists x.
Qed.

(** Slug_memstats prints one entry per record, in the order of the table, then the
    mean and the deviation, and frees the records, the table and its header; when there is
    no record it divides by zero. *)
Theorem slug_memstats_spec s at_ h :
  wf s -> ht s = Live at_ h ->
  (allocs s = ∅ -> exists s', slug_memstats s = Halt Undef s') /\
  (allocs s <> ∅ ->
   wp slug_memstats
     (fun _ s' => ht s' = Freed /\ allocs s' = ∅ /\
        (exists mean d, out s' = out s ++ Memory_dump :: dump (allocs s) 0 (table h) ++
           [Average_block_size mean; Standard_deviation d; Problems false]) /\
        forall q u, owns s q u -> match u with Block _ => True | _ => q ∉ live (world s') end)
     never s).
Proof.
  intros Hwf Hht. destruct (wf_live_table _ _ _ Hwf Hht) as (Hwft & _).
  rewrite <-(count_empty _ _ _ Hwf Hht). split; intros Hc.
  - rewrite (slug_memstats_dump s at_ h Hht Hwft), Hc. by eexists.
  - destruct (slug_memstats_run s at_ h Hwf Hht Hc) as (s' & d & Hrun & Hf & Hall & Hout & Hown).
    eapply wp_ret_run; [exact Hrun|]. split_and!; try done. rewrite Hout. simpl.
    do 2 eexists. rewrite <-app_assoc. simpl. reflexivity.
Qed.

(** A program whose first allocation is of 128000000 bytes or more (128 MB, not the
    128 MiB of the interface) is stopped by slug_malloc, and then divides by zero in
    slug_memstats at exit. *)
Theorem slug_first_too_large (w : W) sz wh :
  resources (W := W) -> 128000000 <= sz ->
  exists s' s'', slug_malloc sz wh (start w) = Halt Exit s' /\
    list.last (out s') = Some (Over_128MB wh sz) /\ run_atexit s' = Halt Undef s''.
Proof.
  intros Hres Hsz.
  destruct (slug_malloc_big (start w) sz wh Hres (start_wf w) Hsz)
    as (s1 & Hrun & Hwf1 & Hall & at_ & h & Hht & Hc).
  specialize (Hc eq_refl). destruct (wf_live_table _ _ _ Hwf1 Hht) as (Hwft & Htr & Hat).
  set (s' := reported s1 (Over_128MB wh sz)) in *.
  assert (leak_detection s' = Ret tt s') as Hleak.
  { rewrite (leak_detection_run s' at_ h Hht Hwft).
    assert (last_active (allocs s') (table h) = None) as ->; [|done].
    apply last_active_None.
    - intros p Hp%tracked_nth. destruct (tracked_known _ _ _ Hwft Hp) as [y Hy]. by exists y.
    - intros p x _ Hp. change (allocs s1 !! p = Some x) in Hp. by rewrite Hall in Hp. }
  exists s', (with_dump s' h). split_and!; [done|by simpl; rewrite last_snoc|].
  unfold run_atexit. change (atexit s') with (atexit s1). rewrite Hat. cbn [foreach run_handler].
  rewrite (bind_ret _ _ _ _ _ Hleak).
  assert (slug_memstats s' = Halt Undef (with_dump s' h)) as Hmem
    by by rewrite (slug_memstats_dump s' at_ h Hht Hwft), Hc.
  by rewrite (bind_halt _ _ _ _ _ Hmem).
Qed.
End claims.

(** ** Examples
    An allocator whose world is the set of allocated blocks and the address it prefers,
    the last one freed; otherwise it takes the number after the largest one. *)
Module Demo.
Record world_ := mk_world { blocks : gset Z; preferred : Z }.
Definition above (bs : gset Z) : Z := 1 + set_fold Z.max 0 bs.
Definition take_ (w : world_) : Z * world_ :=
  let p := if decide (preferred w <> 0 /\ preferred w ∉ blocks w) then preferred w
           else above (blocks w) in
  (p, mk_world ({[p]} ∪ blocks w) 0).

Lemma fold_max_ge (bs : gset Z) : 0 <= set_fold Z.max 0 bs /\ forall q, q ∈ bs -> q <= set_fold Z.max 0 bs.
Proof.
  apply (set_fold_ind_L (fun r X => 0 <= r /\ forall q, q ∈ X -> q <= r)).
  - split; [lia|]. intros q Hq. clear -Hq. set_solver.
  - intros x X r _ [IH0 IH]. split; [lia|]. intros q [->%elem_of_singleton|Hq]%elem_of_union; [lia|].
    specialize (IH q Hq). lia.
Qed.

Lemma take_fresh w p w' : take_ w = (p, w') ->
  p <> 0 /\ (p ∉ blocks w) /\ blocks w' = {[p]} ∪ blocks w.
Proof.
  unfold take_. destruct (decide _) as [[H0 Hn]|_]; intros [= <- <-]; [done|].
  destruct (fold_max_ge (blocks w)) as [Hpos Hge]. unfold above. split_and!; [lia| |done].
  intros Hin%Hge. lia.
Qed.

#[local] Instance env : SlugEnv world_ := {
  malloc := fun _ => take_;
  calloc := fun _ _ => take_;
  free := fun p w => mk_world (blocks w ∖ {[p]}) p;
  time := fun w => (0, w);
  pow := Double.mul;
  sizeof_hashtable := 32;
  sizeof_allocation := 40;
  sizeof_pointer := 8;
  garbage := fun _ => 0;
  live := blocks;
}.
#[local] Instance env_laws : SlugEnvLaws world_.
Proof.
  constructor; simpl.
  - intros _ w p w' Hp. right. by apply take_fresh.
  - intros _ _ w p w' Hp. right. by apply take_fresh.
  - done.
  - done.
Qed.

Lemma enough : resources (W := world_).
Proof.
  split; simpl.
  - intros _ w. destruct (take_fresh w _ _ (surjective_pairing (take_ w))) as [Hp0 _]. exact Hp0.
  - intros _ _ w. destruct (take_fresh w _ _ (surjective_pairing (take_ w))) as [Hp0 _]. exact Hp0.
  - intros _. lia.
Qed.

Definition w0 : world_ := mk_world ∅ 0.
(** After one call: the header is at 1, the table at 2, the block at 3, its record at 4. *)
Definition s1 : state world_ :=
  match slug_malloc 100 "t.c:1" (start w0) with Ret _ s | Halt _ s => s end.
(** After the block was freed. *)
Definition s2 : state world_ :=
  match slug_free 3 "t.c:2" s1 with Ret _ s | Halt _ s => s end.

Example s1_out : out s1 = [].
Proof. by vm_compute. Qed.

Lemma calls_wf (cs : list call) s' :
  Z.of_nat (length cs) <= 1000000 -> foreach cs run_call (start w0) = Ret tt s' ->
  wf s' /\ spent s' <= Z.of_nat (length cs).
Proof.
  intros Hlen Hrun. pose proof (slug_calls_invariant w0 cs enough Hlen) as Hwp.
  unfold wp in Hwp. by rewrite Hrun in Hwp.
Qed.

Lemma s1_wf : wf s1.
Proof. apply (calls_wf [Malloc 100 "t.c:1"]); [simpl; lia|by vm_compute]. Qed.
Lemma s2_wf : wf s2.
Proof. apply (calls_wf [Malloc 100 "t.c:1"; Free 3 "t.c:2"]); [simpl; lia|by vm_compute]. Qed.

Definition h1 : hashtable := match ht s1 with Live _ h => h | _ => mk_hashtable 0 0 0 [] 0 end.
Definition h2 : hashtable := match ht s2 with Live _ h => h | _ => mk_hashtable 0 0 0 [] 0 end.
Lemma s1_ht : ht s1 = Live 1 h1.
Proof. by vm_compute. Qed.
Lemma s2_ht : ht s2 = Live 1 h2.
Proof. by vm_compute. Qed.
Definition r3 : allocation := mk_allocation 3 "t.c:1" 0 100 true.
Lemma s1_r3 : allocs s1 !! 4 = Some r3.
Proof. by vm_compute. Qed.
Lemma s2_r3 : allocs s2 !! 4 = Some (deactivated r3).
Proof. by vm_compute. Qed.


Lemma slug_free_safe_witness :
  wp (slug_free 3 "t.c:2")
    (fun _ s' => wf s' /\ (3 ∈ live (world s1)) /\ (3 ∉ live (world s')) /\
       exists p x, allocs s1 !! p = Some x /\ active x = true /\ loc x = 3 /\
                   allocs s' = <[p := deactivated x]> (allocs s1))
    (fun w s' => w = Exit /\ EXIT_STATUS s' = 1 /\ allocs s' = allocs s1 /\ world s' = world s1 /\
       (list.last (out s') = Some (Not_allocated "t.c:2" 3) \/
        list.last (out s') = Some (Already_freed "t.c:2"))) s1.
Proof. apply (slug_free_safe s1 3 "t.c:2" s1_wf). lia. Defined.

Lemma spent_s1 : spent s1 <= 1000000.
Proof. by vm_compute. Qed.
Lemma spent_s2 : spent s2 <= 1000000.
Proof. by vm_compute. Qed.

Lemma slug_malloc_free_witness :
  exists l s', slug_malloc 8 "t.c:4" s1 = Ret l s' /\ wf s' /\ (l ∈ live (world s')) /\
    ((forall p x, allocs s1 !! p = Some x -> loc x <> l) ->
     exists s'', slug_free l "t.c:5" s' = Ret tt s'' /\ wf s'' /\ (l ∉ live (world s'')) /\
       slug_free l "t.c:6" s'' = Halt Exit (reported s'' (Already_freed "t.c:6"))).
Proof.
  apply (slug_malloc_free s1 8 "t.c:4" "t.c:5" "t.c:6" enough s1_wf); [lia|exact spent_s1].
Defined.

(** The allocator hands out the block at 3 again. *)
Lemma slug_free_reused_witness :
  wp (slug_malloc 8 "t.c:4")
    (fun l s' => l = 3 ->
       (l ∈ live (world s')) /\
       slug_free l "t.c:5" s' = Halt Exit (reported s' (Already_freed "t.c:5")))
    never s2 /\
  match slug_malloc 8 "t.c:4" s2 with Ret l _ => l = 3 | Halt _ _ => False end.
Proof.
  split; [|by vm_compute].
  apply (slug_free_reused s2 8 "t.c:4" "t.c:5" 4 (deactivated r3) enough s2_wf);
    [lia|exact spent_s2|exact s2_r3].
Defined.

Lemma s1_table : wf_table h1 (allocs s1).
Proof. by destruct (wf_live_table _ _ _ s1_wf s1_ht). Qed.

Lemma double_hashtable_spec_witness :
  wp (double_hashtable (insert_into_hashtable 2))
    (fun _ s' => exists h', ht s' = Live 1 h' /\ size h' = 4198401 /\ load h' = 2) never s1.
Proof.
  eapply wp_mono; [apply (double_hashtable_spec s1 1 h1 1 enough s1_ht s1_table); by vm_compute| |done].
  intros _ s' (_ & h' & Hht & _ & Hs & Hl & _). exists h'. split; [exact Hht|].
  split; [rewrite Hs; by vm_compute|rewrite Hl; by vm_compute].
Defined.

Lemma leak_detection_spec_witness :
  ((forall p x, allocs s1 !! p = Some x -> active x = false) /\ leak_detection s1 = Ret tt s1) \/
  (exists p x wh, allocs s1 !! p = Some x /\ active x = true /\
     leak_detection s1 = Halt Exit (reported s1 (Memory_leak wh)) /\
     run_atexit s1 = Halt Undef (reported s1 (Memory_leak wh))).
Proof. exact (leak_detection_spec s1 1 h1 s1_wf s1_ht). Defined.

Lemma slug_memstats_spec_witness :
  wp slug_memstats (fun _ s' => ht s' = Freed /\ allocs s' = ∅) never s2.
Proof.
  destruct (slug_memstats_spec s2 1 h2 s2_wf s2_ht) as [_ Hm].
  refine (wp_mono _ _ _ _ _ _ (Hm _) _ (fun _ _ Hn => Hn)).
  - intros Hall. pose proof s2_r3 as Hr. rewrite Hall in Hr. discriminate Hr.
  - intros _ s' (Hf & Ha & _). exact (conj Hf Ha).
Defined.

Lemma slug_first_too_large_witness :
  exists s' s'', slug_malloc 134217728 "t.c:1" (start w0) = Halt Exit s' /\
    list.last (out s') = Some (Over_128MB "t.c:1" 134217728) /\ run_atexit s' = Halt Undef s''.
Proof. apply (slug_first_too_large w0 134217728 "t.c:1" enough). lia. Defined.

End Demo.
