(* ===== verification/KProc.v ===== *)
(** The kernel's process table and run queues: the macros of [kernel/proc.h],
    [kernel/priv.h], [kernel/const.h] and [kernel/ipc.h], the scheduling functions of
    [kernel/proc.c], [sched_proc] of [kernel/system.c] and the queue checker of
    [kernel/debug.c].
    A pointer to a process is its number [n], which stands for [&proc[NR_TASKS + n]];
    a pointer that may be NULL is an [option].  [priv] structures are numbered by their
    position in their table, to which [main.c] initialises [ppriv_addr]. *)
From S2P Require Import Prelude Minix.
Local Open Scope Z_scope.

(** ** Constants and services from outside the kernel directory *)
Class KernelHeaders := {
  IDLE : Z;
  SELF : Z;
  USER_PRIV_ID : Z;
  PMAGIC : Z;
  (* privilege flags *)
  PREEMPTIBLE : Z;
  BILLABLE : Z;
  SYS_PROC : Z;
  (* system call numbers *)
  SEND : Z;
  RECEIVE : Z;
  SENDREC : Z;
  NOTIFY : Z;
  SENDNB : Z;
  SENDA : Z;
  IPCNO_HIGHEST : Z;
  IPC_STATUS_CALL_TO : Z -> Z;
  IPC_STATUS_FLAGS : Z -> Z;
  IPC_FLG_MSG_FROM_KERNEL : Z;
  SCHEDULING_NO_QUANTUM : Z;
  NOTIFY_FROM : Z -> Z;
  (* asynchronous sends *)
  AMF_VALID : Z;
  AMF_DONE : Z;
  AMF_NOTIFY : Z;
  AMF_NOREPLY : Z;
  (* signals *)
  SIGTRAP : Z;
  SIGKSIG : Z;
  SIGKSIGSM : Z;
  SIGSNDELAY : Z;
  SIGS_IS_LETHAL : Z -> bool;
  sigaddset : Z -> Z -> Z;
  sigismember : Z -> Z -> bool;
  (* bit maps of minix/bitmap.h *)
  NR_SYS_CHUNKS : Z;
  BITCHUNK_BITS : Z;
  MAP_CHUNK : Z -> Z;
  CHUNK_OFFSET : Z -> Z;
}.

(** ** proc.h *)
Definition RTS_SLOT_FREE : Z := 0x01.
Definition RTS_PROC_STOP : Z := 0x02.
Definition RTS_SENDING : Z := 0x04.
Definition RTS_RECEIVING : Z := 0x08.
Definition RTS_SIGNALED : Z := 0x10.
Definition RTS_SIG_PENDING : Z := 0x20.
Definition RTS_P_STOP : Z := 0x40.
Definition RTS_NO_PRIV : Z := 0x80.
Definition RTS_NO_ENDPOINT : Z := 0x100.
Definition RTS_VMINHIBIT : Z := 0x200.
Definition RTS_PAGEFAULT : Z := 0x400.
Definition RTS_VMREQUEST : Z := 0x800.
Definition RTS_VMREQTARGET : Z := 0x1000.
Definition RTS_PREEMPTED : Z := 0x4000.
Definition RTS_NO_QUANTUM : Z := 0x8000.

Definition MF_REPLY_PEND : Z := 0x001.
Definition MF_VIRT_TIMER : Z := 0x002.
Definition MF_PROF_TIMER : Z := 0x004.
Definition MF_KCALL_RESUME : Z := 0x008.
Definition MF_ASYNMSG : Z := 0x010.
Definition MF_FULLVM : Z := 0x020.
Definition MF_DELIVERMSG : Z := 0x040.
Definition MF_SIG_DELAY : Z := 0x080.
Definition MF_SC_ACTIVE : Z := 0x100.
Definition MF_SC_DEFER : Z := 0x200.
Definition MF_SC_TRACE : Z := 0x400.
Definition MF_FPU_INITIALIZED : Z := 0x1000.
Definition MF_SENDING_FROM_KERNEL : Z := 0x2000.
Definition MF_CONTEXT_SET : Z := 0x4000.

(** A message: its header, the two fields of a notification and the rest. *)
Record message := mk_message {
  m_source : Z;
  m_type : Z;
  NOTIFY_TIMESTAMP : Z;
  NOTIFY_ARG : Z;
  m_rest : list Z;
}.
#[export] Instance eta_message : Eta message := fun r =>
  mk_message (m_source r) (m_type r) (NOTIFY_TIMESTAMP r) (NOTIFY_ARG r) (m_rest r).

(** The fields of [struct proc] that scheduling, message passing and the kernel calls use; [p_status] and
    [p_retreg] are the registers [p_reg.bx] and [p_reg.retreg]. *)
Record proc := mk_proc {
  p_nr : Z;
  p_priv : option Z;
  p_rts_flags : Z;                 (* short *)
  p_misc_flags : Z;                (* short *)
  p_priority : Z;                  (* char *)
  p_cpu_time_left : Z;             (* u64_t *)
  p_quantum_size_ms : Z;
  p_scheduler : option Z;
  p_nextready : option Z;
  p_caller_q : option Z;
  p_q_link : option Z;
  p_getfrom_e : Z;
  p_sendto_e : Z;
  p_pending : Z;
  p_endpoint : Z;
  p_sendmsg : message;
  p_delivermsg : message;
  p_delivermsg_vir : Z;
  p_magic : Z;
  p_status : Z;
  p_retreg : rc;
  p_psw : Z;                       (* p_reg.psw *)
  p_user_time : Z;
  p_sys_time : Z;
  p_virt_left : Z;
  p_prof_left : Z;
  p_cycles : Z;                    (* u64_t *)
  p_vm_type : Z;                   (* p_vmrequest.type *)
  p_reqmsg : message;              (* p_vmrequest.saved.reqmsg *)
}.
#[export] Instance eta_proc : Eta proc := fun r =>
  mk_proc (p_nr r) (p_priv r) (p_rts_flags r) (p_misc_flags r) (p_priority r)
    (p_cpu_time_left r) (p_quantum_size_ms r) (p_scheduler r) (p_nextready r) (p_caller_q r)
    (p_q_link r) (p_getfrom_e r) (p_sendto_e r) (p_pending r) (p_endpoint r) (p_sendmsg r)
    (p_delivermsg r) (p_delivermsg_vir r) (p_magic r) (p_status r) (p_retreg r) (p_psw r)
    (p_user_time r) (p_sys_time r) (p_virt_left r) (p_prof_left r) (p_cycles r) (p_vm_type r)
    (p_reqmsg r).

Definition rts_f_is_runnable (flg : Z) : bool := flg =? 0.
Definition proc_is_runnable (p : proc) : bool := rts_f_is_runnable (p_rts_flags p).
Definition has (flags f : Z) : bool := negb (Z.land flags f =? 0).
Definition proc_is_preempted (p : proc) : bool := has (p_rts_flags p) RTS_PREEMPTED.
Definition proc_no_quantum (p : proc) : bool := has (p_rts_flags p) RTS_NO_QUANTUM.
Definition RTS_ISSET (p : proc) (f : Z) : bool := Z.land (p_rts_flags p) f =? f.
Definition MF (p : proc) (f : Z) : bool := has (p_misc_flags p) f.
Definition isemptyp (p : proc) : bool := p_rts_flags p =? RTS_SLOT_FREE.
Definition iskerneln (n : Z) : bool := n <? 0.

(** ** priv.h *)
Record priv := mk_priv {
  s_proc_nr : Z;
  s_id : Z;
  s_flags : Z;
  s_asyntab : Z;
  s_asynsize : Z;
  s_trap_mask : Z;
  s_ipc_to : list Z;
  s_sig_mgr : Z;
  s_bak_sig_mgr : Z;
  s_notify_pending : list Z;
  s_int_pending : Z;
  s_sig_pending : Z;
  s_k_call_mask : list Z;
  s_nr_io_range : Z;
  s_io_tab : list (Z * Z);
  s_nr_mem_range : Z;
  s_mem_tab : list (Z * Z);
  s_nr_irq : Z;
  s_irq_tab : list Z;
  s_grant_table : Z;
  s_grant_entries : Z;
}.
#[export] Instance eta_priv : Eta priv := fun r =>
  mk_priv (s_proc_nr r) (s_id r) (s_flags r) (s_asyntab r) (s_asynsize r) (s_trap_mask r)
    (s_ipc_to r) (s_sig_mgr r) (s_bak_sig_mgr r) (s_notify_pending r) (s_int_pending r)
    (s_sig_pending r) (s_k_call_mask r) (s_nr_io_range r) (s_io_tab r) (s_nr_mem_range r)
    (s_mem_tab r) (s_nr_irq r) (s_irq_tab r) (s_grant_table r) (s_grant_entries r).

(** What the machine-dependent part provides: copying a message from a process, reading
    and writing the entries of a table of asynchronous sends ([data_copy] in [A_RETRIEVE]
    and [A_INSERT]), the time in a quantum and the guard word of a task's stack. *)
Class KernelEnv (W : Type) := {
  copy_msg_from_user : Z -> Z -> W -> option message;
  retrieve_flags : Z -> Z -> Z -> W -> option Z;      (* endpoint, table, entry *)
  retrieve_dst : Z -> Z -> Z -> W -> option Z;
  retrieve_msg : Z -> Z -> Z -> W -> option message;
  entry_msg : Z -> Z -> Z;                            (* &table[i].msg *)
  insert_result : Z -> Z -> Z -> rc -> W -> option W;
  insert_flags : Z -> Z -> Z -> Z -> W -> option W;
  ms_2_cpu_time : Z -> Z;
  stack_guard_ok : Z -> W -> bool;
}.

Record state (W : Type) := mk_state {
  procs : list proc;               (* proc[NR_TASKS + NR_PROCS] *)
  privs : list priv;               (* priv[NR_SYS_PROCS] *)
  rdy_head : list (option Z);      (* rdy_head[NR_SCHED_QUEUES] *)
  rdy_tail : list (option Z);
  proc_ptr : Z;
  bill_ptr : Z;
  realtime : Z;
  world : W;
}.
Arguments mk_state {W}.
Arguments procs {W}.
Arguments privs {W}.
Arguments rdy_head {W}.
Arguments rdy_tail {W}.
Arguments proc_ptr {W}.
Arguments bill_ptr {W}.
Arguments realtime {W}.
Arguments world {W}.
#[export] Instance eta_state (W : Type) : Eta (state W) := fun r =>
  mk_state (procs r) (privs r) (rdy_head r) (rdy_tail r) (proc_ptr r) (bill_ptr r) (realtime r)
    (world r).

Section operations.
Context `{MinixHeaders} `{KernelHeaders} {W : Type} `{KernelEnv W}.
Abbreviation cmd := (M (state W)).

(** *** Access to the tables *)
Definition proc_addr (n : Z) : Z := NR_TASKS + n.
Definition get_proc (n : Z) : cmd proc := s ← get; deref (aget (procs s) (proc_addr n)).
Definition set_proc (n : Z) (f : proc -> proc) : cmd unit :=
  get_proc n;; modify (fun s => s <| procs := aupd (proc_addr n) f (procs s) |>).
(** [priv(rp)->f] *)
Definition get_priv (n : Z) : cmd priv :=
  p ← get_proc n; i ← deref (p_priv p); s ← get; deref (aget (privs s) i).
Definition set_priv (n : Z) (f : priv -> priv) : cmd unit :=
  get_priv n;;
  p ← get_proc n; i ← deref (p_priv p);
  modify (fun s => s <| privs := aupd i f (privs s) |>).

Definition isokprocn (n : Z) : bool := u32 (n + NR_TASKS) <? NR_PROCS + NR_TASKS.
Definition proc_ptr_ok (p : proc) : bool := p_magic p =? PMAGIC.
Definition proc_kernel_scheduler (n : Z) (p : proc) : bool :=
  match p_scheduler p with None => true | Some m => m =? n end.
(** On which endpoint is a process blocked? *)
Definition P_BLOCKEDON (p : proc) : Z :=
  if has (p_rts_flags p) RTS_SENDING then p_sendto_e p
  else if has (p_rts_flags p) RTS_RECEIVING then p_getfrom_e p
  else NONE.

(** *** The run queues *)
Definition get_head (q : Z) : cmd (option Z) := s ← get; deref (aget (rdy_head s) q).
Definition set_head (q : Z) (v : option Z) : cmd unit :=
  get_head q;; modify (fun s => s <| rdy_head := aupd q (fun _ => v) (rdy_head s) |>).
Definition get_tail (q : Z) : cmd (option Z) := s ← get; deref (aget (rdy_tail s) q).
Definition set_tail (q : Z) (v : option Z) : cmd unit :=
  get_tail q;; modify (fun s => s <| rdy_tail := aupd q (fun _ => v) (rdy_tail s) |>).

(** [*xpp] and [*xpp = v], for a pointer [xpp] to the head of queue [q] or to the link of
    a process. *)
Inductive link := Head (q : Z) | Next (n : Z).
Definition get_link (l : link) : cmd (option Z) :=
  match l with Head q => get_head q | Next n => p ← get_proc n; mret (p_nextready p) end.
Definition set_link (l : link) (v : option Z) : cmd unit :=
  match l with
  | Head q => set_head q v
  | Next n => set_proc n (fun p => p <| p_nextready := v |>)
  end.

(** A queue holds a process at most once, so the search ends within the table's size. *)
Definition queue_fuel : nat := S (S (Z.to_nat (NR_TASKS + NR_PROCS))).

Definition dequeue (rp : Z) : cmd unit :=
  p ← get_proc rp;
  let q := p_priority p in
  assert_ (proc_ptr_ok p);;
  assert_ (negb (proc_is_runnable p));;
  (if iskerneln rp then s ← get; assert_ (stack_guard_ok rp (world s)) else mret tt);;
  loop_ queue_fuel (fun '(xpp, prev_xp) =>
    x ← get_link xpp;
    match x with
    | None => mret (inr tt)
    | Some n =>
        if n =? rp then
          xp ← get_proc n;
          set_link xpp (p_nextready xp);;
          t ← get_tail q;
          (if bool_decide (t = Some rp) then set_tail q prev_xp else mret tt);;
          mret (inr tt)
        else mret (inl (Next n, Some n))
    end) (Head q, None).

(** [RTS_SET(rp, f)]: set flags and dequeue the process if it was runnable. *)
Definition RTS_SET (rp f : Z) : cmd unit :=
  p ← get_proc rp;
  let rts := p_rts_flags p in
  set_proc rp (fun p => p <| p_rts_flags := s16 (Z.lor (p_rts_flags p) f) |>);;
  p ← get_proc rp;
  if rts_f_is_runnable rts && negb (proc_is_runnable p) then dequeue rp else mret tt.

Definition enqueue (rp : Z) : cmd unit :=
  p ← get_proc rp;
  let q := p_priority p in
  assert_ (proc_is_runnable p);;
  assert_ (0 <=? q);;
  h ← get_head q;
  (match h with
   | None =>
       set_tail q (Some rp);;
       set_head q (Some rp);;
       set_proc rp (fun p => p <| p_nextready := None |>)
   | Some _ =>
       t ← get_tail q;
       t ← deref t;
       set_proc t (fun p => p <| p_nextready := Some rp |>);;
       set_tail q (Some rp);;
       set_proc rp (fun p => p <| p_nextready := None |>)
   end);;
  s ← get;
  cur ← get_proc (proc_ptr s);
  assert_ (proc_ptr_ok cur);;
  p ← get_proc rp;
  if p_priority p <? p_priority cur then
    pr ← get_priv (proc_ptr s);
    if has (s_flags pr) PREEMPTIBLE then RTS_SET (proc_ptr s) RTS_PREEMPTED else mret tt
  else mret tt.

(** [RTS_UNSET(rp, f)]: clear flags and enqueue the process if it became runnable. *)
Definition RTS_UNSET (rp f : Z) : cmd unit :=
  p ← get_proc rp;
  let rts := p_rts_flags p in
  set_proc rp (fun p => p <| p_rts_flags := s16 (Z.ldiff (p_rts_flags p) f) |>);;
  p ← get_proc rp;
  if negb (rts_f_is_runnable rts) && proc_is_runnable p then enqueue rp else mret tt.

(** [RTS_SETFLAGS(rp, f)]: the macro calls dequeue before it stores the flags. *)
Definition RTS_SETFLAGS (rp f : Z) : cmd unit :=
  p ← get_proc rp;
  (if proc_is_runnable p && negb (f =? 0) then dequeue rp else mret tt);;
  set_proc rp (fun p => p <| p_rts_flags := s16 f |>).

(** In the source the second statement after [else] is outside the conditional. *)
Definition enqueue_head (rp : Z) : cmd unit :=
  p ← get_proc rp;
  let q := p_priority p in
  assert_ (proc_ptr_ok p);;
  assert_ (proc_is_runnable p);;
  assert_ (negb (p_cpu_time_left p =? 0));;
  assert_ (0 <=? q);;
  h ← get_head q;
  (match h with
   | None =>
       set_tail q (Some rp);;
       set_head q (Some rp);;
       set_proc rp (fun p => p <| p_nextready := None |>)
   | Some _ => set_proc rp (fun p => p <| p_nextready := h |>)
   end);;
  set_head q (Some rp).

Definition pick_proc : cmd (option Z) :=
  r ← for_ (seqZ 0 NR_SCHED_QUEUES) (fun q =>
    h ← get_head q;
    match h with
    | None => mret None
    | Some rp =>
        p ← get_proc rp;
        assert_ (proc_is_runnable p);;
        pr ← get_priv rp;
        (if has (s_flags pr) BILLABLE then modify (fun s => s <| bill_ptr := rp |>)
         else mret tt);;
        mret (Some rp)
    end);
  mret r.

(** *** Endpoints *)
(** [isokendpt_f]: the slot of an endpoint, and whether a live process has it. *)
Definition isokendpt (e : Z) : cmd (bool * Z) :=
  let p := _ENDPOINT_P e in
  if negb (isokprocn p) then mret (false, p) else
  rp ← get_proc p;
  if isemptyp rp then mret (false, p) else
  if negb (p_endpoint rp =? e) then mret (false, p) else mret (true, p).
Definition okendpt (e : Z) : cmd Z :=
  '(ok, p) ← isokendpt e;
  if negb ok then halt Panic else mret p.
Definition endpoint_lookup (e : Z) : cmd (option Z) :=
  '(ok, n) ← isokendpt e;
  if negb ok then mret None else mret (Some n).

(** *** system.c *)
Definition sched_proc (rp priority quantum : Z) : cmd rc :=
  if (u32 priority <? TASK_Q) || (NR_SCHED_QUEUES <? u32 priority) then mret EINVAL else
  if u32 quantum <=? 0 then mret EINVAL else
  p ← get_proc rp;
  (if proc_is_runnable p then RTS_SET rp RTS_NO_QUANTUM else mret tt);;
  set_proc rp (fun p => p <| p_priority := u32 priority |>
                          <| p_quantum_size_ms := u32 quantum |>
                          <| p_cpu_time_left := ms_2_cpu_time (u32 quantum) |>);;
  RTS_UNSET rp RTS_NO_QUANTUM;;
  mret OK.
End operations.

(** ** Flags *)
Section flags.
Lemma s16_zero z : s16 z = 0 <-> z mod 2 ^ 16 = 0.
Proof.
  unfold s16. split; intros Hz.
  - replace z with ((z + 2 ^ 15) - 2 ^ 15) by lia. rewrite <-Zminus_mod_idemp_l.
    assert ((z + 2 ^ 15) mod 2 ^ 16 = 2 ^ 15) as -> by lia. reflexivity.
  - rewrite <-Z.add_mod_idemp_l, Hz by lia. reflexivity.
Qed.

Lemma s16_small z : - 2 ^ 15 <= z < 2 ^ 15 -> s16 z = z.
Proof. intros Hz. unfold s16. rewrite Z.mod_small; lia. Qed.

Lemma s16_range z : - 2 ^ 15 <= s16 z < 2 ^ 15.
Proof. unfold s16. pose proof (Z.mod_pos_bound (z + 2 ^ 15) (2 ^ 16)). lia. Qed.

(** Setting flags of a process that is not runnable does not make it runnable. *)
Lemma set_flags_nonzero x f : - 2 ^ 15 <= x < 2 ^ 15 -> x <> 0 -> s16 (Z.lor x f) <> 0.
Proof.
  intros Hr Hx Hs. apply s16_zero in Hs. rewrite <-Z.land_ones in Hs by lia.
  rewrite Z.land_lor_distr_l in Hs. apply Z.lor_eq_0_iff in Hs as [Hs _].
  rewrite Z.land_ones in Hs by lia. apply Hx. rewrite <-(s16_small x Hr). by apply s16_zero.
Qed.

(** The flags of the 16 bit word can be read bit by bit. *)
Lemma s16_testbit z i : 0 <= i < 16 -> Z.testbit (s16 z) i = Z.testbit z i.
Proof.
  intros Hi. assert (s16 z mod 2 ^ 16 = z mod 2 ^ 16) as Hm.
  { unfold s16. rewrite Zminus_mod_idemp_l. f_equal. lia. }
  rewrite <-(Z.mod_pow2_bits_low (s16 z) 16 i), Hm by lia. apply Z.mod_pow2_bits_low. lia.
Qed.
End flags.

(** ** Linked queues *)
Section linked.
Implicit Types (nx : Z -> option (option Z)) (l : list Z).

(** [l] is the list of processes linked from [h] by the links [nx]. *)
Fixpoint linked nx (h : option Z) l : Prop :=
  match l with
  | [] => h = None
  | n :: l' => h = Some n /\ exists h', nx n = Some h' /\ linked nx h' l'
  end.

Lemma linked_ext nx nx' h l :
  (forall n, n ∈ l -> nx n = nx' n) -> linked nx h l -> linked nx' h l.
Proof.
  revert h. induction l as [|n l IH]; intros h Hext; [done|]. intros (-> & h' & Hn & Hl).
  split; [done|]. exists h'. split; [by rewrite <-Hext by (by left)|].
  apply IH; [|done]. intros m Hm. apply Hext. by right.
Qed.

Lemma linked_head nx h l : linked nx h l -> h = head l.
Proof. destruct l as [|n l]; [done|]. by intros [-> _]. Qed.

(** The link that leads to the rest of a queue: its head or the last process passed. *)
Definition link_of (q : Z) (pre : list Z) : link :=
  match list.last pre with Some n => Next n | None => Head q end.

Lemma linked_split nx h pre l :
  linked nx h (pre ++ l) ->
  linked nx (match list.last pre with Some n => from_option id None (nx n) | None => h end) l.
Proof.
  revert h. induction pre as [|n pre IH]; intros h; [done|].
  intros (-> & h' & Hn & Hl). specialize (IH h' Hl).
  destruct pre as [|m pre]; [by simpl; rewrite Hn|].
  change (list.last (n :: m :: pre)) with (list.last (m :: pre)).
  destruct (list.last (m :: pre)) eqn:Hlast; [done|]. by apply last_None in Hlast.
Qed.

(** Unlinking the process after the prefix [pre]. *)
Lemma linked_remove nx nx' h h' pre n post :
  NoDup (pre ++ n :: post) ->
  linked nx h (pre ++ n :: post) ->
  (forall m, list.last pre = Some m -> nx' m = nx n) ->
  (list.last pre = None -> Some h' = nx n) ->
  (list.last pre <> None -> h' = h) ->
  (forall m, list.last pre <> Some m -> nx' m = nx m) ->
  linked nx' h' (pre ++ post).
Proof.
  intros Hnd Hl Hlast Hnone Hsome Hrest.
  revert h h' Hl Hnone Hsome Hlast Hrest. induction pre as [|m pre IH];
    intros h h' Hl Hnone Hsome Hlast Hrest.
  - destruct Hl as (-> & h0 & Hn & Hl). assert (h' = h0) as -> by (rewrite Hn in Hnone; naive_solver).
    simpl. eapply linked_ext; [|done]. intros k _. symmetry. by apply Hrest.
  - destruct Hl as (-> & h0 & Hm & Hl). rewrite Hsome by (by rewrite last_None).
    split; [done|]. destruct pre as [|k pre].
    + destruct Hl as (-> & h1 & Hn & Hl). exists h1. split; [by rewrite Hlast|].
      eapply linked_ext; [|exact Hl]. intros k Hk. symmetry. apply Hrest.
      simpl. intros [= ->]. apply list.NoDup_cons in Hnd as [Hnd _]. apply Hnd.
      simpl. right. done.
    + exists h0.
      assert ((m ∉ (k :: pre) ++ n :: post) /\ NoDup ((k :: pre) ++ n :: post)) as [Hm' Hnd'] by
        by apply list.NoDup_cons in Hnd.
      change (list.last (m :: k :: pre)) with (list.last (k :: pre)) in *. split.
      * rewrite Hrest; [done|]. intros [l' Hlm]%last_Some. apply Hm'.
        rewrite Hlm, !elem_of_app. left. right. by left.
      * apply (IH Hnd' h0 h0); try done. by rewrite last_None.
Qed.

(** Appending a process to a queue. *)
Lemma linked_snoc nx nx' h h' l n :
  linked nx h l -> n ∉ l -> NoDup l ->
  nx' n = Some None ->
  (forall m, list.last l = Some m -> nx' m = Some (Some n)) ->
  (forall m, m <> n -> list.last l <> Some m -> nx' m = nx m) ->
  (list.last l = None -> h' = Some n) -> (list.last l <> None -> h' = h) ->
  linked nx' h' (l ++ [n]).
Proof.
  revert h h'. induction l as [|m l IH]; intros h h' Hl Hn Hnd Hnew Hlast Hrest Hnone Hsome.
  - simpl. split; [by apply Hnone|]. by exists None.
  - destruct Hl as (-> & h0 & Hm & Hl). rewrite Hsome by (by rewrite last_None). split; [done|].
    apply list.NoDup_cons in Hnd as [Hml Hnd]. apply not_elem_of_cons in Hn as [Hnm Hnl].
    destruct l as [|k l].
    + simpl. exists (Some n). split; [by apply Hlast|]. split; [done|]. by exists None.
    + exists h0. split.
      * rewrite Hrest; [done|done|]. change (list.last (m :: k :: l)) with (list.last (k :: l)).
        intros [l' Hlm]%last_Some. apply Hml. rewrite Hlm, elem_of_app. right. by left.
      * apply (IH h0 h0); try done. by rewrite last_None.
Qed.
End linked.

(** ** Running on the tables *)
Section tables.
Context `{MinixLaws} `{KernelHeaders} {W : Type} `{KernelEnv W}.
Implicit Types (s : state W) (Q : Z -> list Z).

Definition pget s (n : Z) : option proc := aget (procs s) (proc_addr n).
Definition pset (n : Z) (f : proc -> proc) s : state W :=
  s <| procs := aupd (proc_addr n) f (procs s) |>.
Definition nxt s (n : Z) : option (option Z) := p_nextready <$> pget s n.
(** A process without its link in a run queue: what the rest of the kernel sees of it. *)
Definition strip (p : proc) : proc := p <| p_nextready := None |>.
Definition view s (n : Z) : option proc := strip <$> pget s n.

Lemma get_proc_run s n p : pget s n = Some p -> get_proc n s = Ret p s.
Proof. unfold get_proc, mbind, M_bind, get. fold (pget s n). by intros ->. Qed.

Lemma set_proc_run s n p f : pget s n = Some p -> set_proc n f s = Ret tt (pset n f s).
Proof. intros Hp. unfold set_proc. by erewrite bind_ret by by apply get_proc_run. Qed.

Lemma pget_pset s n m f : pget (pset n f s) m = if decide (m = n) then f <$> pget s m else pget s m.
Proof.
  unfold pget, pset, proc_addr. simpl. case_decide as Hd.
  - subst m. apply aget_aupd_eq.
  - apply aget_aupd_ne. lia.
Qed.
Lemma pget_pset_eq s n f : pget (pset n f s) n = f <$> pget s n.
Proof. rewrite pget_pset. by rewrite decide_True. Qed.
Lemma pget_pset_ne s n m f : m <> n -> pget (pset n f s) m = pget s m.
Proof. intros ?. rewrite pget_pset. by rewrite decide_False. Qed.

Lemma pget_range s n p :
  Z.of_nat (length (procs s)) = NR_TASKS + NR_PROCS -> pget s n = Some p -> - NR_TASKS <= n < NR_PROCS.
Proof. unfold pget, proc_addr. intros Hl Hp%aget_range. lia. Qed.

Lemma get_head_run s q h : aget (rdy_head s) q = Some h -> get_head q s = Ret h s.
Proof. unfold get_head, mbind, M_bind, get. by intros ->. Qed.
Lemma get_tail_run s q h : aget (rdy_tail s) q = Some h -> get_tail q s = Ret h s.
Proof. unfold get_tail, mbind, M_bind, get. by intros ->. Qed.

Definition hset (q : Z) (v : option Z) s : state W := s <| rdy_head := aupd q (fun _ => v) (rdy_head s) |>.
Definition tset (q : Z) (v : option Z) s : state W := s <| rdy_tail := aupd q (fun _ => v) (rdy_tail s) |>.

Lemma set_head_run s q h v : aget (rdy_head s) q = Some h -> set_head q v s = Ret tt (hset q v s).
Proof. intros Hh. unfold set_head. by erewrite bind_ret by by apply get_head_run. Qed.
Lemma set_tail_run s q h v : aget (rdy_tail s) q = Some h -> set_tail q v s = Ret tt (tset q v s).
Proof. intros Hh. unfold set_tail. by erewrite bind_ret by by apply get_tail_run. Qed.

(** States that differ in the links and heads of the run queues only. *)
Record same s s' : Prop := {
  same_view n : view s' n = view s n;
  same_length : length (procs s') = length (procs s);
  same_heads : length (rdy_head s') = length (rdy_head s);
  same_privs : privs s' = privs s;
  same_proc_ptr : proc_ptr s' = proc_ptr s;
  same_bill_ptr : bill_ptr s' = bill_ptr s;
  same_realtime : realtime s' = realtime s;
  same_world : world s' = world s;
}.

#[global] Instance same_refl : Reflexive same.
Proof. intros s. by split. Qed.
#[global] Instance same_trans : Transitive same.
Proof. intros s1 s2 s3 [] []. split; intros; congruence. Qed.

Lemma view_pset_link s n v m : view (pset n (fun p => p <| p_nextready := v |>) s) m = view s m.
Proof.
  unfold view. rewrite pget_pset. case_decide; [|done]. by destruct (pget s m).
Qed.

Lemma same_link s n v : same s (pset n (fun p => p <| p_nextready := v |>) s).
Proof. split; [by apply view_pset_link|apply length_aupd|done..]. Qed.
Lemma same_head s q v : same s (hset q v s).
Proof. split; [done|done|apply length_aupd|done..]. Qed.
Lemma same_tail s q v : same s (tset q v s).
Proof. by split. Qed.

Lemma view_pget s n p : view s n = Some p -> exists p', pget s n = Some p' /\ strip p' = p.
Proof. unfold view. destruct (pget s n) as [p'|]; [|done]. intros [= <-]. by exists p'. Qed.

(** *** The structure of the run queues *)
Definition queue_nr (q : Z) : Prop := 0 <= q < NR_SCHED_QUEUES.
Record queues s Q : Prop := {
  q_length : Z.of_nat (length (procs s)) = NR_TASKS + NR_PROCS;
  q_head q : queue_nr q -> exists h, aget (rdy_head s) q = Some h /\ linked (nxt s) h (Q q);
  q_tail q : queue_nr q -> aget (rdy_tail s) q = Some (list.last (Q q));
  q_nodup q : queue_nr q -> NoDup (Q q);
  q_disjoint q q' n : queue_nr q -> queue_nr q' -> n ∈ Q q -> n ∈ Q q' -> q = q';
}.

Definition qset (q : Z) (l : list Z) Q : Z -> list Z := fun q' => if decide (q' = q) then l else Q q'.
Lemma qset_eq q l Q : qset q l Q q = l.
Proof. unfold qset. by rewrite decide_True. Qed.
Lemma qset_ne q q' l Q : q' <> q -> qset q l Q q' = Q q'.
Proof. intros ?. unfold qset. by rewrite decide_False. Qed.

Lemma linked_valid s h l n : linked (nxt s) h l -> n ∈ l -> exists p, pget s n = Some p.
Proof.
  revert h. induction l as [|m l IH]; intros h; [by intros _ ?%elem_of_nil|].
  intros (-> & h' & Hm & Hl) [->|Hn]%elem_of_cons; [|by eapply IH].
  unfold nxt in Hm. destruct (pget s m) as [p|]; [by exists p|done].
Qed.

Lemma queue_valid s Q q n : queues s Q -> queue_nr q -> n ∈ Q q -> exists p, pget s n = Some p.
Proof. intros Hq Hr Hn. destruct (q_head _ _ Hq q Hr) as (h & _ & Hl). by eapply linked_valid. Qed.

Lemma queue_length s Q q : queues s Q -> queue_nr q -> (length (Q q) <= Z.to_nat (NR_TASKS + NR_PROCS))%nat.
Proof.
  intros Hq Hr. rewrite <-(length_seqZ (- NR_TASKS) (NR_TASKS + NR_PROCS)).
  apply submseteq_length, NoDup_submseteq; [by apply (q_nodup _ _ Hq)|].
  intros n Hn. destruct (queue_valid _ _ _ _ Hq Hr Hn) as [p Hp].
  apply elem_of_seqZ. pose proof (pget_range _ _ _ (q_length _ _ Hq) Hp). lia.
Qed.

(** Links of other processes are not touched. *)
Lemma nxt_pset s n m f :
  (forall p, p_nextready (f p) = p_nextready p) \/ m <> n -> nxt (pset n f s) m = nxt s m.
Proof.
  intros Hf. unfold nxt. rewrite pget_pset. case_decide as Hd; [|done].
  destruct Hf as [Hf|]; [|done]. destruct (pget s m) as [p|]; [|done]. simpl. by rewrite Hf.
Qed.

(** Changing anything but a link keeps the queues. *)
Lemma queues_pset s Q n f :
  (forall p, p_nextready (f p) = p_nextready p) -> queues s Q -> queues (pset n f s) Q.
Proof.
  intros Hf [Hlen Hhead Htail Hnd Hdis]. split; [by simpl; rewrite length_aupd| |done..].
  intros q Hq. destruct (Hhead q Hq) as (h & Hh & Hl). exists h. split; [done|].
  eapply linked_ext; [|exact Hl]. intros m _. symmetry. apply nxt_pset. by left.
Qed.

Lemma queues_same_fields s s' Q :
  procs s' = procs s -> rdy_head s' = rdy_head s -> rdy_tail s' = rdy_tail s ->
  queues s Q -> queues s' Q.
Proof.
  intros Hp Hh Ht [Hlen Hhead Htail Hnd Hdis].
  split; [by rewrite Hp| |by rewrite Ht|done..]. intros q Hq.
  destruct (Hhead q Hq) as (h & Hq' & Hl). exists h. split; [by rewrite Hh|].
  eapply linked_ext; [|exact Hl]. intros m _. unfold nxt, pget. by rewrite Hp.
Qed.
End tables.

(** ** Taking a process out of its queue *)
Section dequeue.
Context `{MinixLaws} `{KernelHeaders} {W : Type} `{KernelEnv W}.
Implicit Types (s : state W) (Q : Z -> list Z).
#[local] Hint Resolve get_proc_run set_proc_run get_head_run get_tail_run set_head_run
  set_tail_run : run.

Definition relink (q : Z) (pre : list Z) (v : option Z) s : state W :=
  match list.last pre with
  | None => hset q v s
  | Some m => pset m (fun p => p <| p_nextready := v |>) s
  end.
Definition unlinked (q : Z) (pre post : list Z) (v : option Z) s : state W :=
  match post with
  | [] => tset q (list.last pre) (relink q pre v s)
  | _ => relink q pre v s
  end.

Lemma same_relink s q pre v : same s (relink q pre v s).
Proof. unfold relink. destruct (list.last pre); [apply same_link|apply same_head]. Qed.
Lemma same_unlinked s q pre post v : same s (unlinked q pre post v s).
Proof.
  unfold unlinked. destruct post; [|apply same_relink].
  etrans; [apply same_relink|apply same_tail].
Qed.

Lemma nxt_relink s q pre v m :
  nxt (relink q pre v s) m =
    if decide (list.last pre = Some m) then (fun _ => v) <$> nxt s m else nxt s m.
Proof.
  unfold relink. destruct (list.last pre) as [k|]; [|by rewrite decide_False].
  unfold nxt. rewrite pget_pset. destruct (decide (m = k)) as [->|Hne].
  - rewrite decide_True by done. by destruct (pget s k).
  - rewrite decide_False by congruence. done.
Qed.

Lemma nxt_unlinked s q pre post v m : nxt (unlinked q pre post v s) m = nxt (relink q pre v s) m.
Proof. unfold unlinked. by destruct post. Qed.

Lemma last_app_cons {A} (l : list A) x l' : list.last (l ++ x :: l') = list.last (x :: l').
Proof.
  induction l as [|y l IH]; [done|]. destruct l as [|z l]; [done|].
  change (list.last ((y :: z :: l) ++ x :: l')) with (list.last ((z :: l) ++ x :: l')). done.
Qed.

Lemma unlink_queues s Q q pre n post v :
  queues s Q -> queue_nr q -> Q q = pre ++ n :: post -> nxt s n = Some v ->
  queues (unlinked q pre post v s) (qset q (pre ++ post) Q).
Proof.
  intros Hq Hqn HQ Hn. pose proof (q_nodup _ _ Hq q Hqn) as Hnd. rewrite HQ in Hnd.
  assert (forall k, list.last pre = Some k -> k ∈ Q q) as Hin.
  { intros k [l' ->]%last_Some. rewrite HQ, !elem_of_app. left. right. by left. }
  assert (pre ++ post ⊆ Q q) as Hsub.
  { rewrite HQ. intros k. rewrite !elem_of_app, elem_of_cons. naive_solver. }
  split.
  - rewrite (same_length _ _ (same_unlinked s q pre post v)). apply (q_length _ _ Hq).
  - intros q' Hq'. destruct (q_head _ _ Hq q' Hq') as (h & Hh & Hl).
    assert (rdy_head (unlinked q pre post v s) =
              match list.last pre with None => aupd q (fun _ => v) (rdy_head s) | Some _ => rdy_head s end)
      as -> by (unfold unlinked, relink; by destruct post, (list.last pre)).
    destruct (decide (q' = q)) as [->|Hne].
    + rewrite qset_eq. rewrite HQ in Hl. destruct (list.last pre) as [k|] eqn:Hlast.
      * exists h. split; [done|]. eapply linked_remove; [exact Hnd|exact Hl|..].
        -- intros m [= <-]%(eq_trans (eq_sym Hlast)). rewrite nxt_unlinked, nxt_relink, decide_True by done.
           destruct (queue_valid _ _ _ _ Hq Hqn (Hin k eq_refl)) as [p Hp]. rewrite Hn.
           unfold nxt. by rewrite Hp.
        -- by rewrite Hlast.
        -- done.
        -- intros m Hm. by rewrite nxt_unlinked, nxt_relink, decide_False.
      * exists v. split; [by rewrite aget_aupd_eq, Hh|]. eapply linked_remove; [exact Hnd|exact Hl|..].
        -- by rewrite Hlast.
        -- done.
        -- by rewrite Hlast.
        -- intros m Hm. by rewrite nxt_unlinked, nxt_relink, decide_False.
    + rewrite qset_ne by done. exists h. split.
      { destruct (list.last pre); [done|]. by rewrite aget_aupd_ne. }
      eapply linked_ext; [|exact Hl]. intros m Hm.
      rewrite nxt_unlinked, nxt_relink, decide_False; [done|]. intros Hlast.
      apply Hne. by apply (q_disjoint _ _ Hq q' q m); [..|apply Hin].
  - intros q' Hq'. pose proof (q_tail _ _ Hq q' Hq') as Ht.
    assert (rdy_tail (unlinked q pre post v s) =
              match post with [] => aupd q (fun _ => list.last pre) (rdy_tail s) | _ => rdy_tail s end)
      as -> by (unfold unlinked, relink; by destruct post, (list.last pre)).
    destruct (decide (q' = q)) as [->|Hne].
    + rewrite qset_eq. rewrite HQ in Ht. destruct post as [|k post].
      * rewrite app_nil_r, aget_aupd_eq, Ht. done.
      * rewrite Ht, !last_app_cons. done.
    + rewrite qset_ne by done. destruct post; [|done]. by rewrite aget_aupd_ne.
  - intros q' Hq'. destruct (decide (q' = q)) as [->|Hne].
    + rewrite qset_eq. apply list.NoDup_app in Hnd as (Hn1 & Hn2 & Hn3).
      apply list.NoDup_cons in Hn3 as [_ Hn3]. apply list.NoDup_app. split_and!; [done| |done].
      intros k Hk Hk'. apply (Hn2 k Hk). by right.
    + rewrite qset_ne by done. by apply (q_nodup _ _ Hq).
  - intros q1 q2 k Hq1 Hq2 Hk1 Hk2.
    apply (q_disjoint _ _ Hq q1 q2 k Hq1 Hq2).
    + unfold qset in Hk1. case_decide; subst; [by apply Hsub|done].
    + unfold qset in Hk2. case_decide; subst; [by apply Hsub|done].
Qed.

Lemma get_link_run s Q q pre l :
  queues s Q -> queue_nr q -> Q q = pre ++ l -> get_link (link_of q pre) s = Ret (head l) s.
Proof.
  intros Hq Hqn HQ. destruct (q_head _ _ Hq q Hqn) as (h & Hh & Hl). rewrite HQ in Hl.
  pose proof (linked_head _ _ _ (linked_split _ _ _ _ Hl)) as Hhd.
  unfold link_of, get_link. destruct (list.last pre) as [k|] eqn:Hlast.
  - destruct (queue_valid s Q q k Hq Hqn) as [p Hp].
    { apply last_Some in Hlast as [l' ->]. rewrite HQ, !elem_of_app. left. right. by left. }
    run_step. unfold nxt in Hhd. rewrite Hp in Hhd. simpl in Hhd. by rewrite Hhd.
  - rewrite <-Hhd. by apply get_head_run.
Qed.

Lemma set_link_run s Q q pre l v :
  queues s Q -> queue_nr q -> Q q = pre ++ l -> set_link (link_of q pre) v s = Ret tt (relink q pre v s).
Proof.
  intros Hq Hqn HQ. unfold link_of, relink, set_link.
  destruct (list.last pre) as [k|] eqn:Hlast.
  - destruct (queue_valid s Q q k Hq Hqn) as [p Hp]; [|by eapply set_proc_run].
    apply last_Some in Hlast as [l' ->]. rewrite HQ, !elem_of_app. left. right. by left.
  - destruct (q_head _ _ Hq q Hqn) as (h & Hh & _). by eapply set_head_run.
Qed.

(** The search loop of [dequeue]: from the prefix [pre] on, it finds [n] after [pre']. *)
Lemma dequeue_loop_run s Q q n pre' post v fuel pre :
  queues s Q -> queue_nr q -> Q q = pre ++ pre' ++ n :: post -> nxt s n = Some v ->
  (length pre' < fuel)%nat ->
  loop_ fuel (fun '(xpp, prev_xp) =>
    x ← get_link xpp;
    match x with
    | None => mret (inr tt)
    | Some m =>
        if m =? n then
          xp ← get_proc m;
          set_link xpp (p_nextready xp);;
          t ← get_tail q;
          (if bool_decide (t = Some n) then set_tail q prev_xp else mret tt);;
          mret (inr tt)
        else mret (inl (Next m, Some m))
    end) (link_of q pre, list.last pre) s =
  Ret tt (unlinked q (pre ++ pre') post v s).
Proof.
  revert pre fuel. induction pre' as [|m pre' IH]; intros pre fuel Hq Hqn HQ Hn Hf;
    (destruct fuel as [|fuel]; [simpl in Hf; lia|]); cbn [loop_].
  - rewrite app_nil_r. simpl in HQ.
    unfold nxt in Hn. destruct (pget s n) as [p|] eqn:Hp; [|done]. injection Hn as Hn.
    assert (aget (rdy_tail (relink q pre v s)) q = Some (list.last (n :: post))) as Ht.
    { replace (rdy_tail (relink q pre v s)) with (rdy_tail s)
        by (unfold relink; by destruct (list.last pre)).
      rewrite (q_tail _ _ Hq q Hqn), HQ. by rewrite last_app_cons. }
    pose proof (q_nodup _ _ Hq q Hqn) as Hnd. rewrite HQ in Hnd.
    apply list.NoDup_app in Hnd as (_ & _ & [Hnp _]%list.NoDup_cons).
    unfold mbind, M_bind, mret, M_ret.
    rewrite (get_link_run s Q q pre (n :: post) Hq Hqn HQ). cbn beta iota delta [head].
    rewrite Z.eqb_refl, (get_proc_run _ _ _ Hp), Hn. cbn beta iota.
    rewrite (set_link_run s Q q pre (n :: post) v Hq Hqn HQ). cbn beta iota.
    rewrite (get_tail_run _ _ _ Ht). cbn beta iota.
    destruct post as [|k post].
    + rewrite bool_decide_true by done. by rewrite (set_tail_run _ _ _ _ Ht).
    + rewrite bool_decide_false; [done|].
      change (list.last (n :: k :: post)) with (list.last (k :: post)).
      intros [l' Hl']%last_Some. apply Hnp. rewrite Hl', elem_of_app. right. by left.
  - pose proof (q_nodup _ _ Hq q Hqn) as Hnd. rewrite HQ in Hnd.
    apply list.NoDup_app in Hnd as (_ & _ & Hnd). cbn [app] in Hnd.
    apply list.NoDup_cons in Hnd as [Hm _].
    specialize (IH (pre ++ [m]) fuel Hq Hqn). rewrite <-!app_assoc in IH.
    specialize (IH HQ Hn ltac:(simpl in Hf; lia)).
    unfold link_of in IH. rewrite last_snoc in IH.
    unfold mbind, M_bind, mret, M_ret in IH |- *.
    rewrite (get_link_run s Q q pre ((m :: pre') ++ n :: post) Hq Hqn HQ).
    cbn beta iota delta [head app].
    rewrite (proj2 (Z.eqb_neq m n)) by (intros ->; apply Hm, elem_of_app; right; by left).
    exact IH.
Qed.

Lemma dequeue_run s Q n p pre post :
  queues s Q -> pget s n = Some p -> p_magic p = PMAGIC -> p_rts_flags p <> 0 ->
  (n < 0 -> stack_guard_ok n (world s) = true) ->
  queue_nr (p_priority p) -> Q (p_priority p) = pre ++ n :: post ->
  dequeue n s = Ret tt (unlinked (p_priority p) pre post (p_nextready p) s).
Proof.
  intros Hq Hp Hm Hf Hg Hqn HQ. unfold dequeue. run_step. unfold proc_ptr_ok. rewrite Hm, Z.eqb_refl.
  cbn [assert_]. rewrite (bind_ret _ _ _ _ _ (mret_run _ _)).
  unfold proc_is_runnable, rts_f_is_runnable. rewrite (proj2 (Z.eqb_neq _ _) Hf). cbn [negb assert_].
  rewrite (bind_ret _ _ _ _ _ (mret_run _ _)).
  assert ((if iskerneln n then s ← get; assert_ (stack_guard_ok n (world s)) else mret tt) s = Ret tt s)
    as Hguard.
  { unfold iskerneln. destruct (Z.ltb_spec n 0); [|done].
    rewrite (bind_ret _ _ _ _ _ (get_run _)), Hg by done. done. }
  rewrite (bind_ret _ _ _ _ _ Hguard).
  apply (dequeue_loop_run s Q (p_priority p) n pre post (p_nextready p) queue_fuel []); try done.
  - unfold nxt. by rewrite Hp.
  - pose proof (queue_length _ _ _ Hq Hqn) as Hl. rewrite HQ, length_app in Hl.
    unfold queue_fuel. simpl in Hl. lia.
Qed.
End dequeue.

(** ** Putting a process into a queue *)
Section enqueue.
Context `{MinixLaws} `{KernelHeaders} {W : Type} `{KernelEnv W}.
Implicit Types (s : state W) (Q : Z -> list Z).
#[local] Hint Resolve get_proc_run set_proc_run get_head_run get_tail_run set_head_run
  set_tail_run : run.

Definition set_next (v : option Z) (p : proc) : proc := p <| p_nextready := v |>.

(** The state after the process was added at the tail, or at the head, of queue [q]. *)
Definition appended (q n : Z) (l : list Z) s : state W :=
  match list.last l with
  | None => pset n (set_next None) (hset q (Some n) (tset q (Some n) s))
  | Some t => pset n (set_next None) (tset q (Some n) (pset t (set_next (Some n)) s))
  end.
Definition prepended (q n : Z) (l : list Z) s : state W :=
  match l with
  | [] => hset q (Some n) (pset n (set_next None) (hset q (Some n) (tset q (Some n) s)))
  | m :: _ => hset q (Some n) (pset n (set_next (Some m)) s)
  end.

Lemma same_appended s q n l : same s (appended q n l s).
Proof.
  unfold appended. destruct (list.last l) as [t|].
  - etrans; [apply same_link|]. etrans; [apply same_tail|apply same_link].
  - etrans; [apply same_tail|]. etrans; [apply same_head|apply same_link].
Qed.
Lemma same_prepended s q n l : same s (prepended q n l s).
Proof.
  unfold prepended. destruct l as [|m l].
  - etrans; [apply same_tail|]. etrans; [apply same_head|]. etrans; [apply same_link|apply same_head].
  - etrans; [apply same_link|apply same_head].
Qed.

Lemma nxt_set_next s n v m :
  nxt (pset n (set_next v) s) m = if decide (m = n) then (fun _ => v) <$> nxt s m else nxt s m.
Proof.
  unfold nxt. rewrite pget_pset. case_decide; [|done]. by destruct (pget s m).
Qed.

Lemma nxt_appended s q n l m :
  nxt (appended q n l s) m =
    if decide (m = n) then (fun _ => None) <$> nxt s m
    else if decide (list.last l = Some m) then (fun _ => Some n) <$> nxt s m else nxt s m.
Proof.
  unfold appended. destruct (list.last l) as [t|]; rewrite nxt_set_next; case_decide as Hn.
  - change (nxt (tset q (Some n) (pset t (set_next (Some n)) s)) m) with
      (nxt (pset t (set_next (Some n)) s) m).
    rewrite nxt_set_next. case_decide; [|done]. by destruct (nxt s m).
  - change (nxt (tset q (Some n) (pset t (set_next (Some n)) s)) m) with
      (nxt (pset t (set_next (Some n)) s) m).
    rewrite nxt_set_next. repeat case_decide; congruence.
  - done.
  - by rewrite decide_False.
Qed.

Lemma nxt_prepended s q n l m :
  nxt (prepended q n l s) m = if decide (m = n) then (fun _ => head l) <$> nxt s m else nxt s m.
Proof. unfold prepended. destruct l as [|k l]; by rewrite <-nxt_set_next. Qed.

Lemma not_queued_ne s Q q n m : (forall q', queue_nr q' -> n ∉ Q q') -> queue_nr q -> m ∈ Q q -> m <> n.
Proof. intros Hn Hq Hm ->. by apply (Hn q). Qed.

Lemma append_queues s Q q n p :
  queues s Q -> queue_nr q -> pget s n = Some p -> (forall q', queue_nr q' -> n ∉ Q q') ->
  queues (appended q n (Q q) s) (qset q (Q q ++ [n]) Q).
Proof.
  intros Hq Hqn Hp Hnq.
  assert (forall k, list.last (Q q) = Some k -> k ∈ Q q) as Hin.
  { intros k [l' ->]%last_Some. rewrite elem_of_app. right. by left. }
  split.
  - rewrite (same_length _ _ (same_appended s q n (Q q))). apply (q_length _ _ Hq).
  - intros q' Hq'. destruct (q_head _ _ Hq q' Hq') as (h & Hh & Hl).
    assert (rdy_head (appended q n (Q q) s) =
              match list.last (Q q) with None => aupd q (fun _ => Some n) (rdy_head s) | Some _ => rdy_head s end)
      as -> by (unfold appended; by destruct (list.last (Q q))).
    destruct (decide (q' = q)) as [->|Hne].
    + rewrite qset_eq.
      exists (if list.last (Q q) is Some _ then h else Some n). split.
      { destruct (list.last (Q q)); [done|]. by rewrite aget_aupd_eq, Hh. }
      eapply linked_snoc; [exact Hl|by apply Hnq|by apply (q_nodup _ _ Hq)|..].
      * rewrite nxt_appended, decide_True by done. unfold nxt. by rewrite Hp.
      * intros m Hm. rewrite nxt_appended, decide_False, decide_True;
          [|done|by eapply not_queued_ne, Hin].
        destruct (queue_valid _ _ _ _ Hq Hqn (Hin m Hm)) as [pm Hpm]. unfold nxt. by rewrite Hpm.
      * intros m Hm Hl'. by rewrite nxt_appended, !decide_False.
      * intros Hl'. by rewrite Hl'.
      * intros Hl'. by destruct (list.last (Q q)).
    + rewrite qset_ne by done. exists h. split.
      { destruct (list.last (Q q)); [done|]. by rewrite aget_aupd_ne. }
      eapply linked_ext; [|exact Hl]. intros m Hm. rewrite nxt_appended, !decide_False; [done|..].
      * intros Hlast. apply Hne. by apply (q_disjoint _ _ Hq q' q m); [..|apply Hin].
      * by eapply not_queued_ne.
  - intros q' Hq'. pose proof (q_tail _ _ Hq q' Hq') as Ht.
    assert (rdy_tail (appended q n (Q q) s) = aupd q (fun _ => Some n) (rdy_tail s))
      as -> by (unfold appended; by destruct (list.last (Q q))).
    destruct (decide (q' = q)) as [->|Hne].
    + by rewrite qset_eq, aget_aupd_eq, Ht, last_snoc.
    + by rewrite qset_ne, aget_aupd_ne.
  - intros q' Hq'. unfold qset. case_decide; [|by apply (q_nodup _ _ Hq)].
    apply list.NoDup_app. split_and!; [by apply (q_nodup _ _ Hq)| |apply NoDup_singleton].
    intros k Hk Hk'%list_elem_of_singleton. subst k. by apply (Hnq q).
  - intros q1 q2 k Hq1 Hq2.
    assert (forall q', k ∈ qset q (Q q ++ [n]) Q q' -> k ∈ Q q' \/ (k = n /\ q' = q)) as Hk.
    { intros q'. unfold qset. case_decide; [|by left]. subst q'.
      rewrite elem_of_app, list_elem_of_singleton. naive_solver. }
    intros [Hk1|[-> ->]]%Hk [Hk2|[Hkn ->]]%Hk; subst; try done.
    + by apply (q_disjoint _ _ Hq _ _ k).
    + by destruct (Hnq q1 Hq1).
    + by destruct (Hnq q2 Hq2).
Qed.

Lemma prepend_queues s Q q n p :
  queues s Q -> queue_nr q -> pget s n = Some p -> (forall q', queue_nr q' -> n ∉ Q q') ->
  queues (prepended q n (Q q) s) (qset q (n :: Q q) Q).
Proof.
  intros Hq Hqn Hp Hnq. split.
  - rewrite (same_length _ _ (same_prepended s q n (Q q))). apply (q_length _ _ Hq).
  - intros q' Hq'. destruct (q_head _ _ Hq q' Hq') as (h & Hh & Hl).
    assert (aget (rdy_head (prepended q n (Q q) s)) q' = Some (if decide (q' = q) then Some n else h)) as ->.
    { unfold prepended. destruct (Q q) as [|m l]; simpl; rewrite ?aget_aupd; repeat case_decide;
        subst; rewrite ?aget_aupd, ?decide_True, ?Hh by done; try done; congruence. }
    eexists. split; [done|]. unfold qset. case_decide as Hd.
    + subst q'. split; [done|]. exists (head (Q q)). split.
      { rewrite nxt_prepended, decide_True by done. unfold nxt. by rewrite Hp. }
      rewrite (linked_head _ _ _ Hl) in Hl. eapply linked_ext; [|exact Hl].
      intros m Hm. rewrite nxt_prepended, decide_False; [done|by eapply not_queued_ne].
    + eapply linked_ext; [|exact Hl].
      intros m Hm. rewrite nxt_prepended, decide_False; [done|by eapply not_queued_ne].
  - intros q' Hq'. pose proof (q_tail _ _ Hq q' Hq') as Ht. unfold qset.
    case_decide as Hd; unfold prepended; destruct (Q q) as [|m l] eqn:HQ; simpl.
    + subst q'. by rewrite aget_aupd_eq, Ht.
    + subst q'. rewrite Ht, HQ. done.
    + by rewrite aget_aupd_ne.
    + done.
  - intros q' Hq'. unfold qset. case_decide; [|by apply (q_nodup _ _ Hq)].
    apply list.NoDup_cons. split; [by apply Hnq|by apply (q_nodup _ _ Hq)].
  - intros q1 q2 k Hq1 Hq2.
    assert (forall q', k ∈ qset q (n :: Q q) Q q' -> k ∈ Q q' \/ (k = n /\ q' = q)) as Hk.
    { intros q'. unfold qset. case_decide; [|by left]. subst q'.
      rewrite elem_of_cons. naive_solver. }
    intros [Hk1|[-> ->]]%Hk [Hk2|[Hkn ->]]%Hk; subst; try done.
    + by apply (q_disjoint _ _ Hq _ _ k).
    + by destruct (Hnq q1 Hq1).
    + by destruct (Hnq q2 Hq2).
Qed.

(** [enqueue] without the preemption that ends it. *)
Definition preempt (n : Z) : M (state W) unit :=
  s ← get;
  cur ← get_proc (proc_ptr s);
  assert_ (proc_ptr_ok cur);;
  p ← get_proc n;
  if p_priority p <? p_priority cur then
    pr ← get_priv (proc_ptr s);
    if has (s_flags pr) PREEMPTIBLE then RTS_SET (proc_ptr s) RTS_PREEMPTED else mret tt
  else mret tt.

Lemma enqueue_run s Q n p :
  queues s Q -> pget s n = Some p -> p_rts_flags p = 0 -> queue_nr (p_priority p) ->
  (forall q', queue_nr q' -> n ∉ Q q') ->
  enqueue n s = preempt n (appended (p_priority p) n (Q (p_priority p)) s).
Proof.
  intros Hq Hp Hf Hqn Hnq. set (q := p_priority p) in *. unfold enqueue. run_step.
  unfold proc_is_runnable, rts_f_is_runnable. rewrite Hf. cbn [Z.eqb assert_].
  rewrite (bind_ret _ _ _ _ _ (mret_run _ _)). fold q.
  rewrite (proj2 (Z.leb_le 0 q)) by apply Hqn. cbn [assert_].
  rewrite (bind_ret _ _ _ _ _ (mret_run _ _)).
  destruct (q_head _ _ Hq q Hqn) as (h & Hh & Hl). run_step.
  pose proof (q_tail _ _ Hq q Hqn) as Ht. unfold appended.
  pose proof (linked_head _ _ _ Hl) as Hhd.
  destruct (list.last (Q q)) as [t|] eqn:Hlast.
  - assert (exists k, h = Some k) as [k ->].
    { rewrite Hhd. destruct (Q q) as [|k l]; [done|]. by exists k. }
    destruct (queue_valid s Q q t Hq Hqn) as [pt Hpt].
    { apply last_Some in Hlast as [l' ->]. rewrite elem_of_app. right. by left. }
    set (s1 := pset t (set_next (Some n)) s). set (s2 := tset q (Some n) s1).
    assert (exists p2, pget s2 n = Some p2) as [p2 Hp2].
    { change (pget s2 n) with (pget s1 n). unfold s1. rewrite pget_pset, Hp. case_decide; by eexists. }
    apply (bind_ret _ (fun _ => preempt n) tt s (pset n (set_next None) s2)).
    run_step. run_step. run_step.
    rewrite (bind_ret _ _ _ _ _ (set_tail_run s1 q _ (Some n) Ht)).
    by apply (set_proc_run s2 n p2).
  - assert (h = None) as -> by (apply last_None in Hlast; by rewrite Hhd, Hlast).
    set (s1 := tset q (Some n) s). set (s2 := hset q (Some n) s1).
    apply (bind_ret _ (fun _ => preempt n) tt s (pset n (set_next None) s2)).
    rewrite (bind_ret _ _ _ _ _ (set_tail_run s q _ (Some n) Ht)).
    rewrite (bind_ret _ _ _ _ _ (set_head_run s1 q _ (Some n) Hh)).
    by apply (set_proc_run s2 n p).
Qed.

Lemma enqueue_head_run s Q n p :
  queues s Q -> pget s n = Some p -> p_magic p = PMAGIC -> p_rts_flags p = 0 ->
  p_cpu_time_left p <> 0 -> queue_nr (p_priority p) ->
  enqueue_head n s = Ret tt (prepended (p_priority p) n (Q (p_priority p)) s).
Proof.
  intros Hq Hp Hm Hf Ht0 Hqn. set (q := p_priority p) in *. unfold enqueue_head. run_step.
  unfold proc_ptr_ok, proc_is_runnable, rts_f_is_runnable. rewrite Hm, Hf, !Z.eqb_refl.
  rewrite (proj2 (Z.eqb_neq _ _) Ht0). cbn [Z.eqb assert_ negb].
  rewrite !(bind_ret _ _ _ _ _ (mret_run _ _)). fold q.
  rewrite (proj2 (Z.leb_le 0 q)) by apply Hqn. cbn [assert_].
  rewrite (bind_ret _ _ _ _ _ (mret_run _ _)).
  destruct (q_head _ _ Hq q Hqn) as (h & Hh & Hl). run_step.
  pose proof (q_tail _ _ Hq q Hqn) as Ht. unfold prepended.
  pose proof (linked_head _ _ _ Hl) as Hhd.
  destruct (Q q) as [|m l]; simpl in Hhd; subst h.
  - set (s1 := tset q (Some n) s). set (s2 := hset q (Some n) s1).
    assert (aget (rdy_head s2) q = Some (Some n)) as Hh2.
    { change (aget (aupd q (fun _ => Some n) (rdy_head s)) q = Some (Some n)).
      by rewrite aget_aupd_eq, Hh. }
    unfold mbind, M_bind. rewrite (set_tail_run s q _ (Some n) Ht). cbn beta iota. fold s1.
    rewrite (set_head_run s1 q _ (Some n) Hh). cbn beta iota. fold s2.
    change (fun p0 : proc => p0 <| p_nextready := None |>) with (set_next None).
    rewrite (set_proc_run s2 n p _ Hp). cbn beta iota.
    by rewrite (set_head_run (pset n (set_next None) s2) q _ (Some n) Hh2).
  - unfold mbind, M_bind. rewrite (set_proc_run s n p _ Hp). cbn beta iota.
    by rewrite (set_head_run (pset n (set_next (Some m)) s) q _ (Some n) Hh).
Qed.
End enqueue.

(** ** The invariant of the run queues *)
(** The stacks of the kernel tasks do not overflow. *)
Class KernelEnvLaws (W : Type) `{KernelEnv W} : Prop :=
  stack_guard : forall n w, stack_guard_ok n w = true.

Section invariant.
Context `{MinixLaws} `{KernelHeaders} {W : Type} `{KernelEnvLaws W}.
Implicit Types (s : state W) (Q : Z -> list Z).

(** Queue [q] holds, in the order [Q q], exactly the runnable processes of priority [q];
    every process has the magic number, flags of 16 bits and, unless its slot is free, a
    privilege structure. *)
Record rq s Q : Prop := {
  r_queues : queues s Q;
  r_mem q n : queue_nr q ->
    n ∈ Q q <-> exists p, pget s n = Some p /\ p_rts_flags p = 0 /\ p_priority p = q;
  r_prio n p : pget s n = Some p -> p_rts_flags p = 0 -> queue_nr (p_priority p);
  r_magic n p : pget s n = Some p -> p_magic p = PMAGIC;
  r_flags n p : pget s n = Some p -> - 2 ^ 15 <= p_rts_flags p < 2 ^ 15;
  r_priv n p : pget s n = Some p -> p_rts_flags p <> RTS_SLOT_FREE ->
    exists i pr, p_priv p = Some i /\ aget (privs s) i = Some pr;
  r_cur : exists p i pr, pget s (proc_ptr s) = Some p /\ p_priv p = Some i /\
            aget (privs s) i = Some pr;
}.

Lemma view_some s n p : pget s n = Some p -> view s n = Some (strip p).
Proof. unfold view. by intros ->. Qed.

Lemma same_pget s s' n p : same s s' -> pget s n = Some p -> exists p', pget s' n = Some p' /\ strip p' = strip p.
Proof. intros Hs Hp. apply view_pget. rewrite (same_view _ _ Hs). by apply view_some. Qed.

Lemma same_pget_inv s s' n p : same s s' -> pget s' n = Some p -> exists p', pget s n = Some p' /\ strip p = strip p'.
Proof.
  intros Hs Hp. apply view_some in Hp. rewrite (same_view _ _ Hs) in Hp.
  apply view_pget in Hp as (p' & Hp' & Hst). by exists p'.
Qed.

Lemma strip_fields p p' : strip p = strip p' ->
  p_rts_flags p = p_rts_flags p' /\ p_priority p = p_priority p' /\ p_magic p = p_magic p' /\
  p_priv p = p_priv p' /\ p_misc_flags p = p_misc_flags p' /\ p_endpoint p = p_endpoint p' /\
  p_getfrom_e p = p_getfrom_e p' /\ p_sendto_e p = p_sendto_e p'.
Proof. destruct p, p'. unfold strip, upd. simpl. by intros [=]; subst. Qed.

(** The parts of the invariant that do not speak of the queues. *)
Record tables_ok s : Prop := {
  t_prio n p : pget s n = Some p -> p_rts_flags p = 0 -> queue_nr (p_priority p);
  t_magic n p : pget s n = Some p -> p_magic p = PMAGIC;
  t_flags n p : pget s n = Some p -> - 2 ^ 15 <= p_rts_flags p < 2 ^ 15;
  t_priv n p : pget s n = Some p -> p_rts_flags p <> RTS_SLOT_FREE ->
    exists i pr, p_priv p = Some i /\ aget (privs s) i = Some pr;
  t_cur : exists p i pr, pget s (proc_ptr s) = Some p /\ p_priv p = Some i /\
            aget (privs s) i = Some pr;
}.

Lemma rq_tables s Q : rq s Q -> tables_ok s.
Proof. intros []. by split. Qed.

(** A process is in the queues exactly when it is runnable. *)
Definition members s Q : Prop := forall q n, queue_nr q ->
  n ∈ Q q <-> exists p, pget s n = Some p /\ p_rts_flags p = 0 /\ p_priority p = q.

Lemma rq_members s Q : rq s Q -> members s Q.
Proof. intros Hrq. exact (r_mem _ _ Hrq). Qed.

Lemma rq_intro s Q : queues s Q -> members s Q -> tables_ok s -> rq s Q.
Proof. intros ? ? []. by split. Qed.

Lemma tables_same s s' : same s s' -> tables_ok s -> tables_ok s'.
Proof.
  intros Hs [Hprio Hmagic Hflags Hpriv (p & i & pr & Hp & Hi & Hpr)]. split.
  - intros n p0 Hp0 Hf. destruct (same_pget_inv _ _ _ _ Hs Hp0) as (p1 & Hp1 & Hst%strip_fields).
    destruct Hst as (Hfl & -> & _). apply (Hprio n p1 Hp1). congruence.
  - intros n p0 Hp0. destruct (same_pget_inv _ _ _ _ Hs Hp0) as (p1 & Hp1 & Hst%strip_fields).
    destruct Hst as (_ & _ & -> & _). by apply (Hmagic n).
  - intros n p0 Hp0. destruct (same_pget_inv _ _ _ _ Hs Hp0) as (p1 & Hp1 & Hst%strip_fields).
    destruct Hst as (-> & _). by apply (Hflags n).
  - intros n p0 Hp0 Hf. destruct (same_pget_inv _ _ _ _ Hs Hp0) as (p1 & Hp1 & Hst%strip_fields).
    destruct Hst as (Hfl & _ & _ & -> & _). rewrite (same_privs _ _ Hs).
    apply (Hpriv n p1 Hp1). congruence.
  - destruct (same_pget _ _ _ _ Hs Hp) as (p1 & Hp1 & Hst%strip_fields).
    destruct Hst as (_ & _ & _ & Hpv & _).
    exists p1, i, pr. rewrite (same_proc_ptr _ _ Hs), (same_privs _ _ Hs), Hpv. done.
Qed.

Lemma members_same s s' Q : same s s' -> members s Q -> members s' Q.
Proof.
  intros Hs Hm q n Hq. rewrite (Hm q n Hq). split.
  - intros (p & Hp & Hf & Hpr). destruct (same_pget _ _ _ _ Hs Hp) as (p1 & Hp1 & Hst%strip_fields).
    destruct Hst as (Hfl & Hprio & _). exists p1. split_and!; congruence.
  - intros (p & Hp & Hf & Hpr). destruct (same_pget_inv _ _ _ _ Hs Hp) as (p1 & Hp1 & Hst%strip_fields).
    destruct Hst as (Hfl & Hprio & _). exists p1. split_and!; congruence.
Qed.

(** Flags that make a process wait. *)
Definition waits (f : Z) : Prop := exists i, 1 <= i < 16 /\ Z.testbit f i = true.

Lemma waits_set x f : waits f -> s16 (Z.lor x f) <> 0 /\ s16 (Z.lor x f) <> RTS_SLOT_FREE.
Proof.
  intros (i & Hi & Hb). assert (Z.testbit (s16 (Z.lor x f)) i = true) as Ht.
  { rewrite s16_testbit, Z.lor_spec, Hb by lia. by rewrite orb_true_r. }
  split; intros Hz; rewrite Hz in Ht.
  - by rewrite Z.bits_0 in Ht.
  - replace i with (Z.succ (i - 1)) in Ht by lia.
    change RTS_SLOT_FREE with (2 * 0 + 1) in Ht. rewrite Z.testbit_odd_succ in Ht by lia.
    by rewrite Z.bits_0 in Ht.
Qed.

Definition set_flags (f : Z) (p : proc) : proc := p <| p_rts_flags := s16 (Z.lor (p_rts_flags p) f) |>.
Definition clear_flags (f : Z) (p : proc) : proc := p <| p_rts_flags := s16 (Z.ldiff (p_rts_flags p) f) |>.

Lemma set_flags_strip f p : strip (set_flags f p) = set_flags f (strip p).
Proof. done. Qed.

(** Changing the flags of one process. *)
Lemma tables_pset_flags s n p f :
  tables_ok s -> pget s n = Some p ->
  (forall p, p_priv (f p) = p_priv p /\ p_magic (f p) = p_magic p) ->
  - 2 ^ 15 <= p_rts_flags (f p) < 2 ^ 15 ->
  (p_rts_flags (f p) = 0 -> queue_nr (p_priority (f p))) ->
  (p_rts_flags p = RTS_SLOT_FREE -> p_rts_flags (f p) = RTS_SLOT_FREE) ->
  tables_ok (pset n f s).
Proof.
  intros [Hprio Hmagic Hflags Hpriv (pc & i & pr & Hpc & Hi & Hpr)] Hp Hf Hr H0' Hfree. split.
  - intros m q Hq Hz. rewrite pget_pset in Hq. case_decide as Hm; [|by eapply Hprio].
    subst m. rewrite Hp in Hq. injection Hq as <-. by apply H0'.
  - intros m q Hq. rewrite pget_pset in Hq. case_decide as Hm; [|by eapply Hmagic].
    subst m. rewrite Hp in Hq. injection Hq as <-. destruct (Hf p) as [_ ->]. by eapply Hmagic.
  - intros m q Hq. rewrite pget_pset in Hq. case_decide as Hm; [|by eapply Hflags].
    subst m. rewrite Hp in Hq. by injection Hq as <-.
  - intros m q Hq Hz. rewrite pget_pset in Hq. case_decide as Hm; [|by eapply Hpriv].
    subst m. rewrite Hp in Hq. injection Hq as <-. destruct (Hf p) as [-> _].
    apply (Hpriv n p Hp). intros Hfl. by apply Hz, Hfree.
  - destruct (decide (proc_ptr s = n)) as [Hn|Hn].
    + exists (f p), i, pr. rewrite Hn in Hpc. assert (pc = p) as -> by congruence.
      destruct (Hf p) as [Hfp _]. split_and!; [|congruence|done].
      change (pget (pset n f s) (proc_ptr s) = Some (f p)). by rewrite Hn, pget_pset_eq, Hp.
    + exists pc, i, pr. split_and!; [|done..].
      change (pget (pset n f s) (proc_ptr s) = Some pc). by rewrite pget_pset_ne.
Qed.

Definition without (n : Z) Q : Z -> list Z := fun q => filter (fun m => m <> n) (Q q).

Lemma without_absent (n : Z) (l : list Z) : n ∉ l -> filter (fun m => m <> n) l = l.
Proof.
  intros Hn. apply filter_all. apply Forall_forall. intros m Hm%list_elem_of_In ->. done.
Qed.

Lemma without_split (n : Z) (pre post : list Z) :
  NoDup (pre ++ n :: post) -> filter (fun m => m <> n) (pre ++ n :: post) = pre ++ post.
Proof.
  intros (_ & Hn & [Hp _]%list.NoDup_cons)%list.NoDup_app.
  rewrite list.filter_app, filter_cons_False by (intros Hne; by apply Hne).
  rewrite !without_absent; [done|done|]. intros Hin. apply (Hn n Hin). by left.
Qed.

Lemma queues_ext s Q Q' : (forall q, queue_nr q -> Q' q = Q q) -> queues s Q -> queues s Q'.
Proof.
  intros He [Hlen Hh Ht Hnd Hd]. split; [done|..].
  - intros q Hq. rewrite He by done. by apply Hh.
  - intros q Hq. rewrite He by done. by apply Ht.
  - intros q Hq. rewrite He by done. by apply Hnd.
  - intros q q' n Hq Hq'. rewrite !He by done. by apply Hd.
Qed.
End invariant.

(** ** The operations on the invariant *)
Section specs.
Context `{MinixLaws} `{KernelHeaders} {W : Type} `{KernelEnvLaws W}.
Implicit Types (s : state W) (Q : Z -> list Z).
#[local] Hint Resolve get_proc_run set_proc_run : run.

Lemma pget_set_flags s n p f : pget s n = Some p -> pget (pset n (set_flags f) s) n = Some (set_flags f p).
Proof. intros Hp. by rewrite pget_pset_eq, Hp. Qed.

(** Members after the flags of [n] have changed. *)
Lemma members_change s Q Q' n p f :
  members s Q -> pget s n = Some p -> p_priority (f p) = p_priority p ->
  (forall q, queue_nr q -> n ∈ Q' q <-> p_rts_flags (f p) = 0 /\ p_priority p = q) ->
  (forall q m, queue_nr q -> m <> n -> m ∈ Q' q <-> m ∈ Q q) ->
  members (pset n f s) Q'.
Proof.
  intros Hm Hp Hf Hn Hrest q m Hq. rewrite pget_pset. case_decide as Hd.
  - subst m. rewrite (Hn q Hq), Hp. simpl. split.
    + intros [Hz Hpr]. exists (f p). split_and!; congruence.
    + intros (p' & [= <-] & Hz & Hpr). split; congruence.
  - by rewrite (Hrest q m Hq Hd), (Hm q m Hq).
Qed.

(** RTS_SET blocks the process: it leaves its queue, and nothing else changes. *)
Lemma RTS_SET_run s Q n p f :
  rq s Q -> pget s n = Some p -> p_rts_flags p <> RTS_SLOT_FREE -> waits f ->
  exists s', RTS_SET n f s = Ret tt s' /\ same (pset n (set_flags f) s) s' /\ rq s' (without n Q).
Proof.
  intros Hrq Hp Hfree Hw. destruct (waits_set (p_rts_flags p) f Hw) as [Hnz Hnf].
  set (s1 := pset n (set_flags f) s).
  assert (pget s1 n = Some (set_flags f p)) as Hp1 by (by apply pget_set_flags).
  assert (tables_ok s1) as Hok1.
  { apply (tables_pset_flags s n p (set_flags f)); try done.
    - by eapply rq_tables.
    - apply s16_range. }
  assert (members s1 (without n Q)) as Hmem1.
  { apply (members_change s Q _ n p (set_flags f)); try done.
    - by apply rq_members.
    - intros q Hq. unfold without. rewrite list_elem_of_filter. naive_solver.
    - intros q m Hq Hm. unfold without. rewrite list_elem_of_filter. naive_solver. }
  unfold RTS_SET. run_step. run_step. change (pset _ _ _) with s1. run_step.
  unfold proc_is_runnable, rts_f_is_runnable. rewrite (proj2 (Z.eqb_neq (p_rts_flags (set_flags f p)) 0) Hnz).
  rewrite andb_true_r. destruct (Z.eqb_spec (p_rts_flags p) 0) as [Hz|Hz].
  - pose proof (r_prio _ _ Hrq _ _ Hp Hz) as Hqn. set (q := p_priority p) in *.
    assert (n ∈ Q q) as Hin by (apply (r_mem _ _ Hrq); [done|]; by exists p).
    apply list_elem_of_split in Hin as (pre & post & HQ).
    assert (queues s1 Q) as Hq1 by (apply queues_pset; [done|apply (r_queues _ _ Hrq)]).
    exists (unlinked q pre post (p_nextready p) s1). split_and!; [|apply same_unlinked|].
    + apply (dequeue_run s1 Q n (set_flags f p)); try done;
        first [exact (r_magic _ _ Hrq n p Hp)|by intros; apply stack_guard].
    + pose proof (same_unlinked s1 q pre post (p_nextready p)) as Hsame.
      apply rq_intro; [|by eapply members_same|by eapply tables_same].
      eapply queues_ext; [|eapply unlink_queues; [exact Hq1|exact Hqn|exact HQ|]].
      * intros q' Hq'. unfold without, qset. case_decide as Hd.
        -- subst q'. rewrite HQ. apply without_split. rewrite <-HQ. by apply (q_nodup _ _ Hq1).
        -- apply without_absent. intros Hin. apply Hd.
           apply (q_disjoint _ _ Hq1 q' q n); [done..|]. rewrite HQ. apply elem_of_app. right. by left.
      * unfold nxt. by rewrite Hp1.
  - exists s1. split_and!; [done|done|]. apply rq_intro; [|done|done].
    eapply queues_ext; [|apply queues_pset; [done|apply (r_queues _ _ Hrq)]].
    intros q Hq. apply without_absent. intros (p' & Hp' & Hz' & _)%(r_mem _ _ Hrq); [|done].
    congruence.
Qed.

(** The process that loses the processor when [n] is added. *)
Definition preempts s (n : Z) : bool :=
  match pget s (proc_ptr s), pget s n with
  | Some cur, Some p =>
      (p_priority p <? p_priority cur) &&
      match p_priv cur ≫= fun i => aget (privs s) i with
      | Some pr => has (s_flags pr) PREEMPTIBLE
      | None => false
      end
  | _, _ => false
  end.

Lemma get_priv_run s n p i pr :
  pget s n = Some p -> p_priv p = Some i -> aget (privs s) i = Some pr -> get_priv n s = Ret pr s.
Proof.
  intros Hp Hi Hpr. unfold get_priv. run_step. unfold mbind, M_bind, deref, get.
  rewrite Hi. simpl. by rewrite Hpr.
Qed.

Definition preempted s (n : Z) : state W :=
  if preempts s n then pset (proc_ptr s) (set_flags RTS_PREEMPTED) s else s.
Definition queues_after s (n : Z) Q : Z -> list Z :=
  if preempts s n then without (proc_ptr s) Q else Q.

Lemma preempt_run s Q n p :
  rq s Q -> pget s n = Some p ->
  (forall c, pget s (proc_ptr s) = Some c -> p_rts_flags c <> RTS_SLOT_FREE) ->
  exists s', preempt n s = Ret tt s' /\ same (preempted s n) s' /\ rq s' (queues_after s n Q).
Proof.
  intros Hrq Hp Hcur. destruct (r_cur _ _ Hrq) as (c & i & pr & Hc & Hi & Hpr).
  unfold preempt, preempted, queues_after, preempts. rewrite Hc, Hp, Hi. simpl. rewrite Hpr.
  rewrite (bind_ret _ _ _ _ _ (get_run _)). run_step.
  unfold proc_ptr_ok. rewrite (r_magic _ _ Hrq _ _ Hc), Z.eqb_refl. run_step. run_step.
  destruct (p_priority p <? p_priority c); [|by exists s].
  rewrite (bind_ret _ _ _ _ _ (get_priv_run _ _ _ _ _ Hc Hi Hpr)). simpl.
  destruct (has (s_flags pr) PREEMPTIBLE); [|by exists s].
  apply (RTS_SET_run s Q (proc_ptr s) c); [done..|by apply Hcur|]. exists 14. by split; [lia|].
Qed.

(** The queues when [n] was appended. *)
Definition woken s (n : Z) (p : proc) Q : Z -> list Z :=
  qset (p_priority p) (Q (p_priority p) ++ [n]) Q.

Lemma enqueue_spec s Q n p :
  queues s Q -> tables_ok s -> pget s n = Some p -> p_rts_flags p = 0 ->
  (forall q', queue_nr q' -> n ∉ Q q') -> members s (woken s n p Q) ->
  (forall c, pget s (proc_ptr s) = Some c -> p_rts_flags c <> RTS_SLOT_FREE) ->
  exists s', enqueue n s = Ret tt s' /\ same (preempted s n) s' /\
    rq s' (queues_after s n (woken s n p Q)).
Proof.
  intros Hq Hok Hp Hz Hnq Hmem Hcur. pose proof (t_prio _ Hok n p Hp Hz) as Hqn.
  set (q := p_priority p) in *. set (s1 := appended q n (Q q) s).
  pose proof (same_appended s q n (Q q)) as Hs1. fold s1 in Hs1.
  destruct (same_pget _ _ _ _ Hs1 Hp) as (p1 & Hp1 & Hst).
  pose proof (strip_fields _ _ Hst) as (Hfl & Hpr & _).
  assert (rq s1 (woken s n p Q)) as Hrq1.
  { apply rq_intro; [|by eapply members_same|by eapply tables_same].
    by apply (append_queues s Q q n p). }
  assert (preempts s1 n = preempts s n) as Hpre.
  { unfold preempts. rewrite (same_proc_ptr _ _ Hs1), (same_privs _ _ Hs1), Hp, Hp1, Hpr.
    destruct (pget s (proc_ptr s)) as [c|] eqn:Hc.
    - destruct (same_pget _ _ _ _ Hs1 Hc) as (c1 & -> & Hstc).
      pose proof (strip_fields _ _ Hstc) as (_ & -> & _ & -> & _). done.
    - destruct (pget s1 (proc_ptr s)) as [c1|] eqn:Hc1; [|done].
      destruct (same_pget_inv _ _ _ _ Hs1 Hc1) as (? & ? & _). congruence. }
  destruct (preempt_run s1 (woken s n p Q) n p1 Hrq1 Hp1) as (s' & Hrun & Hs' & Hrq').
  { intros c Hc. rewrite (same_proc_ptr _ _ Hs1) in Hc.
    destruct (same_pget_inv _ _ _ _ Hs1 Hc) as (c0 & Hc0 & (Hfc & _)%strip_fields).
    rewrite Hfc. by apply Hcur. }
  exists s'. split_and!.
  - rewrite <-Hrun. by apply (enqueue_run s Q n p).
  - unfold preempted in *. rewrite Hpre, (same_proc_ptr _ _ Hs1) in Hs'.
    etrans; [|exact Hs']. destruct (preempts s n); [|done].
    destruct Hs1 as [Hv Hl Hh Hpv Hpp Hb Hr Hw]. split; try done.
    + intros m. unfold view. rewrite !pget_pset. case_decide as Hm; [|apply (Hv m)].
      specialize (Hv m). unfold view in Hv.
      destruct (pget s1 m) as [x|], (pget s m) as [y|]; [|done..].
      assert (strip x = strip y) as Hxy by exact (inj Some _ _ Hv).
      change (Some (set_flags RTS_PREEMPTED (strip x)) = Some (set_flags RTS_PREEMPTED (strip y))).
      by rewrite Hxy.
    + unfold pset. simpl. by rewrite !length_aupd.
  - unfold queues_after in *. by rewrite Hpre, (same_proc_ptr _ _ Hs1) in Hrq'.
Qed.

Definition wakes (f : Z) (p : proc) : bool :=
  negb (p_rts_flags p =? 0) && (p_rts_flags (clear_flags f p) =? 0).

(** RTS_UNSET unblocks the process: when no other flag is left it joins the tail of its
    queue, and the current process is preempted if it has a lower priority. *)
Lemma RTS_UNSET_run s Q n p f :
  rq s Q -> pget s n = Some p -> p_rts_flags p <> RTS_SLOT_FREE -> Z.testbit f 0 = false ->
  (wakes f p = true -> queue_nr (p_priority p)) ->
  (forall c, pget s (proc_ptr s) = Some c -> p_rts_flags c <> RTS_SLOT_FREE) ->
  (proc_ptr s = n -> p_rts_flags (clear_flags f p) <> RTS_SLOT_FREE) ->
  let s1 := pset n (clear_flags f) s in
  exists s', RTS_UNSET n f s = Ret tt s' /\
    if wakes f p
    then same (preempted s1 n) s' /\ rq s' (queues_after s1 n (woken s1 n p Q))
    else same s1 s' /\ rq s' Q.
Proof.
  intros Hrq Hp Hfree Hf0 Hprio Hcur Hcurn s1.
  assert (pget s1 n = Some (clear_flags f p)) as Hp1 by (unfold s1; by rewrite pget_pset_eq, Hp).
  assert (queues s1 Q) as Hq1 by (apply queues_pset; [done|apply (r_queues _ _ Hrq)]).
  unfold wakes in *. unfold RTS_UNSET. run_step. run_step. change (pset _ _ _) with s1. run_step.
  unfold proc_is_runnable, rts_f_is_runnable.
  assert (p_rts_flags p = 0 -> p_rts_flags (clear_flags f p) = 0) as Hz0.
  { simpl. intros ->. by rewrite Z.ldiff_0_l. }
  assert (tables_ok s1) as Hok1.
  { apply (tables_pset_flags s n p (clear_flags f)); try done.
    - by eapply rq_tables.
    - apply s16_range.
    - intros Hz. change (queue_nr (p_priority p)). destruct (Z.eqb_spec (p_rts_flags p) 0) as [Hz1|Hz1].
      + by eapply (r_prio _ _ Hrq).
      + apply Hprio. by rewrite (proj2 (Z.eqb_eq _ _) Hz). }
  destruct (negb (p_rts_flags p =? 0) && (p_rts_flags (clear_flags f p) =? 0)) eqn:Hw.
  - apply andb_true_iff in Hw as [Hnz Hz]. apply Z.eqb_eq in Hz. apply negb_true_iff, Z.eqb_neq in Hnz.
    specialize (Hprio eq_refl).
    assert (forall q', queue_nr q' -> n ∉ Q q') as Hnq.
    { intros q' Hq' Hin. apply (r_mem _ _ Hrq) in Hin as (p' & Hp' & Hz' & _); [|done]. congruence. }
    apply (enqueue_spec s1 Q n (clear_flags f p)); try done.
    + apply (members_change s Q _ n p (clear_flags f)); try done; [by apply rq_members|..].
      * intros q Hq. unfold woken. change (p_priority (clear_flags f p)) with (p_priority p).
        unfold qset. case_decide as Hd.
        -- subst q. rewrite elem_of_app, list_elem_of_singleton. naive_solver.
        -- split; [by intros ?%Hnq|]. by intros [_ <-].
      * intros q m Hq Hm. unfold woken. change (p_priority (clear_flags f p)) with (p_priority p).
        unfold qset. case_decide as Hd; [|done]. subst q.
        rewrite elem_of_app, list_elem_of_singleton. naive_solver.
    + intros c. change (proc_ptr s1) with (proc_ptr s). unfold s1. rewrite pget_pset.
      case_decide as Hd; [|by apply Hcur]. rewrite Hd, Hp. intros [= <-]. by apply Hcurn.
  - exists s1. split_and!; [done|done|]. apply rq_intro; [done| |done].
    apply (members_change s Q _ n p (clear_flags f)); try done; [by apply rq_members|].
    intros q Hq. rewrite (r_mem _ _ Hrq q n Hq). split.
    + intros (p' & Hp' & Hz & Hpr). assert (p' = p) as -> by congruence. split; [by apply Hz0|done].
    + intros [Hz Hpr]. exists p. split_and!; [done| |done].
      apply andb_false_iff in Hw as [Hw|Hw]; [by apply negb_false_iff, Z.eqb_eq in Hw|].
      apply Z.eqb_neq in Hw. done.
Qed.
End specs.

(** ** [pick_proc], [sched_proc] and the queue checker *)
Section checker.
Context `{MinixHeaders} `{KernelHeaders} {W : Type} `{KernelEnv W}.
Abbreviation cmd := (M (state W)).

Definition MAX_LOOP : Z := NR_PROCS + NR_TASKS.

(** The inner loop of [runqueues_ok] on queue [q]: [l] counts the processes met, [found]
    is the set of those whose [p_found] is set; [None] is [return 0]. *)
Definition check_queue (q l : Z) (found : list Z) : cmd (option (Z * list Z)) :=
  h ← get_head q;
  t ← get_tail q;
  if bool_decide (is_Some h /\ t = None) then mret None else
  if bool_decide (h = None /\ is_Some t) then mret None else
  next ← (match t with Some n => p ← get_proc n; mret (p_nextready p) | None => mret None end);
  if bool_decide (is_Some next) then mret None else
  loop_ (S (S (Z.to_nat MAX_LOOP))) (fun '(xp, l, found) =>
    match xp with
    | None => mret (inr (Some (l, found)))
    | Some n =>
        if (n <? - NR_TASKS) || (NR_PROCS <=? n) then mret (inr None) else
        p ← get_proc n;
        if negb (proc_ptr_ok p) then mret (inr None) else
        if RTS_ISSET p RTS_SLOT_FREE then mret (inr None) else
        if negb (proc_is_runnable p) then mret (inr None) else
        if negb (p_priority p =? q) then mret (inr None) else
        if bool_decide (n ∈ found) then mret (inr None) else
        if bool_decide (p_nextready p = None) && bool_decide (t <> Some n)
        then mret (inr None) else
        if MAX_LOOP <? l then mret (inr None) else
        mret (inl (p_nextready p, l + 1, n :: found))
    end) (h, l, found).

Definition runqueues_ok : cmd bool :=
  r ← fold_ (seqZ 0 NR_SCHED_QUEUES) (Some (0, [])) (fun acc q =>
    match acc with None => mret None | Some (l, found) => check_queue q l found end);
  match r with
  | None => mret false
  | Some (_, found) =>
      bad ← for_ (seqZ (- NR_TASKS) MAX_LOOP) (fun n =>
        xp ← get_proc n;
        if negb (proc_ptr_ok xp) then mret (Some tt) else
        if isemptyp xp then mret None else
        if proc_is_runnable xp && negb (bool_decide (n ∈ found)) then mret (Some tt)
        else mret None);
      mret (bool_decide (bad = None))
  end.
End checker.

Section scheduling.
Context `{MinixLaws} `{KernelHeaders} {W : Type} `{KernelEnvLaws W}.
Implicit Types (s : state W) (Q : Z -> list Z).
#[local] Hint Resolve get_proc_run set_proc_run get_head_run get_tail_run : run.

(** The first process of the first queue in use. *)
Fixpoint first_ready Q (qs : list Z) : option Z :=
  match qs with
  | [] => None
  | q :: qs => match Q q with n :: _ => Some n | [] => first_ready Q qs end
  end.

Lemma for_ret {X R} (l : list X) (body : X -> M (state W) (option R)) s (g : X -> option R) (f : R -> state W) :
  (forall x, x ∈ l -> g x = None -> body x s = Ret None s) ->
  (forall x r, x ∈ l -> g x = Some r -> body x s = Ret (Some r) (f r)) ->
  for_ l body s =
    match list_find (fun x => is_Some (g x)) l with
    | Some (_, x) => match g x with Some r => Ret (Some r) (f r) | None => Ret None s end
    | None => Ret None s
    end.
Proof.
  induction l as [|x l IH]; intros Hnone Hsome; [done|]. cbn [for_ list_find].
  unfold mbind, M_bind. destruct (g x) as [r|] eqn:Hg.
  - rewrite (Hsome x r) by (done || by left). rewrite decide_True by (by exists r). by rewrite Hg.
  - rewrite (Hnone x) by (done || by left). rewrite decide_False by (by intros [? ?]).
    rewrite IH; [|intros y Hy; apply Hnone; by right|intros y r Hy; apply Hsome; by right].
    by destruct (list_find _ l) as [[i y]|].
Qed.

Definition billed s (n : Z) : state W :=
  match pget s n ≫= fun p => p_priv p ≫= fun i => aget (privs s) i with
  | Some pr => if has (s_flags pr) BILLABLE then s <| bill_ptr := n |> else s
  | None => s
  end.

Lemma first_ready_find Q qs :
  first_ready Q qs =
    match list_find (fun q => is_Some (head (Q q))) qs with
    | Some (_, q) => head (Q q)
    | None => None
    end.
Proof.
  induction qs as [|q qs IH]; [done|]. cbn [first_ready list_find].
  destruct (Q q) as [|n l] eqn:HQ.
  - rewrite decide_False by (by intros [? ?]). rewrite IH.
    by destruct (list_find _ qs) as [[i y]|].
  - rewrite decide_True by (by exists n). by rewrite HQ.
Qed.

Lemma pick_proc_run s Q :
  rq s Q ->
  pick_proc s =
    match first_ready Q (seqZ 0 NR_SCHED_QUEUES) with
    | Some n => Ret (Some n) (billed s n)
    | None => Ret None s
    end.
Proof.
  intros Hrq. rewrite first_ready_find. unfold pick_proc. unfold mbind at 1, M_bind at 1.
  assert (forall q, q ∈ seqZ 0 NR_SCHED_QUEUES -> queue_nr q /\
            aget (rdy_head s) q = Some (head (Q q))) as Hh.
  { intros q Hq%elem_of_seqZ. assert (queue_nr q) as Hqn by (unfold queue_nr; lia).
    split; [done|]. destruct (q_head _ _ (r_queues _ _ Hrq) q Hqn) as (h & Hq' & Hl).
    by rewrite Hq', (linked_head _ _ _ Hl). }
  rewrite (for_ret _ _ s (fun q => head (Q q)) (billed s)).
  - destruct (list_find _ _) as [[i q]|]; [|done]. by destruct (head (Q q)).
  - intros q Hq Hn. destruct (Hh q Hq) as [_ Hhd]. run_step. by rewrite Hn.
  - intros q n Hq Hn. destruct (Hh q Hq) as [Hqn Hhd]. run_step. rewrite Hn.
    assert (n ∈ Q q) as Hin by (destruct (Q q); [done|]; injection Hn as ->; by left).
    apply (r_mem _ _ Hrq) in Hin as (p & Hp & Hz & _); [|done].
    destruct (r_priv _ _ Hrq n p Hp) as (i & pr & Hi & Hpr); [by rewrite Hz|].
    run_step. unfold proc_is_runnable, rts_f_is_runnable. rewrite Hz. run_step.
    rewrite (bind_ret _ _ _ _ _ (get_priv_run _ _ _ _ _ Hp Hi Hpr)).
    unfold billed. rewrite Hp. simpl. rewrite Hi. simpl. rewrite Hpr.
    by destruct (has (s_flags pr) BILLABLE).
Qed.

(** *** The checker accepts the invariant *)
Definition all_valid (l : list Z) : Prop := forall n, n ∈ l -> - NR_TASKS <= n < NR_PROCS.

Lemma valid_length l : NoDup l -> all_valid l -> Z.of_nat (length l) <= MAX_LOOP.
Proof.
  intros Hnd Hv. unfold MAX_LOOP. pose proof NR_PROCS_pos. pose proof NR_TASKS_nonneg.
  assert (length l <= length (seqZ (- NR_TASKS) (NR_PROCS + NR_TASKS)))%nat as Hl.
  { apply submseteq_length, NoDup_submseteq; [done|]. intros n Hn%Hv. apply elem_of_seqZ. lia. }
  rewrite length_seqZ in Hl. lia.
Qed.

Lemma queue_all_valid s Q q : rq s Q -> queue_nr q -> all_valid (Q q).
Proof.
  intros Hrq Hq n Hn. destruct (queue_valid _ _ _ _ (r_queues _ _ Hrq) Hq Hn) as [p Hp].
  by eapply pget_range; [apply (q_length _ _ (r_queues _ _ Hrq))|].
Qed.

(** What the checker tests of a process in queue [q]. *)
Lemma queue_member s Q q pre n post :
  rq s Q -> queue_nr q -> Q q = pre ++ n :: post ->
  exists p, pget s n = Some p /\ p_magic p = PMAGIC /\ p_rts_flags p = 0 /\ p_priority p = q /\
    p_nextready p = head post.
Proof.
  intros Hrq Hq HQ. assert (n ∈ Q q) as Hin by (rewrite HQ; apply elem_of_app; right; by left).
  apply (r_mem _ _ Hrq) in Hin as (p & Hp & Hz & Hpr); [|done]. exists p.
  split_and!; [done|by eapply (r_magic _ _ Hrq)|done|done|].
  destruct (q_head _ _ (r_queues _ _ Hrq) q Hq) as (h & _ & Hl). rewrite HQ in Hl.
  apply linked_split in Hl as (_ & h' & Hn & Hl). apply linked_head in Hl as <-.
  unfold nxt in Hn. rewrite Hp in Hn. simpl in Hn. congruence.
Qed.

Definition check_body (q : Z) (t : option Z) '((xp, l, found) : option Z * Z * list Z) :
    M (state W) (option Z * Z * list Z + option (Z * list Z)) :=
  match xp with
  | None => mret (inr (Some (l, found)))
  | Some n =>
      if (n <? - NR_TASKS) || (NR_PROCS <=? n) then mret (inr None) else
      p ← get_proc n;
      if negb (proc_ptr_ok p) then mret (inr None) else
      if RTS_ISSET p RTS_SLOT_FREE then mret (inr None) else
      if negb (proc_is_runnable p) then mret (inr None) else
      if negb (p_priority p =? q) then mret (inr None) else
      if bool_decide (n ∈ found) then mret (inr None) else
      if bool_decide (p_nextready p = None) && bool_decide (t <> Some n)
      then mret (inr None) else
      if MAX_LOOP <? l then mret (inr None) else
      mret (inl (p_nextready p, l + 1, n :: found))
  end.

Lemma check_step_run s Q q pre n post l found :
  rq s Q -> queue_nr q -> Q q = pre ++ n :: post -> n ∉ found -> l <= MAX_LOOP ->
  check_body q (list.last (Q q)) (Some n, l, found) s = Ret (inl (head post, l + 1, n :: found)) s.
Proof.
  intros Hrq Hq HQ Hn Hl.
  destruct (queue_member s Q q pre n post Hrq Hq HQ) as (p & Hp & Hm & Hz & Hpr & Hnext).
  pose proof (pget_range _ _ _ (q_length _ _ (r_queues _ _ Hrq)) Hp) as Hr.
  unfold check_body. rewrite (proj2 (Z.ltb_ge _ _)), (proj2 (Z.leb_gt _ _)) by lia.
  cbn beta iota delta [orb]. run_step.
  unfold proc_ptr_ok, RTS_ISSET, proc_is_runnable, rts_f_is_runnable. rewrite Hm, Hz, Hpr, !Z.eqb_refl.
  cbn [negb Z.land Z.eqb RTS_SLOT_FREE].
  rewrite (bool_decide_false _ Hn), Hnext, (proj2 (Z.ltb_ge _ _)) by lia.
  destruct post as [|m post]; [|done].
  rewrite (bool_decide_false (list.last (Q q) <> Some n)); [done|].
  intros Hne. apply Hne. by rewrite HQ, last_snoc.
Qed.

Lemma check_loop_run s Q q l found post :
  rq s Q -> queue_nr q -> NoDup (found ++ Q q) -> all_valid found -> Z.of_nat (length found) = l ->
  forall pre fuel, Q q = pre ++ post -> (length post < fuel)%nat ->
  loop_ fuel (check_body q (list.last (Q q)))
    (head post, l + Z.of_nat (length pre), rev pre ++ found) s =
  Ret (Some (l + Z.of_nat (length (Q q)), rev (Q q) ++ found)) s.
Proof.
  intros Hrq Hq Hnd Hv Hl. induction post as [|n post IH]; intros pre fuel HQ Hf;
    (destruct fuel as [|fuel]; [simpl in Hf; lia|]); cbn [loop_ head].
  - unfold mbind, M_bind. rewrite app_nil_r in HQ. by rewrite <-HQ.
  - assert (all_valid (found ++ Q q)) as Hvall.
    { intros m [Hm|Hm]%elem_of_app; [by apply Hv|by eapply (queue_all_valid s Q q)]. }
    pose proof (valid_length _ Hnd Hvall) as Hlen. rewrite HQ, !length_app in Hlen. simpl in Hlen.
    unfold mbind, M_bind.
    rewrite (check_step_run s Q q pre n post); [..|lia]; try done.
    + specialize (IH (pre ++ [n]) fuel). rewrite <-app_assoc in IH.
      specialize (IH HQ ltac:(simpl in Hf; lia)). rewrite <-IH, length_app, rev_app_distr.
      simpl. do 2 f_equal. f_equal. lia.
    + rewrite HQ in Hnd. apply list.NoDup_app in Hnd as (_ & Hnf & (_ & Hnp & _)%list.NoDup_app).
      rewrite elem_of_app, list_elem_of_In, <-in_rev, <-list_elem_of_In. intros [Hn|Hn].
      * by apply (Hnp n Hn), list.elem_of_cons; left.
      * apply (Hnf n Hn), elem_of_app. right. by left.
Qed.

Lemma check_queue_run s Q q l found :
  rq s Q -> queue_nr q -> NoDup (found ++ Q q) -> all_valid found -> Z.of_nat (length found) = l ->
  check_queue q l found s = Ret (Some (l + Z.of_nat (length (Q q)), rev (Q q) ++ found)) s.
Proof.
  intros Hrq Hq Hnd Hv Hl. pose proof (r_queues _ _ Hrq) as Hqs.
  destruct (q_head _ _ Hqs q Hq) as (h & Hh & Hlk). apply linked_head in Hlk as ->.
  pose proof (q_tail _ _ Hqs q Hq) as Ht. unfold check_queue. do 2 run_step.
  assert (Hl1 : forall l, @head Z l = None <-> list.last l = None).
  { intros l0. rewrite head_None, last_None. done. }
  rewrite bool_decide_false by (rewrite <-Hl1; intros [[? Hs] Hn]; by rewrite Hn in Hs).
  rewrite bool_decide_false by (rewrite Hl1; intros [Hn [? Hs]]; by rewrite Hn in Hs).
  assert ((match list.last (Q q) with Some n => p ← get_proc n; mret (p_nextready p) | None => mret None end)
            s = Ret None s) as Hnext.
  { destruct (list.last (Q q)) as [n|] eqn:Hlast; [|done].
    apply last_Some in Hlast as [pre HQ].
    destruct (queue_member s Q q pre n [] Hrq Hq HQ) as (p & Hp & _ & _ & _ & Hn).
    run_step. by rewrite Hn. }
  rewrite (bind_ret _ _ _ _ _ Hnext), bool_decide_false by (by intros [? ?]).
  pose proof (check_loop_run s Q q l found (Q q) Hrq Hq Hnd Hv Hl []
                (S (S (Z.to_nat MAX_LOOP))) eq_refl) as Hloop.
  simpl in Hloop. rewrite Z.add_0_r in Hloop. apply Hloop.
  assert (Z.of_nat (length (Q q)) <= MAX_LOOP); [|lia].
  apply valid_length; [by apply (q_nodup _ _ Hqs)|by eapply (queue_all_valid s)].
Qed.

(** What [found] holds after the queues before [q]. *)
Definition found_upto Q (q : Z) (found : list Z) : Prop :=
  NoDup found /\ all_valid found /\
  forall n, n ∈ found <-> exists q', queue_nr q' /\ q' < q /\ n ∈ Q q'.

Lemma found_step s Q q found :
  rq s Q -> queue_nr q -> found_upto Q q found ->
  NoDup (found ++ Q q) /\ found_upto Q (q + 1) (rev (Q q) ++ found).
Proof.
  intros Hrq Hq (Hnd & Hv & Hf). pose proof (r_queues _ _ Hrq) as Hqs.
  pose proof (q_nodup _ _ Hqs q Hq) as Hnq.
  assert (forall n, n ∈ found -> n ∉ Q q) as Hdis.
  { intros n (q' & Hq' & Hlt & Hn)%Hf Hn'.
    pose proof (q_disjoint _ _ Hqs q' q n Hq' Hq Hn Hn'). lia. }
  assert (forall n, n ∈ rev (Q q) <-> n ∈ Q q) as Hrev.
  { intros n. by rewrite !list_elem_of_In, <-in_rev. }
  split; [by apply list.NoDup_app|]. split_and!.
  - apply list.NoDup_app. split_and!; [|intros n; rewrite Hrev; naive_solver|done].
    apply NoDup_ListNoDup, NoDup_rev. by apply NoDup_ListNoDup.
  - intros n. rewrite elem_of_app, Hrev. intros [Hn|Hn]; [|by apply Hv].
    by apply (queue_all_valid s Q q).
  - intros n. rewrite elem_of_app, Hrev, Hf. split.
    + intros [Hn|(q' & ? & ? & ?)]; [exists q; split_and!; [done|lia|done]|].
      exists q'. split_and!; [done|lia|done].
    + intros (q' & Hq' & Hlt & Hn). destruct (decide (q' = q)) as [->|]; [by left|right].
      exists q'. split_and!; [done|lia|done].
Qed.

Lemma runqueues_ok_run s Q : rq s Q -> runqueues_ok s = Ret true s.
Proof.
  intros Hrq. unfold runqueues_ok.
  edestruct (wp_never_run (fold_ (seqZ 0 NR_SCHED_QUEUES) (Some (0, [])) (fun acc q =>
      match acc with None => mret None | Some (l, found) => check_queue q l found end))
      (fun r s' => s' = s /\ exists found, r = Some (Z.of_nat (length found), found) /\
         found_upto Q NR_SCHED_QUEUES found) s) as (r & s' & Hrun & -> & found & -> & Hf).
  { apply wp_fold with (I := fun pre acc s' => s' = s /\ exists found,
      acc = Some (Z.of_nat (length found), found) /\ found_upto Q (Z.of_nat (length pre)) found).
    - split; [done|]. exists []. split; [done|]. split_and!; [constructor|by intros n ?%elem_of_nil|].
      intros n. split; [by intros ?%elem_of_nil|]. intros (q' & Hq' & Hlt & _). destruct Hq'. simpl in Hlt. lia.
    - intros pre q post acc s' [-> Hq]%seqZ_visit (-> & found & -> & Hf).
      destruct (found_step s Q (Z.of_nat (length pre)) found Hrq Hq Hf) as [Hnd Hf'].
      eapply wp_ret_run; [by apply (check_queue_run s Q); try apply Hf|]. split; [done|].
      exists (rev (Q (Z.of_nat (length pre))) ++ found). split.
      + do 2 f_equal. rewrite length_app, length_rev. lia.
      + rewrite length_app. simpl. by rewrite Nat2Z.inj_add.
    - intros acc s' (-> & found & -> & Hf). rewrite length_seqZ in Hf. split; [done|].
      exists found. split; [done|]. by rewrite Z2Nat.id in Hf. }
  rewrite (bind_ret _ _ _ _ _ Hrun). unfold mbind at 1, M_bind at 1.
  rewrite (for_ret _ _ s (fun _ => None) (fun _ => s)).
  - assert (list_find (fun _ : Z => is_Some (@None unit)) (seqZ (- NR_TASKS) MAX_LOOP) = None) as ->; [|done].
    apply list_find_None, Forall_true. by intros n [? ?].
  - intros n Hn%elem_of_seqZ _.
    destruct (aget_is_Some (procs s) (proc_addr n)) as [p Hp].
    { rewrite (q_length _ _ (r_queues _ _ Hrq)). unfold proc_addr, MAX_LOOP in *. lia. }
    rewrite (bind_ret _ _ _ _ _ (get_proc_run s n p Hp)). unfold proc_ptr_ok.
    rewrite (r_magic _ _ Hrq n p Hp), Z.eqb_refl. cbn [negb]. destruct (isemptyp p); [done|].
    unfold proc_is_runnable, rts_f_is_runnable. destruct (Z.eqb_spec (p_rts_flags p) 0) as [Hz|]; [|done].
    pose proof (r_prio _ _ Hrq n p Hp Hz) as Hqn.
    rewrite bool_decide_true; [done|]. apply Hf. exists (p_priority p). split_and!; [done|apply Hqn|].
    apply (r_mem _ _ Hrq); [done|]. by exists p.
  - done.
Qed.
End scheduling.

(** ** Rescheduling and the properties *)
Section claims.
Context `{MinixLaws} `{KernelHeaders} {W : Type} `{KernelEnvLaws W}.
Implicit Types (s : state W) (Q : Z -> list Z).
#[local] Hint Resolve get_proc_run set_proc_run get_head_run get_tail_run : run.

(** Changing a process in ways the run queues do not depend on. *)
Record neutral (f : proc -> proc) : Prop := {
  n_flags p : p_rts_flags (f p) = p_rts_flags p;
  n_magic p : p_magic (f p) = p_magic p;
  n_priv p : p_priv (f p) = p_priv p;
  n_next p : p_nextready (f p) = p_nextready p;
}.

Lemma rq_pset s Q n p f :
  rq s Q -> neutral f -> pget s n = Some p ->
  (p_rts_flags p = 0 -> p_priority (f p) = p_priority p) -> rq (pset n f s) Q.
Proof.
  intros Hrq [Hf Hm Hpv Hnx] Hp Hprio. apply rq_intro.
  - apply queues_pset; [done|apply (r_queues _ _ Hrq)].
  - intros q m Hq. rewrite (r_mem _ _ Hrq q m Hq), pget_pset. case_decide as Hd; [|done].
    subst m. rewrite Hp. simpl. split.
    + intros (p' & [= <-] & Hz & Hpr). exists (f p). split_and!; [done|by rewrite Hf|by rewrite Hprio].
    + intros (p' & [= <-] & Hz & Hpr). rewrite Hf in Hz. exists p. split_and!; [done..|].
      by rewrite <-Hprio.
  - apply (tables_pset_flags s n p f); [by eapply rq_tables|done|by intros; split|..]; rewrite ?Hf.
    + by eapply (r_flags _ _ Hrq).
    + intros Hz. rewrite Hprio by done. by eapply (r_prio _ _ Hrq).
    + done.
Qed.

Lemma rescheduled_neutral pr q t :
  neutral (fun p => p <| p_priority := pr |> <| p_quantum_size_ms := q |> <| p_cpu_time_left := t |>).
Proof. by split. Qed.

(** The process is waiting for a new quantum, or is running. *)
Definition schedulable (p : proc) : bool :=
  (p_rts_flags p =? 0) || (p_rts_flags p =? s16 RTS_NO_QUANTUM).

(** The process with its new priority and quantum. *)
Definition rescheduled (priority quantum : Z) (p : proc) : proc :=
  p <| p_priority := priority |> <| p_quantum_size_ms := quantum |>
    <| p_cpu_time_left := ms_2_cpu_time quantum |>.

Lemma rescheduled_flags pr q p : p_rts_flags (rescheduled pr q p) = p_rts_flags p.
Proof. done. Qed.

(** The first half of [sched_proc]: the process is taken off its queue and gets its new
    priority and quantum. *)
Lemma sched_proc_half s Q n p priority quantum :
  rq s Q -> pget s n = Some p -> p_rts_flags p <> RTS_SLOT_FREE ->
  0 <= priority <= NR_SCHED_QUEUES -> 0 < quantum < 2 ^ 32 ->
  exists s1 p1,
    sched_proc n priority quantum s = (RTS_UNSET n RTS_NO_QUANTUM;; mret OK) s1 /\
    rq s1 (without n Q) /\ pget s1 n = Some p1 /\
    strip p1 = strip (rescheduled priority quantum
                        (if p_rts_flags p =? 0 then set_flags RTS_NO_QUANTUM p else p)) /\
    proc_ptr s1 = proc_ptr s /\ (forall m, m <> n -> view s1 m = view s m) /\
    length (rdy_head s1) = length (rdy_head s).
Proof.
  intros Hrq Hp Hfree Hpr Hq.
  assert (waits RTS_NO_QUANTUM) as Hw by (exists 15; by split; [lia|]).
  assert (exists s0 p0,
    (if proc_is_runnable p then RTS_SET n RTS_NO_QUANTUM else mret tt) s = Ret tt s0 /\
    rq s0 (without n Q) /\ pget s0 n = Some p0 /\ p_rts_flags p0 <> 0 /\
    strip p0 = strip (if p_rts_flags p =? 0 then set_flags RTS_NO_QUANTUM p else p) /\
    proc_ptr s0 = proc_ptr s /\ (forall m, m <> n -> view s0 m = view s m) /\
    length (rdy_head s0) = length (rdy_head s)) as
    (s0 & p0 & Hrun & Hrq0 & Hp0 & Hnz & Hst & Hcp & Hv & Hlen).
  { unfold proc_is_runnable, rts_f_is_runnable. destruct (Z.eqb_spec (p_rts_flags p) 0) as [Hz|Hz].
    - destruct (RTS_SET_run s Q n p RTS_NO_QUANTUM Hrq Hp Hfree Hw) as (s0 & Hrun & Hs & Hrq0).
      destruct (same_pget _ _ _ _ Hs (pget_set_flags s n p RTS_NO_QUANTUM Hp)) as (p0 & Hp0 & Hst).
      exists s0, p0. split_and!; [done|done|done| |done|by apply (same_proc_ptr _ _ Hs)| |by apply (same_heads _ _ Hs)].
      + destruct (strip_fields _ _ Hst) as [-> _]. by apply waits_set.
      + intros m Hm. rewrite (same_view _ _ Hs). unfold view. by rewrite pget_pset_ne.
    - exists s, p. split_and!; try done. destruct Hrq. apply rq_intro; [|intros q m Hqn|by split].
      + eapply queues_ext; [|done]. intros q Hqn. apply without_absent.
        intros (p' & Hp' & Hz' & _)%r_mem0; [|done]. congruence.
      + unfold without. rewrite without_absent; [by apply r_mem0|].
        intros (p' & Hp' & Hz' & _)%r_mem0; [|done]. congruence. }
  set (f := fun p => p <| p_priority := priority |> <| p_quantum_size_ms := quantum |>
                       <| p_cpu_time_left := ms_2_cpu_time quantum |>).
  exists (pset n f s0), (f p0). split_and!.
  - unfold sched_proc. rewrite !u32_small by (unfold NR_SCHED_QUEUES in *; lia).
    unfold TASK_Q. rewrite (proj2 (Z.ltb_ge priority 0)), (proj2 (Z.ltb_ge NR_SCHED_QUEUES priority)),
      (proj2 (Z.leb_gt quantum 0)) by lia. cbn [orb]. run_step.
    rewrite (bind_ret _ _ _ _ _ Hrun). by run_step.
  - by apply (rq_pset s0 _ n p0); [|apply rescheduled_neutral|..].
  - by rewrite pget_pset_eq, Hp0.
  - change (f (strip p0) = rescheduled priority quantum
              (strip (if p_rts_flags p =? 0 then set_flags RTS_NO_QUANTUM p else p))).
    by rewrite Hst.
  - done.
  - intros m Hm. unfold view. rewrite pget_pset_ne by done. by apply Hv.
  - done.
Qed.

Lemma rescheduled_wakes p :
  - 2 ^ 15 <= p_rts_flags p < 2 ^ 15 ->
  wakes RTS_NO_QUANTUM (if p_rts_flags p =? 0 then set_flags RTS_NO_QUANTUM p else p) = schedulable p.
Proof.
  intros Hr. unfold schedulable, wakes. destruct (Z.eqb_spec (p_rts_flags p) 0) as [Hz|Hz].
  - simpl. by rewrite Hz.
  - simpl. rewrite (proj2 (Z.eqb_neq _ _) Hz). simpl.
    apply eq_iff_eq_true. rewrite !Z.eqb_eq. split; [|by intros ->].
    intros Hclear%s16_zero. assert (p_rts_flags p mod 2 ^ 15 = 0) as Hmod.
    { apply Z.bits_inj'. intros i Hi. rewrite Z.bits_0. destruct (decide (i < 15)).
      - rewrite Z.mod_pow2_bits_low by lia.
        assert (Z.testbit (Z.ldiff (p_rts_flags p) RTS_NO_QUANTUM mod 2 ^ 16) i = false) as Hb
          by by rewrite Hclear, Z.bits_0.
        rewrite Z.mod_pow2_bits_low, Z.ldiff_spec in Hb by lia.
        change RTS_NO_QUANTUM with (2 ^ 15) in Hb. rewrite Z.pow2_bits_false in Hb by lia.
        by rewrite andb_true_r in Hb.
      - apply Z.mod_pow2_bits_high. lia. }
    change (s16 RTS_NO_QUANTUM) with (- 2 ^ 15). clear -Hr Hz Hmod.
    apply Z.mod_divide in Hmod as [k Hk]; [|lia]. rewrite Hk in *. lia.
Qed.

(** C13: RTS_SET refines the removal of the process from its queue: the process leaves the
    queue it was in, the order of every queue is kept, and nothing but its flags changes. *)
Theorem RTS_SET_spec s Q n p f :
  rq s Q -> pget s n = Some p -> p_rts_flags p <> RTS_SLOT_FREE -> waits f ->
  wp (RTS_SET n f) (fun _ s' => rq s' (without n Q) /\ same (pset n (set_flags f) s) s') never s.
Proof.
  intros Hrq Hp Hfree Hw. destruct (RTS_SET_run s Q n p f Hrq Hp Hfree Hw) as (s' & Hrun & Hs & Hrq').
  by eapply wp_ret_run.
Qed.

(** C22: RTS_UNSET refines the appending of the process to the queue of its priority when
    no flag is left, and leaves the queues alone otherwise; when the process added has a
    higher priority than the current one and that is preemptible, the current process
    leaves its queue. *)
Theorem RTS_UNSET_spec s Q n p f :
  rq s Q -> pget s n = Some p -> p_rts_flags p <> RTS_SLOT_FREE -> Z.testbit f 0 = false ->
  queue_nr (p_priority p) -> proc_ptr s <> n ->
  (forall c, pget s (proc_ptr s) = Some c -> p_rts_flags c <> RTS_SLOT_FREE) ->
  let s1 := pset n (clear_flags f) s in
  wp (RTS_UNSET n f)
    (fun _ s' =>
       if wakes f p
       then rq s' (queues_after s1 n (qset (p_priority p) (Q (p_priority p) ++ [n]) Q)) /\
            same (preempted s1 n) s'
       else rq s' Q /\ same s1 s') never s.
Proof.
  intros Hrq Hp Hfree Hf Hprio Hne Hcur s1.
  destruct (RTS_UNSET_run s Q n p f Hrq Hp Hfree Hf (fun _ => Hprio) Hcur (fun Heq => match Hne Heq with end))
    as (s' & Hrun & Hs). eapply wp_ret_run; [exact Hrun|].
  destruct (wakes f p); destruct Hs as [Hs Hrq']; by split.
Qed.

(** Pick_proc returns the process at the head of the first queue in use: a runnable
    process such that no runnable process has a smaller priority number; it returns NULL
    only when no process is runnable. *)
Theorem pick_proc_spec s Q :
  rq s Q ->
  wp pick_proc
    (fun r s' =>
       match r with
       | Some n => s' = billed s n /\ exists p, pget s n = Some p /\ p_rts_flags p = 0 /\
           head (Q (p_priority p)) = Some n /\
           forall m q, pget s m = Some q -> p_rts_flags q = 0 -> p_priority p <= p_priority q
       | None => s' = s /\ forall m q, pget s m = Some q -> p_rts_flags q <> 0
       end) never s.
Proof.
  intros Hrq. unfold wp. rewrite (pick_proc_run s Q Hrq), first_ready_find.
  assert (forall m q, pget s m = Some q -> p_rts_flags q = 0 -> m ∈ Q (p_priority q)) as Hmem.
  { intros m q Hm Hz. apply (r_mem _ _ Hrq); [by eapply (r_prio _ _ Hrq)|by exists q]. }
  destruct (list_find _ _) as [[i q]|] eqn:Hfind.
  - apply list_find_Some in Hfind as (Hi & [n Hn] & Hmin). rewrite Hn. split; [done|].
    apply lookup_seqZ in Hi as [-> Hi].
    assert (queue_nr (0 + Z.of_nat i)) as Hqn by (unfold queue_nr; lia).
    assert (n ∈ Q (0 + Z.of_nat i)) as Hin
      by (destruct (Q (0 + Z.of_nat i)); [done|]; injection Hn as ->; by left).
    apply (r_mem _ _ Hrq) in Hin as (p & Hp & Hz & Hpr); [|done]. exists p.
    rewrite Hpr. split_and!; [done..|]. intros m q Hm Hqz.
    pose proof (r_prio _ _ Hrq _ _ Hm Hqz) as Hqq. destruct (decide (p_priority q < Z.of_nat i)); [|lia].
    destruct (Hmin (Z.to_nat (p_priority q)) (p_priority q)) as [].
    + apply lookup_seqZ. unfold queue_nr in Hqq. lia.
    + unfold queue_nr in Hqq. lia.
    + specialize (Hmem m q Hm Hqz). destruct (Q (p_priority q)) as [|k ks]; [by apply elem_of_nil in Hmem|].
      by exists k.
  - split; [done|]. intros m q Hm Hz. apply list_find_None in Hfind.
    rewrite Forall_forall in Hfind. pose proof (r_prio _ _ Hrq _ _ Hm Hz) as Hqq.
    apply (Hfind (p_priority q)); [apply list_elem_of_In, elem_of_seqZ; unfold queue_nr in Hqq; lia|].
    specialize (Hmem m q Hm Hz). destruct (Q (p_priority q)) as [|k ks]; [by apply elem_of_nil in Hmem|].
    by exists k.
Qed.

(** The checker of debug.c accepts every state in which the invariant holds. *)
Theorem runqueues_ok_accepts s Q : rq s Q -> runqueues_ok s = Ret true s.
Proof. apply runqueues_ok_run. Qed.

Lemma enqueue_no_queue s n p :
  pget s n = Some p -> p_rts_flags p = 0 -> Z.of_nat (length (rdy_head s)) <= p_priority p ->
  0 <= p_priority p -> enqueue n s = Halt Undef s.
Proof.
  intros Hp Hz Hl Hge. unfold enqueue. run_step. unfold proc_is_runnable, rts_f_is_runnable.
  rewrite Hz. cbn [Z.eqb assert_]. rewrite (bind_ret _ _ _ _ _ (mret_run _ _)).
  rewrite (proj2 (Z.leb_le _ _) Hge). cbn [assert_]. rewrite (bind_ret _ _ _ _ _ (mret_run _ _)).
  assert (get_head (p_priority p) s = Halt Undef s) as Hh; [|by rewrite (bind_halt _ _ _ _ _ Hh)].
  unfold get_head, mbind, M_bind, get. destruct (aget (rdy_head s) (p_priority p)) as [h|] eqn:Ha; [|done].
  apply aget_range in Ha. lia.
Qed.

Lemma wakes_flags f p p' : p_rts_flags p = p_rts_flags p' -> wakes f p = wakes f p'.
Proof. unfold wakes, clear_flags, upd. cbn. by intros ->. Qed.

Lemma strip_sched_fields p p' : strip p = strip p' ->
  p_priority p = p_priority p' /\ p_quantum_size_ms p = p_quantum_size_ms p' /\
  p_cpu_time_left p = p_cpu_time_left p'.
Proof. destruct p, p'. unfold strip, upd. cbn. by intros [=]; subst. Qed.

Lemma without_last (c n : Z) (l : list Z) : c <> n -> list.last (filter (fun m => m <> c) (l ++ [n])) = Some n.
Proof. intros Hne. rewrite list.filter_app, filter_cons_True, filter_nil by congruence. apply last_snoc. Qed.

(** The second half of [sched_proc], on a process that has the flag. *)
Lemma sched_proc_wake s1 Q n p1 :
  rq s1 Q -> pget s1 n = Some p1 -> p_rts_flags p1 <> RTS_SLOT_FREE -> proc_ptr s1 <> n ->
  (forall c, pget s1 (proc_ptr s1) = Some c -> p_rts_flags c <> RTS_SLOT_FREE) ->
  queue_nr (p_priority p1) ->
  exists s', RTS_UNSET n RTS_NO_QUANTUM s1 = Ret tt s' /\
    view s' n = Some (strip (clear_flags RTS_NO_QUANTUM p1)) /\
    exists Q', rq s' Q' /\
    (wakes RTS_NO_QUANTUM p1 = true -> list.last (Q' (p_priority p1)) = Some n).
Proof.
  intros Hrq Hp Hfree Hne Hcur Hprio.
  destruct (RTS_UNSET_run s1 Q n p1 RTS_NO_QUANTUM Hrq Hp Hfree eq_refl (fun _ => Hprio) Hcur
    (fun Heq => match Hne Heq with end)) as (s' & Hrun & Hs).
  exists s'. split; [done|].
  assert (view (pset n (clear_flags RTS_NO_QUANTUM) s1) n = Some (strip (clear_flags RTS_NO_QUANTUM p1))) as Hview.
  { apply view_some. by rewrite pget_pset_eq, Hp. }
  destruct (wakes RTS_NO_QUANTUM p1); destruct Hs as [Hs Hrq']; split.
  - rewrite (same_view _ _ Hs). unfold preempted. destruct (preempts _ _); [|done].
    unfold view. rewrite pget_pset_ne by done. exact Hview.
  - eexists. split; [exact Hrq'|]. intros _. unfold queues_after, woken. destruct (preempts _ _).
    + unfold without. rewrite qset_eq. by apply without_last.
    + by rewrite qset_eq, last_snoc.
  - by rewrite (same_view _ _ Hs).
  - by exists Q.
Qed.

(** Sched_proc refuses a priority above NR_SCHED_QUEUES or a zero quantum and changes
    nothing; with a priority below NR_SCHED_QUEUES it gives the process the priority and
    the quantum, keeps the queues consistent and, if the process runs or waits for a
    quantum, makes it the last of its new queue; the priority NR_SCHED_QUEUES itself
    passes the test and makes the kernel index rdy_head outside its bounds. *)
Theorem sched_proc_spec s Q n p priority quantum :
  rq s Q -> pget s n = Some p -> p_rts_flags p <> RTS_SLOT_FREE -> proc_ptr s <> n ->
  (forall c, pget s (proc_ptr s) = Some c -> p_rts_flags c <> RTS_SLOT_FREE) ->
  0 <= priority < 2 ^ 32 -> 0 <= quantum < 2 ^ 32 ->
  length (rdy_head s) = Z.to_nat NR_SCHED_QUEUES ->
  (NR_SCHED_QUEUES < priority \/ quantum = 0 -> sched_proc n priority quantum s = Ret EINVAL s) /\
  (priority < NR_SCHED_QUEUES -> 0 < quantum -> queue_nr (p_priority p) ->
   wp (sched_proc n priority quantum)
     (fun r s' => r = OK /\ exists Q' p', rq s' Q' /\ pget s' n = Some p' /\
        p_priority p' = priority /\ p_quantum_size_ms p' = quantum /\
        p_cpu_time_left p' = ms_2_cpu_time quantum /\
        (schedulable p = true -> list.last (Q' priority) = Some n)) never s) /\
  (priority = NR_SCHED_QUEUES -> 0 < quantum -> schedulable p = true ->
   exists s', sched_proc n priority quantum s = Halt Undef s').
Proof.
  intros Hrq Hp Hfree Hne Hcur Hpr Hq Hlen. split_and!.
  - intros Hbad. unfold sched_proc. rewrite !u32_small by lia.
    rewrite (proj2 (Z.ltb_ge priority TASK_Q)) by (unfold TASK_Q; lia). cbn [orb].
    destruct (Z.ltb_spec NR_SCHED_QUEUES priority); [done|].
    rewrite (proj2 (Z.leb_le quantum 0)) by lia. done.
  - intros Hlt Hq0 Hprio.
    destruct (sched_proc_half s Q n p priority quantum Hrq Hp Hfree ltac:(lia) ltac:(lia))
      as (s1 & p1 & Hrun & Hrq1 & Hp1 & Hst & Hcp & Hv & Hheads).
    pose proof (strip_fields _ _ Hst) as (Hfl & _).
    pose proof (strip_sched_fields _ _ Hst) as (Hpr1 & Hqm & Hct).
    rewrite rescheduled_flags in Hfl.
    destruct (sched_proc_wake s1 (without n Q) n p1) as (s' & Hw & Hview & Q' & Hrq' & Hlast).
    { done. } { done. }
    { rewrite Hfl. case_match; [by apply waits_set; exists 15|done]. }
    { by rewrite Hcp. }
    { rewrite Hcp. intros c Hc%view_some. rewrite Hv in Hc by done.
      apply view_pget in Hc as (c' & Hc' & Hcst%strip_fields). destruct Hcst as [<- _]. by apply Hcur. }
    { rewrite Hpr1. change (queue_nr priority). split; lia. }
    eapply wp_ret_run; [rewrite Hrun, (bind_ret _ _ _ _ _ Hw); reflexivity|].
    split; [done|]. apply view_pget in Hview as (p' & Hp' & Hst').
    exists Q', p'. destruct (strip_sched_fields _ _ Hst') as (-> & -> & ->). split_and!; [done..|].
    intros Hsch. change priority with (p_priority (rescheduled priority quantum
      (if p_rts_flags p =? 0 then set_flags RTS_NO_QUANTUM p else p))).
    rewrite <-Hpr1. apply Hlast. rewrite (wakes_flags _ _ _ Hfl), rescheduled_wakes; [done|].
    by eapply (r_flags _ _ Hrq).
  - intros Heq Hq0 Hsch.
    destruct (sched_proc_half s Q n p priority quantum Hrq Hp Hfree ltac:(lia) ltac:(lia))
      as (s1 & p1 & Hrun & Hrq1 & Hp1 & Hst & Hcp & Hv & Hheads).
    pose proof (strip_fields _ _ Hst) as (Hfl & _). rewrite rescheduled_flags in Hfl.
    pose proof (strip_sched_fields _ _ Hst) as (Hpr1 & _).
    pose proof (rescheduled_wakes p (r_flags _ _ Hrq _ _ Hp)) as Hwk. rewrite Hsch in Hwk.
    rewrite <-(wakes_flags _ _ _ Hfl) in Hwk. apply andb_true_iff in Hwk as [Hnz Hz].
    exists (pset n (clear_flags RTS_NO_QUANTUM) s1). rewrite Hrun. apply bind_halt.
    unfold RTS_UNSET. run_step. run_step. fold (clear_flags RTS_NO_QUANTUM).
    assert (pget (pset n (clear_flags RTS_NO_QUANTUM) s1) n = Some (clear_flags RTS_NO_QUANTUM p1)) as Hp2
      by by rewrite pget_pset_eq, Hp1.
    rewrite (bind_ret _ _ _ _ _ (get_proc_run _ _ _ Hp2)).
    unfold proc_is_runnable, rts_f_is_runnable. rewrite Hnz, Hz. cbn [andb].
    apply (enqueue_no_queue _ _ (clear_flags RTS_NO_QUANTUM p1)); [done|..].
    + by apply Z.eqb_eq.
    + change (Z.of_nat (length (rdy_head s1)) <= p_priority p1). rewrite Hheads, Hlen, Hpr1.
      change (Z.of_nat (Z.to_nat NR_SCHED_QUEUES) <= priority). rewrite Heq. by unfold NR_SCHED_QUEUES.
    + change (0 <= p_priority p1). rewrite Hpr1. change (0 <= priority). lia.
Qed.
End claims.

(** ** Examples *)
Module Demo.
#[local] Existing Instance demo_headers.
#[local] Existing Instance demo_laws.

#[local] Instance headers : KernelHeaders := {
  IDLE := -4; SELF := 1002; USER_PRIV_ID := 3; PMAGIC := 0xC0FFEE1;
  PREEMPTIBLE := 0x01; BILLABLE := 0x02; SYS_PROC := 0x10;
  SEND := 1; RECEIVE := 2; SENDREC := 3; NOTIFY := 4; SENDNB := 5; SENDA := 16;
  IPCNO_HIGHEST := 16;
  IPC_STATUS_CALL_TO := fun c => c; IPC_STATUS_FLAGS := fun f => f * 2 ^ 16;
  IPC_FLG_MSG_FROM_KERNEL := 1; SCHEDULING_NO_QUANTUM := 1;
  NOTIFY_FROM := fun n => 0x1000 + n;
  AMF_VALID := 1; AMF_DONE := 2; AMF_NOTIFY := 4; AMF_NOREPLY := 8;
  SIGTRAP := 5; SIGKSIG := 29; SIGKSIGSM := 27; SIGSNDELAY := 26;
  SIGS_IS_LETHAL := fun n => n =? 11;
  sigaddset := fun set n => Z.lor set (2 ^ n); sigismember := fun set n => Z.testbit set n;
  NR_SYS_CHUNKS := 1; BITCHUNK_BITS := 32;
  MAP_CHUNK := fun b => b / 32; CHUNK_OFFSET := fun b => b mod 32;
}.

(** The world is the memory of the tables of asynchronous sends: flags, destination and
    result of each entry, by endpoint and position. *)
Definition memory := list (Z * Z * (Z * Z * message * rc)).
Definition entry (e i : Z) (w : memory) : option (Z * Z * message * rc) :=
  snd <$> list_find (fun x => x.1 = (e, i)) w ≫= fun x => Some x.2.
Definition put_entry (e i : Z) (g : Z * Z * message * rc -> Z * Z * message * rc) (w : memory) :=
  map (fun x => if bool_decide (x.1 = (e, i)) then (x.1, g x.2) else x) w.
Definition some_msg : message := mk_message 0 7 0 0 [42].

#[local] Instance env : KernelEnv memory := {
  copy_msg_from_user := fun _ addr _ => if addr =? 0 then None else Some some_msg;
  retrieve_flags := fun e _ i w => (fun x => x.1.1.1) <$> entry e i w;
  retrieve_dst := fun e _ i w => (fun x => x.1.1.2) <$> entry e i w;
  retrieve_msg := fun e _ i w => (fun x => x.1.2) <$> entry e i w;
  entry_msg := fun t i => t + 64 * i;
  insert_result := fun e _ i r w =>
    if entry e i w is Some _ then Some (put_entry e i (fun x => (x.1, r)) w) else None;
  insert_flags := fun e _ i f w =>
    if entry e i w is Some _ then Some (put_entry e i (fun '(_, d, m, r) => (f, d, m, r)) w) else None;
  ms_2_cpu_time := fun ms => ms * 1000;
  stack_guard_ok := fun _ _ => true;
}.
#[local] Instance env_laws : KernelEnvLaws memory.
Proof. done. Qed.

Definition process (n flags prio : Z) (next : option Z) : proc :=
  mk_proc n (Some (n mod 4)) flags 0 prio 1000 200 None next None None NONE NONE 0
    (n + 1024) some_msg some_msg 0 PMAGIC 0 OK 0 0 0 0 0 0 0 some_msg.
Definition free_slot (n : Z) : proc :=
  mk_proc n None RTS_SLOT_FREE 0 0 0 0 None None None None NONE NONE 0 NONE some_msg some_msg 0
    PMAGIC 0 OK 0 0 0 0 0 0 0 some_msg.
Definition privilege (i : Z) : priv :=
  mk_priv i i (Z.lor PREEMPTIBLE BILLABLE) 0 0 0xFFFF [0xF] 0 NONE [0] 0 0
    [0xFFFF] 0 [] 0 [] 0 [] 0 0.

(** Processes 0 and 1 are ready in queue 3, the current process 2 in queue 7; process 3
    of priority 5 waits for a quantum. *)
Definition s0 : state memory :=
  mk_state
    (map free_slot (seqZ (-4) 4) ++
     [process 0 0 3 (Some 1); process 1 0 3 None; process 2 0 7 None;
      process 3 (s16 RTS_NO_QUANTUM) 5 None] ++ map free_slot (seqZ 4 4))
    (map privilege (seqZ 0 4))
    (aupd 3 (fun _ => Some 0) (aupd 7 (fun _ => Some 2) (replicate 18 None)))
    (aupd 3 (fun _ => Some 1) (aupd 7 (fun _ => Some 2) (replicate 18 None)))
    2 2 500 [].
Definition Q0 (q : Z) : list Z := if q =? 3 then [0; 1] else if q =? 7 then [2] else [].

Lemma pget_all (s : state memory) (P : Z -> proc -> Prop) n p :
  pget s n = Some p ->
  Forall (fun '(i, p) => P (Z.of_nat i - NR_TASKS) p) (imap pair (procs s)) -> P n p.
Proof.
  unfold pget, proc_addr. intros [Hi Hp]%aget_Some Hall. rewrite Forall_lookup in Hall.
  specialize (Hall (Z.to_nat (NR_TASKS + n)) (Z.to_nat (NR_TASKS + n), p)). cbn beta iota in Hall.
  rewrite Z2Nat.id in Hall by done. replace (NR_TASKS + n - NR_TASKS) with n in Hall by lia.
  apply Hall. by rewrite list_lookup_imap, Hp.
Qed.

Lemma Q0_elem q n : n ∈ Q0 q -> (n, q) ∈ [(0, 3); (1, 3); (2, 7)].
Proof.
  unfold Q0. destruct (Z.eqb_spec q 3) as [->|]; [|destruct (Z.eqb_spec q 7) as [->|]; [|by intros ?%elem_of_nil]];
  rewrite ?elem_of_cons, elem_of_nil; naive_solver.
Qed.

Lemma forall_queue (P : Z -> Prop) : Forall P (seqZ 0 NR_SCHED_QUEUES) -> forall q, queue_nr q -> P q.
Proof. rewrite Forall_forall. intros HP q Hq. apply HP, list_elem_of_In, elem_of_seqZ. unfold queue_nr in Hq. lia. Qed.

Lemma s0_rq : rq s0 Q0.
Proof.
  constructor.
  - constructor.
    + done.
    + apply forall_queue. repeat constructor; eexists; (split; [reflexivity|]); simpl;
        repeat first [reflexivity | eexists | split].
    + apply forall_queue. repeat constructor.
    + intros q _. unfold Q0. repeat case_match; repeat constructor; set_solver.
    + intros q q' n _ _ H1%Q0_elem H2%Q0_elem.
      rewrite !elem_of_cons, elem_of_nil in H1, H2. naive_solver lia.
  - intros q n Hq. split.
    + intros Hn%Q0_elem. rewrite !elem_of_cons, elem_of_nil in Hn.
      destruct Hn as [[= -> ->]|[[= -> ->]|[[= -> ->]|[]]]]; by eexists.
    + intros (p & Hp & Hz & Hpr). revert Hz Hpr. revert q Hq.
      refine (pget_all s0 (fun n p => forall q, queue_nr q -> p_rts_flags p = 0 -> p_priority p = q -> n ∈ Q0 q) n p Hp _).
      repeat constructor; simpl; intros ? _ ? <-; first [done | set_solver].
  - intros n p Hp Hz. revert Hz. refine (pget_all s0 (fun n p => p_rts_flags p = 0 -> queue_nr (p_priority p)) n p Hp _).
    repeat constructor; simpl; intros; done || lia.
  - intros n p Hp. refine (pget_all s0 (fun n p => p_magic p = PMAGIC) n p Hp _). repeat constructor.
  - intros n p Hp. refine (pget_all s0 (fun n p => _ <= p_rts_flags p < _) n p Hp _).
    repeat constructor; vm_compute; done.
  - intros n p Hp. refine (pget_all s0 (fun n p => p_rts_flags p <> _ -> exists i pr, p_priv p = Some i /\ aget (privs s0) i = Some pr) n p Hp _).
    repeat constructor; simpl; first [done | intros _; eexists _, _; by split].
  - eexists _, _, _. by split_and!.
Qed.

Lemma s0_live c : pget s0 (proc_ptr s0) = Some c -> p_rts_flags c <> RTS_SLOT_FREE.
Proof. vm_compute. by intros [= <-]. Qed.

Lemma RTS_SET_spec_witness :
  wp (RTS_SET 0 RTS_RECEIVING)
    (fun _ s' => rq s' (without 0 Q0) /\ same (pset 0 (set_flags RTS_RECEIVING) s0) s') never s0.
Proof.
  apply (RTS_SET_spec s0 Q0 0 (process 0 0 3 (Some 1))); [exact s0_rq|reflexivity|done|].
  exists 3. by split; [lia|].
Defined.

Lemma RTS_UNSET_spec_witness :
  wp (RTS_UNSET 3 RTS_NO_QUANTUM)
    (fun _ s' => exists Q', rq s' Q' /\ Q' 5 = [3] /\ Q' 3 = [0; 1] /\ Q' 7 = []) never s0.
Proof.
  eapply wp_mono; [apply (RTS_UNSET_spec s0 Q0 3 (process 3 (s16 RTS_NO_QUANTUM) 5 None));
    [exact s0_rq|reflexivity|done|reflexivity|by split|done|exact s0_live]| |done].
  intros r s' Hs'. change (wakes _ _) with true in Hs'. destruct Hs' as [Hrq _].
  eexists. split; [exact Hrq|]. by vm_compute.
Defined.

Lemma pick_proc_spec_witness :
  pick_proc s0 = Ret (Some 0) (billed s0 0) /\
  (forall m q, pget s0 m = Some q -> p_rts_flags q = 0 -> 3 <= p_priority q).
Proof.
  assert (pick_proc s0 = Ret (Some 0) (billed s0 0)) as Hrun by reflexivity. split; [exact Hrun|].
  pose proof (pick_proc_spec s0 Q0 s0_rq) as Hpick. unfold wp in Hpick. rewrite Hrun in Hpick.
  destruct Hpick as (_ & p & Hp & _ & _ & Hmin). vm_compute in Hp. injection Hp as <-. exact Hmin.
Defined.

Lemma runqueues_ok_accepts_witness : runqueues_ok s0 = Ret true s0.
Proof. apply (runqueues_ok_accepts s0 Q0). exact s0_rq. Defined.

Lemma sched_proc_spec_witness :
  sched_proc 3 19 200 s0 = Ret EINVAL s0 /\
  (exists s', sched_proc 3 18 200 s0 = Halt Undef s') /\
  wp (sched_proc 3 4 200) (fun r s' => r = OK /\ exists Q', rq s' Q' /\ list.last (Q' 4) = Some 3)
    never s0.
Proof.
  destruct (sched_proc_spec s0 Q0 3 (process 3 (s16 RTS_NO_QUANTUM) 5 None) 19 200
    s0_rq eq_refl ltac:(done) ltac:(done) s0_live ltac:(lia) ltac:(lia) eq_refl) as [Hbad _].
  destruct (sched_proc_spec s0 Q0 3 (process 3 (s16 RTS_NO_QUANTUM) 5 None) 18 200
    s0_rq eq_refl ltac:(done) ltac:(done) s0_live ltac:(lia) ltac:(lia) eq_refl) as (_ & _ & Hout).
  destruct (sched_proc_spec s0 Q0 3 (process 3 (s16 RTS_NO_QUANTUM) 5 None) 4 200
    s0_rq eq_refl ltac:(done) ltac:(done) s0_live ltac:(lia) ltac:(lia) eq_refl) as (_ & Hgood & _).
  split_and!.
  - apply Hbad. left. unfold NR_SCHED_QUEUES. lia.
  - by apply Hout.
  - eapply wp_mono; [apply Hgood|..]; [done|done|by split| |done].
    cbn beta. intros r s' (-> & Q' & p' & Hrq & _ & _ & _ & _ & Hlast). split; [done|].
    exists Q'. split; [done|]. by apply Hlast.
Defined.
End Demo.
