(* ===== verification/KIpc.v ===== *)
(** Message passing: the functions of [kernel/proc.c] behind the system calls SEND,
    RECEIVE, SENDREC, NOTIFY, SENDNB and SENDA, the signal functions they use and the
    clean-up of an exiting process in [kernel/system.c], and the theorems on them.
    The result of a call is its return code; a message a process passes is an address in
    its memory, one the kernel passes is the message itself. *)
From S2P Require Import Prelude Minix KProc.
Local Open Scope Z_scope.

(** ** ipc.h *)
Definition NON_BLOCKING : Z := 0x0080.
Definition FROM_KERNEL : Z := 0x0100.

(** A message buffer: an address in the caller, or a message of the kernel. *)
Inductive buffer := User (addr : Z) | Kernel (m : message).

(** The caller queue of a process, linked by [p_q_link]: a pointer to the head of the
    queue of a process or to the link of a sender. *)
Inductive qlink := QHead (n : Z) | QNext (n : Z).

Section operations.
Context `{MinixHeaders} `{KernelHeaders} {W : Type} `{KernelEnv W}.
Abbreviation cmd := (M (state W)).

Definition set_misc (n f : Z) : cmd unit :=
  set_proc n (fun p => p <| p_misc_flags := s16 (Z.lor (p_misc_flags p) f) |>).
Definition clear_misc (n f : Z) : cmd unit :=
  set_proc n (fun p => p <| p_misc_flags := s16 (Z.ldiff (p_misc_flags p) f) |>).

Definition WILLRECEIVE (target : proc) (source_ep : Z) : bool :=
  (RTS_ISSET target RTS_RECEIVING && negb (RTS_ISSET target RTS_SENDING)) &&
  ((p_getfrom_e target =? ANY) || (p_getfrom_e target =? source_ep)).

Definition IPC_STATUS_ADD (n m : Z) : cmd unit :=
  p ← get_proc n;
  if MF p MF_REPLY_PEND then mret tt
  else set_proc n (fun p => p <| p_status := u32 (Z.lor (p_status p) m) |>).
Definition IPC_STATUS_ADD_CALL (n call : Z) : cmd unit := IPC_STATUS_ADD n (IPC_STATUS_CALL_TO call).
Definition IPC_STATUS_ADD_FLAGS (n flags : Z) : cmd unit := IPC_STATUS_ADD n (IPC_STATUS_FLAGS flags).
Definition IPC_STATUS_CLEAR (n : Z) : cmd unit := set_proc n (fun p => p <| p_status := 0 |>).

(** *** Bit maps of privilege numbers *)
Definition get_sys_bit (map : list Z) (bit : Z) : cmd bool :=
  c ← deref (aget map (MAP_CHUNK bit)); mret (Z.testbit c (CHUNK_OFFSET bit)).
Definition set_sys_bit (map : list Z) (bit : Z) : cmd (list Z) :=
  c ← deref (aget map (MAP_CHUNK bit));
  mret (aupd (MAP_CHUNK bit) (fun c => u32 (Z.lor c (Z.shiftl 1 (CHUNK_OFFSET bit)))) map).
Definition unset_sys_bit (map : list Z) (bit : Z) : cmd (list Z) :=
  c ← deref (aget map (MAP_CHUNK bit));
  mret (aupd (MAP_CHUNK bit) (fun c => u32 (Z.ldiff c (Z.shiftl 1 (CHUNK_OFFSET bit)))) map).

Definition id_to_nr (id : Z) : cmd Z := s ← get; pr ← deref (aget (privs s) id); mret (s_proc_nr pr).
Definition nr_to_id (nr : Z) : cmd Z := pr ← get_priv nr; mret (s_id pr).
Definition may_send_to (rp nr : Z) : cmd bool :=
  pr ← get_priv rp; id ← nr_to_id nr; get_sys_bit (s_ipc_to pr) id.

Definition get_uptime : cmd Z := s ← get; mret (realtime s).

(** [BuildNotifyMessage(&dst_ptr->p_delivermsg, src, dst_ptr)] *)
Definition BuildNotifyMessage (src dst : Z) : cmd unit :=
  set_proc dst (fun p => p <| p_delivermsg := (p_delivermsg p) <| m_type := NOTIFY_FROM src |> |>);;
  t ← get_uptime;
  set_proc dst (fun p => p <| p_delivermsg := (p_delivermsg p) <| NOTIFY_TIMESTAMP := t |> |>);;
  if src =? HARDWARE then
    pr ← get_priv dst;
    set_proc dst (fun p => p <| p_delivermsg := (p_delivermsg p) <| NOTIFY_ARG := s_int_pending pr |> |>);;
    set_priv dst (fun pr => pr <| s_int_pending := 0 |>)
  else if src =? SYSTEM then
    pr ← get_priv dst;
    set_proc dst (fun p => p <| p_delivermsg := (p_delivermsg p) <| NOTIFY_ARG := s_sig_pending pr |> |>);;
    set_priv dst (fun pr => pr <| s_sig_pending := 0 |>)
  else mret tt.

(** *** Notifications and signals *)
Definition mini_notify (caller dst_e : Z) : cmd rc :=
  '(ok, dst) ← isokendpt dst_e;
  if negb ok then mret EDEADSRCDST else
  d ← get_proc dst;
  c ← get_proc caller;
  if WILLRECEIVE d (p_endpoint c) && negb (MF d MF_REPLY_PEND) then
    assert_ (negb (MF d MF_DELIVERMSG));;
    BuildNotifyMessage (p_nr c) dst;;
    set_proc dst (fun p => p <| p_delivermsg := (p_delivermsg p) <| m_source := p_endpoint c |> |>);;
    set_misc dst MF_DELIVERMSG;;
    IPC_STATUS_ADD_CALL dst NOTIFY;;
    RTS_UNSET dst RTS_RECEIVING;;
    mret OK
  else
    pr ← get_priv caller;
    dpr ← get_priv dst;
    map ← set_sys_bit (s_notify_pending dpr) (s_id pr);
    set_priv dst (fun pr => pr <| s_notify_pending := map |>);;
    mret OK.

Definition send_sig (ep sig_nr : Z) : cmd unit :=
  '(ok, n) ← isokendpt ep;
  (if negb ok then halt Panic else mret tt);;
  rp ← get_proc n;
  (if isemptyp rp then halt Panic else mret tt);;
  set_priv n (fun pr => pr <| s_sig_pending := sigaddset (s_sig_pending pr) sig_nr |>);;
  mini_notify SYSTEM (p_endpoint rp);;
  mret tt.

(** The backup signal manager is cleared before the call is repeated, so the recursion
    ends at the second call. *)
Fixpoint cause_sig_ (fuel : nat) (n sig_nr : Z) : cmd unit :=
  match fuel with
  | O => halt NoFuel
  | S fuel =>
      rp ← get_proc n;
      pr ← get_priv n;
      let sig_mgr := if s_sig_mgr pr =? SELF then p_endpoint rp else s_sig_mgr pr in
      if p_endpoint rp =? sig_mgr then
        if SIGS_IS_LETHAL sig_nr then
          let sig_mgr := s_bak_sig_mgr pr in
          found ← (if sig_mgr =? NONE then mret (false, 0) else isokendpt sig_mgr);
          let '(ok, m) := found : bool * Z in
          if ok then
            set_priv n (fun pr => pr <| s_sig_mgr := sig_mgr |>);;
            set_priv n (fun pr => pr <| s_bak_sig_mgr := NONE |>);;
            RTS_UNSET m RTS_NO_PRIV;;
            cause_sig_ fuel n sig_nr
          else halt Panic
        else
          set_priv n (fun pr => pr <| s_sig_pending := sigaddset (s_sig_pending pr) sig_nr |>);;
          send_sig (p_endpoint rp) SIGKSIGSM
      else if sigismember (p_pending rp) sig_nr then mret tt
      else
        set_proc n (fun p => p <| p_pending := sigaddset (p_pending p) sig_nr |>);;
        rp ← get_proc n;
        if RTS_ISSET rp RTS_SIGNALED then mret tt
        else
          RTS_SET n (Z.lor RTS_SIGNALED RTS_SIG_PENDING);;
          send_sig sig_mgr SIGKSIG
  end.
Definition cause_sig : Z -> Z -> cmd unit := cause_sig_ 2.

Definition sig_delay_done (n : Z) : cmd unit :=
  clear_misc n MF_SIG_DELAY;;
  rp ← get_proc n;
  cause_sig (p_nr rp) SIGSNDELAY.

(** *** Deadlock detection
    [function] is the number of the system call.  The processes of the chain are recorded
    in the array [processes] of NR_PROCS + NR_TASKS elements. *)
Definition deadlock (function cp src_dst_e : Z) : cmd Z :=
  c ← get_proc cp;
  loop_ queue_fuel (fun '(e, group_size) =>
    if e =? ANY then mret (inr 0) else
    slot ← okendpt e;
    xp ← get_proc slot;
    assert_ (proc_ptr_ok xp);;
    assert_ (negb (RTS_ISSET xp RTS_SLOT_FREE));;
    (if group_size <? NR_PROCS + NR_TASKS then mret tt else halt Undef);;
    let group_size := group_size + 1 in
    let e := P_BLOCKEDON xp in
    if e =? NONE then mret (inr 0) else
    if e =? p_endpoint c then
      if (group_size =? 2) &&
         has (Z.lxor (p_rts_flags xp) (Z.shiftl function 2)) RTS_SENDING
      then mret (inr 0) else mret (inr group_size)
    else mret (inl (e, group_size))) (src_dst_e, 1).

(** *** The caller queues *)
Definition get_qlink (l : qlink) : cmd (option Z) :=
  match l with
  | QHead n => p ← get_proc n; mret (p_caller_q p)
  | QNext n => p ← get_proc n; mret (p_q_link p)
  end.
Definition set_qlink (l : qlink) (v : option Z) : cmd unit :=
  match l with
  | QHead n => set_proc n (fun p => p <| p_caller_q := v |>)
  | QNext n => set_proc n (fun p => p <| p_q_link := v |>)
  end.

(** [copy_msg_from_user(caller_ptr, m_ptr, ...)] and [*m_ptr]. *)
Definition user_message (caller : Z) (m_ptr : buffer) : cmd (option message) :=
  match m_ptr with
  | User addr => s ← get; mret (copy_msg_from_user caller addr (world s))
  | Kernel _ => halt Undef
  end.
Definition kernel_message (m_ptr : buffer) : cmd message :=
  match m_ptr with Kernel m => mret m | User _ => halt Undef end.

(** The end of the caller queue of [dst]. *)
Definition find_qend (dst : Z) : cmd qlink :=
  loop_ queue_fuel (fun xpp =>
    x ← get_qlink xpp;
    match x with Some n => mret (inl (QNext n)) | None => mret (inr xpp) end) (QHead dst).

Definition mini_send (caller dst_e : Z) (m_ptr : buffer) (flags : Z) : cmd rc :=
  let dst := _ENDPOINT_P dst_e in
  d ← get_proc dst;
  if RTS_ISSET d RTS_NO_ENDPOINT then mret EDEADSRCDST else
  c ← get_proc caller;
  if WILLRECEIVE d (p_endpoint c) then
    assert_ (negb (MF d MF_DELIVERMSG));;
    copied ←
      (if negb (has flags FROM_KERNEL) then
         m ← user_message caller m_ptr;
         match m with
         | None => mret false
         | Some m => set_proc dst (fun p => p <| p_delivermsg := m |>);; mret true
         end
       else
         m ← kernel_message m_ptr;
         set_proc dst (fun p => p <| p_delivermsg := m |>);;
         IPC_STATUS_ADD_FLAGS dst IPC_FLG_MSG_FROM_KERNEL;;
         mret true);
    if negb copied then mret EFAULT else
    set_proc dst (fun p => p <| p_delivermsg := (p_delivermsg p) <| m_source := p_endpoint c |> |>);;
    set_misc dst MF_DELIVERMSG;;
    c ← get_proc caller;
    let call := if MF c MF_REPLY_PEND then SENDREC
                else if has flags NON_BLOCKING then SENDNB else SEND in
    IPC_STATUS_ADD_CALL dst call;;
    d ← get_proc dst;
    (if MF d MF_REPLY_PEND then clear_misc dst MF_REPLY_PEND else mret tt);;
    RTS_UNSET dst RTS_RECEIVING;;
    mret OK
  else
    if has flags NON_BLOCKING then mret ENOTREADY else
    g ← deadlock SEND caller dst_e;
    if negb (g =? 0) then mret ELOCKED else
    copied ←
      (if negb (has flags FROM_KERNEL) then
         m ← user_message caller m_ptr;
         match m with
         | None => mret false
         | Some m => set_proc caller (fun p => p <| p_sendmsg := m |>);; mret true
         end
       else
         m ← kernel_message m_ptr;
         set_proc caller (fun p => p <| p_sendmsg := m |>);;
         set_misc caller MF_SENDING_FROM_KERNEL;;
         mret true);
    if negb copied then mret EFAULT else
    RTS_SET caller RTS_SENDING;;
    set_proc caller (fun p => p <| p_sendto_e := dst_e |>);;
    c ← get_proc caller;
    assert_ (bool_decide (p_q_link c = None));;
    xpp ← find_qend dst;
    set_qlink xpp (Some caller);;
    mret OK.

(** *** Asynchronous sends *)
Definition AMF_ALL : Z := Z.lor AMF_VALID (Z.lor AMF_DONE (Z.lor AMF_NOTIFY AMF_NOREPLY)).
Definition bad_amf (flags : Z) : bool := has flags (Z.lnot AMF_ALL) || negb (has flags AMF_VALID).

Definition with_world (r : option W) : cmd bool :=
  match r with
  | Some w => modify (fun s => s <| world := w |>);; mret true
  | None => mret false
  end.
Definition A_RETRIEVE {A} (read : W -> option A) : cmd (option A) := s ← get; mret (read (world s)).
(** [tabent.result = r; A_INSERT(i, result); tabent.flags = flags | AMF_DONE;
    A_INSERT(i, flags)] *)
Definition insert_done (e table_v i : Z) (r : rc) (flags : Z) : cmd bool :=
  s ← get; ok ← with_world (insert_result e table_v i r (world s));
  if negb ok then mret false else
  s ← get; with_world (insert_flags e table_v i (Z.lor flags AMF_DONE) (world s)).

(** One attempt to deliver an asynchronous message of [src] to [dst]; the boolean is
    whether [*postponed] is set. *)
Definition try_one (src dst : Z) : cmd (rc * bool) :=
  privp ← get_priv src;
  if s_id privp =? USER_PRIV_ID then mret (EAGAIN, false) else
  if s_asynsize privp =? 0 then mret (EAGAIN, false) else
  d ← get_proc dst;
  may ← may_send_to src (p_nr d);
  if negb may then mret (EAGAIN, false) else
  let table_v := s_asyntab privp in
  c ← get_proc src;
  let src_e := p_endpoint c in
  let dst_e := p_endpoint d in
  r ← (loop_ (S (Z.to_nat (s_asynsize privp))) (fun '(i, done, postponed) =>
    let continue done postponed := mret (inl (i + 1, done, postponed)) in
    if negb (i <? s_asynsize privp) then
      (if done : bool then set_priv src (fun pr => pr <| s_asynsize := 0 |>) else mret tt);;
      mret (inr (EAGAIN, postponed))
    else
    f ← A_RETRIEVE (retrieve_flags src_e table_v i);
    match f with
    | None => mret (inr (EFAULT, postponed))
    | Some flags =>
        if flags =? 0 then continue done postponed else
        if bad_amf flags then
          set_priv src (fun pr => pr <| s_asynsize := 0 |>);;
          mret (inr (EINVAL, postponed))
        else if has flags AMF_DONE then continue done postponed else
        t ← A_RETRIEVE (retrieve_dst src_e table_v i);
        match t with
        | None => mret (inr (EFAULT, postponed))
        | Some to =>
            if negb (to =? dst_e) then continue false postponed else
            d ← get_proc dst;
            if has flags AMF_NOREPLY && MF d MF_REPLY_PEND then continue false true else
            m ← A_RETRIEVE (retrieve_msg src_e table_v i);
            match m with
            | None => mret (inr (EFAULT, postponed))
            | Some m =>
                set_proc dst (fun p => p <| p_delivermsg := m |>);;
                set_proc dst (fun p => p <| p_delivermsg := (p_delivermsg p) <| m_source := src_e |> |>);;
                set_misc dst MF_DELIVERMSG;;
                ok ← insert_done src_e table_v i OK flags;
                mret (inr (if ok : bool then OK else EFAULT, postponed))
            end
        end
    end) (0, true, false));
  mret r.

Definition try_async (caller : Z) : cmd rc :=
  r ← fold_ (seqZ 0 NR_SYS_PROCS) (None, false) (fun '(found, postponed) i =>
    match found with
    | Some r => mret (Some r, postponed)
    | None =>
        s ← get;
        privp ← deref (aget (privs s) i);
        if s_proc_nr privp =? NONE then mret (None, postponed) else
        c ← get_proc caller;
        assert_ (negb (MF c MF_DELIVERMSG));;
        '(r, post) ← try_one (s_proc_nr privp) caller;
        mret (if is_ok r then Some r else None, postponed || post)
    end);
  match r with
  | (Some r, _) => mret r
  | (None, postponed) =>
      (if negb postponed then clear_misc caller MF_ASYNMSG else mret tt);;
      mret ESRCH
  end.

Definition mini_senda (caller table size : Z) : cmd rc :=
  privp ← get_priv caller;
  if negb (has (s_flags privp) SYS_PROC) then mret EPERM else
  set_priv caller (fun pr => pr <| s_asyntab := u32 (-1) |>);;
  set_priv caller (fun pr => pr <| s_asynsize := 0 |>);;
  if size =? 0 then mret OK else
  if 16 * (NR_TASKS + NR_PROCS) <? size then mret EDOM else
  c ← get_proc caller;
  let e := p_endpoint c in
  r ← fold_ (seqZ 0 size) (inr true) (fun acc i =>
    match acc with
    | inl r => mret (inl r)
    | inr done =>
        f ← A_RETRIEVE (retrieve_flags e table i);
        match f with
        | None => mret (inl EFAULT)
        | Some flags =>
            let finish r :=
              ok ← insert_done e table i r flags;
              mret (if ok : bool then inr done else inl EFAULT) in
            if flags =? 0 then mret (inr done) else
            if bad_amf flags then mret (inl EINVAL) else
            if has flags AMF_DONE then mret (inr done) else
            t ← A_RETRIEVE (retrieve_dst e table i);
            match t with
            | None => mret (inl EFAULT)
            | Some to =>
                '(ok, dst) ← isokendpt to;
                if negb ok then finish EDEADSRCDST else
                if iskerneln dst then finish ECALLDENIED else
                may ← may_send_to caller dst;
                if negb may then finish ECALLDENIED else
                d ← get_proc dst;
                if RTS_ISSET d RTS_NO_ENDPOINT then finish EDEADSRCDST else
                if WILLRECEIVE d e && (negb (has flags AMF_NOREPLY) || negb (MF d MF_REPLY_PEND)) then
                  s ← get;
                  match copy_msg_from_user caller (entry_msg table i) (world s) with
                  | None => finish EFAULT
                  | Some m =>
                      set_proc dst (fun p => p <| p_delivermsg := m |>);;
                      set_proc dst (fun p => p <| p_delivermsg := (p_delivermsg p) <| m_source := e |> |>);;
                      set_misc dst MF_DELIVERMSG;;
                      IPC_STATUS_ADD_CALL dst SENDA;;
                      RTS_UNSET dst RTS_RECEIVING;;
                      finish OK
                  end
                else
                  set_misc dst MF_ASYNMSG;;
                  mret (inr false)
            end
        end
    end);
  match r with
  | inl r => mret r
  | inr done =>
      (if negb done then
         set_priv caller (fun pr => pr <| s_asyntab := table |>);;
         set_priv caller (fun pr => pr <| s_asynsize := size |>)
       else mret tt);;
      mret OK
  end.

(** *** Receiving *)
(** The number of the lowest bit set. *)
Definition lowest_bit (chunk : Z) : option Z :=
  snd <$> list_find (fun i => Z.testbit chunk i = true) (seqZ 0 32).

(** The scan of the pending notifications: the number of a process whose notification
    was taken, if any. *)
Definition take_notification (caller src_e src_p : Z) : cmd (option Z) :=
  r ← for_ (seqZ 0 NR_SYS_CHUNKS) (fun c =>
    pr ← get_priv caller;
    chunk ← deref (aget (s_notify_pending pr) c);
    match lowest_bit chunk with
    | None => mret None
    | Some i =>
        let src_id := c * BITCHUNK_BITS + i in
        if NR_SYS_PROCS <=? src_id then mret (Some None) else
        src_proc_nr ← id_to_nr src_id;
        if negb (src_e =? ANY) && negb (src_p =? src_proc_nr) then mret None else
        set_priv caller (fun pr =>
          pr <| s_notify_pending := aupd c (fun ch => u32 (Z.ldiff ch (Z.shiftl 1 i))) (s_notify_pending pr) |>);;
        mret (Some (Some src_proc_nr))
    end);
  mret (match r with Some (Some n) => Some n | _ => None end).

Definition receive_notification (caller src_e src_p : Z) : cmd bool :=
  r ← take_notification caller src_e src_p;
  match r with
  | None => mret false
  | Some src_proc_nr =>
      h ← get_proc src_proc_nr;
      let hisep := p_endpoint h in
      c ← get_proc caller;
      assert_ (negb (MF c MF_DELIVERMSG));;
      assert_ ((src_e =? ANY) || (hisep =? src_e));;
      BuildNotifyMessage src_proc_nr caller;;
      set_proc caller (fun p => p <| p_delivermsg := (p_delivermsg p) <| m_source := hisep |> |>);;
      set_misc caller MF_DELIVERMSG;;
      IPC_STATUS_ADD_CALL caller NOTIFY;;
      mret true
  end.

Definition receive_async (caller src_e src_p : Z) : cmd bool :=
  c ← get_proc caller;
  if MF c MF_ASYNMSG then
    r ← (if negb (src_e =? ANY) then '(r, _) ← try_one src_p caller; mret r else try_async caller);
    if is_ok r then IPC_STATUS_ADD_CALL caller SENDA;; mret true else mret false
  else mret false.

(** The message of [sender], found at [xpp] in the queue of [caller], is delivered. *)
Definition take_message (caller sender : Z) (xpp : qlink) : cmd unit :=
  sp ← get_proc sender;
  assert_ (negb (RTS_ISSET sp RTS_SLOT_FREE));;
  assert_ (negb (RTS_ISSET sp RTS_NO_ENDPOINT));;
  c ← get_proc caller;
  assert_ (negb (MF c MF_DELIVERMSG));;
  set_proc caller (fun p => p <| p_delivermsg := p_sendmsg sp |>);;
  set_proc caller (fun p => p <| p_delivermsg := (p_delivermsg p) <| m_source := p_endpoint sp |> |>);;
  set_misc caller MF_DELIVERMSG;;
  RTS_UNSET sender RTS_SENDING;;
  sp ← get_proc sender;
  IPC_STATUS_ADD_CALL caller (if MF sp MF_REPLY_PEND then SENDREC else SEND);;
  (if MF sp MF_SENDING_FROM_KERNEL then
     IPC_STATUS_ADD_FLAGS caller IPC_FLG_MSG_FROM_KERNEL;;
     clear_misc sender MF_SENDING_FROM_KERNEL
   else mret tt);;
  sp ← get_proc sender;
  (if MF sp MF_SIG_DELAY then sig_delay_done sender else mret tt);;
  sp ← get_proc sender;
  set_qlink xpp (p_q_link sp);;
  set_proc sender (fun p => p <| p_q_link := None |>).

Definition receive_queued (caller src_e src_p : Z) : cmd bool :=
  loop_ queue_fuel (fun xpp =>
    x ← get_qlink xpp;
    match x with
    | None => mret (inr false)
    | Some sender =>
        sp ← get_proc sender;
        if (src_e =? ANY) || (src_p =? p_nr sp) then
          take_message caller sender xpp;; mret (inr true)
        else mret (inl (QNext sender))
    end) (QHead caller).

Definition mini_receive (caller src_e m_buff_usr flags : Z) : cmd rc :=
  c ← get_proc caller;
  assert_ (negb (MF c MF_DELIVERMSG));;
  set_proc caller (fun p => p <| p_delivermsg_vir := m_buff_usr |>);;
  src ← (if src_e =? ANY then mret (Some ANY) else
         n ← okendpt src_e; p ← get_proc n;
         mret (if RTS_ISSET p RTS_NO_ENDPOINT then None else Some n));
  match src with
  | None => mret EDEADSRCDST
  | Some src_p =>
      c ← get_proc caller;
      done ←
        (if RTS_ISSET c RTS_SENDING then mret false else
         n ← (if MF c MF_REPLY_PEND then mret false else receive_notification caller src_e src_p);
         if n : bool then mret true else
         a ← receive_async caller src_e src_p;
         if a : bool then mret true else receive_queued caller src_e src_p);
      if done : bool then
        c ← get_proc caller;
        (if MF c MF_REPLY_PEND then clear_misc caller MF_REPLY_PEND else mret tt);;
        mret OK
      else if has flags NON_BLOCKING then mret ENOTREADY
      else
        g ← deadlock RECEIVE caller src_e;
        if negb (g =? 0) then mret ELOCKED else
        set_proc caller (fun p => p <| p_getfrom_e := src_e |>);;
        RTS_SET caller RTS_RECEIVING;;
        mret OK
  end.

(** *** The system calls *)
(** [main.c] names the six calls; the other entries of [ipc_call_names] are NULL. *)
Definition ipc_call_known (call_nr : Z) : bool :=
  bool_decide (call_nr ∈ [SEND; RECEIVE; SENDREC; NOTIFY; SENDNB; SENDA]).

Definition do_sync_ipc (caller call_nr src_dst_e addr : Z) : cmd rc :=
  assert_ (negb (call_nr =? SENDA));;
  if (call_nr <? 0) || (IPCNO_HIGHEST <? call_nr) || (32 <=? call_nr) || negb (ipc_call_known call_nr)
  then mret ETRAPDENIED else
  denied ←
    (if src_dst_e =? ANY then
       mret (if negb (call_nr =? RECEIVE) then inl EINVAL else inr src_dst_e)
     else
       '(ok, n) ← isokendpt src_dst_e;
       if negb ok then mret (inl EDEADSRCDST) else
       if negb (call_nr =? RECEIVE) then
         may ← may_send_to caller n;
         mret (if negb may then inl ECALLDENIED else inr n)
       else mret (inr n));
  match denied with
  | inl r => mret r
  | inr src_dst_p =>
      pr ← get_priv caller;
      if negb (has (s_trap_mask pr) (Z.shiftl 1 call_nr)) then mret ETRAPDENIED else
      if negb (call_nr =? SENDREC) && negb (call_nr =? RECEIVE) && iskerneln src_dst_p
      then mret ETRAPDENIED else
      if call_nr =? SENDREC then
        set_misc caller MF_REPLY_PEND;;
        r ← mini_send caller src_dst_e (User addr) 0;
        if negb (is_ok r) then mret r else mini_receive caller src_dst_e addr 0
      else if call_nr =? SEND then mini_send caller src_dst_e (User addr) 0
      else if call_nr =? RECEIVE then
        clear_misc caller MF_REPLY_PEND;;
        IPC_STATUS_CLEAR caller;;
        mini_receive caller src_dst_e addr 0
      else if call_nr =? NOTIFY then mini_notify caller src_dst_e
      else if call_nr =? SENDNB then mini_send caller src_dst_e (User addr) NON_BLOCKING
      else mret EBADCALL
  end.

Definition do_ipc (r1 r2 r3 : Z) : cmd rc :=
  s ← get;
  let caller := proc_ptr s in
  let call_nr := s32 r1 in
  c ← get_proc caller;
  assert_ (negb (RTS_ISSET c RTS_SLOT_FREE));;
  let traced := Z.land (p_misc_flags c) (Z.lor MF_SC_TRACE MF_SC_DEFER) in
  if traced =? MF_SC_TRACE then
    clear_misc caller MF_SC_TRACE;;
    set_misc caller MF_SC_DEFER;;
    cause_sig (p_nr c) SIGTRAP;;
    c ← get_proc caller;
    mret (p_retreg c)
  else
    (if negb (traced =? 0) then
       clear_misc caller MF_SC_DEFER;;
       assert_ (negb (MF c MF_SC_ACTIVE));;
       set_misc caller MF_SC_ACTIVE
     else mret tt);;
    c ← get_proc caller;
    (if MF c MF_DELIVERMSG then halt Panic else mret tt);;
    if bool_decide (call_nr ∈ [SENDREC; SEND; RECEIVE; NOTIFY; SENDNB])
    then do_sync_ipc caller call_nr (s32 r2) r3
    else if call_nr =? SENDA then
      if 16 * (NR_TASKS + NR_PROCS) <? u32 r2 then mret EDOM else mini_senda caller r3 (u32 r2)
    else mret EBADCALL.

(** *** The end of a quantum *)
Definition notify_scheduler (p : Z) : cmd unit :=
  pp ← get_proc p;
  assert_ (negb (proc_kernel_scheduler p pp));;
  RTS_SET p RTS_NO_QUANTUM;;
  sch ← deref (p_scheduler pp);
  sp ← get_proc sch;
  r ← mini_send p (p_endpoint sp)
        (Kernel (mk_message (p_endpoint pp) SCHEDULING_NO_QUANTUM 0 0 [])) FROM_KERNEL;
  if negb (is_ok r) then halt Panic else mret tt.

Definition proc_no_time (p : Z) : cmd unit :=
  pp ← get_proc p;
  pr ← get_priv p;
  if negb (proc_kernel_scheduler p pp) && has (s_flags pr) PREEMPTIBLE then notify_scheduler p
  else set_proc p (fun q => q <| p_cpu_time_left := ms_2_cpu_time (p_quantum_size_ms q) |>).

(** *** An exiting process *)
Definition clear_ipc (rc : Z) : cmd unit :=
  p ← get_proc rc;
  (if RTS_ISSET p RTS_SENDING then
     target ← okendpt (p_sendto_e p);
     loop_ queue_fuel (fun xpp =>
       x ← get_qlink xpp;
       match x with
       | None => mret (inr tt)
       | Some n =>
           if n =? rc then
             q ← get_proc n;
             set_qlink xpp (p_q_link q);;
             mret (inr tt)
           else mret (inl (QNext n))
       end) (QHead target);;
     set_proc rc (fun p => p <| p_rts_flags := s16 (Z.ldiff (p_rts_flags p) RTS_SENDING) |>)
   else mret tt);;
  set_proc rc (fun p => p <| p_rts_flags := s16 (Z.ldiff (p_rts_flags p) RTS_RECEIVING) |>).

Definition clear_ipc_refs (rc : Z) (caller_ret : Minix.rc) : cmd unit :=
  foreach (seqZ (- NR_TASKS) (NR_TASKS + NR_PROCS)) (fun rp =>
    p ← get_proc rp;
    if isemptyp p then mret tt else
    pr ← get_priv rp;
    rpr ← get_priv rc;
    map ← unset_sys_bit (s_notify_pending pr) (s_id rpr);
    set_priv rp (fun pr => pr <| s_notify_pending := map |>);;
    r ← get_proc rc;
    if P_BLOCKEDON p =? p_endpoint r then
      set_proc rp (fun p => p <| p_retreg := caller_ret |>);;
      RTS_UNSET rp (Z.lor RTS_RECEIVING RTS_SENDING)
    else mret tt).

Definition clear_endpoint (rc : Z) : cmd unit :=
  p ← get_proc rc;
  (if isemptyp p then halt Panic else mret tt);;
  RTS_SET rc RTS_NO_ENDPOINT;;
  pr ← get_priv rc;
  (if has (s_flags pr) SYS_PROC then set_priv rc (fun pr => pr <| s_asynsize := 0 |>) else mret tt);;
  clear_ipc rc;;
  clear_ipc_refs rc EDEADSRCDST.
End operations.

(** ** The invariant of message passing *)
Section invariant.
Context `{MinixLaws} `{KernelHeaders} {W : Type} `{KernelEnvLaws W}.
Implicit Types (s : state W) (Q : Z -> list Z) (C : Z -> list Z).

Definition sending (p : proc) : bool := has (p_rts_flags p) RTS_SENDING.
Definition receiving (p : proc) : bool := has (p_rts_flags p) RTS_RECEIVING.
Definition live (p : proc) : Prop := p_rts_flags p <> RTS_SLOT_FREE.
Definition qnx s (m : Z) : option (option Z) := p_q_link <$> pget s m.
(** The endpoint of a live process. *)
Definition live_ep s (e : Z) : Prop :=
  exists p, pget s (_ENDPOINT_P e) = Some p /\ p_endpoint p = e /\ live p.

(** The caller queue of [n] holds, in the order [C n], exactly the processes that are
    sending to [n]; who waits for a process waits for a live one. *)
Record ipcs s C : Prop := {
  c_head n p : pget s n = Some p -> linked (qnx s) (p_caller_q p) (C n);
  c_nodup n : NoDup (C n);
  c_mem n m : m ∈ C n <->
    exists p, pget s m = Some p /\ sending p = true /\ _ENDPOINT_P (p_sendto_e p) = n;
  c_idle m p : pget s m = Some p -> sending p = false -> p_q_link p = None;
  c_nr n p : pget s n = Some p -> p_nr p = n;
  c_ep n p : pget s n = Some p -> live p -> _ENDPOINT_P (p_endpoint p) = n;
  c_prio n p : pget s n = Some p -> live p -> queue_nr (p_priority p);
  c_target m p : pget s m = Some p -> sending p = true -> live_ep s (p_sendto_e p);
  c_from m p : pget s m = Some p -> receiving p = true ->
    p_getfrom_e p = ANY \/ live_ep s (p_getfrom_e p);
  c_both m p : pget s m = Some p -> sending p = true -> receiving p = true -> p_getfrom_e p = p_sendto_e p;
  c_free n p : pget s n = Some p -> live p -> RTS_ISSET p RTS_SLOT_FREE = false;
  c_cur p : pget s (proc_ptr s) = Some p -> live p;
}.

Definition ipc s Q C : Prop := rq s Q /\ ipcs s C.

Lemma strip_ipc_fields p p' : strip p = strip p' ->
  p_caller_q p = p_caller_q p' /\ p_q_link p = p_q_link p' /\ p_nr p = p_nr p' /\
  p_sendmsg p = p_sendmsg p' /\ p_delivermsg p = p_delivermsg p' /\ p_retreg p = p_retreg p'.
Proof. destruct p, p'. unfold strip, upd. cbn. by intros [=]; subst. Qed.

Lemma qnx_same s s' : same s s' -> forall m, qnx s' m = qnx s m.
Proof.
  intros Hs m. unfold qnx. destruct (pget s m) as [p|] eqn:Hp.
  - destruct (same_pget _ _ _ _ Hs Hp) as (p' & -> & Hst%strip_ipc_fields). simpl. f_equal. apply Hst.
  - destruct (pget s' m) as [p'|] eqn:Hp'; [|done].
    destruct (same_pget_inv _ _ _ _ Hs Hp') as (? & ? & _). congruence.
Qed.

Lemma live_ep_same s s' e : same s s' -> live_ep s e -> live_ep s' e.
Proof.
  intros Hs (p & Hp & He & Hl). destruct (same_pget _ _ _ _ Hs Hp) as (p' & Hp' & Hst%strip_fields).
  destruct Hst as (Hf & _ & _ & _ & _ & Hep & _). exists p'. unfold live. split_and!; congruence.
Qed.

Lemma ipcs_same s s' C : same s s' -> ipcs s C -> ipcs s' C.
Proof.
  intros Hs Hi.
  assert (forall n p', pget s' n = Some p' -> exists p, pget s n = Some p /\
    p_rts_flags p' = p_rts_flags p /\ p_priority p' = p_priority p /\ p_endpoint p' = p_endpoint p /\
    p_getfrom_e p' = p_getfrom_e p /\ p_sendto_e p' = p_sendto_e p /\
    p_caller_q p' = p_caller_q p /\ p_q_link p' = p_q_link p /\ p_nr p' = p_nr p) as Hback.
  { intros n p' Hp'. destruct (same_pget_inv _ _ _ _ Hs Hp') as (p & Hp & Hst).
    pose proof (strip_fields _ _ Hst) as (? & ? & ? & ? & ? & ? & ? & ?).
    pose proof (strip_ipc_fields _ _ Hst) as (? & ? & ? & _). exists p. by split_and!. }
  split.
  - intros n p' (p & Hp & _ & _ & _ & _ & _ & -> & _)%Hback.
    eapply linked_ext; [|by eapply (c_head _ _ Hi)]. intros m _. symmetry. by apply qnx_same.
  - apply (c_nodup _ _ Hi).
  - intros n m. rewrite (c_mem _ _ Hi). unfold sending. split.
    + intros (p & Hp & Hsd & Hto). destruct (same_pget _ _ _ _ Hs Hp) as (p' & Hp' & Hst%strip_fields).
      destruct Hst as (Hf & _ & _ & _ & _ & _ & _ & Hst). exists p'. by rewrite Hf, Hst.
    + intros (p' & (p & Hp & Hf & _ & _ & _ & Hst & _)%Hback & Hsd & Hto). exists p. by rewrite <-Hf, <-Hst.
  - intros m p' (p & Hp & Hf & _ & _ & _ & _ & _ & -> & _)%Hback Hsd. apply (c_idle _ _ Hi m p Hp).
    unfold sending in *. by rewrite <-Hf.
  - intros n p' (p & Hp & _ & _ & _ & _ & _ & _ & _ & ->)%Hback. by apply (c_nr _ _ Hi).
  - intros n p' (p & Hp & Hf & _ & -> & _)%Hback Hl. apply (c_ep _ _ Hi n p Hp). unfold live in *. congruence.
  - intros n p' (p & Hp & Hf & -> & _)%Hback Hl. apply (c_prio _ _ Hi n p Hp). unfold live in *. congruence.
  - intros m p' (p & Hp & Hf & _ & _ & _ & -> & _)%Hback Hsd. eapply live_ep_same; [done|].
    apply (c_target _ _ Hi m p Hp). unfold sending in *. by rewrite <-Hf.
  - intros m p' (p & Hp & Hf & _ & _ & -> & _)%Hback Hr.
    destruct (c_from _ _ Hi m p Hp) as [?|?]; [unfold receiving in *; by rewrite <-Hf|by left|].
    right. by eapply live_ep_same.
  - intros m p' (p & Hp & Hf & _ & _ & -> & -> & _)%Hback Hs1 Hr1. apply (c_both _ _ Hi m p Hp).
    + unfold sending in *. by rewrite <-Hf.
    + unfold receiving in *. by rewrite <-Hf.
  - intros n p' (p & Hp & Hf & _)%Hback Hl. unfold RTS_ISSET. rewrite Hf.
    apply (c_free _ _ Hi n p Hp). unfold live in *. congruence.
  - rewrite (same_proc_ptr _ _ Hs). intros p' (p & Hp & Hf & _)%Hback. unfold live. rewrite Hf.
    by apply (c_cur _ _ Hi).
Qed.

(** Changing fields of a process that neither queues nor the wait-for graph depend on. *)
Record keeps_queue (f : proc -> proc) (p : proc) : Prop := {
  k_nr : p_nr (f p) = p_nr p;
  k_ep : p_endpoint (f p) = p_endpoint p;
  k_prio : queue_nr (p_priority p) -> queue_nr (p_priority (f p));
  k_caller_q : p_caller_q (f p) = p_caller_q p;
  k_q_link : p_q_link (f p) = p_q_link p;
  k_sendto : p_sendto_e (f p) = p_sendto_e p;
  k_sending : sending (f p) = sending p;
  k_live : live (f p) <-> live p;
  k_free : RTS_ISSET (f p) RTS_SLOT_FREE = RTS_ISSET p RTS_SLOT_FREE;
}.
Record keeps_ipc (f : proc -> proc) (p : proc) : Prop := {
  k_queue :> keeps_queue f p;
  k_receiving : receiving (f p) = true -> receiving p = true /\ p_getfrom_e (f p) = p_getfrom_e p;
}.

Lemma pget_cases s n f m p' :
  pget (pset n f s) m = Some p' ->
  exists p, pget s m = Some p /\ ((m = n /\ p' = f p) \/ (m <> n /\ p' = p)).
Proof.
  rewrite pget_pset. case_decide as Hd; [|intros; exists p'; naive_solver].
  subst m. destruct (pget s n) as [p|]; [|done]. intros [= <-]. exists p. naive_solver.
Qed.

Lemma live_ep_pset s n f p e :
  pget s n = Some p -> p_endpoint (f p) = p_endpoint p -> (live p -> live (f p)) ->
  live_ep s e -> live_ep (pset n f s) e.
Proof.
  intros Hp Hep Hl (q & Hq & He & Hlq). destruct (decide (_ENDPOINT_P e = n)) as [Hn|Hn].
  - exists (f p). rewrite Hn in *. rewrite pget_pset_eq, Hp. assert (q = p) as -> by congruence.
    split_and!; [done|congruence|by apply Hl].
  - exists q. rewrite pget_pset_ne by done. done.
Qed.

Lemma qnx_pset s n f m :
  (forall p, pget s n = Some p -> p_q_link (f p) = p_q_link p) \/ m <> n ->
  qnx (pset n f s) m = qnx s m.
Proof.
  intros Hf. unfold qnx. rewrite pget_pset. case_decide as Hd; [|done]. subst m.
  destruct Hf as [Hf|]; [|done]. destruct (pget s n) as [p|]; [|done]. simpl. f_equal. by apply Hf.
Qed.

Lemma ipcs_pset_receiving s n f p C :
  ipcs s C -> pget s n = Some p -> keeps_queue f p ->
  (receiving (f p) = true ->
   (p_getfrom_e (f p) = ANY \/ live_ep s (p_getfrom_e (f p))) /\
   (sending p = true -> p_getfrom_e (f p) = p_sendto_e p)) ->
  ipcs (pset n f s) C.
Proof.
  intros Hi Hp Hk Hrcv.
  assert (forall e, live_ep s e -> live_ep (pset n f s) e) as Hle.
  { intros e. apply (live_ep_pset s n f p); [done|apply (k_ep _ _ Hk)|apply (k_live _ _ Hk)]. }
  assert (forall m p', pget (pset n f s) m = Some p' -> exists q, pget s m = Some q /\
    ((m = n /\ q = p /\ p' = f p) \/ (p' = q))) as Hback.
  { intros m p' Hp'. destruct (pget_cases _ _ _ _ _ Hp') as (q & Hq & [[-> ->]|[_ ->]]);
      [|by exists q; eauto]. exists p. assert (q = p) by congruence. subst. eauto. }
  split.
  - intros m p' (q & Hq & Hc)%Hback. assert (p_caller_q p' = p_caller_q q) as ->.
    { destruct Hc as [(_ & -> & ->)| ->]; [apply (k_caller_q _ _ Hk)|done]. }
    eapply linked_ext; [|by eapply (c_head _ _ Hi)]. intros k _. symmetry. apply qnx_pset.
    left. intros p0 Hp0. assert (p0 = p) as -> by congruence. apply (k_q_link _ _ Hk).
  - apply (c_nodup _ _ Hi).
  - intros k m. rewrite (c_mem _ _ Hi). split.
    + intros (q & Hq & Hs & Ht). rewrite pget_pset. case_decide as Hd; [|by exists q].
      subst m. exists (f p). assert (q = p) as -> by congruence. rewrite Hp.
      rewrite (k_sending _ _ Hk), (k_sendto _ _ Hk). done.
    + intros (p' & (q & Hq & Hc)%Hback & Hs & Ht). exists q.
      destruct Hc as [(-> & -> & ->)| ->]; [|done].
      by rewrite <-(k_sending _ _ Hk), <-(k_sendto _ _ Hk).
  - intros m p' (q & Hq & Hc)%Hback Hs. destruct Hc as [(-> & -> & ->)| ->]; [|by apply (c_idle _ _ Hi m)].
    rewrite (k_q_link _ _ Hk). apply (c_idle _ _ Hi n); [done|]. by rewrite <-(k_sending _ _ Hk).
  - intros m p' (q & Hq & Hc)%Hback. destruct Hc as [(-> & -> & ->)| ->]; [|by apply (c_nr _ _ Hi m)].
    rewrite (k_nr _ _ Hk). by apply (c_nr _ _ Hi).
  - intros m p' (q & Hq & Hc)%Hback Hl. destruct Hc as [(-> & -> & ->)| ->]; [|by apply (c_ep _ _ Hi m)].
    rewrite (k_ep _ _ Hk). apply (c_ep _ _ Hi); [done|]. by apply (k_live _ _ Hk).
  - intros m p' (q & Hq & Hc)%Hback Hl. destruct Hc as [(-> & -> & ->)| ->]; [|by apply (c_prio _ _ Hi m)].
    apply (k_prio _ _ Hk), (c_prio _ _ Hi n); [done|]. by apply (k_live _ _ Hk).
  - intros m p' (q & Hq & Hc)%Hback Hs. apply Hle. destruct Hc as [(-> & -> & ->)| ->]; [|by apply (c_target _ _ Hi m)].
    rewrite (k_sendto _ _ Hk). apply (c_target _ _ Hi n); [done|]. by rewrite <-(k_sending _ _ Hk).
  - intros m p' (q & Hq & Hc)%Hback Hr. destruct Hc as [(-> & -> & ->)| ->].
    + destruct (Hrcv Hr) as [[?|?] _]; [by left|right; by apply Hle].
    + destruct (c_from _ _ Hi m q Hq Hr); [by left|right; by apply Hle].
  - intros m p' (q & Hq & Hc)%Hback Hs Hr. destruct Hc as [(-> & -> & ->)| ->]; [|by apply (c_both _ _ Hi m)].
    rewrite (k_sendto _ _ Hk). apply Hrcv; [done|]. by rewrite <-(k_sending _ _ Hk).
  - intros m p' (q & Hq & Hc)%Hback Hl. destruct Hc as [(-> & -> & ->)| ->]; [|by apply (c_free _ _ Hi m)].
    rewrite (k_free _ _ Hk). apply (c_free _ _ Hi n); [done|]. by apply (k_live _ _ Hk).
  - change (proc_ptr (pset n f s)) with (proc_ptr s). intros p' (q & Hq & Hc)%Hback.
    destruct Hc as [(Hm & -> & ->)| ->]; [|by apply (c_cur _ _ Hi)].
    apply (k_live _ _ Hk). apply (c_cur _ _ Hi). by rewrite Hm.
Qed.

Lemma ipcs_pset s n f p C : ipcs s C -> pget s n = Some p -> keeps_ipc f p -> ipcs (pset n f s) C.
Proof.
  intros Hi Hp [Hk Hr]. apply (ipcs_pset_receiving s n f p); [done..|].
  intros Hrf. destruct (Hr Hrf) as [Hrp ->]. split; [by apply (c_from _ _ Hi n p)|].
  intros Hs. by apply (c_both _ _ Hi n p).
Qed.
End invariant.

(** ** The wait-for graph *)
Section chains.
Context `{MinixLaws} `{KernelHeaders} {W : Type} `{KernelEnvLaws W}.
Implicit Types (s : state W) (Q : Z -> list Z) (C : Z -> list Z).
#[local] Hint Resolve get_proc_run set_proc_run : run.

(** The endpoint the process with endpoint [e] waits for. *)
Definition next s (e : Z) : Z :=
  if decide (e = ANY \/ e = NONE) then e else from_option P_BLOCKEDON NONE (pget s (_ENDPOINT_P e)).
Definition chain s (e : Z) (k : nat) : Z := Nat.iter k (next s) e.

(** The chain of processes that starts at [e] ends. *)
Definition ends s (e : Z) : Prop := exists k, chain s e k = ANY \/ chain s e k = NONE.
(** No process waits for itself, directly or through others. *)
Definition acyclic s : Prop := forall e, live_ep s e -> ends s e.

Lemma chain_S s e k : chain s e (S k) = next s (chain s e k).
Proof. done. Qed.
Lemma chain_next s e k : chain s (next s e) k = chain s e (S k).
Proof. unfold chain. induction k as [|k IH]; [done|]. simpl in *. by rewrite IH. Qed.
Lemma chain_add s e i j : chain s e (i + j) = chain s (chain s e j) i.
Proof. unfold chain. induction i as [|i IH]; [done|]. simpl in *. by rewrite IH. Qed.

Lemma slot_range s Q n p : rq s Q -> pget s n = Some p -> - NR_TASKS <= n < NR_PROCS.
Proof. intros Hrq. apply pget_range, (q_length _ _ (r_queues _ _ Hrq)). Qed.

Lemma live_ep_slot s Q C e : ipc s Q C -> live_ep s e -> e <> ANY /\ e <> NONE.
Proof.
  intros [Hrq Hi] (p & Hp & He & Hl). pose proof (slot_range _ _ _ _ Hrq Hp) as Hr.
  pose proof ANY_no_slot. pose proof NONE_no_slot. split; intros ->; lia.
Qed.

Lemma live_pget s Q C n p : ipc s Q C -> pget s n = Some p -> live p -> live_ep s (p_endpoint p).
Proof. intros [_ Hi] Hp Hl. exists p. by rewrite (c_ep _ _ Hi n p Hp Hl). Qed.

Lemma isokendpt_run s Q C e :
  ipc s Q C -> live_ep s e -> isokendpt e s = Ret (true, _ENDPOINT_P e) s.
Proof.
  intros [Hrq Hi] (p & Hp & He & Hl). pose proof (slot_range _ _ _ _ Hrq Hp) as Hr.
  unfold isokendpt, isokprocn. pose proof NR_TASKS_nonneg. pose proof NR_TASKS_bound. pose proof NR_PROCS_bound.
  rewrite u32_small by lia. rewrite (proj2 (Z.ltb_lt _ _)) by lia. cbn [negb]. run_step.
  unfold isemptyp. rewrite (proj2 (Z.eqb_neq _ _) Hl), He, Z.eqb_refl. done.
Qed.

Lemma okendpt_run s Q C e : ipc s Q C -> live_ep s e -> okendpt e s = Ret (_ENDPOINT_P e) s.
Proof.
  intros Hi He. unfold okendpt. by rewrite (bind_ret _ _ _ _ _ (isokendpt_run _ _ _ _ Hi He)).
Qed.

Lemma blocked_on_cases s C n p :
  ipcs s C -> pget s n = Some p ->
  P_BLOCKEDON p = ANY \/ P_BLOCKEDON p = NONE \/ live_ep s (P_BLOCKEDON p).
Proof.
  intros Hi Hp. unfold P_BLOCKEDON. fold (sending p). fold (receiving p).
  destruct (sending p) eqn:Hs; [right; right; by eapply c_target|].
  destruct (receiving p) eqn:Hr; [|by right; left].
  destruct (c_from _ _ Hi n p Hp Hr); eauto.
Qed.

Lemma next_live s Q C e p :
  ipc s Q C -> pget s (_ENDPOINT_P e) = Some p -> p_endpoint p = e -> live p -> next s e = P_BLOCKEDON p.
Proof.
  intros Hi Hp He Hl. unfold next. rewrite decide_False, Hp; [done|].
  destruct (live_ep_slot s Q C e Hi) as [Hany Hnone]; [by exists p|]. tauto.
Qed.

(** Along a chain every endpoint is live until the chain ends. *)
Lemma chain_live s Q C e k :
  ipc s Q C -> live_ep s e -> chain s e k = ANY \/ chain s e k = NONE \/ live_ep s (chain s e k).
Proof.
  intros Hi He. induction k as [|k IH]; [by right; right|]. rewrite chain_S.
  destruct IH as [Hk|[Hk|Hk]].
  - left. unfold next. by rewrite decide_True, Hk by tauto.
  - right; left. unfold next. by rewrite decide_True, Hk by tauto.
  - destruct Hk as (p & Hp & Hpe & Hl). rewrite (next_live _ _ _ _ _ Hi Hp Hpe Hl).
    eapply blocked_on_cases; [apply (proj2 Hi)|done].
Qed.

(** The body of the loop of [deadlock]. *)
Definition deadlock_body (function : Z) (c : proc) '((e, group_size) : Z * Z) : M (state W) (Z * Z + Z) :=
  if e =? ANY then mret (inr 0) else
  slot ← okendpt e;
  xp ← get_proc slot;
  assert_ (proc_ptr_ok xp);;
  assert_ (negb (RTS_ISSET xp RTS_SLOT_FREE));;
  (if group_size <? NR_PROCS + NR_TASKS then mret tt else halt Undef);;
  let group_size := group_size + 1 in
  let e := P_BLOCKEDON xp in
  if e =? NONE then mret (inr 0) else
  if e =? p_endpoint c then
    if (group_size =? 2) &&
       has (Z.lxor (p_rts_flags xp) (Z.shiftl function 2)) RTS_SENDING
    then mret (inr 0) else mret (inr group_size)
  else mret (inl (e, group_size)).

(** A call is part of a cycle of two that is resolved: one sends and the other receives. *)
Definition resolved (function : Z) (xp : proc) : bool :=
  has (Z.lxor (p_rts_flags xp) (Z.shiftl function 2)) RTS_SENDING.

Definition slots : Z := NR_PROCS + NR_TASKS.

Lemma deadlock_body_run s Q C f c e g :
  ipc s Q C -> live_ep s e -> g < slots ->
  exists xp, pget s (_ENDPOINT_P e) = Some xp /\ p_endpoint xp = e /\ next s e = P_BLOCKEDON xp /\
  deadlock_body f c (e, g) s =
    Ret (if P_BLOCKEDON xp =? NONE then inr 0 else
         if P_BLOCKEDON xp =? p_endpoint c then
           if (g + 1 =? 2) && resolved f xp then inr 0 else inr (g + 1)
         else inl (P_BLOCKEDON xp, g + 1)) s.
Proof.
  intros Hi He Hg. destruct (live_ep_slot _ _ _ _ Hi He) as [Hany _].
  pose proof He as (xp & Hp & Hpe & Hl). exists xp. split_and!; [done|done|by eapply next_live|].
  unfold deadlock_body. rewrite (proj2 (Z.eqb_neq _ _) Hany).
  rewrite (bind_ret _ _ _ _ _ (okendpt_run _ _ _ _ Hi He)). run_step.
  unfold proc_ptr_ok. rewrite (r_magic _ _ (proj1 Hi) _ _ Hp), Z.eqb_refl. run_step.
  rewrite (c_free _ _ (proj2 Hi) _ _ Hp Hl). run_step.
  unfold slots in Hg. rewrite (proj2 (Z.ltb_lt _ _) Hg). run_step. unfold resolved.
  by repeat case_match.
Qed.

Lemma deadlock_body_full s Q C f c e g :
  ipc s Q C -> live_ep s e -> slots <= g -> deadlock_body f c (e, g) s = Halt Undef s.
Proof.
  intros Hi He Hg. destruct (live_ep_slot _ _ _ _ Hi He) as [Hany _].
  pose proof He as (xp & Hp & Hpe & Hl).
  unfold deadlock_body. rewrite (proj2 (Z.eqb_neq _ _) Hany).
  rewrite (bind_ret _ _ _ _ _ (okendpt_run _ _ _ _ Hi He)). run_step.
  unfold proc_ptr_ok. rewrite (r_magic _ _ (proj1 Hi) _ _ Hp), Z.eqb_refl. run_step.
  rewrite (c_free _ _ (proj2 Hi) _ _ Hp Hl). run_step.
  unfold slots in Hg. rewrite (proj2 (Z.ltb_ge _ _) Hg). done.
Qed.

(** The chain reaches its end or the caller. *)
Definition stops s (c : proc) (e : Z) (k : nat) : Prop :=
  chain s e k = ANY \/ chain s e k = NONE \/ chain s e k = p_endpoint c.
#[global] Instance stops_dec s c e k : Decision (stops s c e k).
Proof. unfold stops. apply _. Defined.
Definition first_stop s c e (d : nat) : Prop :=
  stops s c e d /\ forall k, (k < d)%nat -> ~ stops s c e k.

(** The result of [deadlock] when the chain stops after [d] steps. *)
Definition verdict s (f : Z) (c : proc) (e : Z) (d : nat) : Z :=
  if decide (chain s e d = p_endpoint c) then
    match pget s (_ENDPOINT_P e) with
    | Some xp => if bool_decide (d = 1%nat) && resolved f xp then 0 else Z.of_nat d + 1
    | None => 0
    end
  else 0.

Lemma not_stop_live s Q C c e k :
  ipc s Q C -> e = ANY \/ live_ep s e -> (forall j, (j <= k)%nat -> ~ stops s c e j) ->
  live_ep s (chain s e k).
Proof.
  intros Hi [->|He] Hk; [exfalso; apply (Hk 0%nat); [lia|by left]|].
  destruct (chain_live s Q C e k Hi He) as [?|[?|?]]; [..|done];
    exfalso; apply (Hk k); unfold stops; auto.
Qed.

(** Before the first stop the chain visits distinct slots other than the caller's. *)
Lemma first_stop_bound s Q C cp c e d :
  ipc s Q C -> pget s cp = Some c -> live c -> e = ANY \/ live_ep s e ->
  (forall k, (k < d)%nat -> ~ stops s c e k) -> stops s c e d ->
  Z.of_nat d < slots.
Proof.
  intros Hi Hc Hl He Hbefore Hstop.
  assert (forall k, (k < d)%nat -> live_ep s (chain s e k)) as Hlive.
  { intros k Hk. eapply not_stop_live; [done|done|]. intros j Hj. apply Hbefore. lia. }
  set (slot k := _ENDPOINT_P (chain s e k)).
  assert (NoDup (cp :: map slot (seq 0 d))) as Hnd.
  { apply list.NoDup_cons. split.
    - rewrite list_elem_of_In, in_map_iff. intros (k & Hk & Hkd%in_seq).
      destruct (Hlive k ltac:(lia)) as (p & Hp & Hpe & _). unfold slot in Hk. rewrite Hk in Hp.
      apply (Hbefore k); [lia|]. right; right. congruence.
    - apply NoDup_fmap_2_strong; [|apply NoDup_seq]. intros i j Hi' Hj Hij.
      apply elem_of_seq in Hi', Hj.
      assert (forall i j, (i < j < d)%nat -> slot i = slot j -> False) as Hne.
      { clear i j Hi' Hj Hij. intros i j Hij Hsl.
        assert (chain s e i = chain s e j) as Hch.
        { destruct (Hlive i ltac:(lia)) as (p & Hp & Hpe & _).
          destruct (Hlive j ltac:(lia)) as (q & Hq & Hqe & _).
          unfold slot in Hsl. rewrite Hsl in Hp. congruence. }
        apply (Hbefore (i + (d - j))%nat); [lia|]. unfold stops.
        rewrite (Nat.add_comm i), chain_add, Hch, <-chain_add.
        by replace (d - j + j)%nat with d by lia. }
      destruct (lt_eq_lt_dec i j) as [[Hlt|Heq]|Hgt]; [|done|]; exfalso.
      + apply (Hne i j); [lia|done].
      + apply (Hne j i); [lia|done]. }
  assert (length (cp :: map slot (seq 0 d)) <= length (seqZ (- NR_TASKS) slots))%nat as Hlen.
  { apply submseteq_length, NoDup_submseteq; [done|]. intros n Hn.
    assert (exists p, pget s n = Some p) as [p Hp].
    { apply elem_of_cons in Hn as [->|Hn]; [by exists c|].
      apply list_elem_of_In, in_map_iff in Hn as (k & <- & Hk%in_seq).
      destruct (Hlive k ltac:(lia)) as (p & Hp & _). by exists p. }
    apply elem_of_seqZ. pose proof (slot_range _ _ _ _ (proj1 Hi) Hp). unfold slots. lia. }
  rewrite length_seqZ in Hlen. simpl in Hlen. rewrite length_map, length_seq in Hlen.
  pose proof NR_PROCS_pos. pose proof NR_TASKS_nonneg. unfold slots in *. lia.
Qed.

Lemma deadlock_turns s Q C f c e d :
  ipc s Q C -> e = ANY \/ live_ep s e -> (forall k, (k <= d)%nat -> ~ stops s c e k) ->
  Z.of_nat d < slots ->
  forall j, (j < d)%nat ->
    deadlock_body f c (chain s e j, Z.of_nat j + 1) s =
    Ret (inl (chain s e (S j), Z.of_nat (S j) + 1)) s.
Proof.
  intros Hi He Hno Hd j Hj.
  assert (live_ep s (chain s e j)) as Hlj.
  { eapply not_stop_live; [done|done|]. intros k Hk. apply Hno. lia. }
  destruct (deadlock_body_run s Q C f c _ (Z.of_nat j + 1) Hi Hlj ltac:(lia)) as (xp & Hp & Hpe & Hnext & ->).
  rewrite <-Hnext, <-chain_S. assert (~ stops s c e (S j)) as Hns by (apply Hno; lia).
  unfold stops in Hns. rewrite (proj2 (Z.eqb_neq _ _)), (proj2 (Z.eqb_neq _ _)) by tauto.
  do 4 f_equal. lia.
Qed.

(** The check for deadlock follows the chain to its first stop. *)
Lemma deadlock_run s Q C cp c f e d :
  ipc s Q C -> pget s cp = Some c -> live c -> e = ANY \/ live_ep s e -> e <> p_endpoint c ->
  first_stop s c e d -> deadlock f cp e s = Ret (verdict s f c e d) s.
Proof.
  intros Hi Hc Hl He Hne [Hstop Hbefore]. unfold deadlock. run_step.
  change (loop_ queue_fuel (deadlock_body f c) (e, 1) s = Ret (verdict s f c e d) s).
  pose proof (first_stop_bound _ _ _ _ _ _ _ Hi Hc Hl He Hbefore Hstop) as Hd.
  set (turn := fun j => (chain s e j, Z.of_nat j + 1)). change (e, 1) with (turn 0%nat).
  assert (d <= S (Z.to_nat (NR_TASKS + NR_PROCS)))%nat as Hf by (unfold slots in Hd; lia).
  destruct d as [|d].
  - apply (loop_run _ _ turn 0); [lia| |unfold queue_fuel; lia]. subst turn; cbn beta.
    assert (e = ANY) as ->.
    { destruct He as [->|He]; [done|]. destruct (live_ep_slot _ _ _ _ Hi He).
      destruct Hstop as [Hs|[Hs|Hs]]; simpl in Hs; congruence. }
    unfold deadlock_body. simpl. rewrite Z.eqb_refl. unfold verdict. rewrite decide_False; done.
  - assert (live_ep s (chain s e d)) as Hld.
    { eapply not_stop_live; [done|done|]. intros k Hk. apply Hbefore. lia. }
    destruct (deadlock_body_run s Q C f c _ (Z.of_nat d + 1) Hi Hld ltac:(lia)) as (xp & Hp & Hpe & Hnext & Hrun).
    assert (forall j, (j < d)%nat -> deadlock_body f c (turn j) s = Ret (inl (turn (S j))) s) as Hturns.
    { apply (deadlock_turns s Q C f c e d); [done|done| |lia]. intros k Hk. apply Hbefore. lia. }
    destruct (Z.eqb_spec (P_BLOCKEDON xp) ANY) as [Hany|Hany].
    + apply (loop_run _ _ turn (S d)); [|subst turn; cbn beta|unfold queue_fuel; lia].
      * intros j Hj. destruct (decide (j < d)%nat) as [Hjd|Hjd]; [by apply Hturns|].
        assert (j = d) as -> by lia. subst turn. cbn beta. rewrite Hrun, Hany.
        rewrite (proj2 (Z.eqb_neq ANY NONE)) by apply ANY_not_NONE.
        destruct (Z.eqb_spec ANY (p_endpoint c)) as [Heq|Heq].
        { destruct (live_ep_slot s Q C (p_endpoint c) Hi); [by eapply live_pget|congruence]. }
        rewrite chain_S, Hnext, Hany. do 4 f_equal. lia.
      * rewrite chain_S, Hnext, Hany. unfold deadlock_body. rewrite Z.eqb_refl.
        unfold verdict. rewrite chain_S, Hnext, Hany, decide_False; [done|].
        intros Heq. destruct (live_ep_slot s Q C (p_endpoint c) Hi); [by eapply live_pget|congruence].
    + apply (loop_run _ _ turn d); [exact Hturns|subst turn; cbn beta|unfold queue_fuel; lia].
      { rewrite Hrun. unfold verdict. rewrite chain_S, Hnext. unfold stops in Hstop.
        rewrite chain_S, Hnext in Hstop.
        destruct (Z.eqb_spec (P_BLOCKEDON xp) NONE) as [Hn|Hn].
        { rewrite decide_False; [done|]. intros Heq.
          destruct (live_ep_slot s Q C (p_endpoint c) Hi); [by eapply live_pget|congruence]. }
        assert (P_BLOCKEDON xp = p_endpoint c) as Heq by tauto.
        rewrite (proj2 (Z.eqb_eq _ _) Heq), decide_True by done.
        destruct d as [|d].
        { simpl in Hp. rewrite Hp. simpl. by destruct (resolved f xp). }
        { rewrite (proj2 (Z.eqb_neq _ _)) by lia.
          destruct He as [->|He]; [exfalso; apply (Hbefore 0%nat); [lia|by left]|].
          destruct He as (xp0 & -> & _). simpl. do 2 f_equal. lia. } }
Qed.

(** A chain that never stops makes the check write outside its array. *)
Lemma deadlock_overflow s Q C cp c f e :
  ipc s Q C -> pget s cp = Some c -> e = ANY \/ live_ep s e -> (forall k, ~ stops s c e k) ->
  deadlock f cp e s = Halt Undef s.
Proof.
  intros Hi Hc He Hno. unfold deadlock. run_step.
  change (loop_ queue_fuel (deadlock_body f c) (e, 1) s = Halt Undef s).
  set (turn := fun j => (chain s e j, Z.of_nat j + 1)). change (e, 1) with (turn 0%nat).
  pose proof NR_PROCS_pos. pose proof NR_TASKS_nonneg.
  set (d := Z.to_nat (slots - 1)). assert (Z.of_nat d = slots - 1) as Hd by (unfold d, slots; lia).
  apply (loop_run_halt _ _ turn d).
  - apply (deadlock_turns s Q C f c e d); [done|done| |lia]. intros k _. apply Hno.
  - subst turn; cbn beta. eapply deadlock_body_full; [done| |lia].
    eapply not_stop_live; [done|done|]. intros j _. apply Hno.
  - unfold queue_fuel, d, slots. lia.
Qed.

(** In an acyclic state every chain stops. *)
Lemma acyclic_stops s c e : acyclic s -> e = ANY \/ live_ep s e -> exists d, first_stop s c e d.
Proof.
  intros Ha He. assert (exists k, stops s c e k) as [k Hk].
  { destruct He as [->|He]; [by exists 0%nat; left|]. destruct (Ha e He) as (k & Hk). exists k.
    unfold stops. tauto. }
  destruct (least_nat (stops s c e) k Hk) as (d & _ & Hd & Hleast). by exists d.
Qed.
End chains.

(** ** Running the operations on processes *)
(** Proves that an update of other fields is [quiet]. *)
Ltac quiet_tac := split; [by split|intros ?; split; [by split|by split]|done|done].
Section runs.
Context `{MinixLaws} `{KernelHeaders} {W : Type} `{KernelEnvLaws W}.
Implicit Types (s : state W) (Q : Z -> list Z) (C : Z -> list Z).

Definition misc_on (f : Z) (p : proc) : proc := p <| p_misc_flags := s16 (Z.lor (p_misc_flags p) f) |>.
Definition misc_off (f : Z) (p : proc) : proc := p <| p_misc_flags := s16 (Z.ldiff (p_misc_flags p) f) |>.
Definition add_status (m : Z) (p : proc) : proc :=
  if MF p MF_REPLY_PEND then p else p <| p_status := u32 (Z.lor (p_status p) m) |>.
Definition drop_reply (p : proc) : proc := if MF p MF_REPLY_PEND then misc_off MF_REPLY_PEND p else p.
Definition set_msg (m : message) (p : proc) : proc := p <| p_delivermsg := m |>.
Definition set_source (e : Z) (p : proc) : proc := p <| p_delivermsg := (p_delivermsg p) <| m_source := e |> |>.

Lemma pset_id s n f : (forall p, pget s n = Some p -> f p = p) -> pset n f s = s.
Proof.
  intros Hf. unfold pset. rewrite (aupd_id _ _ _ Hf). by destruct s.
Qed.
Lemma pset_ext s n f g : (forall p, pget s n = Some p -> f p = g p) -> pset n f s = pset n g s.
Proof.
  intros Hf. unfold pset. by assert (aupd (proc_addr n) f (procs s) = aupd (proc_addr n) g (procs s)) as ->
    by by apply aupd_ext.
Qed.
Lemma pset_pset s n f g : pset n f (pset n g s) = pset n (f ∘ g) s.
Proof. unfold pset. cbn. by rewrite aupd_aupd. Qed.
Lemma pget_pset_some s n f p : pget s n = Some p -> pget (pset n f s) n = Some (f p).
Proof. intros Hp. by rewrite pget_pset_eq, Hp. Qed.
Lemma pget_pset_other s n m f p : m <> n -> pget s m = Some p -> pget (pset n f s) m = Some p.
Proof. intros Hne Hp. by rewrite pget_pset_ne. Qed.

Lemma set_misc_run s n p f : pget s n = Some p -> set_misc n f s = Ret tt (pset n (misc_on f) s).
Proof. apply set_proc_run. Qed.
Lemma clear_misc_run s n p f : pget s n = Some p -> clear_misc n f s = Ret tt (pset n (misc_off f) s).
Proof. apply set_proc_run. Qed.

Lemma IPC_STATUS_ADD_run s n p m :
  pget s n = Some p -> IPC_STATUS_ADD n m s = Ret tt (pset n (add_status m) s).
Proof.
  intros Hp. unfold IPC_STATUS_ADD. rewrite (bind_ret _ _ _ _ _ (get_proc_run _ _ _ Hp)).
  destruct (MF p MF_REPLY_PEND) eqn:Hm.
  - rewrite pset_id; [done|]. intros p' Hp'. unfold add_status.
    assert (p' = p) as -> by congruence. by rewrite Hm.
  - rewrite (set_proc_run _ _ _ _ Hp). f_equal. apply pset_ext.
    intros p' Hp'. assert (p' = p) as -> by congruence. unfold add_status. by rewrite Hm.
Qed.

Lemma drop_reply_run {A} s n p (k : M (state W) A) :
  pget s n = Some p ->
  (p ← get_proc n; (if MF p MF_REPLY_PEND then clear_misc n MF_REPLY_PEND else mret tt);; k) s =
  k (pset n drop_reply s).
Proof.
  intros Hp. rewrite (bind_ret _ _ _ _ _ (get_proc_run _ _ _ Hp)).
  destruct (MF p MF_REPLY_PEND) eqn:Hm.
  - rewrite (bind_ret _ _ _ _ _ (clear_misc_run _ _ _ _ Hp)). f_equal. apply pset_ext.
    intros p' Hp'. assert (p' = p) as -> by congruence. unfold drop_reply. by rewrite Hm.
  - rewrite pset_id; [done|]. intros p' Hp'. assert (p' = p) as -> by congruence. unfold drop_reply. by rewrite Hm.
Qed.

(** Updates that leave everything alone that scheduling and the queues depend on. *)
Record quiet (f : proc -> proc) : Prop := {
  y_neutral : neutral f;
  y_keeps p : keeps_ipc f p;
  y_prio p : p_priority (f p) = p_priority p;
  y_getfrom p : p_getfrom_e (f p) = p_getfrom_e p;
}.

Lemma quiet_compose f g : quiet f -> quiet g -> quiet (f ∘ g).
Proof.
  intros [[] Hkf Hpf Hgf] [[] Hkg Hpg Hgg].
  split; [split; simpl; intros p; congruence| |simpl; congruence|simpl; congruence].
  intros p. destruct (Hkf (g p)) as [[] Hrf], (Hkg p) as [[] Hrg]. split; [split|]; simpl; try congruence; try tauto.
  intros Hr. destruct (Hrf Hr) as [Hr' ->]. by apply Hrg.
Qed.

Lemma quiet_misc_on f : quiet (misc_on f).
Proof. quiet_tac. Qed.
Lemma quiet_misc_off f : quiet (misc_off f).
Proof. quiet_tac. Qed.
Lemma quiet_set_msg m : quiet (set_msg m).
Proof. quiet_tac. Qed.
Lemma quiet_set_source e : quiet (set_source e).
Proof. quiet_tac. Qed.
Lemma quiet_add_status m : quiet (add_status m).
Proof.
  split; [split; intros p|intros p|intros p|intros p]; unfold add_status; destruct (MF p MF_REPLY_PEND) eqn:Hm;
    try done; (split; [split|]; rewrite ?Hm; try done; unfold live; by rewrite Hm).
Qed.
Lemma quiet_drop_reply : quiet drop_reply.
Proof.
  split; [split; intros p|intros p|intros p|intros p]; unfold drop_reply; destruct (MF p MF_REPLY_PEND) eqn:Hm;
    try done; (split; [split|]; rewrite ?Hm; try done; unfold live; by rewrite Hm).
Qed.
Lemma quiet_id : quiet id.
Proof. quiet_tac. Qed.

Lemma ipc_quiet s Q C n p f : ipc s Q C -> pget s n = Some p -> quiet f -> ipc (pset n f s) Q C.
Proof.
  intros [Hrq Hi] Hp Hy. split.
  - apply (rq_pset s Q n p f); [done|apply (y_neutral _ Hy)|done|]. intros _. apply (y_prio _ Hy).
  - apply (ipcs_pset s n f p); [done|done|apply (y_keeps _ Hy)].
Qed.

(** Changing a process commutes with [same]. *)
Lemma same_pset s s' n f :
  (forall p, f (strip p) = strip (f p)) -> same s s' -> same (pset n f s) (pset n f s').
Proof.
  intros Hf [Hv Hl Hh Hpv Hpp Hb Hr Hw]. split; try done.
  - intros m. unfold view. rewrite !pget_pset. case_decide as Hm; [|apply (Hv m)].
    specialize (Hv m). unfold view in Hv.
    destruct (pget s' m) as [x|], (pget s m) as [y|]; [|done..].
    assert (strip x = strip y) as Hxy by exact (inj Some _ _ Hv). simpl. by rewrite <-!Hf, Hxy.
  - unfold pset. simpl. by rewrite !length_aupd.
Qed.
End runs.
#[export] Hint Resolve quiet_misc_on quiet_misc_off quiet_set_msg quiet_set_source quiet_add_status
  quiet_drop_reply quiet_id : core.

(** ** Sending *)
Section send.
Context `{MinixLaws} `{KernelHeaders} {W : Type} `{KernelEnvLaws W}.
Implicit Types (s : state W) (Q : Z -> list Z) (C : Z -> list Z).
#[local] Hint Resolve get_proc_run set_proc_run set_misc_run clear_misc_run IPC_STATUS_ADD_run
  pget_pset_some pget_pset_other : run.

(** The message a caller passes, read from its memory or from the kernel. *)
Definition message_of s (caller : Z) (m_ptr : buffer) (flags : Z) : option message :=
  match m_ptr with
  | User addr => if has flags FROM_KERNEL then None else copy_msg_from_user caller addr (world s)
  | Kernel m => if has flags FROM_KERNEL then Some m else None
  end.

(** The receiver after the delivery of [m] from [src]. *)
Definition delivered (flags src call : Z) (m : message) : proc -> proc :=
  drop_reply ∘ (add_status (IPC_STATUS_CALL_TO call) ∘ (misc_on MF_DELIVERMSG ∘ (set_source src ∘
    ((if has flags FROM_KERNEL then add_status (IPC_STATUS_FLAGS IPC_FLG_MSG_FROM_KERNEL) else id) ∘
     set_msg m)))).

Lemma quiet_delivered flags src call m : quiet (delivered flags src call m).
Proof.
  unfold delivered. do 4 (apply quiet_compose; [auto|]). apply quiet_compose; [|auto].
  destruct (has flags FROM_KERNEL); auto.
Qed.

Definition send_call (flags : Z) (c : proc) : Z :=
  if MF c MF_REPLY_PEND then SENDREC else if has flags NON_BLOCKING then SENDNB else SEND.

Lemma fetch_run s caller n p m_ptr flags m (set : message -> proc -> proc) (k : M (state W) unit)
    (g : proc -> proc) :
  message_of s caller m_ptr flags = Some m -> pget s n = Some p ->
  (forall s p, pget s n = Some p -> k s = Ret tt (pset n g s)) ->
  (if negb (has flags FROM_KERNEL) then
     m ← user_message caller m_ptr;
     match m with
     | None => mret false
     | Some m => set_proc n (set m);; mret true
     end
   else
     m ← kernel_message m_ptr;
     set_proc n (set m);; k;; mret true) s =
  Ret true (pset n ((if has flags FROM_KERNEL then g else id) ∘ set m) s).
Proof.
  intros Hm Hp Hk. unfold message_of in Hm. rewrite <-pset_pset.
  destruct (has flags FROM_KERNEL), m_ptr as [addr|km]; try done; simpl.
  - injection Hm as ->. run_step. run_step.
    by rewrite (bind_ret _ _ _ _ _ (Hk _ _ (pget_pset_some _ _ _ _ Hp))).
  - assert (user_message caller (User addr) s = Ret (Some m) s) as Hu by (by rewrite <-Hm).
    rewrite (bind_ret _ _ _ _ _ Hu). run_step. by rewrite (pset_id _ _ id).
Qed.

(** A message for a receiver that waits is delivered at once. *)
Lemma mini_send_deliver_run s caller c d dst_e m_ptr flags m :
  let dst := _ENDPOINT_P dst_e in
  pget s caller = Some c -> pget s dst = Some d -> caller <> dst ->
  RTS_ISSET d RTS_NO_ENDPOINT = false -> WILLRECEIVE d (p_endpoint c) = true ->
  MF d MF_DELIVERMSG = false -> message_of s caller m_ptr flags = Some m ->
  mini_send caller dst_e m_ptr flags s =
  (RTS_UNSET dst RTS_RECEIVING;; mret OK)
    (pset dst (delivered flags (p_endpoint c) (send_call flags c) m) s).
Proof.
  intros dst Hc Hd Hne Hno Hwill Hdm Hm. unfold mini_send. fold dst. run_step. rewrite Hno. run_step.
  rewrite Hwill, Hdm. run_step.
  erewrite bind_ret by (eapply (fetch_run s caller dst d m_ptr flags m set_msg); [done|done|];
    intros s0 p0 Hp0; by apply (IPC_STATUS_ADD_run _ _ p0)).
  cbn [negb]. set (g := (if has flags FROM_KERNEL then _ else id) ∘ set_msg m).
  pose proof (pget_pset_some _ _ g _ Hd) as Hd1. pose proof (pget_pset_other _ _ _ g _ Hne Hc) as Hc1.
  set (s1 := pset dst g s) in *. run_step. fold (set_source (p_endpoint c)).
  pose proof (pget_pset_some _ _ (set_source (p_endpoint c)) _ Hd1) as Hd2.
  pose proof (pget_pset_other _ _ _ (set_source (p_endpoint c)) _ Hne Hc1) as Hc2.
  set (s2 := pset dst (set_source (p_endpoint c)) s1) in *. run_step.
  pose proof (pget_pset_some _ _ (misc_on MF_DELIVERMSG) _ Hd2) as Hd3.
  pose proof (pget_pset_other _ _ _ (misc_on MF_DELIVERMSG) _ Hne Hc2) as Hc3.
  set (s3 := pset dst (misc_on MF_DELIVERMSG) s2) in *. run_step.
  fold (send_call flags c). unfold IPC_STATUS_ADD_CALL. run_step.
  pose proof (pget_pset_some _ _ (add_status (IPC_STATUS_CALL_TO (send_call flags c))) _ Hd3) as Hd4.
  rewrite (drop_reply_run _ _ _ _ Hd4). subst s3 s2 s1. by rewrite !pset_pset.
Qed.

(** The blocked sender. *)
Definition block_sender (flags dst_e : Z) (m : message) : proc -> proc :=
  (fun p => p <| p_sendto_e := dst_e |>) ∘ (set_flags RTS_SENDING ∘
    ((if has flags FROM_KERNEL then misc_on MF_SENDING_FROM_KERNEL else id) ∘
     (fun p => p <| p_sendmsg := m |>))).
Definition set_link_of (l : qlink) (v : option Z) s : state W :=
  match l with
  | QHead n => pset n (fun p => p <| p_caller_q := v |>) s
  | QNext n => pset n (fun p => p <| p_q_link := v |>) s
  end.
(** The link at the end of a caller queue with the senders [l]. *)
Definition qend (dst : Z) (l : list Z) : qlink :=
  match list.last l with Some n => QNext n | None => QHead dst end.
Definition appended_caller (caller dst : Z) (l : list Z) (f : proc -> proc) s : state W :=
  set_link_of (qend dst l) (Some caller) (pset caller f s).

Lemma get_qlink_run s n p l pre post :
  pget s n = Some p -> linked (qnx s) (p_caller_q p) l -> l = pre ++ post ->
  get_qlink (qend n pre) s = Ret (head post) s.
Proof.
  intros Hp Hl ->. pose proof (linked_split _ _ _ _ Hl) as Hs. apply linked_head in Hs. rewrite <-Hs.
  unfold qend. destruct (list.last pre) as [k|] eqn:Hlast; unfold get_qlink.
  - apply last_Some in Hlast as [pre' ->].
    assert (exists q, pget s k = Some q) as [q Hq].
    { clear -Hl. revert Hl. generalize (p_caller_q p). induction pre' as [|x pre' IH]; intros h.
      - intros (_ & h' & Hk & _). unfold qnx in Hk. destruct (pget s k); [eauto|done].
      - intros (_ & h' & _ & Hl). by eapply IH. }
    rewrite (bind_ret _ _ _ _ _ (get_proc_run _ _ _ Hq)). unfold qnx. by rewrite Hq.
  - by rewrite (bind_ret _ _ _ _ _ (get_proc_run _ _ _ Hp)).
Qed.

Lemma callers_bound s Q C n : ipc s Q C -> (length (C n) <= Z.to_nat slots)%nat.
Proof.
  intros [Hrq Hi]. rewrite <-(length_seqZ (- NR_TASKS) slots).
  apply submseteq_length, NoDup_submseteq; [apply (c_nodup _ _ Hi)|].
  intros m (p & Hp & _)%(c_mem _ _ Hi). apply elem_of_seqZ.
  pose proof (slot_range _ _ _ _ Hrq Hp). unfold slots. lia.
Qed.

Lemma find_qend_run s dst d l :
  pget s dst = Some d -> linked (qnx s) (p_caller_q d) l -> (length l <= Z.to_nat slots)%nat ->
  find_qend dst s = Ret (qend dst l) s.
Proof.
  intros Hd Hl Hb. unfold find_qend.
  change (QHead dst) with ((fun j => qend dst (take j l)) 0%nat).
  apply (loop_run _ _ (fun j => qend dst (take j l)) (length l)); [| |unfold queue_fuel, slots in *; lia]; cbn beta.
  - intros j Hj. destruct (lookup_lt_is_Some_2 l j Hj) as [x Hx].
    rewrite (bind_ret _ _ _ _ _ (get_qlink_run s dst d l (take j l) (drop j l) Hd Hl (eq_sym (take_drop _ _)))).
    rewrite (drop_S _ _ _ Hx). simpl. f_equal. f_equal. rewrite (take_S_r _ _ _ Hx). unfold qend. by rewrite last_snoc.
  - rewrite (bind_ret _ _ _ _ _ (get_qlink_run s dst d l (take (length l) l) [] Hd Hl
      ltac:(by rewrite app_nil_r, firstn_all))). by rewrite firstn_all.
Qed.

Definition qlink_proc (l : qlink) : Z := match l with QHead n => n | QNext n => n end.

Lemma set_qlink_run s l v p : pget s (qlink_proc l) = Some p -> set_qlink l v s = Ret tt (set_link_of l v s).
Proof. destruct l; intros Hp; unfold set_qlink, set_link_of; by apply (set_proc_run _ _ p). Qed.

Lemma rq_set_link s Q l v p : rq s Q -> pget s (qlink_proc l) = Some p -> rq (set_link_of l v s) Q.
Proof. intros Hrq Hp. destruct l; by apply (rq_pset s Q _ p). Qed.

Lemma same_set_link s s' l v : same s s' -> same (set_link_of l v s) (set_link_of l v s').
Proof. intros Hs. destruct l; by apply same_pset. Qed.

Lemma quiet_sendmsg m : quiet (fun p => p <| p_sendmsg := m |>).
Proof. quiet_tac. Qed.

Lemma runnable_idle s C n p : ipcs s C -> pget s n = Some p -> p_rts_flags p = 0 -> p_q_link p = None /\ sending p = false.
Proof.
  intros Hi Hp Hz. assert (sending p = false) as Hs by (unfold sending; by rewrite Hz).
  split; [by eapply c_idle|done].
Qed.

(** A sender that cannot deliver its message leaves the run queues before it is queued. *)
Lemma mini_send_wait_run s Q caller c d dst_e m_ptr flags m :
  let dst := _ENDPOINT_P dst_e in
  rq s Q -> pget s caller = Some c -> pget s dst = Some d ->
  p_rts_flags c = 0 -> RTS_ISSET d RTS_NO_ENDPOINT = false -> WILLRECEIVE d (p_endpoint c) = false ->
  has flags NON_BLOCKING = false -> deadlock SEND caller dst_e s = Ret 0 s ->
  message_of s caller m_ptr flags = Some m ->
  exists s3 c3, mini_send caller dst_e m_ptr flags s =
      (assert_ (bool_decide (p_q_link c3 = None));;
       xpp ← find_qend dst; set_qlink xpp (Some caller);; mret OK) s3 /\
    p_q_link c3 = p_q_link c /\ rq s3 (without caller Q) /\
    same (pset caller (block_sender flags dst_e m) s) s3.
Proof.
  intros dst Hrq Hc Hd Hz Hno Hwill Hnb Hdl Hm.
  unfold mini_send. fold dst. run_step. rewrite Hno. run_step. rewrite Hwill, Hnb.
  rewrite (bind_ret _ _ _ _ _ Hdl). cbn [Z.eqb negb].
  set (f1 := (if has flags FROM_KERNEL then misc_on MF_SENDING_FROM_KERNEL else id) ∘
             (fun p : proc => p <| p_sendmsg := m |>)).
  erewrite bind_ret by (eapply (fetch_run s caller caller c m_ptr flags m (fun m p => p <| p_sendmsg := m |>));
    [done|done|intros s0 p0 Hp0; by apply (set_misc_run _ _ p0)]).
  cbn [negb]. fold f1. set (s1 := pset caller f1 s).
  assert (quiet f1) as Hy1.
  { subst f1. apply quiet_compose; [destruct (has flags FROM_KERNEL); auto|apply quiet_sendmsg]. }
  assert (rq s1 Q) as Hrq1 by (eapply rq_pset; [done|apply (y_neutral _ Hy1)|done|intros _; apply (y_prio _ Hy1)]).
  assert (pget s1 caller = Some (f1 c)) as Hc1 by by apply pget_pset_some.
  assert (p_rts_flags (f1 c) = 0) as Hz1 by (rewrite (n_flags _ (y_neutral _ Hy1)); exact Hz).
  destruct (RTS_SET_run s1 Q caller (f1 c) RTS_SENDING Hrq1 Hc1) as (s2 & Hrun2 & Hs2 & Hrq2).
  { by rewrite Hz1. } { by exists 2. }
  rewrite (bind_ret _ _ _ _ _ Hrun2).
  destruct (same_pget _ _ _ _ Hs2 (pget_pset_some _ _ (set_flags RTS_SENDING) _ Hc1)) as (c2 & Hc2 & Hst2).
  run_step. set (s3 := pset caller (fun p : proc => p <| p_sendto_e := dst_e |>) s2).
  assert (pget s3 caller = Some (c2 <| p_sendto_e := dst_e |>)) as Hc3 by by apply (pget_pset_some s2 caller (fun p => _)).
  run_step. exists s3, (c2 <| p_sendto_e := dst_e |>). split_and!; [done| | |].
  - destruct (strip_ipc_fields _ _ Hst2) as (_ & Hql & _).
    change (p_q_link c2 = p_q_link c). rewrite Hql. change (p_q_link (f1 c) = p_q_link c).
    apply (k_q_link _ _ (y_keeps _ Hy1 c)).
  - by apply (rq_pset s2 _ caller c2).
  - unfold block_sender. rewrite <-!pset_pset. apply same_pset; [done|].
    rewrite (pset_pset s). exact Hs2.
Qed.

(** A message for a receiver that does not wait blocks the sender at the end of the
    receiver's queue. *)
Lemma mini_send_block_run s Q C caller c d dst_e m_ptr flags m :
  let dst := _ENDPOINT_P dst_e in
  ipc s Q C -> pget s caller = Some c -> pget s dst = Some d -> caller <> dst ->
  p_rts_flags c = 0 -> RTS_ISSET d RTS_NO_ENDPOINT = false -> WILLRECEIVE d (p_endpoint c) = false ->
  has flags NON_BLOCKING = false -> deadlock SEND caller dst_e s = Ret 0 s ->
  message_of s caller m_ptr flags = Some m ->
  exists s', mini_send caller dst_e m_ptr flags s = Ret OK s' /\
    same (appended_caller caller dst (C dst) (block_sender flags dst_e m) s) s' /\
    rq s' (without caller Q).
Proof.
  intros dst Hi Hc Hd Hne Hz Hno Hwill Hnb Hdl Hm.
  destruct (mini_send_wait_run s Q caller c d dst_e m_ptr flags m (proj1 Hi) Hc Hd Hz Hno Hwill Hnb Hdl Hm)
    as (s3 & c3 & Hrun & Hql & Hrq3 & Hs3). rewrite Hrun. fold dst.
  destruct (runnable_idle _ _ _ _ (proj2 Hi) Hc Hz) as [Hnone _].
  rewrite bool_decide_true by congruence. run_step.
  destruct (same_pget _ _ _ _ Hs3 (pget_pset_other s _ _ (block_sender flags dst_e m) _ (not_eq_sym Hne) Hd))
    as (d3 & Hd3 & Hstd).
  assert (forall k, qnx s3 k = qnx s k) as Hqnx.
  { intros k. rewrite (qnx_same _ _ Hs3). apply qnx_pset. left. intros p _. unfold block_sender.
    cbn. by destruct (has flags FROM_KERNEL). }
  assert (linked (qnx s3) (p_caller_q d3) (C dst)) as Hl3.
  { destruct (strip_ipc_fields _ _ Hstd) as (-> & _). eapply linked_ext; [|by apply (c_head _ _ (proj2 Hi) dst)].
    intros k _. symmetry. apply Hqnx. }
  rewrite (bind_ret _ _ _ _ _ (find_qend_run s3 dst d3 (C dst) Hd3 Hl3 (callers_bound _ _ _ _ Hi))).
  assert (exists q, pget s3 (qlink_proc (qend dst (C dst))) = Some q) as [q Hq].
  { unfold qend. destruct (list.last (C dst)) as [k|] eqn:Hlast; [|by exists d3].
    assert (k ∈ C dst) as Hk by (apply last_Some in Hlast as [l' ->]; apply elem_of_app; right; by left).
    apply (c_mem _ _ (proj2 Hi)) in Hk as (p & Hp & _). simpl.
    assert (exists p1, pget (pset caller (block_sender flags dst_e m) s) k = Some p1) as [p1 Hp1].
    { rewrite pget_pset, Hp. case_decide; by eexists. }
    destruct (same_pget _ _ _ _ Hs3 Hp1) as (q & Hq & _). by exists q. }
  rewrite (bind_ret _ _ _ _ _ (set_qlink_run _ _ _ _ Hq)).
  eexists. split; [reflexivity|]. split; [by apply same_set_link|by eapply rq_set_link].
Qed.
End send.

(** ** The queues and the wait-for graph after sending *)
Section append.
Context `{MinixLaws} `{KernelHeaders} {W : Type} `{KernelEnvLaws W}.
Implicit Types (s : state W) (Q : Z -> list Z) (C : Z -> list Z).

(** What an appended sender changes: its own state and one link. *)
Record joined (caller dst dst_e : Z) (l : list Z) (k : Z) (p p' : proc) : Prop := {
  j_nr : p_nr p' = p_nr p;
  j_ep : p_endpoint p' = p_endpoint p;
  j_prio : p_priority p' = p_priority p;
  j_flags : p_rts_flags p' = if decide (k = caller) then RTS_SENDING else p_rts_flags p;
  j_sendto : p_sendto_e p' = if decide (k = caller) then dst_e else p_sendto_e p;
  j_getfrom : p_getfrom_e p' = p_getfrom_e p;
  j_q_link : p_q_link p' = if decide (list.last l = Some k) then Some caller else p_q_link p;
  j_caller_q : p_caller_q p' = if decide (k = dst /\ l = []) then Some caller else p_caller_q p;
}.

Lemma appended_joined s caller c dst dst_e l flags m k :
  pget s caller = Some c -> p_rts_flags c = 0 -> caller <> dst -> (caller ∉ l) ->
  match pget s k with
  | Some p => exists p', pget (appended_caller caller dst l (block_sender flags dst_e m) s) k = Some p' /\
                         joined caller dst dst_e l k p p'
  | None => pget (appended_caller caller dst l (block_sender flags dst_e m) s) k = None
  end.
Proof.
  intros Hc Hz Hne Hnl. unfold appended_caller, qend.
  assert (list.last l <> Some caller) as Hlc.
  { intros [l' ->]%last_Some. apply Hnl, elem_of_app. right. by left. }
  assert (forall f, pget (pset caller f s) k = if decide (k = caller) then f <$> pget s k else pget s k) as Hg
    by (intros; apply pget_pset).
  destruct (list.last l) as [x|] eqn:Hlast; unfold set_link_of; rewrite pget_pset, !Hg.
  - assert (l <> []) as Hl by (by intros ->).
    destruct (pget s k) as [p|] eqn:Hp; [|by repeat case_decide].
    destruct (decide (k = x)) as [->|Hkx].
    + rewrite (decide_False (P := x = caller)) by congruence. eexists. split; [reflexivity|].
      split; cbn; rewrite ?Hlast; repeat case_decide; try done; naive_solver.
    + destruct (decide (k = caller)) as [->|Hkc].
      * assert (p = c) as -> by congruence. eexists. split; [reflexivity|].
        unfold block_sender. destruct (has flags FROM_KERNEL);
        (split; cbn; rewrite ?Hlast, ?Hz; repeat case_decide; try done; naive_solver).
      * eexists. split; [reflexivity|]. split; cbn; rewrite ?Hlast; repeat case_decide; try done; naive_solver.
  - apply last_None in Hlast as ->.
    destruct (pget s k) as [p|] eqn:Hp; [|by repeat case_decide].
    destruct (decide (k = dst)) as [->|Hkx].
    + rewrite (decide_False (P := dst = caller)) by congruence. eexists. split; [reflexivity|].
      split; cbn; repeat case_decide; try done; naive_solver.
    + destruct (decide (k = caller)) as [->|Hkc].
      * assert (p = c) as -> by congruence. eexists. split; [reflexivity|].
        unfold block_sender. destruct (has flags FROM_KERNEL);
        (split; cbn; rewrite ?Hz; repeat case_decide; try done; naive_solver).
      * eexists. split; [reflexivity|]. split; cbn; repeat case_decide; try done; naive_solver.
Qed.

Lemma appended_pget s s' caller c dst dst_e l flags m k p' :
  s' = appended_caller caller dst l (block_sender flags dst_e m) s ->
  pget s caller = Some c -> p_rts_flags c = 0 -> caller <> dst -> (caller ∉ l) ->
  pget s' k = Some p' -> exists p, pget s k = Some p /\ joined caller dst dst_e l k p p'.
Proof.
  intros -> Hc Hz Hne Hnl Hp'.
  pose proof (appended_joined s caller c dst dst_e l flags m k Hc Hz Hne Hnl) as Hj.
  destruct (pget s k) as [p|]; [|congruence].
  exists p. split; [done|]. destruct Hj as (p1 & Hp1 & Hj). congruence.
Qed.

Lemma joined_flags caller dst dst_e l k p p' :
  joined caller dst dst_e l k p p' -> (k = caller -> p_rts_flags p = 0) ->
  sending p' = (if decide (k = caller) then true else sending p) /\
  receiving p' = (if decide (k = caller) then false else receiving p) /\
  (live p -> live p') /\ (live p' -> live p).
Proof.
  intros Hj Hk. unfold sending, receiving, live. rewrite (j_flags _ _ _ _ _ _ _ Hj).
  case_decide as Hd; [|done]. split_and!; try done. by rewrite (Hk Hd).
Qed.

Lemma ipcs_append s C caller c d dst_e flags m :
  let dst := _ENDPOINT_P dst_e in
  ipcs s C -> pget s caller = Some c -> pget s dst = Some d -> p_endpoint d = dst_e -> live d ->
  p_rts_flags c = 0 -> caller <> dst ->
  ipcs (appended_caller caller dst (C dst) (block_sender flags dst_e m) s) (qset dst (C dst ++ [caller]) C).
Proof.
  intros dst Hi Hc Hd Hde Hld Hz Hne. assert (_ENDPOINT_P dst_e = dst) as Hdst by done. clearbody dst.
  set (s' := appended_caller caller dst (C dst) (block_sender flags dst_e m) s).
  assert (forall n, caller ∉ C n) as Hnc.
  { intros n (p & Hp & Hs & _)%(c_mem _ _ Hi). destruct (runnable_idle _ _ _ _ Hi Hc Hz). congruence. }
  assert (forall k p', pget s' k = Some p' -> exists p, pget s k = Some p /\ joined caller dst dst_e (C dst) k p p')
    as Hback by (intros k p'; by apply (appended_pget s s' caller c dst dst_e (C dst) flags m)).
  assert (forall k p, pget s k = Some p -> exists p', pget s' k = Some p' /\ joined caller dst dst_e (C dst) k p p')
    as Hfwd.
  { intros k p Hp. pose proof (appended_joined s caller c dst dst_e (C dst) flags m k Hc Hz Hne (Hnc _)) as Hj.
    by rewrite Hp in Hj. }
  assert (forall k p, pget s k = Some p -> k = caller -> p_rts_flags p = 0) as Hzero by congruence.
  assert (forall e, live_ep s e -> live_ep s' e) as Hle.
  { intros e (p & Hp & He & Hl). destruct (Hfwd _ _ Hp) as (p' & Hp' & Hj). exists p'.
    destruct (joined_flags _ _ _ _ _ _ _ Hj (Hzero _ _ Hp)) as (_ & _ & Hlv & _).
    rewrite (j_ep _ _ _ _ _ _ _ Hj). split_and!; [done|done|by apply Hlv]. }
  assert (forall k, list.last (C dst) = Some k -> k ∈ C dst) as Hlast.
  { intros k [l' ->]%last_Some. apply elem_of_app. right. by left. }
  assert (forall k, qnx s' k = if decide (list.last (C dst) = Some k) then Some (Some caller) else qnx s k) as Hq.
  { intros k. unfold qnx. destruct (pget s k) as [p|] eqn:Hp.
    - destruct (Hfwd _ _ Hp) as (p' & -> & Hj). simpl. rewrite (j_q_link _ _ _ _ _ _ _ Hj). by case_decide.
    - rewrite decide_False.
      + destruct (pget s' k) eqn:Hp'; [|done]. apply Hback in Hp' as (? & ? & _). congruence.
      + intros Hl%Hlast. apply (c_mem _ _ Hi) in Hl as (? & ? & _). congruence. }
  split.
  - intros n p' (p & Hp & Hj)%Hback. rewrite (j_caller_q _ _ _ _ _ _ _ Hj).
    pose proof (c_head _ _ Hi n p Hp) as Hl. unfold qset. destruct (decide (n = dst)) as [Hn|Hn].
    + subst n. eapply linked_snoc; [exact Hl|apply Hnc|apply (c_nodup _ _ Hi)|..].
      * rewrite Hq, decide_False; [|intros Hx%Hlast; by apply (Hnc dst)].
        unfold qnx. rewrite Hc. simpl. f_equal. by destruct (runnable_idle _ _ _ _ Hi Hc Hz).
      * intros k Hk. by rewrite Hq, decide_True.
      * intros k _ Hk. by rewrite Hq, decide_False.
      * intros Hnone. rewrite decide_True; [done|]. split; [done|by apply last_None].
      * intros Hsome. rewrite decide_False; [done|]. intros [_ Hnil]. apply Hsome. by rewrite Hnil.
    + rewrite decide_False by tauto. eapply linked_ext; [|exact Hl].
      intros k Hk. rewrite Hq, decide_False; [done|]. intros Hx%Hlast. apply Hn.
      apply (c_mem _ _ Hi) in Hk as (p1 & Hp1 & _ & <-). apply (c_mem _ _ Hi) in Hx as (p2 & Hp2 & _ & <-). congruence.
  - intros n. unfold qset. case_decide; [|apply (c_nodup _ _ Hi)].
    apply list.NoDup_app. split_and!; [apply (c_nodup _ _ Hi)| |repeat constructor; by apply not_elem_of_nil].
    intros k Hk ->%list_elem_of_singleton. by apply (Hnc dst).
  - intros n k. assert (k ∈ qset dst (C dst ++ [caller]) C n <-> k ∈ C n \/ (n = dst /\ k = caller)) as ->.
    { unfold qset. case_decide; [|naive_solver]. subst. rewrite elem_of_app, list_elem_of_singleton. naive_solver. }
    rewrite (c_mem _ _ Hi). split.
    + intros [(p & Hp & Hs & Ht)|[-> ->]].
      * destruct (Hfwd _ _ Hp) as (p' & Hp' & Hj). exists p'.
        destruct (joined_flags _ _ _ _ _ _ _ Hj (Hzero _ _ Hp)) as (-> & _).
        rewrite (j_sendto _ _ _ _ _ _ _ Hj). case_decide as Hk; [|done]. subst k.
        assert (p = c) as -> by congruence. destruct (runnable_idle _ _ _ _ Hi Hc Hz). congruence.
      * destruct (Hfwd _ _ Hc) as (p' & Hp' & Hj). exists p'.
        destruct (joined_flags _ _ _ _ _ _ _ Hj (Hzero _ _ Hc)) as (-> & _).
        rewrite (j_sendto _ _ _ _ _ _ _ Hj). by rewrite !decide_True by done.
    + intros (p' & (p & Hp & Hj)%Hback & Hs & Ht).
      destruct (joined_flags _ _ _ _ _ _ _ Hj (Hzero _ _ Hp)) as (Hs' & _). rewrite Hs' in Hs.
      rewrite (j_sendto _ _ _ _ _ _ _ Hj) in Ht. case_decide; [right; split; congruence|left; by exists p].
  - intros k p' (p & Hp & Hj)%Hback Hs.
    destruct (joined_flags _ _ _ _ _ _ _ Hj (Hzero _ _ Hp)) as (Hs' & _). rewrite Hs' in Hs.
    case_decide as Hk; [done|]. rewrite (j_q_link _ _ _ _ _ _ _ Hj), decide_False; [by apply (c_idle _ _ Hi k p)|].
    intros Hx%Hlast. apply (c_mem _ _ Hi) in Hx as (p2 & Hp2 & Hs2 & _). congruence.
  - intros k p' (p & Hp & Hj)%Hback. rewrite (j_nr _ _ _ _ _ _ _ Hj). by apply (c_nr _ _ Hi).
  - intros k p' (p & Hp & Hj)%Hback Hl. destruct (joined_flags _ _ _ _ _ _ _ Hj (Hzero _ _ Hp)) as (_ & _ & _ & Hlv).
    rewrite (j_ep _ _ _ _ _ _ _ Hj). apply (c_ep _ _ Hi); auto.
  - intros k p' (p & Hp & Hj)%Hback Hl. destruct (joined_flags _ _ _ _ _ _ _ Hj (Hzero _ _ Hp)) as (_ & _ & _ & Hlv).
    rewrite (j_prio _ _ _ _ _ _ _ Hj). apply (c_prio _ _ Hi k); auto.
  - intros k p' (p & Hp & Hj)%Hback Hs. destruct (joined_flags _ _ _ _ _ _ _ Hj (Hzero _ _ Hp)) as (Hs' & _).
    rewrite (j_sendto _ _ _ _ _ _ _ Hj). apply Hle. rewrite Hs' in Hs. case_decide.
    + exists d. by rewrite Hdst.
    + by apply (c_target _ _ Hi k).
  - intros k p' (p & Hp & Hj)%Hback Hr. destruct (joined_flags _ _ _ _ _ _ _ Hj (Hzero _ _ Hp)) as (_ & Hr' & _).
    rewrite Hr' in Hr. case_decide; [done|]. rewrite (j_getfrom _ _ _ _ _ _ _ Hj).
    destruct (c_from _ _ Hi k p Hp Hr); [by left|right; by apply Hle].
  - intros k p' (p & Hp & Hj)%Hback Hs Hr. destruct (joined_flags _ _ _ _ _ _ _ Hj (Hzero _ _ Hp)) as (Hs' & Hr' & _).
    rewrite Hr' in Hr. rewrite Hs' in Hs. rewrite (j_getfrom _ _ _ _ _ _ _ Hj), (j_sendto _ _ _ _ _ _ _ Hj).
    case_decide; [done|]. by apply (c_both _ _ Hi k p).
  - intros k p' (p & Hp & Hj)%Hback Hl. destruct (joined_flags _ _ _ _ _ _ _ Hj (Hzero _ _ Hp)) as (_ & _ & _ & Hlv).
    unfold RTS_ISSET. rewrite (j_flags _ _ _ _ _ _ _ Hj). case_decide; [done|]. apply (c_free _ _ Hi k p Hp); auto.
  - assert (proc_ptr s' = proc_ptr s) as ->.
    { unfold s', appended_caller, set_link_of. by destruct (qend _ _). }
    intros p' (p & Hp & Hj)%Hback. destruct (joined_flags _ _ _ _ _ _ _ Hj (Hzero _ _ Hp)) as (_ & _ & Hlv & _).
    apply Hlv. by apply (c_cur _ _ Hi).
Qed.
End append.

(** ** Waking a receiver *)
Section wake.
Context `{MinixLaws} `{KernelHeaders} {W : Type} `{KernelEnvLaws W}.
Implicit Types (s : state W) (Q : Z -> list Z) (C : Z -> list Z).

Lemma has_bit x i : 0 <= i -> has x (2 ^ i) = Z.testbit x i.
Proof.
  intros Hi. unfold has. destruct (Z.testbit x i) eqn:Hb.
  - apply negb_true_iff, Z.eqb_neq. intros Hz.
    assert (Z.testbit (Z.land x (2 ^ i)) i = true) as Ht; [|by rewrite Hz, Z.bits_0 in Ht].
    by rewrite Z.land_spec, Hb, Z.pow2_bits_true.
  - apply negb_false_iff, Z.eqb_eq, Z.bits_inj'. intros j Hj. rewrite Z.land_spec, Z.bits_0.
    destruct (decide (i = j)) as [<-|Hij]; [by rewrite Hb|].
    by rewrite Z.pow2_bits_false, andb_false_r.
Qed.
Lemma isset_bit (p : proc) i : 0 <= i -> RTS_ISSET p (2 ^ i) = Z.testbit (p_rts_flags p) i.
Proof.
  intros Hi. rewrite <-has_bit by done. unfold RTS_ISSET, has.
  destruct (Z.eqb_spec (Z.land (p_rts_flags p) (2 ^ i)) 0) as [Hz|Hz]; simpl.
  - apply Z.eqb_neq. rewrite Hz. pose proof (Z.pow_pos_nonneg 2 i). lia.
  - apply Z.eqb_eq. apply Z.bits_inj'. intros j Hj. rewrite Z.land_spec.
    destruct (decide (i = j)) as [<-|Hij]; [|by rewrite Z.pow2_bits_false, andb_false_r].
    rewrite Z.pow2_bits_true by done. rewrite andb_true_r.
    destruct (Z.testbit (p_rts_flags p) i) eqn:Hb; [done|]. exfalso. apply Hz.
    rewrite <-has_bit in Hb by done. by apply negb_false_iff, Z.eqb_eq in Hb.
Qed.
Lemma isset_has (p : proc) i : 0 <= i -> RTS_ISSET p (2 ^ i) = has (p_rts_flags p) (2 ^ i).
Proof. intros. by rewrite has_bit, isset_bit. Qed.

Lemma has_set x f i : 0 <= i < 16 -> has (s16 (Z.lor x f)) (2 ^ i) = has x (2 ^ i) || Z.testbit f i.
Proof. intros Hi. by rewrite !has_bit, s16_testbit, Z.lor_spec by lia. Qed.
Lemma has_clear x f i : 0 <= i < 16 -> has (s16 (Z.ldiff x f)) (2 ^ i) = has x (2 ^ i) && negb (Z.testbit f i).
Proof. intros Hi. by rewrite !has_bit, s16_testbit, Z.ldiff_spec by lia. Qed.

Lemma sending_bit p : sending p = has (p_rts_flags p) (2 ^ 2).
Proof. done. Qed.
Lemma receiving_bit p : receiving p = has (p_rts_flags p) (2 ^ 3).
Proof. done. Qed.
Lemma free_bit p : RTS_ISSET p RTS_SLOT_FREE = has (p_rts_flags p) (2 ^ 0).
Proof. apply (isset_has p 0). lia. Qed.

(** Flags other than those of message passing. *)
Lemma keeps_set_flags f p :
  live p -> Z.testbit f 0 = false -> Z.testbit f 2 = false -> Z.testbit f 3 = false -> waits f ->
  keeps_ipc (set_flags f) p.
Proof.
  intros Hl H0' H2' H3' Hw. destruct (waits_set (p_rts_flags p) f Hw) as [_ Hnf]. split; [split|]; try done.
  - rewrite !sending_bit. cbn. by rewrite has_set, H2', orb_false_r.
  - rewrite !free_bit. cbn. by rewrite has_set, H0', orb_false_r.
  - rewrite !receiving_bit. cbn. rewrite has_set, H3', orb_false_r by lia. done.
Qed.
Lemma keeps_clear_flags f p :
  live p -> RTS_ISSET p RTS_SLOT_FREE = false -> Z.testbit f 2 = false -> keeps_ipc (clear_flags f) p.
Proof.
  intros Hl Hfree H2'. rewrite free_bit in Hfree.
  assert (has (p_rts_flags (clear_flags f p)) (2 ^ 0) = false) as Hnf.
  { cbn. by rewrite has_clear, Hfree. }
  split; [split|]; try done.
  - rewrite !sending_bit. cbn. by rewrite has_clear, H2', andb_true_r.
  - split; [done|]. intros _ Heq. by rewrite Heq in Hnf.
  - by rewrite !free_bit, Hnf, Hfree.
  - rewrite !receiving_bit. cbn. rewrite has_clear by lia. by intros [? _]%andb_true_iff.
Qed.

Lemma same_of_preempted s n :
  preempted s n = s \/ (preempted s n = pset (proc_ptr s) (set_flags RTS_PREEMPTED) s /\ preempts s n = true).
Proof. unfold preempted. destruct (preempts s n); auto. Qed.

Lemma preempts_cur s n : preempts s n = true -> exists c, pget s (proc_ptr s) = Some c.
Proof. unfold preempts. destruct (pget s (proc_ptr s)); [eauto|done]. Qed.

(** Up to the link in the run queue and the PREEMPTED flag. *)
Definition agrees (p p' : proc) : Prop :=
  strip (p' <| p_rts_flags := 0 |>) = strip (p <| p_rts_flags := 0 |>) /\
  (p_rts_flags p' = p_rts_flags p \/ p_rts_flags p' = s16 (Z.lor (p_rts_flags p) RTS_PREEMPTED)).

Lemma agrees_strip p p' : strip p' = strip p -> agrees p p'.
Proof.
  intros Hst. split.
  - change (strip p' <| p_rts_flags := 0 |> = strip p <| p_rts_flags := 0 |>). by rewrite Hst.
  - left. by destruct (strip_fields _ _ Hst).
Qed.

Lemma agrees_fields p p' : agrees p p' ->
  p_endpoint p' = p_endpoint p /\ p_sendto_e p' = p_sendto_e p /\ p_getfrom_e p' = p_getfrom_e p /\
  p_delivermsg p' = p_delivermsg p /\ p_misc_flags p' = p_misc_flags p /\ p_sendmsg p' = p_sendmsg p /\
  sending p' = sending p /\ receiving p' = receiving p.
Proof.
  intros [Hst Hf].
  assert (forall i, 0 <= i < 16 -> i <> 14 -> has (p_rts_flags p') (2 ^ i) = has (p_rts_flags p) (2 ^ i)) as Hb.
  { intros i Hi Hne. destruct Hf as [->| ->]; [done|]. rewrite has_set by done.
    change RTS_PREEMPTED with (2 ^ 14). rewrite Z.pow2_bits_false by lia. by rewrite orb_false_r. }
  rewrite !sending_bit, !receiving_bit, !Hb by lia. clear Hb Hf.
  destruct p, p'. unfold strip, upd in Hst. cbn in Hst.
  revert Hst. intros [=]. subst. cbn. by split_and!.
Qed.

(** RTS_UNSET of a flag other than SENDING keeps the invariant. *)
Lemma RTS_UNSET_ipc s Q C n p f :
  ipc s Q C -> pget s n = Some p -> live p -> Z.testbit f 0 = false -> Z.testbit f 2 = false ->
  exists s' Q', RTS_UNSET n f s = Ret tt s' /\ ipc s' Q' C /\
    (forall q, queue_nr q -> q <> p_priority p -> forall m, m ∈ Q' q -> m ∈ Q q) /\
    proc_ptr s' = proc_ptr s /\ world s' = world s /\ privs s' = privs s /\
    (forall m q, pget s m = Some q -> exists q', pget s' m = Some q' /\
       agrees (if decide (m = n) then clear_flags f q else q) q') /\
    (forall m q', pget s' m = Some q' -> exists q, pget s m = Some q).
Proof.
  intros [Hrq Hi] Hp Hl Hf0 Hf2. set (s1 := pset n (clear_flags f) s).
  assert (ipcs s1 C) as Hi1.
  { apply (ipcs_pset s n _ p); [done|done|]. apply keeps_clear_flags; [done| |done]. by apply (c_free _ _ Hi n). }
  assert (forall c, pget s1 (proc_ptr s1) = Some c -> live c) as Hcur1 by (apply (c_cur _ _ Hi1)).
  destruct (RTS_UNSET_run s Q n p f Hrq Hp Hl Hf0) as (s' & Hrun & Hs').
  { intros _. by apply (c_prio _ _ Hi n). }
  { apply (c_cur _ _ Hi). }
  { intros Hcn. apply (Hcur1 (clear_flags f p)). change (proc_ptr s1) with (proc_ptr s).
    rewrite Hcn. by apply pget_pset_some. }
  fold s1 in Hs'.
  set (s2 := if wakes f p then preempted s1 n else s1).
  assert (same s2 s') as Hs2 by (subst s2; destruct (wakes f p); apply Hs').
  assert (ipcs s2 C) as Hi2.
  { subst s2. destruct (wakes f p); [|done]. destruct (same_of_preempted s1 n) as [-> | [-> Hpre]]; [done|].
    destruct (preempts_cur _ _ Hpre) as [c Hc]. apply (ipcs_pset s1 _ _ c); [done|done|].
    apply keeps_set_flags; [by apply Hcur1|done..|]. exists 14. by split; [lia|]. }
  assert (proc_ptr s2 = proc_ptr s /\ world s2 = world s /\ privs s2 = privs s) as (Hpp & Hw & Hpv).
  { subst s2. destruct (wakes f p); [|done]. by destruct (same_of_preempted s1 n) as [-> | [-> _]]. }
  assert (forall m q, pget s m = Some q -> exists q', pget s2 m = Some q' /\
       agrees (if decide (m = n) then clear_flags f q else q) q') as Hfwd.
  { intros m q Hq. assert (pget s1 m = Some (if decide (m = n) then clear_flags f q else q)) as Hq1.
    { unfold s1. rewrite pget_pset. case_decide; [|done]. subst m. by rewrite Hq. }
    set (q1 := if decide (m = n) then _ else _) in *. subst s2.
    destruct (wakes f p); [|by exists q1; split; [|apply agrees_strip]].
    destruct (same_of_preempted s1 n) as [-> | [-> _]]; [by exists q1; split; [|apply agrees_strip]|].
    rewrite pget_pset, Hq1. case_decide; [|by exists q1; split; [|apply agrees_strip]].
    exists (set_flags RTS_PREEMPTED q1). split; [done|]. split; [done|by right]. }
  exists s'. assert (exists Q', rq s' Q' /\
    forall q, queue_nr q -> q <> p_priority p -> forall m, m ∈ Q' q -> m ∈ Q q) as (Q' & HQ' & Hsub).
  { destruct (wakes f p); destruct Hs' as [_ Hrq']; [|by exists Q].
    eexists. split; [exact Hrq'|]. intros q _ Hne m. unfold queues_after, woken, without.
    destruct (preempts s1 n); rewrite qset_ne by done; [|done]. by intros [_ ?]%list_elem_of_filter. }
  exists Q'. split_and!; try done.
  - split; [done|by eapply ipcs_same].
  - by rewrite (same_proc_ptr _ _ Hs2).
  - by rewrite (same_world _ _ Hs2).
  - by rewrite (same_privs _ _ Hs2).
  - intros m q Hq. destruct (Hfwd _ _ Hq) as (q1 & Hq1 & Hag).
    destruct (same_pget _ _ _ _ Hs2 Hq1) as (q' & Hq' & Hst). exists q'. split; [done|].
    destruct Hag as [Hag Hfl]. split.
    + rewrite <-Hag. change (strip q' <| p_rts_flags := 0 |> = strip q1 <| p_rts_flags := 0 |>). by rewrite Hst.
    + destruct (strip_fields _ _ Hst) as [-> _]. done.
  - intros m q' Hq'. destruct (same_pget_inv _ _ _ _ Hs2 Hq') as (q2 & Hq2 & _).
    destruct (pget s m) as [q|] eqn:Hq; [by exists q|]. exfalso.
    assert (pget s1 m = None) as Hq1 by (unfold s1; rewrite pget_pset, Hq; by case_decide).
    subst s2. destruct (wakes f p); [|congruence].
    destruct (same_of_preempted s1 n) as [Heq | [Heq _]]; rewrite Heq in Hq2; [congruence|].
    rewrite pget_pset, Hq1 in Hq2. by case_decide.
Qed.

(** *** Acyclic states *)
Lemma acyclic_mono s s' :
  (forall e, next s' e = next s e \/ next s' e = NONE) -> (forall e, live_ep s' e -> live_ep s e) ->
  acyclic s -> acyclic s'.
Proof.
  intros Hnext Hlive Ha e He. destruct (Ha e (Hlive e He)) as (k & Hk).
  assert (forall j, chain s' e j = chain s e j \/ exists i, chain s' e i = NONE) as Hch.
  { intros j. induction j as [|j [IH|IH]]; [by left| |by right].
    rewrite !chain_S, <-IH. destruct (Hnext (chain s' e j)) as [Hn|Hn]; [by left|].
    right. exists (S j). by rewrite chain_S. }
  destruct (Hch k) as [Heq|[i Hn]]; [exists k; by rewrite Heq|exists i; by right].
Qed.

Definition ended_or_live s (e : Z) : Prop := e = ANY \/ e = NONE \/ live_ep s e.

Lemma chain_ended s e k : e = ANY \/ e = NONE -> chain s e k = e.
Proof. intros He. induction k as [|k IH]; [done|]. rewrite chain_S, IH. unfold next. by rewrite decide_True. Qed.

Lemma chain_closed s Q C e k : ipc s Q C -> ended_or_live s e -> ended_or_live s (chain s e k).
Proof.
  intros Hi [He|[He|He]]; [rewrite chain_ended by auto; by left|rewrite chain_ended by auto; by right; left|].
  by eapply chain_live.
Qed.

(** A new edge closes no cycle when the chain from its end does not come back. *)
Lemma acyclic_edge s s' Q C x y :
  ipc s Q C -> acyclic s -> (forall e, live_ep s e -> e <> x -> next s' e = next s e) -> next s' x = y ->
  (forall e, live_ep s' e -> live_ep s e) ->
  y = ANY \/ live_ep s y -> (forall k, chain s y k <> x) -> acyclic s'.
Proof.
  intros Hi Ha Hother Hx Hlive Hy Hno.
  assert (ended_or_live s y) as Hye by (unfold ended_or_live; tauto).
  assert (forall e, ended_or_live s e -> e <> x -> next s' e = next s e) as Hnext.
  { intros e [He|[He|He]] Hne; [unfold next; by rewrite !decide_True by auto..|by apply Hother]. }
  assert (forall k, chain s' y k = chain s y k) as Hch.
  { induction k as [|k IH]; [done|]. rewrite !chain_S, IH. apply Hnext; [|apply Hno].
    by eapply chain_closed. }
  assert (ends s' y) as [d' Hd'].
  { destruct Hy as [->|Hy]; [by exists 0%nat; left|]. destruct (Ha y Hy) as [d Hd]. exists d. by rewrite Hch. }
  intros e He. destruct (Ha e (Hlive e He)) as (k & Hk).
  assert (forall j, chain s' e j = chain s e j \/ exists i, chain s' e i = x) as Hche.
  { intros j. induction j as [|j [IH|IH]]; [by left| |by right].
    destruct (decide (chain s' e j = x)) as [Heq|Hne]; [right; by exists j|].
    left. rewrite !chain_S, <-IH. apply Hnext; [|done]. rewrite IH.
    eapply chain_closed; [done|right; right; auto]. }
  destruct (Hche k) as [Heq|[i Hi']]; [exists k; by rewrite Heq|].
  exists (d' + S i)%nat. by rewrite chain_add, chain_S, Hi', Hx.
Qed.
End wake.

(** ** The properties of sending *)
(** The system call numbers become flags when shifted. *)
Class IpcLaws `{KernelHeaders} : Prop := {
  SEND_flag : Z.shiftl SEND 2 = RTS_SENDING;
  RECEIVE_flag : Z.shiftl RECEIVE 2 = RTS_RECEIVING;
}.

Section claims.
Context `{MinixLaws} `{KernelHeaders} `{!IpcLaws} {W : Type} `{KernelEnvLaws W}.
Implicit Types (s : state W) (Q : Z -> list Z) (C : Z -> list Z).

(** C38: deadlock follows the chain of blocked processes that starts at the destination.
    When the chain ends or comes back to the caller, it reports the size of the cycle (a
    cycle of two in which one sends and the other receives does not count) and 0 when
    there is none; when the chain runs into a cycle without the caller, it writes beyond
    its array. It never loops forever. *)
Theorem deadlock_spec s Q C cp c function e :
  ipc s Q C -> pget s cp = Some c -> live c -> e = ANY \/ live_ep s e -> e <> p_endpoint c ->
  (forall d, first_stop s c e d -> deadlock function cp e s = Ret (verdict s function c e d) s) /\
  ((forall d, ~ stops s c e d) -> deadlock function cp e s = Halt Undef s).
Proof.
  intros Hi Hc Hl He Hne. split.
  - intros d Hd. by apply (deadlock_run s Q C).
  - intros Hno. by apply (deadlock_overflow s Q C cp c).
Qed.

Lemma blocked_self_chain s Q C n p k :
  ipc s Q C -> pget s n = Some p -> live p -> P_BLOCKEDON p = p_endpoint p ->
  chain s (p_endpoint p) k = p_endpoint p.
Proof.
  intros Hi Hp Hl Hb. induction k as [|k IH]; [done|]. rewrite chain_S, IH.
  rewrite (next_live s Q C (p_endpoint p) p); [done|done| |done|done].
  by rewrite (c_ep _ _ (proj2 Hi) n p Hp Hl).
Qed.

(** A process that sends to itself is not detected: the check finds no cycle and the
    process would block for good. Once a process waits for itself, the check of any other
    caller that wants to send to it writes beyond its array. *)
Theorem deadlock_self s Q C n p m q function :
  ipc s Q C -> pget s n = Some p -> live p -> pget s m = Some q -> live q -> m <> n ->
  (p_rts_flags p = 0 -> deadlock SEND n (p_endpoint p) s = Ret 0 s) /\
  (P_BLOCKEDON p = p_endpoint p -> deadlock function m (p_endpoint p) s = Halt Undef s).
Proof.
  intros Hi Hp Hl Hq Hlq Hne. pose proof (live_pget _ _ _ _ _ Hi Hp Hl) as He. split.
  - intros Hz. pose proof NR_PROCS_pos. pose proof NR_TASKS_nonneg.
    unfold deadlock. rewrite (bind_ret _ _ _ _ _ (get_proc_run _ _ _ Hp)).
    change (loop_ queue_fuel (deadlock_body SEND p) (p_endpoint p, 1) s = Ret 0 s).
    apply (loop_run _ _ (fun _ => (p_endpoint p, 1)) 0); [lia| |unfold queue_fuel; lia].
    assert (1 < slots) as Hsl.
    { pose proof (slot_range _ _ _ _ (proj1 Hi) Hp). pose proof (slot_range _ _ _ _ (proj1 Hi) Hq).
      unfold slots. lia. }
    destruct (deadlock_body_run s Q C SEND p (p_endpoint p) 1 Hi He Hsl) as (xp & Hxp & _ & _ & ->).
    rewrite (c_ep _ _ (proj2 Hi) n p Hp Hl) in Hxp. assert (xp = p) as -> by congruence.
    unfold P_BLOCKEDON. rewrite Hz. simpl. by rewrite Z.eqb_refl.
  - intros Hb. apply (deadlock_overflow s Q C m q); [done|done|by right|].
    intros k. unfold stops. rewrite (blocked_self_chain s Q C n p k Hi Hp Hl Hb).
    destruct (live_ep_slot _ _ _ _ Hi He) as [Hany Hnone]. intros [?|[?|Heq]]; [done|done|].
    apply Hne. rewrite <-(c_ep _ _ (proj2 Hi) m q Hq Hlq), <-Heq. by apply (c_ep _ _ (proj2 Hi)).
Qed.

Lemma delivered_fields flags src call m p :
  p_delivermsg (delivered flags src call m p) = m <| m_source := src |> /\
  MF (delivered flags src call m p) MF_DELIVERMSG = true.
Proof.
  unfold delivered. cbn [compose]. set (g := if has flags FROM_KERNEL then _ else id).
  set (p1 := misc_on MF_DELIVERMSG (set_source src (g (set_msg m p)))).
  assert (p_delivermsg p1 = m <| m_source := src |>) as Hm1.
  { subst p1 g. destruct (has flags FROM_KERNEL); [|done]. unfold add_status.
    by destruct (MF (set_msg m p) MF_REPLY_PEND). }
  assert (MF p1 MF_DELIVERMSG = true) as Hd1.
  { unfold MF. change MF_DELIVERMSG with (2 ^ 6). subst p1. cbn. rewrite has_set by lia. apply orb_true_r. }
  clearbody p1. clear g.
  set (p2 := add_status (IPC_STATUS_CALL_TO call) p1).
  assert (p_delivermsg p2 = p_delivermsg p1 /\ p_misc_flags p2 = p_misc_flags p1) as [Hm2 Hd2].
  { subst p2. unfold add_status. by destruct (MF p1 MF_REPLY_PEND). }
  clearbody p2. unfold drop_reply. destruct (MF p2 MF_REPLY_PEND).
  - split; [by rewrite <-Hm1, <-Hm2|]. unfold MF. change MF_DELIVERMSG with (2 ^ 6). cbn.
    rewrite has_clear by lia. rewrite Hd2. unfold MF in Hd1. change MF_DELIVERMSG with (2 ^ 6) in Hd1. by rewrite Hd1.
  - split; [congruence|]. unfold MF in *. by rewrite Hd2.
Qed.

Lemma cleared_receiving p : receiving (clear_flags RTS_RECEIVING p) = false.
Proof. rewrite receiving_bit. cbn. rewrite has_clear by lia. by rewrite andb_false_r. Qed.
Lemma cleared_sending p : sending (clear_flags RTS_RECEIVING p) = sending p.
Proof. rewrite !sending_bit. cbn. rewrite has_clear by lia. by rewrite andb_true_r. Qed.

Lemma blocked_cleared p :
  P_BLOCKEDON (clear_flags RTS_RECEIVING p) = P_BLOCKEDON p \/ P_BLOCKEDON (clear_flags RTS_RECEIVING p) = NONE.
Proof.
  unfold P_BLOCKEDON. fold (sending p) (receiving p) (sending (clear_flags RTS_RECEIVING p))
    (receiving (clear_flags RTS_RECEIVING p)). rewrite cleared_receiving, cleared_sending.
  destruct (sending p); [by left|by right].
Qed.
Lemma blocked_agrees p p' : agrees p p' -> P_BLOCKEDON p' = P_BLOCKEDON p.
Proof.
  intros (_ & Hto & Hfrom & _ & _ & _ & Hs & Hr)%agrees_fields. unfold P_BLOCKEDON.
  fold (sending p) (receiving p) (sending p') (receiving p'). by rewrite Hs, Hr, Hto, Hfrom.
Qed.

(** Waking a receiver makes no process wait longer. *)
Lemma acyclic_wake s s' n :
  (forall m q, pget s m = Some q -> exists q', pget s' m = Some q' /\
     agrees (if decide (m = n) then clear_flags RTS_RECEIVING q else q) q') ->
  (forall m q', pget s' m = Some q' -> exists q, pget s m = Some q) ->
  (forall m q, pget s' m = Some q -> live q -> RTS_ISSET q RTS_SLOT_FREE = false) ->
  acyclic s -> acyclic s'.
Proof.
  intros Hfwd Hback Hfree'. apply acyclic_mono.
  - intros e. unfold next. destruct (decide (e = ANY \/ e = NONE)); [by left|].
    destruct (pget s (_ENDPOINT_P e)) as [q|] eqn:Hq.
    + destruct (Hfwd _ _ Hq) as (q' & -> & Hag). simpl. rewrite (blocked_agrees _ _ Hag).
      case_decide; [apply blocked_cleared|by left].
    + left. destruct (pget s' (_ENDPOINT_P e)) eqn:Hq'; [|done].
      apply Hback in Hq' as [? ?]. congruence.
  - intros e (q' & Hq' & He & Hl). destruct (Hback _ _ Hq') as (q & Hq). exists q.
    destruct (Hfwd _ _ Hq) as (q1 & Hq1 & Hag). assert (q1 = q') as -> by congruence.
    pose proof (agrees_fields _ _ Hag) as (Hep & _). split_and!; [done| |].
    + rewrite <-He, Hep. by case_decide.
    + intros Hfr0. assert (RTS_ISSET q RTS_SLOT_FREE = true) as Hfr by (unfold RTS_ISSET; by rewrite Hfr0).
      pose proof (Hfree' _ _ Hq' Hl) as Hnf. destruct Hag as [_ Hfl].
      rewrite free_bit in Hfr, Hnf.
      assert (has (p_rts_flags (if decide (_ENDPOINT_P e = n) then clear_flags RTS_RECEIVING q else q)) (2 ^ 0) = true) as Hx.
      { case_decide; [|done]. cbn. by rewrite has_clear, Hfr. }
      destruct Hfl as [Hfl|Hfl]; rewrite Hfl in Hnf; [congruence|].
      rewrite has_set, Hx in Hnf by lia. done.
Qed.

Lemma acyclic_block s Q C caller c d dst_e flags m s' :
  let dst := _ENDPOINT_P dst_e in
  ipc s Q C -> acyclic s -> pget s caller = Some c -> p_rts_flags c = 0 -> pget s dst = Some d ->
  p_endpoint d = dst_e -> live d -> caller <> dst ->
  (forall k, chain s dst_e k <> p_endpoint c) ->
  same (appended_caller caller dst (C dst) (block_sender flags dst_e m) s) s' -> acyclic s'.
Proof.
  intros dst [Hrq Hi] Ha Hc Hz Hd Hde Hld Hne Hno Hs.
  assert (caller ∉ C dst) as Hnc.
  { intros (p & Hp & Hsd & _)%(c_mem _ _ Hi). destruct (runnable_idle _ _ _ _ Hi Hc Hz). congruence. }
  set (s1 := appended_caller caller dst (C dst) (block_sender flags dst_e m) s) in *.
  assert (live c) as Hlc by (unfold live; by rewrite Hz).
  pose proof (c_ep _ _ Hi caller c Hc Hlc) as Hce.
  assert (live_ep s (p_endpoint c)) as Hcl by (exists c; by rewrite Hce).
  assert (forall k p, pget s k = Some p -> exists p', pget s' k = Some p' /\
    p_endpoint p' = p_endpoint p /\ (live p' -> live p) /\
    P_BLOCKEDON p' = if decide (k = caller) then dst_e else P_BLOCKEDON p) as Hfwd.
  { intros k p Hp. pose proof (appended_joined s caller c dst dst_e (C dst) flags m k Hc Hz Hne Hnc) as Hj.
    rewrite Hp in Hj. destruct Hj as (p1 & Hp1 & Hj).
    destruct (same_pget _ _ _ _ Hs Hp1) as (p' & Hp' & (Hf & _ & _ & _ & _ & Hep & Hfr & Hto)%strip_fields).
    exists p'. split; [done|]. unfold live, P_BLOCKEDON. rewrite Hf, Hep, Hfr, Hto.
    rewrite (j_ep _ _ _ _ _ _ _ Hj), (j_flags _ _ _ _ _ _ _ Hj), (j_sendto _ _ _ _ _ _ _ Hj), (j_getfrom _ _ _ _ _ _ _ Hj).
    case_decide as Hk; [|done]. split_and!; [done| |done]. intros _. subst k. congruence. }
  assert (forall k p', pget s' k = Some p' -> exists p, pget s k = Some p) as Hback.
  { intros k p' Hp'. destruct (same_pget_inv _ _ _ _ Hs Hp') as (p1 & Hp1 & _).
    destruct (appended_pget s s1 caller c dst dst_e (C dst) flags m k p1) as (p & Hp & _); eauto. }
  apply (acyclic_edge s s' Q C (p_endpoint c) dst_e); [done|done| | | |by right; exists d|done].
  - intros e He Hec. destruct (live_ep_slot s Q C e (conj Hrq Hi) He) as [Hany Hnone].
    destruct He as (p & Hp & Hpe & Hl). unfold next. rewrite !decide_False by tauto.
    destruct (Hfwd _ _ Hp) as (p' & -> & _ & _ & Hb). rewrite Hp. simpl. rewrite Hb.
    rewrite decide_False; [done|]. intros Hk. rewrite Hk in Hp. congruence.
  - destruct (live_ep_slot s Q C _ (conj Hrq Hi) Hcl) as [Hany Hnone].
    unfold next. rewrite !decide_False by tauto. rewrite Hce.
    destruct (Hfwd _ _ Hc) as (p' & -> & _ & _ & Hb). simpl. by rewrite Hb, decide_True.
  - intros e (p' & Hp' & He & Hl). destruct (Hback _ _ Hp') as (p & Hp). exists p.
    destruct (Hfwd _ _ Hp) as (p1 & Hp1 & Hep & Hlv & _). assert (p1 = p') as -> by congruence.
    split_and!; [done|congruence|by apply Hlv].
Qed.

Lemma willreceive_blocked d e :
  WILLRECEIVE d e = false -> sending d = false -> receiving d = true -> p_getfrom_e d <> e.
Proof.
  unfold WILLRECEIVE, sending, receiving. change RTS_SENDING with (2 ^ 2). change RTS_RECEIVING with (2 ^ 3).
  rewrite !isset_has by lia. intros Hw Hs Hr Heq. rewrite Hr, Hs, Heq, Z.eqb_refl, orb_true_r in Hw. done.
Qed.

(** The check before a blocking send finds exactly the cycles the send would close. *)
Lemma send_check s Q C caller c d dst_e :
  ipc s Q C -> acyclic s -> pget s caller = Some c -> live c -> pget s (_ENDPOINT_P dst_e) = Some d ->
  p_endpoint d = dst_e -> live d -> caller <> _ENDPOINT_P dst_e -> WILLRECEIVE d (p_endpoint c) = false ->
  exists g, deadlock SEND caller dst_e s = Ret g s /\
    (g = 0 -> forall k, chain s dst_e k <> p_endpoint c) /\ (g <> 0 -> exists k, chain s dst_e k = p_endpoint c).
Proof.
  intros Hi Ha Hc Hlc Hd Hde Hld Hne Hwill.
  assert (live_ep s dst_e) as He by by exists d.
  assert (dst_e <> p_endpoint c) as Hnep.
  { intros Heq. apply Hne. rewrite Heq. symmetry. by apply (c_ep _ _ (proj2 Hi)). }
  destruct (acyclic_stops s c dst_e Ha (or_intror He)) as (n & Hstop & Hfirst).
  exists (verdict s SEND c dst_e n). split.
  { eapply deadlock_run; [done|done|done|by right|done|by split]. }
  unfold verdict. case_decide as Hch.
  - rewrite Hd. split; [|by exists n].
    destruct (bool_decide (n = 1%nat) && resolved SEND d) eqn:Hres; [|lia]. exfalso.
    apply andb_true_iff in Hres as [->%bool_decide_eq_true Hres].
    rewrite chain_S in Hch. change (chain s dst_e 0) with dst_e in Hch.
    rewrite (next_live s Q C dst_e d Hi Hd Hde Hld) in Hch. unfold resolved in Hres.
    rewrite SEND_flag in Hres. change RTS_SENDING with (2 ^ 2) in Hres.
    rewrite has_bit, Z.lxor_spec, <-has_bit, Z.pow2_bits_true, xorb_true_r, <-sending_bit in Hres by lia.
    apply negb_true_iff in Hres. unfold P_BLOCKEDON in Hch. fold (sending d) (receiving d) in Hch.
    rewrite Hres in Hch. destruct (receiving d) eqn:Hr; [by apply (willreceive_blocked d (p_endpoint c))|].
    destruct (live_ep_slot s Q C (p_endpoint c) Hi); [by eapply live_pget|congruence].
  - split; [|done]. intros _ k Hk.
    assert (chain s dst_e n = ANY \/ chain s dst_e n = NONE) as Hend by (destruct Hstop as [?|[?|?]]; tauto).
    destruct (decide (k < n)%nat) as [Hlt|Hge]; [apply (Hfirst k Hlt); by right; right|].
    replace k with ((k - n) + n)%nat in Hk by lia. rewrite chain_add, chain_ended in Hk by done.
    destruct (live_ep_slot s Q C (p_endpoint c) Hi); [by eapply live_pget|]. destruct Hend; congruence.
Qed.

(** What a completed delivery of [m] from [src] to [dst] leaves. *)
Definition received s (dst src_e : Z) (m : message) : Prop :=
  exists d, pget s dst = Some d /\ p_delivermsg d = m <| m_source := src_e |> /\
    MF d MF_DELIVERMSG = true /\ receiving d = false.

(** A sender waits at the end of the queue of [dst] with its message. *)
Definition waiting s (caller dst_e : Z) (m : message) : Prop :=
  exists c, pget s caller = Some c /\ p_sendmsg c = m /\ sending c = true /\ p_sendto_e c = dst_e.

Lemma deliver_wp s Q C caller c d dst_e m_ptr flags m :
  let dst := _ENDPOINT_P dst_e in
  ipc s Q C -> acyclic s -> pget s caller = Some c -> pget s dst = Some d -> live d -> caller <> dst ->
  RTS_ISSET d RTS_NO_ENDPOINT = false -> WILLRECEIVE d (p_endpoint c) = true ->
  MF d MF_DELIVERMSG = false -> message_of s caller m_ptr flags = Some m ->
  wp (mini_send caller dst_e m_ptr flags)
    (fun r s' => r = OK /\ acyclic s' /\ (exists Q', ipc s' Q' C) /\ received s' dst (p_endpoint c) m)
    never s.
Proof.
  intros dst Hi Ha Hc Hd Hld Hne Hno Hwill Hdm Hm. unfold wp.
  rewrite (mini_send_deliver_run s caller c d dst_e m_ptr flags m) by done. fold dst.
  set (f := delivered flags (p_endpoint c) (send_call flags c) m).
  pose proof (quiet_delivered flags (p_endpoint c) (send_call flags c) m) as Hy. fold f in Hy.
  pose proof (ipc_quiet s Q C dst d f Hi Hd Hy) as Hi1.
  pose proof (pget_pset_some s dst f d Hd) as Hd1. set (s1 := pset dst f s) in *.
  assert (live (f d)) as Hl1 by by apply (k_live _ _ (y_keeps _ Hy d)).
  destruct (RTS_UNSET_ipc s1 Q C dst (f d) RTS_RECEIVING Hi1 Hd1 Hl1 eq_refl eq_refl)
    as (s' & Q' & Hrun & Hi' & _ & _ & _ & _ & Hfwd & Hback).
  rewrite (bind_ret _ _ _ _ _ Hrun). split; [done|]. split; [|split; [by exists Q'|]].
  - apply (acyclic_wake s1 s' dst); [done|done|by apply (c_free _ _ (proj2 Hi'))|].
    apply (acyclic_mono s); [| |done].
    + intros e. left. unfold next. destruct (decide _); [done|]. unfold s1. rewrite pget_pset.
      case_decide as He; [|done]. rewrite He, Hd. simpl. unfold P_BLOCKEDON.
      fold (sending d) (receiving d) (sending (f d)) (receiving (f d)).
      rewrite (k_sending _ _ (y_keeps _ Hy d)), (k_sendto _ _ (y_keeps _ Hy d)), (y_getfrom _ Hy).
      assert (receiving (f d) = receiving d) as -> by (unfold receiving; by rewrite (n_flags _ (y_neutral _ Hy))).
      done.
    + intros e (p' & Hp' & He & Hl). destruct (pget_cases _ _ _ _ _ Hp') as (p & Hp & [[Heq ->]|[_ ->]]); exists p.
      * rewrite (k_ep _ _ (y_keeps _ Hy p)) in He. split_and!; [done|done|by apply (k_live _ _ (y_keeps _ Hy p))].
      * done.
  - destruct (Hfwd _ _ Hd1) as (d' & Hd' & Hag). rewrite decide_True in Hag by done.
    destruct (agrees_fields _ _ Hag) as (_ & _ & _ & Hdv & Hmf & _ & _ & Hrc).
    destruct (delivered_fields flags (p_endpoint c) (send_call flags c) m d) as [Hmsg Hmd].
    exists d'. split_and!; [done| | |].
    + rewrite Hdv. exact Hmsg.
    + unfold MF in *. rewrite Hmf. exact Hmd.
    + rewrite Hrc. apply cleared_receiving.
Qed.

Lemma block_wp s Q C caller c d dst_e m_ptr flags m :
  let dst := _ENDPOINT_P dst_e in
  ipc s Q C -> acyclic s -> pget s caller = Some c -> p_rts_flags c = 0 -> pget s dst = Some d ->
  p_endpoint d = dst_e -> live d -> caller <> dst ->
  RTS_ISSET d RTS_NO_ENDPOINT = false -> WILLRECEIVE d (p_endpoint c) = false ->
  has flags NON_BLOCKING = false -> deadlock SEND caller dst_e s = Ret 0 s ->
  (forall k, chain s dst_e k <> p_endpoint c) -> message_of s caller m_ptr flags = Some m ->
  wp (mini_send caller dst_e m_ptr flags)
    (fun r s' => r = OK /\ acyclic s' /\ ipc s' (without caller Q) (qset dst (C dst ++ [caller]) C) /\
       waiting s' caller dst_e m) never s.
Proof.
  intros dst Hi Ha Hc Hz Hd Hde Hld Hne Hno Hwill Hnb Hdl Hch Hm.
  destruct (mini_send_block_run s Q C caller c d dst_e m_ptr flags m) as (s' & Hrun & Hs & Hrq); try done.
  fold dst in Hs. eapply wp_ret_run; [exact Hrun|]. split_and!; [done| | |].
  - by apply (acyclic_block s Q C caller c d dst_e flags m).
  - split; [done|]. eapply ipcs_same; [exact Hs|]. by apply (ipcs_append s C caller c d dst_e flags m); [apply Hi|..].
  - assert (caller ∉ C dst) as Hnc.
    { intros (p & Hp & Hsd & _)%(c_mem _ _ (proj2 Hi)). destruct (runnable_idle _ _ _ _ (proj2 Hi) Hc Hz). congruence. }
    assert (exists p, pget (appended_caller caller dst (C dst) (block_sender flags dst_e m) s) caller = Some p /\
              p_sendmsg p = m) as (p & Hp & Hsm).
    { unfold appended_caller, qend, set_link_of. destruct (list.last (C dst)) as [k|] eqn:Hlast.
      - assert (k <> caller) as Hkc by (intros ->; apply Hnc; apply last_Some in Hlast as [l' ->]; apply elem_of_app; right; by left).
        rewrite pget_pset_ne, pget_pset_eq, Hc by done. eexists. split; [reflexivity|].
        unfold block_sender. by destruct (has flags FROM_KERNEL).
      - rewrite pget_pset_ne, pget_pset_eq, Hc by done. eexists. split; [reflexivity|].
        unfold block_sender. by destruct (has flags FROM_KERNEL). }
    destruct (appended_pget s _ caller c dst dst_e (C dst) flags m caller p eq_refl Hc Hz Hne Hnc Hp) as (p0 & Hp0 & Hj).
    destruct (same_pget _ _ _ _ Hs Hp) as (p' & Hp' & Hst). exists p'.
    destruct (strip_fields _ _ Hst) as (Hf & _ & _ & _ & _ & _ & _ & Hto).
    destruct (strip_ipc_fields _ _ Hst) as (_ & _ & _ & Hsm' & _).
    split_and!; [done|congruence| |].
    + unfold sending. by rewrite Hf, (j_flags _ _ _ _ _ _ _ Hj), decide_True.
    + by rewrite Hto, (j_sendto _ _ _ _ _ _ _ Hj), decide_True.
Qed.

(** C2: mini_send on every branch, for a running caller and another live process as
    destination: a destination that takes no messages gives EDEADSRCDST; one that waits
    for the caller gets the message with the caller as its source and stops receiving; a
    non-blocking send gives ENOTREADY; a send that would close a cycle of blocked
    processes gives ELOCKED; otherwise the caller leaves the run queues and joins the end
    of the destination's queue with its message. The queues stay consistent and no cycle
    of blocked processes comes up. *)
Theorem mini_send_spec s Q C caller c d dst_e m_ptr flags m :
  let dst := _ENDPOINT_P dst_e in
  ipc s Q C -> acyclic s -> pget s caller = Some c -> p_rts_flags c = 0 -> pget s dst = Some d ->
  p_endpoint d = dst_e -> live d -> caller <> dst ->
  (WILLRECEIVE d (p_endpoint c) = true -> MF d MF_DELIVERMSG = false) ->
  message_of s caller m_ptr flags = Some m ->
  wp (mini_send caller dst_e m_ptr flags)
    (fun r s' =>
       if RTS_ISSET d RTS_NO_ENDPOINT then r = EDEADSRCDST /\ s' = s
       else if WILLRECEIVE d (p_endpoint c) then
         r = OK /\ acyclic s' /\ (exists Q', ipc s' Q' C) /\ received s' dst (p_endpoint c) m
       else if has flags NON_BLOCKING then r = ENOTREADY /\ s' = s
       else (r = ELOCKED /\ s' = s /\ exists k, chain s dst_e k = p_endpoint c) \/
            (r = OK /\ acyclic s' /\ ipc s' (without caller Q) (qset dst (C dst ++ [caller]) C) /\
             waiting s' caller dst_e m)) never s.
Proof.
  intros dst Hi Ha Hc Hz Hd Hde Hld Hne Hdm Hm.
  destruct (RTS_ISSET d RTS_NO_ENDPOINT) eqn:Hno.
  { unfold wp, mini_send. fold dst. rewrite (bind_ret _ _ _ _ _ (get_proc_run _ _ _ Hd)), Hno. by split. }
  destruct (WILLRECEIVE d (p_endpoint c)) eqn:Hwill.
  { apply (deliver_wp s Q C caller c d dst_e m_ptr flags m); auto. }
  assert (forall P : rc -> state W -> Prop,
    (if has flags NON_BLOCKING then P ENOTREADY s else
     exists g, deadlock SEND caller dst_e s = Ret g s /\ (g <> 0 -> P ELOCKED s) /\
               (g = 0 -> wp (mini_send caller dst_e m_ptr flags) P never s)) ->
    wp (mini_send caller dst_e m_ptr flags) P never s) as Hstep.
  { intros P HP. unfold wp, mini_send in *. fold dst in HP |- *.
    rewrite (bind_ret _ _ _ _ _ (get_proc_run _ _ _ Hd)), Hno, (bind_ret _ _ _ _ _ (get_proc_run _ _ _ Hc)), Hwill in HP |- *.
    destruct (has flags NON_BLOCKING); [exact HP|]. destruct HP as (g & Hg & HP1 & HP2).
    destruct (decide (g = 0)) as [Hg0|Hg0]; [by apply HP2|].
    rewrite (bind_ret _ _ _ _ _ Hg), (proj2 (Z.eqb_neq _ _) Hg0). by apply HP1. }
  apply Hstep. destruct (has flags NON_BLOCKING) eqn:Hnb; [by split|].
  assert (live c) as Hlc by (unfold live; by rewrite Hz).
  destruct (send_check s Q C caller c d dst_e) as (g & Hg & Hzero & Hcycle); try done.
  exists g. split_and!; [done| |].
  - intros Hg0. left. split_and!; [done|done|].
    by apply Hcycle.
  - intros ->. eapply wp_mono; [apply (block_wp s Q C caller c d dst_e m_ptr flags m); try done; by apply Hzero| |done].
    cbn beta. intros r s' HP. by right.
Qed.
End claims.

(** ** Receiving *)
(** What the queues and the wait-for graph see of a process. *)
Record core := mk_core {
  o_nr : Z; o_ep : Z; o_prio : Z; o_sending : bool; o_receiving : bool; o_sendto : Z; o_getfrom : Z;
  o_caller_q : option Z; o_q_link : option Z; o_live : bool; o_free : bool;
}.
#[export] Instance eta_core : Eta core := fun r =>
  mk_core (o_nr r) (o_ep r) (o_prio r) (o_sending r) (o_receiving r) (o_sendto r) (o_getfrom r)
    (o_caller_q r) (o_q_link r) (o_live r) (o_free r).

Section remove.
Context `{MinixLaws} `{KernelHeaders} {W : Type} `{KernelEnvLaws W}.
Implicit Types (s : state W) (Q : Z -> list Z) (C : Z -> list Z).

Definition core_of (p : proc) : core :=
  mk_core (p_nr p) (p_endpoint p) (p_priority p) (sending p) (receiving p) (p_sendto_e p) (p_getfrom_e p)
    (p_caller_q p) (p_q_link p) (negb (p_rts_flags p =? RTS_SLOT_FREE)) (RTS_ISSET p RTS_SLOT_FREE).
Definition cview s (k : Z) : option core := core_of <$> pget s k.

Lemma live_core p : live p <-> o_live (core_of p) = true.
Proof. unfold live. cbn. by rewrite negb_true_iff, Z.eqb_neq. Qed.

Lemma quiet_core f p : quiet f -> core_of (f p) = core_of p.
Proof.
  intros [Hn Hk Hpr Hg]. destruct (Hk p) as [[] ?], Hn. unfold core_of. unfold sending, receiving in *.
  f_equal; congruence.
Qed.

Lemma cview_quiet s n f k : quiet f -> cview (pset n f s) k = cview s k.
Proof.
  intros Hy. unfold cview. rewrite pget_pset. case_decide; [|done].
  destruct (pget s k) as [p|]; [|done]. simpl. by rewrite quiet_core.
Qed.

Lemma cview_some s k p : pget s k = Some p -> cview s k = Some (core_of p).
Proof. unfold cview. by intros ->. Qed.
Lemma cview_inv s k o : cview s k = Some o -> exists p, pget s k = Some p /\ o = core_of p.
Proof. unfold cview. destruct (pget s k) as [p|]; [|done]. intros [= <-]. by exists p. Qed.

(** The process [x], behind [pre] in the queue of [n], leaves it; [lnk] is its link. *)
Definition leaves (n x : Z) (pre : list Z) (lnk : option Z) (k : Z) (o : core) : core :=
  o <| o_sending := if decide (k = x) then false else o_sending o |>
    <| o_q_link := if decide (k = x) then None
                   else if decide (list.last pre = Some k) then lnk else o_q_link o |>
    <| o_caller_q := if decide (k = n /\ pre = []) then lnk else o_caller_q o |>.

Lemma ipcs_remove s s' C n x pre post px :
  ipcs s C -> C n = pre ++ x :: post -> pget s x = Some px -> (exists pn, pget s n = Some pn) ->
  (forall k, cview s' k = leaves n x pre (p_q_link px) k <$> cview s k) -> proc_ptr s' = proc_ptr s ->
  ipcs s' (qset n (pre ++ post) C).
Proof.
  intros Hi HC Hx [pn Hn] Hcv Hpp.
  assert (forall k p', pget s' k = Some p' -> exists p, pget s k = Some p /\
    core_of p' = leaves n x pre (p_q_link px) k (core_of p)) as Hback.
  { intros k p' Hp'%cview_some. rewrite Hcv in Hp'. unfold cview in Hp'.
    destruct (pget s k) as [p|]; [|done]. exists p. split; [done|]. symmetry. exact (inj Some _ _ Hp'). }
  assert (forall k p, pget s k = Some p -> exists p', pget s' k = Some p' /\
    core_of p' = leaves n x pre (p_q_link px) k (core_of p)) as Hfwd.
  { intros k p Hp. pose proof (Hcv k) as Hk. rewrite (cview_some _ _ _ Hp) in Hk.
    apply cview_inv in Hk as (p' & Hp' & Hc). by exists p'. }
  assert (forall k p p', core_of p' = leaves n x pre (p_q_link px) k (core_of p) ->
    p_nr p' = p_nr p /\ p_endpoint p' = p_endpoint p /\ p_priority p' = p_priority p /\
    sending p' = (if decide (k = x) then false else sending p) /\ receiving p' = receiving p /\
    p_sendto_e p' = p_sendto_e p /\ p_getfrom_e p' = p_getfrom_e p /\
    p_caller_q p' = (if decide (k = n /\ pre = []) then p_q_link px else p_caller_q p) /\
    p_q_link p' = (if decide (k = x) then None
                   else if decide (list.last pre = Some k) then p_q_link px else p_q_link p) /\
    (live p' <-> live p) /\ RTS_ISSET p' RTS_SLOT_FREE = RTS_ISSET p RTS_SLOT_FREE) as Hcore.
  { intros k p p' Hc. rewrite !live_core. rewrite Hc. unfold core_of, leaves in Hc. cbn in Hc.
    injection Hc. intros. by split_and!. }
  clear Hcv. pose proof (c_nodup _ _ Hi n) as Hnd. rewrite HC in Hnd.
  assert (forall k m, m ∈ C k -> m ∈ C n -> k = n) as Hdis.
  { intros k m (p1 & Hp1 & _ & <-)%(c_mem _ _ Hi) (p2 & Hp2 & _ & <-)%(c_mem _ _ Hi). congruence. }
  assert (forall k, list.last pre = Some k -> k ∈ C n) as Hlast.
  { intros k [l' ->]%last_Some. rewrite HC, !elem_of_app. left. right. by left. }
  assert (forall e, live_ep s e -> live_ep s' e) as Hle.
  { intros e (p & Hp & He & Hl). destruct (Hfwd _ _ Hp) as (p' & Hp' & Hc%Hcore). exists p'.
    destruct Hc as (_ & -> & _ & _ & _ & _ & _ & _ & _ & Hlv & _). split_and!; [done|done|by apply Hlv]. }
  assert (forall k, qnx s' k = if decide (k = x) then Some None
             else if decide (list.last pre = Some k) then Some (p_q_link px) else qnx s k) as Hq.
  { intros k. unfold qnx. destruct (pget s k) as [p|] eqn:Hp.
    - destruct (Hfwd _ _ Hp) as (p' & -> & Hc%Hcore). destruct Hc as (_ & _ & _ & _ & _ & _ & _ & _ & Hql & _).
      simpl. rewrite Hql. by repeat case_decide.
    - destruct (pget s' k) as [p'|] eqn:Hp'; [apply Hback in Hp' as (? & ? & _); congruence|].
      simpl. rewrite !decide_False; [done| |congruence].
      intros Hl%Hlast. apply (c_mem _ _ Hi) in Hl as (? & ? & _). congruence. }
  split.
  - intros k p' (p & Hp & Hc)%Hback. apply Hcore in Hc as (_ & _ & _ & _ & _ & _ & _ & -> & _).
    pose proof (c_head _ _ Hi k p Hp) as Hl. unfold qset. destruct (decide (k = n)) as [->|Hk].
    + rewrite HC in Hl.
      assert (x ∉ pre ++ post) as Hxn.
      { apply list.NoDup_app in Hnd as (_ & Hd & [Hd2 _]%list.NoDup_cons).
        intros [Hxp|Hxp]%elem_of_app; [apply (Hd x Hxp); by left|done]. }
      apply (linked_ext (fun m => if decide (m = x) then qnx s x else qnx s' m)).
      { intros m Hm. rewrite decide_False; [done|]. by intros ->. }
      eapply (linked_remove (qnx s)); [exact Hnd|exact Hl|..].
      * intros m Hm. assert (m <> x) as Hmx.
        { intros ->. apply Hxn, elem_of_app. left. apply last_Some in Hm as [l' ->]. apply elem_of_app. right. by left. }
        rewrite decide_False, Hq, decide_False, decide_True by done. unfold qnx. by rewrite Hx.
      * intros Hm%last_None. rewrite decide_True by done. unfold qnx. by rewrite Hx.
      * intros Hm. rewrite decide_False; [done|]. intros [_ ->]. done.
      * intros m Hm. rewrite Hq. repeat case_decide; by subst.
    + rewrite decide_False by tauto. eapply linked_ext; [|exact Hl]. intros m Hm. rewrite Hq.
      assert (m ∉ C n) as Hmn by (intros Hmn; by apply Hk, (Hdis k m)).
      rewrite !decide_False; [done| |]; intros Heq; apply Hmn; [by apply Hlast|].
      rewrite HC, Heq. apply elem_of_app. right. by left.
  - intros k. unfold qset. case_decide; [|apply (c_nodup _ _ Hi)].
    apply list.NoDup_app in Hnd as (Hnd1 & Hd & [_ Hnd2]%list.NoDup_cons). apply list.NoDup_app.
    split_and!; [done| |done]. intros m Hm Hm'. apply (Hd m Hm). by right.
  - intros k m. assert (m ∈ qset n (pre ++ post) C k <-> m ∈ C k /\ m <> x) as ->.
    { assert (x ∈ C n) as Hxn by (rewrite HC; apply elem_of_app; right; by left).
      unfold qset. case_decide as Hk.
      - subst k. rewrite HC. apply list.NoDup_app in Hnd as (_ & Hd & [Hd2 _]%list.NoDup_cons).
        rewrite !elem_of_app, elem_of_cons. split; [|naive_solver].
        intros [Hm|Hm]; (split; [tauto|intros ->]); [apply (Hd x Hm); by left|done].
      - split; [|tauto]. intros Hm. split; [done|]. intros ->. by apply Hk, (Hdis k x). }
    rewrite (c_mem _ _ Hi). split.
    + intros [(p & Hp & Hs & Ht) Hmx]. destruct (Hfwd _ _ Hp) as (p' & Hp' & Hc%Hcore). exists p'.
      destruct Hc as (_ & _ & _ & -> & _ & -> & _). by rewrite decide_False.
    + intros (p' & (p & Hp & Hc%Hcore)%Hback & Hs & Ht).
      destruct Hc as (_ & _ & _ & Hs' & _ & Ht' & _). rewrite Hs' in Hs. case_decide; [done|].
      split; [|done]. exists p. by rewrite <-Ht'.
  - intros k p' (p & Hp & Hc%Hcore)%Hback Hs. destruct Hc as (_ & _ & _ & Hs' & _ & _ & _ & _ & -> & _).
    case_decide as Hk; [done|]. rewrite Hs' in Hs. rewrite decide_False; [by apply (c_idle _ _ Hi k p)|].
    intros Hl%Hlast. apply (c_mem _ _ Hi) in Hl as (p2 & Hp2 & Hs2 & _). congruence.
  - intros k p' (p & Hp & Hc%Hcore)%Hback. destruct Hc as (-> & _). by apply (c_nr _ _ Hi).
  - intros k p' (p & Hp & Hc%Hcore)%Hback Hl.
    destruct Hc as (_ & -> & _ & _ & _ & _ & _ & _ & _ & Hlv & _). apply (c_ep _ _ Hi k p Hp). by apply Hlv.
  - intros k p' (p & Hp & Hc%Hcore)%Hback Hl.
    destruct Hc as (_ & _ & -> & _ & _ & _ & _ & _ & _ & Hlv & _). apply (c_prio _ _ Hi k p Hp). by apply Hlv.
  - intros k p' (p & Hp & Hc%Hcore)%Hback Hs. destruct Hc as (_ & _ & _ & Hs' & _ & -> & _).
    rewrite Hs' in Hs. case_decide; [done|]. by apply Hle, (c_target _ _ Hi k).
  - intros k p' (p & Hp & Hc%Hcore)%Hback Hr. destruct Hc as (_ & _ & _ & _ & Hr' & _ & -> & _).
    rewrite Hr' in Hr. destruct (c_from _ _ Hi k p Hp Hr); [by left|right; by apply Hle].
  - intros k p' (p & Hp & Hc%Hcore)%Hback Hs Hr. destruct Hc as (_ & _ & _ & Hs' & Hr' & -> & -> & _).
    rewrite Hs' in Hs. case_decide; [done|]. apply (c_both _ _ Hi k p); [done|done|by rewrite <-Hr'].
  - intros k p' (p & Hp & Hc%Hcore)%Hback Hl.
    destruct Hc as (_ & _ & _ & _ & _ & _ & _ & _ & _ & Hlv & ->). apply (c_free _ _ Hi k p Hp). by apply Hlv.
  - rewrite Hpp. intros p' (p & Hp & Hc%Hcore)%Hback.
    destruct Hc as (_ & _ & _ & _ & _ & _ & _ & _ & _ & Hlv & _). apply Hlv. by apply (c_cur _ _ Hi).
Qed.
End remove.

Section receive.
Context `{MinixLaws} `{KernelHeaders} `{!IpcLaws} {W : Type} `{KernelEnvLaws W}.
Implicit Types (s : state W) (Q : Z -> list Z) (C : Z -> list Z).
#[local] Hint Resolve get_proc_run set_proc_run set_misc_run clear_misc_run IPC_STATUS_ADD_run
  pget_pset_some pget_pset_other : run.

Lemma agrees_refl p : agrees p p.
Proof. by apply agrees_strip. Qed.

Lemma agrees_core p p' : agrees p p' -> (live p' <-> live p) -> core_of p' = core_of p.
Proof.
  intros Hag Hl. destruct (agrees_fields _ _ Hag) as (He & Hto & Hfr & _ & _ & _ & Hs & Hr).
  destruct Hag as [Hst Hf].
  assert (RTS_ISSET p' RTS_SLOT_FREE = RTS_ISSET p RTS_SLOT_FREE) as Hfree.
  { rewrite !free_bit. destruct Hf as [-> | ->]; [done|]. rewrite has_set by lia.
    change RTS_PREEMPTED with (2 ^ 14). rewrite Z.pow2_bits_false by lia. by rewrite orb_false_r. }
  assert (p_nr p' = p_nr p /\ p_priority p' = p_priority p /\ p_caller_q p' = p_caller_q p /\ p_q_link p' = p_q_link p)
    as (Hn & Hp & Hq & Hl0).
  { clear -Hst. destruct p, p'. unfold strip, upd in Hst. cbn in Hst. revert Hst. intros [=]. by subst. }
  unfold core_of. rewrite Hs, Hr, Hfree, He, Hto, Hfr, Hn, Hp, Hq, Hl0. f_equal.
  unfold live in Hl. destruct (Z.eqb_spec (p_rts_flags p') RTS_SLOT_FREE), (Z.eqb_spec (p_rts_flags p) RTS_SLOT_FREE); tauto.
Qed.

(** RTS_UNSET of any flag but SLOT_FREE, as seen by the queues: nothing but the flag of
    the process changes, and a preempted process gets PREEMPTED. *)
Lemma RTS_UNSET_view s Q n p f :
  rq s Q -> pget s n = Some p -> RTS_ISSET p RTS_SLOT_FREE = false -> Z.testbit f 0 = false ->
  queue_nr (p_priority p) -> (forall c, pget s (proc_ptr s) = Some c -> live c) ->
  exists s' Q', RTS_UNSET n f s = Ret tt s' /\ rq s' Q' /\
    proc_ptr s' = proc_ptr s /\ world s' = world s /\ privs s' = privs s /\
    (forall m q, pget s m = Some q -> exists q', pget s' m = Some q' /\
       agrees (if decide (m = n) then clear_flags f q else q) q' /\
       (live q' <-> live (if decide (m = n) then clear_flags f q else q))) /\
    (forall m q', pget s' m = Some q' -> exists q, pget s m = Some q).
Proof.
  intros Hrq Hp Hfr Hf0 Hprio Hcur. set (s1 := pset n (clear_flags f) s).
  assert (live (clear_flags f p)) as Hlc.
  { intros Heq. rewrite free_bit in Hfr.
    assert (has (p_rts_flags (clear_flags f p)) (2 ^ 0) = false) as Hb by (cbn; by rewrite has_clear, Hfr).
    by rewrite Heq in Hb. }
  assert (live p) as Hl by (intros Heq; unfold RTS_ISSET in Hfr; by rewrite Heq in Hfr).
  destruct (RTS_UNSET_run s Q n p f Hrq Hp Hl Hf0 (fun _ => Hprio) Hcur (fun _ => Hlc)) as (s' & Hrun & Hs').
  fold s1 in Hs'. set (s2 := if wakes f p then preempted s1 n else s1).
  assert (same s2 s') as Hs2 by (subst s2; destruct (wakes f p); apply Hs').
  assert (forall c, pget s1 (proc_ptr s1) = Some c -> live c) as Hcur1.
  { change (proc_ptr s1) with (proc_ptr s). unfold s1. intros c. rewrite pget_pset.
    case_decide as Hd; [|by apply Hcur]. rewrite Hd, Hp. by intros [= <-]. }
  assert (proc_ptr s2 = proc_ptr s /\ world s2 = world s /\ privs s2 = privs s) as (Hpp & Hw & Hpv).
  { subst s2. destruct (wakes f p); [|done]. by destruct (same_of_preempted s1 n) as [-> | [-> _]]. }
  assert (forall m, pget s1 m = (fun q => if decide (m = n) then clear_flags f q else q) <$> pget s m) as Hs1.
  { intros m. unfold s1. rewrite pget_pset. case_decide; by destruct (pget s m). }
  assert (forall m q, pget s m = Some q -> exists q', pget s2 m = Some q' /\
       agrees (if decide (m = n) then clear_flags f q else q) q' /\
       (live q' <-> live (if decide (m = n) then clear_flags f q else q))) as Hfwd.
  { intros m q Hq. pose proof (Hs1 m) as Hq1. rewrite Hq in Hq1. simpl in Hq1.
    set (q1 := if decide (m = n) then _ else _) in *. subst s2.
    destruct (wakes f p); [|by exists q1; split_and!; [|apply agrees_refl|]].
    destruct (same_of_preempted s1 n) as [-> | [-> _]]; [by exists q1; split_and!; [|apply agrees_refl|]|].
    rewrite pget_pset, Hq1. case_decide as Hm; [|by exists q1; split_and!; [|apply agrees_refl|]].
    exists (set_flags RTS_PREEMPTED q1). split_and!; [done|split; [done|by right]|].
    assert (live q1) as Hlq by (apply Hcur1; by rewrite <-Hm). split; [done|]. intros _.
    apply (waits_set (p_rts_flags q1) RTS_PREEMPTED). exists 14. by split; [lia|]. }
  exists s'. assert (exists Q', rq s' Q') as (Q' & HQ').
  { destruct (wakes f p); destruct Hs' as [_ Hrq']; by eexists. }
  exists Q'. split_and!; try done.
  - by rewrite (same_proc_ptr _ _ Hs2).
  - by rewrite (same_world _ _ Hs2).
  - by rewrite (same_privs _ _ Hs2).
  - intros m q Hq. destruct (Hfwd _ _ Hq) as (q1 & Hq1 & Hag & Hlv).
    destruct (same_pget _ _ _ _ Hs2 Hq1) as (q' & Hq' & Hst). exists q'. split; [done|].
    destruct (strip_fields _ _ Hst) as [Hfq _]. split; [|unfold live in *; by rewrite Hfq].
    destruct Hag as [Hag Hfl]. split; [|by rewrite Hfq].
    rewrite <-Hag. change (strip q' <| p_rts_flags := 0 |> = strip q1 <| p_rts_flags := 0 |>). by rewrite Hst.
  - intros m q' Hq'. destruct (same_pget_inv _ _ _ _ Hs2 Hq') as (q2 & Hq2 & _).
    destruct (pget s m) as [q|] eqn:Hq; [by exists q|]. exfalso.
    pose proof (Hs1 m) as Hq1. rewrite Hq in Hq1. simpl in Hq1.
    subst s2. destruct (wakes f p); [|congruence].
    destruct (same_of_preempted s1 n) as [Heq | [Heq _]]; rewrite Heq in Hq2; [congruence|].
    rewrite pget_pset, Hq1 in Hq2. by case_decide.
Qed.

Lemma clear_sending_core p :
  live p -> live (clear_flags RTS_SENDING p) ->
  core_of (clear_flags RTS_SENDING p) = core_of p <| o_sending := false |>.
Proof.
  intros Hl Hl'. unfold core_of, upd. cbn.
  rewrite !sending_bit, !receiving_bit, !free_bit. cbn. rewrite !has_clear by lia.
  change (Z.testbit RTS_SENDING 2) with true. change (Z.testbit RTS_SENDING 3) with false.
  change (Z.testbit RTS_SENDING 0) with false.
  cbn [negb]. rewrite andb_false_r, !andb_true_r. f_equal.
  unfold live in *. cbn in Hl'. by rewrite !(proj2 (Z.eqb_neq _ _)).
Qed.

Lemma skip_senders s C caller c src_e src_p pre post :
  ipcs s C -> pget s caller = Some c -> C caller = pre ++ post ->
  (length (C caller) <= Z.to_nat slots)%nat ->
  (forall m, m ∈ pre -> (src_e =? ANY) || (src_p =? m) = false) ->
  match post with
  | [] => receive_queued caller src_e src_p s = Ret false s
  | x :: _ => (src_e =? ANY) || (src_p =? x) = true ->
      receive_queued caller src_e src_p s =
      (take_message caller x (qend caller pre);; mret true) s
  end.
Proof.
  intros Hi Hc HC Hlen Hskip. pose proof (c_head _ _ Hi caller c Hc) as Hl. rewrite HC in Hl.
  unfold receive_queued. set (body := fun xpp : qlink => _).
  assert (loop_ queue_fuel body (QHead caller) s =
          loop_ (queue_fuel - length pre) body (qend caller pre) s) as ->.
  { pose proof (loop_steps queue_fuel body (fun j => qend caller (take j pre)) (length pre) s) as Hsteps.
    cbn beta in Hsteps. rewrite firstn_all in Hsteps. apply Hsteps.
    - intros j Hj. destruct (lookup_lt_is_Some_2 pre j Hj) as [m Hm]. unfold body.
      rewrite (bind_ret _ _ _ _ _ (get_qlink_run s caller c _ (take j pre) (drop j pre ++ post) Hc Hl
        ltac:(by rewrite app_assoc, take_drop))).
      rewrite (drop_S _ _ _ Hm). cbn [head app].
      assert (m ∈ pre) as Hmp by by eapply list_elem_of_lookup_2.
      assert (m ∈ C caller) as (p & Hp & _)%(c_mem _ _ Hi) by (rewrite HC; apply elem_of_app; by left).
      rewrite (bind_ret _ _ _ _ _ (get_proc_run _ _ _ Hp)), (c_nr _ _ Hi _ _ Hp), (Hskip m Hmp).
      rewrite (take_S_r _ _ _ Hm). unfold qend. by rewrite last_snoc.
    - rewrite HC, length_app in Hlen. unfold queue_fuel, slots in *. lia. }
  assert (exists f, (queue_fuel - length pre = S f)%nat) as [f ->].
  { rewrite HC, length_app in Hlen. exists (queue_fuel - length pre - 1)%nat. unfold queue_fuel, slots in *. lia. }
  cbn [loop_].
  pose proof (get_qlink_run s caller c _ pre post Hc Hl eq_refl) as Hg.
  destruct post as [|x post].
  - assert (body (qend caller pre) s = Ret (inr false) s) as Hb.
    { unfold body. by rewrite (bind_ret _ _ _ _ _ Hg). }
    by rewrite (bind_ret _ _ _ _ _ Hb).
  - intros Hacc. cbn [head] in Hg.
    assert (x ∈ C caller) as (p & Hp & _)%(c_mem _ _ Hi) by (rewrite HC; apply elem_of_app; right; by left).
    assert (body (qend caller pre) s = (take_message caller x (qend caller pre);; mret (inr true)) s) as Hb.
    { unfold body. rewrite (bind_ret _ _ _ _ _ Hg), (bind_ret _ _ _ _ _ (get_proc_run _ _ _ Hp)).
      by rewrite (c_nr _ _ Hi _ _ Hp), Hacc. }
    unfold mbind, M_bind in *. rewrite Hb. by destruct (take_message _ _ _ _).
Qed.

Lemma cview_link s l v k :
  cview (set_link_of l v s) k =
  match l with
  | QHead n => (fun o => if decide (k = n) then o <| o_caller_q := v |> else o) <$> cview s k
  | QNext n => (fun o => if decide (k = n) then o <| o_q_link := v |> else o) <$> cview s k
  end.
Proof.
  destruct l as [n|n]; unfold set_link_of, cview; rewrite pget_pset; case_decide; by destruct (pget s k).
Qed.

Lemma RTS_UNSET_SENDING_cview s s' n :
  (forall m q, pget s m = Some q -> exists q', pget s' m = Some q' /\
     agrees (if decide (m = n) then clear_flags RTS_SENDING q else q) q' /\
     (live q' <-> live (if decide (m = n) then clear_flags RTS_SENDING q else q))) ->
  (forall m q', pget s' m = Some q' -> exists q, pget s m = Some q) ->
  (forall p, pget s n = Some p -> live p /\ live (clear_flags RTS_SENDING p)) ->
  forall k, cview s' k = (fun o => if decide (k = n) then o <| o_sending := false |> else o) <$> cview s k.
Proof.
  intros Hfwd Hback Hn k. unfold cview. destruct (pget s k) as [q|] eqn:Hq.
  - destruct (Hfwd _ _ Hq) as (q' & -> & Hag & Hlv). simpl. f_equal. rewrite (agrees_core _ _ Hag Hlv).
    case_decide as Hk; [|done]. subst k. destruct (Hn _ Hq). by apply clear_sending_core.
  - destruct (pget s' k) as [q'|] eqn:Hq'; [|done]. apply Hback in Hq' as [? ?]. congruence.
Qed.

(** Delivering the message of a queued sender. *)
Lemma take_message_run s Q C caller c x px pre post :
  ipc s Q C -> pget s caller = Some c -> p_rts_flags c = 0 -> MF c MF_DELIVERMSG = false ->
  C caller = pre ++ x :: post -> pget s x = Some px ->
  RTS_ISSET px RTS_NO_ENDPOINT = false -> MF px MF_SIG_DELAY = false ->
  exists s' Q', take_message caller x (qend caller pre) s = Ret tt s' /\ rq s' Q' /\
    proc_ptr s' = proc_ptr s /\
    (forall k, cview s' k = leaves caller x pre (p_q_link px) k <$> cview s k) /\
    exists c', pget s' caller = Some c' /\ p_delivermsg c' = p_sendmsg px <| m_source := p_endpoint px |> /\
      MF c' MF_DELIVERMSG = true.
Proof.
  intros [Hrq Hi] Hc Hz Hdm HC Hx Hno Hsd.
  assert (x ∈ C caller) as Hxc by (rewrite HC; apply elem_of_app; right; by left).
  apply (c_mem _ _ Hi) in Hxc as (px' & Hx' & Hsx & Htx). assert (px' = px) as -> by congruence.
  assert (x <> caller) as Hne.
  { intros ->. destruct (runnable_idle _ _ _ _ Hi Hc Hz). congruence. }
  assert (live px) as Hlx by (intros Hf; unfold sending in Hsx; by rewrite Hf in Hsx).
  pose proof (c_free _ _ Hi x px Hx Hlx) as Hfx.
  unfold take_message. run_step. rewrite Hfx, Hno. do 2 run_step. run_step. rewrite Hdm. run_step.
  run_step. pose proof (pget_pset_some s caller (set_msg (p_sendmsg px)) c Hc) as Hc1.
  fold (set_msg (p_sendmsg px)). set (s1 := pset caller (set_msg (p_sendmsg px)) s) in *.
  run_step. fold (set_source (p_endpoint px)).
  pose proof (pget_pset_some s1 caller (set_source (p_endpoint px)) _ Hc1) as Hc2.
  set (s2 := pset caller (set_source (p_endpoint px)) s1) in *.
  run_step. pose proof (pget_pset_some s2 caller (misc_on MF_DELIVERMSG) _ Hc2) as Hc3.
  set (f := misc_on MF_DELIVERMSG ∘ (set_source (p_endpoint px) ∘ set_msg (p_sendmsg px))).
  assert (pset caller (misc_on MF_DELIVERMSG) s2 = pset caller f s) as Hs3 by (subst s1 s2; by rewrite !pset_pset).
  rewrite Hs3 in *. clear s1 s2 Hc1 Hc2 Hs3. change (_ (_ (_ c))) with (f c) in Hc3.
  assert (quiet f) as Hy by (apply quiet_compose; [auto|apply quiet_compose; auto]).
  pose proof (ipc_quiet s Q C caller c f (conj Hrq Hi) Hc Hy) as [Hrq3 Hi3].
  pose proof (pget_pset_other s caller x f px Hne Hx) as Hx3. set (s3 := pset caller f s) in *.
  destruct (RTS_UNSET_view s3 Q x px RTS_SENDING Hrq3 Hx3 Hfx eq_refl (c_prio _ _ Hi x px Hx Hlx) (c_cur _ _ Hi3))
    as (s4 & Q' & Hrun4 & Hrq4 & Hpp4 & _ & _ & Hfwd4 & Hback4).
  rewrite (bind_ret _ _ _ _ _ Hrun4).
  assert (live (clear_flags RTS_SENDING px)) as Hlx'.
  { intros Heq. rewrite free_bit in Hfx.
    assert (has (p_rts_flags (clear_flags RTS_SENDING px)) (2 ^ 0) = false) as Hb by (cbn; by rewrite has_clear, Hfx).
    by rewrite Heq in Hb. }
  assert (forall k, cview s4 k = (fun o => if decide (k = x) then o <| o_sending := false |> else o) <$> cview s k) as Hcv4.
  { intros k. rewrite (RTS_UNSET_SENDING_cview s3 s4 x Hfwd4 Hback4).
    - unfold s3. by rewrite (cview_quiet s caller f k Hy).
    - intros p Hp. assert (p = px) as -> by congruence. done. }
  destruct (Hfwd4 _ _ Hx3) as (x4 & Hx4 & Hag4 & _). rewrite decide_True in Hag4 by done.
  destruct (agrees_fields _ _ Hag4) as (_ & _ & _ & _ & Hmx & _). cbn in Hmx.
  destruct (Hfwd4 _ _ Hc3) as (c4 & Hc4 & Hagc & _). rewrite decide_False in Hagc by done.
  destruct (agrees_fields _ _ Hagc) as (_ & _ & _ & Hdc & Hmc & _).
  assert (p_q_link x4 = p_q_link px) as Hlk.
  { destruct Hag4 as [Hst _]. destruct (strip_ipc_fields _ _ Hst) as (_ & Hlk & _). exact Hlk. }
  run_step. unfold IPC_STATUS_ADD_CALL. run_step.
  set (g := add_status (IPC_STATUS_CALL_TO (if MF x4 MF_REPLY_PEND then SENDREC else SEND))).
  pose proof (pget_pset_some s4 caller g c4 Hc4) as Hc5.
  pose proof (pget_pset_other s4 caller x g x4 Hne Hx4) as Hx5. set (s5 := pset caller g s4) in *.
  set (g' := if MF x4 MF_SENDING_FROM_KERNEL then add_status (IPC_STATUS_FLAGS IPC_FLG_MSG_FROM_KERNEL) else id).
  set (h := if MF x4 MF_SENDING_FROM_KERNEL then misc_off MF_SENDING_FROM_KERNEL else id).
  assert ((if MF x4 MF_SENDING_FROM_KERNEL then
     IPC_STATUS_ADD_FLAGS caller IPC_FLG_MSG_FROM_KERNEL;;
     clear_misc x MF_SENDING_FROM_KERNEL
   else mret tt) s5 = Ret tt (pset x h (pset caller g' s5))) as Hrun6.
  { subst g' h. destruct (MF x4 MF_SENDING_FROM_KERNEL).
    - unfold IPC_STATUS_ADD_FLAGS. run_step.
      by rewrite (clear_misc_run _ _ _ _ (pget_pset_other _ _ _ _ _ Hne Hx5)).
    - by rewrite !(pset_id _ _ id). }
  rewrite (bind_ret _ _ _ _ _ Hrun6).
  assert (quiet g') as Hyg' by (subst g'; destruct (MF x4 MF_SENDING_FROM_KERNEL); auto).
  assert (quiet h) as Hyh by (subst h; destruct (MF x4 MF_SENDING_FROM_KERNEL); auto).
  assert (quiet g) as Hyg by (subst g; auto).
  pose proof (pget_pset_some _ x h x4 (pget_pset_other s5 caller x g' x4 Hne Hx5)) as Hx6.
  pose proof (pget_pset_other _ x caller h _ (not_eq_sym Hne) (pget_pset_some s5 caller g' _ Hc5)) as Hc6.
  assert (rq (pset x h (pset caller g' s5)) Q') as Hrq6.
  { eapply rq_pset; [|apply (y_neutral _ Hyh)|apply (pget_pset_other s5 caller x g' x4 Hne Hx5)|intros _; apply (y_prio _ Hyh)].
    eapply rq_pset; [|apply (y_neutral _ Hyg')|exact Hc5|intros _; apply (y_prio _ Hyg')].
    eapply rq_pset; [exact Hrq4|apply (y_neutral _ Hyg)|exact Hc4|intros _; apply (y_prio _ Hyg)]. }
  assert (forall k, cview (pset x h (pset caller g' s5)) k = cview s4 k) as Hcv6.
  { intros k. unfold s5. by rewrite (cview_quiet _ x h k Hyh), (cview_quiet _ caller g' k Hyg'), (cview_quiet _ caller g k Hyg). }
  assert (proc_ptr (pset x h (pset caller g' s5)) = proc_ptr s) as Hpp6 by exact Hpp4.
  set (s6 := pset x h (pset caller g' s5)) in *.
  run_step.
  assert (MF (h x4) MF_SIG_DELAY = false) as Hsd6.
  { subst h. unfold MF in *. change MF_SIG_DELAY with (2 ^ 7) in *.
    destruct (has (p_misc_flags x4) MF_SENDING_FROM_KERNEL); cbn; rewrite ?has_clear, ?Hmx, Hsd by lia; done. }
  rewrite Hsd6. run_step. run_step.
  assert (p_q_link (h x4) = p_q_link px) as Hlk6 by (by rewrite (k_q_link _ _ (y_keeps _ Hyh x4))).
  rewrite Hlk6.
  assert (exists q, pget s6 (qlink_proc (qend caller pre)) = Some q) as [q Hq].
  { unfold qend. destruct (list.last pre) as [k|] eqn:Hlast; [|by eexists].
    assert (k ∈ C caller) as (pk & Hpk & _)%(c_mem _ _ Hi).
    { rewrite HC. apply elem_of_app. left. apply last_Some in Hlast as [l' ->]. apply elem_of_app. right. by left. }
    simpl. assert (cview s6 k <> None) as Hck by (rewrite Hcv6, Hcv4, (cview_some _ _ _ Hpk); done).
    unfold cview in Hck. destruct (pget s6 k) as [q|]; [by exists q|done]. }
  rewrite (bind_ret _ _ _ _ _ (set_qlink_run _ _ _ _ Hq)).
  pose proof (rq_set_link s6 Q' _ (p_q_link px) q Hrq6 Hq) as Hrq7.
  assert (exists x7, pget (set_link_of (qend caller pre) (p_q_link px) s6) x = Some x7) as [x7 Hx7].
  { unfold set_link_of. destruct (qend caller pre); rewrite pget_pset, Hx6; case_decide; by eexists. }
  set (s7 := set_link_of (qend caller pre) (p_q_link px) s6) in *.
  rewrite (set_proc_run _ _ _ _ Hx7).
  exists (pset x (fun p => p <| p_q_link := None |>) s7), Q'. split_and!.
  - done.
  - by apply (rq_pset s7 Q' x x7).
  - change (proc_ptr s7 = proc_ptr s). rewrite <-Hpp6. unfold s7, set_link_of. by destruct (qend caller pre).
  - intros k. transitivity ((fun o => if decide (k = x) then o <| o_q_link := None |> else o) <$> cview s7 k).
    { unfold cview. rewrite pget_pset. case_decide; by destruct (pget s7 k). }
    unfold s7. rewrite cview_link, Hcv6, Hcv4. unfold qend, leaves.
    assert (list.last pre <> Some x) as Hlx0.
    { intros [l' ->]%last_Some. pose proof (c_nodup _ _ Hi caller) as Hnd. rewrite HC in Hnd.
      apply list.NoDup_app in Hnd as (_ & Hd & _). apply (Hd x); [apply elem_of_app; right; by left|by left]. }
    destruct (list.last pre) as [y|] eqn:Hlast.
    + assert (pre <> []) as Hpre by (by intros ->).
      destruct (cview s k) as [o|]; [|done]. simpl. f_equal.
      destruct o. unfold upd. cbn. repeat case_decide; subst; try done; try tauto; congruence.
    + apply last_None in Hlast as ->. destruct (cview s k) as [o|]; [|done]. simpl. f_equal.
      destruct o. unfold upd. cbn. repeat case_decide; subst; try done; try tauto; congruence.
  - set (c6 := g' (g c4)) in *.
    assert (p_delivermsg c6 = p_delivermsg c4 /\ p_misc_flags c6 = p_misc_flags c4) as [Hd6 Hm6].
    { subst c6 g' g. destruct (MF x4 MF_SENDING_FROM_KERNEL); unfold add_status; repeat case_match; done. }
    assert (exists c7, pget s7 caller = Some c7 /\ p_delivermsg c7 = p_delivermsg c6 /\ p_misc_flags c7 = p_misc_flags c6)
      as (c7 & Hc7 & Hd7 & Hm7).
    { unfold s7, set_link_of. destruct (qend caller pre); rewrite pget_pset, Hc6; case_decide; by eexists. }
    exists c7. split_and!.
    + by rewrite pget_pset_ne.
    + rewrite Hd7, Hd6, Hdc. done.
    + unfold MF. rewrite Hm7, Hm6, Hmc. change MF_DELIVERMSG with (2 ^ 6). subst f. cbn.
      rewrite has_set by lia. apply orb_true_r.
Qed.
End receive.

(** ** The properties of receiving *)
Section receive_claims.
Context `{MinixLaws} `{KernelHeaders} `{!IpcLaws} {W : Type} `{KernelEnvLaws W}.
Implicit Types (s : state W) (Q : Z -> list Z) (C : Z -> list Z).
#[local] Hint Resolve get_proc_run set_proc_run set_misc_run clear_misc_run IPC_STATUS_ADD_run
  pget_pset_some pget_pset_other : run.

(** No notification and no asynchronous message waits for the process. *)
Definition no_pending s (c : proc) : Prop :=
  exists i pr, p_priv c = Some i /\ aget (privs s) i = Some pr /\
    forall k, 0 <= k < NR_SYS_CHUNKS -> aget (s_notify_pending pr) k = Some 0.
Definition quiet_inbox s (c : proc) : Prop :=
  (MF c MF_REPLY_PEND = true \/ no_pending s c) /\ MF c MF_ASYNMSG = false.

Lemma no_notification_run s caller c src_e src_p :
  pget s caller = Some c -> no_pending s c -> receive_notification caller src_e src_p s = Ret false s.
Proof.
  intros Hc (i & pr & Hi & Hpr & Hno). unfold receive_notification.
  assert (take_notification caller src_e src_p s = Ret None s) as Ht; [|by rewrite (bind_ret _ _ _ _ _ Ht)].
  unfold take_notification.
  match goal with |- (for_ ?l ?b ≫= _) _ = _ => assert (for_ l b s = Ret None s) as Hf end;
    [|by rewrite (bind_ret _ _ _ _ _ Hf)].
  apply for_none_run. intros k Hk%elem_of_seqZ.
  rewrite (bind_ret _ _ _ _ _ (get_priv_run _ _ _ _ _ Hc Hi Hpr)).
  rewrite (Hno k) by lia. done.
Qed.

Definition blocked_on (o : core) : Z :=
  if o_sending o then o_sendto o else if o_receiving o then o_getfrom o else NONE.
Lemma blocked_core p : P_BLOCKEDON p = blocked_on (core_of p).
Proof. done. Qed.

Lemma acyclic_cview s s' : (forall k, cview s' k = cview s k) -> acyclic s -> acyclic s'.
Proof.
  intros Hcv. apply acyclic_mono.
  - intros e. left. unfold next. destruct (decide _); [done|]. specialize (Hcv (_ENDPOINT_P e)).
    unfold cview in Hcv. destruct (pget s' _) as [p'|], (pget s _) as [p|]; try done. simpl.
    apply (inj Some) in Hcv. by rewrite !blocked_core, Hcv.
  - intros e (p' & Hp' & He & Hl). specialize (Hcv (_ENDPOINT_P e)). unfold cview in Hcv. rewrite Hp' in Hcv.
    destruct (pget s (_ENDPOINT_P e)) as [p|] eqn:Hp; [|done]. exists p. apply (inj Some) in Hcv.
    split_and!; [done| |].
    + rewrite <-He. symmetry. exact (f_equal o_ep Hcv).
    + apply live_core. rewrite <-Hcv. by apply live_core.
Qed.

(** The queues and the graph after a message was taken from the queue. *)
Lemma taken_ipc s s' Q' C caller c x px pre post :
  ipcs s C -> acyclic s -> pget s caller = Some c -> C caller = pre ++ x :: post -> pget s x = Some px ->
  (forall k, cview s' k = leaves caller x pre (p_q_link px) k <$> cview s k) -> proc_ptr s' = proc_ptr s ->
  rq s' Q' -> ipc s' Q' (qset caller (pre ++ post) C) /\ acyclic s'.
Proof.
  intros Hi Ha Hc HC Hx Hcv Hpp Hrq'. split.
  - split; [done|]. eapply ipcs_remove; [done|done|done|by exists c|done|done].
  - revert Ha. assert (forall k p', pget s' k = Some p' -> exists p, pget s k = Some p /\
      core_of p' = leaves caller x pre (p_q_link px) k (core_of p)) as Hback.
    { intros k p' Hp'%cview_some. rewrite Hcv in Hp'. unfold cview in Hp'.
      destruct (pget s k) as [p|]; [|done]. exists p. split; [done|]. symmetry. exact (inj Some _ _ Hp'). }
    apply acyclic_mono.
    + intros e. unfold next. destruct (decide _); [by left|].
      destruct (pget s' (_ENDPOINT_P e)) as [p'|] eqn:Hp'.
      * destruct (Hback _ _ Hp') as (p & Hp & Hcore). rewrite Hp. simpl. rewrite !blocked_core, Hcore. unfold blocked_on, leaves, upd. cbn.
        case_decide as Hk; [|by left]. destruct (receiving p) eqn:Hr; [|by right]. left.
        destruct (sending p) eqn:Hs; [|done]. by apply (c_both _ _ Hi (_ENDPOINT_P e)).
      * left. pose proof (Hcv (_ENDPOINT_P e)) as Hk. unfold cview in Hk. rewrite Hp' in Hk.
        by destruct (pget s (_ENDPOINT_P e)).
    + intros e (p' & Hp' & He & Hl). destruct (Hback _ _ Hp') as (p & Hp & Hcore). exists p.
      split_and!; [done| |].
      * rewrite <-He. symmetry. exact (f_equal o_ep Hcore).
      * apply live_core. transitivity (o_live (core_of p')); [symmetry; exact (f_equal o_live Hcore)|by apply live_core].
Qed.

(** The receiver that found no message. *)
Definition block_receiver (src_e : Z) : proc -> proc :=
  set_flags RTS_RECEIVING ∘ (fun p => p <| p_getfrom_e := src_e |>).

Lemma block_receiver_ipc s Q C caller c src_e :
  ipc s Q C -> pget s caller = Some c -> p_rts_flags c = 0 -> src_e = ANY \/ live_ep s src_e ->
  exists s', (set_proc caller (fun p => p <| p_getfrom_e := src_e |>);; RTS_SET caller RTS_RECEIVING) s = Ret tt s' /\
    ipc s' (without caller Q) C /\ same (pset caller (block_receiver src_e) s) s'.
Proof.
  intros [Hrq Hi] Hc Hz He. rewrite (bind_ret _ _ _ _ _ (set_proc_run _ _ _ _ Hc)).
  set (g := fun p : proc => p <| p_getfrom_e := src_e |>). set (s1 := pset caller g s).
  assert (rq s1 Q) as Hrq1 by by apply (rq_pset s Q caller c).
  pose proof (pget_pset_some s caller g c Hc) as Hc1.
  destruct (RTS_SET_run s1 Q caller (g c) RTS_RECEIVING Hrq1 Hc1) as (s' & Hrun & Hs & Hrq').
  { change (p_rts_flags c <> RTS_SLOT_FREE). by rewrite Hz. } { by exists 3. }
  assert (pset caller (set_flags RTS_RECEIVING) s1 = pset caller (block_receiver src_e) s) as Heq
    by apply pset_pset. rewrite Heq in Hs.
  exists s'. split_and!; [done| |done]. split; [done|]. eapply ipcs_same; [exact Hs|].
  destruct (runnable_idle _ _ _ _ Hi Hc Hz) as [_ Hns].
  assert (p_rts_flags (block_receiver src_e c) = RTS_RECEIVING) as Hfl by (cbn; by rewrite Hz).
  apply (ipcs_pset_receiving s caller _ c); [done|done| |].
  - split; try done.
    + unfold sending. by rewrite Hfl, Hz.
    + unfold live. by rewrite Hfl, Hz.
    + unfold RTS_ISSET. by rewrite Hfl, Hz.
  - intros _. split; [exact He|]. by rewrite Hns.
Qed.

(** The check before a blocking receive finds exactly the cycles it would close, when no
    message of the source is queued. *)
Lemma receive_check s Q C caller c src_e :
  ipc s Q C -> acyclic s -> pget s caller = Some c -> live c -> src_e = ANY \/ live_ep s src_e ->
  src_e <> p_endpoint c -> (forall m, m ∈ C caller -> _ENDPOINT_P src_e <> m) ->
  exists g, deadlock RECEIVE caller src_e s = Ret g s /\
    (g = 0 -> forall k, chain s src_e k <> p_endpoint c) /\ (g <> 0 -> exists k, chain s src_e k = p_endpoint c).
Proof.
  intros Hi Ha Hc Hlc He Hnep Hnq.
  destruct (acyclic_stops s c src_e Ha He) as (n & Hstop & Hfirst).
  exists (verdict s RECEIVE c src_e n). split.
  { eapply deadlock_run; [done|done|done|done|done|by split]. }
  destruct (live_ep_slot s Q C (p_endpoint c) Hi) as [Hcany Hcnone]; [by eapply live_pget|].
  unfold verdict. case_decide as Hch.
  - destruct He as [->|He]; [rewrite chain_ended in Hch by auto; congruence|].
    pose proof He as (d & Hd & Hde & Hld). rewrite Hd. split; [|by exists n].
    destruct (bool_decide (n = 1%nat) && resolved RECEIVE d) eqn:Hres; [|lia]. exfalso.
    apply andb_true_iff in Hres as [->%bool_decide_eq_true Hres].
    rewrite chain_S in Hch. change (chain s src_e 0) with src_e in Hch.
    rewrite (next_live s Q C src_e d Hi Hd Hde Hld) in Hch. unfold resolved in Hres.
    rewrite RECEIVE_flag in Hres. change RTS_SENDING with (2 ^ 2) in Hres.
    rewrite has_bit, Z.lxor_spec, <-has_bit, <-sending_bit in Hres by lia.
    change (Z.testbit RTS_RECEIVING 2) with false in Hres. rewrite xorb_false_r in Hres.
    unfold P_BLOCKEDON in Hch. fold (sending d) in Hch. rewrite Hres in Hch.
    apply (Hnq (_ENDPOINT_P src_e)); [|done]. apply (c_mem _ _ (proj2 Hi)). exists d.
    split_and!; [done|done|]. rewrite Hch. by apply (c_ep _ _ (proj2 Hi)).
  - split; [|done]. intros _ k Hk.
    assert (chain s src_e n = ANY \/ chain s src_e n = NONE) as Hend by (destruct Hstop as [?|[?|?]]; tauto).
    destruct (decide (k < n)%nat) as [Hlt|Hge]; [apply (Hfirst k Hlt); by right; right|].
    replace k with ((k - n) + n)%nat in Hk by lia. rewrite chain_add, chain_ended in Hk by done.
    destruct Hend; congruence.
Qed.

Lemma acyclic_block_receiver s s' Q C caller c src_e :
  ipc s Q C -> acyclic s -> pget s caller = Some c -> p_rts_flags c = 0 -> src_e = ANY \/ live_ep s src_e ->
  (forall k, chain s src_e k <> p_endpoint c) ->
  same (pset caller (block_receiver src_e) s) s' -> acyclic s'.
Proof.
  intros Hi Ha Hc Hz He Hno Hs.
  assert (live c) as Hlc by (unfold live; by rewrite Hz).
  pose proof (c_ep _ _ (proj2 Hi) caller c Hc Hlc) as Hce.
  pose proof (live_pget _ _ _ _ _ Hi Hc Hlc) as Hcl.
  destruct (live_ep_slot s Q C _ Hi Hcl) as [Hcany Hcnone].
  assert (p_rts_flags (block_receiver src_e c) = RTS_RECEIVING) as Hfl by (cbn; by rewrite Hz).
  assert (forall k p, pget s k = Some p -> exists p', pget s' k = Some p' /\
    p_endpoint p' = p_endpoint p /\ (live p' -> live p) /\
    P_BLOCKEDON p' = if decide (k = caller) then src_e else P_BLOCKEDON p) as Hfwd.
  { intros k p Hp. assert (exists p1, pget (pset caller (block_receiver src_e) s) k = Some p1 /\
      p_endpoint p1 = p_endpoint p /\ (live p1 -> live p) /\
      P_BLOCKEDON p1 = if decide (k = caller) then src_e else P_BLOCKEDON p) as (p1 & Hp1 & Hep1 & Hlv1 & Hb1).
    { rewrite pget_pset. case_decide as Hk; [|by exists p]. subst k. assert (p = c) as -> by congruence.
      rewrite Hc. eexists. split; [reflexivity|]. split_and!; [done|done|].
      unfold P_BLOCKEDON. by rewrite Hfl. }
    destruct (same_pget _ _ _ _ Hs Hp1) as (p' & Hp' & (Hf & _ & _ & _ & _ & Hep & Hfr & Hto)%strip_fields).
    exists p'. split; [done|]. rewrite <-Hb1, <-Hep1. unfold live, P_BLOCKEDON in *.
    rewrite Hf, Hep, Hfr, Hto. split_and!; [done|by rewrite <-Hf in Hlv1 |-*|done]. }
  assert (forall k p', pget s' k = Some p' -> exists p, pget s k = Some p) as Hback.
  { intros k p' Hp'. destruct (same_pget_inv _ _ _ _ Hs Hp') as (p1 & Hp1 & _).
    destruct (pget_cases _ _ _ _ _ Hp1) as (p & Hp & _). by exists p. }
  assert (forall e, live_ep s' e -> live_ep s e) as Hlive.
  { intros e (p' & Hp' & He' & Hl). destruct (Hback _ _ Hp') as (p & Hp). exists p.
    destruct (Hfwd _ _ Hp) as (p1 & Hp1 & Hep & Hlv & _). assert (p1 = p') as -> by congruence.
    split_and!; [done|congruence|by apply Hlv]. }
  assert (forall e, live_ep s e -> e <> p_endpoint c -> next s' e = next s e) as Hother.
  { intros e He' Hec. destruct (live_ep_slot s Q C e Hi He') as [Hany Hnone].
    destruct He' as (p & Hp & Hpe & Hl). unfold next. rewrite !decide_False by tauto.
    destruct (Hfwd _ _ Hp) as (p' & -> & _ & _ & Hb). rewrite Hp. simpl. rewrite Hb.
    rewrite decide_False; [done|]. intros Hk. rewrite Hk in Hp. congruence. }
  assert (next s' (p_endpoint c) = src_e) as Hnew.
  { unfold next. rewrite !decide_False by tauto. rewrite Hce.
    destruct (Hfwd _ _ Hc) as (p' & -> & _ & _ & Hb). simpl. by rewrite Hb, decide_True. }
  by apply (acyclic_edge s s' Q C (p_endpoint c) src_e).
Qed.
End receive_claims.

Section receive_theorem.
Context `{MinixLaws} `{KernelHeaders} `{!IpcLaws} {W : Type} `{KernelEnvLaws W}.
Implicit Types (s : state W) (Q : Z -> list Z) (C : Z -> list Z).
#[local] Hint Resolve get_proc_run set_proc_run set_misc_run clear_misc_run IPC_STATUS_ADD_run
  pget_pset_some pget_pset_other : run.

(** The first sender in a queue whose message is accepted, with its position. *)
Definition first_sender (src_e : Z) (l : list Z) : option (nat * Z) :=
  list_find (fun m => src_e = ANY \/ _ENDPOINT_P src_e = m) l.

Lemma first_sender_Some src_e l i x :
  first_sender src_e l = Some (i, x) ->
  l = take i l ++ x :: drop (S i) l /\
  (src_e =? ANY) || ((if decide (src_e = ANY) then ANY else _ENDPOINT_P src_e) =? x) = true /\
  (forall m, m ∈ take i l ->
     (src_e =? ANY) || ((if decide (src_e = ANY) then ANY else _ENDPOINT_P src_e) =? m) = false).
Proof.
  unfold first_sender. intros (Hx & Hacc & Hmin)%list_find_Some. split_and!.
  - by rewrite take_drop_middle.
  - destruct (Z.eqb_spec src_e ANY) as [?|Hne]; [done|]. rewrite decide_False by done. apply Z.eqb_eq. tauto.
  - intros m (j & Hj)%list_elem_of_lookup. apply lookup_take_Some in Hj as [Hj Hji].
    pose proof (Hmin j m Hj Hji) as Hn. rewrite (proj2 (Z.eqb_neq _ _)) by tauto.
    rewrite decide_False by tauto. apply Z.eqb_neq. tauto.
Qed.

Lemma first_sender_None src_e l :
  first_sender src_e l = None ->
  forall m, m ∈ l -> src_e <> ANY /\ _ENDPOINT_P src_e <> m.
Proof.
  unfold first_sender. intros Hn%list_find_None m Hm. rewrite Forall_forall in Hn.
  specialize (Hn m). rewrite list_elem_of_In in Hm. tauto.
Qed.

(** [mini_receive] up to the search of the caller queue. *)
Lemma mini_receive_run s Q C caller c src_e buf flags :
  ipc s Q C -> pget s caller = Some c -> p_rts_flags c = 0 -> MF c MF_DELIVERMSG = false ->
  quiet_inbox s c ->
  src_e = ANY \/ (exists d, pget s (_ENDPOINT_P src_e) = Some d /\ p_endpoint d = src_e /\ live d /\
                            RTS_ISSET d RTS_NO_ENDPOINT = false) ->
  let src_p := if decide (src_e = ANY) then ANY else _ENDPOINT_P src_e in
  let s1 := pset caller (fun p => p <| p_delivermsg_vir := buf |>) s in
  mini_receive caller src_e buf flags s =
  (done ← receive_queued caller src_e src_p;
   if done : bool then
     c ← get_proc caller;
     (if MF c MF_REPLY_PEND then clear_misc caller MF_REPLY_PEND else mret tt);;
     mret OK
   else if has flags NON_BLOCKING then mret ENOTREADY
   else
     g ← deadlock RECEIVE caller src_e;
     if negb (g =? 0) then mret ELOCKED else
     set_proc caller (fun p => p <| p_getfrom_e := src_e |>);;
     RTS_SET caller RTS_RECEIVING;;
     mret OK) s1.
Proof.
  intros Hi Hc Hz Hdm [Hnot Has] Hsrc src_p s1. unfold mini_receive. run_step. rewrite Hdm. run_step. run_step.
  fold s1. set (f := fun p : proc => p <| p_delivermsg_vir := buf |>) in *.
  pose proof (pget_pset_some s caller f c Hc) as Hc1. fold s1 in Hc1.
  assert (quiet f) as Hy by quiet_tac.
  pose proof (ipc_quiet s Q C caller c f Hi Hc Hy) as Hi1. fold s1 in Hi1.
  assert ((if src_e =? ANY then mret (Some ANY) else
         n ← okendpt src_e; p ← get_proc n;
         mret (if RTS_ISSET p RTS_NO_ENDPOINT then None else Some n)) s1 = Ret (Some src_p) s1) as Hsrcr.
  { subst src_p. destruct (Z.eqb_spec src_e ANY) as [Hany|Hany]; [by rewrite decide_True|].
    rewrite decide_False by done. destruct Hsrc as [?|(d & Hd & Hde & Hld & Hno)]; [done|].
    assert (live_ep s1 src_e) as He1.
    { apply (live_ep_pset s caller f c); [done|done|done|by exists d]. }
    rewrite (bind_ret _ _ _ _ _ (okendpt_run _ _ _ _ Hi1 He1)).
    assert (exists d1, pget s1 (_ENDPOINT_P src_e) = Some d1 /\ RTS_ISSET d1 RTS_NO_ENDPOINT = false) as (d1 & Hd1 & Hno1).
    { unfold s1. rewrite pget_pset. case_decide as Hk; [|by exists d]. rewrite Hk in Hd.
      assert (d = c) as -> by congruence. rewrite Hk, Hc. by eexists. }
    by rewrite (bind_ret _ _ _ _ _ (get_proc_run _ _ _ Hd1)), Hno1. }
  rewrite (bind_ret _ _ _ _ _ Hsrcr). run_step.
  assert (RTS_ISSET (f c) RTS_SENDING = false) as ->.
  { unfold RTS_ISSET. change (p_rts_flags (f c)) with (p_rts_flags c). by rewrite Hz. }
  assert ((if MF (f c) MF_REPLY_PEND then mret false else receive_notification caller src_e src_p) s1 = Ret false s1) as Hn.
  { change (MF (f c) MF_REPLY_PEND) with (MF c MF_REPLY_PEND).
    destruct (MF c MF_REPLY_PEND) eqn:Hm; [done|]. destruct Hnot as [?|Hno]; [done|].
    apply (no_notification_run _ _ (f c)); done. }
  assert (receive_async caller src_e src_p s1 = Ret false s1) as Ha.
  { unfold receive_async. rewrite (bind_ret _ _ _ _ _ (get_proc_run _ _ _ Hc1)).
    change (MF (f c) MF_ASYNMSG) with (MF c MF_ASYNMSG). by rewrite Has. }
  unfold mbind, M_bind. rewrite Hn. cbn beta iota. rewrite Ha. cbn beta iota.
  destruct (receive_queued caller src_e src_p s1) as [b s2|]; [|done]. by destruct b.
Qed.

End receive_theorem.

(** ** Notifications, refused calls and exiting processes *)
Section notify.
Context `{MinixLaws} `{KernelHeaders} `{!IpcLaws} {W : Type} `{KernelEnvLaws W}.
Implicit Types (s : state W) (Q : Z -> list Z) (C : Z -> list Z).
#[local] Hint Resolve get_proc_run set_proc_run set_misc_run clear_misc_run IPC_STATUS_ADD_run
  pget_pset_some pget_pset_other : run.

Definition prset (i : Z) (f : priv -> priv) s : state W := s <| privs := aupd i f (privs s) |>.

Lemma set_priv_run s n p i pr f :
  pget s n = Some p -> p_priv p = Some i -> aget (privs s) i = Some pr ->
  set_priv n f s = Ret tt (prset i f s).
Proof.
  intros Hp Hi Hpr. unfold set_priv. rewrite (bind_ret _ _ _ _ _ (get_priv_run _ _ _ _ _ Hp Hi Hpr)).
  rewrite (bind_ret _ _ _ _ _ (get_proc_run _ _ _ Hp)), Hi. done.
Qed.

Lemma prset_some (l : list priv) i f k pr :
  aget l k = Some pr -> exists pr', aget (aupd i f l) k = Some pr'.
Proof. intros Hk. rewrite aget_aupd. case_decide; rewrite Hk; by eexists. Qed.

Lemma prset_ext s i f g : (forall pr, aget (privs s) i = Some pr -> f pr = g pr) -> prset i f s = prset i g s.
Proof. intros Hfg. unfold prset. by rewrite (aupd_ext _ _ _ _ Hfg). Qed.
Lemma rq_prset s Q i f : rq s Q -> rq (prset i f s) Q.
Proof.
  intros [Hqs Hm Hprio Hmg Hfl Hpv (pc & kc & prc & Hpc & Hkc & Hprc)]. split; try done.
  - by apply (queues_same_fields s).
  - intros n p Hp Hl. destruct (Hpv n p Hp Hl) as (k & pr & Hk & Hpr).
    destruct (prset_some _ i f _ _ Hpr) as [pr' Hpr']. by exists k, pr'.
  - destruct (prset_some _ i f _ _ Hprc) as [pr' Hpr']. by exists pc, kc, pr'.
Qed.

Lemma ipcs_prset s C i f : ipcs s C -> ipcs (prset i f s) C.
Proof. intros []. by split. Qed.

Lemma ipc_prset s Q C i f : ipc s Q C -> ipc (prset i f s) Q C.
Proof. intros [??]. split; [by apply rq_prset|by apply ipcs_prset]. Qed.

(** The notification of [src] for a process with privilege structure [pr]. *)
Definition notification s (src : Z) (pr : priv) (m : message) : message :=
  mk_message (m_source m) (NOTIFY_FROM src) (realtime s)
    (if src =? HARDWARE then s_int_pending pr else if src =? SYSTEM then s_sig_pending pr else NOTIFY_ARG m)
    (m_rest m).
Definition drained (src : Z) (pr : priv) : priv :=
  if src =? HARDWARE then pr <| s_int_pending := 0 |>
  else if src =? SYSTEM then pr <| s_sig_pending := 0 |> else pr.

Lemma BuildNotifyMessage_run s src dst d i pr :
  pget s dst = Some d -> p_priv d = Some i -> aget (privs s) i = Some pr ->
  BuildNotifyMessage src dst s =
  Ret tt (prset i (drained src)
    (pset dst (fun p => p <| p_delivermsg := notification s src pr (p_delivermsg p) |>) s)).
Proof.
  intros Hd Hi Hpr. unfold BuildNotifyMessage. run_step.
  set (f1 := fun p : proc => p <| p_delivermsg := _ |>).
  pose proof (pget_pset_some s dst f1 d Hd) as Hd1. unfold get_uptime. do 2 run_step.
  set (f2 := fun p : proc => p <| p_delivermsg := _ |>). rewrite pset_pset in *.
  pose proof (pget_pset_some s dst (f2 ∘ f1) d Hd) as Hd2.
  assert (get_priv dst (pset dst (f2 ∘ f1) s) = Ret pr (pset dst (f2 ∘ f1) s)) as Hgp
    by (by apply (get_priv_run _ _ _ i _ Hd2)).
  assert (forall g, prset i id (pset dst g s) = pset dst g s) as Hid.
  { intros g. unfold prset. rewrite (aupd_id _ _ id); [|done]. by destruct s. }
  unfold notification, drained. destruct (src =? HARDWARE); [|destruct (src =? SYSTEM)].
  - rewrite (bind_ret _ _ _ _ _ Hgp). run_step. rewrite pset_pset.
    set (f3 := fun p : proc => p <| p_delivermsg := _ |>).
    rewrite (set_priv_run _ dst _ i pr _ (pget_pset_some s dst (f3 ∘ (f2 ∘ f1)) d Hd) Hi Hpr).
    reflexivity.
  - rewrite (bind_ret _ _ _ _ _ Hgp). run_step. rewrite pset_pset.
    set (f3 := fun p : proc => p <| p_delivermsg := _ |>).
    rewrite (set_priv_run _ dst _ i pr _ (pget_pset_some s dst (f3 ∘ (f2 ∘ f1)) d Hd) Hi Hpr).
    reflexivity.
  - rewrite <-(Hid (f2 ∘ f1)), mret_run. reflexivity.
Qed.

Lemma quiet_notification s src pr :
  quiet (fun p => p <| p_delivermsg := notification s src pr (p_delivermsg p) |>).
Proof. quiet_tac. Qed.

(** RTS_UNSET of a flag other than SENDING, with what becomes of each process. *)
Lemma RTS_UNSET_full s Q C n p f :
  ipc s Q C -> pget s n = Some p -> live p -> Z.testbit f 0 = false -> Z.testbit f 2 = false ->
  exists s' Q', RTS_UNSET n f s = Ret tt s' /\ ipc s' Q' C /\
    proc_ptr s' = proc_ptr s /\ world s' = world s /\ privs s' = privs s /\
    (forall m q, pget s m = Some q -> exists q', pget s' m = Some q' /\
       agrees (if decide (m = n) then clear_flags f q else q) q' /\
       (live q' <-> live (if decide (m = n) then clear_flags f q else q))) /\
    (forall m q', pget s' m = Some q' -> exists q, pget s m = Some q).
Proof.
  intros Hi Hp Hl Hf0 Hf2. destruct (RTS_UNSET_ipc s Q C n p f Hi Hp Hl Hf0 Hf2) as (s' & Q' & Hrun & Hi' & _ & Hcp & Hw & Hpv & _ & Hback).
  destruct (RTS_UNSET_view s Q n p f) as (s1 & Q1 & Hrun1 & _ & _ & _ & _ & Hfwd & _); try done.
  { apply Hi. } { by apply (c_free _ _ (proj2 Hi) n). } { by apply (c_prio _ _ (proj2 Hi) n). } { apply (c_cur _ _ (proj2 Hi)). }
  assert (s1 = s') as -> by congruence. by exists s', Q'.
Qed.

(** The process that gets the notification of [c]. *)
Definition notified s (c : proc) (pr : priv) (p : proc) : proc :=
  add_status (IPC_STATUS_CALL_TO NOTIFY) (misc_on MF_DELIVERMSG (set_source (p_endpoint c)
    (p <| p_delivermsg := notification s (p_nr c) pr (p_delivermsg p) |>))).
Lemma quiet_notified s c pr : quiet (notified s c pr).
Proof.
  apply (quiet_compose (add_status _) (misc_on MF_DELIVERMSG ∘ (set_source (p_endpoint c) ∘
    (fun p => p <| p_delivermsg := notification s (p_nr c) pr (p_delivermsg p) |>)))); [done|].
  apply quiet_compose; [done|]. apply quiet_compose; [done|]. apply quiet_notification.
Qed.
Lemma notified_fields s c pr p :
  p_delivermsg (notified s c pr p) = notification s (p_nr c) pr (p_delivermsg p) <| m_source := p_endpoint c |> /\
  MF (notified s c pr p) MF_DELIVERMSG = true.
Proof.
  assert (forall m p, p_delivermsg (add_status m p) = p_delivermsg p /\
                      p_misc_flags (add_status m p) = p_misc_flags p) as Hst.
  { intros m q. unfold add_status. by destruct (MF q MF_REPLY_PEND). }
  unfold notified, MF. split; [by rewrite (proj1 (Hst _ _))|]. rewrite (proj2 (Hst _ _)). cbn.
  change MF_DELIVERMSG with (2 ^ 6). rewrite has_set by lia. apply orb_true_r.
Qed.

(** The notification is delivered. *)
Lemma mini_notify_deliver_run s Q C caller c dst_e d i pr :
  let dst := _ENDPOINT_P dst_e in
  ipc s Q C -> pget s caller = Some c -> pget s dst = Some d -> p_endpoint d = dst_e -> live d ->
  p_priv d = Some i -> aget (privs s) i = Some pr ->
  WILLRECEIVE d (p_endpoint c) && negb (MF d MF_REPLY_PEND) = true -> MF d MF_DELIVERMSG = false ->
  exists s' Q', mini_notify caller dst_e s = Ret OK s' /\ ipc s' Q' C /\ proc_ptr s' = proc_ptr s /\ world s' = world s /\
    privs s' = aupd i (drained (p_nr c)) (privs s) /\
    (forall m q, pget s m = Some q -> exists q', pget s' m = Some q' /\
       agrees (if decide (m = dst) then clear_flags RTS_RECEIVING (notified s c pr q) else q) q' /\
       (live q' <-> live (if decide (m = dst) then clear_flags RTS_RECEIVING (notified s c pr q) else q))) /\
    (forall m q', pget s' m = Some q' -> exists q, pget s m = Some q).
Proof.
  intros dst Hi Hc Hd Hde Hl Hpi Hpr Hdir Hdm. unfold mini_notify.
  assert (live_ep s dst_e) as He by by exists d.
  rewrite (bind_ret _ _ _ _ _ (isokendpt_run _ _ _ _ Hi He)). cbn [negb]. fold dst.
  run_step. run_step. rewrite Hdir, Hdm. run_step.
  rewrite (bind_ret _ _ _ _ _ (BuildNotifyMessage_run _ _ _ _ _ _ Hd Hpi Hpr)).
  set (f := fun p : proc => p <| p_delivermsg := notification s (p_nr c) pr (p_delivermsg p) |>).
  set (s1 := prset i (drained (p_nr c)) (pset dst f s)).
  assert (pget s1 dst = Some (f d)) as Hd1 by exact (pget_pset_some s dst f d Hd).
  run_step. fold (set_source (p_endpoint c)).
  pose proof (pget_pset_some s1 dst (set_source (p_endpoint c)) _ Hd1) as Hd2. run_step.
  pose proof (pget_pset_some _ dst (misc_on MF_DELIVERMSG) _ Hd2) as Hd3. unfold IPC_STATUS_ADD_CALL. run_step.
  rewrite !pset_pset. set (s4 := pset dst _ s1).
  assert (s4 = prset i (drained (p_nr c)) (pset dst (notified s c pr) s)) as Heq.
  { unfold s4, s1, prset, pset. cbn. rewrite aupd_aupd. done. }
  clearbody s4. subst s4. set (s4 := prset i _ _).
  pose proof (quiet_notified s c pr) as Hy.
  assert (ipc s4 Q C) as Hi4 by (apply ipc_prset; by apply (ipc_quiet s Q C dst d)).
  assert (pget s4 dst = Some (notified s c pr d)) as Hd4 by exact (pget_pset_some s dst _ d Hd).
  assert (live (notified s c pr d)) as Hl4 by by apply (k_live _ _ (y_keeps _ Hy d)).
  destruct (RTS_UNSET_full s4 Q C dst _ RTS_RECEIVING Hi4 Hd4 Hl4 eq_refl eq_refl)
    as (s' & Q' & Hrun & Hi' & Hcp & Hw & Hpv & Hfwd & Hback).
  exists s', Q'. split_and!; [by rewrite (bind_ret _ _ _ _ _ Hrun)|done|done|done|done| |].
  - intros m q Hq. assert (pget s4 m = Some (if decide (m = dst) then notified s c pr q else q)) as Hq4.
    { change (pget (pset dst (notified s c pr) s) m = Some (if decide (m = dst) then notified s c pr q else q)).
      rewrite pget_pset. case_decide; [|done]. subst m. by rewrite Hq. }
    destruct (Hfwd _ _ Hq4) as (q' & Hq' & Hag & Hlv). exists q'. split; [done|]. by case_decide.
  - intros m q' Hq'. destruct (Hback _ _ Hq') as (q & Hq).
    change (pget (pset dst (notified s c pr) s) m = Some q) in Hq.
    destruct (pget_cases _ _ _ _ _ Hq) as (q0 & Hq0 & _). by exists q0.
Qed.

(** The notification is noted in the map of the process. *)
Definition mark (id : Z) (pr : priv) : priv :=
  pr <| s_notify_pending :=
    aupd (MAP_CHUNK id) (fun ch => u32 (Z.lor ch (Z.shiftl 1 (CHUNK_OFFSET id)))) (s_notify_pending pr) |>.
Lemma mini_notify_mark_run s Q C caller c dst_e d i pr k cpr chunk :
  let dst := _ENDPOINT_P dst_e in
  ipc s Q C -> pget s caller = Some c -> pget s dst = Some d -> p_endpoint d = dst_e -> live d ->
  p_priv d = Some i -> aget (privs s) i = Some pr -> p_priv c = Some k -> aget (privs s) k = Some cpr ->
  aget (s_notify_pending pr) (MAP_CHUNK (s_id cpr)) = Some chunk ->
  WILLRECEIVE d (p_endpoint c) && negb (MF d MF_REPLY_PEND) = false ->
  mini_notify caller dst_e s = Ret OK (prset i (mark (s_id cpr)) s).
Proof.
  intros dst Hi Hc Hd Hde Hl Hpi Hpr Hck Hcpr Hch Hdir. unfold mini_notify.
  assert (live_ep s dst_e) as He by by exists d.
  rewrite (bind_ret _ _ _ _ _ (isokendpt_run _ _ _ _ Hi He)). cbn [negb]. fold dst.
  run_step. run_step. rewrite Hdir.
  rewrite (bind_ret _ _ _ _ _ (get_priv_run _ _ _ _ _ Hc Hck Hcpr)).
  rewrite (bind_ret _ _ _ _ _ (get_priv_run _ _ _ _ _ Hd Hpi Hpr)).
  unfold set_sys_bit. rewrite Hch. cbn [deref].
  rewrite (bind_ret _ _ (aupd (MAP_CHUNK (s_id cpr)) (fun ch => u32 (Z.lor ch (Z.shiftl 1 (CHUNK_OFFSET (s_id cpr))))) (s_notify_pending pr)) s s) by done.
  rewrite (bind_ret _ _ _ _ _ (set_priv_run _ _ _ _ _ _ Hd Hpi Hpr)), mret_run.
  f_equal. apply prset_ext. intros x Hx. by assert (x = pr) as -> by congruence.
Qed.

(** Mini_notify to a live process: when it waits for the caller (and not for the
    reply of a SENDREC) it gets the notification, with the caller as source, the time
    and, from HARDWARE or SYSTEM, the pending interrupts or signals, which are cleared,
    and stops receiving; otherwise the only effect is that the bit of the caller is set
    in its map of pending notifications. *)
Theorem mini_notify_spec s Q C caller c dst_e d i pr k cpr chunk :
  let dst := _ENDPOINT_P dst_e in
  let direct := WILLRECEIVE d (p_endpoint c) && negb (MF d MF_REPLY_PEND) in
  ipc s Q C -> pget s caller = Some c -> pget s dst = Some d -> p_endpoint d = dst_e -> live d ->
  p_priv d = Some i -> aget (privs s) i = Some pr -> p_priv c = Some k -> aget (privs s) k = Some cpr ->
  aget (s_notify_pending pr) (MAP_CHUNK (s_id cpr)) = Some chunk ->
  (direct = true -> MF d MF_DELIVERMSG = false) ->
  wp (mini_notify caller dst_e)
    (fun r s' => r = OK /\
       if direct then
         (exists Q', ipc s' Q' C) /\
         aget (privs s') i = Some (drained (p_nr c) pr) /\
         exists d', pget s' dst = Some d' /\ receiving d' = false /\ MF d' MF_DELIVERMSG = true /\
           p_delivermsg d' = notification s (p_nr c) pr (p_delivermsg d) <| m_source := p_endpoint c |>
       else
         s' = prset i (fun pr => pr <| s_notify_pending :=
                aupd (MAP_CHUNK (s_id cpr)) (fun ch => u32 (Z.lor ch (Z.shiftl 1 (CHUNK_OFFSET (s_id cpr)))))
                  (s_notify_pending pr) |>) s) never s.
Proof.
  intros dst direct Hi Hc Hd Hde Hl Hpi Hpr Hck Hcpr Hch Hdm. unfold wp. destruct direct eqn:Hdir.
  - destruct (mini_notify_deliver_run s Q C caller c dst_e d i pr) as (s' & Q' & -> & Hi' & _ & _ & Hpv & Hfwd & _); try done; [by apply Hdm|].
    split; [done|]. split; [by exists Q'|]. split; [by rewrite Hpv, aget_aupd_eq, Hpr|].
    destruct (Hfwd _ _ Hd) as (d' & Hd' & Hag & _). rewrite decide_True in Hag by done.
    destruct (agrees_fields _ _ Hag) as (_ & _ & _ & Hdv & Hmf & _ & _ & Hrc).
    destruct (notified_fields s c pr d) as [Hg1 Hg2].
    exists d'. split_and!; [done|by rewrite Hrc, cleared_receiving|by unfold MF; rewrite Hmf|by rewrite Hdv].
  - by erewrite mini_notify_mark_run.
Qed.

(** A synchronous call is refused, and changes nothing, when its number is unknown
    (ETRAPDENIED), when it would send to ANY (EINVAL), when the process named is dead
    (EDEADSRCDST), when the mask of the caller forbids the destination (ECALLDENIED),
    and when the trap mask forbids the call or it is a SEND, NOTIFY or SENDNB to a kernel
    task (ETRAPDENIED). *)
Theorem do_sync_ipc_denied s Q C caller call_nr src_dst_e addr c i pr :
  ipc s Q C -> pget s caller = Some c -> p_priv c = Some i -> aget (privs s) i = Some pr ->
  call_nr <> SENDA -> 0 <= call_nr ->
  (call_nr > IPCNO_HIGHEST \/ 32 <= call_nr \/ ipc_call_known call_nr = false ->
     do_sync_ipc caller call_nr src_dst_e addr s = Ret ETRAPDENIED s) /\
  (call_nr <= IPCNO_HIGHEST -> call_nr < 32 -> ipc_call_known call_nr = true ->
     (src_dst_e = ANY -> call_nr <> RECEIVE -> do_sync_ipc caller call_nr src_dst_e addr s = Ret EINVAL s) /\
     (src_dst_e <> ANY -> isokendpt src_dst_e s = Ret (false, _ENDPOINT_P src_dst_e) s ->
        do_sync_ipc caller call_nr src_dst_e addr s = Ret EDEADSRCDST s) /\
     (live_ep s src_dst_e ->
        (call_nr <> RECEIVE -> may_send_to caller (_ENDPOINT_P src_dst_e) s = Ret false s ->
           do_sync_ipc caller call_nr src_dst_e addr s = Ret ECALLDENIED s) /\
        (call_nr = RECEIVE \/ may_send_to caller (_ENDPOINT_P src_dst_e) s = Ret true s ->
         has (s_trap_mask pr) (Z.shiftl 1 call_nr) = false \/
           (call_nr <> SENDREC /\ call_nr <> RECEIVE /\ _ENDPOINT_P src_dst_e < 0) ->
           do_sync_ipc caller call_nr src_dst_e addr s = Ret ETRAPDENIED s))).
Proof.
  intros Hi Hc Hpi Hpr Hns Hge. unfold do_sync_ipc. rewrite (proj2 (Z.eqb_neq _ _) Hns). split.
  - intros Hbad. run_step. rewrite (proj2 (Z.ltb_ge call_nr 0) Hge). cbn [orb].
    assert ((IPCNO_HIGHEST <? call_nr) || (32 <=? call_nr) || negb (ipc_call_known call_nr) = true) as ->; [|done].
    rewrite !orb_true_iff, Z.ltb_lt, Z.leb_le, negb_true_iff. destruct Hbad as [?|[?|?]]; [left; left; lia|tauto..].
  - intros Hhi H32 Hknown.
    assert ((call_nr <? 0) || (IPCNO_HIGHEST <? call_nr) || (32 <=? call_nr) || negb (ipc_call_known call_nr) = false) as ->.
    { rewrite (proj2 (Z.ltb_ge call_nr 0) Hge), (proj2 (Z.ltb_ge _ _) Hhi), (proj2 (Z.leb_gt _ _) H32), Hknown. done. }
    split_and!.
    + intros -> Hnr. run_step. rewrite Z.eqb_refl, (proj2 (Z.eqb_neq _ _) Hnr). by run_step.
    + intros Hany Hdead. run_step. rewrite (proj2 (Z.eqb_neq _ _) Hany).
      unfold mbind, M_bind. by rewrite Hdead.
    + intros He. destruct (live_ep_slot _ _ _ _ Hi He) as [Hany _].
      pose proof (isokendpt_run _ _ _ _ Hi He) as Hok. split.
      * intros Hnr Hmay. run_step. rewrite (proj2 (Z.eqb_neq _ _) Hany).
        match goal with |- (?m ≫= _) s = _ => assert (m s = Ret (inl ECALLDENIED) s) as Hm end;
          [|by rewrite (bind_ret _ _ _ _ _ Hm)].
        rewrite (bind_ret _ _ _ _ _ Hok). cbn [negb]. rewrite (proj2 (Z.eqb_neq _ _) Hnr). cbn [negb].
        by rewrite (bind_ret _ _ _ _ _ Hmay).
      * intros Hmay Hden. run_step. rewrite (proj2 (Z.eqb_neq _ _) Hany).
        match goal with |- (?m ≫= _) s = _ => assert (m s = Ret (inr (_ENDPOINT_P src_dst_e)) s) as Hm end.
        { rewrite (bind_ret _ _ _ _ _ Hok). cbn [negb]. destruct (Z.eqb_spec call_nr RECEIVE); [done|].
          destruct Hmay as [?|Hmay]; [done|]. cbn [negb]. by rewrite (bind_ret _ _ _ _ _ Hmay). }
        rewrite (bind_ret _ _ _ _ _ Hm). cbn beta iota.
        rewrite (bind_ret _ _ _ _ _ (get_priv_run _ _ _ _ _ Hc Hpi Hpr)).
        destruct (has (s_trap_mask pr) (Z.shiftl 1 call_nr)); [|done]. cbn [negb].
        destruct Hden as [?|(Hs & Hr & Hk)]; [done|]. unfold iskerneln.
        by rewrite (proj2 (Z.eqb_neq _ _) Hs), (proj2 (Z.eqb_neq _ _) Hr), (proj2 (Z.ltb_lt _ _) Hk).
Qed.
End notify.

(** ** Processes that exit *)
Section clear.
Context `{MinixLaws} `{KernelHeaders} `{!IpcLaws} {W : Type} `{KernelEnvLaws W}.
Implicit Types (s : state W) (Q : Z -> list Z) (C : Z -> list Z).
#[local] Hint Resolve get_proc_run set_proc_run set_misc_run clear_misc_run IPC_STATUS_ADD_run
  pget_pset_some pget_pset_other : run.

(** A process before and after the clean-up; [freed] tells whether it was waiting for the
    process that exits. *)
Record cleared (freed : bool) (ret : rc) (p p' : proc) : Prop := {
  l_ep : p_endpoint p' = p_endpoint p;
  l_prio : p_priority p' = p_priority p;
  l_priv : p_priv p' = p_priv p;
  l_q_link : p_q_link p' = p_q_link p;
  l_caller_q : p_caller_q p' = p_caller_q p;
  l_sendto : p_sendto_e p' = p_sendto_e p;
  l_getfrom : p_getfrom_e p' = p_getfrom_e p;
  l_live : live p' <-> live p;
  l_free : live p -> RTS_ISSET p' RTS_SLOT_FREE = false;
  l_flags : if freed then sending p' = false /\ receiving p' = false /\ p_retreg p' = ret
            else sending p' = sending p /\ receiving p' = receiving p;
}.

(** What is known while the table is visited: [pre] are the slots done. *)
Record clearing s (e : Z) (ret : rc) (pre : list Z) s' : Prop := {
  g_rq : exists Q, rq s' Q;
  g_cur : proc_ptr s' = proc_ptr s;
  g_fwd k p : pget s k = Some p -> exists p', pget s' k = Some p' /\
    cleared (bool_decide (k ∈ pre /\ live p /\ P_BLOCKEDON p = e)) ret p p';
  g_back k p' : pget s' k = Some p' -> exists p, pget s k = Some p;
  g_privs i pr' : aget (privs s') i = Some pr' -> exists pr, aget (privs s) i = Some pr /\
    s_id pr' = s_id pr /\ length (s_notify_pending pr') = length (s_notify_pending pr);
}.

Lemma agrees_more p p' : agrees p p' ->
  p_priority p' = p_priority p /\ p_priv p' = p_priv p /\ p_q_link p' = p_q_link p /\
  p_caller_q p' = p_caller_q p /\ p_retreg p' = p_retreg p.
Proof.
  intros [Hst _]. destruct p, p'. unfold strip, upd in Hst. cbn in Hst. revert Hst. intros [=]. by subst.
Qed.

Lemma clear_both_flags p :
  sending (clear_flags (Z.lor RTS_RECEIVING RTS_SENDING) p) = false /\
  receiving (clear_flags (Z.lor RTS_RECEIVING RTS_SENDING) p) = false.
Proof.
  rewrite sending_bit, receiving_bit. cbn. rewrite !has_clear by lia.
  change (Z.testbit 12 2) with true. change (Z.testbit 12 3) with true. by rewrite !andb_false_r.
Qed.

Lemma clear_both_free p : RTS_ISSET p RTS_SLOT_FREE = false ->
  live (clear_flags (Z.lor RTS_RECEIVING RTS_SENDING) p) /\
  RTS_ISSET (clear_flags (Z.lor RTS_RECEIVING RTS_SENDING) p) RTS_SLOT_FREE = false.
Proof.
  rewrite !free_bit. intros Hf. assert (has (p_rts_flags (clear_flags (Z.lor RTS_RECEIVING RTS_SENDING) p)) (2 ^ 0) = false) as Hb.
  { cbn. by rewrite has_clear, Hf. }
  split; [|done]. intros Heq. by rewrite Heq in Hb.
Qed.

Lemma agrees_free p p' : agrees p p' -> RTS_ISSET p' RTS_SLOT_FREE = RTS_ISSET p RTS_SLOT_FREE.
Proof.
  intros [_ Hf]. rewrite !free_bit. destruct Hf as [-> | ->]; [done|]. rewrite has_set by lia.
  change RTS_PREEMPTED with (2 ^ 14). rewrite Z.pow2_bits_false by lia. by rewrite orb_false_r.
Qed.

Lemma blocked_cleared_same p p' ret : cleared false ret p p' -> P_BLOCKEDON p' = P_BLOCKEDON p.
Proof.
  intros Hc. destruct (l_flags _ _ _ _ Hc) as [Hs Hr]. unfold P_BLOCKEDON.
  fold (sending p') (receiving p') (sending p) (receiving p).
  by rewrite Hs, Hr, (l_sendto _ _ _ _ Hc), (l_getfrom _ _ _ _ Hc).
Qed.

Lemma cleared_trans_agrees freed ret p p1 p2 :
  cleared freed ret p p1 -> agrees p1 p2 -> (live p2 <-> live p1) -> cleared freed ret p p2.
Proof.
  intros [] Hag Hl. destruct (agrees_fields _ _ Hag) as (? & ? & ? & _ & _ & _ & Hs & Hr).
  destruct (agrees_more _ _ Hag) as (? & ? & ? & ? & Hret). pose proof (agrees_free _ _ Hag) as Hf.
  split; try congruence.
  - tauto.
  - intros Hlp. rewrite Hf. by apply l_free0.
  - destruct freed; rewrite Hs, Hr, ?Hret; exact l_flags0.
Qed.

(** The effect of one visit on a process that waits for the one that exits. *)
Lemma release_step s Q n p ret :
  rq s Q -> pget s n = Some p -> RTS_ISSET p RTS_SLOT_FREE = false -> queue_nr (p_priority p) ->
  (forall c, pget s (proc_ptr s) = Some c -> live c) ->
  exists s' Q', (set_proc n (fun p => p <| p_retreg := ret |>);;
                 RTS_UNSET n (Z.lor RTS_RECEIVING RTS_SENDING)) s = Ret tt s' /\
    rq s' Q' /\ proc_ptr s' = proc_ptr s /\ privs s' = privs s /\
    (forall m q, pget s m = Some q -> exists q', pget s' m = Some q' /\
       if decide (m = n) then cleared true ret q q' else agrees q q' /\ (live q' <-> live q)) /\
    (forall m q', pget s' m = Some q' -> exists q, pget s m = Some q).
Proof.
  intros Hrq Hp Hfr Hprio Hcur. rewrite (bind_ret _ _ _ _ _ (set_proc_run _ _ _ _ Hp)).
  set (g := fun p : proc => p <| p_retreg := ret |>). set (s1 := pset n g s).
  assert (rq s1 Q) as Hrq1 by by apply (rq_pset s Q n p).
  pose proof (pget_pset_some s n g p Hp) as Hp1.
  destruct (RTS_UNSET_view s1 Q n (g p) (Z.lor RTS_RECEIVING RTS_SENDING) Hrq1 Hp1 Hfr eq_refl Hprio)
    as (s' & Q' & Hrun & Hrq' & Hpp & _ & Hpv & Hfwd & Hback).
  { intros c Hc. change (proc_ptr s1) with (proc_ptr s) in Hc.
    destruct (pget_cases _ _ _ _ _ Hc) as (q & Hq & [[_ ->]|[_ ->]]); [|by apply Hcur].
    by apply (Hcur q). }
  exists s', Q'. split_and!; [done|done|done|done| |].
  - intros m q Hq. assert (pget s1 m = Some (if decide (m = n) then g q else q)) as Hq1.
    { unfold s1. rewrite pget_pset. case_decide; [|done]. subst m. by rewrite Hq. }
    destruct (Hfwd _ _ Hq1) as (q' & Hq' & Hag & Hlv). exists q'. split; [done|].
    destruct (decide (m = n)) as [Hm|Hm]; [|by split]. subst m. assert (q = p) as -> by congruence.
    destruct (clear_both_free (g p) Hfr) as [Hlc Hfc]. destruct (clear_both_flags (g p)) as [Hsc Hrc].
    destruct (agrees_fields _ _ Hag) as (? & ? & ? & _ & _ & _ & Hs & Hr).
    destruct (agrees_more _ _ Hag) as (? & ? & ? & ? & Hret). pose proof (agrees_free _ _ Hag) as Hf.
    split; try done.
    + split; [|by intros _; apply Hlv]. intros _ Heq. unfold RTS_ISSET in Hfr. by rewrite Heq in Hfr.
    + intros _. congruence.
    + split_and!; [congruence|congruence|exact Hret].
  - intros m q' Hq'. destruct (Hback _ _ Hq') as (q & Hq).
    destruct (pget_cases _ _ _ _ _ Hq) as (q0 & Hq0 & _). by exists q0.
Qed.

(** Visiting slot [k] with no effect on its process. *)
Lemma clearing_skip s e ret pre s1 s2 k :
  clearing s e ret pre s1 ->
  (forall q, pget s k = Some q -> ~ (live q /\ P_BLOCKEDON q = e)) ->
  (exists Q, rq s2 Q) -> proc_ptr s2 = proc_ptr s1 -> (forall m, pget s2 m = pget s1 m) ->
  (forall i x, aget (privs s2) i = Some x -> exists x', aget (privs s1) i = Some x' /\
     s_id x = s_id x' /\ length (s_notify_pending x) = length (s_notify_pending x')) ->
  clearing s e ret (pre ++ [k]) s2.
Proof.
  intros [_ Hcur Hfwd Hback Hprivs] Hk Hrq Hpp Hget Hpv. split; [done|congruence| | |].
  - intros m q Hq. destruct (Hfwd _ _ Hq) as (q' & Hq' & Hcl). exists q'. rewrite Hget. split; [done|].
    destruct (decide (m = k)) as [->|Hne].
    + assert (bool_decide (k ∈ pre ++ [k] /\ live q /\ P_BLOCKEDON q = e) = false) as ->
        by (apply bool_decide_false; intros (_ & Hb); by apply (Hk q)).
      rewrite bool_decide_false in Hcl; [done|]. intros (_ & Hb). by apply (Hk q).
    + rewrite (bool_decide_ext _ (m ∈ pre /\ live q /\ P_BLOCKEDON q = e)); [done|].
      rewrite elem_of_app, list_elem_of_singleton. tauto.
  - intros m q'. rewrite Hget. apply Hback.
  - intros j x Hx. destruct (Hpv _ _ Hx) as (x' & Hx' & -> & ->). by apply Hprivs.
Qed.

(** Visiting a slot that waits for the process. *)
Lemma clearing_release s e ret pre s1 s2 k q :
  clearing s e ret pre s1 -> k ∉ pre -> pget s k = Some q -> live q -> P_BLOCKEDON q = e ->
  (exists Q, rq s2 Q) -> proc_ptr s2 = proc_ptr s1 ->
  (forall m x, pget s1 m = Some x -> exists x', pget s2 m = Some x' /\
     if decide (m = k) then cleared true ret x x' else agrees x x' /\ (live x' <-> live x)) ->
  (forall m x', pget s2 m = Some x' -> exists x, pget s1 m = Some x) ->
  (forall i x, aget (privs s2) i = Some x -> exists x', aget (privs s1) i = Some x' /\
     s_id x = s_id x' /\ length (s_notify_pending x) = length (s_notify_pending x')) ->
  clearing s e ret (pre ++ [k]) s2.
Proof.
  intros [_ Hcur Hfwd Hback Hprivs] Hk Hq Hl Hb Hrq Hpp Hstep Hstepb Hpv. split; [done|congruence| | |].
  - intros m x Hx. destruct (Hfwd _ _ Hx) as (x1 & Hx1 & Hcl).
    destruct (Hstep _ _ Hx1) as (x2 & Hx2 & Hst). exists x2. split; [done|].
    case_decide as Hm.
    + subst m. assert (x = q) as -> by congruence.
      rewrite bool_decide_false in Hcl by tauto. rewrite bool_decide_true by (rewrite elem_of_app, list_elem_of_singleton; tauto).
      destruct Hcl, Hst. split; try congruence; tauto.
    + destruct Hst as [Hag Hlv]. rewrite (bool_decide_ext _ (m ∈ pre /\ live x /\ P_BLOCKEDON x = e)).
      * by eapply cleared_trans_agrees.
      * rewrite elem_of_app, list_elem_of_singleton. tauto.
  - intros m x' (x & Hx)%Hstepb. by eapply Hback.
  - intros j x Hx. destruct (Hpv _ _ Hx) as (x' & Hx' & -> & ->). by apply Hprivs.
Qed.

Lemma prset_privs s i f :
  (forall x, s_id (f x) = s_id x) -> (forall x, aget (privs s) i = Some x -> length (s_notify_pending (f x)) = length (s_notify_pending x)) ->
  forall j x, aget (privs (prset i f s)) j = Some x -> exists x', aget (privs s) j = Some x' /\
     s_id x = s_id x' /\ length (s_notify_pending x) = length (s_notify_pending x').
Proof.
  intros Hid Hlen j x. change (privs (prset i f s)) with (aupd i f (privs s)). rewrite aget_aupd.
  case_decide as Hj; [|intros; by exists x]. subst j.
  destruct (aget (privs s) i) as [x'|]; [|done]. intros [= <-]. exists x'. split_and!; [done|done|by apply Hlen].
Qed.

(** Clear_ipc_refs, when its bit maps are large enough: every process that was blocked
    on the exiting process, sending or receiving, is unblocked and finds the given code as
    its result, every other process stays blocked as it was, the run queues stay
    consistent; but the links of the caller queues are left as they were: a released
    sender keeps its link and the queue of the exiting process still points to it. *)
Theorem clear_ipc_refs_spec s Q C n p i pr ret :
  ipc s Q C -> pget s n = Some p -> live p -> p_priv p = Some i -> aget (privs s) i = Some pr ->
  (forall k x, aget (privs s) k = Some x -> 0 <= MAP_CHUNK (s_id pr) < Z.of_nat (length (s_notify_pending x))) ->
  wp (clear_ipc_refs n ret)
    (fun _ s' =>
       (exists Q', rq s' Q') /\
       forall k q, pget s k = Some q -> live q -> exists q', pget s' k = Some q' /\
         p_q_link q' = p_q_link q /\ p_caller_q q' = p_caller_q q /\
         if P_BLOCKEDON q =? p_endpoint p
         then sending q' = false /\ receiving q' = false /\ p_retreg q' = ret
         else sending q' = sending q /\ receiving q' = receiving q) never s.
Proof.
  intros Hi Hp Hl Hpi Hpr Hmap. unfold clear_ipc_refs.
  apply (wp_foreach _ _ (fun pre s' => clearing s (p_endpoint p) ret pre s')).
  - split; [exists Q; apply Hi|done| |eauto|eauto].
    intros k q Hq. exists q. split; [done|]. rewrite bool_decide_false; [|by intros [?%elem_of_nil _]].
    split; try done. intros Hlq. by apply (c_free _ _ (proj2 Hi) k).
  - intros pre k post s1 Hseq [[Q1 Hrq1] Hcur1 Hfwd1 Hback1 Hprivs1].
    assert (k ∉ pre) as Hk.
    { pose proof (NoDup_seqZ (- NR_TASKS) (NR_TASKS + NR_PROCS)) as Hnd. rewrite Hseq in Hnd.
      apply list.NoDup_app in Hnd as (_ & Hd & _). intros Hin. apply (Hd k Hin). by left. }
    assert (exists q, pget s k = Some q) as [q Hq].
    { apply aget_is_Some. rewrite (q_length _ _ (r_queues _ _ (proj1 Hi))). unfold proc_addr.
      assert (k ∈ seqZ (- NR_TASKS) (NR_TASKS + NR_PROCS)) as Hin%elem_of_seqZ; [|lia].
      rewrite Hseq. apply elem_of_app. right. by left. }
    pose proof (Build_clearing s (p_endpoint p) ret pre s1 (ex_intro _ Q1 Hrq1) Hcur1 Hfwd1 Hback1 Hprivs1) as Hclg.
    destruct (Hfwd1 _ _ Hq) as (q1 & Hq1 & Hcl). rewrite bool_decide_false in Hcl by tauto.
    eapply wp_bind_run; [by apply get_proc_run|]. cbn beta.
    destruct (isemptyp q1) eqn:Hempty.
    { apply wp_ret. apply (clearing_skip s _ ret pre s1 s1); [done| |by exists Q1|done|done|eauto].
      intros q' Hq' [Hlq _]. assert (q' = q) as -> by congruence.
      apply (proj2 (l_live _ _ _ _ Hcl)) in Hlq. by apply Z.eqb_eq in Hempty. }
    assert (live q1) as Hlq1 by by apply Z.eqb_neq.
    assert (live q) as Hlq by by apply (l_live _ _ _ _ Hcl).
    destruct (r_priv _ _ Hrq1 k q1 Hq1 Hlq1) as (j & prk & Hj & Hprk).
    destruct (Hfwd1 _ _ Hp) as (p1 & Hp1 & Hclp).
    assert (live p1) as Hlp1 by by apply (l_live _ _ _ _ Hclp).
    destruct (r_priv _ _ Hrq1 n p1 Hp1 Hlp1) as (i' & prn & Hi' & Hprn).
    assert (i' = i) as -> by (pose proof (l_priv _ _ _ _ Hclp); congruence).
    destruct (Hprivs1 _ _ Hprn) as (pr0 & Hpr0 & Hid & _). assert (pr0 = pr) as -> by congruence.
    destruct (Hprivs1 _ _ Hprk) as (prk0 & Hprk0 & _ & Hlenk).
    destruct (aget_is_Some (s_notify_pending prk) (MAP_CHUNK (s_id prn))) as [ch Hch].
    { rewrite Hid, Hlenk. by eapply Hmap. }
    eapply wp_bind_run; [by eapply get_priv_run|]. eapply wp_bind_run; [by eapply get_priv_run|].
    eapply wp_bind_run; [unfold unset_sys_bit; by rewrite Hch|]. cbn beta.
    set (map' := aupd _ _ (s_notify_pending prk)).
    eapply wp_bind_run; [by eapply set_priv_run|]. cbn beta.
    set (s2 := prset j (fun pr => pr <| s_notify_pending := map' |>) s1).
    eapply wp_bind_run; [by apply (get_proc_run s2)|]. cbn beta.
    assert (forall t x, aget (privs s2) t = Some x -> exists x', aget (privs s1) t = Some x' /\
      s_id x = s_id x' /\ length (s_notify_pending x) = length (s_notify_pending x')) as Hpv2.
    { apply prset_privs; [done|]. intros x Hx. assert (x = prk) as -> by congruence. apply length_aupd. }
    rewrite (l_ep _ _ _ _ Hclp), (blocked_cleared_same _ _ _ Hcl).
    assert (rq s2 Q1) as Hrq2 by by apply rq_prset.
    destruct (Z.eqb_spec (P_BLOCKEDON q) (p_endpoint p)) as [Hb|Hb].
    + destruct (release_step s2 Q1 k q1 ret) as (s3 & Q3 & Hrun3 & Hrq3 & Hpp3 & Hpv3 & Hfwd3 & Hback3); [done|done| | | |].
      { by apply (l_free _ _ _ _ Hcl). }
      { rewrite (l_prio _ _ _ _ Hcl). by apply (c_prio _ _ (proj2 Hi) k). }
      { change (proc_ptr s2) with (proc_ptr s1). rewrite Hcur1. intros c Hc.
        change (pget s2 (proc_ptr s)) with (pget s1 (proc_ptr s)) in Hc.
        destruct (Hback1 _ _ Hc) as [c0 Hc0]. destruct (Hfwd1 _ _ Hc0) as (c1 & Hc1 & Hclc).
        assert (c1 = c) as -> by congruence. apply (l_live _ _ _ _ Hclc). by apply (c_cur _ _ (proj2 Hi)). }
      eapply wp_ret_run; [exact Hrun3|].
      apply (clearing_release s _ ret pre s1 s3 k q); try done; [by exists Q3|]. rewrite Hpv3. exact Hpv2.
    + apply wp_ret. apply (clearing_skip s _ ret pre s1 s2); [done| |by exists Q1|done|done|exact Hpv2].
      intros q' Hq' [_ Hb']. assert (q' = q) as -> by congruence. done.
  - intros s' [Hrq' _ Hfwd _ _]. split; [done|]. intros k q Hq Hlq.
    destruct (Hfwd _ _ Hq) as (q' & Hq' & Hcl). exists q'. split; [done|].
    split; [apply (l_q_link _ _ _ _ Hcl)|]. split; [apply (l_caller_q _ _ _ _ Hcl)|].
    pose proof (l_flags _ _ _ _ Hcl) as Hfl.
    assert (k ∈ seqZ (- NR_TASKS) (NR_TASKS + NR_PROCS)) as Hin.
    { apply elem_of_seqZ. pose proof (slot_range _ _ _ _ (proj1 Hi) Hq). lia. }
    destruct (Z.eqb_spec (P_BLOCKEDON q) (p_endpoint p)) as [Hb|Hb].
    + by rewrite bool_decide_true in Hfl.
    + rewrite bool_decide_false in Hfl; [done|]. tauto.
Qed.

(** A process whose link into a caller queue was not reset (clear_ipc_refs leaves it)
    makes the kernel panic with its next send that has to wait. *)
Theorem stale_link_panics s Q caller c d dst_e m_ptr flags m :
  let dst := _ENDPOINT_P dst_e in
  rq s Q -> pget s caller = Some c -> pget s dst = Some d ->
  p_rts_flags c = 0 -> p_q_link c <> None ->
  RTS_ISSET d RTS_NO_ENDPOINT = false -> WILLRECEIVE d (p_endpoint c) = false ->
  has flags NON_BLOCKING = false -> deadlock SEND caller dst_e s = Ret 0 s ->
  message_of s caller m_ptr flags = Some m ->
  exists s', mini_send caller dst_e m_ptr flags s = Halt Panic s'.
Proof.
  intros dst Hrq Hc Hd Hz Hql Hno Hwill Hnb Hdl Hm.
  destruct (mini_send_wait_run s Q caller c d dst_e m_ptr flags m Hrq Hc Hd Hz Hno Hwill Hnb Hdl Hm)
    as (s3 & c3 & Hrun & Hql3 & _). exists s3. rewrite Hrun.
  rewrite bool_decide_false by congruence. done.
Qed.
End clear.

(** ** Examples *)
Module Demo.
#[local] Existing Instance demo_headers.
#[local] Existing Instance demo_laws.
#[local] Existing Instance KProc.Demo.headers.
#[local] Existing Instance KProc.Demo.env.
#[local] Existing Instance KProc.Demo.env_laws.
#[local] Instance ipc_laws : IpcLaws.
Proof. by split. Qed.
Import KProc.Demo.

(** Process 0 is ready, 1 waits for a message from anyone, 2 is the current process and 3
    waits to send to it. *)
Definition t0 : state memory :=
  mk_state
    (map free_slot (seqZ (-4) 4) ++
     [process 0 0 3 None;
      process 1 RTS_RECEIVING 3 None <| p_getfrom_e := ANY |>;
      process 2 0 7 None <| p_caller_q := Some 3 |>;
      process 3 RTS_SENDING 5 None <| p_sendto_e := 1026 |>] ++ map free_slot (seqZ 4 4))
    (map privilege (seqZ 0 4))
    (aupd 3 (fun _ => Some 0) (aupd 7 (fun _ => Some 2) (replicate 18 None)))
    (aupd 3 (fun _ => Some 0) (aupd 7 (fun _ => Some 2) (replicate 18 None)))
    2 2 500 [].
Definition Q1 (q : Z) : list Z := if q =? 3 then [0] else if q =? 7 then [2] else [].
Definition C1 (n : Z) : list Z := if n =? 2 then [3] else [].

Lemma Q1_elem q n : n ∈ Q1 q -> (n, q) ∈ [(0, 3); (2, 7)].
Proof.
  unfold Q1. destruct (Z.eqb_spec q 3) as [->|]; [|destruct (Z.eqb_spec q 7) as [->|]; [|by intros ?%elem_of_nil]];
  rewrite ?elem_of_cons, elem_of_nil; naive_solver.
Qed.

Lemma t0_rq : rq t0 Q1.
Proof.
  constructor.
  - constructor.
    + done.
    + apply forall_queue. repeat constructor; eexists; (split; [reflexivity|]); simpl;
        repeat first [reflexivity | eexists | split].
    + apply forall_queue. repeat constructor.
    + intros q _. unfold Q1. repeat case_match; repeat constructor; by apply not_elem_of_nil.
    + intros q q' n _ _ Hn%Q1_elem Hn'%Q1_elem.
      rewrite !elem_of_cons, elem_of_nil in Hn, Hn'. naive_solver lia.
  - intros q n Hq. split.
    + intros Hn%Q1_elem. rewrite !elem_of_cons, elem_of_nil in Hn.
      destruct Hn as [[= -> ->]|[[= -> ->]|[]]]; by eexists.
    + intros (p & Hp & Hz & Hpr). revert Hz Hpr. revert q Hq.
      refine (pget_all t0 (fun n p => forall q, queue_nr q -> p_rts_flags p = 0 -> p_priority p = q -> n ∈ Q1 q) n p Hp _).
      repeat constructor; simpl; intros ? _ ? <-; first [done | by left].
  - intros n p Hp Hz. revert Hz. refine (pget_all t0 (fun n p => p_rts_flags p = 0 -> queue_nr (p_priority p)) n p Hp _).
    repeat constructor; simpl; intros; done || lia.
  - intros n p Hp. refine (pget_all t0 (fun n p => p_magic p = PMAGIC) n p Hp _). repeat constructor.
  - intros n p Hp. refine (pget_all t0 (fun n p => _ <= p_rts_flags p < _) n p Hp _).
    repeat constructor; vm_compute; done.
  - intros n p Hp. refine (pget_all t0 (fun n p => p_rts_flags p <> _ -> exists i pr, p_priv p = Some i /\ aget (privs t0) i = Some pr) n p Hp _).
    repeat constructor; simpl; first [done | intros _; eexists _, _; by split].
  - eexists _, _, _. by split_and!.
Qed.

Lemma t0_live n : n ∈ [0; 1; 2; 3] -> live_ep t0 (1024 + n).
Proof.
  rewrite !elem_of_cons, elem_of_nil. intros [->|[->|[->|[->|[]]]]]; eexists; (split_and!; [reflexivity|reflexivity|done]).
Qed.

Lemma t0_ipcs : ipcs t0 C1.
Proof.
  constructor.
  - intros n p Hp. refine (pget_all t0 (fun n p => linked (qnx t0) (p_caller_q p) (C1 n)) n p Hp _).
    repeat constructor; try done. simpl. by exists None.
  - intros n. unfold C1. case_match; repeat constructor; by apply not_elem_of_nil.
  - intros n m. split.
    + unfold C1. destruct (Z.eqb_spec n 2) as [->|]; [|by intros ?%elem_of_nil].
      intros ->%list_elem_of_singleton. eexists. by split_and!.
    + intros (p & Hp & Hs & Hto). revert n Hs Hto.
      refine (pget_all t0 (fun m p => forall n, sending p = true -> _ENDPOINT_P (p_sendto_e p) = n -> m ∈ C1 n) m p Hp _).
      repeat constructor; simpl; intros ? Hs <-; first [done | by left].
  - intros m p Hp. refine (pget_all t0 (fun m p => sending p = false -> p_q_link p = None) m p Hp _). repeat constructor.
  - intros m p Hp. refine (pget_all t0 (fun m p => p_nr p = m) m p Hp _). repeat constructor.
  - intros m p Hp. refine (pget_all t0 (fun m p => live p -> _ENDPOINT_P (p_endpoint p) = m) m p Hp _).
    repeat constructor; intros Hl; first [done | by destruct Hl].
  - intros m p Hp. refine (pget_all t0 (fun m p => live p -> queue_nr (p_priority p)) m p Hp _).
    repeat constructor; intros; done.
  - intros m p Hp. refine (pget_all t0 (fun m p => sending p = true -> live_ep t0 (p_sendto_e p)) m p Hp _).
    repeat constructor; simpl; intros; try done. apply (t0_live 2). set_solver.
  - intros m p Hp. refine (pget_all t0 (fun m p => receiving p = true -> p_getfrom_e p = ANY \/ live_ep t0 (p_getfrom_e p)) m p Hp _).
    repeat constructor; simpl; intros; done.
  - intros m p Hp. refine (pget_all t0 (fun m p => sending p = true -> receiving p = true -> p_getfrom_e p = p_sendto_e p) m p Hp _).
    repeat constructor; intros; done.
  - intros m p Hp. refine (pget_all t0 (fun m p => live p -> RTS_ISSET p RTS_SLOT_FREE = false) m p Hp _).
    repeat constructor; intros Hl; first [done | by destruct Hl].
  - intros p. vm_compute. by intros [= <-].
Qed.
Lemma t0_ipc : ipc t0 Q1 C1.
Proof. split; [exact t0_rq|exact t0_ipcs]. Qed.

Lemma t0_acyclic : acyclic t0.
Proof.
  intros e (p & Hp & <- & Hl). revert Hl.
  refine (pget_all t0 (fun n p => live p -> ends t0 (p_endpoint p)) _ p Hp _).
  repeat constructor; intros Hl; try (by destruct Hl).
  - exists 1%nat. by right.
  - exists 1%nat. by left.
  - exists 1%nat. by right.
  - exists 2%nat. by right.
Qed.

Definition p0 : proc := process 0 0 3 None.
Definition p1 : proc := process 1 RTS_RECEIVING 3 None <| p_getfrom_e := ANY |>.
Definition p2 : proc := process 2 0 7 None <| p_caller_q := Some 3 |>.
Definition p3 : proc := process 3 RTS_SENDING 5 None <| p_sendto_e := 1026 |>.

Lemma deadlock_spec_witness : deadlock SEND 2 1027 t0 = Ret 2 t0.
Proof.
  apply (deadlock_spec t0 Q1 C1 2 p2 SEND 1027 t0_ipc eq_refl ltac:(done) (or_intror (t0_live 3 ltac:(set_solver)))
    ltac:(done)) with (d := 1%nat).
  split; [by right; right|]. intros k Hk. assert (k = 0%nat) as -> by lia. by intros [?|[?|?]].
Defined.

Lemma deadlock_self_witness : deadlock SEND 2 1026 t0 = Ret 0 t0.
Proof.
  apply (deadlock_self t0 Q1 C1 2 p2 0 p0 SEND t0_ipc eq_refl ltac:(done) eq_refl ltac:(done) ltac:(done)). reflexivity.
Defined.

(** Process 2 sends to 1, which waits; to 0, which does not; to 3, which waits for it. *)
Lemma mini_send_spec_witness :
  wp (mini_send 2 1025 (User 64) 0) (fun r s' => r = OK /\ received s' 1 1026 some_msg) never t0 /\
  wp (mini_send 2 1024 (User 64) 0) (fun r s' => r = OK /\ waiting s' 2 1024 some_msg) never t0 /\
  wp (mini_send 2 1027 (User 64) 0) (fun r s' => r = ELOCKED /\ s' = t0) never t0.
Proof.
  split_and!.
  - eapply wp_mono; [apply (mini_send_spec t0 Q1 C1 2 p2 p1 1025 (User 64) 0 some_msg t0_ipc t0_acyclic);
      try reflexivity; done| |done].
    intros r s' (Hr & _ & _ & Hrec). by split.
  - eapply wp_mono; [apply (mini_send_spec t0 Q1 C1 2 p2 p0 1024 (User 64) 0 some_msg t0_ipc t0_acyclic);
      try reflexivity; done| |done].
    intros r s' [(_ & _ & k & Hk)|(Hr & _ & _ & Hw)]; [|by split].
    exfalso. destruct k as [|k]; [done|].
    assert (chain t0 1024 (S k) = NONE) as Hn; [|by rewrite Hn in Hk].
    rewrite <-chain_next. by apply chain_ended; right.
  - assert (mini_send 2 1027 (User 64) 0 t0 = Ret ELOCKED t0) as Hrun by (vm_compute; reflexivity).
    assert (wp (mini_send 2 1027 (User 64) 0) (fun r s' =>
      (r = ELOCKED /\ s' = t0 /\ exists k, chain t0 1027 k = 1026) \/ (r = OK /\ acyclic s' /\
        ipc s' (without 2 Q1) (qset 3 (C1 3 ++ [2]) C1) /\ waiting s' 2 1027 some_msg)) never t0) as Hw.
    { apply (mini_send_spec t0 Q1 C1 2 p2 p3 1027 (User 64) 0 some_msg t0_ipc t0_acyclic); try reflexivity; done. }
    unfold wp in *. rewrite Hrun in Hw |- *. destruct Hw as [(Hr & Hs & _)|(Hr & _)]; [by split|done].
Defined.


Lemma mini_notify_spec_witness :
  wp (mini_notify 2 1025) (fun r s' => r = OK /\ exists d', pget s' 1 = Some d' /\ receiving d' = false) never t0 /\
  mini_notify 2 1024 t0 = Ret OK (prset 0 (fun pr => pr <| s_notify_pending := [4] |>) t0).
Proof.
  split.
  - eapply wp_mono; [apply (mini_notify_spec t0 Q1 C1 2 p2 1025 p1 1 (privilege 1) 2 (privilege 2) 0 t0_ipc);
      try reflexivity; done| |done].
    intros r s' (Hr & _ & _ & d' & Hd' & Hrc & _). split; [done|]. by exists d'.
  - assert (wp (mini_notify 2 1024) (fun r s' => r = OK /\ s' = prset 0 (fun pr => pr <| s_notify_pending :=
                aupd 0 (fun ch => u32 (Z.lor ch (Z.shiftl 1 2))) (s_notify_pending pr) |>) t0) never t0) as Hw.
    { apply (mini_notify_spec t0 Q1 C1 2 p2 1024 p0 0 (privilege 0) 2 (privilege 2) 0 t0_ipc); try reflexivity; done. }
    unfold wp in Hw. destruct (mini_notify 2 1024 t0) as [r s'|w s'] eqn:Hrun; [|done].
    destruct Hw as [-> ->]. reflexivity.
Defined.

Lemma do_sync_ipc_denied_witness :
  do_sync_ipc 2 31 1025 64 t0 = Ret ETRAPDENIED t0 /\ do_sync_ipc 2 SEND ANY 64 t0 = Ret EINVAL t0 /\
  do_sync_ipc 2 SEND 2049 64 t0 = Ret EDEADSRCDST t0.
Proof.
  split_and!.
  - refine (proj1 (do_sync_ipc_denied t0 Q1 C1 2 31 1025 64 p2 2 (privilege 2) t0_ipc eq_refl eq_refl eq_refl _ _) _);
      [done|done|by left].
  - refine (proj1 (proj2 (do_sync_ipc_denied t0 Q1 C1 2 SEND ANY 64 p2 2 (privilege 2) t0_ipc eq_refl eq_refl eq_refl _ _)
      _ _ _) _ _); done.
  - refine (proj1 (proj2 (proj2 (do_sync_ipc_denied t0 Q1 C1 2 SEND 2049 64 p2 2 (privilege 2) t0_ipc eq_refl eq_refl eq_refl _ _)
      _ _ _)) _ _); done.
Defined.

(** Process 2 exits: 3 is released, and its link is what it was. *)
Lemma clear_ipc_refs_spec_witness :
  wp (clear_ipc_refs 2 EDEADSRCDST) (fun _ s' => exists q, pget s' 3 = Some q /\
    sending q = false /\ p_retreg q = EDEADSRCDST) never t0.
Proof.
  eapply wp_mono; [apply (clear_ipc_refs_spec t0 Q1 C1 2 p2 2 (privilege 2) EDEADSRCDST t0_ipc eq_refl ltac:(done) eq_refl eq_refl)| |done].
  - intros k x Hx. assert (length (s_notify_pending x) = 1%nat) as ->; [|by split; vm_compute].
    apply aget_Some in Hx as [_ Hx]. apply list_elem_of_lookup_2, list_elem_of_In, in_map_iff in Hx as (i & <- & _). done.
  - intros _ s' (_ & Hq). destruct (Hq 3 p3 eq_refl ltac:(done)) as (q & Hq3 & _ & _ & Hs & _ & Hr). by exists q.
Defined.

(** A process with a link that was left over. *)
Definition t1 : state memory := pset 2 (fun p => p <| p_q_link := Some 0 |>) t0.
Lemma stale_link_panics_witness : exists s', mini_send 2 1024 (User 64) 0 t1 = Halt Panic s'.
Proof.
  assert (rq t1 Q1) as Hrq by by apply (rq_pset t0 Q1 2 p2 _ t0_rq).
  apply (stale_link_panics t1 Q1 2 (p2 <| p_q_link := Some 0 |>) p0 1024 (User 64) 0 some_msg Hrq); done || reflexivity.
Defined.
End Demo.
