(* ===== verification/KSys.v ===== *)
(** The kernel calls, [src/Project_2/kernel/system.c] and [kernel/system]: their dispatch, the
    allocation of privileges, and the calls that start, stop, schedule, signal and end
    processes.  The state is that of [KProc]; a handler takes the number of the caller and
    the request, and returns the result and the request as it has changed it. *)
From S2P Require Import Prelude Minix KProc KIpc.
Local Open Scope Z_scope.

(** ** Headers
    [minix/com.h], [minix/endpoint.h], [minix/priv.h], [signal.h] and others.  The fields of a
    request are read by the name the code gives them and written by [put_] functions. *)
Class KCallHeaders := {
  status_of : rc -> Z;
  KERNEL_CALL : Z; NR_SYS_CALLS : Z;
  SYS_FORK : Z; SYS_EXEC : Z; SYS_CLEAR : Z; SYS_EXIT : Z; SYS_PRIVCTL : Z; SYS_TRACE : Z; SYS_SETGRANT : Z;
  SYS_RUNCTL : Z; SYS_STATECTL : Z; SYS_KILL : Z; SYS_GETKSIG : Z; SYS_ENDKSIG : Z; SYS_TIMES : Z;
  SYS_SETALARM : Z; SYS_VTIMER : Z; SYS_SCHEDULE : Z; SYS_SCHEDCTL : Z;
  (* fields of requests *)
  PR_ENDPT : message -> Z; PR_SLOT : message -> Z; PR_MEM_PTR : message -> Z; PR_FORK_FLAGS : message -> Z;
  PR_IP_PTR : message -> Z; PR_STACK_PTR : message -> Z;
  SIG_ENDPT : message -> Z; SIG_NUMBER : message -> Z;
  RC_ENDPT : message -> Z; RC_ACTION : message -> Z; RC_FLAGS : message -> Z;
  SCHEDULING_ENDPOINT : message -> Z; SCHEDULING_PRIORITY : message -> Z; SCHEDULING_QUANTUM : message -> Z;
  SCHEDCTL_FLAGS : message -> Z; SCHEDCTL_ENDPOINT : message -> Z; SCHEDCTL_PRIORITY : message -> Z;
  SCHEDCTL_QUANTUM : message -> Z;
  CTL_ENDPT : message -> Z; CTL_REQUEST : message -> Z; CTL_ARG_PTR : message -> Z; CTL_PHYSSTART : message -> Z;
  CTL_PHYSLEN : message -> Z;
  SG_ADDR : message -> Z; SG_SIZE : message -> Z;
  VT_WHICH : message -> Z; VT_SET : message -> Z; VT_VALUE : message -> Z; VT_ENDPT : message -> Z;
  T_ENDPT : message -> Z;
  ALRM_EXP_TIME : message -> Z; ALRM_ABS_TIME : message -> Z;
  put_PR_ENDPT : Z -> message -> message; put_PR_FORK_MSGADDR : Z -> message -> message;
  put_SIG_ENDPT : Z -> message -> message; put_SIG_MAP : Z -> message -> message;
  put_CTL_DATA : Z -> message -> message; put_VT_VALUE : Z -> message -> message;
  put_T_USER_TIME : Z -> message -> message; put_T_SYSTEM_TIME : Z -> message -> message;
  put_T_BOOT_TICKS : Z -> message -> message; put_T_BOOTTIME : Z -> message -> message;
  put_ALRM_TIME_LEFT : Z -> message -> message;
  (* constants *)
  _ENDPOINT_G : Z -> Z; _ENDPOINT : Z -> Z -> Z; _ENDPOINT_MAX_GENERATION : Z;
  PFF_VMINHIBIT : Z; sigemptyset : Z; _NSIG : Z; SIGABRT : Z; SIGVTALRM : Z; SIGPROF : Z;
  RC_STOP : Z; RC_RESUME : Z; RC_DELAY : Z;
  SCHEDCTL_FLAG_KERNEL : Z; SYS_STATE_CLEAR_IPC_REFS : Z;
  VT_VIRTUAL : Z; VT_PROF : Z; TMR_NEVER : Z;
  T_STOP : Z; T_DETACH : Z; T_RESUME : Z; T_STEP : Z; T_SYSCALL : Z;
  SYS_PRIV_ALLOW : Z; SYS_PRIV_YIELD : Z; SYS_PRIV_DISALLOW : Z; SYS_PRIV_SET_SYS : Z; SYS_PRIV_SET_USER : Z;
  SYS_PRIV_ADD_IO : Z; SYS_PRIV_ADD_MEM : Z; SYS_PRIV_ADD_IRQ : Z; SYS_PRIV_QUERY_MEM : Z; SYS_PRIV_UPDATE_SYS : Z;
  NULL_PRIV_ID : Z; NR_STATIC_PRIV_IDS : Z; is_static_priv_id : Z -> bool; DYN_PRIV_ID : Z;
  CHECK_IRQ : Z; CHECK_IO_PORT : Z; CHECK_MEM : Z; NR_IRQ : Z; NR_IO_RANGE : Z; NR_MEM_RANGE : Z;
  DSRV_F : Z; DSRV_T : Z; DSRV_M : Z; DSRV_KC : Z; DSRV_SM : Z; NO_C : Z; SYS_CALL_MASK_SIZE : Z;
  _LOAD_UNIT_SECS : Z; _LOAD_HISTORY : Z;
  _K_SET_GRANT_TABLE : Z -> Z -> priv -> priv;
}.
Definition VMSTYPE_KERNELCALL : Z := 1.
Definition TRACEBIT : Z := 0x100.
(** The samples of the load, [struct loadinfo]. *)
Record loadinfo := mk_loadinfo { proc_load_history : list Z; proc_last_slot : Z; last_clock : Z }.
(** ** The outside
    Copies between address spaces, the memory maps, interrupts, the floating point unit and
    the queue of timers. *)
Class KSysEnv (W : Type) := {
  stack_message : W -> message;  (* a message that was not filled in *)
  copy_msg_to_user : Z -> message -> Z -> W -> option W;
  newmap : Z -> Z -> Z -> W -> rc * W;
  release_address_space : Z -> W -> unit * W;
  rm_irq_hooks : Z -> W -> unit * W;  (* the hooks of an endpoint *)
  fork_fpu : Z -> Z -> W -> unit * W;
  release_fpu : Z -> W -> unit * W;
  arch_pre_exec : Z -> Z -> Z -> W -> unit * W;
  boottime : W -> Z;
  copy_priv : Z -> Z -> W -> rc * priv;
  copy_range : Z -> Z -> W -> rc * (Z * Z);
  copy_irq : Z -> Z -> W -> rc * Z;
  (* the alarm timer of a privilege structure *)
  tmr_exp_time : Z -> W -> Z;
  reset_timer : Z -> W -> unit * W;
  set_timer : Z -> Z -> Z -> W -> unit * W;  (* timer, tmr_exp_time, ta_int: the process to notify *)
  system_hz : W -> Z;
  load_info : W -> loadinfo;  (* kloadinfo *)
  set_load_info : loadinfo -> W -> W;
}.

Section calls.
Context `{MinixHeaders} `{KernelHeaders} `{KCallHeaders} {W : Type} `{KernelEnv W} `{KSysEnv W}.
Abbreviation cmd := (M (state W)).
(** The requests of [do_trace] that touch the memory or the registers of a process, and the
    kernel calls that are not part of the model. *)
Class KOtherCalls := {
  trace_memory : Z -> Z -> message -> cmd (rc * message);
  other_kernel_call : Z -> Z -> message -> cmd (rc * message);
}.
Context `{KOtherCalls}.

Definition env {A} (f : W -> A * W) : cmd A :=
  s ← get; let '(a, w) := f (world s) in modify (fun s => s <| world := w |>);; mret a.
Definition priv_at (i : Z) : cmd priv := s ← get; deref (aget (privs s) i).
Definition set_priv_at (i : Z) (f : priv -> priv) : cmd unit :=
  priv_at i;; modify (fun s => s <| privs := aupd i f (privs s) |>).

(** ** Privileges, [system.c] *)
(** [get_priv] of the code: a privilege structure for a process. *)
Definition get_priv_for (rc priv_id : Z) : cmd Minix.rc :=
  sp ← (if priv_id =? NULL_PRIV_ID then
          i ← for_ (seqZ NR_STATIC_PRIV_IDS (NR_SYS_PROCS - NR_STATIC_PRIV_IDS)) (fun i =>
                sp ← priv_at i; mret (if s_proc_nr sp =? NONE then Some i else None));
          mret (match i with Some i => inr i | None => inl ENOSPC end)
        else if negb (is_static_priv_id priv_id) then mret (inl EINVAL) else
          sp ← priv_at priv_id;
          mret (if negb (s_proc_nr sp =? NONE) then inl EBUSY else inr priv_id));
  match sp with
  | inl r => mret r
  | inr i =>
      set_proc rc (fun p => p <| p_priv := Some i |>);;
      p ← get_proc rc;
      set_priv_at i (fun sp => sp <| s_proc_nr := p_nr p |>);;
      mret OK
  end.
Definition set_sendto_bit (rp id : Z) : cmd unit :=
  nr ← id_to_nr id;
  pr ← get_priv rp;
  if (nr =? NONE) || (s_id pr =? id) then
    map ← unset_sys_bit (s_ipc_to pr) id;
    set_priv rp (fun pr => pr <| s_ipc_to := map |>)
  else
    map ← set_sys_bit (s_ipc_to pr) id;
    set_priv rp (fun pr => pr <| s_ipc_to := map |>);;
    to ← priv_at id;
    if has (s_trap_mask to) (Z.lnot (Z.shiftl 1 RECEIVE)) then
      map ← set_sys_bit (s_ipc_to to) (s_id pr);
      set_priv_at id (fun to => to <| s_ipc_to := map |>)
    else mret tt.
Definition unset_sendto_bit (rp id : Z) : cmd unit :=
  pr ← get_priv rp;
  map ← unset_sys_bit (s_ipc_to pr) id;
  set_priv rp (fun pr => pr <| s_ipc_to := map |>);;
  to ← priv_at id;
  pr ← get_priv rp;
  map ← unset_sys_bit (s_ipc_to to) (s_id pr);
  set_priv_at id (fun to => to <| s_ipc_to := map |>).
(** The shift [1 << i] of an int has no meaning from the 32nd bit on. *)
Definition fill_sendto_mask (rp mask : Z) : cmd unit :=
  foreach (seqZ 0 NR_SYS_PROCS) (fun i =>
    (if i <? 32 then mret tt else halt Undef);;
    if Z.testbit mask i then set_sendto_bit rp i else unset_sendto_bit rp i).

(** ** Processes, [kernel/system] *)
(** The slot of the child of [rpp], as it is before the flags are set. *)
Definition forked (slot gen : Z) (rpp : proc) : proc :=
  rpp <| p_nr := slot |> <| p_endpoint := _ENDPOINT gen slot |> <| p_retreg := OK |>
    <| p_user_time := 0 |> <| p_sys_time := 0 |> <| p_psw := Z.ldiff (p_psw rpp) TRACEBIT |>
    <| p_misc_flags := s16 (Z.ldiff (p_misc_flags rpp) (Z.lor MF_VIRT_TIMER (Z.lor MF_PROF_TIMER MF_SC_TRACE))) |>
    <| p_virt_left := 0 |> <| p_prof_left := 0 |>.
Definition do_fork (caller : Z) (m : message) : cmd (rc * message) :=
  '(ok, rpp) ← isokendpt (PR_ENDPT m);
  if negb ok then mret (EINVAL, m) else
  p ← get_proc rpp;
  let rpc := PR_SLOT m in
  c ← get_proc rpc;
  if isemptyp p || negb (isemptyp c) then mret (EINVAL, m) else
  assert_ (negb (MF p MF_DELIVERMSG));;
  if negb (RTS_ISSET p RTS_RECEIVING) then mret (EINVAL, m) else
  let map_ptr := PR_MEM_PTR m in
  env (fork_fpu rpp rpc);;
  let gen := if _ENDPOINT_MAX_GENERATION <=? _ENDPOINT_G (p_endpoint c) + 1 then 1
             else _ENDPOINT_G (p_endpoint c) + 1 in
  set_proc rpc (fun _ => forked rpc gen p);;
  RTS_SET rpc RTS_NO_QUANTUM;;
  set_proc rpc (fun c => c <| p_cpu_time_left := 0 |> <| p_cycles := 0 |>);;
  pr ← get_priv rpp;
  (if has (s_flags pr) SYS_PROC then
     set_proc rpc (fun c => c <| p_priv := Some USER_PRIV_ID |>
       <| p_rts_flags := s16 (Z.lor (p_rts_flags c) RTS_NO_PRIV) |>)
   else mret tt);;
  c ← get_proc rpc;
  let m := put_PR_FORK_MSGADDR (p_delivermsg_vir p) (put_PR_ENDPT (p_endpoint c) m) in
  r ← env (newmap caller rpc map_ptr);
  (if has (PR_FORK_FLAGS m) PFF_VMINHIBIT then RTS_SET rpc RTS_VMINHIBIT else mret tt);;
  RTS_UNSET rpc (Z.lor RTS_SIGNALED (Z.lor RTS_SIG_PENDING RTS_P_STOP));;
  set_proc rpc (fun c => c <| p_pending := sigemptyset |>);;
  mret (r, m).
(** The name of the program, which is only printed, is left out. *)
Definition do_exec (caller : Z) (m : message) : cmd (rc * message) :=
  '(ok, rp) ← isokendpt (PR_ENDPT m);
  if negb ok then mret (EINVAL, m) else
  clear_misc rp MF_DELIVERMSG;;
  env (arch_pre_exec rp (PR_IP_PTR m) (PR_STACK_PTR m));;
  RTS_UNSET rp RTS_RECEIVING;;
  clear_misc rp MF_FPU_INITIALIZED;;
  env (release_fpu rp);;
  mret (OK, m).
Definition do_clear (caller : Z) (m : message) : cmd (rc * message) :=
  '(ok, rc) ← isokendpt (PR_ENDPT m);
  if negb ok then mret (EINVAL, m) else
  env (release_address_space rc);;
  p ← get_proc rc;
  if isemptyp p then mret (OK, m) else
  env (rm_irq_hooks (p_endpoint p));;
  clear_endpoint rc;;
  p ← get_proc rc;
  i ← deref (p_priv p);
  env (reset_timer i);;
  RTS_SETFLAGS rc RTS_SLOT_FREE;;
  clear_misc rc MF_FPU_INITIALIZED;;
  pr ← get_priv rc;
  (if has (s_flags pr) SYS_PROC then set_priv rc (fun pr => pr <| s_proc_nr := NONE |>) else mret tt);;
  env (release_fpu rc);;
  mret (OK, m).
Definition do_exit (caller : Z) (m : message) : cmd (rc * message) :=
  p ← get_proc caller;
  cause_sig (p_nr p) SIGABRT;;
  mret (EDONTREPLY, m).

(** ** Signals *)
Definition do_kill (caller : Z) (m : message) : cmd (rc * message) :=
  let sig_nr := SIG_NUMBER m in
  '(ok, n) ← isokendpt (SIG_ENDPT m);
  if negb ok then mret (EINVAL, m) else
  if _NSIG <=? sig_nr then mret (EINVAL, m) else
  if iskerneln n then mret (EPERM, m) else
  cause_sig n sig_nr;;
  mret (OK, m).
Definition do_getksig (caller : Z) (m : message) : cmd (rc * message) :=
  found ← for_ (seqZ 0 NR_PROCS) (fun rp =>
    p ← get_proc rp;
    if negb (RTS_ISSET p RTS_SIGNALED) then mret None else
    c ← get_proc caller;
    pr ← get_priv rp;
    if negb (p_endpoint c =? s_sig_mgr pr) then mret None else
    let m := put_SIG_MAP (p_pending p) (put_SIG_ENDPT (p_endpoint p) m) in
    set_proc rp (fun p => p <| p_pending := sigemptyset |>);;
    RTS_UNSET rp RTS_SIGNALED;;
    mret (Some m));
  match found with
  | Some m => mret (OK, m)
  | None => mret (OK, put_SIG_ENDPT NONE m)
  end.
Definition do_endksig (caller : Z) (m : message) : cmd (rc * message) :=
  '(ok, rp) ← isokendpt (SIG_ENDPT m);
  if negb ok then mret (EINVAL, m) else
  c ← get_proc caller;
  pr ← get_priv rp;
  if negb (p_endpoint c =? s_sig_mgr pr) then mret (EPERM, m) else
  p ← get_proc rp;
  if negb (RTS_ISSET p RTS_SIG_PENDING) then mret (EINVAL, m) else
  (if negb (RTS_ISSET p RTS_SIGNALED) then RTS_UNSET rp RTS_SIG_PENDING else mret tt);;
  mret (OK, m).
Definition do_runctl (caller : Z) (m : message) : cmd (rc * message) :=
  '(ok, rp) ← isokendpt (RC_ENDPT m);
  if negb ok then mret (EINVAL, m) else
  if iskerneln rp then mret (EPERM, m) else
  let action := RC_ACTION m in
  busy ← (if (action =? RC_STOP) && has (RC_FLAGS m) RC_DELAY then
            p ← get_proc rp;
            (if RTS_ISSET p RTS_SENDING || MF p MF_SC_DEFER then set_misc rp MF_SIG_DELAY else mret tt);;
            p ← get_proc rp;
            mret (MF p MF_SIG_DELAY)
          else mret false);
  if busy : bool then mret (EBUSY, m) else
  if action =? RC_STOP then RTS_SET rp RTS_PROC_STOP;; mret (OK, m)
  else if action =? RC_RESUME then RTS_UNSET rp RTS_PROC_STOP;; mret (OK, m)
  else mret (EINVAL, m).

(** ** Scheduling *)
Definition do_schedule (caller : Z) (m : message) : cmd (rc * message) :=
  '(ok, _) ← isokendpt (SCHEDULING_ENDPOINT m);
  if negb ok then mret (EINVAL, m) else
  let n := _ENDPOINT_P (SCHEDULING_ENDPOINT m) in
  p ← get_proc n;
  if negb (bool_decide (p_scheduler p = Some caller)) then mret (EPERM, m) else
  r ← sched_proc n (SCHEDULING_PRIORITY m) (SCHEDULING_QUANTUM m);
  mret (r, m).
(** [r = sched_proc(...) != OK]: the result is 1 when [sched_proc] fails. *)
Definition do_schedctl (caller : Z) (m : message) : cmd (rc * message) :=
  let flags := u32 (SCHEDCTL_FLAGS m) in
  if negb (Z.ldiff flags SCHEDCTL_FLAG_KERNEL =? 0) then mret (EINVAL, m) else
  '(ok, n) ← isokendpt (SCHEDCTL_ENDPOINT m);
  if negb ok then mret (EINVAL, m) else
  if Z.land flags SCHEDCTL_FLAG_KERNEL =? SCHEDCTL_FLAG_KERNEL then
    r ← sched_proc n (SCHEDCTL_PRIORITY m) (SCHEDCTL_QUANTUM m);
    if negb (is_ok r) then mret (Rc 1, m) else
    set_proc n (fun p => p <| p_scheduler := None |>);;
    mret (OK, m)
  else
    set_proc n (fun p => p <| p_scheduler := Some caller |>);;
    mret (OK, m).

(** ** State, grants, times *)
Definition do_statectl (caller : Z) (m : message) : cmd (rc * message) :=
  if CTL_REQUEST m =? SYS_STATE_CLEAR_IPC_REFS then
    clear_ipc_refs caller EDEADSRCDST;; mret (OK, m)
  else mret (EINVAL, m).
Definition do_setgrant (caller : Z) (m : message) : cmd (rc * message) :=
  p ← get_proc caller;
  if RTS_ISSET p RTS_NO_PRIV || bool_decide (p_priv p = None) then mret (EPERM, m) else
  set_priv caller (_K_SET_GRANT_TABLE (SG_ADDR m) (SG_SIZE m));;
  mret (OK, m).
Definition self_or (caller e : Z) : cmd Z :=
  if e =? SELF then c ← get_proc caller; mret (p_endpoint c) else mret e.
Definition do_vtimer (caller : Z) (m : message) : cmd (rc * message) :=
  pr ← get_priv caller;
  if negb (has (s_flags pr) SYS_PROC) then mret (EPERM, m) else
  if negb (VT_WHICH m =? VT_VIRTUAL) && negb (VT_WHICH m =? VT_PROF) then mret (EINVAL, m) else
  e ← self_or caller (VT_ENDPT m);
  '(ok, rp) ← isokendpt e;
  if negb ok then mret (EINVAL, m) else
  let virt := VT_WHICH m =? VT_VIRTUAL in
  let pt_flag := if virt then MF_VIRT_TIMER else MF_PROF_TIMER in
  let set_left v := set_proc rp (fun p => if virt then p <| p_virt_left := v |> else p <| p_prof_left := v |>) in
  p ← get_proc rp;
  let left := if virt then p_virt_left p else p_prof_left p in
  let old_value := if MF p pt_flag then (if left <? 0 then 0 else left) else 0 in
  (if negb (VT_SET m =? 0) then
     clear_misc rp pt_flag;;
     (if 0 <? VT_VALUE m then set_left (VT_VALUE m);; set_misc rp pt_flag else set_left 0)
   else mret tt);;
  mret (OK, put_VT_VALUE old_value m).
Definition vtimer_check (rp : Z) : cmd unit :=
  p ← get_proc rp;
  (if MF p MF_VIRT_TIMER && (p_virt_left p <=? 0) then
     clear_misc rp MF_VIRT_TIMER;;
     set_proc rp (fun p => p <| p_virt_left := 0 |>);;
     cause_sig (p_nr p) SIGVTALRM
   else mret tt);;
  p ← get_proc rp;
  if MF p MF_PROF_TIMER && (p_prof_left p <=? 0) then
    clear_misc rp MF_PROF_TIMER;;
    set_proc rp (fun p => p <| p_prof_left := 0 |>);;
    cause_sig (p_nr p) SIGPROF
  else mret tt.
Definition do_times (caller : Z) (m : message) : cmd (rc * message) :=
  e ← self_or caller (T_ENDPT m);
  m ← (if e =? NONE then mret m else
         '(ok, rp) ← isokendpt e;
         if negb ok then mret m else
         p ← get_proc rp;
         mret (put_T_SYSTEM_TIME (p_sys_time p) (put_T_USER_TIME (p_user_time p) m)));
  t ← get_uptime;
  s ← get;
  mret (OK, put_T_BOOTTIME (boottime (world s)) (put_T_BOOT_TICKS t m)).
(** A [clock_t], when the sum does not overflow. *)
Definition clock_sum (a b : Z) : cmd Z :=
  if (- 2 ^ 31 <=? a + b) && (a + b <? 2 ^ 31) then mret (a + b) else halt Undef.
Definition do_setalarm (caller : Z) (m : message) : cmd (rc * message) :=
  let exp_time := ALRM_EXP_TIME m in
  let use_abs_time := ALRM_ABS_TIME m in
  pr ← get_priv caller;
  if negb (has (s_flags pr) SYS_PROC) then mret (EPERM, m) else
  c ← get_proc caller;
  tp ← deref (p_priv c);
  uptime ← get_uptime;
  s ← get;
  let exp := tmr_exp_time tp (world s) in
  let m := put_ALRM_TIME_LEFT (if negb (exp =? TMR_NEVER) && (uptime <? exp) then exp - uptime else 0) m in
  (if exp_time =? 0 then env (reset_timer tp) else
     when ← (if negb (use_abs_time =? 0) then mret exp_time else t ← get_uptime; clock_sum exp_time t);
     env (set_timer tp when (p_endpoint c)));;
  mret (OK, m).
Definition cause_alarm (proc_nr_e : Z) : cmd unit := mini_notify CLOCK proc_nr_e;; mret tt.
(** The requests that let a stopped process go on. *)
Definition trace_resume (rp req : Z) (m : message) : option (cmd (rc * message)) :=
  if (req =? T_DETACH) || (req =? T_RESUME) then Some (
    (if req =? T_DETACH then clear_misc rp MF_SC_ACTIVE else mret tt);;
    RTS_UNSET rp RTS_P_STOP;;
    mret (OK, put_CTL_DATA 0 m))
  else if req =? T_STEP then Some (
    set_proc rp (fun p => p <| p_psw := Z.lor (p_psw p) TRACEBIT |>);;
    RTS_UNSET rp RTS_P_STOP;;
    mret (OK, put_CTL_DATA 0 m))
  else if req =? T_SYSCALL then Some (
    set_misc rp MF_SC_TRACE;;
    RTS_UNSET rp RTS_P_STOP;;
    mret (OK, put_CTL_DATA 0 m))
  else None.
Definition do_trace (caller : Z) (m : message) : cmd (rc * message) :=
  '(ok, rp) ← isokendpt (CTL_ENDPT m);
  if negb ok then mret (EINVAL, m) else
  if iskerneln rp then mret (EPERM, m) else
  p ← get_proc rp;
  if isemptyp p then mret (EINVAL, m) else
  let req := CTL_REQUEST m in
  if req =? T_STOP then
    RTS_SET rp RTS_P_STOP;;
    set_proc rp (fun p => p <| p_psw := Z.ldiff (p_psw p) TRACEBIT |>);;
    clear_misc rp MF_SC_TRACE;;
    mret (OK, m)
  else match trace_resume rp req m with
       | Some go => go
       | None => trace_memory caller rp m
       end.

(** ** [do_privctl.c] *)
Definition update_priv (rp : Z) (sp : priv) : cmd rc :=
  set_priv rp (fun pr => pr <| s_flags := s_flags sp |> <| s_sig_mgr := s_sig_mgr sp |>
    <| s_bak_sig_mgr := s_bak_sig_mgr sp |>);;
  if has (s_flags sp) CHECK_IRQ && ((s_nr_irq sp <? 0) || (NR_IRQ <? s_nr_irq sp)) then mret EINVAL else
  (if has (s_flags sp) CHECK_IRQ then
     set_priv rp (fun pr => pr <| s_nr_irq := s_nr_irq sp |>);;
     foreach (seqZ 0 (s_nr_irq sp)) (fun i =>
       x ← deref (aget (s_irq_tab sp) i);
       set_priv rp (fun pr => pr <| s_irq_tab := aupd i (fun _ => x) (s_irq_tab pr) |>))
   else mret tt);;
  if has (s_flags sp) CHECK_IO_PORT && ((s_nr_io_range sp <? 0) || (NR_IO_RANGE <? s_nr_io_range sp)) then mret EINVAL else
  (if has (s_flags sp) CHECK_IO_PORT then
     set_priv rp (fun pr => pr <| s_nr_io_range := s_nr_io_range sp |>);;
     foreach (seqZ 0 (s_nr_io_range sp)) (fun i =>
       x ← deref (aget (s_io_tab sp) i);
       set_priv rp (fun pr => pr <| s_io_tab := aupd i (fun _ => x) (s_io_tab pr) |>))
   else mret tt);;
  if has (s_flags sp) CHECK_MEM && ((s_nr_mem_range sp <? 0) || (NR_MEM_RANGE <? s_nr_mem_range sp)) then mret EINVAL else
  (if has (s_flags sp) CHECK_MEM then
     set_priv rp (fun pr => pr <| s_nr_mem_range := s_nr_mem_range sp |>);;
     foreach (seqZ 0 (s_nr_mem_range sp)) (fun i =>
       x ← deref (aget (s_mem_tab sp) i);
       set_priv rp (fun pr => pr <| s_mem_tab := aupd i (fun _ => x) (s_mem_tab pr) |>))
   else mret tt);;
  set_priv rp (fun pr => pr <| s_trap_mask := s_trap_mask sp |>);;
  mask ← deref (aget (s_ipc_to sp) 0);
  fill_sendto_mask rp mask;;
  set_priv rp (fun pr => pr <| s_k_call_mask := s_k_call_mask sp |>);;
  mret OK.
(** The privileges of a new system process, before the mask of its targets is set. *)
Definition default_priv (n id : Z) (from : priv) : priv :=
  from <| s_id := id |> <| s_proc_nr := n |> <| s_notify_pending := replicate (Z.to_nat NR_SYS_CHUNKS) 0 |>
    <| s_int_pending := 0 |> <| s_sig_pending := sigemptyset |> <| s_asyntab := -1 |> <| s_asynsize := 0 |>
    <| s_flags := DSRV_F |> <| s_trap_mask := DSRV_T |>.
Definition set_sys (caller rp proc_nr : Z) (m : message) : cmd rc :=
  p ← get_proc rp;
  if negb (RTS_ISSET p RTS_NO_PRIV) then mret EPERM else
  c ← get_proc caller;
  s ← get;
  let given := if CTL_ARG_PTR m =? 0 then None else Some (copy_priv (p_endpoint c) (CTL_ARG_PTR m) (world s)) in
  let r := match given with Some (r, _) => r | None => OK end in
  if negb (is_ok r) then mret r else
  let priv_id := match given with
                 | Some (_, sp) => if negb (has (s_flags sp) DYN_PRIV_ID) then s_id sp else NULL_PRIV_ID
                 | None => NULL_PRIV_ID
                 end in
  i ← get_priv_for rp priv_id;
  if negb (is_ok i) then mret i else
  own ← get_priv rp;
  from ← get_priv caller;
  set_priv rp (fun _ => default_priv proc_nr (s_id own) from);;
  p ← get_proc rp;
  tp ← deref (p_priv p);
  env (reset_timer tp);;
  fill_sendto_mask rp DSRV_M;;
  set_priv rp (fun pr => pr
    <| s_k_call_mask := replicate (Z.to_nat SYS_CALL_MASK_SIZE) (if DSRV_KC =? NO_C then 0 else u32 (-1)) |>
    <| s_sig_mgr := DSRV_SM |> <| s_bak_sig_mgr := NONE |> <| s_nr_io_range := 0 |> <| s_nr_mem_range := 0 |>
    <| s_nr_irq := 0 |> <| s_grant_table := 0 |> <| s_grant_entries := 0 |>);;
  match given with Some (_, sp) => update_priv rp sp | None => mret OK end.
(** A resource is added to a system process: [flag] is set even when the table is full. *)
Definition add_resource (rp flag : Z) (number : priv -> Z) (limit : Z) (add : Z -> priv -> priv) : cmd rc :=
  set_priv rp (fun pr => pr <| s_flags := s16 (Z.lor (s_flags pr) flag) |>);;
  pr ← get_priv rp;
  let i := number pr in
  if limit <=? i then mret ENOMEM else
  (if 0 <=? i then mret tt else halt Undef);;
  set_priv rp (add i);;
  mret OK.
Definition no_resources (rp : Z) : cmd bool :=
  p ← get_proc rp;
  if RTS_ISSET p RTS_NO_PRIV then mret true else
  pr ← get_priv rp;
  mret (negb (has (s_flags pr) SYS_PROC)).
Definition do_privctl (caller : Z) (m : message) : cmd (rc * message) :=
  pr ← get_priv caller;
  if negb (has (s_flags pr) SYS_PROC) then mret (EPERM, m) else
  c ← get_proc caller;
  '(ok, rp) ← (if CTL_ENDPT m =? SELF then mret (true, _ENDPOINT_P (p_endpoint c)) else isokendpt (CTL_ENDPT m));
  if negb ok then mret (EINVAL, m) else
  let req := CTL_REQUEST m in
  s ← get;
  r ←
    (if (req =? SYS_PRIV_ALLOW) || (req =? SYS_PRIV_YIELD) then
       p ← get_proc rp;
       denied ← (if negb (RTS_ISSET p RTS_NO_PRIV) then mret true
                 else pr ← get_priv rp; mret (s_proc_nr pr =? NONE));
       if denied : bool then mret EPERM else
       (if req =? SYS_PRIV_YIELD then RTS_SET caller RTS_NO_PRIV else mret tt);;
       RTS_UNSET rp RTS_NO_PRIV;; mret OK
     else if req =? SYS_PRIV_DISALLOW then
       p ← get_proc rp;
       if RTS_ISSET p RTS_NO_PRIV then mret EPERM else RTS_SET rp RTS_NO_PRIV;; mret OK
     else if req =? SYS_PRIV_SET_SYS then set_sys caller rp rp m
     else if req =? SYS_PRIV_SET_USER then
       p ← get_proc rp;
       if negb (RTS_ISSET p RTS_NO_PRIV) then mret EPERM else
       set_proc rp (fun p => p <| p_priv := Some USER_PRIV_ID |>);; mret OK
     else if req =? SYS_PRIV_ADD_IO then
       no ← no_resources rp;
       if no : bool then mret EPERM else
       let x := (copy_range (p_endpoint c) (CTL_ARG_PTR m) (world s)).2 in
       add_resource rp CHECK_IO_PORT s_nr_io_range NR_IO_RANGE (fun i pr =>
         pr <| s_io_tab := aupd i (fun _ => x) (s_io_tab pr) |> <| s_nr_io_range := i + 1 |>)
     else if req =? SYS_PRIV_ADD_MEM then
       no ← no_resources rp;
       if no : bool then mret EPERM else
       let '(r, x) := copy_range (p_endpoint c) (CTL_ARG_PTR m) (world s) in
       if negb (is_ok r) then mret r else
       add_resource rp CHECK_MEM s_nr_mem_range NR_MEM_RANGE (fun i pr =>
         pr <| s_mem_tab := aupd i (fun _ => x) (s_mem_tab pr) |> <| s_nr_mem_range := i + 1 |>)
     else if req =? SYS_PRIV_ADD_IRQ then
       no ← no_resources rp;
       if no : bool then mret EPERM else
       let x := (copy_irq (p_endpoint c) (CTL_ARG_PTR m) (world s)).2 in
       add_resource rp CHECK_IRQ s_nr_irq NR_IRQ (fun i pr =>
         pr <| s_irq_tab := aupd i (fun _ => x) (s_irq_tab pr) |> <| s_nr_irq := i + 1 |>)
     else if req =? SYS_PRIV_QUERY_MEM then
       let a := u32 (CTL_PHYSSTART m) in
       let limit := u32 (a + CTL_PHYSLEN m - 1) in
       if limit <? a then mret EPERM else
       p ← get_proc rp;
       if bool_decide (p_priv p = None) then mret EPERM else
       sp ← get_priv rp;
       if negb (has (s_flags sp) SYS_PROC) then mret EPERM else
       found ← for_ (seqZ 0 (s_nr_mem_range sp)) (fun i =>
         '(base, top) ← deref (aget (s_mem_tab sp) i);
         mret (if (base <=? a) && (limit <=? top) then Some tt else None));
       mret (match found with Some _ => OK | None => EPERM end)
     else if req =? SYS_PRIV_UPDATE_SYS then
       if CTL_ARG_PTR m =? 0 then mret EINVAL else
       let '(r, sp) := copy_priv (p_endpoint c) (CTL_ARG_PTR m) (world s) in
       if negb (is_ok r) then mret r else update_priv rp sp
     else mret EINVAL);
  mret (r, m).

(** ** A kernel call, [system.c] *)
Definition call_vec (nr : Z) (caller : Z) (m : message) : cmd (rc * message) :=
  let c := nr + KERNEL_CALL in
  if c =? SYS_FORK then do_fork caller m else if c =? SYS_EXEC then do_exec caller m
  else if c =? SYS_CLEAR then do_clear caller m else if c =? SYS_EXIT then do_exit caller m
  else if c =? SYS_PRIVCTL then do_privctl caller m else if c =? SYS_TRACE then do_trace caller m
  else if c =? SYS_SETGRANT then do_setgrant caller m else if c =? SYS_RUNCTL then do_runctl caller m
  else if c =? SYS_STATECTL then do_statectl caller m else if c =? SYS_KILL then do_kill caller m
  else if c =? SYS_GETKSIG then do_getksig caller m else if c =? SYS_ENDKSIG then do_endksig caller m
  else if c =? SYS_TIMES then do_times caller m else if c =? SYS_SETALARM then do_setalarm caller m
  else if c =? SYS_VTIMER then do_vtimer caller m else if c =? SYS_SCHEDULE then do_schedule caller m
  else if c =? SYS_SCHEDCTL then do_schedctl caller m
  else other_kernel_call nr caller m.
Definition kernel_call_finish (caller : Z) (m : message) (result : rc) : cmd unit :=
  if bool_decide (result = VMSUSPEND) then
    p ← get_proc caller;
    assert_ (RTS_ISSET p RTS_VMREQUEST);;
    assert_ (p_vm_type p =? VMSTYPE_KERNELCALL);;
    set_proc caller (fun p => p <| p_reqmsg := m |>);;
    set_misc caller MF_KCALL_RESUME
  else
    set_proc caller (fun p => p <| p_reqmsg := (p_reqmsg p) <| m_source := NONE |> |>);;
    if bool_decide (result = EDONTREPLY) then mret tt else
    p ← get_proc caller;
    s ← get;
    match copy_msg_to_user caller (m <| m_source := SYSTEM |> <| m_type := status_of result |>)
            (p_delivermsg_vir p) (world s) with
    | Some w => modify (fun s => s <| world := w |>)
    | None => mret tt
    end.
Definition kernel_call_dispatch (caller : Z) (m : message) : cmd (rc * message) :=
  let call_nr := m_type m - KERNEL_CALL in
  if (call_nr <? 0) || (NR_SYS_CALLS <=? call_nr) then mret (EBADREQUEST, m) else
  pr ← get_priv caller;
  allowed ← get_sys_bit (s_k_call_mask pr) call_nr;
  if negb allowed then mret (ECALLDENIED, m) else call_vec call_nr caller m.
Definition kernel_call (m_user caller : Z) : cmd unit :=
  set_proc caller (fun p => p <| p_delivermsg_vir := m_user |>);;
  s ← get;
  p ← get_proc caller;
  match copy_msg_from_user caller m_user (world s) with
  | Some m =>
      '(result, m) ← kernel_call_dispatch caller (m <| m_source := p_endpoint p |>);
      kernel_call_finish caller m result
  | None => kernel_call_finish caller (stack_message (world s)) EBADREQUEST
  end.
Definition kernel_call_resume (caller : Z) : cmd unit :=
  p ← get_proc caller;
  assert_ (negb (RTS_ISSET p RTS_SLOT_FREE));;
  assert_ (negb (RTS_ISSET p RTS_VMREQUEST));;
  assert_ (m_source (p_reqmsg p) =? p_endpoint p);;
  '(result, m) ← kernel_call_dispatch caller (p_reqmsg p);
  set_proc caller (fun p => p <| p_reqmsg := m |>);;
  clear_misc caller MF_KCALL_RESUME;;
  kernel_call_finish caller m result.

(** ** A tick of the clock, [clock.c] *)
Definition load_slot (t hz : Z) : Z := u16 (u32 t / hz / _LOAD_UNIT_SECS mod _LOAD_HISTORY).
Definition load_update : cmd unit :=
  t ← get_uptime;
  s ← get;
  let li := load_info (world s) in
  (if 0 <? system_hz (world s) then mret tt else halt Undef);;
  let slot := load_slot t (system_hz (world s)) in
  (if negb (slot =? proc_last_slot li) then
     modify (fun s => s <| world :=
       set_load_info (mk_loadinfo (aupd slot (fun _ => 0) (proc_load_history li)) slot (last_clock li)) (world s) |>)
   else mret tt);;
  enqueued ← fold_ (seqZ 0 NR_SCHED_QUEUES) 0 (fun n q =>
    h ← get_head q;
    loop_ queue_fuel (fun '(p, n) =>
      match p with
      | None => mret (inr n)
      | Some x => xp ← get_proc x; mret (inl (p_nextready xp, n + 1))
      end) (h, n));
  s ← get;
  let li := load_info (world s) in
  deref (aget (proc_load_history li) slot);;
  modify (fun s => s <| world :=
    set_load_info (mk_loadinfo (aupd slot (fun n => u16 (n + enqueued)) (proc_load_history li)) (proc_last_slot li) t) (world s) |>).
Definition ap_timer_int_handler : cmd unit :=
  s ← get;
  let p := proc_ptr s in
  let billp := bill_ptr s in
  set_proc p (fun p => p <| p_user_time := p_user_time p + 1 |>);;
  pr ← get_priv p;
  (if negb (has (s_flags pr) BILLABLE) then set_proc billp (fun p => p <| p_sys_time := p_sys_time p + 1 |>) else mret tt);;
  q ← get_proc p;
  (if MF q MF_VIRT_TIMER then set_proc p (fun p => p <| p_virt_left := p_virt_left p - 1 |>) else mret tt);;
  (if MF q MF_PROF_TIMER then set_proc p (fun p => p <| p_prof_left := p_prof_left p - 1 |>) else mret tt);;
  b ← get_proc billp;
  (if negb (has (s_flags pr) BILLABLE) && MF b MF_PROF_TIMER
   then set_proc billp (fun p => p <| p_prof_left := p_prof_left p - 1 |>) else mret tt);;
  vtimer_check p;;
  (if negb (p =? billp) then vtimer_check billp else mret tt);;
  load_update.
End calls.
