(* ===== verification/KSysInv.v ===== *)
(** The invariant of the kernel calls: that of the run queues and of message passing, and what
    the calls rely on beyond it; the rules for the operations the calls are made of. *)
From S2P Require Import Prelude Minix KProc KIpc KSys.
Local Open Scope Z_scope.

(** What the calls rely on of endpoints and of the world. *)
Class KSysLaws `{MinixHeaders} `{KernelHeaders} `{KCallHeaders} (W : Type) `{KSysEnv W} : Prop := {
  self_none : SELF <> NONE;
  slot_bound e : - 2 ^ 31 <= _ENDPOINT_P e < 2 ^ 30;
  endpoint_slot g n : - NR_TASKS <= n < NR_PROCS -> _ENDPOINT_P (_ENDPOINT g n) = n;
  copy_range_done e a w : (copy_range e a w).1 <> VMSUSPEND;
  newmap_done c n a w : (newmap c n a w).1 <> VMSUSPEND;
  grant_table_fields a n pr : let pr' := _K_SET_GRANT_TABLE a n pr in
    s_id pr' = s_id pr /\ s_sig_mgr pr' = s_sig_mgr pr /\ s_notify_pending pr' = s_notify_pending pr /\
    s_ipc_to pr' = s_ipc_to pr /\ s_k_call_mask pr' = s_k_call_mask pr;
  call_chunk nr : 0 <= nr < NR_SYS_CALLS -> 0 <= MAP_CHUNK nr < SYS_CALL_MASK_SIZE;
  sys_chunk id : 0 <= id < NR_SYS_PROCS -> 0 <= MAP_CHUNK id < NR_SYS_CHUNKS;
  chunk_offset id : 0 <= id < NR_SYS_PROCS -> 0 <= CHUNK_OFFSET id < 32;
  chunk_inj a b : 0 <= a < NR_SYS_PROCS -> 0 <= b < NR_SYS_PROCS -> MAP_CHUNK a = MAP_CHUNK b -> CHUNK_OFFSET a = CHUNK_OFFSET b -> a = b;
  load_history w : length (proc_load_history (load_info w)) = Z.to_nat _LOAD_HISTORY;
  load_info_set l w : length (proc_load_history l) = Z.to_nat _LOAD_HISTORY -> load_info (set_load_info l w) = l;
  hz_pos w : 0 < system_hz w;
  load_slots : 0 < _LOAD_HISTORY <= 2 ^ 16;
  static_range : 0 <= NR_STATIC_PRIV_IDS;
  static_id i : is_static_priv_id i = true -> 0 <= i < NR_SYS_PROCS;
}.

Section invariant.
Context `{MinixLaws} `{KernelHeaders} `{!IpcLaws} `{KCallHeaders} {W : Type} `{KernelEnvLaws W} `{!KSysEnv W} `{!KSysLaws W}.
Implicit Types (s : state W) (Q : Z -> list Z) (C : Z -> list Z).
#[local] Hint Resolve get_proc_run set_proc_run set_misc_run clear_misc_run : run.

(** ** What is kept of a process and of privileges *)
(** Who receives and does not send can be given a message: it has none to be delivered. *)
Definition ready_for (p : proc) : Prop := receiving p = true -> sending p = false -> MF p MF_DELIVERMSG = false.
(** The process has privileges, whose signals somebody handles. *)
Definition privileged s (p : proc) : Prop := exists i pr, p_priv p = Some i /\ aget (privs s) i = Some pr /\ s_sig_mgr pr <> NONE.
Record kept_proc s' (p p' : proc) : Prop := {
  kp_ep : p_endpoint p' = p_endpoint p;
  kp_live : live p' <-> live p;
  kp_priv : p_priv p' = p_priv p \/ privileged s' p';
  kp_ready : ready_for p -> ready_for p';
  kp_sending : sending p' = true -> sending p = true /\ p_sendto_e p' = p_sendto_e p;
  kp_receiving : receiving p' = true -> receiving p = true /\ p_getfrom_e p' = p_getfrom_e p;
}.
Record kept_priv s (pr pr' : priv) : Prop := {
  kv_id : s_id pr' = s_id pr;
  kv_map : length (s_notify_pending pr') = length (s_notify_pending pr);
  kv_to : length (s_ipc_to pr') = length (s_ipc_to pr);
  kv_calls : length (s_k_call_mask pr') = length (s_k_call_mask pr);
  kv_mgr : s_sig_mgr pr' = s_sig_mgr pr \/ (s_sig_mgr pr' <> NONE /\ (s_sig_mgr pr' = SELF \/ live_ep s (s_sig_mgr pr')));
}.
Record kframe s s' : Prop := {
  kf_fwd m p : pget s m = Some p -> exists p', pget s' m = Some p' /\ kept_proc s' p p';
  kf_back m p' : pget s' m = Some p' -> exists p, pget s m = Some p;
  kf_privs i pr : aget (privs s) i = Some pr -> exists pr', aget (privs s') i = Some pr' /\ kept_priv s pr pr';
  kf_privs_back i pr' : aget (privs s') i = Some pr' -> exists pr, aget (privs s) i = Some pr;
  kf_number : length (privs s') = length (privs s);
  kf_cur : proc_ptr s' = proc_ptr s;
}.

Lemma kept_proc_refl s' p : kept_proc s' p p.
Proof. split; auto. Qed.
Lemma kept_priv_refl s pr : kept_priv s pr pr.
Proof. split; auto. Qed.
Lemma kframe_refl s : kframe s s.
Proof. split; eauto using kept_proc_refl, kept_priv_refl. Qed.
Lemma kept_mgr s pr pr' : kept_priv s pr pr' -> s_sig_mgr pr <> NONE -> s_sig_mgr pr' <> NONE.
Proof. intros [_ _ _ _ [->|[? _]]]; done. Qed.
Lemma kframe_privileged s s' p : kframe s s' -> privileged s p -> privileged s' p.
Proof.
  intros Hf (i & pr & Hi & Hpr & Hm). destruct (kf_privs _ _ Hf _ _ Hpr) as (pr' & Hpr' & Hk).
  exists i, pr'. split_and!; [done|done|by eapply kept_mgr].
Qed.
Lemma kept_proc_trans s2 s3 p1 p2 p3 : kframe s2 s3 -> kept_proc s2 p1 p2 -> kept_proc s3 p2 p3 -> kept_proc s3 p1 p3.
Proof.
  intros Hf [He1 Hl1 Hv1 Hr1 Hs1 Hg1] [He2 Hl2 Hv2 Hr2 Hs2 Hg2]. split; [congruence|tauto| |auto| |].
  - destruct Hv2 as [Hv2|?]; [|by right]. destruct Hv1 as [Hv1|Hv1]; [left; congruence|right].
    destruct (kframe_privileged _ _ _ Hf Hv1) as (i & pr & Hi & Hpr). exists i, pr. by rewrite Hv2.
  - intros [Ha Hb]%Hs2. destruct (Hs1 Ha). split; [done|congruence].
  - intros [Ha Hb]%Hg2. destruct (Hg1 Ha). split; [done|congruence].
Qed.
Lemma kframe_live s s' e : kframe s s' -> live_ep s e <-> live_ep s' e.
Proof.
  intros Hf. split.
  - intros (p & Hp & He & Hl). destruct (kf_fwd _ _ Hf _ _ Hp) as (p' & Hp' & []). exists p'. split_and!; [done|congruence|tauto].
  - intros (p' & Hp' & He & Hl). destruct (kf_back _ _ Hf _ _ Hp') as (p & Hp).
    destruct (kf_fwd _ _ Hf _ _ Hp) as (p1 & Hp1 & []). assert (p1 = p') as -> by congruence.
    exists p. split_and!; [done|congruence|tauto].
Qed.
Lemma kframe_trans s1 s2 s3 : kframe s1 s2 -> kframe s2 s3 -> kframe s1 s3.
Proof.
  intros Ha Hb. split.
  - intros m p Hp. destruct (kf_fwd _ _ Ha _ _ Hp) as (p2 & Hp2 & Hk1). destruct (kf_fwd _ _ Hb _ _ Hp2) as (p3 & Hp3 & Hk2).
    exists p3. split; [done|by eapply kept_proc_trans].
  - intros m p3 (p2 & Hp2)%(kf_back _ _ Hb). by apply (kf_back _ _ Ha _ _ Hp2).
  - intros i pr Hpr. destruct (kf_privs _ _ Ha _ _ Hpr) as (pr2 & Hpr2 & [Hi1 Hm1 Ht1 Hc1 Hg1]).
    destruct (kf_privs _ _ Hb _ _ Hpr2) as (pr3 & Hpr3 & [Hi2 Hm2 Ht2 Hc2 Hg2]). exists pr3. split; [done|].
    split; [congruence..|]. destruct Hg2 as [->|[Hne Hg2]]; [done|]. right. split; [done|].
    destruct Hg2 as [|Hl]; [by left|right]. by apply (kframe_live s1 s2).
  - intros i pr3 (pr2 & Hpr2)%(kf_privs_back _ _ Hb). by apply (kf_privs_back _ _ Ha _ _ Hpr2).
  - rewrite (kf_number _ _ Hb). apply Ha.
  - rewrite (kf_cur _ _ Hb). apply Ha.
Qed.

(** ** The invariant *)
(** The tables of privileges have the size of the headers, the maps of notifications have a bit
    for every structure, and the manager of a structure's signals is alive. *)
Record sane s : Prop := {
  sn_map i pr : aget (privs s) i = Some pr -> length (s_notify_pending pr) = Z.to_nat NR_SYS_CHUNKS;
  sn_to i pr : aget (privs s) i = Some pr -> length (s_ipc_to pr) = Z.to_nat NR_SYS_CHUNKS;
  sn_calls i pr : aget (privs s) i = Some pr -> length (s_k_call_mask pr) = Z.to_nat SYS_CALL_MASK_SIZE;
  sn_number : length (privs s) = Z.to_nat NR_SYS_PROCS;
  sn_id i pr : aget (privs s) i = Some pr -> s_id pr = i;
  sn_mgr i pr : aget (privs s) i = Some pr -> s_sig_mgr pr = SELF \/ s_sig_mgr pr = NONE \/ live_ep s (s_sig_mgr pr);
  sn_managed n p i pr : 0 <= n -> pget s n = Some p -> live p -> p_priv p = Some i -> aget (privs s) i = Some pr ->
    s_sig_mgr pr <> NONE;
  sn_ready n p : pget s n = Some p -> ready_for p;
  sn_task t : t = SYSTEM \/ t = CLOCK -> exists p, pget s t = Some p /\ live p;
  sn_user : exists pr, aget (privs s) USER_PRIV_ID = Some pr /\ s_sig_mgr pr <> NONE;
}.
Lemma sane_range s i pr : sane s -> aget (privs s) i = Some pr -> 0 <= s_id pr < NR_SYS_PROCS.
Proof.
  intros Hs Hpr. rewrite (sn_id _ Hs _ _ Hpr). pose proof (aget_range _ _ _ Hpr) as Hr. rewrite (sn_number _ Hs) in Hr.
  pose proof NR_SYS_PROCS_pos. lia.
Qed.
Definition good s : Prop := (exists Q C, ipc s Q C) /\ sane s.

Lemma sane_frame s s' : kframe s s' -> sane s -> sane s'.
Proof.
  intros Hf [Hmap Hto Hcalls Hnum Hid Hmgr Hmd Hrdy Htask (u & Hu & Hum)]. split.
  - intros i pr' Hpr'. destruct (kf_privs_back _ _ Hf _ _ Hpr') as (pr & Hpr). destruct (kf_privs _ _ Hf _ _ Hpr) as (x & Hx & []).
    assert (x = pr') as -> by congruence. rewrite kv_map0. eauto.
  - intros i pr' Hpr'. destruct (kf_privs_back _ _ Hf _ _ Hpr') as (pr & Hpr). destruct (kf_privs _ _ Hf _ _ Hpr) as (x & Hx & []).
    assert (x = pr') as -> by congruence. rewrite kv_to0. eauto.
  - intros i pr' Hpr'. destruct (kf_privs_back _ _ Hf _ _ Hpr') as (pr & Hpr). destruct (kf_privs _ _ Hf _ _ Hpr) as (x & Hx & []).
    assert (x = pr') as -> by congruence. rewrite kv_calls0. eauto.
  - rewrite (kf_number _ _ Hf). done.
  - intros i pr' Hpr'. destruct (kf_privs_back _ _ Hf _ _ Hpr') as (pr & Hpr). destruct (kf_privs _ _ Hf _ _ Hpr) as (x & Hx & []).
    assert (x = pr') as -> by congruence. rewrite kv_id0. eauto.
  - intros i pr' Hpr'. destruct (kf_privs_back _ _ Hf _ _ Hpr') as (pr & Hpr). destruct (kf_privs _ _ Hf _ _ Hpr) as (x & Hx & []).
    assert (x = pr') as -> by congruence. rewrite <-(kframe_live s s') by done.
    destruct kv_mgr0 as [->|[_ [?|?]]]; [eauto|by left|by right; right].
  - intros n p' i pr' Hn Hp' Hl Hi Hpr'. destruct (kf_back _ _ Hf _ _ Hp') as (p & Hp). destruct (kf_fwd _ _ Hf _ _ Hp) as (x & Hx & []).
    assert (x = p') as -> by congruence. destruct kp_priv0 as [Hv|(k & y & Hk & Hy & Hm)]; [|congruence].
    destruct (kf_privs_back _ _ Hf _ _ Hpr') as (pr & Hpr). destruct (kf_privs _ _ Hf _ _ Hpr) as (x & Hx' & Hkv).
    assert (x = pr') as -> by congruence. apply (kept_mgr _ _ _ Hkv).
    eapply (Hmd n p i pr); [done|done|tauto|congruence|done].
  - intros n p' Hp'. destruct (kf_back _ _ Hf _ _ Hp') as (p & Hp). destruct (kf_fwd _ _ Hf _ _ Hp) as (x & Hx & Hk).
    assert (x = p') as -> by congruence. apply (kp_ready _ _ _ Hk). eauto.
  - intros t Ht. destruct (Htask t Ht) as (p & Hp & Hl). destruct (kf_fwd _ _ Hf _ _ Hp) as (p' & Hp' & Hk).
    exists p'. split; [done|]. by apply (kp_live _ _ _ Hk).
  - destruct (kf_privs _ _ Hf _ _ Hu) as (u' & Hu' & Hk). exists u'. split; [done|by eapply kept_mgr].
Qed.

(** A step that keeps the frame. *)
Definition stays s s' : Prop := good s' /\ kframe s s'.
Lemma stays_refl s : good s -> stays s s.
Proof. split; [done|apply kframe_refl]. Qed.
Lemma stays_trans s1 s2 s3 : stays s1 s2 -> stays s2 s3 -> stays s1 s3.
Proof. intros [_ Ha] [Hg Hb]. split; [done|by eapply kframe_trans]. Qed.
Lemma stays_intro s s' Q C : good s -> ipc s' Q C -> kframe s s' -> stays s s'.
Proof.
  intros [_ Hs] Hi Hf. split; [|done]. split; [by exists Q, C|]. by eapply sane_frame.
Qed.

Lemma good_live s n p : good s -> pget s n = Some p -> live p -> live_ep s (p_endpoint p) /\ _ENDPOINT_P (p_endpoint p) = n.
Proof. intros [(Q & C & Hi) _] Hp Hl. split; [by eapply live_pget|by apply (c_ep _ _ (proj2 Hi) n p)]. Qed.
Lemma good_priv s n p : good s -> pget s n = Some p -> live p ->
  exists i pr, p_priv p = Some i /\ aget (privs s) i = Some pr /\ get_priv n s = Ret pr s.
Proof.
  intros [(Q & C & Hi) _] Hp Hl. destruct (r_priv _ _ (proj1 Hi) n p Hp Hl) as (i & pr & Hpi & Hpr).
  exists i, pr. split_and!; [done|done|by eapply get_priv_run].
Qed.
Lemma good_slot s n : good s -> - NR_TASKS <= n < NR_PROCS -> exists p, pget s n = Some p.
Proof.
  intros [(Q & C & Hi) _] Hn. apply aget_is_Some. rewrite (q_length _ _ (r_queues _ _ (proj1 Hi))). unfold proc_addr. lia.
Qed.
Lemma good_free s n p : good s -> pget s n = Some p -> live p -> RTS_ISSET p RTS_SLOT_FREE = false.
Proof. intros [(Q & C & Hi) _] Hp Hl. by apply (c_free _ _ (proj2 Hi) n). Qed.

(** ** Updates *)
Lemma kframe_pset s n f p : pget s n = Some p -> kept_proc (pset n f s) p (f p) -> kframe s (pset n f s).
Proof.
  intros Hp Hk. split.
  - intros m q Hq. rewrite pget_pset. case_decide as Hm; [|by exists q; split; [|apply kept_proc_refl]].
    subst m. assert (q = p) as -> by congruence. rewrite Hp. by exists (f p).
  - intros m q Hq. destruct (pget_cases _ _ _ _ _ Hq) as (q0 & Hq0 & _). by exists q0.
  - intros i pr Hpr. exists pr. split; [done|apply kept_priv_refl].
  - intros i pr Hpr. by exists pr.
  - done.
  - done.
Qed.
Lemma kept_quiet s' f p : quiet f -> p_endpoint (f p) = p_endpoint p -> p_priv (f p) = p_priv p ->
  (MF (f p) MF_DELIVERMSG = true -> MF p MF_DELIVERMSG = true) -> kept_proc s' p (f p).
Proof.
  intros Hy He Hv Hm. destruct (y_keeps _ Hy p) as [Hk Hr]. split; [done|apply Hk|by left| |by rewrite (k_sending _ _ Hk), (k_sendto _ _ Hk)|exact Hr].
  unfold ready_for. rewrite (k_sending _ _ Hk). intros Hp Hrf Hs. destruct (Hr Hrf) as [Hrp _].
  apply not_true_is_false. intros Ht%Hm. by rewrite Hp in Ht.
Qed.
Lemma stays_quiet s n f p : good s -> pget s n = Some p -> quiet f -> p_endpoint (f p) = p_endpoint p -> p_priv (f p) = p_priv p ->
  (MF (f p) MF_DELIVERMSG = true -> MF p MF_DELIVERMSG = true) -> stays s (pset n f s).
Proof.
  intros Hg Hp Hy He Hv Hm. destruct Hg as [(Q & C & Hi) Hs] eqn:Hge. eapply stays_intro; [done|by eapply ipc_quiet|].
  eapply kframe_pset; [done|by apply kept_quiet].
Qed.
Lemma stays_prset s i f : good s -> (forall pr, aget (privs s) i = Some pr -> kept_priv s pr (f pr)) -> stays s (prset i f s).
Proof.
  intros [(Q & C & Hi) Hs] Hf. eapply stays_intro; [by split; [exists Q, C|]|by apply ipc_prset|].
  split; [intros m p Hp; exists p; split; [done|apply kept_proc_refl]|intros m p Hp; by exists p| | |apply length_aupd|done].
  - intros j pr Hpr. change (privs (prset i f s)) with (aupd i f (privs s)). rewrite aget_aupd. case_decide as Hj.
    + subst j. rewrite Hpr. exists (f pr). split; [done|by apply Hf].
    + exists pr. split; [done|apply kept_priv_refl].
  - intros j pr. change (privs (prset i f s)) with (aupd i f (privs s)). rewrite aget_aupd. case_decide as Hj; [|by eauto].
    subst j. destruct (aget (privs s) i) as [x|]; [by eauto|done].
Qed.
(** ** Replacing a slot whose process does not run *)
Lemma rq_replace s Q n p f : rq s Q -> pget s n = Some p -> p_rts_flags p <> 0 -> p_rts_flags (f p) <> 0 ->
  p_magic (f p) = PMAGIC -> - 2 ^ 15 <= p_rts_flags (f p) < 2 ^ 15 ->
  (exists i pr, p_priv (f p) = Some i /\ aget (privs s) i = Some pr) -> rq (pset n f s) Q.
Proof.
  intros Hrq Hp Hz Hz' Hm Hr Hv. pose proof Hrq as [[Hlen Hhead Htail Hnd Hdis] Hmem Hprio Hmag Hfl Hpv Hcur].
  assert (forall q m, queue_nr q -> m ∈ Q q -> m <> n) as Hno.
  { intros q m Hq Hin ->. apply (Hmem q n Hq) in Hin as (x & Hx & Hxz & _). congruence. }
  split.
  - split; [by simpl; rewrite length_aupd| |done..]. intros q Hq. destruct (Hhead q Hq) as (h & Hh & Hl). exists h. split; [done|].
    eapply linked_ext; [|exact Hl]. intros m Hin. symmetry. apply nxt_pset. right. by eapply Hno.
  - intros q m Hq. rewrite (Hmem q m Hq), pget_pset. case_decide as Hd; [|done]. subst m. rewrite Hp. simpl.
    split; intros (x & [= <-] & ? & _); congruence.
  - intros m x Hx Hxz. destruct (pget_cases _ _ _ _ _ Hx) as (y & Hy & [[-> ->]|[_ ->]]); [|by eapply Hprio].
    assert (y = p) as -> by congruence. done.
  - intros m x Hx. destruct (pget_cases _ _ _ _ _ Hx) as (y & Hy & [[-> ->]|[_ ->]]); [|by eapply Hmag].
    by assert (y = p) as -> by congruence.
  - intros m x Hx. destruct (pget_cases _ _ _ _ _ Hx) as (y & Hy & [[-> ->]|[_ ->]]); [|by eapply Hfl].
    by assert (y = p) as -> by congruence.
  - intros m x Hx Hxl. destruct (pget_cases _ _ _ _ _ Hx) as (y & Hy & [[-> ->]|[_ ->]]); [|by eapply Hpv].
    by assert (y = p) as -> by congruence.
  - destruct Hcur as (c & i & pr & Hc & Hi & Hpr). change (proc_ptr (pset n f s)) with (proc_ptr s). rewrite pget_pset.
    case_decide as Hd; [|by exists c, i, pr]. rewrite Hd, Hp. destruct Hv as (j & x & Hj & Hx). by exists (f p), j, x.
Qed.
Lemma stays_pset s n p f : good s -> pget s n = Some p -> p_rts_flags p <> 0 -> p_rts_flags (f p) <> 0 ->
  p_magic (f p) = p_magic p -> - 2 ^ 15 <= p_rts_flags (f p) < 2 ^ 15 ->
  (exists i pr, p_priv (f p) = Some i /\ aget (privs s) i = Some pr) ->
  keeps_ipc f p -> ready_for (f p) -> p_priv (f p) = p_priv p \/ privileged s (f p) -> stays s (pset n f s).
Proof.
  intros Hg Hp Hz Hz' Hm Hr Hv Hk Hrd Hpv. pose proof Hg as [(Q & C & Hrq & Hi) Hs].
  eapply (stays_intro s _ Q C); [done| |].
  - split; [|by apply (ipcs_pset s n f p)]. apply (rq_replace s Q n p); try done. rewrite Hm. by apply (r_magic _ _ Hrq n).
  - apply (kframe_pset s n f p); [done|]. split; [apply Hk|apply Hk|done|done|by rewrite (k_sending _ _ Hk), (k_sendto _ _ Hk)|apply Hk].
Qed.

Definition with_world (w : W) s : state W := s <| world := w |>.
Lemma ipc_world s Q C w : ipc s Q C -> ipc (with_world w s) Q C.
Proof. intros [[[] ? ? ? ? ? ?] []]. split; [split; [by split|done..]|by split]. Qed.
Lemma stays_world s w : good s -> stays s (with_world w s).
Proof.
  intros [(Q & C & Hi) Hs]. eapply stays_intro; [by split; [exists Q, C|]|by apply ipc_world|].
  split; [intros m p Hp; exists p; split; [done|apply kept_proc_refl]|intros m p Hp; by exists p|
    intros i pr Hpr; exists pr; split; [done|apply kept_priv_refl]|intros i pr Hpr; by exists pr|done|done].
Qed.

(** ** Flags *)
Lemma kept_agrees s' p q q' f : Z.testbit f 2 = false -> agrees q q' -> (live q' <-> live q) -> q = clear_flags f p \/ q = p -> (live q <-> live p) -> kept_proc s' p q'.
Proof.
  intros Hf2 Hag Hl Hq Hlq. destruct (agrees_fields _ _ Hag) as (He & Hto & Hfrom & _ & Hm & _ & Hs & Hr).
  destruct (agrees_more _ _ Hag) as (_ & Hv & _).
  assert (p_endpoint q = p_endpoint p /\ p_priv q = p_priv p /\ p_misc_flags q = p_misc_flags p /\ sending q = sending p /\
          (receiving q = true -> receiving p = true) /\ p_sendto_e q = p_sendto_e p /\ p_getfrom_e q = p_getfrom_e p) as (He' & Hv' & Hm' & Hs' & Hr' & Hto' & Hfrom').
  { destruct Hq as [-> | ->]; [|done]. split_and!; try done.
    - rewrite !sending_bit. cbn. by rewrite has_clear, Hf2, andb_true_r by lia.
    - rewrite !receiving_bit. cbn. rewrite has_clear by lia. by intros [? _]%andb_true_iff. }
  split; [congruence|tauto|left; congruence| |rewrite Hs, Hs', Hto, Hto'; auto|rewrite Hr, Hfrom, Hfrom'; auto].
  unfold ready_for, MF. rewrite Hm, Hm', Hs, Hs', Hr. auto.
Qed.
Lemma clear_live f p : RTS_ISSET p RTS_SLOT_FREE = false -> live (clear_flags f p).
Proof.
  rewrite free_bit. intros Hf Heq. assert (has (p_rts_flags (clear_flags f p)) (2 ^ 0) = false) as Hb.
  { cbn. by rewrite has_clear, Hf. }
  by rewrite Heq in Hb.
Qed.
Lemma stays_UNSET s n p f : good s -> pget s n = Some p -> live p -> Z.testbit f 0 = false -> Z.testbit f 2 = false ->
  exists s', RTS_UNSET n f s = Ret tt s' /\ stays s s' /\
    privs s' = privs s /\
    forall m q, pget s m = Some q -> exists q', pget s' m = Some q' /\ agrees (if decide (m = n) then clear_flags f q else q) q'.
Proof.
  intros Hg Hp Hl Hf0 Hf2. destruct Hg as [(Q & C & Hi) Hs] eqn:Hge.
  destruct (RTS_UNSET_full s Q C n p f Hi Hp Hl Hf0 Hf2) as (s' & Q' & Hrun & Hi' & Hcp & _ & Hpv & Hfwd & Hback).
  exists s'. split; [done|]. split.
  - eapply stays_intro; [done|exact Hi'|]. split; [|done| | |by rewrite Hpv|done].
    + intros m q Hq. destruct (Hfwd _ _ Hq) as (q' & Hq' & Hag & Hlv). exists q'. split; [done|].
      eapply (kept_agrees _ q _ q' f); [done|exact Hag|done|case_decide; auto|].
      case_decide; [|done]. subst m. assert (q = p) as -> by congruence. split; [done|]. intros _.
      apply clear_live. by apply (good_free s n).
    + intros i pr Hpr. exists pr. rewrite Hpv. split; [done|apply kept_priv_refl].
    + intros i pr. rewrite Hpv. eauto.
  - split; [done|]. intros m q Hq. destruct (Hfwd _ _ Hq) as (q' & Hq' & Hag & _). by exists q'.
Qed.
Lemma stays_SET s n p f : good s -> pget s n = Some p -> live p -> waits f ->
  Z.testbit f 0 = false -> Z.testbit f 2 = false -> Z.testbit f 3 = false ->
  exists s', RTS_SET n f s = Ret tt s' /\ stays s s' /\ privs s' = privs s /\
    exists p', pget s' n = Some p' /\ strip p' = strip (set_flags f p).
Proof.
  intros Hg Hp Hl Hw Hf0 Hf2 Hf3. destruct Hg as [(Q & C & Hi) Hs] eqn:Hge.
  destruct (RTS_SET_run s Q n p f) as (s' & Hrun & Hsame & Hrq); [apply Hi|done..|].
  pose proof (keeps_set_flags f p Hl Hf0 Hf2 Hf3 Hw) as Hk.
  assert (ipc s' (without n Q) C) as Hi'.
  { split; [done|]. eapply ipcs_same; [done|]. apply (ipcs_pset s n _ p); [apply Hi|done|done]. }
  exists s'. split; [done|]. split.
  - eapply stays_intro; [done|exact Hi'|]. split.
    + intros m q Hq. assert (pget (pset n (set_flags f) s) m = Some (if decide (m = n) then set_flags f q else q)) as Hq1.
      { rewrite pget_pset. case_decide; [|done]. subst m. by rewrite Hq. }
      destruct (same_pget _ _ _ _ Hsame Hq1) as (q' & Hq' & Hst). exists q'. split; [done|].
      destruct (strip_fields _ _ Hst) as (Hfl & _ & _ & Hv & Hm & He & _).
      destruct (strip_fields _ _ Hst) as (_ & _ & _ & _ & _ & _ & Hgf & Hto).
      assert (receiving q' = receiving q /\ sending q' = sending q /\ (live q' <-> live q)) as (Hr & Hsd & Hlv).
      { unfold receiving, sending, live. rewrite Hfl. case_decide; [|done]. subst m. assert (q = p) as -> by congruence.
        destruct Hk as [[]]. split_and!; [|done|done]. clear - Hf3. change (receiving (set_flags f p) = receiving p).
        rewrite !receiving_bit. cbn. by rewrite has_set, Hf3, orb_false_r by lia. }
      split; [|done|left| | |].
      * rewrite He. by case_decide.
      * rewrite Hv. by case_decide.
      * unfold ready_for, MF. rewrite Hm, Hr, Hsd. by case_decide.
      * rewrite Hsd, Hto. by case_decide.
      * rewrite Hr, Hgf. by case_decide.
    + intros m q' Hq'. destruct (same_pget_inv _ _ _ _ Hsame Hq') as (q & Hq & _).
      destruct (pget_cases _ _ _ _ _ Hq) as (q0 & Hq0 & _). by exists q0.
    + intros i pr Hpr. exists pr. rewrite (same_privs _ _ Hsame). split; [done|apply kept_priv_refl].
    + intros i pr. rewrite (same_privs _ _ Hsame). eauto.
    + by rewrite (same_privs _ _ Hsame).
    + apply (same_proc_ptr _ _ Hsame).
  - split; [apply (same_privs _ _ Hsame)|].
    destruct (same_pget _ _ _ _ Hsame (pget_set_flags s n p f Hp)) as (p' & Hp' & Hst). by exists p'.
Qed.

(** ** Notifications and signals *)
Lemma will_receive p e : WILLRECEIVE p e = true -> receiving p = true /\ sending p = false.
Proof.
  unfold WILLRECEIVE. intros [[Hr Hs%negb_true_iff]%andb_true_iff _]%andb_true_iff.
  by rewrite receiving_bit, sending_bit, <-!(isset_has p) by lia.
Qed.
Lemma stays_notify s caller c e : good s -> pget s caller = Some c -> live c -> live_ep s e ->
  exists s', mini_notify caller e s = Ret OK s' /\ stays s s'.
Proof.
  intros Hg Hc Hlc (d & Hd & He & Hld).
  destruct (good_priv s _ d Hg Hd Hld) as (i & pr & Hi & Hpr & _). destruct (good_priv s _ c Hg Hc Hlc) as (k & cpr & Hk & Hcpr & _).
  destruct Hg as [(Q & C & Hipc) Hs] eqn:Hge.
  destruct (WILLRECEIVE d (p_endpoint c) && negb (MF d MF_REPLY_PEND)) eqn:Hdir.
  - destruct (mini_notify_deliver_run s Q C caller c e d i pr) as (s' & Q' & Hrun & Hi' & Hcp & _ & Hpv & Hfwd & Hback); try done.
    { apply andb_true_iff in Hdir as [Hw _]. destruct (will_receive _ _ Hw). by apply (sn_ready _ Hs _ d Hd). }
    exists s'. split; [done|]. eapply stays_intro; [done|done|]. split; [|done| | |by rewrite Hpv, length_aupd|done].
    + intros m q Hq. destruct (Hfwd _ _ Hq) as (q' & Hq' & Hag & Hlv). exists q'. split; [done|]. case_decide as Hm.
      * subst m. assert (q = d) as -> by congruence. pose proof (y_keeps _ (quiet_notified s c pr) d) as [Hkq _].
        destruct (agrees_fields _ _ Hag) as (Hep & Hto & _ & _ & _ & _ & Hsd & Hr). destruct (agrees_more _ _ Hag) as (_ & Hv & _).
        split.
        -- rewrite Hep. apply Hkq.
        -- rewrite Hlv. split; [done|]. intros _. apply clear_live. rewrite (k_free _ _ Hkq). by apply (good_free s (_ENDPOINT_P e) d).
        -- left. rewrite Hv. change (p_priv (notified s c pr d) = p_priv d). apply (n_priv _ (y_neutral _ (quiet_notified s c pr))).
        -- intros _. unfold ready_for. by rewrite Hr, cleared_receiving.
        -- rewrite Hsd, cleared_sending, (k_sending _ _ Hkq), Hto. intros Hsn. split; [done|]. apply Hkq.
        -- by rewrite Hr, cleared_receiving.
      * by apply (kept_agrees s' q q q' 0); auto.
    + intros j x Hx. rewrite Hpv, aget_aupd. case_decide as Hj; [|exists x; split; [done|apply kept_priv_refl]].
      subst j. rewrite Hx. exists (drained (p_nr c) x). split; [done|]. unfold drained. repeat case_match; split; auto.
    + intros j x. rewrite Hpv, aget_aupd. case_decide as Hj; [|eauto]. subst j. destruct (aget (privs s) i); [eauto|done].
  - pose proof (sys_chunk _ (sane_range _ _ _ Hs Hcpr)) as Hid. destruct (aget_is_Some (s_notify_pending pr) (MAP_CHUNK (s_id cpr))) as [ch Hch].
    { rewrite (sn_map _ Hs _ _ Hpr). lia. }
    exists (prset i (mark (s_id cpr)) s). split; [by eapply mini_notify_mark_run|].
    apply stays_prset; [done|]. intros x _. split; [done|apply length_aupd|done|done|by left].
Qed.

Lemma stays_set_priv s n p f : good s -> pget s n = Some p -> live p ->
  (forall pr, kept_priv s pr (f pr)) ->
  exists i, p_priv p = Some i /\ set_priv n f s = Ret tt (prset i f s) /\ stays s (prset i f s).
Proof.
  intros Hg Hp Hl Hf. destruct (good_priv s n p Hg Hp Hl) as (i & pr & Hi & Hpr & _). exists i. split; [done|].
  split; [by eapply set_priv_run|]. by apply stays_prset.
Qed.
Lemma stays_send_sig s e sig : good s -> live_ep s e -> exists s', send_sig e sig s = Ret tt s' /\ stays s s'.
Proof.
  intros Hg He. pose proof He as (d & Hd & Hde & Hld). pose proof Hg as [(Q & C & Hi) Hs].
  unfold send_sig. rewrite (bind_ret _ _ _ _ _ (isokendpt_run _ _ _ _ Hi He)). cbn [negb]. run_step. run_step.
  unfold isemptyp. rewrite (proj2 (Z.eqb_neq _ _) Hld). run_step.
  destruct (stays_set_priv s _ d (fun pr => pr <| s_sig_pending := sigaddset (s_sig_pending pr) sig |>) Hg Hd Hld)
    as (i & _ & Hrun & Hst); [by split; auto|]. rewrite (bind_ret _ _ _ _ _ Hrun).
  destruct (sn_task _ (proj2 (proj1 Hst)) SYSTEM) as (c & Hc & Hlc); [by left|].
  destruct (stays_notify _ SYSTEM c e (proj1 Hst) Hc Hlc) as (s' & Hn & Hst'); [by apply (kframe_live _ _ _ (proj2 Hst))|].
  exists s'. split; [|by eapply stays_trans]. rewrite Hde. by rewrite (bind_ret _ _ _ _ _ Hn).
Qed.

(** A lethal signal for a process that handles its own signals needs another one that takes over. *)
Definition can_signal s (p : proc) (pr : priv) (sig : Z) : Prop :=
  SIGS_IS_LETHAL sig = true -> s_sig_mgr pr = SELF \/ s_sig_mgr pr = p_endpoint p ->
  live_ep s (s_bak_sig_mgr pr) /\ s_bak_sig_mgr pr <> p_endpoint p /\ s_bak_sig_mgr pr <> SELF.
Definition signal_ok s (n sig : Z) : Prop := forall p i pr,
  pget s n = Some p -> p_priv p = Some i -> aget (privs s) i = Some pr -> can_signal s p pr sig.

Lemma cause_sig_once s n p i pr sig fuel :
  good s -> 0 <= n -> pget s n = Some p -> live p -> p_priv p = Some i -> aget (privs s) i = Some pr ->
  SIGS_IS_LETHAL sig = false \/ (s_sig_mgr pr <> SELF /\ s_sig_mgr pr <> p_endpoint p) ->
  exists s', cause_sig_ (S fuel) n sig s = Ret tt s' /\ stays s s'.
Proof.
  intros Hg Hn Hp Hl Hi Hpr Hm. pose proof Hg as [_ Hs]. cbn [cause_sig_]. run_step.
  rewrite (bind_ret _ _ _ _ _ (get_priv_run _ _ _ _ _ Hp Hi Hpr)).
  set (mgr := if s_sig_mgr pr =? SELF then p_endpoint p else s_sig_mgr pr).
  destruct (Z.eqb_spec (p_endpoint p) mgr) as [He|He].
  - assert (SIGS_IS_LETHAL sig = false) as ->.
    { destruct Hm as [|[Hm1 Hm2]]; [done|]. exfalso. unfold mgr in He. rewrite (proj2 (Z.eqb_neq _ _) Hm1) in He. congruence. }
    destruct (stays_set_priv s n p (fun pr => pr <| s_sig_pending := sigaddset (s_sig_pending pr) sig |>) Hg Hp Hl)
      as (i' & _ & Hrun & Hst); [by split; auto|]. rewrite (bind_ret _ _ _ _ _ Hrun).
    destruct (stays_send_sig _ (p_endpoint p) SIGKSIGSM (proj1 Hst)) as (s' & Hr & Hst').
    { apply (kframe_live _ _ _ (proj2 Hst)). by apply (good_live s n p). }
    exists s'. split; [done|by eapply stays_trans].
  - assert (live_ep s mgr) as Hmgr.
    { unfold mgr in *. destruct (Z.eqb_spec (s_sig_mgr pr) SELF) as [|Hself]; [done|].
      destruct (sn_mgr _ Hs _ _ Hpr) as [?|[Hn0|?]]; [done| |done]. by destruct (sn_managed _ Hs n p i pr). }
    destruct (sigismember (p_pending p) sig).
    { exists s. split; [done|by apply stays_refl]. }
    run_step. set (f := fun p : proc => p <| p_pending := sigaddset (p_pending p) sig |>).
    pose proof (stays_quiet s n f p Hg Hp ltac:(quiet_tac) eq_refl eq_refl (fun H => H)) as Hst1.
    pose proof (pget_pset_some s n f p Hp) as Hp1. run_step. change (RTS_ISSET (f p) RTS_SIGNALED) with (RTS_ISSET p RTS_SIGNALED).
    destruct (RTS_ISSET p RTS_SIGNALED); [by exists (pset n f s)|].
    destruct (stays_SET (pset n f s) n (f p) (Z.lor RTS_SIGNALED RTS_SIG_PENDING)) as (s2 & Hrun & Hst2 & _); try done; [apply Hst1|by exists 4|].
    rewrite (bind_ret _ _ _ _ _ Hrun). pose proof (stays_trans _ _ _ Hst1 Hst2) as Hst.
    destruct (stays_send_sig s2 mgr SIGKSIG (proj1 Hst)) as (s' & Hr & Hst'); [by apply (kframe_live _ _ _ (proj2 Hst))|].
    exists s'. split; [done|by eapply stays_trans].
Qed.
Lemma stays_cause_sig s n p sig : good s -> 0 <= n -> pget s n = Some p -> live p -> signal_ok s n sig ->
  exists s', cause_sig n sig s = Ret tt s' /\ stays s s'.
Proof.
  intros Hg Hn Hp Hl Hok. destruct (good_priv s n p Hg Hp Hl) as (i & pr & Hi & Hpr & Hgp). unfold cause_sig.
  specialize (Hok p i pr Hp Hi Hpr).
  destruct (decide (SIGS_IS_LETHAL sig = true /\ (s_sig_mgr pr = SELF \/ s_sig_mgr pr = p_endpoint p))) as [[Hleth Hself]|Hno].
  2:{ eapply cause_sig_once; [done..|]. destruct (SIGS_IS_LETHAL sig) eqn:E; [|by left]. right. split; intros ?; apply Hno; auto. }
  destruct (Hok Hleth Hself) as (Hbak & Hne & Hns). pose proof Hbak as (b & Hb & Hbe & Hlb). pose proof Hg as [(Q & C & Hipc) Hs].
  remember 1%nat as fuel eqn:Hfuel. cbn [cause_sig_]. run_step. rewrite (bind_ret _ _ _ _ _ Hgp).
  replace (p_endpoint p =? (if s_sig_mgr pr =? SELF then p_endpoint p else s_sig_mgr pr)) with true
    by (destruct (Z.eqb_spec (s_sig_mgr pr) SELF), Hself; lia).
  rewrite Hleth. destruct (live_ep_slot s Q C (s_bak_sig_mgr pr) Hipc Hbak) as [_ Hnone].
  rewrite (proj2 (Z.eqb_neq _ _) Hnone). rewrite (bind_ret _ _ _ _ _ (isokendpt_run _ _ _ _ Hipc Hbak)). cbv iota.
  set (f1 := fun pr0 : priv => pr0 <| s_sig_mgr := s_bak_sig_mgr pr |>). set (f2 := fun pr0 : priv => pr0 <| s_bak_sig_mgr := NONE |>).
  rewrite (bind_ret _ _ _ _ _ (set_priv_run _ _ _ _ _ f1 Hp Hi Hpr)).
  assert (stays s (prset i f1 s)) as Hst1 by (apply stays_prset; [done|]; intros x _; split; [done..|right; split; [done|by right]]).
  assert (aget (privs (prset i f1 s)) i = Some (f1 pr)) as Hpr1.
  { change (aget (aupd i f1 (privs s)) i = Some (f1 pr)). by rewrite aget_aupd_eq, Hpr. }
  rewrite (bind_ret _ _ _ _ _ (set_priv_run (prset i f1 s) n p i _ f2 Hp Hi Hpr1)).
  assert (stays (prset i f1 s) (prset i f2 (prset i f1 s))) as Hst2 by (apply stays_prset; [apply Hst1|]; intros x _; split; auto).
  set (s2 := prset i f2 (prset i f1 s)) in *.
  assert (aget (privs s2) i = Some (f2 (f1 pr))) as Hpr2.
  { change (aget (aupd i f2 (privs (prset i f1 s))) i = Some (f2 (f1 pr))). by rewrite aget_aupd_eq, Hpr1. }
  destruct (stays_UNSET s2 _ b RTS_NO_PRIV (proj1 Hst2) Hb Hlb eq_refl eq_refl) as (s3 & Hrun & Hst3 & Hpv & Hpriv).
  rewrite (bind_ret _ _ _ _ _ Hrun).
  destruct (kf_fwd _ _ (proj2 Hst3) n p Hp) as (p3 & Hp3 & Hk3).
  destruct (cause_sig_once s3 n p3 i (f2 (f1 pr)) sig 0) as (s4 & Hr & Hst4).
  { apply Hst3. } { done. } { done. } { by apply (kp_live _ _ _ Hk3). } { destruct (Hpriv n p Hp) as (x & Hx & Hag). destruct (agrees_more _ _ Hag) as (_ & Hv & _).
    assert (x = p3) as -> by congruence. rewrite Hv. by case_decide. } { by rewrite Hpv. }
  { right. rewrite (kp_ep _ _ _ Hk3). done. }
  exists s4. split; [by subst fuel|]. eapply stays_trans; [exact Hst1|]. eapply stays_trans; [exact Hst2|]. by eapply stays_trans.
Qed.
End invariant.
