(* ===== verification/KSysCalls.v ===== *)
(** The kernel calls keep the invariant: the calls that signal, stop, schedule and time processes. *)
From S2P Require Import Prelude Minix KProc KIpc KSys KSysInv.
Local Open Scope Z_scope.

Section rules.
Context `{MinixLaws} `{KernelHeaders} `{!IpcLaws} `{KCallHeaders} {W : Type} `{KernelEnvLaws W} `{!KSysEnv W} `{!KSysLaws W}.
Implicit Types (s : state W).
#[local] Hint Resolve get_proc_run set_proc_run set_misc_run clear_misc_run : run.

Lemma wp_endpt s e Q : good s ->
  (forall p, pget s (_ENDPOINT_P e) = Some p -> p_endpoint p = e -> live p -> Q (true, _ENDPOINT_P e) s) ->
  Q (false, _ENDPOINT_P e) s -> wp (isokendpt e) Q never s.
Proof.
  intros Hg Hyes Hno. unfold isokendpt, isokprocn. pose proof (slot_bound e) as Hb. pose proof NR_TASKS_nonneg. pose proof NR_TASKS_bound. pose proof NR_PROCS_bound.
  destruct (Z.ltb_spec (u32 (_ENDPOINT_P e + NR_TASKS)) (NR_PROCS + NR_TASKS)) as [Hlt|Hge]; cbn [negb]; [|by apply wp_ret].
  assert (- NR_TASKS <= _ENDPOINT_P e < NR_PROCS) as Hr.
  { unfold u32 in Hlt. destruct (Z.leb_spec 0 (_ENDPOINT_P e + NR_TASKS)).
    - rewrite Z.mod_small in Hlt by lia. lia.
    - rewrite <-(Z_mod_plus_full _ 1), Z.mod_small in Hlt by lia. lia. }
  destruct (good_slot s _ Hg Hr) as [p Hp]. eapply wp_bind_run; [by apply get_proc_run|].
  unfold isemptyp. destruct (Z.eqb_spec (p_rts_flags p) RTS_SLOT_FREE) as [Hf|Hl]; [by apply wp_ret|].
  destruct (Z.eqb_spec (p_endpoint p) e) as [He|He]; cbn [negb]; apply wp_ret; [by eapply Hyes|done].
Qed.

Lemma wp_sys_env {A} (f : W -> A * W) Q s :
  good s -> (forall a w, (a, w) = f (world s) -> stays s (with_world w s) -> Q a (with_world w s)) -> wp (env f) Q never s.
Proof.
  intros Hg HQ. unfold env. apply wp_bind, wp_get. destruct (f (world s)) as [a w] eqn:E.
  apply wp_bind, wp_modify, wp_ret. apply HQ; [done|by apply stays_world].
Qed.
Lemma wp_cause_sig s n p sig Q : good s -> 0 <= n -> pget s n = Some p -> live p -> signal_ok s n sig ->
  (forall s', stays s s' -> Q tt s') -> wp (cause_sig n sig) Q never s.
Proof. intros Hg Hn Hp Hl Hok HQ. destruct (stays_cause_sig s n p sig Hg Hn Hp Hl Hok) as (s' & Hr & Hs). eapply wp_ret_run; eauto. Qed.
Lemma wp_UNSET s n p f Q : good s -> pget s n = Some p -> live p -> Z.testbit f 0 = false -> Z.testbit f 2 = false ->
  (forall s', stays s s' -> Q tt s') -> wp (RTS_UNSET n f) Q never s.
Proof. intros Hg Hp Hl Hf0 Hf2 HQ. destruct (stays_UNSET s n p f Hg Hp Hl Hf0 Hf2) as (s' & Hr & Hs & _). eapply wp_ret_run; eauto. Qed.
Lemma wp_SET s n p f Q : good s -> pget s n = Some p -> live p -> waits f ->
  Z.testbit f 0 = false -> Z.testbit f 2 = false -> Z.testbit f 3 = false ->
  (forall s', stays s s' -> Q tt s') -> wp (RTS_SET n f) Q never s.
Proof. intros Hg Hp Hl Hw Hf0 Hf2 Hf3 HQ. destruct (stays_SET s n p f Hg Hp Hl Hw Hf0 Hf2 Hf3) as (s' & Hr & Hs & _). eapply wp_ret_run; eauto. Qed.
Lemma wp_quiet s n p f Q : good s -> pget s n = Some p -> quiet f -> p_endpoint (f p) = p_endpoint p -> p_priv (f p) = p_priv p ->
  (MF (f p) MF_DELIVERMSG = true -> MF p MF_DELIVERMSG = true) ->
  (stays s (pset n f s) -> Q tt (pset n f s)) -> wp (set_proc n f) Q never s.
Proof. intros Hg Hp Hy He Hv Hm HQ. eapply wp_ret_run; [by eapply set_proc_run|]. apply HQ. by eapply stays_quiet. Qed.
Lemma misc_on_deliver f p : Z.testbit f 6 = false -> MF (misc_on f p) MF_DELIVERMSG = true -> MF p MF_DELIVERMSG = true.
Proof. intros Hf. unfold MF. change MF_DELIVERMSG with (2 ^ 6). cbn. by rewrite has_set, Hf, orb_false_r by lia. Qed.
Lemma misc_off_deliver f p : MF (misc_off f p) MF_DELIVERMSG = true -> MF p MF_DELIVERMSG = true.
Proof. unfold MF. change MF_DELIVERMSG with (2 ^ 6). cbn. rewrite has_clear by lia. by intros [? _]%andb_true_iff. Qed.
Lemma wp_misc_on s n p f Q : good s -> pget s n = Some p -> Z.testbit f 6 = false ->
  (stays s (pset n (misc_on f) s) -> Q tt (pset n (misc_on f) s)) -> wp (set_misc n f) Q never s.
Proof. intros Hg Hp Hf HQ. eapply (wp_quiet s n p (misc_on f)); try done. by apply misc_on_deliver. Qed.
Lemma wp_misc_off s n p f Q : good s -> pget s n = Some p ->
  (stays s (pset n (misc_off f) s) -> Q tt (pset n (misc_off f) s)) -> wp (clear_misc n f) Q never s.
Proof. intros Hg Hp HQ. eapply (wp_quiet s n p (misc_off f)); try done. apply misc_off_deliver. Qed.

Lemma stays_pget s s' n p : stays s s' -> pget s n = Some p -> exists p', pget s' n = Some p' /\ kept_proc s' p p'.
Proof. intros [_ Hf]. apply (kf_fwd _ _ Hf). Qed.
Lemma stays_live s s' n p : stays s s' -> pget s n = Some p -> live p -> exists p', pget s' n = Some p' /\ live p'.
Proof. intros Hs Hp Hl. destruct (stays_pget _ _ _ _ Hs Hp) as (p' & Hp' & Hk). exists p'. split; [done|]. by apply (kp_live _ _ _ Hk). Qed.

(** ** What a handler promises *)
(** The call ends with the invariant and does not suspend its caller. *)
Definition served (r : rc * message) (s' : state W) : Prop := good s' /\ r.1 <> VMSUSPEND.
Lemma served_ret s (r : rc) (m : message) : good s -> r <> VMSUSPEND -> wp (mret (r, m)) served never s.
Proof. intros Hg Hr. by apply wp_ret. Qed.
Lemma served_stays s0 s (r : rc) (m : message) : stays s0 s -> r <> VMSUSPEND -> wp (mret (r, m)) served never s.
Proof. intros [Hg _]. by apply served_ret. Qed.
End rules.
#[export] Hint Resolve served_ret served_stays : core.
#[export] Hint Extern 1 (_ <> VMSUSPEND) => discriminate : core.

Section calls.
Context `{MinixLaws} `{KernelHeaders} `{!IpcLaws} `{KCallHeaders} {W : Type} `{KernelEnvLaws W} `{!KSysEnv W} `{!KSysLaws W}.
Implicit Types (s : state W).
#[local] Hint Resolve get_proc_run set_proc_run set_misc_run clear_misc_run : run.

Lemma do_kill_good s caller m : good s -> (forall n, n = _ENDPOINT_P (SIG_ENDPT m) -> signal_ok s n (SIG_NUMBER m)) ->
  wp (do_kill caller m) served never s.
Proof.
  intros Hg Hok. unfold do_kill. apply wp_bind, wp_endpt; [done| |by eauto]. intros p Hp _ Hl. cbn [negb].
  destruct (_NSIG <=? SIG_NUMBER m); [by eauto|]. unfold iskerneln. destruct (Z.ltb_spec (_ENDPOINT_P (SIG_ENDPT m)) 0); [by eauto|].
  apply wp_bind. eapply wp_cause_sig; [done|done|done|done|by apply Hok|]. intros s' Hs. by eauto.
Qed.
Lemma do_exit_good s caller c m : good s -> 0 <= caller -> pget s caller = Some c -> live c -> signal_ok s caller SIGABRT ->
  wp (do_exit caller m) served never s.
Proof.
  intros Hg Hn Hc Hl Hok. unfold do_exit. eapply wp_bind_run; [by apply get_proc_run|]. cbn beta.
  assert (p_nr c = caller) as ->. { destruct Hg as [(Q & C & Hi) _]. by apply (c_nr _ _ (proj2 Hi)). }
  apply wp_bind. eapply wp_cause_sig; [done..|]. intros s' Hs. by eauto.
Qed.
Lemma do_endksig_good s caller c m : good s -> pget s caller = Some c -> wp (do_endksig caller m) served never s.
Proof.
  intros Hg Hc. unfold do_endksig. apply wp_bind, wp_endpt; [done| |by eauto]. intros p Hp _ Hl. cbn [negb].
  eapply wp_bind_run; [by apply get_proc_run|]. destruct (good_priv s _ p Hg Hp Hl) as (i & pr & _ & _ & Hgp).
  eapply wp_bind_run; [exact Hgp|]. cbn beta. destruct (negb (p_endpoint c =? s_sig_mgr pr)); [by eauto|].
  eapply wp_bind_run; [by apply get_proc_run|]. cbn beta. destruct (negb (RTS_ISSET p RTS_SIG_PENDING)); [by eauto|].
  apply wp_bind. destruct (negb (RTS_ISSET p RTS_SIGNALED)); [|apply wp_ret; by eauto].
  eapply wp_UNSET; [done..|]. intros s' Hs. by eauto.
Qed.
Lemma do_getksig_good s caller c m : good s -> pget s caller = Some c -> wp (do_getksig caller m) served never s.
Proof.
  intros Hg Hc. unfold do_getksig. apply wp_bind. apply (wp_for _ _ (fun _ s' => s' = s)); [done| |].
  - intros pre n post s' Hseq ->. assert (- NR_TASKS <= n < NR_PROCS) as Hn.
    { assert (n ∈ seqZ 0 NR_PROCS) as Hin%elem_of_seqZ by (rewrite Hseq; apply elem_of_app; right; by left).
      pose proof NR_TASKS_nonneg. lia. }
    destruct (good_slot s n Hg Hn) as [p Hp]. eapply wp_bind_run; [by apply get_proc_run|]. cbn beta.
    destruct (RTS_ISSET p RTS_SIGNALED) eqn:Hsig; cbn [negb]; [|by apply wp_ret].
    assert (live p) as Hl by (intros Hf; unfold RTS_ISSET in Hsig; by rewrite Hf in Hsig).
    eapply wp_bind_run; [by apply get_proc_run|]. destruct (good_priv s _ p Hg Hp Hl) as (i & pr & _ & _ & Hgp).
    eapply wp_bind_run; [exact Hgp|]. cbn beta. destruct (p_endpoint c =? s_sig_mgr pr); cbn [negb]; [|by apply wp_ret].
    apply wp_bind. eapply wp_quiet; [done|done|quiet_tac|done..|]. intros Hst.
    apply wp_bind. eapply wp_UNSET; [apply Hst|by apply pget_pset_some|done|done|done|]. intros s1 Hst1.
    apply wp_ret. by apply (served_stays _ _ _ _ Hst1).
  - intros s' ->. by apply served_ret.
Qed.
Lemma do_runctl_good s caller m : good s -> wp (do_runctl caller m) served never s.
Proof.
  intros Hg. unfold do_runctl. apply wp_bind, wp_endpt; [done| |by eauto]. intros p Hp _ Hl. cbn [negb].
  set (rp := _ENDPOINT_P (RC_ENDPT m)) in *. destruct (iskerneln rp); [by eauto|].
  apply wp_bind. eapply (wp_mono _ (fun _ s1 => stays s s1) _ never); [| |done].
  - destruct (_ && _); [|apply wp_ret; by apply stays_refl]. eapply wp_bind_run; [by apply get_proc_run|]. apply wp_bind.
    destruct (_ || _).
    + eapply wp_misc_on; [done|done|done|]. intros Hst. destruct (stays_pget _ _ _ _ Hst Hp) as (p1 & Hp1 & _).
      eapply wp_bind_run; [by apply get_proc_run|]. by apply wp_ret.
    + apply wp_ret. eapply wp_bind_run; [by apply get_proc_run|]. apply wp_ret. by apply stays_refl.
  - intros busy s1 Hst. destruct (stays_live _ _ _ _ Hst Hp Hl) as (p1 & Hp1 & Hl1).
    destruct busy; [by eauto|]. destruct (RC_ACTION m =? RC_STOP); [|destruct (RC_ACTION m =? RC_RESUME); [|by eauto]]; apply wp_bind.
    + eapply wp_SET; [apply Hst|done|done|by exists 1|done..|]. intros s2 Hst2. by eauto.
    + eapply wp_UNSET; [apply Hst|done|done|done|done|]. intros s2 Hst2. by eauto.
Qed.
(** ** Scheduling *)
Lemma good_ready s n p : good s -> pget s n = Some p -> ready_for p.
Proof. intros [_ Hs]. apply (sn_ready _ Hs). Qed.
Lemma good_flags s n p : good s -> pget s n = Some p -> - 2 ^ 15 <= p_rts_flags p < 2 ^ 15.
Proof. intros [(Q & C & Hrq & _) _]. by apply (r_flags _ _ Hrq n). Qed.
Lemma sched_proc_good s n p priority quantum : good s -> pget s n = Some p -> live p -> u32 priority <> NR_SCHED_QUEUES ->
  wp (sched_proc n priority quantum) (fun r s' => stays s s' /\ r <> VMSUSPEND) never s.
Proof.
  intros Hg Hp Hl Hne. unfold sched_proc. pose proof (u32_range priority) as Hpr. set (pr := u32 priority) in *.
  destruct (Z.ltb_spec pr TASK_Q); [unfold TASK_Q in *; lia|]. destruct (Z.ltb_spec NR_SCHED_QUEUES pr); cbn [orb].
  { apply wp_ret. split; [by apply stays_refl|done]. }
  destruct (Z.leb_spec (u32 quantum) 0); [apply wp_ret; split; [by apply stays_refl|done]|].
  eapply wp_bind_run; [by apply get_proc_run|]. cbn beta. apply wp_bind.
  eapply (wp_mono _ (fun _ s1 => stays s s1 /\ exists p1, pget s1 n = Some p1 /\ live p1 /\ p_rts_flags p1 <> 0) _ never); [| |done].
  - unfold proc_is_runnable, rts_f_is_runnable. destruct (Z.eqb_spec (p_rts_flags p) 0) as [Hz|Hz].
    + destruct (stays_SET s n p RTS_NO_QUANTUM Hg Hp Hl) as (s1 & Hrun & Hst & _ & p1 & Hp1 & Hsp); [by exists 15|done..|].
      eapply wp_ret_run; [exact Hrun|]. split; [done|]. exists p1. split; [done|].
      destruct (strip_fields _ _ Hsp) as [Hfl _]. unfold live. rewrite Hfl. cbn. rewrite Hz. done.
    + apply wp_ret. split; [by apply stays_refl|]. by exists p.
  - intros _ s1 (Hst & p1 & Hp1 & Hl1 & Hz1). pose proof (proj1 Hst) as Hg1.
    eapply wp_bind_run; [by eapply set_proc_run|]. set (f := fun p : proc => _).
    assert (stays s1 (pset n f s1)) as Hst1.
    { apply (stays_pset s1 n p1 f); try done.
      - by apply (good_flags s1 n p1).
      - destruct (good_priv s1 n p1 Hg1 Hp1 Hl1) as (i & x & Hi & Hx & _). by exists i, x.
      - split; [split; try done|done]. intros _. change (queue_nr pr). split; [done|]. lia.
      - by apply (good_ready s1 n p1).
      - by left. }
    destruct (stays_UNSET (pset n f s1) n (f p1) RTS_NO_QUANTUM (proj1 Hst1)) as (s2 & Hrun & Hst2 & _); [by apply pget_pset_some|done..|].
    eapply wp_bind_run; [exact Hrun|]. apply wp_ret. split; [|done]. eapply stays_trans; [done|]. by eapply stays_trans.
Qed.
Lemma do_schedule_good s caller m : good s -> u32 (SCHEDULING_PRIORITY m) <> NR_SCHED_QUEUES ->
  wp (do_schedule caller m) served never s.
Proof.
  intros Hg Hne. unfold do_schedule. apply wp_bind, wp_endpt; [done| |by eauto]. intros p Hp _ Hl. cbn [negb].
  eapply wp_bind_run; [by apply get_proc_run|]. cbn beta. destruct (negb _); [by eauto|]. apply wp_bind.
  eapply wp_mono; [by eapply sched_proc_good| |done]. intros r s' [Hs Hr]. by eapply served_stays.
Qed.
Lemma do_schedctl_good s caller m : good s -> u32 (SCHEDCTL_PRIORITY m) <> NR_SCHED_QUEUES ->
  wp (do_schedctl caller m) served never s.
Proof.
  intros Hg Hne. unfold do_schedctl. destruct (negb _); [by eauto|].
  apply wp_bind, wp_endpt; [done| |by eauto]. intros p Hp _ Hl. cbn [negb].
  destruct (_ =? _); apply wp_bind.
  - eapply wp_mono; [by eapply sched_proc_good| |done]. intros r s' [Hs Hr]. destruct (negb (is_ok r)); [by eauto|].
    destruct (stays_pget _ _ _ _ Hs Hp) as (p' & Hp' & _). apply wp_bind. eapply wp_quiet; [apply Hs|done|quiet_tac|done..|]. by eauto.
  - eapply wp_quiet; [done|done|quiet_tac|done..|]. by eauto.
Qed.
End calls.
