(* ===== verification/KSysTime.v ===== *)
(** The kernel calls keep the invariant: the calls of state, grants, times and tracing, and
    the tick of the clock. *)
From S2P Require Import Prelude Minix KProc KIpc KSys KSysInv KSysCalls.
Local Open Scope Z_scope.

Section calls.
Context `{MinixLaws} `{KernelHeaders} `{!IpcLaws} `{KCallHeaders} {W : Type} `{KernelEnvLaws W} `{!KSysEnv W} `{!KSysLaws W}.
Implicit Types (s : state W).
#[local] Hint Resolve get_proc_run set_proc_run set_misc_run clear_misc_run : run.

(** ** Without effect on processes *)
Lemma do_setgrant_good s caller c m : good s -> pget s caller = Some c -> live c -> wp (do_setgrant caller m) served never s.
Proof.
  intros Hg Hc Hl. unfold do_setgrant. eapply wp_bind_run; [by apply get_proc_run|]. cbn beta. destruct (_ || _); [by eauto|].
  destruct (stays_set_priv s caller c (_K_SET_GRANT_TABLE (SG_ADDR m) (SG_SIZE m)) Hg Hc Hl) as (i & _ & Hrun & Hst).
  { intros pr. destruct (grant_table_fields (SG_ADDR m) (SG_SIZE m) pr) as (Hid & Hm & Hn & Ht & Hk).
    split; [done|by rewrite Hn|by rewrite Ht|by rewrite Hk|by left]. }
  eapply wp_bind_run; [exact Hrun|]. by eauto.
Qed.
Lemma self_or_run s caller c e : pget s caller = Some c -> exists e', self_or caller e s = Ret e' s.
Proof.
  intros Hc. unfold self_or. destruct (e =? SELF); [|by exists e].
  rewrite (bind_ret _ _ _ _ _ (get_proc_run _ _ _ Hc)). by eexists.
Qed.
Lemma do_times_good s caller c m : good s -> pget s caller = Some c -> wp (do_times caller m) served never s.
Proof.
  intros Hg Hc. unfold do_times. destruct (self_or_run s caller c (T_ENDPT m) Hc) as (e & Hrun).
  eapply wp_bind_run; [exact Hrun|]. apply wp_bind. eapply (wp_mono _ (fun _ s' => s' = s) _ never); [| |done].
  - destruct (e =? NONE); [by apply wp_ret|]. apply wp_bind, wp_endpt; [done| |by apply wp_ret].
    intros p Hp _ _. cbn [negb]. eapply wp_bind_run; [by apply get_proc_run|]. by apply wp_ret.
  - intros m' s' ->. eapply wp_bind_run; [reflexivity|]. apply wp_bind, wp_get. by eauto.
Qed.
(** The time of an alarm, when it is relative, is within the range of a [clock_t]. *)
Definition alarm_fits s (m : message) : Prop :=
  ALRM_ABS_TIME m = 0 -> - 2 ^ 31 <= ALRM_EXP_TIME m + realtime s < 2 ^ 31.
Lemma do_setalarm_good s caller c m : good s -> pget s caller = Some c -> live c -> alarm_fits s m ->
  wp (do_setalarm caller m) served never s.
Proof.
  intros Hg Hc Hl Hfit. unfold do_setalarm. destruct (good_priv s caller c Hg Hc Hl) as (i & pr & Hi & _ & Hgp).
  eapply wp_bind_run; [exact Hgp|]. cbn beta. destruct (negb _); [by eauto|]. eapply wp_bind_run; [by apply get_proc_run|].
  apply wp_bind. eapply wp_deref; [exact Hi|]. eapply wp_bind_run; [reflexivity|]. apply wp_bind, wp_get. cbn beta zeta.
  apply wp_bind. destruct (ALRM_EXP_TIME m =? 0); [apply wp_sys_env; by eauto|].
  apply wp_bind. eapply (wp_mono _ (fun _ s' => s' = s) _ never); [| |done].
  - destruct (Z.eqb_spec (ALRM_ABS_TIME m) 0) as [Ha|Ha]; cbn [negb]; [|by apply wp_ret].
    eapply wp_bind_run; [reflexivity|]. specialize (Hfit Ha).
    unfold clock_sum. rewrite (proj2 (Z.leb_le _ _)), (proj2 (Z.ltb_lt _ _)) by lia. by apply wp_ret.
  - intros t s' ->. apply wp_sys_env; by eauto.
Qed.

(** ** Timers *)
Definition timer_left (virt : bool) (v : Z) (p : proc) : proc := if virt then p <| p_virt_left := v |> else p <| p_prof_left := v |>.
Lemma wp_timer_left s n p virt v Q : good s -> pget s n = Some p ->
  (stays s (pset n (timer_left virt v) s) -> Q tt (pset n (timer_left virt v) s)) -> wp (set_proc n (timer_left virt v)) Q never s.
Proof. intros Hg Hp HQ. eapply wp_quiet; [done|done|unfold timer_left; destruct virt; quiet_tac|by destruct virt..|done]. Qed.
Lemma do_vtimer_good s caller c m : good s -> pget s caller = Some c -> live c -> wp (do_vtimer caller m) served never s.
Proof.
  intros Hg Hc Hl. unfold do_vtimer. destruct (good_priv s caller c Hg Hc Hl) as (i & pr & _ & _ & Hgp).
  eapply wp_bind_run; [exact Hgp|]. cbn beta. destruct (negb _); [by eauto|]. destruct (_ && _); [by eauto|].
  destruct (self_or_run s caller c (VT_ENDPT m) Hc) as (e & Hrun). eapply wp_bind_run; [exact Hrun|].
  apply wp_bind, wp_endpt; [done| |by eauto]. intros p Hp _ _. cbn [negb]. set (rp := _ENDPOINT_P e).
  set (virt := VT_WHICH m =? VT_VIRTUAL). eapply wp_bind_run; [by apply get_proc_run|]. cbn beta zeta.
  change (fun p0 : proc => if virt then p0 <| p_virt_left := VT_VALUE m |> else p0 <| p_prof_left := VT_VALUE m |>)
    with (timer_left virt (VT_VALUE m)).
  change (fun p0 : proc => if virt then p0 <| p_virt_left := 0 |> else p0 <| p_prof_left := 0 |>) with (timer_left virt 0).
  apply wp_bind. destruct (negb (VT_SET m =? 0)); [|apply wp_ret; by eauto].
  apply wp_bind. eapply wp_misc_off; [done|done|]. intros Hs1. destruct (stays_pget _ _ _ _ Hs1 Hp) as (p1 & Hp1 & _).
  destruct (0 <? VT_VALUE m).
  - apply wp_bind. eapply wp_timer_left; [apply Hs1|done|]. intros Hs2. destruct (stays_pget _ _ _ _ Hs2 Hp1) as (p2 & Hp2 & _).
    eapply wp_misc_on; [apply Hs2|done|by destruct virt|]. intros Hs3. by eauto.
  - eapply wp_timer_left; [apply Hs1|done|]. intros Hs2. by eauto.
Qed.
(** ** Tracing and execution *)
(** The requests of [do_trace] that change the state of the process, not its memory. *)
Definition trace_control (req : Z) : bool :=
  (req =? T_STOP) || (req =? T_DETACH) || (req =? T_RESUME) || (req =? T_STEP) || (req =? T_SYSCALL).
Context `{!KOtherCalls (W := W)}.
Lemma do_trace_good s caller m : good s -> trace_control (CTL_REQUEST m) = true -> wp (do_trace caller m) served never s.
Proof.
  intros Hg Hreq. unfold do_trace. apply wp_bind, wp_endpt; [done| |by eauto]. intros p Hp _ Hl. cbn [negb].
  destruct (iskerneln _); [by eauto|]. eapply wp_bind_run; [by apply get_proc_run|]. cbn beta. destruct (isemptyp p); [by eauto|].
  unfold trace_control in Hreq. set (rp := _ENDPOINT_P (CTL_ENDPT m)) in *.
  destruct (_ =? T_STOP).
  { apply wp_bind. eapply wp_SET; [done|done|done|by exists 6|done..|]. intros s1 Hs1.
    destruct (stays_pget _ _ _ _ Hs1 Hp) as (p1 & Hp1 & _). apply wp_bind. eapply wp_quiet; [apply Hs1|done|quiet_tac|done..|].
    intros Hs2. destruct (stays_pget _ _ _ _ Hs2 Hp1) as (p2 & Hp2 & _). apply wp_bind. eapply wp_misc_off; [apply Hs2|done|]. by eauto. }
  assert (forall s0 m', stays s s0 -> wp (RTS_UNSET rp RTS_P_STOP;; mret (OK, m')) served never s0) as Hresume.
  { intros s0 m' Hs0. destruct (stays_live _ _ _ _ Hs0 Hp Hl) as (p0 & Hp0 & Hl0). apply wp_bind.
    eapply wp_UNSET; [apply Hs0|done|done|done|done|]. by eauto. }
  pose proof (stays_refl s Hg) as Hs0. unfold trace_resume.
  destruct (_ =? T_DETACH); cbn [orb].
  { apply wp_bind. eapply wp_misc_off; [done|done|]. intros Hs1. by apply Hresume. }
  destruct (_ =? T_RESUME); [by apply wp_bind, wp_ret, Hresume|].
  destruct (_ =? T_STEP).
  { apply wp_bind. eapply wp_quiet; [done|done|quiet_tac|done..|]. intros Hs1. by apply Hresume. }
  destruct (_ =? T_SYSCALL); [|done]. apply wp_bind. eapply wp_misc_on; [done|done|done|]. intros Hs1. by apply Hresume.
Qed.
Lemma do_exec_good s caller m : good s -> wp (do_exec caller m) served never s.
Proof.
  intros Hg. unfold do_exec. apply wp_bind, wp_endpt; [done| |by eauto]. intros p Hp _ Hl. cbn [negb].
  set (rp := _ENDPOINT_P (PR_ENDPT m)) in *. apply wp_bind. eapply wp_misc_off; [done|done|]. intros Hs1.
  apply wp_bind, wp_sys_env; [apply Hs1|]. intros [] w2 _ Hs2. pose proof (stays_trans _ _ _ Hs1 Hs2) as Hs12.
  destruct (stays_live _ _ _ _ Hs12 Hp Hl) as (p2 & Hp2 & Hl2). apply wp_bind.
  eapply wp_UNSET; [apply Hs2|done|done|done|done|]. intros s3 Hs3. destruct (stays_pget _ _ _ _ Hs3 Hp2) as (p3 & Hp3 & _).
  apply wp_bind. eapply wp_misc_off; [apply Hs3|done|]. intros Hs4. apply wp_bind, wp_sys_env; [apply Hs4|]. by eauto.
Qed.
End calls.

(** ** The tick of the clock *)
Class ClockLaws `{KernelHeaders} `{KCallHeaders} : Prop := {
  vtalrm_mild : SIGS_IS_LETHAL SIGVTALRM = false;
  prof_mild : SIGS_IS_LETHAL SIGPROF = false;
}.
Section clock.
Context `{MinixLaws} `{KernelHeaders} `{!IpcLaws} `{KCallHeaders} {W : Type} `{KernelEnvLaws W} `{!KSysEnv W} `{!KSysLaws W} `{!ClockLaws}.
Implicit Types (s : state W).
#[local] Hint Resolve get_proc_run set_proc_run set_misc_run clear_misc_run : run.

(** Only user processes have timers: the others have nobody who takes their signals. *)
Definition timed (n : Z) (p : proc) : Prop := 0 <= n \/ (MF p MF_VIRT_TIMER = false /\ MF p MF_PROF_TIMER = false).
Lemma wp_timer s n p flag left sig (Q : unit -> state W -> Prop) :
  good s -> pget s n = Some p -> live p -> 0 <= n \/ MF p flag = false -> SIGS_IS_LETHAL sig = false ->
  quiet left -> (forall p, p_endpoint (left p) = p_endpoint p /\ p_priv (left p) = p_priv p /\ MF (left p) MF_DELIVERMSG = MF p MF_DELIVERMSG) ->
  (forall s', stays s s' -> Q tt s') -> forall c,
  wp (if MF p flag && c then clear_misc n flag;; set_proc n left;; cause_sig (p_nr p) sig else mret tt) Q never s.
Proof.
  intros Hg Hp Hl Hn Hsig Hq Hleft HQ c. destruct (MF p flag) eqn:Hf; cbn [andb]; [|apply wp_ret, HQ; by apply stays_refl].
  destruct Hn as [Hn|]; [|done]. destruct c; [|apply wp_ret, HQ; by apply stays_refl].
  assert (p_nr p = n) as -> by (destruct Hg as [(Q0 & C & Hi) _]; by apply (c_nr _ _ (proj2 Hi))).
  apply wp_bind. eapply wp_misc_off; [done|done|]. intros Hs1. destruct (stays_live _ _ _ _ Hs1 Hp Hl) as (p1 & Hp1 & Hl1).
  apply wp_bind. eapply wp_quiet; [apply Hs1|done|done|apply Hleft|apply Hleft|by rewrite (proj2 (proj2 (Hleft _)))|].
  intros Hs2. destruct (stays_live _ _ _ _ Hs2 Hp1 Hl1) as (p2 & Hp2 & Hl2).
  eapply wp_cause_sig; [apply Hs2|done|done|done| |].
  - intros q i pr _ _ _ Hleth. congruence.
  - intros s3 Hs3. apply HQ. eapply stays_trans; [done|]. by eapply stays_trans.
Qed.
Lemma vtimer_check_good s n p : good s -> pget s n = Some p -> live p -> timed n p ->
  wp (vtimer_check n) (fun _ s' => stays s s') never s.
Proof.
  intros Hg Hp Hl Ht. unfold vtimer_check. eapply wp_bind_run; [by apply get_proc_run|]. cbn beta. apply wp_bind.
  destruct (decide (0 <= n)) as [Hn|Hn].
  - apply wp_timer; [done|done|done|by left|apply vtalrm_mild|quiet_tac|done|].
    intros s1 Hs1. destruct (stays_live _ _ _ _ Hs1 Hp Hl) as (p1 & Hp1 & Hl1).
    eapply wp_bind_run; [by apply get_proc_run|]. cbn beta.
    apply wp_timer; [apply Hs1|done|done|by left|apply prof_mild|quiet_tac|done|]. intros s2 Hs2. by eapply stays_trans.
  - destruct Ht as [|[Hv Hpf]]; [done|]. rewrite Hv. cbn [andb]. apply wp_ret.
    eapply wp_bind_run; [by apply get_proc_run|]. cbn beta. rewrite Hpf. cbn [andb]. apply wp_ret. by apply stays_refl.
Qed.

(** *** The load *)
(** The processes that are ready, all queues together. *)
Definition ready_count (Q : Z -> list Z) (l : list Z) : Z := sumZ (fun q => Z.of_nat (length (Q q))) l.
Lemma count_queue_run s (l : list Z) : forall h k fuel, linked (nxt s) h l -> (length l < fuel)%nat ->
  loop_ fuel (fun '(p, n) =>
    match p with
    | None => mret (inr n)
    | Some x => xp ← get_proc x; mret (inl (p_nextready xp, n + 1))
    end) (h, k) s = Ret (k + Z.of_nat (length l)) s.
Proof.
  induction l as [|x l IH]; intros h k [|fuel] Hl Hf; try (simpl in Hf; lia).
  - cbn in Hl. subst h. rewrite (loop_end _ _ _ k _ s); [|done]. f_equal. simpl. lia.
  - destruct Hl as (-> & v & Hv & Hl). unfold nxt in Hv. destruct (pget s x) as [p|] eqn:Hp; [|done]. injection Hv as Hv.
    rewrite (loop_next _ _ _ (p_nextready p, k + 1) _ s).
    + rewrite Hv, IH; [|done|simpl in Hf; lia]. f_equal. simpl. lia.
    + by rewrite (bind_ret _ _ _ _ _ (get_proc_run _ _ _ Hp)).
Qed.
Lemma ready_count_run s Q : rq s Q ->
  fold_ (seqZ 0 NR_SCHED_QUEUES) 0 (fun n q =>
    h ← get_head q;
    loop_ queue_fuel (fun '(p, n) =>
      match p with
      | None => mret (inr n)
      | Some x => xp ← get_proc x; mret (inl (p_nextready xp, n + 1))
      end) (h, n)) s = Ret (ready_count Q (seqZ 0 NR_SCHED_QUEUES)) s.
Proof.
  intros Hrq. eassert (wp _ (fun n s' => n = ready_count Q (seqZ 0 NR_SCHED_QUEUES) /\ s' = s) never s) as Hwp;
    [|by apply wp_never_run in Hwp as (n & s' & Hrun & -> & ->)].
  apply (wp_fold _ _ _ (fun pre n s' => n = ready_count Q pre /\ s' = s)); [done| |done].
  intros pre q post n s' Hseq [-> ->].
  assert (queue_nr q) as Hq.
  { assert (q ∈ seqZ 0 NR_SCHED_QUEUES) as Hin%elem_of_seqZ by (rewrite Hseq; apply elem_of_app; right; by left). split; lia. }
  destruct (q_head _ _ (r_queues _ _ Hrq) q Hq) as (h & Hh & Hl).
  eapply wp_bind_run; [by apply get_head_run|]. eapply wp_ret_run.
  - apply count_queue_run; [exact Hl|]. pose proof (queue_length _ _ q (r_queues _ _ Hrq) Hq). unfold queue_fuel. lia.
  - split; [|done]. unfold ready_count. rewrite sumZ_app, sumZ_cons. change (sumZ _ []) with 0. lia.
Qed.
(** The sample of [n] ready processes at time [t]: the slot of the time is begun when it is
    not the last one. *)
Definition sampled (t hz n : Z) (li : loadinfo) : loadinfo :=
  let slot := load_slot t hz in
  let history := if slot =? proc_last_slot li then proc_load_history li else aupd slot (fun _ => 0) (proc_load_history li) in
  mk_loadinfo (aupd slot (fun k => u16 (k + n)) history) slot t.
Lemma load_slot_range t hz : 0 <= load_slot t hz < _LOAD_HISTORY.
Proof.
  unfold load_slot. pose proof (load_slots (W := W)) as Hl. assert (0 < _LOAD_HISTORY) as Hpos by lia. pose proof (Z.mod_pos_bound (u32 t / hz / _LOAD_UNIT_SECS) _LOAD_HISTORY Hpos).
  rewrite u16_small; lia.
Qed.
Lemma load_update_run s Q : rq s Q -> exists w,
  load_update s = Ret tt (with_world w s) /\
  load_info w = sampled (realtime s) (system_hz (world s)) (ready_count Q (seqZ 0 NR_SCHED_QUEUES)) (load_info (world s)).
Proof.
  intros Hrq. unfold load_update. rewrite (bind_ret _ _ (realtime s) s s) by done. rewrite (bind_ret _ _ _ _ _ (get_run _)). cbv zeta.
  rewrite (proj2 (Z.ltb_lt _ _) (hz_pos (world s))). rewrite (bind_ret _ _ _ _ _ (mret_run _ _)).
  set (li := load_info (world s)). set (slot := load_slot (realtime s) (system_hz (world s))).
  pose proof (load_slot_range (realtime s) (system_hz (world s))) as Hslot. fold slot in Hslot.
  set (w1 := if slot =? proc_last_slot li then world s
             else set_load_info (mk_loadinfo (aupd slot (fun _ => 0) (proc_load_history li)) slot (last_clock li)) (world s)).
  assert ((if negb (slot =? proc_last_slot li) then
     modify (fun s => s <| world :=
       set_load_info (mk_loadinfo (aupd slot (fun _ => 0) (proc_load_history li)) slot (last_clock li)) (world s) |>)
   else mret tt) s = Ret tt (with_world w1 s)) as Hrun by (unfold w1; destruct (slot =? proc_last_slot li); [by destruct s|done]).
  rewrite (bind_ret _ _ _ _ _ Hrun). assert (rq (with_world w1 s) Q) as Hrq1 by (destruct Hrq as [[] ? ? ? ? ? ?]; by split; [split|..]).
  rewrite (bind_ret _ _ _ _ _ (ready_count_run _ _ Hrq1)). rewrite (bind_ret _ _ _ _ _ (get_run _)). cbv zeta.
  change (world (with_world w1 s)) with w1.
  pose proof (load_history w1) as Hlen. destruct (aget_is_Some (proc_load_history (load_info w1)) slot) as [k Hk]; [rewrite Hlen; lia|].
  rewrite Hk. rewrite (bind_ret _ _ k _ _) by done. eexists. split; [reflexivity|].
  rewrite load_info_set by (cbn; by rewrite length_aupd). unfold sampled. fold slot.
  assert (proc_load_history (load_info w1) = (if slot =? proc_last_slot li then proc_load_history li else aupd slot (fun _ => 0) (proc_load_history li)) /\
    proc_last_slot (load_info w1) = slot) as [-> ->]; [|done].
  unfold w1. destruct (Z.eqb_spec slot (proc_last_slot li)) as [He|He]; [done|].
  rewrite load_info_set by (cbn; rewrite length_aupd; apply load_history). done.
Qed.

(** *** The handler *)
(** A step that counts time: it changes counters only. *)
Definition ticks s0 s : Prop := stays s0 s /\ bill_ptr s = bill_ptr s0 /\
  forall m q, pget s0 m = Some q -> exists q', pget s m = Some q' /\ p_misc_flags q' = p_misc_flags q.
Lemma ticks_refl s : good s -> ticks s s.
Proof. intros Hg. split; [by apply stays_refl|]. split; [done|]. by eauto. Qed.
Lemma wp_tick s0 s n f Q : ticks s0 s -> is_Some (pget s0 n) -> quiet f ->
  (forall p, p_endpoint (f p) = p_endpoint p /\ p_priv (f p) = p_priv p /\ p_misc_flags (f p) = p_misc_flags p) ->
  (forall s', ticks s0 s' -> Q tt s') -> wp (set_proc n f) Q never s.
Proof.
  intros (Hs & Hb & Hm) [p0 Hp0] Hq Hf HQ. destruct (Hm _ _ Hp0) as (p & Hp & _). destruct (Hf p) as (He & Hv & Hmf).
  eapply (wp_quiet s n p f); [apply Hs|done|done|done|done|unfold MF; by rewrite Hmf|]. intros Hst. apply HQ.
  split; [by eapply stays_trans|]. split; [done|]. intros m q Hq0. destruct (Hm _ _ Hq0) as (q1 & Hq1 & Hqm). rewrite pget_pset.
  case_decide as Hd; [|by exists q1]. subst m. rewrite Hq1. exists (f q1). split; [done|]. by rewrite (proj2 (proj2 (Hf q1))).
Qed.
Lemma wp_tick_if (b : bool) s0 s n f Q : ticks s0 s -> is_Some (pget s0 n) -> quiet f ->
  (forall p, p_endpoint (f p) = p_endpoint p /\ p_priv (f p) = p_priv p /\ p_misc_flags (f p) = p_misc_flags p) ->
  (forall s', ticks s0 s' -> Q tt s') -> wp (if b then set_proc n f else mret tt) Q never s.
Proof. intros Ht Hp Hq Hf HQ. destruct b; [by eapply wp_tick|apply wp_ret; by apply HQ]. Qed.
Lemma ticks_pget s0 s n p : ticks s0 s -> pget s0 n = Some p -> live p ->
  exists p', pget s n = Some p' /\ live p' /\ (timed n p -> timed n p').
Proof.
  intros (Hs & _ & Hm) Hp Hl. destruct (Hm _ _ Hp) as (p' & Hp' & Hmf). destruct (stays_live _ _ _ _ Hs Hp Hl) as (x & Hx & Hlx).
  assert (x = p') as -> by congruence. exists p'. split_and!; [done|done|]. unfold timed, MF. by rewrite Hmf.
Qed.


(** *** The load is the number of runnable processes *)
Definition runnable_slots s : list Z :=
  filter (fun n => (p_rts_flags <$> pget s n) = Some 0) (seqZ (- NR_TASKS) (NR_TASKS + NR_PROCS)).
Lemma ready_count_concat (Q : Z -> list Z) l : ready_count Q l = Z.of_nat (length (mjoin (Q <$> l))).
Proof.
  unfold ready_count. induction l as [|q l IH]; [done|]. rewrite sumZ_cons, IH. change (mjoin (Q <$> q :: l)) with (Q q ++ mjoin (Q <$> l)). rewrite length_app. lia.
Qed.
Lemma NoDup_queues s Q l : queues s Q -> NoDup l -> (forall q, q ∈ l -> queue_nr q) -> NoDup (mjoin (Q <$> l)).
Proof.
  intros Hq. induction l as [|q l IH]; intros Hnd Hl; [constructor|]. apply list.NoDup_cons in Hnd as [Hni Hnd]. simpl.
  apply list.NoDup_app. split_and!; [apply (q_nodup _ _ Hq), Hl; by left| |apply IH; [done|]; intros; apply Hl; by right].
  intros n Hn (l' & Hnl & Hl')%list_elem_of_join. apply list_elem_of_fmap in Hl' as (q' & -> & Hq').
  apply Hni. rewrite (q_disjoint _ _ Hq q q' n); [done|apply Hl; by left|apply Hl; by right|done|done].
Qed.
(** C35: a sample of the load adds the number of processes that are runnable to the slot of
    the time, which it begins first when the time has just come to it; the count wraps at 16
    bits, the other slots are kept. *)
Theorem load_update_spec s : good s -> exists w,
  load_update s = Ret tt (with_world w s) /\
  load_info w = sampled (realtime s) (system_hz (world s)) (Z.of_nat (length (runnable_slots s))) (load_info (world s)).
Proof.
  intros [(Q & C & Hrq & _) _]. destruct (load_update_run s Q Hrq) as (w & Hrun & Hw). exists w. split; [done|]. rewrite Hw.
  f_equal. rewrite ready_count_concat. f_equal.
  apply Permutation_length, NoDup_Permutation.
  - apply (NoDup_queues s); [apply Hrq|apply NoDup_seqZ|]. intros q Hq%elem_of_seqZ. split; lia.
  - apply list.NoDup_filter, NoDup_seqZ.
  - intros n. unfold runnable_slots. rewrite list_elem_of_join, list_elem_of_filter, elem_of_seqZ. split.
    + intros (l & Hn & Hl). apply list_elem_of_fmap in Hl as (q & -> & Hq%elem_of_seqZ).
      apply (r_mem _ _ Hrq q n) in Hn as (p & Hp & Hz & _); [|unfold queue_nr; lia]. rewrite Hp. split; [simpl; by rewrite Hz|].
      pose proof (slot_range _ _ _ _ Hrq Hp). lia.
    + intros [Hn _]. destruct (pget s n) as [p|] eqn:Hp; [|done]. injection Hn as Hz. pose proof (r_prio _ _ Hrq n p Hp Hz) as Hq.
      exists (Q (p_priority p)). split; [apply (r_mem _ _ Hrq); [done|]; by exists p|]. apply list_elem_of_fmap_2.
      apply elem_of_seqZ. unfold queue_nr in Hq. lia.
Qed.
End clock.
