(* ===== verification/KSysEnd.v ===== *)
(** The kernel calls keep the invariant: the end of a process. *)
From S2P Require Import Prelude Minix KProc KIpc KSys KSysInv KSysCalls.
Local Open Scope Z_scope.

Section end_of_process.
Context `{MinixLaws} `{KernelHeaders} `{!IpcLaws} `{KCallHeaders} {W : Type} `{KernelEnvLaws W} `{!KSysEnv W} `{!KSysLaws W}.
Implicit Types (s : state W).
#[local] Hint Resolve get_proc_run set_proc_run set_misc_run clear_misc_run : run.

(** Clearing a flag that is not set. *)
Lemma RTS_UNSET_ext s n p f g : pget s n = Some p -> Z.ldiff (p_rts_flags p) f = Z.ldiff (p_rts_flags p) g -> RTS_UNSET n f s = RTS_UNSET n g s.
Proof.
  intros Hp Hfg. unfold RTS_UNSET. rewrite !(bind_ret _ _ _ _ _ (get_proc_run _ _ _ Hp)).
  rewrite !(bind_ret _ _ _ _ _ (set_proc_run _ _ _ _ Hp)).
  rewrite (pset_ext s n _ (fun p => p <| p_rts_flags := s16 (Z.ldiff (p_rts_flags p) g) |>)); [done|].
  intros q Hq. assert (q = p) as -> by congruence. by rewrite Hfg.
Qed.
Lemma not_sending_ldiff p : sending p = false -> Z.ldiff (p_rts_flags p) (Z.lor RTS_RECEIVING RTS_SENDING) = Z.ldiff (p_rts_flags p) RTS_RECEIVING.
Proof.
  rewrite sending_bit, has_bit by lia. intros Hb. apply Z.bits_inj_iff. intros i. rewrite !Z.ldiff_spec, Z.lor_spec.
  change RTS_SENDING with (2 ^ 2). destruct (decide (i = 2)) as [->|Hi]; [by rewrite Hb|].
  rewrite (Z.pow2_bits_false 2 i) by lia. by rewrite orb_false_r.
Qed.

(** ** The references to a process *)
Definition no_sender s (e : Z) : Prop := forall m q, pget s m = Some q -> sending q = true -> p_sendto_e q <> e.
Definition not_awaited (l : list Z) s (e : Z) : Prop :=
  forall m q, m ∈ l -> pget s m = Some q -> receiving q = true -> p_getfrom_e q <> e.
Lemma stays_no_sender s s' e : stays s s' -> no_sender s e -> no_sender s' e.
Proof.
  intros [_ Hf] Hno m q' Hq' Hs. destruct (kf_back _ _ Hf _ _ Hq') as (q & Hq). destruct (kf_fwd _ _ Hf _ _ Hq) as (x & Hx & Hk).
  assert (x = q') as -> by congruence. destruct (kp_sending _ _ _ Hk Hs) as [Hsq ->]. by eapply Hno.
Qed.
Lemma stays_not_awaited l s s' e : stays s s' -> not_awaited l s e -> not_awaited l s' e.
Proof.
  intros [_ Hf] Hno m q' Hm Hq' Hr. destruct (kf_back _ _ Hf _ _ Hq') as (q & Hq). destruct (kf_fwd _ _ Hf _ _ Hq) as (x & Hx & Hk).
  assert (x = q') as -> by congruence. destruct (kp_receiving _ _ _ Hk Hr) as [Hrq ->]. by eapply Hno.
Qed.
Definition keeps_flag (n i : Z) s s' : Prop := forall p, pget s n = Some p -> has (p_rts_flags p) (2 ^ i) = true ->
  exists p', pget s' n = Some p' /\ has (p_rts_flags p') (2 ^ i) = true.
Lemma keeps_flag_trans n i s1 s2 s3 : keeps_flag n i s1 s2 -> keeps_flag n i s2 s3 -> keeps_flag n i s1 s3.
Proof. intros Ha Hb p Hp Hf. destruct (Ha p Hp Hf) as (p2 & Hp2 & Hf2). by apply (Hb p2). Qed.
(** What the visits leave as it is: a flag of the process and the managers of signals. *)
Definition same_mgr s s' : Prop := forall i pr', aget (privs s') i = Some pr' -> exists pr, aget (privs s) i = Some pr /\ s_sig_mgr pr' = s_sig_mgr pr.
Lemma same_mgr_eq s s' : privs s' = privs s -> same_mgr s s'.
Proof. intros Hpv i pr. rewrite Hpv. by exists pr. Qed.
Lemma same_mgr_prset s i f : (forall pr, s_sig_mgr (f pr) = s_sig_mgr pr) -> same_mgr s (prset i f s).
Proof.
  intros Hf j pr. change (privs (prset i f s)) with (aupd i f (privs s)). rewrite aget_aupd. case_decide as Hj; [|by exists pr].
  subst j. destruct (aget (privs s) i) as [x|]; [|done]. intros [= <-]. by exists x.
Qed.
Lemma same_mgr_trans s1 s2 s3 : same_mgr s1 s2 -> same_mgr s2 s3 -> same_mgr s1 s3.
Proof. intros Ha Hb i pr3 (pr2 & Hpr2 & ->)%Hb. destruct (Ha _ _ Hpr2) as (pr1 & ? & ->). by exists pr1. Qed.
Definition spared n s s' : Prop := keeps_flag n 8 s s' /\ same_mgr s s'.
Lemma spared_trans n s1 s2 s3 : spared n s1 s2 -> spared n s2 s3 -> spared n s1 s3.
Proof. intros [? ?] [? ?]. split; [by eapply keeps_flag_trans|by eapply same_mgr_trans]. Qed.
Lemma agrees_flag i q q' : 0 <= i < 16 -> agrees q q' -> has (p_rts_flags q) (2 ^ i) = true -> has (p_rts_flags q') (2 ^ i) = true.
Proof. intros Hi [_ [-> | ->]] Hf; [done|]. by rewrite has_set, Hf by lia. Qed.

(** One process is visited. *)
Lemma release_good s n p m q ret : good s -> pget s n = Some p -> live p -> no_sender s (p_endpoint p) ->
  pget s m = Some q -> live q ->
  wp (pr ← get_priv m;
      rpr ← get_priv n;
      map ← unset_sys_bit (s_notify_pending pr) (s_id rpr);
      set_priv m (fun pr => pr <| s_notify_pending := map |>);;
      r ← get_proc n;
      if P_BLOCKEDON q =? p_endpoint r then
        set_proc m (fun p => p <| p_retreg := ret |>);;
        RTS_UNSET m (Z.lor RTS_RECEIVING RTS_SENDING)
      else mret tt)
    (fun _ s' => stays s s' /\ not_awaited [m] s' (p_endpoint p) /\ spared n s s') never s.
Proof.
  intros Hg Hp Hl Hno Hq Hlq. pose proof Hg as [(Q & C & Hi) Hs].
  destruct (good_priv s m q Hg Hq Hlq) as (j & prq & Hj & Hprq & Hgq). destruct (good_priv s n p Hg Hp Hl) as (i & pr & Hpi & Hpr & Hgp).
  eapply wp_bind_run; [exact Hgq|]. eapply wp_bind_run; [exact Hgp|].
  destruct (aget_is_Some (s_notify_pending prq) (MAP_CHUNK (s_id pr))) as [ch Hch].
  { rewrite (sn_map _ Hs _ _ Hprq). pose proof (sys_chunk _ (sane_range _ _ _ Hs Hpr)). lia. }
  eapply wp_bind_run; [unfold unset_sys_bit; by rewrite Hch|]. cbn beta. set (map' := aupd _ _ (s_notify_pending prq)).
  eapply wp_bind_run; [by eapply set_priv_run|]. cbn beta. set (s1 := prset j _ s).
  assert (stays s s1) as Hs1.
  { apply stays_prset; [done|]. intros x Hx. assert (x = prq) as -> by congruence. split; [done|apply length_aupd|done|done|by left]. }
  eapply wp_bind_run; [by apply (get_proc_run s1)|]. cbn beta.
  destruct (Z.eqb_spec (P_BLOCKEDON q) (p_endpoint p)) as [Hb|Hb].
  - assert (sending q = false) as Hsq.
    { apply not_true_is_false. intros Hsq. apply (Hno m q Hq Hsq). unfold P_BLOCKEDON in Hb. fold (sending q) in Hb. by rewrite Hsq in Hb. }
    apply wp_bind. eapply (wp_quiet s1 m q); [apply Hs1|done|quiet_tac|done..|]. set (f := fun p : proc => p <| p_retreg := ret |>). intros Hs2.
    pose proof (pget_pset_some s1 m f q Hq) as Hq2. unfold wp.
    rewrite (RTS_UNSET_ext _ m (f q) _ RTS_RECEIVING Hq2 (not_sending_ldiff (f q) Hsq)).
    destruct (stays_UNSET _ m (f q) RTS_RECEIVING (proj1 Hs2) Hq2 Hlq eq_refl eq_refl) as (s3 & Hrun & Hs3 & Hpv & Hfwd). rewrite Hrun.
    split; [eapply stays_trans; [exact Hs1|]; by eapply stays_trans|]. split.
    + intros k x Hk%list_elem_of_singleton Hx Hr. subst k. destruct (Hfwd _ _ Hq2) as (x' & Hx' & Hag). rewrite decide_True in Hag by done.
      assert (x' = x) as -> by congruence. destruct (agrees_fields _ _ Hag) as (_ & _ & _ & _ & _ & _ & _ & Hrx).
      by rewrite Hrx, cleared_receiving in Hr.
    + split; [|apply (same_mgr_trans _ s1); [by apply same_mgr_prset|by apply same_mgr_eq]].
      intros x Hx Hfl. assert (x = p) as -> by congruence. destruct (decide (n = m)) as [Hnm|Hnm].
      * assert (q = p) as -> by congruence. subst m. destruct (Hfwd _ _ Hq2) as (x' & Hx' & Hag). rewrite decide_True in Hag by done.
        exists x'. split; [done|]. eapply agrees_flag; [lia|exact Hag|]. cbn. by rewrite has_clear, Hfl by lia.
      * destruct (Hfwd n p) as (x' & Hx' & Hag); [by rewrite pget_pset_ne|]. rewrite decide_False in Hag by done.
        exists x'. split; [done|]. by eapply agrees_flag.
  - apply wp_ret. split; [done|]. split; [|split; [intros x Hx; by exists x|by apply same_mgr_prset]].
    intros k x Hk%list_elem_of_singleton Hx Hr He. subst k. assert (x = q) as -> by (change (pget s m = Some x) in Hx; congruence).
    apply Hb. rewrite <-He. unfold P_BLOCKEDON. fold (sending q) (receiving q). rewrite Hr. destruct (sending q) eqn:Hsq; [|done].
    symmetry. by apply (c_both _ _ (proj2 Hi) m q).
Qed.
Lemma not_awaited_app l l' s e : not_awaited (l ++ l') s e <-> not_awaited l s e /\ not_awaited l' s e.
Proof.
  split.
  - intros Hn. split; intros m q Hm; apply Hn, elem_of_app; auto.
  - intros [Ha Hb] m q [Hm|Hm]%elem_of_app; [by apply Ha|by apply Hb].
Qed.
Lemma clear_ipc_refs_good s n p ret : good s -> pget s n = Some p -> live p -> no_sender s (p_endpoint p) ->
  wp (clear_ipc_refs n ret) (fun _ s' => stays s s' /\ (forall m q, pget s' m = Some q -> receiving q = true -> p_getfrom_e q <> p_endpoint p) /\
    spared n s s') never s.
Proof.
  intros Hg Hp Hl Hno. unfold clear_ipc_refs.
  apply (wp_foreach _ _ (fun pre s' => stays s s' /\ not_awaited pre s' (p_endpoint p) /\ spared n s s')).
  - split; [by apply stays_refl|]. split; [by intros m q Hm%elem_of_nil|]. split; [|by apply same_mgr_eq]. intros x Hx. by exists x.
  - intros pre m post s1 Hseq (Hs1 & Hna & Hkf).
    assert (- NR_TASKS <= m < NR_PROCS) as Hm.
    { assert (m ∈ seqZ (- NR_TASKS) (NR_TASKS + NR_PROCS)) as Hin%elem_of_seqZ; [|lia]. rewrite Hseq. apply elem_of_app. right. by left. }
    destruct (good_slot s1 m (proj1 Hs1) Hm) as [q Hq]. eapply wp_bind_run; [by apply get_proc_run|]. cbn beta.
    unfold isemptyp. destruct (Z.eqb_spec (p_rts_flags q) RTS_SLOT_FREE) as [Hf|Hlq].
    + apply wp_ret. split; [done|]. split; [|done]. apply not_awaited_app. split; [done|].
      intros k x Hk%list_elem_of_singleton Hx Hr. subst k. assert (x = q) as -> by congruence. unfold receiving in Hr. by rewrite Hf in Hr.
    + destruct (stays_pget _ _ _ _ Hs1 Hp) as (p1 & Hp1 & Hk1).
      eapply wp_mono; [apply (release_good s1 n p1 m q ret); [apply Hs1|done|by apply (kp_live _ _ _ Hk1)| |done|done]| |done].
      * rewrite (kp_ep _ _ _ Hk1). by eapply stays_no_sender.
      * intros u s2 (Hs2 & Hna2 & Hkf2). rewrite (kp_ep _ _ _ Hk1) in Hna2. split; [by eapply stays_trans|].
        split; [|by eapply spared_trans]. apply not_awaited_app. split; [by eapply stays_not_awaited|done].
  - intros s' (Hst & Hna & Hkf). split_and!; [done| |done]. intros m q Hq. apply Hna with m; [|done].
    apply elem_of_seqZ. destruct Hst as [[(Q & C & Hrq & _) _] _]. pose proof (slot_range _ _ _ _ Hrq Hq). lia.
Qed.
Lemma do_statectl_good s caller c m : good s -> pget s caller = Some c -> live c -> no_sender s (p_endpoint c) ->
  wp (do_statectl caller m) served never s.
Proof.
  intros Hg Hc Hl Hno. unfold do_statectl. destruct (_ =? _); [|by eauto]. apply wp_bind.
  eapply wp_mono; [by eapply clear_ipc_refs_good| |done]. intros u s' (Hs & _). by eauto.
Qed.

(** ** The slot of a process that has ended *)
Definition freed (p : proc) : proc := p <| p_rts_flags := s16 RTS_SLOT_FREE |>.
Record endable s (n : Z) (p : proc) : Prop := {
  e_idle : sending p = false;
  e_senders : no_sender s (p_endpoint p);
  e_mgr i pr : aget (privs s) i = Some pr -> s_sig_mgr pr <> p_endpoint p;
  e_cur : n <> proc_ptr s;
  e_task : n <> SYSTEM /\ n <> CLOCK;
}.
Lemma live_ep_freed s Q C n p e : ipc s Q C -> pget s n = Some p -> live_ep s e -> e <> p_endpoint p -> live_ep (pset n freed s) e.
Proof.
  intros [_ Hi] Hp (q & Hq & He & Hl) Hne. exists q. rewrite pget_pset. destruct (decide (_ENDPOINT_P e = n)) as [Hn|Hn]; [|done].
  rewrite Hn in Hq. assert (q = p) as -> by congruence. congruence.
Qed.
Lemma ipcs_freed s Q C n p : ipc s Q C -> pget s n = Some p -> endable s n p -> receiving p = false ->
  (forall m q, pget s m = Some q -> receiving q = true -> p_getfrom_e q <> p_endpoint p) -> ipcs (pset n freed s) C.
Proof.
  intros Hipc Hp [Hsp Hno Hmg Hcur _] Hrp Hna. pose proof (live_ep_freed s Q C n p) as Hle.
  assert (forall m x, pget (pset n freed s) m = Some x -> (m = n /\ x = freed p) \/ (m <> n /\ pget s m = Some x)) as Hcase.
  { intros m x Hx. destruct (pget_cases _ _ _ _ _ Hx) as (y & Hy & [[-> ->]|[? ->]]); [left|by right].
    by assert (y = p) as -> by congruence. }
  pose proof (proj2 Hipc) as Hi. split.
  - intros m x Hx. eapply linked_ext; [intros k _; symmetry; apply (qnx_pset s n freed); left; done|].
    destruct (Hcase _ _ Hx) as [[-> ->]|[_ Hx']]; [exact (c_head _ _ Hi n p Hp)|by apply (c_head _ _ Hi)].
  - apply (c_nodup _ _ Hi).
  - intros k m. rewrite (c_mem _ _ Hi), pget_pset. case_decide as Hm; [|done]. subst m. rewrite Hp. simpl. split.
    + intros (x & [= <-] & Hs & _). congruence.
    + intros (x & [= <-] & Hs & _). done.
  - intros m x Hx Hs. destruct (Hcase _ _ Hx) as [[-> ->]|[_ Hx']]; [exact (c_idle _ _ Hi n p Hp Hsp)|by apply (c_idle _ _ Hi m)].
  - intros m x Hx. destruct (Hcase _ _ Hx) as [[-> ->]|[_ Hx']]; [exact (c_nr _ _ Hi n p Hp)|by apply (c_nr _ _ Hi)].
  - intros m x Hx Hl. destruct (Hcase _ _ Hx) as [[-> ->]|[_ Hx']]; [done|by apply (c_ep _ _ Hi)].
  - intros m x Hx Hl. destruct (Hcase _ _ Hx) as [[-> ->]|[_ Hx']]; [done|by apply (c_prio _ _ Hi m)].
  - intros m x Hx Hs. destruct (Hcase _ _ Hx) as [[-> ->]|[_ Hx']]; [done|]. apply Hle; [done|done|by apply (c_target _ _ Hi m)|by apply (Hno m)].
  - intros m x Hx Hr. destruct (Hcase _ _ Hx) as [[-> ->]|[_ Hx']]; [done|].
    destruct (c_from _ _ Hi m x Hx' Hr); [by left|right]. apply Hle; [done|done|done|by apply (Hna m)].
  - intros m x Hx Hs Hr. destruct (Hcase _ _ Hx) as [[-> ->]|[_ Hx']]; [done|by apply (c_both _ _ Hi m)].
  - intros m x Hx Hl. destruct (Hcase _ _ Hx) as [[-> ->]|[_ Hx']]; [done|by apply (c_free _ _ Hi m)].
  - intros x Hx. destruct (Hcase _ _ Hx) as [[Hn _]|[_ Hx']]; [by destruct Hcur|by apply (c_cur _ _ Hi)].
Qed.
Lemma freed_good s n p : good s -> pget s n = Some p -> live p -> p_rts_flags p <> 0 -> endable s n p -> receiving p = false ->
  (forall m q, pget s m = Some q -> receiving q = true -> p_getfrom_e q <> p_endpoint p) -> good (pset n freed s).
Proof.
  intros Hg Hp Hl Hz He Hr Hna. pose proof Hg as [(Q & C & Hi) Hs].
  pose proof (live_ep_freed s Q C n p) as Hle. pose proof (ipcs_freed s Q C n p Hi Hp He Hr Hna) as Hi'.
  split; [exists Q, C; split; [|done]|].
  - destruct (good_priv s n p Hg Hp Hl) as (i & pr & Hpi & Hpr & _).
    apply (rq_replace s Q n p); [apply Hi|done|done|done|by apply (r_magic _ _ (proj1 Hi) n p)|done|by exists i, pr].
  - destruct Hs as [Hmap Hto Hcalls Hnum Hid Hmgr Hmd Hrdy Htask Hu]. split; try done.
    + intros i pr Hpr. destruct (Hmgr i pr Hpr) as [?|[?|Hlv]]; [by left|by right; left|]. right. right.
      apply Hle; [done|done|done|]. by apply (e_mgr _ _ _ He i).
    + intros m x i pr Hm Hx Hlx Hi0 Hpr. destruct (pget_cases _ _ _ _ _ Hx) as (y & Hy & [[-> ->]|[_ ->]]); [done|]. by apply (Hmd m y i pr).
    + intros m x Hx. destruct (pget_cases _ _ _ _ _ Hx) as (y & Hy & [[-> ->]|[_ ->]]); [done|by apply (Hrdy m)].
    + intros t Ht. destruct (Htask t Ht) as (x & Hx & Hlx). exists x. split; [|done]. rewrite pget_pset_ne; [done|].
      destruct (e_task _ _ _ He). destruct Ht; congruence.
Qed.
Lemma stays_endable s s' n p p' : stays s s' -> same_mgr s s' -> pget s n = Some p -> pget s' n = Some p' -> endable s n p -> endable s' n p'.
Proof.
  intros Hst Hmg Hp Hp' [Hsp Hno Hm Hcur Ht]. destruct (stays_pget _ _ _ _ Hst Hp) as (x & Hx & Hk). assert (x = p') as -> by congruence.
  split; [|rewrite (kp_ep _ _ _ Hk); by eapply stays_no_sender| |by rewrite (kf_cur _ _ (proj2 Hst))|done].
  - apply not_true_is_false. intros Hs. destruct (kp_sending _ _ _ Hk Hs). congruence.
  - intros i pr' (pr & Hpr & ->)%Hmg. rewrite (kp_ep _ _ _ Hk). by eapply Hm.
Qed.
Lemma stays_sending s s' n p p' : stays s s' -> pget s n = Some p -> pget s' n = Some p' -> sending p = false -> sending p' = false.
Proof.
  intros Hst Hp Hp' Hs. destruct (stays_pget _ _ _ _ Hst Hp) as (x & Hx & Hk). assert (x = p') as -> by congruence.
  apply not_true_is_false. intros Hs'. destruct (kp_sending _ _ _ Hk Hs'). congruence.
Qed.
(** A process that has lost its endpoint stops receiving. *)
Lemma clear_ipc_good s n p : good s -> pget s n = Some p -> live p -> sending p = false -> has (p_rts_flags p) (2 ^ 8) = true ->
  exists p', clear_ipc n s = Ret tt (pset n (clear_flags RTS_RECEIVING) s) /\ pget (pset n (clear_flags RTS_RECEIVING) s) n = Some p' /\
    stays s (pset n (clear_flags RTS_RECEIVING) s) /\ receiving p' = false /\ has (p_rts_flags p') (2 ^ 8) = true.
Proof.
  intros Hg Hp Hl Hs Hf. exists (clear_flags RTS_RECEIVING p). unfold clear_ipc. run_step.
  assert (RTS_ISSET p RTS_SENDING = false) as -> by (change RTS_SENDING with (2 ^ 2); rewrite isset_has by lia; by rewrite sending_bit in Hs).
  run_step. split; [by apply (set_proc_run s n p)|]. split; [by apply pget_pset_some|].
  assert (has (p_rts_flags (clear_flags RTS_RECEIVING p)) (2 ^ 8) = true) as Hf' by (cbn; by rewrite has_clear, Hf by lia).
  split_and!; [|by apply cleared_receiving|done].
  assert (forall q, has (p_rts_flags q) (2 ^ 8) = true -> p_rts_flags q <> 0) as Hnz by (intros q Hq Hz; by rewrite Hz in Hq).
  pose proof (good_free s n p Hg Hp Hl) as Hfr. destruct (good_priv s n p Hg Hp Hl) as (i & pr & Hi & Hpr & _).
  assert (keeps_queue (clear_flags RTS_RECEIVING) p) as Hk.
  { split; try done; [by rewrite cleared_sending|by split; [|intros _; apply clear_live]|].
    rewrite !free_bit. cbn. by rewrite has_clear, andb_true_r by lia. }
  apply (stays_pset s n p); [done|done|by apply Hnz|by apply Hnz|done|apply s16_range|by exists i, pr| | |by left].
  - split; [done|]. by rewrite cleared_receiving.
  - intros Hr. by rewrite cleared_receiving in Hr.
Qed.
Lemma clear_endpoint_good s n p : good s -> pget s n = Some p -> live p -> endable s n p ->
  wp (clear_endpoint n) (fun _ s' => stays s s' /\ exists p', pget s' n = Some p' /\ endable s' n p' /\ p_rts_flags p' <> 0 /\
    receiving p' = false /\ forall m q, pget s' m = Some q -> receiving q = true -> p_getfrom_e q <> p_endpoint p') never s.
Proof.
  intros Hg Hp Hl He. unfold clear_endpoint. eapply wp_bind_run; [by apply get_proc_run|]. cbn beta.
  unfold isemptyp. rewrite (proj2 (Z.eqb_neq _ _) Hl). apply wp_bind, wp_ret. apply wp_bind.
  destruct (stays_SET s n p RTS_NO_ENDPOINT Hg Hp Hl) as (s1 & Hrun & Hs1 & Hpv1 & p1 & Hp1 & Hst1); [by exists 8|done..|].
  eapply wp_ret_run; [exact Hrun|]. destruct (strip_fields _ _ Hst1) as [Hfl _].
  assert (has (p_rts_flags p1) (2 ^ 8) = true) as Hf1 by (rewrite Hfl; cbn; rewrite has_set by lia; apply orb_true_r).
  destruct (stays_live _ _ _ _ Hs1 Hp Hl) as (x & Hx & Hl1). assert (x = p1) as -> by congruence. clear Hx.
  destruct (good_priv s1 n p1 (proj1 Hs1) Hp1 Hl1) as (i & pr & Hi & Hpr & Hgp). eapply wp_bind_run; [exact Hgp|]. cbn beta.
  apply wp_bind. eapply (wp_mono _ (fun _ s2 => stays s s2 /\ same_mgr s s2 /\ pget s2 n = Some p1) _ never); [| |done].
  { destruct (has (s_flags pr) SYS_PROC); [|apply wp_ret; split_and!; [done|by apply same_mgr_eq|done]].
    destruct (stays_set_priv s1 n p1 (fun pr => pr <| s_asynsize := 0 |>) (proj1 Hs1) Hp1 Hl1) as (k & _ & Hr & Hs2); [by split; auto|].
    eapply wp_ret_run; [exact Hr|]. split_and!; [by eapply stays_trans| |done].
    apply (same_mgr_trans _ s1); [by apply same_mgr_eq|by apply same_mgr_prset]. }
  intros u s2 (Hs2 & Hmg2 & Hp2). pose proof (stays_endable _ _ _ _ _ Hs2 Hmg2 Hp Hp2 He) as He2.
  destruct (clear_ipc_good s2 n p1 (proj1 Hs2) Hp2 Hl1 (e_idle _ _ _ He2) Hf1) as (p3 & Hr3 & Hp3 & Hs3 & Hrc3 & Hf3).
  eapply wp_bind_run; [exact Hr3|]. set (s3 := pset n _ s2) in *.
  assert (same_mgr s2 s3) as Hmg3 by by apply same_mgr_eq. pose proof (stays_endable _ _ _ _ _ Hs3 Hmg3 Hp2 Hp3 He2) as He3.
  destruct (stays_live _ _ _ _ Hs3 Hp2 Hl1) as (x & Hx & Hl3). assert (x = p3) as -> by congruence. clear Hx.
  eapply wp_mono; [apply (clear_ipc_refs_good s3 n p3); [apply Hs3|done|done|apply He3]| |done].
  intros u4 s4 (Hs4 & Hna & Hkf & Hmg4). destruct (Hkf p3 Hp3 Hf3) as (p4 & Hp4 & Hf4).
  destruct (stays_pget _ _ _ _ Hs4 Hp3) as (x & Hx & Hk4). assert (x = p4) as -> by congruence.
  split; [eapply stays_trans; [exact Hs2|]; by eapply stays_trans|]. exists p4. split; [done|].
  split; [by eapply stays_endable|]. split; [intros Hz; by rewrite Hz in Hf4|]. split.
  - apply not_true_is_false. intros [Hr _]%(kp_receiving _ _ _ Hk4). congruence.
  - rewrite (kp_ep _ _ _ Hk4). done.
Qed.
(** The slot is free and nobody waits for the process. *)
Definition gone (n e : Z) s : Prop := (exists p, pget s n = Some p /\ p_rts_flags p = RTS_SLOT_FREE) /\ ~ live_ep s e /\
  forall m q, pget s m = Some q -> (sending q = true -> p_sendto_e q <> e) /\ (receiving q = true -> p_getfrom_e q <> e).
Lemma stays_gone n e s s' : stays s s' -> gone n e s -> gone n e s'.
Proof.
  intros Hst ((p & Hp & Hf) & Hle & Hno). destruct (stays_pget _ _ _ _ Hst Hp) as (p' & Hp' & Hk). split; [|split].
  - exists p'. split; [done|]. apply dec_stable. intros Hl. by apply (proj1 (kp_live _ _ _ Hk) Hl).
  - by rewrite <-(kframe_live s s' e (proj2 Hst)).
  - intros m q' Hq'. destruct (kf_back _ _ (proj2 Hst) _ _ Hq') as (q & Hq). destruct (stays_pget _ _ _ _ Hst Hq) as (x & Hx & Hkq).
    assert (x = q') as -> by congruence. split.
    + intros [Hs ->]%(kp_sending _ _ _ Hkq). by apply (Hno m q Hq).
    + intros [Hr ->]%(kp_receiving _ _ _ Hkq). by apply (Hno m q Hq).
Qed.
Lemma do_clear_good s caller m : good s ->
  (forall p, pget s (_ENDPOINT_P (PR_ENDPT m)) = Some p -> p_endpoint p = PR_ENDPT m -> live p -> endable s (_ENDPOINT_P (PR_ENDPT m)) p) ->
  wp (do_clear caller m) (fun r s' => served r s' /\ (r = (EINVAL, m) /\ s' = s \/ r = (OK, m) /\ gone (_ENDPOINT_P (PR_ENDPT m)) (PR_ENDPT m) s')) never s.
Proof.
  intros Hg Hend. unfold do_clear. apply wp_bind, wp_endpt; [done| |apply wp_ret; by split; [split|left]]. intros p Hp Hpe Hl. cbn [negb].
  specialize (Hend p Hp Hpe Hl). set (n := _ENDPOINT_P (PR_ENDPT m)) in *.
  apply wp_bind, wp_sys_env; [done|]. intros u1 w1 _ Hs1. set (s1 := with_world w1 s) in *.
  eapply wp_bind_run; [by apply (get_proc_run s1 n p)|]. cbn beta. unfold isemptyp. rewrite (proj2 (Z.eqb_neq _ _) Hl).
  apply wp_bind, wp_sys_env; [apply Hs1|]. intros u2 w2 _ Hs2. set (s2 := with_world w2 s1) in *. pose proof (stays_trans _ _ _ Hs1 Hs2) as Hs02.
  assert (endable s2 n p) as He2 by by eapply (stays_endable s s2 n p p Hs02 (same_mgr_eq s s2 eq_refl)).
  apply wp_bind. eapply wp_mono; [apply (clear_endpoint_good s2 n p); [apply Hs2|done|done|done]| |done].
  intros u3 s3 (Hs3 & p3 & Hp3 & He3 & Hz3 & Hr3 & Hna3).
  destruct (stays_live _ _ _ _ Hs3 (Hp : pget s2 n = Some p) Hl) as (x & Hx & Hl3). assert (x = p3) as -> by congruence. clear Hx.
  eapply wp_bind_run; [by apply get_proc_run|]. destruct (good_priv s3 n p3 (proj1 Hs3) Hp3 Hl3) as (i & pr & Hi & Hpr & _).
  apply wp_bind. eapply wp_deref; [exact Hi|]. apply wp_bind, wp_sys_env; [apply Hs3|]. intros u4 w4 _ Hs4. set (s4 := with_world w4 s3) in *.
  assert (RTS_SETFLAGS n RTS_SLOT_FREE s4 = Ret tt (pset n freed s4)) as Hrun.
  { unfold RTS_SETFLAGS. rewrite (bind_ret _ _ _ _ _ (get_proc_run s4 n p3 Hp3)). unfold proc_is_runnable, rts_f_is_runnable.
    rewrite (proj2 (Z.eqb_neq _ _) Hz3). cbn [andb]. rewrite (bind_ret _ _ _ _ _ (mret_run _ _)). by apply (set_proc_run s4 n p3). }
  eapply wp_bind_run; [exact Hrun|].
  assert (good (pset n freed s4)) as Hg5.
  { apply (freed_good s4 n p3); [apply Hs4|done|done|done| |done|exact Hna3]. by apply (stays_endable s3 s4 n p3 p3 Hs4 (same_mgr_eq s3 s4 eq_refl)). }
  set (s5 := pset n freed s4) in *. pose proof (pget_pset_some s4 n freed p3 Hp3) as Hp5.
  assert (p_endpoint p3 = PR_ENDPT m) as Hpe3.
  { destruct (stays_pget _ _ _ _ Hs3 (Hp : pget s2 n = Some p)) as (x & Hx & Hk). assert (x = p3) as -> by congruence. by rewrite (kp_ep _ _ _ Hk). }
  assert (gone n (PR_ENDPT m) s5) as Hgone5.
  { split; [by exists (freed p3)|]. split.
    - intros (x & Hx & _ & Hlx). fold n in Hx. unfold s5 in Hx. rewrite Hp5 in Hx. by injection Hx as <-.
    - intros k q Hq. destruct (pget_cases _ _ _ _ _ Hq) as (y & Hy & [[-> ->]|[_ ->]]); [done|]. rewrite <-Hpe3.
      split; [by apply (e_senders _ _ _ He3 k)|by apply (Hna3 k)]. }
  apply wp_bind. eapply (wp_misc_off s5 n (freed p3)); [done|done|]. intros Hs6. set (s6 := pset n (misc_off MF_FPU_INITIALIZED) s5) in *.
  pose proof (pget_pset_some s5 n (misc_off MF_FPU_INITIALIZED) _ Hp5) as Hp6.
  eapply wp_bind_run; [by apply (get_priv_run s6 n _ i pr Hp6)|]. cbn beta. apply wp_bind.
  eapply (wp_mono _ (fun _ s7 => stays s6 s7) _ never); [| |done].
  - destruct (has (s_flags pr) SYS_PROC); [|apply wp_ret, stays_refl, Hs6].
    eapply wp_ret_run; [by apply (set_priv_run s6 n _ i pr _ Hp6)|]. apply stays_prset; [apply Hs6|]. intros x _. by split; auto.
  - intros u7 s7 Hs7. apply wp_bind, wp_sys_env; [apply Hs7|]. intros u8 w8 _ Hs8. apply wp_ret. split; [by split; [apply Hs8|]|]. right. split; [done|].
    eapply stays_gone; [exact Hs8|]. eapply stays_gone; [exact Hs7|]. by eapply stays_gone.
Qed.

End end_of_process.
