(* ===== verification/KSysFork.v ===== *)
(** The kernel calls keep the invariant: the copy of a process. *)
From S2P Require Import Prelude Minix KProc KIpc KSys KSysInv KSysCalls.
Local Open Scope Z_scope.

Section fork.
Context `{MinixLaws} `{KernelHeaders} `{!IpcLaws} `{KCallHeaders} {W : Type} `{KernelEnvLaws W} `{!KSysEnv W} `{!KSysLaws W}.
Implicit Types (s : state W).
#[local] Hint Resolve get_proc_run set_proc_run set_misc_run clear_misc_run : run.

(** ** The slot of the child *)
(** A parent whose copy is consistent: nobody waits for it and it does not send. *)
Record forkable s (n : Z) (p : proc) : Prop := {
  fk_user : 0 <= n;
  fk_callers : p_caller_q p = None;
  fk_idle : sending p = false;
}.
Lemma live_ep_new s n c f e : pget s n = Some c -> ~ live c -> live_ep s e -> live_ep (pset n f s) e.
Proof.
  intros Hc Hl (q & Hq & He & Hlq). exists q. rewrite pget_pset_ne; [done|]. intros Hn. rewrite Hn in Hq. assert (q = c) as -> by congruence. done.
Qed.
Lemma ipcs_forked s Q C n p slot c gen : ipc s Q C -> pget s n = Some p -> live p -> forkable s n p ->
  pget s slot = Some c -> ~ live c -> ipcs (pset slot (fun _ => forked slot gen p) s) C.
Proof.
  intros Hipc Hp Hl [Hn Hcq Hsp] Hc Hlc. pose proof (proj2 Hipc) as Hi. set (f := fun _ : proc => forked slot gen p).
  pose proof (fun e => live_ep_new s slot c f e Hc Hlc) as Hle.
  pose proof (slot_range _ _ _ _ (proj1 Hipc) Hc) as Hr.
  assert (forall m x, pget (pset slot f s) m = Some x -> (m = slot /\ x = forked slot gen p) \/ (m <> slot /\ pget s m = Some x)) as Hcase.
  { intros m x Hx. destruct (pget_cases _ _ _ _ _ Hx) as (y & Hy & [[-> ->]|[? ->]]); [by left|by right]. }
  assert (C slot = []) as HC.
  { destruct (C slot) as [|m l] eqn:HC; [done|]. assert (m ∈ C slot) as (q & Hq & Hs & Ht)%(c_mem _ _ Hi) by (rewrite HC; by left).
    destruct (c_target _ _ Hi m q Hq Hs) as (y & Hy & _ & Hly). rewrite Ht in Hy. assert (y = c) as -> by congruence. done. }
  assert (sending c = false) as Hsc.
  { apply not_true_is_false. intros Hs. assert (slot ∈ C (_ENDPOINT_P (p_sendto_e c))) as Hin by (apply (c_mem _ _ Hi); by exists c).
    apply Hlc. intros Hf. unfold sending in Hs. by rewrite Hf in Hs. }
  pose proof (c_idle _ _ Hi n p Hp Hsp) as Hql. split.
  - intros m x Hx. apply (linked_ext (qnx s)).
    { intros k Hk. unfold qnx. rewrite pget_pset. case_decide as Hd; [|done]. subst k. apply (c_mem _ _ Hi) in Hk as (y & Hy & Hs & _). congruence. }
    destruct (Hcase _ _ Hx) as [[-> ->]|[_ Hx']]; [|by apply (c_head _ _ Hi)]. by rewrite HC.
  - apply (c_nodup _ _ Hi).
  - intros k m. rewrite (c_mem _ _ Hi), pget_pset. case_decide as Hm; [|done]. subst m. rewrite Hc. simpl.
    split; intros (x & [= <-] & Hs & _); exfalso; [congruence|change (sending p = true) in Hs; congruence].
  - intros m x Hx Hs. destruct (Hcase _ _ Hx) as [[-> ->]|[_ Hx']]; [exact Hql|by apply (c_idle _ _ Hi m)].
  - intros m x Hx. destruct (Hcase _ _ Hx) as [[-> ->]|[_ Hx']]; [done|by apply (c_nr _ _ Hi)].
  - intros m x Hx Hlx. destruct (Hcase _ _ Hx) as [[-> ->]|[_ Hx']]; [by apply endpoint_slot|by apply (c_ep _ _ Hi)].
  - intros m x Hx Hlx. destruct (Hcase _ _ Hx) as [[-> ->]|[_ Hx']]; [exact (c_prio _ _ Hi n p Hp Hl)|by apply (c_prio _ _ Hi m)].
  - intros m x Hx Hs. destruct (Hcase _ _ Hx) as [[-> ->]|[_ Hx']]; [exfalso; change (sending p = true) in Hs; congruence|].
    by apply Hle, (c_target _ _ Hi m).
  - intros m x Hx Hrc. destruct (Hcase _ _ Hx) as [[-> ->]|[_ Hx']].
    + destruct (c_from _ _ Hi n p Hp Hrc); [by left|right; by apply Hle].
    + destruct (c_from _ _ Hi m x Hx' Hrc); [by left|right; by apply Hle].
  - intros m x Hx Hs Hrc. destruct (Hcase _ _ Hx) as [[-> ->]|[_ Hx']]; [exfalso; change (sending p = true) in Hs; congruence|].
    by apply (c_both _ _ Hi m).
  - intros m x Hx Hlx. destruct (Hcase _ _ Hx) as [[-> ->]|[_ Hx']]; [exact (c_free _ _ Hi n p Hp Hl)|by apply (c_free _ _ Hi m)].
  - intros x Hx. destruct (Hcase _ _ Hx) as [[_ ->]|[_ Hx']]; [exact Hl|by apply (c_cur _ _ Hi)].
Qed.
Lemma forked_good s n p slot c gen : good s -> pget s n = Some p -> live p -> p_rts_flags p <> 0 -> MF p MF_DELIVERMSG = false ->
  forkable s n p -> pget s slot = Some c -> ~ live c -> good (pset slot (fun _ => forked slot gen p) s).
Proof.
  intros Hg Hp Hl Hz Hdm Hfk Hc Hlc. pose proof Hg as [(Q & C & Hi) Hs]. set (f := fun _ : proc => forked slot gen p).
  destruct (good_priv s n p Hg Hp Hl) as (i & pr & Hpi & Hpr & _).
  assert (live p) as Hlv by done.
  split; [exists Q, C; split|].
  - apply (rq_replace s Q slot c); [apply Hi|done| |exact Hz|by apply (r_magic _ _ (proj1 Hi) n p)|by apply (good_flags s n p)|by exists i, pr].
    intros Hz0. apply Hlc. intros Hf. by rewrite Hz0 in Hf.
  - exact (ipcs_forked s Q C n p slot c gen Hi Hp Hl Hfk Hc Hlc).
  - pose proof (fun e => live_ep_new s slot c f e Hc Hlc) as Hle.
    destruct Hs as [Hmap Hto Hcalls Hnum Hid Hmgr Hmd Hrdy Htask Hu]. split; try done.
    + intros j x Hx. destruct (Hmgr j x Hx) as [?|[?|?]]; [by left|by right; left|right; right; by apply Hle].
    + intros m x j y Hm Hx Hlx Hj Hy. destruct (pget_cases _ _ _ _ _ Hx) as (z & Hzz & [[-> ->]|[_ ->]]); [|by apply (Hmd m z j y)].
      apply (Hmd n p j y); [apply Hfk|done|done|done|done].
    + intros m x Hx. destruct (pget_cases _ _ _ _ _ Hx) as (z & Hzz & [[-> ->]|[_ ->]]); [|by apply (Hrdy m)].
      intros _ _. unfold MF in *. change MF_DELIVERMSG with (2 ^ 6) in *. cbn. by rewrite has_clear, Hdm by lia.
    + intros t Ht. destruct (Htask t Ht) as (x & Hx & Hlx). exists x. split; [|done]. rewrite pget_pset_ne; [done|]. intros ->. assert (x = c) as -> by congruence. done.
Qed.

(** ** What the child is *)
(** All fields but the flags, the privileges and the link of the run queue. *)
Definition body (p : proc) : proc := strip (p <| p_rts_flags := 0 |> <| p_priv := None |>).
Lemma body_strip p q : strip p = strip q -> body p = body q.
Proof. destruct p, q. unfold body, strip, upd. cbn. by intros [=]; subst. Qed.
Lemma body_agrees p q : agrees p q -> body q = body p.
Proof. intros [Hst _]. destruct p, q. unfold body, strip, upd in *. cbn in *. revert Hst. by intros [=]; subst. Qed.
Lemma agrees_has i p q : 0 <= i < 16 -> i <> 14 -> agrees p q -> has (p_rts_flags q) (2 ^ i) = has (p_rts_flags p) (2 ^ i).
Proof.
  intros Hi Hne [_ [-> | ->]]; [done|]. rewrite has_set by lia. change RTS_PREEMPTED with (2 ^ 14).
  rewrite Z.pow2_bits_false by lia. by rewrite orb_false_r.
Qed.
(** The child: a copy of its parent that has used no time, has no timers and no signals, and
    is not traced. *)
Definition newborn (slot gen : Z) (p : proc) : proc :=
  forked slot gen p <| p_cpu_time_left := 0 |> <| p_cycles := 0 |> <| p_pending := sigemptyset |>.
Record is_child (slot gen : Z) (p c : proc) : Prop := {
  ch_body : body c = body (newborn slot gen p);
  ch_receives : receiving c = true;
  ch_quantum : has (p_rts_flags c) (2 ^ 15) = true;
  ch_signals : has (p_rts_flags c) (2 ^ 4) = false /\ has (p_rts_flags c) (2 ^ 5) = false /\ has (p_rts_flags c) (2 ^ 6) = false;
}.

(** A step on the child that keeps its body and some of its flags. *)
Definition grown (f : proc -> proc) (n : Z) s s' : Prop := forall c, pget s n = Some c -> exists c', pget s' n = Some c' /\ body c' = body (f c) /\
  (receiving c = true -> receiving c' = true) /\ (has (p_rts_flags c) (2 ^ 15) = true -> has (p_rts_flags c') (2 ^ 15) = true).
Lemma wp_SET_grown s n c f : good s -> pget s n = Some c -> live c -> waits f ->
  Z.testbit f 0 = false -> Z.testbit f 2 = false -> Z.testbit f 3 = false ->
  wp (RTS_SET n f) (fun _ s' => stays s s' /\ grown id n s s' /\
    exists c', pget s' n = Some c' /\ p_rts_flags c' = s16 (Z.lor (p_rts_flags c) f)) never s.
Proof.
  intros Hg Hc Hl Hw Hf0 Hf2 Hf3. destruct (stays_SET s n c f Hg Hc Hl Hw Hf0 Hf2 Hf3) as (s' & Hrun & Hs & _ & c' & Hc' & Hst).
  destruct (strip_fields _ _ Hst) as [Hfl _]. cbn in Hfl. eapply wp_ret_run; [exact Hrun|]. split; [done|]. split; [|by exists c'].
  intros x Hx. assert (x = c) as -> by congruence. exists c'. split; [done|]. split; [|split].
  - by rewrite (body_strip _ _ Hst).
  - intros Hr. rewrite receiving_bit in *. rewrite Hfl, has_set, Hr by lia. done.
  - intros Hq. by rewrite Hfl, has_set, Hq by lia.
Qed.
Lemma wp_mend s n c f : good s -> pget s n = Some c -> quiet f -> p_endpoint (f c) = p_endpoint c -> p_priv (f c) = p_priv c ->
  p_misc_flags (f c) = p_misc_flags c ->
  wp (set_proc n f) (fun _ s' => stays s s' /\ grown f n s s' /\ pget s' n = Some (f c)) never s.
Proof.
  intros Hg Hc Hy He Hv Hm. eapply wp_quiet; [done|done|done|done|done|unfold MF; by rewrite Hm|]. intros Hs.
  pose proof (pget_pset_some s n f c Hc) as Hc'. split; [done|]. split; [|done]. intros x Hx. assert (x = c) as -> by congruence.
  exists (f c). split; [done|]. split; [done|]. unfold receiving. by rewrite (n_flags _ (y_neutral _ Hy)).
Qed.
(** The child of a system process gets the privileges of users. *)
Definition as_user (c : proc) : proc := c <| p_priv := Some USER_PRIV_ID |> <| p_rts_flags := s16 (Z.lor (p_rts_flags c) RTS_NO_PRIV) |>.
Lemma wp_as_user s n c : good s -> pget s n = Some c -> live c -> has (p_rts_flags c) (2 ^ 15) = true ->
  wp (set_proc n as_user) (fun _ s' => stays s s' /\ grown id n s s') never s.
Proof.
  intros Hg Hc Hl Hq. eapply wp_ret_run; [by apply (set_proc_run s n c)|].
  assert (has (p_rts_flags (as_user c)) (2 ^ 15) = true) as Hq' by (cbn; by rewrite has_set, Hq by lia).
  assert (forall q, has (p_rts_flags q) (2 ^ 15) = true -> p_rts_flags q <> 0) as Hnz by (intros q Hf Hz; by rewrite Hz in Hf).
  pose proof (keeps_set_flags RTS_NO_PRIV c Hl eq_refl eq_refl eq_refl ltac:(by exists 7)) as [Hk Hr].
  destruct (sn_user _ (proj2 Hg)) as (u & Hu & Hum). split.
  - apply (stays_pset s n c); [done|done|by apply Hnz|by apply Hnz|done|apply s16_range|by exists USER_PRIV_ID, u| | |].
    + split; [destruct Hk; by split|exact Hr].
    + intros Hrc Hsc. change (MF c MF_DELIVERMSG = false). apply (good_ready s n c Hg Hc); [by apply Hr|].
      change (sending (as_user c) = false) in Hsc. by rewrite <-(k_sending _ _ Hk).
    + right. by exists USER_PRIV_ID, u.
  - intros x Hx. assert (x = c) as -> by congruence. exists (as_user c). split; [by apply pget_pset_some|]. split; [done|]. split; [|done].
    intros Hrc. rewrite receiving_bit in *. cbn. by rewrite has_set, Hrc by lia.
Qed.
Lemma grown_if (b : bool) s n m : good s -> wp m (fun _ s' => stays s s' /\ grown id n s s') never s ->
  wp (if b then m else mret tt) (fun _ s' => stays s s' /\ grown id n s s') never s.
Proof.
  intros Hg Hm. destruct b; [done|]. apply wp_ret. split; [by apply stays_refl|]. intros c Hc. by exists c.
Qed.

(** ** The call *)
Definition next_generation (e : Z) : Z := if _ENDPOINT_MAX_GENERATION <=? _ENDPOINT_G e + 1 then 1 else _ENDPOINT_G e + 1.
Definition forks s (m : message) s' : Prop := exists p c c',
  pget s (_ENDPOINT_P (PR_ENDPT m)) = Some p /\ pget s (PR_SLOT m) = Some c /\ pget s' (PR_SLOT m) = Some c' /\
  p_rts_flags c = RTS_SLOT_FREE /\ receiving p = true /\ is_child (PR_SLOT m) (next_generation (p_endpoint c)) p c'.
Lemma grown_pget f n s s' c : grown f n s s' -> pget s n = Some c -> stays s s' -> live c -> exists c', pget s' n = Some c' /\ live c' /\
  body c' = body (f c) /\ (receiving c = true -> receiving c' = true) /\ (has (p_rts_flags c) (2 ^ 15) = true -> has (p_rts_flags c') (2 ^ 15) = true).
Proof.
  intros Hgr Hc Hs Hl. destruct (Hgr c Hc) as (c' & Hc' & Hrest). destruct (stays_live _ _ _ _ Hs Hc Hl) as (x & Hx & Hlx).
  assert (x = c') as -> by congruence. by exists c'.
Qed.
(** The steps after the copy. *)
Lemma child_good s n p slot c m map_ptr caller : good s -> pget s n = Some p -> live p -> receiving p = true ->
  pget s slot = Some c -> slot <> n -> live c -> receiving c = true ->
  wp (RTS_SET slot RTS_NO_QUANTUM;;
      set_proc slot (fun c => c <| p_cpu_time_left := 0 |> <| p_cycles := 0 |>);;
      pr ← get_priv n;
      (if has (s_flags pr) SYS_PROC then set_proc slot as_user else mret tt);;
      c ← get_proc slot;
      let m := put_PR_FORK_MSGADDR (p_delivermsg_vir p) (put_PR_ENDPT (p_endpoint c) m) in
      r ← env (newmap caller slot map_ptr);
      (if has (PR_FORK_FLAGS m) PFF_VMINHIBIT then RTS_SET slot RTS_VMINHIBIT else mret tt);;
      RTS_UNSET slot (Z.lor RTS_SIGNALED (Z.lor RTS_SIG_PENDING RTS_P_STOP));;
      set_proc slot (fun c => c <| p_pending := sigemptyset |>);;
      mret (r, m))
    (fun r s' => served r s' /\ exists c', pget s' slot = Some c' /\
       body c' = body (c <| p_cpu_time_left := 0 |> <| p_cycles := 0 |> <| p_pending := sigemptyset |>) /\
       receiving c' = true /\ has (p_rts_flags c') (2 ^ 15) = true /\
       (has (p_rts_flags c') (2 ^ 4) = false /\ has (p_rts_flags c') (2 ^ 5) = false /\ has (p_rts_flags c') (2 ^ 6) = false)) never s.
Proof.
  intros Hg Hp Hlp Hrp Hc Hne Hl Hr. apply wp_bind.
  eapply wp_mono; [apply (wp_SET_grown s slot c RTS_NO_QUANTUM); try done; by exists 15| |done].
  intros u1 s1 (Hs1 & Hgr1 & c1x & Hc1x & Hfl1).
  destruct (grown_pget _ _ _ _ _ Hgr1 Hc Hs1 Hl) as (c1 & Hc1 & Hl1 & Hb1 & Hr1 & _). assert (c1x = c1) as -> by congruence.
  assert (has (p_rts_flags c1) (2 ^ 15) = true) as Hq1 by (rewrite Hfl1, has_set by lia; apply orb_true_r).
  apply wp_bind. set (f2 := fun c : proc => c <| p_cpu_time_left := 0 |> <| p_cycles := 0 |>).
  eapply wp_mono; [apply (wp_mend s1 slot c1 f2); [apply Hs1|done|unfold f2; quiet_tac|done..]| |done].
  intros u2 s2 (Hs2 & _ & Hc2). pose proof (stays_trans _ _ _ Hs1 Hs2) as Hs02.
  destruct (stays_live _ _ _ _ Hs02 Hp Hlp) as (p2 & Hp2 & Hlp2).
  destruct (good_priv s2 n p2 (proj1 Hs2) Hp2 Hlp2) as (i & pr & _ & _ & Hgp). eapply wp_bind_run; [exact Hgp|]. cbn beta.
  assert (live (f2 c1)) as Hl2 by exact Hl1. apply wp_bind.
  eapply wp_mono; [apply (grown_if _ s2 slot); [apply Hs2|]; by apply (wp_as_user s2 slot (f2 c1)); [apply Hs2|..]| |done].
  intros u3 s3 (Hs3 & Hgr3). destruct (grown_pget _ _ _ _ _ Hgr3 Hc2 Hs3 Hl2) as (c3 & Hc3 & Hl3 & Hb3 & Hr3 & Hq3).
  eapply wp_bind_run; [by apply get_proc_run|]. cbv zeta. set (m' := put_PR_FORK_MSGADDR _ _).
  apply wp_bind, wp_sys_env; [apply Hs3|]. intros r w4 Hrw Hs4. set (s4 := with_world w4 s3) in *.
  assert (r <> VMSUSPEND) as Hrs by (pose proof (newmap_done caller slot map_ptr (world s3)) as Hn; by rewrite <-Hrw in Hn).
  apply wp_bind. eapply wp_mono; [apply (grown_if _ s4 slot); [apply Hs4|]| |done].
  { eapply wp_mono; [apply (wp_SET_grown s4 slot c3 RTS_VMINHIBIT); [apply Hs4|done|done|by exists 9|done..]| |done].
    intros u s' (? & ? & _). done. }
  intros u5 s5 (Hs5 & Hgr5). destruct (grown_pget _ _ _ _ _ Hgr5 (Hc3 : pget s4 slot = Some c3) Hs5 Hl3) as (c5 & Hc5 & Hl5 & Hb5 & Hr5 & Hq5).
  destruct (stays_UNSET s5 slot c5 (Z.lor RTS_SIGNALED (Z.lor RTS_SIG_PENDING RTS_P_STOP)) (proj1 Hs5) Hc5 Hl5 eq_refl eq_refl)
    as (s6 & Hrun & Hs6 & _ & Hfwd). eapply wp_bind_run; [exact Hrun|].
  destruct (Hfwd _ _ Hc5) as (c6 & Hc6 & Hag). rewrite decide_True in Hag by done.
  apply wp_bind. set (f7 := fun c : proc => c <| p_pending := sigemptyset |>).
  eapply wp_mono; [apply (wp_mend s6 slot c6 f7); [apply Hs6|done|unfold f7; quiet_tac|done..]| |done].
  intros u7 s7 (Hs7 & _ & Hc7). apply wp_ret. split; [split; [apply Hs7|done]|]. exists (f7 c6). split; [done|].
  assert (forall i, 0 <= i < 16 -> i <> 14 -> has (p_rts_flags (f7 c6)) (2 ^ i) = has (p_rts_flags c5) (2 ^ i) && negb (Z.testbit (Z.lor RTS_SIGNALED (Z.lor RTS_SIG_PENDING RTS_P_STOP)) i)) as Hbit.
  { intros i' Hi' Hn'. change (p_rts_flags (f7 c6)) with (p_rts_flags c6). rewrite (agrees_has i' _ _ Hi' Hn' Hag). cbn. by rewrite has_clear by lia. }
  split_and!; [|rewrite receiving_bit, Hbit by lia; rewrite <-receiving_bit, Hr5, ?andb_true_l; [done|]; apply Hr3, Hr1, Hr
    |rewrite Hbit by lia; by rewrite (Hq5 (Hq3 Hq1))|rewrite Hbit by lia; apply andb_false_r..].
  assert (forall x, body (f7 x) = f7 (body x)) as Hf7 by done. assert (forall x, body (f2 x) = f2 (body x)) as Hf2 by done.
  change (body (f7 c6) = body (f7 (f2 c))). rewrite !Hf7. f_equal. rewrite (body_agrees _ _ Hag). change (body (clear_flags _ c5)) with (body c5).
  rewrite Hb5. change (body (id c3)) with (body c3). rewrite Hb3. change (body (id (f2 c1))) with (body (f2 c1)). rewrite !Hf2. by f_equal.
Qed.
Lemma do_fork_good s caller m : good s -> (exists c, pget s (PR_SLOT m) = Some c) ->
  (forall p, pget s (_ENDPOINT_P (PR_ENDPT m)) = Some p -> p_endpoint p = PR_ENDPT m -> live p ->
     forkable s (_ENDPOINT_P (PR_ENDPT m)) p /\ MF p MF_DELIVERMSG = false) ->
  wp (do_fork caller m) (fun r s' => served r s' /\ (r = (EINVAL, m) /\ s' = s \/ forks s m s')) never s.
Proof.
  intros Hg [c Hc] Hfk. unfold do_fork.
  assert (wp (mret (EINVAL, m)) (fun r s' => served r s' /\ (r = (EINVAL, m) /\ s' = s \/ forks s m s')) never s) as Hinval.
  { apply wp_ret. split; [by split|by left]. }
  apply wp_bind, wp_endpt; [done| |done]. intros p Hp Hpe Hl. cbn [negb]. destruct (Hfk p Hp Hpe Hl) as [Hf Hdm].
  set (n := _ENDPOINT_P (PR_ENDPT m)) in *. set (slot := PR_SLOT m) in *.
  eapply wp_bind_run; [by apply get_proc_run|]. eapply wp_bind_run; [by apply get_proc_run|]. cbv zeta. unfold isemptyp.
  rewrite (proj2 (Z.eqb_neq _ _) Hl). cbn [orb]. destruct (Z.eqb_spec (p_rts_flags c) RTS_SLOT_FREE) as [Hfree|]; cbn [negb]; [|done].
  apply wp_bind. eapply wp_assert; [by rewrite Hdm|]. destruct (RTS_ISSET p RTS_RECEIVING) eqn:Hrcv; cbn [negb]; [|done].
  assert (receiving p = true) as Hr by (rewrite receiving_bit, <-(isset_has p) by lia; exact Hrcv).
  assert (~ live c) as Hlc by (intros Hx; by apply Hx).
  assert (slot <> n) as Hne. { intros He. rewrite He in Hc. assert (p = c) as -> by congruence. done. }
  apply wp_bind, wp_sys_env; [done|]. intros u1 w1 _ Hs1. set (s1 := with_world w1 s) in *.
  set (gen := if _ENDPOINT_MAX_GENERATION <=? _ENDPOINT_G (p_endpoint c) + 1 then 1 else _ENDPOINT_G (p_endpoint c) + 1).
  eapply wp_bind_run; [by apply (set_proc_run s1 slot c)|].
  assert (good (pset slot (fun _ => forked slot gen p) s1)) as Hg2.
  { apply (forked_good s1 n p slot c); [apply Hs1|done|done| |done|by destruct Hf; split|done|done]. intros Hz. rewrite receiving_bit, Hz in Hr. done. }
  set (s2 := pset slot _ s1) in *. pose proof (pget_pset_some s1 slot (fun _ => forked slot gen p) c Hc) as Hc2.
  eapply wp_mono; [apply (child_good s2 n p slot (forked slot gen p) m (PR_MEM_PTR m) caller Hg2); [unfold s2; by rewrite pget_pset_ne|done..]| |done].
  intros r s' (Hsv & c' & Hc' & Hb & Hr' & Hq & Hsig). split; [done|]. right. exists p, c, c'. by split_and!.
Qed.

(** C14: [do_fork] of a parent that waits for a message, that nobody waits for and that has
    a free slot for its child, keeps the invariant; it refuses and changes nothing, or
    makes the child: a copy of the parent under the next generation of the slot's endpoint,
    which waits as its parent does, has used no time, has no quantum, no timers, no signals,
    and is not traced. *)
Theorem sys_fork_spec s caller m : good s -> (exists c, pget s (PR_SLOT m) = Some c) ->
  (forall p, pget s (_ENDPOINT_P (PR_ENDPT m)) = Some p -> p_endpoint p = PR_ENDPT m -> live p ->
     forkable s (_ENDPOINT_P (PR_ENDPT m)) p /\ MF p MF_DELIVERMSG = false) ->
  wp (do_fork caller m) (fun r s' => good s' /\ r.1 <> VMSUSPEND /\ (r = (EINVAL, m) /\ s' = s \/ forks s m s')) never s.
Proof. intros Hg Hslot Hfk. eapply wp_mono; [by apply do_fork_good| |done]. intros r s' [[Hg' Hr] Hres]. by split_and!. Qed.
End fork.
