(* ===== verification/KSysPriv.v ===== *)
(** The kernel calls keep the invariant: the control of privileges. *)
From S2P Require Import Prelude Minix KProc KIpc KSys KSysInv KSysCalls.
Local Open Scope Z_scope.

Section privileges.
Context `{MinixLaws} `{KernelHeaders} `{!IpcLaws} `{KCallHeaders} {W : Type} `{KernelEnvLaws W} `{!KSysEnv W} `{!KSysLaws W}.
Implicit Types (s : state W).
#[local] Hint Resolve get_proc_run set_proc_run set_misc_run clear_misc_run : run.

(** ** Rules for privileges *)
Lemma wp_get_priv s n p (Q : priv -> state W -> Prop) : good s -> pget s n = Some p -> live p ->
  (forall i pr, p_priv p = Some i -> aget (privs s) i = Some pr -> Q pr s) -> wp (get_priv n) Q never s.
Proof. intros Hg Hp Hl HQ. destruct (good_priv s n p Hg Hp Hl) as (i & pr & Hi & Hpr & Hgp). eapply wp_ret_run; [exact Hgp|by eapply HQ]. Qed.
Lemma wp_set_priv s n p f (Q : unit -> state W -> Prop) : good s -> pget s n = Some p -> live p ->
  (forall i pr, aget (privs s) i = Some pr -> kept_priv s pr (f pr)) ->
  (forall i, stays s (prset i f s) -> Q tt (prset i f s)) -> wp (set_priv n f) Q never s.
Proof.
  intros Hg Hp Hl Hf HQ. destruct (good_priv s n p Hg Hp Hl) as (i & pr & Hi & Hpr & _).
  eapply wp_ret_run; [by eapply set_priv_run|]. apply HQ. apply stays_prset; [done|]. by apply Hf.
Qed.
Lemma good_priv_at s i : good s -> 0 <= i < NR_SYS_PROCS -> exists pr, aget (privs s) i = Some pr.
Proof. intros [_ Hs] Hi. apply aget_is_Some. rewrite (sn_number _ Hs). lia. Qed.
Lemma wp_priv_at s i (Q : priv -> state W -> Prop) : good s -> 0 <= i < NR_SYS_PROCS ->
  (forall pr, aget (privs s) i = Some pr -> Q pr s) -> wp (priv_at i) Q never s.
Proof.
  intros Hg Hi HQ. destruct (good_priv_at s i Hg Hi) as [pr Hpr]. unfold priv_at. apply wp_bind, wp_get.
  eapply wp_deref; [exact Hpr|]. by apply HQ.
Qed.
Lemma wp_set_priv_at s i f (Q : unit -> state W -> Prop) : good s -> 0 <= i < NR_SYS_PROCS ->
  (forall pr, aget (privs s) i = Some pr -> kept_priv s pr (f pr)) ->
  (stays s (prset i f s) -> Q tt (prset i f s)) -> wp (set_priv_at i f) Q never s.
Proof.
  intros Hg Hi Hf HQ. unfold set_priv_at. apply wp_bind, wp_priv_at; [done|done|]. intros pr Hpr.
  apply wp_modify. apply HQ. by apply stays_prset.
Qed.
(** A bit of a map with a chunk for every structure. *)
Definition sys_map (map : list Z) : Prop := length map = Z.to_nat NR_SYS_CHUNKS.
Lemma sys_map_get map id : sys_map map -> 0 <= id < NR_SYS_PROCS -> exists c, aget map (MAP_CHUNK id) = Some c.
Proof. intros Hm Hid. apply aget_is_Some. rewrite Hm. pose proof (sys_chunk id Hid). lia. Qed.
Lemma wp_set_sys_bit s map id (Q : list Z -> state W -> Prop) : sys_map map -> 0 <= id < NR_SYS_PROCS ->
  (forall map', sys_map map' -> Q map' s) -> wp (set_sys_bit map id) Q never s.
Proof.
  intros Hm Hid HQ. destruct (sys_map_get map id Hm Hid) as [c Hc]. apply wp_bind. eapply wp_deref; [exact Hc|].
  apply wp_ret, HQ. unfold sys_map. by rewrite length_aupd.
Qed.
Lemma wp_unset_sys_bit s map id (Q : list Z -> state W -> Prop) : sys_map map -> 0 <= id < NR_SYS_PROCS ->
  (forall map', sys_map map' -> Q map' s) -> wp (unset_sys_bit map id) Q never s.
Proof.
  intros Hm Hid HQ. destruct (sys_map_get map id Hm Hid) as [c Hc]. apply wp_bind. eapply wp_deref; [exact Hc|].
  apply wp_ret, HQ. unfold sys_map. by rewrite length_aupd.
Qed.
Lemma kept_to s i pr map : good s -> aget (privs s) i = Some pr -> sys_map map -> kept_priv s pr (pr <| s_ipc_to := map |>).
Proof. intros [_ Hs] Hpr Hm. split; try done; [|by left]. rewrite (sn_to _ Hs _ _ Hpr). exact Hm. Qed.

(** ** The targets of a process *)
Lemma set_sendto_bit_good s rp p id : good s -> pget s rp = Some p -> live p -> 0 <= id < NR_SYS_PROCS ->
  wp (set_sendto_bit rp id) (fun _ s' => stays s s') never s.
Proof.
  intros Hg Hp Hl Hid. unfold set_sendto_bit. destruct (good_priv_at s id Hg Hid) as [pid Hpid].
  eapply wp_bind_run; [unfold id_to_nr; rewrite (bind_ret _ _ _ _ _ (get_run _)), Hpid; reflexivity|]. cbn beta.
  apply wp_bind, (wp_get_priv s rp p); [done|done|done|]. intros i pr _ Hpr.
  pose proof (sn_to _ (proj2 Hg) _ _ Hpr) as Hto. destruct (_ || _); apply wp_bind.
  - apply wp_unset_sys_bit; [done|done|]. intros map Hm. apply (wp_set_priv s rp p); [done|done|done| |done].
    intros k x Hx. by apply (kept_to s k).
  - apply wp_set_sys_bit; [done|done|]. intros map Hm. apply wp_bind, (wp_set_priv s rp p); [done|done|done| |].
    { intros k x Hx. by apply (kept_to s k). }
    intros k Hs1. apply wp_bind, wp_priv_at; [apply Hs1|done|]. intros to Hto1. destruct (has _ _); [|by apply wp_ret].
    apply wp_bind, wp_set_sys_bit; [by apply (sn_to _ (proj2 (proj1 Hs1)) id)|by apply (sane_range s i pr (proj2 Hg))|].
    intros map' Hm'. apply wp_set_priv_at; [apply Hs1|done| |]. { intros x Hx. apply (kept_to _ id); [apply Hs1|done|done]. }
    intros Hs2. by eapply stays_trans.
Qed.
Lemma unset_sendto_bit_good s rp p id : good s -> pget s rp = Some p -> live p -> 0 <= id < NR_SYS_PROCS ->
  wp (unset_sendto_bit rp id) (fun _ s' => stays s s') never s.
Proof.
  intros Hg Hp Hl Hid. unfold unset_sendto_bit.
  apply wp_bind, (wp_get_priv s rp p); [done|done|done|]. intros i pr _ Hpr. apply wp_bind.
  apply wp_unset_sys_bit; [by apply (sn_to _ (proj2 Hg) i)|done|]. intros map Hm. apply wp_bind, (wp_set_priv s rp p); [done|done|done| |].
  { intros k x Hx. by apply (kept_to s k). }
  intros k Hs1. apply wp_bind, wp_priv_at; [apply Hs1|done|]. intros to Hto1.
  apply wp_bind, (wp_get_priv _ rp p); [apply Hs1|done|done|]. intros j prj _ Hprj.
  apply wp_bind, wp_unset_sys_bit; [by apply (sn_to _ (proj2 (proj1 Hs1)) id)|by apply (sane_range _ j prj (proj2 (proj1 Hs1)))|].
  intros map' Hm'. apply wp_set_priv_at; [apply Hs1|done| |]. { intros x Hx. apply (kept_to _ id); [apply Hs1|done|done]. }
  intros Hs2. by eapply stays_trans.
Qed.
Lemma fill_sendto_mask_good s rp p mask : good s -> pget s rp = Some p -> live p -> NR_SYS_PROCS <= 32 ->
  wp (fill_sendto_mask rp mask) (fun _ s' => stays s s') never s.
Proof.
  intros Hg Hp Hl Hn. apply (wp_foreach _ _ (fun _ s' => stays s s')); [by apply stays_refl| |done].
  intros pre i post s1 Hseq Hs1.
  assert (i ∈ seqZ 0 NR_SYS_PROCS) as Hi%elem_of_seqZ by (rewrite Hseq; apply elem_of_app; right; by left).
  destruct (Z.ltb_spec i 32); [|lia]. apply wp_bind, wp_ret. destruct (stays_live _ _ _ _ Hs1 Hp Hl) as (p1 & Hp1 & Hl1).
  destruct (Z.testbit mask i); (eapply (wp_mono _ (fun _ s2 => stays s1 s2) _ never); [|intros u s2 Hs2; by eapply stays_trans|done]).
  - apply (set_sendto_bit_good s1 rp p1); [apply Hs1|done|done|lia].
  - apply (unset_sendto_bit_good s1 rp p1); [apply Hs1|done|done|lia].
Qed.
(** With more structures than an int has bits, the mask is shifted too far. *)
Lemma fill_sendto_mask_far s rp p mask : good s -> pget s rp = Some p -> live p -> 32 < NR_SYS_PROCS ->
  exists s', fill_sendto_mask rp mask s = Halt Undef s'.
Proof.
  intros Hg Hp Hl Hn.
  enough (wp (fill_sendto_mask rp mask) (fun _ _ => False) (fun w _ => w = Undef) s) as Hwp.
  { unfold wp in Hwp. destruct (fill_sendto_mask rp mask s) as [|w s']; [done|]. exists s'. by subst w. }
  apply (wp_foreach _ _ (fun pre s' => stays s s' /\ Z.of_nat (length pre) <= 32)).
  - split; [by apply stays_refl|done].
  - intros pre i post s1 Hseq [Hs1 Hlen].
    assert (i = Z.of_nat (length pre)) as Hi.
    { assert (seqZ 0 NR_SYS_PROCS !! length pre = Some i) as Hlk by (by rewrite Hseq, list_lookup_middle).
      apply lookup_seqZ in Hlk. lia. }
    destruct (Z.ltb_spec i 32); [|by apply wp_bind, wp_halt]. apply wp_bind, wp_ret.
    destruct (stays_live _ _ _ _ Hs1 Hp Hl) as (p1 & Hp1 & Hl1).
    assert (forall m : M (state W) unit, wp m (fun _ s2 => stays s1 s2) never s1 ->
      wp m (fun _ s2 => stays s s2 /\ Z.of_nat (length (pre ++ [i])) <= 32) (fun w _ => w = Undef) s1) as Hm.
    { intros m Hm. eapply wp_mono; [exact Hm| |done]. intros u s2 Hs2. split; [by eapply stays_trans|]. rewrite length_app. simpl. lia. }
    destruct (Z.testbit mask i); apply Hm; [apply (set_sendto_bit_good s1 rp p1)|apply (unset_sendto_bit_good s1 rp p1)];
      try done; [apply Hs1|lia|apply Hs1|lia].
  - intros s' [_ Hlen]. rewrite length_seqZ in Hlen. lia.
Qed.

(** ** A structure for a process *)
Lemma get_priv_for_spec s rp p id : good s -> pget s rp = Some p ->
  wp (get_priv_for rp id) (fun r s' =>
    (r <> OK /\ r <> VMSUSPEND /\ s' = s) \/
    (r = OK /\ exists i pr, aget (privs s) i = Some pr /\ s_proc_nr pr = NONE /\ (id = NULL_PRIV_ID \/ id = i) /\
       s' = prset i (fun sp => sp <| s_proc_nr := rp |>) (pset rp (fun p => p <| p_priv := Some i |>) s))) never s.
Proof.
  intros Hg Hp. unfold get_priv_for. apply wp_bind.
  eapply (wp_mono _ (fun sp s' => s' = s /\ match sp with
    | inl r => r <> OK /\ r <> VMSUSPEND
    | inr i => 0 <= i < NR_SYS_PROCS /\ (id = NULL_PRIV_ID \/ id = i) /\ exists pr, aget (privs s) i = Some pr /\ s_proc_nr pr = NONE
    end) _ never); [| |done].
  - destruct (Z.eqb_spec id NULL_PRIV_ID) as [He|He].
    + apply wp_bind, (wp_for _ _ (fun _ s' => s' = s)); [done| |].
      * intros pre i post s' Hseq ->.
        assert (i ∈ seqZ NR_STATIC_PRIV_IDS (NR_SYS_PROCS - NR_STATIC_PRIV_IDS)) as Hi%elem_of_seqZ
          by (rewrite Hseq; apply elem_of_app; right; by left).
        pose proof static_range. apply wp_bind, wp_priv_at; [done|lia|]. intros pr Hpr. apply wp_ret.
        destruct (Z.eqb_spec (s_proc_nr pr) NONE); [|done]. apply wp_ret. split; [done|]. split; [lia|]. split; [by left|]. by exists pr.
      * intros s' ->. by apply wp_ret.
    + destruct (is_static_priv_id id) eqn:Hst; cbn [negb]; [|by apply wp_ret]. apply static_id in Hst.
      apply wp_bind, wp_priv_at; [done|done|]. intros pr Hpr. apply wp_ret. split; [done|].
      destruct (Z.eqb_spec (s_proc_nr pr) NONE); cbn [negb]; [|done]. split; [done|]. split; [by right|]. by exists pr.
  - intros [r|i] s' [-> Hsp]; [apply wp_ret; left; by destruct Hsp|]. destruct Hsp as (Hi & Hid & pr & Hpr & Hnone).
    eapply wp_bind_run; [by apply (set_proc_run s rp p)|]. set (s1 := pset rp _ s).
    eapply wp_bind_run; [apply (get_proc_run s1 rp), (pget_pset_some s rp _ p Hp)|]. cbn beta.
    assert (p_nr p = rp) as Hnr by (destruct Hg as [(Q & C & Hipc) _]; by apply (c_nr _ _ (proj2 Hipc))).
    assert (set_priv_at i (fun sp => sp <| s_proc_nr := rp |>) s1 = Ret tt (prset i (fun sp => sp <| s_proc_nr := rp |>) s1)) as Hrun.
    { unfold set_priv_at, priv_at. rewrite (bind_ret _ _ pr s1 s1); [done|]. rewrite (bind_ret _ _ _ _ _ (get_run _)).
      change (privs s1) with (privs s). by rewrite Hpr. }
    change (p_nr (p <| p_priv := Some i |>)) with (p_nr p). rewrite Hnr. eapply wp_bind_run; [exact Hrun|].
    apply wp_ret. right. split; [done|]. by exists i, pr.
Qed.

(** ** The privileges that are given *)
(** A structure copied from a process: its tables have the size of the headers, and the
    manager of its signals is alive. *)
Record given_ok s (sp : priv) : Prop := {
  gv_mgr : s_sig_mgr sp <> NONE /\ (s_sig_mgr sp = SELF \/ live_ep s (s_sig_mgr sp));
  gv_irq : Z.of_nat (length (s_irq_tab sp)) = NR_IRQ;
  gv_io : Z.of_nat (length (s_io_tab sp)) = NR_IO_RANGE;
  gv_mem : Z.of_nat (length (s_mem_tab sp)) = NR_MEM_RANGE;
  gv_to : s_ipc_to sp <> [];
  gv_calls : length (s_k_call_mask sp) = Z.to_nat SYS_CALL_MASK_SIZE;
}.
Lemma given_stays s s' sp : stays s s' -> given_ok s sp -> given_ok s' sp.
Proof.
  intros [_ Hf] [[Hne Hm] ? ? ? ? ?]. split; try done. split; [done|]. destruct Hm; [by left|right]. by apply (kframe_live s s').
Qed.
Lemma priv_kept_same s pr pr' : s_id pr' = s_id pr -> s_notify_pending pr' = s_notify_pending pr -> s_ipc_to pr' = s_ipc_to pr ->
  s_k_call_mask pr' = s_k_call_mask pr -> s_sig_mgr pr' = s_sig_mgr pr -> kept_priv s pr pr'.
Proof. intros Hi Hn Ht Hc Hm. split; [done|by rewrite Hn|by rewrite Ht|by rewrite Hc|by left]. Qed.
(** One of the three tables is copied. *)
Lemma copy_table_good {A} s rp p (flag : bool) (n limit : Z) (tab : list A) (num : priv -> priv) (put : Z -> A -> priv -> priv) (k : M (state W) rc) :
  good s -> pget s rp = Some p -> live p -> Z.of_nat (length tab) = limit ->
  (forall s pr, kept_priv s pr (num pr)) -> (forall s i x pr, kept_priv s pr (put i x pr)) ->
  (forall s1, stays s s1 -> wp k (fun r s' => stays s s' /\ r <> VMSUSPEND) never s1) ->
  wp (if flag && ((n <? 0) || (limit <? n)) then mret EINVAL else
      (if flag then
         set_priv rp num;;
         foreach (seqZ 0 n) (fun i => x ← deref (aget tab i); set_priv rp (put i x))
       else mret tt);; k) (fun r s' => stays s s' /\ r <> VMSUSPEND) never s.
Proof.
  intros Hg Hp Hl Hlen Hnum Hput Hk. destruct flag; cbn [andb]; [|apply wp_bind, wp_ret, Hk; by apply stays_refl].
  destruct (Z.ltb_spec n 0); cbn [orb]; [apply wp_ret; split; [by apply stays_refl|done]|].
  destruct (Z.ltb_spec limit n); [apply wp_ret; split; [by apply stays_refl|done]|].
  apply wp_bind. eapply (wp_mono _ (fun _ s' => stays s s') _ never); [|intros u s1 Hs1; by apply Hk|done].
  apply wp_bind, (wp_set_priv s rp p); [done|done|done|by intros; apply Hnum|]. intros j Hs1.
  apply (wp_foreach _ _ (fun _ s' => stays s s')); [done| |done]. intros pre i post s2 Hseq Hs2.
  assert (i ∈ seqZ 0 n) as Hi%elem_of_seqZ by (rewrite Hseq; apply elem_of_app; right; by left).
  destruct (aget_is_Some tab i) as [x Hx]; [lia|]. apply wp_bind. eapply wp_deref; [exact Hx|].
  destruct (stays_live _ _ _ _ Hs2 Hp Hl) as (p2 & Hp2 & Hl2).
  apply (wp_set_priv s2 rp p2); [apply Hs2|done|done|by intros; apply Hput|]. intros j' Hs3. by eapply stays_trans.
Qed.
Lemma wp_extend {A} s s1 (m : M (state W) A) (P : A -> Prop) : stays s s1 ->
  wp m (fun r s' => stays s1 s' /\ P r) never s1 -> wp m (fun r s' => stays s s' /\ P r) never s1.
Proof. intros Hs Hm. eapply wp_mono; [exact Hm| |done]. intros r s' [Hs' HP]. split; [by eapply stays_trans|done]. Qed.
Lemma update_priv_good s rp p sp : good s -> pget s rp = Some p -> live p -> NR_SYS_PROCS <= 32 -> given_ok s sp ->
  wp (update_priv rp sp) (fun r s' => stays s s' /\ r <> VMSUSPEND) never s.
Proof.
  intros Hg Hp Hl Hn [Hmgr Hirq Hio Hmem Hto Hcalls]. unfold update_priv.
  apply wp_bind, (wp_set_priv s rp p); [done|done|done|by intros; split; auto|]. intros j0 Hs0.
  apply (wp_extend s _ _ (fun r => r <> VMSUSPEND) Hs0). destruct (stays_live _ _ _ _ Hs0 Hp Hl) as (p0 & Hp0 & Hl0). clear Hp Hl p Hg Hmgr.
  set (s0 := prset j0 _ s) in *. pose proof (proj1 Hs0) as Hg0.
  eapply (copy_table_good s0 rp p0); [done|done|done|done|by intros; apply priv_kept_same|by intros; apply priv_kept_same|]. intros s1 Hs1.
  destruct (stays_live _ _ _ _ Hs1 Hp0 Hl0) as (p1 & Hp1 & Hl1). apply (wp_extend s0 _ _ (fun r => r <> VMSUSPEND) Hs1).
  eapply (copy_table_good s1 rp p1); [apply Hs1|done|done|done|by intros; apply priv_kept_same|by intros; apply priv_kept_same|]. intros s2 Hs2.
  destruct (stays_live _ _ _ _ Hs2 Hp1 Hl1) as (p2 & Hp2 & Hl2). apply (wp_extend s1 _ _ (fun r => r <> VMSUSPEND) Hs2).
  eapply (copy_table_good s2 rp p2); [apply Hs2|done|done|done|by intros; apply priv_kept_same|by intros; apply priv_kept_same|]. intros s3 Hs3.
  destruct (stays_live _ _ _ _ Hs3 Hp2 Hl2) as (p3 & Hp3 & Hl3). apply (wp_extend s2 _ _ (fun r => r <> VMSUSPEND) Hs3).
  apply wp_bind, (wp_set_priv s3 rp p3); [apply Hs3|done|done|by intros; apply priv_kept_same|]. intros j4 Hs4.
  destruct (stays_live _ _ _ _ Hs4 Hp3 Hl3) as (p4 & Hp4 & Hl4). apply (wp_extend s3 _ _ (fun r => r <> VMSUSPEND) Hs4).
  set (s4 := prset j4 _ s3) in *.
  destruct (s_ipc_to sp) as [|mask l] eqn:Hmask; [done|]. apply wp_bind. eapply (wp_deref _ mask); [done|].
  apply wp_bind. eapply wp_mono; [apply (fill_sendto_mask_good s4 rp p4 mask (proj1 Hs4) Hp4 Hl4 Hn)| |done].
  intros u5 s5 Hs5. destruct (stays_live _ _ _ _ Hs5 Hp4 Hl4) as (p5 & Hp5 & Hl5).
  apply wp_bind, (wp_set_priv s5 rp p5); [apply Hs5|done|done| |].
  { intros i pr Hpr. split; [done|done|done| |by left]. rewrite (sn_calls _ (proj2 (proj1 Hs5)) _ _ Hpr). exact Hcalls. }
  intros j6 Hs6. apply wp_ret. split; [|done]. eapply stays_trans; [exact Hs5|exact Hs6].
Qed.

(** ** A new system process *)
(** What the requests with a structure from the caller rely on. *)
Definition request_given s (c : proc) (m : message) : Prop :=
  let '(r, sp) := copy_priv (p_endpoint c) (CTL_ARG_PTR m) (world s) in r <> VMSUSPEND /\ (is_ok r = true -> given_ok s sp).
Lemma request_given_split s c m : request_given s c m ->
  (copy_priv (p_endpoint c) (CTL_ARG_PTR m) (world s)).1 <> VMSUSPEND /\
  (is_ok (copy_priv (p_endpoint c) (CTL_ARG_PTR m) (world s)).1 = true -> given_ok s (copy_priv (p_endpoint c) (CTL_ARG_PTR m) (world s)).2).
Proof. unfold request_given. by destruct (copy_priv _ _ _). Qed.
Lemma is_ok_spec r : is_ok r = true <-> r = OK.
Proof. apply bool_decide_eq_true. Qed.
Lemma new_priv_stays s rp p i pr d : good s -> pget s rp = Some p -> live p -> p_rts_flags p <> 0 -> aget (privs s) i = Some pr ->
  kept_priv s pr d -> s_sig_mgr d <> NONE ->
  stays s (pset rp (fun p => p <| p_priv := Some i |>) (prset i (fun _ => d) s)).
Proof.
  intros Hg Hp Hl Hz Hpr Hk Hm.
  assert (stays s (prset i (fun _ => d) s)) as Hs1 by (apply stays_prset; [done|]; intros x Hx; by assert (x = pr) as -> by congruence).
  assert (aget (privs (prset i (fun _ => d) s)) i = Some d) as Hd.
  { change (aget (aupd i (fun _ => d) (privs s)) i = Some d). by rewrite aget_aupd_eq, Hpr. }
  eapply stays_trans; [exact Hs1|]. apply (stays_pset _ rp p); try done; [apply Hs1|by apply (good_flags s rp p)|by exists i, d|exact (good_ready s rp p Hg Hp)|].
  right. by exists i, d.
Qed.
Lemma set_sys_good s caller c rp p m : good s -> 0 <= caller -> pget s caller = Some c -> p_rts_flags c = 0 ->
  pget s rp = Some p -> live p -> NR_SYS_PROCS <= 32 -> request_given s c m ->
  DSRV_SM <> NONE /\ (DSRV_SM = SELF \/ live_ep s DSRV_SM) ->
  wp (set_sys caller rp rp m) (fun r s' => stays s s' /\ r <> VMSUSPEND) never s.
Proof.
  intros Hg Hc0 Hc Hcz Hp Hl Hn Hgiven Hsm. unfold set_sys. pose proof (stays_refl s Hg) as Hrefl.
  assert (live c) as Hlc by (intros Hf; by rewrite Hcz in Hf).
  eapply wp_bind_run; [by apply get_proc_run|]. cbn beta. destruct (RTS_ISSET p RTS_NO_PRIV) eqn:Hnp; cbn [negb]; [|by apply wp_ret].
  assert (p_rts_flags p <> 0) as Hz by (intros Hz; unfold RTS_ISSET in Hnp; by rewrite Hz in Hnp).
  eapply wp_bind_run; [by apply get_proc_run|]. apply wp_bind, wp_get. cbv zeta.
  apply request_given_split in Hgiven as [Hgr Hgok].
  set (given := if CTL_ARG_PTR m =? 0 then None else Some (copy_priv (p_endpoint c) (CTL_ARG_PTR m) (world s))).
  assert (forall r sp, given = Some (r, sp) -> r <> VMSUSPEND /\ (is_ok r = true -> given_ok s sp)) as Hgv.
  { intros r sp. unfold given. destruct (CTL_ARG_PTR m =? 0); [done|]. intros [= Heq]. by rewrite Heq in Hgr, Hgok. }
  clearbody given. clear Hgr Hgok. destruct (is_ok (match given with Some (r, _) => r | None => OK end)) eqn:Hok; cbn [negb].
  2:{ apply wp_ret. split; [done|]. destruct given as [[r sp]|]; [by apply (Hgv r sp)|done]. }
  set (priv_id := match given with Some (_, sp) => if negb (has (s_flags sp) DYN_PRIV_ID) then s_id sp else NULL_PRIV_ID | None => NULL_PRIV_ID end).
  apply wp_bind. eapply wp_mono; [by apply (get_priv_for_spec s rp p priv_id)| |done].
  intros r1 s1 [(Hr1 & Hr1' & ->)|(-> & i & pr & Hpr & Hnone & _ & ->)].
  { destruct (is_ok r1) eqn:Hr; [by apply is_ok_spec in Hr|]. cbn [negb]. by apply wp_ret. }
  change (is_ok OK) with true. cbn [negb].
  assert (caller <> rp) as Hne by (intros ->; congruence).
  set (f := fun sp : priv => sp <| s_proc_nr := rp |>). set (h := fun p : proc => p <| p_priv := Some i |>).
  set (s1 := prset i f (pset rp h s)).
  assert (pget s1 rp = Some (h p)) as Hp1 by exact (pget_pset_some s rp h p Hp).
  assert (aget (privs s1) i = Some (f pr)) as Hpr1.
  { change (aget (aupd i f (privs s)) i = Some (f pr)). by rewrite aget_aupd_eq, Hpr. }
  eapply wp_bind_run; [by apply (get_priv_run s1 rp (h p) i (f pr) Hp1)|]. cbn beta.
  destruct (good_priv s caller c Hg Hc Hlc) as (j & cpr & Hj & Hcpr & _).
  assert (exists from, aget (privs s1) j = Some from /\ s_sig_mgr from = s_sig_mgr cpr /\ s_ipc_to from = s_ipc_to cpr /\
    s_k_call_mask from = s_k_call_mask cpr) as (from & Hfrom & Hfm & Hft & Hfc).
  { change (privs s1) with (aupd i f (privs s)). rewrite aget_aupd. case_decide as Hd; [|by exists cpr].
    subst j. rewrite Hpr. assert (cpr = pr) as -> by congruence. by exists (f pr). }
  assert (pget s1 caller = Some c) as Hc1 by exact (eq_trans (pget_pset_ne s rp caller h Hne) Hc).
  eapply wp_bind_run; [by apply (get_priv_run s1 caller c j from Hc1)|]. cbn beta.
  set (d := default_priv rp (s_id (f pr)) from).
  eapply wp_bind_run; [by apply (set_priv_run s1 rp (h p) i (f pr) _ Hp1)|]. cbn beta.
  assert (prset i (fun _ => d) s1 = pset rp h (prset i (fun _ => d) s)) as ->.
  { unfold s1, prset, pset, upd. cbn. f_equal. by rewrite aupd_aupd. }
  pose proof Hg as [_ Hs].
  assert (kept_priv s pr d /\ s_sig_mgr d <> NONE) as [Hkd Hdm].
  { assert (s_sig_mgr d = s_sig_mgr cpr) as Hdm by exact Hfm.
    pose proof (sn_managed _ Hs caller c j cpr Hc0 Hc Hlc Hj Hcpr) as Hcm. split; [|congruence]. split.
    - done.
    - change (length (replicate (Z.to_nat NR_SYS_CHUNKS) 0) = length (s_notify_pending pr)).
      rewrite length_replicate. by rewrite (sn_map _ Hs _ _ Hpr).
    - change (length (s_ipc_to from) = length (s_ipc_to pr)). by rewrite Hft, (sn_to _ Hs _ _ Hpr), (sn_to _ Hs _ _ Hcpr).
    - change (length (s_k_call_mask from) = length (s_k_call_mask pr)). by rewrite Hfc, (sn_calls _ Hs _ _ Hpr), (sn_calls _ Hs _ _ Hcpr).
    - right. rewrite Hdm. split; [done|]. destruct (sn_mgr _ Hs _ _ Hcpr) as [?|[?|?]]; [by left|done|by right]. }
  pose proof (new_priv_stays s rp p i pr d Hg Hp Hl Hz Hpr Hkd Hdm) as Hs2. fold h in Hs2.
  set (s2 := pset rp h (prset i (fun _ => d) s)) in *.
  assert (pget s2 rp = Some (h p)) as Hp2 by exact (pget_pset_some s rp h p Hp).
  eapply wp_bind_run; [by apply get_proc_run|]. apply wp_bind. eapply (wp_deref _ i); [done|].
  apply wp_bind, wp_sys_env; [apply Hs2|]. intros u3 w3 _ Hs3. set (s3 := with_world w3 s2) in *. apply wp_bind.
  eapply wp_mono; [apply (fill_sendto_mask_good s3 rp (h p) DSRV_M (proj1 Hs3) Hp2 Hl Hn)| |done].
  intros u4 s4 Hs4. destruct (stays_live _ _ _ _ Hs4 (Hp2 : pget s3 rp = Some (h p)) Hl) as (p4 & Hp4 & Hl4).
  pose proof (stays_trans _ _ _ Hs2 (stays_trans _ _ _ Hs3 Hs4)) as Hs04.
  apply wp_bind, (wp_set_priv s4 rp p4); [apply Hs4|done|done| |].
  { intros k x Hx. split; [done|done|done| |].
    - change (length (replicate (Z.to_nat SYS_CALL_MASK_SIZE) (if DSRV_KC =? NO_C then 0 else u32 (-1))) = length (s_k_call_mask x)).
      rewrite length_replicate. by rewrite (sn_calls _ (proj2 (proj1 Hs4)) _ _ Hx).
    - right. destruct Hsm as [? Hsm]. split; [done|]. destruct Hsm; [by left|right]. by apply (kframe_live s s4 _ (proj2 Hs04)). }
  intros k Hs5. pose proof (stays_trans _ _ _ Hs04 Hs5) as Hs05.
  destruct given as [[r sp]|]; [|by apply wp_ret]. destruct (Hgv r sp eq_refl) as [_ Hgok].
  apply (wp_extend s _ _ (fun r => r <> VMSUSPEND) Hs05).
  eapply (update_priv_good _ rp p4); [apply Hs5|done|done|done|]. eapply given_stays; [exact Hs05|by apply Hgok].
Qed.

(** ** Resources *)
Lemma no_resources_good s rp p (Q : bool -> state W -> Prop) : good s -> pget s rp = Some p -> live p ->
  Q true s -> Q false s -> wp (no_resources rp) Q never s.
Proof.
  intros Hg Hp Hl Ht Hf. unfold no_resources. eapply wp_bind_run; [by apply get_proc_run|]. cbn beta.
  destruct (RTS_ISSET p RTS_NO_PRIV); [by apply wp_ret|]. apply wp_bind, (wp_get_priv s rp p); [done..|]. intros i pr _ _.
  apply wp_ret. by destruct (has (s_flags pr) SYS_PROC).
Qed.
Lemma add_resource_good s rp p flag number limit add : good s -> pget s rp = Some p -> live p ->
  (forall i pr, aget (privs s) i = Some pr -> 0 <= number pr) -> (forall f pr, number (pr <| s_flags := f |>) = number pr) ->
  (forall s i pr, kept_priv s pr (add i pr)) ->
  wp (add_resource rp flag number limit add) (fun r s' => stays s s' /\ r <> VMSUSPEND) never s.
Proof.
  intros Hg Hp Hl Hnum Hfl Hadd. unfold add_resource.
  apply wp_bind, (wp_set_priv s rp p); [done|done|done|by intros; apply priv_kept_same|]. intros j Hs1.
  apply wp_bind, (wp_get_priv _ rp p); [apply Hs1|done|done|]. intros i pr _ Hpr.
  assert (0 <= number pr) as Hnn.
  { change (privs (prset j (fun pr => pr <| s_flags := s16 (Z.lor (s_flags pr) flag) |>) s)) with
      (aupd j (fun pr => pr <| s_flags := s16 (Z.lor (s_flags pr) flag) |>) (privs s)) in Hpr. rewrite aget_aupd in Hpr.
    case_decide as Hd; [|by eapply Hnum]. subst j. destruct (aget (privs s) i) as [x|] eqn:Hx; [|done]. injection Hpr as <-.
    rewrite Hfl. by eapply Hnum. }
  cbv zeta. destruct (limit <=? number pr); [by apply wp_ret|]. rewrite (proj2 (Z.leb_le _ _) Hnn). apply wp_bind, wp_ret.
  apply wp_bind, (wp_set_priv _ rp p); [apply Hs1|done|done|by intros; apply Hadd|]. intros j' Hs2.
  apply wp_ret. split; [|done]. eapply stays_trans; [exact Hs1|exact Hs2].
Qed.

(** ** The call *)
(** The tables of resources are consistent, the structures that are copied are valid, the
    processes that start as system processes have a manager, and the masks fit an int. *)
Record privctl_ok s (c : proc) (m : message) : Prop := {
  pc_fits : CTL_REQUEST m = SYS_PRIV_SET_SYS \/ CTL_REQUEST m = SYS_PRIV_UPDATE_SYS -> NR_SYS_PROCS <= 32;
  pc_given : request_given s c m;
  pc_manager : DSRV_SM <> NONE /\ (DSRV_SM = SELF \/ live_ep s DSRV_SM);
  pc_tables i pr : aget (privs s) i = Some pr ->
    0 <= s_nr_io_range pr /\ 0 <= s_nr_irq pr /\ 0 <= s_nr_mem_range pr <= Z.of_nat (length (s_mem_tab pr));
}.
Lemma do_privctl_good s caller c m : good s -> 0 <= caller -> pget s caller = Some c -> p_rts_flags c = 0 -> privctl_ok s c m ->
  wp (do_privctl caller m) served never s.
Proof.
  intros Hg Hc0 Hc Hcz [Hn Hgiven Hsm Htab]. unfold do_privctl. assert (live c) as Hlc by (intros Hf; by rewrite Hcz in Hf).
  apply wp_bind, (wp_get_priv s caller c); [done..|]. intros i pr _ Hpr. destruct (negb _); [by eauto|].
  eapply wp_bind_run; [by apply get_proc_run|]. cbn beta. apply wp_bind.
  eapply (wp_mono _ (fun r s' => s' = s /\ (r.1 = true -> exists p, pget s r.2 = Some p /\ live p)) _ never); [| |done].
  { destruct (CTL_ENDPT m =? SELF).
    - apply wp_ret. split; [done|]. intros _. exists c. split; [|done]. cbn [snd]. by rewrite (proj2 (good_live s caller c Hg Hc Hlc)).
    - apply wp_endpt; [done| |by split]. intros p Hp _ Hl. split; [done|]. intros _. by exists p. }
  intros [ok rp] s' [-> Hrp]. destruct ok; cbn [negb]; [|by eauto]. destruct (Hrp eq_refl) as (p & Hp & Hl). cbn [snd] in Hp. clear Hrp.
  cbv zeta. apply wp_bind, wp_get. apply wp_bind.
  eapply (wp_mono _ (fun r s' => stays s s' /\ r <> VMSUSPEND) _ never); [|intros r s' [Hs Hr]; by eapply served_stays|done].
  pose proof (stays_refl s Hg) as Hrefl. apply request_given_split in Hgiven as Hgv. destruct Hgv as [Hgr Hgok].
  destruct (_ || _).
  { eapply wp_bind_run; [by apply get_proc_run|]. cbn beta. apply wp_bind.
    eapply (wp_mono _ (fun _ s' => s' = s) _ never); [| |done].
    { destruct (negb _); [by apply wp_ret|]. apply wp_bind, (wp_get_priv s rp p); [done..|]. intros. by apply wp_ret. }
    intros [] s' ->; [by apply wp_ret|]. apply wp_bind. eapply (wp_mono _ (fun _ s' => stays s s') _ never); [| |done].
    - destruct (_ =? SYS_PRIV_YIELD); [|by apply wp_ret]. by apply (wp_SET s caller c); [..|exists 7| | | |].
    - intros u s1 Hs1. destruct (stays_live _ _ _ _ Hs1 Hp Hl) as (p1 & Hp1 & Hl1). apply wp_bind.
      apply (wp_UNSET s1 rp p1); [apply Hs1|done|done|done|done|]. intros s2 Hs2. apply wp_ret. split; [|done]. eapply stays_trans; [exact Hs1|exact Hs2]. }
  destruct (_ =? SYS_PRIV_DISALLOW).
  { eapply wp_bind_run; [by apply get_proc_run|]. cbn beta. destruct (RTS_ISSET p RTS_NO_PRIV); [by apply wp_ret|].
    apply wp_bind. apply (wp_SET s rp p); [done|done|done|by exists 7|done..|]. intros s1 Hs1. by apply wp_ret. }
  destruct (Z.eqb_spec (CTL_REQUEST m) SYS_PRIV_SET_SYS) as [Hreq|_].
  { eapply (set_sys_good s caller c rp p m); [done|done|done|done|done|done|apply Hn; by left|done|done]. }
  destruct (_ =? SYS_PRIV_SET_USER).
  { eapply wp_bind_run; [by apply get_proc_run|]. cbn beta. destruct (RTS_ISSET p RTS_NO_PRIV) eqn:Hnp; cbn [negb]; [|by apply wp_ret].
    eapply wp_bind_run; [by apply (set_proc_run s rp p)|]. apply wp_ret. split; [|done].
    assert (p_rts_flags p <> 0) as Hz by (intros Hz; unfold RTS_ISSET in Hnp; by rewrite Hz in Hnp).
    destruct (sn_user _ (proj2 Hg)) as (u & Hu & Hum).
    apply (stays_pset _ rp p); [done|done|done|done|done|by apply (good_flags s rp p)|by exists USER_PRIV_ID, u| |exact (good_ready s rp p Hg Hp)|].
    - by split; [split|].
    - right. by exists USER_PRIV_ID, u. }
  destruct (_ =? SYS_PRIV_ADD_IO).
  { apply wp_bind. apply (no_resources_good s rp p); [done|done|done|by apply wp_ret|].
    apply (add_resource_good s rp p); [done|done|done| |done|by intros; apply priv_kept_same]. intros j x Hx. by apply (Htab j). }
  destruct (_ =? SYS_PRIV_ADD_MEM).
  { apply wp_bind. apply (no_resources_good s rp p); [done|done|done|by apply wp_ret|].
    pose proof (copy_range_done (p_endpoint c) (CTL_ARG_PTR m) (world s)) as Hcr. destruct (copy_range _ _ _) as [r x]. cbn [fst] in Hcr.
    destruct (negb (is_ok r)); [by apply wp_ret|].
    apply (add_resource_good s rp p); [done|done|done| |done|by intros; apply priv_kept_same]. intros j y Hy. by apply (Htab j). }
  destruct (_ =? SYS_PRIV_ADD_IRQ).
  { apply wp_bind. apply (no_resources_good s rp p); [done|done|done|by apply wp_ret|].
    apply (add_resource_good s rp p); [done|done|done| |done|by intros; apply priv_kept_same]. intros j x Hx. by apply (Htab j). }
  destruct (_ =? SYS_PRIV_QUERY_MEM).
  { destruct (_ <? _); [by apply wp_ret|]. eapply wp_bind_run; [by apply get_proc_run|]. cbn beta.
    destruct (bool_decide _); [by apply wp_ret|]. apply wp_bind, (wp_get_priv s rp p); [done..|]. intros j x _ Hx.
    destruct (negb _); [by apply wp_ret|]. apply wp_bind, (wp_for _ _ (fun _ s' => s' = s)); [done| |].
    - intros pre k post s' Hseq ->. assert (k ∈ seqZ 0 (s_nr_mem_range x)) as Hk%elem_of_seqZ by (rewrite Hseq; apply elem_of_app; right; by left).
      destruct (Htab j x Hx) as (_ & _ & Hm). destruct (aget_is_Some (s_mem_tab x) k) as [[base top] Hbt]; [lia|].
      apply wp_bind. eapply wp_deref; [exact Hbt|]. apply wp_ret. destruct (_ && _); [by apply wp_ret|done].
    - intros s' ->. by apply wp_ret. }
  destruct (Z.eqb_spec (CTL_REQUEST m) SYS_PRIV_UPDATE_SYS) as [Hreq|_]; [|by apply wp_ret].
  destruct (_ =? 0); [by apply wp_ret|]. destruct (copy_priv _ _ _) as [r sp]. cbn [fst snd] in *.
  destruct (is_ok r) eqn:Hok; cbn [negb]; [|by apply wp_ret].
  apply (update_priv_good s rp p sp); [done|done|done|apply Hn; by right|by apply Hgok].
Qed.
End privileges.
