(* ===== verification/KSysMask.v ===== *)
(** The masks that say to whom a process may send: what [fill_sendto_mask] leaves in them. *)
From S2P Require Import Prelude Minix KProc KIpc KSys KSysInv KSysCalls KSysPriv.
Local Open Scope Z_scope.

Section masks.
Context `{MinixLaws} `{KernelHeaders} `{!IpcLaws} `{KCallHeaders} {W : Type} `{KernelEnvLaws W} `{!KSysEnv W} `{!KSysLaws W}.
Implicit Types (s : state W).
#[local] Hint Resolve get_proc_run set_proc_run set_misc_run clear_misc_run : run.

(** ** One bit *)
Definition slot_id (k : Z) : Prop := 0 <= k < NR_SYS_PROCS.
(** The owners of structure [a] may send to those of [b]. *)
Definition may_send s (a b : Z) : bool :=
  match aget (privs s) a with
  | Some pr => match aget (s_ipc_to pr) (MAP_CHUNK b) with Some c => Z.testbit c (CHUNK_OFFSET b) | None => false end
  | None => false
  end.
Definition bit_op (v : bool) (id c : Z) : Z :=
  u32 ((if v then Z.lor else Z.ldiff) c (Z.shiftl 1 (CHUNK_OFFSET id))).
Definition put_bit (v : bool) (k id : Z) (pr : priv) : priv := pr <| s_ipc_to := aupd (MAP_CHUNK id) (bit_op v id) (s_ipc_to pr) |>.
Lemma bit_op_testbit v id c j : slot_id id -> 0 <= j < 32 ->
  Z.testbit (bit_op v id c) j = if decide (j = CHUNK_OFFSET id) then v else Z.testbit c j.
Proof.
  intros Hid Hj. pose proof (chunk_offset id Hid) as Ho. unfold bit_op, u32. rewrite Z.mod_pow2_bits_low by lia.
  assert (Z.testbit (Z.shiftl 1 (CHUNK_OFFSET id)) j = bool_decide (j = CHUNK_OFFSET id)) as Hb.
  { rewrite Z.shiftl_spec by lia. destruct (decide (j = CHUNK_OFFSET id)) as [->|Hne]; [by rewrite Z.sub_diag, bool_decide_true|].
    rewrite bool_decide_false by done. destruct (Z.ltb_spec j (CHUNK_OFFSET id)); [apply Z.testbit_neg_r; lia|].
    change 1 with (2 ^ 0). apply Z.pow2_bits_false. lia. }
  destruct v; [rewrite Z.lor_spec|rewrite Z.ldiff_spec]; rewrite Hb; case_decide as Hd;
    rewrite ?(bool_decide_true _ Hd), ?(bool_decide_false _ Hd); cbn; by rewrite ?orb_true_r, ?orb_false_r, ?andb_false_r, ?andb_true_r.
Qed.

(** Every structure has a full map and its own number. *)
Record wide s : Prop := {
  wd_all k : slot_id k -> exists pr, aget (privs s) k = Some pr;
  wd_map k pr : aget (privs s) k = Some pr -> sys_map (s_ipc_to pr);
  wd_id k pr : aget (privs s) k = Some pr -> s_id pr = k;
}.
Lemma good_wide s : good s -> wide s.
Proof. intros Hg. pose proof Hg as [_ Hs]. split; [intros k Hk; by apply good_priv_at|apply (sn_to _ Hs)|apply (sn_id _ Hs)]. Qed.
Definition put v k id s : state W := prset k (put_bit v k id) s.
Lemma put_privs v k id s a :
  aget (privs (put v k id s)) a = if decide (a = k) then put_bit v k id <$> aget (privs s) a else aget (privs s) a.
Proof.
  change (privs (put v k id s)) with (aupd k (put_bit v k id) (privs s)). rewrite aget_aupd.
  destruct (decide (k = a)) as [->|Hd]; [by rewrite decide_True|]. by rewrite decide_False by congruence.
Qed.
Lemma aget_put v k id s a pr : aget (privs (put v k id s)) a = Some pr ->
  exists pr0, aget (privs s) a = Some pr0 /\ pr = if decide (a = k) then put_bit v k id pr0 else pr0.
Proof.
  rewrite put_privs. case_decide; [|by exists pr]. destruct (aget (privs s) a) as [x|]; [|done]. intros [= <-]. by exists x.
Qed.
Lemma put_get v k id s a pr : aget (privs s) a = Some pr ->
  aget (privs (put v k id s)) a = Some (if decide (a = k) then put_bit v k id pr else pr).
Proof. intros Hpr. rewrite put_privs, Hpr. by case_decide. Qed.
Lemma wide_put v k id s : wide s -> wide (put v k id s).
Proof.
  intros [Ha Hm Hi]. split.
  - intros j [pr Hpr]%Ha. eexists. by apply put_get.
  - intros j pr (pr0 & Hpr0 & ->)%aget_put. case_decide; [|by apply (Hm j)]. unfold sys_map, put_bit. cbn. rewrite length_aupd. by apply (Hm j).
  - intros j pr (pr0 & Hpr0 & ->)%aget_put. pose proof (Hi _ _ Hpr0) as Hid. by case_decide.
Qed.
Lemma may_send_put v k id s a b : wide s -> slot_id k -> slot_id id -> slot_id a -> slot_id b ->
  may_send (put v k id s) a b = if decide (a = k /\ b = id) then v else may_send s a b.
Proof.
  intros Hw Hk Hid Ha Hb. unfold may_send. destruct (wd_all _ Hw a Ha) as [pr Hpr]. rewrite (put_get _ _ _ _ _ _ Hpr), Hpr.
  destruct (decide (a = k)) as [Hak|Hak]; [|by rewrite decide_False by tauto]. cbn [put_bit s_ipc_to upd].
  destruct (aget_is_Some (s_ipc_to pr) (MAP_CHUNK b)) as [c Hc]; [rewrite (wd_map _ Hw _ _ Hpr); pose proof (sys_chunk b Hb); lia|].
  change (s_ipc_to (put_bit v k id pr)) with (aupd (MAP_CHUNK id) (bit_op v id) (s_ipc_to pr)). rewrite aget_aupd.
  destruct (decide (MAP_CHUNK id = MAP_CHUNK b)) as [Hch|Hch].
  - rewrite Hc. cbn [fmap option_fmap option_map]. rewrite bit_op_testbit by (try done; by apply chunk_offset).
    destruct (decide (CHUNK_OFFSET b = CHUNK_OFFSET id)) as [Ho|Ho].
    + rewrite decide_True; [done|]. split; [done|]. by apply chunk_inj; [..|congruence|].
    + rewrite decide_False; [done|]. by intros [_ ->].
  - rewrite decide_False; [done|]. by intros [_ ->].
Qed.

(** ** The two functions *)
Definition owner s (k : Z) : option Z := s_proc_nr <$> aget (privs s) k.
Definition answers s (k : Z) : bool :=
  match aget (privs s) k with Some pr => has (s_trap_mask pr) (Z.lnot (Z.shiftl 1 RECEIVE)) | None => false end.
Definition granted (i id : Z) s : state W :=
  if bool_decide (owner s id = Some NONE) || (i =? id) then put false i id s
  else if answers s id then put true id i (put true i id s) else put true i id s.
Lemma sys_bit_run (v : bool) s map id : sys_map map -> slot_id id ->
  (if v then set_sys_bit else unset_sys_bit) map id s = Ret (aupd (MAP_CHUNK id) (bit_op v id) map) s.
Proof.
  intros Hm Hid. destruct (sys_map_get map id Hm Hid) as [c Hc].
  destruct v; [unfold set_sys_bit|unfold unset_sys_bit]; rewrite Hc; rewrite (bind_ret _ _ c s s) by done; done.
Qed.
Lemma own_bit_run v s rp p i pr id : pget s rp = Some p -> p_priv p = Some i -> aget (privs s) i = Some pr ->
  set_priv rp (fun pr0 => pr0 <| s_ipc_to := aupd (MAP_CHUNK id) (bit_op v id) (s_ipc_to pr) |>) s = Ret tt (put v i id s).
Proof.
  intros Hp Hi Hpr. rewrite (set_priv_run s rp p i pr _ Hp Hi Hpr). f_equal. apply prset_ext. intros x Hx. by assert (x = pr) as -> by congruence.
Qed.
Lemma other_bit_run v s k pr id : aget (privs s) k = Some pr ->
  set_priv_at k (fun pr0 => pr0 <| s_ipc_to := aupd (MAP_CHUNK id) (bit_op v id) (s_ipc_to pr) |>) s = Ret tt (put v k id s).
Proof.
  intros Hpr. unfold set_priv_at, priv_at. rewrite (bind_ret _ _ pr s s); [|rewrite (bind_ret _ _ _ _ _ (get_run _)); by rewrite Hpr].
  change (Ret tt (prset k (fun pr0 => pr0 <| s_ipc_to := aupd (MAP_CHUNK id) (bit_op v id) (s_ipc_to pr) |>) s) = Ret tt (put v k id s)).
  f_equal. apply prset_ext. intros x Hx. by assert (x = pr) as -> by congruence.
Qed.
Lemma priv_at_run s k pr : aget (privs s) k = Some pr -> priv_at k s = Ret pr s.
Proof. intros Hpr. unfold priv_at. rewrite (bind_ret _ _ _ _ _ (get_run _)). by rewrite Hpr. Qed.
Lemma set_sendto_bit_run s rp p i id : wide s -> pget s rp = Some p -> p_priv p = Some i -> slot_id i -> slot_id id ->
  set_sendto_bit rp id s = Ret tt (granted i id s).
Proof.
  intros Hw Hp Hi Hii Hid. destruct (wd_all _ Hw i Hii) as [pr Hpr]. destruct (wd_all _ Hw id Hid) as [q Hq].
  unfold set_sendto_bit. rewrite (bind_ret _ _ (s_proc_nr q) s s);
    [|unfold id_to_nr; rewrite (bind_ret _ _ _ _ _ (get_run _)), Hq; reflexivity].
  rewrite (bind_ret _ _ _ _ _ (get_priv_run _ _ _ _ _ Hp Hi Hpr)). rewrite (wd_id _ Hw _ _ Hpr). unfold granted, owner. rewrite Hq. cbn [fmap option_fmap option_map].
  replace (bool_decide (Some (s_proc_nr q) = Some NONE)) with (s_proc_nr q =? NONE)
    by (destruct (Z.eqb_spec (s_proc_nr q) NONE) as [->|]; [by rewrite bool_decide_true|by rewrite bool_decide_false by congruence]).
  destruct (_ || _).
  - rewrite (bind_ret _ _ _ _ _ (sys_bit_run false s _ id (wd_map _ Hw _ _ Hpr) Hid)). by apply (own_bit_run false s rp p).
  - rewrite (bind_ret _ _ _ _ _ (sys_bit_run true s _ id (wd_map _ Hw _ _ Hpr) Hid)).
    rewrite (bind_ret _ _ _ _ _ (own_bit_run true s rp p i pr id Hp Hi Hpr)). set (s1 := put true i id s).
    pose proof (put_get true i id s id q Hq) as Hq1. set (q1 := if decide (id = i) then _ else q) in Hq1.
    rewrite (bind_ret _ _ _ _ _ (priv_at_run s1 id q1 Hq1)).
    assert (s_trap_mask q1 = s_trap_mask q) as -> by (unfold q1; by case_decide). unfold answers. rewrite Hq. destruct (has _ _); [|done].
    pose proof (wide_put true i id s Hw) as Hw1.
    rewrite (bind_ret _ _ _ _ _ (sys_bit_run true s1 _ i (wd_map _ Hw1 _ _ Hq1) Hii)). by apply (other_bit_run true s1).
Qed.
Lemma unset_sendto_bit_run s rp p i id : wide s -> pget s rp = Some p -> p_priv p = Some i -> slot_id i -> slot_id id ->
  unset_sendto_bit rp id s = Ret tt (put false id i (put false i id s)).
Proof.
  intros Hw Hp Hi Hii Hid. destruct (wd_all _ Hw i Hii) as [pr Hpr]. destruct (wd_all _ Hw id Hid) as [q Hq].
  unfold unset_sendto_bit. rewrite (bind_ret _ _ _ _ _ (get_priv_run _ _ _ _ _ Hp Hi Hpr)).
  rewrite (bind_ret _ _ _ _ _ (sys_bit_run false s _ id (wd_map _ Hw _ _ Hpr) Hid)).
  rewrite (bind_ret _ _ _ _ _ (own_bit_run false s rp p i pr id Hp Hi Hpr)). set (s1 := put false i id s).
  pose proof (put_get false i id s id q Hq) as Hq1. pose proof (put_get false i id s i pr Hpr) as Hpr1.
  pose proof (wide_put false i id s Hw) as Hw1.
  rewrite (bind_ret _ _ _ _ _ (priv_at_run s1 id _ Hq1)).
  rewrite (bind_ret _ _ _ _ _ (get_priv_run s1 _ _ _ _ Hp Hi Hpr1)). rewrite (wd_id _ Hw1 _ _ Hpr1).
  rewrite (bind_ret _ _ _ _ _ (sys_bit_run false s1 _ i (wd_map _ Hw1 _ _ Hq1) Hii)). by apply (other_bit_run false s1).
Qed.

(** ** The whole mask *)
(** What the request grants: a target with an owner that is not the process itself. *)
Definition wanted s (mask i b : Z) : bool := Z.testbit mask b && negb (bool_decide (owner s b = Some NONE)) && negb (i =? b).
(** The maps after the structures [l] were visited. *)
Record masked s (mask i : Z) (l : list Z) s' : Prop := {
  mk_wide : wide s';
  mk_procs n : pget s' n = pget s n;
  mk_owner k : slot_id k -> owner s' k = owner s k;
  mk_answers k : slot_id k -> answers s' k = answers s k;
  mk_row b : slot_id b -> may_send s' i b = if decide (b ∈ l) then wanted s mask i b else may_send s i b;
  mk_column b : slot_id b -> b <> i -> may_send s' b i =
    if decide (b ∈ l) then
      if Z.testbit mask b then (wanted s mask i b && answers s b) || may_send s b i else false
    else may_send s b i;
  mk_others a b : slot_id a -> slot_id b -> a <> i -> b <> i -> may_send s' a b = may_send s a b;
}.
Lemma owner_put v k id s j : owner (put v k id s) j = owner s j.
Proof.
  unfold owner. rewrite put_privs. case_decide; [|done]. by destruct (aget (privs s) j).
Qed.
Lemma answers_put v k id s j : answers (put v k id s) j = answers s j.
Proof.
  unfold answers. rewrite put_privs. case_decide; [|done]. by destruct (aget (privs s) j).
Qed.
(** Case analysis on the bits that are meant. *)
Ltac bit_cases := repeat case_decide; try done; try tauto; repeat match goal with Hx : _ /\ _ |- _ => destruct Hx as [-> ->] end; try done; tauto.
(** One more structure: its effect on the maps. *)
Definition visited (mask i id : Z) s : state W := if Z.testbit mask id then granted i id s else put false id i (put false i id s).
Lemma visited_effect mask i id s : wide s -> slot_id i -> slot_id id ->
  wide (visited mask i id s) /\ (forall n, pget (visited mask i id s) n = pget s n) /\
  (forall k, owner (visited mask i id s) k = owner s k) /\ (forall k, answers (visited mask i id s) k = answers s k) /\
  forall a b, slot_id a -> slot_id b -> may_send (visited mask i id s) a b =
    if decide (a = i /\ b = id) then wanted s mask i id
    else if decide (a = id /\ b = i) then
      if Z.testbit mask id then (wanted s mask i id && answers s id) || may_send s id i else false
    else may_send s a b.
Proof.
  intros Hw Hi Hid. unfold visited, wanted. destruct (Z.testbit mask id) eqn:Hm; cbn [andb].
  - unfold granted. destruct (bool_decide (owner s id = Some NONE)) eqn:Ho; cbn [orb andb negb].
    + split; [by apply wide_put|]. split; [done|]. split; [intros; apply owner_put|]. split; [intros; apply answers_put|].
      intros a b Ha Hb. rewrite may_send_put by done. bit_cases.
    + destruct (Z.eqb_spec i id) as [He|He]; cbn [negb andb].
      { split; [by apply wide_put|]. split; [done|]. split; [intros; apply owner_put|]. split; [intros; apply answers_put|].
        intros a b Ha Hb. rewrite may_send_put by done. bit_cases. }
      destruct (answers s id) eqn:Han; cbn [andb orb].
      * split; [by apply wide_put, wide_put|]. split; [done|]. split; [intros; by rewrite !owner_put|]. split; [intros; by rewrite !answers_put|].
        intros a b Ha Hb. rewrite !may_send_put by (done || by apply wide_put). bit_cases.
      * split; [by apply wide_put|]. split; [done|]. split; [intros; apply owner_put|]. split; [intros; apply answers_put|].
        intros a b Ha Hb. rewrite may_send_put by done. bit_cases.
  - split; [by apply wide_put, wide_put|]. split; [done|]. split; [intros; by rewrite !owner_put|]. split; [intros; by rewrite !answers_put|].
    intros a b Ha Hb. rewrite !may_send_put by (done || by apply wide_put). bit_cases.
Qed.
Lemma visit_run s mask rp p i id : wide s -> pget s rp = Some p -> p_priv p = Some i -> slot_id i -> slot_id id -> id < 32 ->
  ((if id <? 32 then mret tt else halt Undef);;
   if Z.testbit mask id then set_sendto_bit rp id else unset_sendto_bit rp id) s = Ret tt (visited mask i id s).
Proof.
  intros Hw Hp Hi Hii Hid Hlt. rewrite (proj2 (Z.ltb_lt _ _) Hlt). rewrite (bind_ret _ _ _ _ _ (mret_run _ _)). unfold visited.
  destruct (Z.testbit mask id); [by apply (set_sendto_bit_run s rp p)|by apply (unset_sendto_bit_run s rp p)].
Qed.
Lemma masked_step s mask i pre id s1 : slot_id i -> slot_id id -> id ∉ pre -> masked s mask i pre s1 ->
  masked s mask i (pre ++ [id]) (visited mask i id s1).
Proof.
  intros Hi Hid Hnew [Hw Hp Ho Ha Hrow Hcol Hoth]. destruct (visited_effect mask i id s1 Hw Hi Hid) as (Hw' & Hp' & Ho' & Ha' & Hms).
  assert (wanted s1 mask i id = wanted s mask i id) as Hwant by (unfold wanted; by rewrite Ho).
  assert (forall b, b ∈ pre ++ [id] <-> b ∈ pre \/ b = id) as Hin by (intros b; by rewrite elem_of_app, list_elem_of_singleton).
  split; [done|intros n; by rewrite Hp'|intros k Hk; by rewrite Ho', Ho|intros k Hk; by rewrite Ha', Ha| | |].
  - intros b Hb. rewrite Hms by done. destruct (decide (i = i /\ b = id)) as [[_ ->]|Hne].
    + rewrite Hwant, decide_True; [done|]. apply Hin. by right.
    + assert (b <> id) as Hbi by tauto. rewrite (decide_False (P := i = id /\ b = i)) by (intros [? ?]; congruence). rewrite Hrow by done.
      destruct (decide (b ∈ pre)) as [Hbp|Hbp]; [rewrite decide_True by (apply Hin; by left); done|].
      rewrite decide_False; [done|]. rewrite Hin. tauto.
  - intros b Hb Hbi. rewrite Hms by done. rewrite decide_False by tauto. destruct (decide (b = id /\ i = i)) as [[-> _]|Hne].
    + rewrite (decide_True (P := id ∈ pre ++ [id])) by (apply Hin; by right). rewrite Hwant, Ha by done. rewrite Hcol, decide_False by done. done.
    + assert (b <> id) as Hbd by tauto. rewrite Hcol by done.
      destruct (decide (b ∈ pre)) as [Hbp|Hbp]; [rewrite decide_True by (apply Hin; by left); done|].
      rewrite decide_False; [done|]. rewrite Hin. tauto.
  - intros a b Hsa Hsb Hai Hbi. rewrite Hms, !decide_False by (done || tauto). by apply Hoth.
Qed.
Lemma mask_run s rp p i mask : good s -> pget s rp = Some p -> p_priv p = Some i -> slot_id i -> NR_SYS_PROCS <= 32 ->
  wp (fill_sendto_mask rp mask) (fun _ s' => masked s mask i (seqZ 0 NR_SYS_PROCS) s') never s.
Proof.
  intros Hg Hp Hi Hii Hn. apply (wp_foreach _ _ (fun pre s' => masked s mask i pre s')).
  - split; try done; [by apply good_wide|..]; intros; by rewrite decide_False by (by intros ?%elem_of_nil).
  - intros pre id post s1 Hseq Hm. assert (id = Z.of_nat (length pre) /\ slot_id id) as [Hlen Hid].
    { assert (seqZ 0 NR_SYS_PROCS !! length pre = Some id) as Hlk by (by rewrite Hseq, list_lookup_middle).
      apply lookup_seqZ in Hlk. unfold slot_id. lia. }
    eapply wp_ret_run; [apply (visit_run s1 mask rp p i id)|]; try done; [apply Hm|by rewrite (mk_procs _ _ _ _ _ Hm)|unfold slot_id in Hid; lia|].
    apply masked_step; try done. intros Hin. pose proof (NoDup_seqZ 0 NR_SYS_PROCS) as Hnd. rewrite Hseq in Hnd.
    apply list.NoDup_app in Hnd as (_ & Hd & _). apply (Hd id Hin). by left.
  - done.
Qed.

(** C27: [fill_sendto_mask], when there are at most 32 system structures, lets the process
    send exactly to those in the mask that have an owner other than itself; those outside
    the mask can no longer send to it, those in the mask that do more than receive can, and
    no other permission changes.  With more structures than an int has bits, it shifts too
    far, whatever the mask. *)
Theorem fill_sendto_mask_spec s rp p i mask : good s -> pget s rp = Some p -> live p -> p_priv p = Some i ->
  (NR_SYS_PROCS <= 32 -> exists s', fill_sendto_mask rp mask s = Ret tt s' /\
     (forall b, slot_id b -> may_send s' i b = wanted s mask i b) /\
     (forall b, slot_id b -> Z.testbit mask b = false -> may_send s' b i = false) /\
     (forall b, slot_id b -> wanted s mask i b = true -> answers s b = true -> may_send s' b i = true) /\
     (forall a b, slot_id a -> slot_id b -> a <> i -> b <> i -> may_send s' a b = may_send s a b)) /\
  (32 < NR_SYS_PROCS -> exists s', fill_sendto_mask rp mask s = Halt Undef s').
Proof.
  intros Hg Hp Hl Hi. split; [|by eapply fill_sendto_mask_far].
  intros Hn. destruct (good_priv s rp p Hg Hp Hl) as (k & pr & Hk & Hpr & _). assert (k = i) as -> by congruence.
  assert (slot_id i) as Hii by (rewrite <-(sn_id _ (proj2 Hg) _ _ Hpr); by apply (sane_range s i pr (proj2 Hg))).
  pose proof (mask_run s rp p i mask Hg Hp Hi Hii Hn) as (u & s' & Hrun & Hm)%wp_never_run. destruct u. exists s'. split; [done|].
  assert (forall b, slot_id b -> b ∈ seqZ 0 NR_SYS_PROCS) as Hall by (intros b Hb; apply elem_of_seqZ; unfold slot_id in Hb; lia).
  assert (forall b, slot_id b -> may_send s' i b = wanted s mask i b) as Hrow.
  { intros b Hb. by rewrite (mk_row _ _ _ _ _ Hm b Hb), decide_True by by apply Hall. }
  split; [done|]. split; [|split; [|apply Hm]].
  - intros b Hb Hoff. destruct (decide (b = i)) as [->|Hne]; [rewrite Hrow by done; unfold wanted; by rewrite Hoff|].
    by rewrite (mk_column _ _ _ _ _ Hm b Hb Hne), decide_True, Hoff by by apply Hall.
  - intros b Hb Hw Ha. destruct (decide (b = i)) as [->|Hne]; [by rewrite Hrow|].
    rewrite (mk_column _ _ _ _ _ Hm b Hb Hne), decide_True, Hw, Ha by by apply Hall.
    unfold wanted in Hw. apply andb_true_iff in Hw as [[-> _]%andb_true_iff _]. done.
Qed.
End masks.
