(* ===== verification/KSysMain.v ===== *)
(** The dispatch of the kernel calls and what a call promises: it keeps the invariant; the
    signals that a manager collects; the calls that are refused. *)
From S2P Require Import Prelude Minix KProc KIpc KSys KSysInv KSysCalls KSysTime KSysEnd KSysFork KSysPriv.
Local Open Scope Z_scope.

Section main.
Context `{MinixLaws} `{KernelHeaders} `{!IpcLaws} `{KCallHeaders} {W : Type} `{KernelEnvLaws W} `{!KSysEnv W} `{!KSysLaws W}.
Context `{!KOtherCalls (W := W)}.
Implicit Types (s : state W).
#[local] Hint Resolve get_proc_run set_proc_run set_misc_run clear_misc_run : run.

(** ** What a request relies on *)
Definition modelled_calls : list Z :=
  [SYS_FORK; SYS_EXEC; SYS_CLEAR; SYS_EXIT; SYS_PRIVCTL; SYS_TRACE; SYS_SETGRANT; SYS_RUNCTL; SYS_STATECTL; SYS_KILL;
   SYS_GETKSIG; SYS_ENDKSIG; SYS_TIMES; SYS_SETALARM; SYS_VTIMER; SYS_SCHEDULE; SYS_SCHEDCTL].
Definition target_ok s (e : Z) (P : Z -> proc -> Prop) : Prop :=
  forall p, pget s (_ENDPOINT_P e) = Some p -> p_endpoint p = e -> live p -> P (_ENDPOINT_P e) p.
Record request_ok s (caller : Z) (c : proc) (m : message) : Prop := {
  ro_modelled : m_type m ∈ modelled_calls;
  ro_fork : m_type m = SYS_FORK -> (exists q, pget s (PR_SLOT m) = Some q) /\
    target_ok s (PR_ENDPT m) (fun n p => forkable s n p /\ MF p MF_DELIVERMSG = false);
  ro_clear : m_type m = SYS_CLEAR -> target_ok s (PR_ENDPT m) (endable s);
  ro_exit : m_type m = SYS_EXIT -> signal_ok s caller SIGABRT;
  ro_kill : m_type m = SYS_KILL -> signal_ok s (_ENDPOINT_P (SIG_ENDPT m)) (SIG_NUMBER m);
  ro_privctl : m_type m = SYS_PRIVCTL -> privctl_ok s c m;
  ro_trace : m_type m = SYS_TRACE -> trace_control (CTL_REQUEST m) = true;
  ro_statectl : m_type m = SYS_STATECTL -> no_sender s (p_endpoint c);
  ro_setalarm : m_type m = SYS_SETALARM -> alarm_fits s m;
  ro_schedule : m_type m = SYS_SCHEDULE -> u32 (SCHEDULING_PRIORITY m) <> NR_SCHED_QUEUES;
  ro_schedctl : m_type m = SYS_SCHEDCTL -> u32 (SCHEDCTL_PRIORITY m) <> NR_SCHED_QUEUES;
}.

(** ** The dispatch *)
Lemma wp_served {A} (m : M (state W) A) (P Q : A -> state W -> Prop) s :
  wp m (fun r s' => P r s' /\ Q r s') never s -> wp m P never s.
Proof. intros Hm. eapply wp_mono; [exact Hm| |done]. by intros r s' [? _]. Qed.
Lemma call_vec_good s caller c m : good s -> 0 <= caller -> pget s caller = Some c -> p_rts_flags c = 0 -> request_ok s caller c m ->
  wp (call_vec (m_type m - KERNEL_CALL) caller m) served never s.
Proof.
  intros Hg Hc0 Hc Hcz []. unfold call_vec. rewrite Z.sub_add. assert (live c) as Hlc by (intros Hf; by rewrite Hcz in Hf).
  destruct (Z.eqb_spec (m_type m) SYS_FORK) as [He|?].
  { destruct (ro_fork0 He) as [Hslot Ht]. eapply wp_served. by apply do_fork_good. }
  destruct (Z.eqb_spec (m_type m) SYS_EXEC); [by apply do_exec_good|].
  destruct (Z.eqb_spec (m_type m) SYS_CLEAR) as [He|?]; [eapply wp_served; apply do_clear_good; [done|by apply ro_clear0]|].
  destruct (Z.eqb_spec (m_type m) SYS_EXIT) as [He|?]; [apply (do_exit_good s caller c); auto|].
  destruct (Z.eqb_spec (m_type m) SYS_PRIVCTL) as [He|?]; [apply (do_privctl_good s caller c); auto|].
  destruct (Z.eqb_spec (m_type m) SYS_TRACE) as [He|?]; [apply do_trace_good; auto|].
  destruct (Z.eqb_spec (m_type m) SYS_SETGRANT); [by apply (do_setgrant_good s caller c)|].
  destruct (Z.eqb_spec (m_type m) SYS_RUNCTL); [by apply do_runctl_good|].
  destruct (Z.eqb_spec (m_type m) SYS_STATECTL) as [He|?]; [apply (do_statectl_good s caller c); auto|].
  destruct (Z.eqb_spec (m_type m) SYS_KILL) as [He|?]; [apply do_kill_good; [done|]; intros k ->; auto|].
  destruct (Z.eqb_spec (m_type m) SYS_GETKSIG) as [He|?]; [by apply (do_getksig_good s caller c)|].
  destruct (Z.eqb_spec (m_type m) SYS_ENDKSIG) as [He|?]; [by apply (do_endksig_good s caller c)|].
  destruct (Z.eqb_spec (m_type m) SYS_TIMES) as [He|?]; [by apply (do_times_good s caller c)|].
  destruct (Z.eqb_spec (m_type m) SYS_SETALARM) as [He|?]; [apply (do_setalarm_good s caller c); auto|].
  destruct (Z.eqb_spec (m_type m) SYS_VTIMER) as [He|?]; [by apply (do_vtimer_good s caller c)|].
  destruct (Z.eqb_spec (m_type m) SYS_SCHEDULE) as [He|?]; [apply do_schedule_good; auto|].
  destruct (Z.eqb_spec (m_type m) SYS_SCHEDCTL) as [He|?]; [apply do_schedctl_good; auto|].
  exfalso. unfold modelled_calls in ro_modelled0. repeat (apply elem_of_cons in ro_modelled0 as [?|ro_modelled0]; [done|]).
  by apply elem_of_nil in ro_modelled0.
Qed.
Lemma dispatch_good s caller c m : good s -> 0 <= caller -> pget s caller = Some c -> p_rts_flags c = 0 -> request_ok s caller c m ->
  wp (kernel_call_dispatch caller m) served never s.
Proof.
  intros Hg Hc0 Hc Hcz Hok. unfold kernel_call_dispatch. cbv zeta. assert (live c) as Hlc by (intros Hf; by rewrite Hcz in Hf).
  destruct (_ || _) eqn:Hnr; [by eauto|]. apply orb_false_iff in Hnr as [Hlo%Z.ltb_ge Hhi%Z.leb_gt].
  apply wp_bind, (wp_get_priv s caller c); [done..|]. intros i pr _ Hpr.
  destruct (aget_is_Some (s_k_call_mask pr) (MAP_CHUNK (m_type m - KERNEL_CALL))) as [ch Hch].
  { rewrite (sn_calls _ (proj2 Hg) _ _ Hpr). pose proof (call_chunk (m_type m - KERNEL_CALL)). lia. }
  eapply wp_bind_run; [unfold get_sys_bit; rewrite Hch; reflexivity|]. cbn beta. destruct (negb _); [by eauto|]. by eapply call_vec_good.
Qed.

(** ** The whole call *)
Lemma finish_good s caller m r : good s -> (exists c, pget s caller = Some c) -> r <> VMSUSPEND ->
  wp (kernel_call_finish caller m r) (fun _ s' => stays s s') never s.
Proof.
  intros Hg [c Hc] Hr. unfold kernel_call_finish. rewrite bool_decide_false by done.
  apply wp_bind. eapply wp_quiet; [done|done|quiet_tac|done..|]. set (f := fun p : proc => _). intros Hs1.
  destruct (bool_decide _); [by apply wp_ret|]. eapply wp_bind_run; [apply (get_proc_run _ caller), (pget_pset_some s caller f c Hc)|].
  apply wp_bind, wp_get. destruct (copy_msg_to_user _ _ _ _) as [w|]; [|by apply wp_ret].
  apply wp_modify. eapply stays_trans; [exact Hs1|]. apply (stays_world _ w), Hs1.
Qed.
Definition entered (m_user caller : Z) s : state W := pset caller (fun p => p <| p_delivermsg_vir := m_user |>) s.

(** C3: a kernel call of a running process, when its request meets the conditions of its
    handler, ends: it never panics and never reads or writes outside of a table, and it
    keeps the run queues, the queues of senders, the privileges and the managers of signals
    consistent.  A message that cannot be read is refused. *)
Theorem kernel_call_safe s caller c m_user : good s -> 0 <= caller -> pget s caller = Some c -> p_rts_flags c = 0 ->
  (forall m, copy_msg_from_user caller m_user (world s) = Some m ->
     request_ok (entered m_user caller s) caller (c <| p_delivermsg_vir := m_user |>) (m <| m_source := p_endpoint c |>)) ->
  wp (kernel_call m_user caller) (fun _ s' => good s') never s.
Proof.
  intros Hg Hc0 Hc Hcz Hok. unfold kernel_call. set (f := fun p : proc => p <| p_delivermsg_vir := m_user |>).
  apply wp_bind. eapply (wp_quiet s caller c f); [done|done|unfold f; quiet_tac|done..|]. intros Hs1.
  apply wp_bind, wp_get. pose proof (pget_pset_some s caller f c Hc) as Hc1. eapply wp_bind_run; [by apply get_proc_run|]. cbn beta.
  change (world (pset caller f s)) with (world s). destruct (copy_msg_from_user caller m_user (world s)) as [m|] eqn:Hm.
  - specialize (Hok m eq_refl). apply wp_bind.
    eapply wp_mono; [apply (dispatch_good _ caller (f c)); [apply Hs1|done|done|done|exact Hok]| |done].
    intros [r m'] s2 [Hg2 Hr]. destruct Hs1 as [[(Q1 & C1 & Hi1) _] _].
    eapply wp_mono; [apply finish_good; [done| |done]| |done].
    + apply good_slot; [done|]. by apply (slot_range _ _ _ _ (proj1 Hi1) Hc1).
    + intros u s3 Hs3. apply Hs3.
  - eapply wp_mono; [apply finish_good; [apply Hs1|by eexists|done]| |done]. intros u s3 Hs3. apply Hs3.
Qed.

(** ** Refusals *)
Definition call_allowed (pr : priv) (nr : Z) : bool :=
  match aget (s_k_call_mask pr) (MAP_CHUNK nr) with Some c => Z.testbit c (CHUNK_OFFSET nr) | None => false end.
(** C28: a call with a number that does not exist is answered with EBADREQUEST, and one that
    the mask of the caller does not allow with ECALLDENIED; neither has an effect. *)
Theorem dispatch_refuses s caller c i pr m : good s -> pget s caller = Some c -> live c -> p_priv c = Some i -> aget (privs s) i = Some pr ->
  let nr := m_type m - KERNEL_CALL in
  (~ 0 <= nr < NR_SYS_CALLS -> kernel_call_dispatch caller m s = Ret (EBADREQUEST, m) s) /\
  (0 <= nr < NR_SYS_CALLS -> call_allowed pr nr = false -> kernel_call_dispatch caller m s = Ret (ECALLDENIED, m) s).
Proof.
  intros Hg Hc Hl Hi Hpr nr. unfold kernel_call_dispatch. fold nr. split.
  - intros Hn. destruct (Z.ltb_spec nr 0); [done|]. destruct (Z.leb_spec NR_SYS_CALLS nr); [done|lia].
  - intros Hn Hd. rewrite (proj2 (Z.ltb_ge _ _)), (proj2 (Z.leb_gt _ _)) by lia. cbn [orb].
    rewrite (bind_ret _ _ _ _ _ (get_priv_run _ _ _ _ _ Hc Hi Hpr)).
    destruct (aget_is_Some (s_k_call_mask pr) (MAP_CHUNK nr)) as [ch Hch].
    { rewrite (sn_calls _ (proj2 Hg) _ _ Hpr). pose proof (call_chunk nr). lia. }
    unfold call_allowed in Hd. rewrite Hch in Hd. unfold get_sys_bit. rewrite Hch.
    cbn [deref]. rewrite (bind_ret _ _ false s s); [done|]. rewrite (bind_ret _ _ _ _ _ (mret_run ch s)). by rewrite Hd.
Qed.

(** ** The signals of a manager *)
(** The process has signals that the caller manages. *)
Definition signalled s (c p : proc) : Prop := RTS_ISSET p RTS_SIGNALED = true /\
  exists i pr, p_priv p = Some i /\ aget (privs s) i = Some pr /\ s_sig_mgr pr = p_endpoint c.
(** C23: [do_getksig] gives the caller the signals of the first process, in the order of the
    table, that has signals the caller manages: it reports them all, clears them and the flag
    that announced them, and leaves the process stopped until the manager has handled them;
    when there is no such process it says so and changes nothing. *)
Theorem sys_getksig_spec s caller c m : good s -> pget s caller = Some c ->
  wp (do_getksig caller m) (fun r s' => r.1 = OK /\
    ((exists n p p', pget s n = Some p /\ signalled s c p /\ (forall k q, 0 <= k < n -> pget s k = Some q -> ~ signalled s c q) /\
        r.2 = put_SIG_MAP (p_pending p) (put_SIG_ENDPT (p_endpoint p) m) /\ pget s' n = Some p' /\
        p_pending p' = sigemptyset /\ RTS_ISSET p' RTS_SIGNALED = false /\ RTS_ISSET p' RTS_SIG_PENDING = RTS_ISSET p RTS_SIG_PENDING) \/
     ((forall k q, 0 <= k < NR_PROCS -> pget s k = Some q -> ~ signalled s c q) /\ r.2 = put_SIG_ENDPT NONE m /\ s' = s))) never s.
Proof.
  intros Hg Hc. unfold do_getksig. apply wp_bind.
  apply (wp_for _ _ (fun pre s' => s' = s /\ forall k q, k ∈ pre -> pget s k = Some q -> ~ signalled s c q)).
  - split; [done|]. by intros k q Hk%elem_of_nil.
  - intros pre n post s' Hseq [-> Hpre]. assert (n = Z.of_nat (length pre) /\ 0 <= n < NR_PROCS) as [Hlen Hn].
    { assert (seqZ 0 NR_PROCS !! length pre = Some n) as Hlk by (by rewrite Hseq, list_lookup_middle). apply lookup_seqZ in Hlk. lia. }
    assert (forall k, 0 <= k < n -> k ∈ pre) as Hbefore.
    { intros k Hk. assert (seqZ 0 NR_PROCS !! Z.to_nat k = Some k) as Hlk by (apply lookup_seqZ; lia).
      rewrite Hseq, lookup_app_l in Hlk by lia. by apply list_elem_of_lookup_2 in Hlk. }
    assert (forall P : Prop, (forall q, pget s n = Some q -> ~ signalled s c q) -> (s = s /\ forall k q, k ∈ pre ++ [n] -> pget s k = Some q -> ~ signalled s c q)) as Hnext.
    { intros _ Hq. split; [done|]. intros k q [Hk|Hk%list_elem_of_singleton]%elem_of_app; [by apply Hpre|]. subst k. by apply Hq. }
    pose proof NR_TASKS_nonneg. destruct (good_slot s n Hg) as [p Hp]; [lia|]. eapply wp_bind_run; [by apply get_proc_run|]. cbn beta.
    destruct (RTS_ISSET p RTS_SIGNALED) eqn:Hsig; cbn [negb].
    2:{ apply wp_ret, (Hnext True). intros q Hq [Hs _]. congruence. }
    assert (live p) as Hl by (intros Hf; unfold RTS_ISSET in Hsig; by rewrite Hf in Hsig).
    eapply wp_bind_run; [by apply get_proc_run|]. destruct (good_priv s n p Hg Hp Hl) as (i & pr & Hi & Hpr & Hgp).
    eapply wp_bind_run; [exact Hgp|]. cbn beta. destruct (Z.eqb_spec (p_endpoint c) (s_sig_mgr pr)) as [He|He]; cbn [negb].
    2:{ apply wp_ret, (Hnext True). intros q Hq (_ & j & x & Hj & Hx & Hm). congruence. }
    set (f := fun p : proc => p <| p_pending := sigemptyset |>).
    apply wp_bind. eapply (wp_quiet s n p f); [done|done|unfold f; quiet_tac|done..|]. intros Hs1.
    pose proof (pget_pset_some s n f p Hp) as Hp1.
    destruct (stays_UNSET _ n (f p) RTS_SIGNALED (proj1 Hs1) Hp1 Hl eq_refl eq_refl) as (s2 & Hrun & _ & _ & Hfwd).
    eapply wp_bind_run; [exact Hrun|]. destruct (Hfwd _ _ Hp1) as (p2 & Hp2 & Hag). rewrite decide_True in Hag by done.
    apply wp_ret, wp_ret. split; [done|]. left. exists n, p, p2. split_and!; [done| | |done|done| | |].
    + split; [done|]. exists i, pr. split_and!; [done|done|congruence].
    + intros k q Hk. apply Hpre. by apply Hbefore.
    + destruct Hag as [Hst _]. assert (p_pending (strip (p2 <| p_rts_flags := 0 |>)) = sigemptyset) as Hpd by (by rewrite Hst). exact Hpd.
    + change RTS_SIGNALED with (2 ^ 4). rewrite isset_has by lia. rewrite (agrees_has 4 _ _ ltac:(lia) ltac:(lia) Hag). cbn.
      by rewrite has_clear, andb_false_r by lia.
    + change RTS_SIG_PENDING with (2 ^ 5). rewrite !isset_has by lia. rewrite (agrees_has 5 _ _ ltac:(lia) ltac:(lia) Hag). cbn.
      by rewrite has_clear, andb_true_r by lia.
  - intros s' [-> Hno]. apply wp_ret. split; [done|]. right. split_and!; [|done|done]. intros k q Hk. apply Hno, elem_of_seqZ. lia.
Qed.
End main.
