(* ===== verification/KSysDemo.v ===== *)
(** A small kernel for the kernel calls: concrete headers, a concrete outside and a state in
    which the properties are applied. *)
From S2P Require Import Prelude Minix KProc KIpc KSys KSysInv KSysCalls KSysTime KSysEnd KSysFork KSysPriv KSysMask KSysMain.
Local Open Scope Z_scope.

Module Demo.
#[local] Existing Instance demo_headers.
#[local] Existing Instance demo_laws.
#[local] Existing Instance KProc.Demo.headers.
#[local] Existing Instance KProc.Demo.env.
#[local] Existing Instance KProc.Demo.env_laws.
#[local] Existing Instance KIpc.Demo.ipc_laws.
Import KProc.Demo.

(** The fields of a request are the words of the message. *)
Definition word (k : nat) (m : message) : Z := nth k (m_rest m) 0.
Definition put_word (k : nat) (v : Z) (m : message) : message := m <| m_rest := <[k := v]> (take 8 (m_rest m ++ replicate 8 0)) |>.
#[local] Instance call_headers : KCallHeaders := {
  status_of := fun r => if is_ok r then 0 else -1; KERNEL_CALL := 0; NR_SYS_CALLS := 30;
  SYS_FORK := 0; SYS_EXEC := 1; SYS_CLEAR := 2; SYS_EXIT := 3; SYS_PRIVCTL := 4; SYS_TRACE := 5; SYS_SETGRANT := 6;
  SYS_RUNCTL := 8; SYS_STATECTL := 9; SYS_KILL := 10; SYS_GETKSIG := 7; SYS_ENDKSIG := 11; SYS_TIMES := 12;
  SYS_SETALARM := 13; SYS_VTIMER := 14; SYS_SCHEDULE := 15; SYS_SCHEDCTL := 16;
  PR_ENDPT := word 0; PR_SLOT := word 1; PR_MEM_PTR := word 2; PR_FORK_FLAGS := word 3; PR_IP_PTR := word 4; PR_STACK_PTR := word 5;
  SIG_ENDPT := word 0; SIG_NUMBER := word 1; RC_ENDPT := word 0; RC_ACTION := word 1; RC_FLAGS := word 2;
  SCHEDULING_ENDPOINT := word 0; SCHEDULING_PRIORITY := word 1; SCHEDULING_QUANTUM := word 2;
  SCHEDCTL_FLAGS := word 0; SCHEDCTL_ENDPOINT := word 1; SCHEDCTL_PRIORITY := word 2; SCHEDCTL_QUANTUM := word 3;
  CTL_ENDPT := word 0; CTL_REQUEST := word 1; CTL_ARG_PTR := word 2; CTL_PHYSSTART := word 3; CTL_PHYSLEN := word 4;
  SG_ADDR := word 0; SG_SIZE := word 1; VT_WHICH := word 0; VT_SET := word 1; VT_VALUE := word 2; VT_ENDPT := word 3;
  T_ENDPT := word 0; ALRM_EXP_TIME := word 0; ALRM_ABS_TIME := word 1;
  put_PR_ENDPT := put_word 0; put_PR_FORK_MSGADDR := put_word 1; put_SIG_ENDPT := put_word 0; put_SIG_MAP := put_word 1;
  put_CTL_DATA := put_word 2; put_VT_VALUE := put_word 2; put_T_USER_TIME := put_word 1; put_T_SYSTEM_TIME := put_word 2;
  put_T_BOOT_TICKS := put_word 3; put_T_BOOTTIME := put_word 4; put_ALRM_TIME_LEFT := put_word 2;
  _ENDPOINT_G := fun e => (e + 4) / 1024; _ENDPOINT := fun g n => g * 1024 + n; _ENDPOINT_MAX_GENERATION := 100;
  PFF_VMINHIBIT := 1; sigemptyset := 0; _NSIG := 32; SIGABRT := 6; SIGVTALRM := 14; SIGPROF := 15;
  RC_STOP := 0; RC_RESUME := 1; RC_DELAY := 1; SCHEDCTL_FLAG_KERNEL := 1; SYS_STATE_CLEAR_IPC_REFS := 1;
  VT_VIRTUAL := 1; VT_PROF := 2; TMR_NEVER := 2 ^ 31 - 1;
  T_STOP := -1; T_DETACH := 10; T_RESUME := 7; T_STEP := 9; T_SYSCALL := 11;
  SYS_PRIV_ALLOW := 1; SYS_PRIV_YIELD := 10; SYS_PRIV_DISALLOW := 2; SYS_PRIV_SET_SYS := 3; SYS_PRIV_SET_USER := 4;
  SYS_PRIV_ADD_IO := 5; SYS_PRIV_ADD_MEM := 6; SYS_PRIV_ADD_IRQ := 7; SYS_PRIV_QUERY_MEM := 8; SYS_PRIV_UPDATE_SYS := 9;
  NULL_PRIV_ID := -1; NR_STATIC_PRIV_IDS := 2; is_static_priv_id := fun i => (0 <=? i) && (i <? 2); DYN_PRIV_ID := 0x100;
  CHECK_IRQ := 0x200; CHECK_IO_PORT := 0x400; CHECK_MEM := 0x800; NR_IRQ := 4; NR_IO_RANGE := 4; NR_MEM_RANGE := 4;
  DSRV_F := 0x112; DSRV_T := -1; DSRV_M := -1; DSRV_KC := 0; DSRV_SM := 1024; NO_C := 0; SYS_CALL_MASK_SIZE := 1;
  _LOAD_UNIT_SECS := 6; _LOAD_HISTORY := 3;
  _K_SET_GRANT_TABLE := fun a n pr => pr <| s_grant_table := a |> <| s_grant_entries := n |>;
}.
(** The samples of the load are kept at the head of the memory. *)
Definition demo_load (w : memory) : loadinfo :=
  match w with
  | ((slot, clock), (_, _, m, _)) :: _ =>
      if decide (length (m_rest m) = 3%nat) then mk_loadinfo (m_rest m) slot clock else mk_loadinfo [0; 0; 0] 0 0
  | [] => mk_loadinfo [0; 0; 0] 0 0
  end.
Definition set_demo_load (l : loadinfo) (w : memory) : memory :=
  ((proc_last_slot l, last_clock l), (0, 0, mk_message 0 0 0 0 (proc_load_history l), OK)) :: w.
#[local] Instance sys_env : KSysEnv memory := {
  stack_message := fun _ => some_msg; copy_msg_to_user := fun _ _ _ w => Some w; newmap := fun _ _ _ w => (OK, w);
  release_address_space := fun _ w => (tt, w); rm_irq_hooks := fun _ w => (tt, w); fork_fpu := fun _ _ w => (tt, w);
  release_fpu := fun _ w => (tt, w); arch_pre_exec := fun _ _ _ w => (tt, w); boottime := fun _ => 1000;
  copy_priv := fun _ _ _ => (OK, privilege 0); copy_range := fun _ _ _ => (OK, (0, 0)); copy_irq := fun _ _ _ => (OK, 1);
  tmr_exp_time := fun _ _ => 2 ^ 31 - 1; reset_timer := fun _ w => (tt, w); set_timer := fun _ _ _ w => (tt, w);
  system_hz := fun _ => 60; load_info := demo_load; set_load_info := set_demo_load;
}.
#[local] Instance sys_laws : KSysLaws memory.
Proof.
  split; try done.
  - intros e. change (- 2 ^ 31 <= (e + 4) mod 1024 - 4 < 2 ^ 30). Z.div_mod_to_equations; lia.
  - intros g n Hn. change ((g * 1024 + n + 4) mod 1024 - 4 = n). change (- 4 <= n < 8) in Hn. Z.div_mod_to_equations; lia.
  - intros nr Hnr. change (0 <= nr < 30) in Hnr. change (0 <= nr / 32 < 1). Z.div_mod_to_equations; lia.
  - intros id Hid. change (0 <= id < 4) in Hid. change (0 <= id / 32 < 1). Z.div_mod_to_equations; lia.
  - intros id Hid. change (0 <= id mod 32 < 32). Z.div_mod_to_equations; lia.
  - intros a b Ha Hb Hd Hm. change (a / 32 = b / 32) in Hd. change (a mod 32 = b mod 32) in Hm. Z.div_mod_to_equations; lia.
  - intros w. unfold load_info, sys_env, demo_load. destruct w as [|[[? ?] [[[? ?] m] ?]] w]; [done|]. by case_decide.
  - intros [h sl c] w Hl. unfold load_info, set_load_info, sys_env, demo_load, set_demo_load. cbn in *. by rewrite decide_True.
  - intros i Hi. change ((0 <=? i) && (i <? 2) = true) in Hi. change (0 <= i < 4). Z.div_mod_to_equations; lia.
Qed.
#[local] Instance clock_laws : ClockLaws.
Proof. by split. Qed.
#[local] Instance other_calls : KOtherCalls (W := memory) := {
  trace_memory := fun _ _ m => mret (EINVAL, m); other_kernel_call := fun _ _ m => mret (EINVAL, m);
}.

(** Process 0 runs, manages the signals of the others and has a timer that is about to
    expire; 1 waits for 0; 2 has signals; 3 waits for 2; the clock and the system task are
    stopped. *)
Definition task (n : Z) : proc := process n RTS_PROC_STOP 0 None.
Definition q0 : proc := process 0 0 3 None <| p_misc_flags := MF_VIRT_TIMER |> <| p_virt_left := 1 |>.
Definition q1 : proc := process 1 RTS_RECEIVING 7 None <| p_getfrom_e := 1024 |>.
Definition q2 : proc := process 2 (Z.lor RTS_SIGNALED RTS_SIG_PENDING) 7 None <| p_pending := 32 |>.
Definition q3 : proc := process 3 RTS_RECEIVING 7 None <| p_getfrom_e := 1026 |>.
Definition managed (i : Z) : priv := privilege i <| s_sig_mgr := if i =? 0 then SELF else 1024 |>
  <| s_flags := if i =? 0 then Z.lor SYS_PROC BILLABLE else BILLABLE |>.
Definition v0 : state memory :=
  mk_state
    ([free_slot (-4); task (-3); task (-2); free_slot (-1); q0; q1; q2; q3] ++ map free_slot (seqZ 4 4))
    (map managed (seqZ 0 4))
    (aupd 3 (fun _ => Some 0) (replicate 18 None)) (aupd 3 (fun _ => Some 0) (replicate 18 None))
    0 0 500 [].
Definition Qv (q : Z) : list Z := if q =? 3 then [0] else [].
Definition Cv (n : Z) : list Z := [].

Lemma Qv_elem q n : n ∈ Qv q -> n = 0 /\ q = 3.
Proof. unfold Qv. destruct (Z.eqb_spec q 3) as [->|]; [by intros ->%list_elem_of_singleton|by intros ?%elem_of_nil]. Qed.
Lemma v0_rq : rq v0 Qv.
Proof.
  constructor.
  - constructor.
    + done.
    + apply forall_queue. repeat constructor; eexists; (split; [reflexivity|]); simpl; repeat first [reflexivity | eexists | split].
    + apply forall_queue. repeat constructor.
    + intros q _. unfold Qv. repeat case_match; repeat constructor; by apply not_elem_of_nil.
    + intros q q' n _ _ [_ ->]%Qv_elem [_ ->]%Qv_elem. done.
  - intros q n Hq. split.
    + intros [-> ->]%Qv_elem. by eexists.
    + intros (p & Hp & Hz & Hpr). revert Hz Hpr. revert q Hq.
      refine (pget_all v0 (fun n p => forall q, queue_nr q -> p_rts_flags p = 0 -> p_priority p = q -> n ∈ Qv q) n p Hp _).
      repeat constructor; simpl; intros ? _ ? <-; first [done | by left].
  - intros n p Hp Hz. revert Hz. refine (pget_all v0 (fun n p => p_rts_flags p = 0 -> queue_nr (p_priority p)) n p Hp _).
    repeat constructor; simpl; intros; done || lia.
  - intros n p Hp. refine (pget_all v0 (fun n p => p_magic p = PMAGIC) n p Hp _). repeat constructor.
  - intros n p Hp. refine (pget_all v0 (fun n p => _ <= p_rts_flags p < _) n p Hp _). repeat constructor; vm_compute; done.
  - intros n p Hp. refine (pget_all v0 (fun n p => p_rts_flags p <> _ -> exists i pr, p_priv p = Some i /\ aget (privs v0) i = Some pr) n p Hp _).
    repeat constructor; simpl; first [done | intros _; eexists _, _; by split].
  - eexists _, _, _. by split_and!.
Qed.
Lemma v0_live n : n ∈ [-3; -2; 0; 1; 2; 3] -> live_ep v0 (1024 + n).
Proof.
  rewrite !elem_of_cons, elem_of_nil. intros [->|[->|[->|[->|[->|[->|[]]]]]]]; eexists; (split_and!; [reflexivity|reflexivity|done]).
Qed.
Lemma v0_ipcs : ipcs v0 Cv.
Proof.
  constructor.
  - intros n p Hp. refine (pget_all v0 (fun n p => linked (qnx v0) (p_caller_q p) (Cv n)) n p Hp _). repeat constructor.
  - intros n. constructor.
  - intros n m. split; [by intros ?%elem_of_nil|]. intros (p & Hp & Hs & _). revert Hs.
    refine (pget_all v0 (fun m p => sending p = true -> m ∈ Cv n) m p Hp _). repeat constructor; done.
  - intros m p Hp. refine (pget_all v0 (fun m p => sending p = false -> p_q_link p = None) m p Hp _). repeat constructor.
  - intros m p Hp. refine (pget_all v0 (fun m p => p_nr p = m) m p Hp _). repeat constructor.
  - intros m p Hp. refine (pget_all v0 (fun m p => live p -> _ENDPOINT_P (p_endpoint p) = m) m p Hp _).
    repeat constructor; intros Hl; first [done | by destruct Hl].
  - intros m p Hp. refine (pget_all v0 (fun m p => live p -> queue_nr (p_priority p)) m p Hp _). repeat constructor; intros; done.
  - intros m p Hp. refine (pget_all v0 (fun m p => sending p = true -> live_ep v0 (p_sendto_e p)) m p Hp _). repeat constructor; done.
  - intros m p Hp. refine (pget_all v0 (fun m p => receiving p = true -> p_getfrom_e p = ANY \/ live_ep v0 (p_getfrom_e p)) m p Hp _).
    repeat apply Forall_cons_2; try apply Forall_nil_2; intros Hr; try done; right; [apply (v0_live 0)|apply (v0_live 2)]; set_solver.
  - intros m p Hp. refine (pget_all v0 (fun m p => sending p = true -> receiving p = true -> p_getfrom_e p = p_sendto_e p) m p Hp _).
    repeat constructor; intros; done.
  - intros m p Hp. refine (pget_all v0 (fun m p => live p -> RTS_ISSET p RTS_SLOT_FREE = false) m p Hp _).
    repeat constructor; intros Hl; first [done | by destruct Hl].
  - intros p. vm_compute. by intros [= <-].
Qed.
Lemma privs_all (P : Z -> priv -> Prop) i pr : aget (privs v0) i = Some pr ->
  Forall (fun '(k, pr) => P (Z.of_nat k) pr) (imap pair (privs v0)) -> P i pr.
Proof.
  intros [Hi Hpr]%aget_Some Hall. rewrite Forall_lookup in Hall. specialize (Hall (Z.to_nat i) (Z.to_nat i, pr)). cbn beta iota in Hall.
  rewrite Z2Nat.id in Hall by done. apply Hall. by rewrite list_lookup_imap, Hpr.
Qed.
Lemma v0_sane : sane v0.
Proof.
  constructor.
  - intros i pr Hpr. refine (privs_all (fun i pr => length _ = _) i pr Hpr _). repeat constructor.
  - intros i pr Hpr. refine (privs_all (fun i pr => length _ = _) i pr Hpr _). repeat constructor.
  - intros i pr Hpr. refine (privs_all (fun i pr => length _ = _) i pr Hpr _). repeat constructor.
  - done.
  - intros i pr Hpr. refine (privs_all (fun i pr => s_id pr = i) i pr Hpr _). repeat constructor.
  - intros i pr Hpr. refine (privs_all (fun i pr => s_sig_mgr pr = SELF \/ s_sig_mgr pr = NONE \/ live_ep v0 (s_sig_mgr pr)) i pr Hpr _).
    pose proof (v0_live 0 ltac:(set_solver)) as Hl. repeat apply Forall_cons_2; try apply Forall_nil_2; first [by left | by right; right].
  - intros n p i pr _ _ _ _ Hpr. refine (privs_all (fun i pr => s_sig_mgr pr <> NONE) i pr Hpr _). by repeat constructor.
  - intros n p Hp. refine (pget_all v0 (fun n p => ready_for p) n p Hp _). repeat constructor; done.
  - intros t [-> | ->]; eexists; split; [reflexivity|done|reflexivity|done].
  - eexists. split; [reflexivity|done].
Qed.
Lemma v0_good : good v0.
Proof. split; [exists Qv, Cv; split; [exact v0_rq|exact v0_ipcs]|exact v0_sane]. Qed.
(** ** The properties in this state *)
Definition result_of {A} (o : outcome (state memory) A) : option A := match o with Ret a _ => Some a | Halt _ _ => None end.
Definition q0' : proc := q0 <| p_delivermsg_vir := 64 |>.
Lemma getksig_request_ok : request_ok (entered 64 0 v0) 0 q0' (some_msg <| m_source := 1024 |>).
Proof. split; try (intros Heq; by vm_compute in Heq). unfold modelled_calls. vm_compute. set_solver. Qed.
Lemma kernel_call_safe_witness : result_of (kernel_call 64 0 v0) = Some tt /\ wp (kernel_call 64 0) (fun _ s' => good s') never v0.
Proof.
  split; [by vm_compute|]. apply (kernel_call_safe v0 0 q0 64 v0_good); [done|done|done|].
  intros m Hm. assert (m = some_msg) as -> by (vm_compute in Hm; by injection Hm). exact getksig_request_ok.
Defined.
Definition request (call : Z) (words : list Z) : message := mk_message 1024 call 0 0 words.
Lemma dispatch_refuses_witness :
  kernel_call_dispatch 0 (request 77 []) v0 = Ret (EBADREQUEST, request 77 []) v0 /\
  kernel_call_dispatch 0 (request 20 []) v0 = Ret (ECALLDENIED, request 20 []) v0.
Proof.
  split.
  - apply (dispatch_refuses v0 0 q0 0 (managed 0) (request 77 []) v0_good eq_refl ltac:(done) eq_refl eq_refl). vm_compute. by intros [_ ?].
  - apply (dispatch_refuses v0 0 q0 0 (managed 0) (request 20 []) v0_good eq_refl ltac:(done) eq_refl eq_refl); [by vm_compute|by vm_compute].
Defined.
Lemma sys_getksig_spec_witness :
  result_of (do_getksig 0 some_msg v0) = Some (OK, put_SIG_MAP 32 (put_SIG_ENDPT 1026 some_msg)) /\
  wp (do_getksig 0 some_msg) (fun r s' => r.1 = OK) never v0.
Proof.
  split; [by vm_compute|]. eapply wp_mono; [apply (sys_getksig_spec v0 0 q0 some_msg v0_good eq_refl)| |done]. by intros r s' [? _].
Defined.
(** A fork of process 1 into slot 4. *)
Definition fork_msg : message := request 0 [1025; 4; 0; 0].
Lemma sys_fork_spec_witness :
  fst <$> result_of (do_fork 0 fork_msg v0) = Some OK /\
  wp (do_fork 0 fork_msg) (fun r s' => good s' /\ (r = (EINVAL, fork_msg) /\ s' = v0 \/ forks v0 fork_msg s')) never v0.
Proof.
  split; [by vm_compute|]. eapply wp_mono; [apply (sys_fork_spec v0 0 fork_msg v0_good)| |done].
  - by eexists.
  - intros p Hp _ _. assert (p = q1) as -> by (vm_compute in Hp; by injection Hp). done.
  - intros r s' (Hg & _ & Hr). by split.
Defined.
(** The end of process 2, from which process 3 was receiving. *)
Definition clear_msg : message := request 2 [1026].
Lemma q2_endable : endable v0 2 q2.
Proof.
  split; try done.
  - intros m q Hq. refine (pget_all v0 (fun m q => sending q = true -> p_sendto_e q <> p_endpoint q2) m q Hq _).
    repeat apply Forall_cons_2; try apply Forall_nil_2; done.
  - intros i pr Hpr. refine (privs_all (fun i pr => s_sig_mgr pr <> p_endpoint q2) i pr Hpr _).
    repeat apply Forall_cons_2; try apply Forall_nil_2; done.
Qed.
Lemma fill_sendto_mask_spec_witness : exists s', fill_sendto_mask 1 5 v0 = Ret tt s' /\ may_send s' 1 2 = true /\ may_send s' 1 3 = false /\
  may_send s' 3 1 = false.
Proof.
  destruct (fill_sendto_mask_spec v0 1 q1 1 5 v0_good eq_refl ltac:(done) eq_refl) as [Hspec _].
  destruct (Hspec ltac:(done)) as (s' & Hrun & Hrow & Hcol & _). exists s'. split; [done|].
  split; [|split].
  - by rewrite (Hrow 2 ltac:(done)).
  - by rewrite (Hrow 3 ltac:(done)).
  - by apply (Hcol 3).
Defined.
Lemma load_update_spec_witness : exists w, load_update v0 = Ret tt (with_world w v0) /\ load_info w = mk_loadinfo [0; 1; 0] 1 500.
Proof. destruct (load_update_spec v0 v0_good) as (w & Hrun & Hw). exists w. split; [exact Hrun|]. rewrite Hw. by vm_compute. Defined.
End Demo.
