(* ===== verification/IpcBase.v ===== *)
(** The IPC server, [src/Project_2/servers/ipc]: its data, the state its two halves
    share, what it asks of the kernel, VM and PM ([IpcEnv]), and [check_perm].
    System V semaphores are in [Sem], shared memory in [Shm], the main loop in
    [IpcMain]. *)
From S2P Require Import Prelude Minix.
Local Open Scope Z_scope.

(** ** Headers
    The constants of [sys/ipc.h], [sys/sem.h], [sys/shm.h] and [machine/vm.h]. *)
Class IpcHeaders := {
  IPC_PRIVATE : Z; IPC_CREAT : Z; IPC_EXCL : Z; IPC_NOWAIT : Z;
  IPC_STAT : Z; IPC_SET : Z; IPC_RMID : Z; IPC_INFO : Z;
  SEM_INFO : Z; SEM_STAT : Z; GETALL : Z; GETNCNT : Z; GETPID : Z; GETVAL : Z; GETZCNT : Z;
  SETALL : Z; SETVAL : Z; SHM_INFO : Z; SHM_STAT : Z;
  SHM_RND : Z; SHM_RDONLY : Z; SHM_DEST : Z;
  SEMMNI : Z; SEMMSL : Z; SEMVMX : Z; SEMOPM : Z; SHMMNI : Z;
  I386_PAGE_SIZE : Z;
}.
Class IpcHeaderLaws `{IpcHeaders} : Prop := {
  semctl_cmds : NoDup [IPC_STAT; IPC_SET; IPC_RMID; IPC_INFO; SEM_INFO; SEM_STAT; GETALL;
                       GETNCNT; GETPID; GETVAL; GETZCNT; SETALL; SETVAL];
  shmctl_cmds : NoDup [IPC_STAT; IPC_SET; IPC_RMID; IPC_INFO; SHM_INFO; SHM_STAT];
  SEMMNI_nonneg : 0 <= SEMMNI;
  SEMMSL_range : 0 <= SEMMSL < 2 ^ 15;
  SEMVMX_range : 0 <= SEMVMX < 2 ^ 16;
  SHMMNI_range : 0 <= SHMMNI;
  PAGE_SIZE_pos : 0 < I386_PAGE_SIZE;
  SHM_DEST_bit : exists n, 9 <= n /\ SHM_DEST = 2 ^ n;
}.

(** ** Data *)
Record ipc_perm := mk_perm { uid : Z; gid : Z; cuid : Z; cgid : Z; mode : Z }.
#[export] Instance eta_ipc_perm : Eta ipc_perm := fun r =>
  mk_perm (uid r) (gid r) (cuid r) (cgid r) (mode r).

Record waiting := mk_waiting { who : Z; val : Z }.
#[export] Instance eta_waiting : Eta waiting := fun r => mk_waiting (who r) (val r).

(** A pointer to an array of [struct waiting]: NULL, a block of the heap with its
    entries, or a block that was freed. *)
Inductive wlist := NULL | Block (b : list waiting) | Freed.

Record semaphore := mk_semaphore {
  semval : Z;           (* unsigned short *)
  semzcnt : Z;          (* unsigned short *)
  semncnt : Z;          (* unsigned short *)
  zlist : wlist;
  nlist : wlist;
  sempid : Z;
}.
#[export] Instance eta_semaphore : Eta semaphore := fun r =>
  mk_semaphore (semval r) (semzcnt r) (semncnt r) (zlist r) (nlist r) (sempid r).

Record semid_ds := mk_semid_ds {
  sem_perm : ipc_perm; sem_nsems : Z; sem_otime : Z; sem_ctime : Z }.
#[export] Instance eta_semid_ds : Eta semid_ds := fun r =>
  mk_semid_ds (sem_perm r) (sem_nsems r) (sem_otime r) (sem_ctime r).

Record sem_struct := mk_sem_struct {
  sem_key : Z; sem_id : Z; sem_ds : semid_ds; sems : list semaphore }.
#[export] Instance eta_sem_struct : Eta sem_struct := fun r =>
  mk_sem_struct (sem_key r) (sem_id r) (sem_ds r) (sems r).

Record sembuf := mk_sembuf { sem_num : Z; sem_op : Z; sem_flg : Z }.

Record shmid_ds := mk_shmid_ds {
  shm_perm : ipc_perm; shm_segsz : Z; shm_atime : Z; shm_dtime : Z; shm_ctime : Z;
  shm_cpid : Z; shm_lpid : Z; shm_nattch : Z }.
#[export] Instance eta_shmid_ds : Eta shmid_ds := fun r =>
  mk_shmid_ds (shm_perm r) (shm_segsz r) (shm_atime r) (shm_dtime r) (shm_ctime r)
    (shm_cpid r) (shm_lpid r) (shm_nattch r).

Record shm_struct := mk_shm_struct {
  shm_key : Z; shm_id : Z; shm_ds : shmid_ds; page : Z; phys : Z }.
#[export] Instance eta_shm_struct : Eta shm_struct := fun r =>
  mk_shm_struct (shm_key r) (shm_id r) (shm_ds r) (page r) (phys r).

(** What the server copies to a caller. *)
Inductive datum :=
  | D_semid (d : semid_ds)
  | D_shorts (l : list Z)
  | D_shmid (d : shmid_ds)
  | D_shminfo (shmmax shmmin shmmni shmseg shmall : Z)
  | D_shm_info (used_ids shm_tot shm_rss shm_swp swap_attempts swap_successes : Z).

(** ** The environment *)
Class IpcEnv (W : Type) := {
  getnuid : Z -> W -> Z;
  getngid : Z -> W -> Z;
  getnpid : Z -> W -> Z;
  time : W -> Z * W;
  malloc : Z -> W -> bool * W;             (* did it return a block? *)
  realloc : Z -> W -> bool * W;
  garbage : W -> waiting;                  (* what a new entry of a block holds *)
  copy_out : Z -> Z -> datum -> W -> bool * W;
  copy_semid : Z -> Z -> W -> option semid_ds;
  copy_shmid : Z -> Z -> W -> option shmid_ds;
  copy_shorts : Z -> Z -> Z -> W -> option (list Z);
  copy_sops : Z -> Z -> Z -> W -> option (list sembuf);
  mmap : Z -> W -> option Z * W;           (* None is MAP_FAILED *)
  munmap : Z -> Z -> W -> W;
  memset_page : Z -> Z -> W -> W;
  vm_getphys : Z -> Z -> W -> Z;
  vm_remap : Z -> Z -> Z -> Z -> Z -> W -> option Z * W;
  vm_unmap : Z -> Z -> W -> W;
  vm_getrefcount : Z -> Z -> W -> Z;
  vm_query_exit : W -> (Z * Z) * W;        (* its result and the endpoint *)
  exits_pending : W -> nat;                (* the exited processes it has not yet told *)
}.

(** The values read have the range of their C types; [vm_query_exit] returns a positive
    number only as long as there are further processes to tell; allocating memory changes
    nobody's user. *)
Class IpcEnvLaws (W : Type) `{IpcEnv W} : Prop := {
  copy_shorts_spec e a n w l : copy_shorts e a n w = Some l ->
    Z.of_nat (length l) = n /\ Forall (fun x => 0 <= x < 2 ^ 16) l;
  copy_sops_spec e a n w l : copy_sops e a n w = Some l ->
    Z.of_nat (length l) = n /\
    Forall (fun o => 0 <= sem_num o < 2 ^ 16 /\ - 2 ^ 15 <= sem_op o < 2 ^ 15) l;
  query_exit_pending w r pt w' : vm_query_exit w = (r, pt, w') -> 0 < r ->
    (exits_pending w' < exits_pending w)%nat;
  malloc_ids n w e : getnuid e (malloc n w).2 = getnuid e w /\ getngid e (malloc n w).2 = getngid e w;
  realloc_ids n w e : getnuid e (realloc n w).2 = getnuid e w /\ getngid e (realloc n w).2 = getngid e w;
}.

(** ** The state of the server *)
Record packet := mk_packet { to : Z; m_type : rc; ret_val : option Z }.

Record state (W : Type) := mk_state {
  sem_list : list sem_struct;
  sem_list_nr : Z;
  shm_list : list shm_struct;
  shm_list_nr : Z;
  identifier : Z;
  who_e : Z;
  SELF_E : Z;
  m_ret : option Z;            (* the result field of the message at hand, once set *)
  sent : list packet;          (* the messages given to sendnb, the last one at the end *)
  world : W;
}.
Arguments mk_state {W}.
Arguments sem_list {W}.
Arguments sem_list_nr {W}.
Arguments shm_list {W}.
Arguments shm_list_nr {W}.
Arguments identifier {W}.
Arguments who_e {W}.
Arguments SELF_E {W}.
Arguments m_ret {W}.
Arguments sent {W}.
Arguments world {W}.
#[export] Instance eta_state (W : Type) : Eta (state W) := fun r =>
  mk_state (sem_list r) (sem_list_nr r) (shm_list r) (shm_list_nr r) (identifier r)
    (who_e r) (SELF_E r) (m_ret r) (sent r) (world r).

(** The octal number [ugo]. *)
Definition oct (u g o : Z) : Z := u * 64 + g * 8 + o.
(** A flag of a C flag word. *)
Definition flag (x f : Z) : bool := negb (Z.land x f =? 0).

Section operations.
Context {W : Type} `{IpcEnv W}.
Abbreviation cmd := (M (state W)).

Definition env {A} (f : W -> A * W) : cmd A :=
  s ← get; let '(a, w) := f (world s) in modify (fun s => s <| world := w |>);; mret a.
Definition ask {A} (f : W -> A) : cmd A := gets (fun s => f (world s)).
Definition tell (f : W -> W) : cmd unit := modify (fun s => s <| world := f (world s) |>).
Definition caller : cmd Z := gets who_e.
Definition set_ret (v : Z) : cmd unit := modify (fun s => s <| m_ret := Some v |>).

Definition sendnb (p : packet) : cmd unit := modify (fun s => s <| sent := sent s ++ [p] |>).

(** [utility.c] *)
Definition check_perm (req : ipc_perm) (who : Z) (md : Z) (w : W) : bool :=
  let u := getnuid who w in
  let g := getngid who w in
  let md := Z.land md (oct 6 6 6) in
  if u =? 0 then true else
  let '(req_mode, cur_mode) :=
    if (u =? uid req) || (u =? cuid req) then
      (Z.land (Z.shiftr (mode req) 6) 7, Z.land (Z.shiftr md 6) 7)
    else if (g =? gid req) || (g =? cgid req) then
      (Z.land (Z.shiftr (mode req) 3) 7, Z.land (Z.shiftr md 3) 7)
    else (Z.land (mode req) 7, Z.land md 7) in
  negb (cur_mode =? 0) && (Z.land cur_mode req_mode =? cur_mode).
Definition may (req : ipc_perm) (md : Z) : cmd bool :=
  e ← caller; ask (check_perm req e md).

(** The next identifier: [identifier++]. *)
Definition next_identifier : cmd Z :=
  i ← gets identifier;
  if i =? 2 ^ 31 - 1 then halt Undef else
  modify (fun s => s <| identifier := i + 1 |>);; mret i.
End operations.

(** ** Permissions, bit by bit *)
Section perms.
Context {W : Type} `{IpcEnv W}.

(** The position of the three bits of the class that the caller is in. *)
Definition perm_shift (req : ipc_perm) (who : Z) (w : W) : Z :=
  if (getnuid who w =? uid req) || (getnuid who w =? cuid req) then 6
  else if (getngid who w =? gid req) || (getngid who w =? cgid req) then 3 else 0.

Lemma testbit_7 b : 0 <= b -> Z.testbit 7 b = (b <? 3).
Proof.
  intros Hb. destruct (b <? 3) eqn:E.
  - assert (b = 0 \/ b = 1 \/ b = 2) as [->|[->| ->]] by lia; done.
  - apply Z.bits_above_log2; [done|]. change (Z.log2 7) with 2. lia.
Qed.

(** The read and write bits of a class. *)
Lemma class_bits md sh b :
  sh = 0 \/ sh = 3 \/ sh = 6 -> 0 <= b ->
  Z.testbit (Z.land (Z.shiftr (Z.land md (oct 6 6 6)) sh) 7) b =
    Z.testbit md (sh + b) && ((1 <=? b) && (b <? 3)).
Proof.
  intros Hsh Hb. rewrite Z.land_spec, Z.shiftr_spec, Z.land_spec, testbit_7 by lia.
  rewrite (Z.add_comm b). destruct (b <? 3) eqn:E; [|by rewrite !andb_false_r].
  rewrite !andb_true_r. f_equal.
  assert (b = 0 \/ b = 1 \/ b = 2) as [->|[->| ->]] by lia;
    destruct Hsh as [->|[->| ->]]; done.
Qed.

Lemma land_bits cur req :
  0 <= cur -> Z.land cur req = cur <->
  forall b, 0 <= b -> Z.testbit cur b = true -> Z.testbit req b = true.
Proof.
  intros Hc. split.
  - intros Heq b Hb Hcur. rewrite <-Heq, Z.land_spec in Hcur. apply andb_true_iff in Hcur. tauto.
  - intros Hall. apply Z.bits_inj'. intros b Hb. rewrite Z.land_spec.
    destruct (Z.testbit cur b) eqn:E; [exact (Hall b Hb E)|done].
Qed.

Lemma check_perm_eq req who md w :
  let sh := perm_shift req who w in
  let cur := Z.land (Z.shiftr (Z.land md (oct 6 6 6)) sh) 7 in
  let rq := Z.land (Z.shiftr (mode req) sh) 7 in
  check_perm req who md w =
    (getnuid who w =? 0) || (negb (cur =? 0) && (Z.land cur rq =? cur)).
Proof.
  unfold check_perm, perm_shift. destruct (getnuid who w =? 0); [done|].
  destruct (_ || _); [done|]. destruct (_ || _); [done|]. by rewrite !Z.shiftr_0_r.
Qed.
Lemma perm_shift_cases req who w :
  perm_shift req who w = 0 \/ perm_shift req who w = 3 \/ perm_shift req who w = 6.
Proof. unfold perm_shift. repeat case_match; auto. Qed.
End perms.

(** [check_perm] is the rule of the bits.  A caller whose user is root may do
    everything; for another, of the read and write bits of the mode that is asked for
    those of the caller's class count, there has to be one, and each has to be set in the
    mode of the object.  (So a call that asks for nothing, such as [semget] with no mode
    bits on a set that exists, is refused to everybody but root.) *)
Theorem check_perm_spec {W : Type} `{IpcEnv W} (req : ipc_perm) (who md : Z) (w : W) :
  check_perm req who md w = true <->
  getnuid who w = 0 \/
  let asked := fun b => Z.testbit md (perm_shift req who w + b) = true in
  (exists b, 1 <= b < 3 /\ asked b) /\
  (forall b, 1 <= b < 3 -> asked b -> Z.testbit (mode req) (perm_shift req who w + b) = true).
Proof.
  rewrite check_perm_eq. pose proof (perm_shift_cases req who w) as Hsh.
  set (sh := perm_shift req who w) in *. cbv zeta.
  set (cur := Z.land (Z.shiftr (Z.land md (oct 6 6 6)) sh) 7).
  set (rq := Z.land (Z.shiftr (mode req) sh) 7).
  destruct (Z.eqb_spec (getnuid who w) 0) as [|Hu]; [by split; [left|]|]. rewrite orb_false_l.
  assert (forall b, 0 <= b -> Z.testbit cur b = Z.testbit md (sh + b) && ((1 <=? b) && (b <? 3)))
    as Hcur by (intros; by apply class_bits).
  assert (forall b, 1 <= b < 3 -> Z.testbit rq b = Z.testbit (mode req) (sh + b)) as Hrq.
  { intros b Hb. unfold rq. rewrite Z.land_spec, Z.shiftr_spec, testbit_7 by lia.
    replace (b <? 3) with true by lia. by rewrite andb_true_r, (Z.add_comm b). }
  assert (0 <= cur) as Hc by (apply Z.land_nonneg; by right).
  rewrite andb_true_iff, negb_true_iff, Z.eqb_neq, Z.eqb_eq, land_bits by done.
  split.
  - intros [Hne Hall]. right. split.
    + destruct (decide (Z.testbit cur 1 = true)) as [E|E1].
      { rewrite Hcur in E by lia. exists 1. split; [lia|]. by apply andb_true_iff in E as [? _]. }
      destruct (decide (Z.testbit cur 2 = true)) as [E|E2].
      { rewrite Hcur in E by lia. exists 2. split; [lia|]. by apply andb_true_iff in E as [? _]. }
      destruct Hne. apply Z.bits_inj'. intros b Hb. rewrite Z.bits_0.
      destruct (decide (b = 1)) as [->|]; [by apply not_true_iff_false|].
      destruct (decide (b = 2)) as [->|]; [by apply not_true_iff_false|].
      rewrite Hcur by done. replace ((1 <=? b) && (b <? 3)) with false by lia. apply andb_false_r.
    + intros b Hb Ha. rewrite <-Hrq by done. apply Hall; [lia|]. rewrite Hcur, Ha by lia. lia.
  - intros [?|[(b & Hb & Ha) Hall]]; [done|]. split.
    + intros H0. pose proof (Hcur b ltac:(lia)) as Hcb. rewrite H0, Z.bits_0, Ha in Hcb. lia.
    + intros b' Hb' Hcb. rewrite Hcur in Hcb by done.
      apply andb_true_iff in Hcb as [Ha' Hr]. rewrite Hrq by lia. apply Hall; [lia|done].
Qed.

(** ** An environment for the examples
    Users are numbered as their processes, VM has two exits to tell, memory never runs
    out and user memory holds one table of semaphore operations. *)
Module Demo.
#[export] Instance ipc_headers : IpcHeaders := {
  IPC_PRIVATE := 0; IPC_CREAT := 512; IPC_EXCL := 1024; IPC_NOWAIT := 2048;
  IPC_STAT := 2; IPC_SET := 1; IPC_RMID := 0; IPC_INFO := 500;
  SEM_INFO := 19; SEM_STAT := 18; GETALL := 6; GETNCNT := 3; GETPID := 4; GETVAL := 5;
  GETZCNT := 7; SETALL := 9; SETVAL := 8; SHM_INFO := 14; SHM_STAT := 13;
  SHM_RND := 131072; SHM_RDONLY := 65536; SHM_DEST := 512;
  SEMMNI := 4; SEMMSL := 6; SEMVMX := 32767; SEMOPM := 5; SHMMNI := 100000;
  I386_PAGE_SIZE := 4096;
}.
#[export] Instance ipc_header_laws : IpcHeaderLaws.
Proof.
  constructor; try (by compute); try (by exists 9).
  - apply (bool_decide_unpack _). by vm_compute.
  - apply (bool_decide_unpack _). by vm_compute.
Qed.

Record W := mk_W { clock : Z; exits : list Z; ops : list sembuf; refcounts : gmap Z Z }.
(** [rd] is the table of operations in user memory. *)
Definition env_with (rd : W -> list sembuf) : IpcEnv W := {|
  getnuid := fun e w => e;
  getngid := fun e w => 100;
  getnpid := fun e w => e + 1000;
  time := fun w => (clock w, mk_W (clock w + 1) (exits w) (ops w) (refcounts w));
  malloc := fun n w => (true, w);
  realloc := fun n w => (true, w);
  garbage := fun w => mk_waiting (-1) 77;
  copy_out := fun e a d w => (true, w);
  copy_semid := fun e a w => None;
  copy_shmid := fun e a w => None;
  copy_shorts := fun e a n w => None;
  copy_sops := fun e a n w =>
    let l := take 1 (drop (Z.to_nat a) (rd w)) in
    if bool_decide (n = 1 /\ length l = 1%nat /\
      Forall (fun o => (0 <= sem_num o < 2 ^ 16) /\ (- 2 ^ 15 <= sem_op o < 2 ^ 15)) l)
    then Some l else None;
  mmap := fun n w => (Some 8192, w);
  munmap := fun p n w => mk_W (clock w) (exits w) (ops w) (delete p (refcounts w));
  memset_page := fun p n w => w;
  vm_getphys := fun e a w => a;
  vm_remap := fun e f a p n w => (Some a, w);
  vm_unmap := fun e a w => w;
  vm_getrefcount := fun e p w => default (-1) (refcounts w !! p);
  vm_query_exit := fun w =>
    match exits w with
    | [] => ((-1, 0), w)
    | pt :: l => ((Z.of_nat (length l), pt), mk_W (clock w) l (ops w) (refcounts w))
    end;
  exits_pending := fun w => length (exits w);
|}.
#[export] Instance ipc_env : IpcEnv W := env_with ops.
Lemma env_with_laws rd : @IpcEnvLaws W (env_with rd).
Proof.
  constructor; try done.
  - simpl. intros e a n w l. case_bool_decide as Hb; [|done]. intros [= <-].
    destruct Hb as (-> & Hl & Hf). by rewrite Hl.
  - simpl. intros [c [|p l] o r] z pt w'; simpl; intros [= <- <- <-]; simpl; lia.
Qed.
#[export] Instance ipc_env_laws : IpcEnvLaws W := env_with_laws ops.
End Demo.
