(* ===== verification/Sem.v ===== *)
(** System V semaphores, [src/Project_2/servers/ipc/sem.c]: the table of semaphore sets,
    [semget], [semctl] and [semop], the two waiting lists of a semaphore and the code
    that wakes the processes on them.
    The waiting lists are blocks of the heap that [realloc] grows and [memmove] shifts;
    reading or moving outside a block is [Undef]. *)
From S2P Require Import Prelude Minix IpcBase.
Local Open Scope Z_scope.

Section operations.
Context `{IpcHeaders} {W : Type} `{IpcEnv W}.
Abbreviation cmd := (M (state W)).

(** [sem_list[i]] and [sem_list[i].sems[j]] *)
Definition get_sem (i : Z) : cmd sem_struct := s ← get; deref (aget (sem_list s) i).
Definition set_sem (i : Z) (f : sem_struct -> sem_struct) : cmd unit :=
  get_sem i;; modify (fun s => s <| sem_list := aupd i f (sem_list s) |>).
Definition get_s (i j : Z) : cmd semaphore := x ← get_sem i; deref (aget (sems x) j).
Definition set_s (i j : Z) (f : semaphore -> semaphore) : cmd unit :=
  get_s i j;; set_sem i (fun x => x <| sems := aupd j f (sems x) |>).

(** A search of the live part of the table. *)
Definition find_sem (p : sem_struct -> bool) : cmd (option Z) :=
  n ← gets sem_list_nr;
  for_ (seqZ 0 n) (fun i => x ← get_sem i; mret (if p x then Some i else None)).
Definition sem_find_key (key : Z) : cmd (option Z) :=
  if key =? IPC_PRIVATE then mret None else find_sem (fun x => sem_key x =? key).
Definition sem_find_id (id : Z) : cmd (option Z) := find_sem (fun x => sem_id x =? id).

(** [memset(sem, 0, sizeof(struct sem_struct))] *)
Definition zero_semaphore : semaphore := mk_semaphore 0 0 0 NULL NULL 0.
Definition zero_perm : ipc_perm := mk_perm 0 0 0 0 0.
Definition zero_sem_struct : sem_struct :=
  mk_sem_struct 0 0 (mk_semid_ds zero_perm 0 0 0) (replicate (Z.to_nat SEMMSL) zero_semaphore).

Definition do_semget (key nsems flg : Z) : cmd rc :=
  x ← sem_find_key key;
  match x with
  | Some i =>
      sem ← get_sem i;
      if flag flg IPC_CREAT && flag flg IPC_EXCL then mret EEXIST else
      ok ← may (sem_perm (sem_ds sem)) flg;
      if negb ok then mret EACCES else
      if sem_nsems (sem_ds sem) <? nsems then mret EINVAL else
      set_ret (sem_id sem);; mret OK
  | None =>
      if negb (flag flg IPC_CREAT) then mret ENOENT else
      if (nsems <? 0) || (SEMMSL <=? nsems) then mret EINVAL else
      n ← gets sem_list_nr;
      if n =? SEMMNI then mret ENOSPC else
      e ← caller;
      u ← ask (getnuid e);
      g ← ask (getngid e);
      now ← env time;
      id ← next_identifier;
      set_sem n (fun _ =>
        zero_sem_struct
          <| sem_ds := mk_semid_ds (mk_perm u g u g (Z.land flg (oct 7 7 7))) nsems 0 now |>
          <| sem_id := id |> <| sem_key := key |>);;
      modify (fun s => s <| sem_list_nr := n + 1 |>);;
      set_ret id;; mret OK
  end.

Definition send_message_to_process (who : Z) (ret : rc) : cmd unit :=
  sendnb (mk_packet who ret None).

(** ** Waiting lists *)
Definition block (l : wlist) : cmd (list waiting) :=
  match l with Block b => mret b | _ => halt Undef end.
Definition is_null (l : wlist) : bool := match l with NULL => true | _ => false end.
Definition entry (l : wlist) (k : Z) : cmd waiting := b ← block l; deref (aget b k).

(** [memmove(b + k, b + k + 1, sizeof(struct waiting) * (cnt - k - 1))]: a size below
    zero is a huge [size_t]. *)
Definition slide (b : list waiting) (k cnt : Z) : option (list waiting) :=
  let n := cnt - k - 1 in
  if (0 <=? n) && (cnt <=? Z.of_nat (length b)) then
    Some (take (Z.to_nat k) b ++ take (Z.to_nat n) (drop (Z.to_nat (k + 1)) b)
          ++ drop (Z.to_nat (k + n)) b)
  else None.

(** Entry [k] leaves the list of processes that wait for zero, or for an increase. *)
Definition drop_z (i j k : Z) : cmd unit :=
  x ← get_s i j; b ← block (zlist x); b' ← deref (slide b k (semzcnt x));
  set_s i j (fun x => x <| zlist := Block b' |>);;
  set_s i j (fun x => x <| semzcnt := u16 (semzcnt x - 1) |>).
Definition drop_n (i j k : Z) : cmd unit :=
  x ← get_s i j; b ← block (nlist x); b' ← deref (slide b k (semncnt x));
  set_s i j (fun x => x <| nlist := Block b' |>);;
  set_s i j (fun x => x <| semncnt := u16 (semncnt x - 1) |>).

Definition free_list (l : wlist) : wlist := match l with NULL => NULL | _ => Freed end.

Definition remove_semaphore (i : Z) : cmd unit :=
  x ← get_sem i;
  foreach (seqZ 0 (sem_nsems (sem_ds x))) (fun j =>
    set_s i j (fun y => y <| zlist := free_list (zlist y) |> <| nlist := free_list (nlist y) |>));;
  n ← gets sem_list_nr;
  if i <? n then
    modify (fun s => s <| sem_list_nr := n - 1 |>);;
    if negb (n - 1 =? i) then last ← get_sem (n - 1); set_sem i (fun _ => last) else mret tt
  else mret tt.

(** The two loops of [remove_process] for one semaphore. *)
Definition remove_waiter (i j pt : Z) : cmd unit :=
  x ← get_s i j;
  for_ (seqZ 0 (semzcnt x)) (fun k =>
    e ← entry (zlist x) k;
    if who e =? pt then drop_z i j k;; send_message_to_process (who e) EINTR;; mret (Some tt)
    else mret None);;
  x ← get_s i j;
  for_ (seqZ 0 (semncnt x)) (fun k =>
    e ← entry (nlist x) k;
    if who e =? pt then drop_n i j k;; send_message_to_process (who e) EINTR;; mret (Some tt)
    else mret None);;
  mret tt.

Definition remove_process (pt : Z) : cmd unit :=
  n ← gets sem_list_nr;
  foreach (seqZ 0 n) (fun i =>
    x ← get_sem i;
    foreach (seqZ 0 (sem_nsems (sem_ds x))) (fun j => remove_waiter i j pt)).

(** ** Waking processes *)
Definition wake_zero (i j : Z) : cmd unit :=
  x ← get_s i j;
  if negb (is_null (zlist x)) && (semval x =? 0) then
    e ← entry (zlist x) 0;
    drop_z i j 0;;
    send_message_to_process (who e) OK
  else mret tt.

Definition wake_increase (i j : Z) : cmd unit :=
  x ← get_s i j;
  if negb (is_null (nlist x)) then
    for_ (seqZ 0 (semncnt x)) (fun k =>
      e ← entry (nlist x) k;
      if val e <=? semval x then
        set_s i j (fun y => y <| semval := u16 (semval y - val e) |>);;
        drop_n i j k;;
        send_message_to_process (who e) OK;;
        mret (Some tt)
      else mret None);;
    mret tt
  else mret tt.

(** All the processes that wait for a semaphore of a set that is removed are told. *)
Definition tell_removed (i j : Z) : cmd unit :=
  x ← get_s i j;
  foreach (seqZ 0 (semzcnt x)) (fun k =>
    e ← entry (zlist x) k; send_message_to_process (who e) EIDRM);;
  foreach (seqZ 0 (semncnt x)) (fun k =>
    e ← entry (nlist x) k; send_message_to_process (who e) EIDRM).

Definition update_one_semaphore (i : Z) (is_remove : bool) : cmd unit :=
  x ← get_sem i;
  let nr := sem_nsems (sem_ds x) in
  if is_remove then
    foreach (seqZ 0 nr) (tell_removed i);;
    remove_semaphore i
  else
    foreach (seqZ 0 nr) (fun j => wake_zero i j;; wake_increase i j).

Definition update_semaphores : cmd unit :=
  n ← gets sem_list_nr;
  foreach (seqZ 0 n) (fun i => update_one_semaphore i false).

(** ** semctl *)
Definition is_owner (p : ipc_perm) : cmd bool :=
  e ← caller; u ← ask (getnuid e);
  mret ((u =? cuid p) || (u =? uid p) || (u =? 0)).

(** [mode &= ~0777; mode |= m & 0666] *)
Definition set_mode (old m : Z) : Z :=
  Z.lor (Z.ldiff old (oct 7 7 7)) (Z.land m (oct 6 6 6)).

Definition set_semds (i : Z) (f : semid_ds -> semid_ds) : cmd unit :=
  set_sem i (fun x => x <| sem_ds := f (sem_ds x) |>).
Definition set_ctime (i : Z) : cmd unit :=
  now ← env time; set_semds i (fun d => d <| sem_ctime := now |>).

(** A field of semaphore [num] of the set is returned. *)
Definition sem_field (i num : Z) (f : semaphore -> Z) : cmd rc :=
  x ← get_sem i;
  if (num <? 0) || (sem_nsems (sem_ds x) <=? num) then mret EINVAL else
  y ← get_s i num;
  set_ret (f y);; mret OK.

(** The size of a table of [n] shorts. *)
Definition shorts_size (n : Z) : Z := 2 * n.

Definition semctl_getall (i opt : Z) : cmd rc :=
  x ← get_sem i;
  let n := sem_nsems (sem_ds x) in
  ok ← env (malloc (shorts_size n));
  if negb ok then mret ENOMEM else
  buf ← fold_ (seqZ 0 n) [] (fun buf j => y ← get_s i j; mret (buf ++ [semval y]));
  e ← caller;
  ok ← env (copy_out e opt (D_shorts buf));
  mret (if ok : bool then OK else EINVAL).

Definition semctl_setall (i opt : Z) : cmd rc :=
  x ← get_sem i;
  let n := sem_nsems (sem_ds x) in
  ok ← env (malloc (shorts_size n));
  if negb ok then mret ENOMEM else
  e ← caller;
  buf ← ask (copy_shorts e opt n);
  match buf with
  | None => mret EINVAL
  | Some buf =>
      r ← for_ (seqZ 0 n) (fun j =>
        v ← deref (aget buf j);
        if (v <? 0) || (SEMVMX <? v) then mret (Some tt)
        else set_s i j (fun y => y <| semval := v |>);; mret None);
      update_semaphores;;
      mret (match r with Some _ => ERANGE | None => OK end)
  end.

Definition semctl_setval (i num opt : Z) : cmd rc :=
  x ← get_sem i;
  ok ← may (sem_perm (sem_ds x)) (oct 2 2 2);
  if negb ok then mret EACCES else
  if (num <? 0) || (sem_nsems (sem_ds x) <=? num) then mret EINVAL else
  if (opt <? 0) || (SEMVMX <? opt) then mret ERANGE else
  set_s i num (fun y => y <| semval := opt |>);;
  set_ctime i;;
  update_semaphores;;
  mret OK.

Definition semctl_stat (i opt : Z) : cmd rc :=
  x ← get_sem i;
  if opt =? 0 then mret EFAULT else
  e ← caller;
  ok ← env (copy_out e opt (D_semid (sem_ds x)));
  mret (if ok : bool then OK else EINVAL).

Definition semctl_set (i opt : Z) : cmd rc :=
  x ← get_sem i;
  ok ← is_owner (sem_perm (sem_ds x));
  if negb ok then mret EPERM else
  e ← caller;
  d ← ask (copy_semid e opt);
  match d with
  | None => mret EINVAL
  | Some tmp =>
      set_semds i (fun d => d <| sem_perm := (sem_perm d)
        <| uid := uid (sem_perm tmp) |> <| gid := gid (sem_perm tmp) |>
        <| mode := set_mode (mode (sem_perm d)) (mode (sem_perm tmp)) |> |>);;
      set_ctime i;;
      mret OK
  end.

Definition semctl_rmid (i : Z) : cmd rc :=
  x ← get_sem i;
  ok ← is_owner (sem_perm (sem_ds x));
  if negb ok then mret EPERM else
  update_one_semaphore i true;; mret OK.

Definition do_semctl (id num cmd opt : Z) : M (state W) rc :=
  f ← sem_find_id id;
  match f with
  | None => mret EINVAL
  | Some i =>
      x ← get_sem i;
      ok ← (if negb (cmd =? IPC_SET) && negb (cmd =? IPC_RMID)
            then may (sem_perm (sem_ds x)) (oct 4 4 4) else mret true);
      if negb ok then mret EACCES else
      if cmd =? IPC_STAT then semctl_stat i opt else
      if cmd =? IPC_SET then semctl_set i opt else
      if cmd =? IPC_RMID then semctl_rmid i else
      if (cmd =? IPC_INFO) || (cmd =? SEM_INFO) || (cmd =? SEM_STAT) then mret OK else
      if cmd =? GETALL then semctl_getall i opt else
      if cmd =? GETNCNT then sem_field i num semncnt else
      if cmd =? GETPID then sem_field i num sempid else
      if cmd =? GETVAL then sem_field i num semval else
      if cmd =? GETZCNT then sem_field i num semzcnt else
      if cmd =? SETALL then semctl_setall i opt else
      if cmd =? SETVAL then semctl_setval i num opt else
      mret EINVAL
  end.

(** ** semop *)
Definition sizeof_sembuf : Z := 6.
Definition sizeof_waiting : Z := 8.

(** The list grown to [cnt] entries by [realloc], with the last one set to [e]; NULL
    when there is no memory. *)
Definition push (l : wlist) (cnt : Z) (e : waiting) : cmd wlist :=
  b ← (match l with NULL => mret [] | Block b => mret b | Freed => halt Undef end);
  ok ← env (realloc (sizeof_waiting * cnt));
  if negb ok then mret NULL else
  g ← ask garbage;
  let b' := resize (Z.to_nat cnt) g b in
  deref (aget b' (cnt - 1));;
  mret (Block (aupd (cnt - 1) (fun _ => e) b')).

(** The caller is put on a list: the result is whether there was memory for it. *)
Definition sleep_zero (i j : Z) : cmd bool :=
  set_s i j (fun y => y <| semzcnt := u16 (semzcnt y + 1) |>);;
  y ← get_s i j;
  e ← caller;
  l ← push (zlist y) (semzcnt y) (mk_waiting e 0);
  set_s i j (fun y => y <| zlist := l |>);;
  mret (negb (is_null l)).
Definition sleep_increase (i j v : Z) : cmd bool :=
  set_s i j (fun y => y <| semncnt := u16 (semncnt y + 1) |>);;
  y ← get_s i j;
  e ← caller;
  l ← push (nlist y) (semncnt y) (mk_waiting e v);
  set_s i j (fun y => y <| nlist := l |>);;
  mret (negb (is_null l)).

(** The last loop of [do_semop]: the result and whether the caller sleeps
    ([no_reply]). *)
Fixpoint semop_run (i : Z) (ops : list sembuf) (no_reply : bool) : cmd (rc * bool) :=
  match ops with
  | [] => mret (OK, no_reply)
  | op :: ops =>
      let j := sem_num op in
      let op_n := sem_op op in
      e ← caller;
      pid ← ask (getnpid e);
      set_s i j (fun y => y <| sempid := pid |>);;
      x ← get_sem i;
      if 0 <? op_n then
        ok ← may (sem_perm (sem_ds x)) (oct 2 2 2);
        if negb ok then mret (EACCES, no_reply) else
        set_s i j (fun y => y <| semval := u16 (semval y + op_n) |>);;
        semop_run i ops no_reply
      else if op_n =? 0 then
        y ← get_s i j;
        if semval y =? 0 then semop_run i ops no_reply else
        ok ← sleep_zero i j;
        if negb ok then mret (OK, no_reply) else semop_run i ops true
      else
        ok ← may (sem_perm (sem_ds x)) (oct 2 2 2);
        if negb ok then mret (EACCES, no_reply) else
        y ← get_s i j;
        if - op_n <=? semval y then
          set_s i j (fun y => y <| semval := u16 (semval y + op_n) |>);;
          semop_run i ops no_reply
        else
          ok ← sleep_increase i j (- op_n);
          if negb ok then mret (OK, no_reply) else semop_run i ops true
  end.

(** The checks before it, in the order of the code: the result when one fails. *)
Definition bad_number (nsems : Z) (ops : list sembuf) : bool :=
  existsb (fun o => (sem_num o <? 0) || (nsems <=? sem_num o)) ops.
Fixpoint duplicate (ops : list sembuf) : bool :=
  match ops with
  | [] => false
  | o :: ops => existsb (fun o' => sem_num o =? sem_num o') ops || duplicate ops
  end.
Definition would_block (op_n v : Z) : bool :=
  ((op_n =? 0) && negb (v =? 0)) || ((op_n <? 0) && (v <? - op_n)).
Definition nowait_fails (i : Z) (ops : list sembuf) : cmd bool :=
  r ← for_ ops (fun o =>
    y ← get_s i (sem_num o);
    mret (if flag (sem_flg o) IPC_NOWAIT && would_block (sem_op o) (semval y)
          then Some tt else None));
  mret (bool_decide (r = Some tt)).

Definition semop_checked (i : Z) (ops : list sembuf) : cmd (rc * bool) :=
  x ← get_sem i;
  if bad_number (sem_nsems (sem_ds x)) ops then mret (EFBIG, false) else
  if duplicate ops then mret (EINVAL, false) else
  fails ← nowait_fails i ops;
  if fails : bool then mret (EAGAIN, false) else semop_run i ops false.

Definition semop_result (id addr nsops : Z) : cmd (rc * bool) :=
  f ← sem_find_id id;
  match f with
  | None => mret (EINVAL, false)
  | Some i =>
      if nsops =? 0 then mret (EINVAL, false) else
      if SEMOPM <? nsops then mret (E2BIG, false) else
      x ← get_sem i;
      ok ← may (sem_perm (sem_ds x)) (oct 4 4 4);
      if negb ok then mret (EACCES, false) else
      ok ← env (malloc (sizeof_sembuf * nsops));
      if negb ok then mret (ENOMEM, false) else
      e ← caller;
      ops ← ask (copy_sops e addr nsops);
      match ops with
      | None => mret (EINVAL, false)
      | Some ops => semop_checked i ops
      end
  end.

Definition do_semop (id addr size : Z) : cmd rc :=
  let nsops := u32 size in
  '(r, no_reply) ← semop_result id addr nsops;
  (if negb (is_ok r) || negb no_reply then
     e ← caller; sendnb (mk_packet e r None)
   else mret tt);;
  update_semaphores;;
  mret OK.

Definition is_sem_nil : cmd bool := n ← gets sem_list_nr; mret (n =? 0).

(** The loop ends when VM has no further process to tell. *)
Definition sem_process_vm_notify : cmd unit :=
  s ← get;
  while_ (S (exits_pending (world s))) (
    '(r, pt) ← env vm_query_exit;
    if r <? 0 then mret (Some tt) else
    remove_process pt;;
    mret (if r =? 0 then Some tt else None)).
End operations.

(** ** The waiting lists as queues *)
Definition waiters (l : wlist) (cnt : Z) : list waiting :=
  match l with Block b => take (Z.to_nat cnt) b | _ => [] end.
Definition wf_list (l : wlist) (cnt : Z) : Prop :=
  match l with NULL => cnt = 0 | Block b => 0 <= cnt <= Z.of_nat (length b) | Freed => False end.
Definition nwaiters (y : semaphore) : list waiting := waiters (nlist y) (semncnt y).
Definition zwaiters (y : semaphore) : list waiting := waiters (zlist y) (semzcnt y).

(** A semaphore in order, with at most [k] processes on each list. *)
Record wf_s (k : Z) (y : semaphore) : Prop := {
  ws_val : 0 <= semval y < 2 ^ 16;
  ws_zlist : wf_list (zlist y) (semzcnt y);
  ws_nlist : wf_list (nlist y) (semncnt y);
  ws_zcnt : semzcnt y <= k;
  ws_ncnt : semncnt y <= k;
  ws_pos : Forall (fun w => 0 < val w) (nwaiters y);
}.

(** The list of processes that wait for zero was used and is empty again, and the value
    is zero. *)
Definition drained (y : semaphore) : Prop :=
  zlist y <> NULL /\ semzcnt y = 0 /\ semval y = 0.

Lemma wf_list_nonneg l cnt : wf_list l cnt -> 0 <= cnt.
Proof. destruct l; simpl; lia. Qed.

Lemma length_waiters l cnt : wf_list l cnt -> Z.of_nat (length (waiters l cnt)) = cnt.
Proof. destruct l; simpl; intros; [lia| |done]. rewrite length_take. lia. Qed.

Lemma wf_s_mono k k' y : wf_s k y -> k <= k' -> wf_s k' y.
Proof. intros [] ?. constructor; try done; lia. Qed.

Definition slid (b : list waiting) (k cnt : Z) : list waiting :=
  let n := cnt - k - 1 in
  take (Z.to_nat k) b ++ take (Z.to_nat n) (drop (Z.to_nat (k + 1)) b)
    ++ drop (Z.to_nat (k + n)) b.

Lemma slide_slid b k cnt :
  0 <= k < cnt -> cnt <= Z.of_nat (length b) -> slide b k cnt = Some (slid b k cnt).
Proof.
  intros. unfold slide, slid. destruct (0 <=? _) eqn:E1; [|lia].
  destruct (cnt <=? _) eqn:E2; [done|lia].
Qed.

Lemma slide_drained b : slide b 0 0 = None.
Proof. done. Qed.

Lemma length_slid b k cnt :
  0 <= k < cnt -> cnt <= Z.of_nat (length b) -> length (slid b k cnt) = length b.
Proof.
  intros. unfold slid. rewrite !length_app, !length_take, !length_drop. lia.
Qed.

Lemma take_slid b k cnt :
  0 <= k < cnt -> cnt <= Z.of_nat (length b) ->
  take (Z.to_nat (cnt - 1)) (slid b k cnt) = delete (Z.to_nat k) (take (Z.to_nat cnt) b).
Proof.
  intros. unfold slid. rewrite app_assoc, take_app_length'.
  - rewrite delete_take_drop, take_take. f_equal; [f_equal; lia|].
    rewrite take_drop_commute. do 2 f_equal; lia.
  - rewrite length_app, !length_take, length_drop. lia.
Qed.

(** ** Waking a process, as a function of the semaphore
    The result is the semaphore and the message sent. *)
Definition ok_to (w : waiting) : packet := mk_packet (who w) OK None.
Definition block_of (l : wlist) : list waiting := match l with Block b => b | _ => [] end.

Definition wz (y : semaphore) : semaphore * list packet :=
  match zlist y with
  | Block b =>
      if semval y =? 0 then
        (y <| zlist := Block (slid b 0 (semzcnt y)) |> <| semzcnt := semzcnt y - 1 |>,
         ok_to <$> take 1 b)
      else (y, [])
  | _ => (y, [])
  end.
Definition fits (v : Z) (w : waiting) : Prop := val w <= v.
#[export] Instance fits_dec v w : Decision (fits v w).
Proof. unfold fits. apply _. Defined.
Definition wn (y : semaphore) : semaphore * list packet :=
  match list_find (fits (semval y)) (nwaiters y) with
  | Some (k, w) =>
      (y <| semval := semval y - val w |>
         <| nlist := Block (slid (block_of (nlist y)) (Z.of_nat k) (semncnt y)) |>
         <| semncnt := semncnt y - 1 |>, [ok_to w])
  | None => (y, [])
  end.
Definition wake (y : semaphore) : semaphore * list packet :=
  let '(y1, o1) := wz y in let '(y2, o2) := wn y1 in (y2, o1 ++ o2).

(** The same on the abstract semaphore, a value and a queue of waiting processes: the
    first process that fits leaves the queue. *)
Definition wake_first (a : Z * list waiting) : (Z * list waiting) * list packet :=
  match list_find (fits a.1) a.2 with
  | Some (k, w) => ((a.1 - val w, delete k a.2), [ok_to w])
  | None => (a, [])
  end.
Definition abs_s (y : semaphore) : Z * list waiting := (semval y, nwaiters y).

Lemma wn_abs k y : wf_s k y ->
  abs_s (wn y).1 = (wake_first (abs_s y)).1 /\ (wn y).2 = (wake_first (abs_s y)).2.
Proof.
  intros Hwf. unfold wn, wake_first, abs_s. simpl.
  destruct (list_find _ _) as [[n w]|] eqn:E; [|done]. simpl. split; [|done]. f_equal.
  apply list_find_Some in E as (Hn & _ & _). apply lookup_lt_Some in Hn.
  pose proof (ws_nlist _ _ Hwf) as Hl. pose proof (length_waiters _ _ Hl) as Hlen.
  unfold nwaiters in *. simpl. destruct (nlist y) as [|b|]; simpl in *; [lia| |done].
  rewrite take_slid by lia. by rewrite Nat2Z.id.
Qed.

Lemma list_find_take_first k y n w : wf_s k y ->
  list_find (fits (semval y)) (nwaiters y) = Some (n, w) ->
  0 <= Z.of_nat n < semncnt y /\ 0 < val w <= semval y /\ exists b, nlist y = Block b /\ semncnt y <= Z.of_nat (length b) /\ b !! n = Some w.
Proof.
  intros Hwf (Hn & Hf & _)%list_find_Some. pose proof (lookup_lt_Some _ _ _ Hn) as Hlt.
  pose proof (ws_nlist _ _ Hwf) as Hl. pose proof (length_waiters _ _ Hl) as Hlen.
  pose proof (ws_pos _ _ Hwf) as Hpos. rewrite Forall_lookup in Hpos.
  specialize (Hpos _ _ Hn). unfold fits in Hf. simpl in Hpos, Hf.
  unfold nwaiters in *. split; [lia|]. split; [lia|].
  destruct (nlist y) as [|b|]; simpl in *; [lia| |done].
  exists b. split_and!; [done|lia|]. by rewrite lookup_take in Hn; case_decide; simplify_eq.
Qed.

Lemma wn_wf k y : wf_s k y -> wf_s k (wn y).1.
Proof.
  intros Hwf. pose proof (wn_abs _ _ Hwf) as [Ha _]. unfold abs_s, wake_first in Ha.
  unfold wn in *. destruct (list_find _ _) as [[n w]|] eqn:E; [|done]. simpl in *.
  destruct (list_find_take_first _ _ _ _ Hwf E) as (Hn & Hv & b & Hb & Hlen & _).
  pose proof (ws_val _ _ Hwf). pose proof (ws_ncnt _ _ Hwf).
  constructor; simpl; try (by destruct Hwf); try lia.
  - rewrite Hb. simpl. rewrite length_slid; lia.
  - injection Ha as Hq. rewrite Hq. apply Forall_delete. by destruct Hwf.
Qed.

(** ** The operations on one semaphore
    [at_set s i l o]: set [i] holds the semaphores [l] and [o] was sent. *)
Definition at_set {W} (s : state W) (i : Z) (l : list semaphore) (o : list packet) : state W :=
  s <| sem_list := aupd i (fun x => x <| sems := l |>) (sem_list s) |> <| sent := o |>.

Section runs.
Context `{IpcHeaders} {W : Type} `{IpcEnv W}.
Implicit Types (s : state W) (y : semaphore) (l : list semaphore).

Lemma at_set_id s i x : aget (sem_list s) i = Some x -> at_set s i (sems x) (sent s) = s.
Proof.
  intros Hx. unfold at_set. rewrite aupd_id; [by destruct s|].
  intros ? ?. simplify_eq. by destruct x.
Qed.

Lemma for_entries_first s0 b cnt (body : Z -> waiting -> M (state W) (option unit))
    (P : waiting -> Prop) `{forall w, Decision (P w)} :
  0 <= cnt <= Z.of_nat (length b) ->
  (forall k w, ~ P w -> body k w s0 = Ret None s0) ->
  (forall k w, list_find P (take (Z.to_nat cnt) b) = Some (k, w) ->
     exists s', body (Z.of_nat k) w s0 = Ret (Some tt) s') ->
  for_ (seqZ 0 cnt) (fun k => e ← entry (Block b) k; body k e) s0 =
    match list_find P (take (Z.to_nat cnt) b) with
    | Some (k, w) => body (Z.of_nat k) w s0
    | None => Ret None s0 end.
Proof.
  intros Hcnt Hno Hyes.
  assert (forall k w, take (Z.to_nat cnt) b !! k = Some w ->
    forall R (f : waiting -> M (state W) R),
      (e ← entry (Block b) (Z.of_nat k); f e) s0 = f w s0) as He.
  { intros k w Hw R f. unfold entry. rewrite lookup_take in Hw. case_decide; [|done].
    apply bind_ret. unfold block. run_step. by rewrite aget_nat, Hw. }
  rewrite (for_first P (take (Z.to_nat cnt) b)).
  - destruct (list_find _ _) as [[k w]|] eqn:E; [|done].
    apply list_find_Some in E as (Hw & _ & _). by apply (He _ _ Hw _ (body (Z.of_nat k))).
  - rewrite length_take. lia.
  - intros k w Hw HP. rewrite (He _ _ Hw _ (body (Z.of_nat k))). by apply Hno.
  - intros k w E. pose proof E as (Hw & _ & _)%list_find_Some.
    rewrite (He _ _ Hw _ (body (Z.of_nat k))). by destruct (Hyes _ _ E) as [s' ->].
Qed.

Section at_set.
Context (s : state W) (i : Z) (x : sem_struct) (Hx : aget (sem_list s) i = Some x).

Lemma get_sem_at l o : get_sem i (at_set s i l o) = Ret (x <| sems := l |>) (at_set s i l o).
Proof.
  unfold get_sem, at_set. run_step. cbn. by rewrite aget_aupd_eq, Hx.
Qed.
Hint Resolve get_sem_at : run.

Lemma get_s_at l o j y : aget l j = Some y -> get_s i j (at_set s i l o) = Ret y (at_set s i l o).
Proof. intros Hy. unfold get_s. run_step. cbn. by rewrite Hy. Qed.

Lemma set_s_at l o j y f : aget l j = Some y ->
  set_s i j f (at_set s i l o) = Ret tt (at_set s i (aupd j f l) o).
Proof.
  intros Hy. unfold set_s. rewrite (bind_ret _ _ _ _ _ (get_s_at _ _ _ _ Hy)).
  unfold set_sem. run_step. unfold modify, at_set, upd. cbn. do 2 f_equal.
  rewrite aupd_aupd. apply aupd_ext. by intros [] _.
Qed.

Lemma send_at l o p : sendnb p (at_set s i l o) = Ret tt (at_set s i l (o ++ [p])).
Proof. done. Qed.

Lemma drop_z_at l o j y b k :
  aget l j = Some y -> zlist y = Block b -> 0 <= k < semzcnt y ->
  semzcnt y <= Z.of_nat (length b) -> semzcnt y < 2 ^ 16 ->
  drop_z i j k (at_set s i l o) =
    Ret tt (at_set s i (aupd j (fun _ =>
      y <| zlist := Block (slid b k (semzcnt y)) |> <| semzcnt := semzcnt y - 1 |>) l) o).
Proof.
  intros Hy Hb Hk Hlen Hc. unfold drop_z.
  rewrite (bind_ret _ _ _ _ _ (get_s_at _ _ _ _ Hy)). rewrite Hb. run_step.
  rewrite slide_slid by done. run_step.
  rewrite (bind_ret _ _ _ _ _ (set_s_at _ _ _ _ _ Hy)).
  rewrite set_s_at with (y := y <| zlist := Block (slid b k (semzcnt y)) |>)
    by (by rewrite aget_aupd_eq, Hy).
  rewrite aupd_aupd. do 2 f_equal. apply aupd_ext. intros ? ?. simplify_eq.
  destruct y; cbn in *. by rewrite u16_small by lia.
Qed.

Lemma drop_n_at l o j y b k :
  aget l j = Some y -> nlist y = Block b -> 0 <= k < semncnt y ->
  semncnt y <= Z.of_nat (length b) -> semncnt y < 2 ^ 16 ->
  drop_n i j k (at_set s i l o) =
    Ret tt (at_set s i (aupd j (fun _ =>
      y <| nlist := Block (slid b k (semncnt y)) |> <| semncnt := semncnt y - 1 |>) l) o).
Proof.
  intros Hy Hb Hk Hlen Hc. unfold drop_n.
  rewrite (bind_ret _ _ _ _ _ (get_s_at _ _ _ _ Hy)). rewrite Hb. run_step.
  rewrite slide_slid by done. run_step.
  rewrite (bind_ret _ _ _ _ _ (set_s_at _ _ _ _ _ Hy)).
  rewrite set_s_at with (y := y <| nlist := Block (slid b k (semncnt y)) |>)
    by (by rewrite aget_aupd_eq, Hy).
  rewrite aupd_aupd. do 2 f_equal. apply aupd_ext. intros ? ?. simplify_eq.
  destruct y; cbn in *. by rewrite u16_small by lia.
Qed.

(** Nothing to do for the semaphore is the identity. *)
Lemma at_set_same l o j y :
  aget l j = Some y -> at_set s i (aupd j (fun _ => y) l) o = at_set s i l o.
Proof. intros Hy. rewrite aupd_id; [done|]. congruence. Qed.

Lemma wake_zero_at l o j y k :
  aget l j = Some y -> wf_s k y -> k < 2 ^ 16 -> ~ drained y ->
  wake_zero i j (at_set s i l o) =
    Ret tt (at_set s i (aupd j (fun _ => (wz y).1) l) (o ++ (wz y).2)).
Proof.
  intros Hy Hwf Hk Hd. unfold wake_zero, wz.
  rewrite (bind_ret _ _ _ _ _ (get_s_at _ _ _ _ Hy)).
  pose proof (ws_zlist _ _ Hwf) as Hz. pose proof (ws_zcnt _ _ Hwf).
  destruct (zlist y) as [|b|] eqn:Hb; cbn [is_null negb andb]; [| |done].
  { cbn [fst snd]. by rewrite at_set_same, app_nil_r. }
  destruct (semval y =? 0) eqn:Ev; cbn [fst snd]; [|by rewrite at_set_same, app_nil_r].
  simpl in Hz.
  assert (semzcnt y <> 0) by (intros Hc; apply Hd; split_and!; [by rewrite Hb|done|lia]).
  destruct b as [|w b]; [simpl in Hz; lia|].
  unfold entry. run_step.
  erewrite bind_ret; [|eapply drop_z_at; [done|done|lia|simpl in *; lia|lia]].
  done.
Qed.

Lemma wake_increase_at l o j y k :
  aget l j = Some y -> wf_s k y -> k < 2 ^ 16 ->
  wake_increase i j (at_set s i l o) =
    Ret tt (at_set s i (aupd j (fun _ => (wn y).1) l) (o ++ (wn y).2)).
Proof.
  intros Hy Hwf Hk. unfold wake_increase.
  rewrite (bind_ret _ _ _ _ _ (get_s_at _ _ _ _ Hy)).
  pose proof (ws_nlist _ _ Hwf) as Hl. pose proof (ws_ncnt _ _ Hwf).
  pose proof (list_find_take_first k y) as Hfind.
  unfold wn. unfold nwaiters in *. destruct (nlist y) as [|b|] eqn:Hb; cbn [is_null negb]; [| |done].
  { simpl. by rewrite at_set_same, app_nil_r. }
  simpl in Hl. cbn [waiters] in *.
  set (body := fun (k : Z) (e : waiting) =>
    if val e <=? semval y then
      set_s i j (fun y => y <| semval := u16 (semval y - val e) |>);;
      drop_n i j k;; send_message_to_process (who e) OK;; mret (Some tt)
    else mret None : M (state W) (option unit)).
  assert (forall n w, list_find (fits (semval y)) (take (Z.to_nat (semncnt y)) b) = Some (n, w) ->
    body (Z.of_nat n) w (at_set s i l o) =
      Ret (Some tt) (at_set s i (aupd j (fun _ =>
        y <| semval := semval y - val w |> <| nlist := Block (slid b (Z.of_nat n) (semncnt y)) |>
          <| semncnt := semncnt y - 1 |>) l) (o ++ [ok_to w]))) as Hbody.
  { intros n w E. destruct (Hfind n w Hwf E) as (Hn & Hv & _). unfold body.
    destruct (_ <=? _) eqn:Ev; [|lia].
    rewrite (bind_ret _ _ _ _ _ (set_s_at _ _ _ _ _ Hy)).
    pose proof (ws_val _ _ Hwf).
    erewrite bind_ret; [|eapply drop_n_at; [by rewrite aget_aupd_eq, Hy|done|done|simpl in *; lia|simpl in *; lia]].
    unfold send_message_to_process. rewrite (bind_ret _ _ _ _ _ (send_at _ _ _)), mret_run.
    do 2 f_equal. rewrite aupd_aupd. apply aupd_ext.
    intros ? _. destruct y; cbn in *. by rewrite u16_small by lia. }
  pose proof (for_entries_first (at_set s i l o) b (semncnt y) body (fits (semval y)) Hl) as Hf.
  assert (forall m w', ~ fits (semval y) w' -> body m w' (at_set s i l o) = Ret None (at_set s i l o))
    as Hno by (intros m w'; unfold body, fits; by destruct (_ <=? _) eqn:?; [lia|]).
  destruct (list_find _ _) as [[n w]|] eqn:E.
  - rewrite (Hbody _ _ eq_refl) in Hf. specialize (Hf Hno ltac:(eauto)).
    by erewrite bind_ret; [|exact Hf].
  - specialize (Hf Hno ltac:(done)). erewrite bind_ret; [|exact Hf].
    simpl. by rewrite at_set_same, app_nil_r.
Qed.

Lemma wz_wf k y : wf_s k y -> ~ drained y -> wf_s k (wz y).1.
Proof.
  intros Hwf Hd. unfold wz. pose proof (ws_zlist _ _ Hwf) as Hz.
  destruct (zlist y) as [|b|] eqn:Hb; [done| |done].
  destruct (semval y =? 0) eqn:Ev; [|done]. simpl in Hz.
  assert (semzcnt y <> 0) by (intros Hc; apply Hd; split_and!; [by rewrite Hb|done|lia]).
  destruct Hwf. constructor; try done; simpl; [rewrite length_slid; lia|lia].
Qed.

Lemma wake_at l o j y k :
  aget l j = Some y -> wf_s k y -> k < 2 ^ 16 -> ~ drained y ->
  (wake_zero i j;; wake_increase i j) (at_set s i l o) =
    Ret tt (at_set s i (aupd j (fun _ => (wake y).1) l) (o ++ (wake y).2)).
Proof.
  intros Hy Hwf Hk Hd. rewrite (bind_ret _ _ _ _ _ (wake_zero_at _ _ _ _ _ Hy Hwf Hk Hd)).
  rewrite wake_increase_at with (y := (wz y).1) (k := k);
    [|by rewrite aget_aupd_eq, Hy|by apply wz_wf|done].
  unfold wake. destruct (wz y) as [y1 o1]. cbn [fst snd]. destruct (wn y1) as [y2 o2].
  cbn [fst snd]. rewrite aupd_aupd, app_assoc. do 2 f_equal.
Qed.
End at_set.
End runs.

(** ** Sets and the table *)
Definition live_sems (x : sem_struct) : list semaphore :=
  take (Z.to_nat (sem_nsems (sem_ds x))) (sems x).
Record wf_set (k : Z) (x : sem_struct) : Prop := {
  wx_nsems : 0 <= sem_nsems (sem_ds x) <= Z.of_nat (length (sems x));
  wx_sems : Forall (wf_s k) (live_sems x);
}.
Definition live_sets {W} (s : state W) : list sem_struct :=
  take (Z.to_nat (sem_list_nr s)) (sem_list s).
Record wf_sems {W} (k : Z) (s : state W) : Prop := {
  wt_nr : 0 <= sem_list_nr s <= Z.of_nat (length (sem_list s));
  wt_sets : Forall (wf_set k) (live_sets s);
}.
(** No list of processes that wait for zero is empty after it was used. *)
Definition no_drained (x : sem_struct) : Prop := Forall (fun y => ~ drained y) (live_sems x).
(** Nobody ever waited for zero. *)
Definition no_zlist (x : sem_struct) : Prop := Forall (fun y => zlist y = NULL) (live_sems x).

Lemma no_zlist_no_drained x : no_zlist x -> no_drained x.
Proof. intros Hz. eapply list.Forall_impl; [exact Hz|]. by intros y Hy [? _]. Qed.

Lemma aget_take {A} (l : list A) n i x :
  0 <= i < n -> aget l i = Some x -> x ∈ take (Z.to_nat n) l.
Proof.
  intros Hi [_ Hx]%aget_Some. apply list_elem_of_lookup. exists (Z.to_nat i).
  rewrite lookup_take. case_decide; [done|lia].
Qed.

Lemma elem_aget {A} (l : list A) n x :
  x ∈ take (Z.to_nat n) l -> exists i, 0 <= i < n /\ aget l i = Some x.
Proof.
  intros (j & Hj)%list_elem_of_lookup. exists (Z.of_nat j).
  rewrite lookup_take in Hj. case_decide; [|done]. rewrite aget_nat. split; [lia|done].
Qed.

(** A function of a semaphore and the messages it sends, applied to the semaphores of a
    set and to those of all sets. *)
Section each.
Context (f : semaphore -> semaphore * list packet).

Definition map_set (x : sem_struct) : sem_struct * list packet :=
  (x <| sems := map_pre (Z.to_nat (sem_nsems (sem_ds x))) (fun y => (f y).1) (sems x) |>,
   concat ((fun y => (f y).2) <$> live_sems x)).

Definition at_table {W} (s : state W) (l : list sem_struct) (o : list packet) : state W :=
  s <| sem_list := l |> <| sent := o |>.
Definition map_sets {W} (s : state W) : state W :=
  at_table s (map_pre (Z.to_nat (sem_list_nr s)) (fun x => (map_set x).1) (sem_list s))
    (sent s ++ concat ((fun x => (map_set x).2) <$> live_sets s)).

Section runs.
Context `{IpcHeaders} {W : Type} `{IpcEnv W} (body : Z -> Z -> M (state W) unit) (good : semaphore -> Prop).
Implicit Types (s : state W).
Context (Hbody : forall s i x, aget (sem_list s) i = Some x ->
  forall l o j y, aget l j = Some y -> good y ->
    body i j (at_set s i l o) =
      Ret tt (at_set s i (aupd j (fun _ => (f y).1) l) (o ++ (f y).2))).

Lemma foreach_sems_run k s i x :
  aget (sem_list s) i = Some x -> wf_set k x -> Forall good (live_sems x) ->
  foreach (seqZ 0 (sem_nsems (sem_ds x))) (body i) s =
    Ret tt (at_table s (aupd i (fun _ => (map_set x).1) (sem_list s)) (sent s ++ (map_set x).2)).
Proof.
  intros Hx Hwf Hg. pose proof (wx_nsems _ _ Hwf) as Hn.
  rewrite <-(at_set_id s i x Hx) at 1.
  replace (sem_nsems (sem_ds x)) with (Z.of_nat (Z.to_nat (sem_nsems (sem_ds x)))) at 1 by lia.
  rewrite (foreach_update (at_set s i) _ (fun y => (f y).1) (fun y => (f y).2) good).
  - f_equal. unfold at_set, at_table, upd. cbn. f_equal. apply aupd_ext. intros ? ?. by simplify_eq.
  - lia.
  - exact Hg.
  - intros j l o y Hj Hy Hy1 _. by apply (Hbody s i x Hx).
Qed.

Lemma foreach_sets_run k s (loop : Z -> M (state W) unit) :
  (forall s i x, aget (sem_list s) i = Some x ->
     loop i s = foreach (seqZ 0 (sem_nsems (sem_ds x))) (body i) s) ->
  wf_sems k s -> Forall (fun x => Forall good (live_sems x)) (live_sets s) ->
  foreach (seqZ 0 (sem_list_nr s)) loop s = Ret tt (map_sets s).
Proof.
  intros Hloop Hwf Hg. pose proof (wt_nr _ _ Hwf) as Hn.
  replace (sem_list_nr s) with (Z.of_nat (Z.to_nat (sem_list_nr s))) at 1 by lia.
  transitivity (foreach (seqZ 0 (Z.of_nat (Z.to_nat (sem_list_nr s)))) loop
    (at_table s (sem_list s) (sent s))).
  { by destruct s. }
  rewrite (foreach_update (at_table s) _ (fun x => (map_set x).1) (fun x => (map_set x).2)
             (fun x => wf_set k x /\ Forall good (live_sems x))).
  - done.
  - lia.
  - apply (proj2 (list.Forall_and _ _)); split; [apply (wt_sets _ _ Hwf)|exact Hg].
  - intros i l o x Hi Hx [Hx1 Hx2] _. rewrite (Hloop _ _ x) by done.
    by rewrite foreach_sems_run with (k := k) (x := x).
Qed.

Lemma take_map_pre {A} n (h : A -> A) l : take n (map_pre n h l) = h <$> take n l.
Proof.
  apply list_eq. intros i. rewrite list_lookup_fmap, !lookup_take, lookup_map_pre.
  by case_decide.
Qed.

Lemma live_sets_map s : live_sets (map_sets s) = (fun x => (map_set x).1) <$> live_sets s.
Proof. unfold live_sets, map_sets. simpl. by rewrite take_map_pre. Qed.
Lemma live_sems_map x : live_sems (map_set x).1 = (fun y => (f y).1) <$> live_sems x.
Proof. unfold live_sems. simpl. by rewrite take_map_pre. Qed.

(** What holds of every semaphore after [f] when [good] held before. *)
Lemma map_sets_live (P : semaphore -> Prop) s :
  (forall y, good y -> P (f y).1) ->
  Forall (fun x => Forall good (live_sems x)) (live_sets s) ->
  Forall (fun x => Forall P (live_sems x)) (live_sets (map_sets s)).
Proof.
  intros HP Hg. rewrite live_sets_map, Forall_fmap. eapply list.Forall_impl; [exact Hg|].
  intros x Hx. change (Forall P (live_sems (map_set x).1)). rewrite live_sems_map, Forall_fmap. eapply list.Forall_impl; [exact Hx|].
  exact HP.
Qed.

Lemma map_sets_wf k s :
  (forall y, good y -> wf_s k (f y).1) ->
  wf_sems k s -> Forall (fun x => Forall good (live_sems x)) (live_sets s) ->
  wf_sems k (map_sets s).
Proof.
  intros HP Hwf Hg. constructor; [simpl; rewrite length_map_pre; apply Hwf|].
  pose proof (map_sets_live _ _ HP Hg) as Hl. revert Hl.
  rewrite live_sets_map, !Forall_fmap. intros Hl.
  eapply Forall_impl2; [exact Hl|apply (wt_sets _ _ Hwf)|]. intros x Hx Hwx.
  constructor; [simpl; rewrite length_map_pre; apply Hwx|done].
Qed.
End runs.
End each.

(** What [update_one_semaphore] and [update_semaphores] do to a set and to the table. *)
Abbreviation update_set := (map_set wake).
Abbreviation updated := (map_sets wake).

Section tables.
Context `{IpcHeaders} {W : Type} `{IpcEnv W}.
Implicit Types (s : state W).

(** A semaphore in order that has no empty list of waiters for zero. *)
Definition ready (k : Z) (y : semaphore) : Prop := wf_s k y /\ ~ drained y.

Lemma all_ready k s :
  wf_sems k s -> Forall no_drained (live_sets s) ->
  Forall (fun x => Forall (ready k) (live_sems x)) (live_sets s).
Proof.
  intros Hwf Hd. eapply Forall_impl2; [apply (wt_sets _ _ Hwf)|exact Hd|].
  intros x Hwx Hdx. eapply Forall_impl2; [apply (wx_sems _ _ Hwx)|exact Hdx|]. done.
Qed.

Lemma update_one_run k s i x :
  aget (sem_list s) i = Some x -> wf_set k x -> no_drained x -> k < 2 ^ 16 ->
  update_one_semaphore i false s =
    Ret tt (at_table s (aupd i (fun _ => (update_set x).1) (sem_list s)) (sent s ++ (update_set x).2)).
Proof.
  intros Hx Hwf Hd Hk. unfold update_one_semaphore.
  rewrite (bind_ret _ _ x s s) by (unfold get_sem; run_step; by rewrite Hx).
  apply (foreach_sems_run wake (fun i j => wake_zero i j;; wake_increase i j) (ready k)) with (k := k).
  - intros s' i' x' Hx' l o j y Hy [? ?]. by eapply wake_at.
  - done.
  - done.
  - eapply Forall_impl2; [apply (wx_sems _ _ Hwf)|exact Hd|done].
Qed.

Lemma update_semaphores_run k s :
  wf_sems k s -> Forall no_drained (live_sets s) -> k < 2 ^ 16 ->
  update_semaphores s = Ret tt (updated s).
Proof.
  intros Hwf Hd Hk. unfold update_semaphores. rewrite (bind_ret _ _ (sem_list_nr s) s s) by done.
  apply (foreach_sets_run wake (fun i j => wake_zero i j;; wake_increase i j) (ready k)) with (k := k).
  - intros s' i' x' Hx' l o j y Hy [? ?]. by eapply wake_at.
  - intros s' i x Hx. unfold update_one_semaphore.
    by rewrite (bind_ret _ _ x s' s') by (unfold get_sem; run_step; by rewrite Hx).
  - done.
  - by apply all_ready.
Qed.

(** *** What stays in order *)
Lemma wake_wf k y : wf_s k y -> ~ drained y -> wf_s k (wake y).1.
Proof.
  intros Hwf Hd. unfold wake. pose proof (wz_wf _ _ Hwf Hd) as H1.
  destruct (wz y) as [y1 o1]. generalize (wn_wf _ _ H1). simpl. by destruct (wn y1).
Qed.
Lemma wz_NULL y : zlist y = NULL -> wz y = (y, []).
Proof. unfold wz. by intros ->. Qed.
Lemma wake_NULL y : zlist y = NULL -> wake y = wn y.
Proof. intros Hz. unfold wake. rewrite wz_NULL by done. by destruct (wn y). Qed.
Lemma wn_zlist y : zlist (wn y).1 = zlist y.
Proof. unfold wn. by destruct (list_find _ _) as [[? ?]|]. Qed.

Lemma updated_wf k s :
  wf_sems k s -> Forall no_drained (live_sets s) -> wf_sems k (updated s).
Proof.
  intros Hwf Hd. apply (map_sets_wf wake (ready k)); [|done|by apply all_ready].
  intros y [? ?]. by apply wake_wf.
Qed.
Lemma updated_no_zlist s :
  Forall no_zlist (live_sets s) -> Forall no_zlist (live_sets (updated s)).
Proof.
  apply (map_sets_live wake (fun y => zlist y = NULL)).
  intros y Hy. by rewrite wake_NULL, wn_zlist.
Qed.
End tables.

(** ** The list of processes that wait for zero *)
Section drained.
Context `{IpcHeaders} {W : Type} `{IpcEnv W}.
Implicit Types (s : state W).

Lemma wake_zero_drained i j s x y :
  aget (sem_list s) i = Some x -> aget (sems x) j = Some y -> drained y -> zlist y <> Freed ->
  exists s', wake_zero i j s = Halt Undef s'.
Proof.
  intros Hx Hy (Hz & Hc & Hv) Hf. rewrite <-(at_set_id s i x Hx). unfold wake_zero.
  rewrite (bind_ret _ _ _ _ _ (get_s_at _ _ _ Hx _ _ _ _ Hy)).
  rewrite (proj2 (Z.eqb_eq _ _) Hv).
  destruct (zlist y) as [|b|] eqn:Hb; [done| |done]. cbn [is_null negb andb].
  destruct b as [|e b]; [eexists; unfold entry; by apply bind_halt|].
  unfold entry. run_step. eexists. apply bind_halt. unfold drop_z.
  rewrite (bind_ret _ _ _ _ _ (get_s_at _ _ _ Hx _ _ _ _ Hy)), Hb, Hc. run_step. done.
Qed.

Definition drained_set (x : sem_struct) : Prop := Exists drained (live_sems x).

#[export] Instance null_dec l : Decision (l = NULL).
Proof. destruct l; [left|right|right]; done. Defined.
#[export] Instance drained_dec y : Decision (drained y).
Proof. unfold drained. apply _. Defined.

Lemma no_drained_or x : no_drained x \/ drained_set x.
Proof.
  unfold no_drained, drained_set. destruct (decide (Exists drained (live_sems x))); [by right|].
  left. by apply List.Forall_Exists_neg.
Qed.

Lemma update_one_drained k s i x :
  aget (sem_list s) i = Some x -> wf_set k x -> k < 2 ^ 16 -> drained_set x ->
  exists s', update_one_semaphore i false s = Halt Undef s'.
Proof.
  intros Hx Hwf Hk Hd. unfold update_one_semaphore. pose proof (wx_nsems _ _ Hwf) as Hn.
  rewrite (bind_ret _ _ x s s) by (unfold get_sem; run_step; by rewrite Hx).
  replace (sem_nsems (sem_ds x)) with (Z.of_nat (Z.to_nat (sem_nsems (sem_ds x)))) by lia.
  enough (exists s', foreach (seqZ 0 (Z.of_nat (Z.to_nat (sem_nsems (sem_ds x)))))
    (fun j => wake_zero i j;; wake_increase i j) (at_set s i (sems x) (sent s)) = Halt Undef s')
    as [s' Hs'] by (exists s'; by rewrite <-Hs', at_set_id by done).
  apply (foreach_update_halt (at_set s i) _ Undef (fun y => (wake y).1) (fun y => (wake y).2)
             (fun y => wf_s k y /\ ~ drained y) (fun y => wf_s k y /\ drained y)).
  - lia.
  - eapply list.Forall_impl; [apply (wx_sems _ _ Hwf)|]. intros y Hy.
    destruct (decide (drained y)); auto.
  - apply List.Exists_exists in Hd as (y & Hy & Hd). apply List.Exists_exists. exists y.
    split; [done|]. split; [|done]. pose proof (wx_sems _ _ Hwf) as Hs.
    rewrite List.Forall_forall in Hs. auto.
  - intros j l o y Hj Hy [Hy1 Hy2]. by eapply wake_at.
  - intros j l o y Hj Hy [Hy1 Hy2].
    destruct (wake_zero_drained i j (at_set s i l o) (x <| sems := l |>) y) as [s' Hs'];
      [by unfold at_set, upd; cbn; rewrite aget_aupd_eq, Hx|done|done| |].
    + pose proof (ws_zlist _ _ Hy1). by destruct (zlist y).
    + exists s'. by apply bind_halt.
Qed.

Lemma update_semaphores_drained k s :
  wf_sems k s -> k < 2 ^ 16 -> Exists drained_set (live_sets s) ->
  exists s', update_semaphores s = Halt Undef s'.
Proof.
  intros Hwf Hk Hd. pose proof (wt_nr _ _ Hwf) as Hn.
  unfold update_semaphores. rewrite (bind_ret _ _ (sem_list_nr s) s s) by done.
  replace (sem_list_nr s) with (Z.of_nat (Z.to_nat (sem_list_nr s))) by lia.
  enough (exists s', foreach (seqZ 0 (Z.of_nat (Z.to_nat (sem_list_nr s))))
    (fun i => update_one_semaphore i false) (at_table s (sem_list s) (sent s)) = Halt Undef s')
    as [s' Hs'] by (exists s'; rewrite <-Hs'; by destruct s).
  apply (foreach_update_halt (at_table s) _ Undef (fun x => (update_set x).1)
    (fun x => (update_set x).2) (fun x => wf_set k x /\ no_drained x)
    (fun x => wf_set k x /\ drained_set x)).
  - lia.
  - eapply list.Forall_impl; [apply (wt_sets _ _ Hwf)|]. intros x Hx.
    destruct (no_drained_or x); auto.
  - apply List.Exists_exists in Hd as (x & Hx & Hd). apply List.Exists_exists. exists x.
    split; [done|]. split; [|done]. pose proof (wt_sets _ _ Hwf) as Hs.
    rewrite List.Forall_forall in Hs. auto.
  - intros i l o x Hi Hx [Hx1 Hx2]. by rewrite update_one_run with (k := k) (x := x).
  - intros i l o x Hi Hx [Hx1 Hx2]. by eapply update_one_drained.
Qed.

Lemma wn_zero k y : wf_s k y -> semval y = 0 -> wn y = (y, []).
Proof.
  intros Hwf Hv. unfold wn. destruct (list_find _ _) as [[n w]|] eqn:E; [|done].
  destruct (list_find_take_first _ _ _ _ Hwf E) as (_ & ? & _). lia.
Qed.
End drained.

(** C24: a process that waits for zero, alone on its semaphore, whose value is now zero, is
    woken by the next [update_semaphores]; and then the one after it moves a memory block
    of size (size_t)-1 * 8 and the server is gone, whatever call it runs for.  The list
    is emptied but not reset to NULL, and [update_one_semaphore] takes a list that is not
    NULL for one that has an entry. *)
Theorem zero_wait_crashes `{IpcHeaders} {W : Type} `{IpcEnv W} (k : Z) (s : state W)
    (i j : Z) (x : sem_struct) (y : semaphore) (e : waiting) (b : list waiting) :
  k < 2 ^ 16 -> wf_sems k s -> Forall no_drained (live_sets s) ->
  aget (sem_list s) i = Some x -> i < sem_list_nr s ->
  aget (sems x) j = Some y -> j < sem_nsems (sem_ds x) ->
  zlist y = Block (e :: b) -> semzcnt y = 1 -> semval y = 0 ->
  exists s', update_semaphores s = Ret tt s' /\ In (mk_packet (who e) OK None) (sent s') /\
    exists s'', update_semaphores s' = Halt Undef s''.
Proof.
  intros Hk Hwf Hd Hx Hi Hy Hj Hz Hc Hv. exists (updated s).
  pose proof (aget_range _ _ _ Hx). pose proof (aget_range _ _ _ Hy).
  assert (x ∈ live_sets s) as Hxl by (apply (aget_take _ _ i); [lia|done]).
  assert (y ∈ live_sems x) as Hyl by (apply (aget_take _ _ j); [lia|done]).
  assert (wf_set k x) as Hwx by (exact (Forall_elem _ _ _ (wt_sets _ _ Hwf) Hxl)).
  assert (wf_s k y) as Hwy by (exact (Forall_elem _ _ _ (wx_sems _ _ Hwx) Hyl)).
  assert (no_drained x) as Hdx by (exact (Forall_elem _ _ _ Hd Hxl)).
  assert (~ drained y) as Hdy by (exact (Forall_elem _ _ _ Hdx Hyl)).
  assert (wake y = (y <| zlist := Block (slid (e :: b) 0 1) |> <| semzcnt := 0 |>, [ok_to e])) as Hw.
  { pose proof (wz_wf _ _ Hwy Hdy) as Hwz. unfold wake. unfold wz in *.
    rewrite Hz, Hv, Hc in *. cbn [Z.eqb fst snd] in *. by rewrite (wn_zero k _ Hwz). }
  split_and!.
  - by apply (update_semaphores_run k).
  - simpl. apply in_app_iff. right. apply in_concat. exists (update_set x).2.
    split; [apply in_map_iff; exists x; split; [done|by apply list_elem_of_In]|].
    simpl. apply in_concat. exists [ok_to e]. split; [|by left].
    apply in_map_iff. exists y. rewrite Hw. split; [done|by apply list_elem_of_In].
  - apply (update_semaphores_drained k); [by apply updated_wf|done|].
    rewrite live_sets_map. apply List.Exists_exists. exists (update_set x).1.
    split; [apply in_map_iff; exists x; split; [done|by apply list_elem_of_In]|].
    unfold drained_set. rewrite live_sems_map.
    apply List.Exists_exists. exists (wake y).1.
    split; [apply in_map_iff; exists y; split; [done|by apply list_elem_of_In]|].
    rewrite Hw. by split_and!.
Qed.

(** ** Liveness of the waiting processes *)
Section liveness.
Context `{IpcHeaders} {W : Type} `{IpcEnv W}.
Implicit Types (s : state W).

Definition total (ws : list waiting) : Z := sumZ val ws.

(** With enough units for all of them the first process of the queue is the one woken. *)
Lemma wn_first k y w ws :
  wf_s k y -> nwaiters y = w :: ws -> total (w :: ws) <= semval y ->
  nwaiters (wn y).1 = ws /\ semval (wn y).1 = semval y - val w /\ (wn y).2 = [ok_to w].
Proof.
  intros Hwf Hw Hv. pose proof (ws_pos _ _ Hwf) as Hpos. rewrite Hw in Hpos.
  unfold total in Hv. rewrite sumZ_cons in Hv. inversion Hpos as [|? ? Hp1 Hp2]; subst.
  assert (0 <= sumZ val ws).
  { apply sumZ_nonneg. eapply list.Forall_impl; [exact Hp2|]. simpl. lia. }
  destruct (wn_abs _ _ Hwf) as [Ha Ho]. unfold abs_s, wake_first in *. simpl in *.
  rewrite Hw in Ha, Ho. simpl in *. unfold fits in *. rewrite decide_True in Ha, Ho by lia.
  simpl in *. split_and!; [by apply (f_equal snd) in Ha|by apply (f_equal fst) in Ha|done].
Qed.

Lemma map_sets_at f s i j x y :
  aget (sem_list s) i = Some x -> i < sem_list_nr s ->
  aget (sems x) j = Some y -> j < sem_nsems (sem_ds x) ->
  exists x', aget (sem_list (map_sets f s)) i = Some x' /\ sem_ds x' = sem_ds x /\
    aget (sems x') j = Some (f y).1 /\
    exists o, sent (map_sets f s) = sent s ++ o /\ sublist (f y).2 o.
Proof.
  intros Hx Hi Hy Hj. pose proof (aget_range _ _ _ Hx). pose proof (aget_range _ _ _ Hy).
  exists (map_set f x).1. unfold map_sets, at_table. simpl. rewrite aget_map_pre, Hx.
  rewrite decide_True by lia. split_and!; [done..| |].
  - rewrite aget_map_pre, Hy. by rewrite decide_True by lia.
  - eexists. split; [done|]. transitivity (map_set f x).2.
    + simpl. apply (sublist_concat (fun y => (f y).2)). apply (aget_take _ _ j); [lia|done].
    + apply (sublist_concat (fun x => (map_set f x).2)). apply (aget_take _ _ i); [lia|done].
Qed.

Lemma live_at s k i j x y :
  wf_sems k s -> aget (sem_list s) i = Some x -> i < sem_list_nr s ->
  aget (sems x) j = Some y -> j < sem_nsems (sem_ds x) -> wf_set k x /\ wf_s k y.
Proof.
  intros Hwf Hx Hi Hy Hj. pose proof (aget_range _ _ _ Hx). pose proof (aget_range _ _ _ Hy).
  assert (wf_set k x) as Hwx.
  { apply (Forall_elem _ _ _ (wt_sets _ _ Hwf)), (aget_take _ _ i); [lia|done]. }
  split; [done|]. apply (Forall_elem _ _ _ (wx_sems _ _ Hwx)), (aget_take _ _ j); [lia|done].
Qed.
Lemma no_zlist_at s i j x y :
  Forall no_zlist (live_sets s) -> aget (sem_list s) i = Some x -> i < sem_list_nr s ->
  aget (sems x) j = Some y -> j < sem_nsems (sem_ds x) -> zlist y = NULL.
Proof.
  intros Hz Hx Hi Hy Hj. pose proof (aget_range _ _ _ Hx). pose proof (aget_range _ _ _ Hy).
  assert (no_zlist x) as Hzx.
  { apply (Forall_elem _ _ _ Hz), (aget_take _ _ i); [lia|done]. }
  apply (Forall_elem _ _ _ Hzx), (aget_take _ _ j); [lia|done].
Qed.
Lemma all_no_drained s : Forall no_zlist (live_sets s) -> Forall no_drained (live_sets s).
Proof. intros Hz. eapply list.Forall_impl; [exact Hz|]. apply no_zlist_no_drained. Qed.
End liveness.


(** ** semop on the abstract semaphores *)
Definition abs_op (e n : Z) (a : Z * list waiting) : Z * list waiting :=
  if 0 <? n then (u16 (a.1 + n), a.2)
  else if - n <=? a.1 then (a.1 + n, a.2)
  else (a.1, a.2 ++ [mk_waiting e (- n)]).
Definition sleeps (n : Z) (a : Z * list waiting) : bool := (n <? 0) && (a.1 <? - n).

(** The operation of the call on semaphore [j], if any. *)
Definition op_on (j : Z) (ops : list sembuf) : option sembuf :=
  snd <$> list_find (fun o => sem_num o = j) ops.
Definition abs_ops (e : Z) (ops : list sembuf) (j : Z) (a : Z * list waiting) : Z * list waiting :=
  match op_on j ops with Some o => abs_op e (sem_op o) a | None => a end.
Definition some_sleep (l : list semaphore) (ops : list sembuf) : bool :=
  existsb (fun o => match aget l (sem_num o) with
                    | Some y => sleeps (sem_op o) (abs_s y) | None => false end) ops.

Section semop.
Context `{IpcHeaders} {W : Type} `{IpcEnv W} `{!IpcEnvLaws W}.
Hypothesis memory : forall n w, (realloc n w).1 = true.
Implicit Types (s : state W).

Lemma push_run l cnt e s :
  wf_list l cnt ->
  exists b, push l (cnt + 1) e s =
    Ret (Block b) (s <| world := (realloc (sizeof_waiting * (cnt + 1)) (world s)).2 |>) /\
    take (Z.to_nat (cnt + 1)) b = waiters l cnt ++ [e] /\ Z.of_nat (length b) = cnt + 1.
Proof.
  intros Hl. pose proof (wf_list_nonneg _ _ Hl) as Hc.
  set (w' := realloc (sizeof_waiting * (cnt + 1)) (world s)).
  set (b0 := match l with Block b => b | _ => [] end).
  set (b := resize (Z.to_nat (cnt + 1)) (garbage w'.2) b0).
  assert (Z.of_nat (length b) = cnt + 1) as Hlen by (unfold b; rewrite length_resize; lia).
  assert (exists g, b = waiters l cnt ++ [g]) as [g Hb].
  { assert (take (Z.to_nat cnt) b = waiters l cnt) as Ht.
    { unfold b. rewrite take_resize. replace (_ `min` _)%nat with (Z.to_nat cnt) by lia.
      unfold b0. destruct l as [|b'|]; simpl in *; [by rewrite Hl| |done].
      apply resize_le. lia. }
    assert (exists g, drop (Z.to_nat cnt) b = [g]) as [g Hg].
    { assert (length (drop (Z.to_nat cnt) b) = 1%nat) as Hd by (rewrite length_drop; lia).
      destruct (drop _ b) as [|g [|]]; simplify_eq/=; eauto. }
    exists g. by rewrite <-Ht, <-Hg, take_drop. }
  pose proof (length_waiters _ _ Hl) as Hw.
  exists (waiters l cnt ++ [e]). split_and!.
  - unfold push. rewrite (bind_ret _ _ b0 s s) by (unfold b0; by destruct l).
    rewrite (bind_ret _ _ true _ (s <| world := w'.2 |>)).
    2:{ unfold env, w'. run_step. generalize (memory (sizeof_waiting * (cnt + 1)) (world s)).
        destruct (realloc _ _) as [ok w0]. simpl. by intros ->. }
    cbn [negb]. run_step.
    change (resize _ _ b0) with b. replace (cnt + 1 - 1) with (Z.of_nat (length (waiters l cnt))) by lia.
    rewrite (bind_ret _ _ g (s <| world := w'.2 |>) (s <| world := w'.2 |>)) by
      (by rewrite Hb, aget_app).
    by rewrite mret_run, Hb, aupd_app.
  - rewrite firstn_all2; [done|]. rewrite length_app. simpl. lia.
  - rewrite length_app. simpl. lia.
Qed.

Lemma at_set_world s i l o (w : W) :
  (at_set s i l o) <| world := w |> = at_set (s <| world := w |>) i l o.
Proof. done. Qed.

Lemma may_run p md s : may p md s = Ret (check_perm p (who_e s) md (world s)) s.
Proof. done. Qed.

Lemma world_id s : s <| world := world s |> = s.
Proof. by destruct s. Qed.

Section one.
Context (s : state W) (i : Z) (x : sem_struct) (Hx : aget (sem_list s) i = Some x).

Lemma sleep_increase_run l o j y k v :
  aget l j = Some y -> wf_s k y -> k + 1 < 2 ^ 16 -> 0 < v ->
  exists y' w', sleep_increase i j v (at_set s i l o) =
      Ret true (at_set (s <| world := w' |>) i (aupd j (fun _ => y') l) o) /\
    (forall e, getnuid e w' = getnuid e (world s) /\ getngid e w' = getngid e (world s)) /\
    wf_s (k + 1) y' /\ zlist y' = zlist y /\
    abs_s y' = (semval y, nwaiters y ++ [mk_waiting (who_e s) v]).
Proof.
  intros Hy Hwf Hk Hv. unfold sleep_increase.
  pose proof (ws_nlist _ _ Hwf) as Hl. pose proof (wf_list_nonneg _ _ Hl).
  pose proof (ws_ncnt _ _ Hwf).
  rewrite (bind_ret _ _ _ _ _ (set_s_at s i x Hx _ _ _ _ _ Hy)).
  erewrite bind_ret; [|eapply get_s_at; [done|]; by rewrite aget_aupd_eq, Hy].
  run_step. cbn. rewrite u16_small by lia.
  destruct (push_run (nlist y) (semncnt y) (mk_waiting (who_e s) v)
    (at_set s i (aupd j (fun y => y <| semncnt := u16 (semncnt y + 1) |>) l) o) Hl)
    as (b & Hp & Hb & Hlen).
  rewrite (bind_ret _ _ _ _ _ Hp).
  set (w' := (realloc _ _).2).
  rewrite at_set_world.
  erewrite bind_ret; [|eapply (set_s_at (s <| world := w' |>)); [done|]; by rewrite aget_aupd_eq, Hy].
  exists (y <| semncnt := semncnt y + 1 |> <| nlist := Block b |>), w'. split_and!.
  - rewrite mret_run. do 2 f_equal. rewrite aupd_aupd. apply aupd_ext. intros ? ?. simplify_eq.
    destruct y; cbn in *. by rewrite u16_small by lia.
  - intros e. apply realloc_ids.
  - destruct Hwf. constructor; simpl; try done; try lia.
    unfold nwaiters. simpl. rewrite Hb. apply list.Forall_app. split; [done|by constructor].
  - done.
  - unfold abs_s, nwaiters. simpl. by rewrite Hb.
Qed.


Lemma semop_run_cons l o y k op :
  aget l (sem_num op) = Some y -> wf_s k y -> k + 1 < 2 ^ 16 -> sem_op op <> 0 ->
  check_perm (sem_perm (sem_ds x)) (who_e s) (oct 2 2 2) (world s) = true ->
  exists y1 w1,
    (forall ops nr, semop_run i (op :: ops) nr (at_set s i l o) =
       semop_run i ops (nr || sleeps (sem_op op) (abs_s y))
         (at_set (s <| world := w1 |>) i (aupd (sem_num op) (fun _ => y1) l) o)) /\
    (forall e, getnuid e w1 = getnuid e (world s) /\ getngid e w1 = getngid e (world s)) /\
    wf_s (k + 1) y1 /\ zlist y1 = zlist y /\
    abs_s y1 = abs_op (who_e s) (sem_op op) (abs_s y).
Proof.
  intros Hy Hwf Hk Hn Hperm. set (j := sem_num op) in *. set (n := sem_op op) in *.
  set (y0 := y <| sempid := getnpid (who_e s) (world s) |>).
  assert (wf_s k y0) as Hwf0 by (by destruct Hwf; constructor).
  assert (aget (aupd j (fun _ => y0) l) j = Some y0) as Hy0 by (by rewrite aget_aupd_eq, Hy).
  pose proof (ws_val _ _ Hwf) as Hv.
  assert (forall ops nr, semop_run i (op :: ops) nr (at_set s i l o) =
    (if 0 <? n then
       set_s i j (fun y => y <| semval := u16 (semval y + n) |>);; semop_run i ops nr
     else
       y ← get_s i j;
       if - n <=? semval y then
         set_s i j (fun y => y <| semval := u16 (semval y + n) |>);; semop_run i ops nr
       else
         ok ← sleep_increase i j (- n);
         if negb ok then mret (OK, nr) else semop_run i ops true)
    (at_set s i (aupd j (fun _ => y0) l) o)) as Hstart.
  { intros ops nr. cbn [semop_run]. run_step. run_step.
    erewrite bind_ret; [|eapply (set_s_at s i x Hx); exact Hy].
    rewrite (aupd_ext l j _ (fun _ => y0)) by (intros ? ?; by simplify_eq).
    rewrite (bind_ret _ _ _ _ _ (get_sem_at s i x Hx _ _)).
    fold n. rewrite (proj2 (Z.eqb_neq _ _) Hn).
    destruct (0 <? n); rewrite (bind_ret _ _ _ _ _ (may_run _ _ _)); cbn [sem_ds upd];
      (replace (check_perm _ _ _ _) with true by (symmetry; exact Hperm)); done. }
  unfold abs_op, sleeps. cbn [abs_s fst snd].
  destruct (0 <? n) eqn:En; [|destruct (- n <=? semval y) eqn:Ev].
  - exists (y0 <| semval := u16 (semval y + n) |>), (world s). split_and!; [|done| |done|done].
    + intros ops nr. rewrite Hstart. erewrite bind_ret; [|eapply (set_s_at s i x Hx); exact Hy0].
      replace (n <? 0) with false by lia. rewrite orb_false_r, world_id, aupd_aupd. done.
    + destruct Hwf0; constructor; simpl in *; try done; try lia. apply u16_range.
  - exists (y0 <| semval := semval y + n |>), (world s). split_and!; [|done| |done|done].
    + intros ops nr. rewrite Hstart.
      rewrite (bind_ret _ _ _ _ _ (get_s_at s i x Hx _ _ _ _ Hy0)).
      replace (- n <=? semval y0) with true by (simpl; lia).
      erewrite bind_ret; [|eapply (set_s_at s i x Hx); exact Hy0].
      replace ((n <? 0) && (semval y <? - n)) with false by lia.
      rewrite orb_false_r, world_id, aupd_aupd. do 2 f_equal. apply aupd_ext.
      intros ? _. simpl. by rewrite u16_small by lia.
    + destruct Hwf0; constructor; simpl in *; try done; lia.
  - destruct (sleep_increase_run _ o j y0 k (- n) Hy0 Hwf0 Hk) as (y1 & w1 & Hrun & Hids & Hw1 & Hz & Ha);
      [lia|].
    exists y1, w1. split_and!; [|done..].
    intros ops nr. rewrite Hstart.
    rewrite (bind_ret _ _ _ _ _ (get_s_at s i x Hx _ _ _ _ Hy0)).
    replace (- n <=? semval y0) with false by (simpl; lia).
    rewrite (bind_ret _ _ _ _ _ Hrun). cbn [negb]. rewrite aupd_aupd.
    replace ((n <? 0) && (semval y <? - n)) with true by lia. by rewrite orb_true_r.
Qed.
End one.
Lemma check_perm_ids p e md w w' :
  getnuid e w' = getnuid e w -> getngid e w' = getngid e w ->
  check_perm p e md w' = check_perm p e md w.
Proof. unfold check_perm. by intros -> ->. Qed.

Lemma op_on_cons j o ops :
  op_on j (o :: ops) = if decide (sem_num o = j) then Some o else op_on j ops.
Proof.
  unfold op_on. simpl. case_decide; [done|]. by destruct (list_find _ ops) as [[? ?]|].
Qed.
Lemma op_on_none j ops : j ∉ sem_num <$> ops -> op_on j ops = None.
Proof.
  induction ops as [|o ops IH]; [done|]. rewrite fmap_cons, not_elem_of_cons, op_on_cons.
  intros [? ?]. rewrite decide_False by done. auto.
Qed.

Lemma some_sleep_aupd l ops j y1 :
  j ∉ sem_num <$> ops -> some_sleep (aupd j (fun _ => y1) l) ops = some_sleep l ops.
Proof.
  unfold some_sleep. induction ops as [|o ops IH]; [done|].
  rewrite fmap_cons, not_elem_of_cons. intros [? ?]. simpl. rewrite IH by done.
  by rewrite aget_aupd_ne by done.
Qed.

(** The loop of [do_semop] on distinct semaphores, with the right to alter them. *)
Lemma semop_run_spec ops : forall k s i x l o nr,
  aget (sem_list s) i = Some x -> k + 1 < 2 ^ 16 -> base.NoDup (sem_num <$> ops) ->
  (forall op, op ∈ ops -> sem_op op <> 0 /\ exists y, aget l (sem_num op) = Some y /\ wf_s k y) ->
  check_perm (sem_perm (sem_ds x)) (who_e s) (oct 2 2 2) (world s) = true ->
  exists l' w',
    semop_run i ops nr (at_set s i l o) =
      Ret (OK, nr || some_sleep l ops) (at_set (s <| world := w' |>) i l' o) /\
    (forall e, getnuid e w' = getnuid e (world s) /\ getngid e w' = getngid e (world s)) /\
    length l' = length l /\
    forall j y, aget l j = Some y -> exists y', aget l' j = Some y' /\
      abs_s y' = abs_ops (who_e s) ops j (abs_s y) /\ zlist y' = zlist y /\
      (wf_s k y -> wf_s (k + 1) y') /\ (j ∉ sem_num <$> ops -> y' = y).
Proof.
  induction ops as [|op ops IH]; intros k s i x l o nr Hx Hk Hnd Hops Hperm.
  - exists l, (world s). rewrite world_id, orb_false_r. split_and!; [done..|].
    intros j y Hy. exists y. split_and!; try done. intros ?. eapply wf_s_mono; [done|lia].
  - rewrite fmap_cons in Hnd. apply list.NoDup_cons in Hnd as [Hni Hnd].
    destruct (Hops op) as (Hn & y & Hy & Hwf); [by left|].
    destruct (semop_run_cons s i x Hx l o y k op Hy Hwf Hk Hn Hperm)
      as (y1 & w1 & Hrun & Hids & Hwf1 & Hz1 & Ha1).
    destruct (IH k (s <| world := w1 |>) i x (aupd (sem_num op) (fun _ => y1) l) o
      (nr || sleeps (sem_op op) (abs_s y))) as (l' & w' & Hrun' & Hids' & Hlen' & Hl');
      [done|done|done| | |].
    + intros op' Hop'. destruct (Hops op') as (? & y' & Hy' & ?); [by right|].
      split; [done|]. exists y'. rewrite aget_aupd_ne; [done|]. intros Heq. apply Hni.
      rewrite Heq. apply list_elem_of_fmap. by exists op'.
    + rewrite <-Hperm. by apply check_perm_ids; apply Hids.
    + exists l', w'. split_and!.
      * rewrite Hrun, Hrun', some_sleep_aupd by done. f_equal. unfold some_sleep. simpl.
        by rewrite Hy, orb_assoc.
      * intros e. destruct (Hids e), (Hids' e). simpl in *. split; congruence.
      * by rewrite Hlen', length_aupd.
      * intros j y2 Hy2. unfold abs_ops. rewrite op_on_cons.
        destruct (decide (sem_num op = j)) as [<-|Hne].
        -- simplify_eq. destruct (Hl' (sem_num op) y1) as (y' & Hy' & _ & _ & _ & Heq);
             [by rewrite aget_aupd_eq, Hy|].
           rewrite (Heq Hni) in Hy'. exists y1. split_and!; try done.
           intros []. by left.
        -- destruct (Hl' j y2) as (y' & Hy' & Ha' & Hz' & Hwf' & Heq);
             [by rewrite aget_aupd_ne|].
           exists y'. split_and!; try done. intros Hj. apply Heq. intros ?. apply Hj. by right.
Qed.
End semop.

(** ** The calls *)
Section calls.
Context `{IpcHeaders} {W : Type} `{IpcEnv W}.
Implicit Types (s : state W).

Lemma get_sem_run s i x : aget (sem_list s) i = Some x -> get_sem i s = Ret x s.
Proof. intros Hx. unfold get_sem. run_step. by rewrite Hx. Qed.

Lemma set_sem_run s i x f :
  aget (sem_list s) i = Some x ->
  set_sem i f s = Ret tt (s <| sem_list := aupd i f (sem_list s) |>).
Proof. intros Hx. unfold set_sem. by rewrite (bind_ret _ _ _ _ _ (get_sem_run _ _ _ Hx)). Qed.

Lemma live_lookup s n x :
  live_sets s !! n = Some x ->
  aget (sem_list s) (Z.of_nat n) = Some x /\ 0 <= Z.of_nat n < sem_list_nr s.
Proof.
  unfold live_sets. rewrite lookup_take. case_decide; [|done]. rewrite aget_nat.
  intros ->. split; [done|lia].
Qed.

Lemma length_live s k : wf_sems k s -> Z.of_nat (length (live_sets s)) = sem_list_nr s.
Proof. intros Hwf. pose proof (wt_nr _ _ Hwf). unfold live_sets. rewrite length_take. lia. Qed.

Lemma find_sem_run k s p :
  wf_sems k s ->
  find_sem p s = Ret ((Z.of_nat ∘ fst) <$> list_find (fun x => p x = true) (live_sets s)) s.
Proof.
  intros Hwf. unfold find_sem. rewrite (bind_ret _ _ (sem_list_nr s) s s) by done.
  assert (forall n x, live_sets s !! n = Some x ->
    (x ← get_sem (Z.of_nat n); mret (if p x then Some (Z.of_nat n) else None) : M (state W) _) s =
      Ret (if p x then Some (Z.of_nat n) else None) s) as Hb.
  { intros n x (Hx & _)%live_lookup. by rewrite (bind_ret _ _ _ _ _ (get_sem_run _ _ _ Hx)). }
  rewrite (for_first (fun x => p x = true) (live_sets s)).
  - destruct (list_find _ _) as [[n x]|] eqn:E; [|done].
    apply list_find_Some in E as (Hx & Hp & _). rewrite (Hb _ _ Hx). simpl. by rewrite Hp.
  - by rewrite (length_live s k).
  - intros n x Hx Hp. rewrite (Hb _ _ Hx). by destruct (p x).
  - intros n x (Hx & Hp & _)%list_find_Some. rewrite (Hb _ _ Hx). by rewrite Hp.
Qed.

Lemma list_find_ext {A} (P Q : A -> Prop) `{forall x, Decision (P x)} `{forall x, Decision (Q x)} l :
  (forall x, P x <-> Q x) -> list_find P l = list_find Q l.
Proof.
  intros HPQ. induction l as [|x l IH]; [done|]. simpl. rewrite IH.
  pose proof (HPQ x). repeat case_decide; tauto.
Qed.

(** The set a call names. *)
Definition set_of (id : Z) s : option (nat * sem_struct) :=
  list_find (fun x => sem_id x = id) (live_sets s).

Lemma sem_find_id_run k s id :
  wf_sems k s -> sem_find_id id s = Ret ((Z.of_nat ∘ fst) <$> set_of id s) s.
Proof.
  intros Hwf. unfold sem_find_id. rewrite (find_sem_run k) by done. unfold set_of.
  do 2 f_equal. apply list_find_ext. intros x. apply Z.eqb_eq.
Qed.

Lemma set_of_at s id n x :
  set_of id s = Some (n, x) ->
  aget (sem_list s) (Z.of_nat n) = Some x /\ 0 <= Z.of_nat n < sem_list_nr s.
Proof. intros (Hx & _)%list_find_Some. by apply live_lookup. Qed.

Lemma duplicate_false ops : duplicate ops = false -> base.NoDup (sem_num <$> ops).
Proof.
  induction ops as [|o ops IH]; [constructor|]. simpl. intros [Hd Hr]%orb_false_iff.
  constructor; [|by apply IH]. intros (o' & He & Ho')%list_elem_of_fmap.
  apply not_true_iff_false in Hd. apply Hd, existsb_exists. exists o'.
  split; [by apply list_elem_of_In|]. lia.
Qed.

Lemma bad_number_false n ops o :
  bad_number n ops = false -> o ∈ ops -> 0 <= sem_num o < n.
Proof.
  intros Hb Ho. apply not_true_iff_false in Hb.
  destruct (decide (0 <= sem_num o < n)); [done|]. destruct Hb. apply existsb_exists.
  exists o. split; [by apply list_elem_of_In|lia].
Qed.

(** Replacing the semaphores of a set keeps the table in order. *)
Lemma at_set_wf k k' s i x l o :
  wf_sems k s -> k <= k' -> aget (sem_list s) i = Some x -> length l = length (sems x) ->
  Forall (wf_s k') (take (Z.to_nat (sem_nsems (sem_ds x))) l) -> wf_sems k' (at_set s i l o).
Proof.
  intros Hwf Hk Hx Hlen Hl. pose proof (aget_range _ _ _ Hx).
  constructor; [unfold at_set; simpl; rewrite length_aupd; apply Hwf|].
  apply list.Forall_forall. intros x' (i' & Hi' & Hx')%elem_aget.
  unfold at_set in Hx'. simpl in Hx', Hi'. destruct (decide (i = i')) as [<-|Hne].
  - rewrite aget_aupd_eq, Hx in Hx'. simplify_eq/=. constructor; [|done]. simpl.
    assert (wf_set k x) as Hwx by
      (apply (Forall_elem _ _ _ (wt_sets _ _ Hwf)), (aget_take _ _ i); [lia|done]).
    rewrite Hlen. apply Hwx.
  - rewrite aget_aupd_ne in Hx' by done.
    assert (wf_set k x') as [Hn Hs] by
      (apply (Forall_elem _ _ _ (wt_sets _ _ Hwf)), (aget_take _ _ i'); [lia|done]).
    constructor; [done|]. eapply list.Forall_impl; [exact Hs|]. intros y Hy.
    by eapply wf_s_mono.
Qed.

Lemma at_set_no_zlist s i x l o :
  Forall no_zlist (live_sets s) -> aget (sem_list s) i = Some x ->
  Forall (fun y => zlist y = NULL) (take (Z.to_nat (sem_nsems (sem_ds x))) l) ->
  Forall no_zlist (live_sets (at_set s i l o)).
Proof.
  intros Hz Hx Hl. apply list.Forall_forall. intros x' (i' & Hi' & Hx')%elem_aget.
  unfold at_set in Hx'. simpl in Hx', Hi'. destruct (decide (i = i')) as [<-|Hne].
  - rewrite aget_aupd_eq, Hx in Hx'. simplify_eq/=. done.
  - rewrite aget_aupd_ne in Hx' by done.
    apply (Forall_elem _ _ _ Hz), (aget_take _ _ i'); [lia|done].
Qed.
End calls.

(** What the checks of [do_semop] ask for before any semaphore changes; [w1] is the world
    once the table of operations has its memory. *)
Record semop_allowed `{IpcHeaders} {W : Type} `{IpcEnv W} (s : state W) (id addr size : Z)
    (i : nat) (x : sem_struct) (ops : list sembuf) : Prop := {
  sa_set : set_of id s = Some (i, x);
  sa_size : 0 < u32 size <= SEMOPM;
  sa_read : check_perm (sem_perm (sem_ds x)) (who_e s) (oct 4 4 4) (world s) = true;
  sa_malloc : (malloc (sizeof_sembuf * u32 size) (world s)).1 = true;
  sa_ops : copy_sops (who_e s) addr (u32 size) (malloc (sizeof_sembuf * u32 size) (world s)).2
           = Some ops;
  sa_number : bad_number (sem_nsems (sem_ds x)) ops = false;
  sa_distinct : duplicate ops = false;
  sa_nowait : forall op y, op ∈ ops -> aget (sems x) (sem_num op) = Some y ->
    flag (sem_flg op) IPC_NOWAIT && would_block (sem_op op) (semval y) = false;
}.

Section do_semop.
Context `{IpcHeaders} {W : Type} `{IpcEnv W} `{!IpcEnvLaws W}.
Hypothesis memory : forall n w, (realloc n w).1 = true.
Implicit Types (s : state W).

Lemma sem_in_set k x j : wf_set k x -> 0 <= j < sem_nsems (sem_ds x) ->
  exists y, aget (sems x) j = Some y /\ wf_s k y.
Proof.
  intros Hwf Hj. pose proof (wx_nsems _ _ Hwf).
  destruct (aget_is_Some (sems x) j) as [y Hy]; [lia|]. exists y. split; [done|].
  apply (Forall_elem _ _ _ (wx_sems _ _ Hwf)), (aget_take _ _ j); [lia|done].
Qed.

Lemma nowait_run k s i x ops :
  aget (sem_list s) i = Some x -> wf_set k x -> bad_number (sem_nsems (sem_ds x)) ops = false ->
  (forall op y, op ∈ ops -> aget (sems x) (sem_num op) = Some y ->
     flag (sem_flg op) IPC_NOWAIT && would_block (sem_op op) (semval y) = false) ->
  nowait_fails i ops s = Ret false s.
Proof.
  intros Hx Hwf Hb Hno. unfold nowait_fails. erewrite bind_ret; [|apply for_none_run].
  - by rewrite mret_run.
  - intros o Ho. destruct (sem_in_set k x (sem_num o) Hwf (bad_number_false _ _ _ Hb Ho))
      as (y & Hy & _).
    rewrite (bind_ret _ _ y s s).
    + by rewrite (Hno _ _ Ho Hy).
    + unfold get_s. by rewrite (bind_ret _ _ _ _ _ (get_sem_run _ _ _ Hx)), Hy.
Qed.

(** The result of the call before it replies. *)
Lemma semop_result_run k s id addr size i x ops :
  wf_sems k s -> k + 1 < 2 ^ 16 -> semop_allowed s id addr size i x ops ->
  Forall (fun o => sem_op o <> 0) ops ->
  check_perm (sem_perm (sem_ds x)) (who_e s) (oct 2 2 2) (world s) = true ->
  exists l' w',
    semop_result id addr (u32 size) s =
      Ret (OK, some_sleep (sems x) ops) (at_set (s <| world := w' |>) (Z.of_nat i) l' (sent s)) /\
    length l' = length (sems x) /\
    forall j y, aget (sems x) j = Some y -> exists y', aget l' j = Some y' /\
      abs_s y' = abs_ops (who_e s) ops j (abs_s y) /\ zlist y' = zlist y /\
      (wf_s k y -> wf_s (k + 1) y') /\ (j ∉ sem_num <$> ops -> y' = y).
Proof.
  intros Hwf Hk [] Hnz Hperm. destruct (set_of_at _ _ _ _ sa_set0) as [Hx Hi].
  assert (wf_set k x) as Hwx by
    (apply (Forall_elem _ _ _ (wt_sets _ _ Hwf)), (aget_take _ _ (Z.of_nat i)); [lia|done]).
  set (w1 := (malloc (sizeof_sembuf * u32 size) (world s)).2) in *.
  destruct (semop_run_spec memory ops k (s <| world := w1 |>) (Z.of_nat i) x (sems x) (sent s) false)
    as (l' & w' & Hrun & _ & Hlen & Hl'); [done|done|by apply duplicate_false| | |].
  { intros op Hop. split; [by apply (Forall_elem _ _ _ Hnz)|].
    apply sem_in_set; [done|]. by apply (bad_number_false _ ops). }
  { rewrite <-Hperm. by apply check_perm_ids; apply malloc_ids. }
  exists l', w'. split_and!; [|done..].
  unfold semop_result. rewrite (bind_ret _ _ _ _ _ (sem_find_id_run k s id Hwf)), sa_set0.
  cbn [fmap option_fmap option_map fst compose].
  replace (u32 size =? 0) with false by lia. replace (SEMOPM <? u32 size) with false by lia.
  rewrite (bind_ret _ _ _ _ _ (get_sem_run _ _ _ Hx)).
  rewrite (bind_ret _ _ _ _ _ (may_run _ _ _)), sa_read0. cbn [negb].
  rewrite (bind_ret _ _ true _ (s <| world := w1 |>)).
  2:{ unfold env, w1. run_step. revert sa_malloc0. destruct (malloc _ _) as [ok w0]. simpl.
      by intros ->. }
  cbn [negb]. run_step. run_step.
  replace (copy_sops _ _ _ _) with (Some ops) by (symmetry; exact sa_ops0). unfold semop_checked.
  rewrite (bind_ret _ _ x _ (s <| world := w1 |>)) by (by apply get_sem_run).
  rewrite sa_number0, sa_distinct0.
  rewrite (bind_ret _ _ false _ (s <| world := w1 |>)) by (by apply (nowait_run k _ _ x)).
  rewrite orb_false_l in Hrun. etransitivity; [|exact Hrun]. f_equal. symmetry.
  match goal with |- _ = ?s1 => exact (at_set_id s1 (Z.of_nat i) x Hx) end.
Qed.
End do_semop.


(** ** A process that exits *)
Definition rm_first (pt : Z) (ws : list waiting) : list waiting :=
  match list_find (fun w => who w = pt) ws with Some (k, _) => delete k ws | None => ws end.
Definition eintr (pt : Z) (ws : list waiting) : list packet :=
  match list_find (fun w => who w = pt) ws with
  | Some (_, w) => [mk_packet (who w) EINTR None] | None => [] end.

Definition rz (pt : Z) (y : semaphore) : semaphore :=
  match list_find (fun w => who w = pt) (zwaiters y) with
  | Some (k, _) => y <| zlist := Block (slid (block_of (zlist y)) (Z.of_nat k) (semzcnt y)) |>
                     <| semzcnt := semzcnt y - 1 |>
  | None => y end.
Definition rn (pt : Z) (y : semaphore) : semaphore :=
  match list_find (fun w => who w = pt) (nwaiters y) with
  | Some (k, _) => y <| nlist := Block (slid (block_of (nlist y)) (Z.of_nat k) (semncnt y)) |>
                     <| semncnt := semncnt y - 1 |>
  | None => y end.
Definition rmv (pt : Z) (y : semaphore) : semaphore * list packet :=
  (rn pt (rz pt y), eintr pt (zwaiters y) ++ eintr pt (nwaiters y)).

(** A list with an entry found in it is a block. *)
Lemma find_in_block (P : waiting -> Prop) `{forall w, Decision (P w)} l cnt n w :
  wf_list l cnt -> list_find P (waiters l cnt) = Some (n, w) ->
  exists b, l = Block b /\ 0 <= Z.of_nat n < cnt /\ cnt <= Z.of_nat (length b).
Proof.
  intros Hl (Hn & _ & _)%list_find_Some. pose proof (lookup_lt_Some _ _ _ Hn) as Hlt.
  pose proof (length_waiters _ _ Hl). destruct l as [|b|]; simpl in *; [lia| |done].
  exists b. split_and!; [done|lia..].
Qed.

Lemma waiters_slid b n cnt :
  0 <= Z.of_nat n < cnt -> cnt <= Z.of_nat (length b) ->
  waiters (Block (slid b (Z.of_nat n) cnt)) (cnt - 1) = delete n (waiters (Block b) cnt).
Proof. intros. simpl. rewrite take_slid by lia. by rewrite Nat2Z.id. Qed.

Lemma rz_spec k pt y : wf_s k y ->
  wf_s k (rz pt y) /\ zwaiters (rz pt y) = rm_first pt (zwaiters y) /\
  abs_s (rz pt y) = abs_s y /\ (zlist y = NULL -> zlist (rz pt y) = NULL).
Proof.
  intros Hwf. unfold rz, rm_first. destruct (list_find _ _) as [[n w]|] eqn:E; [|done].
  unfold zwaiters in *.
  destruct (find_in_block _ _ _ _ _ (ws_zlist _ _ Hwf) E) as (b & Hb & Hn & Hlen).
  rewrite Hb in *. cbn [block_of zlist semzcnt upd]. split_and!; [|by apply waiters_slid|done|done].
  destruct Hwf. constructor; simpl in *; try done; [rewrite length_slid; lia|lia].
Qed.
Lemma rn_spec k pt y : wf_s k y ->
  wf_s k (rn pt y) /\ abs_s (rn pt y) = (semval y, rm_first pt (nwaiters y)) /\
  zwaiters (rn pt y) = zwaiters y /\ zlist (rn pt y) = zlist y.
Proof.
  intros Hwf. unfold rn, rm_first, abs_s. destruct (list_find _ _) as [[n w]|] eqn:E; [|done].
  unfold nwaiters in *.
  destruct (find_in_block _ _ _ _ _ (ws_nlist _ _ Hwf) E) as (b & Hb & Hn & Hlen).
  rewrite Hb in *. cbn [block_of nlist semncnt semval upd].
  pose proof (waiters_slid b n (semncnt y) Hn Hlen) as Hs.
  split_and!; [|f_equal; exact Hs|done|done].
  destruct Hwf. constructor; simpl in *; try done; [rewrite length_slid; lia|lia|].
  unfold nwaiters in *. simpl in *. rewrite Hs. rewrite Hb in ws_pos0. by apply Forall_delete.
Qed.

Section remove.
Context `{IpcHeaders} {W : Type} `{IpcEnv W}.
Implicit Types (s : state W).

Section one.
Context (s : state W) (i : Z) (x : sem_struct) (Hx : aget (sem_list s) i = Some x).

(** The search of one of the two lists: [drop] takes entry [k] away. *)
Lemma search_run l o lst cnt pt (drop : Z -> M (state W) unit) l' :
  wf_list lst cnt ->
  (forall n w, list_find (fun w => who w = pt) (waiters lst cnt) = Some (n, w) ->
     drop (Z.of_nat n) (at_set s i l o) = Ret tt (at_set s i l' o)) ->
  (list_find (fun w => who w = pt) (waiters lst cnt) = None -> l' = l) ->
  exists r, for_ (seqZ 0 cnt) (fun k =>
      e ← entry lst k;
      if who e =? pt then drop k;; send_message_to_process (who e) EINTR;; mret (Some tt)
      else mret None) (at_set s i l o) =
    Ret r (at_set s i l' (o ++ eintr pt (waiters lst cnt))).
Proof.
  intros Hl Hdrop Hno. destruct lst as [|b|]; [| |done].
  { simpl in Hl. subst cnt. rewrite (Hno eq_refl). exists None. unfold eintr. simpl. by rewrite app_nil_r. }
  set (body := fun (k : Z) (e : waiting) =>
    if who e =? pt then drop k;; send_message_to_process (who e) EINTR;; mret (Some tt)
    else mret None : M (state W) (option unit)).
  assert (forall n w, list_find (fun w => who w = pt) (take (Z.to_nat cnt) b) = Some (n, w) ->
    body (Z.of_nat n) w (at_set s i l o) =
      Ret (Some tt) (at_set s i l' (o ++ [mk_packet (who w) EINTR None]))) as Hbody.
  { intros n w E. unfold body. pose proof E as (_ & Hw & _)%list_find_Some.
    rewrite (proj2 (Z.eqb_eq _ _) Hw), (bind_ret _ _ _ _ _ (Hdrop _ _ E)).
    unfold send_message_to_process. by rewrite (bind_ret _ _ _ _ _ (send_at _ _ _ _ _)). }
  pose proof (for_entries_first (at_set s i l o) b cnt body (fun w => who w = pt) Hl) as Hf.
  unfold eintr. cbn [waiters] in *. destruct (list_find _ _) as [[n w]|] eqn:E.
  - exists (Some tt). rewrite <-(Hbody _ _ eq_refl). apply Hf; [|eauto].
    intros m w' Hw'. unfold body. by destruct (Z.eqb_spec (who w') pt).
  - exists None. rewrite (Hno eq_refl), app_nil_r. apply Hf; [|done].
    intros m w' Hw'. unfold body. by destruct (Z.eqb_spec (who w') pt).
Qed.

Lemma remove_waiter_at l o j y k pt :
  aget l j = Some y -> wf_s k y -> k < 2 ^ 16 ->
  remove_waiter i j pt (at_set s i l o) =
    Ret tt (at_set s i (aupd j (fun _ => (rmv pt y).1) l) (o ++ (rmv pt y).2)).
Proof.
  intros Hy Hwf Hk. unfold remove_waiter.
  rewrite (bind_ret _ _ _ _ _ (get_s_at s i x Hx _ _ _ _ Hy)).
  pose proof (ws_zcnt _ _ Hwf). pose proof (ws_ncnt _ _ Hwf).
  destruct (rz_spec k pt y Hwf) as (Hwz & _ & Haz & _).
  assert (nwaiters (rz pt y) = nwaiters y) as Hnw by (by apply (f_equal snd) in Haz).
  destruct (search_run l o (zlist y) (semzcnt y) pt (drop_z i j)
    (aupd j (fun _ => rz pt y) l) (ws_zlist _ _ Hwf)) as [r Hr].
  { intros n w E. destruct (find_in_block _ _ _ _ _ (ws_zlist _ _ Hwf) E) as (b & Hb & Hn & Hlen).
    unfold rz. fold (zwaiters y) in E. rewrite E, Hb. cbn [block_of].
    apply (drop_z_at s i x Hx _ _ _ y b); try done; lia. }
  { intros E. unfold rz. fold (zwaiters y) in E. rewrite E. apply aupd_id. congruence. }
  rewrite (bind_ret _ _ _ _ _ Hr).
  assert (aget (aupd j (fun _ => rz pt y) l) j = Some (rz pt y)) as Hy1 by
    (by rewrite aget_aupd_eq, Hy).
  rewrite (bind_ret _ _ _ _ _ (get_s_at s i x Hx _ _ _ _ Hy1)).
  pose proof (ws_ncnt _ _ Hwz).
  destruct (search_run (aupd j (fun _ => rz pt y) l) (o ++ eintr pt (zwaiters y))
    (nlist (rz pt y)) (semncnt (rz pt y)) pt (drop_n i j)
    (aupd j (fun _ => rn pt (rz pt y)) l) (ws_nlist _ _ Hwz)) as [r' Hr'].
  { intros n w E. destruct (find_in_block _ _ _ _ _ (ws_nlist _ _ Hwz) E) as (b & Hb & Hn & Hlen).
    fold (nwaiters (rz pt y)) in E. unfold rn at 1. rewrite E, Hb. cbn [block_of].
    rewrite (drop_n_at s i x Hx _ _ _ (rz pt y) b); try done; [|lia].
    by rewrite aupd_aupd. }
  { intros E. fold (nwaiters (rz pt y)) in E. unfold rn. by rewrite E. }
  rewrite (bind_ret _ _ _ _ _ Hr'), mret_run. unfold rmv. cbn [fst snd].
  fold (nwaiters (rz pt y)). by rewrite Hnw, <-app_assoc.
Qed.
End one.
End remove.

Section removed.
Context `{IpcHeaders} {W : Type} `{IpcEnv W}.
Implicit Types (s : state W).

Lemma all_wf k s : wf_sems k s -> Forall (fun x => Forall (wf_s k) (live_sems x)) (live_sets s).
Proof. intros Hwf. eapply list.Forall_impl; [apply (wt_sets _ _ Hwf)|]. intros x Hx. apply Hx. Qed.

Lemma rmv_wf k pt y : wf_s k y -> wf_s k (rmv pt y).1.
Proof. intros Hwf. apply (rn_spec k). by apply (rz_spec k). Qed.

Lemma remove_process_run k s pt :
  wf_sems k s -> k < 2 ^ 16 -> remove_process pt s = Ret tt (map_sets (rmv pt) s).
Proof.
  intros Hwf Hk. unfold remove_process. rewrite (bind_ret _ _ (sem_list_nr s) s s) by done.
  apply (foreach_sets_run (rmv pt) (fun i j => remove_waiter i j pt) (wf_s k)) with (k := k).
  - intros s' i x Hx l o j y Hy Hwy. by eapply remove_waiter_at.
  - intros s' i x Hx. by rewrite (bind_ret _ _ _ _ _ (get_sem_run _ _ _ Hx)).
  - done.
  - by apply all_wf.
Qed.

Lemma removed_wf k pt s : wf_sems k s -> wf_sems k (map_sets (rmv pt) s).
Proof.
  intros Hwf. apply (map_sets_wf _ (wf_s k)); [|done|by apply all_wf]. apply rmv_wf.
Qed.
Lemma removed_no_zlist k pt s : wf_sems k s ->
  Forall no_zlist (live_sets s) -> Forall no_zlist (live_sets (map_sets (rmv pt) s)).
Proof.
  intros Hwf Hz. apply (map_sets_live _ (fun y => wf_s k y /\ zlist y = NULL)).
  - intros y [Hy Hzy]. destruct (rz_spec k pt y Hy) as (Hr & _ & _ & Hn).
    destruct (rn_spec k pt _ Hr) as (_ & _ & _ & Hz2). simpl. by rewrite Hz2, Hn.
  - eapply Forall_impl2; [apply (all_wf _ _ Hwf)|exact Hz|]. intros x Hx Hzx.
    by eapply Forall_impl2; [exact Hx|exact Hzx|].
Qed.
End removed.

(** When a process exits, [remove_process] takes it off the waiting lists of every
    semaphore and sends it EINTR for each; values do not change, and the other processes
    keep their places.  (A process that is on a list twice loses its first place only.) *)
Theorem remove_process_spec `{IpcHeaders} {W : Type} `{IpcEnv W} (k pt : Z) (s : state W) :
  wf_sems k s -> k < 2 ^ 16 ->
  exists s', remove_process pt s = Ret tt s' /\ wf_sems k s' /\
    forall i j x y, aget (sem_list s) i = Some x -> i < sem_list_nr s ->
      aget (sems x) j = Some y -> j < sem_nsems (sem_ds x) ->
      exists x' y' o, aget (sem_list s') i = Some x' /\ aget (sems x') j = Some y' /\
        semval y' = semval y /\
        zwaiters y' = rm_first pt (zwaiters y) /\ nwaiters y' = rm_first pt (nwaiters y) /\
        (base.NoDup (who <$> nwaiters y) -> pt ∉ who <$> nwaiters y') /\
        sent s' = sent s ++ o /\ sublist (eintr pt (zwaiters y) ++ eintr pt (nwaiters y)) o.
Proof.
  intros Hwf Hk. exists (map_sets (rmv pt) s).
  split_and!; [by apply (remove_process_run k)|by apply removed_wf|].
  intros i j x y Hx Hi Hy Hj.
  destruct (map_sets_at (rmv pt) s i j x y Hx Hi Hy Hj) as (x' & Hx' & _ & Hy' & o & Ho & Hsub).
  destruct (live_at s k i j x y Hwf Hx Hi Hy Hj) as [_ Hwy].
  destruct (rz_spec k pt y Hwy) as (Hwz & Hzz & Haz & _).
  destruct (rn_spec k pt (rz pt y) Hwz) as (_ & Han & Hzn & _).
  injection Haz as Hvz Hnz. injection Han as Hvn Hnn.
  assert (nwaiters (rmv pt y).1 = rm_first pt (nwaiters y)) as Hn by (simpl; by rewrite Hnn, Hnz).
  exists x', (rmv pt y).1, o. split_and!; [done|done|simpl; congruence|simpl; congruence|done| |done|done].
  intros Hnd. rewrite Hn. unfold rm_first. destruct (list_find _ _) as [[n w]|] eqn:E.
  - apply list_find_Some in E as (Hw & <- & _).
    rewrite (delete_Permutation _ _ _ Hw), fmap_cons in Hnd.
    by apply list.NoDup_cons in Hnd as [? _].
  - apply list_find_None in E. intros (w & -> & Hin)%list_elem_of_fmap.
    by apply (Forall_elem _ _ _ E Hin).
Qed.

(** ** Examples *)
Module Demo.
Import IpcBase.Demo.
#[local] Existing Instances ipc_headers ipc_header_laws ipc_env ipc_env_laws.

(** The final state of a computation. *)
Definition run {A} (m : M (state W) A) (s : state W) : state W :=
  match m s with Ret _ s' => s' | Halt _ s' => s' end.
Definition as_ (e : Z) (s : state W) : state W := s <| who_e := e |>.

(** User memory: adding 3 units, taking 2, waiting for zero. *)
Definition w0 : W := mk_W 0 [] [mk_sembuf 0 3 0; mk_sembuf 0 (-2) 0; mk_sembuf 0 0 0] ∅.
Definition empty : state W := mk_state (replicate 4 zero_sem_struct) 0 [] 0 0x1234 0 1 None [] w0.
(** A set of two semaphores that everybody may use. *)
Definition created : state W :=
  Eval vm_compute in run (do_semget 7 2 (512 + oct 6 6 6)) (as_ 5 empty).
(** Processes 6 and 7 wait for two units each. *)
Definition waiting_two : state W :=
  Eval vm_compute in run (do_semop 0x1234 1 1) (as_ 7 (run (do_semop 0x1234 1 1) (as_ 6 created))).
(** The value is then set to 4. *)
Definition four : state W :=
  Eval vm_compute in run (set_s 0 0 (fun y => y <| semval := 4 |>)) waiting_two.
(** Process 6 waits for zero, and then the value becomes zero. *)
Definition zero_waiter : state W :=
  Eval vm_compute in
    run (set_s 0 0 (fun y => y <| semval := 0 |>))
      (run (do_semop 0x1234 2 1) (as_ 6
        (run (set_s 0 0 (fun y => y <| semval := 1 |>)) created))).

Definition set_at (s : state W) (i : Z) : sem_struct := default zero_sem_struct (aget (sem_list s) i).
Definition sem_at (s : state W) (i j : Z) : semaphore :=
  default zero_semaphore (aget (sems (set_at s i)) j).

Ltac solve_wf :=
  repeat first [lia | done | match goal with |- _ <> _ => intro end | constructor; cbn].
Lemma created_wf : wf_sems 0 created.
Proof. constructor; cbn; [lia|]. solve_wf. Qed.
Lemma four_wf : wf_sems 2 four.
Proof. constructor; cbn; [lia|]. solve_wf. Qed.
Lemma zero_waiter_wf : wf_sems 1 zero_waiter.
Proof. constructor; cbn; [lia|]. solve_wf. Qed.
Lemma two_wf : wf_sems 2 waiting_two.
Proof. constructor; cbn; [lia|]. solve_wf. Qed.

Lemma zero_wait_crashes_witness :
  zwaiters (sem_at zero_waiter 0 0) = [mk_waiting 6 0] /\
  exists s', update_semaphores zero_waiter = Ret tt s' /\ In (mk_packet 6 OK None) (sent s') /\
    exists s'', update_semaphores s' = Halt Undef s''.
Proof.
  split; [reflexivity|].
  apply (zero_wait_crashes 1 zero_waiter 0 0 (set_at zero_waiter 0) (sem_at zero_waiter 0 0)
    (mk_waiting 6 0) []); try reflexivity; try lia.
  - exact zero_waiter_wf.
  - repeat constructor; intros (Hz & Hc & Hv); cbn in *; congruence.
Defined.



Lemma remove_process_spec_witness :
  nwaiters (sem_at waiting_two 0 0) = [mk_waiting 6 2; mk_waiting 7 2] /\
  exists s', remove_process 6 waiting_two = Ret tt s' /\ wf_sems 2 s' /\
    forall i j x y, aget (sem_list waiting_two) i = Some x -> i < 1 ->
      aget (sems x) j = Some y -> j < sem_nsems (sem_ds x) ->
      exists x' y' o, aget (sem_list s') i = Some x' /\ aget (sems x') j = Some y' /\
        semval y' = semval y /\
        zwaiters y' = rm_first 6 (zwaiters y) /\ nwaiters y' = rm_first 6 (nwaiters y) /\
        (base.NoDup (who <$> nwaiters y) -> 6 ∉ who <$> nwaiters y') /\
        sent s' = sent waiting_two ++ o /\
        sublist (eintr 6 (zwaiters y) ++ eintr 6 (nwaiters y)) o.
Proof.
  split; [reflexivity|]. apply (remove_process_spec 2 6 waiting_two); [exact two_wf|lia].
Defined.
End Demo.
