(* ===== verification/Shm.v ===== *)
(** System V shared memory, [src/Project_2/servers/ipc/shm.c]: the table of segments,
    [shmget], [shmat], [shmdt] and [shmctl], and the lazy destruction of the segments
    that are marked and no longer attached. *)
From S2P Require Import Prelude Minix IpcBase.
Local Open Scope Z_scope.

Definition MAX_SHM_NR : Z := 1024.
Definition zero_shm_struct : shm_struct :=
  mk_shm_struct 0 0 (mk_shmid_ds (mk_perm 0 0 0 0 0) 0 0 0 0 0 0 0) 0 0.

Section operations.
Context `{IpcHeaders} {W : Type} `{IpcEnv W}.
Abbreviation cmd := (M (state W)).

Definition get_shm (i : Z) : cmd shm_struct := s ← get; deref (aget (shm_list s) i).
Definition set_shm (i : Z) (f : shm_struct -> shm_struct) : cmd unit :=
  get_shm i;; modify (fun s => s <| shm_list := aupd i f (shm_list s) |>).

Definition find_shm (p : shm_struct -> bool) : cmd (option Z) :=
  n ← gets shm_list_nr;
  for_ (seqZ 0 n) (fun i => x ← get_shm i; mret (if p x then Some i else None)).
Definition shm_find_key (key : Z) : cmd (option Z) :=
  if key =? IPC_PRIVATE then mret None else find_shm (fun x => shm_key x =? key).
Definition shm_find_id (id : Z) : cmd (option Z) := find_shm (fun x => shm_id x =? id).

(** [size] rounded up to a multiple of the page size; the sum may overflow an [int]. *)
Definition page_up (size : Z) : cmd Z :=
  let r := Z.rem size I386_PAGE_SIZE in
  if r =? 0 then mret size else
  let size' := size + (I386_PAGE_SIZE - r) in
  if 2 ^ 31 <=? size' then halt Undef else mret size'.

Definition do_shmget (key size flg : Z) : cmd rc :=
  x ← shm_find_key key;
  match x with
  | Some i =>
      shm ← get_shm i;
      ok ← may (shm_perm (shm_ds shm)) flg;
      if negb ok then mret EACCES else
      if flag flg IPC_CREAT && flag flg IPC_EXCL then mret EEXIST else
      if negb (size =? 0) && (shm_segsz (shm_ds shm) <? size) then mret EINVAL else
      set_ret (shm_id shm);; mret OK
  | None =>
      if negb (flag flg IPC_CREAT) then mret ENOENT else
      if size <=? 0 then mret EINVAL else
      size' ← page_up size;
      if size' <=? 0 then mret EINVAL else
      n ← gets shm_list_nr;
      if n =? MAX_SHM_NR then mret ENOMEM else
      idn ← gets identifier;
      if idn =? SHMMNI then mret ENOSPC else
      set_shm n (fun _ => zero_shm_struct);;
      p ← env (mmap size');
      match p with
      | None => mret ENOMEM
      | Some pg =>
          self ← gets SELF_E;
          ph ← ask (vm_getphys self pg);
          tell (memset_page pg size');;
          e ← caller;
          u ← ask (getnuid e);
          g ← ask (getngid e);
          now ← env time;
          pid ← ask (getnpid e);
          id ← next_identifier;
          set_shm n (fun _ =>
            mk_shm_struct key id
              (mk_shmid_ds (mk_perm u g u g (Z.land flg (oct 7 7 7))) size 0 0 now pid 0 0)
              pg ph);;
          modify (fun s => s <| shm_list_nr := n + 1 |>);;
          set_ret id;; mret OK
      end
  end.

Definition set_shmds (i : Z) (f : shmid_ds -> shmid_ds) : cmd unit :=
  set_shm i (fun x => x <| shm_ds := f (shm_ds x) |>).

Definition do_shmat (id addr flg : Z) : cmd rc :=
  let r := addr mod I386_PAGE_SIZE in
  if negb (addr =? 0) && negb (r =? 0) && negb (flag flg SHM_RND) then mret EINVAL else
  let addr := if negb (addr =? 0) && negb (r =? 0) then addr - r else addr in
  f ← shm_find_id id;
  match f with
  | None => mret EINVAL
  | Some i =>
      shm ← get_shm i;
      ok ← may (shm_perm (shm_ds shm))
             (if flag flg SHM_RDONLY then oct 4 4 4 else oct 6 6 6);
      if negb ok then mret EACCES else
      e ← caller;
      self ← gets SELF_E;
      a ← env (vm_remap e self addr (page shm) (shm_segsz (shm_ds shm)));
      match a with
      | None => mret ENOMEM
      | Some a =>
          now ← env time;
          set_shmds i (fun d => d <| shm_atime := now |>);;
          pid ← ask (getnpid e);
          set_shmds i (fun d => d <| shm_lpid := pid |>);;
          set_ret a;; mret OK
      end
  end.

Definition update_refcount_and_destroy : cmd unit :=
  n ← gets shm_list_nr;
  j ← fold_ (seqZ 0 n) 0 (fun j i =>
    x ← get_shm i;
    self ← gets SELF_E;
    rc ← ask (fun w => u8 (vm_getrefcount self (page x) w));
    if rc =? 255 then mret j else
    set_shmds i (fun d => d <| shm_nattch := rc - 1 |>);;
    x ← get_shm i;
    if negb (shm_nattch (shm_ds x) =? 0) || negb (flag (mode (shm_perm (shm_ds x))) SHM_DEST) then
      (if negb (i =? j) then set_shm j (fun _ => x) else mret tt);;
      mret (j + 1)
    else
      size ← page_up (shm_segsz (shm_ds x));
      tell (munmap (page x) size);;
      mret j);
  modify (fun s => s <| shm_list_nr := j |>).

Definition do_shmdt (addr : Z) : cmd rc :=
  e ← caller;
  paddr ← ask (vm_getphys e addr);
  if paddr =? 0 then mret EINVAL else
  n ← gets shm_list_nr;
  for_ (seqZ 0 n) (fun i =>
    x ← get_shm i;
    if phys x =? paddr then
      now ← env time;
      set_shmds i (fun d => d <| shm_atime := now |>);;
      pid ← ask (getnpid e);
      set_shmds i (fun d => d <| shm_lpid := pid |>);;
      tell (vm_unmap e addr);;
      mret (Some tt)
    else mret None);;
  update_refcount_and_destroy;;
  mret OK.

(** [shmctl] *)
Definition is_shm_owner (p : ipc_perm) : cmd bool :=
  e ← caller; u ← ask (getnuid e);
  mret ((u =? cuid p) || (u =? uid p) || (u =? 0)).

(** [sys_datacopy] to the caller, with the result the code gives. *)
Definition give (buf : Z) (d : datum) : cmd rc :=
  e ← caller; ok ← env (copy_out e buf d); mret (if ok : bool then OK else EFAULT).

Definition shmctl_stat (i buf : Z) : cmd rc :=
  if buf =? 0 then mret EFAULT else
  shm ← get_shm i;
  ok ← may (shm_perm (shm_ds shm)) (oct 4 4 4);
  if negb ok then mret EACCES else give buf (D_shmid (shm_ds shm)).

Definition shmctl_set (i buf : Z) : cmd rc :=
  shm ← get_shm i;
  ok ← is_shm_owner (shm_perm (shm_ds shm));
  if negb ok then mret EPERM else
  e ← caller;
  d ← ask (copy_shmid e buf);
  match d with
  | None => mret EFAULT
  | Some tmp =>
      set_shmds i (fun d => d <| shm_perm := (shm_perm d)
        <| uid := uid (shm_perm tmp) |> <| gid := gid (shm_perm tmp) |>
        <| mode := Z.lor (Z.ldiff (mode (shm_perm d)) (oct 7 7 7))
                     (Z.land (mode (shm_perm tmp)) (oct 6 6 6)) |> |>);;
      now ← env time;
      set_shmds i (fun d => d <| shm_ctime := now |>);;
      mret OK
  end.

Definition shmctl_rmid (i : Z) : cmd rc :=
  shm ← get_shm i;
  ok ← is_shm_owner (shm_perm (shm_ds shm));
  if negb ok then mret EPERM else
  set_shmds i (fun d => d <| shm_perm := (shm_perm d)
    <| mode := Z.lor (mode (shm_perm d)) SHM_DEST |> |>);;
  update_refcount_and_destroy;; mret OK.

Definition ulong_max : Z := 2 ^ 32 - 1.
(** The highest index in use is returned, 0 when there is none. *)
Definition highest_index : cmd unit := n ← gets shm_list_nr; set_ret (Z.max (n - 1) 0).

Definition shmctl_info (buf : Z) : cmd rc :=
  if buf =? 0 then mret EFAULT else
  r ← give buf (D_shminfo ulong_max 1 MAX_SHM_NR ulong_max ulong_max);
  if negb (is_ok r) then mret r else highest_index;; mret OK.

Definition shmctl_shm_info (buf : Z) : cmd rc :=
  if buf =? 0 then mret EFAULT else
  n ← gets shm_list_nr;
  tot ← fold_ (seqZ 0 n) 0 (fun tot i =>
    x ← get_shm i; mret (u32 (tot + shm_segsz (shm_ds x) ÷ I386_PAGE_SIZE)));
  r ← give buf (D_shm_info n tot tot 0 0 0);
  if negb (is_ok r) then mret r else highest_index;; mret OK.

Definition shmctl_shm_stat (id buf : Z) : cmd rc :=
  n ← gets shm_list_nr;
  if (id <? 0) || (n <=? id) then mret EINVAL else
  shm ← get_shm id;
  r ← give buf (D_shmid (shm_ds shm));
  if negb (is_ok r) then mret r else set_ret (shm_id shm);; mret OK.

Definition do_shmctl (id cmd buf : Z) : M (state W) rc :=
  (if cmd =? IPC_STAT then update_refcount_and_destroy else mret tt);;
  f ← (if (cmd =? IPC_STAT) || (cmd =? IPC_SET) || (cmd =? IPC_RMID)
       then shm_find_id id else mret (Some 0));
  match f with
  | None => mret EINVAL
  | Some i =>
      if cmd =? IPC_STAT then shmctl_stat i buf else
      if cmd =? IPC_SET then shmctl_set i buf else
      if cmd =? IPC_RMID then shmctl_rmid i else
      if cmd =? IPC_INFO then shmctl_info buf else
      if cmd =? SHM_INFO then shmctl_shm_info buf else
      if cmd =? SHM_STAT then shmctl_shm_stat id buf else
      mret EINVAL
  end.

Definition is_shm_nil : cmd bool := n ← gets shm_list_nr; mret (n =? 0).
End operations.

(** ** The live part of the table *)
Definition live_shm {W} (s : state W) : list shm_struct :=
  take (Z.to_nat (shm_list_nr s)) (shm_list s).
(** The size of a segment can be rounded up to pages. *)
Definition wf_seg `{IpcHeaders} (x : shm_struct) : Prop :=
  0 < shm_segsz (shm_ds x) /\ shm_segsz (shm_ds x) + I386_PAGE_SIZE <= 2 ^ 31.
Record wf_shm `{IpcHeaders} {W} (s : state W) : Prop := {
  wh_length : Z.of_nat (length (shm_list s)) = MAX_SHM_NR;
  wh_nr : 0 <= shm_list_nr s <= MAX_SHM_NR;
  wh_live : Forall wf_seg (live_shm s);
}.

Section purge.
Context `{IpcHeaders} `{!IpcHeaderLaws} {W : Type} `{IpcEnv W}.
Implicit Types (s : state W) (w : W).

Definition refs (self : Z) (x : shm_struct) (w : W) : Z := u8 (vm_getrefcount self (page x) w).
Definition set_nattch (n : Z) (x : shm_struct) : shm_struct :=
  x <| shm_ds := shm_ds x <| shm_nattch := n |> |>.
Definition marked (x : shm_struct) : bool := flag (mode (shm_perm (shm_ds x))) SHM_DEST.
Definition rounded (size : Z) : Z :=
  if Z.rem size I386_PAGE_SIZE =? 0 then size
  else size + (I386_PAGE_SIZE - Z.rem size I386_PAGE_SIZE).

(** The table after the segments that nobody uses any more are gone. *)
Fixpoint purge (self : Z) (l : list shm_struct) (w : W) : list shm_struct * W :=
  match l with
  | [] => ([], w)
  | x :: l =>
      let rc := refs self x w in
      if rc =? 255 then purge self l w
      else if negb (rc =? 1) || negb (marked x)
      then let '(l', w') := purge self l w in (set_nattch (rc - 1) x :: l', w')
      else purge self l (munmap (page x) (rounded (shm_segsz (shm_ds x))) w)
  end.

Lemma page_up_run size s :
  0 < size -> size + I386_PAGE_SIZE <= 2 ^ 31 -> page_up size s = Ret (rounded size) s.
Proof.
  intros Hs Hb. unfold page_up, rounded. assert (0 < I386_PAGE_SIZE) as Hp by apply PAGE_SIZE_pos.
  assert (0 <= Z.rem size I386_PAGE_SIZE < I386_PAGE_SIZE) by (apply Z.rem_bound_pos; lia).
  destruct (_ =? 0) eqn:E; [done|]. destruct (2 ^ 31 <=? _) eqn:E2; [lia|done].
Qed.

Lemma get_shm_run s i x : aget (shm_list s) i = Some x -> get_shm i s = Ret x s.
Proof. intros Hx. unfold get_shm. run_step. by rewrite Hx. Qed.
Lemma set_shm_run s i x f :
  aget (shm_list s) i = Some x ->
  set_shm i f s = Ret tt (s <| shm_list := aupd i f (shm_list s) |>).
Proof. intros Hx. unfold set_shm. by rewrite (bind_ret _ _ _ _ _ (get_shm_run _ _ _ Hx)). Qed.

(** The state with table [l] and world [w]. *)
Definition at_shm s (l : list shm_struct) (w : W) : state W :=
  s <| shm_list := l |> <| world := w |>.

(** The body of the loop. *)
Definition purge_body (j i : Z) : M (state W) Z :=
  x ← get_shm i;
  self ← gets SELF_E;
  rc ← ask (fun w => u8 (vm_getrefcount self (page x) w));
  if rc =? 255 then mret j else
  set_shmds i (fun d => d <| shm_nattch := rc - 1 |>);;
  x ← get_shm i;
  if negb (shm_nattch (shm_ds x) =? 0) || negb (flag (mode (shm_perm (shm_ds x))) SHM_DEST) then
    (if negb (i =? j) then set_shm j (fun _ => x) else mret tt);;
    mret (j + 1)
  else
    size ← page_up (shm_segsz (shm_ds x));
    tell (munmap (page x) size);;
    mret j.

(** One turn: [kept] is the new table, [junk] what lies between it and the rest. *)
Lemma purge_body_run s kept junk x rest w :
  wf_seg x ->
  let l := kept ++ junk ++ x :: rest in
  let i := Z.of_nat (length kept + length junk) in
  exists kept' junk' x' w',
    purge_body (Z.of_nat (length kept)) i (at_shm s l w) =
      Ret (Z.of_nat (length kept')) (at_shm s (kept' ++ junk' ++ rest) w') /\
    (length kept' + length junk' = length kept + length junk + 1)%nat /\
    x' = set_nattch (refs (SELF_E s) x w - 1) x /\
    if refs (SELF_E s) x w =? 255 then kept' = kept /\ w' = w
    else if negb (refs (SELF_E s) x w =? 1) || negb (marked x) then kept' = kept ++ [x'] /\ w' = w
    else kept' = kept /\ w' = munmap (page x) (rounded (shm_segsz (shm_ds x))) w.
Proof.
  intros [Hpos Hsz] l i. set (rc := refs (SELF_E s) x w).
  assert (aget l i = Some x) as Hx.
  { unfold l, i. rewrite app_assoc, <-length_app. apply aget_app. }
  assert (forall f, aupd i f l = kept ++ junk ++ f x :: rest) as Hupd.
  { intros f. unfold l, i. by rewrite app_assoc, <-length_app, aupd_app, <-app_assoc. }
  unfold purge_body. rewrite (bind_ret _ _ _ _ _ (get_shm_run (at_shm s l w) _ _ Hx)).
  run_step. run_step. change (u8 _) with rc. destruct (rc =? 255) eqn:E1.
  { exists kept, (junk ++ [x]), (set_nattch (rc - 1) x), w. rewrite length_app. simpl.
    split_and!; [|lia|done..]. rewrite mret_run. unfold l. by rewrite <-app_assoc. }
  set (x' := set_nattch (rc - 1) x).
  rewrite (bind_ret _ _ tt _ (at_shm s (kept ++ junk ++ x' :: rest) w)).
  2:{ unfold set_shmds. rewrite (set_shm_run _ _ x) by done.
      unfold at_shm, upd. cbn. by rewrite Hupd. }
  assert (aget (kept ++ junk ++ x' :: rest) i = Some x') as Hx'.
  { unfold i. rewrite app_assoc, <-length_app. apply aget_app. }
  rewrite (bind_ret _ _ x' _ (at_shm s (kept ++ junk ++ x' :: rest) w)) by (by apply get_shm_run).
  change (shm_nattch (shm_ds x')) with (rc - 1).
  change (flag (mode (shm_perm (shm_ds x'))) SHM_DEST) with (marked x).
  replace (rc - 1 =? 0) with (rc =? 1) by lia.
  destruct (negb (rc =? 1) || negb (marked x)) eqn:E2.
  - destruct junk as [|y junk].
    + exists (kept ++ [x']), [], x', w. rewrite length_app. simpl. split_and!; [|lia|done..].
      rewrite (proj2 (Z.eqb_eq i (Z.of_nat (length kept)))) by (unfold i; cbn [length]; lia). cbn [negb].
      run_step. rewrite mret_run, <-app_assoc. f_equal. lia.
    + exists (kept ++ [x']), (junk ++ [x']), x', w. rewrite !length_app. simpl.
      split_and!; [|lia|done..].
      rewrite (proj2 (Z.eqb_neq i (Z.of_nat (length kept)))) by (unfold i; cbn [length]; lia). cbn [negb].
      rewrite (bind_ret _ _ tt _ (at_shm s ((kept ++ [x']) ++ (junk ++ [x']) ++ rest) w)).
      * rewrite mret_run. f_equal. lia.
      * rewrite (set_shm_run _ _ y) by apply aget_app. unfold at_shm, upd. cbn.
        rewrite (aupd_app (fun _ => x') kept y). by rewrite <-!app_assoc.
  - exists kept, (junk ++ [x']), x', (munmap (page x) (rounded (shm_segsz (shm_ds x))) w).
    rewrite length_app. simpl. split_and!; [|lia|done..].
    rewrite (bind_ret _ _ _ _ _ (page_up_run _ _ Hpos Hsz)).
    run_step. rewrite mret_run. by rewrite <-app_assoc.
Qed.
Lemma purge_wf self l w : Forall wf_seg l -> Forall wf_seg (purge self l w).1.
Proof.
  revert w. induction l as [|x l IH]; intros w Hl; [done|].
  apply list.Forall_cons in Hl as [Hx Hl]. simpl. destruct (_ =? 255); [by apply IH|].
  destruct (_ || _); [|by apply IH]. specialize (IH w Hl). destruct (purge self l w) as [l' w'].
  constructor; [exact Hx|exact IH].
Qed.

Lemma purge_fold rest : forall s kept junk tail w, Forall wf_seg rest ->
  let p := purge (SELF_E s) rest w in
  exists junk',
    fold_ (seqZ (Z.of_nat (length kept + length junk)) (Z.of_nat (length rest)))
        (Z.of_nat (length kept)) purge_body (at_shm s (kept ++ junk ++ rest ++ tail) w) =
      Ret (Z.of_nat (length (kept ++ p.1))) (at_shm s ((kept ++ p.1) ++ junk' ++ tail) p.2) /\
    (length (kept ++ p.1) + length junk' = length kept + length junk + length rest)%nat.
Proof.
  induction rest as [|x rest IH]; intros s kept junk tail w Hwf p.
  { exists junk. unfold p. simpl. rewrite app_nil_r. split; [done|lia]. }
  apply list.Forall_cons in Hwf as [Hx Hwf]. cbn [length]. rewrite seqZ_cons by lia. cbn [fold_].
  destruct (purge_body_run s kept junk x (rest ++ tail) w Hx)
    as (kept' & junk' & x' & w' & Hrun & Hlen & Hx' & Hcase).
  rewrite <-app_comm_cons, (bind_ret _ _ _ _ _ Hrun).
  destruct (IH s kept' junk' tail w' Hwf) as (junk2 & Hfold & Hlen2).
  exists junk2. replace (Z.succ _) with (Z.of_nat (length kept' + length junk')) by lia.
  replace (Z.pred _) with (Z.of_nat (length rest)) by lia. rewrite Hfold.
  assert (kept' ++ (purge (SELF_E s) rest w').1 = kept ++ p.1 /\ (purge (SELF_E s) rest w').2 = p.2)
    as [Hk Hw2].
  { unfold p. simpl. destruct (_ =? 255); [by destruct Hcase as [-> ->]|].
    destruct (negb _ || negb _); destruct Hcase as [-> ->]; [|done].
    destruct (purge _ rest w) as [l' w2]. simpl. by rewrite Hx', <-app_assoc. }
  rewrite Hk, Hw2 in *. split; [done|lia].
Qed.

(** What [update_refcount_and_destroy] does to the state. *)
Lemma update_refcount_run s :
  wf_shm s ->
  let p := purge (SELF_E s) (live_shm s) (world s) in
  exists l', update_refcount_and_destroy s =
      Ret tt (at_shm s l' p.2 <| shm_list_nr := Z.of_nat (length p.1) |>) /\
    length l' = length (shm_list s) /\ take (length p.1) l' = p.1 /\
    (length p.1 <= length (live_shm s))%nat.
Proof.
  intros Hwf p. pose proof (wh_nr _ Hwf) as Hn. pose proof (wh_length _ Hwf) as Hl.
  assert (Z.of_nat (length (live_shm s)) = shm_list_nr s) as Hlen.
  { unfold live_shm. rewrite length_take. lia. }
  destruct (purge_fold (live_shm s) s [] [] (drop (Z.to_nat (shm_list_nr s)) (shm_list s)) (world s)
    (wh_live _ Hwf)) as (junk & Hfold & Hlen2). fold p in Hfold, Hlen2. simpl in Hlen2.
  exists (p.1 ++ junk ++ drop (Z.to_nat (shm_list_nr s)) (shm_list s)). split_and!.
  - unfold update_refcount_and_destroy. rewrite (bind_ret _ _ (shm_list_nr s) s s) by done.
    rewrite Hlen in Hfold. erewrite bind_ret; [|etransitivity; [|exact Hfold]]; [done|].
    f_equal. unfold at_shm, live_shm. simpl. rewrite take_drop. by destruct s.
  - rewrite !length_app, length_drop. lia.
  - apply take_app_length.
  - lia.
Qed.

Lemma update_refcount_wf s :
  wf_shm s -> exists s', update_refcount_and_destroy s = Ret tt s' /\ wf_shm s' /\
    s' = s <| shm_list := shm_list s' |> <| shm_list_nr := shm_list_nr s' |> <| world := world s' |> /\
    live_shm s' = (purge (SELF_E s) (live_shm s) (world s)).1.
Proof.
  intros Hwf. destruct (update_refcount_run s Hwf) as (l' & Hrun & Hlen & Htake & Hle).
  match type of Hrun with _ = Ret tt ?s' => set (s1 := s') in * end. exists s1.
  pose proof (wh_nr _ Hwf). pose proof (wh_length _ Hwf).
  assert (length (live_shm s) <= Z.to_nat (shm_list_nr s))%nat by
    (unfold live_shm; rewrite length_take; lia).
  assert (live_shm s1 = (purge (SELF_E s) (live_shm s) (world s)).1) as Hl by
    (unfold live_shm at 1; simpl; by rewrite Nat2Z.id).
  split_and!; [done| |done|done].
  constructor; [simpl; by rewrite Hlen|simpl; lia|]. rewrite Hl. apply purge_wf, Hwf.
Qed.

Definition in_use (self : Z) (w : W) (x : shm_struct) : Prop :=
  refs self x w <> 255 /\ (refs self x w <> 1 \/ marked x = false).
#[export] Instance in_use_dec self w x : Decision (in_use self w x).
Proof. unfold in_use. apply _. Defined.

Lemma purge_filter self w0 l : forall w,
  (forall p q n w, p <> q -> vm_getrefcount self p (munmap q n w) = vm_getrefcount self p w) ->
  base.NoDup (page <$> l) -> Forall (fun x => refs self x w = refs self x w0) l ->
  (purge self l w).1 =
    (fun x => set_nattch (refs self x w0 - 1) x) <$> filter (in_use self w0) l.
Proof.
  induction l as [|x l IH]; intros w Hother Hnd Heq; [done|].
  rewrite fmap_cons in Hnd. apply list.NoDup_cons in Hnd as [Hni Hnd].
  apply list.Forall_cons in Heq as [Hx Heq]. simpl. rewrite Hx, filter_cons.
  destruct (_ =? 255) eqn:E1.
  { rewrite decide_False by (intros [? _]; lia). by apply IH. }
  destruct (negb _ || negb _) eqn:E2.
  - rewrite decide_True.
    2:{ split; [lia|]. destruct (marked x); [left; lia|by right]. }
    specialize (IH w Hother Hnd Heq). destruct (purge self l w) as [l' w'].
    simpl in *. by rewrite IH.
  - rewrite decide_False.
    2:{ intros [_ [Hr|Hm]]; [|rewrite Hm in E2; by destruct (negb _)].
        destruct (Z.eqb_spec (refs self x w0) 1); [lia|done]. }
    apply IH; [done|done|]. apply list.Forall_forall. intros y Hy.
    rewrite <-(Forall_elem _ _ _ Heq Hy). unfold refs. rewrite Hother; [done|].
    intros He. apply Hni. rewrite <-He. apply list_elem_of_fmap. by exists y.
Qed.
End purge.

(** [update_refcount_and_destroy] keeps, in their order, the segments that are still
    attached by a process or were not marked for destruction, with the number of
    attachments brought up to date, and gives the pages of the others back; the loop that
    moves the entries down is the filter.  (A segment of which VM does not know the page
    leaves the table too, without its pages being unmapped.) *)
Theorem update_refcount_spec `{IpcHeaders} `{!IpcHeaderLaws} {W : Type} `{IpcEnv W} (s : state W) :
  wf_shm s ->
  (forall p q n w, p <> q ->
     vm_getrefcount (SELF_E s) p (munmap q n w) = vm_getrefcount (SELF_E s) p w) ->
  base.NoDup (page <$> live_shm s) ->
  exists s', update_refcount_and_destroy s = Ret tt s' /\ wf_shm s' /\
    live_shm s' = (fun x => set_nattch (refs (SELF_E s) x (world s) - 1) x) <$>
                    filter (in_use (SELF_E s) (world s)) (live_shm s).
Proof.
  intros Hwf Hother Hnd. destruct (update_refcount_wf s Hwf) as (s' & Hrun & Hwf' & _ & Hlive).
  exists s'. split_and!; [done..|]. rewrite Hlive. apply purge_filter; [done|done|].
  by apply list.Forall_forall.
Qed.

(** ** Examples *)
Module Demo.
Import IpcBase.Demo.
#[local] Existing Instances ipc_headers ipc_header_laws ipc_env ipc_env_laws.

(** Three segments: one in use, one marked and no longer used, one only marked. *)
Definition seg (id pg md : Z) : shm_struct :=
  mk_shm_struct id id (mk_shmid_ds (mk_perm 5 100 5 100 md) 5000 0 0 0 5 5 0) pg pg.
Definition w0 : W := mk_W 0 [] [] (<[4096 := 1]> (<[8192 := 1]> (<[12288 := 3]> ∅))).
Definition three : state W :=
  mk_state [] 0
    ([seg 10 4096 384; seg 11 8192 (512 + 384); seg 12 12288 (512 + 384)]
       ++ replicate 1021 zero_shm_struct) 3 100 5 1 None [] w0.

Lemma update_refcount_spec_witness :
  exists s', update_refcount_and_destroy three = Ret tt s' /\ wf_shm s' /\
    live_shm s' = (fun x => set_nattch (refs 1 x w0 - 1) x) <$> filter (in_use 1 w0) (live_shm three) /\
    shm_id <$> live_shm s' = [10; 12].
Proof.
  destruct (update_refcount_spec three) as (s' & Hrun & Hwf & Hl).
  - constructor; [reflexivity|cbn; unfold MAX_SHM_NR; lia|].
    repeat constructor; vm_compute; discriminate.
  - intros p q n w Hne. simpl. by rewrite lookup_delete_ne by done.
  - apply (bool_decide_unpack _). by vm_compute.
  - exists s'. split; [exact Hrun|]. split; [exact Hwf|]. split; [exact Hl|]. rewrite Hl. vm_compute. reflexivity.
Defined.
End Demo.
