(* ===== verification/IpcMain.v ===== *)
(** The main loop of the IPC server, [src/Project_2/servers/ipc/main.c]. *)
From S2P Require Import Prelude Minix IpcBase Sem Shm.
Local Open Scope Z_scope.

(** A message that was received, by the table [ipc_calls] of its type; its fields are
    the ones the call reads. *)
Inductive request :=
  | IPC_SHMGET (key size flg : Z)
  | IPC_SHMAT (id addr flg : Z)
  | IPC_SHMDT (addr : Z)
  | IPC_SHMCTL (id cmd buf : Z)
  | IPC_SEMGET (key nsems flg : Z)
  | IPC_SEMCTL (id num cmd opt : Z)
  | IPC_SEMOP (id addr size : Z)
  | NOTIFY_MESSAGE
  | Other (call_type : Z).

Section operations.
Context `{MinixHeaders} `{IpcHeaders} {W : Type} `{IpcEnv W}.
Abbreviation cmd := (M (state W)).

(** [ipc_calls[i].func(&m)], and whether the call replies itself. *)
Definition dispatch (r : request) : option (cmd rc * bool) :=
  match r with
  | IPC_SHMGET key size flg => Some (do_shmget key size flg, false)
  | IPC_SHMAT id addr flg => Some (do_shmat id addr flg, false)
  | IPC_SHMDT addr => Some (do_shmdt addr, false)
  | IPC_SHMCTL id c buf => Some (do_shmctl id c buf, false)
  | IPC_SEMGET key nsems flg => Some (do_semget key nsems flg, false)
  | IPC_SEMCTL id num c opt => Some (do_semctl id num c opt, false)
  | IPC_SEMOP id addr size => Some (do_semop id addr size, true)
  | NOTIFY_MESSAGE | Other _ => None
  end.

(** One turn of the loop of [main], on a message [r] of [m_source]. *)
Definition main_step (m_source : Z) (r : request) : cmd unit :=
  modify (fun s => s <| who_e := m_source |> <| m_ret := None |>);;
  match r with
  | NOTIFY_MESSAGE => if m_source =? VM_PROC_NR then sem_process_vm_notify else mret tt
  | _ =>
      match dispatch r with
      | Some (func, reply) =>
          result ← func;
          if reply : bool then mret tt else
          v ← gets m_ret;
          sendnb (mk_packet m_source result v)
      | None => mret tt
      end;;
      update_refcount_and_destroy
  end.

Definition main_loop (ms : list (Z * request)) : cmd unit :=
  foreach ms (fun '(e, r) => main_step e r).

(** The tables are zero when the server starts, and [SELF_E] is set by the call-back of
    its initialisation. *)
Definition sef_cb_init_fresh (self : Z) (w : W) : state W :=
  mk_state (replicate (Z.to_nat SEMMNI) zero_sem_struct) 0
    (replicate (Z.to_nat MAX_SHM_NR) zero_shm_struct) 0 0x1234 0 self None [] w.

(** On SIGTERM the server reports whether keys are left. *)
Definition sef_cb_signal_handler (is_sigterm : bool) : cmd bool :=
  if negb is_sigterm then mret false else
  a ← is_sem_nil; b ← is_shm_nil; mret (negb a || negb b).
End operations.

(** ** The invariant of the server
    [k] bounds the number of messages handled so far: each puts a process at most once
    on a list and creates at most one object. *)
Definition first_id : Z := 0x1234.
Record good_set `{IpcHeaders} (k ident : Z) (x : sem_struct) : Prop := {
  gs_wf : wf_set k x;
  gs_length : Z.of_nat (length (sems x)) = SEMMSL;
  gs_zlist : no_zlist x;
  gs_id : first_id <= sem_id x < ident;
}.
Record srv `{IpcHeaders} {W} (k : Z) (s : state W) : Prop := {
  sv_nr : 0 <= sem_list_nr s <= SEMMNI;
  sv_length : Z.of_nat (length (sem_list s)) = SEMMNI;
  sv_sets : Forall (good_set k (identifier s)) (live_sets s);
  sv_ids : base.NoDup (sem_id <$> live_sets s);
  sv_shm : wf_shm s;
  sv_ident : first_id <= identifier s <= first_id + k;
}.

Section invariant.
Context `{MinixHeaders} `{IpcHeaders} `{!IpcHeaderLaws} {W : Type} `{IpcEnv W} `{!IpcEnvLaws W}.
Hypothesis memory : forall n w, (realloc n w).1 = true.
Implicit Types (s : state W).

Lemma srv_sems k s : srv k s -> wf_sems k s.
Proof.
  intros Hs. constructor; [rewrite (sv_length _ _ Hs); apply Hs|].
  eapply list.Forall_impl; [apply (sv_sets _ _ Hs)|]. by intros x [].
Qed.
Lemma srv_no_zlist k s : srv k s -> Forall no_zlist (live_sets s).
Proof. intros Hs. eapply list.Forall_impl; [apply (sv_sets _ _ Hs)|]. by intros x []. Qed.

Lemma good_set_mono k k' d d' x : good_set k d x -> k <= k' -> d <= d' -> good_set k' d' x.
Proof.
  intros [[Hn Hs] ? ? ?] ? ?. constructor; [|done|done|lia]. constructor; [done|].
  eapply list.Forall_impl; [exact Hs|]. intros y Hy. by eapply wf_s_mono.
Qed.
Lemma srv_mono k k' s : srv k s -> k <= k' -> srv k' s.
Proof.
  intros [] ?. constructor; try done; [|lia].
  eapply list.Forall_impl; [done|]. intros x Hx. by eapply good_set_mono.
Qed.

(** The parts of the state the invariant does not read. *)
Lemma srv_world k s w : srv k s -> srv k (s <| world := w |>).
Proof. by intros [? ? ? ? [] ?]. Qed.
Lemma srv_sent k s o : srv k s -> srv k (s <| sent := o |>).
Proof. by intros [? ? ? ? [] ?]. Qed.
Lemma srv_ret k s v : srv k s -> srv k (s <| m_ret := v |>).
Proof. by intros [? ? ? ? [] ?]. Qed.
Lemma srv_who k s e : srv k s -> srv k (s <| who_e := e |>).
Proof. by intros [? ? ? ? [] ?]. Qed.

(** A live set and its semaphores. *)
Lemma srv_set k s i x :
  srv k s -> aget (sem_list s) i = Some x -> i < sem_list_nr s -> good_set k (identifier s) x.
Proof.
  intros Hs Hx Hi. pose proof (aget_range _ _ _ Hx).
  apply (Forall_elem _ _ _ (sv_sets _ _ Hs)), (aget_take _ _ i); [lia|done].
Qed.

(** A live set is replaced by one with the same identifier. *)
Lemma live_sets_aupd s i x' x :
  aget (sem_list s) i = Some x -> 0 <= i < sem_list_nr s ->
  live_sets (s <| sem_list := aupd i (fun _ => x') (sem_list s) |>) =
    <[Z.to_nat i := x']> (live_sets s).
Proof.
  intros Hx Hi. unfold live_sets. simpl. apply list_eq. intros n.
  rewrite lookup_take, list_lookup_insert, lookup_take, length_take.
  rewrite <-!aget_nat, aget_aupd. pose proof (aget_range _ _ _ Hx).
  destruct (decide (n < Z.to_nat (sem_list_nr s))%nat).
  - destruct (decide (i = Z.of_nat n)) as [->|].
    + rewrite Hx. simpl. rewrite decide_True by lia. done.
    + rewrite decide_False by lia. done.
  - rewrite decide_False by lia. done.
Qed.

Lemma srv_update_set k s i x x' :
  srv k s -> aget (sem_list s) i = Some x -> i < sem_list_nr s ->
  good_set k (identifier s) x' -> sem_id x' = sem_id x ->
  srv k (s <| sem_list := aupd i (fun _ => x') (sem_list s) |>).
Proof.
  intros Hs Hx Hi Hg Hid. pose proof (aget_range _ _ _ Hx).
  destruct Hs as [? ? Hsets Hids [? ? ?] ?].
  pose proof (live_sets_aupd s i x' x Hx ltac:(lia)) as Hl.
  constructor; try done; [simpl; by rewrite length_aupd| |].
  - rewrite Hl. by apply Forall_insert.
  - rewrite Hl, list_fmap_insert, list_insert_id; [done|].
    rewrite list_lookup_fmap. unfold live_sets. rewrite lookup_take.
    rewrite decide_True by lia. apply aget_Some in Hx as [_ Hx]. rewrite Hx. simpl. by rewrite Hid.
Qed.

(** The semaphores of a live set are replaced. *)
Definition calm (k : Z) (y : semaphore) : Prop := wf_s k y /\ zlist y = NULL.

Lemma set_calm k d x : good_set k d x -> Forall (calm k) (live_sems x).
Proof. intros [Hw ? Hz ?]. eapply Forall_impl2; [apply (wx_sems _ _ Hw)|exact Hz|done]. Qed.

Lemma good_set_sems k d x l :
  good_set k d x -> length l = length (sems x) ->
  Forall (calm k) (take (Z.to_nat (sem_nsems (sem_ds x))) l) -> good_set k d (x <| sems := l |>).
Proof.
  intros [Hw Hl Hz Hi] Hlen Hc. constructor; [| | |done]; simpl.
  - constructor; [simpl; rewrite Hlen; apply Hw|]. by eapply list.Forall_impl; [exact Hc|intros ? []].
  - by rewrite Hlen.
  - by eapply list.Forall_impl; [exact Hc|intros ? []].
Qed.

Lemma srv_at_set k s i x l o :
  srv k s -> aget (sem_list s) i = Some x -> i < sem_list_nr s -> length l = length (sems x) ->
  Forall (calm k) (take (Z.to_nat (sem_nsems (sem_ds x))) l) -> srv k (at_set s i l o).
Proof.
  intros Hs Hx Hi Hlen Hc. pose proof (srv_set _ _ _ _ Hs Hx Hi) as Hg.
  pose proof (srv_update_set k s i x (x <| sems := l |>) Hs Hx Hi
    (good_set_sems _ _ _ _ Hg Hlen Hc) eq_refl) as Hu.
  apply (srv_sent _ _ o) in Hu. unfold at_set.
  rewrite (aupd_ext _ i (fun x => x <| sems := l |>) (fun _ => x <| sems := l |>)); [done|].
  intros ? ?. by simplify_eq.
Qed.

Lemma srv_map_sets f k s :
  (forall y, calm k y -> calm k (f y).1) -> srv k s -> srv k (map_sets f s).
Proof.
  intros Hf Hs. pose proof (srv_sems _ _ Hs) as Hw.
  destruct Hs as [? Hlen Hsets Hids [? ? ?] ?].
  constructor; try done; [simpl; by rewrite length_map_pre| |].
  - rewrite live_sets_map, Forall_fmap. eapply list.Forall_impl; [exact Hsets|].
    intros x Hx. apply good_set_sems; [done|by rewrite length_map_pre|].
    rewrite take_map_pre, Forall_fmap. eapply list.Forall_impl; [exact (set_calm _ _ _ Hx)|].
    exact Hf.
  - rewrite live_sets_map, <-list_fmap_compose. exact Hids.
Qed.

Lemma wake_calm k y : calm k y -> calm k (wake y).1.
Proof.
  intros [Hw Hz]. split; [|by rewrite wake_NULL, wn_zlist].
  apply wake_wf; [done|]. by intros [? _].
Qed.
Lemma rmv_calm k pt y : calm k y -> calm k (rmv pt y).1.
Proof.
  intros [Hw Hz]. split; [by apply rmv_wf|]. destruct (rz_spec k pt y Hw) as (Hr & _ & _ & Hn).
  destruct (rn_spec k pt _ Hr) as (_ & _ & _ & Hz2). simpl. by rewrite Hz2, Hn.
Qed.

Lemma update_semaphores_safe k s :
  srv k s -> k < 2 ^ 16 -> wp update_semaphores (fun _ s' => srv k s') never s.
Proof.
  intros Hs Hk. eapply wp_ret_run.
  - apply (update_semaphores_run k); [by apply srv_sems|by apply all_no_drained, (srv_no_zlist k)|done].
  - apply srv_map_sets; [apply wake_calm|done].
Qed.
Lemma remove_process_safe k s pt :
  srv k s -> k < 2 ^ 16 -> wp (remove_process pt) (fun _ s' => srv k s') never s.
Proof.
  intros Hs Hk. eapply wp_ret_run; [by apply (remove_process_run k); [apply srv_sems|]|].
  apply srv_map_sets; [apply rmv_calm|done].
Qed.

Lemma update_refcount_safe k s :
  srv k s -> wp update_refcount_and_destroy (fun _ s' => srv k s') never s.
Proof.
  intros Hs. destruct (update_refcount_wf s (sv_shm _ _ Hs)) as (s' & Hrun & Hwf & Heq & _).
  eapply wp_ret_run; [exact Hrun|]. rewrite Heq in Hwf |- *.
  destruct Hs. by constructor.
Qed.

(** Computations that only read the state or change the parts outside the invariant. *)
Lemma wp_env k A (f : W -> A * W) s :
  srv k s -> wp (env f) (fun _ s' => srv k s') never s.
Proof.
  intros Hs. unfold env. wp_step. wp_step. destruct (f (world s)) as [a w].
  wp_go. by apply srv_world.
Qed.
Lemma next_identifier_safe k s (Q : Z -> state W -> Prop) :
  srv k s -> k < 2 ^ 16 ->
  Q (identifier s) (s <| identifier := identifier s + 1 |>) -> wp next_identifier Q never s.
Proof.
  intros Hs Hk HQ. unfold next_identifier. pose proof (sv_ident _ _ Hs) as Hi.
  unfold first_id in Hi. wp_step. wp_step.
  destruct (_ =? _) eqn:E; [lia|]. by wp_go.
Qed.
End invariant.

(** Steps through the parts of a handler that only read, by cases on its tests. *)
Ltac safe_go :=
  unfold may, caller, ask, set_ret, tell, sendnb, send_message_to_process;
  repeat first [wp_step; cbn beta | case_match].

Section handlers.
Context `{MinixHeaders} `{IpcHeaders} `{!IpcHeaderLaws} {W : Type} `{IpcEnv W} `{!IpcEnvLaws W}.
Hypothesis memory : forall n w, (realloc n w).1 = true.
Implicit Types (s : state W).
Abbreviation keeps k m := (fun s => wp m (fun _ s' => srv k s') never s).

Lemma srv_ident_up k s : srv k s -> srv (k + 1) (s <| identifier := identifier s + 1 |>).
Proof.
  intros [? ? Hs ? [? ? ?] ?]. constructor; try done; [|simpl; lia].
  eapply list.Forall_impl; [exact Hs|]. intros x Hx. eapply good_set_mono; [exact Hx|lia|simpl; lia].
Qed.

Lemma get_sem_safe k s i Q :
  srv k s -> 0 <= i < sem_list_nr s ->
  (forall x, aget (sem_list s) i = Some x -> good_set k (identifier s) x -> Q x s) ->
  wp (get_sem i) Q never s.
Proof.
  intros Hs Hi HQ. destruct (aget_is_Some (sem_list s) i) as [x Hx].
  { rewrite (sv_length _ _ Hs). pose proof (sv_nr _ _ Hs). lia. }
  eapply wp_ret_run; [by apply get_sem_run|]. apply HQ; [done|]. apply (srv_set _ _ i); [done|done|lia].
Qed.

Lemma find_sem_safe k s p Q :
  srv k s -> (forall r, match r with Some i => 0 <= i < sem_list_nr s | None => True end -> Q r s) ->
  wp (find_sem p) Q never s.
Proof.
  intros Hs HQ. eapply wp_ret_run; [apply (find_sem_run k), srv_sems; done|].
  apply HQ. destruct (list_find _ _) as [[n x]|] eqn:E; [|done]. simpl.
  apply list_find_Some in E as (Hx & _ & _). apply live_lookup in Hx as [_ Hx]. exact Hx.
Qed.

(** A new set takes the slot behind the last one. *)
Lemma srv_new_set k s x ident :
  srv k s -> sem_list_nr s < SEMMNI -> good_set k ident x ->
  identifier s <= sem_id x -> ident <= first_id + k -> identifier s <= ident ->
  srv k (s <| identifier := ident |>
           <| sem_list := aupd (sem_list_nr s) (fun _ => x) (sem_list s) |>
           <| sem_list_nr := sem_list_nr s + 1 |>).
Proof.
  intros [Hn Hlen Hsets Hids [? ? ?] Hid] Hlt Hg Hx Hb Hle.
  destruct (aget_is_Some (sem_list s) (sem_list_nr s)) as [x0 Hx0]; [lia|].
  assert (live_sets (s <| identifier := ident |>
           <| sem_list := aupd (sem_list_nr s) (fun _ => x) (sem_list s) |>
           <| sem_list_nr := sem_list_nr s + 1 |>) = live_sets s ++ [x]) as Hl.
  { unfold live_sets. simpl. replace (Z.to_nat (sem_list_nr s + 1)) with (S (Z.to_nat (sem_list_nr s))) by lia.
    rewrite (take_S_r _ _ x).
    - f_equal. apply list_eq. intros n. rewrite !lookup_take. case_decide; [|done].
      rewrite <-!aget_nat, aget_aupd_ne by lia. done.
    - rewrite <-aget_nat, Z2Nat.id by lia. by rewrite aget_aupd_eq, Hx0. }
  constructor; try done; [simpl; lia|simpl; by rewrite length_aupd| | |simpl; lia].
  - rewrite Hl. apply list.Forall_app. split; [|by constructor].
    eapply list.Forall_impl; [exact Hsets|]. intros y Hy. eapply good_set_mono; [exact Hy|lia|simpl; lia].
  - rewrite Hl, fmap_app. apply list.NoDup_app. split_and!; [done| |apply NoDup_singleton].
    intros n (y & -> & Hy)%list_elem_of_fmap. simpl. rewrite list_elem_of_singleton.
    pose proof (Forall_elem _ _ _ Hsets Hy) as [_ _ _ ?]. lia.
Qed.

Lemma zero_set_good k ident key ds id :
  0 <= k -> 0 <= sem_nsems ds < SEMMSL -> first_id <= id < ident ->
  good_set k ident (zero_sem_struct <| sem_ds := ds |> <| sem_id := id |> <| sem_key := key |>).
Proof.
  intros Hk Hn Hid.
  assert (Forall (calm k) (take (Z.to_nat (sem_nsems ds)) (replicate (Z.to_nat SEMMSL) zero_semaphore)))
    as Hc.
  { apply Forall_take, Forall_replicate. split; [|done].
    constructor; simpl; try done; lia. }
  constructor; simpl; [constructor; simpl| | |done].
  - rewrite length_replicate. lia.
  - by eapply list.Forall_impl; [exact Hc|intros ? []].
  - rewrite length_replicate. lia.
  - by eapply list.Forall_impl; [exact Hc|intros ? []].
Qed.

Lemma do_semget_safe k s key nsems flg :
  srv k s -> 0 <= k -> k + 1 < 2 ^ 16 -> keeps (k + 1) (do_semget key nsems flg) s.
Proof.
  intros Hs Hk0 Hk. assert (srv (k + 1) s) as Hs1 by (apply (srv_mono k); [done|lia]).
  unfold do_semget. apply wp_bind.
  assert (forall Q : option Z -> state W -> Prop,
    (forall r, match r with Some i => 0 <= i < sem_list_nr s | None => True end -> Q r s) ->
    wp (sem_find_key key) Q never s) as Hfind.
  { intros Q HQ. unfold sem_find_key. destruct (_ =? _); [apply wp_ret; by apply HQ|].
    by apply (find_sem_safe k). }
  apply Hfind. intros [i|] Hi.
  - apply wp_bind, (get_sem_safe (k + 1)); [done|done|]. intros x Hx Hg.
    safe_go; try done. by apply srv_ret.
  - destruct (negb _); [by wp_go|]. destruct (_ || _) eqn:E; [by wp_go|].
    wp_step. wp_step. destruct (_ =? SEMMNI) eqn:En; [by wp_go|].
    unfold caller, ask. wp_go. unfold env. wp_go. destruct (time (world s)) as [now w]. wp_go.
    set (s2 := s <| world := w |>).
    assert (srv k s2) as Hs2 by by apply srv_world.
    apply (next_identifier_safe k); [done|lia|].
    pose proof (sv_nr _ _ Hs). pose proof (sv_length _ _ Hs). pose proof (sv_ident _ _ Hs).
    destruct (aget_is_Some (sem_list s) (sem_list_nr s)) as [x0 Hx0]; [lia|].
    eapply wp_bind_run; [apply (set_sem_run _ _ x0); exact Hx0|].
    wp_go. apply srv_ret.
    apply (srv_new_set (k + 1) s2); [by apply srv_world|simpl; lia| |simpl; lia|simpl; lia|simpl; lia].
    apply zero_set_good; [lia|simpl; lia|simpl; lia].
Qed.
End handlers.

Section semctl.
Context `{MinixHeaders} `{IpcHeaders} `{!IpcHeaderLaws} {W : Type} `{IpcEnv W} `{!IpcEnvLaws W}.
Implicit Types (s : state W) (d : semid_ds) (i : Z).

(** Set [i] is live and has the description [d]. *)
Definition live_ds (i : Z) (d : semid_ds) s : Prop :=
  0 <= i < sem_list_nr s /\ sem_ds <$> aget (sem_list s) i = Some d.

Lemma live_ds_get i s x : aget (sem_list s) i = Some x -> 0 <= i < sem_list_nr s ->
  live_ds i (sem_ds x) s.
Proof. intros Hx Hi. split; [done|]. by rewrite Hx. Qed.

Lemma get_s_safe k s i d j Q :
  srv k s -> live_ds i d s -> 0 <= j < sem_nsems d ->
  (forall x y, aget (sem_list s) i = Some x -> aget (sems x) j = Some y -> calm k y -> Q y s) ->
  wp (get_s i j) Q never s.
Proof.
  intros Hs [Hi Hd] Hj HQ. unfold get_s. apply wp_bind, (get_sem_safe k); [done|done|].
  intros x Hx Hg. rewrite Hx in Hd. injection Hd as Hd.
  destruct (sem_in_set k x j) as (y & Hy & _); [apply Hg|by rewrite Hd|].
  apply wp_deref with y; [done|]. apply (HQ x); [done|done|].
  apply (Forall_elem _ _ _ (set_calm _ _ _ Hg)), (aget_take _ _ j); [by rewrite Hd|done].
Qed.

Lemma set_s_safe k s i d j f :
  srv k s -> live_ds i d s -> 0 <= j < sem_nsems d -> (forall y, calm k y -> calm k (f y)) ->
  wp (set_s i j f) (fun _ s' => srv k s' /\ live_ds i d s') never s.
Proof.
  intros Hs Hd Hj Hf. unfold set_s. apply wp_bind, (get_s_safe k _ _ d); [done..|].
  intros x y Hx Hy Hc. eapply wp_ret_run; [by apply (set_sem_run _ _ x)|].
  destruct Hd as [Hi Hd]. pose proof (srv_set _ _ _ _ Hs Hx ltac:(lia)) as Hg.
  rewrite (aupd_ext _ i _ (fun _ => x <| sems := aupd j f (sems x) |>)) by (intros ? ?; by simplify_eq).
  split.
  - apply (srv_update_set _ _ _ x); [done|done|lia| |done].
    apply good_set_sems; [done|by rewrite length_aupd|].
    apply list.Forall_forall. intros y' (j' & Hj' & Hy')%elem_aget.
    rewrite aget_aupd in Hy'. case_decide as Hjj; [subst j'; rewrite Hy in Hy'; simplify_eq/=; by apply Hf|].
    apply (Forall_elem _ _ _ (set_calm _ _ _ Hg)), (aget_take _ _ j'); [lia|done].
  - split; [done|]. simpl. rewrite aget_aupd_eq, Hx. simpl. by rewrite Hx in Hd.
Qed.

Lemma set_semds_safe k s i d f :
  srv k s -> live_ds i d s -> sem_nsems (f d) = sem_nsems d ->
  wp (set_semds i f) (fun _ s' => srv k s' /\ live_ds i (f d) s') never s.
Proof.
  intros Hs [Hi Hd] Hf. destruct (aget (sem_list s) i) as [x|] eqn:Hx; [|done].
  injection Hd as Hd. unfold set_semds. eapply wp_ret_run; [by apply (set_sem_run _ _ x)|].
  pose proof (srv_set _ _ _ _ Hs Hx ltac:(lia)) as Hg.
  rewrite (aupd_ext _ i _ (fun _ => x <| sem_ds := f d |>)) by
    (intros ? ?; by simplify_eq).
  split.
  - apply (srv_update_set _ _ _ x); [done|done|lia| |done].
    destruct Hg as [[Hn Hsm] Hl Hz Hid]. subst d. unfold no_zlist, live_sems in *.
    constructor; [|done| |done]; [constructor; simpl; [by rewrite Hf|]|]; unfold no_zlist, live_sems;
      simpl; by rewrite Hf.
  - split; [done|]. simpl. by rewrite aget_aupd_eq, Hx.
Qed.

Lemma env_live k i d s A (f : W -> A * W) :
  srv k s -> live_ds i d s -> wp (env f) (fun _ s' => srv k s' /\ live_ds i d s') never s.
Proof.
  intros Hs Hd. unfold env. wp_step. wp_step. destruct (f (world s)) as [a w].
  wp_go. split; [by apply srv_world|done].
Qed.

Lemma set_ctime_safe k s i d :
  srv k s -> live_ds i d s ->
  wp (set_ctime i) (fun _ s' => srv k s' /\ exists d', live_ds i d' s' /\ sem_nsems d' = sem_nsems d)
    never s.
Proof.
  intros Hs Hd. unfold set_ctime. apply wp_bind.
  eapply wp_mono; [by apply (env_live k i d)| |done]. intros now s' [Hs' Hd'].
  eapply wp_mono; [by apply (set_semds_safe k s' i d)| |done].
  intros _ s2 [? ?]. eauto.
Qed.

Lemma semctl_getall_safe k s i opt d :
  srv k s -> live_ds i d s -> wp (semctl_getall i opt) (fun _ s' => srv k s') never s.
Proof.
  intros Hs Hd. unfold semctl_getall. apply wp_bind, (get_sem_safe k); [done|apply Hd|].
  intros x Hx _. assert (sem_ds x = d) as -> by (destruct Hd as [_ Hd]; rewrite Hx in Hd; by injection Hd).
  apply wp_bind. eapply wp_mono; [by apply (env_live k i d)| |done].
  intros ok s1 [Hs1 Hd1]. destruct ok; [|by wp_go]. cbn [negb]. apply wp_bind.
  apply (wp_fold _ _ _ (fun _ _ s' => s' = s1)).
  - done.
  - intros pre j post buf s' Hsplit ->. apply seqZ_visit in Hsplit as [_ Hj].
    apply wp_bind, (get_s_safe k _ _ d); [done..|]. intros x' y _ _ _. by wp_go.
  - intros buf s' ->. unfold caller. wp_go.
    eapply wp_mono; [by apply (env_live k i d)| |done]. intros ok s2 [? ?]. by wp_go.
Qed.

Lemma sem_field_safe k s i num f d :
  srv k s -> live_ds i d s -> wp (sem_field i num f) (fun _ s' => srv k s') never s.
Proof.
  intros Hs Hd. unfold sem_field. apply wp_bind, (get_sem_safe k); [done|apply Hd|].
  intros x Hx _. assert (sem_ds x = d) as -> by (destruct Hd as [_ Hd]; rewrite Hx in Hd; by injection Hd).
  destruct (_ || _) eqn:E; [by wp_go|]. apply wp_bind, (get_s_safe k _ _ d); [done|done|lia|].
  intros. unfold set_ret. wp_go. by apply srv_ret.
Qed.

Lemma calm_val k y v : 0 <= v < 2 ^ 16 -> calm k y -> calm k (y <| semval := v |>).
Proof. intros Hv [[] ?]. split; [|done]. by constructor. Qed.

Lemma semctl_setval_safe k s i num opt d :
  srv k s -> live_ds i d s -> k < 2 ^ 16 -> wp (semctl_setval i num opt) (fun _ s' => srv k s') never s.
Proof.
  intros Hs Hd Hk. unfold semctl_setval. apply wp_bind, (get_sem_safe k); [done|apply Hd|].
  intros x Hx _. assert (sem_ds x = d) as -> by (destruct Hd as [_ Hd']; rewrite Hx in Hd'; by injection Hd').
  unfold may, caller, ask. wp_go. destruct (negb _); [by wp_go|].
  destruct ((num <? 0) || _) eqn:E; [by wp_go|].
  destruct ((opt <? 0) || _) eqn:E2; [by wp_go|]. pose proof SEMVMX_range.
  apply wp_bind. eapply wp_mono; [apply (set_s_safe k _ _ d); [done|done|lia|]| |done].
  { intros y. apply calm_val. lia. }
  intros _ s1 [Hs1 Hd1]. apply wp_bind. eapply wp_mono; [by apply (set_ctime_safe k s1 i d)| |done].
  intros _ s2 [Hs2 _]. apply wp_bind. eapply wp_mono; [by apply (update_semaphores_safe k)| |done].
  intros [] s3 Hs3. by wp_go.
Qed.

Lemma semctl_setall_safe k s i opt d :
  srv k s -> live_ds i d s -> k < 2 ^ 16 -> wp (semctl_setall i opt) (fun _ s' => srv k s') never s.
Proof.
  intros Hs Hd Hk. unfold semctl_setall. apply wp_bind, (get_sem_safe k); [done|apply Hd|].
  intros x Hx _. assert (sem_ds x = d) as -> by (destruct Hd as [_ Hd']; rewrite Hx in Hd'; by injection Hd').
  apply wp_bind. eapply wp_mono; [by apply (env_live k i d)| |done].
  intros ok s1 [Hs1 Hd1]. destruct ok; [|by wp_go]. cbn [negb]. unfold caller, ask. wp_go.
  destruct (copy_shorts _ _ _ _) as [buf|] eqn:Eb; [|by wp_go].
  apply copy_shorts_spec in Eb as [Hlen Hbuf]. pose proof SEMVMX_range. apply wp_bind.
  apply (wp_for _ _ (fun _ s' => srv k s' /\ live_ds i d s')).
  - done.
  - intros pre j post s' Hsplit [Hs' Hd']. apply seqZ_visit in Hsplit as [_ Hj].
    destruct (aget_is_Some buf j) as [v Hv]; [lia|]. apply wp_bind, wp_deref with v; [done|].
    destruct ((v <? 0) || _) eqn:E.
    + wp_go. eapply wp_mono; [by apply (update_semaphores_safe k)| |done].
      intros [] s3 Hs3. by wp_go.
    + apply wp_bind. eapply wp_mono; [apply (set_s_safe k _ _ d); [done..|]| |done].
      { intros y. apply calm_val. lia. }
      intros [] s2 Hs2. by wp_go.
  - intros s' [Hs' _]. apply wp_bind. eapply wp_mono; [by apply (update_semaphores_safe k)| |done].
    intros [] s3 Hs3. by wp_go.
Qed.
End semctl.

Section rmid.
Context `{MinixHeaders} `{IpcHeaders} `{!IpcHeaderLaws} {W : Type} `{IpcEnv W} `{!IpcEnvLaws W}.
Implicit Types (s : state W) (d : semid_ds) (i : Z).

Lemma tell_list_safe k s i d l cnt :
  srv k s -> live_ds i d s -> wf_list l cnt ->
  wp (foreach (seqZ 0 cnt) (fun j => e ← entry l j; send_message_to_process (who e) EIDRM))
    (fun _ s' => srv k s' /\ live_ds i d s') never s.
Proof.
  intros Hs Hd Hl. apply (wp_foreach _ _ (fun _ s' => srv k s' /\ live_ds i d s')); [done| |done].
  intros pre j post s' Hsplit [Hs' Hd']. apply seqZ_visit in Hsplit as [_ Hj].
  destruct l as [|b|]; simpl in Hl; [lia| |done].
  destruct (aget_is_Some b j) as [e He]; [lia|].
  apply wp_bind. unfold entry, block. wp_step. wp_step. apply wp_deref with e; [done|].
  unfold send_message_to_process, sendnb. wp_go. split; [by apply srv_sent|done].
Qed.

Lemma tell_removed_safe k s i d j :
  srv k s -> live_ds i d s -> 0 <= j < sem_nsems d ->
  wp (tell_removed i j) (fun _ s' => srv k s' /\ live_ds i d s') never s.
Proof.
  intros Hs Hd Hj. unfold tell_removed. apply wp_bind, (get_s_safe k _ _ d); [done..|].
  intros x y _ _ [Hy _]. apply wp_bind.
  eapply wp_mono; [by apply (tell_list_safe k s i d), Hy| |done].
  intros [] s1 [Hs1 Hd1]. by apply (tell_list_safe k s1 i d), Hy.
Qed.

Lemma aupd_insert {A} (l : list A) i x : 0 <= i -> aupd i (fun _ => x) l = <[Z.to_nat i := x]> l.
Proof.
  intros Hi. apply list_eq. intros n. rewrite <-aget_nat, aget_aupd, list_lookup_insert.
  destruct (decide (i = Z.of_nat n)) as [->|Hne].
  - rewrite aget_nat, Nat2Z.id. destruct (l !! n) eqn:E; simpl.
    + rewrite decide_True; [done|]. apply lookup_lt_Some in E. lia.
    + apply lookup_ge_None in E. by rewrite decide_False by lia.
  - rewrite aget_nat. by rewrite decide_False by lia.
Qed.

(** The table after [remove_semaphore]: the last set takes the free place. *)
Lemma swap_out (l : list sem_struct) (n i : nat) x last l' :
  l !! i = Some x -> l !! n = Some last -> (i <= n)%nat ->
  length l' = length l -> (forall m, m <> i -> l' !! m = l !! m) -> l' !! i = Some last \/ i = n ->
  take (S n) l ≡ₚ x :: take n l'.
Proof.
  intros Hx Hlast Hin Hlen Hother Hi. rewrite (take_S_r _ _ _ Hlast).
  destruct (decide (i = n)) as [->|Hne].
  - simplify_eq. enough (take n l' = take n l) as -> by (by rewrite Permutation_app_comm).
    apply list_eq. intros m. rewrite !lookup_take. case_decide; [|done].
    apply Hother. lia.
  - destruct Hi as [Hi|]; [|done].
    assert (take n l' = <[i := last]> (take n l)) as ->.
    { apply list_eq. intros m. rewrite lookup_take, list_lookup_insert, lookup_take, length_take.
      pose proof (lookup_lt_Some _ _ _ Hlast).
      destruct (decide (m = i)) as [->|].
      - rewrite (decide_True _ _ (P := (i < n)%nat)) by lia. rewrite decide_True by lia. done.
      - rewrite (decide_False _ _ (P := i = m /\ _)) by lia. rewrite Hother by done. done. }
    assert (take n l !! i = Some x) as Hxi by (rewrite lookup_take, decide_True by lia; done).
    rewrite (insert_take_drop _ _ _ (lookup_lt_Some _ _ _ Hxi)).
    rewrite (delete_Permutation _ _ _ Hxi) at 1. rewrite delete_take_drop.
    simpl. f_equiv. rewrite <-app_assoc. f_equiv. by rewrite Permutation_app_comm.
Qed.

Lemma remove_semaphore_safe k s i d :
  srv k s -> live_ds i d s ->
  wp (remove_semaphore i) (fun _ s' => srv k s') never s.
Proof.
  intros Hs [Hi Hd]. unfold remove_semaphore. apply wp_bind, (get_sem_safe k); [done|done|].
  intros x Hx Hg. apply wp_bind.
  apply (wp_foreach _ _ (fun _ s' => exists l, length l = length (sems x) /\ s' = at_set s i l (sent s))).
  { exists (sems x). split; [done|]. by rewrite at_set_id. }
  { intros pre j post s' Hsplit (l & Hl & ->). apply seqZ_visit in Hsplit as [_ Hj].
    pose proof (wx_nsems _ _ (gs_wf _ _ _ Hg)).
    destruct (aget_is_Some l j) as [y Hy]; [lia|].
    eapply wp_ret_run; [by eapply (set_s_at s i x Hx)|].
    eexists. split; [|done]. by rewrite length_aupd. }
  intros s' (l & Hl & ->). wp_step. wp_step. cbn [sem_list_nr at_set upd].
  change (sem_list_nr (at_set s i l (sent s))) with (sem_list_nr s).
  replace (i <? sem_list_nr s) with true by lia.
  set (n := sem_list_nr s - 1). pose proof (sv_nr _ _ Hs). pose proof (sv_length _ _ Hs) as Hlen.
  destruct (aget_is_Some (sem_list s) n) as [last Hlast]; [lia|].
  set (s1 := at_set s i l (sent s) <| sem_list_nr := n |>).
  assert (forall s2 : state W, length (sem_list s2) = length (sem_list s) ->
    (forall m, m <> Z.to_nat i -> sem_list s2 !! m = sem_list s !! m) ->
    (sem_list s2 !! Z.to_nat i = Some last \/ i = n) ->
    s2 = s1 <| sem_list := sem_list s2 |> -> srv k s2) as Hfin.
  { intros s2 Hlen2 Hother Hii Heq.
    assert (live_sets s ≡ₚ x :: live_sets s2) as Hp.
    { unfold live_sets. replace (Z.to_nat (sem_list_nr s)) with (S (Z.to_nat n)) by lia.
      rewrite Heq at 1. cbn [sem_list_nr s1 upd at_set].
      apply (swap_out _ _ (Z.to_nat i) _ last).
      - by apply aget_Some in Hx as [_ ?].
      - by apply aget_Some in Hlast as [_ ?].
      - lia.
      - done.
      - done.
      - destruct Hii as [|Hii]; [by left|right; lia]. }
    destruct Hs as [? ? Hsets Hids [? ? ?] ?]. rewrite Hp in Hsets, Hids.
    apply list.Forall_cons in Hsets as [_ Hsets]. rewrite fmap_cons in Hids.
    apply list.NoDup_cons in Hids as [_ Hids].
    constructor; [rewrite Heq; simpl; lia|by rewrite Hlen2|rewrite Heq in Hsets |- *; exact Hsets|done
      |rewrite Heq; by constructor|by rewrite Heq]. }
  wp_go. fold n. fold s1.
  destruct (n =? i) eqn:En; cbn [negb].
  - wp_go. apply Hfin; [by simpl; rewrite length_aupd| |right; lia|done].
    intros m Hm. simpl. rewrite <-!aget_nat, aget_aupd_ne by lia. done.
  - assert (aget (sem_list s1) n = Some last) as Hl1.
    { simpl. by rewrite aget_aupd_ne by lia. }
    eapply wp_bind_run; [by apply get_sem_run|].
    eapply wp_ret_run; [eapply (set_sem_run _ _ (x <| sems := l |>)); simpl; by rewrite aget_aupd_eq, Hx|].
    apply Hfin; [by simpl; rewrite !length_aupd| | |done].
    + intros m Hm. simpl. rewrite <-!aget_nat, !aget_aupd_ne by lia. done.
    + left. simpl. rewrite <-aget_nat, Z2Nat.id by lia. by rewrite !aget_aupd_eq, Hx.
Qed.
End rmid.

Section calls_safe.
Context `{MinixHeaders} `{IpcHeaders} `{!IpcHeaderLaws} {W : Type} `{IpcEnv W} `{!IpcEnvLaws W}.
Hypothesis memory : forall n w, (realloc n w).1 = true.
Implicit Types (s : state W) (d : semid_ds) (i : Z).

Lemma is_owner_run p s :
  is_owner p s = Ret ((getnuid (who_e s) (world s) =? cuid p) ||
    (getnuid (who_e s) (world s) =? uid p) || (getnuid (who_e s) (world s) =? 0)) s.
Proof. done. Qed.

Lemma semctl_rmid_safe k s i d :
  srv k s -> live_ds i d s -> wp (semctl_rmid i) (fun _ s' => srv k s') never s.
Proof.
  intros Hs Hd. unfold semctl_rmid. apply wp_bind, (get_sem_safe k); [done|apply Hd|].
  intros x Hx Hg. assert (sem_ds x = d) as Hds by
    (destruct Hd as [_ Hd']; rewrite Hx in Hd'; by injection Hd').
  eapply wp_bind_run; [apply is_owner_run|]. destruct (negb _); [by wp_go|].
  apply wp_bind. unfold update_one_semaphore.
  apply wp_bind, (get_sem_safe k); [done|apply Hd|]. intros x' Hx' _. simplify_eq.
  apply wp_bind. apply (wp_foreach _ _ (fun _ s' => srv k s' /\ live_ds i (sem_ds x) s')); [done| |].
  - intros pre j post s' Hsplit [Hs' Hd']. apply seqZ_visit in Hsplit as [_ Hj].
    by apply tell_removed_safe.
  - intros s' [Hs' Hd']. eapply wp_mono; [by apply (remove_semaphore_safe k s' i (sem_ds x))| |done].
    intros [] s2 Hs2. by wp_go.
Qed.

Lemma semctl_set_safe k s i opt d :
  srv k s -> live_ds i d s -> wp (semctl_set i opt) (fun _ s' => srv k s') never s.
Proof.
  intros Hs Hd. unfold semctl_set. apply wp_bind, (get_sem_safe k); [done|apply Hd|].
  intros x Hx Hg. eapply wp_bind_run; [apply is_owner_run|]. destruct (negb _); [by wp_go|].
  unfold caller, ask. wp_go. destruct (copy_semid _ _ _) as [tmp|]; [|by wp_go].
  apply wp_bind. eapply wp_mono; [by apply (set_semds_safe k s i d)| |done].
  intros [] s1 [Hs1 Hd1]. apply wp_bind.
  eapply wp_mono; [by eapply (set_ctime_safe k s1 i)| |done]. intros [] s2 [Hs2 _]. by wp_go.
Qed.

Lemma semctl_stat_safe k s i opt d :
  srv k s -> live_ds i d s -> wp (semctl_stat i opt) (fun _ s' => srv k s') never s.
Proof.
  intros Hs Hd. unfold semctl_stat. apply wp_bind, (get_sem_safe k); [done|apply Hd|].
  intros x Hx _. destruct (_ =? 0); [by wp_go|]. unfold caller. wp_go.
  eapply wp_mono; [by apply (wp_env k)| |done]. intros ok s1 Hs1. by wp_go.
Qed.

Lemma do_semctl_safe k s id num cmd opt :
  srv k s -> k < 2 ^ 16 -> wp (do_semctl id num cmd opt) (fun _ s' => srv k s') never s.
Proof.
  intros Hs Hk. unfold do_semctl, sem_find_id. apply wp_bind, (find_sem_safe k); [done|].
  intros [i|] Hi; [|by wp_go].
  apply wp_bind, (get_sem_safe k); [done|done|]. intros x Hx Hg.
  pose proof (live_ds_get i s x Hx Hi) as Hd. apply wp_bind.
  assert (forall b : bool, wp (if negb b then mret EACCES else
      if cmd =? IPC_STAT then semctl_stat i opt else
      if cmd =? IPC_SET then semctl_set i opt else
      if cmd =? IPC_RMID then semctl_rmid i else
      if (cmd =? IPC_INFO) || (cmd =? SEM_INFO) || (cmd =? SEM_STAT) then mret OK else
      if cmd =? GETALL then semctl_getall i opt else
      if cmd =? GETNCNT then sem_field i num semncnt else
      if cmd =? GETPID then sem_field i num sempid else
      if cmd =? GETVAL then sem_field i num semval else
      if cmd =? GETZCNT then sem_field i num semzcnt else
      if cmd =? SETALL then semctl_setall i opt else
      if cmd =? SETVAL then semctl_setval i num opt else
      mret EINVAL) (fun _ s' => srv k s') never s) as Hall.
  { intros b.
    repeat match goal with |- wp (if ?c then _ else _) _ _ _ => destruct c end;
      first [by wp_go | by eapply semctl_stat_safe | by eapply semctl_set_safe
            | by eapply semctl_rmid_safe | by eapply semctl_getall_safe | by eapply sem_field_safe
            | by eapply semctl_setall_safe | by eapply semctl_setval_safe]. }
  destruct (negb _ && negb _); [eapply wp_ret_run; [apply may_run|]|apply wp_ret]; apply Hall.
Qed.

(** semop *)
Lemma nowait_safe k s i d ops :
  srv k s -> live_ds i d s -> bad_number (sem_nsems d) ops = false ->
  wp (nowait_fails i ops) (fun _ s' => s' = s) never s.
Proof.
  intros Hs Hd Hb. unfold nowait_fails. apply wp_bind.
  apply (wp_for _ _ (fun _ s' => s' = s)); [done| |intros s' ->; by wp_go].
  intros pre o post s' Hsplit ->. apply wp_bind, (get_s_safe k _ _ d); [done|done| |].
  - apply (bad_number_false _ ops); [done|]. subst ops. apply elem_of_app. right. by left.
  - intros x y _ _ _. wp_go. by case_match; wp_go.
Qed.

Lemma semop_run_safe k s i x ops :
  srv k s -> k + 1 < 2 ^ 16 -> aget (sem_list s) i = Some x -> i < sem_list_nr s ->
  bad_number (sem_nsems (sem_ds x)) ops = false -> duplicate ops = false ->
  Forall (fun o => sem_op o <> 0) ops ->
  wp (semop_run i ops false) (fun _ s' => srv (k + 1) s') never s.
Proof.
  intros Hs Hk Hx Hi Hb Hd Hnz. pose proof (aget_range _ _ _ Hx).
  pose proof (srv_set _ _ _ _ Hs Hx Hi) as Hg.
  destruct (check_perm (sem_perm (sem_ds x)) (who_e s) (oct 2 2 2) (world s)) eqn:Hperm.
  - destruct (semop_run_spec memory ops k s i x (sems x) (sent s) false)
      as (l' & w' & Hrun & _ & Hlen & Hl'); [done|done|by apply duplicate_false| |done|].
    { intros op Hop. split; [by apply (Forall_elem _ _ _ Hnz)|].
      apply (sem_in_set k x); [apply Hg|]. by apply (bad_number_false _ ops). }
    rewrite at_set_id in Hrun by done. eapply wp_ret_run; [exact Hrun|].
    apply (srv_at_set _ (s <| world := w' |>) _ x); [|done|done|done|].
    { apply srv_world. apply (srv_mono k); [done|lia]. }
    apply list.Forall_forall. intros y' (j & Hj & Hy')%elem_aget.
    destruct (aget_is_Some (sems x) j) as [y Hy]; [rewrite <-Hlen; by eapply aget_range|].
    destruct (Hl' j y Hy) as (y2 & Hy2 & _ & Hz & Hw & _). simplify_eq.
    assert (calm k y) as [Hc1 Hc2].
    { apply (Forall_elem _ _ _ (set_calm _ _ _ Hg)), (aget_take _ _ j); [lia|done]. }
    split; [by apply Hw|congruence].
  - destruct ops as [|op ops]; [wp_go; apply (srv_mono k); [done|lia]|].
    apply list.Forall_cons in Hnz as [Hn _]. cbn [semop_run]. unfold caller, ask. wp_go.
    destruct (sem_in_set k x (sem_num op)) as (y & Hy & _);
      [apply Hg|apply (bad_number_false _ (op :: ops)); [done|by left]|].
    set (f := fun y => y <| sempid := getnpid (who_e s) (world s) |>).
    set (s1 := at_set s i (aupd (sem_num op) f (sems x)) (sent s)).
    assert (set_s i (sem_num op) f s = Ret tt s1) as Hset.
    { rewrite <-(at_set_id s i x Hx) at 1. by apply (set_s_at s i x Hx _ _ _ y). }
    eapply wp_ret_run; [exact Hset|].
    eapply wp_bind_run; [by apply (get_sem_at s i x Hx)|]. cbn [sem_ds upd].
    assert (srv (k + 1) s1) as Hs1.
    { apply (srv_mono k); [|lia]. apply (srv_at_set _ _ _ x); [done|done|done|apply length_aupd|].
      apply list.Forall_forall. intros y' (j & Hj & Hy')%elem_aget. rewrite aget_aupd in Hy'.
      assert (forall y0, aget (sems x) j = Some y0 -> calm k y0) as Hc.
      { intros y0 Hy0. apply (Forall_elem _ _ _ (set_calm _ _ _ Hg)), (aget_take _ _ j); [lia|done]. }
      case_decide; [|by apply Hc]. destruct (aget (sems x) j) as [y0|]; [|done]. simplify_eq/=.
      destruct (Hc y0 eq_refl) as [[] ?]. split; [by constructor|done]. }
    assert (may (sem_perm (sem_ds x)) (oct 2 2 2) s1 = Ret false s1) as Hmay.
    { rewrite may_run. f_equal. exact Hperm. }
    rewrite (proj2 (Z.eqb_neq _ _) Hn). destruct (0 <? sem_op op);
      (eapply wp_bind_run; [exact Hmay|]); by wp_go.
Qed.
End calls_safe.

(** What a message may ask for: no semaphore operation waits for zero, and a segment is
    not so large that its rounding overflows. *)
Definition safe_request `{IpcHeaders} {W : Type} `{IpcEnv W} (e : Z) (r : request) : Prop :=
  match r with
  | IPC_SEMOP id addr size => forall w ops,
      copy_sops e addr (u32 size) w = Some ops -> Forall (fun o => sem_op o <> 0) ops
  | IPC_SHMGET key size flg => size + I386_PAGE_SIZE <= 2 ^ 31
  | _ => True
  end.

Section steps.
Context `{MinixHeaders} `{IpcHeaders} `{!IpcHeaderLaws} {W : Type} `{IpcEnv W} `{!IpcEnvLaws W}.
Hypothesis memory : forall n w, (realloc n w).1 = true.
Implicit Types (s : state W) (d : semid_ds) (i : Z).

Lemma do_semop_safe k s id addr size :
  srv k s -> k + 1 < 2 ^ 16 -> safe_request (who_e s) (IPC_SEMOP id addr size) ->
  wp (do_semop id addr size) (fun _ s' => srv (k + 1) s') never s.
Proof.
  intros Hs Hk Hsafe. assert (srv (k + 1) s) as Hs1 by (apply (srv_mono k); [done|lia]).
  unfold do_semop. apply wp_bind.
  assert (wp (semop_result id addr (u32 size)) (fun _ s' => srv (k + 1) s') never s) as Hres.
  { unfold semop_result, sem_find_id. apply wp_bind, (find_sem_safe k); [done|].
    intros [i|] Hi; [|by wp_go]. destruct (_ =? 0); [by wp_go|]. destruct (_ <? _); [by wp_go|].
    apply wp_bind, (get_sem_safe k); [done|done|]. intros x Hx Hg.
    eapply wp_bind_run; [apply may_run|]. destruct (negb _); [by wp_go|]. apply wp_bind.
    unfold env. wp_step. wp_step. destruct (malloc _ _) as [ok w]. wp_go.
    destruct ok; cbn [negb]; [|wp_go; by apply srv_world]. unfold caller, ask. wp_go.
    destruct (copy_sops _ _ _ _) as [ops|] eqn:Eops; [|wp_go; by apply srv_world].
    set (s1 := s <| world := w |>) in *.
    unfold semop_checked. apply wp_bind. eapply wp_ret_run; [by apply (get_sem_run s1)|].
    destruct (bad_number _ _) eqn:Eb; [wp_go; by apply srv_world|].
    destruct (duplicate _) eqn:Ed; [wp_go; by apply srv_world|].
    apply wp_bind. eapply wp_mono; [apply (nowait_safe k s1 i (sem_ds x)); [by apply srv_world| |done]| |done].
    { by apply live_ds_get. }
    intros [] s' ->; [wp_go; by apply srv_world|].
    apply (semop_run_safe memory k s1 i x); try done; [by apply srv_world|apply Hi|].
    by apply (Hsafe w). }
  eapply wp_mono; [exact Hres| |done]. intros [r no_reply] s' Hs'. apply wp_bind.
  assert (forall s', srv (k + 1) s' ->
    wp update_semaphores (fun _ s' => wp (mret OK) (fun _ s' => srv (k + 1) s') never s') never s')
    as Hup.
  { intros s2 Hs2. eapply wp_mono; [by apply (update_semaphores_safe (k + 1))| |done].
    intros [] s3 Hs3. by wp_go. }
  destruct (_ || _); unfold caller, sendnb; wp_go; apply Hup; [by apply srv_sent|done].
Qed.

Lemma notify_safe k s :
  srv k s -> k < 2 ^ 16 -> wp sem_process_vm_notify (fun _ s' => srv k s') never s.
Proof.
  intros Hs Hk. unfold sem_process_vm_notify. wp_step. wp_step.
  apply (wp_while _ _ (fun n s' => srv k s' /\ (exits_pending (world s') <= n)%nat) _ _ (exits_pending (world s)));
    [|done|lia].
  intros n s' [Hs' Hn]. apply wp_bind. unfold env. wp_step. wp_step.
  destruct (vm_query_exit (world s')) as [[r pt] w] eqn:Eq. wp_go.
  destruct (r <? 0) eqn:Er; [wp_go; by apply srv_world|].
  set (s1 := s' <| world := w |>). assert (srv k s1) as Hs1 by by apply srv_world.
  apply wp_bind. eapply wp_ret_run; [by apply (remove_process_run k); [apply srv_sems|]|].
  pose proof (srv_map_sets (rmv pt) k s1 (rmv_calm k pt) Hs1). wp_go.
  destruct (r =? 0) eqn:Er0; [done|]. exists (exits_pending w).
  pose proof (query_exit_pending _ _ _ _ Eq ltac:(lia)). split; [lia|]. split; [done|].
  simpl. lia.
Qed.

(** Shared memory *)
Definition shm_step (s s' : state W) : Prop :=
  s' = s <| shm_list := shm_list s' |> <| shm_list_nr := shm_list_nr s' |> <| m_ret := m_ret s' |>
         <| world := world s' |>.

Lemma srv_shm k s l nr :
  srv k s -> wf_shm (s <| shm_list := l |> <| shm_list_nr := nr |>) ->
  srv k (s <| shm_list := l |> <| shm_list_nr := nr |>).
Proof. intros [] Hw. by constructor. Qed.

Lemma wf_shm_update s i x f :
  wf_shm s -> aget (shm_list s) i = Some x -> 0 <= i < shm_list_nr s ->
  shm_segsz (shm_ds (f x)) = shm_segsz (shm_ds x) ->
  wf_shm (s <| shm_list := aupd i f (shm_list s) |>).
Proof.
  intros [Hl Hn Hf] Hx Hi Hfx. constructor; [by simpl; rewrite length_aupd|done|].
  unfold live_shm in *. simpl. apply list.Forall_forall. intros y (j & Hj & Hy)%elem_aget.
  rewrite aget_aupd in Hy.
  assert (forall z, aget (shm_list s) j = Some z -> wf_seg z) as Hz.
  { intros z Hz. apply (Forall_elem _ _ _ Hf), (aget_take _ _ j); [lia|done]. }
  case_decide as Hij; [|by apply Hz]. subst j. rewrite Hx in Hy. simplify_eq/=.
  unfold wf_seg. rewrite Hfx. by apply Hz.
Qed.

Lemma set_shm_safe k s i f :
  srv k s -> 0 <= i < shm_list_nr s -> (forall x, shm_segsz (shm_ds (f x)) = shm_segsz (shm_ds x)) ->
  wp (set_shm i f) (fun _ s' => srv k s' /\ shm_list_nr s' = shm_list_nr s) never s.
Proof.
  intros Hs Hi Hf. pose proof (wh_length _ (sv_shm _ _ Hs)). pose proof (wh_nr _ (sv_shm _ _ Hs)).
  destruct (aget_is_Some (shm_list s) i) as [x Hx]; [lia|].
  eapply wp_ret_run; [by apply (set_shm_run _ _ x)|]. split; [|done].
  destruct Hs as [? ? ? ? Hw ?]. constructor; try done. by apply (wf_shm_update _ _ x).
Qed.

Lemma get_shm_safe k s i (Q : shm_struct -> state W -> Prop) :
  srv k s -> 0 <= i < shm_list_nr s -> (forall x, wf_seg x -> Q x s) -> wp (get_shm i) Q never s.
Proof.
  intros Hs Hi HQ. pose proof (wh_length _ (sv_shm _ _ Hs)). pose proof (wh_nr _ (sv_shm _ _ Hs)).
  destruct (aget_is_Some (shm_list s) i) as [x Hx]; [lia|].
  eapply wp_ret_run; [by apply (get_shm_run _ _ x)|]. apply HQ.
  apply (Forall_elem _ _ _ (wh_live _ (sv_shm _ _ Hs))), (aget_take _ _ i); [lia|done].
Qed.

Lemma find_shm_safe k s p (Q : option Z -> state W -> Prop) :
  srv k s -> (forall r, match r with Some i => 0 <= i < shm_list_nr s | None => True end -> Q r s) ->
  wp (find_shm p) Q never s.
Proof.
  intros Hs HQ. unfold find_shm. wp_step. wp_step.
  apply (wp_for _ _ (fun _ s' => s' = s)); [done| |intros s' ->; by apply HQ].
  intros pre i post s' Hsplit ->. apply seqZ_visit in Hsplit as [_ Hi].
  apply wp_bind, (get_shm_safe k); [done|done|]. intros x _. wp_go. destruct (p x); [|done]. by apply (HQ (Some i)).
Qed.
End steps.

Section shm_safe.
Context `{MinixHeaders} `{IpcHeaders} `{!IpcHeaderLaws} {W : Type} `{IpcEnv W} `{!IpcEnvLaws W}.
Hypothesis memory : forall n w, (realloc n w).1 = true.
Implicit Types (s : state W) (i : Z).

Lemma set_shmds_safe k s i f :
  srv k s -> 0 <= i < shm_list_nr s -> (forall d, shm_segsz (f d) = shm_segsz d) ->
  wp (set_shmds i f) (fun _ s' => srv k s' /\ shm_list_nr s' = shm_list_nr s) never s.
Proof. intros Hs Hi Hf. apply set_shm_safe; [done|done|]. intros x. apply Hf. Qed.

Lemma env_shm k s A (f : W -> A * W) n :
  srv k s -> shm_list_nr s = n ->
  wp (env f) (fun _ s' => srv k s' /\ shm_list_nr s' = n) never s.
Proof.
  intros Hs Hn. unfold env. wp_step. wp_step. destruct (f (world s)) as [a w].
  wp_go. split; [by apply srv_world|done].
Qed.

(** A slot that is not live may hold anything. *)
Lemma set_dead_shm k s f :
  srv k s -> shm_list_nr s < MAX_SHM_NR ->
  wp (set_shm (shm_list_nr s) f) (fun _ s' => srv k s' /\
    s' = s <| shm_list := aupd (shm_list_nr s) f (shm_list s) |>) never s.
Proof.
  intros Hs Hn. pose proof (wh_length _ (sv_shm _ _ Hs)) as Hl. pose proof (wh_nr _ (sv_shm _ _ Hs)).
  destruct (aget_is_Some (shm_list s) (shm_list_nr s)) as [x Hx]; [lia|].
  eapply wp_ret_run; [by apply (set_shm_run _ _ x)|]. split; [|done].
  destruct Hs as [? ? ? ? [? ? Hf] ?]. constructor; try done. constructor; [by simpl; rewrite length_aupd|done|].
  unfold live_shm in *. simpl. apply list.Forall_forall. intros y (j & Hj & Hy)%elem_aget.
  rewrite aget_aupd_ne in Hy by lia. apply (Forall_elem _ _ _ Hf), (aget_take _ _ j); [lia|done].
Qed.

Lemma srv_new_seg k s x :
  srv k s -> shm_list_nr s < MAX_SHM_NR -> wf_seg x ->
  srv k (s <| shm_list := aupd (shm_list_nr s) (fun _ => x) (shm_list s) |>
           <| shm_list_nr := shm_list_nr s + 1 |>).
Proof.
  intros [? ? ? ? [Hl Hn Hf] ?] Hlt Hx. constructor; try done.
  constructor; [by simpl; rewrite length_aupd|simpl; lia|].
  unfold live_shm in *. apply list.Forall_forall. intros y (j & Hj & Hy)%elem_aget.
  simpl in Hj, Hy. destruct (decide (j = shm_list_nr s)) as [->|Hne].
  - rewrite aget_aupd_eq in Hy. destruct (aget _ _); by simplify_eq/=.
  - rewrite aget_aupd_ne in Hy by done. apply (Forall_elem _ _ _ Hf), (aget_take _ _ j); [lia|done].
Qed.

Lemma do_shmget_safe k s key size flg :
  srv k s -> k + 1 < 2 ^ 16 -> size + I386_PAGE_SIZE <= 2 ^ 31 ->
  wp (do_shmget key size flg) (fun _ s' => srv (k + 1) s') never s.
Proof.
  intros Hs Hk Hsz. assert (srv (k + 1) s) as Hs1 by (apply (srv_mono k); [done|lia]).
  unfold do_shmget. apply wp_bind.
  assert (forall Q : option Z -> state W -> Prop,
    (forall r, match r with Some i => 0 <= i < shm_list_nr s | None => True end -> Q r s) ->
    wp (shm_find_key key) Q never s) as Hfind.
  { intros Q HQ. unfold shm_find_key. destruct (_ =? _); [apply wp_ret; by apply HQ|].
    by apply (find_shm_safe k). }
  apply Hfind. intros [i|] Hi.
  - apply wp_bind, (get_shm_safe (k + 1)); [done|done|]. intros x _.
    safe_go; try done. by apply srv_ret.
  - destruct (negb _); [by wp_go|]. destruct (size <=? 0) eqn:E0; [by wp_go|].
    eapply wp_bind_run; [apply page_up_run; [lia|done]|].
    cbn beta. destruct (rounded size <=? 0); [by wp_go|]. wp_step. wp_step. cbn beta.
    destruct (_ =? MAX_SHM_NR) eqn:En; [by wp_go|]. wp_step. wp_step. cbn beta.
    destruct (_ =? SHMMNI); [by wp_go|]. apply wp_bind.
    pose proof (wh_nr _ (sv_shm _ _ Hs)).
    eapply wp_mono; [apply (set_dead_shm k s); [done|lia]| |done]. intros [] s1 [Hsr1 Heq].
    assert (shm_list_nr s1 = shm_list_nr s) as Hnr by by rewrite Heq.
    apply wp_bind. eapply wp_mono; [by apply (env_shm k s1 _ _ (shm_list_nr s))| |done].
    intros [pg|] s2 [Hs2 Hnr2]; [|wp_go; apply (srv_mono k); [done|lia]].
    unfold caller, ask, tell. wp_go. unfold env. wp_go. destruct (time _) as [now w]. wp_go.
    match goal with |- wp next_identifier _ _ ?st => set (s3 := st) end.
    assert (srv k s3) as Hs3 by (apply srv_world, srv_world; done).
    apply (next_identifier_safe k); [done|lia|].
    pose proof (srv_ident_up k s3 Hs3) as Hs4. set (s4 := s3 <| identifier := _ |>) in *.
    assert (shm_list_nr s4 = shm_list_nr s) as Hnr4 by done.
    rewrite <-Hnr4. apply wp_bind.
    eapply wp_mono; [apply (set_dead_shm (k + 1) s4); [done|lia]| |done].
    intros [] s5 [Hs5 Heq5]. unfold set_ret. wp_go. apply srv_ret. rewrite Heq5.
    apply srv_new_seg; [done|lia|]. unfold wf_seg. simpl. lia.
Qed.

Lemma do_shmat_safe k s id addr flg :
  srv k s -> wp (do_shmat id addr flg) (fun _ s' => srv k s') never s.
Proof.
  intros Hs. unfold do_shmat. destruct (_ && _); [by wp_go|]. apply wp_bind.
  apply (find_shm_safe k); [done|]. intros [i|] Hi; [|by wp_go].
  apply wp_bind, (get_shm_safe k); [done|done|]. intros x _.
  eapply wp_bind_run; [apply may_run|]. destruct (negb _); [by wp_go|].
  unfold caller, ask. wp_go. eapply wp_mono; [by apply (env_shm k s)| |done].
  intros [a|] s1 [Hs1 Hn1]; [|by wp_go]. apply wp_bind.
  eapply wp_mono; [by apply (env_shm k s1)| |done]. intros now s2 [Hs2 Hn2]. apply wp_bind.
  eapply wp_mono; [apply (set_shmds_safe k s2); [done|lia|done]| |done]. intros [] s3 [Hs3 Hn3].
  wp_go. eapply wp_mono; [apply (set_shmds_safe k s3); [done|lia|done]| |done].
  intros [] s4 [Hs4 _]. unfold set_ret. wp_go. by apply srv_ret.
Qed.

Lemma do_shmdt_safe k s addr : srv k s -> wp (do_shmdt addr) (fun _ s' => srv k s') never s.
Proof.
  intros Hs. unfold do_shmdt, caller, ask, tell. wp_go. destruct (_ =? 0); [by wp_go|]. wp_go.
  apply (wp_for _ _ (fun _ s' => srv k s' /\ shm_list_nr s' = shm_list_nr s)); [done| |].
  - intros pre i post s1 Hsplit [Hs1 Hn1]. apply seqZ_visit in Hsplit as [_ Hi].
    apply wp_bind, (get_shm_safe k); [done|lia|]. intros x _. destruct (_ =? _); [|by wp_go].
    apply wp_bind. eapply wp_mono; [by apply (env_shm k s1)| |done]. intros now s2 [Hs2 Hn2].
    apply wp_bind. eapply wp_mono; [apply (set_shmds_safe k s2); [done|lia|done]| |done].
    intros [] s3 [Hs3 Hn3]. wp_go.
    eapply wp_mono; [apply (set_shmds_safe k s3); [done|lia|done]| |done]. intros [] s4 [Hs4 _].
    wp_go. eapply wp_mono; [by apply (update_refcount_safe k), srv_world| |done].
    intros [] s5 Hs5. by wp_go.
  - intros s1 [Hs1 _]. wp_go. eapply wp_mono; [by apply (update_refcount_safe k)| |done].
    intros [] s5 Hs5. by wp_go.
Qed.

Lemma give_safe k s buf d (Q : rc -> state W -> Prop) n :
  srv k s -> shm_list_nr s = n -> (forall r s', srv k s' -> shm_list_nr s' = n -> Q r s') ->
  wp (give buf d) Q never s.
Proof.
  intros Hs Hn HQ. unfold give, caller. wp_go. eapply wp_mono; [by apply (env_shm k s _ _ n)| |done].
  intros ok s1 [Hs1 Hn1]. wp_go. by apply HQ.
Qed.
End shm_safe.

Section shmctl_safe.
Context `{MinixHeaders} `{IpcHeaders} `{!IpcHeaderLaws} {W : Type} `{IpcEnv W} `{!IpcEnvLaws W}.
Hypothesis memory : forall n w, (realloc n w).1 = true.
Implicit Types (s : state W) (i : Z).

Lemma is_shm_owner_run p s :
  is_shm_owner p s = Ret ((getnuid (who_e s) (world s) =? cuid p) ||
    (getnuid (who_e s) (world s) =? uid p) || (getnuid (who_e s) (world s) =? 0)) s.
Proof. done. Qed.

Lemma shmctl_set_safe k s i buf :
  srv k s -> 0 <= i < shm_list_nr s -> wp (shmctl_set i buf) (fun _ s' => srv k s') never s.
Proof.
  intros Hs Hi. unfold shmctl_set. apply wp_bind, (get_shm_safe k); [done|done|]. intros x _.
  eapply wp_bind_run; [apply is_shm_owner_run|]. destruct (negb _); [by wp_go|].
  unfold caller, ask. wp_go. destruct (copy_shmid _ _ _) as [tmp|]; [|by wp_go].
  apply wp_bind. eapply wp_mono; [by apply (set_shmds_safe k s)| |done]. intros [] s1 [Hs1 Hn1].
  apply wp_bind. eapply wp_mono; [by apply (env_shm k s1)| |done]. intros now s2 [Hs2 Hn2].
  apply wp_bind. eapply wp_mono; [apply (set_shmds_safe k s2); [done|lia|done]| |done].
  intros [] s3 [Hs3 _]. by wp_go.
Qed.

Lemma shmctl_rmid_safe k s i :
  srv k s -> 0 <= i < shm_list_nr s -> wp (shmctl_rmid i) (fun _ s' => srv k s') never s.
Proof.
  intros Hs Hi. unfold shmctl_rmid. apply wp_bind, (get_shm_safe k); [done|done|]. intros x _.
  eapply wp_bind_run; [apply is_shm_owner_run|]. destruct (negb _); [by wp_go|].
  apply wp_bind. eapply wp_mono; [by apply (set_shmds_safe k s)| |done]. intros [] s1 [Hs1 _].
  apply wp_bind. eapply wp_mono; [by apply (update_refcount_safe k)| |done].
  intros [] s2 Hs2. by wp_go.
Qed.

Lemma shmctl_stat_safe k s i buf :
  srv k s -> 0 <= i < shm_list_nr s -> wp (shmctl_stat i buf) (fun _ s' => srv k s') never s.
Proof.
  intros Hs Hi. unfold shmctl_stat. destruct (_ =? 0); [by wp_go|].
  apply wp_bind, (get_shm_safe k); [done|done|]. intros x _.
  eapply wp_bind_run; [apply may_run|]. destruct (negb _); [by wp_go|].
  by apply (give_safe k s _ _ _ (shm_list_nr s)).
Qed.

Lemma highest_safe k s : srv k s ->
  wp (highest_index;; mret OK) (fun _ s' => srv k s') never s.
Proof. intros Hs. unfold highest_index, set_ret. wp_go. by apply srv_ret. Qed.

Lemma give_then k s buf d (m : M (state W) rc) :
  srv k s -> (forall s', srv k s' -> shm_list_nr s' = shm_list_nr s ->
    wp m (fun _ s' => srv k s') never s') ->
  wp (r ← give buf d; if negb (is_ok r) then mret r else m) (fun _ s' => srv k s') never s.
Proof.
  intros Hs Hm. apply wp_bind, (give_safe k s _ _ _ (shm_list_nr s)); [done|done|].
  intros r s' Hs' Hn. destruct (negb _); [by wp_go|by apply Hm].
Qed.

Lemma shmctl_info_safe k s buf :
  srv k s -> wp (shmctl_info buf) (fun _ s' => srv k s') never s.
Proof.
  intros Hs. unfold shmctl_info. destruct (_ =? 0); [by wp_go|].
  apply give_then; [done|]. intros s' Hs' _. by apply highest_safe.
Qed.

Lemma shmctl_shm_info_safe k s buf :
  srv k s -> wp (shmctl_shm_info buf) (fun _ s' => srv k s') never s.
Proof.
  intros Hs. unfold shmctl_shm_info. destruct (_ =? 0); [by wp_go|]. wp_step. wp_step. apply wp_bind.
  apply (wp_fold _ _ _ (fun _ _ s' => s' = s)); [done| |].
  - intros pre i post tot s' Hsplit ->. apply seqZ_visit in Hsplit as [_ Hi].
    apply wp_bind, (get_shm_safe k); [done|done|]. intros x _. by wp_go.
  - intros tot s' ->. apply give_then; [done|]. intros s' Hs' _. by apply highest_safe.
Qed.

Lemma shmctl_shm_stat_safe k s id buf :
  srv k s -> wp (shmctl_shm_stat id buf) (fun _ s' => srv k s') never s.
Proof.
  intros Hs. unfold shmctl_shm_stat. wp_step. wp_step.
  destruct ((id <? 0) || _) eqn:E; [by wp_go|].
  apply wp_bind, (get_shm_safe k); [done|lia|]. intros x _.
  apply give_then; [done|]. intros s' Hs' _. unfold set_ret. wp_go. by apply srv_ret.
Qed.

Lemma do_shmctl_safe k s id cmd buf :
  srv k s -> wp (do_shmctl id cmd buf) (fun _ s' => srv k s') never s.
Proof.
  intros Hs. unfold do_shmctl. apply wp_bind.
  eapply (wp_mono _ (fun _ s' => srv k s') _ never).
  { destruct (_ =? _); [by apply update_refcount_safe|by apply wp_ret]. }
  2: done.
  intros [] s1 Hs1. apply wp_bind.
  destruct ((cmd =? IPC_STAT) || (cmd =? IPC_SET) || (cmd =? IPC_RMID)) eqn:Ec.
  - unfold shm_find_id. apply (find_shm_safe k); [done|]. intros [i|] Hi; [|by wp_go].
    destruct (cmd =? IPC_STAT); [by apply shmctl_stat_safe|].
    destruct (cmd =? IPC_SET); [by apply shmctl_set_safe|].
    destruct (cmd =? IPC_RMID); [by apply shmctl_rmid_safe|done].
  - apply orb_false_iff in Ec as [[-> ->]%orb_false_iff ->]. wp_go.
    destruct (_ =? _); [by apply shmctl_info_safe|].
    destruct (_ =? _); [by apply shmctl_shm_info_safe|].
    destruct (_ =? _); [by apply shmctl_shm_stat_safe|by wp_go].
Qed.

Lemma step_safe k s e r :
  srv k s -> 0 <= k -> k + 1 < 2 ^ 16 -> safe_request e r ->
  wp (main_step e r) (fun _ s' => srv (k + 1) s') never s.
Proof.
  intros Hs Hk0 Hk Hr. unfold main_step. apply wp_bind, wp_modify.
  set (s0 := s <| who_e := e |> <| m_ret := None |>).
  assert (srv k s0) as Hs0 by by apply srv_ret, srv_who.
  assert (forall (m : M (state W) rc), wp m (fun _ s' => srv k s') never s0 ->
    wp m (fun _ s' => srv (k + 1) s') never s0) as Hup.
  { intros m Hm. eapply wp_mono; [exact Hm| |done]. intros a s' Hs'. apply (srv_mono k); [done|lia]. }
  assert (forall s', srv (k + 1) s' ->
    wp update_refcount_and_destroy (fun _ s' => srv (k + 1) s') never s') as Hend
    by (intros s' Hs'; by apply update_refcount_safe).
  assert (forall s' result, srv (k + 1) s' ->
    wp (v ← gets m_ret; sendnb (mk_packet e result v))
      (fun _ s' => wp update_refcount_and_destroy (fun _ s' => srv (k + 1) s') never s') never s')
    as Hreply.
  { intros s' result Hs'. unfold sendnb. wp_go. by apply Hend, srv_sent. }
  assert (forall (m : M (state W) rc), wp m (fun _ s' => srv (k + 1) s') never s0 ->
    wp ((result ← m; v ← gets m_ret; sendnb (mk_packet e result v));; update_refcount_and_destroy)
      (fun _ s' => srv (k + 1) s') never s0) as Hcall.
  { intros m Hm. apply wp_bind, wp_bind. eapply wp_mono; [exact Hm| |done].
    intros result s' Hs'. by apply Hreply. }
  destruct r; cbn [dispatch].
  - apply Hcall. by apply do_shmget_safe.
  - by apply Hcall, Hup, do_shmat_safe.
  - by apply Hcall, Hup, do_shmdt_safe.
  - by apply Hcall, Hup, do_shmctl_safe.
  - by apply Hcall, do_semget_safe.
  - apply Hcall, Hup, do_semctl_safe; [done|lia].
  - apply wp_bind, wp_bind. eapply wp_mono; [by apply (do_semop_safe memory k s0)| |done].
    intros result s' Hs'. apply wp_ret. by apply Hend.
  - destruct (_ =? _); [|apply wp_ret; apply (srv_mono k); [done|lia]].
    eapply wp_mono; [apply (notify_safe k); [done|lia]| |done].
    intros [] s' Hs'. apply (srv_mono k); [done|lia].
  - apply wp_bind, wp_ret. apply Hend. apply (srv_mono k); [done|lia].
Qed.

Lemma srv_init self w : srv 0 (sef_cb_init_fresh self w : state W).
Proof.
  pose proof SEMMNI_nonneg. constructor; try done.
  - simpl. rewrite length_replicate. lia.
  - apply NoDup_nil_2.
Qed.
End shmctl_safe.


(** ** Examples *)
Module Demo.
Import IpcBase.Demo.
#[local] Existing Instances demo_headers ipc_headers ipc_header_laws.

(** User memory: adding 3 units, taking 2, taking 1. *)
Definition table : list sembuf := [mk_sembuf 0 3 0; mk_sembuf 0 (-2) 0; mk_sembuf 0 (-1) 0].
#[local] Instance env_fixed : IpcEnv W := env_with (fun _ => table).
#[local] Instance env_fixed_laws : IpcEnvLaws W := env_with_laws _.
Definition w0 : W := mk_W 0 [6; 7] [] (<[8192 := 1]> ∅).

(** Process 5 creates a set, 6 and 7 wait for two units, 5 adds three, 7 exits; then 5
    creates a segment and removes both. *)
Definition messages : list (Z * request) :=
  [(5, IPC_SEMGET 7 2 (512 + oct 6 6 6)); (6, IPC_SEMOP 0x1234 1 1); (7, IPC_SEMOP 0x1234 1 1);
   (5, IPC_SEMOP 0x1234 0 1); (8, NOTIFY_MESSAGE); (5, IPC_SHMGET 9 5000 (512 + oct 6 0 0));
   (5, IPC_SHMCTL 0x1235 0 0); (5, IPC_SEMCTL 0x1234 0 0 0)].

Lemma table_nonzero e a n (w : W) ops :
  copy_sops e a n w = Some ops -> Forall (fun o => sem_op o <> 0) ops.
Proof.
  simpl. case_bool_decide; [|done]. intros [= <-].
  apply Forall_take, Forall_drop. by repeat constructor.
Qed.


(** The replies of that run: 6 has its two units, 7 was told that it is interrupted. *)
Example messages_replies :
  match main_loop messages (sef_cb_init_fresh 1 w0) with
  | Ret _ s' => (fun p => (to p, m_type p, ret_val p)) <$> sent s'
  | Halt _ _ => []
  end = [(5, OK, Some 0x1234); (5, OK, None); (6, OK, None); (7, EINTR, None);
         (5, OK, Some 0x1235); (5, OK, None); (5, OK, None)].
Proof. vm_compute. reflexivity. Qed.
End Demo.

Module ZeroDemo.
Import IpcBase.Demo.
#[local] Existing Instances demo_headers ipc_headers ipc_header_laws ipc_env ipc_env_laws.

(** Adding 1, taking 1, waiting for zero. *)
Definition w0 : W := mk_W 0 [] [mk_sembuf 0 1 0; mk_sembuf 0 (-1) 0; mk_sembuf 0 0 0] ∅.

(** Process 5 creates a set and adds a unit, 6 waits for zero, 5 takes the unit; 6 is
    woken, and the next call, of anybody, kills the server. *)
Example zero_wait_run :
  match main_loop [(5, IPC_SEMGET 7 2 (512 + oct 6 6 6)); (5, IPC_SEMOP 0x1234 0 1);
          (6, IPC_SEMOP 0x1234 2 1); (5, IPC_SEMOP 0x1234 1 1)] (sef_cb_init_fresh 1 w0) with
  | Ret _ s' =>
      match main_step 9 (IPC_SEMOP 99 0 1) s' with Halt Undef _ => true | _ => false end
  | Halt _ _ => false
  end = true.
Proof. vm_compute. reflexivity. Qed.
End ZeroDemo.
