(* ===== verification/DataStore.v ===== *)
(** The data store server, [src/Project_2/servers/ds]: entries published under a key and
    a type, subscriptions to keys, and the main loop ([main.c], [store.c], [store.h]).
    A C string is the list of its bytes without the terminating zero; a block of the
    heap is the list of its bytes; the union of an entry is an inductive type, and
    reading another member than the one written last is [Undef]. *)
From S2P Require Import Prelude Minix.
Local Open Scope Z_scope.

(** ** Headers
    [minix/ds.h], [minix/com.h] and the sizes of [store.h]. *)
Class DsHeaders := {
  DSF_IN_USE : Z; DSF_PRIV_RETRIEVE : Z; DSF_PRIV_OVERWRITE : Z; DSF_PRIV_SNAPSHOT : Z;
  DSF_PRIV_SUBSCRIBE : Z;
  DSF_TYPE_U32 : Z; DSF_TYPE_STR : Z; DSF_TYPE_MEM : Z; DSF_TYPE_MAP : Z; DSF_TYPE_LABEL : Z;
  DSF_MASK_TYPE : Z; DSF_MASK_INTERNAL : Z; DSF_OVERWRITE : Z; DSF_INITIAL : Z;
  DSMF_MAP_MAPPED : Z; DSMF_COPY_MAPPED : Z; DSMF_COPY_SNAPSHOT : Z;
  DS_MAX_KEYLEN : Z;
  CLICK_SIZE : Z;
  CLICK_CEIL : Z -> Z;
  SI_DATA_STORE : Z; SI_SUBSCRIPTION : Z;
  GRANT_VALID : Z -> bool;
}.
Definition NR_DS_KEYS `{MinixHeaders} : Z := 2 * NR_SYS_PROCS.
Definition NR_DS_SUBS `{MinixHeaders} : Z := 4 * NR_SYS_PROCS.
Definition NR_DS_SNAPSHOT : Z := 5.

(** The flags are bits of their own, those of the types are in [DSF_MASK_TYPE], and
    [DSF_MASK_INTERNAL] keeps all but the flags of a call. *)
Definition ds_types `{DsHeaders} : list Z :=
  [DSF_TYPE_U32; DSF_TYPE_STR; DSF_TYPE_MEM; DSF_TYPE_MAP; DSF_TYPE_LABEL].
Class DsHeaderLaws `{DsHeaders} : Prop := {
  ds_types_NoDup : NoDup ds_types;
  ds_types_disjoint t t' : t ∈ ds_types -> t' ∈ ds_types -> t <> t' -> Z.land t t' = 0;
  ds_types_pos : Forall (fun t => 0 < t) ds_types;
  ds_types_mask : Forall (fun t => Z.land t DSF_MASK_TYPE = t) ds_types;
  in_use_mask : Z.land DSF_IN_USE DSF_MASK_TYPE = 0;
  in_use_pos : 0 < DSF_IN_USE;
  internal_mask : Z.land DSF_MASK_INTERNAL DSF_MASK_TYPE = DSF_MASK_TYPE;
  KEYLEN_range : 5 < DS_MAX_KEYLEN < 2 ^ 31;
}.

(** ** Data *)
Inductive ptr := PNull | PBlock (bytes : list Z) | PFreed.

Inductive union :=
  | U32 (v : Z)
  | Mem (data : ptr) (len reallen : Z)
  | Map (data len : Z) (realpointer : ptr) (snapshots : list ptr) (sindex : Z).

(** What [ds_getprocname] returns, NULL apart. *)
Inductive name_ptr := PDs | PKey (i : Z).

Record data_store := mk_data_store {
  flags : Z;
  key : list Z;
  owner : list Z;
  u : union;
}.
#[export] Instance eta_data_store : Eta data_store := fun r =>
  mk_data_store (flags r) (key r) (owner r) (u r).

Record subscription (R : Type) := mk_subscription {
  s_flags : Z;
  s_owner : list Z;
  s_regex : option R;               (* None: not (successfully) compiled *)
  old_subs : list bool;             (* the bits of the bitmap *)
}.
Arguments mk_subscription {R}.
Arguments s_flags {R}.
Arguments s_owner {R}.
Arguments s_regex {R}.
Arguments old_subs {R}.
#[export] Instance eta_subscription (R : Type) : Eta (subscription R) := fun r =>
  mk_subscription (s_flags r) (s_owner r) (s_regex r) (old_subs r).

Record message := mk_message {
  m_source : Z;
  DS_FLAGS : Z;
  DS_KEY_GRANT : Z;
  DS_KEY_LEN : Z;
  DS_VAL : Z;
  DS_VAL_LEN : Z;
  DS_NR_SNAPSHOT : Z;
  DS_OWNER : Z;
  m1_i1 : Z;
  m1_p1 : Z;
}.
#[export] Instance eta_message : Eta message := fun r =>
  mk_message (m_source r) (DS_FLAGS r) (DS_KEY_GRANT r) (DS_KEY_LEN r) (DS_VAL r) (DS_VAL_LEN r)
    (DS_NR_SNAPSHOT r) (DS_OWNER r) (m1_i1 r) (m1_p1 r).

(** The type of a message received; [NOTIFY] is one that [is_notify] recognises. *)
Inductive call_nr :=
  | DS_PUBLISH | DS_RETRIEVE | DS_RETRIEVE_LABEL | DS_DELETE | DS_SUBSCRIBE | DS_CHECK
  | DS_SNAPSHOT | GETSYSINFO | NOTIFY | OTHER.

Record rprocpub := mk_rprocpub { in_use : bool; label : list Z; endpoint : Z }.

(** ** The environment *)
Class DsEnv (W R : Type) := {
  safecopyfrom : Z -> Z -> Z -> W -> rc * list Z;         (* source, grant, length *)
  safecopyto : Z -> Z -> list Z -> W -> rc * W;
  copy_tables : Z -> Z -> list data_store * list (subscription R) -> W -> rc * W;
  stack : W -> list Z;                                    (* what a local array holds *)
  malloc : Z -> W -> Z * W;                               (* 0 is NULL *)
  safemap : Z -> Z -> Z -> Z -> W -> rc * W;
  safeunmap : Z -> W -> rc * W;
  saferevmap_addr : Z -> W -> rc * W;
  mapped : Z -> Z -> W -> list Z;                         (* memory at a mapped address *)
  cpf_grant_direct : Z -> Z -> Z -> W -> Z * W;
  regcomp : list Z -> option R;
  regexec : R -> list Z -> bool;
  rproctab : W -> rc * list rprocpub;
}.
Class DsEnvLaws (W R : Type) `{DsHeaders} `{DsEnv W R} : Prop := {
  safecopyfrom_length e g n w l : safecopyfrom e g n w = (OK, l) -> Z.of_nat (length l) = n;
  stack_length w : Z.of_nat (length (stack w)) = DS_MAX_KEYLEN + 3;
  mapped_length a n w : 0 <= n -> Z.of_nat (length (mapped a n w)) = n;
}.

Record state (W R : Type) := mk_state {
  ds_store : list data_store;
  ds_subs : list (subscription R);
  msg : message;                    (* the message at hand, answered in place *)
  notified : list Z;                (* the endpoints given to notify *)
  sent : list (Z * rc * message);   (* the replies *)
  world : W;
}.
Arguments mk_state {W R}.
Arguments ds_store {W R}.
Arguments ds_subs {W R}.
Arguments msg {W R}.
Arguments notified {W R}.
Arguments sent {W R}.
Arguments world {W R}.
#[export] Instance eta_state (W R : Type) : Eta (state W R) := fun r =>
  mk_state (ds_store r) (ds_subs r) (msg r) (notified r) (sent r) (world r).

Definition flag (x f : Z) : bool := negb (Z.land x f =? 0).
(** [strcmp(a, b) == 0] *)
Definition streq (a b : list Z) : bool := bool_decide (a = b).
(** [bytes] written at the start of an array. *)
Definition overlay (bytes buf : list Z) : list Z := bytes ++ drop (length bytes) buf.

(** The strings "rs", "ds" and "$" in ASCII. *)
Definition str_rs : list Z := [114; 115].
Definition str_ds : list Z := [100; 115].
Definition str_dollar : list Z := [36].
Definition str_caret : Z := 94.

Section operations.
Context `{MinixHeaders} `{DsHeaders} {W R : Type} `{DsEnv W R}.
Abbreviation cmd := (M (state W R)).

Definition env {A} (f : W -> A * W) : cmd A :=
  s ← get; let '(a, w) := f (world s) in modify (fun s => s <| world := w |>);; mret a.
Definition ask {A} (f : W -> A) : cmd A := gets (fun s => f (world s)).
Definition m_ptr : cmd message := gets msg.
Definition set_msg (f : message -> message) : cmd unit := modify (fun s => s <| msg := f (msg s) |>).
Definition notify (ep : Z) : cmd unit := modify (fun s => s <| notified := notified s ++ [ep] |>).

(** [ds_store[i]] and [ds_subs[i]] *)
Definition get_d (i : Z) : cmd data_store := s ← get; deref (aget (ds_store s) i).
Definition set_d (i : Z) (f : data_store -> data_store) : cmd unit :=
  get_d i;; modify (fun s => s <| ds_store := aupd i f (ds_store s) |>).
Definition get_sub (i : Z) : cmd (subscription R) := s ← get; deref (aget (ds_subs s) i).
Definition set_sub (i : Z) (f : subscription R -> subscription R) : cmd unit :=
  get_sub i;; modify (fun s => s <| ds_subs := aupd i f (ds_subs s) |>).

(** The first entry of a table with a property. *)
Definition find_d (p : data_store -> cmd bool) : cmd (option Z) :=
  for_ (seqZ 0 NR_DS_KEYS) (fun i =>
    d ← get_d i; ok ← p d; mret (if ok : bool then Some i else None)).
Definition find_sub (p : subscription R -> bool) : cmd (option Z) :=
  for_ (seqZ 0 NR_DS_SUBS) (fun i => x ← get_sub i; mret (if p x then Some i else None)).

Definition alloc_data_slot : cmd (option Z) :=
  find_d (fun d => mret (negb (flag (flags d) DSF_IN_USE))).
Definition alloc_sub_slot : cmd (option Z) :=
  find_sub (fun x => negb (flag (s_flags x) DSF_IN_USE)).
Definition lookup_entry (key_name : list Z) (type : Z) : cmd (option Z) :=
  find_d (fun d => mret (flag (flags d) DSF_IN_USE && flag (flags d) type && streq (key d) key_name)).

(** [dsp->u.u32] *)
Definition u32_of (d : data_store) : cmd Z :=
  match u d with U32 v => mret v | _ => halt Undef end.
Definition lookup_label_entry (num : Z) : cmd (option Z) :=
  find_d (fun d =>
    if flag (flags d) DSF_IN_USE && flag (flags d) DSF_TYPE_LABEL then
      v ← u32_of d; mret (v =? num)
    else mret false).
Definition lookup_sub (ow : list Z) : cmd (option Z) :=
  find_sub (fun x => flag (s_flags x) DSF_IN_USE && streq (s_owner x) ow).

(** The name of a process is a pointer: to the static string of DS itself or to the key of
    an entry; [read_name] follows it. *)
Definition ds_getprocname (e : Z) : cmd (option name_ptr) :=
  if e =? DS_PROC_NR then mret (Some PDs) else
  r ← lookup_label_entry (u32 e);
  mret (PKey <$> r).
Definition read_name (p : name_ptr) : cmd (list Z) :=
  match p with PDs => mret str_ds | PKey i => d ← get_d i; mret (key d) end.
Definition ds_getprocep (s : list Z) : cmd Z :=
  r ← lookup_entry s DSF_TYPE_LABEL;
  match r with Some i => d ← get_d i; v ← u32_of d; mret (s32 v) | None => mret (-1) end.

Definition check_auth (p : data_store) (ep perm : Z) : cmd bool :=
  if negb (flag (flags p) perm) then mret true else
  source ← ds_getprocname ep;
  match source with
  | Some s => s ← read_name s; mret (streq (owner p) s)
  | None => mret false
  end.

(** The array [key_name] after the call; it holds [buf] before. *)
Definition get_key_name (buf : list Z) : cmd (rc * list Z) :=
  m ← m_ptr;
  if (DS_MAX_KEYLEN <? DS_KEY_LEN m) || (DS_KEY_LEN m <? 2) then mret (EINVAL, buf) else
  '(r, bytes) ← ask (safecopyfrom (m_source m) (DS_KEY_GRANT m) (DS_KEY_LEN m));
  if negb (is_ok r) then mret (r, buf) else
  let buf := overlay bytes buf in
  deref (aget buf (DS_MAX_KEYLEN - 1));;
  mret (OK, aupd (DS_MAX_KEYLEN - 1) (fun _ => 0) buf).
(** A local array of [n] bytes. *)
Definition local_array (n : Z) : cmd (list Z) := ask (fun w => take (Z.to_nat n) (stack w)).

Definition check_snapshot_index (sindex index : Z) : bool :=
  let mn := if sindex <? NR_DS_SNAPSHOT then 0 else sindex - NR_DS_SNAPSHOT + 1 in
  negb ((mn <=? index) && (index <=? sindex)).

(** [regexec(&subp->regex, s, 0, NULL, 0) == 0]: the expression has to be compiled. *)
Definition matches (x : subscription R) (s : list Z) : cmd bool :=
  r ← deref (s_regex x); mret (regexec r s).
Definition check_sub_match (x : subscription R) (d : data_store) (ep : Z) : cmd bool :=
  ok ← check_auth d ep DSF_PRIV_SUBSCRIBE;
  if ok : bool then matches x (key d) else mret false.

Definition update_subscribers (nr : Z) (set : bool) : cmd unit :=
  foreach (seqZ 0 NR_DS_SUBS) (fun i =>
    x ← get_sub i;
    if negb (flag (s_flags x) DSF_IN_USE) then mret tt else
    d ← get_d nr;
    if Z.land (Z.land (s_flags x) (flags d)) DSF_MASK_TYPE =? 0 then mret tt else
    ep ← ds_getprocep (s_owner x);
    ok ← check_sub_match x d ep;
    if negb ok then mret tt else
    set_sub i (fun x => x <| old_subs := aupd nr (fun _ => set) (old_subs x) |>);;
    notify ep).

Definition map_service (rpub : rprocpub) : cmd rc :=
  r ← alloc_data_slot;
  match r with
  | None => mret ENOMEM
  | Some i =>
      set_d i (fun d => d <| key := label rpub |> <| u := U32 (u32 (endpoint rpub)) |>
                          <| owner := str_rs |> <| flags := Z.lor DSF_IN_USE DSF_TYPE_LABEL |>);;
      update_subscribers i true;;
      mret OK
  end.

Definition sef_cb_init_fresh : cmd rc :=
  foreach (seqZ 0 NR_DS_KEYS) (fun i => set_d i (fun d => d <| flags := 0 |>));;
  foreach (seqZ 0 NR_DS_SUBS) (fun i => set_sub i (fun x => x <| s_flags := 0 |>));;
  '(r, l) ← ask rproctab;
  if negb (is_ok r) then halt Panic else
  foreach l (fun rpub =>
    if in_use rpub then
      r ← map_service rpub;
      if is_ok r then mret tt else halt Panic
    else mret tt);;
  mret OK.

(** ** publish *)
(** [malloc]: the bytes of a new block do not matter, they are all written first. *)
Definition new_block (n : Z) : cmd (option Z) :=
  p ← env (malloc n); mret (if p =? 0 then None else Some p).
Definition block (p : ptr) : cmd (list Z) :=
  match p with PBlock b => mret b | _ => halt Undef end.
(** [free(p)] *)
Definition free (p : ptr) : cmd ptr :=
  match p with PNull => mret PNull | PBlock _ => mret PFreed | PFreed => halt Undef end.
(** The members of [dsp->u.mem]. *)
Definition mem_of (d : data_store) : cmd (ptr * Z * Z) :=
  match u d with Mem data len reallen => mret (data, len, reallen) | _ => halt Undef end.
Definition zeros (n : Z) : list Z := replicate (Z.to_nat n) 0.

(** The buffer for [length] bytes: the one the entry has or a new one; [None] when there
    is no memory. *)
Definition mem_buffer (i length : Z) : cmd (option (ptr * Z)) :=
  d ← get_d i;
  if negb (flag (flags d) DSF_IN_USE) then
    p ← new_block length;
    match p with
    | None => mret None
    | Some _ => mret (Some (PBlock (zeros length), length))
    end
  else
    '(data, len, reallen) ← mem_of d;
    if reallen <? length then
      free data;;
      p ← new_block length;
      match p with
      | None => set_d i (fun d => d <| u := Mem PNull len reallen |>);; mret None
      | Some _ => mret (Some (PBlock (zeros length), length))
      end
    else mret (Some (data, reallen)).

Definition publish_mem (i fl : Z) : cmd rc :=
  m ← m_ptr;
  let length := u32 (DS_VAL_LEN m) in
  b ← mem_buffer i length;
  match b with
  | None => mret ENOMEM
  | Some (data, reallen) =>
      d ← get_d i;
      let len := match u d with Mem _ len _ => len | _ => 0 end in
      '(r, bytes) ← ask (safecopyfrom (m_source m) (DS_VAL m) length);
      if negb (is_ok r) then
        data' ← free data;
        set_d i (fun d => d <| u := Mem data' len reallen |>);;
        mret r
      else
        buf ← block data;
        let buf := overlay bytes buf in
        (if flag fl DSF_TYPE_STR then
           deref (aget buf (length - 1));;
           set_d i (fun d => d <| u := Mem (PBlock (aupd (length - 1) (fun _ => 0) buf)) length reallen |>)
         else set_d i (fun d => d <| u := Mem (PBlock buf) length reallen |>));;
        mret OK
  end.

(** The pointers left in the array by an earlier entry count as freed. *)
Definition old_snapshots : list ptr := replicate (Z.to_nat NR_DS_SNAPSHOT) PFreed.

Definition publish_map (i : Z) : cmd rc :=
  m ← m_ptr;
  let length := u32 (DS_VAL_LEN m) in
  p ← new_block (u32 (length + CLICK_SIZE));
  match p with
  | None => mret ENOMEM
  | Some p =>
      let data := CLICK_CEIL p in
      r ← env (safemap (m_source m) (DS_VAL m) data length);
      if negb (is_ok r) then
        set_d i (fun d => d <| u := Map data length PFreed old_snapshots (-1) |>);; mret r
      else
        set_d i (fun d => d <| u := Map data length (PBlock []) old_snapshots (-1) |>);;
        mret OK
  end.

(** The part of [do_publish] up to the slot: [inl] is the result of a call refused. *)
Definition publish_slot (fl : Z) (key_name : list Z) : cmd (rc + Z) :=
  m ← m_ptr;
  e ← lookup_entry key_name (Z.land fl DSF_MASK_TYPE);
  e ← (match e with
       | None => if flag fl DSF_TYPE_LABEL then lookup_label_entry (u32 (DS_VAL m)) else mret None
       | Some i => mret (Some i)
       end);
  match e with
  | None =>
      a ← alloc_data_slot;
      match a with None => mret (inl ENOMEM) | Some i => mret (inr i) end
  | Some i =>
      if flag fl DSF_OVERWRITE then
        d ← get_d i;
        ok ← check_auth d (m_source m) DSF_PRIV_OVERWRITE;
        if negb ok then mret (inl EPERM) else mret (inr i)
      else mret (inl EEXIST)
  end.

Definition publish_value (i fl : Z) : cmd rc :=
  m ← m_ptr;
  let t := Z.land fl DSF_MASK_TYPE in
  if (t =? DSF_TYPE_U32) || (t =? DSF_TYPE_LABEL) then
    set_d i (fun d => d <| u := U32 (u32 (DS_VAL m)) |>);; mret OK
  else if (t =? DSF_TYPE_STR) || (t =? DSF_TYPE_MEM) then publish_mem i fl
  else if t =? DSF_TYPE_MAP then publish_map i
  else mret EINVAL.

Definition set_attributes (i fl : Z) (key_name : list Z) (source : name_ptr) : cmd unit :=
  set_d i (fun d => d <| key := key_name |>);;
  name ← read_name source;      (* it may be the key just written *)
  set_d i (fun d => d <| owner := name |>
                      <| flags := Z.lor DSF_IN_USE (Z.land fl DSF_MASK_INTERNAL) |>).

Definition do_publish : cmd rc :=
  m ← m_ptr;
  let fl := DS_FLAGS m in
  source ← ds_getprocname (m_source m);
  match source with
  | None => mret EPERM
  | Some source =>
      if flag fl DSF_TYPE_LABEL && negb (m_source m =? RS_PROC_NR) then mret EPERM else
      if flag fl DSF_TYPE_MAP && flag fl DSF_OVERWRITE then mret EINVAL else
      buf ← local_array DS_MAX_KEYLEN;
      '(r, buf) ← get_key_name buf;
      if negb (is_ok r) then mret r else
      let key_name := cstr buf in
      slot ← publish_slot fl key_name;
      match slot with
      | inl r => mret r
      | inr i =>
          r ← publish_value i fl;
          if negb (is_ok r) then mret r else
          set_attributes i fl key_name source;;
          update_subscribers i true;;
          mret OK
      end
  end.

(** ** retrieve *)
(** [sys_safecopyto] of the first [length] bytes of a block or of a mapped range. *)
Definition copy_to (grant : Z) (bytes : list Z) : cmd rc :=
  m ← m_ptr; env (safecopyto (m_source m) grant bytes).
Definition first_bytes (b : list Z) (n : Z) : cmd (list Z) :=
  if n <=? Z.of_nat (length b) then mret (take (Z.to_nat n) b) else halt Undef.
(** [dsp->u.map] *)
Definition map_of (d : data_store) : cmd (Z * Z * ptr * list ptr * Z) :=
  match u d with
  | Map data len rp snapshots sindex => mret (data, len, rp, snapshots, sindex)
  | _ => halt Undef
  end.

Definition retrieve_mem (d : data_store) : cmd rc :=
  m ← m_ptr;
  '(data, len, _) ← mem_of d;
  let length := Z.min (u32 (DS_VAL_LEN m)) len in
  b ← block data;
  b ← first_bytes b length;
  r ← copy_to (DS_VAL m) b;
  if negb (is_ok r) then mret r else
  set_msg (fun m => m <| DS_VAL_LEN := s32 length |>);; mret OK.

Definition retrieve_map (d : data_store) : cmd rc :=
  m ← m_ptr;
  let fl := DS_FLAGS m in
  '(data, len, _, snapshots, sindex) ← map_of d;
  if flag fl DSMF_MAP_MAPPED then
    gid ← env (cpf_grant_direct (m_source m) data len);
    if negb (GRANT_VALID gid) then mret (Rc (-1)) else
    set_msg (fun m => m <| DS_VAL := gid |> <| DS_VAL_LEN := s32 len |>);; mret OK
  else if flag fl (Z.lor DSMF_COPY_MAPPED DSMF_COPY_SNAPSHOT) then
    let index := DS_NR_SNAPSHOT m in
    if negb (flag fl DSMF_COPY_MAPPED) && check_snapshot_index sindex index then mret EINVAL else
    let length := Z.min (u32 (DS_VAL_LEN m)) len in
    b ← (if flag fl DSMF_COPY_MAPPED then ask (mapped data length)
         else p ← deref (aget snapshots (Z.rem index NR_DS_SNAPSHOT));
              b ← block p; first_bytes b length);
    r ← copy_to (DS_VAL m) b;
    if negb (is_ok r) then mret r else
    set_msg (fun m => m <| DS_VAL_LEN := s32 length |>);; mret OK
  else mret EINVAL.

Definition retrieve_value (d : data_store) (type : Z) : cmd rc :=
  if (type =? DSF_TYPE_U32) || (type =? DSF_TYPE_LABEL) then
    v ← u32_of d; set_msg (fun m => m <| DS_VAL := s32 v |>);; mret OK
  else if (type =? DSF_TYPE_STR) || (type =? DSF_TYPE_MEM) then retrieve_mem d
  else if type =? DSF_TYPE_MAP then retrieve_map d
  else mret EINVAL.

Definition do_retrieve : cmd rc :=
  m ← m_ptr;
  let type := Z.land (DS_FLAGS m) DSF_MASK_TYPE in
  buf ← local_array DS_MAX_KEYLEN;
  '(r, buf) ← get_key_name buf;
  if negb (is_ok r) then mret r else
  e ← lookup_entry (cstr buf) type;
  match e with
  | None => mret ESRCH
  | Some i =>
      d ← get_d i;
      ok ← check_auth d (m_source m) DSF_PRIV_RETRIEVE;
      if negb ok then mret EPERM else retrieve_value d type
  end.

Definition do_retrieve_label : cmd rc :=
  m ← m_ptr;
  e ← lookup_label_entry (u32 (DS_VAL m));
  match e with
  | None => mret ESRCH
  | Some i => d ← get_d i; copy_to (DS_KEY_GRANT m) (key d ++ [0])
  end.

(** ** subscribe and check *)
Definition initial_list (isub type_set : Z) : cmd unit :=
  m ← m_ptr;
  found ← fold_ (seqZ 0 NR_DS_KEYS) false (fun match_found i =>
    d ← get_d i;
    if negb (flag (flags d) DSF_IN_USE) then mret match_found else
    if negb (flag (flags d) type_set) then mret match_found else
    x ← get_sub isub;
    ok ← check_sub_match x d (m_source m);
    if negb ok then mret match_found else
    set_sub isub (fun x => x <| old_subs := aupd i (fun _ => true) (old_subs x) |>);;
    mret true);
  if found : bool then notify (m_source m) else mret tt.

(** The expression compiled: [get_key_name] writes over the caret at [regex[0]]. *)
Definition subscribe_regex : cmd (rc * list Z) :=
  buf ← local_array (DS_MAX_KEYLEN + 3);
  let regex := aupd 0 (fun _ => str_caret) buf in
  '(r, regex) ← get_key_name regex;
  let regex := aupd (DS_MAX_KEYLEN - 1) (fun _ => 0) regex in
  mret (r, cstr regex ++ str_dollar).

Definition do_subscribe : cmd rc :=
  m ← m_ptr;
  ow ← ds_getprocname (m_source m);
  match ow with
  | None => mret ESRCH
  | Some ow =>
      ow ← read_name ow;
      e ← lookup_sub ow;
      slot ← (match e with
              | None => a ← alloc_sub_slot;
                        mret (match a with None => inl EAGAIN | Some i => inr i end)
              | Some i => mret (if flag (DS_FLAGS m) DSF_OVERWRITE then inr i else inl EEXIST)
              end);
      match slot with
      | inl r => mret r
      | inr i =>
          '(r, regex) ← subscribe_regex;
          if negb (is_ok r) then mret r else
          set_sub i (fun x => x <| s_regex := regcomp regex |>);;
          if bool_decide (regcomp regex = None) then mret EINVAL else
          let t := Z.land (DS_FLAGS m) DSF_MASK_TYPE in
          let type_set := if t =? 0 then DSF_MASK_TYPE else t in
          set_sub i (fun x => x <| s_flags := Z.lor DSF_IN_USE type_set |> <| s_owner := ow |>
                                <| old_subs := replicate (length (old_subs x)) false |>);;
          (if flag (DS_FLAGS m) DSF_INITIAL then initial_list i type_set else mret tt);;
          mret OK
      end
  end.

Definition do_check : cmd rc :=
  m ← m_ptr;
  ow ← ds_getprocname (m_source m);
  match ow with
  | None => mret ESRCH
  | Some ow =>
      ow ← read_name ow;
      e ← lookup_sub ow;
      match e with
      | None => mret ESRCH
      | Some isub =>
          x ← get_sub isub;
          e ← for_ (seqZ 0 NR_DS_KEYS) (fun i =>
                b ← deref (aget (old_subs x) i); mret (if b : bool then Some i else None));
          match e with
          | None => mret ENOENT
          | Some i =>
              d ← get_d i;
              r ← copy_to (DS_KEY_GRANT m) (key d ++ [0]);
              if negb (is_ok r) then mret r else
              entry_owner_e ← ds_getprocep (owner d);
              if entry_owner_e =? -1 then halt Panic else
              set_msg (fun m => m <| DS_FLAGS := Z.land (flags d) DSF_MASK_TYPE |>
                                  <| DS_OWNER := entry_owner_e |>);;
              set_sub isub (fun x => x <| old_subs := aupd i (fun _ => false) (old_subs x) |>);;
              mret OK
          end
      end
  end.

(** ** delete *)
(** A deleted label takes the subscriptions and the entries of its process along. *)
Definition cleanup_label (i : Z) : cmd unit :=
  d ← get_d i;
  let label := key d in
  foreach (seqZ 0 NR_DS_SUBS) (fun j =>
    x ← get_sub j;
    if flag (s_flags x) DSF_IN_USE && streq (s_owner x) label then
      set_sub j (fun x => x <| s_flags := 0 |>)
    else mret tt);;
  foreach (seqZ 0 NR_DS_KEYS) (fun j =>
    x ← get_d j;
    if flag (flags x) DSF_IN_USE && streq (owner x) label then
      set_d j (fun x => x <| flags := 0 |>)
    else mret tt).

Definition delete_mem (i : Z) : cmd unit :=
  d ← get_d i;
  '(data, len, reallen) ← mem_of d;
  data ← free data;
  set_d i (fun d => d <| u := Mem data len reallen |>).

Definition delete_map (i : Z) : cmd rc :=
  d ← get_d i;
  '(data, len, rp, snapshots, sindex) ← map_of d;
  env (safeunmap data);;
  r ← env (saferevmap_addr data);
  if negb (is_ok r) then mret r else
  let top := Z.min (NR_DS_SNAPSHOT - 1) sindex in
  snapshots ← fold_ (seqZ 0 (top + 1)) snapshots (fun l j =>
    p ← deref (aget l j); p ← free p; mret (aupd j (fun _ => p) l));
  rp ← free rp;
  set_d i (fun d => d <| u := Map data len rp snapshots sindex |>);;
  mret OK.

Definition delete_value (i type : Z) : cmd rc :=
  if type =? DSF_TYPE_U32 then mret OK
  else if type =? DSF_TYPE_LABEL then cleanup_label i;; mret OK
  else if (type =? DSF_TYPE_STR) || (type =? DSF_TYPE_MEM) then delete_mem i;; mret OK
  else if type =? DSF_TYPE_MAP then delete_map i
  else mret EINVAL.

Definition do_delete : cmd rc :=
  m ← m_ptr;
  let type := Z.land (DS_FLAGS m) DSF_MASK_TYPE in
  source ← ds_getprocname (m_source m);
  match source with
  | None => mret EPERM
  | Some source =>
      buf ← local_array DS_MAX_KEYLEN;
      '(r, buf) ← get_key_name buf;
      if negb (is_ok r) then mret r else
      e ← lookup_entry (cstr buf) type;
      match e with
      | None => mret ESRCH
      | Some i =>
          d ← get_d i;
          source ← read_name source;
          if negb (streq (owner d) source) then mret EPERM else
          r ← delete_value i type;
          if negb (is_ok r) then mret r else
          update_subscribers i false;;
          set_d i (fun d => d <| flags := 0 |>);;
          mret OK
      end
  end.

(** ** snapshot *)
(** The array has [NR_DS_SNAPSHOT] pointers and is indexed modulo [DS_MAX_KEYLEN]. *)
Definition do_snapshot : cmd rc :=
  m ← m_ptr;
  buf ← local_array DS_MAX_KEYLEN;
  '(r, buf) ← get_key_name buf;
  if negb (is_ok r) then mret r else
  e ← lookup_entry (cstr buf) DSF_TYPE_MAP;
  match e with
  | None => mret ESRCH
  | Some j =>
      d ← get_d j;
      ok ← check_auth d (m_source m) DSF_PRIV_SNAPSHOT;
      if negb ok then mret EPERM else
      '(data, len, rp, snapshots, sindex) ← map_of d;
      let sindex' := sindex + 1 in
      let i := Z.rem sindex' DS_MAX_KEYLEN in
      let set := fun l k => set_d j (fun d => d <| u := Map data len rp l k |>) in
      ok ← (if sindex' <? DS_MAX_KEYLEN then
              p ← new_block len;
              deref (aget snapshots i);;
              match p with
              | None => set (aupd i (fun _ => PNull) snapshots) sindex;; mret false
              | Some _ => mret true
              end
            else mret true);
      if negb ok then mret ENOMEM else
      old ← deref (aget snapshots i);
      (if sindex' <? DS_MAX_KEYLEN then mret tt else
         b ← block old; first_bytes b len;; mret tt);;
      b ← ask (mapped data len);
      set (aupd i (fun _ => PBlock b) snapshots) sindex';;
      set_msg (fun m => m <| DS_NR_SNAPSHOT := sindex' |>);;
      mret OK
  end.

Definition do_getsysinfo : cmd rc :=
  m ← m_ptr;
  s ← get;
  if m1_i1 m =? SI_DATA_STORE then
    env (copy_tables (m_source m) (m1_p1 m) (ds_store s, []))
  else if m1_i1 m =? SI_SUBSCRIPTION then
    env (copy_tables (m_source m) (m1_p1 m) ([], ds_subs s))
  else mret EINVAL.

(** ** [main.c] *)
Definition do_call (callnr : call_nr) : cmd rc :=
  match callnr with
  | DS_PUBLISH => do_publish
  | DS_RETRIEVE => do_retrieve
  | DS_RETRIEVE_LABEL => do_retrieve_label
  | DS_DELETE => do_delete
  | DS_SUBSCRIBE => do_subscribe
  | DS_CHECK => do_check
  | DS_SNAPSHOT => do_snapshot
  | GETSYSINFO => do_getsysinfo
  | NOTIFY | OTHER => mret EINVAL
  end.
Definition reply (who_e : Z) (result : rc) : cmd unit :=
  modify (fun s => s <| sent := sent s ++ [(who_e, result, msg s)] |>).
(** A turn of the loop; [None] is a failed [sef_receive]. *)
Definition main_step (received : option (call_nr * message)) : cmd unit :=
  match received with
  | None => halt Panic
  | Some (callnr, m) =>
      set_msg (fun _ => m);;
      result ← do_call callnr;
      if bool_decide (result = EDONTREPLY) then mret tt else reply (m_source m) result
  end.
Definition main_loop (ms : list (option (call_nr * message))) : cmd unit := foreach ms main_step.
End operations.

(** ** Flags *)
Section flags.
Context `{DsHeaders} `{!DsHeaderLaws}.

Definition used (d : data_store) : bool := flag (flags d) DSF_IN_USE.
Definition type_of (d : data_store) : Z := Z.land (flags d) DSF_MASK_TYPE.

Lemma land_assoc_type f t : t ∈ ds_types -> Z.land f t = Z.land (Z.land f DSF_MASK_TYPE) t.
Proof.
  intros Ht. pose proof (Forall_elem _ _ _ ds_types_mask Ht) as Hm. cbv beta in Hm.
  rewrite <-Z.land_assoc, (Z.land_comm DSF_MASK_TYPE). by rewrite Hm.
Qed.
Lemma flag_type f t :
  t ∈ ds_types -> Z.land f DSF_MASK_TYPE ∈ ds_types ->
  flag f t = bool_decide (Z.land f DSF_MASK_TYPE = t).
Proof.
  intros Ht Hf. unfold flag. rewrite land_assoc_type by done.
  case_bool_decide as E.
  - rewrite E, Z.land_diag. pose proof (Forall_elem _ _ _ ds_types_pos Ht). simpl in *. lia.
  - by rewrite ds_types_disjoint.
Qed.
(** The flags of an entry that was published. *)
Definition entry_flags (fl : Z) : Z := Z.lor DSF_IN_USE (Z.land fl DSF_MASK_INTERNAL).
Lemma entry_flags_used fl : flag (entry_flags fl) DSF_IN_USE = true.
Proof.
  unfold flag, entry_flags.
  replace (Z.land _ _) with DSF_IN_USE; [pose proof in_use_pos; lia|].
  apply Z.bits_inj'. intros n Hn. rewrite !Z.land_spec, Z.lor_spec.
  by destruct (Z.testbit DSF_IN_USE n), (Z.testbit _ _).
Qed.
Lemma entry_flags_type fl : Z.land (entry_flags fl) DSF_MASK_TYPE = Z.land fl DSF_MASK_TYPE.
Proof.
  unfold entry_flags. rewrite Z.land_lor_distr_l, in_use_mask, Z.lor_0_l.
  by rewrite <-Z.land_assoc, internal_mask.
Qed.
Lemma type_U32 : DSF_TYPE_U32 ∈ ds_types. Proof. unfold ds_types. set_solver. Qed.
Lemma type_STR : DSF_TYPE_STR ∈ ds_types. Proof. unfold ds_types. set_solver. Qed.
Lemma type_MEM : DSF_TYPE_MEM ∈ ds_types. Proof. unfold ds_types. set_solver. Qed.
Lemma type_MAP : DSF_TYPE_MAP ∈ ds_types. Proof. unfold ds_types. set_solver. Qed.
Lemma type_LABEL : DSF_TYPE_LABEL ∈ ds_types. Proof. unfold ds_types. set_solver. Qed.
Lemma types_ne i j t t' :
  ds_types !! i = Some t -> ds_types !! j = Some t' -> i <> j -> t <> t'.
Proof. intros Hi Hj Hne ->. apply Hne. eapply NoDup_lookup; eauto using ds_types_NoDup. Qed.
End flags.
Create HintDb ds discriminated.
#[export] Hint Resolve type_U32 type_STR type_MEM type_MAP type_LABEL : ds.

(** ** The tables in order
    The member of the union that an entry holds is the one of its type. *)
Section invariant.
Context `{MinixHeaders} `{DsHeaders}.

Definition wf_union (t : Z) (x : union) : Prop :=
  match x with
  | U32 v => (t = DSF_TYPE_U32 \/ t = DSF_TYPE_LABEL) /\ 0 <= v < 2 ^ 32
  | Mem data len reallen =>
      (t = DSF_TYPE_STR \/ t = DSF_TYPE_MEM) /\ 0 <= len <= reallen /\
      forall b, data = PBlock b -> Z.of_nat (length b) = reallen
  | Map data len rp snapshots k =>
      t = DSF_TYPE_MAP /\ 0 <= len /\ rp = PBlock [] /\
      Z.of_nat (length snapshots) = NR_DS_SNAPSHOT /\ -1 <= k < NR_DS_SNAPSHOT /\
      forall i, 0 <= i <= k -> exists b, aget snapshots i = Some (PBlock b) /\ Z.of_nat (length b) = len
  end.
Definition wf_entry (d : data_store) : Prop :=
  used d = true -> type_of d ∈ ds_types /\ wf_union (type_of d) (u d).

Definition label_ok (d : data_store) : Prop :=
  used d && flag (flags d) DSF_TYPE_LABEL = true -> exists v, u d = U32 v /\ 0 <= v < 2 ^ 32.
Definition compiled {R} (x : subscription R) : Prop :=
  flag (s_flags x) DSF_IN_USE = true -> is_Some (s_regex x).

(** [ready s]: what the lookups of names and entries need. *)
Record ready {W R} (s : state W R) : Prop := {
  rd_store : Z.of_nat (length (ds_store s)) = NR_DS_KEYS;
  rd_labels : Forall label_ok (ds_store s);
}.
Record wf {W R} (s : state W R) : Prop := {
  wf_store : Z.of_nat (length (ds_store s)) = NR_DS_KEYS;
  wf_subs : Z.of_nat (length (ds_subs s)) = NR_DS_SUBS;
  wf_entries : Forall wf_entry (ds_store s);
  wf_maps : Forall (fun x => NR_DS_KEYS <= Z.of_nat (length (old_subs x))) (ds_subs s);
}.
End invariant.

(** Updating an entry of a table whose elements have a property. *)
Lemma Forall_aupd {A} (P : A -> Prop) (l : list A) i f :
  Forall P l -> (forall x, aget l i = Some x -> P (f x)) -> Forall P (aupd i f l).
Proof.
  intros Hl Hf. apply Forall_lookup. intros n x Hx. rewrite <-aget_nat in Hx.
  rewrite aget_aupd in Hx. case_decide as E.
  - apply fmap_Some in Hx as (y & Hy & ->). apply Hf. by rewrite E.
  - rewrite aget_nat in Hx. rewrite Forall_lookup in Hl. eauto.
Qed.
Lemma Forall_aget {A} (P : A -> Prop) (l : list A) i x : Forall P l -> aget l i = Some x -> P x.
Proof. rewrite Forall_lookup, aget_Some. intros Hl [_ Hx]. eauto. Qed.

(** ** The lookups *)
Section lookups.
Context `{MinixHeaders} `{DsHeaders} `{!DsHeaderLaws} {W R : Type} `{DsEnv W R}.
Implicit Types (s : state W R).

Lemma get_d_run i d s : aget (ds_store s) i = Some d -> get_d i s = Ret d s.
Proof. unfold get_d, mbind, M_bind, get. by intros ->. Qed.
Lemma get_sub_run i x s : aget (ds_subs s) i = Some x -> get_sub i s = Ret x s.
Proof. unfold get_sub, mbind, M_bind, get. by intros ->. Qed.
Lemma set_d_run i d f s :
  aget (ds_store s) i = Some d -> set_d i f s = Ret tt (s <| ds_store := aupd i f (ds_store s) |>).
Proof. intros Hd. unfold set_d. by rewrite (bind_ret _ _ _ _ _ (get_d_run _ _ _ Hd)). Qed.
Lemma set_sub_run i x f s :
  aget (ds_subs s) i = Some x -> set_sub i f s = Ret tt (s <| ds_subs := aupd i f (ds_subs s) |>).
Proof. intros Hx. unfold set_sub. by rewrite (bind_ret _ _ _ _ _ (get_sub_run _ _ _ Hx)). Qed.

Lemma find_d_run (p : data_store -> M (state W R) bool) q s :
  Z.of_nat (length (ds_store s)) = NR_DS_KEYS ->
  Forall (fun d => p d s = Ret (q d) s) (ds_store s) ->
  find_d p s = Ret (first_index q (ds_store s)) s.
Proof.
  intros Hlen Hp. unfold find_d. rewrite (for_search q id (ds_store s)); [|done|].
  - by destruct (first_index _ _).
  - intros i d Hd. rewrite (bind_ret _ _ d _ s) by (apply get_d_run; by rewrite aget_nat).
    rewrite Forall_lookup in Hp. by rewrite (bind_ret _ _ (q d) _ s) by eauto.
Qed.
Lemma find_sub_run q s :
  Z.of_nat (length (ds_subs s)) = NR_DS_SUBS ->
  find_sub q s = Ret (first_index q (ds_subs s)) s.
Proof.
  intros Hlen. unfold find_sub. rewrite (for_search q id (ds_subs s)); [|done|].
  - by destruct (first_index _ _).
  - intros i x Hx. by rewrite (bind_ret _ _ x _ s) by (apply get_sub_run; by rewrite aget_nat).
Qed.

(** The conditions of the lookups. *)
Definition is_entry (key_name : list Z) (type : Z) (d : data_store) : bool :=
  used d && flag (flags d) type && streq (key d) key_name.
Definition num_of (d : data_store) : Z := match u d with U32 v => v | _ => 0 end.
Definition is_label (num : Z) (d : data_store) : bool :=
  used d && flag (flags d) DSF_TYPE_LABEL && (num_of d =? num).
Definition is_sub (ow : list Z) (x : subscription R) : bool :=
  flag (s_flags x) DSF_IN_USE && streq (s_owner x) ow.

Lemma alloc_data_slot_run s :
  ready s -> alloc_data_slot s = Ret (first_index (fun d => negb (used d)) (ds_store s)) s.
Proof. intros []. apply find_d_run; [done|]. by apply Forall_true. Qed.
Lemma alloc_sub_slot_run s :
  Z.of_nat (length (ds_subs s)) = NR_DS_SUBS ->
  alloc_sub_slot s = Ret (first_index (fun x => negb (flag (s_flags x) DSF_IN_USE)) (ds_subs s)) s.
Proof. apply find_sub_run. Qed.
Lemma lookup_entry_run k t s :
  ready s -> lookup_entry k t s = Ret (first_index (is_entry k t) (ds_store s)) s.
Proof. intros []. apply find_d_run; [done|]. by apply Forall_true. Qed.
Lemma lookup_sub_run ow s :
  Z.of_nat (length (ds_subs s)) = NR_DS_SUBS -> lookup_sub ow s = Ret (first_index (is_sub ow) (ds_subs s)) s.
Proof. apply find_sub_run. Qed.
Lemma lookup_label_entry_run num s :
  ready s -> lookup_label_entry num s = Ret (first_index (is_label num) (ds_store s)) s.
Proof.
  intros []. apply find_d_run; [done|]. eapply list.Forall_impl; [done|]. intros d Hd.
  unfold label_ok, is_label, num_of, used in *.
  destruct (_ && _) eqn:E; [|done]. rewrite ?E. destruct (Hd eq_refl) as (v & Hu & _).
  unfold u32_of. rewrite (bind_ret _ _ v _ s) by (by rewrite Hu). by rewrite Hu.
Qed.

(** ** Names, permissions and matches as functions of the tables *)
Definition procname (e : Z) (l : list data_store) : option name_ptr :=
  if e =? DS_PROC_NR then Some PDs else PKey <$> first_index (is_label (u32 e)) l.
Definition name_at (p : name_ptr) (l : list data_store) : option (list Z) :=
  match p with PDs => Some str_ds | PKey i => key <$> aget l i end.
Definition caller_name (e : Z) (l : list data_store) : option (list Z) :=
  p ← procname e l; name_at p l.
Definition procep (name : list Z) (l : list data_store) : Z :=
  match first_index (is_entry name DSF_TYPE_LABEL) l with
  | Some i => default (-1) ((fun d => s32 (num_of d)) <$> aget l i)
  | None => -1
  end.
Definition auth (l : list data_store) (d : data_store) (ep perm : Z) : bool :=
  negb (flag (flags d) perm) || bool_decide (caller_name ep l = Some (owner d)).
Definition rematch (x : subscription R) (s : list Z) : bool :=
  match s_regex x with Some r => regexec r s | None => false end.
Definition sub_match (l : list data_store) (x : subscription R) (d : data_store) (ep : Z) : bool :=
  auth l d ep DSF_PRIV_SUBSCRIBE && rematch x (key d).
(** A subscription that is told of a change of the entry. *)
Definition told (l : list data_store) (d : data_store) (x : subscription R) : bool :=
  flag (s_flags x) DSF_IN_USE && negb (Z.land (Z.land (s_flags x) (flags d)) DSF_MASK_TYPE =? 0) &&
  sub_match l x d (procep (s_owner x) l).

Lemma ds_getprocname_run e s : ready s -> ds_getprocname e s = Ret (procname e (ds_store s)) s.
Proof.
  intros Hs. unfold ds_getprocname, procname. destruct (e =? DS_PROC_NR); [done|].
  by rewrite (bind_ret _ _ _ _ _ (lookup_label_entry_run _ _ Hs)).
Qed.
Lemma procname_at e p (l : list data_store) : procname e l = Some p -> is_Some (name_at p l).
Proof.
  unfold procname. destruct (e =? DS_PROC_NR); [by intros [= <-]|].
  intros (i & Hi & ->)%fmap_Some. apply first_index_Some in Hi as (d & Hd & _).
  simpl. by rewrite Hd.
Qed.
Lemma caller_name_None e (l : list data_store) : caller_name e l = None <-> procname e l = None.
Proof.
  unfold caller_name. destruct (procname e l) eqn:E; [|done]. simpl.
  destruct (procname_at _ _ _ E) as [? ->]. done.
Qed.
Lemma read_name_run p nm s : name_at p (ds_store s) = Some nm -> read_name p s = Ret nm s.
Proof.
  destruct p as [|i]; simpl; [by intros [= <-]|]. intros (d & Hd & ->)%fmap_Some.
  by rewrite (bind_ret _ _ _ _ _ (get_d_run _ _ _ Hd)).
Qed.
Lemma label_num d : label_ok d -> used d && flag (flags d) DSF_TYPE_LABEL = true ->
  u d = U32 (num_of d) /\ 0 <= num_of d < 2 ^ 32.
Proof. intros Hd Hu. destruct (Hd Hu) as (v & Hv & Hr). unfold num_of. by rewrite Hv. Qed.
Lemma ds_getprocep_run nm s : ready s -> ds_getprocep nm s = Ret (procep nm (ds_store s)) s.
Proof.
  intros Hs. unfold ds_getprocep, procep.
  rewrite (bind_ret _ _ _ _ _ (lookup_entry_run _ _ _ Hs)). cbn beta.
  destruct (first_index _ _) as [i|] eqn:E; [|done].
  apply first_index_Some in E as (d & Hd & Hp & _). rewrite Hd. simpl.
  rewrite (bind_ret _ _ _ _ _ (get_d_run _ _ _ Hd)).
  apply andb_true_iff in Hp as [Hp _].
  destruct (label_num d) as [Hu _]; [by eapply Forall_aget, Hd; apply Hs|done|].
  unfold u32_of. by rewrite Hu.
Qed.
Lemma check_auth_run d ep perm s :
  ready s -> check_auth d ep perm s = Ret (auth (ds_store s) d ep perm) s.
Proof.
  intros Hs. unfold check_auth, auth, caller_name. destruct (negb _); [done|].
  rewrite (bind_ret _ _ _ _ _ (ds_getprocname_run _ _ Hs)). simpl.
  destruct (procname _ _) as [p|] eqn:E; [|done]. simpl.
  destruct (procname_at _ _ _ E) as [nm Hnm]. rewrite (bind_ret _ _ _ _ _ (read_name_run _ _ _ Hnm)).
  rewrite Hnm. unfold streq, mret, M_ret. f_equal. apply bool_decide_ext.
  split; [by intros ->|congruence].
Qed.
Lemma check_sub_match_run x d ep s :
  ready s -> is_Some (s_regex x) -> check_sub_match x d ep s = Ret (sub_match (ds_store s) x d ep) s.
Proof.
  intros Hs [r Hr]. unfold check_sub_match, sub_match.
  rewrite (bind_ret _ _ _ _ _ (check_auth_run _ _ _ _ Hs)). cbn beta.
  destruct (auth _ _ _ _); [|done]. unfold matches, rematch. by rewrite Hr.
Qed.

Definition mark (nr : Z) (set : bool) (x : subscription R) : subscription R :=
  x <| old_subs := aupd nr (fun _ => set) (old_subs x) |>.
Definition update_sub (l : list data_store) (d : data_store) (nr : Z) (set : bool)
    (x : subscription R) : subscription R := if told l d x then mark nr set x else x.
Definition note (l : list data_store) (d : data_store) (x : subscription R) : list Z :=
  if told l d x then [procep (s_owner x) l] else [].

Lemma map_pre_all {A} (f : A -> A) l n : n = length l -> map_pre n f l = f <$> l.
Proof. intros ->. unfold map_pre. by rewrite take_ge, drop_ge, app_nil_r by lia. Qed.

(** [update_subscribers] marks the entry in every subscription that is told and notifies
    its owner, in the order of the table. *)
Lemma update_subscribers_run nr set d s :
  ready s -> Z.of_nat (length (ds_subs s)) = NR_DS_SUBS -> Forall compiled (ds_subs s) ->
  aget (ds_store s) nr = Some d ->
  update_subscribers nr set s =
    Ret tt (s <| ds_subs := update_sub (ds_store s) d nr set <$> ds_subs s |>
              <| notified := notified s ++ concat (note (ds_store s) d <$> ds_subs s) |>).
Proof.
  intros Hs Hlen Hc Hd. unfold update_subscribers. rewrite <-Hlen.
  set (st := fun (l : list (subscription R)) (o : list Z) =>
    s <| ds_subs := l |> <| notified := notified s ++ o |>).
  remember (length (ds_subs s)) as n eqn:Hn.
  replace s with (st (ds_subs s) []) at 1 by (unfold st; destruct s; unfold upd; simpl; by rewrite app_nil_r).
  rewrite (foreach_update st _ (update_sub (ds_store s) d nr set) (note (ds_store s) d) compiled).
  - rewrite map_pre_all, take_ge by lia. done.
  - lia.
  - by rewrite take_ge by lia.
  - intros i l o x Hi Hx Hcx Hlt.
    assert (ready (st l o)) as Hst by (by destruct Hs).
    assert (Hid : st l o = st (aupd i (fun _ => x) l) (o ++ [])).
    { rewrite app_nil_r, aupd_id; [done|]. congruence. }
    unfold update_sub, note, told.
    rewrite (bind_ret _ _ x _ (st l o)) by (by apply get_sub_run).
    unfold compiled in Hcx.
    destruct (flag (s_flags x) DSF_IN_USE); simpl; [|by rewrite Hid at 1].
    rewrite (bind_ret _ _ d _ (st l o)) by (by apply get_d_run).
    destruct (_ =? 0); simpl; [by rewrite Hid at 1|].
    rewrite (bind_ret _ _ _ _ _ (ds_getprocep_run (s_owner x) _ Hst)).
    rewrite (bind_ret _ _ _ _ _ (check_sub_match_run _ _ _ _ Hst (Hcx eq_refl))).
    change (ds_store (st l o)) with (ds_store s).
    destruct (sub_match _ _ _ _); simpl; [|by rewrite Hid at 1].
    rewrite (bind_ret _ _ _ _ _ (set_sub_run i x _ (st l o) Hx)).
    unfold notify, modify, st. f_equal. unfold upd; simpl. rewrite <-app_assoc. f_equal.
    apply aupd_ext. intros y Hy. replace y with x by congruence. done.
Qed.

(** The same whether or not the expressions are compiled: it only writes the bitmaps, or
    it stops because an expression is not compiled. *)
Definition same_sub (x y : subscription R) : Prop :=
  s_flags y = s_flags x /\ s_owner y = s_owner x /\ s_regex y = s_regex x /\
  length (old_subs y) = length (old_subs x).
Lemma same_sub_refl x : same_sub x x. Proof. done. Qed.
Lemma Forall2_aupd {A} (P : A -> A -> Prop) (l l' : list A) i f :
  Forall2 P l l' -> (forall x y, aget l' i = Some y -> P x y -> P x (f y)) ->
  Forall2 P l (aupd i f l').
Proof.
  intros Hl Hf. apply Forall2_same_length_lookup_2; [by rewrite length_aupd; eapply Forall2_length|].
  intros n x y Hx Hy. rewrite <-aget_nat, aget_aupd in Hy. case_decide as E.
  - apply fmap_Some in Hy as (z & Hz & ->). rewrite <-E in Hz. apply Hf; [done|].
    rewrite E, aget_nat in Hz. eapply Forall2_lookup_lr; eauto.
  - rewrite aget_nat in Hy. eapply Forall2_lookup_lr; eauto.
Qed.

Lemma update_subscribers_wp nr set d s :
  ready s -> Z.of_nat (length (ds_subs s)) = NR_DS_SUBS -> aget (ds_store s) nr = Some d ->
  wp (update_subscribers nr set)
    (fun _ s' => exists l o, s' = s <| ds_subs := l |> <| notified := o |> /\
                             Forall2 same_sub (ds_subs s) l)
    (fun _ _ => ~ Forall compiled (ds_subs s)) s.
Proof.
  intros Hs Hlen Hd. unfold update_subscribers.
  apply (wp_foreach _ _ (fun _ s' => exists l o, s' = s <| ds_subs := l |> <| notified := o |> /\
                             Forall2 same_sub (ds_subs s) l)).
  - exists (ds_subs s), (notified s). split; [by destruct s|]. by apply Forall_Forall2_diag, Forall_true.
  - intros pre i post s' [Hi Hi']%seqZ_visit (l & o & -> & Hl).
    set (s1 := s <| ds_subs := l |> <| notified := o |>).
    assert (ready s1) as Hs1 by (by destruct Hs).
    destruct (aget_is_Some l i) as [x Hx]; [apply Forall2_length in Hl; lia|].
    eapply (wp_bind_run _ _ _ _ x s1 s1); [by apply get_sub_run|].
    destruct (negb (flag (s_flags x) DSF_IN_USE)) eqn:Eu; [apply wp_ret; by exists l, o|].
    eapply (wp_bind_run _ _ _ _ d s1 s1); [by apply get_d_run|].
    destruct (_ =? 0); [apply wp_ret; by exists l, o|].
    eapply wp_bind_run; [by apply ds_getprocep_run|].
    destruct (s_regex x) as [rx|] eqn:Er.
    2:{ unfold check_sub_match, matches. rewrite Er. apply wp_bind. unfold wp.
        unfold mbind at 1, M_bind. rewrite check_auth_run by done.
        destruct (auth _ _ _ _); simpl.
        - rewrite list.Forall_forall. intros Hall. apply Forall2_lookup_r with (i := Z.to_nat i) (y := x) in Hl
            as (y & Hy & Hf & _ & Hr & _); [|by apply aget_Some in Hx as [_ ?]].
          assert (compiled y) as Hcy by (eapply Hall, list_elem_of_lookup_2, Hy).
          unfold compiled in Hcy. rewrite <-Hf, <-Hr, Er in Hcy.
          apply negb_false_iff in Eu. destruct (Hcy Eu) as [? [=]].
        - by exists l, o. }
    eapply wp_bind_run; [apply check_sub_match_run; [done|by rewrite Er]|].
    destruct (sub_match _ _ _ _); simpl; [|apply wp_ret; by exists l, o].
    eapply wp_bind_run; [by apply (set_sub_run i x)|]. apply wp_modify.
    eexists _, _. split; [reflexivity|]. apply Forall2_aupd; [done|].
    intros x' y _ (?&?&?&?). split_and!; [done..|]. simpl. by rewrite length_aupd.
  - done.
Qed.

(** ** The caller's key *)
Definition key_read (buf : list Z) (m : message) (w : W) : rc * list Z :=
  if (DS_MAX_KEYLEN <? DS_KEY_LEN m) || (DS_KEY_LEN m <? 2) then (EINVAL, buf) else
  let '(r, bytes) := safecopyfrom (m_source m) (DS_KEY_GRANT m) (DS_KEY_LEN m) w in
  if is_ok r then (OK, aupd (DS_MAX_KEYLEN - 1) (fun _ => 0) (overlay bytes buf)) else (r, buf).
Definition key_buf (w : W) : list Z := take (Z.to_nat DS_MAX_KEYLEN) (stack w).
(** The key of a message of all calls but [DS_SUBSCRIBE]. *)
Definition key_of (m : message) (w : W) : rc * list Z :=
  let '(r, buf) := key_read (key_buf w) m w in (r, cstr buf).

Context `{!DsEnvLaws W R}.

Lemma length_overlay (bytes buf : list Z) :
  length (overlay bytes buf) = Nat.max (length bytes) (length buf).
Proof. unfold overlay. rewrite length_app, length_drop. lia. Qed.
Lemma get_key_name_run buf s :
  DS_MAX_KEYLEN <= Z.of_nat (length buf) ->
  get_key_name buf s = Ret (key_read buf (msg s) (world s)) s.
Proof.
  intros Hbuf. unfold get_key_name, key_read.
  rewrite (bind_ret _ _ (msg s) s s) by done. cbv beta.
  destruct (_ || _); [done|]. unfold ask, mbind, M_bind, gets. destruct (safecopyfrom _ _ _ _) as [r bytes].
  destruct (is_ok r); [|done]. simpl.
  destruct (aget_is_Some (overlay bytes buf) (DS_MAX_KEYLEN - 1)) as [c Hc].
  { rewrite length_overlay. pose proof KEYLEN_range. lia. }
  by rewrite Hc.
Qed.
Lemma length_key_buf w : DS_MAX_KEYLEN <= Z.of_nat (length (key_buf w)).
Proof.
  unfold key_buf. rewrite length_take. pose proof (stack_length w). pose proof KEYLEN_range. lia.
Qed.
(** The two statements with which all those calls read their key. *)
Lemma read_key_run {A} (f : list Z -> rc * list Z -> M (state W R) A) s :
  (buf ← local_array DS_MAX_KEYLEN; x ← get_key_name buf; f buf x) s =
    f (key_buf (world s)) (key_read (key_buf (world s)) (msg s) (world s)) s.
Proof.
  unfold local_array, ask. rewrite (bind_ret _ _ (key_buf (world s)) s s) by done. cbv beta.
  by rewrite (bind_ret _ _ _ _ _ (get_key_name_run _ _ (length_key_buf _))).
Qed.
Lemma wp_read_key {A} (f : list Z -> rc * list Z -> M (state W R) A) Q E s :
  wp (buf ← local_array DS_MAX_KEYLEN; x ← get_key_name buf; f buf x) Q E s =
  wp (f (key_buf (world s)) (key_read (key_buf (world s)) (msg s) (world s))) Q E s.
Proof. unfold wp. by rewrite read_key_run. Qed.

(** ** Tables in order *)
Lemma wf_ready s : wf s -> ready s.
Proof.
  intros []. constructor; [done|]. eapply list.Forall_impl; [done|].
  intros d Hd [Hu Hl]%andb_true_iff. destruct (Hd Hu) as [Ht Hw].
  unfold type_of in *. rewrite flag_type in Hl by auto with ds. apply bool_decide_eq_true in Hl.
  destruct (u d) as [v|p len rl|p len rp sn k]; simpl in Hw; rewrite Hl in Hw.
  - exists v. tauto.
  - exfalso. destruct Hw as [[E|E] _].
    + by apply (types_ne 4 1 DSF_TYPE_LABEL DSF_TYPE_STR).
    + by apply (types_ne 4 2 DSF_TYPE_LABEL DSF_TYPE_MEM).
  - exfalso. destruct Hw as [E _]. by apply (types_ne 4 3 DSF_TYPE_LABEL DSF_TYPE_MAP).
Qed.
Lemma wf_eq s s' : ds_store s' = ds_store s -> ds_subs s' = ds_subs s -> wf s -> wf s'.
Proof. intros Hd Hs []. constructor; by rewrite ?Hd, ?Hs. Qed.
Lemma wf_set s i f l o :
  wf s -> (forall d, aget (ds_store s) i = Some d -> wf_entry (f d)) ->
  Forall2 same_sub (ds_subs s) l ->
  wf (s <| ds_store := aupd i f (ds_store s) |> <| ds_subs := l |> <| notified := o |>).
Proof.
  intros [] Hf Hl. constructor; simpl.
  - by rewrite length_aupd.
  - apply Forall2_length in Hl. lia.
  - by apply Forall_aupd.
  - apply Forall_lookup. intros n y Hy.
    destruct (Forall2_lookup_r _ _ _ _ _ Hl Hy) as (x & Hx & _ & _ & _ & ->).
    by apply (Forall_lookup_1 _ _ _ _ wf_maps0 Hx).
Qed.
Lemma wf_set_store s i f :
  wf s -> (forall d, aget (ds_store s) i = Some d -> wf_entry (f d)) ->
  wf (s <| ds_store := aupd i f (ds_store s) |>).
Proof.
  intros [] Hf. constructor; simpl; [by rewrite length_aupd|done|by apply Forall_aupd|done].
Qed.

(** The places in the program where a call can stop: data that was freed or is NULL is
    used; a sixth snapshot; an expression that was not compiled; an entry is pending whose
    owner has no label; an empty string is published. *)
Definition dangling (d : data_store) : Prop :=
  used d = true /\ exists p len rl, u d = Mem p len rl /\ forall b, p <> PBlock b.
Definition full (d : data_store) : Prop :=
  used d = true /\ exists a len rp sn, u d = Map a len rp sn (NR_DS_SNAPSHOT - 1).
Definition orphan s : Prop :=
  exists x i d, x ∈ ds_subs s /\ aget (old_subs x) i = Some true /\
    aget (ds_store s) i = Some d /\ procep (owner d) (ds_store s) = -1.
Definition may_stop s : Prop :=
  Exists dangling (ds_store s) \/ Exists full (ds_store s) \/ ~ Forall compiled (ds_subs s) \/
  orphan s \/ (flag (DS_FLAGS (msg s)) DSF_TYPE_STR = true /\ u32 (DS_VAL_LEN (msg s)) = 0).

Lemma Exists_aget {A} (P : A -> Prop) (l : list A) i x : aget l i = Some x -> P x -> Exists P l.
Proof. intros [_ Hx]%aget_Some HP. apply List.Exists_exists. exists x. split; [|done].
  by eapply list_elem_of_In, list_elem_of_lookup_2. Qed.

(** ** publish *)
(** The slot is free, or holds an entry of the type that is published. *)
Definition slot_for (t : Z) (d : data_store) : Prop :=
  used d = true -> t ∈ ds_types -> type_of d = t.

Definition published_at (fl : Z) (k : list Z) (m : message) (l : list data_store) : option Z :=
  match first_index (is_entry k (Z.land fl DSF_MASK_TYPE)) l with
  | Some i => Some i
  | None => if flag fl DSF_TYPE_LABEL then first_index (is_label (u32 (DS_VAL m))) l else None
  end.
Lemma published_at_Some fl k s i :
  wf s -> published_at fl k (msg s) (ds_store s) = Some i ->
  exists d, aget (ds_store s) i = Some d /\ used d = true /\ slot_for (Z.land fl DSF_MASK_TYPE) d.
Proof.
  intros Hwf. unfold published_at.
  destruct (first_index (is_entry _ _) _) as [j|] eqn:E.
  - intros [= ->]. apply first_index_Some in E as (d & Hd & Hp & _). exists d.
    apply andb_true_iff in Hp as [[Hu Hf]%andb_true_iff _]. split_and!; [done..|].
    intros _ Ht. destruct (Forall_aget _ _ _ _ (wf_entries _ Hwf) Hd Hu) as [Htd _].
    unfold type_of in *. rewrite flag_type in Hf by done. by apply bool_decide_eq_true in Hf.
  - destruct (flag fl DSF_TYPE_LABEL) eqn:El; [|done]. intros Hi.
    apply first_index_Some in Hi as (d & Hd & Hp & _). exists d.
    apply andb_true_iff in Hp as [[Hu Hf]%andb_true_iff _]. split_and!; [done..|].
    intros _ Ht. destruct (Forall_aget _ _ _ _ (wf_entries _ Hwf) Hd Hu) as [Htd _].
    unfold type_of in *. rewrite flag_type in Hf by auto with ds.
    rewrite flag_type in El by auto with ds.
    apply bool_decide_eq_true in Hf, El. congruence.
Qed.

Lemma publish_slot_run fl k s :
  wf s ->
  publish_slot fl k s = Ret
    (match published_at fl k (msg s) (ds_store s) with
     | None => match first_index (fun d => negb (used d)) (ds_store s) with
               | None => inl ENOMEM | Some i => inr i end
     | Some i =>
         if flag fl DSF_OVERWRITE then
           if default true ((fun d => negb (auth (ds_store s) d (m_source (msg s)) DSF_PRIV_OVERWRITE))
                             <$> aget (ds_store s) i) then inl EPERM else inr i
         else inl EEXIST
     end) s.
Proof.
  intros Hwf. pose proof (wf_ready _ Hwf) as Hr. unfold publish_slot.
  rewrite (bind_ret _ _ (msg s) s s) by done. cbv beta.
  rewrite (bind_ret _ _ _ _ _ (lookup_entry_run _ _ _ Hr)). cbv beta.
  rewrite (bind_ret _ _ (published_at fl k (msg s) (ds_store s)) s s).
  2:{ unfold published_at. destruct (first_index _ _); [done|].
      destruct (flag fl DSF_TYPE_LABEL); [|done]. by apply lookup_label_entry_run. }
  cbv beta. destruct (published_at _ _ _ _) as [i|] eqn:E.
  - destruct (flag fl DSF_OVERWRITE); [|done].
    destruct (published_at_Some _ _ _ _ Hwf E) as (d & Hd & _ & _).
    rewrite (bind_ret _ _ _ _ _ (get_d_run _ _ _ Hd)), Hd. simpl.
    rewrite (bind_ret _ _ _ _ _ (check_auth_run _ _ _ _ Hr)). by destruct (auth _ _ _ _).
  - rewrite (bind_ret _ _ _ _ _ (alloc_data_slot_run _ Hr)). by destruct (first_index _ _).
Qed.
(** What the slot is when there is one. *)
Lemma publish_slot_inr fl k s i s' :
  wf s -> publish_slot fl k s = Ret (inr i) s' ->
  exists d, aget (ds_store s) i = Some d /\ slot_for (Z.land fl DSF_MASK_TYPE) d /\
            (used d = true -> flag fl DSF_OVERWRITE = true).
Proof.
  intros Hwf. rewrite publish_slot_run by done. intros [= Hi _]. revert Hi.
  destruct (published_at _ _ _ _) as [j|] eqn:E.
  - destruct (published_at_Some _ _ _ _ Hwf E) as (d & Hd & _ & Hs).
    destruct (flag fl DSF_OVERWRITE); [|done]. rewrite Hd. simpl.
    destruct (negb _); [done|]. intros [= ->]. by exists d.
  - destruct (first_index _ _) as [j|] eqn:E'; [|done]. intros [= ->].
    apply first_index_Some in E' as (d & Hd & Hu & _). exists d.
    split_and!; [done|..]; intros Hu'; by rewrite Hu' in Hu.
Qed.

Lemma new_block_run n s :
  exists w, new_block n s =
    Ret (if (malloc n (world s)).1 =? 0 then None else Some (malloc n (world s)).1) (s <| world := w |>).
Proof.
  unfold new_block, env, get, mbind, M_bind. destruct (malloc n (world s)) as [p w].
  exists w. simpl. by destruct (p =? 0).
Qed.
Lemma wf_union_mem t x :
  t = DSF_TYPE_STR \/ t = DSF_TYPE_MEM -> wf_union t x -> exists data len rl, x = Mem data len rl.
Proof.
  intros Ht. destruct x as [v|p len rl|p len rp sn k]; simpl; [|eauto|].
  - intros [[->| ->] _]; exfalso; destruct Ht as [E|E]; revert E.
    + by apply (types_ne 0 1). + by apply (types_ne 0 2).
    + by apply (types_ne 4 1). + by apply (types_ne 4 2).
  - intros [-> _]. exfalso. destruct Ht as [E|E]; revert E; [by apply (types_ne 3 1)|by apply (types_ne 3 2)].
Qed.
Lemma aupd_u_id s i d :
  aget (ds_store s) i = Some d -> s = s <| ds_store := aupd i (fun d' => d' <| u := u d |>) (ds_store s) |>.
Proof.
  intros Hd. rewrite aupd_id; [by destruct s|]. intros x Hx. replace x with d by congruence. by destruct d.
Qed.
Lemma zeros_length n : 0 <= n -> Z.of_nat (length (zeros n)) = n.
Proof. intros. unfold zeros. rewrite length_replicate. lia. Qed.
#[local] Instance is_block_dec p : Decision (exists b, p = PBlock b).
Proof. destruct p; [right|left|right]; [by intros [b ?]|by eexists|by intros [b ?]]. Defined.

(** The result of [mem_buffer]: the world changes at most, or the block is lost. *)
Definition with_union s (i : Z) (x : union) (w : W) : state W R :=
  s <| ds_store := aupd i (fun d => d <| u := x |>) (ds_store s) |> <| world := w |>.
Definition buffer_post (s : state W R) (i length : Z) (d : data_store) (t : Z)
    (b : option (ptr * Z)) (s' : state W R) : Prop :=
  match b with
  | None => exists x w, s' = with_union s i x w /\ (used d = true -> wf_union t x)
  | Some (data, rl) => exists w, s' = s <| world := w |> /\ length <= rl /\
      (used d = true -> exists p len rl', u d = Mem p len rl' /\ 0 <= len <= rl) /\
      match data with PBlock b => Z.of_nat (List.length b) = rl | _ => dangling d end
  end.
Lemma mem_buffer_wp i length d t s :
  aget (ds_store s) i = Some d -> t = DSF_TYPE_STR \/ t = DSF_TYPE_MEM -> 0 <= length ->
  (used d = true -> wf_union t (u d)) ->
  wp (mem_buffer i length) (buffer_post s i length d t)
    (fun _ _ => Exists dangling (ds_store s)) s.
Proof.
  intros Hd Ht Hlen Hwf. unfold mem_buffer.
  eapply wp_bind_run; [by apply get_d_run|]. cbv beta.
  destruct (new_block_run length s) as [w Hnew].
  assert (s <| world := w |> = with_union s i (u d) w) as Hsame.
  { unfold with_union. by rewrite <-aupd_u_id. }
  fold (used d). destruct (used d) eqn:Eu; simpl.
  2:{ eapply wp_bind_run; [exact Hnew|]. destruct (_ =? 0); apply wp_ret.
      - exists (u d), w. by rewrite Eu.
      - exists w. rewrite Eu. split_and!; [done|lia|done|by apply zeros_length]. }
  destruct (wf_union_mem _ _ Ht (Hwf eq_refl)) as (p & len & rl & Hu).
  specialize (Hwf eq_refl). rewrite Hu in Hwf. destruct Hwf as (_ & Hle & Hb).
  unfold mem_of. rewrite Hu. eapply wp_bind_run; [reflexivity|]. cbv beta iota.
  assert (p = PFreed -> Exists dangling (ds_store s)) as Hfreed.
  { intros ->. eapply Exists_aget; [done|]. split; [done|]. by exists PFreed, len, rl. }
  destruct (rl <? length) eqn:El; simpl.
  - apply wp_bind. destruct p as [|b|]; simpl; [..|apply wp_halt; by apply Hfreed]; apply wp_ret;
      (eapply wp_bind_run; [exact Hnew|]); (destruct (_ =? 0); [|apply wp_ret]).
    1,3: eapply wp_bind_run; [by apply (set_d_run i d)|]; apply wp_ret;
      exists (Mem PNull len rl), w; split; [done|]; intros _; split_and!; [done|lia..|by intros ? [=]].
    all: exists w; split_and!; [done|lia| |by apply zeros_length];
      intros _; eexists _, len, rl; split; [done|lia].
  - apply wp_ret. exists (world s). split_and!; [by destruct s|lia| |].
    + intros _. by exists p, len, rl.
    + destruct p as [|b|]; [|by apply Hb|]; (split; [done|]); eexists _, _, _; by split.
Qed.

(** What a published entry holds of the message. *)
Definition holds (fl : Z) (m : message) (w : W) (x : union) : Prop :=
  match x with
  | U32 v => v = u32 (DS_VAL m)
  | Mem p len _ =>
      len = u32 (DS_VAL_LEN m) /\ exists b bytes, p = PBlock b /\
      safecopyfrom (m_source m) (DS_VAL m) len w = (OK, bytes) /\
      take (Z.to_nat len) b = if flag fl DSF_TYPE_STR then aupd (len - 1) (fun _ => 0) bytes else bytes
  | Map _ len _ _ k => len = u32 (DS_VAL_LEN m) /\ k = -1
  end.
Definition value_post (fl : Z) (d : data_store) (i : Z) s (r : rc) s' : Prop :=
  exists x w, s' = with_union s i x w /\
    (used d = true -> wf_union (type_of d) x) /\
    (r = OK -> Z.land fl DSF_MASK_TYPE ∈ ds_types /\ wf_union (Z.land fl DSF_MASK_TYPE) x /\
               holds fl (msg s) w x).

Lemma with_union_same s i d w :
  aget (ds_store s) i = Some d -> s <| world := w |> = with_union s i (u d) w.
Proof. intros Hd. unfold with_union. by rewrite <-aupd_u_id. Qed.
Lemma set_u_world s i d w x :
  aget (ds_store s) i = Some d ->
  set_d i (fun d => d <| u := x |>) (s <| world := w |>) = Ret tt (with_union s i x w).
Proof. intros Hd. by rewrite (set_d_run i d). Qed.

Lemma overlay_take (bytes buf : list Z) : take (length bytes) (overlay bytes buf) = bytes.
Proof. unfold overlay. by rewrite take_app_length. Qed.
Lemma take_aupd (bytes buf : list Z) (i : Z) f :
  i < Z.of_nat (length bytes) ->
  take (length bytes) (aupd i f (overlay bytes buf)) = aupd i f bytes.
Proof.
  intros Hi. unfold aupd. case_bool_decide; [|apply overlay_take].
  apply list_eq. intros n. rewrite lookup_take. case_decide as Hn.
  - destruct (decide (n = Z.to_nat i)) as [->|Hne].
    + rewrite !list_lookup_alter_eq. unfold overlay. by rewrite lookup_app_l by lia.
    + rewrite !list_lookup_alter_ne by done. unfold overlay. by rewrite lookup_app_l by lia.
  - symmetry. apply lookup_ge_None. rewrite length_alter. lia.
Qed.

Lemma publish_mem_wp i fl d s :
  let t := Z.land fl DSF_MASK_TYPE in
  aget (ds_store s) i = Some d -> t = DSF_TYPE_STR \/ t = DSF_TYPE_MEM ->
  (used d = true -> type_of d = t /\ wf_union t (u d)) -> fl = DS_FLAGS (msg s) ->
  wp (publish_mem i fl) (value_post fl d i s) (fun _ _ => may_stop s) s.
Proof.
  intros t Hd Ht Hwf Hfl. unfold publish_mem.
  eapply wp_bind_run; [reflexivity|]. cbv beta zeta.
  pose proof (u32_range (DS_VAL_LEN (msg s))) as Hlen. set (length := u32 _) in *.
  apply wp_bind. eapply wp_mono; [by eapply mem_buffer_wp; [done|exact Ht|lia|apply Hwf]|cbv beta|by left].
  intros [[data rl]|] s1.
  2:{ intros (x & w & -> & Hx). apply wp_ret. exists x, w. split_and!; [done| |done].
      intros Hu. rewrite (proj1 (Hwf Hu)). auto. }
  intros (w & -> & Hrl & Hold & Hdata).
  assert (t ∈ ds_types) as Htt by (destruct Ht as [->| ->]; auto with ds).
  eapply wp_bind_run; [by apply (get_d_run i d)|]. cbv beta.
  eapply wp_bind_run; [reflexivity|]. cbv beta.
  set (len := match u d with Mem _ _ _ => _ | _ => _ end).
  assert (used d = true -> 0 <= len <= rl) as Hle.
  { intros Hu. unfold len. by destruct (Hold Hu) as (? & ? & ? & -> & ?). }
  change (world (s <| world := w |>)) with w. change (msg s) with (msg s).
  destruct (safecopyfrom _ _ _ w) as [r bytes] eqn:Ecopy.
  destruct (is_ok r) eqn:Er; simpl.
  2:{ assert (r <> OK) as Hr by (by apply bool_decide_eq_false in Er).
      apply wp_bind. destruct data as [|b|]; simpl; [apply wp_ret..|].
      3:{ apply wp_halt. left. eapply Exists_aget; [exact Hd|exact Hdata]. }
      all: (eapply wp_bind_run; [by eapply set_u_world|]); apply wp_ret; eexists _, w;
        (split; [done|]); (split; [|done]); intros Hu; rewrite (proj1 (Hwf Hu)); split_and!; [done|by apply Hle|by apply Hle|by intros ? [=]]. }
  apply bool_decide_eq_true in Er as ->. pose proof (safecopyfrom_length _ _ _ _ _ Ecopy) as Hb.
  destruct data as [|b|]; simpl; [apply wp_bind, wp_halt; left; by eapply Exists_aget| |
    apply wp_bind, wp_halt; left; by eapply Exists_aget].
  eapply wp_bind_run; [reflexivity|]. cbv beta.
  assert (Z.of_nat (List.length (overlay bytes b)) = rl) as Hbuf by (rewrite length_overlay; lia).
  assert (Z.to_nat length = List.length bytes) as Hlb by lia.
  apply wp_bind. destruct (flag fl DSF_TYPE_STR) eqn:Estr.
  - destruct (decide (length = 0)) as [Hzero|Hpos].
    { apply wp_bind. unfold aget. rewrite bool_decide_false by lia. apply wp_halt.
      do 4 right. by rewrite <-Hfl. }
    destruct (aget_is_Some (overlay bytes b) (length - 1)) as [c Hc]; [lia|].
    eapply wp_bind_run; [by rewrite Hc|]. cbv beta.
    eapply wp_ret_run; [by eapply set_u_world|]. apply wp_ret.
    exists (Mem (PBlock (aupd (length - 1) (fun _ => 0) (overlay bytes b))) length rl), w.
    assert (wf_union t (Mem (PBlock (aupd (length - 1) (fun _ => 0) (overlay bytes b))) length rl)) as Hx.
    { split_and!; [done|lia..|]. intros ? [= <-]. by rewrite length_aupd. }
    split_and!; [done|intros Hu; by rewrite (proj1 (Hwf Hu))|]. intros _. split_and!; [done..|]. split; [done|]. eexists _, _. split_and!; [done..|].
    rewrite Estr, Hlb. apply take_aupd. lia.
  - eapply wp_ret_run; [by eapply set_u_world|]. apply wp_ret.
    exists (Mem (PBlock (overlay bytes b)) length rl), w.
    assert (wf_union t (Mem (PBlock (overlay bytes b)) length rl)) as Hx.
    { split_and!; [done|lia..|]. by intros ? [= <-]. }
    split_and!; [done|intros Hu; by rewrite (proj1 (Hwf Hu))|]. intros _. split_and!; [done..|]. split; [done|]. eexists _, _. split_and!; [done..|].
    rewrite Estr, Hlb. apply overlay_take.
Qed.

Lemma publish_map_wp i fl d s :
  aget (ds_store s) i = Some d -> Z.land fl DSF_MASK_TYPE = DSF_TYPE_MAP -> used d = false ->
  wp (publish_map i) (value_post fl d i s) never s.
Proof.
  intros Hd Ht Hu. unfold publish_map. eapply wp_bind_run; [reflexivity|]. cbv beta zeta.
  pose proof (u32_range (DS_VAL_LEN (msg s))) as Hlen. set (length := u32 (DS_VAL_LEN _)) in *.
  destruct (new_block_run (u32 (length + CLICK_SIZE)) s) as [w Hnew].
  eapply wp_bind_run; [exact Hnew|]. cbv beta.
  destruct (_ =? 0).
  { apply wp_ret. exists (u d), w. split; [by apply with_union_same|]. by rewrite Hu. }
  apply wp_bind. unfold env. apply wp_bind, wp_get. cbv beta.
  destruct (safemap _ _ _ _ _) as [r w']. apply wp_bind, wp_modify, wp_ret.
  destruct (is_ok r) eqn:Er; simpl;
    (eapply wp_bind_run; [exact (set_u_world s i d w' _ Hd)|]); apply wp_ret;
    eexists _, w'; (split; [reflexivity|]); (split; [by rewrite Hu|]).
  - intros _. rewrite Ht. split_and!; [auto with ds| |done].
    split_and!; [done|lia|done|done|done|done|]. lia.
  - intros ->. done.
Qed.

Lemma publish_value_wp i fl d s :
  wf s -> aget (ds_store s) i = Some d -> slot_for (Z.land fl DSF_MASK_TYPE) d ->
  (used d = true -> flag fl DSF_OVERWRITE = true) ->
  flag fl DSF_TYPE_MAP && flag fl DSF_OVERWRITE = false -> fl = DS_FLAGS (msg s) ->
  wp (publish_value i fl) (value_post fl d i s) (fun _ _ => may_stop s) s.
Proof.
  intros Hwf Hd Hslot Hover Hmap Hfl. unfold publish_value.
  eapply wp_bind_run; [reflexivity|]. cbv beta zeta.
  set (t := Z.land fl DSF_MASK_TYPE) in *.
  assert (t ∈ ds_types -> used d = true -> type_of d = t /\ wf_union t (u d)) as Hu.
  { intros Ht Hu. destruct (Forall_aget _ _ _ _ (wf_entries _ Hwf) Hd Hu) as [_ Hx].
    rewrite (Hslot Hu Ht) in Hx. auto. }
  destruct ((t =? DSF_TYPE_U32) || (t =? DSF_TYPE_LABEL)) eqn:E1.
  { assert (t = DSF_TYPE_U32 \/ t = DSF_TYPE_LABEL) as Ht by lia.
    eapply wp_bind_run; [by apply (set_d_run i d)|]. apply wp_ret.
    pose proof (u32_range (DS_VAL (msg s))).
    eexists _, (world s). split; [|split].
    - unfold with_union. by destruct s.
    - intros Hused. destruct Hu as [-> _]; [destruct Ht as [->| ->]; auto with ds|done|by split].
    - intros _. fold t. split_and!; [|by split|done]. destruct Ht as [->| ->]; auto with ds. }
  destruct ((t =? DSF_TYPE_STR) || (t =? DSF_TYPE_MEM)) eqn:E2.
  { assert (t = DSF_TYPE_STR \/ t = DSF_TYPE_MEM) as Ht by lia.
    apply publish_mem_wp; [done..| |done]. apply Hu. destruct Ht as [->| ->]; auto with ds. }
  destruct (t =? DSF_TYPE_MAP) eqn:E3.
  - assert (t = DSF_TYPE_MAP) as Ht by lia.
    eapply wp_mono; [apply publish_map_wp; [done|done|]|done|done].
    apply not_true_iff_false. intros Hused. rewrite Hover in Hmap by done.
    fold t in Hmap. rewrite flag_type in Hmap; [|auto with ds|].
    + fold t in Hmap. by rewrite Ht, bool_decide_true in Hmap.
    + fold t. rewrite Ht. auto with ds.
  - apply wp_ret. exists (u d), (world s). split; [|split; [|done]].
    + rewrite <-with_union_same by done. by destruct s.
    + intros Hused. by destruct (Forall_aget _ _ _ _ (wf_entries _ Hwf) Hd Hused) as [_ Hx].
Qed.

(** What a successful publication leaves: the entry [d'] at [i], which is the one its key
    and type are looked up to, and the subscriptions told of it. *)
Record published_as (s : state W R) (i : Z) (d' : data_store) (s' : state W R) : Prop := {
  pa_old : is_Some (aget (ds_store s) i);
  pa_store : ds_store s' = aupd i (fun _ => d') (ds_store s);
  pa_flags : flags d' = entry_flags (DS_FLAGS (msg s));
  pa_type : type_of d' ∈ ds_types /\ wf_union (type_of d') (u d');
  pa_key : key_of (msg s) (world s) = (OK, key d');
  pa_owner : exists p, procname (m_source (msg s)) (ds_store s) = Some p /\
                       name_at p (ds_store s') = Some (owner d');
  pa_holds : holds (DS_FLAGS (msg s)) (msg s) (world s') (u d');
  pa_first : first_index (is_entry (key d') (type_of d')) (ds_store s') = Some i;
  pa_same : Forall2 same_sub (ds_subs s) (ds_subs s');
  pa_told : Forall compiled (ds_subs s) ->
    ds_subs s' = update_sub (ds_store s') d' i true <$> ds_subs s /\
    notified s' = notified s ++ concat (note (ds_store s') d' <$> ds_subs s);
}.

Lemma is_entry_published k fl d :
  flags d = entry_flags fl -> key d = k -> Z.land fl DSF_MASK_TYPE ∈ ds_types ->
  is_entry k (Z.land fl DSF_MASK_TYPE) d = true.
Proof.
  intros Hf <- Ht. unfold is_entry, used, streq. rewrite Hf, entry_flags_used, bool_decide_true by done.
  rewrite flag_type, entry_flags_type, bool_decide_true; [done..|by rewrite entry_flags_type].
Qed.
(** The slot chosen is the first with the key and the type after it is written. *)
Lemma first_published fl k i d' s s1 :
  wf s -> publish_slot fl k s = Ret (inr i) s1 -> is_entry k (Z.land fl DSF_MASK_TYPE) d' = true ->
  first_index (is_entry k (Z.land fl DSF_MASK_TYPE)) (aupd i (fun _ => d') (ds_store s)) = Some i.
Proof.
  intros Hwf Hslot Hd'.
  destruct (publish_slot_inr _ _ _ _ _ Hwf Hslot) as (d & Hd & _).
  rewrite publish_slot_run in Hslot by done. injection Hslot as Hi _.
  apply first_index_Some. exists d'. rewrite aget_aupd_eq, Hd. split_and!; [done..|].
  intros j y Hj. rewrite aget_aupd_ne by lia. intros Hy. unfold published_at in Hi.
  destruct (first_index (is_entry k _) (ds_store s)) as [i0|] eqn:E.
  - apply first_index_Some in E as (d0 & Hd0 & _ & Hno). apply (Hno j y); [|done].
    destruct (flag fl DSF_OVERWRITE); [|done]. rewrite Hd0 in Hi. simpl in Hi.
    destruct (negb _); [done|]. by injection Hi as ->.
  - apply first_index_None in E. by apply (Forall_aget _ _ _ _ E Hy).
Qed.

Lemma set_attributes_run i fl k p nm d s :
  aget (ds_store s) i = Some d ->
  name_at p (aupd i (fun _ => d <| key := k |>) (ds_store s)) = Some nm ->
  set_attributes i fl k p s =
    Ret tt (s <| ds_store := aupd i (fun _ => d <| key := k |> <| owner := nm |>
                                                <| flags := entry_flags fl |>) (ds_store s) |>).
Proof.
  intros Hd Hnm. unfold set_attributes.
  assert (forall f, aupd i f (ds_store s) = aupd i (fun _ => f d) (ds_store s)) as Hf.
  { intros f. apply aupd_ext. congruence. }
  rewrite (bind_ret _ _ _ _ _ (set_d_run i d _ s Hd)). cbv beta. rewrite Hf.
  set (s2 := s <| ds_store := _ |>).
  assert (name_at p (ds_store s2) = Some nm) as Hnm2 by done.
  rewrite (bind_ret _ _ _ _ _ (read_name_run _ _ _ Hnm2)). cbv beta.
  rewrite (set_d_run i (d <| key := k |>)) by (simpl; by rewrite aget_aupd_eq, Hd).
  unfold s2. f_equal. unfold upd. simpl. f_equal. by rewrite aupd_aupd.
Qed.
Lemma name_at_set p i f d (l : list data_store) :
  is_Some (name_at p l) -> aget l i = Some d -> is_Some (name_at p (aupd i f l)).
Proof.
  destruct p as [|j]; [by eexists|]. simpl. intros [nm Hnm] Hd.
  apply fmap_Some in Hnm as (dj & Hdj & _). rewrite aget_aupd, Hdj. case_decide; by eexists.
Qed.

(** The end of a publication, once the value is in the slot. *)
Lemma publish_end_wp i p d x w s :
  let fl := DS_FLAGS (msg s) in let t := Z.land fl DSF_MASK_TYPE in
  let s1 := with_union s i x w in
  forall k, key_of (msg s) (world s) = (OK, k) ->
  wf s -> wf s1 -> aget (ds_store s) i = Some d -> procname (m_source (msg s)) (ds_store s) = Some p ->
  publish_slot fl k s = Ret (inr i) s -> t ∈ ds_types -> wf_union t x -> holds fl (msg s) w x ->
  wp (set_attributes i fl k p;; update_subscribers i true;; mret OK)
    (fun r s' => wf s' /\ (r = OK -> exists i d', published_as s i d' s')) (fun _ _ => may_stop s) s1.
Proof.
  intros fl t s1 k Hk Hwf Hwf1 Hd Hp Hslot Ht Hx Hh.
  assert (aget (ds_store s1) i = Some (d <| u := x |>)) as Hd1.
  { unfold s1, with_union. simpl. by rewrite aget_aupd_eq, Hd. }
  destruct (name_at_set p i (fun _ => d <| u := x |> <| key := k |>) (d <| u := x |>) (ds_store s1)) as [nm Hnm];
    [|done|].
  { unfold s1, with_union. simpl. eapply name_at_set; [by eapply procname_at|done]. }
  eapply wp_bind_run; [by apply set_attributes_run|]. cbv beta.
  set (d' := d <| u := x |> <| key := k |> <| owner := nm |> <| flags := entry_flags fl |>).
  set (s3 := s1 <| ds_store := _ |>).
  assert (ds_store s3 = aupd i (fun _ => d') (ds_store s)) as Hst3.
  { unfold s3, s1, with_union. simpl. by rewrite aupd_aupd. }
  assert (type_of d' = t) as Htd by apply entry_flags_type.
  assert (wf s3) as Hwf3.
  { apply (wf_set_store s1); [done|]. intros _ _ _. fold d'. by rewrite Htd. }
  assert (aget (ds_store s3) i = Some d') as Hd3 by (by rewrite Hst3, aget_aupd_eq, Hd).
  pose proof (wf_ready _ Hwf3) as Hr3. pose proof (wf_subs _ Hwf3) as Hl3.
  apply wp_bind. eapply wp_mono.
  { apply wp_conj; [by apply (update_subscribers_wp i true d')|].
    instantiate (1 := fun _ s' => Forall compiled (ds_subs s) ->
      ds_subs s' = update_sub (ds_store s3) d' i true <$> ds_subs s /\
      notified s' = notified s ++ concat (note (ds_store s3) d' <$> ds_subs s)).
    destruct (decide (Forall compiled (ds_subs s))) as [Hc|Hc].
    - eapply wp_ret_run; [by apply (update_subscribers_run i true d')|]. done.
    - eapply wp_mono; [by apply (update_subscribers_wp i true d')|done|done]. }
  2:{ intros wh sh Hc. right. right. by left. }
  intros [] s' [(l & o & -> & Hl) Htold]. apply wp_ret. split.
  { apply (wf_eq (s3 <| ds_store := aupd i (fun d => d) (ds_store s3) |> <| ds_subs := l |> <| notified := o |>));
      [rewrite aupd_id; [done|by intros]|done|].
    apply wf_set; [done| |done]. intros d0 Hd0. by apply (Forall_aget _ _ _ _ (wf_entries _ Hwf3) Hd0). }
  intros _. exists i, d'. constructor; try done.
  - by rewrite Htd.
  - exists p. split; [done|]. change (name_at p (ds_store s3) = Some nm). rewrite Hst3.
    revert Hnm. unfold s1, with_union. simpl. rewrite aupd_aupd. destruct p as [|j]; [done|]. simpl.
    rewrite !aget_aupd. by case_decide as E; [rewrite <-E, Hd|].
  - rewrite Htd. change (ds_store _) with (ds_store s3). rewrite Hst3. change (key d') with k.
    eapply first_published; [done|exact Hslot|]. by apply is_entry_published.
Qed.

Lemma do_publish_wp s :
  wf s ->
  wp do_publish (fun r s' => wf s' /\ (r = OK -> exists i d', published_as s i d' s'))
    (fun _ _ => may_stop s) s.
Proof.
  intros Hwf. pose proof (wf_ready _ Hwf) as Hr. unfold do_publish.
  eapply wp_bind_run; [reflexivity|]. cbv beta zeta.
  eapply wp_bind_run; [by apply ds_getprocname_run|]. cbv beta.
  destruct (procname _ _) as [p|] eqn:Ep; [|by apply wp_ret].
  destruct (flag _ DSF_TYPE_LABEL && _); [by apply wp_ret|].
  destruct (flag _ DSF_TYPE_MAP && _) eqn:Emap; [by apply wp_ret|].
  rewrite wp_read_key.
  destruct (key_read _ _ _) as [r buf] eqn:Ekey.
  destruct (is_ok r) eqn:Er; [|apply wp_ret; by split; [|intros ->]].
  apply bool_decide_eq_true in Er as ->. simpl negb. cbv iota zeta.
  set (fl := DS_FLAGS (msg s)) in *. set (k := cstr buf).
  assert (key_of (msg s) (world s) = (OK, k)) as Hk by (unfold key_of; by rewrite Ekey).
  destruct (publish_slot fl k s) as [[r|i] s1|] eqn:Eslot;
    [..|by rewrite publish_slot_run in Eslot];
    (assert (s1 = s) as -> by (rewrite publish_slot_run in Eslot by done; by injection Eslot)).
  { eapply wp_bind_run; [exact Eslot|]. apply wp_ret. split; [done|]. intros ->.
    rewrite publish_slot_run in Eslot by done. repeat case_match; simplify_eq. }
  eapply wp_bind_run; [exact Eslot|]. cbv beta iota.
  destruct (publish_slot_inr _ _ _ _ _ Hwf Eslot) as (d & Hd & Hslot & Hover).
  apply wp_bind. eapply wp_mono; [by eapply publish_value_wp|cbv beta|done].
  intros r s1 (x & w & -> & Hx & Hok).
  assert (wf (with_union s i x w)) as Hwf1.
  { eapply wf_eq; [| |apply (wf_set_store s i (fun d => d <| u := x |>) Hwf)]; [done..|].
    intros d0 Hd0 Hu0. replace d0 with d in * by congruence.
    destruct (Forall_aget _ _ _ _ (wf_entries _ Hwf) Hd Hu0) as [Ht _].
    split; [exact Ht|]. by apply Hx. }
  destruct (is_ok r) eqn:Er; simpl.
  2:{ apply wp_ret. split; [done|]. by intros ->. }
  apply bool_decide_eq_true in Er as ->. destruct (Hok eq_refl) as (Ht & Hxt & Hh).
  by eapply publish_end_wp.
Qed.

(** ** retrieve *)
Lemma wp_ds_env {A} (f : W -> A * W) (Q : A -> state W R -> Prop) E s :
  Q (f (world s)).1 (s <| world := (f (world s)).2 |>) -> wp (env f) Q E s.
Proof. unfold wp, env, get, mbind, M_bind. by destruct (f (world s)). Qed.
Lemma ds_env_run {A} (f : W -> A * W) s :
  env f s = Ret (f (world s)).1 (s <| world := (f (world s)).2 |>).
Proof. unfold env, get, mbind, M_bind. by destruct (f (world s)). Qed.
Lemma wf_any_world s w : wf s -> wf (s <| world := w |>). Proof. by intros []. Qed.
Lemma wf_msg s m : wf s -> wf (s <| msg := m |>). Proof. by intros []. Qed.

Lemma entry_found k t i s :
  wf s -> t ∈ ds_types -> first_index (is_entry k t) (ds_store s) = Some i ->
  exists d, aget (ds_store s) i = Some d /\ used d = true /\ type_of d = t /\ key d = k /\
            wf_union t (u d).
Proof.
  intros Hwf Ht (d & Hd & Hp & _)%first_index_Some. exists d.
  apply andb_true_iff in Hp as [[Hu Hf]%andb_true_iff Hk]. apply bool_decide_eq_true in Hk.
  destruct (Forall_aget _ _ _ _ (wf_entries _ Hwf) Hd Hu) as [Htd Hx]. unfold type_of in *.
  rewrite flag_type in Hf by done. apply bool_decide_eq_true in Hf. rewrite Hf in Hx. by split_and!.
Qed.

(** The copy of bytes to the caller with the length put in the reply. *)
Definition copied (bytes : list Z) (n : Z) (s : state W R) : outcome (state W R) rc :=
  let m := msg s in
  let '(r, w) := safecopyto (m_source m) (DS_VAL m) bytes (world s) in
  if is_ok r then Ret OK (s <| world := w |> <| msg := m <| DS_VAL_LEN := s32 n |> |>)
  else Ret r (s <| world := w |>).
Lemma copied_run (bytes : list Z) n (m : message) s :
  m = msg s ->
  (r ← copy_to (DS_VAL m) bytes;
   if negb (is_ok r) then mret r else
   set_msg (fun m => m <| DS_VAL_LEN := s32 n |>);; mret OK) s = copied bytes n s.
Proof.
  intros ->. unfold copied. erewrite (bind_ret (copy_to _ _)) by (unfold copy_to;
    rewrite (bind_ret _ _ (msg s) s s) by done; apply ds_env_run).
  cbv beta. destruct (safecopyto _ _ _ _) as [r w]. simpl. by destruct (is_ok r).
Qed.
Lemma copied_wf (bytes : list Z) n s r s' : wf s -> copied bytes n s = Ret r s' -> wf s'.
Proof.
  intros Hwf. unfold copied. destruct (safecopyto _ _ _ _) as [r1 w].
  destruct (is_ok r1); intros [= _ <-]; (eapply wf_eq; [| |exact Hwf]; done).
Qed.
Lemma wp_copied (bytes : list Z) n s E : wf s -> 
  match copied bytes n s with Ret _ s' => wf s' | Halt w s' => E w s' end.
Proof.
  intros Hwf. destruct (copied bytes n s) eqn:E1; [by eapply copied_wf|].
  unfold copied in E1. destruct (safecopyto _ _ _ _) as [r1 w']. by destruct (is_ok r1).
Qed.

Lemma first_bytes_run (b : list Z) n s :
  n <= Z.of_nat (length b) -> first_bytes b n s = Ret (take (Z.to_nat n) b) s.
Proof. intros Hn. unfold first_bytes. by replace (_ <=? _) with true by lia. Qed.

Lemma retrieve_mem_run d b len rl s :
  u d = Mem (PBlock b) len rl -> len <= Z.of_nat (length b) ->
  let n := Z.min (u32 (DS_VAL_LEN (msg s))) len in
  retrieve_mem d s = copied (take (Z.to_nat n) b) n s.
Proof.
  intros Hu Hlen n. unfold retrieve_mem. rewrite (bind_ret _ _ (msg s) s s) by done. cbv beta.
  unfold mem_of. rewrite Hu. rewrite (bind_ret _ _ _ _ _ (mret_run _ _)). cbv beta iota zeta.
  rewrite (bind_ret _ _ b s s) by done. cbv beta.
  assert (n <= Z.of_nat (length b)) as Hn by (unfold n; lia).
  rewrite (bind_ret _ _ _ _ _ (first_bytes_run _ _ _ Hn)). by apply copied_run.
Qed.

Lemma retrieve_mem_wp d i s :
  wf s -> aget (ds_store s) i = Some d -> used d = true ->
  type_of d = DSF_TYPE_STR \/ type_of d = DSF_TYPE_MEM ->
  wp (retrieve_mem d) (fun _ s' => wf s') (fun _ _ => may_stop s) s.
Proof.
  intros Hwf Hd Hu Ht. destruct (Forall_aget _ _ _ _ (wf_entries _ Hwf) Hd Hu) as [_ Hx].
  destruct (wf_union_mem _ _ Ht Hx) as (p & len & rl & Hud). rewrite Hud in Hx.
  destruct Hx as (_ & Hle & Hb).
  destruct (decide (exists b, p = PBlock b)) as [[b ->]|Hp].
  - unfold wp. rewrite (retrieve_mem_run _ _ _ _ _ Hud) by (rewrite (Hb b) by done; lia).
    by apply wp_copied.
  - unfold retrieve_mem. eapply wp_bind_run; [reflexivity|]. cbv beta. unfold mem_of. rewrite Hud.
    eapply wp_bind_run; [reflexivity|]. cbv beta iota. apply wp_bind.
    destruct p as [|b|]; [..|destruct Hp; by exists b|]; apply wp_halt; left;
      (eapply Exists_aget; [done|]); (split; [done|]); eexists _, _, _; by split.
Qed.

Lemma wf_map d i s :
  wf s -> aget (ds_store s) i = Some d -> used d = true -> type_of d = DSF_TYPE_MAP ->
  exists a len rp sn k, u d = Map a len rp sn k /\ 0 <= len /\ rp = PBlock [] /\
    Z.of_nat (length sn) = NR_DS_SNAPSHOT /\ -1 <= k < NR_DS_SNAPSHOT /\
    forall j, 0 <= j <= k -> exists b, aget sn j = Some (PBlock b) /\ Z.of_nat (length b) = len.
Proof.
  intros Hwf Hd Hu Ht. destruct (Forall_aget _ _ _ _ (wf_entries _ Hwf) Hd Hu) as [_ Hx].
  rewrite Ht in Hx. destruct (u d) as [v|p len rl|a len rp sn k]; simpl in Hx.
  - exfalso. destruct Hx as [[E|E] _]; revert E; [by apply (types_ne 3 0)|by apply (types_ne 3 4)].
  - exfalso. destruct Hx as [[E|E] _]; revert E; [by apply (types_ne 3 1)|by apply (types_ne 3 2)].
  - exists a, len, rp, sn, k. tauto.
Qed.

Lemma retrieve_map_wp d i s :
  wf s -> aget (ds_store s) i = Some d -> used d = true -> type_of d = DSF_TYPE_MAP ->
  wp (retrieve_map d) (fun _ s' => wf s') never s.
Proof.
  intros Hwf Hd Hu Ht. destruct (wf_map _ _ _ Hwf Hd Hu Ht) as (a & len & rp & sn & k & Hud & Hlen & Hrp & Hsn & Hk & Hb).
  unfold retrieve_map. eapply wp_bind_run; [reflexivity|]. cbv beta zeta.
  unfold map_of. rewrite Hud. eapply wp_bind_run; [reflexivity|]. cbv beta iota.
  destruct (flag _ DSMF_MAP_MAPPED).
  { apply wp_bind, wp_ds_env. destruct (negb _); [by apply wp_ret, wf_any_world|].
    apply wp_bind, wp_modify, wp_ret. by apply wf_msg, wf_any_world. }
  destruct (flag _ _); [|by apply wp_ret].
  destruct (negb _ && _) eqn:Eidx; [by apply wp_ret|].
  set (n := Z.min _ _).
  assert (forall b, wp (r ← copy_to (DS_VAL (msg s)) b; if negb (is_ok r) then mret r else
    set_msg (fun m => m <| DS_VAL_LEN := s32 n |>);; mret OK) (fun _ s' => wf s') never s) as Hcopy.
  { intros b. unfold wp. rewrite copied_run by done. by apply wp_copied. }
  apply wp_bind. destruct (flag (DS_FLAGS (msg s)) DSMF_COPY_MAPPED); simpl in Eidx.
  - apply wp_gets. apply Hcopy.
  - unfold check_snapshot_index in Eidx. set (idx := DS_NR_SNAPSHOT (msg s)) in *.
    apply negb_false_iff in Eidx.
    assert (0 <= idx <= k) as Hidx .
    { replace (k <? NR_DS_SNAPSHOT) with true in Eidx by lia. lia. }
    rewrite Z.rem_small by lia. destruct (Hb idx Hidx) as (b & Hsb & Hlb). rewrite Hsb.
    apply wp_bind. eapply (wp_ret_run _ _ _ (PBlock b) s s); [done|].
    eapply wp_bind_run; [reflexivity|]. cbv beta.
    eapply wp_ret_run; [apply first_bytes_run; lia|]. apply Hcopy.
Qed.

Lemma do_retrieve_wp s :
  wf s -> wp do_retrieve (fun _ s' => wf s') (fun _ _ => may_stop s) s.
Proof.
  intros Hwf. pose proof (wf_ready _ Hwf) as Hr. unfold do_retrieve.
  eapply wp_bind_run; [reflexivity|]. cbv beta zeta. rewrite wp_read_key.
  destruct (key_read _ _ _) as [r buf]. destruct (is_ok r); [|by apply wp_ret].
  set (t := Z.land _ _). simpl negb. cbv iota.
  eapply wp_bind_run; [by apply lookup_entry_run|]. cbv beta.
  destruct (first_index _ _) as [i|] eqn:E; [|by apply wp_ret].
  assert (exists d, aget (ds_store s) i = Some d) as [d Hd]
    by (apply first_index_Some in E as (d & ? & _); eauto).
  eapply wp_bind_run; [by apply get_d_run|]. cbv beta.
  eapply wp_bind_run; [by apply check_auth_run|]. cbv beta.
  destruct (auth _ _ _ _); [|by apply wp_ret]. simpl. unfold retrieve_value.
  assert (t ∈ ds_types -> used d = true /\ type_of d = t /\ wf_union t (u d)) as Hdt.
  { intros Ht. destruct (entry_found _ _ _ _ Hwf Ht E) as (d' & Hd' & ?).
    replace d with d' by congruence. tauto. }
  destruct (_ || _) eqn:E1.
  { assert (t = DSF_TYPE_U32 \/ t = DSF_TYPE_LABEL) as Ht by lia.
    destruct Hdt as (Hu & Htd & Hx); [destruct Ht as [->| ->]; auto with ds|].
    apply wp_bind. destruct (u d) as [v|p len rl|a len rp sn k] eqn:Eu; unfold u32_of; rewrite Eu.
    - apply wp_ret. apply wp_bind, wp_modify, wp_ret. by apply wf_msg.
    - exfalso. destruct Hx as [Hx _]. destruct Ht as [Ht|Ht]; rewrite Ht in Hx; destruct Hx as [Hx|Hx]; revert Hx;
        first [by apply (types_ne 0 1)|by apply (types_ne 0 2)|by apply (types_ne 4 1)|by apply (types_ne 4 2)].
    - exfalso. destruct Hx as [Hx _]. destruct Ht as [Ht|Ht]; rewrite Ht in Hx; revert Hx;
        first [by apply (types_ne 0 3)|by apply (types_ne 4 3)]. }
  destruct ((t =? DSF_TYPE_STR) || _) eqn:E2.
  { assert (t = DSF_TYPE_STR \/ t = DSF_TYPE_MEM) as Ht by lia.
    destruct Hdt as (Hu & Htd & Hx); [destruct Ht as [->| ->]; auto with ds|].
    rewrite <-Htd in Ht. by eapply retrieve_mem_wp. }
  destruct (t =? DSF_TYPE_MAP) eqn:E3; [|by apply wp_ret].
  assert (t = DSF_TYPE_MAP) as Ht by lia. destruct Hdt as (Hu & Htd & Hx); [rewrite Ht; auto with ds|].
  rewrite Ht in Htd. eapply wp_mono; [by eapply retrieve_map_wp|done|done].
Qed.

Lemma do_retrieve_label_wp s : wf s -> wp do_retrieve_label (fun _ s' => wf s') never s.
Proof.
  intros Hwf. pose proof (wf_ready _ Hwf) as Hr. unfold do_retrieve_label.
  eapply wp_bind_run; [reflexivity|]. cbv beta.
  eapply wp_bind_run; [by apply lookup_label_entry_run|]. cbv beta.
  destruct (first_index _ _) as [i|] eqn:E; [|by apply wp_ret].
  apply first_index_Some in E as (d & Hd & _).
  eapply wp_bind_run; [by apply get_d_run|]. cbv beta.
  eapply wp_bind_run; [reflexivity|]. apply wp_ds_env. by apply wf_any_world.
Qed.

(** ** subscribe *)
Lemma wf_set_sub s i f :
  wf s -> (forall x, length (old_subs (f x)) = length (old_subs x)) ->
  wf (s <| ds_subs := aupd i f (ds_subs s) |>).
Proof.
  intros [] Hf. constructor; simpl; [done|by rewrite length_aupd|done|].
  apply Forall_aupd; [done|]. intros x Hx. rewrite Hf. by apply (Forall_aget _ _ _ _ wf_maps0 Hx).
Qed.
Lemma subscribe_regex_run s : exists x, subscribe_regex s = Ret x s.
Proof.
  unfold subscribe_regex, local_array.
  rewrite (bind_ret _ _ (take (Z.to_nat (DS_MAX_KEYLEN + 3)) (stack (world s))) s s) by done. cbv beta zeta.
  erewrite bind_ret by (apply get_key_name_run; rewrite length_aupd, length_take;
    pose proof (stack_length (world s)); pose proof KEYLEN_range; lia).
  destruct (key_read _ _ _) as [r buf]. by eexists.
Qed.

Definition has_regex (i : Z) s : Prop := exists x, aget (ds_subs s) i = Some x /\ is_Some (s_regex x).
Lemma has_regex_set i x f s :
  aget (ds_subs s) i = Some x -> is_Some (s_regex (f x)) ->
  has_regex i (s <| ds_subs := aupd i f (ds_subs s) |>).
Proof. intros Hx Hf. eexists. simpl. by rewrite aget_aupd_eq, Hx. Qed.
Lemma initial_list_wp i t s :
  wf s -> has_regex i s -> wp (initial_list i t) (fun _ s' => wf s') never s.
Proof.
  intros Hwf Hi. unfold initial_list. eapply wp_bind_run; [reflexivity|]. cbv beta.
  apply wp_bind. apply (wp_fold _ _ _ (fun _ _ s' => wf s' /\ has_regex i s')); [by split| |].
  - clear Hwf Hi. intros pre j post found s' [Hj Hjr]%seqZ_visit [Hwf Hi].
    pose proof (wf_ready _ Hwf) as Hr.
    destruct (aget_is_Some (ds_store s') j) as [d Hd]; [rewrite (wf_store _ Hwf); lia|].
    eapply wp_bind_run; [by apply get_d_run|]. cbv beta.
    destruct (negb _); [by apply wp_ret|]. destruct (negb _); [by apply wp_ret|].
    destruct Hi as (x & Hx & Hrx). assert (has_regex i s') as Hi by (by exists x).
    eapply wp_bind_run; [by apply get_sub_run|]. cbv beta.
    eapply wp_bind_run; [by apply check_sub_match_run|]. cbv beta.
    destruct (negb _); [by apply wp_ret|].
    eapply wp_bind_run; [by apply (set_sub_run i x)|]. apply wp_ret. split.
    + apply wf_set_sub; [done|]. intros y. simpl. by rewrite length_aupd.
    + eexists. simpl. rewrite aget_aupd_eq, Hx. by split.
  - intros found s' [Hwf' _]. destruct found; [|by apply wp_ret].
    apply wp_modify. by destruct Hwf'.
Qed.

Lemma do_subscribe_wp s : wf s -> wp do_subscribe (fun _ s' => wf s') never s.
Proof.
  intros Hwf. pose proof (wf_ready _ Hwf) as Hr. pose proof (wf_subs _ Hwf) as Hl.
  unfold do_subscribe. eapply wp_bind_run; [reflexivity|]. cbv beta.
  eapply wp_bind_run; [by apply ds_getprocname_run|]. cbv beta.
  destruct (procname _ _) as [p|] eqn:Ep; [|by apply wp_ret].
  destruct (procname_at _ _ _ Ep) as [nm Hnm].
  eapply wp_bind_run; [by apply read_name_run|]. cbv beta.
  eapply wp_bind_run; [by apply lookup_sub_run|]. cbv beta.
  apply wp_bind. apply (wp_mono _ (fun slot s' => s' = s /\
    match slot with inl _ => True | inr i => exists x, aget (ds_subs s) i = Some x end) _ never);
    [|intros [r|i] s1 [-> Hi]|done].
  - destruct (first_index _ _) as [i|] eqn:E.
    + apply first_index_Some in E as (x & Hx & _). apply wp_ret. destruct (flag _ _); eauto.
    + eapply wp_bind_run; [by apply alloc_sub_slot_run|]. apply wp_ret.
      match goal with |- context [match ?o with Some i => inr i | None => _ end] =>
        destruct o as [i|] eqn:E'; [|by split] end.
      apply first_index_Some in E' as (x & Hx & _). eauto.
  - by apply wp_ret.
  - destruct Hi as [x Hx]. destruct (subscribe_regex_run s) as [[r rg] Hrg].
    eapply wp_bind_run; [exact Hrg|]. cbv beta iota. destruct (negb _); [by apply wp_ret|].
    eapply wp_bind_run; [by apply (set_sub_run i x)|]. cbv beta.
    set (s1 := s <| ds_subs := _ |>).
    assert (wf s1) as Hwf1 by (by apply wf_set_sub).
    case_bool_decide as Erg; [by apply wp_ret|]. cbv zeta.
    assert (aget (ds_subs s1) i = Some (x <| s_regex := regcomp rg |>)) as Hx1.
    { unfold s1. simpl. by rewrite aget_aupd_eq, Hx. }
    eapply wp_bind_run; [by apply (set_sub_run i (x <| s_regex := regcomp rg |>) _ s1)|]. cbv beta.
    set (s2 := s1 <| ds_subs := _ |>).
    assert (wf s2) as Hwf2.
    { apply wf_set_sub; [done|]. intros y. simpl. by rewrite length_replicate. }
    apply wp_bind. apply (wp_mono _ (fun _ s' => wf s') _ never); [|intros [] s3 Hwf3; by apply wp_ret|done].
    destruct (flag _ DSF_INITIAL); [|by apply wp_ret]. apply initial_list_wp; [done|].
    apply (has_regex_set _ _ _ s1 Hx1). simpl. destruct (regcomp rg); [by eexists|done].
Qed.

(** ** check *)
(** The first entry that is pending for a subscription. *)
Definition pending (x : subscription R) : option Z :=
  first_index id (take (Z.to_nat NR_DS_KEYS) (old_subs x)).
Lemma pending_run x s :
  0 <= NR_DS_KEYS <= Z.of_nat (length (old_subs x)) ->
  (for_ (seqZ 0 NR_DS_KEYS) (fun i =>
     b ← deref (aget (old_subs x) i); mret (if b : bool then Some i else None))) s
  = Ret (pending x) s.
Proof.
  intros Hlen. unfold pending. set (l := take _ _).
  assert (Z.of_nat (length l) = NR_DS_KEYS) as Hl by (unfold l; rewrite length_take; lia).
  rewrite (for_search id id l); [by destruct (first_index _ _)|done|].
  intros i b. unfold l. rewrite lookup_take, aget_nat. case_decide; [|done]. by intros ->.
Qed.
Lemma pending_Some x i : pending x = Some i -> aget (old_subs x) i = Some true /\ 0 <= i < NR_DS_KEYS.
Proof.
  intros (b & [Hi Hb]%aget_Some & Hid & _)%first_index_Some.
  rewrite lookup_take in Hb. case_decide; [|done]. destruct b; [|done].
  split; [by apply aget_Some|lia].
Qed.

(** What a check does to the entry [d] at [i] that is pending for subscription [j]. *)
Definition check_entry (i j : Z) (d : data_store) (s : state W R) : outcome (state W R) rc :=
  let m := msg s in
  let '(r, w) := safecopyto (m_source m) (DS_KEY_GRANT m) (key d ++ [0]) (world s) in
  if negb (is_ok r) then Ret r (s <| world := w |>) else
  if procep (owner d) (ds_store s) =? -1 then Halt Panic (s <| world := w |>) else
  Ret OK (s <| world := w |>
            <| msg := m <| DS_FLAGS := type_of d |> <| DS_OWNER := procep (owner d) (ds_store s) |> |>
            <| ds_subs := aupd j (mark i false) (ds_subs s) |>).

Lemma do_check_run s :
  wf s ->
  do_check s =
    match caller_name (m_source (msg s)) (ds_store s) with
    | None => Ret ESRCH s
    | Some nm =>
        match first_index (is_sub nm) (ds_subs s) with
        | None => Ret ESRCH s
        | Some j =>
            match aget (ds_subs s) j ≫= pending with
            | None => Ret ENOENT s
            | Some i => match aget (ds_store s) i with
                        | Some d => check_entry i j d s
                        | None => Halt Undef s
                        end
            end
        end
    end.
Proof.
  intros Hwf. pose proof (wf_ready _ Hwf) as Hr. pose proof (wf_subs _ Hwf) as Hl.
  unfold do_check. rewrite (bind_ret _ _ (msg s) s s) by done. cbv beta.
  rewrite (bind_ret _ _ _ _ _ (ds_getprocname_run _ _ Hr)). unfold caller_name. cbv beta.
  destruct (procname _ _) as [p|] eqn:Ep; [|done]. simpl.
  destruct (procname_at _ _ _ Ep) as [nm Hnm]. rewrite (bind_ret _ _ _ _ _ (read_name_run _ _ _ Hnm)), Hnm.
  rewrite (bind_ret _ _ _ _ _ (lookup_sub_run _ _ Hl)). cbv beta.
  destruct (first_index _ _) as [j|] eqn:Ej; [|done].
  apply first_index_Some in Ej as (x & Hx & _). rewrite Hx. simpl.
  rewrite (bind_ret _ _ _ _ _ (get_sub_run _ _ _ Hx)). cbv beta.
  pose proof (wf_store _ Hwf) as Hst.
  assert (0 <= NR_DS_KEYS <= Z.of_nat (length (old_subs x))) as Hmap.
  { split; [lia|]. by apply (Forall_aget _ _ _ _ (wf_maps _ Hwf) Hx). }
  rewrite (bind_ret _ _ _ _ _ (pending_run _ _ Hmap)). cbv beta.
  destruct (pending x) as [i|] eqn:Ei; [|done]. apply pending_Some in Ei as [Hi Hir].
  destruct (aget_is_Some (ds_store s) i) as [d Hd]; [lia|]. rewrite Hd.
  rewrite (bind_ret _ _ _ _ _ (get_d_run _ _ _ Hd)). cbv beta. unfold check_entry, copy_to.
  erewrite (bind_ret (m_ptr ≫= _)) by (rewrite (bind_ret _ _ (msg s) s s) by done; apply ds_env_run).
  cbv beta. destruct (safecopyto _ _ _ _) as [r w]. cbn [fst snd]. destruct (is_ok r); [|done]. cbn [negb].
  erewrite bind_ret by (apply ds_getprocep_run; by destruct Hr). cbv beta.
  change (ds_store (s <| world := w |>)) with (ds_store s). destruct (_ =? -1); [done|].
  erewrite bind_ret by reflexivity. cbv beta.
  by erewrite bind_ret by (by apply (set_sub_run j x)).
Qed.
Lemma check_entry_wp i j d x s :
  wf s -> aget (ds_store s) i = Some d -> aget (ds_subs s) j = Some x -> aget (old_subs x) i = Some true ->
  match check_entry i j d s with Ret _ s' => wf s' | Halt _ _ => may_stop s end.
Proof.
  intros Hwf Hd Hx Hi. unfold check_entry. destruct (safecopyto _ _ _ _) as [r w].
  destruct (negb _); [by apply wf_any_world|]. destruct (_ =? -1) eqn:E.
  - do 3 right. left. exists x, i, d. split_and!; [|done|done|lia].
    apply aget_Some in Hx as [_ Hx]. by eapply list_elem_of_lookup_2.
  - apply (wf_eq (s <| ds_subs := aupd j (mark i false) (ds_subs s) |>)); [done|done|].
    apply wf_set_sub; [done|]. intros y. simpl. by rewrite length_aupd.
Qed.
Lemma do_check_wp s : wf s -> wp do_check (fun _ s' => wf s') (fun _ _ => may_stop s) s.
Proof.
  intros Hwf. unfold wp. rewrite do_check_run by done.
  destruct (caller_name _ _) as [nm|]; [|done].
  destruct (first_index _ _) as [j|] eqn:Ej; [|done]. apply first_index_Some in Ej as (x & Hx & _).
  rewrite Hx. simpl. destruct (pending x) as [i|] eqn:Ei; [|done]. apply pending_Some in Ei as [Hi Hir].
  destruct (aget_is_Some (ds_store s) i) as [d Hd]; [rewrite (wf_store _ Hwf); lia|]. rewrite Hd.
  by eapply check_entry_wp.
Qed.

(** ** delete *)
Definition still_compiled s s' : Prop := Forall compiled (ds_subs s) -> Forall compiled (ds_subs s').
Definition clear (d : data_store) : data_store := d <| flags := 0 |>.
Lemma clear_unused d : used (clear d) = false.
Proof. done. Qed.
Lemma wf_clear s i : wf s -> wf (s <| ds_store := aupd i clear (ds_store s) |>).
Proof. intros Hwf. apply wf_set_store; [done|]. by intros d _ Hu. Qed.

Lemma cleanup_label_wp i s :
  wf s -> 0 <= i < NR_DS_KEYS ->
  wp (cleanup_label i) (fun _ s' => wf s' /\ still_compiled s s') never s.
Proof.
  intros Hwf Hi. unfold cleanup_label.
  destruct (aget_is_Some (ds_store s) i) as [d Hd]; [by rewrite (wf_store _ Hwf)|].
  eapply wp_bind_run; [by apply get_d_run|]. cbv beta zeta.
  apply wp_bind. apply (wp_foreach _ _ (fun _ s' => wf s' /\ still_compiled s s')); [split; [exact Hwf|exact id]|..].
  - intros pre j post s' [Hj Hjr]%seqZ_visit [Hwf' Hc].
    destruct (aget_is_Some (ds_subs s') j) as [x Hx]; [rewrite (wf_subs _ Hwf'); lia|].
    eapply wp_bind_run; [by apply get_sub_run|]. cbv beta. destruct (_ && _); [|apply wp_ret; split; [exact Hwf'|exact Hc]].
    eapply wp_ret_run; [by apply (set_sub_run j x)|]. split; [by apply wf_set_sub|].
    intros Hall. simpl. apply Forall_aupd; [by apply Hc|]. by intros y _ Hy.
  - intros s1 Hs1. apply (wp_foreach _ _ (fun _ s' => wf s' /\ still_compiled s s')); [exact Hs1|..|done].
    intros pre j post s' [Hj Hjr]%seqZ_visit [Hwf' Hc].
    destruct (aget_is_Some (ds_store s') j) as [x Hx]; [rewrite (wf_store _ Hwf'); lia|].
    eapply wp_bind_run; [by apply get_d_run|]. cbv beta. destruct (_ && _); [|apply wp_ret; split; [exact Hwf'|exact Hc]].
    eapply wp_ret_run; [by apply (set_d_run j x)|]. split; [by apply wf_clear|exact Hc].
Qed.

(** After the value is deleted the entry may only be cleared. *)
Record deletable (i : Z) s s' : Prop := {
  de_ready : ready s';
  de_wf : wf (s' <| ds_store := aupd i clear (ds_store s') |>);
  de_compiled : still_compiled s s';
}.
Lemma deletable_wf i s s' : wf s' -> still_compiled s s' -> deletable i s s'.
Proof. intros Hwf Hc. constructor; [by apply wf_ready|by apply wf_clear|done]. Qed.
Lemma deletable_union i d x w s :
  wf s -> aget (ds_store s) i = Some d -> flag (flags d) DSF_TYPE_LABEL = false ->
  deletable i s (with_union s i x w).
Proof.
  intros Hwf Hd Hl. pose proof (wf_ready _ Hwf) as [Hn Hlab]. constructor; [..|exact id].
  - constructor; simpl; [by rewrite length_aupd|]. apply Forall_aupd; [done|].
    intros d0 Hd0. replace d0 with d by congruence. unfold label_ok. simpl. rewrite Hl. by rewrite andb_false_r.
  - eapply wf_eq; [| |apply (wf_set_store s i (clear ∘ (fun d => d <| u := x |>)) Hwf)]; [|done|done].
    simpl. by rewrite aupd_aupd.
Qed.
Lemma not_label d i s t :
  wf s -> aget (ds_store s) i = Some d -> used d = true -> type_of d = t -> t <> DSF_TYPE_LABEL ->
  flag (flags d) DSF_TYPE_LABEL = false.
Proof.
  intros Hwf Hd Hu <- Hne. destruct (Forall_aget _ _ _ _ (wf_entries _ Hwf) Hd Hu) as [Ht _].
  unfold type_of in *. rewrite flag_type by auto with ds. by apply bool_decide_eq_false.
Qed.

Lemma free_blocks_wp n (sn : list ptr) s :
  (forall j, 0 <= j < n -> exists b, aget sn j = Some (PBlock b)) ->
  wp (fold_ (seqZ 0 n) sn (fun l j => p ← deref (aget l j); p ← free p; mret (aupd j (fun _ => p) l)))
    (fun _ s' => s' = s) never s.
Proof.
  intros Hb. apply (wp_fold _ _ _ (fun pre l s' => s' = s /\
    forall j, Z.of_nat (length pre) <= j < n -> exists b, aget l j = Some (PBlock b))).
  - split; [done|]. intros j Hj. apply Hb. simpl in Hj. lia.
  - intros pre j post l s' [-> Hjr]%seqZ_visit [-> Hl].
    destruct (Hl (Z.of_nat (length pre))) as [b Hlb]; [lia|]. rewrite Hlb.
    apply wp_bind, wp_ret, wp_bind, wp_ret, wp_ret. split; [done|].
    intros j Hj. rewrite length_app in Hj. simpl in Hj. rewrite aget_aupd_ne by lia. apply Hl. lia.
  - by intros l s' [-> _].
Qed.

Lemma delete_value_wp i t d s :
  wf s -> aget (ds_store s) i = Some d -> (t ∈ ds_types -> used d = true /\ type_of d = t) ->
  wp (delete_value i t) (fun r s' => if is_ok r then deletable i s s' else wf s')
    (fun _ _ => may_stop s) s.
Proof.
  intros Hwf Hd Hdt. unfold delete_value. pose proof (aget_range _ _ _ Hd) as Hir.
  rewrite (wf_store _ Hwf) in Hir.
  destruct (_ =? _); [apply wp_ret, deletable_wf; [done|exact id]|].
  destruct (_ =? _).
  { apply wp_bind. eapply wp_mono; [by apply cleanup_label_wp| |done]. intros [] s' [??].
    apply wp_ret. by apply deletable_wf. }
  destruct (_ || _) eqn:E2.
  { assert (t = DSF_TYPE_STR \/ t = DSF_TYPE_MEM) as Ht by lia.
    destruct Hdt as (Hu & Htd); [destruct Ht as [->| ->]; auto with ds|].
    destruct (Forall_aget _ _ _ _ (wf_entries _ Hwf) Hd Hu) as [_ Hx]. rewrite Htd in Hx.
    destruct (wf_union_mem _ _ Ht Hx) as (p & len & rl & Hud).
    apply wp_bind. unfold delete_mem. eapply wp_bind_run; [by apply (get_d_run i d)|]. cbv beta.
    unfold mem_of. rewrite Hud. eapply wp_bind_run; [reflexivity|]. cbv beta iota.
    assert (flag (flags d) DSF_TYPE_LABEL = false) as Hl.
    { eapply not_label; [done..|]. destruct Ht as [->| ->]; [by apply (types_ne 1 4)|by apply (types_ne 2 4)]. }
    apply wp_bind. destruct p as [|b|]; [apply wp_ret..|apply wp_halt].
    3:{ left. eapply Exists_aget; [done|]. split; [done|]. eexists _, _, _. by split. }
    all: eapply wp_ret_run; [by apply (set_d_run i d)|]; apply wp_ret;
      apply (deletable_union i d _ (world s) s); done. }
  destruct (t =? DSF_TYPE_MAP) eqn:E3; [|by apply wp_ret].
  assert (t = DSF_TYPE_MAP) as Ht by lia. destruct Hdt as (Hu & Htd); [rewrite Ht; auto with ds|].
  rewrite Ht in Htd.
  destruct (wf_map _ _ _ Hwf Hd Hu Htd) as (a & len & rp & sn & k & Hud & Hlen & -> & Hsn & Hk & Hb).
  unfold delete_map. eapply wp_bind_run; [by apply (get_d_run i d)|]. cbv beta.
  unfold map_of. rewrite Hud. eapply wp_bind_run; [reflexivity|]. cbv beta iota.
  apply wp_bind, wp_ds_env, wp_bind, wp_ds_env. destruct (negb _) eqn:Er.
  { apply wp_ret. apply negb_true_iff in Er. rewrite Er. by apply wf_any_world, wf_any_world. }
  rewrite Z.min_r by lia. apply wp_bind. set (s1 := _ <| world := _ |>).
  eapply wp_mono; [apply free_blocks_wp| |done].
  { intros j Hj. destruct (Hb j) as (b & Hsb & _); [lia|]. eauto. }
  intros sn' s2 ->. apply wp_bind, wp_ret. eapply wp_bind_run; [by apply (set_d_run i d _ s1)|].
  apply wp_ret. apply (deletable_union i d _ (world s1) s); [done..|].
  eapply not_label; [done..|]. by apply (types_ne 3 4).
Qed.

Lemma do_delete_wp s : wf s -> wp do_delete (fun _ s' => wf s') (fun _ _ => may_stop s) s.
Proof.
  intros Hwf. pose proof (wf_ready _ Hwf) as Hr. unfold do_delete.
  eapply wp_bind_run; [reflexivity|]. cbv beta zeta.
  eapply wp_bind_run; [by apply ds_getprocname_run|]. cbv beta.
  destruct (procname _ _) as [p|] eqn:Ep; [|by apply wp_ret].
  rewrite wp_read_key.
  destruct (key_read _ _ _) as [r buf]. destruct (is_ok r); [|by apply wp_ret].
  set (t := Z.land _ _). simpl negb. cbv iota.
  eapply wp_bind_run; [by apply lookup_entry_run|]. cbv beta.
  destruct (first_index _ _) as [i|] eqn:E; [|by apply wp_ret].
  assert (exists d, aget (ds_store s) i = Some d) as [d Hd]
    by (apply first_index_Some in E as (d & ? & _); eauto).
  eapply wp_bind_run; [by apply get_d_run|]. cbv beta.
  destruct (procname_at _ _ _ Ep) as [nm Hnm].
  eapply wp_bind_run; [by apply read_name_run|]. cbv beta.
  destruct (negb _); [by apply wp_ret|]. apply wp_bind.
  eapply wp_mono; [apply (delete_value_wp i t d); [done..|]|cbv beta|done].
  { intros Ht. destruct (entry_found _ _ _ _ Hwf Ht E) as (d' & Hd' & ?).
    replace d with d' by congruence. tauto. }
  intros r1 s1. destruct (is_ok r1); cbn [negb]; [|intros Hw; by apply wp_ret].
  intros [Hr1 Hwf1 Hc1]. pose proof (wf_subs _ Hwf1) as Hl1. simpl in Hl1.
  destruct (aget_is_Some (ds_store s1) i) as [d1 Hd1].
  { rewrite (rd_store _ Hr1), <-(wf_store _ Hwf). by eapply aget_range. }
  apply wp_bind. eapply wp_mono; [by apply (update_subscribers_wp i false d1)|cbv beta|].
  2:{ intros wh sh Hc. right. right. left. intros Hall. by apply Hc, Hc1. }
  intros [] s2 (l & o & -> & Hl). eapply wp_bind_run; [by apply (set_d_run i d1)|]. apply wp_ret.
  set (s2 := s1 <| ds_store := aupd i clear (ds_store s1) |>) in Hwf1.
  apply (wf_eq (s2 <| ds_store := aupd i id (ds_store s2) |> <| ds_subs := l |> <| notified := o |>)).
  - simpl. by rewrite (aupd_id _ i id).
  - done.
  - apply wf_set; [done| |done]. intros d2 Hd2. exact (Forall_aget _ _ _ _ (wf_entries _ Hwf1) Hd2).
Qed.

(** ** snapshot *)
Lemma do_snapshot_wp s : wf s -> wp do_snapshot (fun _ s' => wf s') (fun _ _ => may_stop s) s.
Proof.
  intros Hwf. pose proof (wf_ready _ Hwf) as Hr. unfold do_snapshot.
  eapply wp_bind_run; [reflexivity|]. cbv beta zeta. rewrite wp_read_key.
  destruct (key_read _ _ _) as [r buf]. destruct (is_ok r); [|by apply wp_ret].
  simpl negb. cbv iota. eapply wp_bind_run; [by apply lookup_entry_run|]. cbv beta.
  destruct (first_index _ _) as [j|] eqn:E; [|by apply wp_ret].
  destruct (entry_found _ _ _ _ Hwf type_MAP E) as (d & Hd & Hu & Ht & _ & _).
  eapply wp_bind_run; [by apply get_d_run|]. cbv beta.
  eapply wp_bind_run; [by apply check_auth_run|]. cbv beta.
  destruct (auth _ _ _ _); [|by apply wp_ret]. simpl negb. cbv iota.
  destruct (wf_map _ _ _ Hwf Hd Hu Ht) as (a & len & rp & sn & k & Hud & Hlen & -> & Hsn & Hk & Hb).
  unfold map_of. rewrite Hud. eapply wp_bind_run; [reflexivity|]. cbv beta iota zeta.
  pose proof KEYLEN_range as HK. change NR_DS_SNAPSHOT with 5 in *.
  replace (k + 1 <? DS_MAX_KEYLEN) with true by lia. rewrite Z.rem_small by lia.
  destruct (new_block_run len s) as [w Hnew].
  apply wp_bind. eapply wp_bind_run; [exact Hnew|]. cbv beta.
  destruct (decide (k = 4)) as [->|Hk4].
  { unfold aget at 1. rewrite bool_decide_true by lia. rewrite lookup_ge_None_2 by lia.
    apply wp_bind, wp_halt. right. left. eapply Exists_aget; [done|]. split; [done|]. eauto. }
  destruct (aget_is_Some sn (k + 1)) as [p Hp]; [lia|].
  assert (forall q k', (k' = k \/ k' = k + 1 /\ exists b, q = PBlock b /\ Z.of_nat (length b) = len) ->
    wf_union DSF_TYPE_MAP (Map a len (PBlock []) (aupd (k + 1) (fun _ => q) sn) k')) as Hset.
  { intros q k' Hq. split_and!; [done|done|done|by rewrite length_aupd|lia|change NR_DS_SNAPSHOT with 5; lia|].
    intros i Hi. rewrite aget_aupd. case_decide as Hik.
    - destruct Hq as [->|(-> & b & -> & Hlb)]; [lia|]. rewrite <-Hik, Hp. by exists b.
    - apply Hb. lia. }
  eapply wp_bind_run; [by rewrite Hp|]. cbv beta.
  assert (forall x w, wf_union DSF_TYPE_MAP x -> wf (with_union s j x w)) as Hwu.
  { intros x w' Hx. eapply wf_eq; [| |apply (wf_set_store s j (fun d => d <| u := x |>) Hwf)]; [done..|].
    intros d0 Hd0 _. replace d0 with d by congruence. split; [|by rewrite <-Ht in Hx].
    change (type_of (d <| u := x |>)) with (type_of d). rewrite Ht. auto with ds. }
  destruct (_ =? 0).
  - eapply wp_bind_run; [exact (set_u_world s j d w _ Hd)|]. apply wp_ret, wp_ret. apply Hwu, Hset. by left.
  - apply wp_ret. simpl negb. cbv iota. eapply wp_bind_run; [by rewrite Hp|]. cbv beta.
    eapply wp_bind_run; [reflexivity|]. cbv beta. eapply wp_bind_run; [reflexivity|]. cbv beta.
    eapply wp_bind_run; [exact (set_u_world s j d w _ Hd)|]. apply wp_bind, wp_modify, wp_ret.
    apply wf_msg, Hwu, Hset. right. split; [done|]. eexists. split; [done|]. by apply mapped_length.
Qed.

Lemma do_getsysinfo_wp s : wf s -> wp do_getsysinfo (fun _ s' => wf s') never s.
Proof.
  intros Hwf. unfold do_getsysinfo. eapply wp_bind_run; [reflexivity|]. cbv beta.
  apply wp_bind, wp_get. destruct (_ =? _); [by apply wp_ds_env, wf_any_world|].
  destruct (_ =? _); [by apply wp_ds_env, wf_any_world|by apply wp_ret].
Qed.

Lemma do_call_wp c s : wf s -> wp (do_call c) (fun _ s' => wf s') (fun _ _ => may_stop s) s.
Proof.
  intros Hwf. destruct c; simpl; [..|by apply wp_ret|by apply wp_ret].
  - eapply wp_mono; [by apply do_publish_wp|by intros r s' [? _]|done].
  - by apply do_retrieve_wp.
  - eapply wp_mono; [by apply do_retrieve_label_wp|done|done].
  - by apply do_delete_wp.
  - eapply wp_mono; [by apply do_subscribe_wp|done|done].
  - by apply do_check_wp.
  - by apply do_snapshot_wp.
  - eapply wp_mono; [by apply do_getsysinfo_wp|done|done].
Qed.
End lookups.

(** ** The properties of the data store *)
Section properties.
Context `{MinixHeaders} `{DsHeaders} `{!DsHeaderLaws} {W R : Type} `{DsEnv W R} `{!DsEnvLaws W R}.
Implicit Types (s : state W R).

(** C12: the typing of the store.  In the tables as the server keeps them every entry in use
    has exactly one type, its union holds the member of that type with its lengths in
    order, the buffers are as long as recorded and the snapshots taken are blocks.  A turn
    of the main loop, whatever the message, keeps this; and it ends with the next turn
    unless the state already has an entry whose data is gone, an entry with all its
    snapshots taken, a subscription without an expression or a pending entry whose owner
    has no label, or the message publishes an empty string. *)
Theorem main_step_typed (c : call_nr) (m : message) s :
  wf s ->
  wp (main_step (Some (c, m))) (fun _ s' => wf s') (fun _ _ => may_stop (s <| msg := m |>)) s.
Proof.
  intros Hwf. unfold main_step. apply wp_bind, wp_modify, wp_bind.
  assert (wf (s <| msg := m |>)) as Hwf1 by (by apply wf_msg).
  eapply wp_mono; [by apply do_call_wp| |done].
  intros r s' Hwf'. case_bool_decide; [by apply wp_ret|]. apply wp_modify. by destruct Hwf'.
Qed.

(** C25: what is published is what is retrieved.  After a memory range or a string was
    published under a key, a retrieval of that key and type by a caller that may retrieve
    copies to it the bytes published (of a string, with the last one zero), as many as were
    published or as the caller has room for, and tells the number. *)
Theorem publish_retrieve (m' : message) s s' :
  wf s ->
  let fl := DS_FLAGS (msg s) in let t := Z.land fl DSF_MASK_TYPE in
  t = DSF_TYPE_STR \/ t = DSF_TYPE_MEM ->
  do_publish s = Ret OK s' ->
  let s2 := s' <| msg := m' |> in
  Z.land (DS_FLAGS m') DSF_MASK_TYPE = t ->
  key_of m' (world s') = key_of (msg s) (world s) ->
  flag (entry_flags fl) DSF_PRIV_RETRIEVE = false ->
  exists bytes,
    safecopyfrom (m_source (msg s)) (DS_VAL (msg s)) (u32 (DS_VAL_LEN (msg s))) (world s') = (OK, bytes) /\
    let value := if flag fl DSF_TYPE_STR then aupd (u32 (DS_VAL_LEN (msg s)) - 1) (fun _ => 0) bytes
                 else bytes in
    let n := Z.min (u32 (DS_VAL_LEN m')) (u32 (DS_VAL_LEN (msg s))) in
    do_retrieve s2 = copied (take (Z.to_nat n) value) n s2.
Proof.
  intros Hwf fl t Ht Hpub s2 Hfl' Hkey Hpriv.
  pose proof (do_publish_wp s Hwf) as Hwp. unfold wp in Hwp. rewrite Hpub in Hwp.
  destruct Hwp as [Hwf' Hp]. destruct (Hp eq_refl) as (i & d' & []). clear Hp.
  assert (type_of d' = t) as Htd by (unfold type_of; rewrite pa_flags0; apply entry_flags_type).
  rewrite Htd in *. destruct pa_type0 as [Htt Hx].
  destruct (wf_union_mem _ _ Ht Hx) as (p & len & rl & Hu). rewrite Hu in pa_holds0, Hx.
  destruct pa_holds0 as (-> & b & bytes & -> & Hcopy & Htake). destruct Hx as (_ & Hle & Hb).
  exists bytes. split; [done|]. cbv zeta. set (n := Z.min _ _).
  fold fl in Htake. rewrite <-Htake, take_take, Nat.min_l by (unfold n; lia).
  assert (wf s2) as Hwf2 by (by apply wf_msg). pose proof (wf_ready _ Hwf2) as Hr2.
  destruct pa_old0 as [d0 Hd0].
  assert (aget (ds_store s2) i = Some d') as Hd'.
  { change (ds_store s2) with (ds_store s'). by rewrite pa_store0, aget_aupd_eq, Hd0. }
  unfold do_retrieve. erewrite (bind_ret m_ptr _ m' s2) by reflexivity. cbv beta zeta.
  rewrite read_key_run. change (msg s2) with m'. change (world s2) with (world s').
  rewrite <-Hkey in pa_key0. unfold key_of in pa_key0.
  destruct (key_read _ _ _) as [r buf]. injection pa_key0 as -> Hk. cbv beta iota. change (negb (is_ok OK)) with false. cbv iota.
  rewrite Hk. rewrite Hfl'.
  rewrite (bind_ret _ _ (Some i) s2 s2).
  2:{ rewrite lookup_entry_run by done. by rewrite <-pa_first0. }
  cbv beta iota. rewrite (bind_ret _ _ _ _ _ (get_d_run _ _ _ Hd')). cbv beta.
  rewrite (bind_ret _ _ true s2 s2).
  2:{ rewrite check_auth_run by done. unfold auth. rewrite pa_flags0. fold fl. by rewrite Hpriv. }
  simpl negb. cbv iota. unfold retrieve_value.
  replace ((t =? DSF_TYPE_U32) || (t =? DSF_TYPE_LABEL)) with false.
  2:{ symmetry. apply orb_false_iff. rewrite !Z.eqb_neq.
      destruct Ht as [->| ->]; split;
        first [by apply (types_ne 1 0)|by apply (types_ne 1 4)|by apply (types_ne 2 0)|by apply (types_ne 2 4)]. }
  replace ((t =? DSF_TYPE_STR) || (t =? DSF_TYPE_MEM)) with true by lia.
  apply (retrieve_mem_run _ _ _ rl); [done|]. rewrite (Hb b) by done. lia.
Qed.

(** C26: publish, subscribe and check fit together.  A successful publication marks the
    entry in exactly the subscriptions it concerns, notifies their owners in the order of
    the table, and the next check of such a subscriber, when nothing before the entry is
    pending for it, is told of the entry: it is sent the key, the type and the owner, and
    only this mark is taken away. *)
Theorem publish_then_check (m' : message) (nm : list Z) (j : Z) (x : subscription R) s s' :
  wf s -> Forall compiled (ds_subs s) -> do_publish s = Ret OK s' ->
  exists i d',
    aget (ds_store s') i = Some d' /\ key_of (msg s) (world s) = (OK, key d') /\
    type_of d' = Z.land (DS_FLAGS (msg s)) DSF_MASK_TYPE /\
    ds_subs s' = update_sub (ds_store s') d' i true <$> ds_subs s /\
    notified s' = notified s ++ concat (note (ds_store s') d' <$> ds_subs s) /\
    (aget (ds_subs s) j = Some x -> told (ds_store s') d' x = true ->
     (forall k, 0 <= k < i -> aget (old_subs x) k = Some false) ->
     caller_name (m_source m') (ds_store s') = Some nm ->
     first_index (is_sub nm) (ds_subs s') = Some j ->
     do_check (s' <| msg := m' |>) = check_entry i j d' (s' <| msg := m' |>)).
Proof.
  intros Hwf Hc Hpub.
  pose proof (do_publish_wp s Hwf) as Hwp. unfold wp in Hwp. rewrite Hpub in Hwp.
  destruct Hwp as [Hwf' Hp]. destruct (Hp eq_refl) as (i & d' & []). clear Hp.
  destruct (pa_told0 Hc) as [Hsubs Hnot]. destruct pa_old0 as [d0 Hd0].
  assert (aget (ds_store s') i = Some d') as Hd' by (by rewrite pa_store0, aget_aupd_eq, Hd0).
  exists i, d'. split_and!; try done.
  { unfold type_of. rewrite pa_flags0. apply entry_flags_type. }
  intros Hx Htold Hno Hnm Hj. rewrite do_check_run by (by apply wf_msg).
  change (msg (s' <| msg := m' |>)) with m'. change (ds_store (s' <| msg := m' |>)) with (ds_store s').
  change (ds_subs (s' <| msg := m' |>)) with (ds_subs s'). rewrite Hnm, Hj, Hsubs.
  assert (aget (update_sub (ds_store s') d' i true <$> ds_subs s) j = Some (mark i true x)) as ->.
  { apply aget_Some in Hx as [? Hx]. apply aget_Some. split; [done|].
    rewrite list_lookup_fmap, Hx. simpl. unfold update_sub. by rewrite Htold. }
  simpl. assert (pending (mark i true x) = Some i) as ->; [|by rewrite Hd'].
  pose proof (Forall_aget _ _ _ _ (wf_maps _ Hwf) Hx) as Hmap. simpl in Hmap.
  pose proof (aget_range _ _ _ Hd0) as Hir. rewrite (wf_store _ Hwf) in Hir.
  assert (forall k, 0 <= k < NR_DS_KEYS ->
    aget (take (Z.to_nat NR_DS_KEYS) (old_subs (mark i true x))) k = aget (old_subs (mark i true x)) k) as Htake.
  { intros k Hk. unfold aget. rewrite bool_decide_true by lia. rewrite lookup_take. case_decide; [done|lia]. }
  apply first_index_Some. exists true. rewrite Htake by done. split_and!; [|done|].
  - simpl. rewrite aget_aupd_eq. destruct (aget_is_Some (old_subs x) i) as [b ->]; [lia|done].
  - intros k b Hk. rewrite Htake by lia. simpl. rewrite aget_aupd_ne by lia. rewrite Hno by lia. by intros [= <-].
Qed.

(** A pending entry whose owner has no label (its process exited and the label was
    deleted) takes the server down: the check of the subscriber it is pending for panics,
    once its key was copied out. *)
Theorem check_orphan (nm : list Z) (j i : Z) (x : subscription R) (d : data_store) (w : W) s :
  wf s -> caller_name (m_source (msg s)) (ds_store s) = Some nm ->
  first_index (is_sub nm) (ds_subs s) = Some j -> aget (ds_subs s) j = Some x ->
  pending x = Some i -> aget (ds_store s) i = Some d ->
  procep (owner d) (ds_store s) = -1 ->
  safecopyto (m_source (msg s)) (DS_KEY_GRANT (msg s)) (key d ++ [0]) (world s) = (OK, w) ->
  main_step (Some (DS_CHECK, msg s)) s = Halt Panic (s <| world := w |>).
Proof.
  intros Hwf Hnm Hj Hx Hi Hd Hep Hcopy. unfold main_step.
  rewrite (bind_ret _ _ tt s s) by (by destruct s). cbv beta.
  apply bind_halt. simpl. rewrite do_check_run by done. rewrite Hnm, Hj, Hx. simpl.
  rewrite Hi, Hd. unfold check_entry. rewrite Hcopy. simpl. by rewrite Hep.
Qed.

(** The sixth snapshot of a mapped range is written outside the array of five: the
    index is taken modulo [DS_MAX_KEYLEN] and not modulo [NR_DS_SNAPSHOT]. *)
Theorem sixth_snapshot (k : list Z) (i : Z) (d : data_store) (a len : Z) (rp : ptr) (sn : list ptr) s :
  wf s -> key_of (msg s) (world s) = (OK, k) ->
  first_index (is_entry k DSF_TYPE_MAP) (ds_store s) = Some i -> aget (ds_store s) i = Some d ->
  u d = Map a len rp sn (NR_DS_SNAPSHOT - 1) ->
  auth (ds_store s) d (m_source (msg s)) DSF_PRIV_SNAPSHOT = true ->
  exists w, do_snapshot s = Halt Undef (s <| world := w |>).
Proof.
  intros Hwf Hk Hi Hd Hu Hauth. pose proof (wf_ready _ Hwf) as Hr.
  destruct (entry_found _ _ _ _ Hwf type_MAP Hi) as (d' & Hd' & Hused & Ht & _ & _).
  replace d' with d in * by congruence.
  destruct (wf_map _ _ _ Hwf Hd Hused Ht) as (? & ? & ? & ? & ? & Hu' & _ & _ & Hsn & _).
  rewrite Hu in Hu'. injection Hu' as <- <- <- <- <-. change NR_DS_SNAPSHOT with 5 in *.
  unfold do_snapshot. rewrite (bind_ret _ _ (msg s) s s) by done. cbv beta zeta.
  rewrite read_key_run. unfold key_of in Hk. destruct (key_read _ _ _) as [r buf].
  injection Hk as -> Hk. cbv beta iota. rewrite Hk. change (negb (is_ok OK)) with false. cbv iota.
  rewrite (bind_ret _ _ _ _ _ (lookup_entry_run _ _ _ Hr)), Hi. cbv beta iota.
  rewrite (bind_ret _ _ _ _ _ (get_d_run _ _ _ Hd)). cbv beta.
  rewrite (bind_ret _ _ _ _ _ (check_auth_run _ _ _ _ Hr)), Hauth. simpl negb. cbv iota.
  unfold map_of. rewrite Hu. cbn [negb]. rewrite (bind_ret _ _ _ _ _ (mret_run _ _)). cbv beta iota zeta.
  pose proof KEYLEN_range. change (5 - 1 + 1) with 5. rewrite Z.rem_small by lia.
  replace (5 <? DS_MAX_KEYLEN) with true by lia.
  destruct (new_block_run len s) as [w Hnew]. exists w. apply bind_halt.
  rewrite (bind_ret _ _ _ _ _ Hnew). cbv beta.
  assert (aget sn 5 = None) as ->; [|done].
  unfold aget. rewrite bool_decide_true by lia. apply lookup_ge_None_2. lia.
Qed.
End properties.

(** ** A data store for the examples
    Eight entries and sixteen subscriptions; a grant is an index into the memory of the
    world, an expression matches the string it is and one that starts with an opening
    parenthesis does not compile. *)
Module Demo.
#[local] Existing Instances Minix.demo_headers Minix.demo_laws.
#[export] Instance ds_headers : DsHeaders := {
  DSF_IN_USE := 1; DSF_PRIV_RETRIEVE := 2; DSF_PRIV_OVERWRITE := 4; DSF_PRIV_SNAPSHOT := 8;
  DSF_PRIV_SUBSCRIBE := 16;
  DSF_TYPE_U32 := 0x1000; DSF_TYPE_STR := 0x2000; DSF_TYPE_MEM := 0x4000;
  DSF_TYPE_MAP := 0x8000; DSF_TYPE_LABEL := 0x10000;
  DSF_MASK_TYPE := 0xff000; DSF_MASK_INTERNAL := 0xfffff; DSF_OVERWRITE := 0x100000;
  DSF_INITIAL := 0x200000;
  DSMF_MAP_MAPPED := 0x400000; DSMF_COPY_MAPPED := 0x800000; DSMF_COPY_SNAPSHOT := 0x1000000;
  DS_MAX_KEYLEN := 8; CLICK_SIZE := 4; CLICK_CEIL := fun p => (p + 3) / 4 * 4;
  SI_DATA_STORE := 5; SI_SUBSCRIPTION := 6; GRANT_VALID := fun g => -1 <? g;
}.
#[export] Instance ds_header_laws : DsHeaderLaws.
Proof.
  constructor; try done.
  - apply (bool_decide_unpack _). by vm_compute.
  - intros t t'. unfold ds_types. simpl. rewrite !elem_of_cons, !elem_of_nil.
    intros Ht Ht' Hne. destruct_or!; subst; try done.
  - apply (bool_decide_unpack _). by vm_compute.
  - apply (bool_decide_unpack _). by vm_compute.
Qed.

Record W := mk_W { memory : list (list Z); written : list (Z * Z * list Z) }.
#[export] Instance ds_env : DsEnv W (list Z) := {
  safecopyfrom := fun e g n w =>
    let b := default [] (aget (memory w) g) in
    if (n <? 0) || (Z.of_nat (length b) <? n) then (EFAULT, []) else (OK, take (Z.to_nat n) b);
  safecopyto := fun e g b w => (OK, mk_W (memory w) (written w ++ [(e, g, b)]));
  copy_tables := fun e p t w => (OK, w);
  stack := fun w => replicate 11 1;
  malloc := fun n w => (4096, w);
  safemap := fun e g a n w => (OK, w);
  safeunmap := fun a w => (OK, w);
  saferevmap_addr := fun a w => (OK, w);
  mapped := fun a n w => replicate (Z.to_nat n) 9;
  cpf_grant_direct := fun e a n w => (3, w);
  regcomp := fun r => if bool_decide (head r = Some 40) then None else Some r;
  regexec := fun r s => bool_decide (r = s ++ str_dollar);
  rproctab := fun w => (OK, [mk_rprocpub true str_rs 2; mk_rprocpub true [97] 20;
                             mk_rprocpub true [98] 21; mk_rprocpub false [99] 22]);
}.
#[export] Instance ds_env_laws : DsEnvLaws W (list Z).
Proof.
  constructor.
  - simpl. intros e g n w l. destruct (_ || _) eqn:E; [done|]. intros [= <-]. rewrite length_take. lia.
  - done.
  - simpl. intros a n w Hn. rewrite length_replicate. lia.
Qed.

(** The grants 0 to 3 are the keys "k" and "m", a value and an expression that fails. *)
Definition mem0 : list (list Z) := [[107; 0]; [109; 0]; [1; 2; 3]; [40; 0]].
Definition message0 : message := mk_message 0 0 0 0 0 0 0 0 0 0.
Definition zero : state W (list Z) :=
  mk_state (replicate 8 (mk_data_store 0 [] [] (U32 0)))
    (replicate 16 (mk_subscription 0 [] None (replicate 8 false))) message0 [] [] (mk_W mem0 []).
Definition boot : state W (list Z) :=
  match sef_cb_init_fresh zero with Ret _ s => s | Halt _ s => s end.
Definition call (c : call_nr) (src fl key val len : Z) : option (call_nr * message) :=
  Some (c, mk_message src fl key 2 val len 0 0 0 0).
Definition run_from (s : state W (list Z)) (ms : list (option (call_nr * message))) :=
  match main_loop ms s with Ret _ s => s | Halt _ s => s end.
Definition after := run_from boot.

Definition boot' : state W (list Z) := Eval vm_compute in boot.
Lemma boot_eq : boot = boot'.
Proof. by vm_compute. Qed.
Lemma boot_wf : wf boot.
Proof.
  assert (forall v, 0 <= v < 2 ^ 32 -> forall k o, wf_entry (mk_data_store 0x10001 k o (U32 v))) as Hl.
  { intros v Hv k o _. split; [change (type_of _) with DSF_TYPE_LABEL; apply type_LABEL|]. split; [by right|done]. }
  assert (forall k o x, wf_entry (mk_data_store 0 k o x)) as Hz by (by intros).
  rewrite boot_eq. constructor; [by vm_compute|by vm_compute|..].
  - repeat (constructor; [first [apply Hz | by apply Hl]|]). constructor.
  - repeat (constructor; [by vm_compute|]). constructor.
Qed.
Lemma main_loop_wf ms s : wf s -> wp (main_loop ms) (fun _ s' => wf s') (fun _ _ => True) s.
Proof.
  intros Hs. apply (wp_foreach _ _ (fun _ s' => wf s')); [done| |done].
  intros _ [[c m]|] _ s' _ Hwf; [|done]. unfold main_step. apply wp_bind, wp_modify, wp_bind.
  eapply wp_mono; [by apply do_call_wp, wf_msg| |done]. intros r s1 Hwf1.
  case_bool_decide; [by apply wp_ret|]. apply wp_modify. by destruct Hwf1.
Qed.
Lemma run_from_wf ms s : wf s -> (exists s', main_loop ms s = Ret tt s') -> wf (run_from s ms).
Proof.
  intros Hwf [s' Hs']. pose proof (main_loop_wf ms s Hwf) as Hwp. unfold wp in Hwp. unfold run_from.
  by rewrite Hs' in Hwp |- *.
Qed.

(** "a" subscribes to the strings called "k" and "b" publishes one. *)
Definition STR : Z := DSF_TYPE_STR.
Definition subscribe_k := call DS_SUBSCRIBE 20 STR 0 0 0.
Definition publish_k := call DS_PUBLISH 21 STR 0 2 3.
Definition delete_b := Some (DS_DELETE, mk_message 2 DSF_TYPE_LABEL 4 2 0 0 0 0 0 0).
Definition check_k := call DS_CHECK 20 0 5 0 0.
Definition publish_map_k := call DS_PUBLISH 21 DSF_TYPE_MAP 0 2 6.
Definition snapshot_k := call DS_SNAPSHOT 21 0 0 0 0.

(** The replies: the process and the result. *)
Definition results (ms : list (option (call_nr * message))) : list (Z * rc) :=
  fst <$> sent (after ms).
Example publish_results :
  results [publish_k; publish_k; call DS_PUBLISH 99 STR 0 2 3; call DS_PUBLISH 20 DSF_TYPE_LABEL 0 0 0;
           call DS_RETRIEVE 20 STR 0 7 2; call DS_RETRIEVE 20 STR 1 7 2] =
  [(21, OK); (21, EEXIST); (99, EPERM); (20, EPERM); (20, OK); (20, ESRCH)].
Proof. by vm_compute. Qed.
Example subscribe_results :
  results [subscribe_k; subscribe_k; check_k; publish_k; check_k; check_k;
           call DS_SUBSCRIBE 21 STR 3 0 0] =
  [(20, OK); (20, EEXIST); (20, ENOENT); (21, OK); (20, OK); (20, ENOENT); (21, EINVAL)].
Proof. by vm_compute. Qed.
Example subscriber_told :
  notified (after [subscribe_k; publish_k]) = [20] /\
  written (world (after [subscribe_k; publish_k; check_k])) = [(20, 5, [107; 0])].
Proof. by vm_compute. Qed.

(** The caret in front of the expression is lost: it is compiled without it. *)
Example no_caret : s_regex <$> aget (ds_subs (after [subscribe_k])) 0 = Some (Some [107; 36]).
Proof. by vm_compute. Qed.

(** The process "b" exits with its entry pending for "a": the check of "a" panics. *)
Definition mem_b (s : state W (list Z)) : state W (list Z) :=
  s <| world := mk_W (mem0 ++ [[98; 0]]) [] |>.
Definition stops (ms : list (option (call_nr * message))) : option stop :=
  match main_loop ms (mem_b boot) with Ret _ _ => None | Halt w _ => Some w end.
Example label_deleted : stops [subscribe_k; publish_k; delete_b] = None /\
  stops [subscribe_k; publish_k; delete_b; check_k] = Some Panic.
Proof. by vm_compute. Qed.
Example six_snapshots :
  stops (publish_map_k :: replicate 5 snapshot_k) = None /\
  stops (publish_map_k :: replicate 6 snapshot_k) = Some Undef.
Proof. by vm_compute. Qed.
Example empty_string : stops [call DS_PUBLISH 21 STR 0 2 0] = Some Undef.
Proof. by vm_compute. Qed.
(** The data of an overwritten string is freed when the copy fails and used by the next
    retrieval. *)
Example freed_string :
  stops [publish_k; call DS_PUBLISH 21 (Z.lor STR DSF_OVERWRITE) 0 9 3; call DS_RETRIEVE 20 STR 0 7 2]
  = Some Undef.
Proof. by vm_compute. Qed.

Definition msg_of (o : option (call_nr * message)) : message :=
  match o with Some (_, m) => m | None => message0 end.
Definition ready_for (ms : list (option (call_nr * message))) (o : option (call_nr * message)) :
    state W (list Z) := after ms <| msg := msg_of o |>.
Lemma ready_for_wf ms o : (exists s, main_loop ms boot = Ret tt s) -> wf (ready_for ms o).
Proof. intros Hs. apply wf_msg. apply run_from_wf; [apply boot_wf|done]. Qed.

Lemma main_step_typed_witness :
  wf boot /\ wp (main_step publish_k) (fun _ s' => wf s')
    (fun _ _ => may_stop (boot <| msg := msg_of publish_k |>)) boot.
Proof. split; [apply boot_wf|]. apply (main_step_typed DS_PUBLISH (msg_of publish_k)), boot_wf. Defined.

Definition s_pub : state W (list Z) := boot <| msg := msg_of publish_k |>.
Definition s_pub' : state W (list Z) :=
  match do_publish s_pub with Ret _ s => s | Halt _ s => s end.
Lemma publish_retrieve_witness :
  let m' := msg_of (call DS_RETRIEVE 20 STR 0 7 2) in
  exists bytes, (OK, [1; 2; 3]) = (OK, bytes) /\
    do_retrieve (s_pub' <| msg := m' |>) = copied [1; 2] 2 (s_pub' <| msg := m' |>).
Proof.
  intros m'. destruct (publish_retrieve m' s_pub s_pub') as (bytes & Hcopy & Hrun).
  - apply wf_msg, boot_wf.
  - left. by vm_compute.
  - by vm_compute.
  - by vm_compute.
  - by vm_compute.
  - by vm_compute.
  - exists bytes. split; [rewrite <-Hcopy; by vm_compute|]. rewrite Hrun.
    assert (bytes = [1; 2; 3]) as -> by (revert Hcopy; vm_compute; congruence). by vm_compute.
Defined.

Definition s_sub : state W (list Z) := ready_for [subscribe_k] publish_k.
Definition s_sub' : state W (list Z) :=
  match do_publish s_sub with Ret _ s => s | Halt _ s => s end.
Definition sub_x : subscription (list Z) :=
  default (mk_subscription 0 [] None []) (aget (ds_subs s_sub) 0).
Lemma publish_then_check_witness :
  exists i d', aget (ds_store s_sub') i = Some d' /\ key d' = [107] /\ notified s_sub' = [20] /\
    do_check (s_sub' <| msg := msg_of check_k |>) = check_entry i 0 d' (s_sub' <| msg := msg_of check_k |>).
Proof.
  destruct (publish_then_check (msg_of check_k) [97] 0 sub_x s_sub s_sub')
    as (i & d' & Hd & Hk & Ht & Hsubs & Hnot & Hcheck).
  - apply ready_for_wf. eexists. by vm_compute.
  - assert (compiled (mk_subscription (R := list Z) 0 [] None (replicate 8 false))) as Hz by (by intros).
    vm_compute in Hz. vm_compute ds_subs. repeat (constructor; [first [exact Hz | by eexists]|]). constructor.
  - by vm_compute.
  - assert (i = 3) as ->.
    { pose proof (aget_range _ _ _ Hd) as Hi. change (Z.of_nat _) with 8 in Hi.
      assert (i = 0 \/ i = 1 \/ i = 2 \/ i = 3 \/ i = 4 \/ i = 5 \/ i = 6 \/ i = 7) as Hc by lia.
      clear Hcheck Hsubs Hnot Ht. vm_compute in Hk. injection Hk as Hk.
      destruct_or!; subst i; vm_compute in Hd; injection Hd as <-; first [discriminate Hk | reflexivity]. }
    pose proof (eq_sym Hd) as Hd'.
    exists 3, d'. split_and!; [done| | |].
    + clear Hcheck Hsubs Hnot. vm_compute in Hk. injection Hk as Hk. exact (eq_sym Hk).
    + clear Hcheck. vm_compute in Hd'. injection Hd' as ->. rewrite Hnot. by vm_compute.
    + clear Hnot Hsubs. vm_compute in Hd'. injection Hd' as ->. apply Hcheck; [by vm_compute|by vm_compute| |by vm_compute|by vm_compute].
      intros k Hk'. assert (k = 0 \/ k = 1 \/ k = 2) as Hc by lia. destruct_or!; subst k; by vm_compute.
Defined.

Definition s_orphan : state W (list Z) :=
  run_from (mem_b boot) [subscribe_k; publish_k; delete_b] <| msg := msg_of check_k |>.
Lemma s_orphan_wf : wf s_orphan.
Proof.
  apply wf_msg, run_from_wf; [apply wf_any_world, boot_wf|]. eexists. by vm_compute.
Qed.
Lemma check_orphan_witness :
  procep [98] (ds_store s_orphan) = -1 /\
  main_step (Some (DS_CHECK, msg s_orphan)) s_orphan =
    Halt Panic (s_orphan <| world := mk_W (memory (world s_orphan)) [(20, 5, [107; 0])] |>).
Proof.
  split; [by vm_compute|].
  apply (check_orphan [97] 0 3 (default (mk_subscription 0 [] None []) (aget (ds_subs s_orphan) 0))
    (default (mk_data_store 0 [] [] (U32 0)) (aget (ds_store s_orphan) 3)));
    [apply s_orphan_wf|by vm_compute..].
Defined.

Definition s_five : state W (list Z) :=
  after (publish_map_k :: replicate 5 snapshot_k) <| msg := msg_of snapshot_k |>.
Lemma sixth_snapshot_witness : exists w, do_snapshot s_five = Halt Undef (s_five <| world := w |>).
Proof.
  eapply (sixth_snapshot [107] 3 (default (mk_data_store 0 [] [] (U32 0)) (aget (ds_store s_five) 3)));
    [|by vm_compute..].
  apply wf_msg, run_from_wf; [apply boot_wf|]. eexists. by vm_compute.
Defined.
End Demo.
