(* ===== verification/Lex.v ===== *)
(** The scanner of the shell, [src/Project_1/src]: the rules of [lex.c] and the automaton
    that flex generated from them, [lex.yy.c].  A byte is a [Z]; the input is what standard
    input still holds.  The buffer of the scanner is read through
    [readInputForLexer] one byte at a time, always at its end, so that the text from the
    start of a token on is the input itself followed by the two end-of-buffer bytes that
    the scanner meets when there is no more. *)
From S2P Require Import Prelude.
Local Open Scope Z_scope.

(** ** The tables of [lex.yy.c] *)
Definition yy_accept : list Z := [
    0; 0; 0; 6; 4; 3; 2; 1; 1; 3; 1; 0].
Definition yy_ec : list Z := [
    0; 1; 1; 1; 1; 1; 1; 1; 1; 2; 3; 1; 1; 1; 1; 1; 1; 1; 1; 1; 1; 1; 1; 1; 1; 1; 1; 1; 1;
    1; 1; 1; 2; 1; 1; 1; 1; 1; 4; 1; 4; 4; 4; 1; 1; 5; 5; 5; 5; 5; 5; 5; 5; 5; 5; 5; 5; 5;
    1; 4; 4; 5; 4; 1; 1; 5; 5; 5; 5; 5; 5; 5; 5; 5; 5; 5; 5; 5; 5; 5; 5; 5; 5; 5; 5; 5; 5;
    5; 5; 5; 5; 1; 1; 1; 1; 1; 1; 5; 5; 5; 5; 5; 5; 5; 5; 5; 5; 5; 5; 5; 5; 5; 5; 5; 5; 5;
    5; 5; 5; 5; 5; 5; 5; 1; 4; 1; 1; 1; 1; 1; 1; 1; 1; 1; 1; 1; 1; 1; 1; 1; 1; 1; 1; 1; 1;
    1; 1; 1; 1; 1; 1; 1; 1; 1; 1; 1; 1; 1; 1; 1; 1; 1; 1; 1; 1; 1; 1; 1; 1; 1; 1; 1; 1; 1;
    1; 1; 1; 1; 1; 1; 1; 1; 1; 1; 1; 1; 1; 1; 1; 1; 1; 1; 1; 1; 1; 1; 1; 1; 1; 1; 1; 1; 1;
    1; 1; 1; 1; 1; 1; 1; 1; 1; 1; 1; 1; 1; 1; 1; 1; 1; 1; 1; 1; 1; 1; 1; 1; 1; 1; 1; 1; 1;
    1; 1; 1; 1; 1; 1; 1; 1; 1; 1; 1; 1; 1; 1; 1; 1; 1; 1; 1; 1; 1; 1; 1; 1].
Definition yy_meta : list Z := [
    0; 1; 2; 1; 1; 3].
Definition yy_base : list Z := [
    0; 0; 0; 8; 9; 0; 9; 9; 0; 0; 0; 9; 5; 3].
Definition yy_def : list Z := [
    0; 11; 1; 11; 11; 12; 11; 11; 13; 12; 13; 0; 11; 11].
Definition yy_nxt : list Z := [
    0; 4; 5; 6; 7; 8; 10; 9; 11; 3; 11; 11; 11; 11; 11].
Definition yy_chk : list Z := [
    0; 1; 1; 1; 1; 1; 13; 12; 3; 11; 11; 11; 11; 11; 11].

(** ** The automaton *)
(** The inner loop of [yy_match]: follow [yy_def] until the entry of [yy_chk] is that of the
    state, then go on by [yy_nxt]. [None] is a read outside the tables. *)
Fixpoint yy_step (fuel : nat) (s c : Z) : option Z :=
  match fuel with
  | O => None
  | S fuel =>
      base ← aget yy_base s;
      chk ← aget yy_chk (base + c);
      if chk =? s then aget yy_nxt (base + c) else
      s' ← aget yy_def s;
      c' ← (if 12 <=? s' then aget yy_meta c else Some c);
      yy_step fuel s' c'
  end.
(** The chain of defaults has no cycle in fourteen states. *)
Definition next_state (s c : Z) : option Z := yy_step 14 s c.

#[local] Arguments next_state : simpl never.

(** The do-while loop of [yy_match]: the number of bytes read, the last state and the last
    accepting state with its position. *)
Record scanned := mk_scanned { yy_current_state : Z; yy_cp : nat; yy_last : Z * nat }.
Fixpoint yy_match (buf : list Z) (s : Z) (n : nat) (last : Z * nat) : option scanned :=
  match buf with
  | [] => None
  | c :: buf =>
      c ← aget yy_ec c;
      acc ← aget yy_accept s;
      let last := if acc =? 0 then last else (s, n) in
      s ← next_state s c;
      base ← aget yy_base s;
      if base =? 9 then Some (mk_scanned s (S n) last) else yy_match buf s (S n) last
  end.
(** [yy_find_action]: the action and the end of the text; a state that does not accept
    backs up. *)
Definition yy_find_action (r : scanned) : option (Z * nat) :=
  act ← aget yy_accept (yy_current_state r);
  if act =? 0 then
    act ← aget yy_accept (yy_last r).1; Some (act, (yy_last r).2)
  else Some (act, yy_cp r).
(** [yy_get_previous_state] *)
Fixpoint yy_get_previous_state (text : list Z) (s : Z) (n : nat) (last : Z * nat) : option scanned :=
  match text with
  | [] => Some (mk_scanned s n last)
  | c :: text =>
      c ← (if c =? 0 then Some 1 else aget yy_ec c);
      acc ← aget yy_accept s;
      let last := if acc =? 0 then last else (s, n) in
      s ← next_state s c;
      yy_get_previous_state text s (S n) last
  end.

Definition yy_start : Z := 1.
Definition YY_END_OF_BUFFER : Z := 6.
(** One token: its action and its length; [EOF] is [YY_STATE_EOF]. *)
Inductive token := EOF | Token (act : Z) (len : nat).
Definition yy_token (input : list Z) : option token :=
  r ← yy_match (input ++ [0; 0]) yy_start 0 (0, 0%nat);
  '(act, n) ← yy_find_action r;
  if act =? YY_END_OF_BUFFER then
    (* the byte at the end of the buffer was matched too *)
    if (n =? 1)%nat then Some EOF else
    r ← yy_get_previous_state (take (n - 1) input) yy_start 0 (0, 0%nat);
    '(act, n) ← yy_find_action r;
    Some (Token act n)
  else Some (Token act n).

(** ** The rules of [lex.c] *)
Definition in_range (a b c : Z) : bool := (a <=? c) && (c <=? b).
(** [a-zA-Z0-9\/\.\-\=] *)
Definition wordc (c : Z) : bool :=
  in_range 97 122 c || in_range 65 90 c || in_range 48 57 c ||
  (c =? 47) || (c =? 46) || (c =? 45) || (c =? 61).
(** [()><|&;*] *)
Definition special (c : Z) : bool :=
  (c =? 40) || (c =? 41) || (c =? 62) || (c =? 60) || (c =? 124) || (c =? 38) || (c =? 59) || (c =? 42).
Definition newline : Z := 10.
(** [ \t] *)
Definition blank (c : Z) : bool := (c =? 32) || (c =? 9).

(** [rule a text]: the text is in the language of the rule numbered [a]. *)
Definition rule (a : Z) (text : list Z) : bool :=
  match text with
  | [] => false
  | c :: r =>
      if a =? 1 then forallb wordc text || (special c && bool_decide (r = []))
      else if a =? 2 then (c =? newline) && bool_decide (r = [])
      else if a =? 3 then forallb blank text
      else if a =? 4 then negb (c =? newline) && bool_decide (r = [])
      else false
  end.
Definition byte (c : Z) : Prop := 0 < c < 256.

(** ** The automaton reads classes of bytes *)
Definition class (c : Z) : Z :=
  if wordc c then 5 else if special c then 4 else if c =? newline then 3
  else if blank c then 2 else 1.

Lemma ec_class c : byte c -> aget yy_ec c = Some (class c).
Proof.
  intros Hc. assert (Forall (fun c => aget yy_ec c = Some (class c)) (seqZ 1 255)) as Hall
    by (apply (bool_decide_unpack _); by vm_compute).
  eapply Forall_elem in Hall; [exact Hall|]. apply elem_of_seqZ. unfold byte in Hc. lia.
Qed.

(** The length of the longest prefix of elements with a property. *)
Fixpoint span (p : Z -> bool) (l : list Z) : nat :=
  match l with [] => 0 | c :: l => if p c then S (span p l) else 0 end.
Lemma span_le p l : (span p l <= length l)%nat.
Proof. induction l as [|c l IH]; simpl; [lia|]. destruct (p c); lia. Qed.

(** Reading on in the states of one rule: they accept it, stay for the bytes of the rule and
    jam for the others. *)
Record stays (p : Z -> bool) (act : Z) (P : Z -> Prop) : Prop := {
  st_base s : P s -> exists b, aget yy_base s = Some b /\ b <> 9;
  st_accept s : P s -> aget yy_accept s = Some act;
  st_act : act <> 0;
  st_next s c : P s -> byte c ->
    exists s', next_state s (class c) = Some s' /\ if p c then P s' else s' = 11;
  st_end s : P s -> next_state s 0 = Some 3;
}.

Lemma yy_match_stays p act P :
  stays p act P -> forall r s n last, P s -> Forall byte r ->
  exists res, yy_match (r ++ [0; 0]) s n last = Some res /\
    let k := span p r in
    yy_find_action res =
      if (k =? length r)%nat then Some (YY_END_OF_BUFFER, S (n + k)) else Some (act, (n + k)%nat).
Proof.
  intros [Hb Ha Hne Hs He]. induction r as [|c r IH]; intros s n last HP Hr.
  - simpl. rewrite (Ha _ HP). simpl. rewrite (He _ HP). replace (act =? 0) with false by lia.
    vm_compute aget. simpl. eexists. split; [reflexivity|]. simpl. unfold yy_find_action. simpl.
    by rewrite Nat.add_0_r.
  - apply list.Forall_cons in Hr as [Hc Hr]. cbn [app yy_match]. rewrite (ec_class c Hc). simpl.
    rewrite (Ha _ HP). simpl. destruct (Hs _ _ HP Hc) as (s' & Hs' & Hp). rewrite Hs'. simpl.
    replace (act =? 0) with false by lia. destruct (p c).
    + destruct (Hb _ Hp) as (b & Hbs & Hb9). rewrite Hbs. simpl. replace (b =? 9) with false by lia.
      destruct (IH s' (S n) (s, n) Hp Hr) as (res & Hres & Hact). exists res. split; [done|].
      rewrite Hact. simpl. rewrite !Nat.add_succ_r. done.
    + subst s'. simpl. eexists. split; [reflexivity|]. unfold yy_find_action. simpl. rewrite (Ha _ HP).
      simpl. by rewrite Nat.add_0_r.
Qed.
Lemma yy_previous_stays p act P :
  stays p act P -> forall r s n last, P s -> Forall byte r -> forallb p r = true ->
  exists res, yy_get_previous_state r s n last = Some res /\
    yy_find_action res = Some (act, (n + length r)%nat).
Proof.
  intros [Hb Ha Hne Hs He]. induction r as [|c r IH]; intros s n last HP Hr Hp.
  - simpl. eexists. split; [reflexivity|]. unfold yy_find_action. simpl. rewrite (Ha _ HP). simpl.
    replace (act =? 0) with false by lia. by rewrite Nat.add_0_r.
  - apply list.Forall_cons in Hr as [Hc Hr]. simpl in Hp. apply andb_true_iff in Hp as [Hpc Hp].
    cbn [yy_get_previous_state]. replace (c =? 0) with false by (unfold byte in Hc; lia).
    rewrite (ec_class c Hc). simpl. rewrite (Ha _ HP). simpl.
    destruct (Hs _ _ HP Hc) as (s' & Hs' & HP'). rewrite Hs'. simpl. rewrite Hpc in HP'.
    destruct (IH s' (S n) (if act =? 0 then last else (s, n)) HP' Hr Hp) as (res & Hres & Hact).
    exists res. split; [done|]. rewrite Hact. by rewrite Nat.add_succ_r.
Qed.

Lemma class_cases c : class c = 1 \/ class c = 2 \/ class c = 3 \/ class c = 4 \/ class c = 5.
Proof. unfold class. repeat case_match; auto. Qed.
Lemma class_wordc c : wordc c = (class c =? 5).
Proof. unfold class. by repeat case_match. Qed.
Lemma class_blank c : blank c = (class c =? 2).
Proof.
  unfold class. destruct (blank c) eqn:E; [|by repeat case_match].
  apply orb_true_iff in E as [->%Z.eqb_eq| ->%Z.eqb_eq]; done.
Qed.

Lemma word_stays : stays wordc 1 (fun s => s = 8 \/ s = 10).
Proof.
  constructor; try done.
  - intros s [-> | ->]; by exists 0.
  - by intros s [-> | ->].
  - intros s c Hs _. rewrite class_wordc.
    destruct Hs as [-> | ->], (class_cases c) as [->|[->|[->|[->| ->]]]]; vm_compute next_state;
      eexists; (split; [reflexivity|]); simpl; auto.
  - by intros s [-> | ->].
Qed.
Lemma blank_stays : stays blank 3 (fun s => s = 5 \/ s = 9).
Proof.
  constructor; try done.
  - intros s [-> | ->]; by exists 0.
  - by intros s [-> | ->].
  - intros s c Hs _. rewrite class_blank.
    destruct Hs as [-> | ->], (class_cases c) as [->|[->|[->|[->| ->]]]]; vm_compute next_state;
      eexists; (split; [reflexivity|]); simpl; auto.
  - by intros s [-> | ->].
Qed.

(** ** The longest match *)
Definition munch (c : Z) (r : list Z) : Z * nat :=
  if wordc c then (1, S (span wordc r))
  else if special c then (1, 1%nat)
  else if c =? newline then (2, 1%nat)
  else if blank c then (3, S (span blank r))
  else (4, 1%nat).

Lemma span_all p l : span p l = length l -> forallb p l = true.
Proof.
  induction l as [|c l IH]; [done|]. simpl. destruct (p c); [|done]. intros [= H]. by apply IH.
Qed.
(** A token that starts in a state of [stays]. *)
Lemma yy_token_stays p act P s0 c r :
  stays p act P -> P s0 -> act <> 6 -> byte c -> Forall byte r -> p c = true ->
  next_state 1 (class c) = Some s0 ->
  yy_token (c :: r) = Some (Token act (S (span p r))).
Proof.
  intros Hst HP Hact Hc Hr Hpc Hnext. unfold yy_token, yy_start. cbn [app yy_match].
  rewrite (ec_class c Hc). simpl. rewrite Hnext. simpl.
  destruct (st_base _ _ _ Hst _ HP) as (b & Hb & Hb9). rewrite Hb. simpl.
  replace (b =? 9) with false by lia.
  destruct (yy_match_stays _ _ _ Hst r s0 1 (0, 0%nat) HP Hr) as (res & -> & Hres). simpl.
  rewrite Hres. destruct (span p r =? length r)%nat eqn:E; simpl.
  2:{ by replace (act =? YY_END_OF_BUFFER) with false by (unfold YY_END_OF_BUFFER; lia). }
  apply Nat.eqb_eq in E. replace (c =? 0) with false by (unfold byte in Hc; lia).
  rewrite E, firstn_all. rewrite (ec_class c Hc). simpl. rewrite Hnext. simpl.
  destruct (yy_previous_stays _ _ _ Hst r s0 1 (0, 0%nat) HP Hr (span_all _ _ E)) as (res' & -> & Hres').
  simpl. by rewrite Hres'.
Qed.
Lemma yy_token_munch c r :
  byte c -> Forall byte r -> yy_token (c :: r) = Some (Token (munch c r).1 (munch c r).2).
Proof.
  intros Hc Hr. unfold munch.
  destruct (wordc c) eqn:Ew.
  { eapply (yy_token_stays _ _ _ 8); [apply word_stays|by left|done..|].
    rewrite class_wordc in Ew. by apply Z.eqb_eq in Ew as ->. }
  destruct (special c) eqn:Es.
  { unfold yy_token. cbn [app yy_match]. rewrite (ec_class c Hc). unfold class. by rewrite Ew, Es. }
  destruct (c =? newline) eqn:En.
  { unfold yy_token. cbn [app yy_match]. rewrite (ec_class c Hc). unfold class. by rewrite Ew, Es, En. }
  destruct (blank c) eqn:Eb.
  { eapply (yy_token_stays _ _ _ 5); [apply blank_stays|by left|done..|].
    rewrite class_blank in Eb. by apply Z.eqb_eq in Eb as ->. }
  unfold yy_token. cbn [app yy_match]. rewrite (ec_class c Hc). unfold class. by rewrite Ew, Es, En, Eb.
Qed.
Lemma yy_token_nil : yy_token [] = Some EOF.
Proof. by vm_compute. Qed.

Lemma span_take p l : forallb p (take (span p l) l) = true.
Proof. induction l as [|c l IH]; [done|]. simpl. destruct (p c) eqn:E; [|done]. simpl. by rewrite E. Qed.
Lemma span_stop p l m : (span p l < m <= length l)%nat -> forallb p (take m l) = false.
Proof.
  revert m. induction l as [|c l IH]; intros [|m] Hm; simpl in *; try lia.
  destruct (p c); [|done]. apply IH. lia.
Qed.
(** Texts of two bytes and more are matched only by the rules of words and of blanks. *)
Lemma rule_long a c r :
  r <> [] -> rule a (c :: r) = if a =? 1 then forallb wordc (c :: r)
                               else if a =? 3 then forallb blank (c :: r) else false.
Proof.
  intros Hr. unfold rule. rewrite bool_decide_false by done. rewrite !andb_false_r, orb_false_r.
  destruct (a =? 1); [done|]. destruct (a =? 2) eqn:E2; [|by repeat case_match].
  by replace (a =? 3) with false by lia.
Qed.
Lemma take_cons (n : nat) (c : Z) r : (0 < n)%nat -> take n (c :: r) = c :: take (n - 1) r.
Proof. destruct n; [lia|]. intros _. simpl. by rewrite Nat.sub_0_r. Qed.
Lemma take_nonnil (n : nat) (r : list Z) : (0 < n <= length r)%nat -> take n r <> [].
Proof. destruct n, r; simpl; [lia..|]; by intros. Qed.

(** C29: the generated automaton implements the rules.  On every input of bytes that are
    not zero the tables of [lex.yy.c] are read in range only, and the token found is the
    one of the rules of [lex.c]: a rule matches it, no rule matches more of the input, and
    no rule that comes before it matches as much. *)
Theorem scanner_longest_match (input : list Z) :
  Forall byte input -> input <> [] ->
  exists act n, yy_token input = Some (Token act n) /\ (0 < n <= length input)%nat /\
    rule act (take n input) = true /\
    (forall a m, (n < m <= length input)%nat -> rule a (take m input) = false) /\
    (forall a, a < act -> rule a (take n input) = false).
Proof.
  intros Hin Hne. destruct input as [|c r]; [done|]. apply list.Forall_cons in Hin as [Hc Hr].
  exists (munch c r).1, (munch c r).2. split; [by apply yy_token_munch|]. clear Hne.
  pose proof (span_le wordc r). pose proof (span_le blank r).
  assert (forall a m, (1 < m <= length (c :: r))%nat -> rule a (take m (c :: r)) =
    if a =? 1 then forallb wordc (c :: take (m - 1) r)
    else if a =? 3 then forallb blank (c :: take (m - 1) r) else false) as Hlong.
  { intros a m Hm. rewrite take_cons by lia. apply rule_long, take_nonnil. simpl in Hm. lia. }
  unfold munch. destruct (wordc c) eqn:Ew; [|destruct (special c) eqn:Es;
    [|destruct (c =? newline) eqn:En; [|destruct (blank c) eqn:Eb]]]; cbn [fst snd].
  - assert (blank c = false) as Hb by (rewrite class_wordc in Ew; rewrite class_blank; lia).
    split_and!; [lia|simpl; lia|..].
    + rewrite take_cons by lia. simpl. by rewrite Ew, Nat.sub_0_r, span_take.
    + intros a m Hm. rewrite Hlong by lia. simpl. rewrite Ew, Hb, span_stop by (simpl in Hm; lia).
      by repeat case_match.
    + intros a Ha. rewrite take_cons by lia. unfold rule. by replace (a =? 1) with false by lia; repeat case_match; try lia.
  - split_and!; [lia|simpl; lia|..].
    + simpl. by rewrite Es, orb_true_r.
    + intros a m Hm. rewrite Hlong by lia. simpl. rewrite Ew.
      assert (blank c = false) as -> by (destruct (blank c) eqn:E; [|done]; apply orb_true_iff in E as [->%Z.eqb_eq| ->%Z.eqb_eq]; done).
      by repeat case_match.
    + intros a Ha. simpl. by repeat case_match; try lia.
  - apply Z.eqb_eq in En as ->. split_and!; [lia|simpl; lia|done|..].
    + intros a m Hm. rewrite Hlong by lia. by repeat case_match.
    + intros a Ha. simpl. by repeat case_match; try lia.
  - split_and!; [lia|simpl; lia|..].
    + rewrite take_cons by lia. simpl. by rewrite Eb, Nat.sub_0_r, span_take.
    + intros a m Hm. rewrite Hlong by lia. simpl. rewrite Ew, Eb, (span_stop blank) by (simpl in Hm; lia).
      by repeat case_match.
    + intros a Ha. rewrite take_cons by lia. unfold rule. simpl. rewrite Ew, Es, En. simpl.
      by repeat case_match; try lia.
  - split_and!; [lia|simpl; lia|..].
    + simpl. by rewrite En.
    + intros a m Hm. rewrite Hlong by lia. simpl. rewrite Ew, Eb. by repeat case_match.
    + intros a Ha. simpl. rewrite Ew, Es, En, Eb. by repeat case_match; try lia.
Qed.

Definition text_of (s : string) : list Z :=
  (fun c => Z.of_nat (Ascii.nat_of_ascii c)) <$> String.list_ascii_of_string s.
Lemma scanner_longest_match_witness :
  exists act n, yy_token (text_of "ls|wc") = Some (Token act n) /\ rule act (take n (text_of "ls|wc")) = true /\
    (act, n) = (1, 2%nat).
Proof.
  destruct (scanner_longest_match (text_of "ls|wc")) as (act & n & Ht & _ & Hr & _).
  - apply (bool_decide_unpack _). by vm_compute.
  - done.
  - exists act, n. split_and!; [done|done|]. vm_compute in Ht. congruence.
Defined.
