(* ===== verification/Shell.v ===== *)
(** The shell of [src/Project_1/src]: the actions of the scanner ([lex.c], [lex.yy.c]), the
    parser of a line, the fork of a command, and the main loops of the two versions,
    [shell.c] and [myshell.c], which differ in nothing else. *)
From S2P Require Import Prelude Lex.
Local Open Scope Z_scope.

(** ** Data
    A string is the list of its bytes, [None] is the NULL pointer. *)
Abbreviation str := (list Z).

(** How a child ends up: in the program executed, with its standard input and output;
    stopped by following NULL; or back in the loop of the shell, since [execute] returns in
    the child when a file cannot be opened or the program cannot be executed. *)
Inductive child :=
  | Exec (file : str) (argv : list str) (stdin stdout : option str)
  | Crash
  | BackInLoop.
Inductive waiting := Wait | WaitNoHang.

Class ShellEnv (W : Type) := {
  strdup : str -> W -> bool * W;          (* false: no memory *)
  fork : W -> Z * W;
  fopen : str -> bool -> W -> bool;       (* for writing or for reading *)
  execvp : str -> list str -> W -> bool;  (* false: it returns *)
}.

Record state (W : Type) := mk_state {
  input : list Z;                   (* what standard input holds *)
  _args : list (option str);
  _argcount : Z;
  out_filename : option str;
  in_filename : option str;
  background : bool;
  isCommand : bool;
  children : list child;            (* the processes forked *)
  waits : list waiting;             (* the calls of wait and waitpid *)
  errors : Z;                       (* the failed forks that were reported *)
  world : W;
}.
Arguments mk_state {W}.
Arguments input {W}.
Arguments _args {W}.
Arguments _argcount {W}.
Arguments out_filename {W}.
Arguments in_filename {W}.
Arguments background {W}.
Arguments isCommand {W}.
Arguments children {W}.
Arguments waits {W}.
Arguments errors {W}.
Arguments world {W}.
#[export] Instance eta_state (W : Type) : Eta (state W) := fun r =>
  mk_state (input r) (_args r) (_argcount r) (out_filename r) (in_filename r) (background r)
    (isCommand r) (children r) (waits r) (errors r) (world r).

Definition _numargs : Z := 10.
Definition str_lt : str := [60].
Definition str_gt : str := [62].
Definition str_amp : str := [38].
Definition str_exit : str := [101; 120; 105; 116].

Section operations.
Context {W : Type} `{ShellEnv W}.
Abbreviation cmd := (M (state W)).

(** [_args[i]] *)
Definition get_arg (i : Z) : cmd (option str) := l ← gets _args; deref (aget l i).
Definition set_arg (i : Z) (p : option str) : cmd unit :=
  get_arg i;; modify (fun s => s <| _args := aupd i (fun _ => p) (_args s) |>).

(** ** The actions of the rules *)
Definition word_action (yytext : str) : cmd unit :=
  n ← gets _argcount;
  if n <? _numargs - 1 then
    s ← get;
    let '(ok, w) := strdup yytext (world s) in
    modify (fun s => s <| world := w |>);;
    set_arg n (if ok then Some yytext else None);;
    modify (fun s => s <| _argcount := n + 1 |>);;
    set_arg (n + 1) None
  else mret tt.

(** A turn of the loop of [yylex]: [Some true] is the return of [_args], [Some false] that
    of NULL at the end of the input. *)
Definition yylex_step : cmd (option bool) :=
  text ← gets input;
  t ← deref (yy_token text);
  match t with
  | EOF => mret (Some false)
  | Token act n =>
      modify (fun s => s <| input := drop n text |>);;
      if act =? 1 then word_action (take n text);; mret None
      else if act =? 2 then mret (Some true)
      else mret None
  end.
(** Every turn but the last takes a byte of the input. *)
Definition yylex : cmd bool :=
  modify (fun s => s <| _argcount := 0 |>);;
  set_arg 0 None;;
  text ← gets input;
  while_ (S (length text)) yylex_step.
Definition get_line : cmd bool := yylex.

(** ** [execute] *)
(** The child: the redirections, then [execvp].  Following NULL as the name of the program
    or printing it stops the process. *)
Definition child_run (out_f in_f : option str) (cmds : list str) (w : W) : child :=
  let failed := match cmds with [] => Crash | _ => BackInLoop end in
  let opened f for_writing := match f with Some f => fopen f for_writing w | None => true end in
  if negb (opened out_f true) then failed else
  if negb (opened in_f false) then failed else
  match cmds with
  | [] => Crash
  | file :: _ => if execvp file cmds w then Exec file cmds in_f out_f else BackInLoop
  end.

Definition execute (cmds : list str) : cmd unit :=
  s ← get;
  let '(pid, w) := fork (world s) in
  modify (fun s => s <| world := w |>);;
  if pid =? -1 then
    match cmds with
    | [] => halt Undef
    | _ => modify (fun s => s <| errors := errors s + 1 |>)
    end
  else
    modify (fun s => s <| children :=
      children s ++ [child_run (out_filename s) (in_filename s) cmds (world s)] |>);;
    b ← gets background;
    modify (fun s => s <| waits := waits s ++ [if b : bool then WaitNoHang else Wait] |>).

(** ** [parse]
    A turn of the loop at index [i] with the commands found so far; the local array has 64
    elements, one of them for the NULL at the end. *)
Definition parse_step (st : Z * list str) : cmd (Z * list str + list str) :=
  let '(i, commands) := st in
  a ← get_arg i;
  match a with
  | None => mret (inr commands)
  | Some a =>
      if bool_decide (a = str_lt) then
        f ← get_arg (i + 1);
        modify (fun s => s <| in_filename := f |> <| isCommand := false |>);;
        mret (inl (i + 2, commands))
      else if bool_decide (a = str_gt) then
        f ← get_arg (i + 1);
        modify (fun s => s <| out_filename := f |> <| isCommand := false |>);;
        mret (inl (i + 2, commands))
      else if bool_decide (a = str_amp) then
        modify (fun s => s <| background := true |> <| isCommand := false |>);;
        mret (inl (i + 1, commands))
      else
        c ← gets isCommand;
        (if c && (64 <=? Z.of_nat (length commands)) then halt Undef else mret tt);;
        mret (inl (i + 1, if c : bool then commands ++ [a] else commands))
  end.
(** The index grows in every turn, and reading at ten is outside the array. *)
Definition parse : cmd unit :=
  modify (fun s => s <| background := false |> <| isCommand := true |>
                     <| out_filename := None |> <| in_filename := None |>);;
  commands ← loop_ 12 parse_step (0, []);
  (if 64 <=? Z.of_nat (length commands) then halt Undef else mret tt);;
  execute commands.

(** ** The main loops; [Some tt] leaves them *)
Definition exit_or_parse (a : str) : cmd (option unit) :=
  if bool_decide (a = str_exit) then mret (Some tt) else parse;; mret None.
(** [shell.c] *)
Definition shell_step : cmd (option unit) :=
  args ← get_line;
  if negb args then halt Undef else       (* args[0] of NULL *)
  a ← get_arg 0;
  match a with None => mret None | Some a => exit_or_parse a end.
(** [myshell.c] *)
Definition myshell_step : cmd (option unit) :=
  args ← get_line;
  if negb args then mret (Some tt) else
  a ← get_arg 0;
  match a with None => halt Undef | Some a => exit_or_parse a end.

(** Every turn takes a line of the input. *)
Definition shell_main : cmd unit := text ← gets input; while_ (S (length text)) shell_step.
Definition myshell_main : cmd unit := text ← gets input; while_ (S (length text)) myshell_step.
End operations.

(** ** Lines
    A command line as a user means it: a program with its arguments, redirections and the
    mark of a background command. *)
Inductive redirection := In (f : str) | Out (f : str) | Background.
Record command := mk_command { words : list str; redirs : list redirection }.

Definition redir_tokens (r : redirection) : list str :=
  match r with In f => [str_lt; f] | Out f => [str_gt; f] | Background => [str_amp] end.
Definition tokens (c : command) : list str := words c ++ concat (redir_tokens <$> redirs c).
(** The text: every token is followed by a blank, the line by the newline. *)
Definition print_tokens (l : list str) : list Z := concat ((fun t => t ++ [32]) <$> l).
Definition print (c : command) : list Z := print_tokens (tokens c) ++ [newline].

(** What the line asks for. *)
Definition stdin_of (rs : list redirection) (a : option str) : option str :=
  foldl (fun a r => match r with In f => Some f | _ => a end) a rs.
Definition stdout_of (rs : list redirection) (a : option str) : option str :=
  foldl (fun a r => match r with Out f => Some f | _ => a end) a rs.
Definition background_of (rs : list redirection) (b : bool) : bool :=
  foldl (fun b r => match r with Background => true | _ => b end) b rs.

Definition is_word (t : str) : Prop := t <> [] /\ forallb wordc t = true.
Definition is_token (t : str) : Prop := is_word t \/ exists c, t = [c] /\ special c = true.
Definition redir_ok (r : redirection) : Prop :=
  match r with In f | Out f => is_word f | Background => True end.
Definition command_ok (c : command) : Prop :=
  words c <> [] /\ Forall is_word (words c) /\ Forall redir_ok (redirs c).

Lemma tokens_ok c : command_ok c -> Forall is_token (tokens c).
Proof.
  intros (_ & Hw & Hr). unfold tokens. apply list.Forall_app. split.
  - eapply list.Forall_impl; [exact Hw|]. by left.
  - induction Hr as [|r rs Hr Hrs IH]; [constructor|]. simpl. apply list.Forall_app. split; [|done].
    destruct r; simpl in *; repeat (apply list.Forall_cons; split); try apply list.Forall_nil;
      first [done | by left | right; by eexists].
Qed.
Lemma wordc_byte c : wordc c = true -> byte c.
Proof. unfold wordc, in_range, byte. lia. Qed.
Lemma special_byte c : special c = true -> byte c.
Proof. unfold special, byte. lia. Qed.
Lemma token_bytes t : is_token t -> Forall byte t /\ t <> [].
Proof.
  intros [[Hne Ht]|(c & -> & Hc)].
  - split; [|done]. clear Hne. induction t as [|c t IH]; [constructor|]. simpl in Ht.
    apply andb_true_iff in Ht as [Hc Ht]. constructor; [by apply wordc_byte|by apply IH].
  - split; [|done]. apply list.Forall_cons. split; [by apply special_byte|done].
Qed.
Lemma span_app p l c r : forallb p l = true -> p c = false -> span p (l ++ c :: r) = length l.
Proof.
  induction l as [|d l IH]; simpl; intros Hl Hc; [by rewrite Hc|].
  apply andb_true_iff in Hl as [-> Hl]. by rewrite IH.
Qed.
(** A token in front of a blank is scanned whole. *)
Lemma yy_token_print t r :
  is_token t -> Forall byte r -> yy_token (t ++ 32 :: r) = Some (Token 1 (length t)).
Proof.
  intros Ht Hr. destruct (token_bytes t Ht) as [Hb Hne].
  destruct t as [|c t]; [done|]. apply list.Forall_cons in Hb as [Hc Hb].
  assert (Forall byte (t ++ 32 :: r)) as Hall by (apply list.Forall_app; split; [done|by constructor]).
  cbn [app]. rewrite yy_token_munch by done. f_equal.
  destruct Ht as [[_ Hw]|(c' & [= -> ->] & Hs)]; unfold munch.
  - simpl in Hw. apply andb_true_iff in Hw as [-> Hw]. cbn [fst snd]. by rewrite span_app.
  - destruct (wordc c') eqn:E; [|by rewrite Hs]. exfalso. unfold wordc, special, in_range in *. lia.
Qed.
(** So is the blank in front of a token or of the newline. *)
Lemma yy_token_blank c r :
  byte c -> Forall byte r -> blank c = false -> yy_token (32 :: c :: r) = Some (Token 3 1).
Proof.
  intros Hc Hr Hb. rewrite yy_token_munch; [|done|by constructor]. unfold munch. simpl. by rewrite Hb.
Qed.
Lemma token_not_blank c t : is_token (c :: t) -> blank c = false.
Proof.
  intros [[_ Hw]|(c' & [= -> _] & Hs)].
  - simpl in Hw. apply andb_true_iff in Hw as [Hw _]. unfold wordc, blank, in_range in *. lia.
  - unfold special, blank in *. lia.
Qed.

(** ** Reading a line *)
Section lines.
Context {W : Type} `{ShellEnv W}.
Implicit Types (s : state W).

Definition line_state s (text : list Z) (l : list (option str)) (n : Z) (w : W) : state W :=
  s <| input := text |> <| _args := l |> <| _argcount := n |> <| world := w |>.
Fixpoint fill (k : Z) (l : list str) (args : list (option str)) : list (option str) :=
  match l with
  | [] => args
  | t :: l => fill (k + 1) l (aupd (k + 1) (fun _ => None) (aupd k (fun _ => Some t) args))
  end.

Lemma length_fill k l args : length (fill k l args) = length args.
Proof. revert k args. induction l as [|t l IH]; intros k args; [done|]. simpl. by rewrite IH, !length_aupd. Qed.
Lemma aget_fill_lt k l args i : i < k -> aget (fill k l args) i = aget args i.
Proof.
  revert k args. induction l as [|t l IH]; intros k args Hi; [done|]. simpl.
  rewrite IH, !aget_aupd_ne by lia. done.
Qed.
(** The array holds the tokens and NULL behind them. *)
Lemma aget_fill k l args i :
  0 <= k -> k + Z.of_nat (length l) < Z.of_nat (length args) -> aget args k = Some None ->
  k <= i <= k + Z.of_nat (length l) -> aget (fill k l args) i = Some (l !! Z.to_nat (i - k)).
Proof.
  revert k args. induction l as [|t l IH]; intros k args Hk Hl Hn Hi; simpl in *.
  - replace i with k by lia. rewrite Hn. by replace (k - k) with 0 by lia.
  - destruct (decide (i = k)) as [->|Hne].
    + rewrite aget_fill_lt, aget_aupd_ne, aget_aupd_eq, Hn by lia. by replace (k - k) with 0 by lia.
    + rewrite IH; [|lia|rewrite !length_aupd; lia| |lia].
      * replace (Z.to_nat (i - k)) with (S (Z.to_nat (i - (k + 1)))) by lia. done.
      * rewrite aget_aupd_eq. destruct (aget_is_Some (aupd k (fun _ => Some t) args) (k + 1)) as [x ->]; [|done].
        rewrite length_aupd. lia.
Qed.

Lemma set_arg_run i p s :
  0 <= i < Z.of_nat (length (_args s)) ->
  set_arg i p s = Ret tt (s <| _args := aupd i (fun _ => p) (_args s) |>).
Proof.
  intros Hi. unfold set_arg, get_arg. destruct (aget_is_Some _ _ Hi) as [x Hx].
  unfold mbind at 1, M_bind. unfold mbind, M_bind, gets, deref. by rewrite Hx.
Qed.
Lemma get_arg_run i x s : aget (_args s) i = Some x -> get_arg i s = Ret x s.
Proof. intros Hx. unfold get_arg, mbind, M_bind, gets, deref. by rewrite Hx. Qed.

Hypothesis memory : forall t w, (strdup t w).1 = true.

Lemma word_step s t r args k w :
  is_token t -> Forall byte r -> 0 <= k < 9 -> length args = 10%nat ->
  exists w', yylex_step (line_state s (t ++ 32 :: r) args k w) =
    Ret None (line_state s (32 :: r) (aupd (k + 1) (fun _ => None) (aupd k (fun _ => Some t) args)) (k + 1) w').
Proof.
  intros Ht Hr Hk Hl. exists (strdup t w).2. unfold yylex_step.
  rewrite (bind_ret _ _ (t ++ 32 :: r) _ (line_state s (t ++ 32 :: r) args k w)) by done. cbv beta.
  rewrite yy_token_print by done.
  rewrite (bind_ret _ _ (Token 1 (length t)) _ (line_state s (t ++ 32 :: r) args k w)) by done. cbv beta iota.
  rewrite (bind_ret _ _ tt _ (line_state s (32 :: r) args k w)).
  2:{ unfold modify, line_state, upd. simpl. by rewrite drop_app_length. }
  cbv beta. change (1 =? 1) with true. cbv iota. rewrite take_app_length. unfold word_action.
  rewrite (bind_ret _ _ tt _ (line_state s (32 :: r)
    (aupd (k + 1) (fun _ => None) (aupd k (fun _ => Some t) args)) (k + 1) (strdup t w).2)); [done|].
  rewrite (bind_ret _ _ k _ (line_state s (32 :: r) args k w)) by done. cbv beta.
  replace (k <? _numargs - 1) with true by (unfold _numargs; lia).
  rewrite (bind_ret _ _ (line_state s (32 :: r) args k w) _ (line_state s (32 :: r) args k w)) by done. cbv beta.
  change (world (line_state s (32 :: r) args k w)) with w.
  destruct (strdup t w) as [ok w'] eqn:E. assert (ok = true) as -> by (specialize (memory t w); by rewrite E in memory).
  rewrite (bind_ret _ _ tt _ (line_state s (32 :: r) args k w')) by done. cbv beta iota.
  erewrite bind_ret by (apply set_arg_run; simpl; lia). cbv beta.
  erewrite bind_ret by reflexivity. cbv beta.
  rewrite set_arg_run by (simpl; rewrite length_aupd; lia). done.
Qed.
Lemma blank_step s c r args k w :
  byte c -> Forall byte r -> blank c = false ->
  yylex_step (line_state s (32 :: c :: r) args k w) = Ret None (line_state s (c :: r) args k w).
Proof.
  intros Hc Hr Hb. unfold yylex_step.
  rewrite (bind_ret _ _ (32 :: c :: r) _ (line_state s (32 :: c :: r) args k w)) by done. cbv beta.
  rewrite yy_token_blank by done. done.
Qed.
Lemma newline_step s r args k w :
  Forall byte r ->
  yylex_step (line_state s (newline :: r) args k w) = Ret (Some true) (line_state s r args k w).
Proof.
  intros Hr. unfold yylex_step.
  rewrite (bind_ret _ _ (newline :: r) _ (line_state s (newline :: r) args k w)) by done. cbv beta.
  by rewrite yy_token_munch.
Qed.

Lemma print_bytes (l : list str) r : Forall is_token l -> Forall byte r -> Forall byte (print_tokens l ++ r).
Proof.
  intros Hl Hr. apply list.Forall_app. split; [|done]. unfold print_tokens.
  induction Hl as [|t l Ht Hl IH]; [constructor|]. simpl. rewrite <-app_assoc.
  apply list.Forall_app. split; [apply (token_bytes t Ht)|]. by constructor.
Qed.
Lemma print_head (l : list str) r : Forall is_token l ->
  exists c r', print_tokens l ++ newline :: r = c :: r' /\ blank c = false.
Proof.
  intros Hl. destruct l as [|t l]; [by exists newline, r|].
  apply list.Forall_cons in Hl as [Ht _]. destruct (token_bytes t Ht) as [_ Hne].
  destruct t as [|c t]; [done|]. eexists c, _. split; [reflexivity|]. by eapply token_not_blank.
Qed.

Lemma yylex_tokens (l : list str) s args k w r fuel :
  Forall is_token l -> Forall byte r -> 0 <= k -> k + Z.of_nat (length l) <= 9 ->
  length args = 10%nat -> (2 * length l < fuel)%nat ->
  exists w', while_ fuel yylex_step (line_state s (print_tokens l ++ newline :: r) args k w) =
    Ret true (line_state s r (fill k l args) (k + Z.of_nat (length l)) w').
Proof.
  revert args k w fuel. induction l as [|t l IH]; intros args k w fuel Hl Hr Hk Hkl Hargs Hfuel.
  - destruct fuel as [|fuel]; [simpl in Hfuel; lia|]. exists w. cbn [while_ print_tokens fmap list_fmap concat app].
    rewrite (bind_ret _ _ _ _ _ (newline_step _ _ _ _ _ Hr)). simpl. by rewrite Z.add_0_r.
  - apply list.Forall_cons in Hl as [Ht Hl]. simpl length in *.
    destruct fuel as [|[|fuel]]; [lia..|].
    assert (print_tokens (t :: l) ++ newline :: r = t ++ 32 :: (print_tokens l ++ newline :: r)) as ->.
    { unfold print_tokens. simpl. by rewrite <-!app_assoc. }
    assert (Forall byte (print_tokens l ++ newline :: r)) as Hb by (apply print_bytes; [done|by constructor]).
    destruct (word_step s t (print_tokens l ++ newline :: r) args k w) as [w1 Hw1]; [done|done|lia|done|].
    rewrite (while_none _ _ _ _ Hw1).
    destruct (print_head l r Hl) as (c & r' & Hc & Hbl). rewrite Hc in Hb |- *.
    apply list.Forall_cons in Hb as [Hbc Hbr].
    rewrite (while_none _ _ _ _ (blank_step s c r' _ (k + 1) w1 Hbc Hbr Hbl)). rewrite <-Hc.
    destruct (IH (aupd (k + 1) (fun _ => None) (aupd k (fun _ => Some t) args)) (k + 1) w1 fuel) as [w' Hw'];
      [done|done|lia|lia|by rewrite !length_aupd|lia|].
    exists w'. rewrite Hw'. simpl. do 2 f_equal. lia.
Qed.

Lemma length_print (l : list str) : Forall is_token l -> (2 * length l <= length (print_tokens l))%nat.
Proof.
  induction 1 as [|t l Ht Hl IH]; [done|].
  assert (print_tokens (t :: l) = t ++ 32 :: print_tokens l) as ->.
  { unfold print_tokens. simpl. by rewrite <-app_assoc. }
  destruct (token_bytes t Ht) as [_ Hne]. rewrite length_app. destruct t; [done|]. cbn [length]. lia.
Qed.
Lemma get_line_run (l : list str) s r :
  Forall is_token l -> Forall byte r -> Z.of_nat (length l) <= 9 -> length (_args s) = 10%nat ->
  input s = print_tokens l ++ newline :: r ->
  exists w', get_line s = Ret true (line_state s r (fill 0 l (aupd 0 (fun _ => None) (_args s)))
    (Z.of_nat (length l)) w').
Proof.
  intros Hl Hr Hlen Hargs Hin. unfold get_line, yylex.
  rewrite (bind_ret _ _ tt s (s <| _argcount := 0 |>)) by done. cbv beta.
  erewrite bind_ret by (apply set_arg_run; simpl; lia). cbv beta.
  rewrite (bind_ret _ _ (input s) _ (line_state s (input s) (aupd 0 (fun _ => None) (_args s)) 0 (world s)))
    by (by destruct s). cbv beta. rewrite Hin.
  destruct (yylex_tokens l s (aupd 0 (fun _ => None) (_args s)) 0 (world s) r
    (S (length (print_tokens l ++ newline :: r)))) as [w' Hw']; [done|done|lia|lia|by rewrite length_aupd| |].
  { rewrite length_app. pose proof (length_print l Hl). lia. }
  exists w'. exact Hw'.
Qed.

(** ** Parsing a line *)
(** The array holds the tokens [l] from index [i] on. *)
Definition holds_at (args : list (option str)) (i : Z) (l : list str) : Prop :=
  forall j t, l !! j = Some t -> aget args (i + Z.of_nat j) = Some (Some t).
Lemma holds_at_cons args i t l :
  holds_at args i (t :: l) -> aget args i = Some (Some t) /\ holds_at args (i + 1) l.
Proof.
  intros Hh. split; [by rewrite <-(Z.add_0_r i); apply (Hh 0%nat)|].
  intros j t' Hj. specialize (Hh (S j) t' Hj). by replace (i + 1 + Z.of_nat j) with (i + Z.of_nat (S j)) by lia.
Qed.
Lemma holds_at_app args i l l' :
  holds_at args i (l ++ l') -> holds_at args i l /\ holds_at args (i + Z.of_nat (length l)) l'.
Proof.
  intros Hh. split; intros j t Hj.
  - apply Hh. by apply lookup_app_l_Some.
  - replace (i + _ + _) with (i + Z.of_nat (length l + j)) by lia. apply Hh.
    rewrite lookup_app_r by lia. by replace (length l + j - length l)%nat with j by lia.
Qed.
Lemma word_plain t : is_word t -> t <> str_lt /\ t <> str_gt /\ t <> str_amp.
Proof. intros [_ Hw]. split_and!; intros ->; by vm_compute in Hw. Qed.

Lemma parse_word_step i t (cmds : list str) s :
  is_word t -> aget (_args s) i = Some (Some t) -> isCommand s = true -> Z.of_nat (length cmds) < 64 ->
  parse_step (i, cmds) s = Ret (inl (i + 1, cmds ++ [t])) s.
Proof.
  intros Ht Hi Hc Hl. destruct (word_plain t Ht) as (H1 & H2 & H3). unfold parse_step.
  rewrite (bind_ret _ _ _ _ _ (get_arg_run _ _ _ Hi)). cbv beta iota.
  rewrite !bool_decide_false by done. rewrite (bind_ret _ _ true s s) by (unfold gets; by rewrite Hc).
  cbv beta. replace (64 <=? _) with false by lia. done.
Qed.
Lemma parse_words (ws : list str) i (cmds : list str) fuel s :
  Forall is_word ws -> holds_at (_args s) i ws -> isCommand s = true ->
  Z.of_nat (length cmds + length ws) <= 64 ->
  loop_ (length ws + fuel) parse_step (i, cmds) s =
    loop_ fuel parse_step (i + Z.of_nat (length ws), cmds ++ ws) s.
Proof.
  revert i cmds. induction ws as [|t ws IH]; intros i cmds Hw Hh Hc Hl; simpl length in *.
  - simpl. by rewrite Z.add_0_r, app_nil_r.
  - apply list.Forall_cons in Hw as [Ht Hw]. apply holds_at_cons in Hh as [Hi Hh].
    rewrite Nat.add_succ_l. rewrite (loop_next _ _ _ _ _ _ (parse_word_step i t cmds s Ht Hi Hc ltac:(lia))).
    rewrite IH; [|done|done|done|rewrite length_app; simpl; lia].
    rewrite <-app_assoc. do 2 f_equal. lia.
Qed.

Definition after_redirs (rs : list redirection) s : state W :=
  s <| in_filename := stdin_of rs (in_filename s) |> <| out_filename := stdout_of rs (out_filename s) |>
    <| background := background_of rs (background s) |>
    <| isCommand := match rs with [] => isCommand s | _ => false end |>.
Lemma parse_redir_step r i (cmds : list str) s :
  redir_ok r -> holds_at (_args s) i (redir_tokens r) ->
  parse_step (i, cmds) s = Ret (inl (i + Z.of_nat (length (redir_tokens r)), cmds)) (after_redirs [r] s).
Proof.
  intros Hr Hh. unfold parse_step.
  destruct r as [f|f|]; simpl in Hr, Hh; apply holds_at_cons in Hh as [Hi Hh].
  1,2: apply holds_at_cons in Hh as [Hf _].
  all: rewrite (bind_ret _ _ _ _ _ (get_arg_run _ _ _ Hi)); cbv beta iota.
  - rewrite bool_decide_true by done. by rewrite (bind_ret _ _ _ _ _ (get_arg_run _ _ _ Hf)).
  - rewrite bool_decide_false, bool_decide_true by done.
    by rewrite (bind_ret _ _ _ _ _ (get_arg_run _ _ _ Hf)).
  - rewrite !bool_decide_false, bool_decide_true by done. done.
Qed.
Lemma after_redirs_cons r rs s : after_redirs rs (after_redirs [r] s) = after_redirs (r :: rs) s.
Proof. destruct s, r, rs; reflexivity. Qed.
Lemma parse_redirs rs i (cmds : list str) fuel s :
  Forall redir_ok rs -> holds_at (_args s) i (concat (redir_tokens <$> rs)) ->
  loop_ (length rs + fuel) parse_step (i, cmds) s =
    loop_ fuel parse_step (i + Z.of_nat (length (concat (redir_tokens <$> rs))), cmds) (after_redirs rs s).
Proof.
  revert i s. induction rs as [|r rs IH]; intros i s Hr Hh.
  - simpl. rewrite Z.add_0_r. by destruct s.
  - apply list.Forall_cons in Hr as [Hr Hrs]. simpl in Hh. apply holds_at_app in Hh as [H1 H2].
    change (length (r :: rs)) with (S (length rs)). rewrite Nat.add_succ_l. rewrite (loop_next _ _ _ _ _ _ (parse_redir_step r i cmds s Hr H1)).
    rewrite IH by done. rewrite after_redirs_cons. rewrite fmap_cons. cbn [concat].
    rewrite length_app. do 2 f_equal. lia.
Qed.

(** What is left of a line that was read: the fork of the command. *)
Definition forked (rs : list redirection) (ws : list str) s s' : Prop :=
  if (fork (world s)).1 =? -1 then
    errors s' = errors s + 1 /\ children s' = children s /\ waits s' = waits s
  else
    errors s' = errors s /\
    children s' = children s ++ [child_run (stdout_of rs None) (stdin_of rs None) ws (fork (world s)).2] /\
    waits s' = waits s ++ [if background_of rs false then WaitNoHang else Wait].

Lemma execute_run (ws : list str) rs s :
  ws <> [] -> out_filename s = stdout_of rs None -> in_filename s = stdin_of rs None ->
  background s = background_of rs false ->
  exists s', execute ws s = Ret tt s' /\ forked rs ws s s' /\ input s' = input s /\ _args s' = _args s.
Proof.
  intros Hws Ho Hi Hb. unfold execute, forked.
  rewrite (bind_ret _ _ s s s) by done. cbv beta.
  destruct (fork (world s)) as [pid w] eqn:Ef. cbn [fst snd].
  rewrite (bind_ret _ _ tt s (s <| world := w |>)) by done. cbv beta iota.
  destruct (pid =? -1).
  - destruct ws; [done|]. eexists. split; [reflexivity|]. done.
  - eexists. split; [reflexivity|]. simpl. by rewrite Ho, Hi, Hb.
Qed.

Lemma parse_run c s :
  command_ok c -> Z.of_nat (length (tokens c)) <= 9 ->
  holds_at (_args s) 0 (tokens c) -> aget (_args s) (Z.of_nat (length (tokens c))) = Some None ->
  exists s', parse s = Ret tt s' /\ forked (redirs c) (words c) s s' /\ input s' = input s /\ _args s' = _args s.
Proof.
  intros (Hne & Hw & Hr) Hlen Hh Hend. unfold parse.
  set (s0 := s <| background := false |> <| isCommand := true |> <| out_filename := None |> <| in_filename := None |>).
  rewrite (bind_ret _ _ tt s s0) by done. cbv beta.
  unfold tokens in *. rewrite length_app in *. apply holds_at_app in Hh as [H1 H2].
  assert (length (redirs c) <= length (concat (redir_tokens <$> redirs c)))%nat as Hrl.
  { clear. induction (redirs c) as [|r rs IH]; [done|]. rewrite fmap_cons. cbn [concat length].
    rewrite length_app. destruct r; cbn [redir_tokens length]; lia. }
  rewrite (bind_ret _ _ (words c) s0 (after_redirs (redirs c) s0)).
  2:{ replace 12%nat with (length (words c) + (length (redirs c) + S (11 - length (words c) - length (redirs c))))%nat by lia.
      rewrite parse_words; [|done|done|done|simpl; lia]. cbn [app].
      rewrite parse_redirs by done. apply loop_end. unfold parse_step.
      rewrite (bind_ret _ _ None _ (after_redirs (redirs c) s0)); [done|].
      apply get_arg_run. change (_args (after_redirs (redirs c) s0)) with (_args s).
      rewrite <-Hend. f_equal. lia. }
  cbv beta. replace (64 <=? _) with false by lia.
  rewrite (bind_ret _ _ tt _ (after_redirs (redirs c) s0)) by done. cbv beta.
  destruct (execute_run (words c) (redirs c) (after_redirs (redirs c) s0)) as (s' & Hrun & Hf & Hin & Hargs);
    [done..|]. exists s'. split_and!; [done|exact Hf|done|done].
Qed.

Lemma line_read c s r :
  command_ok c -> Z.of_nat (length (tokens c)) <= 9 -> length (_args s) = 10%nat ->
  Forall byte r -> input s = print c ++ r ->
  exists s1, get_line s = Ret true s1 /\ input s1 = r /\ length (_args s1) = 10%nat /\
    holds_at (_args s1) 0 (tokens c) /\ aget (_args s1) (Z.of_nat (length (tokens c))) = Some None /\
    children s1 = children s /\ waits s1 = waits s /\ errors s1 = errors s.
Proof.
  intros Hc Hlen Hargs Hr Hin.
  destruct (get_line_run (tokens c) s r) as [w' Hw']; [by apply tokens_ok|done|done|done| |].
  { rewrite Hin. unfold print. by rewrite <-app_assoc. }
  exists (line_state s r (fill 0 (tokens c) (aupd 0 (fun _ => None) (_args s))) (Z.of_nat (length (tokens c))) w').
  assert (aget (aupd 0 (fun _ => None) (_args s)) 0 = Some None) as H0.
  { rewrite aget_aupd_eq. destruct (aget_is_Some (_args s) 0) as [x ->]; [lia|done]. }
  assert (forall i, 0 <= i <= 0 + Z.of_nat (length (tokens c)) ->
    aget (fill 0 (tokens c) (aupd 0 (fun _ => None) (_args s))) i = Some (tokens c !! Z.to_nat (i - 0))) as Hf.
  { intros i Hi. apply aget_fill; [done|rewrite length_aupd; lia|done|lia]. }
  split_and!; try done.
  - simpl. by rewrite length_fill, length_aupd.
  - intros j t Hj. simpl. rewrite Hf.
    + rewrite <-Hj. do 2 f_equal. lia.
    + apply lookup_lt_Some in Hj. lia.
  - simpl. rewrite Hf by lia. f_equal. apply lookup_ge_None. lia.
Qed.

(** What a turn on the line [c] in front of [r] leaves: it was read, and the command it
    means was forked, with its redirections, or the failure of the fork reported. *)
Definition line_done (c : command) (r : list Z) s (res : option unit) s' : Prop :=
  res = None /\ input s' = r /\ length (_args s') = 10%nat /\
  exists w, forked (redirs c) (words c) (s <| world := w |>) s'.

(** The parser steps over the end of the argument array.  On a line of nine tokens, the
    last of which is a redirection, it takes the NULL behind it for the file name, goes on
    behind the NULL and reads the element [_args[10]] of an array of ten. *)
Theorem trailing_redirect (ws : list str) (redirect : str) s r :
  Forall is_word ws -> length ws = 8%nat -> head ws <> Some str_exit ->
  redirect = str_lt \/ redirect = str_gt ->
  length (_args s) = 10%nat -> Forall byte r ->
  input s = print_tokens (ws ++ [redirect]) ++ newline :: r ->
  (exists s', shell_step s = Halt Undef s') /\ (exists s', myshell_step s = Halt Undef s').
Proof.
  intros Hw Hlen Hexit Hred Hargs Hr Hin.
  assert (is_token redirect) as Htok by (destruct Hred as [-> | ->]; right; by eexists).
  destruct (get_line_run (ws ++ [redirect]) s r) as [w' Hget]; [|done|rewrite length_app; simpl; lia|done|done|].
  { apply list.Forall_app. split; [|by constructor]. eapply list.Forall_impl; [exact Hw|]. by left. }
  set (args := fill 0 (ws ++ [redirect]) (aupd 0 (fun _ => None) (_args s))) in *.
  set (s1 := line_state s r args _ w') in *.
  assert (forall i, 0 <= i <= 9 -> aget args i = Some ((ws ++ [redirect]) !! Z.to_nat i)) as Hf.
  { intros i Hi. rewrite <-(Z.sub_0_r i) at 2. apply aget_fill; rewrite ?length_aupd, ?length_app; simpl; try lia.
    rewrite aget_aupd_eq. by destruct (aget_is_Some (_args s) 0) as [x ->]; [lia|]. }
  set (s0 := s1 <| background := false |> <| isCommand := true |> <| out_filename := None |> <| in_filename := None |>).
  assert (exists s', loop_ 12 parse_step (0, []) s0 = Halt Undef s') as [s' Hloop].
  { replace 12%nat with (length ws + 4)%nat by lia. rewrite parse_words; [|done| |done|simpl; lia].
    2:{ intros j t Hj. change (_args s0) with args. pose proof (lookup_lt_Some _ _ _ Hj). rewrite Hf by lia.
        rewrite Z.add_0_l, Nat2Z.id. f_equal. by apply lookup_app_l_Some. }
    rewrite Hlen. change (0 + Z.of_nat 8) with 8. cbn [app].
    assert (aget (_args s0) 8 = Some (Some redirect)) as H8.
    { change (_args s0) with args. rewrite Hf by lia. rewrite lookup_app_r by lia. by rewrite Hlen. }
    assert (aget (_args s0) 9 = Some None) as H9.
    { change (_args s0) with args. rewrite Hf by lia. rewrite lookup_ge_None_2; [done|].
      rewrite length_app, Hlen. simpl. lia. }
    assert (exists s', parse_step (8, ws) s0 = Ret (inl (10, ws)) s' /\ _args s' = args) as (s' & Hs' & Ha').
    { unfold parse_step. rewrite (bind_ret _ _ _ _ _ (get_arg_run _ _ _ H8)). cbv beta iota.
      destruct Hred as [-> | ->]; [rewrite bool_decide_true by done|
        rewrite bool_decide_false, bool_decide_true by done];
        rewrite (bind_ret _ _ _ _ _ (get_arg_run _ _ _ H9)); by eexists. }
    rewrite (loop_next _ _ _ _ _ _ Hs'). exists s'. cbn [loop_]. apply bind_halt. unfold parse_step.
    apply bind_halt. unfold get_arg, mbind, M_bind, gets. rewrite Ha'.
    assert (length args = 10%nat) as Hla by (unfold args; by rewrite length_fill, length_aupd).
    unfold aget. rewrite bool_decide_true by lia. rewrite lookup_ge_None_2 by (rewrite Hla; lia). done. }
  destruct ws as [|t ws]; [done|].
  assert (get_arg 0 s1 = Ret (Some t) s1) as H0 by (apply get_arg_run; change (_args s1) with args; by rewrite Hf).
  assert (exit_or_parse t s1 = Halt Undef s') as Hparse.
  { unfold exit_or_parse. rewrite bool_decide_false by (intros ->; by apply Hexit).
    apply bind_halt. unfold parse. rewrite (bind_ret _ _ tt s1 s0) by done. by apply bind_halt. }
  unfold shell_step, myshell_step.
  split; exists s'; rewrite (bind_ret _ _ _ _ _ Hget); cbv beta; cbn [negb];
    rewrite (bind_ret _ _ _ _ _ H0); exact Hparse.
Qed.
End lines.

(** ** The end of the program *)
Section ending.
Context {W : Type} `{ShellEnv W}.
Implicit Types (s : state W).

(** The states between two lines. *)
Definition at_prompt s : Prop := Forall byte (input s) /\ length (_args s) = 10%nat.
Definition left_of s : nat := length (input s).

Lemma wp_get_arg i s (Q : option str -> state W -> Prop) E :
  (forall x, aget (_args s) i = Some x -> Q x s) -> (aget (_args s) i = None -> E Undef s) ->
  wp (get_arg i) Q E s.
Proof.
  intros Hs Hn. unfold get_arg. apply wp_bind, wp_gets. destruct (aget _ _) eqn:E1; simpl;
    [by apply wp_ret, Hs|by apply wp_halt, Hn].
Qed.
Lemma wp_set_arg i p s (Q : unit -> state W -> Prop) E :
  0 <= i < Z.of_nat (length (_args s)) ->
  Q tt (s <| _args := aupd i (fun _ => p) (_args s) |>) -> wp (set_arg i p) Q E s.
Proof. intros Hi HQ. eapply wp_ret_run; [by apply set_arg_run|done]. Qed.

Lemma munch_range c r : (0 < (munch c r).2 <= length (c :: r))%nat.
Proof.
  unfold munch. pose proof (span_le wordc r). pose proof (span_le blank r).
  repeat case_match; simpl; lia.
Qed.
Lemma word_action_wp t s :
  length (_args s) = 10%nat -> 0 <= _argcount s <= 9 ->
  wp (word_action t) (fun _ s' => input s' = input s /\ length (_args s') = 10%nat /\ 0 <= _argcount s' <= 9)
    never s.
Proof.
  intros Hl Hn. unfold word_action. apply wp_bind, wp_gets.
  destruct (_argcount s <? _numargs - 1) eqn:E; [|by apply wp_ret]. unfold _numargs in E.
  apply wp_bind, wp_get. destruct (strdup _ _) as [ok w]. apply wp_bind, wp_modify.
  apply wp_bind, wp_set_arg; [simpl; lia|]. apply wp_bind, wp_modify. apply wp_set_arg.
  - simpl. rewrite length_aupd. lia.
  - simpl. rewrite !length_aupd. split_and!; [done..|lia|lia].
Qed.
Definition scanning s : Prop := at_prompt s /\ 0 <= _argcount s <= 9.
Lemma yylex_wp s :
  at_prompt s ->
  wp yylex (fun ok s' => at_prompt s' /\ if ok then (left_of s' < left_of s)%nat else input s' = []) never s.
Proof.
  intros [Hb Hl]. unfold yylex. apply wp_bind, wp_modify, wp_bind, wp_set_arg; [simpl; lia|].
  apply wp_bind, wp_gets.
  set (s0 := s <| _argcount := 0 |> <| _args := _ |>).
  apply (wp_while _ _ (fun n s' => scanning s' /\ left_of s' = n /\ (n <= left_of s)%nat) _ _ (left_of s));
    [|split_and!; [split; [split; [done|unfold s0; simpl; by rewrite length_aupd]|done]|done|done]|unfold left_of, s0; simpl; lia].
  clear s0. intros n s' (((Hb' & Hl') & Hc) & <- & Hle). unfold yylex_step. apply wp_bind, wp_gets.
  apply wp_bind. destruct (input s') as [|c r] eqn:Ein.
  { rewrite yy_token_nil. apply wp_ret, wp_ret. split; [|done]. split; [by rewrite Ein|done]. }
  apply list.Forall_cons in Hb' as [Hbc Hbr]. rewrite yy_token_munch by done. apply wp_ret.
  pose proof (munch_range c r) as Hm. destruct (munch c r) as [act m]. cbn [fst snd] in *.
  apply wp_bind, wp_modify.
  assert (scanning (s' <| input := drop m (c :: r) |>)) as Hs1.
  { split; [|done]. split; [|done]. by apply Forall_drop; constructor. }
  assert (left_of (s' <| input := drop m (c :: r) |>) < left_of s')%nat as Hlt.
  { unfold left_of. rewrite Ein. change (input _) with (drop m (c :: r)). rewrite length_drop. lia. }
  destruct Hs1 as [[Hb1 Hl1] Hc1]. destruct (act =? 1).
  - apply wp_bind. eapply wp_mono; [by apply word_action_wp| |done].
    intros [] s2 (Hin2 & Hl2 & Hc2). apply wp_ret. exists (left_of s2).
    unfold left_of in *. rewrite Hin2. split; [done|]. split_and!; [|done|lia].
    split; [split; [by rewrite Hin2|done]|done].
  - destruct (act =? 2); apply wp_ret; [split; [done|lia]|].
    eexists. split; [exact Hlt|]. split_and!; [done|done|lia].
Qed.

Lemma execute_wp (cmds : list str) s :
  wp (execute cmds) (fun _ s' => input s' = input s /\ _args s' = _args s) (fun w _ => w = Undef) s.
Proof.
  unfold execute. apply wp_bind, wp_get. destruct (fork _) as [pid w]. apply wp_bind, wp_modify.
  destruct (pid =? -1); [|by repeat first [apply wp_bind|apply wp_modify|apply wp_gets]].
  destruct cmds; [by apply wp_halt|by apply wp_modify].
Qed.
Lemma parse_wp s :
  length (_args s) = 10%nat ->
  wp parse (fun _ s' => input s' = input s /\ _args s' = _args s) (fun w _ => w = Undef) s.
Proof.
  intros Hl. unfold parse. apply wp_bind, wp_modify, wp_bind.
  eapply wp_mono; [apply (wp_loop _ _ (fun n a s' => n = Z.to_nat (11 - a.1) /\ 0 <= a.1 <= 11 /\
    input s' = input s /\ _args s' = _args s) (fun _ s' => input s' = input s /\ _args s' = _args s)
    (fun w _ => w = Undef) 11)|..].
  - intros n [i cmds] s' (-> & Hi & Hin & Ha). cbn [fst] in *. unfold parse_step.
    apply wp_bind, wp_get_arg; [|done]. intros x Hx. pose proof (aget_range _ _ _ Hx) as Hr. rewrite Ha in Hr.
    destruct x as [a|]; [|by apply wp_ret].
    assert (forall j, (j = 1 \/ j = 2) -> exists n', (n' < Z.to_nat (11 - i))%nat /\
      n' = Z.to_nat (11 - (i + j)) /\ 0 <= i + j <= 11) as Hvar by (intros j Hj; eexists; split_and!; [|done|..]; lia).
    destruct (Hvar 1 ltac:(auto)) as (n1 & ? & ? & ?), (Hvar 2 ltac:(auto)) as (n2 & ? & ? & ?).
    case_bool_decide; [|case_bool_decide; [|case_bool_decide]].
    1,2: apply wp_bind, wp_get_arg; [|done]; intros f _; apply wp_bind, wp_modify, wp_ret; exists n2; split_and!; simpl; first [done|lia].
    + apply wp_bind, wp_modify, wp_ret. exists n1. split_and!; simpl; first [done|lia].
    + apply wp_bind, wp_gets, wp_bind. destruct (_ && _); [by apply wp_halt|]. apply wp_ret, wp_ret.
      exists n1. split_and!; simpl; first [done|lia].
  - split_and!; simpl; first [done|lia].
  - lia.
  - intros cmds s' [Hin Ha]. apply wp_bind. destruct (_ <=? _); [by apply wp_halt|]. apply wp_ret.
    eapply wp_mono; [apply execute_wp| |done]. intros _ s2 [-> ->]. done.
  - done.
Qed.

(** A turn of either loop: it stops the program, or takes at least a byte of the input. *)
Definition turn_post (eof : bool) s (res : option unit) s' : Prop :=
  match res with
  | None => at_prompt s' /\ (left_of s' < left_of s)%nat
  | Some _ => aget (_args s') 0 = Some (Some str_exit) \/ eof = true /\ input s' = []
  end.
Lemma exit_or_parse_wp a eof s s0 :
  at_prompt s -> aget (_args s) 0 = Some (Some a) -> (left_of s < left_of s0)%nat ->
  wp (exit_or_parse a) (turn_post eof s0) (fun w _ => w = Undef) s.
Proof.
  intros [Hb Hl] Ha Hlt. unfold exit_or_parse. case_bool_decide; [apply wp_ret; left; congruence|].
  apply wp_bind. eapply wp_mono; [by apply parse_wp| |done]. intros _ s' [Hin Hargs]. apply wp_ret.
  split; [split; congruence|]. unfold left_of in *. congruence.
Qed.
Lemma shell_step_wp s :
  at_prompt s -> wp shell_step (turn_post false s) (fun w _ => w = Undef) s.
Proof.
  intros Hs. unfold shell_step. apply wp_bind. eapply wp_mono; [by apply yylex_wp| |done].
  intros ok s' [Hs' Hok]. destruct ok; simpl; [|by apply wp_halt].
  apply wp_bind, wp_get_arg; [|done]. intros [a|] Ha; [by apply exit_or_parse_wp|by apply wp_ret].
Qed.
Lemma myshell_step_wp s :
  at_prompt s -> wp myshell_step (turn_post true s) (fun w _ => w = Undef) s.
Proof.
  intros Hs. unfold myshell_step. apply wp_bind. eapply wp_mono; [by apply yylex_wp| |done].
  intros ok s' [Hs' Hok]. destruct ok; simpl; [|apply wp_ret; by right].
  apply wp_bind, wp_get_arg; [|done]. intros [a|] Ha; [by apply exit_or_parse_wp|by apply wp_halt].
Qed.
Lemma main_wp eof (body : M (state W) (option unit)) s :
  (forall s, at_prompt s -> wp body (turn_post eof s) (fun w _ => w = Undef) s) -> at_prompt s ->
  wp (text ← gets input; while_ (S (length text)) body) (fun r s' => turn_post eof s (Some r) s')
    (fun w _ => w = Undef) s.
Proof.
  intros Hbody Hs. apply wp_bind, wp_gets.
  apply (wp_while _ _ (fun n s' => at_prompt s' /\ left_of s' = n) _ _ (left_of s)); [|done|unfold left_of; lia].
  intros n s' [Hs' <-]. eapply wp_mono; [by apply Hbody| |done].
  intros [r|] s2 Hp; [exact Hp|]. destruct Hp as [Hp Hlt]. by exists (left_of s2).
Qed.

(** Both programs end on every input.  [shell.c] ends regularly only by a line whose
    first word is [exit]; at the end of the input it always follows a NULL pointer.
    [myshell.c] ends by [exit] or at the end of the input.  All other ends are undefined
    behaviour. *)
Theorem main_ends s :
  Forall byte (input s) -> length (_args s) = 10%nat ->
  wp shell_main (fun _ s' => aget (_args s') 0 = Some (Some str_exit)) (fun w _ => w = Undef) s /\
  wp myshell_main (fun _ s' => aget (_args s') 0 = Some (Some str_exit) \/ input s' = [])
    (fun w _ => w = Undef) s.
Proof.
  intros Hb Hl. split.
  - eapply wp_mono; [apply (main_wp false); [apply shell_step_wp|done]| |done].
    intros [] s' [?|[? _]]; done.
  - eapply wp_mono; [apply (main_wp true); [apply myshell_step_wp|done]| |done].
    intros [] s' [?|[_ ?]]; auto.
Qed.
End ending.

(** ** A user for the examples *)
Module Demo.
Record W := mk_W { files : list str; programs : list str }.
#[export] Instance shell_env : ShellEnv W := {
  strdup := fun t w => (true, w);
  fork := fun w => (7, w);
  fopen := fun f for_writing w => for_writing || bool_decide (f ∈ files w);
  execvp := fun f argv w => bool_decide (f ∈ programs w);
}.
Definition w0 : W := mk_W [text_of "in"] [text_of "cat"; text_of "ls"].
Definition nl : string := String (Ascii.ascii_of_nat 10) EmptyString.
Definition start (lines : list string) : state W :=
  mk_state (text_of (String.concat "" ((fun l => l +:+ nl) <$> lines))) (replicate 10 None) 0 None None
    false false [] [] 0 w0.
Definition session (main : M (state W) unit) (lines : list string) : option stop * list child :=
  match main (start lines) with Ret _ s => (None, children s) | Halt w s => (Some w, children s) end.

Example redirected :
  session shell_main ["ls -l > out &"; "cat<in"; "exit"]%string =
  (None, [Exec (text_of "ls") [text_of "ls"; text_of "-l"] None (Some (text_of "out"));
          Exec (text_of "cat") [text_of "cat"] (Some (text_of "in")) None]).
Proof. by vm_compute. Qed.
(** The end of the input and an empty line in the two versions. *)
Example ends : (session shell_main ["ls"]%string).1 = Some Undef /\ (session myshell_main ["ls"]%string).1 = None.
Proof. by vm_compute. Qed.
Example empty_line : (session shell_main [""; "exit"]%string).1 = None /\
  (session myshell_main [""; "exit"]%string).1 = Some Undef.
Proof. by vm_compute. Qed.
(** A redirection at the end of a line picks up what an earlier line left in the array:
    [cat <] overwrites the file "out" of the line before. *)
Example stale_redirect :
  (session shell_main ["ls a b > out"; "cat <"; "exit"]%string).2 !! 1%nat =
  Some (Exec (text_of "cat") [text_of "cat"] None (Some (text_of "out"))).
Proof. by vm_compute. Qed.
(** A program that does not exist leaves a second shell behind, reading the same input. *)
Example two_shells : (session shell_main ["sl"; "exit"]%string).2 = [BackInLoop].
Proof. by vm_compute. Qed.
(** A byte that no rule of words knows splits a name; arguments behind a redirection and
    beyond the ninth token are dropped. *)
Example dropped :
  (session shell_main ["cat my_file > out -l"; "ls 2 3 4 5 6 7 8 9 10"; "exit"]%string).2 =
  [Exec (text_of "cat") (text_of <$> ["cat"; "my"; "file"]%string) None (Some (text_of "out"));
   Exec (text_of "ls") (text_of <$> ["ls"; "2"; "3"; "4"; "5"; "6"; "7"; "8"; "9"]%string) None None].
Proof. by vm_compute. Qed.

Definition ls_out : command :=
  Eval vm_compute in mk_command [text_of "ls"; text_of "-l"] [Out (text_of "out"); Background].
Definition rest_of_input : list Z := Eval vm_compute in text_of ("exit" +:+ nl).
Definition ls_state : state W := Eval vm_compute in start ["ls -l > out & "; "exit"]%string.
Definition nine : list str :=
  Eval vm_compute in text_of <$> ["cat"; "2"; "3"; "4"; "5"; "6"; "7"; "8"]%string.
Definition nine_state : state W := Eval vm_compute in start ["cat 2 3 4 5 6 7 8 < "]%string.
Lemma trailing_redirect_witness : exists s', shell_step nine_state = Halt Undef s'.
Proof.
  refine (proj1 (trailing_redirect ltac:(by vm_compute) nine str_lt nine_state [] _ _ _ _ _ _ _)).
  - repeat constructor; by vm_compute.
  - by vm_compute.
  - discriminate.
  - by left.
  - by vm_compute.
  - constructor.
  - by vm_compute.
Defined.
Definition exit_state : state W := Eval vm_compute in start ["ls"; "exit"]%string.
Lemma main_ends_witness :
  wp shell_main (fun _ s' => aget (_args s') 0 = Some (Some str_exit)) (fun w _ => w = Undef)
    exit_state.
Proof.
  refine (proj1 (main_ends exit_state _ _)); [|by vm_compute].
  apply (bool_decide_unpack _). by vm_compute.
Defined.
End Demo.
