(* ===== verification/PmBase.v ===== *)
(** The process manager, [src/Project_2/servers/pm]: its process table ([mproc.h],
    [const.h]), its global variables ([glo.h]), the fields of the messages it reads
    ([param.h]), and what it asks of the kernel, VM, VFS and the schedulers.
    A pointer to a slot of the table is its index; [mp] is the slot of the caller.  A set of
    signals is a bit mask. *)
From S2P Require Import Prelude Minix.
Local Open Scope Z_scope.

(** ** Data *)
Record sigaction := mk_sigaction {
  sa_handler : Z;
  sa_mask : Z;
  sa_flags : Z;
}.
#[export] Instance eta_sigaction : Eta sigaction := fun r =>
  mk_sigaction
    (sa_handler r) (sa_mask r) (sa_flags r).

(** The reply message of a slot, with the names of [param.h]. *)
Record reply := mk_reply {
  reply_res : rc;
  reply_res2 : Z;
  reply_res3 : Z;
  reply_mask : Z;
  reply_trace : Z;
  reply_endpt : Z;
  reply_pendpt : Z;
}.
#[export] Instance eta_reply : Eta reply := fun r =>
  mk_reply
    (reply_res r) (reply_res2 r) (reply_res3 r) (reply_mask r) (reply_trace r) (reply_endpt r)
    (reply_pendpt r).

(** [struct mproc], without [mp_timer], which belongs to the timer library. *)
Record mproc := mk_mproc {
  mp_exitstatus : Z;
  mp_sigstatus : Z;
  mp_pid : Z;
  mp_endpoint : Z;
  mp_procgrp : Z;
  mp_wpid : Z;
  mp_parent : Z;
  mp_tracer : Z;
  mp_child_utime : Z;
  mp_child_stime : Z;
  mp_realuid : Z;
  mp_effuid : Z;
  mp_realgid : Z;
  mp_effgid : Z;
  mp_ngroups : Z;
  mp_sgroups : list Z;
  mp_ignore : Z;
  mp_catch : Z;
  mp_sigmask : Z;
  mp_sigmask2 : Z;
  mp_sigpending : Z;
  mp_ksigpending : Z;
  mp_sigtrace : Z;
  mp_sigact : list sigaction;
  mp_sigreturn : Z;
  mp_interval : list Z;
  mp_flags : Z;
  mp_trace_flags : Z;
  mp_procargs : Z;
  mp_reply : reply;
  mp_nice : Z;
  mp_scheduler : Z;
  mp_name : list Z;  (* the C string *)
}.
#[export] Instance eta_mproc : Eta mproc := fun r =>
  mk_mproc
    (mp_exitstatus r) (mp_sigstatus r) (mp_pid r) (mp_endpoint r) (mp_procgrp r) (mp_wpid r)
    (mp_parent r) (mp_tracer r) (mp_child_utime r) (mp_child_stime r) (mp_realuid r)
    (mp_effuid r) (mp_realgid r) (mp_effgid r) (mp_ngroups r) (mp_sgroups r) (mp_ignore r)
    (mp_catch r) (mp_sigmask r) (mp_sigmask2 r) (mp_sigpending r) (mp_ksigpending r)
    (mp_sigtrace r) (mp_sigact r) (mp_sigreturn r) (mp_interval r) (mp_flags r)
    (mp_trace_flags r) (mp_procargs r) (mp_reply r) (mp_nice r) (mp_scheduler r) (mp_name r).

(** The message received: the fields that [param.h] and [com.h] give names to. *)
Record call := mk_call {
  m1_i1 : Z;
  m1_i2 : Z;
  m1_i3 : Z;
  m1_p1 : Z;
  m1_p2 : Z;
  m1_p3 : Z;
  m2_i1 : Z;
  m2_i2 : Z;
  m2_l1 : Z;
  m2_l2 : Z;
  m2_p1 : Z;
  m_source : Z;
  m_type : Z;
  PM_PROC : Z;  (* of com.h, as the fields below *)
  PM_STATUS : rc;
  PM_PC : Z;
  EXC_NM_PROC : Z;
  EXC_NM_PTR : Z;
  EXC_RS_PROC : Z;
  EXC_RS_RESULT : rc;
  EXC_RS_PC : Z;
  NOTIFY_TIMESTAMP : Z;
  PMTRACE_ADDR : Z;
  PM_ENDPT : Z;
  PMBRK_ADDR : Z;
}.
#[export] Instance eta_call : Eta call := fun r =>
  mk_call
    (m1_i1 r) (m1_i2 r) (m1_i3 r) (m1_p1 r) (m1_p2 r) (m1_p3 r) (m2_i1 r) (m2_i2 r) (m2_l1 r)
    (m2_l2 r) (m2_p1 r) (m_source r) (m_type r) (PM_PROC r) (PM_STATUS r) (PM_PC r)
    (EXC_NM_PROC r) (EXC_NM_PTR r) (EXC_RS_PROC r) (EXC_RS_RESULT r) (EXC_RS_PC r)
    (NOTIFY_TIMESTAMP r) (PMTRACE_ADDR r) (PM_ENDPT r) (PMBRK_ADDR r).

(** [param.h] *)
Definition pid (m : call) : Z := m1_i1 m.
Definition status (m : call) : Z := m1_i1 m.
Definition seconds (m : call) : Z := m1_i1 m.
Definition which_timer (m : call) : Z := m1_i1 m.
Definition usr_id (m : call) : Z := m1_i1 m.
Definition grp_id (m : call) : Z := m1_i1 m.
Definition grp_no (m : call) : Z := m1_i1 m.
Definition reboot_flag (m : call) : Z := m1_i1 m.
Definition exec_len (m : call) : Z := m1_i1 m.
Definition sig_nr (m : call) : Z := m1_i2 m.
Definition namelen (m : call) : Z := m1_i2 m.
Definition stack_bytes (m : call) : Z := m1_i2 m.
Definition reboot_strlen (m : call) : Z := m1_i2 m.
Definition exec_name (m : call) : Z := m1_p1 m.
Definition reboot_code (m : call) : Z := m1_p1 m.
Definition groupsp (m : call) : Z := m1_p1 m.
Definition new_val (m : call) : Z := m1_p1 m.
Definition sig_nsa (m : call) : Z := m1_p1 m.
Definition old_val (m : call) : Z := m1_p2 m.
Definition sig_osa (m : call) : Z := m1_p2 m.
Definition stack_ptr (m : call) : Z := m1_p2 m.
Definition sig_ret (m : call) : Z := m1_p3 m.
Definition sig_how (m : call) : Z := m2_i1 m.
Definition request (m : call) : Z := m2_i2 m.
Definition sig_set (m : call) : Z := m2_l1 m.
Definition data (m : call) : Z := m2_l2 m.
Definition sig_context (m : call) : Z := m2_p1 m.

(** [mproc.h] *)
Definition IN_USE : Z := 0x00001.
Definition WAITING : Z := 0x00002.
Definition ZOMBIE : Z := 0x00004.
Definition PAUSED : Z := 0x00008.
Definition ALARM_ON : Z := 0x00010.
Definition EXITING : Z := 0x00020.
Definition TOLD_PARENT : Z := 0x00040.
Definition STOPPED : Z := 0x00080.
Definition SIGSUSPENDED : Z := 0x00100.
Definition REPLY : Z := 0x00200.
Definition VFS_CALL : Z := 0x00400.
Definition PM_SIG_PENDING : Z := 0x00800.
Definition UNPAUSED : Z := 0x01000.
Definition PRIV_PROC : Z := 0x02000.
Definition PARTIAL_EXEC : Z := 0x04000.
Definition TRACE_EXIT : Z := 0x08000.
Definition TRACE_ZOMBIE : Z := 0x10000.
Definition DELAY_CALL : Z := 0x20000.
(** [const.h] *)
Definition NR_PIDS : Z := 30000.
Definition INIT_PID : Z := 1.
Definition NO_TRACER : Z := 0.
Definition DUMPED : Z := 128.
Definition NR_ITIMERS : Z := 3.
(** [sys/resource.h], and the order of the timers in [sys/time.h] *)
Definition PRIO_MIN : Z := -20.
Definition PRIO_MAX : Z := 20.
Definition ITIMER_REAL : Z := 0.
Definition ITIMER_VIRTUAL : Z := 1.
Definition ITIMER_PROF : Z := 2.

(** ** Headers
    [signal.h], [sys/ptrace.h], [sys/wait.h], [limits.h], [minix/callnr.h], [minix/com.h],
    and the clock frequency that the kernel tells PM when it starts. *)
Class PmHeaders := {
  PRIO_PROCESS : Z; GETPRIORITY : Z; SUPER_USER : Z; _NSIG : Z;
  SIGHUP : Z; SIGINT : Z; SIGQUIT : Z; SIGILL : Z; SIGTRAP : Z; SIGABRT : Z; SIGEMT : Z;
  SIGFPE : Z; SIGKILL : Z; SIGBUS : Z; SIGSEGV : Z; SIGALRM : Z; SIGTERM : Z; SIGCHLD : Z;
  SIGCONT : Z; SIGSTOP : Z; SIGWINCH : Z; SIGVTALRM : Z; SIGPROF : Z; SIGSNDELAY : Z;
  SIGS_IS_LETHAL : Z -> bool; SIGS_IS_TERMINATION : Z -> bool; SIGS_IS_STACKTRACE : Z -> bool;
  SIG_IGN : Z; SIG_DFL : Z; SA_NODEFER : Z; SA_RESETHAND : Z;
  SIG_BLOCK : Z; SIG_UNBLOCK : Z; SIG_SETMASK : Z; SIG_INQUIRE : Z;
  TO_TRACEFORK : Z; TO_ALTEXEC : Z; TO_NOEXEC : Z;
  T_OK : Z; T_ATTACH : Z; T_STOP : Z; T_READB_INS : Z; T_WRITEB_INS : Z; T_EXIT : Z;
  T_SETOPT : Z; T_GETRANGE : Z; T_SETRANGE : Z; T_DETACH : Z; T_RESUME : Z; T_STEP : Z;
  T_SYSCALL : Z; TS_INS : Z; TS_DATA : Z;
  WNOHANG : Z; WAIT : Z; NGROUPS_MAX : Z; PROC_NAME_LEN : Z; EXC_NM_RF_ALLOW_SETUID : Z;
  system_hz : Z; LONG_MAX : Z; uid_t : Z -> Z; gid_t : Z -> Z;      (* conversion to the type *)
  GETGROUPS : Z; GETUID : Z; GETGID : Z; MINIX_GETPID : Z; GETPGRP : Z;
  SETUID : Z; SETEUID : Z; SETGID : Z; SETEGID : Z; SETGROUPS : Z; SETSID : Z;
  PM_SETUID_REPLY : Z; PM_SETGID_REPLY : Z; PM_SETSID_REPLY : Z; PM_EXEC_REPLY : Z;
  PM_EXIT_REPLY : Z; PM_CORE_REPLY : Z; PM_FORK_REPLY : Z; PM_SRV_FORK_REPLY : Z;
  PM_UNPAUSE_REPLY : Z; PM_REBOOT_REPLY : Z; PM_SETGROUPS_REPLY : Z;
  VT_VIRTUAL : Z; VT_PROF : Z; RBT_MONITOR : Z; RBT_INVALID : Z;
}.

(** ** The outside *)
(** A request to VFS, with the fields of its message. *)
Inductive vfs_request :=
  | PM_FORK (proc pproc cpid : Z)
  | PM_SRV_FORK (proc pproc cpid : Z)
  | PM_EXIT (proc : Z)
  | PM_DUMPCORE (proc : Z)
  | PM_UNPAUSE (proc : Z)
  | PM_EXEC (proc path path_len frame frame_len : Z)
  | PM_SETUID (proc eid rid : Z)
  | PM_SETGID (proc eid rid : Z)
  | PM_SETGROUPS (proc no : Z)
  | PM_SETSID (proc : Z)
  | PM_REBOOT.
(** A request to a scheduler. *)
Inductive sched_request := SET_NICE (ep maxprio : Z).
(** [struct sigmsg], [struct timeval], [struct itimerval], [struct ptrace_range], and what
    PM reads of [struct exec_newmem]. *)
Record sigmsg := mk_sigmsg {
  sm_signo : Z; sm_mask : Z; sm_sighandler : Z; sm_sigreturn : Z; sm_stkptr : Z
}.
Record timeval := mk_timeval { tv_sec : Z; tv_usec : Z }.
Record itimerval := mk_itimerval { it_value : timeval; it_interval : timeval }.
Record ptrace_range := mk_ptrace_range { pr_space : Z; pr_addr : Z; pr_size : Z; pr_ptr : Z }.
Record exec_newmem := mk_exec_newmem { new_uid : Z; new_gid : Z; progname : list Z; args_bytes : Z }.

(** The calls of the scheduling library, of [_taskcall] and of [_munmap]. *)
Class PmSched (W : Type) := {
  sched_start : Z -> Z -> Z -> Z -> Z -> W -> (rc * option Z) * W;     (* Some: *newsched_e is written *)
  sched_inherit : Z -> Z -> Z -> Z -> W -> (rc * option Z) * W;
  sched_stop : Z -> Z -> W -> rc * W;
  taskcall : Z -> sched_request -> W -> rc * W;
  munmap_ : Z -> Z -> W -> rc * W;
  munmap_text_ : Z -> Z -> W -> rc * W;
}.
(** The calls of the kernel, VM and VFS, the timer library, and the copies between the
    address spaces; [copy_in] and [copy_out] of a structure are [sys_datacopy]. *)
Class PmEnv (W : Type) := {
  asynsend_vfs : vfs_request -> W -> rc * W;
  asynsend_signal : Z -> Z -> W -> rc * W;
  sendnb : Z -> reply -> W -> rc * W;
  vm_fork : Z -> Z -> W -> (rc * Z) * W;
  vm_willexit : Z -> W -> rc * W;
  vm_exit : Z -> W -> rc * W;
  vm_notify_sig : Z -> Z -> W -> rc * W;
  vm_push_sig : Z -> W -> (rc * Z) * W;
  vm_exec_newmem : Z -> exec_newmem -> W -> (rc * (Z * Z)) * W;
  sys_times : Z -> W -> (rc * (Z * Z)) * W;
  sys_stop : Z -> W -> rc * W;
  sys_delay_stop : Z -> W -> rc * W;
  sys_resume : Z -> W -> rc * W;
  sys_clear : Z -> W -> rc * W;
  sys_kill : Z -> Z -> W -> rc * W;
  sys_sigsend : Z -> sigmsg -> W -> rc * W;
  sys_sigreturn : Z -> Z -> W -> rc * W;
  sys_exec : Z -> Z -> list Z -> Z -> W -> rc * W;
  sys_trace : Z -> Z -> Z -> Z -> W -> (rc * Z) * W;
  sys_vircopy : bool -> Z -> ptrace_range -> Z -> W -> rc * W;     (* true: from the process to the tracer *)
  sys_stacktrace : Z -> W -> rc * W;
  sys_vtimer : Z -> Z -> option Z -> bool -> W -> (rc * Z) * W;    (* true: the old value is wanted *)
  sys_abort : Z -> W -> rc * W;
  set_timer : Z -> Z -> Z -> W -> unit * W;                        (* slot, ticks, argument *)
  cancel_timer : Z -> W -> unit * W;
  tmr_exp_time : Z -> W -> Z;
  getuptime : W -> (rc * Z) * W;
  expire_timers : Z -> W -> list Z * W;                            (* the arguments of those that expired *)
  in_sigaction : Z -> Z -> W -> (rc * sigaction) * W;
  out_sigaction : Z -> Z -> sigaction -> W -> rc * W;
  in_itimerval : Z -> Z -> W -> (rc * itimerval) * W;
  out_itimerval : Z -> Z -> itimerval -> W -> rc * W;
  in_gids : Z -> Z -> Z -> W -> (rc * list Z) * W;
  out_gids : Z -> Z -> Z -> list Z -> W -> rc * W;
  in_exec_newmem : Z -> Z -> W -> (rc * exec_newmem) * W;
  in_ptrace_range : Z -> Z -> W -> (rc * ptrace_range) * W;
  in_name : Z -> Z -> Z -> W -> (rc * list Z) * W;
  in_monitor_code : Z -> Z -> Z -> W -> rc * W;
  other_call : Z -> W -> rc * W;                                   (* the calls of other files *)
}.

(** ** The state *)
Record state (W : Type) := mk_state {
  procs : list mproc;  (* mproc *)
  next_pid : Z;  (* the static variable of get_free_pid *)
  next_child : Z;  (* the one of do_fork *)
  next_child_srv : Z;  (* the one of do_srv_fork *)
  procs_in_use : Z;
  monitor_params : list Z;
  unmap_ok : bool;
  mp : Z;  (* the slot of the caller *)
  who_p : Z;
  who_e : Z;
  call_nr : Z;
  m_in : call;
  abort_flag : Z;
  world : W;
}.
Arguments mk_state {W}.
Arguments procs {W}.
Arguments next_pid {W}.
Arguments next_child {W}.
Arguments next_child_srv {W}.
Arguments procs_in_use {W}.
Arguments monitor_params {W}.
Arguments unmap_ok {W}.
Arguments mp {W}.
Arguments who_p {W}.
Arguments who_e {W}.
Arguments call_nr {W}.
Arguments m_in {W}.
Arguments abort_flag {W}.
Arguments world {W}.
#[export] Instance eta_state (W : Type) : Eta (state W) := fun r =>
  mk_state
    (procs r) (next_pid r) (next_child r) (next_child_srv r) (procs_in_use r)
    (monitor_params r) (unmap_ok r) (mp r) (who_p r) (who_e r) (call_nr r) (m_in r)
    (abort_flag r) (world r).

(** ** Bits and sets of signals *)
Definition has (x f : Z) : bool := negb (Z.land x f =? 0).
Definition sigismember (set n : Z) : bool := Z.testbit set n.
Definition sigaddset (set n : Z) : Z := Z.setbit set n.
Definition sigdelset (set n : Z) : Z := Z.clearbit set n.

Section operations.
Context {W : Type}.
Abbreviation cmd := (M (state W)).

Definition env {A} (f : W -> A * W) : cmd A :=
  s ← get; let '(a, w) := f (world s) in modify (fun s => s <| world := w |>);; mret a.
Definition slot (i : Z) : cmd mproc := s ← get; deref (aget (procs s) i).
Definition set_slot (i : Z) (f : mproc -> mproc) : cmd unit :=
  slot i;; modify (fun s => s <| procs := aupd i f (procs s) |>).
(** [mp_flags |= f] and [mp_flags &= ~f] *)
Definition set_flag (i f : Z) : cmd unit := set_slot i (fun p => p <| mp_flags := Z.lor (mp_flags p) f |>).
Definition clear_flag (i f : Z) : cmd unit :=
  set_slot i (fun p => p <| mp_flags := Z.ldiff (mp_flags p) f |>).
(** A call whose failure is a panic. *)
Definition must (f : W -> rc * W) : cmd unit := r ← env f; if negb (is_ok r) then halt Panic else mret tt.
Definition set_reply (i : Z) (f : reply -> reply) : cmd unit :=
  set_slot i (fun p => p <| mp_reply := f (mp_reply p) |>).
End operations.

(** ** An environment for the examples
    Every call succeeds; the world is the list of what was asked for. *)
Module Demo.
Inductive event :=
  | Vfs (m : vfs_request)
  | Scheduler (ep : Z) (m : sched_request)
  | Reply (ep : Z) (res : rc) (res2 : Z)
  | Stop (ep : Z) | Resume (ep : Z) | Clear (ep : Z) | Kill (ep signo : Z) | Handler (ep : Z) (m : sigmsg)
  | Timer (i ticks : Z) | Exec (ep : Z).
#[export] Instance pm_headers : PmHeaders := {
  PRIO_PROCESS := 0; GETPRIORITY := 88; SUPER_USER := 0; _NSIG := 26;
  SIGHUP := 1; SIGINT := 2; SIGQUIT := 3; SIGILL := 4; SIGTRAP := 5; SIGABRT := 6; SIGBUS := 7;
  SIGFPE := 8; SIGKILL := 9; SIGSEGV := 11; SIGALRM := 14; SIGTERM := 15; SIGEMT := 16;
  SIGCHLD := 17; SIGCONT := 18; SIGSTOP := 19; SIGWINCH := 21; SIGVTALRM := 22; SIGPROF := 23;
  SIGSNDELAY := 25;
  SIGS_IS_LETHAL := fun n => bool_decide (n ∈ [4; 5; 7; 8; 9; 11; 15; 16]);
  SIGS_IS_TERMINATION := fun n => bool_decide (n ∈ [4; 5; 7; 8; 9; 11; 15; 16]);
  SIGS_IS_STACKTRACE := fun n => bool_decide (n ∈ [4; 5; 7; 8; 11; 16]);
  SIG_IGN := 1; SIG_DFL := 0; SA_NODEFER := 2; SA_RESETHAND := 4;
  SIG_BLOCK := 0; SIG_UNBLOCK := 1; SIG_SETMASK := 2; SIG_INQUIRE := 4;
  TO_TRACEFORK := 1; TO_ALTEXEC := 2; TO_NOEXEC := 4;
  T_OK := 0; T_ATTACH := 10; T_STOP := -1; T_READB_INS := 100; T_WRITEB_INS := 101; T_EXIT := 8;
  T_SETOPT := 12; T_GETRANGE := 13; T_SETRANGE := 14; T_DETACH := 11; T_RESUME := 7; T_STEP := 9;
  T_SYSCALL := 15; TS_INS := 0; TS_DATA := 1;
  WNOHANG := 1; WAIT := 7; NGROUPS_MAX := 8; PROC_NAME_LEN := 16; EXC_NM_RF_ALLOW_SETUID := 2;
  system_hz := 60; LONG_MAX := 2147483647; uid_t := s16; gid_t := fun z => z `mod` 256;
  GETGROUPS := 65; GETUID := 24; GETGID := 47; MINIX_GETPID := 20; GETPGRP := 63;
  SETUID := 23; SETEUID := 91; SETGID := 46; SETEGID := 92; SETGROUPS := 66; SETSID := 62;
  PM_SETUID_REPLY := 2401; PM_SETGID_REPLY := 2402; PM_SETSID_REPLY := 2403; PM_EXEC_REPLY := 2404;
  PM_EXIT_REPLY := 2405; PM_CORE_REPLY := 2406; PM_FORK_REPLY := 2407; PM_SRV_FORK_REPLY := 2408;
  PM_UNPAUSE_REPLY := 2409; PM_REBOOT_REPLY := 2410; PM_SETGROUPS_REPLY := 2411;
  VT_VIRTUAL := 1; VT_PROF := 2; RBT_MONITOR := 2; RBT_INVALID := 5;
}.
(** Eight slots: PM, VFS, RS, init and four for users; an endpoint is the number of its slot
    plus 1024 for each generation. *)
#[export] Instance minix_headers : MinixHeaders := {
  NR_PROCS := 8; NR_TASKS := 4; NR_SYS_PROCS := 4;
  _ENDPOINT_P := fun e => (e + 4) mod 1024 - 4;
  ANY := 1000; NONE := 1001;
  PM_PROC_NR := 0; VFS_PROC_NR := 1; RS_PROC_NR := 2; INIT_PROC_NR := 3;
  SCHED_PROC_NR := 900; DS_PROC_NR := 901; VM_PROC_NR := 902;
  CLOCK := -3; SYSTEM := -2; KERNEL := -1; HARDWARE := -1;
}.
#[export] Instance pm_sched : PmSched (list event) := {
  sched_start := fun _ e p m q w => ((OK, Some 900), w);
  sched_inherit := fun sch e p m w => ((OK, Some sch), w);
  sched_stop := fun sch e w => (OK, w);
  taskcall := fun e m w => (OK, w ++ [Scheduler e m]);
  munmap_ := fun a n w => (OK, w);
  munmap_text_ := fun a n w => (OK, w);
}.
#[export] Instance pm_env : PmEnv (list event) := {
  asynsend_vfs := fun m w => (OK, w ++ [Vfs m]);
  asynsend_signal := fun ep n w => (OK, w ++ [Kill ep n]);
  sendnb := fun ep m w => (OK, w ++ [Reply ep (reply_res m) (reply_res2 m)]);
  vm_fork := fun ep i w => ((OK, i + 1024), w);
  vm_willexit := fun ep w => (OK, w);
  vm_exit := fun ep w => (OK, w);
  vm_notify_sig := fun ep ipc w => (OK, w);
  vm_push_sig := fun ep w => ((OK, 4096), w);
  vm_exec_newmem := fun ep a w => ((OK, (8192, 0)), w);
  sys_times := fun ep w => ((OK, (3, 2)), w);
  sys_stop := fun ep w => (OK, w ++ [Stop ep]);
  sys_delay_stop := fun ep w => (OK, w ++ [Stop ep]);
  sys_resume := fun ep w => (OK, w ++ [Resume ep]);
  sys_clear := fun ep w => (OK, w ++ [Clear ep]);
  sys_kill := fun ep n w => (OK, w ++ [Kill ep n]);
  sys_sigsend := fun ep m w => (OK, w ++ [Handler ep m]);
  sys_sigreturn := fun ep a w => (OK, w);
  sys_exec := fun ep sp n pc w => (OK, w ++ [Exec ep]);
  sys_trace := fun req ep a d w => ((OK, d), w);
  sys_vircopy := fun b ep r me w => (OK, w);
  sys_stacktrace := fun ep w => (OK, w);
  sys_vtimer := fun ep n new old w => ((OK, 0), w);
  sys_abort := fun f w => (OK, w);
  set_timer := fun i t a w => (tt, w ++ [Timer i t]);
  cancel_timer := fun i w => (tt, w ++ [Timer i 0]);
  tmr_exp_time := fun i w => 0;
  getuptime := fun w => ((OK, 0), w);
  expire_timers := fun t w => ([], w);
  in_sigaction := fun ep a w => ((OK, mk_sigaction a 0 0), w);
  out_sigaction := fun ep a x w => (OK, w);
  in_itimerval := fun ep a w => ((OK, mk_itimerval (mk_timeval a 0) (mk_timeval 0 0)), w);
  out_itimerval := fun ep a x w => (OK, w);
  in_gids := fun ep a n w => ((OK, replicate (Z.to_nat n) 0), w);
  out_gids := fun ep a n x w => (OK, w);
  in_exec_newmem := fun ep a w => ((OK, mk_exec_newmem 100 100 [97] 16), w);
  in_ptrace_range := fun ep a w => ((OK, mk_ptrace_range 1 0 4 0), w);
  in_name := fun ep a n w => ((OK, []), w);
  in_monitor_code := fun ep a n w => (OK, w);
  other_call := fun n w => (ENOSYS, w);
}.

Definition no_reply : reply := mk_reply OK 0 0 0 0 0 0.
Definition proc (pid ep grp parent uid flags : Z) : mproc :=
  mk_mproc 0 0 pid ep grp 0 parent 0 0 0 uid uid uid uid 0 (replicate 8 0) 0 0 0 0 0 0 0
    (replicate 26 (mk_sigaction 0 0 0)) 0 [0; 0; 0] flags 0 0 no_reply 0 SCHED_PROC_NR [].
Definition free : mproc := proc 0 0 0 0 0 0.
Definition no_call : call := mk_call 0 0 0 0 0 0 0 0 0 0 0 0 0 0 OK 0 0 0 0 OK 0 0 0 0 0.
(** After the start: PM, VFS and RS are system processes; init is the father of RS and of
    itself, RS that of the other system processes. *)
Definition boot : state (list event) :=
  mk_state [proc 2 0 0 2 0 (Z.lor IN_USE PRIV_PROC); proc 3 1 0 2 0 (Z.lor IN_USE PRIV_PROC);
            proc 4 2 0 3 0 (Z.lor IN_USE PRIV_PROC); proc 1 3 1 3 0 IN_USE; free; free; free; free]
    4 0 0 4 [0] true 0 0 0 0 no_call 0 [].
End Demo.

