(* ===== verification/Pm.v ===== *)
(** The part of the process manager that the group changed or that meets its scheduler:
    [src/Project_2/src/pm/utility.c] and [schedule.c] (the files the install script copies
    over [servers/pm]) and [do_getsetpriority] of [servers/pm/misc.c]. The last theorem
    runs a request of PM through the SCHED server of [Sched.v]. *)
From S2P Require Import Prelude CDouble Minix.
From S2P Require Sched.
From S2P Require Import PmBase.
Local Open Scope Z_scope.

Section operations.
Context `{MinixHeaders} `{PmHeaders} {W : Type} `{PmSched W} `{PmEnv W}.
Abbreviation cmd := (M (state W)).

(** ** [utility.c] *)
(** The search of the table for a process or a group with the number. *)
Definition pid_taken (pid : Z) : cmd bool :=
  r ← for_ (seqZ 0 NR_PROCS) (fun i =>
    p ← slot i;
    mret (if (mp_pid p =? pid) || (mp_procgrp p =? pid) then Some tt else None));
  mret (match r with Some _ => true | None => false end).
Definition after_pid (pid : Z) : Z := if pid <? NR_PIDS then pid + 1 else INIT_PID + 1.
(** There are [NR_PIDS - INIT_PID] numbers. *)
Definition get_free_pid : cmd Z :=
  while_ (Z.to_nat NR_PIDS)
    (modify (fun s => s <| next_pid := after_pid (next_pid s) |>);;
     p ← gets next_pid;
     t ← pid_taken p;
     mret (if t : bool then None else Some p)).

Definition no_sys : cmd rc := mret ENOSYS.

(** The inner loop of [find_param]: how much of the name is left at the first difference,
    and the parameters from there; [None] is a read behind them. *)
Fixpoint match_name (name envp : list Z) : option (list Z * list Z) :=
  match name with
  | [] => Some ([], envp)
  | n :: name' =>
      match envp with
      | [] => None
      | c :: envp' => if n =? c then match_name name' envp' else Some (name, envp)
      end
  end.
(** The loop that goes behind the next zero. *)
Fixpoint skip_string (envp : list Z) : option (list Z) :=
  match envp with
  | [] => None
  | c :: envp => if c =? 0 then Some envp else skip_string envp
  end.
Fixpoint find_param_from (fuel : nat) (name envp : list Z) : option (option (list Z)) :=
  match fuel with
  | O => None
  | S fuel =>
      c ← head envp;
      if c =? 0 then Some None else
      '(namep, envp) ← match_name name envp;
      match namep, envp with
      | [], [] => None
      | [], c :: envp' =>
          if c =? 61 then Some (Some envp')
          else envp ← skip_string envp; find_param_from fuel name envp
      | _, _ => envp ← skip_string envp; find_param_from fuel name envp
      end
  end.
(** Every turn takes at least the byte that ends a string. *)
Definition find_param (name : list Z) : cmd (option (list Z)) :=
  l ← gets monitor_params; deref (find_param_from (S (length l)) name l).

Definition find_proc (lpid : Z) : cmd (option Z) :=
  for_ (seqZ 0 NR_PROCS) (fun i =>
    p ← slot i; mret (if has (mp_flags p) IN_USE && (mp_pid p =? lpid) then Some i else None)).

(** An [int] result out of range is undefined; the last value is assigned to an
    [unsigned]. *)
Definition int (z : Z) : option Z := if (- 2 ^ 31 <=? z) && (z <? 2 ^ 31) then Some z else None.
Definition nice_to_priority (nice : Z) : cmd (rc * Z) :=
  d ← deref (int (nice - PRIO_MIN));
  x ← deref (int (d * (MIN_USER_Q - MAX_USER_Q + 1)));
  let new_q := u32 (MAX_USER_Q + x ÷ (PRIO_MAX - PRIO_MIN + 1)) in
  let new_q := if new_q <? MAX_USER_Q then MAX_USER_Q else new_q in
  let new_q := if MIN_USER_Q <? new_q then MIN_USER_Q else new_q in
  mret (OK, new_q).

Definition pm_isokendpt (ep : Z) : cmd (rc * Z) :=
  let proc := _ENDPOINT_P ep in
  if (proc <? - NR_TASKS) || (NR_PROCS <=? proc) then mret (EINVAL, proc) else
  if proc <? 0 then mret (OK, proc) else
  p ← slot proc;
  if negb (ep =? mp_endpoint p) then mret (EDEADEPT, proc) else
  if negb (has (mp_flags p) IN_USE) then mret (EDEADEPT, proc) else
  mret (OK, proc).

Definition tell_vfs (i : Z) (m : vfs_request) : cmd unit :=
  p ← slot i;
  if has (mp_flags p) VFS_CALL then halt Panic else
  must (asynsend_vfs m);;
  set_flag i VFS_CALL.

Definition munmap (addrstart len : Z) : cmd rc :=
  ok ← gets unmap_ok; if negb ok then mret ENOSYS else env (munmap_ addrstart len).
Definition munmap_text (addrstart len : Z) : cmd rc :=
  ok ← gets unmap_ok; if negb ok then mret ENOSYS else env (munmap_text_ addrstart len).

(** ** [schedule.c] *)
Definition sched_init : cmd unit :=
  foreach (seqZ 0 NR_PROCS) (fun i =>
    p ← slot i;
    if has (mp_flags p) IN_USE && negb (has (mp_flags p) PRIV_PROC) then
      assert_ (_ENDPOINT_P (mp_endpoint p) =? INIT_PROC_NR);;
      q ← slot (mp_parent p);
      let parent_e := mp_endpoint q in
      assert_ (parent_e =? mp_endpoint p);;
      '(_, newsched) ← env (sched_start SCHED_PROC_NR (mp_endpoint p) parent_e USER_Q USER_QUANTUM);
      set_slot i (fun p => p <| mp_scheduler := default (mp_scheduler p) newsched |>)
    else mret tt).

Definition sched_start_user (ep i : Z) : cmd rc :=
  p ← slot i;
  '(rv, maxprio) ← nice_to_priority (mp_nice p);
  if negb (is_ok rv) then mret rv else
  q ← slot (mp_parent p);
  inherit_from ← (if has (mp_flags q) PRIV_PROC then
                    assert_ (mp_scheduler q =? NONE);; mret INIT_PROC_NR
                  else mret (mp_endpoint q));
  '(rv, newsched) ← env (sched_inherit ep (mp_endpoint p) inherit_from maxprio);
  set_slot i (fun p => p <| mp_scheduler := default (mp_scheduler p) newsched |>);;
  mret rv.

Definition sched_nice (i nice : Z) : cmd rc :=
  p ← slot i;
  if (mp_scheduler p =? KERNEL) || (mp_scheduler p =? NONE) then mret EINVAL else
  '(rv, maxprio) ← nice_to_priority nice;
  if negb (is_ok rv) then mret rv else
  rv ← env (taskcall (mp_scheduler p) (SET_NICE (mp_endpoint p) nice));
  if negb (is_ok rv) then mret rv else mret OK.

(** ** [do_getsetpriority] of [misc.c]; a number is the answer to [getpriority] *)
Definition do_getsetpriority : cmd (rc + Z) :=
  s ← get;
  let '(arg_which, arg_who, arg_pri) := (m1_i1 (m_in s), m1_i2 (m_in s), m1_i3 (m_in s)) in
  if negb (arg_which =? PRIO_PROCESS) then mret (inl EINVAL) else
  r ← (if arg_who =? 0 then mret (Some (mp s)) else find_proc arg_who);
  match r with
  | None => mret (inl ESRCH)
  | Some i =>
      me ← slot (mp s);
      p ← slot i;
      if negb (mp_effuid me =? SUPER_USER) && negb (mp_effuid me =? mp_effuid p) &&
         negb (mp_effuid me =? mp_realuid p) then mret (inl EPERM) else
      if call_nr s =? GETPRIORITY then mret (inr (mp_nice p - PRIO_MIN)) else
      if (arg_pri <? mp_nice p) && negb (mp_effuid me =? SUPER_USER) then mret (inl EACCES) else
      r ← sched_nice i arg_pri;
      if negb (is_ok r) then mret (inl r) else
      set_slot i (fun p => p <| mp_nice := arg_pri |>);;
      mret (inl OK)
  end.
End operations.

(** ** Process numbers *)
Section pids.
Context `{MinixHeaders} {W : Type}.
Implicit Types (s : state W).

Definition holds_pid (pid : Z) (p : mproc) : bool := (mp_pid p =? pid) || (mp_procgrp p =? pid).
Definition is_taken (l : list mproc) (pid : Z) : bool := existsb (holds_pid pid) l.

Lemma pm_slot_run i p s : aget (procs s) i = Some p -> slot i s = Ret p s.
Proof. unfold slot, mbind, M_bind, get. by intros ->. Qed.
Lemma is_taken_first l pid :
  is_taken l pid = match first_index (holds_pid pid) l with Some _ => true | None => false end.
Proof.
  unfold is_taken. destruct (first_index _ _) as [i|] eqn:E.
  - apply first_index_Some in E as (p & [_ Hp]%aget_Some & Hh & _). apply existsb_exists.
    exists p. split; [|done]. by eapply list_elem_of_In, list_elem_of_lookup_2.
  - apply first_index_None in E. apply not_true_iff_false. rewrite existsb_exists.
    intros (p & Hp%list_elem_of_In & Hh). rewrite (Forall_elem _ _ _ E Hp) in Hh. done.
Qed.
Lemma pid_taken_run pid s :
  Z.of_nat (length (procs s)) = NR_PROCS -> pid_taken pid s = Ret (is_taken (procs s) pid) s.
Proof.
  intros Hlen. unfold pid_taken. rewrite is_taken_first.
  erewrite bind_ret. 2:{ apply (for_search (holds_pid pid) (fun _ => tt) (procs s)); [done|].
    intros i p Hp. by rewrite (bind_ret _ _ p _ s) by (apply pm_slot_run; by rewrite aget_nat). }
  by destruct (first_index _ _).
Qed.

(** The numbers tried: [tried p k] is the one after [k + 1] steps from [p]. *)
Fixpoint tried (p : Z) (k : nat) : Z :=
  match k with O => after_pid p | S k => tried (after_pid p) k end.
Lemma tried_eq p k :
  INIT_PID < p <= NR_PIDS ->
  tried p k = INIT_PID + 1 + (p - INIT_PID + Z.of_nat k) mod (NR_PIDS - INIT_PID).
Proof.
  revert p. unfold INIT_PID, NR_PIDS. induction k as [|k IH]; intros p Hp; simpl tried.
  - unfold after_pid, INIT_PID, NR_PIDS. destruct (p <? 30000) eqn:E.
    + rewrite Z.mod_small by lia. lia.
    + replace p with 30000 by lia. done.
  - rewrite IH by (unfold after_pid, INIT_PID, NR_PIDS; destruct (p <? 30000) eqn:E; lia).
    unfold after_pid, INIT_PID, NR_PIDS. destruct (p <? 30000) eqn:E.
    + do 2 f_equal. lia.
    + replace (p - 1 + Z.of_nat (S k)) with (1 + 1 - 1 + Z.of_nat k + 1 * (30000 - 1)) by lia.
      by rewrite Z.mod_add by done.
Qed.
Lemma tried_range p k : INIT_PID < p <= NR_PIDS -> INIT_PID < tried p k <= NR_PIDS.
Proof.
  intros Hp. rewrite tried_eq by done. pose proof (Z.mod_pos_bound (p - INIT_PID + Z.of_nat k) (NR_PIDS - INIT_PID)).
  unfold NR_PIDS, INIT_PID in *. lia.
Qed.
Lemma tried_inj p j k :
  INIT_PID < p <= NR_PIDS -> Z.of_nat j < NR_PIDS - INIT_PID -> Z.of_nat k < NR_PIDS - INIT_PID ->
  tried p j = tried p k -> j = k.
Proof.
  intros Hp Hj Hk. rewrite !tried_eq by done. unfold NR_PIDS, INIT_PID in *. intros Heq.
  change (30000 - 1) with 29999 in *.
  assert ((p - 1 + Z.of_nat j) mod 29999 = (p - 1 + Z.of_nat k) mod 29999) as Hm by lia.
  apply Z.cong_iff_0 in Hm. apply Z.mod_divide in Hm as [q Hq]; [|done]. nia.
Qed.

(** Among as many numbers tried as the table can hold and one more, one is free. *)
Lemma one_is_free (l : list mproc) p :
  INIT_PID < p <= NR_PIDS -> 2 * Z.of_nat (length l) < NR_PIDS - INIT_PID ->
  exists k, (k <= 2 * length l)%nat /\ is_taken l (tried p k) = false.
Proof.
  intros Hp Hl. destruct (decide (Exists (fun k => is_taken l (tried p k) = false) (seq 0 (2 * length l + 1)))) as [He|Hno].
  - apply List.Exists_exists in He as (k & Hk & Hf). apply in_seq in Hk. exists k. split; [lia|done].
  - exfalso.
    set (nums := (mp_pid <$> l) ++ (mp_procgrp <$> l)).
    assert (tried p <$> seq 0 (2 * length l + 1) ⊆+ nums) as Hsub.
    { apply NoDup_submseteq.
      - apply NoDup_fmap_2_strong; [|apply NoDup_seq]. intros j k Hj%elem_of_seq Hk%elem_of_seq Heq.
        eapply tried_inj; [done|lia|lia|done].
      - intros x (k & -> & Hk)%list_elem_of_fmap.
        destruct (is_taken l (tried p k)) eqn:E.
        + unfold is_taken in E. apply existsb_exists in E as (q & Hq & Hh). apply list_elem_of_In in Hq.
          unfold nums. apply elem_of_app. apply orb_true_iff in Hh as [Hh|Hh]; apply Z.eqb_eq in Hh;
            [left|right]; rewrite <-Hh; by apply list_elem_of_fmap_2.
        + exfalso. apply Hno. apply List.Exists_exists. exists k. split; [by apply list_elem_of_In|done]. }
    apply submseteq_length in Hsub. unfold nums in Hsub.
    rewrite length_app, !length_fmap, length_seq in Hsub. lia.
Qed.

Lemma get_free_pid_run k fuel s :
  Z.of_nat (length (procs s)) = NR_PROCS -> (k < fuel)%nat ->
  (forall j, (j < k)%nat -> is_taken (procs s) (tried (next_pid s) j) = true) ->
  is_taken (procs s) (tried (next_pid s) k) = false ->
  while_ fuel (modify (fun s => s <| next_pid := after_pid (next_pid s) |>);;
     p ← gets next_pid; t ← pid_taken p; mret (if t : bool then None else Some p)) s =
  Ret (tried (next_pid s) k) (s <| next_pid := tried (next_pid s) k |>).
Proof.
  revert fuel s. induction k as [|k IH]; intros fuel s Hlen Hk Htaken Hfree;
    (destruct fuel as [|fuel]; [lia|]).
  - simpl. erewrite bind_ret.
    2:{ rewrite (bind_ret _ _ tt _ (s <| next_pid := after_pid (next_pid s) |>)) by done. cbv beta.
        rewrite (bind_ret _ _ (after_pid (next_pid s)) _ (s <| next_pid := after_pid (next_pid s) |>)) by done.
        cbv beta. erewrite bind_ret by (apply pid_taken_run; exact Hlen). cbv beta.
        change (procs (s <| next_pid := _ |>)) with (procs s). cbn [tried] in Hfree. rewrite Hfree. reflexivity. }
    done.
  - rewrite (while_none _ _ _ (s <| next_pid := after_pid (next_pid s) |>)).
    2:{ rewrite (bind_ret _ _ tt _ (s <| next_pid := after_pid (next_pid s) |>)) by done. cbv beta.
        rewrite (bind_ret _ _ (after_pid (next_pid s)) _ (s <| next_pid := after_pid (next_pid s) |>)) by done.
        cbv beta. erewrite bind_ret by (apply pid_taken_run; exact Hlen). cbv beta.
        change (procs (s <| next_pid := _ |>)) with (procs s).
        pose proof (Htaken 0%nat ltac:(lia)) as Ht0. cbn [tried] in Ht0. rewrite Ht0. reflexivity. }
    rewrite IH; [done|done|lia| |exact Hfree]. intros j Hj. apply (Htaken (S j)). lia.
Qed.

(** [get_free_pid] ends, and gives the next free number.  When the table is small against
    the range of the numbers (twice its slots are fewer than the numbers), the loop finds
    after at most twice as many turns as there are slots a number that is the process or the
    group number of no slot; every number that it passed over, from the last one given, is
    in use. *)
Theorem get_free_pid_fresh s :
  Z.of_nat (length (procs s)) = NR_PROCS -> 2 * NR_PROCS < NR_PIDS - INIT_PID ->
  INIT_PID < next_pid s <= NR_PIDS ->
  exists k, (k <= 2 * length (procs s))%nat /\
    let pid := tried (next_pid s) k in
    get_free_pid s = Ret pid (s <| next_pid := pid |>) /\ INIT_PID < pid <= NR_PIDS /\
    Forall (fun p => mp_pid p <> pid /\ mp_procgrp p <> pid) (procs s) /\
    (forall j, (j < k)%nat -> is_taken (procs s) (tried (next_pid s) j) = true).
Proof.
  intros Hlen Hsmall Hp.
  destruct (one_is_free (procs s) (next_pid s)) as (n & Hn & Hfree); [done|lia|].
  destruct (least_nat (fun k => is_taken (procs s) (tried (next_pid s) k) = false) n Hfree)
    as (k & Hk & Hkf & Hmin).
  assert (forall j, (j < k)%nat -> is_taken (procs s) (tried (next_pid s) j) = true) as Htaken.
  { intros j Hj. specialize (Hmin j Hj). by apply not_false_iff_true in Hmin. }
  exists k. split; [lia|]. cbv zeta.
  destruct (tried_range (next_pid s) k Hp) as [Hr1 Hr2]. split_and!; [|exact Hr1|exact Hr2| |done].
  - apply get_free_pid_run; [done| |done|done]. unfold NR_PIDS, INIT_PID in *. lia.
  - apply list.Forall_forall. intros p Hpin. unfold is_taken in Hkf.
    apply not_true_iff_false in Hkf. rewrite existsb_exists in Hkf.
    split; intros Heq; apply Hkf; exists p; (split; [first [exact Hpin|by apply list_elem_of_In]|]); unfold holds_pid; lia.
Qed.
End pids.

(** ** Boot parameters *)
Section params.
Context {W : Type}.
Implicit Types (s : state W) (name k v : list Z).

(** The parameters as the boot monitor lays them out: strings [name=value], each with its
    zero, and a zero behind the last. *)
Definition encode_params (l : list (list Z * list Z)) (junk : list Z) : list Z :=
  concat ((fun kv => kv.1 ++ 61 :: kv.2 ++ [0]) <$> l) ++ 0 :: junk.
Fixpoint param_value (l : list (list Z * list Z)) name : option (list Z) :=
  match l with
  | [] => None
  | kv :: l => if decide (kv.1 = name) then Some kv.2 else param_value l name
  end.
Definition name_char (c : Z) : Prop := c <> 0 /\ c <> 61.

Lemma cstr_app v (r : list Z) : Forall (fun c => c <> 0) v -> cstr (v ++ 0 :: r) = v.
Proof. induction 1 as [|c v Hc Hv IH]; [done|]. simpl. rewrite IH. by replace (c =? 0) with false by lia. Qed.
Lemma skip_string_app v (r : list Z) : Forall (fun c => c <> 0) v -> skip_string (v ++ 0 :: r) = Some r.
Proof. induction 1 as [|c v Hc Hv IH]; [done|]. simpl. by replace (c =? 0) with false by lia. Qed.
Lemma name_nonzero k : Forall name_char k -> Forall (fun c => c <> 0) k.
Proof. intros Hk. eapply list.Forall_impl; [exact Hk|]. by intros c []. Qed.

(** The comparison ends behind the whole name, or inside the string at a difference. *)
Lemma match_name_spec name k (r : list Z) :
  Forall name_char name -> Forall name_char k ->
  exists namep p, match_name name (k ++ 61 :: r) = Some (namep, p ++ 61 :: r) /\
    Forall name_char p /\ ((name = k /\ namep = [] /\ p = []) \/ (name <> k /\ (namep = [] -> p <> []))).
Proof.
  intros Hn. revert k. induction Hn as [|n name Hc Hn IH]; intros k Hk.
  - exists [], k. split_and!; [done|done|]. destruct k; [by left|by right].
  - destruct Hk as [|c k Hck Hk].
    + exists (n :: name), []. simpl. replace (n =? 61) with false by (unfold name_char in *; lia).
      split_and!; [done|constructor|by right].
    + simpl. destruct (n =? c) eqn:E.
      * apply Z.eqb_eq in E as ->. destruct (IH k Hk) as (namep & p & Hm & Hp & Hcase).
        exists namep, p. split_and!; [done|done|]. destruct Hcase as [(-> & ? & ?)|[Hne ?]]; [by left|].
        right. split; [congruence|done].
      * exists (n :: name), (c :: k). split_and!; [done|by constructor|]. right. split; [|done].
        intros [= -> _]. lia.
Qed.
Lemma find_param_from_spec name l (junk : list Z) fuel :
  Forall name_char name -> Forall (fun kv => Forall name_char kv.1 /\ Forall (fun c => c <> 0) kv.2) l ->
  (length l < fuel)%nat ->
  exists r, find_param_from fuel name (encode_params l junk) = Some r /\ cstr <$> r = param_value l name.
Proof.
  intros Hname Hl. revert fuel. induction Hl as [|[k v] l [Hk Hv] Hl IH]; intros [|fuel] Hf; simpl in Hf; try lia.
  - exists None. done.
  - assert (encode_params ((k, v) :: l) junk = k ++ 61 :: (v ++ 0 :: encode_params l junk)) as ->.
    { unfold encode_params. simpl. rewrite <-!app_assoc. simpl. by rewrite <-!app_assoc. }
    cbn [find_param_from fst snd] in *.
    destruct (match_name_spec name k (v ++ 0 :: encode_params l junk) Hname Hk) as (namep & p & Hm & Hp & Hcase).
    assert (exists c, head (k ++ 61 :: v ++ 0 :: encode_params l junk) = Some c /\ c <> 0) as (c & Hhd & Hc0).
    { destruct k as [|c k]; [by eexists|]. apply list.Forall_cons in Hk as [[? _] _]. by eexists. }
    rewrite Hhd. cbn [mbind option_bind]. replace (c =? 0) with false by lia.
    rewrite Hm. cbn [mbind option_bind].
    assert (skip_string (p ++ 61 :: v ++ 0 :: encode_params l junk) = Some (encode_params l junk)) as Hskip.
    { change (p ++ 61 :: v ++ 0 :: encode_params l junk) with (p ++ (61 :: v) ++ 0 :: encode_params l junk).
      rewrite app_assoc. apply skip_string_app. apply list.Forall_app. split; [by apply name_nonzero|by constructor]. }
    destruct Hcase as [(-> & -> & ->)|[Hne Hnp]].
    + simpl. exists (Some (v ++ 0 :: encode_params l junk)). split; [done|]. simpl.
      rewrite decide_True by done. by rewrite cstr_app.
    + destruct (IH fuel) as (r & Hr & Hval); [lia|]. exists r.
      split; [|simpl; rewrite decide_False by congruence; exact Hval].
      destruct namep as [|n namep]; [|by rewrite Hskip].
      destruct p as [|d p]; [by destruct Hnp|]. apply list.Forall_cons in Hp as [[_ Hd] _].
      cbn [app]. replace (d =? 61) with false by lia. cbn [app] in Hskip. by rewrite Hskip.
Qed.

(** [find_param] is the lookup of a name in the list of boot parameters: it points to the
    value of the first parameter with exactly that name (not one of which it is the
    beginning, nor one it begins), and is NULL when there is none; it never reads behind
    the list. *)
Theorem find_param_spec name l (junk : list Z) s :
  monitor_params s = encode_params l junk -> Forall name_char name ->
  Forall (fun kv => Forall name_char kv.1 /\ Forall (fun c => c <> 0) kv.2) l ->
  exists r, find_param name s = Ret r s /\ cstr <$> r = param_value l name.
Proof.
  intros Hs Hname Hl.
  destruct (find_param_from_spec name l junk (S (length (monitor_params s))) Hname Hl) as (r & Hr & Hval).
  { rewrite Hs. unfold encode_params. rewrite length_app. cbn [length].
    enough (length l <= length (concat ((fun kv => kv.1 ++ 61%Z :: kv.2 ++ [0%Z]) <$> l)))%nat by lia.
    clear. induction l as [|kv l IH]; [done|]. rewrite fmap_cons. cbn [concat length].
    rewrite !length_app. cbn [length]. rewrite length_app. cbn [length]. lia. }
  exists r. split; [|done]. unfold find_param.
  rewrite (bind_ret _ _ (monitor_params s) s s) by done. cbv beta. rewrite <-Hs in Hr. by rewrite Hr.
Qed.
End params.

(** ** Priorities *)
Section nice.
Context `{MinixHeaders} `{PmHeaders} {W : Type} `{PmSched W} `{PmEnv W}.
Implicit Types (s : state W).

(** [nice_to_priority] on every value an [int] can hold.  Up to 0 it gives the better of
    the two user queues and above it the other; but the check of the range is gone, the
    quotient of a value below -368 is stored in an unsigned and counts as large, and
    values near the ends of the range overflow. *)
Theorem nice_to_priority_spec (nice : Z) s :
  - 2 ^ 31 <= nice < 2 ^ 31 ->
  nice_to_priority nice s =
    if bool_decide (- 2 ^ 30 - 20 <= nice < 2 ^ 30 - 20) then
      Ret (OK, if bool_decide (-369 < nice <= 0) then MAX_USER_Q else MIN_USER_Q) s
    else Halt Undef s.
Proof.
  intros Hn. unfold nice_to_priority, int, PRIO_MIN, PRIO_MAX.
  change (MIN_USER_Q - MAX_USER_Q + 1) with 2. change (20 - -20 + 1) with 41.
  change MAX_USER_Q with 16. change MIN_USER_Q with 17.
  case_bool_decide as Hr.
  - replace ((- 2 ^ 31 <=? nice - -20) && (nice - -20 <? 2 ^ 31)) with true by lia.
    rewrite (bind_ret _ _ (nice - -20) s s) by done. cbv beta.
    replace ((- 2 ^ 31 <=? (nice - -20) * 2) && ((nice - -20) * 2 <? 2 ^ 31)) with true by lia.
    rewrite (bind_ret _ _ ((nice - -20) * 2) s s) by done. cbv beta zeta.
    set (q := (nice - -20) * 2 ÷ 41).
    assert (q < - 16 <-> nice <= -369) as Hlow by (unfold q; Z.to_euclidean_division_equations; lia).
    assert (q < 1 <-> nice <= 0) as Hmid by (unfold q; Z.to_euclidean_division_equations; lia).
    assert (- 2 ^ 31 < q < 2 ^ 31) as Hq by (unfold q; Z.to_euclidean_division_equations; lia).
    unfold mret, M_ret. do 2 f_equal. unfold u32. case_bool_decide as Hc.
    + rewrite Z.mod_small by lia. repeat case_match; lia.
    + destruct (decide (nice <= -369)).
      * replace (16 + q) with (16 + q + 2 ^ 32 + (-1) * 2 ^ 32) by lia.
        rewrite Z.mod_add, Z.mod_small by lia. repeat case_match; lia.
      * rewrite Z.mod_small by lia. repeat case_match; lia.
  - destruct ((- 2 ^ 31 <=? nice - -20) && (nice - -20 <? 2 ^ 31)) eqn:E; [|done].
    rewrite (bind_ret _ _ (nice - -20) s s) by done. cbv beta.
    replace ((- 2 ^ 31 <=? (nice - -20) * 2) && ((nice - -20) * 2 <? 2 ^ 31)) with false by lia. done.
Qed.

Lemma set_mp_slot_run i p f s :
  aget (procs s) i = Some p -> set_slot i f s = Ret tt (s <| procs := aupd i f (procs s) |>).
Proof. intros Hp. unfold set_slot. by rewrite (bind_ret _ _ _ _ _ (pm_slot_run _ _ _ Hp)). Qed.
Lemma pm_env_run {A} (f : W -> A * W) s : env f s = Ret (f (world s)).1 (s <| world := (f (world s)).2 |>).
Proof. unfold env, get, mbind, M_bind. by destruct (f (world s)). Qed.

(** The request as the message that SCHED receives; the fields that [sched_nice] does not set
    hold what the stack held, and are not read. *)
Definition sched_message `{Sched.SchedHeaders} (m : sched_request) : Sched.message :=
  match m with
  | SET_NICE ep maxprio =>
      Sched.mk_message PM_PROC_NR Sched.SCHEDULING_SET_NICE 0 ep 0 maxprio 0 0
  end.
(** The nice value that takes the scheduler down. *)
Definition huge_nice : Z := 1000000000.

(** The range of a nice value is checked nowhere on its way from a user to the
    scheduler's arithmetic.  When a process of an ordinary user, scheduled by SCHED, calls
    [setpriority] for itself with 1000000000, PM sends SCHED a request with that value (and
    records it as the nice value if the answer is [OK]); and SCHED, for which the process is
    in use, computes with it a number of tickets that no [unsigned] holds, which is
    undefined, before it compares it with the number of queues. *)
Theorem setpriority_stops_sched `{Sched.SchedHeaders} {WS : Type} `{!Sched.SchedEnv WS} s (p : mproc)
    (ss : Sched.state WS) i :
  aget (procs s) (mp s) = Some p -> mp_effuid p <> SUPER_USER -> mp_nice p <= huge_nice ->
  mp_scheduler p = SCHED_PROC_NR -> SCHED_PROC_NR <> KERNEL -> SCHED_PROC_NR <> NONE ->
  m1_i1 (m_in s) = PRIO_PROCESS -> m1_i2 (m_in s) = 0 -> m1_i3 (m_in s) = huge_nice ->
  call_nr s <> GETPRIORITY ->
  Sched.sched_isokendpt (mp_endpoint p) ss = Ret (OK, i) ss ->
  let m := SET_NICE (mp_endpoint p) huge_nice in
  let '(r, w) := taskcall SCHED_PROC_NR m (world s) in
  do_getsetpriority s =
    (if is_ok r then Ret (inl OK) (s <| world := w |>
       <| procs := aupd (mp s) (fun p => p <| mp_nice := huge_nice |>) (procs s) |>)
     else Ret (inl r) (s <| world := w |>)) /\
  Sched.do_nice (sched_message m) ss = Halt Undef ss.
Proof.
  intros Hp Huid Hnice Hsched Hk Hnone Hin1 Hin2 Hin3 Hcall Hok m. destruct (taskcall _ _ _) as [r w] eqn:Et. split.
  - unfold do_getsetpriority. rewrite (bind_ret _ _ s s s) by done. cbv beta. rewrite Hin1, Hin2, Hin3.
    rewrite Z.eqb_refl. cbn [negb]. replace (0 =? 0) with true by lia.
    rewrite (bind_ret _ _ (Some (mp s)) s s) by done. cbv beta iota.
    rewrite !(bind_ret _ _ _ _ _ (pm_slot_run _ _ _ Hp)). cbv beta.
    replace (mp_effuid p =? mp_effuid p) with true by lia. cbn [negb]. rewrite andb_false_r. cbn [andb].
    replace (call_nr s =? GETPRIORITY) with false by lia.
    replace (huge_nice <? mp_nice p) with false by lia. cbn [andb].
    assert (sched_nice (mp s) huge_nice s = Ret r (s <| world := w |>)) as Hsn.
    { unfold sched_nice. rewrite (bind_ret _ _ _ _ _ (pm_slot_run _ _ _ Hp)). cbv beta.
      rewrite Hsched. replace ((SCHED_PROC_NR =? KERNEL) || (SCHED_PROC_NR =? NONE)) with false by lia.
      erewrite bind_ret by reflexivity. cbv beta iota. change (negb (is_ok OK)) with false. cbv iota.
      erewrite bind_ret by apply pm_env_run. cbv beta. fold m. rewrite Et. cbn [fst snd].
      destruct (is_ok r) eqn:Er; [|done]. by apply bool_decide_eq_true in Er as ->. }
    rewrite (bind_ret _ _ _ _ _ Hsn). cbv beta. destruct (is_ok r); [|done]. cbn [negb].
    erewrite bind_ret by (by apply (set_mp_slot_run _ p)). done.
  - unfold Sched.do_nice.
    assert (Sched.accept_message (sched_message m) = true) as -> by (unfold Sched.accept_message; simpl; lia).
    cbn [negb]. change (Sched.SCHEDULING_ENDPOINT (sched_message m)) with (mp_endpoint p).
    rewrite (bind_ret _ _ _ _ _ Hok). cbv beta iota. change (negb (is_ok OK)) with false. cbv iota zeta.
    apply bind_halt. change (Sched.SCHEDULING_MAXPRIO (sched_message m)) with huge_nice.
    assert (Sched.tickets_to_add (s32 (u32 huge_nice)) = None) as -> by (by vm_compute). done.
Qed.
End nice.

(** ** A process manager for the examples *)
Module Demo.
#[local] Existing Instances Minix.demo_headers Sched.Demo.headers Sched.Demo.env
  PmBase.Demo.pm_headers PmBase.Demo.pm_sched PmBase.Demo.pm_env.
Definition free : mproc := PmBase.Demo.free.
Definition user (pid ep nice : Z) : mproc := 
  PmBase.Demo.proc pid ep pid 3 100 IN_USE <| mp_nice := nice |> <| mp_scheduler := SCHED_PROC_NR |>.
Definition params : list (list Z * list Z) := [([97; 98], [49]); ([97], [50; 51]); ([97], [52])].
Definition s0 : state (list PmBase.Demo.event) :=
  PmBase.Demo.boot
    <| procs := [user 2 0 0; user 29999 1 0; user 30000 2 0; user 3 3 5; free; free; free; free] |>
    <| next_pid := 29998 |> <| monitor_params := encode_params params [9; 9] |> <| mp := 3 |>
    <| m_in := PmBase.Demo.no_call <| m1_i3 := huge_nice |> |>.

(** The number 30000 is given too, though [const.h] says that they end at 29999. *)
Example free_pid : (match get_free_pid s0 with Ret p _ => Some p | _ => None end) = Some 4 /\
  (match get_free_pid (s0 <| procs := replicate 8 free |> <| next_pid := 29999 |>) with Ret p _ => Some p | _ => None end)
  = Some 30000.
Proof. by vm_compute. Qed.
(** A nice value far below the range gives the lower queue. *)
Example low_nice : nice_to_priority (-20) s0 = Ret (OK, 16) s0 /\ nice_to_priority (-1000) s0 = Ret (OK, 17) s0.
Proof. by vm_compute. Qed.

Lemma get_free_pid_fresh_witness :
  exists k, get_free_pid s0 = Ret (tried 29998 k) (s0 <| next_pid := tried 29998 k |>) /\ (k <= 16)%nat.
Proof.
  destruct (get_free_pid_fresh s0) as (k & Hk & Hrun & _); [done|done|done|].
  exists k. by split.
Defined.
Lemma find_param_spec_witness :
  exists r, find_param [97] s0 = Ret r s0 /\ cstr <$> r = Some [50; 51].
Proof.
  destruct (find_param_spec [97] params [9; 9] s0) as (r & Hr & Hval).
  - done.
  - by repeat constructor.
  - by repeat constructor.
  - exists r. by split.
Defined.
Lemma nice_to_priority_spec_witness : nice_to_priority (-1000) s0 = Ret (OK, 17) s0.
Proof. rewrite (nice_to_priority_spec (-1000) s0); [by vm_compute|lia]. Defined.
Lemma setpriority_stops_sched_witness :
  do_getsetpriority s0 =
    Ret (inl OK) (s0 <| world := [PmBase.Demo.Scheduler SCHED_PROC_NR (SET_NICE 3 huge_nice)] |>
      <| procs := aupd 3 (fun p => p <| mp_nice := huge_nice |>) (procs s0) |>) /\
  Sched.do_nice (sched_message (SET_NICE 3 huge_nice)) Sched.Demo.s0 = Halt Undef Sched.Demo.s0.
Proof.
  pose proof (setpriority_stops_sched s0 (user 3 3 5) Sched.Demo.s0 3) as Hx.
  cbn [taskcall PmBase.Demo.pm_sched world s0] in Hx. destruct Hx as [Hpm Hsched]; [done..|].
  split; [rewrite Hpm; by vm_compute|exact Hsched].
Defined.
End Demo.
