(* ===== verification/PmAlarm.v ===== *)
(** The timers of PM, [src/Project_2/servers/pm/alarm.c], without [cause_sigalrm], which is
    in [PmMain]: the conversion between times and clock ticks, [alarm] and [setitimer].
    A [clock_t] is a signed and [system_hz] an unsigned 32-bit integer; a sum of ticks that a
    [clock_t] does not hold is [Undef]. *)
From S2P Require Import Prelude Minix PmBase Pm.
Local Open Scope Z_scope.

Definition US : Z := 1000000.

Section operations.
Context `{MinixHeaders} `{PmHeaders} {W : Type} `{PmEnv W}.
Abbreviation cmd := (M (state W)).

Definition ticks_from_timeval (tv : timeval) : option Z :=
  if system_hz =? 0 then None else
  let ticks := s32 (u32 (system_hz * u32 (tv_sec tv))) in
  ticks ← (if negb (u32 ticks `div` system_hz =? u32 (tv_sec tv)) then Some LONG_MAX else
           int (ticks + s32 (u32 (system_hz * u32 (tv_usec tv) + (US - 1)) `div` US)));
  Some (if ticks <? 0 then LONG_MAX else ticks).

Definition timeval_from_ticks (ticks : Z) : option timeval :=
  if system_hz =? 0 then None else
  Some (mk_timeval (s32 (u32 ticks `div` system_hz))
          (s32 (u32 ((u32 ticks `mod` system_hz) * US) `div` system_hz))).

Definition MAX_SECS : Z := s32 (2 ^ 31 `div` system_hz).
Definition is_sane_timeval (tv : timeval) : bool :=
  (0 <=? tv_sec tv) && (tv_sec tv <=? MAX_SECS) && (0 <=? tv_usec tv) && (tv_usec tv <? US).

(** [rmp->mp_interval[which]] *)
Definition get_interval (i which : Z) : cmd Z := p ← slot i; deref (aget (mp_interval p) which).
Definition set_interval (i which ticks : Z) : cmd unit :=
  get_interval i which;; set_slot i (fun p => p <| mp_interval := aupd which (fun _ => ticks) (mp_interval p) |>).

Definition set_alarm (i ticks : Z) : cmd unit :=
  p ← slot i;
  if 0 <? ticks then
    env (set_timer i ticks (mp_endpoint p));; set_flag i ALARM_ON
  else if has (mp_flags p) ALARM_ON then
    env (cancel_timer i);; clear_flag i ALARM_ON
  else mret tt.

Definition get_realtimer (i : Z) : cmd itimerval :=
  p ← slot i;
  remaining ← (if has (mp_flags p) ALARM_ON then
                 '(r, uptime) ← env getuptime;
                 if negb (is_ok r) then halt Panic else
                 w ← gets world;
                 remaining ← deref (int (tmr_exp_time i w - uptime));
                 if remaining <=? 0 then get_interval i ITIMER_REAL else mret remaining
               else mret 0);
  value ← deref (timeval_from_ticks remaining);
  t ← get_interval i ITIMER_REAL;
  interval ← deref (timeval_from_ticks t);
  mret (mk_itimerval value interval).

Definition set_realtimer (i : Z) (value : itimerval) : cmd unit :=
  ticks ← deref (ticks_from_timeval (it_value value));
  interval ← deref (ticks_from_timeval (it_interval value));
  let interval := if ticks <=? 0 then 0 else interval in
  set_alarm i ticks;;
  set_interval i ITIMER_REAL interval.

Definition vtimer_number (which : Z) : cmd Z :=
  if which =? ITIMER_VIRTUAL then mret VT_VIRTUAL else
  if which =? ITIMER_PROF then mret VT_PROF else halt Panic.
(** The new value, if any, and whether the old one is wanted. *)
Definition getset_vtimer (i which : Z) (value : option itimerval) (ovalue : bool) : cmd itimerval :=
  t ← get_interval i which;
  ointerval ← (if ovalue then deref (timeval_from_ticks t) else mret (mk_timeval 0 0));
  nptr ← (match value with
          | None => mret None
          | Some value =>
              newticks ← deref (ticks_from_timeval (it_value value));
              (if newticks <=? 0 then set_interval i which 0 else
                 t ← deref (ticks_from_timeval (it_interval value)); set_interval i which t);;
              mret (Some newticks)
          end);
  num ← vtimer_number which;
  p ← slot i;
  '(r, oldticks) ← env (sys_vtimer (mp_endpoint p) num nptr ovalue);
  if negb (is_ok r) then halt Panic else
  if ovalue then
    oldticks ← (if oldticks <=? 0 then get_interval i which else mret oldticks);
    v ← deref (timeval_from_ticks oldticks);
    mret (mk_itimerval v ointerval)
  else mret (mk_itimerval (mk_timeval 0 0) ointerval).

Definition check_vtimer (proc_nr sig : Z) : cmd unit :=
  slot proc_nr;;
  '(which, num) ← (if sig =? SIGVTALRM then mret (ITIMER_VIRTUAL, VT_VIRTUAL) else
                   if sig =? SIGPROF then mret (ITIMER_PROF, VT_PROF) else halt Panic);
  t ← get_interval proc_nr which;
  if 0 <? t then
    p ← slot proc_nr; env (sys_vtimer (mp_endpoint p) num (Some t) false);; mret tt
  else mret tt.

Definition do_itimer : cmd rc :=
  s ← get;
  let m := m_in s in
  if (which_timer m <? 0) || (NR_ITIMERS <=? which_timer m) then mret EINVAL else
  let setval := negb (new_val m =? 0) in
  let getval := negb (old_val m =? 0) in
  if negb setval && negb getval then mret EINVAL else
  '(r, value) ← (if setval then env (in_itimerval (who_e s) (new_val m))
                 else mret (OK, mk_itimerval (mk_timeval 0 0) (mk_timeval 0 0)));
  if negb (is_ok r) then mret r else
  if setval && (negb (is_sane_timeval (it_value value)) || negb (is_sane_timeval (it_interval value)))
  then mret EINVAL else
  ovalue ← (if which_timer m =? ITIMER_REAL then
              o ← (if getval then get_realtimer (mp s) else mret (mk_itimerval (mk_timeval 0 0) (mk_timeval 0 0)));
              (if setval then set_realtimer (mp s) value else mret tt);;
              mret o
            else getset_vtimer (mp s) (which_timer m) (if setval then Some value else None) getval);
  if getval then env (out_itimerval (who_e s) (old_val m) ovalue) else mret OK.

Definition do_alarm : cmd rc :=
  s ← get;
  ovalue ← get_realtimer (mp s);
  let remaining := tv_sec (it_value ovalue) + (if 0 <? tv_usec (it_value ovalue) then 1 else 0) in
  set_realtimer (mp s) (mk_itimerval (mk_timeval (seconds (m_in s)) 0) (mk_timeval 0 0));;
  mret (Rc remaining).
End operations.
