(* ===== verification/PmSignal.v ===== *)
(** How processes end and are signalled, [src/Project_2/servers/pm]: [exit_proc] and the
    functions around it ([forkexit.c]), [sig_proc] and the functions around it
    ([signal.c]), [stop_proc] ([trace.c]) and [setreply] ([main.c]).
    They call each other: a process that ends may send a signal to its father, kill those
    it traces and hang up its group, and each of these may end other processes.  The functions
    that [sig_proc] reaches take it as an argument, and [sig_proc] itself ties the knot.
    The sums of the clock ticks that processes used wrap around. *)
From S2P Require Import Prelude Minix PmBase Pm PmAlarm.
Local Open Scope Z_scope.

(** [main.c] builds three sets of signals. *)
Definition sigset_of (l : list Z) : Z := foldr (fun n s => sigaddset s n) 0 l.
Definition s8 (z : Z) : Z := (z + 2 ^ 7) mod 2 ^ 8 - 2 ^ 7.
Definition str_ipc : list Z := [105; 112; 99].

Section operations.
Context `{MinixHeaders} `{PmHeaders} {W : Type} `{PmSched W} `{PmEnv W}.
Abbreviation cmd := (M (state W)).

Definition core_sset : Z := sigset_of [SIGQUIT; SIGILL; SIGTRAP; SIGABRT; SIGEMT; SIGFPE; SIGBUS; SIGSEGV].
Definition ign_sset : Z := sigset_of [SIGCHLD; SIGWINCH; SIGCONT].
Definition noign_sset : Z := sigset_of [SIGILL; SIGTRAP; SIGEMT; SIGFPE; SIGBUS; SIGSEGV].

Definition setreply (proc_nr : Z) (result : rc) : cmd unit :=
  if (proc_nr <? 0) || (NR_PROCS <=? proc_nr) then halt Panic else
  set_reply proc_nr (fun m => m <| reply_res := result |>);;
  set_flag proc_nr REPLY.

(** ** [forkexit.c] *)
Definition wait_test (i child : Z) : cmd bool :=
  p ← slot i;
  c ← slot child;
  let pidarg := mp_wpid p in
  let right_child := (pidarg =? -1) || (pidarg =? mp_pid c) || (- pidarg =? mp_procgrp c) in
  mret (has (mp_flags p) WAITING && right_child).

(** [(mp_exitstatus << 8) | (mp_sigstatus & 0377)] *)
Definition wait_status (c : mproc) : Z := Z.lor (Z.shiftl (mp_exitstatus c) 8) (Z.land (mp_sigstatus c) 255).

Definition tell_parent (child : Z) : cmd unit :=
  c ← slot child;
  if mp_parent c <=? 0 then halt Panic else
  if negb (has (mp_flags c) ZOMBIE) then halt Panic else
  if has (mp_flags c) TOLD_PARENT then halt Panic else
  set_reply (mp_parent c) (fun m => m <| reply_res2 := wait_status c |>);;
  setreply (mp_parent c) (Rc (mp_pid c));;
  clear_flag (mp_parent c) WAITING;;
  clear_flag child ZOMBIE;;
  set_flag child TOLD_PARENT.

Definition tell_tracer (child : Z) : cmd unit :=
  c ← slot child;
  if mp_tracer c <=? 0 then halt Panic else
  if negb (has (mp_flags c) TRACE_ZOMBIE) then halt Panic else
  set_reply (mp_tracer c) (fun m => m <| reply_res2 := wait_status c |>);;
  setreply (mp_tracer c) (Rc (mp_pid c));;
  clear_flag (mp_tracer c) WAITING;;
  clear_flag child TRACE_ZOMBIE;;
  set_flag child ZOMBIE.

Definition cleanup (i : Z) : cmd unit :=
  set_slot i (fun p => p <| mp_pid := 0 |> <| mp_flags := 0 |> <| mp_child_utime := 0 |> <| mp_child_stime := 0 |>);;
  modify (fun s => s <| procs_in_use := procs_in_use s - 1 |>).

(** [trace.c] *)
Definition stop_proc (i signo : Z) : cmd unit :=
  p ← slot i;
  slot (mp_tracer p);;
  '(r, _) ← env (sys_trace T_STOP (mp_endpoint p) 0 0);
  if negb (is_ok r) then halt Panic else
  set_flag i STOPPED;;
  b ← wait_test (mp_tracer p) i;
  if b : bool then
    set_slot i (fun p => p <| mp_sigtrace := sigdelset (mp_sigtrace p) signo |>);;
    clear_flag (mp_tracer p) WAITING;;
    set_reply (mp_tracer p) (fun m => m <| reply_res2 := Z.lor 127 (Z.shiftl signo 8) |>);;
    setreply (mp_tracer p) (Rc (mp_pid p))
  else mret tt.

(** The first process of the name "ipc", which VM is to tell of the signal. *)
Definition vm_notify_sig_wrapper (ep : Z) : cmd unit :=
  r ← for_ (seqZ 0 NR_PROCS) (fun i =>
    p ← slot i;
    mret (if has (mp_flags p) IN_USE && bool_decide (mp_name p = str_ipc) then Some (mp_endpoint p) else None));
  match r with
  | Some ipc_ep => env (vm_notify_sig ep ipc_ep);; mret tt
  | None => mret tt
  end.

Section ending.
Variable sig_proc : Z -> Z -> bool -> bool -> cmd unit.

Definition check_parent (child : Z) (try_cleanup : bool) : cmd unit :=
  c ← slot child;
  p ← slot (mp_parent c);
  if has (mp_flags p) EXITING then mret tt else
  b ← wait_test (mp_parent c) child;
  if b : bool then
    tell_parent child;;
    c ← slot child;
    if try_cleanup && negb (has (mp_flags c) VFS_CALL) then cleanup child else mret tt
  else sig_proc (mp_parent c) SIGCHLD true false.

Definition zombify (i : Z) : cmd unit :=
  p ← slot i;
  if has (mp_flags p) (Z.lor TRACE_ZOMBIE ZOMBIE) then halt Panic else
  if negb (mp_tracer p =? NO_TRACER) && negb (mp_tracer p =? mp_parent p) then
    set_flag i TRACE_ZOMBIE;;
    b ← wait_test (mp_tracer p) i;
    if negb b then mret tt else
    tell_tracer i;; check_parent i false
  else set_flag i ZOMBIE;; check_parent i false.

Definition tracer_died (child : Z) : cmd unit :=
  set_slot child (fun c => c <| mp_tracer := NO_TRACER |>);;
  clear_flag child TRACE_EXIT;;
  c ← slot child;
  if negb (has (mp_flags c) EXITING) then sig_proc child SIGKILL true false else
  if has (mp_flags c) TRACE_ZOMBIE then
    clear_flag child TRACE_ZOMBIE;; set_flag child ZOMBIE;; check_parent child true
  else mret tt.

(** The tests that leave a process out of a broadcast; [mp] is the caller. *)
Definition selected (proc_id signo : Z) (me p : mproc) : bool :=
  has (mp_flags p) IN_USE &&
  negb ((0 <? proc_id) && negb (proc_id =? mp_pid p)) &&
  negb ((proc_id =? 0) && negb (mp_procgrp me =? mp_procgrp p)) &&
  negb ((proc_id =? -1) && (mp_pid p <=? INIT_PID)) &&
  negb ((proc_id <? -1) && negb (mp_procgrp p =? - proc_id)) &&
  negb ((proc_id =? -1) && (signo =? SIGKILL) && has (mp_flags p) PRIV_PROC).
Definition permitted (me p : mproc) : bool :=
  (mp_effuid me =? SUPER_USER) || (mp_realuid me =? mp_realuid p) || (mp_effuid me =? mp_realuid p) ||
  (mp_realuid me =? mp_effuid p) || (mp_effuid me =? mp_effuid p).
(** One turn of the loop, with the count and the error code; [true] leaves the loop. *)
Definition check_sig_step (proc_id signo : Z) (ksig : bool) (a : Z * rc) (i : Z) : cmd ((Z * rc) * bool) :=
  let '(count, error_code) := a in
  p ← slot i;
  m ← gets mp;
  me ← slot m;
  if negb (selected proc_id signo me p) then mret (a, false) else
  if negb ksig && SIGS_IS_LETHAL signo && has (mp_flags p) PRIV_PROC then mret ((count, EPERM), false) else
  if negb (permitted me p) then mret ((count, EPERM), false) else
  if (signo =? 0) || has (mp_flags p) EXITING then mret ((count + 1, error_code), false) else
  sig_proc i signo true ksig;;
  mret ((count + 1, error_code), 0 <? proc_id).
Definition check_sig (proc_id signo : Z) (ksig : bool) : cmd rc :=
  if (signo <? 0) || (_NSIG <=? signo) then mret EINVAL else
  if (proc_id =? INIT_PID) && (signo =? SIGKILL) then mret EINVAL else
  (if (proc_id =? -1) && (signo =? SIGTERM) then env (sys_kill RS_PROC_NR signo);; mret tt else mret tt);;
  '(count, error_code) ← fold_break (rev (seqZ 0 NR_PROCS)) (0, ESRCH) (check_sig_step proc_id signo ksig);
  m ← gets mp;
  me ← slot m;
  if negb (has (mp_flags me) IN_USE) || has (mp_flags me) EXITING then mret SUSPEND else
  mret (if 0 <? count then OK else error_code).

(** The children and those it traced, when process [proc_nr] has ended. *)
Definition disinherit (proc_nr i : Z) : cmd unit :=
  p ← slot i;
  if negb (has (mp_flags p) IN_USE) then mret tt else
  (if mp_tracer p =? proc_nr then tracer_died i else mret tt);;
  p ← slot i;
  if mp_parent p =? proc_nr then
    set_slot i (fun p => p <| mp_parent := INIT_PROC_NR |>);;
    p ← slot i;
    if has (mp_flags p) ZOMBIE then check_parent i true else mret tt
  else mret tt.

Definition exit_proc (i exit_status : Z) (dump_core : bool) : cmd unit :=
  p ← slot i;
  let dump_core := dump_core && (mp_realuid p =? mp_effuid p) in
  let dump_core := dump_core && negb (has (mp_flags p) PRIV_PROC) in
  let proc_nr_e := mp_endpoint p in
  m ← gets mp;
  me ← slot m;
  let procgrp := if mp_pid p =? mp_procgrp me then mp_procgrp me else 0 in
  (if has (mp_flags p) ALARM_ON then set_alarm i 0 else mret tt);;
  '(r, (user_time, sys_time)) ← env (sys_times proc_nr_e);
  if negb (is_ok r) then halt Panic else
  set_slot (mp_parent p) (fun q => q <| mp_child_utime := s32 (mp_child_utime q + (user_time + mp_child_utime p)) |>);;
  set_slot (mp_parent p) (fun q => q <| mp_child_stime := s32 (mp_child_stime q + (sys_time + mp_child_stime p)) |>);;
  must (sys_stop proc_nr_e);;
  must (vm_willexit proc_nr_e);;
  vm_notify_sig_wrapper proc_nr_e;;
  if proc_nr_e =? INIT_PROC_NR then mret tt else
  if proc_nr_e =? VFS_PROC_NR then halt Panic else
  tell_vfs i (if dump_core then PM_DUMPCORE proc_nr_e else PM_EXIT proc_nr_e);;
  (if has (mp_flags p) PRIV_PROC then must (sys_clear proc_nr_e) else mret tt);;
  set_slot i (fun p => p <| mp_flags :=
    Z.lor (Z.land (mp_flags p) (Z.lor IN_USE (Z.lor VFS_CALL (Z.lor PRIV_PROC TRACE_EXIT)))) EXITING |>
    <| mp_exitstatus := s8 exit_status |>);;
  (if dump_core then mret tt else zombify i);;
  foreach (seqZ 0 NR_PROCS) (disinherit i);;
  if negb (procgrp =? 0) then check_sig (- procgrp) SIGHUP false;; mret tt else mret tt.

(** ** [signal.c] *)
Definition unpause (i : Z) : cmd unit :=
  p ← slot i;
  if has (mp_flags p) DELAY_CALL then mret tt else
  if has (mp_flags p) (Z.lor PAUSED (Z.lor WAITING SIGSUSPENDED)) then
    must (sys_stop (mp_endpoint p));; set_flag i UNPAUSED
  else
    ok ← (if negb (has (mp_flags p) PM_SIG_PENDING) then
            r ← env (sys_delay_stop (mp_endpoint p));
            if bool_decide (r = EBUSY) then set_flag i DELAY_CALL;; mret false else
            if negb (is_ok r) then halt Panic else
            set_flag i PM_SIG_PENDING;; mret true
          else mret true);
    if negb ok then mret tt else
    tell_vfs i (PM_UNPAUSE (mp_endpoint p));;
    vm_notify_sig_wrapper (mp_endpoint p).

(** The masks of a process whose handler for [signo] is about to run. *)
Definition handler_masks (signo : Z) (act : sigaction) (p : mproc) : mproc :=
  let mask := Z.lor (mp_sigmask p) (sa_mask act) in
  let p := p <| mp_sigmask := if has (sa_flags act) SA_NODEFER then sigdelset mask signo else sigaddset mask signo |> in
  let p := if has (sa_flags act) SA_RESETHAND then
             p <| mp_catch := sigdelset (mp_catch p) signo |>
               <| mp_sigact := aupd signo (fun a => a <| sa_handler := SIG_DFL |>) (mp_sigact p) |>
           else p in
  p <| mp_sigpending := sigdelset (mp_sigpending p) signo |> <| mp_ksigpending := sigdelset (mp_ksigpending p) signo |>.
Definition sig_send (i signo : Z) : cmd bool :=
  p ← slot i;
  if negb (has (mp_flags p) UNPAUSED) then halt Panic else
  act ← deref (aget (mp_sigact p) signo);
  let sm_mask := if has (mp_flags p) SIGSUSPENDED then mp_sigmask2 p else mp_sigmask p in
  set_slot i (handler_masks signo act);;
  '(r, cur_sp) ← env (vm_push_sig (mp_endpoint p));
  if negb (is_ok r) then mret false else
  must (sys_sigsend (mp_endpoint p) (mk_sigmsg signo sm_mask (sa_handler act) (mp_sigreturn p) cur_sp));;
  (if has (mp_flags p) (Z.lor PAUSED (Z.lor WAITING SIGSUSPENDED)) then
     clear_flag i (Z.lor PAUSED (Z.lor WAITING SIGSUSPENDED));; setreply i EINTR
   else mret tt);;
  p ← slot i;
  (if has (mp_flags p) UNPAUSED && negb (has (mp_flags p) PM_SIG_PENDING) then
     clear_flag i UNPAUSED;; must (sys_resume (mp_endpoint p))
   else mret tt);;
  mret true.

Definition sig_proc_exit (i signo : Z) : cmd unit :=
  set_slot i (fun p => p <| mp_sigstatus := s8 signo |>);;
  if sigismember core_sset signo then
    p ← slot i;
    (if negb (has (mp_flags p) PRIV_PROC) then env (sys_stacktrace (mp_endpoint p));; mret tt else mret tt);;
    exit_proc i 0 true
  else exit_proc i 0 false.

Definition add_pending (i signo : Z) (ksig : bool) : cmd unit :=
  set_slot i (fun p => p <| mp_sigpending := sigaddset (mp_sigpending p) signo |>);;
  if ksig then set_slot i (fun p => p <| mp_ksigpending := sigaddset (mp_ksigpending p) signo |>) else mret tt.

(** [sig_proc] behind the test of [VFS_CALL]: the signals of system processes, *)
Definition sig_system (i signo : Z) (ksig : bool) : cmd unit :=
  p ← slot i;
  if mp_endpoint p =? PM_PROC_NR then mret tt else
  if negb ksig then env (sys_kill (mp_endpoint p) signo);; mret tt else
  (if SIGS_IS_STACKTRACE signo then env (sys_stacktrace (mp_endpoint p));; mret tt else mret tt);;
  if negb (SIGS_IS_TERMINATION signo) then env (asynsend_signal (mp_endpoint p) signo);; mret tt
  else sig_proc_exit i signo.
(** a signal that is caught: [true] when the process has to be killed, *)
Definition sig_catch (i signo : Z) (ksig : bool) : cmd bool :=
  p ← slot i;
  go ← (if negb (has (mp_flags p) UNPAUSED) then
          unpause i;;
          p ← slot i;
          if negb (has (mp_flags p) UNPAUSED) then add_pending i signo ksig;; mret false else mret true
        else mret true);
  if negb go then mret false else
  sent ← sig_send i signo;
  mret (negb sent).
(** and those of user processes. *)
Definition sig_user (i signo : Z) (ksig : bool) : cmd unit :=
  p ← slot i;
  let ignored := sigismember (mp_ignore p) signo in
  let masked := sigismember (mp_sigmask p) signo in
  let badignore := ksig && sigismember noign_sset signo && (ignored || masked) in
  if negb badignore && ignored then mret tt else
  if negb badignore && masked then add_pending i signo ksig else
  if has (mp_flags p) STOPPED && negb (signo =? SIGKILL) then add_pending i signo ksig else
  if negb badignore && sigismember (mp_catch p) signo then
    dead ← sig_catch i signo ksig;
    if dead : bool then sig_proc_exit i signo else mret tt
  else if negb badignore && sigismember ign_sset signo then mret tt
  else sig_proc_exit i signo.

Definition sig_proc_body (i signo : Z) (trace ksig : bool) : cmd unit :=
  p ← slot i;
  if negb (has (mp_flags p) IN_USE) || has (mp_flags p) EXITING then halt Panic else
  if trace && negb (mp_tracer p =? NO_TRACER) && negb (signo =? SIGKILL) then
    set_slot i (fun p => p <| mp_sigtrace := sigaddset (mp_sigtrace p) signo |>);;
    if negb (has (mp_flags p) STOPPED) then stop_proc i signo else mret tt
  else if has (mp_flags p) VFS_CALL then
    add_pending i signo ksig;;
    if negb (has (mp_flags p) PM_SIG_PENDING) then
      must (sys_stop (mp_endpoint p));; set_flag i PM_SIG_PENDING
    else mret tt
  else if has (mp_flags p) PRIV_PROC then sig_system i signo ksig
  else sig_user i signo ksig.
End ending.

(** Every process that ends on the way is one process less that is alive, so that there are
    at most as many calls inside each other as there are slots, and one more. *)
Fixpoint sig_proc_fuel (fuel : nat) : Z -> Z -> bool -> bool -> cmd unit :=
  match fuel with
  | O => fun _ _ _ _ => halt NoFuel
  | S fuel => sig_proc_body (sig_proc_fuel fuel)
  end.
Definition sig_proc : Z -> Z -> bool -> bool -> cmd unit := sig_proc_fuel (S (Z.to_nat NR_PROCS)).
End operations.
