(* ===== verification/PmCalls.v ===== *)
(** The calls of PM, [src/Project_2/servers/pm]: [forkexit.c], [signal.c], [exec.c],
    [getset.c], [trace.c], and of [misc.c] those that look at the process table or end
    processes.  The result of a call is its return code, [Rc n] for a number. *)
From S2P Require Import Prelude Minix PmBase Pm PmAlarm PmSignal.
Local Open Scope Z_scope.

Section operations.
Context `{MinixHeaders} `{PmHeaders} {W : Type} `{PmSched W} `{PmEnv W}.
Abbreviation cmd := (M (state W)).

(** ** [forkexit.c] *)
(** The search for a free slot from the one after [next_child]; the first component is how
    many were looked at. *)
Definition find_slot (next_child : Z) : cmd (Z * Z) :=
  loop_ (S (Z.to_nat NR_PROCS)) (fun '(n, next_child) =>
    let next_child := Z.rem (next_child + 1) NR_PROCS in
    let n := n + 1 in
    p ← slot next_child;
    mret (if has (mp_flags p) IN_USE && (n <=? NR_PROCS) then inl (n, next_child)
          else inr (n, next_child))) (0, next_child).
Definition table_full : cmd bool :=
  s ← get;
  me ← slot (mp s);
  mret ((procs_in_use s =? NR_PROCS) || ((NR_PROCS - 2 <=? procs_in_use s) && negb (mp_effuid me =? 0))).

(** The slot of the child, from that of its father; [keep] are the flags it inherits. *)
Definition child_of (keep who child_ep : Z) (untrace : mproc -> mproc) (p : mproc) : mproc :=
  let c := untrace (p <| mp_parent := who |>) in
  c <| mp_flags := Z.land (mp_flags c) keep |>
    <| mp_child_utime := 0 |> <| mp_child_stime := 0 |> <| mp_exitstatus := 0 |> <| mp_sigstatus := 0 |>
    <| mp_endpoint := child_ep |> <| mp_interval := replicate (Z.to_nat NR_ITIMERS) 0 |>.
Definition untraced (c : mproc) : mproc :=
  if negb (has (mp_trace_flags c) TO_TRACEFORK) then
    c <| mp_tracer := NO_TRACER |> <| mp_trace_flags := 0 |> <| mp_sigtrace := 0 |>
  else c.

Definition do_fork : cmd rc :=
  full ← table_full;
  if full : bool then mret EAGAIN else
  c0 ← gets next_child;
  '(n, child) ← find_slot c0;
  modify (fun s => s <| next_child := child |>);;
  if NR_PROCS <? n then halt Panic else
  c ← slot child;
  if has (mp_flags c) IN_USE then halt Panic else
  m ← gets mp;
  p ← slot m;
  '(r, child_ep) ← env (vm_fork (mp_endpoint p) child);
  if negb (is_ok r) then mret r else
  modify (fun s => s <| procs_in_use := procs_in_use s + 1 |>);;
  who ← gets who_p;
  (if has (mp_flags p) PRIV_PROC then assert_ (mp_scheduler p =? NONE) else mret tt);;
  set_slot child (fun _ =>
    let c := child_of (Z.lor IN_USE DELAY_CALL) who child_ep untraced p in
    if has (mp_flags p) PRIV_PROC then c <| mp_scheduler := SCHED_PROC_NR |> else c);;
  new_pid ← get_free_pid;
  set_slot child (fun c => c <| mp_pid := new_pid |>);;
  tell_vfs child (PM_FORK child_ep (mp_endpoint p) new_pid);;
  c ← slot child;
  (if negb (mp_tracer c =? NO_TRACER) then sig_proc child SIGSTOP true false else mret tt);;
  mret SUSPEND.

Definition do_srv_fork : cmd rc :=
  m ← gets mp;
  p ← slot m;
  if negb (mp_endpoint p =? RS_PROC_NR) then mret EPERM else
  full ← table_full;
  if full : bool then mret EAGAIN else
  c0 ← gets next_child_srv;
  '(n, child) ← find_slot c0;
  modify (fun s => s <| next_child_srv := child |>);;
  if NR_PROCS <? n then halt Panic else
  c ← slot child;
  if has (mp_flags c) IN_USE then halt Panic else
  '(r, child_ep) ← env (vm_fork (mp_endpoint p) child);
  if negb (is_ok r) then mret r else
  modify (fun s => s <| procs_in_use := procs_in_use s + 1 |>);;
  who ← gets who_p;
  set_slot child (fun _ =>
    child_of (Z.lor IN_USE (Z.lor PRIV_PROC DELAY_CALL)) who child_ep untraced p);;
  new_pid ← get_free_pid;
  set_slot child (fun c => c <| mp_pid := new_pid |>);;
  tell_vfs child (PM_SRV_FORK child_ep (mp_endpoint p) new_pid);;
  c ← slot child;
  (if negb (mp_tracer c =? NO_TRACER) then sig_proc child SIGSTOP true false else mret tt);;
  setreply child OK;;
  mret (Rc new_pid).

Definition do_exit : cmd rc :=
  s ← get;
  p ← slot (mp s);
  (if has (mp_flags p) PRIV_PROC then env (sys_kill (mp_endpoint p) SIGKILL);; mret tt
   else exit_proc sig_proc (mp s) (status (m_in s)) false);;
  mret SUSPEND.

Definition exit_restart (i : Z) (dump_core : bool) : cmd unit :=
  p ← slot i;
  env (sched_stop (mp_scheduler p) (mp_endpoint p));;
  set_slot i (fun p => p <| mp_scheduler := NONE |>);;
  (if dump_core then zombify sig_proc i else mret tt);;
  p ← slot i;
  (if negb (has (mp_flags p) PRIV_PROC) then must (sys_clear (mp_endpoint p)) else mret tt);;
  must (vm_exit (mp_endpoint p));;
  (if has (mp_flags p) TRACE_EXIT then
     set_reply (mp_tracer p) (fun m => m <| reply_trace := 0 |>);; setreply (mp_tracer p) OK
   else mret tt);;
  p ← slot i;
  if has (mp_flags p) TOLD_PARENT then cleanup i else mret tt.

(** The first signal of a set. *)
Definition first_signal (set : Z) : option Z := list_find (fun i => sigismember set i = true) (seqZ 1 (_NSIG - 1)) ≫= fun x => Some x.2.
(** The test of a slot by [waitpid]. *)
Definition waited_for (who pidarg : Z) (p : mproc) : bool :=
  has (mp_flags p) IN_USE && negb (has (mp_flags p) TOLD_PARENT) &&
  ((mp_parent p =? who) || (mp_tracer p =? who)) &&
  negb (negb (mp_parent p =? who) && has (mp_flags p) ZOMBIE) &&
  negb ((0 <? pidarg) && negb (pidarg =? mp_pid p)) &&
  negb ((pidarg <? -1) && negb (- pidarg =? mp_procgrp p)).
(** One turn of its loop: whether a child was seen, and the result if one is there to be
    told of. *)
Definition waitpid_step (pidarg : Z) (a : bool * option rc) (i : Z) : cmd ((bool * option rc) * bool) :=
  s ← get;
  let who := who_p s in
  p ← slot i;
  if negb (waited_for who pidarg p) then mret (a, false) else
  if (mp_tracer p =? who) && has (mp_flags p) TRACE_ZOMBIE then
    tell_tracer i;; check_parent sig_proc i true;; mret ((true, Some SUSPEND), true)
  else
  let stopped := if (mp_tracer p =? who) && has (mp_flags p) STOPPED then first_signal (mp_sigtrace p) else None in
  match stopped with
  | Some n =>
      set_slot i (fun p => p <| mp_sigtrace := sigdelset (mp_sigtrace p) n |>);;
      set_reply (mp s) (fun m => m <| reply_res2 := Z.lor 127 (Z.shiftl n 8) |>);;
      mret ((true, Some (Rc (mp_pid p))), true)
  | None =>
      if (mp_parent p =? who) && has (mp_flags p) ZOMBIE then
        tell_parent i;;
        p ← slot i;
        (if negb (has (mp_flags p) VFS_CALL) then cleanup i else mret tt);;
        mret ((true, Some SUSPEND), true)
      else mret ((true, None), false)
  end.
Definition do_waitpid : cmd rc :=
  s ← get;
  me ← slot (mp s);
  let pidarg := if call_nr s =? WAIT then -1 else pid (m_in s) in
  let options := if call_nr s =? WAIT then 0 else sig_nr (m_in s) in
  let pidarg := if pidarg =? 0 then - mp_procgrp me else pidarg in
  '(children, r) ← fold_break (seqZ 0 NR_PROCS) (false, None) (waitpid_step pidarg);
  match r with
  | Some r => mret r
  | None =>
      if children : bool then
        if has options WNOHANG then mret (Rc 0) else
        set_flag (mp s) WAITING;;
        set_slot (mp s) (fun p => p <| mp_wpid := pidarg |>);;
        mret SUSPEND
      else mret ECHILD
  end.

(** ** [signal.c] *)
Definition pending_step (i : Z) (n : Z) : cmd (option unit) :=
  p ← slot i;
  if sigismember (mp_sigpending p) n && negb (sigismember (mp_sigmask p) n) then
    let ksig := sigismember (mp_ksigpending p) n in
    set_slot i (fun p => p <| mp_sigpending := sigdelset (mp_sigpending p) n |>
                           <| mp_ksigpending := sigdelset (mp_ksigpending p) n |>);;
    sig_proc i n false ksig;;
    p ← slot i;
    mret (if has (mp_flags p) VFS_CALL then Some tt else None)
  else mret None.
Definition check_pending (i : Z) : cmd unit := for_ (seqZ 1 (_NSIG - 1)) (pending_step i);; mret tt.

Definition restart_sigs (i : Z) : cmd unit :=
  p ← slot i;
  if has (mp_flags p) (Z.lor VFS_CALL EXITING) then mret tt else
  if has (mp_flags p) TRACE_EXIT then exit_proc sig_proc i (mp_exitstatus p) false else
  if has (mp_flags p) PM_SIG_PENDING then
    check_pending i;;
    p ← slot i;
    if negb (has (mp_flags p) VFS_CALL) then
      clear_flag i (Z.lor PM_SIG_PENDING UNPAUSED);; must (sys_resume (mp_endpoint p))
    else mret tt
  else mret tt.

Definition kill_stop (set : Z) : Z := sigdelset (sigdelset set SIGKILL) SIGSTOP.

Definition do_sigaction : cmd rc :=
  s ← get;
  let m := m_in s in
  let n := sig_nr m in
  if n =? SIGKILL then mret OK else
  if (n <? 1) || (_NSIG <=? n) then mret EINVAL else
  me ← slot (mp s);
  svp ← deref (aget (mp_sigact me) n);
  r ← (if negb (sig_osa m =? 0) then env (out_sigaction (who_e s) (sig_osa m) svp) else mret OK);
  if negb (is_ok r) then mret r else
  if sig_nsa m =? 0 then mret OK else
  '(r, svec) ← env (in_sigaction (who_e s) (sig_nsa m));
  if negb (is_ok r) then mret r else
  set_slot (mp s) (fun p =>
    if sa_handler svec =? SIG_IGN then
      p <| mp_ignore := sigaddset (mp_ignore p) n |> <| mp_sigpending := sigdelset (mp_sigpending p) n |>
        <| mp_ksigpending := sigdelset (mp_ksigpending p) n |> <| mp_catch := sigdelset (mp_catch p) n |>
    else if sa_handler svec =? SIG_DFL then
      p <| mp_ignore := sigdelset (mp_ignore p) n |> <| mp_catch := sigdelset (mp_catch p) n |>
    else
      p <| mp_ignore := sigdelset (mp_ignore p) n |> <| mp_catch := sigaddset (mp_catch p) n |>);;
  set_slot (mp s) (fun p =>
    p <| mp_sigact := aupd n (fun _ => svec <| sa_mask := kill_stop (sa_mask svec) |>) (mp_sigact p) |>
      <| mp_sigreturn := sig_ret m |>);;
  mret OK.

Definition do_sigpending : cmd rc :=
  s ← get;
  me ← slot (mp s);
  set_reply (mp s) (fun m => m <| reply_mask := mp_sigpending me |>);;
  mret OK.

(** The loops of SIG_BLOCK and SIG_UNBLOCK over the signals of the argument. *)
Definition block_all (set mask : Z) : Z :=
  foldl (fun mask i => if sigismember set i then sigaddset mask i else mask) mask (seqZ 1 (_NSIG - 1)).
Definition unblock_all (set mask : Z) : Z :=
  foldl (fun mask i => if sigismember set i then sigdelset mask i else mask) mask (seqZ 1 (_NSIG - 1)).
Definition do_sigprocmask : cmd rc :=
  s ← get;
  let m := m_in s in
  me ← slot (mp s);
  set_reply (mp s) (fun r => r <| reply_mask := mp_sigmask me |>);;
  if sig_how m =? SIG_BLOCK then
    set_slot (mp s) (fun p => p <| mp_sigmask := block_all (kill_stop (sig_set m)) (mp_sigmask p) |>);; mret OK
  else if sig_how m =? SIG_UNBLOCK then
    set_slot (mp s) (fun p => p <| mp_sigmask := unblock_all (sig_set m) (mp_sigmask p) |>);;
    check_pending (mp s);; mret OK
  else if sig_how m =? SIG_SETMASK then
    set_slot (mp s) (fun p => p <| mp_sigmask := kill_stop (sig_set m) |>);;
    check_pending (mp s);; mret OK
  else if sig_how m =? SIG_INQUIRE then mret OK
  else mret EINVAL.

Definition do_sigsuspend : cmd rc :=
  s ← get;
  set_slot (mp s) (fun p => p <| mp_sigmask2 := mp_sigmask p |> <| mp_sigmask := kill_stop (sig_set (m_in s)) |>);;
  set_flag (mp s) SIGSUSPENDED;;
  check_pending (mp s);;
  mret SUSPEND.

Definition do_sigreturn : cmd rc :=
  s ← get;
  set_slot (mp s) (fun p => p <| mp_sigmask := kill_stop (sig_set (m_in s)) |>);;
  r ← env (sys_sigreturn (who_e s) (sig_context (m_in s)));
  check_pending (mp s);;
  mret r.

Definition do_kill : cmd rc := m ← gets m_in; check_sig sig_proc (pid m) (sig_nr m) false.
Definition do_srv_kill : cmd rc :=
  s ← get;
  me ← slot (mp s);
  if negb (mp_endpoint me =? RS_PROC_NR) then mret EPERM else
  check_sig sig_proc (pid (m_in s)) (sig_nr (m_in s)) true.
Definition do_pause : cmd rc := m ← gets mp; set_flag m PAUSED;; mret SUSPEND.

Definition process_ksig (proc_nr_e signo : Z) : cmd rc :=
  '(r, proc_nr) ← pm_isokendpt proc_nr_e;
  if negb (is_ok r) || (proc_nr <? 0) then mret EDEADEPT else
  p ← slot proc_nr;
  if negb (has (mp_flags p) IN_USE) || has (mp_flags p) EXITING then mret EDEADEPT else
  modify (fun s => s <| mp := 0 |>);;
  set_slot 0 (fun q => q <| mp_procgrp := mp_procgrp p |>);;
  id ← (if (signo =? SIGINT) || (signo =? SIGQUIT) || (signo =? SIGWINCH) then mret 0 else
        (if (signo =? SIGVTALRM) || (signo =? SIGPROF) then check_vtimer proc_nr signo else mret tt);;
        mret (mp_pid p));
  check_sig sig_proc id signo true;;
  p ← slot proc_nr;
  stop ← (if (signo =? SIGSNDELAY) && has (mp_flags p) DELAY_CALL then
            clear_flag proc_nr DELAY_CALL;;
            if has (mp_flags p) VFS_CALL then mret true else
            if has (mp_flags p) PM_SIG_PENDING then halt Panic else
            check_pending proc_nr;;
            p ← slot proc_nr;
            if has (mp_flags p) DELAY_CALL then halt Panic else mret false
          else mret false);
  if stop : bool then mret OK else
  p ← slot proc_nr;
  mret (if has (mp_flags p) IN_USE && negb (has (mp_flags p) EXITING) then OK else EDEADEPT).

(** [alarm.c]: the alarm of a process has expired. *)
Definition cause_sigalrm (ep : Z) : cmd unit :=
  '(r, i) ← pm_isokendpt ep;
  if negb (is_ok r) then mret tt else
  p ← slot i;
  if negb (has (mp_flags p) IN_USE) || has (mp_flags p) EXITING then mret tt else
  if negb (has (mp_flags p) ALARM_ON) then mret tt else
  t ← get_interval i ITIMER_REAL;
  (if 0 <? t then set_alarm i t else clear_flag i ALARM_ON);;
  check_sig sig_proc (mp_pid p) SIGALRM false;;
  mret tt.

(** ** [exec.c] *)
Definition do_exec : cmd rc :=
  s ← get;
  let m := m_in s in
  me ← slot (mp s);
  tell_vfs (mp s) (PM_EXEC (mp_endpoint me) (exec_name m) (exec_len m) (stack_ptr m) (stack_bytes m));;
  mret SUSPEND.

Definition do_exec_newmem : cmd rc :=
  s ← get;
  let m := m_in s in
  if negb (who_e s =? VFS_PROC_NR) && negb (who_e s =? RS_PROC_NR) then mret EPERM else
  '(r, i) ← pm_isokendpt (EXC_NM_PROC m);
  if negb (is_ok r) then halt Panic else
  '(r, args) ← env (in_exec_newmem (who_e s) (EXC_NM_PTR m));
  if negb (is_ok r) then halt Panic else
  '(r, (stack_top, flags)) ← env (vm_exec_newmem (EXC_NM_PROC m) args);
  if negb (is_ok r) then mret r else
  p ← slot i;
  let allow_setuid := mp_tracer p =? NO_TRACER in
  set_slot i (fun p =>
    let p := if allow_setuid then p <| mp_effuid := new_uid args |> <| mp_effgid := new_gid args |> else p in
    p <| mp_name := take (Z.to_nat (PROC_NAME_LEN - 1)) (cstr (progname args)) |>
      <| mp_procargs := stack_top - args_bytes args |>);;
  set_flag i PARTIAL_EXEC;;
  set_reply (mp s) (fun r => r <| reply_res2 := stack_top |>
    <| reply_res3 := if allow_setuid then Z.lor flags EXC_NM_RF_ALLOW_SETUID else flags |>);;
  mret OK.

(** The handlers that the old program set are gone. *)
Definition reset_caught (n : Z) (p : mproc) : mproc :=
  if sigismember (mp_catch p) n then
    p <| mp_catch := sigdelset (mp_catch p) n |>
      <| mp_sigact := aupd n (fun a => a <| sa_handler := SIG_DFL |> <| sa_mask := 0 |>) (mp_sigact p) |>
  else p.
Definition exec_restart (i : Z) (result : rc) (pc : Z) : cmd unit :=
  p ← slot i;
  if negb (is_ok result) then
    if has (mp_flags p) PARTIAL_EXEC then env (sys_kill (mp_endpoint p) SIGKILL);; mret tt
    else setreply i result
  else
  clear_flag i PARTIAL_EXEC;;
  set_slot i (fun p => foldl (fun p n => reset_caught n p) p (seqZ 1 (_NSIG - 1)));;
  (if negb (mp_tracer p =? NO_TRACER) && negb (has (mp_trace_flags p) TO_NOEXEC) then
     check_sig sig_proc (mp_pid p) (if has (mp_trace_flags p) TO_ALTEXEC then SIGSTOP else SIGTRAP) false;; mret tt
   else mret tt);;
  must (sys_exec (mp_endpoint p) (mp_procargs p) (mp_name p) pc).

Definition do_execrestart : cmd rc :=
  s ← get;
  let m := m_in s in
  if negb (who_e s =? RS_PROC_NR) then mret EPERM else
  '(r, i) ← pm_isokendpt (EXC_RS_PROC m);
  if negb (is_ok r) then halt Panic else
  exec_restart i (EXC_RS_RESULT m) (EXC_RS_PC m);;
  mret OK.

(** ** [getset.c] *)
Definition do_get : cmd rc :=
  s ← get;
  let m := m_in s in
  p ← slot (mp s);
  if call_nr s =? GETGROUPS then
    let ngroups := grp_no m in
    if (NGROUPS_MAX <? ngroups) || (ngroups <? 0) then mret EINVAL else
    if ngroups =? 0 then mret (Rc (mp_ngroups p)) else
    if ngroups <? mp_ngroups p then mret EINVAL else
    r ← env (out_gids (who_e s) (groupsp m) ngroups (mp_sgroups p));
    if negb (is_ok r) then mret r else mret (Rc (mp_ngroups p))
  else if call_nr s =? GETUID then
    set_reply (mp s) (fun r => r <| reply_res2 := mp_effuid p |>);; mret (Rc (mp_realuid p))
  else if call_nr s =? GETGID then
    set_reply (mp s) (fun r => r <| reply_res2 := mp_effgid p |>);; mret (Rc (mp_realgid p))
  else if call_nr s =? MINIX_GETPID then
    w ← slot (who_p s);
    q ← slot (mp_parent p);
    set_reply (mp s) (fun r => r <| reply_res2 := mp_pid q |>);; mret (Rc (mp_pid w))
  else if call_nr s =? GETPGRP then mret (Rc (mp_procgrp p))
  else mret EINVAL.

Definition do_set : cmd rc :=
  s ← get;
  let m := m_in s in
  let i := mp s in
  p ← slot i;
  let send req := tell_vfs i req;; mret SUSPEND in
  if (call_nr s =? SETUID) || (call_nr s =? SETEUID) then
    let uid := uid_t (usr_id m) in
    if negb (mp_realuid p =? uid) && negb (mp_effuid p =? SUPER_USER) then mret EPERM else
    let realuid := if call_nr s =? SETUID then uid else mp_realuid p in
    set_slot i (fun p => p <| mp_realuid := realuid |> <| mp_effuid := uid |>);;
    send (PM_SETUID (mp_endpoint p) uid realuid)
  else if (call_nr s =? SETGID) || (call_nr s =? SETEGID) then
    let gid := gid_t (grp_id m) in
    if negb (mp_realgid p =? gid) && negb (mp_effuid p =? SUPER_USER) then mret EPERM else
    let realgid := if call_nr s =? SETGID then gid else mp_realgid p in
    set_slot i (fun p => p <| mp_realgid := realgid |> <| mp_effgid := gid |>);;
    send (PM_SETGID (mp_endpoint p) gid realgid)
  else if call_nr s =? SETGROUPS then
    if negb (mp_effuid p =? SUPER_USER) then mret EPERM else
    let ngroups := grp_no m in
    if (NGROUPS_MAX <? ngroups) || (ngroups <? 0) then mret EINVAL else
    if groupsp m =? 0 then mret EFAULT else
    '(r, gids) ← env (in_gids (who_e s) (groupsp m) ngroups);
    if negb (is_ok r) then mret r else
    set_slot i (fun p => p <| mp_sgroups := take (Z.to_nat ngroups) gids ++ replicate (Z.to_nat (NGROUPS_MAX - ngroups)) 0 |>
                           <| mp_ngroups := ngroups |>);;
    send (PM_SETGROUPS (mp_endpoint p) ngroups)
  else if call_nr s =? SETSID then
    if mp_procgrp p =? mp_pid p then mret EPERM else
    set_slot i (fun p => p <| mp_procgrp := mp_pid p |>);;
    send (PM_SETSID (mp_endpoint p))
  else mret EINVAL.

(** ** [trace.c] *)
Definition sys_trace_reply (ep : Z) : cmd rc :=
  s ← get;
  let m := m_in s in
  '(r, d) ← env (sys_trace (request m) ep (PMTRACE_ADDR m) (data m));
  modify (fun s => s <| m_in := m_in s <| m2_l2 := d |> |>);;
  if negb (is_ok r) then mret r else
  set_reply (mp s) (fun r => r <| reply_trace := d |>);; mret OK.
Definition trace_ok : cmd rc := m ← gets mp; set_reply m (fun r => r <| reply_trace := 0 |>);; mret OK.
(** The process with the number, unless it is ending. *)
Definition find_live (n : Z) : cmd (option Z) :=
  r ← find_proc n;
  match r with
  | None => mret None
  | Some i => p ← slot i; mret (if has (mp_flags p) EXITING then None else Some i)
  end.

Definition trace_attach : cmd rc :=
  s ← get;
  r ← find_live (pid (m_in s));
  match r with
  | None => mret ESRCH
  | Some i =>
      me ← slot (mp s);
      c ← slot i;
      if negb (mp_effuid me =? SUPER_USER) &&
         (negb (mp_effuid me =? mp_effuid c) || negb (mp_effgid me =? mp_effgid c) ||
          negb (mp_effuid c =? mp_realuid c) || negb (mp_effgid c =? mp_realgid c)) then mret EPERM else
      if negb (mp_effuid me =? SUPER_USER) && has (mp_flags c) PRIV_PROC then mret EPERM else
      if has (mp_flags me) PRIV_PROC then mret EPERM else
      if (i =? mp s) || (mp_endpoint c =? PM_PROC_NR) || (mp_endpoint c =? VM_PROC_NR) then mret EPERM else
      if negb (mp_tracer c =? NO_TRACER) then mret EBUSY else
      set_slot i (fun c => c <| mp_tracer := who_p s |> <| mp_trace_flags := TO_NOEXEC |>);;
      sig_proc i SIGSTOP true false;;
      trace_ok
  end.
Definition trace_text : cmd rc :=
  s ← get;
  me ← slot (mp s);
  if negb (mp_effuid me =? SUPER_USER) then mret EPERM else
  r ← find_live (pid (m_in s));
  match r with None => mret ESRCH | Some i => c ← slot i; sys_trace_reply (mp_endpoint c) end.
Definition trace_range (c : Z) : cmd rc :=
  s ← get;
  let m := m_in s in
  '(r, pr) ← env (in_ptrace_range (who_e s) (PMTRACE_ADDR m));
  if negb (is_ok r) then mret r else
  if negb (pr_space pr =? TS_INS) && negb (pr_space pr =? TS_DATA) then mret EINVAL else
  if (pr_size pr =? 0) || (LONG_MAX <? pr_size pr) then mret EINVAL else
  p ← slot c;
  r ← env (sys_vircopy (request m =? T_GETRANGE) (mp_endpoint p) pr (who_e s));
  if negb (is_ok r) then mret r else trace_ok.
(** The signals that were held for the tracer go to the process. *)
Definition release_step (c n : Z) : cmd unit :=
  p ← slot c;
  if sigismember (mp_sigtrace p) n then
    set_slot c (fun p => p <| mp_sigtrace := sigdelset (mp_sigtrace p) n |>);;
    check_sig sig_proc (mp_pid p) n false;; mret tt
  else mret tt.
Definition trace_detach (c : Z) : cmd rc :=
  m ← gets m_in;
  if (data m <? 0) || (_NSIG <=? data m) then mret EINVAL else
  set_slot c (fun p => p <| mp_tracer := NO_TRACER |>);;
  foreach (seqZ 1 (_NSIG - 1)) (release_step c);;
  (if 0 <? data m then sig_proc c (data m) true false else mret tt);;
  clear_flag c STOPPED;;
  set_slot c (fun p => p <| mp_trace_flags := 0 |>);;
  check_pending c;;
  p ← slot c;
  sys_trace_reply (mp_endpoint p).
Definition trace_resume (c : Z) : cmd rc :=
  m ← gets m_in;
  if (data m <? 0) || (_NSIG <=? data m) then mret EINVAL else
  (if 0 <? data m then sig_proc c (data m) false false else mret tt);;
  p ← slot c;
  match first_signal (mp_sigtrace p) with
  | Some _ => trace_ok
  | None =>
      clear_flag c STOPPED;;
      check_pending c;;
      p ← slot c;
      sys_trace_reply (mp_endpoint p)
  end.
Definition trace_exit (c : Z) : cmd rc :=
  m ← gets m_in;
  set_flag c TRACE_EXIT;;
  p ← slot c;
  (if has (mp_flags p) VFS_CALL then set_slot c (fun p => p <| mp_exitstatus := s8 (data m) |>)
   else exit_proc sig_proc c (data m) false);;
  mret SUSPEND.
Definition do_trace : cmd rc :=
  s ← get;
  let m := m_in s in
  let req := request m in
  if req =? T_OK then
    me ← slot (mp s);
    if negb (mp_tracer me =? NO_TRACER) then mret EBUSY else
    set_slot (mp s) (fun p => p <| mp_tracer := mp_parent p |>);; trace_ok
  else if req =? T_ATTACH then trace_attach
  else if req =? T_STOP then mret EINVAL
  else if (req =? T_READB_INS) || (req =? T_WRITEB_INS) then trace_text
  else
  r ← find_live (pid m);
  match r with
  | None => mret ESRCH
  | Some c =>
      p ← slot c;
      if negb (mp_tracer p =? who_p s) then mret ESRCH else
      if negb (has (mp_flags p) STOPPED) then mret EBUSY else
      if req =? T_EXIT then trace_exit c
      else if req =? T_SETOPT then set_slot c (fun p => p <| mp_trace_flags := data m |>);; trace_ok
      else if (req =? T_GETRANGE) || (req =? T_SETRANGE) then trace_range c
      else if req =? T_DETACH then trace_detach c
      else if (req =? T_RESUME) || (req =? T_STEP) || (req =? T_SYSCALL) then trace_resume c
      else sys_trace_reply (mp_endpoint p)
  end.

(** ** [misc.c] *)
Definition do_getprocnr : cmd rc :=
  s ← get;
  let m := m_in s in
  me ← slot (mp s);
  if negb (mp_effuid me =? 0) then
    if (pid m <? 0) && (namelen m =? 0) then
      set_reply (mp s) (fun r => r <| reply_endpt := who_e s |> <| reply_pendpt := NONE |>);; mret OK
    else env (sys_stacktrace (mp_endpoint me));; mret EPERM
  else if 0 <=? pid m then
    r ← find_proc (pid m);
    match r with
    | None => mret ESRCH
    | Some i => p ← slot i; set_reply (mp s) (fun r => r <| reply_endpt := mp_endpoint p |>);; mret OK
    end
  else if 0 <? namelen m then
    let key_len := Z.min (namelen m) PROC_NAME_LEN in
    '(r, key) ← env (in_name (who_e s) (PMBRK_ADDR m) key_len);
    if negb (is_ok r) then mret r else
    let prefix (name : list Z) := take (Z.to_nat key_len) (cstr name) in
    r ← for_ (seqZ 0 NR_PROCS) (fun i =>
      p ← slot i;
      mret (if has (mp_flags p) IN_USE && negb (has (mp_flags p) EXITING) &&
               bool_decide (prefix (mp_name p) = prefix key) then Some (mp_endpoint p) else None));
    match r with
    | None => mret ESRCH
    | Some ep => set_reply (mp s) (fun r => r <| reply_endpt := ep |>);; mret OK
    end
  else
    q ← slot (mp_parent me);
    set_reply (mp s) (fun r => r <| reply_endpt := who_e s |> <| reply_pendpt := mp_endpoint q |>);; mret OK.

Definition do_getepinfo : cmd rc :=
  s ← get;
  me ← slot (mp s);
  if negb (mp_effuid me =? 0) then env (sys_stacktrace (mp_endpoint me));; mret EPERM else
  r ← for_ (seqZ 0 NR_PROCS) (fun i =>
    p ← slot i;
    mret (if has (mp_flags p) IN_USE && (mp_endpoint p =? PM_ENDPT (m_in s)) then Some p else None));
  match r with
  | None => mret ESRCH
  | Some p =>
      set_reply (mp s) (fun r => r <| reply_res2 := mp_effuid p |> <| reply_res3 := mp_effgid p |>);;
      mret (Rc (mp_pid p))
  end.

Definition do_reboot : cmd rc :=
  s ← get;
  let m := m_in s in
  me ← slot (mp s);
  if negb (mp_effuid me =? SUPER_USER) then mret EPERM else
  let flag := s32 (u32 (reboot_flag m)) in
  modify (fun s => s <| abort_flag := flag |>);;
  if RBT_INVALID <=? flag then mret EINVAL else
  r ← (if RBT_MONITOR =? flag then
         if 256 <=? u32 (reboot_strlen m) then mret EINVAL
         else env (in_monitor_code (who_e s) (reboot_code m) (reboot_strlen m))
       else mret OK);
  if negb (is_ok r) then mret r else
  check_sig sig_proc (-1) SIGKILL false;;
  env (sys_stop INIT_PROC_NR);;
  tell_vfs VFS_PROC_NR PM_REBOOT;;
  mret SUSPEND.
End operations.
