(* ===== verification/PmMain.v ===== *)
(** The main loop of PM, [src/Project_2/servers/pm/main.c]: the table of calls
    ([table.c]), the answers of VFS, the signals of the kernel and the replies. *)
From S2P Require Import Prelude Minix PmBase Pm PmAlarm PmSignal PmCalls.
Local Open Scope Z_scope.

(** What [sef_receive_status] returns with: a message, a notification, or the call of the
    signal manager that it makes on its own for a signal of the kernel. *)
Inductive event :=
  | Message (m : call)
  | Notification (m : call)
  | KernelSignal (target signo : Z).

(** The entries of the table; [other] is a call of a file that is not modelled. *)
Inductive handler :=
  | no_sys_ | exit_ | fork_ | waitpid_ | get_ | set_ | trace_ | alarm_ | pause_ | kill_ | exec_ | itimer_
  | sigaction_ | sigsuspend_ | sigpending_ | sigprocmask_ | sigreturn_ | reboot_ | getsetpriority_
  | exec_newmem_ | srv_fork_ | execrestart_ | getprocnr_ | getepinfo_ | srv_kill_ | other.
Definition call_vec : list handler :=
  [no_sys_; exit_; fork_; no_sys_; no_sys_; no_sys_; no_sys_; waitpid_;                  (* 0 *)
   no_sys_; no_sys_; no_sys_; waitpid_; no_sys_; other; no_sys_; no_sys_;                (* 8 *)
   no_sys_; other; no_sys_; no_sys_; get_; no_sys_; no_sys_; set_;                       (* 16 *)
   get_; other; trace_; alarm_; no_sys_; pause_; no_sys_; no_sys_;                       (* 24 *)
   no_sys_; no_sys_; no_sys_; no_sys_; no_sys_; kill_; no_sys_; no_sys_;                 (* 32 *)
   no_sys_; no_sys_; no_sys_; other; no_sys_; no_sys_; set_; get_;                       (* 40 *)
   no_sys_; no_sys_; no_sys_; no_sys_; no_sys_; no_sys_; no_sys_; no_sys_;               (* 48 *)
   no_sys_; no_sys_; no_sys_; exec_; no_sys_; no_sys_; set_; get_;                       (* 56 *)
   itimer_; get_; set_; other; other; no_sys_; no_sys_; sigaction_;                      (* 64 *)
   sigsuspend_; sigpending_; sigprocmask_; sigreturn_; reboot_; other; other; other;     (* 72 *)
   no_sys_; no_sys_; no_sys_; no_sys_; no_sys_; no_sys_; no_sys_; no_sys_;               (* 80 *)
   getsetpriority_; getsetpriority_; other; set_; set_; no_sys_; no_sys_; no_sys_;       (* 88 *)
   no_sys_; other; other; other; exec_newmem_; srv_fork_; execrestart_; other;           (* 96 *)
   getprocnr_; no_sys_; no_sys_; getepinfo_; other; other; other; srv_kill_;             (* 104 *)
   no_sys_].                                                                             (* 112 *)

Section operations.
Context `{MinixHeaders} `{PmHeaders} {W : Type} `{PmSched W} `{PmEnv W}.
Abbreviation cmd := (M (state W)).

Definition call_of (h : handler) : cmd rc :=
  match h with
  | no_sys_ => no_sys | exit_ => do_exit | fork_ => do_fork | waitpid_ => do_waitpid
  | get_ => do_get | set_ => do_set | trace_ => do_trace | alarm_ => do_alarm | pause_ => do_pause
  | kill_ => do_kill | exec_ => do_exec | itimer_ => do_itimer | sigaction_ => do_sigaction
  | sigsuspend_ => do_sigsuspend | sigpending_ => do_sigpending | sigprocmask_ => do_sigprocmask
  | sigreturn_ => do_sigreturn | reboot_ => do_reboot
  | getsetpriority_ => r ← do_getsetpriority; mret (match r with inl r => r | inr n => Rc n end)
  | exec_newmem_ => do_exec_newmem | srv_fork_ => do_srv_fork | execrestart_ => do_execrestart
  | getprocnr_ => do_getprocnr | getepinfo_ => do_getepinfo | srv_kill_ => do_srv_kill
  | other => n ← gets call_nr; env (other_call n)
  end.

Definition sendreply : cmd unit :=
  foreach (seqZ 0 NR_PROCS) (fun i =>
    p ← slot i;
    if has (mp_flags p) REPLY && has (mp_flags p) IN_USE && negb (has (mp_flags p) EXITING) then
      env (sendnb (mp_endpoint p) (mp_reply p));; clear_flag i REPLY
    else mret tt).

(** The part of an answer that depends on the request. *)
Definition vfs_answer (i nr : Z) : cmd unit :=
  m ← gets m_in;
  p ← slot i;
  if (nr =? PM_SETUID_REPLY) || (nr =? PM_SETGID_REPLY) || (nr =? PM_SETGROUPS_REPLY) then setreply i OK else
  if nr =? PM_SETSID_REPLY then setreply i (Rc (mp_procgrp p)) else
  if nr =? PM_EXEC_REPLY then exec_restart i (PM_STATUS m) (PM_PC m) else
  if nr =? PM_EXIT_REPLY then exit_restart i false else
  if nr =? PM_CORE_REPLY then
    (if is_ok (PM_STATUS m) then set_slot i (fun p => p <| mp_sigstatus := s8 (Z.lor (mp_sigstatus p) DUMPED) |>)
     else mret tt);;
    exit_restart i true
  else if nr =? PM_FORK_REPLY then
    r ← (if negb (mp_scheduler p =? KERNEL) && negb (mp_scheduler p =? NONE) then sched_start_user (mp_scheduler p) i
         else mret OK);
    if negb (is_ok r) then
      set_slot i (fun p => p <| mp_scheduler := NONE |>);;
      exit_proc sig_proc i (-1) false;;
      p ← slot i;
      setreply (mp_parent p) (Rc (-1))
    else
      setreply i OK;;
      p ← slot i;
      setreply (mp_parent p) (Rc (mp_pid p))
  else if nr =? PM_SRV_FORK_REPLY then mret tt
  else if nr =? PM_UNPAUSE_REPLY then set_flag i UNPAUSED
  else halt Panic.
Definition handle_vfs_reply : cmd unit :=
  s ← get;
  let nr := call_nr s in
  if nr =? PM_REBOOT_REPLY then env (sys_abort (abort_flag s));; mret tt else
  '(r, i) ← pm_isokendpt (PM_PROC (m_in s));
  if negb (is_ok r) then halt Panic else
  p ← slot i;
  if negb (has (mp_flags p) VFS_CALL) then halt Panic else
  clear_flag i VFS_CALL;;
  if has (mp_flags p) UNPAUSED then halt Panic else
  vfs_answer i nr;;
  p ← slot i;
  if has (mp_flags p) IN_USE && negb (has (mp_flags p) EXITING) then restart_sigs i else mret tt.

Definition is_vfs_reply (nr : Z) : bool :=
  bool_decide (nr ∈ [PM_SETUID_REPLY; PM_SETGID_REPLY; PM_SETSID_REPLY; PM_EXEC_REPLY; PM_EXIT_REPLY;
    PM_CORE_REPLY; PM_FORK_REPLY; PM_SRV_FORK_REPLY; PM_UNPAUSE_REPLY; PM_REBOOT_REPLY; PM_SETGROUPS_REPLY]).
Definition dispatch : cmd rc :=
  s ← get;
  let nr := call_nr s in
  if is_vfs_reply nr then
    if who_e s =? VFS_PROC_NR then handle_vfs_reply;; mret SUSPEND else mret ENOSYS
  else match aget call_vec nr with
       | None => mret ENOSYS
       | Some h => call_of h
       end.

(** [main] up to the switch: who sent the message. *)
Definition accept (m : call) : cmd unit :=
  modify (fun s => s <| m_in := m |> <| who_e := m_source m |>);;
  '(r, p) ← pm_isokendpt (m_source m);
  if negb (is_ok r) then halt Panic else
  modify (fun s => s <| who_p := p |> <| call_nr := m_type m |> <| mp := if p <? 0 then PM_PROC_NR else p |>);;
  n ← gets mp;
  me ← slot n;
  if (0 <=? p) && negb (mp_endpoint me =? m_source m) then halt Panic else mret tt.
Definition main_step (e : event) : cmd unit :=
  match e with
  | KernelSignal target signo => process_ksig target signo;; sendreply
  | Message m | Notification m =>
      accept m;;
      s ← get;
      me ← slot (mp s);
      if has (mp_flags me) EXITING then mret tt else
      result ← (match e with
                | Notification _ =>
                    if who_p s =? CLOCK then
                      l ← env (expire_timers (NOTIFY_TIMESTAMP m));
                      foreach l cause_sigalrm;; mret SUSPEND
                    else mret ENOSYS
                | _ => dispatch
                end);
      (if negb (bool_decide (result = SUSPEND)) then setreply (who_p s) result else mret tt);;
      sendreply
  end.

(** The nice values of the boot image. *)
Definition get_nice_value (queue : Z) : Z :=
  let nice_val := Z.quot ((queue - USER_Q) * (PRIO_MAX - PRIO_MIN + 1)) (MIN_USER_Q - MAX_USER_Q + 1) in
  let nice_val := if PRIO_MAX <? nice_val then PRIO_MAX else nice_val in
  if nice_val <? PRIO_MIN then PRIO_MIN else nice_val.
End operations.
