(* ===== verification/PmTree.v ===== *)
(** The processes of PM as a tree: what the slots of the table say about each other, the
    invariant of the table, and the lemmas on its changes.
    A slot is seen through [life], the flags and numbers that its life depends on. *)
From S2P Require Import Prelude Minix PmBase.
Local Open Scope Z_scope.

(** ** Flags *)
Class SingleBit (f : Z) : Prop := single_bit : exists k, 0 <= k /\ f = 2 ^ k.
Ltac solve_single k := exists k; split; [lia|reflexivity].
#[export] Instance single_in_use : SingleBit IN_USE. Proof. solve_single 0. Qed.
#[export] Instance single_waiting : SingleBit WAITING. Proof. solve_single 1. Qed.
#[export] Instance single_zombie : SingleBit ZOMBIE. Proof. solve_single 2. Qed.
#[export] Instance single_paused : SingleBit PAUSED. Proof. solve_single 3. Qed.
#[export] Instance single_alarm_on : SingleBit ALARM_ON. Proof. solve_single 4. Qed.
#[export] Instance single_exiting : SingleBit EXITING. Proof. solve_single 5. Qed.
#[export] Instance single_told_parent : SingleBit TOLD_PARENT. Proof. solve_single 6. Qed.
#[export] Instance single_stopped : SingleBit STOPPED. Proof. solve_single 7. Qed.
#[export] Instance single_sigsuspended : SingleBit SIGSUSPENDED. Proof. solve_single 8. Qed.
#[export] Instance single_reply : SingleBit REPLY. Proof. solve_single 9. Qed.
#[export] Instance single_vfs_call : SingleBit VFS_CALL. Proof. solve_single 10. Qed.
#[export] Instance single_pm_sig_pending : SingleBit PM_SIG_PENDING. Proof. solve_single 11. Qed.
#[export] Instance single_unpaused : SingleBit UNPAUSED. Proof. solve_single 12. Qed.
#[export] Instance single_priv_proc : SingleBit PRIV_PROC. Proof. solve_single 13. Qed.
#[export] Instance single_trace_exit : SingleBit TRACE_EXIT. Proof. solve_single 15. Qed.
#[export] Instance single_trace_zombie : SingleBit TRACE_ZOMBIE. Proof. solve_single 16. Qed.
#[export] Instance single_delay_call : SingleBit DELAY_CALL. Proof. solve_single 17. Qed.

Lemma has_single x f `{Hf : !SingleBit f} : exists k, 0 <= k /\ f = 2 ^ k /\ has x f = Z.testbit x k.
Proof.
  destruct Hf as (k & Hk & ->). exists k. split_and!; [done|done|]. unfold has.
  rewrite Z.land_comm. destruct (Z.testbit x k) eqn:E.
  - apply negb_true_iff, Z.eqb_neq. intros H0.
    assert (Z.testbit (Z.land (2 ^ k) x) k = false) as Hb by (rewrite H0; apply Z.bits_0).
    by rewrite Z.land_spec, Z.pow2_bits_true, E in Hb by done.
  - apply negb_false_iff, Z.eqb_eq. apply Z.bits_inj'. intros m Hm.
    rewrite Z.land_spec, Z.bits_0, Z.pow2_bits_eqb by done. destruct (k =? m) eqn:Ek; [|done].
    by apply Z.eqb_eq in Ek as <-.
Qed.
Lemma has_lor x y f : has (Z.lor x y) f = has x f || has y f.
Proof.
  unfold has. rewrite Z.land_lor_distr_l, <-negb_andb. f_equal. apply eq_true_iff_eq.
  rewrite andb_true_iff, !Z.eqb_eq. apply Z.lor_eq_0_iff.
Qed.
Lemma has_mask x f g : has x (Z.lor f g) = has x f || has x g.
Proof. unfold has. rewrite !(Z.land_comm x). apply (has_lor f g x). Qed.
Lemma has_land x y f `{!SingleBit f} : has (Z.land x y) f = has x f && has y f.
Proof.
  destruct (has_single (Z.land x y) f) as (k & Hk & Hf & ->), (has_single x f) as (k1 & Hk1 & Hf1 & ->),
    (has_single y f) as (k2 & Hk2 & Hf2 & ->).
  assert (k1 = k) as -> by (eapply (Z.pow_inj_r 2); lia). assert (k2 = k) as -> by (eapply (Z.pow_inj_r 2); lia).
  apply Z.land_spec.
Qed.
Lemma has_ldiff x y f `{!SingleBit f} : has (Z.ldiff x y) f = has x f && negb (has y f).
Proof.
  destruct (has_single (Z.ldiff x y) f) as (k & Hk & Hf & ->), (has_single x f) as (k1 & Hk1 & Hf1 & ->),
    (has_single y f) as (k2 & Hk2 & Hf2 & ->).
  assert (k1 = k) as -> by (eapply (Z.pow_inj_r 2); lia). assert (k2 = k) as -> by (eapply (Z.pow_inj_r 2); lia).
  apply Z.ldiff_spec.
Qed.

(** Computes the tests of flags in constants. *)
Ltac eval_flags :=
  repeat match goal with
  | |- context [has ?a ?b] =>
      lazymatch a with context [mp_flags _] => fail | _ => idtac end;
      let v := eval vm_compute in (has a b) in
      match v with true => change (has a b) with true | false => change (has a b) with false end
  end.
(** Normalises the tests of flags that were set and cleared. *)
Ltac flags :=
  repeat first [rewrite has_lor | rewrite has_land by apply _ | rewrite has_ldiff by apply _];
  eval_flags;
  repeat first [rewrite orb_true_r | rewrite orb_false_r | rewrite andb_true_r | rewrite andb_false_r];
  cbn [orb andb negb].

(** ** Lives *)
Record life := mk_life {
  l_used : bool; l_exiting : bool; l_vfs : bool; l_zombie : bool; l_tzombie : bool; l_told : bool;
  l_waiting : bool; l_pend : bool; l_unpaused : bool; l_priv : bool;
  l_pid : Z; l_ep : Z; l_grp : Z; l_wpid : Z; l_parent : Z; l_tracer : Z
}.
#[export] Instance eta_life : Eta life := fun r =>
  mk_life (l_used r) (l_exiting r) (l_vfs r) (l_zombie r) (l_tzombie r) (l_told r) (l_waiting r) (l_pend r)
    (l_unpaused r) (l_priv r) (l_pid r) (l_ep r) (l_grp r) (l_wpid r) (l_parent r) (l_tracer r).
Definition life_of (p : mproc) : life :=
  let f := has (mp_flags p) in
  mk_life (f IN_USE) (f EXITING) (f VFS_CALL) (f ZOMBIE) (f TRACE_ZOMBIE) (f TOLD_PARENT) (f WAITING)
    (f PM_SIG_PENDING) (f UNPAUSED) (f PRIV_PROC)
    (mp_pid p) (mp_endpoint p) (mp_procgrp p) (mp_wpid p) (mp_parent p) (mp_tracer p).

(** [q] waits for [c]: [wait_test] on lives. *)
Definition wait_match (q c : life) : bool :=
  l_waiting q && ((l_wpid q =? -1) || (l_wpid q =? l_pid c) || (- l_wpid q =? l_grp c)).
(** A process that neither ended nor is free. *)
Definition alive (l : life) : bool := l_used l && negb (l_exiting l).
Definition live (L : list life) : nat := length (filter (fun l => alive l = true) L).

(** ** The invariant *)
(** The flags of a slot in use.  A process that ends keeps its slot until VFS has answered
    and it has been collected: it is a zombie to its tracer, a zombie to its father, or its
    father was told; and once VFS has answered it waits to be collected, with [ex] saving the
    moment in between. *)
Definition flags_ok (ex : bool) (l : life) : bool :=
  negb (l_zombie l && l_tzombie l) && negb (l_zombie l && l_told l) && negb (l_tzombie l && l_told l) &&
  (l_exiting l || negb (l_zombie l || l_tzombie l || l_told l)) &&
  (negb (l_exiting l) || negb (l_waiting l || l_pend l || l_unpaused l)) &&
  (ex || negb (l_exiting l) || l_vfs l || l_zombie l || l_tzombie l) &&
  negb (l_unpaused l && (l_vfs l || l_priv l)).
(** By cases on the flags. *)
Ltac flag_cases l :=
  let u := fresh in let e := fresh in let v := fresh in let z := fresh in let t := fresh in let d := fresh in
  let w := fresh in let p := fresh in let n := fresh in let r := fresh in
  destruct l as [u e v z t d w p n r ? ? ? ? ? ?]; unfold flags_ok; simpl;
  destruct e; simpl; try done; destruct z; simpl; try done; destruct t; simpl; try done;
  destruct d; simpl; try done; destruct v; simpl; try done; destruct p; simpl; try done;
  destruct n; simpl; try done; destruct r; simpl; try done; destruct w; simpl; try done; destruct u; simpl; try done.
Section tree.
Context `{MinixHeaders}.

Definition slot_ok (ex : bool) (i : Z) (l : life) : Prop :=
  flags_ok ex l = true /\ 0 < l_pid l /\ _ENDPOINT_P (l_ep l) = i /\
  (l_ep l = VFS_PROC_NR -> l_priv l = true) /\ (i = 0 -> l_waiting l = false) /\
  (l_tzombie l = true -> l_tracer l <> 0).
(** Slot [q] may be the father or the tracer of others. *)
Definition head_ok (q : life) : Prop := l_used q = true /\ (l_exiting q = true -> l_vfs q = true).
(** No one waits for a zombie: whoever could have been told was told. *)
Definition no_wait (L : list life) (z : bool) (j : Z) (c : life) : Prop :=
  z = true -> forall q, aget L j = Some q -> l_exiting q = false -> wait_match q c = false.

Record tree (ex : option Z) (L : list life) (n : Z) : Prop := {
  tr_len : Z.of_nat (length L) = NR_PROCS;
  tr_count : n = Z.of_nat (length (filter (fun l => l_used l = true) L));
  tr_free i l : aget L i = Some l -> l_used l = false ->
    l_exiting l = false /\ l_vfs l = false /\ l_pend l = false /\ l_waiting l = false /\ l_zombie l = false /\ l_told l = false;
  tr_slot i l : aget L i = Some l -> l_used l = true -> slot_ok (bool_decide (ex = Some i)) i l;
  tr_parent i l : aget L i = Some l -> l_used l = true ->
    0 < l_parent l /\ exists q, aget L (l_parent l) = Some q /\ head_ok q;
  tr_tracer i l : aget L i = Some l -> l_used l = true -> l_tracer l <> 0 ->
    exists q, aget L (l_tracer l) = Some q /\ head_ok q;
  tr_wait i l : aget L i = Some l -> l_used l = true -> ex <> Some i -> no_wait L (l_zombie l) (l_parent l) l;
  tr_twait i l : aget L i = Some l -> l_used l = true -> no_wait L (l_tzombie l) (l_tracer l) l;
  tr_pids i j l k : aget L i = Some l -> aget L j = Some k -> l_used l = true -> l_used k = true ->
    l_pid l = l_pid k -> i = j;
  tr_init : exists l, aget L INIT_PROC_NR = Some l /\ l_used l = true /\ l_exiting l = false /\
    l_ep l = INIT_PROC_NR;
  tr_pm : exists l, aget L 0 = Some l /\ l_used l = true /\ l_exiting l = false /\ l_priv l = true /\
    l_ep l = PM_PROC_NR;
}.

(** How a table may change while a call runs: no slot is filled, the numbers of a process
    stay, its father changes to init only and its tracer to nobody, ends and calls of VFS
    are not taken back, and only a process that has ended and been answered is freed; a
    process that was not stopped is stopped only with a call of VFS, init excepted, and VFS
    itself gets no call.  A
    process that newly ended leaves no children and no one it traces; [x] excepts one. *)
Definition ev1 (l l' : life) : Prop :=
  (l_used l' = true -> l_used l = true /\ l_pid l' = l_pid l /\ l_ep l' = l_ep l /\ l_grp l' = l_grp l /\
     l_priv l' = l_priv l /\ (l_parent l' = l_parent l \/ l_parent l' = INIT_PROC_NR) /\
     (l_tracer l' = l_tracer l \/ l_tracer l' = 0) /\ (l_exiting l = true -> l_exiting l' = true)) /\
  (l_vfs l = true -> l_vfs l' = true) /\
  (l_used l = true -> l_used l' = false -> l_exiting l = true /\ l_vfs l = false) /\
  (l_used l' = true -> l_exiting l' = true -> l_exiting l = false -> l_vfs l' = true) /\
  (l_used l' = true -> l_pend l' = true -> l_vfs l' = false -> l_pend l = true /\ l_vfs l = false) /\
  (l_used l' = true -> l_unpaused l' = true -> l_vfs l' = false ->
     l_unpaused l = true \/ l_pend l = true \/ l_ep l = INIT_PROC_NR) /\
  (l_used l' = true -> l_exiting l = true -> l_vfs l' = true -> l_vfs l = true) /\
  (l_used l' = true -> l_exiting l' = false -> l_pend l = true -> l_pend l' = true) /\
  (l_used l' = true -> l_ep l = VFS_PROC_NR -> l_vfs l' = true -> l_vfs l = true).
Definition no_dep (L : list life) (k : Z) : Prop :=
  forall j l, aget L j = Some l -> l_used l = true -> l_parent l <> k /\ (k <> 0 -> l_tracer l <> k).
Definition evolves (x : option Z) (L L' : list life) : Prop :=
  length L' = length L /\
  (forall i l l', aget L i = Some l -> aget L' i = Some l' -> ev1 l l') /\
  (forall k l l', x <> Some k -> aget L k = Some l -> aget L' k = Some l' ->
     l_used l' = true -> l_exiting l' = true -> l_exiting l = false -> no_dep L' k).

Lemma ev1_refl l : ev1 l l.
Proof. unfold ev1. split_and!; [intros; split_and!; auto|done|congruence|congruence|done|auto..]. Qed.
Lemma evolves_refl x L : evolves x L L.
Proof.
  split_and!; [done| |].
  - intros i l l' Hl Hl'. simplify_eq. apply ev1_refl.
  - intros k l l' _ Hl Hl'. simplify_eq. congruence.
Qed.
Lemma ev1_trans l l' l'' : ev1 l l' -> ev1 l' l'' -> ev1 l l''.
Proof.
  intros (Hu & Hv & Hf & Hn & Hp & Hup & Hx & Hk & Hm) (Hu' & Hv' & Hf' & Hn' & Hp' & Hup' & Hx' & Hk' & Hm'). unfold ev1. split_and!.
  - intros Hx2. destruct (Hu' Hx2) as (Hx1 & ? & ? & ? & ? & Hpa' & Htr' & He'), (Hu Hx1) as (Hx0 & ? & ? & ? & ? & Hpa & Htr & He).
    split_and!; [done|congruence..| | |auto].
    + destruct Hpa' as [->| ->]; auto.
    + destruct Htr' as [->| ->]; auto.
  - auto.
  - intros Hx0 Hx2. destruct (l_used l') eqn:E1; [|by apply Hf].
    destruct (Hf' eq_refl Hx2) as [He Hv1]. destruct (l_exiting l) eqn:Ee.
    + split; [done|]. destruct (l_vfs l); [by rewrite Hv in Hv1|done].
    + rewrite Hn in Hv1 by done. done.
  - intros Hx2 He2 He. destruct (Hu' Hx2) as (Hx1 & _). destruct (l_exiting l') eqn:Ee'; auto.
  - intros Hx2 Hp2 Hv2. destruct (Hp' Hx2 Hp2 Hv2) as [? ?]. apply Hp; [by apply Hu'|done..].
  - intros Hx2 Hup2 Hv2. destruct (Hu' Hx2) as (Hx1 & _ & He1 & _).
    assert (l_vfs l' = false) as Hv1 by (destruct (l_vfs l'); [by rewrite Hv' in Hv2|done]).
    destruct (Hup' Hx2 Hup2 Hv2) as [H1|[H1|H1]]; [by apply Hup| |].
    + right; left. by apply Hp.
    + right; right. destruct (Hu Hx1) as (_ & _ & He0 & _). congruence.
  - intros Hx2 He Hv2. destruct (Hu' Hx2) as (Hx1 & _). destruct (Hu Hx1) as (_ & _ & _ & _ & _ & _ & _ & He').
    apply Hx; [done|done|]. apply Hx'; [done|by apply He'|done].
  - intros Hx2 He Hpe. destruct (Hu' Hx2) as (Hx1 & _ & _ & _ & _ & _ & _ & He').
    apply Hk'; [done|done|]. apply Hk; [done| |done]. destruct (l_exiting l'); [|done]. by rewrite He' in He.
  - intros Hx2 Hep Hv2. destruct (Hu' Hx2) as (Hx1 & _). destruct (Hu Hx1) as (_ & _ & He1 & _).
    apply Hm; [done|done|]. apply Hm'; [done|congruence|done].
Qed.
Lemma evolves_len x L L' i l : evolves x L L' -> aget L' i = Some l -> exists l0, aget L i = Some l0.
Proof. intros [Hlen _] Hl. apply aget_is_Some. apply aget_range in Hl. lia. Qed.
Lemma evolves_len' x L L' i l : evolves x L L' -> aget L i = Some l -> exists l', aget L' i = Some l'.
Proof. intros [Hlen _] Hl. apply aget_is_Some. apply aget_range in Hl. lia. Qed.
Lemma no_dep_ev x L L' k :
  evolves x L L' -> k <> INIT_PROC_NR -> no_dep L k -> no_dep L' k.
Proof.
  intros He Hk Hd j l' Hl' Hu. destruct (evolves_len _ _ _ _ _ He Hl') as [l Hl].
  destruct He as (_ & He & _).
  destruct (He j l l' Hl Hl') as [Hev _]. destruct (Hev Hu) as (Hu0 & _ & _ & _ & _ & Hpa & Htr & _).
  destruct (Hd j l Hl Hu0) as [Hd1 Hd2]. split; [destruct Hpa; congruence|].
  intros Hk0. destruct Htr as [Ht|Ht]; [rewrite Ht; by apply Hd2|congruence].
Qed.
Lemma evolves_mono L L' x : evolves None L L' -> evolves x L L'.
Proof. intros (? & ? & Hn). split_and!; [done..|]. intros k l l' _. by apply Hn. Qed.
Lemma evolves_trans x L L' L'' :
  (forall l, aget L'' INIT_PROC_NR = Some l -> l_exiting l = false) ->
  evolves x L L' -> evolves x L' L'' -> evolves x L L''.
Proof.
  intros Hi H1 H2. split_and!.
  - destruct H1 as [-> _] || (destruct H1, H2; congruence).
  - intros i l l'' Hl Hl''. destruct (evolves_len _ _ _ _ _ H2 Hl'') as [l' Hl'].
    destruct H1 as (_ & H1 & _), H2 as (_ & H2 & _). eapply ev1_trans; [by eapply H1|by eapply H2].
  - intros k l l'' Hx Hl Hl'' Hu He'' He. destruct (evolves_len _ _ _ _ _ H2 Hl'') as [l' Hl'].
    destruct (l_exiting l') eqn:He'.
    + eapply no_dep_ev; [exact H2|intros ->; by rewrite (Hi _ Hl'') in He''|].
      destruct H1 as (_ & _ & H1), H2 as (_ & H2 & _). eapply H1; [done..| |done|done]. by eapply H2.
    + destruct H2 as (_ & _ & H2). by eapply H2.
Qed.
(** Once the excepted process has no children left, it needs no exception. *)
Lemma evolves_close k L L' : evolves (Some k) L L' -> no_dep L' k -> evolves None L L'.
Proof.
  intros (Hlen & He & Hn) Hd. split_and!; [done..|]. intros j l l' _ Hl Hl' Hu Hx Hx0.
  destruct (decide (j = k)) as [->|Hne]; [done|]. eapply Hn; [congruence|done..].
Qed.

Lemma live_le x L L' : evolves x L L' -> (live L' <= live L)%nat.
Proof.
  intros (Hlen & He & _). assert (forall n l l', L !! n = Some l -> L' !! n = Some l' -> ev1 l l') as H0.
  { intros n l l'. rewrite <-!aget_nat. by apply He. }
  clear He. unfold live. revert L' Hlen H0. induction L as [|l L IH]; intros [|l' L'] Hlen H0; try done.
  injection Hlen as Hlen. specialize (IH L' Hlen (fun n => H0 (S n))).
  destruct (H0 0%nat l l' eq_refl eq_refl) as [Hu _]. rewrite !filter_cons.
  destruct (decide (alive l' = true)) as [Ha'|]; [|by destruct (decide (alive l = true)); simpl; lia].
  rewrite decide_True; [simpl; lia|]. unfold alive in *. apply andb_true_iff in Ha' as [Hu' He'].
  destruct (Hu Hu') as (-> & _ & _ & _ & _ & _ & _ & Hx). destruct (l_exiting l); [by rewrite Hx in He'|done].
Qed.
Lemma filter_aupd {A} (P : A -> bool) (L : list A) i f l :
  aget L i = Some l ->
  Z.of_nat (length (filter (fun x => P x = true) (aupd i f L))) =
    Z.of_nat (length (filter (fun x => P x = true) L)) - (if P l then 1 else 0) + (if P (f l) then 1 else 0).
Proof.
  intros [Hi Hl]%aget_Some. unfold aupd. rewrite bool_decide_true by done. clear Hi.
  revert L Hl. generalize (Z.to_nat i) as n. intros n. induction n as [|n IH]; intros [|x L] Hl; try done.
  - injection Hl as ->. change (alter f 0%nat (l :: L)) with (f l :: L). rewrite !filter_cons.
    destruct (P l) eqn:E1, (P (f l)) eqn:E2; repeat case_decide; try congruence; cbn [length]; cbv iota; lia.
  - change (alter f (S n) (x :: L)) with (x :: alter f n L). rewrite !filter_cons. specialize (IH L Hl).
    case_decide; cbn [length]; lia.
Qed.

(** ** Changes of one slot *)
Lemma aget_upd_cases {A} (L : list A) i g l j y :
  aget L i = Some l -> aget (aupd i g L) j = Some y -> (j = i /\ y = g l) \/ (j <> i /\ aget L j = Some y).
Proof.
  intros Hl. rewrite aget_aupd. case_decide as Hd; [|by right].
  subst j. rewrite Hl. intros [= <-]. by left.
Qed.
Lemma aget_upd_head (L : list life) i g l k q :
  aget L i = Some l -> (head_ok l -> head_ok (g l)) \/ k <> i -> aget L k = Some q -> head_ok q ->
  exists q', aget (aupd i g L) k = Some q' /\ head_ok q'.
Proof.
  intros Hl Hh Hq Hok. rewrite aget_aupd. case_decide as Hd; [|by exists q].
  subst k. rewrite Hl. simplify_eq. destruct Hh as [Hh|?]; [|done].
  eexists. split; [done|by apply Hh].
Qed.

Record small_change (ex ex' : option Z) (L : list life) (i : Z) (l l' : life) : Prop := {
  sc_used : l_used l' = true;
  sc_pid : l_pid l' = l_pid l;
  sc_slot : slot_ok (bool_decide (ex' = Some i)) i l';
  sc_init : i = INIT_PROC_NR -> l_exiting l' = false /\ l_ep l' = INIT_PROC_NR;
  sc_pm : i = 0 -> l_exiting l' = false /\ l_priv l' = true /\ l_ep l' = PM_PROC_NR;
  sc_parent : 0 < l_parent l' /\ exists q, aget L (l_parent l') = Some q /\ head_ok q;
  sc_tracer : l_tracer l' <> 0 -> exists q, aget L (l_tracer l') = Some q /\ head_ok q;
  sc_head : (head_ok l -> head_ok l') \/
            (no_dep L i /\ l_parent l' <> i /\ (l_tracer l' <> 0 -> l_tracer l' <> i));
  sc_match c : l_exiting l' = false -> wait_match l' c = true -> l_exiting l = false /\ wait_match l c = true;
  sc_wait : ex' <> Some i -> no_wait L (l_zombie l') (l_parent l') l';
  sc_twait : no_wait L (l_tzombie l') (l_tracer l') l';
  sc_ex j : j <> i -> ex = Some j -> ex' = Some j;
}.
Lemma no_wait_upd (L : list life) i g l z j c :
  aget L i = Some l -> (forall c, l_exiting (g l) = false -> wait_match (g l) c = true ->
    l_exiting l = false /\ wait_match l c = true) ->
  no_wait L z j c -> no_wait (aupd i g L) z j c.
Proof.
  intros Hl Hm Hn Hz q Hq He. destruct (aget_upd_cases _ _ _ _ _ _ Hl Hq) as [[-> ->]|[Hne Hq']]; [|by eapply Hn].
  destruct (wait_match (g l) c) eqn:E; [|done]. destruct (Hm c He E) as [He' Hm']. by rewrite (Hn Hz l Hl He') in Hm'.
Qed.
Lemma tree_upd ex ex' L n i g l :
  tree ex L n -> aget L i = Some l -> l_used l = true -> small_change ex ex' L i l (g l) ->
  tree ex' (aupd i g L) n.
Proof.
  intros T Hl Hu S. pose proof (no_wait_upd L i g l) as Hnw.
  pose proof (aget_upd_head L i g l) as Hhead.
  split.
  - rewrite length_aupd. apply T.
  - pose proof (filter_aupd l_used L i g l Hl) as Hf. rewrite Hu, (sc_used _ _ _ _ _ _ S) in Hf.
    pose proof (tr_count _ _ _ T). lia.
  - intros j y Hy Hfree. destruct (aget_upd_cases _ _ _ _ _ _ Hl Hy) as [[-> ->]|[Hne Hy']].
    + by rewrite (sc_used _ _ _ _ _ _ S) in Hfree.
    + by eapply tr_free.
  - intros j y Hy Huy. destruct (aget_upd_cases _ _ _ _ _ _ Hl Hy) as [[-> ->]|[Hne Hy']]; [apply S|].
    pose proof (tr_slot _ _ _ T _ _ Hy' Huy) as (Hf & Hrest). split; [|exact Hrest].
    revert Hf. do 2 case_bool_decide; try done.
    + by rewrite (sc_ex _ _ _ _ _ _ S j Hne) in * by done.
    + unfold flags_ok. destruct (l_zombie y), (l_tzombie y), (l_told y), (l_exiting y), (l_vfs y), (l_waiting y),
        (l_pend y), (l_unpaused y), (l_priv y); done.
  - intros j y Hy Huy. destruct (aget_upd_cases _ _ _ _ _ _ Hl Hy) as [[-> ->]|[Hne Hy']].
    + destruct (sc_parent _ _ _ _ _ _ S) as (Hp & q & Hq & Hok). split; [done|]. eapply Hhead; [done| |done..].
      destruct (sc_head _ _ _ _ _ _ S) as [Hh|(_ & Hd & _)]; auto.
    + destruct (tr_parent _ _ _ T _ _ Hy' Huy) as (Hp & q & Hq & Hok). split; [done|]. eapply Hhead; [done| |done..].
      destruct (sc_head _ _ _ _ _ _ S) as [Hh|(Hd & _ & _)]; [auto|right]. by apply (Hd j y).
  - intros j y Hy Huy Ht. destruct (aget_upd_cases _ _ _ _ _ _ Hl Hy) as [[-> ->]|[Hne Hy']].
    + destruct (sc_tracer _ _ _ _ _ _ S Ht) as (q & Hq & Hok). eapply Hhead; [done| |done..].
      destruct (sc_head _ _ _ _ _ _ S) as [Hh|(_ & _ & Hd)]; auto.
    + destruct (tr_tracer _ _ _ T _ _ Hy' Huy Ht) as (q & Hq & Hok). eapply Hhead; [done| |done..].
      destruct (sc_head _ _ _ _ _ _ S) as [Hh|(Hd & _ & _)]; [auto|right]. intros Heq.
      destruct (Hd j y Hy' Huy) as [_ Hd2]. apply Hd2; [congruence|done].
  - intros j y Hy Huy Hex. apply Hnw; [done|apply S|].
    destruct (aget_upd_cases _ _ _ _ _ _ Hl Hy) as [[-> ->]|[Hne Hy']]; [by apply S|].
    eapply tr_wait; [done..|]. intros He. apply Hex. by eapply (sc_ex _ _ _ _ _ _ S).
  - intros j y Hy Huy. apply Hnw; [done|apply S|].
    destruct (aget_upd_cases _ _ _ _ _ _ Hl Hy) as [[-> ->]|[Hne Hy']]; [by apply S|]. by eapply tr_twait.
  - intros j k y z Hy Hz Huy Huz Hpid.
    destruct (aget_upd_cases _ _ _ _ _ _ Hl Hy) as [[-> ->]|[Hne Hy']],
      (aget_upd_cases _ _ _ _ _ _ Hl Hz) as [[-> ->]|[Hne' Hz']]; [done| | |];
      rewrite ?(sc_pid _ _ _ _ _ _ S) in Hpid; by eapply tr_pids.
  - destruct (tr_init _ _ _ T) as (l0 & Hl0 & Hu0 & He0 & Hep0). rewrite aget_aupd. case_decide as Hd.
    + subst i. rewrite Hl. exists (g l). destruct (sc_init _ _ _ _ _ _ S eq_refl). split_and!; [done|apply S|done..].
    + by exists l0.
  - destruct (tr_pm _ _ _ T) as (l0 & Hl0 & Hx0). rewrite aget_aupd. case_decide as Hd; [|by exists l0].
    subst i. rewrite Hl. exists (g l). destruct (sc_pm _ _ _ _ _ _ S eq_refl) as (? & ? & ?).
    split_and!; [done|apply S|done..].
Qed.

Lemma evolves_upd x L i g l :
  aget L i = Some l -> ev1 l (g l) -> (l_exiting (g l) = true -> l_exiting l = true \/ x = Some i) ->
  evolves x L (aupd i g L).
Proof.
  intros Hl Hev Hx. split_and!; [apply length_aupd| |].
  - intros j y y' Hy Hy'. destruct (aget_upd_cases _ _ _ _ _ _ Hl Hy') as [[-> ->]|[Hne Hy'']]; simplify_eq;
      [done|apply ev1_refl].
  - intros j y y' Hj Hy Hy' Hu He' He. destruct (aget_upd_cases _ _ _ _ _ _ Hl Hy') as [[-> ->]|[Hne Hy'']]; simplify_eq.
    + destruct (Hx He'); congruence.
    + congruence.
Qed.

(** A change of a slot that neither ends nor is freed by it. *)
Record mild (l l' : life) : Prop := {
  mi_flags : (l_used l', l_exiting l', l_zombie l', l_tzombie l', l_told l', l_priv l') =
             (l_used l, l_exiting l, l_zombie l, l_tzombie l, l_told l, l_priv l);
  mi_nums : (l_pid l', l_ep l', l_parent l', l_tracer l') = (l_pid l, l_ep l, l_parent l, l_tracer l);
  mi_grp : l_exiting l = true -> l_grp l' = l_grp l;
  mi_vfs : l_vfs l = true -> l_vfs l' = true;
  mi_wait : l_waiting l' = true -> l_waiting l = true /\ l_wpid l' = l_wpid l;
}.
Lemma mild_small ex L n i l l' :
  tree ex L n -> aget L i = Some l -> l_used l = true -> mild l l' ->
  flags_ok (bool_decide (ex = Some i)) l' = true -> small_change ex ex L i l l'.
Proof.
  intros T Hl Hu [Hf Hn Hg Hv Hw] Hok. injection Hf as E1 E2 E3 E4 E5 E6. injection Hn as F1 F2 F4 F5.
  destruct (tr_slot _ _ _ T _ _ Hl Hu) as (Hok0 & Hpid & Hep & Hvfs & Hw0 & Htz).
  assert (forall c, wait_match l' c = true -> wait_match l c = true) as Hm.
  { unfold wait_match. intros c [Hwx Hx]%andb_true_iff. destruct (Hw Hwx) as [-> <-]. by rewrite Hx. }
  assert (forall q, (l_zombie l || l_tzombie l = true) -> wait_match q l = wait_match q l') as Hgrp.
  { intros q Hz. unfold wait_match. rewrite F1, Hg; [done|]. revert Hz Hok0. unfold flags_ok.
    by destruct (l_zombie l), (l_tzombie l), (l_told l), (l_exiting l). }
  split; rewrite ?E1, ?E3, ?E4, ?F1, ?F4, ?F5; try done.
  - unfold slot_ok. rewrite E4, E6, F1, F2, F5. split_and!; try done.
    + intros Hi. destruct (l_waiting l') eqn:E; [|done]. destruct (Hw eq_refl) as [Hx _]. by rewrite Hw0 in Hx.
  - intros ->. rewrite E2, F2. destruct (tr_init _ _ _ T) as (q & Hq & _ & ? & ?). by simplify_eq.
  - intros ->. rewrite E2, E6, F2. destruct (tr_pm _ _ _ T) as (q & Hq & _ & ? & ? & ?). by simplify_eq.
  - by eapply tr_parent.
  - by eapply tr_tracer.
  - left. unfold head_ok. rewrite E1, E2. intros [? Hx]. split; [done|]. auto.
  - rewrite E2. auto.
  - intros Hex Hz q Hq He. rewrite <-Hgrp by (by rewrite Hz). by eapply tr_wait.
  - intros Hz q Hq He. rewrite <-Hgrp by (by rewrite Hz, orb_true_r). by eapply tr_twait.
Qed.
Lemma tree_mild ex L n i l l' :
  tree ex L n -> aget L i = Some l -> l_used l = true -> mild l l' ->
  flags_ok (bool_decide (ex = Some i)) l' = true -> tree ex (aupd i (fun _ => l') L) n.
Proof. intros T Hl Hu Hm Hok. eapply tree_upd; [done..|]. by eapply mild_small. Qed.
(** [l'] ends no process, has no new calls of PM pending without VFS, and stops no one. *)
Lemma evolves_mild x L i l l' :
  aget L i = Some l -> mild l l' -> l_grp l' = l_grp l -> (l_vfs l' = l_vfs l \/ (l_exiting l = false /\ l_ep l <> VFS_PROC_NR)) ->
  (l_pend l = true -> l_pend l' = true) ->
  (l_pend l' = true -> l_vfs l' = true \/ (l_pend l = true /\ l_vfs l = false)) ->
  (l_unpaused l' = true -> l_vfs l' = false -> l_unpaused l = true \/ l_pend l = true \/ l_ep l = INIT_PROC_NR) ->
  evolves x L (aupd i (fun _ => l') L).
Proof.
  intros Hl [Hf Hn Hg Hv Hw] Hgrp Hx Hk Hp Hup. injection Hf as E1 E2 E3 E4 E5 E6. injection Hn as F1 F2 F4 F5.
  apply (evolves_upd _ _ _ _ l); [done| |rewrite E2; auto].
  unfold ev1. rewrite E1, E2, E6, F1, F2, F4, F5. split_and!; [intros; by auto 10|done|congruence|congruence| |auto| |auto|].
  - intros _ Hp' Hv'. destruct (Hp Hp'); [congruence|done].
  - intros _ He Hv'. destruct Hx as [Hx|[Hx _]]; congruence.
  - intros _ He Hv'. destruct Hx as [Hx|[_ Hx]]; congruence.
Qed.

Lemma tree_flags ex L n i l : tree ex L n -> aget L i = Some l -> l_used l = true ->
  flags_ok (bool_decide (ex = Some i)) l = true.
Proof. intros T Hl Hu. by destruct (tr_slot _ _ _ T _ _ Hl Hu). Qed.
(** A waiting process is told. *)
Lemma tree_wake ex L n i l :
  tree ex L n -> aget L i = Some l -> l_used l = true ->
  tree ex (aupd i (fun _ => l <| l_waiting := false |>) L) n /\
  forall x, evolves x L (aupd i (fun _ => l <| l_waiting := false |>) L).
Proof.
  intros T Hl Hu. assert (mild l (l <| l_waiting := false |>)) as Hm by (by split).
  pose proof (tree_flags _ _ _ _ _ T Hl Hu) as Hf. split.
  - eapply tree_mild; [done..|]. revert Hf. generalize (bool_decide (ex = Some i)) as b. by intros []; flag_cases l.
  - intros x. eapply evolves_mild; [done..|by left|done| |]; simpl; [|auto].
    revert Hf Hu. generalize (bool_decide (ex = Some i)) as b. intros [] Hf Hu Hp; simpl in *; auto;
    revert Hf Hu Hp; flag_cases l; auto.
Qed.

(** Changes that move a process on its way out; the exception is the process itself. *)
Record ending (ex' : option Z) L (i : Z) (l l' : life) : Prop := {
  en_flags : (l_used l', l_exiting l', l_vfs l', l_waiting l', l_pend l', l_unpaused l', l_priv l') =
             (l_used l, l_exiting l, l_vfs l, l_waiting l, l_pend l, l_unpaused l, l_priv l);
  en_nums : (l_pid l', l_ep l', l_grp l', l_wpid l') = (l_pid l, l_ep l, l_grp l, l_wpid l);
  en_parent : l_parent l' = l_parent l \/ l_parent l' = INIT_PROC_NR;
  en_tracer : l_tracer l' = l_tracer l \/ l_tracer l' = 0;
  en_tz : l_tzombie l' = true -> l_tracer l' <> 0;
  en_ok : flags_ok (bool_decide (ex' = Some i)) l' = true;
  en_wait : ex' <> Some i -> no_wait L (l_zombie l') (l_parent l') l';
  en_twait : no_wait L (l_tzombie l') (l_tracer l') l';
}.
Lemma tree_ending ex ex' L n i l l' :
  0 < INIT_PROC_NR -> tree ex L n -> (forall j, j <> i -> ex = Some j -> ex' = Some j) -> aget L i = Some l -> l_used l = true -> ending ex' L i l l' ->
  tree ex' (aupd i (fun _ => l') L) n.
Proof.
  intros Hpos T Hex Hl Hu [Hf Hn Hpa Htr Htz Hok Hw Htw]. eapply tree_upd; [done..|].
  injection Hf as E1 E2 E3 E4 E5 E6 E7. injection Hn as F1 F2 F3 F4.
  destruct (tr_slot _ _ _ T _ _ Hl Hu) as (_ & Hpid & Hep & Hvfs & Hw0 & _).
  split; rewrite ?E1, ?F1; try done.
  - unfold slot_ok. rewrite E4, E7, F1, F2. by split_and!.
  - intros ->. rewrite E2, F2. destruct (tr_init _ _ _ T) as (q & Hq & _ & ? & ?). by simplify_eq.
  - intros ->. rewrite E2, E7, F2. destruct (tr_pm _ _ _ T) as (q & Hq & _ & ? & ? & ?). by simplify_eq.
  - destruct Hpa as [->| ->]; [by eapply tr_parent|]. split; [done|].
    destruct (tr_init _ _ _ T) as (q & Hq & Hqu & Hqe & _). exists q. split; [done|]. split; [done|congruence].
  - intros Ht. destruct Htr as [Htr|Htr]; [|done]. rewrite Htr in *. by eapply tr_tracer.
  - left. unfold head_ok. by rewrite E1, E2, E3.
  - unfold wait_match. rewrite E2, E4, F4. auto.
Qed.
Lemma evolves_ending x ex' L i l l' :
  aget L i = Some l -> ending ex' L i l l' -> evolves x L (aupd i (fun _ => l') L).
Proof.
  intros Hl [Hf Hn Hpa Htr Htz Hok Hw Htw]. injection Hf as E1 E2 E3 E4 E5 E6 E7. injection Hn as F1 F2 F3 F4.
  apply (evolves_upd _ _ _ _ l); [done| |rewrite E2; auto].
  unfold ev1. rewrite E1, E2, E3, E5, E6, E7, F1, F2, F3. split_and!; [intros; by auto 10|done|congruence|congruence|auto..].
Qed.

Lemma tree_trans x y L L' L'' n :
  tree y L'' n -> evolves x L L' -> evolves x L' L'' -> evolves x L L''.
Proof.
  intros T. apply evolves_trans. intros l Hl. destruct (tr_init _ _ _ T) as (q & Hq & _ & He & _). by simplify_eq.
Qed.
(** *** A process ends *)
Definition l_exit (l : life) : life :=
  mk_life (l_used l) true true false false false false false false (l_priv l) (l_pid l) (l_ep l) (l_grp l) (l_wpid l)
    (l_parent l) (l_tracer l).
Lemma tree_exit L n i l :
  tree None L n -> aget L i = Some l -> l_used l = true -> i <> INIT_PROC_NR -> i <> 0 ->
  tree None (aupd i (fun _ => l_exit l) L) n.
Proof.
  intros T Hl Hu Hi Hi0. destruct (tr_slot _ _ _ T _ _ Hl Hu) as (_ & Hpid & Hep & Hvfs & _).
  eapply (tree_upd None); [done..|]. split; try done.
  - exact (tr_parent _ _ _ T _ _ Hl Hu).
  - exact (tr_tracer _ _ _ T _ _ Hl Hu).
  - left. intros [? _]. by split.
Qed.
Lemma evolves_exit L i l :
  aget L i = Some l -> l_exiting l = false -> l_ep l <> VFS_PROC_NR -> evolves (Some i) L (aupd i (fun _ => l_exit l) L).
Proof.
  intros Hl He Hep. apply (evolves_upd _ _ _ _ l); [done| |by right].
  unfold ev1. simpl. split_and!; first [by auto 10|congruence].
Qed.
Lemma live_exit L i l : aget L i = Some l -> alive l = true -> (S (live (aupd i (fun _ => l_exit l) L)) = live L)%nat.
Proof.
  intros Hl Ha. pose proof (filter_aupd alive L i (fun _ => l_exit l) l Hl) as Hf. rewrite Ha in Hf.
  assert (alive (l_exit l) = false) as Hx by (unfold alive; simpl; by destruct (l_used l)). rewrite Hx in Hf.
  unfold live. pose proof (Nat2Z.is_nonneg (length (filter (fun x => alive x = true) (aupd i (fun _ => l_exit l) L)))). lia.
Qed.
(** A free slot keeps the numbers of its last process; they do not matter. *)
Lemma tree_free_parent L n i l k :
  tree None L n -> aget L i = Some l -> l_used l = false -> tree None (aupd i (fun _ => l <| l_parent := k |>) L) n.
Proof.
  intros T Hl Hu. set (l' := l <| l_parent := k |>).
  assert (forall j y, aget (aupd i (fun _ => l') L) j = Some y -> l_used y = true -> j <> i /\ aget L j = Some y) as Hold.
  { intros j y Hy Huy. destruct (aget_upd_cases _ _ _ _ _ _ Hl Hy) as [[-> ->]|]; [|done].
    change (l_used l') with (l_used l) in Huy. congruence. }
  assert (forall k q, aget L k = Some q -> head_ok q -> exists q', aget (aupd i (fun _ => l') L) k = Some q' /\ head_ok q') as Hhead.
  { intros j q Hq Hok. exists q. rewrite aget_aupd_ne; [done|]. intros ->. destruct Hok. congruence. }
  assert (forall z k c, no_wait L z k c -> no_wait (aupd i (fun _ => l') L) z k c) as Hnw.
  { intros z j c. apply (no_wait_upd _ _ _ l); [done|]. intros c'. unfold wait_match. by simpl. }
  split.
  - rewrite length_aupd. apply T.
  - pose proof (filter_aupd l_used L i (fun _ => l') l Hl) as Hf. cbv beta in Hf. change (l_used l') with (l_used l) in Hf.
    rewrite Hu in Hf. pose proof (tr_count _ _ _ T). lia.
  - intros j y Hy Hfree. destruct (aget_upd_cases _ _ _ _ _ _ Hl Hy) as [[-> ->]|[_ ?]]; [|by eapply tr_free].
    by eapply (tr_free _ _ _ T _ l).
  - intros j y Hy Huy. destruct (Hold j y Hy Huy). by eapply tr_slot.
  - intros j y Hy Huy. destruct (Hold j y Hy Huy) as [_ Hy'].
    destruct (tr_parent _ _ _ T _ _ Hy' Huy) as (Hp & q & Hq & Hok). split; [done|]. by eapply Hhead.
  - intros j y Hy Huy Ht. destruct (Hold j y Hy Huy) as [_ Hy'].
    destruct (tr_tracer _ _ _ T _ _ Hy' Huy Ht) as (q & Hq & Hok). by eapply Hhead.
  - intros j y Hy Huy _. destruct (Hold j y Hy Huy). apply Hnw. by eapply tr_wait.
  - intros j y Hy Huy. destruct (Hold j y Hy Huy). apply Hnw. by eapply tr_twait.
  - intros j m y z Hy Hz Huy Huz Hpid. destruct (Hold j y Hy Huy), (Hold m z Hz Huz). by eapply tr_pids.
  - destruct (tr_init _ _ _ T) as (l0 & Hl0 & Hu0 & ?). rewrite aget_aupd_ne; [by exists l0|]. intros ->. congruence.
  - destruct (tr_pm _ _ _ T) as (l0 & Hl0 & Hu0 & ?). rewrite aget_aupd_ne; [by exists l0|]. intros ->. congruence.
Qed.
Lemma evolves_free_parent x L i l k :
  aget L i = Some l -> l_used l = false -> evolves x L (aupd i (fun _ => l <| l_parent := k |>) L).
Proof.
  intros Hl Hu. apply (evolves_upd _ _ _ _ l); [done| |by left].
  unfold ev1. simpl. rewrite Hu. by split_and!.
Qed.
(** *** A slot is freed *)
Definition l_clear (l : life) : life :=
  mk_life false false false false false false false false false false 0 (l_ep l) (l_grp l) (l_wpid l)
    (l_parent l) (l_tracer l).
Lemma exiting_no_dep ex L n i l :
  tree ex L n -> aget L i = Some l -> l_exiting l = true -> l_vfs l = false -> no_dep L i.
Proof.
  intros T Hl He Hv j y Hy Hu. split.
  - intros Heq. destruct (tr_parent _ _ _ T _ _ Hy Hu) as (_ & q & Hq & _ & Hok). rewrite Heq in Hq.
    simplify_eq. by rewrite Hok in Hv.
  - intros Hi Heq. destruct (tr_tracer _ _ _ T _ _ Hy Hu) as (q & Hq & _ & Hok); [congruence|].
    rewrite Heq in Hq. simplify_eq. by rewrite Hok in Hv.
Qed.
Lemma tree_clear ex L n i l :
  tree ex L n -> aget L i = Some l -> l_used l = true -> l_exiting l = true -> l_vfs l = false ->
  (forall j, ex = Some j -> j = i) -> tree None (aupd i (fun _ => l_clear l) L) (n - 1).
Proof.
  intros T Hl Hu He Hv Hex. rewrite (aupd_ext L i _ l_clear) by (intros; congruence). pose proof (exiting_no_dep _ _ _ _ _ T Hl He Hv) as Hd.
  assert (forall j y, aget (aupd i l_clear L) j = Some y -> l_used y = true -> j <> i /\ aget L j = Some y) as Hold.
  { intros j y Hy Huy. destruct (aget_upd_cases _ _ _ _ _ _ Hl Hy) as [[-> ->]|]; [done|done]. }
  assert (forall k q, k <> i -> aget L k = Some q -> head_ok q ->
    exists q', aget (aupd i l_clear L) k = Some q' /\ head_ok q') as Hhead.
  { intros k q Hk Hq Hok. exists q. by rewrite aget_aupd_ne by done. }
  assert (forall z k c, no_wait L z k c -> no_wait (aupd i l_clear L) z k c) as Hnw.
  { intros z k c Hn Hz q Hq Heq. destruct (aget_upd_cases _ _ _ _ _ _ Hl Hq) as [[-> ->]|[_ Hq']]; [done|by eapply Hn]. }
  split.
  - rewrite length_aupd. apply T.
  - pose proof (filter_aupd l_used L i l_clear l Hl) as Hf. rewrite Hu in Hf. cbn in Hf.
    pose proof (tr_count _ _ _ T). lia.
  - intros j y Hy Hfree. destruct (aget_upd_cases _ _ _ _ _ _ Hl Hy) as [[-> ->]|[Hne Hy']]; [done|by eapply tr_free].
  - intros j y Hy Huy. destruct (Hold j y Hy Huy) as [Hne Hy'].
    pose proof (tr_slot _ _ _ T _ _ Hy' Huy) as Hs. rewrite bool_decide_false in Hs; [done|].
    intros Hj. by apply Hne, Hex.
  - intros j y Hy Huy. destruct (Hold j y Hy Huy) as [Hne Hy'].
    destruct (tr_parent _ _ _ T _ _ Hy' Huy) as (Hp & q & Hq & Hok). split; [done|].
    eapply Hhead; [|done..]. by apply (Hd j y).
  - intros j y Hy Huy Ht. destruct (Hold j y Hy Huy) as [Hne Hy'].
    destruct (tr_tracer _ _ _ T _ _ Hy' Huy Ht) as (q & Hq & Hok). eapply Hhead; [|done..].
    intros Heq. destruct (Hd j y Hy' Huy) as [_ Hd2]. apply Hd2; [congruence|done].
  - intros j y Hy Huy _. destruct (Hold j y Hy Huy) as [Hne Hy']. apply Hnw. eapply tr_wait; [done..|].
    intros Hj. by apply Hne, Hex.
  - intros j y Hy Huy. destruct (Hold j y Hy Huy) as [Hne Hy']. apply Hnw. by eapply tr_twait.
  - intros j k y z Hy Hz Huy Huz Hpid. destruct (Hold j y Hy Huy), (Hold k z Hz Huz). by eapply tr_pids.
  - destruct (tr_init _ _ _ T) as (l0 & Hl0 & Hu0 & He0 & Hep0). rewrite aget_aupd_ne; [by exists l0|].
    intros ->. congruence.
  - destruct (tr_pm _ _ _ T) as (l0 & Hl0 & Hu0 & He0 & Hep0). rewrite aget_aupd_ne; [by exists l0|].
    intros ->. congruence.
Qed.
Lemma ev1_clear l : l_exiting l = true -> l_vfs l = false -> ev1 l (l_clear l).
Proof. intros He Hv. unfold ev1. split_and!; try done. by rewrite Hv. Qed.

(** What the exception leaves out, put back. *)
Lemma tree_close L n i l :
  tree (Some i) L n -> aget L i = Some l -> l_used l = true ->
  (l_exiting l = true -> l_vfs l = false -> l_zombie l = true \/ l_tzombie l = true) ->
  no_wait L (l_zombie l) (l_parent l) l -> tree None L n.
Proof.
  intros T Hl Hu Hz Hw. split; try apply T.
  - intros j y Hy Huy. pose proof (tr_slot _ _ _ T _ _ Hy Huy) as Hs. revert Hs.
    rewrite (bool_decide_false (None = Some j)) by done. case_bool_decide as Hj; [|done]. simplify_eq.
    intros (Hf & Hrest). split; [|exact Hrest]. revert Hf Hz. unfold flags_ok.
    destruct (l_zombie l), (l_tzombie l), (l_exiting l), (l_vfs l); try done. intros _ Hz. by destruct Hz.
  - intros j y Hy Huy _. destruct (decide (j = i)) as [->|Hne]; [by simplify_eq|].
    eapply tr_wait; [done..|]. congruence.
Qed.
Lemma tree_open L n x : tree None L n -> tree x L n.
Proof.
  intros T. split; try apply T.
  - intros j y Hy Huy. destruct (tr_slot _ _ _ T _ _ Hy Huy) as (Hf & Hrest). split; [|exact Hrest].
    rewrite (bool_decide_false (None = Some j)) in Hf by done. revert Hf. unfold flags_ok.
    case_bool_decide; [|done]. intros Hf. repeat (apply andb_true_iff in Hf as [Hf ?]). by repeat (apply andb_true_iff; split).
  - intros j y Hy Huy _. by eapply tr_wait.
Qed.
End tree.
