(* ===== verification/PmInv.v ===== *)
(** The invariant of PM's state and the rules by which the handlers are executed
    symbolically: a state is known by the lives of its slots, the number of slots in use and
    what holds of each slot on its own. *)
From S2P Require Import Prelude Minix PmBase Pm PmTree.
Local Open Scope Z_scope.

(** ** What the code relies on *)
(** The numbers of [minix/com.h] and [signal.h]. *)
Class PmLaws `{MinixHeaders} `{PmHeaders} : Prop := {
  PM_slot : PM_PROC_NR = 0;
  INIT_slot : 0 < INIT_PROC_NR < NR_PROCS;
  NR_PROCS_ok : 0 < NR_PROCS /\ 2 * NR_PROCS < NR_PIDS - INIT_PID;
  CLOCK_task : - NR_TASKS <= CLOCK < 0;
  SIGKILL_range : 1 <= SIGKILL < _NSIG;
  SIGSTOP_range : 1 <= SIGSTOP < _NSIG;
  SIGCHLD_range : 1 <= SIGCHLD < _NSIG;
  SIGHUP_range : 1 <= SIGHUP < _NSIG;
  SIGALRM_range : 1 <= SIGALRM < _NSIG;
  SIGTRAP_range : 1 <= SIGTRAP < _NSIG;
  SIGINT_spares : SIGS_IS_TERMINATION SIGINT = false;
  SIGQUIT_spares : SIGS_IS_TERMINATION SIGQUIT = false;
  SIGWINCH_spares : SIGS_IS_TERMINATION SIGWINCH = false;
  system_hz_ok : 0 < system_hz < 2 ^ 32;
}.
(** The calls that PM relies on: of the kernel and VM on a process that exists, and the
    asynchronous send to VFS; of the clock, which stays in the range of a [clock_t]; and of the
    timers, which hold what PM gave them. *)
Class EnvLaws {W : Type} `{MinixHeaders} `{PmHeaders} `{PmEnv W} : Prop := {
  asynsend_vfs_ok m w : (asynsend_vfs m w).1 = OK;
  sys_times_ok ep w : (sys_times ep w).1.1 = OK;
  sys_stop_ok ep w : (sys_stop ep w).1 = OK;
  sys_delay_stop_ok ep w : (sys_delay_stop ep w).1 = OK \/ (sys_delay_stop ep w).1 = EBUSY;
  sys_resume_ok ep w : (sys_resume ep w).1 = OK;
  sys_clear_ok ep w : (sys_clear ep w).1 = OK;
  sys_sigsend_ok ep m w : (sys_sigsend ep m w).1 = OK;
  sys_trace_stop_ok ep w : (sys_trace T_STOP ep 0 0 w).1.1 = OK;
  vm_willexit_ok ep w : (vm_willexit ep w).1 = OK;
  vm_exit_ok ep w : (vm_exit ep w).1 = OK;
  vm_fork_slot ep i w e : 0 <= i < NR_PROCS -> (vm_fork ep i w).1 = (OK, e) -> _ENDPOINT_P e = i /\ e <> VFS_PROC_NR;
  sys_exec_ok ep sp name pc w : (sys_exec ep sp name pc w).1 = OK;
  sys_vtimer_ok ep num new old w : (sys_vtimer ep num new old w).1.1 = OK;
  getuptime_ok w : (getuptime w).1.1 = OK /\ 0 <= (getuptime w).1.2 < 2 ^ 31;
  tmr_exp_time_ok i w : 0 <= tmr_exp_time i w < 2 ^ 31;
  expire_timers_ok t w : Forall (fun ep => 0 <= _ENDPOINT_P ep) (expire_timers t w).1;
}.

(** ** Each slot on its own *)
Definition never_kill `{PmHeaders} (set : Z) : Prop := sigismember set SIGKILL = false.
Section local.
Context `{MinixHeaders} `{PmHeaders}.
Record local_ok (p : mproc) : Prop := {
  lo_sigact : Z.of_nat (length (mp_sigact p)) = _NSIG;
  lo_interval : Z.of_nat (length (mp_interval p)) = NR_ITIMERS;
  lo_ignore : never_kill (mp_ignore p);
  lo_catch : never_kill (mp_catch p);
  lo_sigmask : never_kill (mp_sigmask p);
  lo_sigmask2 : never_kill (mp_sigmask2 p);
  lo_masks : Forall (fun a => never_kill (sa_mask a)) (mp_sigact p);
  lo_parent : 0 <= mp_parent p < NR_PROCS;
  lo_tracer : 0 <= mp_tracer p < NR_PROCS;
  lo_grp : 0 <= mp_procgrp p;
  lo_nice : - 2 ^ 30 - 20 <= mp_nice p < 2 ^ 30 - 20;
  lo_sched : has (mp_flags p) PRIV_PROC = true -> mp_scheduler p = NONE;
}.
End local.

Section rules.
Context `{MinixHeaders} `{PmHeaders} {W : Type}.
Implicit Types (s : state W) (L : list life).

Definition lives s : list life := life_of <$> procs s.
(** What a call does not change. *)
Definition frame s s' : Prop :=
  mp s' = mp s /\ who_p s' = who_p s /\ who_e s' = who_e s /\ call_nr s' = call_nr s /\ m_in s' = m_in s.
Definition globals_ok s : Prop :=
  INIT_PID < next_pid s <= NR_PIDS /\ 0 <= next_child s < NR_PROCS /\ 0 <= next_child_srv s < NR_PROCS.
Record st s0 L (n : Z) s : Prop := {
  st_frame : frame s0 s;
  st_lives : lives s = L;
  st_count : procs_in_use s = n;
  st_local : Forall local_ok (procs s);
  st_len : Z.of_nat (length L) = NR_PROCS;
  st_caller : 0 <= mp s0 < NR_PROCS;
  st_globals : globals_ok s;
}.

Lemma frame_trans s s' s'' : frame s s' -> frame s' s'' -> frame s s''.
Proof. intros (?&?&?&?&?) (?&?&?&?&?). split_and!; congruence. Qed.
Lemma st_mp s0 L n s : st s0 L n s -> mp s = mp s0.
Proof. intros Hs. apply Hs. Qed.
Lemma st_here s0 L n s : st s0 L n s -> st s L n s.
Proof. intros Hs. split; try apply Hs; [done|]. rewrite (st_mp _ _ _ _ Hs). apply Hs. Qed.
Lemma st_trans s0 s1 L1 n1 L n s : st s0 L1 n1 s1 -> st s1 L n s -> st s0 L n s.
Proof. intros H1 H2. split; try apply H2; [|apply H1]. eapply frame_trans; [apply H1|apply H2]. Qed.
Lemma st_mp_get s0 L n s : st s0 L n s -> exists l, aget L (mp s0) = Some l.
Proof. intros Hs. apply aget_is_Some. rewrite (st_len _ _ _ _ Hs). apply Hs. Qed.

Lemma lives_get s i l : aget (lives s) i = Some l -> exists p, aget (procs s) i = Some p /\ life_of p = l.
Proof.
  intros [Hi Hl]%aget_Some. unfold lives in Hl. rewrite list_lookup_fmap in Hl.
  destruct (procs s !! Z.to_nat i) as [p|] eqn:E; [|done]. injection Hl as <-. exists p.
  split; [by apply aget_Some|done].
Qed.
Lemma st_get s0 L n s i l :
  st s0 L n s -> aget L i = Some l -> exists p, aget (procs s) i = Some p /\ life_of p = l /\ local_ok p.
Proof.
  intros Hs Hl. rewrite <-(st_lives _ _ _ _ Hs) in Hl. apply lives_get in Hl as (p & Hp & Hlp).
  exists p. split_and!; [done..|]. pose proof (st_local _ _ _ _ Hs) as HF.
  apply aget_Some in Hp as [_ Hp]. by eapply list.Forall_lookup in HF.
Qed.
Lemma st_get_inv s0 L n s i p :
  st s0 L n s -> aget (procs s) i = Some p -> aget L i = Some (life_of p) /\ local_ok p.
Proof.
  intros Hs [Hi Hp]%aget_Some. split.
  - rewrite <-(st_lives _ _ _ _ Hs). apply aget_Some. split; [done|]. unfold lives. by rewrite list_lookup_fmap, Hp.
  - pose proof (st_local _ _ _ _ Hs) as HF. by eapply list.Forall_lookup in HF.
Qed.
Lemma aupd_comm {A} (l : list A) i j f g : i <> j -> aupd i f (aupd j g l) = aupd j g (aupd i f l).
Proof.
  intros Hne. apply list_eq. intros k. rewrite <-!aget_nat, !aget_aupd.
  repeat case_decide; by subst.
Qed.

(** ** Rules *)
Lemma wp_slot s0 L n s i l (Q : mproc -> state W -> Prop) :
  st s0 L n s -> aget L i = Some l ->
  (forall p, aget (procs s) i = Some p -> life_of p = l -> local_ok p -> Q p s) -> wp (slot i) Q never s.
Proof.
  intros Hs Hl HQ. destruct (st_get _ _ _ _ _ _ Hs Hl) as (p & Hp & Hlp & Hok).
  unfold wp. rewrite (pm_slot_run _ _ _ Hp). by apply HQ.
Qed.
Lemma wp_set_slot s0 L n s i l l' f (Q : unit -> state W -> Prop) :
  st s0 L n s -> aget L i = Some l ->
  (forall p, aget (procs s) i = Some p -> life_of p = l -> local_ok p -> life_of (f p) = l' /\ local_ok (f p)) ->
  (forall s', st s0 (aupd i (fun _ => l') L) n s' -> Q tt s') -> wp (set_slot i f) Q never s.
Proof.
  intros Hs Hl Hf HQ. destruct (st_get _ _ _ _ _ _ Hs Hl) as (p & Hp & Hlp & Hok).
  unfold wp. rewrite (set_mp_slot_run _ _ _ _ Hp). apply HQ. destruct Hs as [Hfr HL Hn HF Hlen Hmp Hg]. split.
  - exact Hfr.
  - subst L. unfold lives. cbn [procs upd]. apply fmap_aupd. intros x Hx. simplify_eq. by apply Hf.
  - done.
  - cbn [procs upd]. unfold aupd. case_bool_decide; [|done]. apply list.Forall_alter; [done|].
    intros x Hx _. apply aget_Some in Hp as [_ Hp]. simplify_eq. apply Hf; [|done..].
    by apply aget_Some.
  - by rewrite length_aupd.
  - done.
  - exact Hg.
Qed.
(** A change that no life depends on. *)
Lemma wp_set_quiet s0 L n s i l f (Q : unit -> state W -> Prop) :
  st s0 L n s -> aget L i = Some l ->
  (forall p, aget (procs s) i = Some p -> life_of p = l -> local_ok p -> life_of (f p) = life_of p /\ local_ok (f p)) ->
  (forall s', st s0 L n s' -> Q tt s') -> wp (set_slot i f) Q never s.
Proof.
  intros Hs Hl Hf HQ. eapply (wp_set_slot _ _ _ _ _ l l); [done..| |].
  - intros p Hp Hlp Hok. destruct (Hf p Hp Hlp Hok) as [E ?]. split; [by rewrite E|done].
  - intros s'. rewrite aupd_id by (intros; congruence). apply HQ.
Qed.
Lemma wp_pm_env s0 L n s {A} (f : W -> A * W) (Q : A -> state W -> Prop) :
  st s0 L n s -> (forall s' w, st s0 L n s' -> Q (f w).1 s') -> wp (env f) Q never s.
Proof.
  intros Hs HQ. unfold wp. rewrite pm_env_run. apply HQ. destruct Hs as [Hfr HL Hn HF Hlen Hmp Hg].
  by split.
Qed.
Lemma wp_must s0 L n s (f : W -> rc * W) (Q : unit -> state W -> Prop) :
  st s0 L n s -> (forall w, (f w).1 = OK) -> (forall s', st s0 L n s' -> Q tt s') -> wp (must f) Q never s.
Proof.
  intros Hs Hf HQ. unfold must. apply wp_bind. eapply wp_pm_env; [done|]. intros s' w Hs'. rewrite Hf. by apply HQ.
Qed.
Lemma wp_modify_count s0 L n s k (Q : unit -> state W -> Prop) :
  st s0 L n s -> (forall s', st s0 L (n + k) s' -> Q tt s') ->
  wp (modify (fun s => s <| procs_in_use := procs_in_use s + k |>)) Q never s.
Proof.
  intros Hs HQ. apply wp_modify, HQ. destruct Hs as [Hfr HL Hn HF Hlen Hmp Hg].
  split; try done. simpl. by subst n.
Qed.

(** *** Flags *)
Definition l_or (f : Z) (l : life) : life :=
  mk_life (l_used l || has f IN_USE) (l_exiting l || has f EXITING) (l_vfs l || has f VFS_CALL)
    (l_zombie l || has f ZOMBIE) (l_tzombie l || has f TRACE_ZOMBIE) (l_told l || has f TOLD_PARENT)
    (l_waiting l || has f WAITING) (l_pend l || has f PM_SIG_PENDING) (l_unpaused l || has f UNPAUSED)
    (l_priv l || has f PRIV_PROC) (l_pid l) (l_ep l) (l_grp l) (l_wpid l) (l_parent l) (l_tracer l).
Definition l_diff (f : Z) (l : life) : life :=
  mk_life (l_used l && negb (has f IN_USE)) (l_exiting l && negb (has f EXITING)) (l_vfs l && negb (has f VFS_CALL))
    (l_zombie l && negb (has f ZOMBIE)) (l_tzombie l && negb (has f TRACE_ZOMBIE))
    (l_told l && negb (has f TOLD_PARENT)) (l_waiting l && negb (has f WAITING))
    (l_pend l && negb (has f PM_SIG_PENDING)) (l_unpaused l && negb (has f UNPAUSED))
    (l_priv l && negb (has f PRIV_PROC)) (l_pid l) (l_ep l) (l_grp l) (l_wpid l) (l_parent l) (l_tracer l).
Lemma life_or p f : life_of (p <| mp_flags := Z.lor (mp_flags p) f |>) = l_or f (life_of p).
Proof. unfold life_of, l_or. simpl. by rewrite !has_lor. Qed.
Lemma life_diff p f : life_of (p <| mp_flags := Z.ldiff (mp_flags p) f |>) = l_diff f (life_of p).
Proof. unfold life_of, l_diff. simpl. by rewrite !has_ldiff by apply _. Qed.
Lemma local_or p f : has f PRIV_PROC = false -> local_ok p -> local_ok (p <| mp_flags := Z.lor (mp_flags p) f |>).
Proof.
  intros Hf Hp. split; try apply Hp. simpl. rewrite has_lor, Hf, orb_false_r. apply Hp.
Qed.
Lemma local_diff p f : local_ok p -> local_ok (p <| mp_flags := Z.ldiff (mp_flags p) f |>).
Proof.
  intros Hp. split; try apply Hp. simpl. rewrite has_ldiff by apply _. intros [Hx _]%andb_true_iff. by apply Hp.
Qed.

Lemma wp_set_flag s0 L n s i l f (Q : unit -> state W -> Prop) :
  st s0 L n s -> aget L i = Some l -> has f PRIV_PROC = false ->
  (forall s', st s0 (aupd i (fun _ => l_or f l) L) n s' -> Q tt s') -> wp (set_flag i f) Q never s.
Proof.
  intros Hs Hl Hf HQ. unfold set_flag. eapply wp_set_slot; [done..| |exact HQ].
  intros p _ <- Hok. split; [apply life_or|by apply local_or].
Qed.
Lemma wp_clear_flag s0 L n s i l f (Q : unit -> state W -> Prop) :
  st s0 L n s -> aget L i = Some l ->
  (forall s', st s0 (aupd i (fun _ => l_diff f l) L) n s' -> Q tt s') -> wp (clear_flag i f) Q never s.
Proof.
  intros Hs Hl HQ. unfold clear_flag. eapply wp_set_slot; [done..| |exact HQ].
  intros p _ <- Hok. split; [apply life_diff|by apply local_diff].
Qed.
End rules.

(** What setting or clearing flags does to a life, by computation on the flags. *)
Ltac life_eq :=
  intros; repeat match goal with l : life |- _ => destruct l end; unfold l_or, l_diff;
  eval_flags;
  cbn [negb l_used l_exiting l_vfs l_zombie l_tzombie l_told l_waiting l_pend l_unpaused l_priv
    l_pid l_ep l_grp l_wpid l_parent l_tracer upd];
  rewrite ?orb_false_r, ?orb_true_r, ?andb_true_r, ?andb_false_r; reflexivity.
Lemma or_zombie l : l_or ZOMBIE l = l <| l_zombie := true |>. Proof. life_eq. Qed.
Lemma or_tzombie l : l_or TRACE_ZOMBIE l = l <| l_tzombie := true |>. Proof. life_eq. Qed.
Lemma or_told l : l_or TOLD_PARENT l = l <| l_told := true |>. Proof. life_eq. Qed.
Lemma or_waiting l : l_or WAITING l = l <| l_waiting := true |>. Proof. life_eq. Qed.
Lemma or_vfs l : l_or VFS_CALL l = l <| l_vfs := true |>. Proof. life_eq. Qed.
Lemma or_pend l : l_or PM_SIG_PENDING l = l <| l_pend := true |>. Proof. life_eq. Qed.
Lemma or_unpaused l : l_or UNPAUSED l = l <| l_unpaused := true |>. Proof. life_eq. Qed.
Lemma or_reply l : l_or REPLY l = l. Proof. life_eq. Qed.
Lemma or_alarm l : l_or ALARM_ON l = l. Proof. life_eq. Qed.
Lemma or_stopped l : l_or STOPPED l = l. Proof. life_eq. Qed.
Lemma or_delay l : l_or DELAY_CALL l = l. Proof. life_eq. Qed.
Lemma or_paused l : l_or PAUSED l = l. Proof. life_eq. Qed.
Lemma or_sigsuspended l : l_or SIGSUSPENDED l = l. Proof. life_eq. Qed.
Lemma or_partial l : l_or PARTIAL_EXEC l = l. Proof. life_eq. Qed.
Lemma or_trace_exit l : l_or TRACE_EXIT l = l. Proof. life_eq. Qed.
Lemma diff_zombie l : l_diff ZOMBIE l = l <| l_zombie := false |>. Proof. life_eq. Qed.
Lemma diff_tzombie l : l_diff TRACE_ZOMBIE l = l <| l_tzombie := false |>. Proof. life_eq. Qed.
Lemma diff_waiting l : l_diff WAITING l = l <| l_waiting := false |>. Proof. life_eq. Qed.
Lemma diff_vfs l : l_diff VFS_CALL l = l <| l_vfs := false |>. Proof. life_eq. Qed.
Lemma diff_unpaused l : l_diff UNPAUSED l = l <| l_unpaused := false |>. Proof. life_eq. Qed.
Lemma diff_resume l : l_diff (Z.lor PM_SIG_PENDING UNPAUSED) l = l <| l_pend := false |> <| l_unpaused := false |>.
Proof. life_eq. Qed.
Lemma diff_paused l : l_diff (Z.lor PAUSED (Z.lor WAITING SIGSUSPENDED)) l = l <| l_waiting := false |>.
Proof. life_eq. Qed.
Lemma diff_alarm l : l_diff ALARM_ON l = l. Proof. life_eq. Qed.
Lemma diff_stopped l : l_diff STOPPED l = l. Proof. life_eq. Qed.
Lemma diff_delay l : l_diff DELAY_CALL l = l. Proof. life_eq. Qed.
Lemma diff_reply l : l_diff REPLY l = l. Proof. life_eq. Qed.
Lemma diff_partial l : l_diff PARTIAL_EXEC l = l. Proof. life_eq. Qed.
Lemma diff_trace_exit l : l_diff TRACE_EXIT l = l. Proof. life_eq. Qed.
Create Rewrite HintDb life.
#[export] Hint Rewrite or_zombie or_tzombie or_told or_waiting or_vfs or_pend or_unpaused or_reply or_alarm
  or_stopped or_delay or_paused or_sigsuspended or_partial or_trace_exit diff_zombie diff_tzombie diff_waiting
  diff_vfs diff_unpaused diff_resume diff_paused diff_alarm diff_stopped diff_delay diff_reply diff_partial
  diff_trace_exit : life.

(** *** Automation *)
Lemma is_ok_true r : negb (is_ok r) = false -> r = OK.
Proof. intros Hr%negb_false_iff. unfold is_ok in Hr. by apply bool_decide_eq_true in Hr. Qed.
Section gets.
Context {A : Type}.
Implicit Types (L : list A).
Lemma aget_set L i x y : aget L i = Some y -> aget (aupd i (fun _ => x) L) i = Some x.
Proof. intros Hy. by rewrite aget_aupd_eq, Hy. Qed.
Lemma aget_set_ne L i j f r : i <> j -> aget L j = r -> aget (aupd i f L) j = r.
Proof. intros. by rewrite aget_aupd_ne. Qed.
Lemma aupd_set_set L i x y : aupd i (fun _ => y) (aupd i (fun _ => x) L) = aupd i (fun _ => y) L.
Proof. apply aupd_aupd. Qed.
Lemma aupd_same L i x : aget L i = Some x -> aupd i (fun _ => x) L = L.
Proof. intros Hx. apply aupd_id. intros. congruence. Qed.
End gets.
Ltac solve_get :=
  first [eassumption
        |eapply aget_set; solve_get
        |eapply aget_set_ne; [first [assumption|symmetry; assumption|congruence|lia]|solve_get]].
(** Reads the flags and numbers of slot [p] from its life. *)
Ltac to_life p Hl :=
  change (has (mp_flags p) IN_USE) with (l_used (life_of p));
  change (has (mp_flags p) EXITING) with (l_exiting (life_of p));
  change (has (mp_flags p) VFS_CALL) with (l_vfs (life_of p));
  change (has (mp_flags p) ZOMBIE) with (l_zombie (life_of p));
  change (has (mp_flags p) TRACE_ZOMBIE) with (l_tzombie (life_of p));
  change (has (mp_flags p) TOLD_PARENT) with (l_told (life_of p));
  change (has (mp_flags p) WAITING) with (l_waiting (life_of p));
  change (has (mp_flags p) PM_SIG_PENDING) with (l_pend (life_of p));
  change (has (mp_flags p) UNPAUSED) with (l_unpaused (life_of p));
  change (has (mp_flags p) PRIV_PROC) with (l_priv (life_of p));
  change (mp_pid p) with (l_pid (life_of p));
  change (mp_endpoint p) with (l_ep (life_of p));
  change (mp_procgrp p) with (l_grp (life_of p));
  change (mp_wpid p) with (l_wpid (life_of p));
  change (mp_parent p) with (l_parent (life_of p));
  change (mp_tracer p) with (l_tracer (life_of p));
  rewrite ?Hl.
Ltac local :=
  match goal with Hok : local_ok _ |- local_ok _ =>
    pose proof NR_PROCS_ok; pose proof INIT_slot;
    solve [split; first [apply Hok|done|simpl; unfold NO_TRACER in *; lia]]
  end.
Ltac tidy Hs :=
  autorewrite with life in Hs; rewrite ?aupd_set_set in Hs;
  repeat match type of Hs with
  | context [aupd ?i (fun _ => ?l) ?L] => rewrite (aupd_same L i l) in Hs by solve_get
  end.
Ltac next_state Hs :=
  let s' := fresh "s" in let Hs' := fresh "Hs" in
  intros s' Hs'; clear Hs; rename Hs' into Hs; tidy Hs.
Ltac next_run Hs :=
  let s' := fresh "s" in let Hs' := fresh "Hs" in
  intros [] s' Hs'; clear Hs; rename Hs' into Hs; cbn beta.
Ltac pm_step :=
  lazymatch goal with
  | |- wp (mret _) _ _ _ => apply wp_ret
  | |- wp (_ ≫= _) _ _ _ => apply wp_bind
  | |- wp get _ _ _ => apply wp_get
  | |- wp (gets _) _ _ _ => apply wp_gets
  | Hs : st _ _ _ ?s |- wp (slot _) _ _ ?s =>
      eapply wp_slot; [exact Hs|solve_get|];
      let p := fresh "p" in let Hp := fresh "Hp" in let Hl := fresh "Hlp" in let Hok := fresh "Hok" in
      intros p Hp Hl Hok; cbn beta; to_life p Hl
  | Hs : st _ _ _ ?s |- wp (set_flag _ _) _ _ ?s =>
      eapply wp_set_flag; [exact Hs|solve_get|reflexivity|next_state Hs]
  | Hs : st _ _ _ ?s |- wp (clear_flag _ _) _ _ ?s =>
      eapply wp_clear_flag; [exact Hs|solve_get|next_state Hs]
  | Hs : st _ _ _ ?s |- wp (set_slot _ _) _ _ ?s =>
      eapply wp_set_quiet; [exact Hs|solve_get|intros ? ? ? ?; split; [reflexivity|local]|next_state Hs]
  | Hs : st _ _ _ ?s |- wp (set_reply _ _) _ _ ?s =>
      eapply wp_set_quiet; [exact Hs|solve_get|intros ? ? ? ?; split; [reflexivity|local]|next_state Hs]
  | Hs : st _ _ _ ?s |- wp (must _) _ _ ?s =>
      eapply wp_must; [exact Hs|first [apply sys_stop_ok|apply sys_resume_ok|apply sys_clear_ok|apply vm_willexit_ok|apply vm_exit_ok
        |apply sys_sigsend_ok|apply asynsend_vfs_ok|apply sys_exec_ok]|next_state Hs]
  | Hs : st _ _ _ ?s |- wp (env _) _ _ ?s =>
      eapply wp_pm_env; [exact Hs|];
      let s' := fresh "s" in let Hs' := fresh "Hs" in let w := fresh "w" in
      intros s' w Hs'; clear Hs; rename Hs' into Hs
  end.
(** A call that returns [OK], with or without other results. *)
Ltac ok_call H :=
  let Hr := fresh "Hr" in pose proof H as Hr;
  first [rewrite Hr; clear Hr|match type of Hr with
  | ?x.1 = OK => let r := fresh "r" in destruct x as [r ?]; cbn [fst] in Hr; subst r
  end];
  change (negb (is_ok OK)) with false; cbv iota.
Ltac pm_go := repeat (pm_step; cbn beta).
