(* ===== verification/PmEnd.v ===== *)
(** The functions of [PmSignal] keep the invariant of the process table: whatever ends and
    whoever is told, PM does not panic, and the ends that follow from one another do end. *)
From S2P Require Import Prelude Minix PmBase Pm PmAlarm PmSignal PmTree PmInv.
Local Open Scope Z_scope.

Section ending.
Context `{MinixHeaders} `{PmHeaders} {W : Type} `{PmSched W} `{PmEnv W} `{!PmLaws} `{!EnvLaws}.
Implicit Types (s : state W) (L : list life).

(** ** Functions that change no life, or one flag *)
Lemma seq_slot s0 L n s pre i post :
  st s0 L n s -> seqZ 0 NR_PROCS = pre ++ i :: post -> exists l, aget L i = Some l.
Proof.
  intros Hs Hl. apply aget_is_Some. rewrite (st_len _ _ _ _ Hs).
  assert (i ∈ seqZ 0 NR_PROCS) as Hi by (rewrite Hl; set_solver). apply elem_of_seqZ in Hi. lia.
Qed.
Lemma wp_setreply s0 L n s i l r (Q : unit -> state W -> Prop) :
  st s0 L n s -> aget L i = Some l -> (forall s', st s0 L n s' -> Q tt s') -> wp (setreply i r) Q never s.
Proof.
  intros Hs Hl HQ. unfold setreply. pose proof (aget_range _ _ _ Hl) as Hr. rewrite (st_len _ _ _ _ Hs) in Hr.
  replace ((i <? 0) || (NR_PROCS <=? i)) with false by lia. pm_go. by apply HQ.
Qed.
Lemma wp_wait_test s0 L n s i c q l (Q : bool -> state W -> Prop) :
  st s0 L n s -> aget L i = Some q -> aget L c = Some l -> Q (wait_match q l) s -> wp (wait_test i c) Q never s.
Proof.
  intros Hs Hq Hl HQ. unfold wait_test. pm_go. to_life p Hlp. to_life p0 Hlp0. exact HQ.
Qed.
Lemma wp_notify s0 L n s ep (Q : unit -> state W -> Prop) :
  st s0 L n s -> (forall s', st s0 L n s' -> Q tt s') -> wp (vm_notify_sig_wrapper ep) Q never s.
Proof.
  intros Hs HQ. unfold vm_notify_sig_wrapper. apply wp_bind.
  apply (wp_for _ _ (fun _ s' => st s0 L n s')); [done| |].
  - intros pre i post s' Hl Hs'. destruct (seq_slot _ _ _ _ _ _ _ Hs Hl) as [l Hi]. clear Hs. pm_go.
    destruct (_ && _); [|done]. pm_go. by apply HQ.
  - intros s' Hs'. pm_go. by apply HQ.
Qed.
Lemma wp_set_alarm s0 L n s i l t (Q : unit -> state W -> Prop) :
  st s0 L n s -> aget L i = Some l -> (forall s', st s0 L n s' -> Q tt s') -> wp (set_alarm i t) Q never s.
Proof.
  intros Hs Hl HQ. unfold set_alarm. pm_go. destruct (0 <? t); [pm_go; by apply HQ|].
  destruct (has (mp_flags p) ALARM_ON); pm_go; by apply HQ.
Qed.
Lemma wp_add_pending s0 L n s i l signo ksig (Q : unit -> state W -> Prop) :
  st s0 L n s -> aget L i = Some l -> (forall s', st s0 L n s' -> Q tt s') ->
  wp (add_pending i signo ksig) Q never s.
Proof. intros Hs Hl HQ. unfold add_pending. pm_go. destruct ksig; pm_go; by apply HQ. Qed.
Lemma wp_tell_vfs s0 L n s i l m (Q : unit -> state W -> Prop) :
  st s0 L n s -> aget L i = Some l -> l_vfs l = false ->
  (forall s', st s0 (aupd i (fun _ => l <| l_vfs := true |>) L) n s' -> Q tt s') ->
  wp (tell_vfs i m) Q never s.
Proof.
  intros Hs Hl Hv HQ. unfold tell_vfs. pm_go. rewrite Hv. apply wp_bind.
  eapply wp_must; [exact Hs|apply asynsend_vfs_ok|next_state Hs]. pm_step. by apply HQ.
Qed.

(** ** What the calls of [sig_proc] leave behind *)
(** The state is well-formed again and has evolved from [L]. *)
Definition after s0 x L s : Prop := exists L' n', st s0 L' n' s /\ tree None L' n' /\ evolves x L L'.

Lemma after_intro s0 x L L' n' s : st s0 L' n' s -> tree None L' n' -> evolves x L L' -> after s0 x L s.
Proof. intros. by exists L', n'. Qed.
Lemma after_same s0 x L n s : st s0 L n s -> tree None L n -> after s0 x L s.
Proof. intros. exists L, n. split_and!; [done..|apply evolves_refl]. Qed.
Lemma tree_init_alive x L n l : tree x L n -> aget L INIT_PROC_NR = Some l -> l_exiting l = false.
Proof. intros T Hl. destruct (tr_init _ _ _ T) as (q & Hq & _ & He & _). by simplify_eq. Qed.
Lemma after_trans s0 x L L1 n1 s1 s :
  st s0 L1 n1 s1 -> evolves x L L1 -> after s1 x L1 s -> after s0 x L s.
Proof.
  intros Hs He (L' & n' & Hs' & T' & He'). exists L', n'. split_and!; [by eapply st_trans|done|].
  eapply evolves_trans; [|done..]. intros l. by apply tree_init_alive with (1 := T').
Qed.
Lemma wp_chain s0 x L L1 n1 s1 {A} (m : M (state W) A) (Q : A -> state W -> Prop) :
  st s0 L1 n1 s1 -> evolves x L L1 -> wp m (fun _ => after s1 x L1) never s1 ->
  (forall a s', after s0 x L s' -> Q a s') -> wp m Q never s1.
Proof. intros Hs He Hm HQ. eapply wp_mono; [exact Hm| |done]. intros a s' Ha. apply HQ. by eapply after_trans. Qed.
Lemma tree_count x L n : tree x L n -> Z.of_nat (length L) = NR_PROCS.
Proof. apply tr_len. Qed.

Lemma stop_proc_ok s0 L n s i l signo :
  st s0 L n s -> tree None L n -> aget L i = Some l -> l_used l = true -> l_tracer l <> 0 ->
  wp (stop_proc i signo) (fun _ => after s0 None L) never s.
Proof.
  intros Hs T Hl Hu Ht. destruct (tr_tracer _ _ _ T _ _ Hl Hu Ht) as (q & Hq & Hqu & _).
  unfold stop_proc. pm_go. ok_call (sys_trace_stop_ok (l_ep l) w). pm_go.
  eapply wp_wait_test; [exact Hs|done..|]. destruct (wait_match q l).
  - pm_go. eapply wp_setreply; [exact Hs|solve_get|next_state Hs].
    destruct (tree_wake _ _ _ _ _ T Hq Hqu). by eapply after_intro.
  - pm_go. by eapply after_same.
Qed.

(** ** What follows from an end *)
Definition signal_ok (sp : Z -> Z -> bool -> bool -> M (state W) unit) (fuel : nat) : Prop :=
  forall s0 L n s i l signo trace ksig,
    st s0 L n s -> tree None L n -> aget L i = Some l -> alive l = true -> 1 <= signo < _NSIG ->
    (ksig = true -> SIGS_IS_TERMINATION signo = true -> l_ep l <> VFS_PROC_NR) -> (live L < fuel)%nat ->
    wp (sp i signo trace ksig) (fun _ => after s0 None L) never s.

Section recursive.
Variable sp : Z -> Z -> bool -> bool -> M (state W) unit.
Variable fuel : nat.
Hypothesis Hsp : signal_ok sp fuel.

Lemma tell_parent_ok s0 L n s c l q (Q : unit -> state W -> Prop) :
  st s0 L n s -> aget L c = Some l -> aget L (l_parent l) = Some q -> 0 < l_parent l -> c <> l_parent l ->
  l_zombie l = true -> l_told l = false ->
  (forall s', st s0 (aupd c (fun _ => l <| l_zombie := false |> <| l_told := true |>)
                 (aupd (l_parent l) (fun _ => q <| l_waiting := false |>) L)) n s' -> Q tt s') ->
  wp (tell_parent c) Q never s.
Proof.
  intros Hs Hl Hq Hpos Hne Hz Ht HQ. unfold tell_parent. pm_go.
  replace (l_parent l <=? 0) with false by lia. rewrite Hz, Ht. cbn [negb]. pm_go.
  eapply wp_setreply; [exact Hs|solve_get|next_state Hs]. pm_go. by apply HQ.
Qed.

(** The father was told, but the slot is kept for whoever called. *)
Definition told s0 L c s : Prop :=
  exists L' n' l', st s0 L' n' s /\ tree (Some c) L' n' /\ evolves None L L' /\
    aget L' c = Some l' /\ l_used l' = true /\ l_exiting l' = true /\ l_vfs l' = false /\ l_told l' = true.
Definition notified s0 L c (gone : Prop) s : Prop := after s0 None L s \/ (gone /\ told s0 L c s).
Lemma notified_chain s0 L L1 n1 s1 c (gone : Prop) {A} (m : M (state W) A) (Q : A -> state W -> Prop) :
  st s0 L1 n1 s1 -> evolves None L L1 -> wp m (fun _ => notified s1 L1 c gone) never s1 ->
  (forall a s', notified s0 L c gone s' -> Q a s') -> wp m Q never s1.
Proof.
  intros Hs He Hm HQ. eapply wp_mono; [exact Hm| |done]. intros a s' [Ha|[Hg (L' & n' & l' & Hs' & T & He' & Hl')]];
    apply HQ; [left; by eapply after_trans|right]. split; [done|]. exists L', n', l'.
  split_and!; [by eapply st_trans|done|by eapply tree_trans|apply Hl'..].
Qed.
Lemma cleanup_ok s0 L n s x c l :
  st s0 L n s -> tree x L n -> (forall j, x = Some j -> j = c) -> aget L c = Some l -> l_used l = true ->
  l_exiting l = true -> l_vfs l = false -> wp (cleanup c) (fun _ => after s0 None L) never s.
Proof.
  intros Hs T Hx Hl Hu He Hv. unfold cleanup. pm_step.
  eapply (wp_set_slot _ _ _ _ _ l (l_clear l)); [exact Hs|done|..].
  { intros p _ <- Hok. split; [reflexivity|]. split; try apply Hok. done. }
  next_state Hs. eapply (wp_modify_count _ _ _ _ (-1)); [exact Hs|next_state Hs].
  change (n + -1) with (n - 1) in Hs. eapply after_intro; [exact Hs|by eapply tree_clear|].
  apply (evolves_upd _ _ _ _ l); [done|by apply ev1_clear|by left].
Qed.
(** The father of a zombie is told, and the slot is freed if it may be. *)
Lemma collect_ok s0 L n s c l q try :
  st s0 L n s -> tree (Some c) L n -> aget L c = Some l -> l_used l = true -> l_zombie l = true ->
  aget L (l_parent l) = Some q -> l_exiting q = false ->
  wp (tell_parent c;; c' ← slot c; if try && negb (has (mp_flags c') VFS_CALL) then cleanup c else mret tt)
    (fun _ => notified s0 L c (try = false /\ l_vfs l = false)) never s.
Proof.
  intros Hs T Hl Hu Hz Hq Hqe. destruct (tr_parent _ _ _ T _ _ Hl Hu) as (Hpos & q' & Hq' & Hqu & _).
  assert (q' = q) as -> by congruence. clear Hq'.
  pose proof (tree_flags _ _ _ _ _ T Hl Hu) as Hf. rewrite bool_decide_true in Hf by done.
  assert (l_exiting l = true /\ l_told l = false /\ l_tzombie l = false) as (He & Ht & Htz).
  { revert Hf Hz. flag_cases l. }
  assert (c <> l_parent l) as Hne by (intros ->; congruence).
  destruct (tree_wake _ _ _ _ _ T Hq Hqu) as [T1 E1]. specialize (E1 None).
  set (L1 := aupd (l_parent l) (fun _ => q <| l_waiting := false |>) L) in *.
  assert (aget L1 c = Some l) as Hl1 by (subst L1; solve_get).
  set (l' := l <| l_zombie := false |> <| l_told := true |>).
  assert (ending (Some c) L1 c l l') as Hend.
  { split; simpl; rewrite ?Htz; try done; auto. rewrite bool_decide_true by done. revert Hf He Htz. subst l'. flag_cases l. }
  pose proof (tree_ending _ _ _ _ _ _ _ (proj1 INIT_slot) T1 (fun _ _ e => e) Hl1 Hu Hend) as T2.
  pose proof (evolves_ending None _ _ _ _ _ Hl1 Hend) as E2.
  pm_step. eapply tell_parent_ok; [exact Hs|done..|]. fold L1 l'. next_state Hs.
  pose proof (tree_trans _ _ _ _ _ _ T2 E1 E2) as E3.
  set (L2 := aupd c (fun _ => l') L1) in *. assert (aget L2 c = Some l') as Hl2 by (subst L2; solve_get).
  pm_go. change (l_vfs l') with (l_vfs l). destruct (l_vfs l) eqn:Hv; [|destruct try].
  - rewrite andb_false_r. left. eapply after_intro; [exact Hs| |exact E3].
    eapply tree_close; [exact T2|exact Hl2|done|by simpl; rewrite Hv|done].
  - cbn [andb negb]. eapply wp_chain; [exact Hs|exact E3| |by left].
    eapply cleanup_ok; [by eapply st_here|exact T2|congruence|exact Hl2|done..].
  - cbn [andb negb]. right. split; [done|]. exists L2, n, l'. by split_and!.
Qed.
Lemma check_parent_ok s0 L n s c l try :
  st s0 L n s -> tree (Some c) L n -> aget L c = Some l -> l_used l = true -> l_zombie l = true ->
  (live L < fuel)%nat ->
  wp (check_parent sp c try) (fun _ => notified s0 L c (try = false /\ l_vfs l = false)) never s.
Proof.
  intros Hs T Hl Hu Hz Hlive. destruct (tr_parent _ _ _ T _ _ Hl Hu) as (Hpos & q & Hq & Hqu & _).
  pose proof (tree_flags _ _ _ _ _ T Hl Hu) as Hf. rewrite bool_decide_true in Hf by done.
  assert (l_exiting l = true) as He by (revert Hf Hz; flag_cases l).
  unfold check_parent. pm_go. destruct (l_exiting q) eqn:Hqe.
  - left. eapply after_same; [done|]. eapply tree_close; [done..|by left|].
    intros _ q' Hq' Hqe'. congruence.
  - pm_step. eapply wp_wait_test; [exact Hs|done..|]. destruct (wait_match q l) eqn:Hm; [by eapply collect_ok|].
    eapply wp_chain; [exact Hs|apply evolves_refl| |by left].
    eapply Hsp; [by eapply st_here| |exact Hq| |apply SIGCHLD_range|done|done].
    + eapply tree_close; [done..|by left|]. intros _ q' Hq' _. congruence.
    + unfold alive. by rewrite Hqu, Hqe.
Qed.

Lemma tell_tracer_ok s0 L n s c l q (Q : unit -> state W -> Prop) :
  st s0 L n s -> aget L c = Some l -> aget L (l_tracer l) = Some q -> 0 < l_tracer l -> c <> l_tracer l ->
  l_tzombie l = true ->
  (forall s', st s0 (aupd c (fun _ => l <| l_tzombie := false |> <| l_zombie := true |>)
                 (aupd (l_tracer l) (fun _ => q <| l_waiting := false |>) L)) n s' -> Q tt s') ->
  wp (tell_tracer c) Q never s.
Proof.
  intros Hs Hl Hq Hpos Hne Hz HQ. unfold tell_tracer. pm_go.
  replace (l_tracer l <=? 0) with false by lia. rewrite Hz. cbn [negb]. pm_go.
  eapply wp_setreply; [exact Hs|solve_get|next_state Hs]. pm_go. by apply HQ.
Qed.
Lemma fresh_zombie L n i l :
  tree (Some i) L n -> aget L i = Some l -> l_used l = true -> l_exiting l = true ->
  l_zombie l = false -> l_tzombie l = false -> l_told l = false -> ending (Some i) L i l (l <| l_zombie := true |>).
Proof.
  intros T Hl Hu He Hz Htz Hto. pose proof (tree_flags _ _ _ _ _ T Hl Hu) as Hf.
  split; simpl; try done; auto; [by rewrite Htz| |by rewrite Htz].
  revert Hf He Hz Htz Hto. rewrite bool_decide_true by done. flag_cases l.
Qed.
(** A process that has just become a zombie to its father. *)
Lemma zombie_parent_ok s0 L L1 n s i l try (Q : unit -> state W -> Prop) :
  st s0 (aupd i (fun _ => l <| l_zombie := true |>) L1) n s -> tree (Some i) L1 n -> evolves None L L1 ->
  aget L1 i = Some l -> l_used l = true -> l_exiting l = true -> l_zombie l = false -> l_tzombie l = false ->
  l_told l = false -> (live L < fuel)%nat ->
  (forall s', notified s0 L i (try = false /\ l_vfs l = false) s' -> Q tt s') ->
  wp (check_parent sp i try) Q never s.
Proof.
  intros Hs T E1 Hl Hu He Hz Htz Hto Hlive HQ. pose proof (fresh_zombie _ _ _ _ T Hl Hu He Hz Htz Hto) as Hend.
  pose proof (tree_ending _ _ _ _ _ _ _ (proj1 INIT_slot) T (fun _ _ e => e) Hl Hu Hend) as T2.
  pose proof (tree_trans _ _ _ _ _ _ T2 E1 (evolves_ending None _ _ _ _ _ Hl Hend)) as E2.
  eapply (notified_chain _ _ _ _ _ _ (try = false /\ l_vfs l = false)); [exact Hs|exact E2| |by intros []].
  change (l_vfs l) with (l_vfs (l <| l_zombie := true |>)).
  eapply check_parent_ok; [by eapply st_here|exact T2|solve_get|done|done|].
  pose proof (live_le _ _ _ E2). lia.
Qed.
Lemma zombify_ok s0 L n s i l :
  st s0 L n s -> tree (Some i) L n -> aget L i = Some l -> l_used l = true -> l_exiting l = true ->
  l_zombie l = false -> l_tzombie l = false -> l_told l = false -> (live L < fuel)%nat ->
  wp (zombify sp i) (fun _ => notified s0 L i (l_vfs l = false)) never s.
Proof.
  intros Hs T Hl Hu He Hz Htz Hto Hlive. pose proof (tree_flags _ _ _ _ _ T Hl Hu) as Hf.
  rewrite bool_decide_true in Hf by done.
  assert (l_waiting l = false) as Hw by (revert Hf He; flag_cases l).
  unfold zombify. pm_go. rewrite has_mask. to_life p Hlp. rewrite Hz, Htz. cbn [orb].
  destruct (_ && _) eqn:Htr.
  - apply andb_true_iff in Htr as [Ht0 Htp]. apply negb_true_iff, Z.eqb_neq in Ht0, Htp. unfold NO_TRACER in Ht0.
    destruct (tr_tracer _ _ _ T _ _ Hl Hu Ht0) as (q & Hq & Hqu & _). set (t := l_tracer l) in *.
    set (l' := l <| l_tzombie := true |>). pm_go. fold l' in Hs.
    assert (exists q1, aget (aupd i (fun _ => l') L) t = Some q1 /\ wait_match q1 l' = wait_match q l) as (q1 & Hq1 & Hm).
    { destruct (decide (i = t)) as [<-|Hti]; [|exists q; split; [solve_get|done]].
      assert (q = l) as -> by congruence. exists l'. split; [solve_get|].
      unfold wait_match. change (l_waiting l') with (l_waiting l). by rewrite Hw. }
    eapply wp_wait_test; [exact Hs|exact Hq1|solve_get|]. rewrite Hm. destruct (wait_match q l) eqn:Hm'; cbn [negb].
    + assert (i <> t) as Hti.
      { intros <-. assert (q = l) as -> by congruence. unfold wait_match in Hm'. by rewrite Hw in Hm'. }
      pm_step. eapply (tell_tracer_ok _ _ _ _ _ l' q); [exact Hs|solve_get..| |exact Hti|done|].
      { simpl. fold t. apply aget_range in Hq. lia. }
      next_state Hs. simpl in Hs. fold t in Hs.
      rewrite (aupd_comm L t i), aupd_set_set in Hs by done.
      destruct (tree_wake _ _ _ _ _ T Hq Hqu) as [T1 E1]. specialize (E1 None).
      set (L1 := aupd t _ L) in *. assert (aget L1 i = Some l) as Hl1 by (subst L1; solve_get).
      pose proof (fresh_zombie _ _ _ _ T1 Hl1 Hu He Hz Htz Hto) as Hend.
      assert (l' <| l_tzombie := false |> <| l_zombie := true |> = l <| l_zombie := true |>) as Heq.
      { subst l'. revert Htz. clear. destruct l. simpl. by intros ->. }
      rewrite Heq in Hs.
      eapply zombie_parent_ok; [exact Hs|done..|]. intros s' [?|[[_ ?] ?]]; [by left|by right].
    + pm_go. left. assert (ending None L i l l') as Hend.
      { split; try done; auto.
        - subst l'. revert Hf He Hz Htz Hto. simpl. flag_cases l.
        - intros _ Hz'. subst l'. simpl in Hz'. by rewrite Hz in Hz'.
        - intros _ q' Hq' _. subst l'. simpl in Hq'. fold t in Hq'. by assert (q' = q) as -> by congruence. }
      eapply after_intro; [exact Hs| |by eapply evolves_ending].
      eapply (tree_ending (Some i)); [apply INIT_slot|done|congruence|done..].
  - pm_go. eapply zombie_parent_ok; [exact Hs|exact T|apply evolves_refl|done..|].
    intros s' [?|[[_ ?] ?]]; [by left|by right].
Qed.

Lemma alive_flags l ex : flags_ok ex l = true -> l_exiting l = false ->
  l_zombie l = false /\ l_tzombie l = false /\ l_told l = false.
Proof. by destruct ex; flag_cases l. Qed.
Lemma tracer_died_ok s0 L n s c l :
  st s0 L n s -> tree None L n -> aget L c = Some l -> l_used l = true -> (live L < fuel)%nat ->
  wp (tracer_died sp c) (fun _ => after s0 None (aupd c (fun _ => l <| l_tracer := 0 |>) L)) never s.
Proof.
  intros Hs T Hl Hu Hlive. set (l1 := l <| l_tracer := 0 |>). set (L1 := aupd c (fun _ => l1) L).
  pose proof (tree_flags _ _ _ _ _ T Hl Hu) as Hf. rewrite bool_decide_false in Hf by done.
  assert (aget L1 c = Some l1) as Hl1 by (subst L1; solve_get).
  assert (l_tzombie l = false -> ending None L c l l1) as Hend.
  { intros Htz. split; try done; auto; try (by simpl; rewrite Htz).
    intros _. exact (tr_wait _ _ _ T _ _ Hl Hu ltac:(done)). }
  unfold tracer_died. pm_step. eapply (wp_set_slot _ _ _ _ _ l l1); [exact Hs|done|..].
  { intros p _ <- Hok. split; [reflexivity|local]. }
  next_state Hs. fold L1 in Hs. pm_go. change (l_exiting l1) with (l_exiting l). change (l_tzombie l1) with (l_tzombie l).
  destruct (l_exiting l) eqn:He; cbn [negb]; [destruct (l_tzombie l) eqn:Htz|].
  - pm_go. set (l2 := l1 <| l_tzombie := false |> <| l_zombie := true |>) in *.
    assert (ending (Some c) L c l l2) as Hend2.
    { split; try done; auto. rewrite bool_decide_true by done. subst l2 l1. simpl. revert Hf He Htz. flag_cases l. }
    assert (aupd c (fun _ => l2) L1 = aupd c (fun _ => l2) L) as HL2 by apply aupd_set_set.
    assert (tree (Some c) (aupd c (fun _ => l2) L1) n) as T2.
    { rewrite HL2. eapply (tree_ending None); [apply INIT_slot|done..]. }
    assert (evolves None L1 (aupd c (fun _ => l2) L1)) as E2.
    { apply (evolves_upd _ _ _ _ l1); [done| |by left]. subst l2 l1. unfold ev1. simpl. split_and!; first [by auto 10|congruence]. }
    eapply notified_chain; [exact Hs|exact E2| |].
    + eapply check_parent_ok; [by eapply st_here|exact T2|solve_get|done..|].
      pose proof (live_le _ _ _ (evolves_ending None _ _ _ _ _ Hl Hend2)) as Hle. rewrite <-HL2 in Hle. lia.
    + intros [] s' [?|[[? _] _]]; done.
  - pm_go. eapply after_same; [exact Hs|]. eapply (tree_ending None); [apply INIT_slot|done|done|done..|by apply Hend].
  - destruct (alive_flags _ _ Hf He) as (_ & Htz & _).
    eapply wp_chain; [exact Hs|apply evolves_refl| |done]. eapply Hsp; [by eapply st_here| |exact Hl1| | | |].
    + eapply (tree_ending None); [apply INIT_slot|done|done|done..|by apply Hend].
    + unfold alive. change (l_used l1) with (l_used l). change (l_exiting l1) with (l_exiting l). by rewrite Hu, He.
    + apply SIGKILL_range.
    + done.
    + pose proof (live_le _ _ _ (evolves_ending None _ _ _ _ _ Hl (Hend Htz))) as Hle. subst L1. lia.
Qed.

(** After its turn in the loop of [exit_proc] a slot no longer depends on [i]. *)
Definition freed_of i j s0 L s : Prop :=
  exists L' n', st s0 L' n' s /\ tree None L' n' /\ evolves None L L' /\
    forall l', aget L' j = Some l' -> l_used l' = true -> l_parent l' <> i /\ l_tracer l' <> i.
Lemma freed_trans i j s0 L L1 n1 s1 (Q : unit -> state W -> Prop) m :
  st s0 L1 n1 s1 -> evolves None L L1 -> wp m (fun _ => freed_of i j s1 L1) never s1 ->
  (forall s', freed_of i j s0 L s' -> Q tt s') -> wp m Q never s1.
Proof.
  intros Hs He Hm HQ. eapply wp_mono; [exact Hm| |done]. intros [] s' (L' & n' & Hs' & T & He' & Hd). apply HQ.
  exists L', n'. split_and!; [by eapply st_trans|done|by eapply tree_trans|done].
Qed.
Lemma ev_parent x L L' j l l' k :
  evolves x L L' -> aget L j = Some l -> aget L' j = Some l' -> l_used l' = true -> k <> INIT_PROC_NR -> k <> 0 ->
  (l_parent l <> k -> l_parent l' <> k) /\ (l_tracer l <> k -> l_tracer l' <> k).
Proof.
  intros (_ & He & _) Hl Hl' Hu Hk Hk0. destruct (He _ _ _ Hl Hl') as [He' _].
  destruct (He' Hu) as (_ & _ & _ & _ & _ & Hpa & Htr & _). split; intros Hne; [destruct Hpa|destruct Htr]; congruence.
Qed.

Lemma adopt_ok s0 L n s i j l :
  st s0 L n s -> tree None L n -> aget L j = Some l -> i <> INIT_PROC_NR -> i <> 0 -> (live L < fuel)%nat ->
  (l_used l = true -> l_tracer l <> i) ->
  wp (p ← slot j;
      if mp_parent p =? i then
        set_slot j (fun p => p <| mp_parent := INIT_PROC_NR |>);;
        p ← slot j;
        if has (mp_flags p) ZOMBIE then check_parent sp j true else mret tt
      else mret tt) (fun _ => freed_of i j s0 L) never s.
Proof.
  intros Hs T Hl Hi Hi0 Hlive Htr. pm_go. destruct (l_parent l =? i) eqn:Hp'.
  2: { pm_go. exists L, n. split_and!; [done..|apply evolves_refl|]. intros l' Hl' Hu. simplify_eq. split; [lia|auto]. }
  set (l1 := l <| l_parent := INIT_PROC_NR |>).
  pm_step. eapply (wp_set_slot _ _ _ _ _ l l1); [exact Hs|done|..].
  { intros q _ <- Hq. split; [reflexivity|local]. }
  next_state Hs. pm_go. change (l_zombie l1) with (l_zombie l).
  set (L1 := aupd j (fun _ => l1) L) in *. assert (aget L1 j = Some l1) as Hl1 by (subst L1; solve_get).
  assert (forall x L', evolves x L1 L' -> forall l', aget L' j = Some l' -> l_used l' = true ->
    l_parent l' <> i /\ l_tracer l' <> i) as Hfree.
  { intros x L' He l' Hl' Hu. destruct (ev_parent _ _ _ _ _ _ _ He Hl1 Hl' Hu Hi Hi0) as [H1' H2']. split; [apply H1'; by simpl|].
    apply H2'. apply Htr. destruct He as (_ & He & _). destruct (He _ _ _ Hl1 Hl') as [He' _]. by destruct (He' Hu). }
  destruct (l_used l) eqn:Hu.
  2: { destruct (tr_free _ _ _ T _ _ Hl Hu) as (_ & _ & _ & _ & -> & _). pm_go.
       exists L1, n. split_and!; [done|by eapply tree_free_parent|by eapply evolves_free_parent|apply (Hfree None), evolves_refl]. }
  pose proof (tree_flags _ _ _ _ _ T Hl Hu) as Hf. rewrite bool_decide_false in Hf by done.
  destruct (tr_slot _ _ _ T _ _ Hl Hu) as (_ & _ & _ & _ & _ & Htz).
  pose proof (tr_twait _ _ _ T _ _ Hl Hu) as Htw.
  destruct (l_zombie l) eqn:Hz.
  - assert (ending (Some j) L j l l1) as Hend.
    { split; try done; auto; try exact Htw. rewrite bool_decide_true by done. revert Hf. subst l1. simpl. flag_cases l. }
    assert (tree (Some j) L1 n) as T1 by (eapply (tree_ending None); [apply INIT_slot|done..]).
    pose proof (evolves_ending None _ _ _ _ _ Hl Hend) as E1. fold L1 in E1.
    eapply (wp_mono _ (fun _ => notified s1 L1 j (true = false /\ l_vfs l1 = false))).
    + eapply check_parent_ok; [by eapply st_here|exact T1|exact Hl1|done|done|].
      pose proof (live_le _ _ _ E1). lia.
    + intros [] s' [(L' & n' & Hs' & T' & E')|[[? _] _]]; [|done].
      exists L', n'. split_and!; [by eapply st_trans|done|by eapply tree_trans|by eapply Hfree].
    + done.
  - assert (ending None L j l l1) as Hend.
    { split; try done; auto; try exact Htw. intros _ Hz'. change (l_zombie l1) with (l_zombie l) in Hz'. congruence. }
    pm_go. exists L1, n. split_and!; [done| | |apply (Hfree None), evolves_refl].
    + eapply (tree_ending None); [apply INIT_slot|done..].
    + by eapply evolves_ending.
Qed.
Lemma disinherit_ok s0 L n s i j l :
  st s0 L n s -> tree None L n -> aget L j = Some l -> i <> INIT_PROC_NR -> i <> 0 -> (live L < fuel)%nat ->
  wp (disinherit sp i j) (fun _ => freed_of i j s0 L) never s.
Proof.
  intros Hs T Hl Hi Hi0 Hlive. unfold disinherit. pm_go. destruct (l_used l) eqn:Hu; cbn [negb].
  2: { pm_go. exists L, n. split_and!; [done..|apply evolves_refl|]. intros l' Hl' Hu'. congruence. }
  pm_step. destruct (l_tracer l =? i) eqn:Ht.
  - set (l1 := l <| l_tracer := 0 |>).
    eapply wp_mono; [by eapply tracer_died_ok| |done]. fold l1.
    intros [] s' (L2 & n2 & Hs2 & T2 & E2). destruct (evolves_len' _ _ _ j l1 E2 ltac:(solve_get)) as [l2 Hl2].
    pose proof (tree_flags _ _ _ _ _ T Hl Hu) as Hf.
    assert (evolves None L (aupd j (fun _ => l1) L)) as E1.
    { apply (evolves_upd _ _ _ _ l); [done| |by left]. subst l1. unfold ev1. simpl.
      split_and!; first [by auto 10|congruence]. }
    pose proof (tree_trans _ _ _ _ _ _ T2 E1 E2) as E. pose proof (live_le _ _ _ E).
    eapply freed_trans; [exact Hs2|exact E| |done]. eapply adopt_ok; [by eapply st_here|exact T2|exact Hl2|done..|lia|].
    intros Hu2. eapply ev_parent; [exact E2|solve_get|exact Hl2|done..|]. subst l1. simpl. done.
  - pm_step. cbn beta. eapply adopt_ok; [done..|]. lia.
Qed.

(** ** Broadcasts *)
(** A signal of the kernel that ends system processes is for one process, and not for VFS. *)
Definition spares_vfs (proc_id signo : Z) (ksig : bool) L : Prop :=
  ksig = true -> SIGS_IS_TERMINATION signo = true ->
  0 < proc_id /\ forall i l, aget L i = Some l -> l_used l = true -> l_pid l = proc_id -> l_ep l <> VFS_PROC_NR.
Lemma spares_ev x L L' proc_id signo ksig :
  evolves x L L' -> spares_vfs proc_id signo ksig L -> spares_vfs proc_id signo ksig L'.
Proof.
  intros He Hv Hk Ht. destruct (Hv Hk Ht) as [Hp Hl]. split; [done|]. intros i l' Hl' Hu Hpid.
  destruct (evolves_len _ _ _ _ _ He Hl') as [l Hl0]. destruct He as (_ & He & _).
  destruct (He _ _ _ Hl0 Hl') as [He' _]. destruct (He' Hu) as (Hu0 & Hpid0 & -> & _).
  eapply Hl; [exact Hl0|done|congruence].
Qed.
Lemma check_sig_step_ok s0 L n s proc_id signo ksig a i l lm :
  st s0 L n s -> tree None L n -> aget L i = Some l -> aget L (mp s) = Some lm -> 0 <= signo < _NSIG ->
  spares_vfs proc_id signo ksig L -> (live L < fuel)%nat ->
  wp (check_sig_step sp proc_id signo ksig a i) (fun _ => after s0 None L) never s.
Proof.
  intros Hs T Hl Hm Hsig Hv Hlive. destruct a as [count err]. unfold check_sig_step. pm_go.
  destruct (selected _ _ _ _) eqn:Hsel; cbn [negb]; [|pm_go; by eapply after_same].
  destruct (_ && _ && _); [pm_go; by eapply after_same|]. destruct (permitted _ _); cbn [negb]; [|pm_go; by eapply after_same].
  destruct ((signo =? 0) || l_exiting l) eqn:Hx; [pm_go; by eapply after_same|].
  apply orb_false_iff in Hx as [Hx He]. apply Z.eqb_neq in Hx.
  assert (l_used l = true /\ (0 < proc_id -> l_pid l = proc_id)) as [Hu Hpid].
  { revert Hsel. unfold selected. to_life p Hlp. intros Hsel. repeat (apply andb_true_iff in Hsel as [Hsel ?]).
    split; [done|]. lia. }
  pm_step. eapply wp_chain; [exact Hs|apply evolves_refl| |intros [] s' Ha; by pm_go].
  eapply Hsp; [by eapply st_here|exact T|exact Hl|by unfold alive; rewrite Hu, He|lia| |done].
  intros Hk Ht. destruct (Hv Hk Ht) as [Hpos Hne]. eapply Hne; [exact Hl|done|auto].
Qed.
Lemma check_sig_ok s0 L n s proc_id signo ksig lm :
  st s0 L n s -> tree None L n -> aget L (mp s0) = Some lm ->
  spares_vfs proc_id signo ksig L -> (live L < fuel)%nat ->
  wp (check_sig sp proc_id signo ksig) (fun _ => after s0 None L) never s.
Proof.
  intros Hs T Hm Hv Hlive. unfold check_sig.
  destruct ((signo <? 0) || (_NSIG <=? signo)) eqn:Hsig; [pm_go; by eapply after_same|].
  destruct ((proc_id =? INIT_PID) && _); [pm_go; by eapply after_same|].
  pm_step. eapply (wp_mono _ (fun _ s' => st s0 L n s')); [destruct (_ && _); pm_go; done| |done].
  clear Hs. intros [] s1 Hs. cbn beta. pm_step.
  apply (wp_mono _ (fun _ => after s0 None L) _ never); [| |done].
  1: apply (wp_fold_break _ _ _ (fun _ _ s' => after s0 None L s')); [by eapply after_same| |done].
  - intros pre i post a s2 Hseq (L2 & n2 & Hs2 & T2 & E2).
    assert (exists l, aget L i = Some l) as [l Hl].
    { eapply (seq_slot s0 L n s1 (rev post) i (rev pre)); [exact Hs|]. apply (f_equal (@rev Z)) in Hseq.
      rewrite rev_involutive in Hseq. rewrite Hseq, rev_app_distr. simpl. by rewrite <-app_assoc. }
    destruct (evolves_len' _ _ _ _ _ E2 Hl) as [l2 Hl2], (evolves_len' _ _ _ _ _ E2 Hm) as [lm2 Hm2].
    rewrite <-(st_mp _ _ _ _ Hs) in Hm2. rewrite (st_mp _ _ _ _ Hs), <-(st_mp _ _ _ _ Hs2) in Hm2.
    pose proof (live_le _ _ _ E2). eapply wp_chain; [exact Hs2|exact E2| |].
    + eapply check_sig_step_ok; [by eapply st_here|exact T2|exact Hl2|exact Hm2|lia|by eapply spares_ev|lia].
    + intros [a' b] s3 Ha. by destruct b.
  - intros [count err] s2 (L2 & n2 & Hs2 & T2 & E2). destruct (evolves_len' _ _ _ _ _ E2 Hm) as [lm2 Hm2].
    rewrite <-(st_mp _ _ _ _ Hs2) in Hm2. pm_go. destruct (negb _ || _); pm_go; by eapply after_intro.
Qed.

(** ** The end of a process *)
Definition exit_flags (f : Z) : Z :=
  Z.lor (Z.land f (Z.lor IN_USE (Z.lor VFS_CALL (Z.lor PRIV_PROC TRACE_EXIT)))) EXITING.
Lemma life_exit p st' : has (mp_flags p) VFS_CALL = true ->
  life_of (p <| mp_flags := exit_flags (mp_flags p) |> <| mp_exitstatus := st' |>) = l_exit (life_of p).
Proof.
  intros Hv. unfold life_of, l_exit, exit_flags. simpl. rewrite !has_lor, !has_land by apply _. rewrite Hv.
  eval_flags.
  by rewrite ?orb_false_r, ?orb_true_r, ?andb_true_r, ?andb_false_r.
Qed.
Lemma local_exit p st' : local_ok p -> local_ok (p <| mp_flags := exit_flags (mp_flags p) |> <| mp_exitstatus := st' |>).
Proof.
  intros Hok. split; try apply Hok. simpl. unfold exit_flags. rewrite has_lor, has_land by apply _.
  change (has EXITING PRIV_PROC) with false. rewrite orb_false_r, andb_true_iff. intros [Hp _]. by apply Hok.
Qed.
(** All are in use still, and [i] has ended unless it is init. *)
Definition ended s0 L i s : Prop :=
  exists L' n', st s0 L' n' s /\ tree None L' n' /\ evolves None L L' /\
    (i <> INIT_PROC_NR -> exists l', aget L' i = Some l' /\ l_used l' = true /\ l_exiting l' = true /\ l_vfs l' = true).
Lemma ended_after s0 L i s : ended s0 L i s -> after s0 None L s.
Proof. intros (L' & n' & ? & ? & ? & _). by exists L', n'. Qed.
Lemma busy_stays x L L' i l :
  evolves x L L' -> aget L i = Some l -> l_used l = true -> l_exiting l = true -> l_vfs l = true ->
  exists l', aget L' i = Some l' /\ l_used l' = true /\ l_exiting l' = true /\ l_vfs l' = true.
Proof.
  intros E Hl Hu He Hv. destruct (evolves_len' _ _ _ _ _ E Hl) as [l' Hl']. exists l'. split; [done|].
  destruct E as (_ & E & _). destruct (E _ _ _ Hl Hl') as (Hu' & Hv' & Hf' & _).
  assert (l_used l' = true) as Hul by (destruct (l_used l'); [done|destruct (Hf' Hu eq_refl); congruence]).
  destruct (Hu' Hul) as (_ & _ & _ & _ & _ & _ & _ & Hx). auto.
Qed.

Lemma disinherit_all_ok s0 L n s i l :
  st s0 L n s -> tree None L n -> aget L i = Some l -> i <> INIT_PROC_NR -> i <> 0 -> (live L < fuel)%nat ->
  wp (foreach (seqZ 0 NR_PROCS) (disinherit sp i)) (fun _ s' =>
    exists L' n', st s0 L' n' s' /\ tree None L' n' /\ evolves None L L' /\ no_dep L' i) never s.
Proof.
  intros Hs T Hl Hi Hi0 Hlive.
  apply (wp_foreach _ _ (fun pre s' => exists L' n', st s0 L' n' s' /\ tree None L' n' /\ evolves None L L' /\
    forall j l', j ∈ pre -> aget L' j = Some l' -> l_used l' = true -> l_parent l' <> i /\ l_tracer l' <> i)).
  - exists L, n. split_and!; [done..|apply evolves_refl|]. intros j l' Hj. by apply not_elem_of_nil in Hj.
  - intros pre j post s1 Hseq (L1 & n1 & Hs1 & T1 & E1 & Hd). destruct (seq_slot _ _ _ _ _ _ _ Hs1 Hseq) as [lj Hlj].
    pose proof (live_le _ _ _ E1).
    eapply wp_mono; [eapply disinherit_ok; [exact Hs1|exact T1|exact Hlj|done|done|lia]| |done].
    intros [] s2 (L2 & n2 & Hs2 & T2 & E2 & Hd2). exists L2, n2. split_and!; [done|done|by eapply tree_trans|].
    intros k l' Hk Hl' Hu. apply elem_of_app in Hk as [Hk|Hk%list_elem_of_singleton]; [|subst k; by eapply Hd2].
    destruct (evolves_len _ _ _ _ _ E2 Hl') as [l0 Hl0].
    destruct (ev_parent _ _ _ _ _ _ _ E2 Hl0 Hl' Hu Hi Hi0) as [Hx Hy].
    assert (l_used l0 = true) as Hu0.
    { destruct E2 as (_ & E2 & _). destruct (E2 _ _ _ Hl0 Hl') as [He _]. by destruct (He Hu). }
    destruct (Hd k l0 Hk Hl0 Hu0). auto.
  - intros s1 (L1 & n1 & Hs1 & T1 & E1 & Hd). exists L1, n1. split_and!; [done..|].
    intros j l' Hl' Hu. assert (j ∈ seqZ 0 NR_PROCS) as Hj.
    { apply elem_of_seqZ. apply aget_range in Hl'. rewrite (st_len _ _ _ _ Hs1) in Hl'. lia. }
    destruct (Hd j l' Hj Hl' Hu). by split.
Qed.
Lemma exit_rest_ok s0 L n s i l (procgrp : Z) (dump : bool) lm :
  st s0 L n s -> tree None L n -> aget L i = Some l -> i <> INIT_PROC_NR -> i <> 0 ->
  l = l_exit l -> l_used l = true -> aget L (mp s0) = Some lm -> (live L < fuel)%nat ->
  wp ((if dump then mret tt else zombify sp i);;
      foreach (seqZ 0 NR_PROCS) (disinherit sp i);;
      if negb (procgrp =? 0) then check_sig sp (- procgrp) SIGHUP false;; mret tt else mret tt)
    (fun _ s' => exists L' n', st s0 L' n' s' /\ tree None L' n' /\ evolves None L L' /\ no_dep L' i) never s.
Proof.
  intros Hs T Hl Hi Hi0 Hx Hu Hm Hlive. pm_step. eapply (wp_mono _ (fun _ => after s0 None L)); [| |done].
  { destruct dump; [pm_go; by eapply after_same|].
    eapply (wp_mono _ (fun _ => notified s0 L i (l_vfs l = false))); [| |done].
    - eapply zombify_ok; [done|by apply tree_open|done|done|rewrite Hx; done..|done].
    - intros [] s' [?|[Hv _]]; [done|by rewrite Hx in Hv]. }
  clear s Hs. intros [] s (L1 & n1 & Hs & T1 & E1). cbn beta.
  destruct (evolves_len' _ _ _ _ _ E1 Hl) as [l1 Hl1]. pose proof (live_le _ _ _ E1).
  pm_step. eapply wp_mono; [eapply disinherit_all_ok; [exact Hs|exact T1|exact Hl1|done|done|lia]| |done].
  clear s Hs. intros [] s (L2 & n2 & Hs & T2 & E2 & Hd). cbn beta.
  pose proof (tree_trans _ _ _ _ _ _ T2 E1 E2) as E. pose proof (live_le _ _ _ E2).
  destruct (negb _); [|pm_go; by exists L2, n2].
  destruct (evolves_len' _ _ _ _ _ E Hm) as [lm2 Hm2].
  pm_step. eapply wp_mono; [eapply check_sig_ok; [exact Hs|exact T2|exact Hm2|done|lia]| |done].
  intros r s' (L3 & n3 & Hs3 & T3 & E3). pm_go. exists L3, n3.
  split_and!; [done..|by eapply tree_trans|by eapply no_dep_ev].
Qed.

Lemma exit_proc_ok s0 L n s i l status dump lm :
  st s0 L n s -> tree None L n -> aget L i = Some l -> alive l = true -> l_vfs l = false ->
  l_ep l <> VFS_PROC_NR -> i <> 0 -> aget L (mp s0) = Some lm -> (live L <= fuel)%nat ->
  wp (exit_proc sp i status dump) (fun _ => ended s0 L i) never s.
Proof.
  intros Hs T Hl Ha Hv Hep Hi0 Hm Hlive.
  assert (l_used l = true /\ l_exiting l = false) as [Hu He].
  { unfold alive in Ha. apply andb_true_iff in Ha as [? ?]. by destruct (l_exiting l). }
  destruct (tr_parent _ _ _ T _ _ Hl Hu) as (_ & q & Hq & _).
  rewrite <-(st_mp _ _ _ _ Hs) in Hm.
  unfold exit_proc. pm_step. pm_step. clear Hp. pm_step. pm_step. cbn beta. pm_step. pm_step. clear Hp.
  to_life p Hlp. 
  pm_step. eapply (wp_mono _ (fun _ s' => st s0 L n s')); [| |done].
  { destruct (has (mp_flags p) ALARM_ON); [eapply wp_set_alarm; [done..|auto]|by pm_go]. }
  rewrite (st_mp _ _ _ _ Hs) in Hm. clear s Hs. intros [] s Hs. cbn beta. pm_go. ok_call (sys_times_ok (l_ep l) w).
  destruct p1 as [ut stm]. pm_go. eapply wp_notify; [exact Hs|next_state Hs].
  destruct (l_ep l =? INIT_PROC_NR) eqn:Hinit.
  { pm_go. exists L, n. split_and!; [done..|apply evolves_refl|]. intros Hne. exfalso.
    apply Z.eqb_eq in Hinit. apply Hne. destruct (tr_slot _ _ _ T _ _ Hl Hu) as (_ & _ & Hslot & _).
    destruct (tr_init _ _ _ T) as (l0 & Hl0 & Hu0 & _ & Hep0).
    destruct (tr_slot _ _ _ T _ _ Hl0 Hu0) as (_ & _ & Hslot0 & _). congruence. }
  assert (i <> INIT_PROC_NR) as Hi.
  { intros ->. destruct (tr_init _ _ _ T) as (l0 & Hl0 & Hu0 & _ & Hep0). apply Z.eqb_neq in Hinit. congruence. }
  replace (l_ep l =? VFS_PROC_NR) with false by lia.
  pm_step. eapply wp_tell_vfs; [exact Hs|done..|next_state Hs]. cbn beta.
  set (l1 := l <| l_vfs := true |>) in *. pm_step.
  eapply (wp_mono _ (fun _ s' => st s0 (aupd i (fun _ => l1) L) n s')); [destruct (l_priv l); pm_go; done| |done].
  next_run Hs. pm_step.
  eapply (wp_set_slot _ _ _ _ _ l1 (l_exit l)); [exact Hs|solve_get|..].
  { intros r _ Hr Hokr. assert (has (mp_flags r) VFS_CALL = true) as Hvr by (change (l_vfs (life_of r) = true); by rewrite Hr).
    split; [etrans; [by apply life_exit|by rewrite Hr]|by apply local_exit]. }
  next_state Hs. cbn beta. pose proof (tree_exit _ _ _ _ T Hl Hu Hi Hi0) as T1. pose proof (evolves_exit _ _ _ Hl He Hep) as E1.
  pose proof (live_exit _ _ _ Hl Ha) as Hlive1. set (L1 := aupd i (fun _ => l_exit l) L) in *.
  assert (aget L1 i = Some (l_exit l)) as Hl1 by (subst L1; solve_get).
  destruct (evolves_len' _ _ _ _ _ E1 Hm) as [lm1 Hm1].
  eapply wp_mono; [eapply exit_rest_ok; [exact Hs|exact T1|exact Hl1|done|done|done|done|exact Hm1|lia]| |done].
  intros [] s' (L2 & n2 & Hs2 & T2 & E2 & Hd). exists L2, n2. split_and!; [done..| |].
  - apply (evolves_close i); [|done]. eapply tree_trans; [exact T2|exact E1|by apply evolves_mono].
  - intros _. by eapply busy_stays.
Qed.

(** ** Catching a signal *)
Lemma ev_unpaused L i l L2 :
  aget L i = Some l -> evolves None (aupd i (fun _ => l <| l_unpaused := true |>) L) L2 ->
  (forall l2, aget L2 i = Some l2 -> l_used l2 = true -> l_vfs l2 = true \/ l_ep l = INIT_PROC_NR) ->
  evolves None L L2.
Proof.
  intros Hl (Hlen & E & Hn) Hi. rewrite length_aupd in Hlen. split_and!; [done| |].
  - intros j y y' Hy Hy'. destruct (decide (j = i)) as [->|Hne].
    + assert (y = l) as -> by congruence. destruct (E i (l <| l_unpaused := true |>) y' ltac:(solve_get) Hy') as (H1' & H2' & H3' & H4' & H5' & _ & H7' & H8' & H9').
      split_and!; [exact H1'|exact H2'|exact H3'|exact H4'|exact H5'| |exact H7'|exact H8'|exact H9'].
      intros Hu _ Hv. destruct (Hi y' Hy' Hu); [congruence|by right; right].
    + eapply E; [|done]. by rewrite aget_aupd_ne by done.
  - intros k y y' Hk Hy Hy' Hu He He0. destruct (decide (k = i)) as [->|Hne].
    + assert (y = l) as -> by congruence. eapply (Hn i (l <| l_unpaused := true |>)); [done|solve_get|done..].
    + eapply Hn; [done|by rewrite aget_aupd_ne by done|done..].
Qed.
Definition user (l : life) : Prop := alive l = true /\ l_vfs l = false /\ l_priv l = false.
Lemma handler_masks_ok signo act p :
  local_ok p -> never_kill (sa_mask act) -> signo <> SIGKILL -> 0 <= signo ->
  life_of (handler_masks signo act p) = life_of p /\ local_ok (handler_masks signo act p).
Proof.
  intros Hok Hact Hne Hpos. pose proof SIGKILL_range as Hk.
  assert (never_kill (if has (sa_flags act) SA_NODEFER then sigdelset (Z.lor (mp_sigmask p) (sa_mask act)) signo
                      else sigaddset (Z.lor (mp_sigmask p) (sa_mask act)) signo)) as Hmask.
  { unfold never_kill, sigismember, sigdelset, sigaddset in *.
    assert (Z.testbit (Z.lor (mp_sigmask p) (sa_mask act)) SIGKILL = false) as Hor.
    { rewrite Z.lor_spec. rewrite Hact. by rewrite (lo_sigmask _ Hok). }
    destruct (has _ _); [rewrite Z.clearbit_neq|rewrite Z.setbit_neq]; done. }
  unfold handler_masks. destruct (has (sa_flags act) SA_RESETHAND); (split; [done|]); split; try apply Hok; try done; simpl.
  - rewrite length_aupd. apply Hok.
  - unfold never_kill, sigismember, sigdelset. rewrite Z.clearbit_neq; [apply Hok|done].
  - unfold aupd. case_bool_decide; [|apply Hok]. apply list.Forall_alter; [apply Hok|by intros].
Qed.
Lemma act_get p signo : local_ok p -> 1 <= signo < _NSIG ->
  exists act, aget (mp_sigact p) signo = Some act /\ never_kill (sa_mask act).
Proof.
  intros Hok Hsig. destruct (aget_is_Some (mp_sigact p) signo) as [act Ha]; [rewrite (lo_sigact _ Hok); lia|].
  exists act. split; [done|]. apply aget_Some in Ha as [_ Ha]. pose proof (lo_masks _ Hok) as HF.
  by eapply list.Forall_lookup in HF.
Qed.
Definition l_handled (l : life) : life := l <| l_waiting := false |> <| l_unpaused := l_pend l |>.
Lemma sig_send_ok s0 L n s i l signo (Q : bool -> state W -> Prop) :
  st s0 L n s -> aget L i = Some l -> l_unpaused l = true -> 1 <= signo < _NSIG -> signo <> SIGKILL ->
  (forall s', st s0 L n s' -> Q false s') ->
  (forall s', st s0 (aupd i (fun _ => l_handled l) L) n s' -> Q true s') ->
  wp (sig_send i signo) Q never s.
Proof.
  intros Hs Hl Hunp Hsig Hne Hdead Hsent. unfold sig_send. pm_go. rewrite Hunp. cbn [negb].
  destruct (act_get p signo Hok Hsig) as (act & Hact & Hmask). rewrite Hact. pm_step. eapply wp_deref; [done|].
  pm_step. eapply wp_set_quiet; [exact Hs|solve_get|intros q _ _ Hq; apply handler_masks_ok; [done|done|done|lia]|next_state Hs].
  pm_go. destruct (vm_push_sig _ _) as [[r sp'] w']. cbn [fst]. destruct (negb (is_ok r)); [pm_go; by apply Hdead|].
  pm_go. rewrite !has_mask. to_life p Hlp.
  eapply (wp_mono _ (fun _ s' => st s0 (aupd i (fun _ => l <| l_waiting := false |>) L) n s')); [| |done].
  { destruct (has (mp_flags p) PAUSED || _) eqn:Hw.
    - pm_go. eapply wp_setreply; [exact Hs|solve_get|auto].
    - pm_go. apply orb_false_iff in Hw as [_ [Hw _]%orb_false_iff].
      assert (l <| l_waiting := false |> = l) as -> by (revert Hw; clear; destruct l; simpl; by intros ->).
      by rewrite aupd_same. }
  next_run Hs. pm_go. change (l_unpaused (l <| l_waiting := false |>)) with (l_unpaused l).
  change (l_pend (l <| l_waiting := false |>)) with (l_pend l). rewrite Hunp. cbn [andb].
  destruct (l_pend l) eqn:Hp'; cbn [negb]; pm_go; apply Hsent.
  - assert (l <| l_waiting := false |> = l_handled l) as <-; [|done].
    unfold l_handled. rewrite Hp'. revert Hunp. clear. destruct l; simpl. by intros ->.
  - unfold l_handled. rewrite Hp'. exact Hs.
Qed.
Lemma unpause_ok s0 L n s i l (Q : unit -> state W -> Prop) :
  st s0 L n s -> aget L i = Some l -> l_vfs l = false ->
  (forall s', st s0 L n s' -> Q tt s') ->
  (forall s', st s0 (aupd i (fun _ => l <| l_unpaused := true |>) L) n s' -> Q tt s') ->
  (forall s', st s0 (aupd i (fun _ => l <| l_pend := true |> <| l_vfs := true |>) L) n s' -> Q tt s') ->
  wp (unpause i) Q never s.
Proof.
  intros Hs Hl Hv Hno Hun Hcall. unfold unpause. pm_go. destruct (has (mp_flags p) DELAY_CALL); [pm_go; by apply Hno|].
  destruct (has (mp_flags p) _); [pm_go; by apply Hun|].
  pm_step. eapply (wp_mono _ (fun ok s' => if ok : bool then st s0 (aupd i (fun _ => l <| l_pend := true |>) L) n s'
                                           else st s0 L n s')); [| |done].
  - destruct (l_pend l) eqn:Hp'; cbn [negb].
    + pm_go. assert (l <| l_pend := true |> = l) as -> by (revert Hp'; clear; destruct l; simpl; by intros ->).
      by rewrite aupd_same.
    + pm_go. destruct (sys_delay_stop_ok (l_ep l) w) as [-> | ->]; [|rewrite bool_decide_true by done; by pm_go].
      rewrite bool_decide_false by done. change (negb (is_ok OK)) with false. cbv iota. by pm_go.
  - clear Hs. intros [] s1 Hs; cbn [negb]; [|pm_go; by apply Hno].
    pm_step. eapply wp_tell_vfs; [exact Hs|solve_get|done|next_state Hs].
    eapply wp_notify; [exact Hs|auto].
Qed.
Lemma sig_proc_exit_ok s0 L n s i l signo :
  st s0 L n s -> tree None L n -> aget L i = Some l -> alive l = true -> l_vfs l = false ->
  l_ep l <> VFS_PROC_NR -> i <> 0 -> (live L <= fuel)%nat ->
  wp (sig_proc_exit sp i signo) (fun _ => ended s0 L i) never s.
Proof.
  intros Hs T Hl Ha Hv Hep Hi Hlive. destruct (st_mp_get _ _ _ _ Hs) as [lm Hm]. unfold sig_proc_exit. pm_go.
  destruct (sigismember _ _); [|by eapply exit_proc_ok].
  pm_go. destruct (negb _); pm_go; by eapply exit_proc_ok.
Qed.
Lemma sig_catch_ok s0 L n s i l signo ksig :
  st s0 L n s -> tree None L n -> aget L i = Some l -> user l -> 1 <= signo < _NSIG -> signo <> SIGKILL ->
  wp (sig_catch i signo ksig) (fun dead s' =>
    if dead : bool then st s0 (aupd i (fun _ => l <| l_unpaused := true |>) L) n s' else after s0 None L s') never s.
Proof.
  intros Hs T Hl (Ha & Hv & Hp) Hsig Hne. set (l1 := l <| l_unpaused := true |>). set (L1 := aupd i (fun _ => l1) L).
  assert (l_used l = true /\ l_exiting l = false) as [Hu He].
  { unfold alive in Ha. apply andb_true_iff in Ha as [? ?]. by destruct (l_exiting l). }
  pose proof (tree_flags _ _ _ _ _ T Hl Hu) as Hf. rewrite bool_decide_false in Hf by done.
  assert (aget L1 i = Some l1) as Hl1 by (subst L1; solve_get).
  assert (l_ep l <> VFS_PROC_NR) as Hep.
  { destruct (tr_slot _ _ _ T _ _ Hl Hu) as (_ & _ & _ & Hvfs & _). intros Hx. by rewrite Hvfs in Hp. }
  unfold sig_catch. pm_go.
  apply (wp_mono _ (fun go s' => if go : bool then st s0 L1 n s' else after s0 None L s') _ never); [| |done].
  - destruct (l_unpaused l) eqn:Hun; cbn [negb].
    { pm_go. assert (l1 = l) as Heq by (subst l1; revert Hun; clear; destruct l; simpl; by intros ->).
      subst L1. by rewrite Heq, aupd_same. }
    pm_step. eapply unpause_ok; [exact Hs|done|done|clear Hs; intros s1 Hs..]; cbn beta.
    + pm_go. rewrite Hun. cbn [negb]. pm_step. eapply wp_add_pending; [exact Hs|solve_get|clear Hs; intros s2 Hs].
      pm_go. by eapply after_same.
    + fold l1 L1 in Hs. pm_go. by pm_go.
    + set (l3 := l <| l_pend := true |> <| l_vfs := true |>) in *. pm_go. change (l_unpaused l3) with (l_unpaused l).
      rewrite Hun. cbn [negb]. pm_step. eapply wp_add_pending; [exact Hs|solve_get|clear Hs; intros s2 Hs].
      pm_go. eapply after_intro; [exact Hs|eapply tree_mild; [done..|by split|]|eapply evolves_mild; [done|by split|done|by auto|done| |]].
      * simpl. subst l3. revert Hf Hu He Hun. flag_cases l.
      * by left.
      * subst l3. simpl. by rewrite Hun.
  - intros [] s1 Hs1; cbn [negb]; [|by pm_go]. clear Hs. pm_step.
    eapply sig_send_ok; [exact Hs1|exact Hl1|done|done|done|intros s2 Hs2; by pm_go|].
    intros s2 Hs2. pm_go. cbn [negb]. unfold L1 in Hs2. rewrite aupd_set_set in Hs2.
    eapply after_intro; [exact Hs2|eapply tree_mild; [done..|by split|]|eapply evolves_mild; [done|by split|done|by auto|done| |]].
    + subst l1. revert Hf Hu He Hv Hp. simpl. flag_cases l.
    + intros Hx. right. by split.
    + intros Hx _. right. by left.
Qed.
Lemma sig_user_ok s0 L n s i l signo ksig :
  st s0 L n s -> tree None L n -> aget L i = Some l -> user l -> 1 <= signo < _NSIG -> (live L <= fuel)%nat ->
  wp (sig_user sp i signo ksig) (fun _ => after s0 None L) never s.
Proof.
  intros Hs T Hl Huser Hsig Hlive. pose proof Huser as (Ha & Hv & Hp).
  assert (l_used l = true) as Hu by (unfold alive in Ha; by apply andb_true_iff in Ha as [? ?]).
  destruct (tr_slot _ _ _ T _ _ Hl Hu) as (_ & _ & Hslot & Hvfs & _).
  assert (l_ep l <> VFS_PROC_NR) as Hep by (intros Hx; by rewrite Hvfs in Hp).
  assert (i <> 0) as Hi0.
  { intros ->. destruct (tr_pm _ _ _ T) as (q & Hq & _ & _ & Hqp & _). congruence. }
  unfold sig_user. pm_go.
  destruct (_ && sigismember (mp_ignore p) signo); [pm_go; by eapply after_same|].
  destruct (_ && sigismember (mp_sigmask p) signo); [eapply wp_add_pending; [done..|intros; by eapply after_same]|].
  destruct (has (mp_flags p) STOPPED && _); [eapply wp_add_pending; [done..|intros; by eapply after_same]|].
  destruct (negb _ && sigismember (mp_catch p) signo) eqn:Hc.
  - assert (signo <> SIGKILL) as Hne.
    { intros ->. apply andb_true_iff in Hc as [_ Hc]. pose proof (lo_catch _ Hok) as Hk. unfold never_kill in Hk. congruence. }
    pm_step. eapply wp_mono; [by eapply sig_catch_ok| |done]. intros [] s1 Hs1; cbn beta iota in Hs1; [|by pm_go].
    pose proof (tree_flags _ _ _ _ _ T Hl Hu) as Hf.
    eapply wp_mono; [eapply sig_proc_exit_ok; [exact Hs1| |solve_get|exact Ha|exact Hv|exact Hep|exact Hi0|]| |done].
    + eapply tree_mild; [done..|by split|]. revert Hf Ha Hv Hp. rewrite bool_decide_false by done. unfold alive. simpl.
      flag_cases l.
    + assert (live (aupd i (fun _ => l <| l_unpaused := true |>) L) = live L) as ->; [|done].
      pose proof (filter_aupd alive L i (fun _ => l <| l_unpaused := true |>) l Hl) as Hx. cbv beta in Hx.
      change (alive (l <| l_unpaused := true |>)) with (alive l) in Hx. unfold live. lia.
    + intros [] s2 (L2 & n2 & Hs2 & T2 & E2 & Hi2). exists L2, n2. split_and!; [done..|].
      eapply ev_unpaused; [exact Hl|exact E2|]. intros l2 Hl2 Hu2. destruct (decide (i = INIT_PROC_NR)) as [->|Hne2].
      * right. destruct (tr_init _ _ _ T) as (q & Hq & _ & _ & ?). congruence.
      * left. destruct (Hi2 Hne2) as (l2' & Hl2' & _ & _ & ?). congruence.
  - destruct (_ && sigismember ign_sset signo); [pm_go; by eapply after_same|].
    eapply wp_mono; [by eapply sig_proc_exit_ok| |done]. intros [] s1. apply ended_after.
Qed.
Lemma sig_system_ok s0 L n s i l signo ksig :
  st s0 L n s -> tree None L n -> aget L i = Some l -> alive l = true -> l_vfs l = false ->
  (ksig = true -> SIGS_IS_TERMINATION signo = true -> l_ep l <> VFS_PROC_NR) -> (live L <= fuel)%nat ->
  wp (sig_system sp i signo ksig) (fun _ => after s0 None L) never s.
Proof.
  intros Hs T Hl Ha Hv Hep Hlive.
  assert (l_used l = true) as Hu by (unfold alive in Ha; by apply andb_true_iff in Ha as [? ?]).
  unfold sig_system. pm_go. destruct (l_ep l =? PM_PROC_NR) eqn:Hpm; [pm_go; by eapply after_same|].
  assert (i <> 0) as Hi0.
  { intros ->. destruct (tr_pm _ _ _ T) as (q & Hq & _ & _ & _ & Hqe). apply Z.eqb_neq in Hpm. congruence. }
  destruct ksig; cbn [negb]; [|pm_go; by eapply after_same].
  pm_step. eapply (wp_mono _ (fun _ s' => st s0 L n s')); [destruct (SIGS_IS_STACKTRACE signo); pm_go; done| |done].
  next_run Hs. destruct (SIGS_IS_TERMINATION signo) eqn:Ht; cbn [negb]; [|pm_go; by eapply after_same].
  eapply wp_mono; [eapply sig_proc_exit_ok; [done..|by apply Hep|done|done]| |done]. intros [] s'. apply ended_after.
Qed.
Lemma sig_proc_body_ok s0 L n s i l signo trace ksig :
  st s0 L n s -> tree None L n -> aget L i = Some l -> alive l = true -> 1 <= signo < _NSIG ->
  (ksig = true -> SIGS_IS_TERMINATION signo = true -> l_ep l <> VFS_PROC_NR) -> (live L <= fuel)%nat ->
  wp (sig_proc_body sp i signo trace ksig) (fun _ => after s0 None L) never s.
Proof.
  intros Hs T Hl Ha Hsig Hep Hlive.
  assert (l_used l = true /\ l_exiting l = false) as [Hu He].
  { unfold alive in Ha. apply andb_true_iff in Ha as [? ?]. by destruct (l_exiting l). }
  unfold sig_proc_body. pm_go. rewrite Hu, He. cbn [negb orb].
  destruct (trace && _ && _) eqn:Htr.
  { apply andb_true_iff in Htr as [[_ Ht]%andb_true_iff _]. apply negb_true_iff, Z.eqb_neq in Ht.
    pm_go. destruct (negb _); [by eapply stop_proc_ok|pm_go; by eapply after_same]. }
  destruct (l_vfs l) eqn:Hv.
  - pm_step. eapply wp_add_pending; [exact Hs|done|clear Hs; intros s1 Hs]. cbn beta.
    destruct (l_pend l) eqn:Hpe; cbn [negb]; [pm_go; by eapply after_same|]. pm_go.
    pose proof (tree_flags _ _ _ _ _ T Hl Hu) as Hf. rewrite bool_decide_false in Hf by done.
    eapply after_intro; [exact Hs|eapply tree_mild; [done..|by split|]|eapply evolves_mild; [done|by split|done|by auto|done| |]].
    + revert Hf Hu He Hv. simpl. flag_cases l.
    + by left.
    + simpl. congruence.
  - destruct (l_priv l) eqn:Hpr; [by eapply sig_system_ok|by eapply sig_user_ok].
Qed.
End recursive.

Lemma sig_proc_fuel_ok fuel : signal_ok (sig_proc_fuel fuel) fuel.
Proof.
  induction fuel as [|fuel IH]; intros s0 L n s i l signo trace ksig Hs T Hl Ha Hsig Hep Hlive; [lia|].
  simpl. eapply sig_proc_body_ok; [exact IH|done..|lia].
Qed.
Lemma live_bound L n : tree None L n -> (live L <= Z.to_nat NR_PROCS)%nat.
Proof. intros T. rewrite <-(tr_len _ _ _ T), Nat2Z.id. apply length_filter. Qed.
Lemma sig_proc_ok : signal_ok sig_proc (S (Z.to_nat NR_PROCS)).
Proof. apply sig_proc_fuel_ok. Qed.
End ending.
