(* ===== verification/PmWf.v ===== *)
(** The state of PM between two messages, and the calls that keep it well-formed. *)
From S2P Require Import Prelude Minix PmBase Pm PmAlarm PmSignal PmCalls PmMain PmTree PmInv PmEnd.
Local Open Scope Z_scope.

(** ** Well-formed states *)
(** Between two messages no process is stopped without an answer of VFS to wait for, except
    init, and a process that has ended has no children and traces no one. *)
Record settled `{MinixHeaders} (x : option Z) (L : list life) : Prop := {
  se_pend i l : x <> Some i -> aget L i = Some l -> l_used l = true -> l_pend l = true ->
    l_vfs l = true \/ l_ep l = INIT_PROC_NR;
  se_unpaused i l : x <> Some i -> aget L i = Some l -> l_used l = true -> l_unpaused l = true -> l_ep l = INIT_PROC_NR;
  se_dep i l : aget L i = Some l -> l_used l = true -> l_exiting l = true -> no_dep L i;
}.
Section wf.
Context `{MinixHeaders} `{PmHeaders} {W : Type} `{PmSched W} `{PmEnv W} `{!PmLaws} `{!EnvLaws}.
Implicit Types (s : state W) (L : list life).

Definition wf s : Prop := exists L n, st s L n s /\ tree None L n /\ settled None L.

Lemma settled_ev x y L L' n' : settled x L -> evolves None L L' -> tree y L' n' -> settled x L'.
Proof.
  intros [Hp Hu Hd] E T. split.
  - intros i l' Hx Hl' Hul Hpe. destruct (evolves_len _ _ _ _ _ E Hl') as [l Hl]. pose proof E as (_ & E' & _).
    destruct (E' _ _ _ Hl Hl') as (Hf & Hv & _ & _ & Hpend & _). destruct (l_vfs l') eqn:Hv'; [by left|right].
    destruct (Hpend Hul Hpe eq_refl) as [Hp0 Hv0]. destruct (Hf Hul) as (Hu0 & _ & -> & _).
    destruct (Hp i l Hx Hl Hu0 Hp0); [congruence|done].
  - intros i l' Hx Hl' Hul Hun. destruct (evolves_len _ _ _ _ _ E Hl') as [l Hl]. pose proof E as (_ & E' & _).
    destruct (E' _ _ _ Hl Hl') as (Hf & Hv & _ & _ & _ & Hunp & _). destruct (Hf Hul) as (Hu0 & _ & -> & _).
    destruct (l_vfs l') eqn:Hv'.
    + pose proof (tree_flags _ _ _ _ _ T Hl' Hul) as Hfl. exfalso.
      revert Hfl Hv' Hun. generalize (bool_decide (y = Some i)) as b. clear. intros []; flag_cases l'.
    + destruct (Hunp Hul Hun eq_refl) as [H1'|[H1'|H1']]; [by apply (Hu i l)| |done].
      destruct (Hp i l Hx Hl Hu0 H1') as [Hvl|]; [by apply Hv in Hvl|done].
  - intros i l' Hl' Hul He. destruct (evolves_len _ _ _ _ _ E Hl') as [l Hl]. pose proof E as (_ & E' & Hn).
    destruct (E' _ _ _ Hl Hl') as (Hf & _). destruct (Hf Hul) as [Hu0 _]. destruct (l_exiting l) eqn:He0; [|by eapply Hn].
    eapply no_dep_ev; [done| |by eapply Hd]. intros ->. by rewrite (tree_init_alive _ _ _ _ T Hl') in He.
Qed.
Lemma wf_intro s0 L n s : st s0 L n s -> tree None L n -> settled None L -> wf s.
Proof. intros Hs T Hse. exists L, n. split_and!; [by eapply st_here|done..]. Qed.
Lemma after_wf s0 L s : settled None L -> after s0 None L s -> wf s.
Proof. intros Hse (L' & n' & Hs & T & E). eapply wf_intro; [done..|by eapply settled_ev]. Qed.
Lemma wp_after_wf s0 L s {A} (m : M (state W) A) :
  settled None L -> wp m (fun _ => after s0 None L) never s -> wp m (fun _ => wf) never s.
Proof. intros Hse Hm. eapply wp_mono; [exact Hm| |done]. intros a s'. by apply after_wf. Qed.

(** ** Pending signals *)
Lemma stays_alive L L' i l :
  evolves None L L' -> aget L i = Some l -> alive l = true -> exists l', aget L' i = Some l' /\ l_used l' = true /\
    l_ep l' = l_ep l /\ (l_vfs l' = false -> alive l' = true).
Proof.
  intros E Hl Ha. destruct (evolves_len' _ _ _ _ _ E Hl) as [l' Hl']. exists l'. split; [done|].
  pose proof E as (_ & E' & _). destruct (E' _ _ _ Hl Hl') as (Hf & _ & Hfr & Hex & _).
  unfold alive in *. apply andb_true_iff in Ha as [Hu He]. apply negb_true_iff in He.
  assert (l_used l' = true) as Hu' by (destruct (l_used l'); [done|destruct (Hfr Hu eq_refl); congruence]).
  destruct (Hf Hu') as (_ & _ & Hep & _). split_and!; [done|done|]. intros Hv. rewrite Hu'. cbn [andb].
  destruct (l_exiting l'); [|done]. by rewrite Hex in Hv.
Qed.
Lemma check_pending_ok s0 L n s i l :
  st s0 L n s -> tree None L n -> aget L i = Some l -> alive l = true -> l_ep l <> VFS_PROC_NR ->
  wp (check_pending i) (fun _ => after s0 None L) never s.
Proof.
  intros Hs T Hl Ha Hep. unfold check_pending. pm_step.
  apply (wp_mono _ (fun _ => after s0 None L) _ never); [|intros a s' Ha'; by pm_go|done].
  apply (wp_for _ _ (fun _ s' => exists L' n' l', st s0 L' n' s' /\ tree None L' n' /\ evolves None L L' /\
    aget L' i = Some l' /\ alive l' = true /\ l_ep l' = l_ep l)).
  - exists L, n, l. split_and!; try done. apply evolves_refl.
  - intros pre k post s1 Hseq (L1 & n1 & l1 & Hs1 & T1 & E1 & Hl1 & Ha1 & Hep1). clear Hs.
    assert (1 <= k < _NSIG) as Hk.
    { assert (k ∈ seqZ 1 (_NSIG - 1)) as Hk by (rewrite Hseq; set_solver). apply elem_of_seqZ in Hk. lia. }
    unfold pending_step. pm_go. destruct (_ && _); [|pm_go; by exists L1, n1, l1].
    pm_go. eapply wp_mono; [eapply sig_proc_ok; [exact Hs1|exact T1|exact Hl1|done|done|congruence|]| |done].
    { pose proof (live_bound _ _ T1). lia. }
    intros [] s9 (L2 & n2 & Hs2 & T2 & E2). pose proof (tree_trans _ _ _ _ _ _ T2 E1 E2) as E. clear Hs1.
    destruct (stays_alive _ _ _ _ E2 Hl1 Ha1) as (l2 & Hl2 & _ & Hep2 & Ha2). pm_go.
    destruct (l_vfs l2) eqn:Hv2; [by eapply after_intro|]. exists L2, n2, l2. split_and!; try done; [by apply Ha2|congruence].
  - intros s1 (L1 & n1 & l1 & Hs1 & T1 & E1 & _). by eapply after_intro.
Qed.

(** ** Answers of VFS *)
Lemma aget_upd_inv (L : list life) i l l' j y :
  aget L i = Some l -> aget (aupd i (fun _ => l') L) j = Some y -> (j = i /\ y = l') \/ (j <> i /\ aget L j = Some y).
Proof. apply (aget_upd_cases L i (fun _ => l')). Qed.
(** A change of slot [i] that keeps who depends on whom; [i] itself may then be unsettled. *)
Lemma settled_upd x L i l l' :
  settled x L -> x = None \/ x = Some i -> aget L i = Some l -> l_used l' = l_used l ->
  l_exiting l' = l_exiting l -> l_parent l' = l_parent l -> l_tracer l' = l_tracer l ->
  settled (Some i) (aupd i (fun _ => l') L).
Proof.
  intros [Hp Hun Hd] Hx Hl Hu He Hpa Htr. split.
  - intros j y Hj Hy. destruct (aget_upd_inv _ _ _ _ _ _ Hl Hy) as [[-> _]|[Hne Hy']]; [done|]. eapply Hp; [|done].
    destruct Hx; congruence.
  - intros j y Hj Hy. destruct (aget_upd_inv _ _ _ _ _ _ Hl Hy) as [[-> _]|[Hne Hy']]; [done|]. eapply Hun; [|done].
    destruct Hx; congruence.
  - intros j y Hy Huy Hey. assert (no_dep L j) as Hnd.
    { destruct (aget_upd_inv _ _ _ _ _ _ Hl Hy) as [[-> ->]|[Hne Hy']]; [|by eapply Hd].
      eapply Hd; [exact Hl|congruence..]. }
    intros k z Hz Huz. destruct (aget_upd_inv _ _ _ _ _ _ Hl Hz) as [[-> ->]|[Hne' Hz']]; [|by eapply Hnd].
    rewrite Hpa, Htr. eapply Hnd; [done|congruence].
Qed.
Lemma settled_close L i l :
  settled (Some i) L -> aget L i = Some l ->
  (l_used l = true -> l_pend l = true -> l_vfs l = true \/ l_ep l = INIT_PROC_NR) ->
  (l_used l = true -> l_unpaused l = true -> l_ep l = INIT_PROC_NR) -> settled None L.
Proof.
  intros [Hp Hun Hd] Hl Hp' Hun'. split; [| |done].
  - intros j y _ Hy. destruct (decide (j = i)) as [->|Hne]; [|apply (Hp j); [congruence|done]].
    assert (y = l) as -> by congruence. done.
  - intros j y _ Hy. destruct (decide (j = i)) as [->|Hne]; [|apply (Hun j); [congruence|done]].
    assert (y = l) as -> by congruence. done.
Qed.
(** VFS has answered for [i]. *)
Lemma tree_answered L n i l :
  tree None L n -> settled None L -> aget L i = Some l -> l_used l = true -> l_vfs l = true ->
  tree (if l_exiting l && negb (l_zombie l || l_tzombie l) then Some i else None)
    (aupd i (fun _ => l <| l_vfs := false |>) L) n.
Proof.
  intros T Hse Hl Hu Hv. destruct (tr_slot _ _ _ T _ _ Hl Hu) as (Hf & Hrest).
  eapply (tree_upd None); [exact T|exact Hl|done|]. split; try done; simpl.
  - split; [|exact Hrest]. revert Hf. simpl. destruct (_ && _) eqn:He.
    + rewrite bool_decide_true by done. revert He Hv. clear. flag_cases l.
    + rewrite bool_decide_false by done. revert He Hv. clear. flag_cases l.
  - intros ->. destruct (tr_init _ _ _ T) as (q & Hq & _ & ? & ?). by assert (q = l) as -> by congruence.
  - intros ->. destruct (tr_pm _ _ _ T) as (q & Hq & _ & ? & ? & ?). by assert (q = l) as -> by congruence.
  - by eapply tr_parent.
  - by eapply tr_tracer.
  - destruct (l_exiting l) eqn:He.
    + right. pose proof (se_dep _ _ Hse _ _ Hl Hu He) as Hd. destruct (Hd _ _ Hl Hu) as [Hd1 Hd2]. split_and!; [done..|].
      intros Ht. apply Hd2. intros ->. destruct (tr_pm _ _ _ T) as (q & Hq & _ & ? & _). congruence.
    + left. intros [? _]. split; [done|]. simpl. congruence.
  - intros _. exact (tr_wait _ _ _ T i l Hl Hu ltac:(done)).
  - exact (tr_twait _ _ _ T i l Hl Hu).
Qed.
Lemma answered_settled L i l :
  settled None L -> aget L i = Some l -> settled (Some i) (aupd i (fun _ => l <| l_vfs := false |>) L).
Proof. intros Hse Hl. eapply (settled_upd None); [done|by left|done..]. Qed.

(** *** The second half of an end *)
Lemma exit_finish_ok s0 L n s i l x :
  st s0 L n s -> tree x L n -> aget L i = Some l ->
  (l_used l = true -> l_exiting l = true /\ l_vfs l = false) -> x = None \/ (x = Some i /\ l_used l = true /\ l_told l = true) ->
  wp (p ← slot i;
      (if negb (has (mp_flags p) PRIV_PROC) then must (sys_clear (mp_endpoint p)) else mret tt);;
      must (vm_exit (mp_endpoint p));;
      (if has (mp_flags p) TRACE_EXIT then
         set_reply (mp_tracer p) (fun m => m <| reply_trace := 0 |>);; setreply (mp_tracer p) OK
       else mret tt);;
      p ← slot i;
      if has (mp_flags p) TOLD_PARENT then cleanup i else mret tt) (fun _ => after s0 None L) never s.
Proof.
  intros Hs T Hl Hex Hx. pm_go.
  assert (exists q, aget L (l_tracer l) = Some q) as [q Hq].
  { apply aget_is_Some. rewrite (st_len _ _ _ _ Hs). rewrite <-Hlp. apply Hok. }
  eapply (wp_mono _ (fun _ s' => st s0 L n s')); [destruct (negb _); by pm_go| |done].
  next_run Hs. pm_go.
  eapply (wp_mono _ (fun _ s' => st s0 L n s')); [| |done].
  { destruct (has (mp_flags p) TRACE_EXIT); [|by pm_go]. pm_go. eapply wp_setreply; [exact Hs|done|by auto]. }
  next_run Hs. pm_go. destruct (l_used l) eqn:Hu.
  - destruct (Hex eq_refl) as [He Hv]. destruct Hx as [->|(-> & _ & Ht)].
    + destruct (l_told l) eqn:Ht; [|pm_go; by eapply after_same].
      eapply cleanup_ok; [exact Hs|exact T|done|done..].
    + rewrite Ht. eapply cleanup_ok; [exact Hs|exact T|congruence|done..].
  - destruct Hx as [->|(_ & ? & _)]; [|done].
    destruct (tr_free _ _ _ T _ _ Hl Hu) as (_ & _ & _ & _ & _ & ->). pm_go. by eapply after_same.
Qed.
Lemma exit_restart_ok s0 L n s i l (dump : bool) :
  st s0 L n s -> tree (if l_zombie l || l_tzombie l then None else Some i) L n ->
  aget L i = Some l -> l_used l = true -> l_exiting l = true -> l_vfs l = false ->
  dump = negb (l_zombie l || l_tzombie l || l_told l) ->
  wp (exit_restart i dump) (fun _ => after s0 None L) never s.
Proof.
  intros Hs T Hl Hu He Hv Hd. unfold exit_restart. pm_go.
  apply (wp_mono _ (fun _ s' => exists x L' n' l', st s0 L' n' s' /\ tree x L' n' /\ evolves None L L' /\ aget L' i = Some l' /\
    (x = None \/ (x = Some i /\ l_used l' = true /\ l_told l' = true))) _ never); [| |done].
  - destruct dump.
    + symmetry in Hd. apply negb_true_iff, orb_false_iff in Hd as [[Hz Htz]%orb_false_iff Hto]. rewrite Hz, Htz in T.
      eapply wp_mono; [eapply zombify_ok; [apply sig_proc_ok|exact Hs|exact T|done..|]| |done].
      { assert (live L <= length L)%nat by apply length_filter. pose proof (tr_len _ _ _ T). lia. }
      intros [] s' [(L' & n' & Hs' & T' & E')|[_ (L' & n' & l' & Hs' & T' & E' & Hl' & Hu' & He' & Hv' & Ht')]].
      * destruct (evolves_len' _ _ _ _ _ E' Hl) as [l' Hl']. exists None, L', n', l'. split_and!; [done..|by left].
      * exists (Some i), L', n', l'. split_and!; [done..|by right].
    + pm_go. symmetry in Hd. apply negb_false_iff in Hd. destruct (l_zombie l || l_tzombie l) eqn:Hz.
      * exists None, L, n, l. split_and!; try done; [apply evolves_refl|by left].
      * exists (Some i), L, n, l. split_and!; try done; [apply evolves_refl|by right].
  - clear Hs. intros [] s9 (x & L1 & n1 & l1 & Hs1 & T1 & E1 & Hl1 & Hx). cbn beta.
    eapply wp_chain; [exact Hs1|exact E1| |done].
    eapply exit_finish_ok; [by eapply st_here|exact T1|exact Hl1| |exact Hx].
    intros Hu1. destruct E1 as (_ & E1 & _). destruct (E1 _ _ _ Hl Hl1) as (Hf & _ & _ & _ & _ & _ & Hv1 & _).
    destruct (Hf Hu1) as (_ & _ & _ & _ & _ & _ & _ & He1). split; [auto|]. destruct (l_vfs l1); [|done]. by rewrite Hv1 in Hv.
Qed.

(** *** The signals kept during a call of VFS *)
Lemma alive_split l : alive l = true -> l_used l = true /\ l_exiting l = false.
Proof. unfold alive. intros [? ?]%andb_true_iff. by destruct (l_exiting l). Qed.
Lemma init_slot L n i l : tree None L n -> aget L i = Some l -> l_used l = true -> l_ep l = INIT_PROC_NR -> i = INIT_PROC_NR.
Proof.
  intros T Hl Hu He. destruct (tr_slot _ _ _ T _ _ Hl Hu) as (_ & _ & <- & _).
  destruct (tr_init _ _ _ T) as (q & Hq & Hqu & _ & Hqe). destruct (tr_slot _ _ _ T _ _ Hq Hqu) as (_ & _ & <- & _).
  congruence.
Qed.
Lemma restart_sigs_ok s0 L n s i l :
  st s0 L n s -> tree None L n -> settled (Some i) L -> aget L i = Some l -> alive l = true ->
  l_ep l <> VFS_PROC_NR -> i <> 0 ->
  (l_vfs l = false -> l_unpaused l = true -> l_pend l = true \/ l_ep l = INIT_PROC_NR) ->
  wp (restart_sigs i) (fun _ => wf) never s.
Proof.
  intros Hs T Hse Hl Ha Hep Hi0 Hup. destruct (alive_split _ Ha) as [Hu He]. destruct (st_mp_get _ _ _ _ Hs) as [lm Hm].
  unfold restart_sigs. pm_go. rewrite has_mask. to_life p Hlp. rewrite He, orb_false_r.
  destruct (l_vfs l) eqn:Hv.
  { pm_go. eapply wf_intro; [exact Hs|exact T|]. eapply settled_close; [exact Hse|exact Hl|by left|].
    intros _ Hx. exfalso. pose proof (tree_flags _ _ _ _ _ T Hl Hu) as Hf. revert Hf Hx Hv. simpl. clear. flag_cases l. }
  destruct (has (mp_flags p) TRACE_EXIT).
  { eapply wp_mono; [eapply exit_proc_ok; [apply sig_proc_ok|exact Hs|exact T|done..|exact Hm|]| |done].
    { pose proof (live_bound _ _ T). lia. }
    intros [] s' (L' & n' & Hs' & T' & E' & Hend). destruct (stays_alive _ _ _ _ E' Hl Ha) as (l' & Hl' & Hu' & Hep' & _).
    eapply wf_intro; [exact Hs'|exact T'|]. eapply settled_close; [by eapply settled_ev|exact Hl'|..]; intros _ Hx;
      (destruct (decide (i = INIT_PROC_NR)) as [->|Hne];
       [destruct (tr_init _ _ _ T') as (q & Hq & _ & _ & Hqe); assert (q = l') as -> by congruence; by auto|]);
      destruct (Hend Hne) as (l'' & Hl'' & _ & He'' & Hv''); assert (l'' = l') as -> by congruence.
    - by left.
    - exfalso. pose proof (tree_flags _ _ _ _ _ T' Hl' Hu') as Hf. revert Hf Hx Hv''. simpl. clear. flag_cases l'. }
  destruct (l_pend l) eqn:Hp'.
  - pm_step. eapply wp_mono; [by eapply check_pending_ok| |done].
    intros [] s' (L' & n' & Hs' & T' & E'). cbn beta. clear Hs. rename Hs' into Hs.
    destruct (stays_alive _ _ _ _ E' Hl Ha) as (l' & Hl' & Hu' & Hep' & Ha'). pm_go.
    destruct (l_vfs l') eqn:Hv'; cbn [negb].
    + pm_go. eapply wf_intro; [exact Hs|exact T'|]. eapply settled_close; [by eapply settled_ev|exact Hl'|by auto|].
      intros _ Hx. exfalso. pose proof (tree_flags _ _ _ _ _ T' Hl' Hu') as Hf. revert Hf Hx Hv'. simpl. clear. flag_cases l'.
    + pm_go. set (l2 := l' <| l_pend := false |> <| l_unpaused := false |>) in *.
      pose proof (settled_ev _ _ _ _ _ Hse E' T') as Hse'.
      eapply wf_intro; [exact Hs| |].
      * eapply tree_mild; [done..|by split|]. pose proof (tree_flags _ _ _ _ _ T' Hl' Hu') as Hf.
        revert Hf. subst l2. simpl. clear. flag_cases l'.
      * eapply settled_close; [eapply (settled_upd (Some i)); [exact Hse'|by right|exact Hl'|done..]|solve_get|done..].
  - pm_go. eapply wf_intro; [exact Hs|exact T|]. eapply settled_close; [exact Hse|exact Hl|congruence|].
    intros _ Hx. by destruct (Hup eq_refl Hx).
Qed.

(** *** The answers *)
(** The state after the part of an answer that depends on the request. *)
Definition answered s0 i ep s : Prop :=
  exists L n l, st s0 L n s /\ tree None L n /\ settled (Some i) L /\ aget L i = Some l /\
    (l_used l = true -> l_ep l = ep) /\
    (l_used l = true -> l_vfs l = false -> l_unpaused l = true -> l_pend l = true \/ l_ep l = INIT_PROC_NR).
Lemma answered_intro s0 L n s i l :
  st s0 L n s -> tree None L n -> settled (Some i) L -> aget L i = Some l -> l_unpaused l = false ->
  answered s0 i (l_ep l) s.
Proof. intros Hs T Hse Hl Hu. exists L, n, l. split_and!; try done. congruence. Qed.
Lemma after_answered s0 L s i l :
  settled (Some i) L -> aget L i = Some l -> l_unpaused l = false -> after s0 None L s -> answered s0 i (l_ep l) s.
Proof.
  intros Hse Hl Hun (L' & n' & Hs & T & E). destruct (evolves_len' _ _ _ _ _ E Hl) as [l' Hl'].
  exists L', n', l'. split_and!; [done|done|by eapply settled_ev|done|..];
    destruct E as (_ & E & _); destruct (E _ _ _ Hl Hl') as (Hf & _ & _ & _ & _ & Hup & _ & Hk).
  - intros Hu. by destruct (Hf Hu) as (_ & _ & ? & _).
  - intros Hu Hv Hx. destruct (Hup Hu Hx Hv) as [?|[Hp'|Hi]]; [congruence| |].
    + left. apply Hk; [done| |done]. pose proof (tree_flags _ _ _ _ _ T Hl' Hu) as Hfl. revert Hfl Hx. simpl. clear. flag_cases l'.
    + right. destruct (Hf Hu) as (_ & _ & -> & _). done.
Qed.
Lemma restart_answered_ok s0 s i ep :
  answered s0 i ep s -> ep <> VFS_PROC_NR -> i <> 0 ->
  wp (p ← slot i; if has (mp_flags p) IN_USE && negb (has (mp_flags p) EXITING) then restart_sigs i else mret tt)
    (fun _ => wf) never s.
Proof.
  intros (L & n & l & Hs & T & Hse & Hl & Hep & Hup) Hne Hi0. pm_go.
  destruct (l_used l && negb (l_exiting l)) eqn:Ha.
  - apply andb_true_iff in Ha as [Hu He]. eapply restart_sigs_ok; [done..|by unfold alive; rewrite Hu|by rewrite Hep|done|by apply Hup].
  - pm_go. eapply wf_intro; [exact Hs|exact T|].
    assert (l_used l = true -> l_exiting l = true /\ flags_ok false l = true) as Hx.
    { intros Hu. rewrite Hu in Ha. apply negb_false_iff in Ha. split; [done|exact (tree_flags _ _ _ _ _ T Hl Hu)]. }
    eapply settled_close; [done..| |]; intros Hu Hy; destruct (Hx Hu) as [He Hf]; exfalso; revert Hf He Hy; clear; flag_cases l.
Qed.

Lemma reset_caught_ok n p : local_ok p -> life_of (reset_caught n p) = life_of p /\ local_ok (reset_caught n p).
Proof.
  intros Hok. unfold reset_caught. destruct (sigismember _ _) eqn:Hc; [|done]. split; [done|].
  assert (n <> SIGKILL) as Hne by (intros ->; pose proof (lo_catch _ Hok) as Hx; unfold never_kill in Hx; congruence).
  split; try apply Hok; simpl.
  - rewrite length_aupd. apply Hok.
  - unfold never_kill, sigismember, sigdelset. rewrite Z.clearbit_neq; [apply Hok|done].
  - unfold aupd. case_bool_decide; [|apply Hok]. apply list.Forall_alter; [apply Hok|]. intros a _ _. apply Z.bits_0.
Qed.
Lemma reset_all_ok l p : local_ok p ->
  life_of (foldl (fun p n => reset_caught n p) p l) = life_of p /\ local_ok (foldl (fun p n => reset_caught n p) p l).
Proof.
  revert p. induction l as [|n l IH]; intros p Hok; [done|]. simpl. destruct (reset_caught_ok n p Hok) as [E Hok'].
  destruct (IH _ Hok') as [-> ?]. done.
Qed.
Lemma sig_fuel L n : tree None L n -> (live L < S (Z.to_nat NR_PROCS))%nat.
Proof. intros T. pose proof (live_bound _ _ T). lia. Qed.
Lemma spares_user proc_id signo L : spares_vfs proc_id signo false L.
Proof. done. Qed.
Lemma check_sig_run s0 L n s proc_id signo ksig :
  st s0 L n s -> tree None L n -> spares_vfs proc_id signo ksig L ->
  wp (check_sig sig_proc proc_id signo ksig) (fun _ => after s0 None L) never s.
Proof.
  intros Hs T Hv. destruct (st_mp_get _ _ _ _ Hs) as [lm Hm].
  eapply check_sig_ok; [apply sig_proc_ok|done..|by eapply sig_fuel].
Qed.
Lemma exec_restart_ok s0 L n s i l r pc :
  st s0 L n s -> tree None L n -> aget L i = Some l -> wp (exec_restart i r pc) (fun _ => after s0 None L) never s.
Proof.
  intros Hs T Hl. unfold exec_restart. pm_go. destruct (negb (is_ok r)).
  { destruct (has (mp_flags p) PARTIAL_EXEC); [pm_go; by eapply after_same|].
    eapply wp_setreply; [exact Hs|done|intros; by eapply after_same]. }
  pm_go. eapply wp_set_quiet; [exact Hs|done|intros q _ _ Hq; by apply reset_all_ok|next_state Hs].
  pm_step. apply (wp_mono _ (fun _ => after s0 None L) _ never); [| |done].
  - destruct (_ && _); [|pm_go; by eapply after_same]. pm_step.
    eapply wp_mono; [by eapply check_sig_run| |done]. intros r' s' Ha. by pm_go.
  - clear Hs. intros [] s9 (L1 & n1 & Hs & T1 & E1). cbn beta. pm_go. by eapply after_intro.
Qed.
Lemma sched_start_user_ok s0 L n s ep i l :
  st s0 L n s -> tree None L n -> aget L i = Some l -> l_used l = true -> l_priv l = false ->
  wp (sched_start_user ep i) (fun _ s' => st s0 L n s') never s.
Proof.
  intros Hs T Hl Hu Hp'. destruct (tr_parent _ _ _ T _ _ Hl Hu) as (_ & q & Hq & _). unfold sched_start_user. pm_step. pm_step.
  cbn beta. pm_step. unfold wp at 1. rewrite nice_to_priority_spec; [|pose proof (lo_nice _ Hok); lia].
  rewrite bool_decide_true by apply Hok. change (negb (is_ok OK)) with false. cbv iota. to_life p Hlp. pm_go.
  apply (wp_mono _ (fun _ s' => s' = s) _ never); [| |done].
  - destruct (l_priv q) eqn:Hqp; [|by pm_go]. assert (mp_scheduler p0 = NONE) as ->.
    { apply (lo_sched _ Hok0). change (l_priv (life_of p0) = true). by rewrite Hlp0. }
    rewrite Z.eqb_refl. pm_step. apply wp_assert; [done|]. by pm_go.
  - intros a s' ->. pm_step. pm_step. destruct (sched_inherit _ _ _ _ _) as [[rv newsched] w']. cbn [fst].
    pm_step. eapply wp_set_quiet; [exact Hs|done| |next_state Hs; by pm_go].
    intros r _ Hr Hokr. split; [done|]. split; try apply Hokr. simpl. change (has (mp_flags r) PRIV_PROC) with (l_priv (life_of r)).
    rewrite Hr. congruence.
Qed.

(** The answer is to the request that the process is waiting for. *)
Definition fits (nr : Z) (l : life) : bool :=
  let noted := l_zombie l || l_tzombie l || l_told l in
  if (nr =? PM_SETUID_REPLY) || (nr =? PM_SETGID_REPLY) || (nr =? PM_SETGROUPS_REPLY) then alive l else
  if nr =? PM_SETSID_REPLY then alive l else
  if nr =? PM_EXEC_REPLY then alive l else
  if nr =? PM_EXIT_REPLY then l_exiting l && noted else
  if nr =? PM_CORE_REPLY then l_exiting l && negb noted else
  if nr =? PM_FORK_REPLY then alive l && negb (l_priv l) else
  if nr =? PM_SRV_FORK_REPLY then alive l else
  (nr =? PM_UNPAUSE_REPLY) && (alive l && l_pend l && negb (l_priv l)).
Lemma wp_setreply_local s0 L n s k r (Q : unit -> state W -> Prop) :
  st s0 L n s -> 0 <= k < NR_PROCS -> (forall s', st s0 L n s' -> Q tt s') -> wp (setreply k r) Q never s.
Proof.
  intros Hs Hk HQ. rewrite <-(st_len _ _ _ _ Hs) in Hk. apply aget_is_Some in Hk as [q Hq].
  eapply wp_setreply; [exact Hs|exact Hq|exact HQ].
Qed.
Lemma fork_answer_ok s0 L n s i l :
  st s0 L n s -> tree None L n -> settled (Some i) L -> aget L i = Some l -> alive l = true -> l_vfs l = false ->
  l_priv l = false -> l_unpaused l = false ->
  wp (p ← slot i;
      r ← (if negb (mp_scheduler p =? KERNEL) && negb (mp_scheduler p =? NONE) then sched_start_user (mp_scheduler p) i
           else mret OK);
      if negb (is_ok r) then
        set_slot i (fun p => p <| mp_scheduler := NONE |>);;
        exit_proc sig_proc i (-1) false;;
        p ← slot i;
        setreply (mp_parent p) (Rc (-1))
      else
        setreply i OK;;
        p ← slot i;
        setreply (mp_parent p) (Rc (mp_pid p))) (fun _ => answered s0 i (l_ep l)) never s.
Proof.
  intros Hs T Hse Hl Ha Hv Hpr Hun. destruct (alive_split _ Ha) as [Hu He]. destruct (st_mp_get _ _ _ _ Hs) as [lm Hm].
  destruct (tr_slot _ _ _ T _ _ Hl Hu) as (_ & _ & _ & Hvfs & _).
  assert (i <> 0) as Hi0.
  { intros ->. destruct (tr_pm _ _ _ T) as (q & Hq & _ & _ & Hqp & _). congruence. }
  pm_go. apply (wp_mono _ (fun _ s' => st s0 L n s') _ never); [| |done].
  { destruct (_ && _); [by eapply sched_start_user_ok|by pm_go]. }
  clear Hs. intros r s1 Hs. cbn beta. destruct (negb (is_ok r)).
  - pm_go. eapply wp_mono; [eapply exit_proc_ok; [apply sig_proc_ok|exact Hs|exact T|exact Hl|done|done| |done|exact Hm|]| |done].
    + intros Hx. by rewrite Hvfs in Hpr.
    + pose proof (sig_fuel _ _ T). lia.
    + intros [] s' Hend%ended_after. cbn beta. pose proof Hend as (L' & n' & Hs' & T' & E').
      destruct (evolves_len' _ _ _ _ _ E' Hl) as [l' Hl']. clear Hs. pm_go.
      eapply wp_setreply_local; [exact Hs'|rewrite <-Hlp0; apply Hok0|]. intros s9 Hs9.
      eapply after_answered; [exact Hse|exact Hl|exact Hun|]. by eapply after_intro.
  - pm_go. eapply wp_setreply; [exact Hs|done|next_state Hs]. pm_go.
    eapply wp_setreply_local; [exact Hs|rewrite <-Hlp0; apply Hok0|]. intros s9 Hs9. by eapply answered_intro.
Qed.
Lemma vfs_answer_ok s0 L n s i l nr :
  st s0 L n s -> tree (if l_exiting l && negb (l_zombie l || l_tzombie l) then Some i else None) L n ->
  settled (Some i) L -> aget L i = Some l -> l_used l = true -> l_vfs l = false -> l_unpaused l = false ->
  fits nr l = true -> wp (vfs_answer i nr) (fun _ => answered s0 i (l_ep l)) never s.
Proof.
  intros Hs T Hse Hl Hu Hv Hun Hfit. unfold fits in Hfit.
  assert (alive l = true -> tree None L n) as Ta.
  { intros Ha. destruct (alive_split _ Ha) as [_ He]. by rewrite He in T. }
  unfold vfs_answer. pm_step. pm_step. cbn beta.
  destruct (_ || _) eqn:E1 in |- *; rewrite ?E1 in Hfit.
  { pm_go. eapply wp_setreply; [exact Hs|done|next_state Hs]. eapply answered_intro; [exact Hs|by apply Ta|done..]. }
  destruct (nr =? PM_SETSID_REPLY).
  { pm_go. eapply wp_setreply; [exact Hs|done|next_state Hs]. eapply answered_intro; [exact Hs|by apply Ta|done..]. }
  destruct (nr =? PM_EXEC_REPLY).
  { pm_go. eapply wp_mono; [eapply exec_restart_ok; [exact Hs|by apply Ta|done]| |done].
    intros [] s'. by apply after_answered. }
  destruct (nr =? PM_EXIT_REPLY).
  { apply andb_true_iff in Hfit as [He Hn]. rewrite He in T. pm_go.
    eapply wp_mono; [eapply (exit_restart_ok _ _ _ _ _ l); [exact Hs| |done..|by rewrite Hn]| |done].
    - revert T. by destruct (l_zombie l || l_tzombie l).
    - intros [] s'. by apply after_answered. }
  destruct (nr =? PM_CORE_REPLY).
  { apply andb_true_iff in Hfit as [He Hn]. rewrite He in T. pm_go.
    eapply (wp_mono _ (fun _ s' => st s0 L n s')); [destruct (is_ok _); by pm_go| |done]. next_run Hs.
    eapply wp_mono; [eapply (exit_restart_ok _ _ _ _ _ l); [exact Hs| |done..]| |done].
    - revert T. by destruct (l_zombie l || l_tzombie l).
    - intros [] s'. by apply after_answered. }
  destruct (nr =? PM_FORK_REPLY).
  { apply andb_true_iff in Hfit as [Ha Hpr%negb_true_iff]. eapply fork_answer_ok; [exact Hs|by apply Ta|done..]. }
  destruct (nr =? PM_SRV_FORK_REPLY); [pm_go; eapply answered_intro; [exact Hs|by apply Ta|done..]|].
  apply andb_true_iff in Hfit as [-> [[Ha Hp']%andb_true_iff Hpr%negb_true_iff]%andb_true_iff].
  destruct (alive_split _ Ha) as [_ He]. rewrite He in T. pm_go. set (l2 := l <| l_unpaused := true |>) in *.
  exists (aupd i (fun _ => l2) L), n, l2. split_and!; [exact Hs| | |solve_get|done|by left].
  - eapply tree_mild; [exact T|done..|by split|]. pose proof (tree_flags _ _ _ _ _ T Hl Hu) as Hf.
    revert Hf He Hv Hpr. subst l2. simpl. clear. flag_cases l.
  - eapply (settled_upd (Some i)); [done|by right|done..].
Qed.

Lemma wp_isokendpt s0 L n s i l x (Q : rc * Z -> state W -> Prop) :
  st s0 L n s -> tree x L n -> aget L i = Some l -> l_used l = true -> Q (OK, i) s ->
  wp (pm_isokendpt (l_ep l)) Q never s.
Proof.
  intros Hs T Hl Hu HQ. destruct (tr_slot _ _ _ T _ _ Hl Hu) as (_ & _ & Hslot & _).
  pose proof (aget_range _ _ _ Hl) as Hr. rewrite (st_len _ _ _ _ Hs) in Hr. pose proof CLOCK_task.
  unfold pm_isokendpt. rewrite Hslot. replace ((i <? - NR_TASKS) || (NR_PROCS <=? i)) with false by lia.
  replace (i <? 0) with false by lia. pm_go. rewrite Z.eqb_refl, Hu. by pm_go.
Qed.
(** Process [i] waits for the answer [nr]. *)
Definition awaits s (i : Z) (nr : Z) : Prop :=
  0 < i /\ exists l, aget (lives s) i = Some l /\ l_used l = true /\ l_vfs l = true /\ l_ep l = PM_PROC (m_in s) /\
    l_ep l <> VFS_PROC_NR /\ fits nr l = true.
Lemma handle_vfs_reply_ok s :
  wf s -> call_nr s = PM_REBOOT_REPLY \/ (exists i, awaits s i (call_nr s)) -> wp handle_vfs_reply (fun _ => wf) never s.
Proof.
  intros (L & n & Hs & T & Hse) Hreq. unfold handle_vfs_reply. pm_step. pm_step. cbn beta.
  destruct (call_nr s =? PM_REBOOT_REPLY) eqn:Hnr; [pm_go; by eapply wf_intro|].
  destruct Hreq as [Hreq|(i & Hi0 & l & Hl & Hu & Hv & Hep & Hne & Hfit)]; [lia|].
  rewrite (st_lives _ _ _ _ Hs) in Hl. rewrite <-Hep. pm_step. eapply wp_isokendpt; [exact Hs|exact T|done..|].
  change (negb (is_ok OK)) with false. cbv iota. pm_go. rewrite Hv. cbn [negb]. pm_go.
  pose proof (tree_flags _ _ _ _ _ T Hl Hu) as Hf.
  assert (l_unpaused l = false) as Hun by (revert Hf Hv; simpl; clear; flag_cases l). rewrite Hun. 
  set (l1 := l <| l_vfs := false |>) in *.
  pm_step. eapply wp_mono; [eapply (vfs_answer_ok _ _ _ _ _ l1); [exact Hs| |by apply answered_settled|solve_get|done..]| |done].
  - exact (tree_answered _ _ _ _ T Hse Hl Hu Hv).
  - intros [] s' Ha. eapply restart_answered_ok; [exact Ha|done|lia].
Qed.
End wf.
