(* ===== verification/PmFork.v ===== *)
(** [fork] and [waitpid] on well-formed states: a slot is filled, a process begins to wait
    for its children, and a zombie is collected. *)
From S2P Require Import Prelude Minix PmBase Pm PmAlarm PmSignal PmCalls PmMain PmTree PmInv PmEnd PmWf.
Local Open Scope Z_scope.

(** ** Changes of the tree *)
Section tree.
Context `{MinixHeaders}.
Implicit Types (L : list life).

(** The life of a process that was just forked into slot [i]. *)
Record newborn L (i : Z) (c : life) : Prop := {
  nb_flags : (l_used c, l_exiting c, l_zombie c, l_tzombie c, l_told c, l_waiting c, l_pend c, l_unpaused c) =
             (true, false, false, false, false, false, false, false);
  nb_pid : 0 < l_pid c;
  nb_fresh j l : aget L j = Some l -> l_used l = true -> l_pid l <> l_pid c;
  nb_slot : _ENDPOINT_P (l_ep c) = i /\ l_ep c <> VFS_PROC_NR;
  nb_parent : 0 < l_parent c /\ exists q, aget L (l_parent c) = Some q /\ l_used q = true /\ l_exiting q = false;
  nb_tracer : l_tracer c <> 0 -> exists q, aget L (l_tracer c) = Some q /\ l_used q = true /\ l_exiting q = false;
}.
Lemma tree_new L n i l c :
  tree None L n -> aget L i = Some l -> l_used l = false -> newborn L i c ->
  tree None (aupd i (fun _ => c) L) (n + 1).
Proof.
  intros T Hl Hu [Hfl Hpid Hfresh [Hslot Hvfs] [Hpos Hpa] Htr]. injection Hfl as E1 E2 E3 E4 E5 E6 E7 E8.
  assert (forall k q, aget L k = Some q -> l_used q = true -> aget (aupd i (fun _ => c) L) k = Some q) as Hkeep.
  { intros k q Hq Hqu. rewrite aget_aupd_ne; [done|]. intros ->. congruence. }
  assert (forall k q, aget L k = Some q -> head_ok q -> exists q', aget (aupd i (fun _ => c) L) k = Some q' /\ head_ok q') as Hhead.
  { intros k q Hq Hok. exists q. split; [|done]. apply Hkeep; [done|apply Hok]. }
  assert (forall k q, aget L k = Some q -> l_used q = true /\ l_exiting q = false -> head_ok q) as Hlive.
  { intros k q _ [? ?]. split; [done|congruence]. }
  assert (forall z k y, no_wait L z k y -> no_wait (aupd i (fun _ => c) L) z k y) as Hnw.
  { intros z k y Hn Hz q Hq He. destruct (aget_upd_cases _ _ _ _ _ _ Hl Hq) as [[-> ->]|[_ Hq']]; [|by eapply Hn].
    unfold wait_match. by rewrite E6. }
  split.
  - rewrite length_aupd. apply T.
  - pose proof (filter_aupd l_used L i (fun _ => c) l Hl) as Hf. cbv beta in Hf. rewrite Hu, E1 in Hf.
    pose proof (tr_count _ _ _ T). lia.
  - intros j y Hy Hfree. destruct (aget_upd_cases _ _ _ _ _ _ Hl Hy) as [[-> ->]|[_ Hy']]; [congruence|by eapply tr_free].
  - intros j y Hy Huy. destruct (aget_upd_cases _ _ _ _ _ _ Hl Hy) as [[-> ->]|[_ Hy']]; [|by eapply tr_slot].
    unfold slot_ok, flags_ok. rewrite E2, E3, E4, E5, E6, E7, E8. by split_and!.
  - intros j y Hy Huy. destruct (aget_upd_cases _ _ _ _ _ _ Hl Hy) as [[-> ->]|[_ Hy']].
    + split; [done|]. destruct Hpa as (q & Hq & Hok). eapply Hhead; [done|by eapply Hlive].
    + destruct (tr_parent _ _ _ T _ _ Hy' Huy) as (? & q & Hq & Hok). split; [done|]. by eapply Hhead.
  - intros j y Hy Huy Ht. destruct (aget_upd_cases _ _ _ _ _ _ Hl Hy) as [[-> ->]|[_ Hy']].
    + destruct (Htr Ht) as (q & Hq & Hok). eapply Hhead; [done|by eapply Hlive].
    + destruct (tr_tracer _ _ _ T _ _ Hy' Huy Ht) as (q & Hq & Hok). by eapply Hhead.
  - intros j y Hy Huy _. apply Hnw. destruct (aget_upd_cases _ _ _ _ _ _ Hl Hy) as [[-> ->]|[_ Hy']].
    + unfold no_wait. by rewrite E3.
    + by eapply tr_wait.
  - intros j y Hy Huy. apply Hnw. destruct (aget_upd_cases _ _ _ _ _ _ Hl Hy) as [[-> ->]|[_ Hy']].
    + unfold no_wait. by rewrite E4.
    + by eapply tr_twait.
  - intros j k y z Hy Hz Huy Huz Heq.
    destruct (aget_upd_cases _ _ _ _ _ _ Hl Hy) as [[-> ->]|[_ Hy']],
      (aget_upd_cases _ _ _ _ _ _ Hl Hz) as [[-> ->]|[_ Hz']]; [done| | |by eapply tr_pids].
    + by destruct (Hfresh _ _ Hz' Huz).
    + by destruct (Hfresh _ _ Hy' Huy).
  - destruct (tr_init _ _ _ T) as (q & Hq & Hqu & ?). exists q. split; [by apply Hkeep|done].
  - destruct (tr_pm _ _ _ T) as (q & Hq & Hqu & ?). exists q. split; [by apply Hkeep|done].
Qed.
Lemma settled_new L n i l c :
  tree None L n -> settled None L -> aget L i = Some l -> l_used l = false -> newborn L i c ->
  settled None (aupd i (fun _ => c) L).
Proof.
  intros T [Hp Hun Hd] Hl Hu [Hfl _ _ _ [_ Hpa] Htr]. injection Hfl as E1 E2 E3 E4 E5 E6 E7 E8. split.
  - intros j y Hj Hy Huy Hpe. destruct (aget_upd_cases _ _ _ _ _ _ Hl Hy) as [[-> ->]|[_ Hy']]; [congruence|by eapply Hp].
  - intros j y Hj Hy Huy Hpe. destruct (aget_upd_cases _ _ _ _ _ _ Hl Hy) as [[-> ->]|[_ Hy']]; [congruence|by eapply Hun].
  - intros j y Hy Huy He. destruct (aget_upd_cases _ _ _ _ _ _ Hl Hy) as [[-> ->]|[_ Hy']]; [congruence|].
    intros k z Hz Huz. destruct (aget_upd_cases _ _ _ _ _ _ Hl Hz) as [[-> ->]|[_ Hz']]; [|by eapply Hd].
    destruct Hpa as (q & Hq & Hqu & Hqe). split; [intros Heq; congruence|].
    intros Hj Heq. destruct Htr as (q' & Hq' & _ & Hqe'); congruence.
Qed.

(** Process [i] begins to wait, when no zombie is there that it waits for. *)
Lemma tree_waits L n i l pidarg :
  tree None L n -> aget L i = Some l -> alive l = true -> i <> 0 -> l_waiting l = false ->
  (forall j c, aget L j = Some c -> l_used c = true ->
     (l_zombie c = true /\ l_parent c = i) \/ (l_tzombie c = true /\ l_tracer c = i) ->
     wait_match (l <| l_waiting := true |> <| l_wpid := pidarg |>) c = false) ->
  tree None (aupd i (fun _ => l <| l_waiting := true |> <| l_wpid := pidarg |>) L) n.
Proof.
  intros T Hl Ha Hi Hw Hno. destruct (alive_split _ Ha) as [Hu He].
  set (l' := l <| l_waiting := true |> <| l_wpid := pidarg |>) in *.
  assert (forall j y, aget (aupd i (fun _ => l') L) j = Some y -> l_used y = true ->
    exists y0, aget L j = Some y0 /\ l_used y0 = true /\ (y = y0 \/ (j = i /\ y0 = l /\ y = l'))) as Hold.
  { intros j y Hy Huy. destruct (aget_upd_cases _ _ _ _ _ _ Hl Hy) as [[-> ->]|[_ Hy']];
      [exists l|exists y]; split_and!; auto. }
  assert (forall k q, aget L k = Some q -> head_ok q -> exists q', aget (aupd i (fun _ => l') L) k = Some q' /\ head_ok q') as Hhead.
  { intros k q Hq Hok. destruct (decide (k = i)) as [->|Hne].
    - exists l'. split; [solve_get|]. by assert (q = l) as -> by congruence.
    - exists q. split; [|done]. by rewrite aget_aupd_ne by done. }
  assert (forall z k y, no_wait L z k y -> (z = true -> k = i -> wait_match l' y = false) ->
    no_wait (aupd i (fun _ => l') L) z k y) as Hnw.
  { intros z k y Hn Hm Hz q Hq Heq. destruct (aget_upd_cases _ _ _ _ _ _ Hl Hq) as [[-> ->]|[_ Hq']]; [by apply Hm|by eapply Hn]. }
  split.
  - rewrite length_aupd. apply T.
  - pose proof (filter_aupd l_used L i (fun _ => l') l Hl) as Hf. cbv beta in Hf. change (l_used l') with (l_used l) in Hf.
    rewrite Hu in Hf. pose proof (tr_count _ _ _ T). lia.
  - intros j y Hy Hfree. destruct (aget_upd_cases _ _ _ _ _ _ Hl Hy) as [[-> ->]|[_ Hy']]; [|by eapply tr_free].
    change (l_used l') with (l_used l) in Hfree. congruence.
  - intros j y Hy Huy. destruct (Hold j y Hy Huy) as (y0 & Hy0 & Hu0 & [->|(-> & -> & ->)]); [by eapply tr_slot|].
    destruct (tr_slot _ _ _ T _ _ Hl Hu) as (Hf & ? & ? & ? & ? & ?). split; [|by split_and!].
    rewrite bool_decide_false in * by done. revert Hf He. unfold l'. clear. simpl. flag_cases l.
  - intros j y Hy Huy. destruct (Hold j y Hy Huy) as (y0 & Hy0 & Hu0 & Hcase).
    destruct (tr_parent _ _ _ T _ _ Hy0 Hu0) as (Hp & q & Hq & Hok).
    assert (l_parent y = l_parent y0) as -> by (by destruct Hcase as [->|(-> & -> & ->)]).
    split; [done|]. by eapply Hhead.
  - intros j y Hy Huy Ht. destruct (Hold j y Hy Huy) as (y0 & Hy0 & Hu0 & Hcase).
    assert (l_tracer y = l_tracer y0) as Htr by (by destruct Hcase as [->|(-> & -> & ->)]). rewrite Htr in *.
    destruct (tr_tracer _ _ _ T _ _ Hy0 Hu0 Ht) as (q & Hq & Hok). by eapply Hhead.
  - intros j y Hy Huy _. destruct (Hold j y Hy Huy) as (y0 & Hy0 & Hu0 & [->|(-> & -> & ->)]).
    + apply Hnw; [by eapply tr_wait|]. intros Hz Hk. apply (Hno j); auto.
    + apply Hnw; [by apply (tr_wait _ _ _ T i l)|]. intros Hz. exfalso.
      pose proof (tree_flags _ _ _ _ _ T Hl Hu) as Hf. revert Hf He Hz. unfold l'. clear. simpl. flag_cases l.
  - intros j y Hy Huy. destruct (Hold j y Hy Huy) as (y0 & Hy0 & Hu0 & [->|(-> & -> & ->)]).
    + apply Hnw; [by eapply tr_twait|]. intros Hz Hk. apply (Hno j); auto.
    + apply Hnw; [by apply (tr_twait _ _ _ T i l)|]. intros Hz. exfalso.
      pose proof (tree_flags _ _ _ _ _ T Hl Hu) as Hf. revert Hf He Hz. unfold l'. clear. simpl. flag_cases l.
  - intros j k y z Hy Hz Huy Huz Heq. destruct (Hold j y Hy Huy) as (y0 & Hy0 & Hu0 & Hc).
    destruct (Hold k z Hz Huz) as (z0 & Hz0 & Hzu & Hc'). eapply (tr_pids _ _ _ T j k y0 z0); [done..|].
    by destruct Hc as [->|(-> & -> & ->)], Hc' as [->|(-> & -> & ->)].
  - destruct (tr_init _ _ _ T) as (q & Hq & Hqx). destruct (decide (INIT_PROC_NR = i)) as [Hii|Hne].
    + exists l'. rewrite Hii in *. split; [solve_get|]. by assert (q = l) as -> by congruence.
    + exists q. split; [|done]. by rewrite aget_aupd_ne by done.
  - destruct (tr_pm _ _ _ T) as (q & Hq & Hqx). exists q. split; [|done]. by rewrite aget_aupd_ne by done.
Qed.
End tree.

(** ** Who calls *)
Section caller.
Context `{MinixHeaders} `{PmHeaders} {W : Type} `{PmSched W} `{PmEnv W} `{!PmLaws} `{!EnvLaws}.
Implicit Types (s : state W) (L : list life).

(** A process that runs has called: it neither waits for PM nor is it stopped.  VFS answers and
    tells PM of new memory, but asks for nothing else. *)
Record calling s L n l : Prop := {
  ca_st : st s L n s;
  ca_tree : tree None L n;
  ca_settled : settled None L;
  ca_get : aget L (mp s) = Some l;
  ca_alive : alive l = true;
  ca_vfs : l_vfs l = false;
  ca_unpaused : l_unpaused l = false;
  ca_waiting : l_waiting l = false;
  ca_notvfs : l_ep l <> VFS_PROC_NR;
  ca_user : 0 < mp s;
  ca_who : who_p s = mp s;
}.
Definition keeps (m : M (state W) rc) : Prop := forall s L n l, calling s L n l -> wp m (fun _ => wf) never s.

(** ** Numbers and slots *)
Lemma wp_get_free_pid s0 L n s (Q : Z -> state W -> Prop) :
  st s0 L n s ->
  (forall k s', st s0 L n s' -> INIT_PID < k -> (forall j l, aget L j = Some l -> l_pid l <> k) -> Q k s') ->
  wp get_free_pid Q never s.
Proof.
  intros Hs HQ. pose proof NR_PROCS_ok as [_ Hsmall]. destruct (st_globals _ _ _ _ Hs) as (Hp & Hc).
  assert (Z.of_nat (length (procs s)) = NR_PROCS) as Hlen.
  { rewrite <-(st_len _ _ _ _ Hs), <-(st_lives _ _ _ _ Hs). unfold lives. by rewrite length_fmap. }
  destruct (one_is_free (procs s) (next_pid s)) as (m & Hm & Hfree); [done|lia|].
  destruct (least_nat (fun k => is_taken (procs s) (tried (next_pid s) k) = false) m Hfree) as (k & Hk & Hkf & Hmin).
  destruct (tried_range (next_pid s) k Hp) as [Hr1 Hr2]. unfold wp, get_free_pid.
  rewrite (get_free_pid_run k); [|done|unfold NR_PIDS, INIT_PID in *; lia|intros j Hj; specialize (Hmin j Hj); by apply not_false_iff_true in Hmin|done].
  apply HQ.
  - destruct Hs as [Hfr HL Hn HF Hlen' Hmp Hg]. split; try done; by split.
  - done.
  - intros j l Hl Heq. rewrite <-(st_lives _ _ _ _ Hs) in Hl. apply lives_get in Hl as (p & Hp' & Hlp).
    apply not_true_iff_false in Hkf. apply Hkf. unfold is_taken. apply existsb_exists. exists p. split.
    + apply aget_Some in Hp' as [_ Hp']. by eapply list_elem_of_In, list_elem_of_lookup_2.
    + unfold holds_pid. rewrite <-Hlp in Heq. change (l_pid (life_of p)) with (mp_pid p) in Heq. lia.
Qed.
Lemma unused_exists L n : tree None L n -> n <> NR_PROCS -> exists i l, aget L i = Some l /\ l_used l = false.
Proof.
  intros T Hn. destruct (decide (Forall (fun l => l_used l = true) L)) as [Ha|Hno].
  - exfalso. apply Hn. rewrite (tr_count _ _ _ T), filter_all by done. apply T.
  - apply list.not_Forall_Exists in Hno; [|intros x; apply _]. apply List.Exists_exists in Hno as (l & Hin & Hl).
    apply list_elem_of_In, list_elem_of_lookup_1 in Hin as [i Hi]. exists (Z.of_nat i), l. rewrite aget_nat. split; [done|].
    destruct (l_used l) eqn:E; [by destruct Hl|done].
Qed.
Lemma wp_find_slot s0 L n s c0 (Q : Z * Z -> state W -> Prop) :
  st s0 L n s -> tree None L n -> n <> NR_PROCS -> 0 <= c0 < NR_PROCS ->
  (forall m c l, m <= NR_PROCS -> aget L c = Some l -> l_used l = false -> Q (m, c) s) ->
  wp (find_slot c0) Q never s.
Proof.
  intros Hs T Hn Hc HQ. destruct (unused_exists _ _ T Hn) as (u & lu & Hlu & Hfree).
  pose proof (aget_range _ _ _ Hlu) as Hu. rewrite (st_len _ _ _ _ Hs) in Hu.
  assert (0 < NR_PROCS) as Hpos by lia.
  unfold find_slot. apply (wp_loop _ _ (fun v a s' => s' = s /\ exists k : nat, a = (Z.of_nat k, (c0 + Z.of_nat k) `mod` NR_PROCS) /\
    Z.of_nat v = NR_PROCS - Z.of_nat k /\
    forall j l, 1 <= j <= Z.of_nat k -> aget L ((c0 + j) `mod` NR_PROCS) = Some l -> l_used l = true)
    _ _ (Z.to_nat NR_PROCS)); [| |lia].
  - intros v a s' (-> & k & -> & Hv & Hvis).
    assert (Z.of_nat k < NR_PROCS) as Hk.
    { destruct (decide (Z.of_nat k < NR_PROCS)); [done|]. exfalso.
      assert ((c0 + ((u - c0 - 1) `mod` NR_PROCS + 1)) `mod` NR_PROCS = u) as Hj.
      { replace (c0 + ((u - c0 - 1) `mod` NR_PROCS + 1)) with ((u - c0 - 1) `mod` NR_PROCS + (c0 + 1)) by lia.
        rewrite Zplus_mod_idemp_l. replace (u - c0 - 1 + (c0 + 1)) with u by lia. by apply Z.mod_small. }
      pose proof (Z.mod_pos_bound (u - c0 - 1) NR_PROCS Hpos). rewrite (Hvis ((u - c0 - 1) `mod` NR_PROCS + 1) lu) in Hfree;
        [done|lia|by rewrite Hj]. }
    assert (Z.rem ((c0 + Z.of_nat k) `mod` NR_PROCS + 1) NR_PROCS = (c0 + Z.of_nat (S k)) `mod` NR_PROCS) as Hrem.
    { pose proof (Z.mod_pos_bound (c0 + Z.of_nat k) NR_PROCS Hpos). rewrite Z.rem_mod_nonneg by lia.
      rewrite Zplus_mod_idemp_l. f_equal. lia. }
    cbv zeta. rewrite Hrem. pose proof (Z.mod_pos_bound (c0 + Z.of_nat (S k)) NR_PROCS Hpos) as Hr.
    rewrite <-(st_len _ _ _ _ Hs) in Hr. apply aget_is_Some in Hr as [lc Hlc].
    rewrite (st_len _ _ _ _ Hs) in Hlc. pm_go.
    replace (Z.of_nat k + 1 <=? NR_PROCS) with true by lia. rewrite andb_true_r. destruct (l_used lc) eqn:Hlcu.
    + exists (Z.to_nat (NR_PROCS - Z.of_nat (S k))). split; [lia|]. split; [done|]. exists (S k).
      split; [f_equal; lia|]. split; [lia|]. intros j l Hj Hjl. destruct (decide (j = Z.of_nat (S k))) as [->|]; [congruence|].
      eapply Hvis; [|done]. lia.
    + eapply HQ; [lia|done|done].
  - split; [done|]. exists 0%nat. split; [f_equal; rewrite Z.add_0_r; symmetry; by apply Z.mod_small|].
    split; [lia|]. intros. lia.
Qed.

(** ** Fork *)
Lemma wp_table_full s L n l (Q : bool -> state W -> Prop) :
  calling s L n l -> Q true s -> (n <> NR_PROCS -> Q false s) -> wp table_full Q never s.
Proof.
  intros Hc Ht Hf. pose proof (ca_st _ _ _ _ Hc) as Hs. pose proof (ca_get _ _ _ _ Hc) as Hl.
  unfold table_full. pm_go. rewrite (st_count _ _ _ _ Hs).
  destruct (_ || _) eqn:E; [done|]. apply Hf. intros ->. by rewrite Z.eqb_refl in E.
Qed.
(** The life that [child_of] makes of that of the father. *)
Definition l_child (keep who child_ep : Z) (tracer pid : Z) (l : life) : life :=
  mk_life true false false false false false false false false (l_priv l && has keep PRIV_PROC) pid child_ep (l_grp l)
    (l_wpid l) who tracer.
Lemma child_life keep who child_ep sched p :
  has (mp_flags p) IN_USE = true -> keep = Z.lor IN_USE DELAY_CALL \/ keep = Z.lor IN_USE (Z.lor PRIV_PROC DELAY_CALL) ->
  exists tracer, (tracer = 0 \/ tracer = mp_tracer p) /\
    life_of (child_of keep who child_ep untraced p <| mp_scheduler := sched |>) =
      l_child keep who child_ep tracer (mp_pid p) (life_of p).
Proof.
  intros Hu Hk. unfold child_of, untraced. destruct (negb _); [exists 0|exists (mp_tracer p)]; (split; [auto|]);
    unfold life_of, l_child; simpl; rewrite !has_land by apply _; rewrite Hu;
    destruct Hk as [->| ->]; eval_flags; by rewrite ?andb_true_r, ?andb_false_r.
Qed.
Lemma child_local keep who child_ep sched p :
  local_ok p -> 0 <= who < NR_PROCS ->
  (has (Z.land (mp_flags p) keep) PRIV_PROC = true -> sched = NONE) ->
  local_ok (child_of keep who child_ep untraced p <| mp_scheduler := sched |>).
Proof.
  intros Hok Hw Hsch. pose proof NR_PROCS_ok. unfold child_of, untraced. destruct (negb _); split; try apply Hok; try done; simpl; unfold NO_TRACER; lia.
Qed.
(** From the moment that the slot is filled: the child is there, and waits for VFS. *)
Definition born s0 L n i c s : Prop :=
  after s0 None (aupd i (fun _ => c) L) s /\ (l_tracer c = 0 -> st s0 (aupd i (fun _ => c) L) (n + 1) s).
Lemma born_wf s0 L n i c s l0 :
  tree None L n -> settled None L -> aget L i = Some l0 -> l_used l0 = false -> newborn L i c -> born s0 L n i c s -> wf s.
Proof. intros T Hse Hl Hu Hnb [Ha _]. eapply after_wf; [by eapply settled_new|done]. Qed.
Lemma fork_tail_ok s0 L n s i l0 q c f (m : Z -> vfs_request) (rest : Z -> M (state W) rc) (Q : rc -> state W -> Prop) :
  st s0 L (n + 1) s -> tree None L n -> settled None L -> aget L i = Some l0 -> l_used l0 = false ->
  life_of q = c -> local_ok q -> (forall p, f p = q) -> l_vfs c = false ->
  (forall k, 0 < k -> (forall j l, aget L j = Some l -> l_used l = true -> l_pid l <> k) -> newborn L i (c <| l_pid := k |>)) ->
  (forall k s', newborn L i (c <| l_pid := k |> <| l_vfs := true |>) -> born s0 L n i (c <| l_pid := k |> <| l_vfs := true |>) s' ->
     wp (rest k) Q never s') ->
  wp (set_slot i f;;
      new_pid ← get_free_pid;
      set_slot i (fun c => c <| mp_pid := new_pid |>);;
      tell_vfs i (m new_pid);;
      c ← slot i;
      (if negb (mp_tracer c =? NO_TRACER) then sig_proc i SIGSTOP true false else mret tt);;
      rest new_pid) Q never s.
Proof.
  intros Hs T Hse Hl Hu Hq Hqok Hf Hv Hnew Hrest. pm_step.
  eapply (wp_set_slot _ _ _ _ _ l0 c); [exact Hs|done|intros p _ _ _; by rewrite Hf|next_state Hs]. cbn beta.
  pm_step. eapply wp_get_free_pid; [exact Hs|]. clear s Hs. intros k s Hs Hk Hfresh. pm_step.
  set (c1 := c <| l_pid := k |>).
  eapply (wp_set_slot _ _ _ _ _ c c1); [exact Hs|solve_get|intros p _ <- Hok; split; [reflexivity|local]|next_state Hs].
  cbn beta. set (c2 := c1 <| l_vfs := true |>). pm_step.
  eapply wp_tell_vfs; [exact Hs|solve_get|done|next_state Hs]. fold c2 in Hs. cbn beta.
  assert (newborn L i c1) as Hnb.
  { apply Hnew; [unfold INIT_PID in Hk; lia|]. intros j l Hj Huj. apply (Hfresh j). rewrite aget_aupd_ne; [done|]. congruence. }
  assert (newborn L i c2) as Hnb2 by (destruct Hnb; by split).
  pose proof (tree_new _ _ _ _ _ T Hl Hu Hnb2) as T2.
  set (L2 := aupd i (fun _ => c2) L) in *. assert (aget L2 i = Some c2) as Hc2 by (subst L2; solve_get).
  pm_go. eapply (wp_mono _ (fun _ => born s0 L n i c2)); [| |done].
  - unfold NO_TRACER. destruct (l_tracer c2 =? 0) eqn:Htr; cbn [negb].
    + pm_go. split; [by eapply after_same|done].
    + pose proof (nb_flags _ _ _ Hnb2) as Hfl. injection Hfl as E1 E2 _ _ _ _ _ _.
      eapply wp_mono; [eapply sig_proc_ok; [exact Hs|exact T2|exact Hc2| |apply SIGSTOP_range|done|by eapply sig_fuel]| |done].
      * change (alive c2) with (alive c). unfold alive. by rewrite E1, E2.
      * intros [] s' Ha. split; [done|lia].
  - intros [] s' Hb. by apply Hrest.
Qed.
Lemma st_next_child s0 L n s k : st s0 L n s -> 0 <= k < NR_PROCS -> st s0 L n (s <| next_child := k |>).
Proof. intros [Hfr HL Hn HF Hlen Hmp Hg] Hk. destruct Hg as (? & _ & ?). by split. Qed.
Lemma st_next_child_srv s0 L n s k : st s0 L n s -> 0 <= k < NR_PROCS -> st s0 L n (s <| next_child_srv := k |>).
Proof. intros [Hfr HL Hn HF Hlen Hmp Hg] Hk. destruct Hg as (? & ? & _). by split. Qed.
Lemma child_same keep who child_ep p :
  child_of keep who child_ep untraced p = child_of keep who child_ep untraced p <| mp_scheduler := mp_scheduler p |>.
Proof. unfold child_of, untraced. by destruct (negb _), p. Qed.
Lemma child_newborn s L n l i keep child_ep tracer k :
  calling s L n l -> tracer = 0 \/ tracer = l_tracer l -> _ENDPOINT_P child_ep = i -> child_ep <> VFS_PROC_NR -> 0 < k ->
  (forall j y, aget L j = Some y -> l_used y = true -> l_pid y <> k) ->
  newborn L i (l_child keep (mp s) child_ep tracer k l).
Proof.
  intros Hc Ht Hi He Hk Hfresh. destruct (alive_split _ (ca_alive _ _ _ _ Hc)) as [Hu Hex].
  pose proof (ca_get _ _ _ _ Hc) as Hl. split; try done.
  - split; [apply Hc|]. by exists l.
  - simpl. intros Htr. destruct Ht as [Ht|Ht]; [done|]. rewrite Ht in *.
    destruct (tr_tracer _ _ _ (ca_tree _ _ _ _ Hc) _ _ Hl Hu Htr) as (q & Hq & Hqu & _). exists q. split_and!; [done..|].
    destruct (l_exiting q) eqn:Hqe; [|done]. exfalso.
    destruct (se_dep _ _ (ca_settled _ _ _ _ Hc) _ _ Hq Hqu Hqe _ _ Hl Hu) as [_ Hd]. by apply Hd.
Qed.
(** The result of a fork by the process of life [l]: nothing has happened, or there is a child
    with the flags [keep] allows, in a slot that was free and with a new number, for which
    VFS was called. *)
Definition forked s L n l (keep : Z) (done_ : Z -> rc) (r : rc) s' : Prop :=
  (lives s' = L /\ procs_in_use s' = n /\ wf s') \/
  exists c l0 ep tracer k, let child := l_child keep (mp s) ep tracer k l <| l_vfs := true |> in
    r = done_ k /\ aget L c = Some l0 /\ l_used l0 = false /\ (tracer = 0 \/ tracer = l_tracer l) /\ newborn L c child /\
    born s L n c child s' /\ wf s'.
Lemma forked_not s L n l keep done_ r s' : calling s L n l -> st s L n s' -> forked s L n l keep done_ r s'.
Proof. intros Hc Hs. left. split_and!; [apply Hs|apply Hs|]. eapply wf_intro; [exact Hs|apply Hc..]. Qed.
Lemma do_fork_run s L n l : calling s L n l ->
  wp do_fork (forked s L n l (Z.lor IN_USE DELAY_CALL) (fun _ => SUSPEND)) never s.
Proof.
  intros Hc. pose proof (ca_st _ _ _ _ Hc) as Hs. pose proof (ca_tree _ _ _ _ Hc) as T.
  pose proof (ca_settled _ _ _ _ Hc) as Hse. pose proof (ca_get _ _ _ _ Hc) as Hl. pose proof (ca_who _ _ _ _ Hc) as Hwho.
  unfold do_fork. pm_step. eapply wp_table_full; [done|pm_go; by apply forked_not|intros Hn]. cbn iota.
  destruct (st_globals _ _ _ _ Hs) as (_ & Hc1 & _). pm_step. pm_step. pm_step.
  eapply wp_find_slot; [exact Hs|done..|]. intros m c lc Hm Hlc Hfree. pm_step. apply wp_modify.
  assert (0 <= c < NR_PROCS) as Hcr by (rewrite <-(st_len _ _ _ _ Hs); by eapply aget_range).
  apply (st_next_child _ _ _ _ c) in Hs; [|done]. replace (NR_PROCS <? m) with false by lia.
  set (s1 := s <| next_child := c |>) in *. change (mp s1) with (mp s).
  pm_go. rewrite Hfree. pm_go.
  destruct (vm_fork (l_ep l) c w) as [[r child_ep] w'] eqn:Ef. cbn [fst].
  destruct (negb (is_ok r)) eqn:Er; [pm_go; by apply forked_not|].
  apply is_ok_true in Er as ->.
  destruct (vm_fork_slot (l_ep l) c w child_ep) as [Hslot Hvfs]; [done|by rewrite Ef|].
  pm_step. eapply wp_modify_count; [exact Hs|]. clear s0 Hs. intros s2 Hs. pm_step. pm_step.
  assert (who_p s2 = mp s) as -> by (etrans; [apply Hs|exact Hwho]). pm_step.
  apply (wp_mono _ (fun _ s' => st s L (n + 1) s') _ never); [| |done].
  { destruct (l_priv l) eqn:Hpr; [|by pm_go]. apply wp_assert; [|done]. rewrite (lo_sched _ Hok0); [by rewrite Z.eqb_refl|].
    change (l_priv (life_of p0) = true). by rewrite Hlp0. }
  clear s2 Hs. intros [] s2 Hs. cbn beta.
  set (keep := Z.lor IN_USE DELAY_CALL).
  set (q := child_of keep (mp s) child_ep untraced p0 <| mp_scheduler := if l_priv l then SCHED_PROC_NR else mp_scheduler p0 |>).
  destruct (child_life keep (mp s) child_ep (if l_priv l then SCHED_PROC_NR else mp_scheduler p0) p0) as (tracer & Htr & Hlife); [|by left|].
  { change (l_used (life_of p0) = true). rewrite Hlp0. by destruct (alive_split _ (ca_alive _ _ _ _ Hc)). }
  eapply (fork_tail_ok _ _ _ _ _ _ q _ _ (fun k => PM_FORK child_ep (l_ep l) k)); [exact Hs|exact T|exact Hse|exact Hlc|exact Hfree|exact Hlife|..].
  - apply child_local; [done|apply Hs|]. rewrite has_land by apply _. change (has keep PRIV_PROC) with false. by rewrite andb_false_r.
  - intros _. subst q. destruct (l_priv l); [done|apply child_same].
  - done.
  - intros k Hk Hfresh. rewrite Hlp0. change (newborn L c (l_child keep (mp s) child_ep tracer k l)).
    eapply child_newborn; [exact Hc|by rewrite <-Hlp0|done..].
  - assert (tracer = 0 \/ tracer = l_tracer l) as Htr' by (by rewrite <-Hlp0).
    rewrite Hlp0. intros k s' Hnb Hb. pm_go. right. exists c, lc, child_ep, tracer, k.
    split_and!; try done. eapply born_wf; [exact T|exact Hse|exact Hlc|done..].
Qed.
Lemma do_fork_ok : keeps do_fork.
Proof. intros s L n l Hc. eapply wp_mono; [by apply do_fork_run| |done]. intros r s' [(_ & _ & ?)|(?&?&?&?&?&_&_&_&_&_&_&?)]; done. Qed.
Lemma do_srv_fork_ok : keeps do_srv_fork.
Proof.
  intros s L n l Hc. pose proof (ca_st _ _ _ _ Hc) as Hs. pose proof (ca_tree _ _ _ _ Hc) as T.
  pose proof (ca_settled _ _ _ _ Hc) as Hse. pose proof (ca_get _ _ _ _ Hc) as Hl. pose proof (ca_who _ _ _ _ Hc) as Hwho.
  unfold do_srv_fork. pm_go. destruct (negb (l_ep l =? RS_PROC_NR)); [pm_go; by eapply wf_intro|].
  pm_step. eapply wp_table_full; [done|pm_go; by eapply wf_intro|intros Hn]. cbn iota.
  destruct (st_globals _ _ _ _ Hs) as (_ & _ & Hc1). pm_step. pm_step. pm_step.
  eapply wp_find_slot; [exact Hs|done..|]. intros m c lc Hm Hlc Hfree. pm_step. apply wp_modify.
  assert (0 <= c < NR_PROCS) as Hcr by (rewrite <-(st_len _ _ _ _ Hs); by eapply aget_range).
  apply (st_next_child_srv _ _ _ _ c) in Hs; [|done]. replace (NR_PROCS <? m) with false by lia.
  set (s1 := s <| next_child_srv := c |>) in *.
  pm_go. rewrite Hfree. pm_go.
  destruct (vm_fork (l_ep l) c w) as [[r child_ep] w'] eqn:Ef. cbn [fst].
  destruct (negb (is_ok r)) eqn:Er; [pm_go; by eapply wf_intro|].
  apply is_ok_true in Er as ->.
  destruct (vm_fork_slot (l_ep l) c w child_ep) as [Hslot Hvfs]; [done|by rewrite Ef|].
  pm_step. eapply wp_modify_count; [exact Hs|]. clear s0 Hs. intros s2 Hs. pm_step. pm_step.
  assert (who_p s2 = mp s) as -> by (etrans; [apply Hs|exact Hwho]).
  set (keep := Z.lor IN_USE (Z.lor PRIV_PROC DELAY_CALL)).
  destruct (child_life keep (mp s) child_ep (mp_scheduler p) p) as (tracer & Htr & Hlife); [|by right|].
  { change (l_used (life_of p) = true). rewrite Hlp. by destruct (alive_split _ (ca_alive _ _ _ _ Hc)). }
  rewrite <-child_same in Hlife.
  eapply (fork_tail_ok _ _ _ _ _ _ (child_of keep (mp s) child_ep untraced p) _ _ (fun k => PM_SRV_FORK child_ep (l_ep l) k)
    (fun k => setreply c OK;; mret (Rc k))); [exact Hs|exact T|exact Hse|exact Hlc|exact Hfree|exact Hlife|..].
  - rewrite child_same. apply child_local; [done|apply Hs|]. rewrite has_land by apply _. intros [Hx _]%andb_true_iff.
    by apply (lo_sched _ Hok).
  - done.
  - done.
  - intros k Hk Hfresh. rewrite Hlp. change (newborn L c (l_child keep (mp s) child_ep tracer k l)).
    eapply child_newborn; [exact Hc|by rewrite <-Hlp|done..].
  - rewrite Hlp. intros k s' Hnb [(L' & n' & Hs' & T' & E') _]. pose proof (settled_new _ _ _ _ _ T Hse Hlc Hfree Hnb) as Hse2.
    destruct (evolves_len' _ _ _ c _ E' (aget_set _ _ _ _ Hlc)) as [lc' Hlc'].
    pm_step. eapply wp_setreply; [exact Hs'|exact Hlc'|next_state Hs']. pm_go. eapply wf_intro; [exact Hs'|exact T'|by eapply settled_ev].
Qed.

(** ** Exit *)
Lemma user_not_vfs ex L n i l : tree ex L n -> aget L i = Some l -> l_used l = true -> l_priv l = false -> l_ep l <> VFS_PROC_NR.
Proof. intros T Hl Hu Hp He. destruct (tr_slot _ _ _ T _ _ Hl Hu) as (_ & _ & _ & Hv & _). by rewrite Hv in Hp. Qed.
Lemma do_exit_ok : keeps do_exit.
Proof.
  intros s L n l Hc. pose proof (ca_st _ _ _ _ Hc) as Hs. pose proof (ca_tree _ _ _ _ Hc) as T.
  pose proof (ca_get _ _ _ _ Hc) as Hl. destruct (alive_split _ (ca_alive _ _ _ _ Hc)) as [Hu _].
  unfold do_exit. pm_go. apply (wp_mono _ (fun _ => after s None L) _ never); [| |done].
  - destruct (l_priv l) eqn:Hp'; [pm_go; by eapply after_same|].
    eapply wp_mono; [eapply exit_proc_ok; [apply sig_proc_ok|done|done|done|apply Hc|apply Hc|by apply Hc|pose proof (ca_user _ _ _ _ Hc); lia|done|]| |done].
    + pose proof (sig_fuel _ _ T). lia.
    + intros [] s'. apply ended_after.
  - intros [] s' Ha. pm_go. eapply after_wf; [apply Hc|done].
Qed.

(** ** Waiting for children *)
(** What the test of a slot says of a zombie that is left alone. *)
Definition left_alone (pidarg who : Z) (c : life) : Prop :=
  l_used c = true -> (l_zombie c = true /\ l_parent c = who) \/ (l_tzombie c = true /\ l_tracer c = who) ->
  (0 < pidarg /\ pidarg <> l_pid c) \/ (pidarg < -1 /\ - pidarg <> l_grp c).
Lemma waited_for_false pidarg who p :
  flags_ok false (life_of p) = true -> waited_for who pidarg p = false -> left_alone pidarg who (life_of p).
Proof.
  intros Hf Hw Hu Hz. unfold waited_for in Hw.
  change (has (mp_flags p) IN_USE) with (l_used (life_of p)) in Hw. change (has (mp_flags p) ZOMBIE) with (l_zombie (life_of p)) in Hw.
  change (has (mp_flags p) TOLD_PARENT) with (l_told (life_of p)) in Hw. rewrite Hu in Hw.
  change (mp_parent p) with (l_parent (life_of p)) in Hw. change (mp_tracer p) with (l_tracer (life_of p)) in Hw.
  change (mp_pid p) with (l_pid (life_of p)) in Hw. change (mp_procgrp p) with (l_grp (life_of p)) in Hw.
  assert (l_told (life_of p) = false) as Ht.
  { destruct Hz as [[Hz _]|[Hz _]]; revert Hf Hz; generalize (life_of p) as l; clear; intros l; flag_cases l. }
  assert (((l_parent (life_of p) =? who) || (l_tracer (life_of p) =? who)) = true /\
          negb (negb (l_parent (life_of p) =? who) && l_zombie (life_of p)) = true) as [E1 E2].
  { destruct Hz as [[Hz Hpa]|[Hz Hpa]]; rewrite Hpa, Z.eqb_refl.
    - done.
    - rewrite orb_true_r. assert (l_zombie (life_of p) = false) as ->; [|by rewrite andb_false_r].
      revert Hf Hz. generalize (life_of p) as l. clear. intros l. flag_cases l. }
  rewrite Ht, E1, E2 in Hw. cbn [andb negb] in Hw.
  apply andb_false_iff in Hw as [Hw|Hw]; apply negb_false_iff in Hw; lia.
Qed.
Lemma left_alone_match pidarg who l c :
  0 < l_pid c -> 0 <= l_grp c -> left_alone pidarg who c -> l_used c = true ->
  (l_zombie c = true /\ l_parent c = who) \/ (l_tzombie c = true /\ l_tracer c = who) ->
  wait_match (l <| l_waiting := true |> <| l_wpid := pidarg |>) c = false.
Proof.
  intros Hp Hg Hl Hu Hz. unfold wait_match.
  change (l_wpid (l <| l_waiting := true |> <| l_wpid := pidarg |>)) with pidarg.
  change (l_waiting (l <| l_waiting := true |> <| l_wpid := pidarg |>)) with true. cbn [andb].
  destruct (Hl Hu Hz); lia.
Qed.

(** The zombie of a tracer becomes one of its father. *)
Lemma tracer_collects_ok s L n l i c :
  calling s L n l -> aget L i = Some c -> l_used c = true -> l_tzombie c = true -> l_tracer c = mp s ->
  wp (tell_tracer i;; check_parent sig_proc i true;; mret ((true, Some SUSPEND) : bool * option rc, true))
    (fun r s' => r.1.2 = Some SUSPEND /\ r.2 = true /\ after s None L s') never s.
Proof.
  intros Hc Hi Hu Hz Htr. pose proof (ca_st _ _ _ _ Hc) as Hs. pose proof (ca_tree _ _ _ _ Hc) as T.
  pose proof (ca_get _ _ _ _ Hc) as Hl. destruct (alive_split _ (ca_alive _ _ _ _ Hc)) as [Hlu Hle].
  pose proof (tree_flags _ _ _ _ _ T Hi Hu) as Hf. rewrite bool_decide_false in Hf by done.
  assert (l_exiting c = true /\ l_zombie c = false /\ l_told c = false) as (He & Hz0 & Ht).
  { revert Hf Hz. clear. flag_cases c. }
  pm_step. eapply tell_tracer_ok; [exact Hs|exact Hi|rewrite Htr; exact Hl|pose proof (ca_user _ _ _ _ Hc); lia| |done|].
  { rewrite Htr. intros ->. congruence. }
  assert (l <| l_waiting := false |> = l) as Hsame.
  { pose proof (ca_waiting _ _ _ _ Hc) as Hw. revert Hw. clear. destruct l; simpl. by intros ->. }
  rewrite Htr, Hsame, (aupd_same L (mp s) l) by done. intros s1 Hs1. set (c2 := c <| l_tzombie := false |> <| l_zombie := true |>) in *.
  assert (ending (Some i) L i c c2) as Hend.
  { split; try done; auto. rewrite bool_decide_true by done. subst c2. revert Hf He Hz Ht. clear. simpl. flag_cases c. }
  pose proof (tree_ending None (Some i) _ _ _ _ _ (proj1 INIT_slot) T ltac:(done) Hi Hu Hend) as T2.
  pose proof (evolves_ending None _ _ _ _ _ Hi Hend) as E2.
  pm_step. eapply notified_chain; [exact Hs1|exact E2| |].
  - eapply check_parent_ok; [apply sig_proc_ok|by eapply st_here|exact T2|solve_get|done|done|].
    pose proof (live_le _ _ _ E2). pose proof (sig_fuel _ _ T). lia.
  - intros [] s' [Ha|[[? _] _]]; [|done]. by pm_go.
Qed.
Lemma waitpid_step_ok s L n l pidarg a i c :
  calling s L n l -> aget L i = Some c -> a.2 = None ->
  wp (waitpid_step pidarg a i) (fun r s' =>
    if r.2 then is_Some r.1.2 /\ after s None L s' else r.1.2 = None /\ s' = s /\ left_alone pidarg (mp s) c) never s.
Proof.
  intros Hc Hi Ha. pose proof (ca_st _ _ _ _ Hc) as Hs. pose proof (ca_tree _ _ _ _ Hc) as T.
  pose proof (ca_get _ _ _ _ Hc) as Hl. destruct (alive_split _ (ca_alive _ _ _ _ Hc)) as [Hlu Hle].
  unfold waitpid_step. pm_step. pm_step. pm_step. pm_step. cbn beta zeta. rewrite (ca_who _ _ _ _ Hc).
  destruct (waited_for _ _ _) eqn:Hw; cbn [negb].
  2: { pm_go. split_and!; [done|done|]. intros Hu. rewrite <-Hlp in *. revert Hu.
    destruct (l_used (life_of p)) eqn:Hu; [|done]. intros _. eapply waited_for_false; [|done|done].
    pose proof (tree_flags _ _ _ _ _ T Hi Hu) as Hf. by rewrite bool_decide_false in Hf by done. }
  assert (l_used c = true) as Hu.
  { revert Hw. unfold waited_for. to_life p Hlp. by destruct (l_used c). }
  pose proof (tree_flags _ _ _ _ _ T Hi Hu) as Hf. rewrite bool_decide_false in Hf by done.
  to_life p Hlp. destruct ((l_tracer c =? mp s) && l_tzombie c) eqn:Hz1.
  { apply andb_true_iff in Hz1 as [Htr%Z.eqb_eq Hz].
    eapply wp_mono; [by eapply tracer_collects_ok| |done]. intros r s' (Hr & -> & Haft). rewrite Hr. split; [by eexists|done]. }
  match goal with |- context [match ?x with Some _ => _ | None => _ end] => destruct x as [k|] end.
  { pm_go. split; [by eexists|]. by eapply after_same. }
  destruct ((l_parent c =? mp s) && l_zombie c) eqn:Hz2.
  - apply andb_true_iff in Hz2 as [Hpa%Z.eqb_eq Hz].
    assert (wp (tell_parent i;; c' ← slot i; if true && negb (has (mp_flags c') VFS_CALL) then cleanup i else mret tt)
              (fun _ => notified s L i (true = false /\ l_vfs c = false)) never s) as Hx.
    { eapply collect_ok; [exact Hs|by apply tree_open|exact Hi|done|done|by rewrite Hpa|done]. }
    apply wp_bind_inv in Hx. pm_step. eapply wp_mono; [exact Hx| |done]. cbn beta. clear Hx. intros [] s1 Hx.
    apply wp_bind_inv in Hx. pm_step. eapply wp_mono; [exact Hx| |done]. cbn beta. clear Hx. intros p' s2 Hx.
    pm_step. eapply wp_mono; [exact Hx| |done]. intros [] s3 [Haft|[[? _] _]]; [|done]. pm_go. split; [by eexists|done].
  - pm_go. split_and!; [done|done|]. intros _ Hz. exfalso. destruct Hz as [[Hz Hpa]|[Hz Hpa]].
    + by rewrite Hz, Hpa, Z.eqb_refl in Hz2.
    + by rewrite Hz, Hpa, Z.eqb_refl in Hz1.
Qed.
Lemma do_waitpid_ok : keeps do_waitpid.
Proof.
  intros s L n l Hc. pose proof (ca_st _ _ _ _ Hc) as Hs. pose proof (ca_tree _ _ _ _ Hc) as T.
  pose proof (ca_settled _ _ _ _ Hc) as Hse. pose proof (ca_get _ _ _ _ Hc) as Hl.
  destruct (alive_split _ (ca_alive _ _ _ _ Hc)) as [Hu He].
  unfold do_waitpid. pm_go.
  match goal with |- context [waitpid_step ?x] => generalize x as pidarg end. intros pidarg.
  apply (wp_fold_break _ _ _ (fun pre a s' => s' = s /\ a.2 = None /\
    forall j c, j ∈ pre -> aget L j = Some c -> left_alone pidarg (mp s) c)).
  - split_and!; [done|done|]. intros j c Hj. by apply not_elem_of_nil in Hj.
  - intros pre i post a s' Hseq (-> & Ha & Hpre). destruct (seq_slot _ _ _ _ _ _ _ Hs Hseq) as [c Hi].
    eapply wp_mono; [by eapply waitpid_step_ok| |done]. intros [[ch r] brk] s' Hr. cbn [fst snd] in *. destruct brk.
    + destruct Hr as [[r' ->] Ha']. pm_go. by eapply after_wf.
    + destruct Hr as (-> & -> & Hla). split_and!; [done|done|]. intros j y Hj Hy.
      apply elem_of_app in Hj as [Hj|Hj%list_elem_of_singleton]; [by eapply Hpre|]. by assert (y = c) as -> by congruence.
  - intros [ch r] s' (-> & Hr & Hall). cbn [fst snd] in *. subst r.
    destruct ch; [|pm_go; by eapply wf_intro]. destruct (has _ WNOHANG); [pm_go; by eapply wf_intro|].
    pm_step. pm_step. cbn beta. pm_step.
    set (l' := l <| l_waiting := true |> <| l_wpid := pidarg |>).
    eapply (wp_set_slot _ _ _ _ _ (l <| l_waiting := true |>) l'); [exact Hs|solve_get| |].
    { intros q _ Hq Hok'. split; [|local]. change (life_of q <| l_wpid := pidarg |> = l'). by rewrite Hq. }
    next_state Hs. pm_go. pose proof (ca_user _ _ _ _ Hc). eapply wf_intro; [exact Hs| |].
    + apply tree_waits; [done|done|apply Hc|lia|apply Hc|]. intros j c Hj Hju Hz.
      destruct (st_get _ _ _ _ _ _ (ca_st _ _ _ _ Hc) Hj) as (q & _ & Hq & Hqok).
      destruct (tr_slot _ _ _ T _ _ Hj Hju) as (_ & Hpid & _).
      eapply left_alone_match; [done|rewrite <-Hq; apply Hqok| |done|exact Hz].
      apply (Hall j); [|done]. apply elem_of_seqZ. pose proof (aget_range _ _ _ Hj). rewrite (tr_len _ _ _ T) in *. lia.
    + eapply settled_close; [eapply (settled_upd None); [done|by left|exact Hl|done..]|solve_get| |].
      * intros _ Hpe. exact (se_pend _ _ Hse _ _ ltac:(done) Hl Hu Hpe).
      * intros _ Hun. exact (se_unpaused _ _ Hse _ _ ltac:(done) Hl Hu Hun).
Qed.
End caller.
