(* ===== verification/PmRun.v ===== *)
(** The calls of PM on well-formed states: none panics, and each leaves a well-formed
    state behind. *)
From S2P Require Import Prelude Minix PmBase Pm PmAlarm PmSignal PmCalls PmMain PmTree PmInv PmEnd PmWf PmFork.
Local Open Scope Z_scope.

Section calls.
Context `{MinixHeaders} `{PmHeaders} {W : Type} `{PmSched W} `{PmEnv W} `{!PmLaws} `{!EnvLaws}.
Implicit Types (s : state W) (L : list life).

(** ** Calls that change no life *)
Definition stays {A} (m : M (state W) A) s : Prop := forall L n, st s L n s -> tree None L n -> wp m (fun _ s' => st s L n s') never s.
Lemma stays_wf {A} (m : M (state W) A) s : stays m s -> wf s -> wp m (fun _ => wf) never s.
Proof.
  intros Hm (L & n & Hs & T & Hse). apply (wp_mono _ (fun _ s' => st s L n s') _ never); [by apply Hm| |done].
  intros a s' Hs'. by eapply wf_intro.
Qed.
Lemma calling_wf s L n l : calling s L n l -> wf s.
Proof. intros Hc. exists L, n. split_and!; apply Hc. Qed.
Lemma same_wf s L n l s' : calling s L n l -> st s L n s' -> wf s'.
Proof. intros Hc Hs. eapply wf_intro; [exact Hs|apply Hc..]. Qed.
Lemma keeps_stays m : (forall s L n l, calling s L n l -> stays m s) -> keeps m.
Proof. intros Hm s L n l Hc. eapply stays_wf; [by eapply Hm|by eapply calling_wf]. Qed.

Lemma no_sys_ok s : stays no_sys s.
Proof. intros L n Hs T. unfold no_sys. by pm_go. Qed.
Lemma do_pause_ok s : stays do_pause s.
Proof. intros L n Hs T. destruct (st_mp_get _ _ _ _ Hs) as [l Hl]. unfold do_pause. by pm_go. Qed.
Lemma do_sigpending_ok s : stays do_sigpending s.
Proof. intros L n Hs T. destruct (st_mp_get _ _ _ _ Hs) as [l Hl]. unfold do_sigpending. by pm_go. Qed.
Lemma st_slot s0 L n s k : st s0 L n s -> 0 <= k < NR_PROCS -> exists l, aget L k = Some l.
Proof. intros Hs Hk. apply aget_is_Some. by rewrite (st_len _ _ _ _ Hs). Qed.
Lemma do_get_ok s : 0 <= who_p s < NR_PROCS -> stays do_get s.
Proof.
  intros Hw L n Hs T. destruct (st_mp_get _ _ _ _ Hs) as [l Hl]. destruct (st_slot _ _ _ _ _ Hs Hw) as [lw Hlw].
  unfold do_get. pm_go. destruct (call_nr s =? GETGROUPS).
  { destruct (_ || _); [by pm_go|]. destruct (_ =? 0); [by pm_go|]. destruct (_ <? _); [by pm_go|].
    pm_go. destruct (negb _); by pm_go. }
  destruct (call_nr s =? GETUID); [by pm_go|]. destruct (call_nr s =? GETGID); [by pm_go|].
  destruct (call_nr s =? MINIX_GETPID).
  - pm_step. pm_step. cbn beta.
    destruct (st_slot _ _ _ _ (l_parent l) Hs) as [lp Hlp']; [rewrite <-Hlp; apply Hok|]. by pm_go.
  - destruct (_ =? _); by pm_go.
Qed.
Lemma never_kill_stop set : never_kill (kill_stop set).
Proof.
  unfold never_kill, sigismember, kill_stop, sigdelset. destruct (decide (SIGKILL = SIGSTOP)) as [->|Hne].
  - apply Z.clearbit_eq.
  - rewrite Z.clearbit_neq by done. apply Z.clearbit_eq.
Qed.
Lemma never_kill_add set n : n <> SIGKILL -> 0 <= n -> never_kill set -> never_kill (sigaddset set n).
Proof. intros Hn Hp Hk. unfold never_kill, sigismember, sigaddset. by rewrite Z.setbit_neq. Qed.
Lemma never_kill_del set n : never_kill set -> never_kill (sigdelset set n).
Proof.
  intros Hk. unfold never_kill, sigismember, sigdelset. rewrite Z.clearbit_eqb. by rewrite Hk.
Qed.
Lemma do_sigaction_ok s : stays do_sigaction s.
Proof.
  intros L n Hs T. destruct (st_mp_get _ _ _ _ Hs) as [l Hl]. unfold do_sigaction. pm_go.
  destruct (sig_nr _ =? SIGKILL) eqn:Hk; [by pm_go|]. apply Z.eqb_neq in Hk.
  destruct (_ || _) eqn:Hr; [by pm_go|]. apply orb_false_iff in Hr as [Hr1 Hr2]. pm_go.
  destruct (act_get p (sig_nr (m_in s)) Hok) as (act & Hact & _); [lia|]. eapply wp_deref; [exact Hact|]. cbn beta. pm_step.
  apply (wp_mono _ (fun _ s' => st s L n s') _ never); [destruct (negb _); by pm_go| |done].
  clear Hs. intros r s1 Hs. cbn beta. destruct (negb (is_ok r)); [by pm_go|]. destruct (_ =? 0); [by pm_go|].
  pm_go. destruct (in_sigaction _ _ _) as [[r' svec] w']. cbn [fst]. destruct (negb (is_ok r')); [by pm_go|].
  pm_step. eapply wp_set_quiet; [exact Hs|exact Hl| |next_state Hs].
  { intros q _ _ Hq. destruct (_ =? SIG_IGN); [|destruct (_ =? SIG_DFL)]; (split; [done|]); split; try apply Hq; simpl;
      first [apply never_kill_add; [done|lia|apply Hq]|apply never_kill_del; apply Hq]. }
  cbn beta. pm_step. eapply wp_set_quiet; [exact Hs|exact Hl| |next_state Hs; by pm_go].
  intros q _ _ Hq. split; [done|]. split; try apply Hq; simpl.
  - rewrite length_aupd. apply Hq.
  - unfold aupd. case_bool_decide; [|apply Hq]. apply list.Forall_alter; [apply Hq|]. intros a _ _. apply never_kill_stop.
Qed.
Lemma do_getepinfo_ok s : stays do_getepinfo s.
Proof.
  intros L n Hs T. destruct (st_mp_get _ _ _ _ Hs) as [l Hl]. unfold do_getepinfo. pm_go.
  destruct (negb _); [by pm_go|]. pm_step.
  apply (wp_for _ _ (fun _ s' => st s L n s')); [done| |].
  - intros pre i post s' Hseq Hs'. destruct (seq_slot _ _ _ _ _ _ _ Hs Hseq) as [c Hc]. clear Hs. pm_go.
    destruct (_ && _); [|done]. by pm_go.
  - intros s' Hs'. clear Hs. by pm_go.
Qed.
Lemma wp_find_proc s0 L n s k (Q : option Z -> state W -> Prop) :
  st s0 L n s -> Q None s ->
  (forall i l, aget L i = Some l -> l_used l = true -> l_pid l = k -> Q (Some i) s) -> wp (find_proc k) Q never s.
Proof.
  intros Hs Hno Hyes. unfold find_proc. apply (wp_for _ _ (fun _ s' => s' = s)); [done| |by intros s' ->].
  intros pre i post s' Hseq ->. destruct (seq_slot _ _ _ _ _ _ _ Hs Hseq) as [c Hc]. pm_go.
  destruct (l_used c) eqn:Hu; [|done]. cbn [andb]. destruct (l_pid c =? k) eqn:Hk; [|done]. apply (Hyes i c); [done..|lia].
Qed.
Lemma do_getprocnr_ok s : stays do_getprocnr s.
Proof.
  intros L n Hs T. destruct (st_mp_get _ _ _ _ Hs) as [l Hl]. unfold do_getprocnr. pm_go.
  destruct (negb _); [destruct (_ && _); by pm_go|].
  destruct (0 <=? _).
  { pm_step. eapply wp_find_proc; [exact Hs|by pm_go|]. intros i c Hi _ _. by pm_go. }
  destruct (0 <? _).
  - pm_go. destruct (in_name _ _ _ _) as [[r key] w']. cbn [fst]. destruct (negb (is_ok r)); [by pm_go|]. cbv zeta.
    pm_step. apply (wp_for _ _ (fun _ s' => st s L n s')); [done| |].
    + intros pre i post s' Hseq Hs'. destruct (seq_slot _ _ _ _ _ _ _ Hs Hseq) as [c Hc]. clear Hs. pm_go.
      destruct (_ && _ && _); [|done]. by pm_go.
    + intros s' Hs'. clear Hs. by pm_go.
  - destruct (st_slot _ _ _ _ (l_parent l) Hs) as [lp Hlp']; [rewrite <-Hlp; apply Hok|]. by pm_go.
Qed.
Definition nice_ok (nice : Z) : Prop := - 2 ^ 30 - 20 <= nice < 2 ^ 30 - 20.
Lemma do_getsetpriority_ok s : (call_nr s <> GETPRIORITY -> nice_ok (m1_i3 (m_in s))) -> stays do_getsetpriority s.
Proof.
  intros Hn L n Hs T. destruct (st_mp_get _ _ _ _ Hs) as [l Hl]. unfold do_getsetpriority. pm_go.
  destruct (negb _); [by pm_go|]. pm_step.
  apply (wp_mono _ (fun r s' => s' = s /\ forall i, r = Some i -> exists c, aget L i = Some c) _ never); [| |done].
  { destruct (_ =? 0).
    - pm_go. split; [done|]. intros i [= <-]. by exists l.
    - eapply wp_find_proc; [exact Hs|done|]. intros i c Hi _ _. split; [done|]. intros ? [= <-]. by exists c. }
  intros [i|] s' [-> Hi]; [|by pm_go]. destruct (Hi i eq_refl) as [c Hc]. pm_go.
  destruct (_ && _); [by pm_go|]. destruct (call_nr s =? GETPRIORITY) eqn:Hg; [by pm_go|].
  assert (nice_ok (m1_i3 (m_in s))) as Hnice by (apply Hn; lia).
  destruct (_ && _); [by pm_go|]. pm_step. unfold sched_nice. pm_go. destruct (_ || _); [by pm_go|].
  pm_step. unfold wp at 1. unfold nice_ok in Hnice. rewrite nice_to_priority_spec by lia. rewrite bool_decide_true by done.
  change (negb (is_ok OK)) with false. cbv iota. pm_go. destruct (negb (is_ok _)) eqn:Er; pm_go.
  - rewrite Er. by pm_go.
  - change (negb (is_ok OK)) with false. cbv iota. pm_step.
    eapply wp_set_quiet; [exact Hs|exact Hc| |next_state Hs; by pm_go].
    intros q _ _ Hq. split; [done|]. by split; try apply Hq.
Qed.

(** ** Timers *)
Lemma wp_get_interval s0 L n s i l which (Q : Z -> state W -> Prop) :
  st s0 L n s -> aget L i = Some l -> 0 <= which < NR_ITIMERS -> (forall t, Q t s) -> wp (get_interval i which) Q never s.
Proof.
  intros Hs Hl Hw HQ. unfold get_interval. pm_go. destruct (aget_is_Some (mp_interval p) which) as [t Ht].
  { by rewrite (lo_interval _ Hok). }
  by eapply wp_deref.
Qed.
Lemma wp_set_interval s0 L n s i l which t (Q : unit -> state W -> Prop) :
  st s0 L n s -> aget L i = Some l -> 0 <= which < NR_ITIMERS -> (forall s', st s0 L n s' -> Q tt s') ->
  wp (set_interval i which t) Q never s.
Proof.
  intros Hs Hl Hw HQ. unfold set_interval. pm_step. eapply wp_get_interval; [exact Hs|done..|]. intros _.
  eapply wp_set_quiet; [exact Hs|done| |exact HQ]. intros p _ _ Hok. split; [done|]. split; try apply Hok. simpl.
  rewrite length_aupd. apply Hok.
Qed.
Lemma timeval_some ticks : exists tv, timeval_from_ticks ticks = Some tv.
Proof. unfold timeval_from_ticks. pose proof system_hz_ok. replace (system_hz =? 0) with false by lia. by eexists. Qed.
Lemma ticks_of_seconds sec : exists t, ticks_from_timeval (mk_timeval sec 0) = Some t.
Proof.
  unfold ticks_from_timeval. pose proof system_hz_ok. replace (system_hz =? 0) with false by lia.
  change (tv_sec (mk_timeval sec 0)) with sec. change (tv_usec (mk_timeval sec 0)) with 0.
  replace (s32 (u32 (system_hz * u32 0 + (US - 1)) `div` US)) with 0.
  - destruct (negb _); [by eexists|]. rewrite Z.add_0_r. unfold int.
    assert (- 2 ^ 31 <= s32 (u32 (system_hz * u32 sec)) < 2 ^ 31) as Hr.
    { unfold s32. pose proof (Z.mod_pos_bound (u32 (system_hz * u32 sec) + 2 ^ 31) (2 ^ 32) ltac:(done)). lia. }
    destruct (_ && _) eqn:E; [by eexists|lia].
  - change (u32 0) with 0. rewrite Z.mul_0_r. by vm_compute.
Qed.
Definition fits_timer (v : itimerval) : Prop :=
  is_Some (ticks_from_timeval (it_value v)) /\ is_Some (ticks_from_timeval (it_interval v)).
Lemma wp_get_realtimer s0 L n s i l (Q : itimerval -> state W -> Prop) :
  st s0 L n s -> aget L i = Some l -> (forall v s', st s0 L n s' -> Q v s') -> wp (get_realtimer i) Q never s.
Proof.
  intros Hs Hl HQ. unfold get_realtimer. pm_go.
  apply (wp_mono _ (fun _ s' => st s0 L n s') _ never); [| |done].
  - destruct (has (mp_flags p) ALARM_ON); [|by pm_go]. pm_step. pm_step.
    destruct (getuptime_ok w) as [Hok1 Hr]. destruct (getuptime w) as [[r uptime] w']. cbn [fst snd] in *. subst r.
    change (negb (is_ok OK)) with false. cbv iota. pm_go.
    match goal with |- context [tmr_exp_time i ?w0] => pose proof (tmr_exp_time_ok i w0) as Ht; set (e := tmr_exp_time i w0) in * end.
    eapply (wp_deref _ (e - uptime)); [unfold int; by replace ((- 2 ^ 31 <=? e - uptime) && (e - uptime <? 2 ^ 31)) with true by lia|].
    cbn beta. destruct (_ <=? 0); [eapply wp_get_interval; [exact Hs|done|by unfold ITIMER_REAL, NR_ITIMERS|done]|by pm_go].
  - clear Hs. intros remaining s1 Hs. destruct (timeval_some remaining) as [tv Htv]. rewrite Htv. pm_step.
    eapply wp_deref; [done|]. pm_step. eapply wp_get_interval; [exact Hs|done|by unfold ITIMER_REAL, NR_ITIMERS|]. intros t.
    destruct (timeval_some t) as [tv2 Htv2]. rewrite Htv2. pm_step. eapply wp_deref; [done|]. pm_step. by apply HQ.
Qed.
Lemma wp_set_realtimer s0 L n s i l v (Q : unit -> state W -> Prop) :
  st s0 L n s -> aget L i = Some l -> fits_timer v -> (forall s', st s0 L n s' -> Q tt s') ->
  wp (set_realtimer i v) Q never s.
Proof.
  intros Hs Hl [[t Ht] [u Hu]] HQ. unfold set_realtimer. rewrite Ht, Hu. pm_step. eapply wp_deref; [done|]. pm_step.
  eapply wp_deref; [done|]. cbv zeta. pm_step. eapply wp_set_alarm; [exact Hs|done|next_state Hs].
  eapply wp_set_interval; [exact Hs|done|by unfold ITIMER_REAL, NR_ITIMERS|exact HQ].
Qed.
Lemma do_alarm_ok s : stays do_alarm s.
Proof.
  intros L n Hs T. destruct (st_mp_get _ _ _ _ Hs) as [l Hl]. unfold do_alarm. pm_step. pm_step. cbn beta. pm_step.
  eapply wp_get_realtimer; [exact Hs|done|]. clear Hs. intros v s1 Hs. cbv zeta. pm_step.
  eapply wp_set_realtimer; [exact Hs|done| |next_state Hs; by pm_go].
  destruct (ticks_of_seconds (seconds (m_in s))) as [t Ht], (ticks_of_seconds 0) as [t0 Ht0].
  split; [exists t; exact Ht|exists t0; exact Ht0].
Qed.
Lemma wp_getset_vtimer s0 L n s i l which value getval (Q : itimerval -> state W -> Prop) :
  st s0 L n s -> aget L i = Some l -> 0 < which < NR_ITIMERS -> (forall v, value = Some v -> fits_timer v) ->
  (forall v s', st s0 L n s' -> Q v s') -> wp (getset_vtimer i which value getval) Q never s.
Proof.
  intros Hs Hl Hw Hv HQ. unfold getset_vtimer. pm_step. eapply wp_get_interval; [exact Hs|done|lia|]. intros t. pm_step.
  apply (wp_mono _ (fun _ s' => st s0 L n s') _ never); [| |done].
  { destruct getval; [|by pm_go]. destruct (timeval_some t) as [tv Htv]. rewrite Htv. by eapply wp_deref. }
  clear Hs. intros ointerval s1 Hs. cbn beta. pm_step.
  apply (wp_mono _ (fun _ s' => st s0 L n s') _ never); [| |done].
  { destruct value as [v|]; [|by pm_go]. destruct (Hv v eq_refl) as [[a Ha] [b Hb]]. rewrite Ha, Hb. pm_step.
    eapply wp_deref; [done|]. pm_step.
    destruct (a <=? 0); [|pm_step; eapply wp_deref; [done|]];
      (eapply wp_set_interval; [exact Hs|done|lia|next_state Hs; by pm_go]). }
  clear Hs. intros nptr s2 Hs. cbn beta. pm_step.
  apply (wp_mono _ (fun _ s' => st s0 L n s') _ never); [| |done].
  { unfold vtimer_number, ITIMER_VIRTUAL, ITIMER_PROF, NR_ITIMERS in *. destruct (which =? 1) eqn:E1; [by pm_go|].
    destruct (which =? 2) eqn:E2; [by pm_go|]. lia. }
  clear Hs. intros num s3 Hs. cbn beta. pm_go. pose proof (sys_vtimer_ok (l_ep l) num nptr getval w) as Hr.
  destruct (sys_vtimer _ _ _ _ _) as [[r oldticks] w']. cbn [fst] in *. subst r. change (negb (is_ok OK)) with false. cbv iota.
  destruct getval; [|pm_go; by apply HQ]. pm_step.
  apply (wp_mono _ (fun _ s' => st s0 L n s') _ never); [| |done].
  { destruct (oldticks <=? 0); [eapply wp_get_interval; [exact Hs|done|lia|done]|by pm_go]. }
  clear Hs. intros old s5 Hs. cbn beta. destruct (timeval_some old) as [tv Htv]. rewrite Htv. pm_step.
  eapply wp_deref; [done|]. pm_go. by apply HQ.
Qed.
(** The times that a process may hand to [setitimer] without overflow. *)
Definition itimer_ok s : Prop :=
  forall a w v, (in_itimerval (who_e s) a w).1 = (OK, v) -> is_sane_timeval (it_value v) = true ->
    is_sane_timeval (it_interval v) = true -> fits_timer v.
Lemma do_itimer_ok s : itimer_ok s -> stays do_itimer s.
Proof.
  intros Hfit L n Hs T. destruct (st_mp_get _ _ _ _ Hs) as [l Hl]. unfold do_itimer. pm_step. pm_step. cbn beta zeta.
  destruct (_ || _) eqn:Hw; [by pm_go|]. apply orb_false_iff in Hw as [Hw1 Hw2].
  set (getval := negb (old_val (m_in s) =? 0)). destruct (negb (new_val (m_in s) =? 0)) eqn:Hset.
  - cbn [negb andb]. pm_step. pm_step.
    match goal with |- context [in_itimerval ?a ?b ?w] => pose proof (Hfit b w) as Hx; destruct (in_itimerval a b w) as [[r v] w'] end.
    cbn [fst] in *. destruct (negb (is_ok r)) eqn:Er; [by pm_go|].
    apply is_ok_true in Er as ->.
    destruct (_ || _) eqn:Hsane; [by pm_go|]. apply orb_false_iff in Hsane as [H1'%negb_false_iff H2'%negb_false_iff].
    assert (fits_timer v) as Hv by (by eapply Hx). pm_step.
    apply (wp_mono _ (fun _ s' => st s L n s') _ never); [| |done].
    + destruct (_ =? ITIMER_REAL) eqn:Hreal.
      * pm_step. apply (wp_mono _ (fun _ s' => st s L n s') _ never); [| |done].
        { destruct getval; [eapply wp_get_realtimer; [exact Hs|done|auto]|by pm_go]. }
        clear Hs. intros o s2 Hs. cbn beta. pm_step. eapply wp_set_realtimer; [exact Hs|done|done|next_state Hs; by pm_go].
      * eapply wp_getset_vtimer; [exact Hs|done|unfold ITIMER_REAL in *; lia|by intros ? [= <-]|auto].
    + clear Hs. intros o s2 Hs. cbn beta. destruct getval; by pm_go.
  - cbn [negb andb]. destruct getval; cbn [negb]; [|by pm_go]. pm_go. change (negb (is_ok OK)) with false. cbv iota. cbn [andb]. pm_step.
    apply (wp_mono _ (fun _ s' => st s L n s') _ never); [| |done].
    + destruct (_ =? ITIMER_REAL) eqn:Hreal.
      * pm_go. eapply wp_get_realtimer; [exact Hs|done|]. clear Hs. intros v s2 Hs. by pm_go.
      * eapply wp_getset_vtimer; [exact Hs|done|unfold ITIMER_REAL in *; lia|done|auto].
    + clear Hs. intros o s2 Hs. cbn beta. by pm_go.
Qed.

(** ** Calls of VFS *)
Lemma mild_wf s0 L n s i l l' :
  st s0 (aupd i (fun _ => l') L) n s -> tree None L n -> settled None L -> aget L i = Some l -> l_used l = true ->
  mild l l' -> flags_ok false l' = true -> (l_pend l' = true -> l_vfs l' = true \/ l_ep l = INIT_PROC_NR) ->
  (l_unpaused l' = true -> l_ep l = INIT_PROC_NR) -> wf s.
Proof.
  intros Hs T Hse Hl Hu Hm Hf Hp Hun. pose proof (mi_flags _ _ Hm) as E. injection E as E1 E2 E3 E4 E5 E6.
  pose proof (mi_nums _ _ Hm) as F. injection F as F1 F2 F3 F4.
  eapply wf_intro; [exact Hs|eapply tree_mild; [done..|by rewrite bool_decide_false]|].
  eapply settled_close; [eapply (settled_upd None); [done|by left|exact Hl|done..]|by eapply aget_set|rewrite F2; auto..].
Qed.
(** The caller is to wait for VFS. *)
Lemma call_wf s L n l s' g :
  calling s L n l -> st s (aupd (mp s) (fun _ => l <| l_grp := g |> <| l_vfs := true |>) L) n s' -> wf s'.
Proof.
  intros Hc Hs. destruct (alive_split _ (ca_alive _ _ _ _ Hc)) as [Hu He].
  pose proof (tree_flags _ _ _ _ _ (ca_tree _ _ _ _ Hc) (ca_get _ _ _ _ Hc) Hu) as Hf. rewrite bool_decide_false in Hf by done.
  eapply mild_wf; [exact Hs|apply Hc|apply Hc|apply Hc|done|..].
  - split; try done. simpl. congruence.
  - pose proof (ca_unpaused _ _ _ _ Hc) as Hun. revert Hf He Hun. clear. simpl. flag_cases l.
  - by left.
  - simpl. by rewrite (ca_unpaused _ _ _ _ Hc).
Qed.
Lemma grp_same l : l <| l_grp := l_grp l |> = l.
Proof. by destruct l. Qed.
Lemma do_exec_ok : keeps do_exec.
Proof.
  intros s L n l Hc. pose proof (ca_st _ _ _ _ Hc) as Hs. pose proof (ca_get _ _ _ _ Hc) as Hl.
  unfold do_exec. pm_go. eapply wp_tell_vfs; [exact Hs|done|apply Hc|next_state Hs]. pm_go.
  eapply (call_wf _ _ _ _ _ (l_grp l)); [done|]. by rewrite grp_same.
Qed.
Lemma do_set_ok : keeps do_set.
Proof.
  intros s L n l Hc. pose proof (ca_st _ _ _ _ Hc) as Hs. pose proof (ca_get _ _ _ _ Hc) as Hl.
  pose proof (calling_wf _ _ _ _ Hc) as Hwf. destruct (alive_split _ (ca_alive _ _ _ _ Hc)) as [Hu _].
  assert (forall s1 req, st s L n s1 -> wp (tell_vfs (mp s) req;; mret SUSPEND) (fun _ => wf) never s1) as Hsend.
  { intros s1 req Hs1. pm_step. eapply wp_tell_vfs; [exact Hs1|done|apply Hc|]. intros s2 Hs2. pm_go.
    eapply (call_wf _ _ _ _ _ (l_grp l)); [done|]. by rewrite grp_same. }
  unfold do_set. pm_go. cbv zeta.
  destruct (_ || _); [destruct (_ && _); [by pm_go|]; pm_step; pm_step; by apply Hsend|].
  destruct (_ || _); [destruct (_ && _); [by pm_go|]; pm_step; pm_step; by apply Hsend|].
  destruct (_ =? SETGROUPS).
  { destruct (negb _); [by pm_go|]. destruct (_ || _); [by pm_go|]. destruct (_ =? 0); [by pm_go|].
    pm_step. pm_step. destruct (in_gids _ _ _ _) as [[r gids] w']. cbn [fst].
    destruct (negb (is_ok r)); [pm_go; by eapply same_wf|]. pm_step. pm_step. by apply Hsend. }
  destruct (_ =? SETSID); [|by pm_go]. destruct (_ =? _); [by pm_go|].
  pm_step. set (l1 := l <| l_grp := l_pid l |>).
  eapply (wp_set_slot _ _ _ _ _ l l1); [exact Hs|done| |next_state Hs].
  { intros q _ Hq Hqok. split; [change (life_of q <| l_grp := l_pid (life_of q) |> = l1); by rewrite Hq|]. split; try apply Hqok. simpl.
    destruct (tr_slot _ _ _ (ca_tree _ _ _ _ Hc) _ _ Hl Hu) as (_ & Hpid & _). change (mp_pid q) with (l_pid (life_of q)). rewrite Hq. lia. }
  cbn beta. pm_step. eapply wp_tell_vfs; [exact Hs|solve_get|apply Hc|next_state Hs]. pm_go. by eapply call_wf.
Qed.

(** ** Signals *)
Lemma pending_wf s L n l s' :
  calling s L n l -> st s L n s' -> wp (check_pending (mp s)) (fun _ => wf) never s'.
Proof.
  intros Hc Hs. eapply wp_after_wf; [apply Hc|]. eapply check_pending_ok; [exact Hs|apply Hc..].
Qed.
Lemma never_kill_block l set mask : never_kill set -> Forall (fun i => 0 <= i) l -> never_kill mask ->
  never_kill (foldl (fun mask i => if sigismember set i then sigaddset mask i else mask) mask l).
Proof.
  intros Hs Hl. revert mask. induction Hl as [|i l Hi Hl IH]; intros mask Hm; [done|]. simpl. apply IH.
  destruct (sigismember set i) eqn:E; [|done]. apply never_kill_add; [|done|done]. intros ->. unfold never_kill in Hs. congruence.
Qed.
Lemma never_kill_unblock l set mask : never_kill mask ->
  never_kill (foldl (fun mask i => if sigismember set i then sigdelset mask i else mask) mask l).
Proof.
  revert mask. induction l as [|i l IH]; intros mask Hm; [done|]. simpl. apply IH.
  destruct (sigismember set i); [by apply never_kill_del|done].
Qed.
Ltac set_mask := intros ? ? ? Hq; split; [done|]; split; try apply Hq; simpl; try apply never_kill_stop.
Lemma do_sigprocmask_ok : keeps do_sigprocmask.
Proof.
  intros s L n l Hc. pose proof (ca_st _ _ _ _ Hc) as Hs. pose proof (ca_get _ _ _ _ Hc) as Hl.
  unfold do_sigprocmask. pm_go. destruct (_ =? SIG_BLOCK).
  { pm_step. eapply wp_set_quiet; [exact Hs|done| |next_state Hs; pm_go; by eapply same_wf].
    set_mask. apply never_kill_block; [apply never_kill_stop| |apply Hq].
    apply list.Forall_forall. intros i Hi%elem_of_seqZ. lia. }
  destruct (_ =? SIG_UNBLOCK).
  { pm_step. eapply wp_set_quiet; [exact Hs|done|set_mask; apply never_kill_unblock, Hq|next_state Hs]. cbn beta. pm_step.
    eapply wp_mono; [by eapply pending_wf| |done]. intros [] s' ?. by pm_go. }
  destruct (_ =? SIG_SETMASK).
  { pm_step. eapply wp_set_quiet; [exact Hs|done|set_mask|next_state Hs]. cbn beta. pm_step.
    eapply wp_mono; [by eapply pending_wf| |done]. intros [] s' ?. by pm_go. }
  destruct (_ =? SIG_INQUIRE); pm_go; by eapply same_wf.
Qed.
Lemma do_sigsuspend_ok : keeps do_sigsuspend.
Proof.
  intros s L n l Hc. pose proof (ca_st _ _ _ _ Hc) as Hs. pose proof (ca_get _ _ _ _ Hc) as Hl.
  unfold do_sigsuspend. pm_step. pm_step. cbn beta. pm_step.
  eapply wp_set_quiet; [exact Hs|done|set_mask; apply Hq|next_state Hs]. cbn beta. pm_go.
  eapply wp_mono; [by eapply pending_wf| |done]. intros [] s' ?. by pm_go.
Qed.
Lemma do_sigreturn_ok : keeps do_sigreturn.
Proof.
  intros s L n l Hc. pose proof (ca_st _ _ _ _ Hc) as Hs. pose proof (ca_get _ _ _ _ Hc) as Hl.
  unfold do_sigreturn. pm_step. pm_step. cbn beta. pm_step.
  eapply wp_set_quiet; [exact Hs|done|set_mask|next_state Hs]. cbn beta. pm_go.
  eapply wp_mono; [by eapply pending_wf| |done]. intros [] s' ?. by pm_go.
Qed.
Lemma do_kill_ok : keeps do_kill.
Proof.
  intros s L n l Hc. unfold do_kill. pm_go. eapply wp_after_wf; [apply Hc|].
  eapply check_sig_run; [by eapply st_here; apply Hc|apply Hc|done].
Qed.
Lemma do_srv_kill_ok s L n l :
  calling s L n l -> spares_vfs (pid (m_in s)) (sig_nr (m_in s)) true L -> wp do_srv_kill (fun _ => wf) never s.
Proof.
  intros Hc Hv. pose proof (ca_st _ _ _ _ Hc) as Hs. pose proof (ca_get _ _ _ _ Hc) as Hl.
  unfold do_srv_kill. pm_go. destruct (negb _); [pm_go; by eapply calling_wf|].
  eapply wp_after_wf; [apply Hc|]. eapply check_sig_run; [exact Hs|apply Hc|done].
Qed.
End calls.
