(* ===== verification/PmTrace.v ===== *)
(** The other calls of PM on well-formed states: tracing, [exec], signals of the kernel,
    alarms and the end of the system. *)
From S2P Require Import Prelude Minix PmBase Pm PmAlarm PmSignal PmCalls PmMain PmTree PmInv PmEnd PmWf PmFork PmRun.
Local Open Scope Z_scope.

Section calls.
Context `{MinixHeaders} `{PmHeaders} {W : Type} `{PmSched W} `{PmEnv W} `{!PmLaws} `{!EnvLaws}.
Implicit Types (s : state W) (L : list life).

(** ** Tracers *)
Lemma tree_traced L n i l t :
  tree None L n -> settled None L -> aget L i = Some l -> alive l = true ->
  t = 0 \/ (exists q, aget L t = Some q /\ alive q = true) ->
  tree None (aupd i (fun _ => l <| l_tracer := t |>) L) n /\ settled None (aupd i (fun _ => l <| l_tracer := t |>) L).
Proof.
  intros T Hse Hl Ha Ht. destruct (alive_split _ Ha) as [Hu He].
  pose proof (tree_flags _ _ _ _ _ T Hl Hu) as Hf. rewrite bool_decide_false in Hf by done.
  destruct (alive_flags _ _ Hf He) as (Hz & Htz & _).
  destruct (tr_slot _ _ _ T _ _ Hl Hu) as (_ & Hpid & Hep & Hvfs & Hw & _). split.
  - eapply (tree_upd None); [exact T|exact Hl|done|]. split; try done; simpl.
    + split_and!; try done. by simpl; rewrite Htz.
    + intros ->. destruct (tr_init _ _ _ T) as (q & Hq & _ & ? & ?). by assert (q = l) as -> by congruence.
    + intros ->. destruct (tr_pm _ _ _ T) as (q & Hq & _ & ? & ? & ?). by assert (q = l) as -> by congruence.
    + by eapply tr_parent.
    + intros Ht0. destruct Ht as [?|(q & Hq & Hqa)]; [done|]. destruct (alive_split _ Hqa) as [? ?]. exists q.
      split; [done|]. split; [done|congruence].
    + by left.
    + intros _. unfold no_wait. by rewrite Hz.
    + unfold no_wait. by rewrite Htz.
  - destruct Hse as [Hp Hun Hd]. split.
    + intros j y Hj Hy. destruct (aget_upd_cases _ _ _ _ _ _ Hl Hy) as [[-> ->]|[_ Hy']]; [by apply (Hp i l)|by apply (Hp j y)].
    + intros j y Hj Hy. destruct (aget_upd_cases _ _ _ _ _ _ Hl Hy) as [[-> ->]|[_ Hy']]; [by apply (Hun i l)|by apply (Hun j y)].
    + intros j y Hy Huy Hey. destruct (aget_upd_cases _ _ _ _ _ _ Hl Hy) as [[-> ->]|[_ Hy']]; [simpl in Hey; congruence|].
      intros k z Hk Huz. pose proof (Hd j y Hy' Huy Hey) as Hnd.
      destruct (aget_upd_cases _ _ _ _ _ _ Hl Hk) as [[-> ->]|[_ Hk']]; [|by apply (Hnd k z)].
      destruct (Hnd i l Hl Hu) as [Hn1 _]. split; [done|]. simpl. intros Hj ->.
      destruct Ht as [?|(q & Hq & Hqa)]; [done|]. destruct (alive_split _ Hqa). congruence.
Qed.
Lemma parent_alive L n i l :
  tree None L n -> settled None L -> aget L i = Some l -> l_used l = true -> exists q, aget L (l_parent l) = Some q /\ alive q = true.
Proof.
  intros T Hse Hl Hu. destruct (tr_parent _ _ _ T _ _ Hl Hu) as (_ & q & Hq & Hqu & _). exists q. split; [done|].
  unfold alive. rewrite Hqu. destruct (l_exiting q) eqn:He; [|done]. exfalso.
  destruct (se_dep _ _ Hse _ _ Hq Hqu He _ _ Hl Hu). done.
Qed.
Lemma trace_ok_ok s0 L n s (Q : rc -> state W -> Prop) :
  st s0 L n s -> (forall r s', st s0 L n s' -> Q r s') -> wp trace_ok Q never s.
Proof.
  intros Hs HQ. destruct (st_mp_get _ _ _ _ (st_here _ _ _ _ Hs)) as [l Hl]. unfold trace_ok. pm_go. by apply HQ.
Qed.
Lemma wp_find_live s0 L n s k (Q : option Z -> state W -> Prop) :
  st s0 L n s -> Q None s ->
  (forall i l, aget L i = Some l -> alive l = true -> l_pid l = k -> Q (Some i) s) -> wp (find_live k) Q never s.
Proof.
  intros Hs Hno Hyes. unfold find_live. pm_step. eapply wp_find_proc; [exact Hs|by pm_go|]. intros i l Hi Hu Hk. pm_go.
  destruct (l_exiting l) eqn:He; [done|]. apply (Hyes i l); [done| |done]. unfold alive. by rewrite Hu, He.
Qed.
Lemma trace_reply_ok ep s : wf s -> wp (sys_trace_reply ep) (fun _ => wf) never s.
Proof.
  intros (L & n & Hs & T & Hse). destruct (st_mp_get _ _ _ _ Hs) as [l Hl].
  unfold sys_trace_reply. pm_go. destruct (sys_trace _ _ _ _ _) as [[r d] w']. cbn [fst].
  pm_step. apply wp_modify. match goal with |- wp _ _ _ ?x => assert (st x L n x) as Hs' end.
  { destruct Hs as [Hfr HL Hn HF Hlen Hmp Hg]. destruct Hfr as (Hm & _). split; try done. by simpl; rewrite Hm. }
  clear Hs. destruct (negb (is_ok r)); [pm_go; by eapply wf_intro|]. pm_go. by eapply wf_intro.
Qed.
Lemma slot_reply_ok s0 L n s i l :
  st s0 L n s -> tree None L n -> settled None L -> aget L i = Some l ->
  wp (p ← slot i; sys_trace_reply (mp_endpoint p)) (fun _ => wf) never s.
Proof. intros Hs T Hse Hl. pm_go. apply trace_reply_ok. by eapply wf_intro. Qed.
Lemma trace_attach_ok : keeps trace_attach.
Proof.
  intros s L n l Hc. pose proof (ca_st _ _ _ _ Hc) as Hs. pose proof (ca_get _ _ _ _ Hc) as Hl.
  pose proof (calling_wf _ _ _ _ Hc) as Hwf. unfold trace_attach. pm_step. pm_step. cbn beta. pm_step.
  eapply wp_find_live; [exact Hs|by pm_go|]. intros i c Hi Hca Hpid. pm_go.
  destruct (_ && _); [by pm_go|]. destruct (_ && _); [by pm_go|]. destruct (l_priv l); [by pm_go|].
  destruct (_ || _ || _); [by pm_go|]. destruct (negb _); [by pm_go|].
  set (c1 := c <| l_tracer := who_p s |>). pm_step.
  eapply (wp_set_slot _ _ _ _ _ c c1); [exact Hs|done| |next_state Hs].
  { intros q _ Hq Hqok. split; [change (life_of q <| l_tracer := who_p s |> = c1); by rewrite Hq|].
    split; try apply Hqok. simpl. rewrite (ca_who _ _ _ _ Hc). apply (ca_st _ _ _ _ Hc). }
  cbn beta. destruct (tree_traced L n i c (who_p s)) as [T1 Hse1]; [apply Hc|apply Hc|done|done| |].
  { right. rewrite (ca_who _ _ _ _ Hc). exists l. split; [done|apply Hc]. }
  fold c1 in T1, Hse1. pm_step.
  eapply wp_mono; [eapply sig_proc_ok; [exact Hs|exact T1|by eapply aget_set|done|apply SIGSTOP_range|done|by eapply sig_fuel]| |done].
  intros [] s' (L' & n' & Hs' & T' & E'). eapply trace_ok_ok; [exact Hs'|]. intros r s2 Hs2.
  eapply wf_intro; [exact Hs2|done|by eapply settled_ev].
Qed.
Lemma trace_text_ok s : wf s -> wp trace_text (fun _ => wf) never s.
Proof.
  intros Hwf. pose proof Hwf as (L & n & Hs & T & Hse). destruct (st_mp_get _ _ _ _ Hs) as [l Hl].
  unfold trace_text. pm_go. destruct (negb _); [by pm_go|]. pm_step.
  eapply wp_find_live; [exact Hs|by pm_go|]. intros i c Hi _ _. by eapply slot_reply_ok.
Qed.
Lemma trace_range_ok s L n l c lc :
  calling s L n l -> aget L c = Some lc -> wp (trace_range c) (fun _ => wf) never s.
Proof.
  intros Hc Hi. pose proof (ca_st _ _ _ _ Hc) as Hs. unfold trace_range. pm_go.
  destruct (in_ptrace_range _ _ _) as [[r pr] w']. cbn [fst].
  destruct (negb (is_ok r)); [pm_go; by eapply same_wf|]. destruct (_ && _); [pm_go; by eapply same_wf|].
  destruct (_ || _); [pm_go; by eapply same_wf|]. pm_go. destruct (negb _); [pm_go; by eapply same_wf|].
  eapply trace_ok_ok; [exact Hs|]. intros r' s' Hs'. by eapply same_wf.
Qed.
Lemma trace_exit_ok s L n l c lc :
  calling s L n l -> aget L c = Some lc -> alive lc = true -> l_ep lc <> VFS_PROC_NR -> c <> 0 ->
  wp (trace_exit c) (fun _ => wf) never s.
Proof.
  intros Hc Hi Ha Hep Hc0. pose proof (ca_st _ _ _ _ Hc) as Hs. pose proof (ca_get _ _ _ _ Hc) as Hl.
  unfold trace_exit. pm_go. destruct (l_vfs lc) eqn:Hv; [pm_go; by eapply same_wf|].
  eapply wp_mono; [eapply exit_proc_ok; [apply sig_proc_ok|exact Hs|apply Hc|done..|]| |done].
  { pose proof (sig_fuel _ _ (ca_tree _ _ _ _ Hc)). lia. }
  intros [] s' Ha'%ended_after. pm_go. eapply after_wf; [apply Hc|done].
Qed.
(** The tracer lets go of a process, with no signal. *)
Lemma resume_ok s0 L n s c lc :
  st s0 L n s -> tree None L n -> settled None L -> aget L c = Some lc -> alive lc = true -> l_ep lc <> VFS_PROC_NR ->
  wp (check_pending c;; p ← slot c; sys_trace_reply (mp_endpoint p)) (fun _ => wf) never s.
Proof.
  intros Hs T Hse Hi Ha Hep. pm_step. eapply wp_mono; [by eapply check_pending_ok| |done].
  intros [] s' (L' & n' & Hs' & T' & E'). destruct (evolves_len' _ _ _ _ _ E' Hi) as [lc' Hlc'].
  eapply slot_reply_ok; [exact Hs'|done|by eapply settled_ev|done].
Qed.
Lemma trace_resume_ok s L n l c lc :
  calling s L n l -> aget L c = Some lc -> alive lc = true -> l_ep lc <> VFS_PROC_NR -> data (m_in s) <= 0 ->
  wp (trace_resume c) (fun _ => wf) never s.
Proof.
  intros Hc Hi Ha Hep Hd. pose proof (ca_st _ _ _ _ Hc) as Hs. unfold trace_resume. pm_go.
  destruct (_ || _); [pm_go; by eapply same_wf|]. replace (0 <? data (m_in s)) with false by lia. pm_go.
  destruct (first_signal _); [eapply trace_ok_ok; [exact Hs|]; intros r s' Hs'; by eapply same_wf|].
  pm_step. pm_step. eapply resume_ok; [exact Hs|apply Hc|apply Hc|done..].
Qed.
Lemma set_slot_get i f p s :
  aget (procs s) i = Some p -> wp (set_slot i f) (fun _ s' => aget (procs s') i = Some (f p)) never s.
Proof. intros Hp. unfold wp. rewrite (set_mp_slot_run _ _ _ _ Hp). cbn [procs upd]. by rewrite aget_aupd_eq, Hp. Qed.
Lemma trace_detach_ok s L n l c p :
  calling s L n l -> aget (procs s) c = Some p -> alive (life_of p) = true -> l_ep (life_of p) <> VFS_PROC_NR ->
  data (m_in s) <= 0 -> mp_sigtrace p = 0 -> wp (trace_detach c) (fun _ => wf) never s.
Proof.
  intros Hc Hp Ha Hep Hd Hsig. pose proof (ca_st _ _ _ _ Hc) as Hs. destruct (st_get_inv _ _ _ _ _ _ Hs Hp) as [Hi Hok].
  unfold trace_detach. pm_go. destruct (_ || _); [pm_go; by eapply same_wf|]. pm_step.
  set (c1 := life_of p <| l_tracer := 0 |>). set (L1 := aupd c (fun _ => c1) L).
  apply (wp_mono _ (fun _ s' => st s L1 n s' /\ aget (procs s') c = Some (p <| mp_tracer := NO_TRACER |>)) _ never); [| |done].
  { apply wp_conj; [|by apply set_slot_get]. eapply wp_set_slot; [exact Hs|exact Hi| |intros s' Hs'; exact Hs'].
    intros q _ Hq Hqok. split; [|local]. change (life_of q <| l_tracer := 0 |> = c1). by rewrite Hq. }
  clear Hs. intros [] s1 [Hs Hp1]. pm_step.
  apply (wp_mono _ (fun _ s' => s' = s1) _ never); [| |done].
  { apply (wp_foreach _ _ (fun _ s' => s' = s1)); [done| |by intros s' ->]. intros pre k post s' _ ->. unfold release_step.
    pm_step. apply (wp_ret_run _ _ _ _ _ _ (pm_slot_run _ _ _ Hp1)). cbn [mp_sigtrace upd]. 
    change (mp_sigtrace (p <| mp_tracer := NO_TRACER |>)) with (mp_sigtrace p). rewrite Hsig.
    unfold sigismember. rewrite Z.bits_0. by pm_go. }
  intros [] s' ->. replace (0 <? data (m_in s)) with false by lia.
  destruct (tree_traced L n c (life_of p) 0) as [T1 Hse1]; [apply Hc|apply Hc|done|done|by left|]. fold c1 L1 in T1, Hse1.
  assert (aget L1 c = Some c1) as Hi1 by (subst L1; solve_get).
  pm_step. pm_step. cbn beta. pm_step. pm_step. cbn beta. pm_step. pm_step. cbn beta.
  eapply resume_ok; [exact Hs|exact T1|exact Hse1|exact Hi1|done|done].
Qed.

(** A request on a traced process that PM can carry out: not on VFS or PM, and a process is let
    go with no signal from its tracer and none kept for it. *)
Definition trace_request_ok s : Prop :=
  forall c p, aget (procs s) c = Some p -> has (mp_flags p) IN_USE = true -> mp_pid p = pid (m_in s) ->
    mp_tracer p = who_p s ->
    mp_endpoint p <> VFS_PROC_NR /\ c <> 0 /\
    (request (m_in s) = T_DETACH -> data (m_in s) <= 0 /\ mp_sigtrace p = 0) /\
    (request (m_in s) = T_RESUME \/ request (m_in s) = T_STEP \/ request (m_in s) = T_SYSCALL -> data (m_in s) <= 0).
Lemma do_trace_ok s L n l : calling s L n l -> trace_request_ok s -> wp do_trace (fun _ => wf) never s.
Proof.
  intros Hc Hreq. pose proof (ca_st _ _ _ _ Hc) as Hs. pose proof (ca_get _ _ _ _ Hc) as Hl.
  pose proof (calling_wf _ _ _ _ Hc) as Hwf. pose proof (ca_tree _ _ _ _ Hc) as T.
  destruct (alive_split _ (ca_alive _ _ _ _ Hc)) as [Hu _].
  unfold do_trace. pm_step. pm_step. cbn beta zeta. destruct (_ =? T_OK).
  { pm_go. destruct (negb _); [by pm_go|]. pm_step. set (l1 := l <| l_tracer := l_parent l |>).
    eapply (wp_set_slot _ _ _ _ _ l l1); [exact Hs|done| |next_state Hs].
    { intros q _ Hq Hqok. split; [change (life_of q <| l_tracer := l_parent (life_of q) |> = l1); by rewrite Hq|].
      split; try apply Hqok. }
    cbn beta. destruct (tree_traced L n (mp s) l (l_parent l)) as [T1 Hse1]; [done|apply Hc|done|apply Hc| |].
    { right. eapply parent_alive; [done|apply Hc|done|done]. }
    eapply trace_ok_ok; [exact Hs|]. intros r s2 Hs2. by eapply wf_intro. }
  destruct (_ =? T_ATTACH); [by eapply trace_attach_ok|]. destruct (_ =? T_STOP); [by pm_go|].
  destruct (_ || _); [by apply trace_text_ok|]. pm_step.
  eapply wp_find_live; [exact Hs|by pm_go|]. intros c lc Hi Ha Hpid.
  destruct (st_get _ _ _ _ _ _ Hs Hi) as (p & Hp & Hlp & _). destruct (alive_split _ Ha) as [Hcu _].
  pm_step. unfold wp at 1. rewrite (pm_slot_run _ _ _ Hp).
  destruct (negb (mp_tracer p =? who_p s)) eqn:Htr; [by pm_go|]. apply negb_false_iff, Z.eqb_eq in Htr.
  destruct (Hreq c p Hp) as (Hvfs & Hc0 & Hdet & Hres); [by change (l_used (life_of p) = true); rewrite Hlp| |done|].
  { change (l_pid (life_of p) = pid (m_in s)). by rewrite Hlp. }
  destruct (negb _); [by pm_go|]. rewrite <-Hlp in Ha, Hi. change (mp_endpoint p) with (l_ep (life_of p)) in Hvfs.
  destruct (_ =? T_EXIT); [by eapply trace_exit_ok|].
  destruct (_ =? T_SETOPT).
  { pm_step. pm_step. cbn beta. eapply trace_ok_ok; [exact Hs|]. intros r s2 Hs2. by eapply same_wf. }
  destruct (_ || _); [by eapply trace_range_ok|].
  destruct (_ =? T_DETACH) eqn:Hd.
  { destruct Hdet as [Hd1 Hd2]; [lia|]. by eapply trace_detach_ok. }
  destruct (_ || _) eqn:Hr; [eapply trace_resume_ok; [done..|apply Hres; lia]|]. by apply trace_reply_ok.
Qed.

(** ** Exec *)
(** The memory of a new program is announced for a process, and can be read. *)
Definition newmem_ok s : Prop :=
  who_e s = VFS_PROC_NR \/ who_e s = RS_PROC_NR ->
  (exists i l, aget (lives s) i = Some l /\ l_used l = true /\ l_ep l = EXC_NM_PROC (m_in s)) /\
  (forall w, (in_exec_newmem (who_e s) (EXC_NM_PTR (m_in s)) w).1.1 = OK).
Lemma do_exec_newmem_ok s : newmem_ok s -> stays do_exec_newmem s.
Proof.
  intros Hreq L n Hs T. destruct (st_mp_get _ _ _ _ Hs) as [l Hl]. unfold do_exec_newmem. pm_step. pm_step. cbn beta zeta.
  destruct (_ && _) eqn:Hwho; [by pm_go|].
  destruct Hreq as [(i & li & Hi & Hu & Hep) Hin].
  { destruct (who_e s =? VFS_PROC_NR) eqn:E1, (who_e s =? RS_PROC_NR) eqn:E2; try done; lia. }
  rewrite (st_lives _ _ _ _ Hs) in Hi. rewrite <-Hep. pm_step. eapply wp_isokendpt; [exact Hs|exact T|exact Hi|done|].
  change (negb (is_ok OK)) with false. cbv iota. pm_step. pm_step. pose proof (Hin w) as Hr.
  destruct (in_exec_newmem _ _ _) as [[r args] w']. cbn [fst] in *. subst r. change (negb (is_ok OK)) with false. cbv iota.
  pm_step. pm_step. destruct (vm_exec_newmem _ _ _) as [[r [top fl]] w2]. cbn [fst]. destruct (negb (is_ok r)); [by pm_go|].
  pm_step. pm_step. cbn beta zeta. pm_step.
  eapply wp_set_quiet; [exact Hs|exact Hi| |next_state Hs; by pm_go].
  intros q _ _ Hq. destruct (_ =? NO_TRACER); (split; [done|]; by split; try apply Hq).
Qed.
Definition execrestart_ok s : Prop :=
  who_e s = RS_PROC_NR -> exists i l, aget (lives s) i = Some l /\ l_used l = true /\ l_ep l = EXC_RS_PROC (m_in s).
Lemma do_execrestart_ok s : execrestart_ok s -> wf s -> wp do_execrestart (fun _ => wf) never s.
Proof.
  intros Hreq Hwf. pose proof Hwf as (L & n & Hs & T & Hse). unfold do_execrestart. pm_step. pm_step. cbn beta zeta.
  destruct (negb _) eqn:Hwho; [by pm_go|]. destruct Hreq as (i & li & Hi & Hu & Hep); [lia|].
  rewrite (st_lives _ _ _ _ Hs) in Hi. rewrite <-Hep. pm_step. eapply wp_isokendpt; [exact Hs|exact T|exact Hi|done|].
  change (negb (is_ok OK)) with false. cbv iota. pm_step.
  eapply wp_mono; [eapply wp_after_wf; [exact Hse|by eapply exec_restart_ok]| |done]. intros [] s' ?. by pm_go.
Qed.
End calls.
