(* ===== verification/PmLoop.v ===== *)
(** The main loop of PM on well-formed states: the kernel's signals, alarms, replies, and
    the whole of one turn of the loop. *)
From S2P Require Import Prelude Minix PmBase Pm PmAlarm PmSignal PmCalls PmMain PmTree PmInv PmEnd PmWf PmFork PmRun PmTrace.
Local Open Scope Z_scope.

Section loop.
Context `{MinixHeaders} `{PmHeaders} {W : Type} `{PmSched W} `{PmEnv W} `{!PmLaws} `{!EnvLaws}.
Implicit Types (s : state W) (L : list life).

(** ** The end of the system *)
(** VFS has no call to answer. *)
Definition vfs_idle s : Prop :=
  exists l, aget (lives s) VFS_PROC_NR = Some l /\ alive l = true /\ l_vfs l = false /\ l_ep l = VFS_PROC_NR.
Lemma do_reboot_ok s L n l : calling s L n l -> vfs_idle s -> wp do_reboot (fun _ => wf) never s.
Proof.
  intros Hc (lv & Hlv & Hva & Hvv & Hve). pose proof (ca_st _ _ _ _ Hc) as Hs. pose proof (ca_get _ _ _ _ Hc) as Hl.
  pose proof (calling_wf _ _ _ _ Hc) as Hwf. rewrite (st_lives _ _ _ _ Hs) in Hlv. destruct (alive_split _ Hva) as [Hvu Hvx].
  unfold do_reboot. pm_go. destruct (negb _); [by pm_go|]. cbv zeta. pm_step. apply wp_modify.
  assert (st s L n (s <| abort_flag := s32 (u32 (reboot_flag (m_in s))) |>)) as Hs1.
  { destruct Hs as [Hfr HL Hn HF Hlen Hmp Hg]. by split. }
  clear Hs. rename Hs1 into Hs. destruct (_ <=? _); [pm_go; by eapply same_wf|]. pm_step.
  apply (wp_mono _ (fun _ s' => st s L n s') _ never); [destruct (_ =? _); [destruct (_ <=? _)|]; by pm_go| |done].
  clear Hs. intros r s1 Hs. cbn beta. destruct (negb _); [pm_go; by eapply same_wf|]. pm_step.
  eapply wp_mono; [eapply check_sig_run; [exact Hs|apply Hc|done]| |done].
  clear Hs. intros r' s2 (L2 & n2 & Hs & T2 & E2). cbn beta. pm_go.
  destruct (stays_alive _ _ _ _ E2 Hlv Hva) as (lv2 & Hlv2 & Hvu2 & Hve2 & Hva2).
  assert (l_vfs lv2 = false) as Hvv2.
  { destruct E2 as (_ & E2 & _). destruct (E2 _ _ _ Hlv Hlv2) as (_ & _ & _ & _ & _ & _ & _ & _ & Hx).
    destruct (l_vfs lv2); [|done]. by rewrite Hx in Hvv. }
  eapply wp_tell_vfs; [exact Hs|exact Hlv2|done|next_state Hs]. pm_go.
  pose proof (tree_flags _ _ _ _ _ T2 Hlv2 Hvu2) as Hf. rewrite bool_decide_false in Hf by done.
  destruct (tr_slot _ _ _ T2 _ _ Hlv2 Hvu2) as (_ & _ & _ & Hpriv & _).
  assert (l_priv lv2 = true) as Hpv by (apply Hpriv; congruence).
  assert (l_unpaused lv2 = false) as Hun by (revert Hf Hpv; clear; flag_cases lv2).
  eapply mild_wf; [exact Hs|exact T2|by eapply settled_ev; [apply Hc|..]|exact Hlv2|done|by split| | |].
  - specialize (Hva2 Hvv2). destruct (alive_split _ Hva2) as [_ Hx2]. revert Hf Hpv Hx2. clear. simpl. flag_cases lv2.
  - by left.
  - simpl. by rewrite Hun.
Qed.

(** ** Signals of the kernel *)
Lemma wp_isokendpt_any s0 L n s ep (Q : rc * Z -> state W -> Prop) :
  st s0 L n s ->
  (forall r k, (r = OK -> k < 0 \/ exists l, aget L k = Some l /\ l_used l = true /\ l_ep l = ep) -> k = _ENDPOINT_P ep -> Q (r, k) s) ->
  wp (pm_isokendpt ep) Q never s.
Proof.
  intros Hs HQ. unfold pm_isokendpt. destruct (_ || _) eqn:Hr; [pm_go; by apply HQ|].
  destruct (_ <? 0) eqn:Hneg; [pm_go; apply HQ; [left; lia|done]|].
  destruct (st_slot _ _ _ _ (_ENDPOINT_P ep) Hs) as [l Hl]; [lia|]. pm_go.
  destruct (negb (ep =? l_ep l)) eqn:He; [pm_go; by apply HQ|]. destruct (l_used l) eqn:Hu; pm_go; apply HQ; try done.
  intros _. right. exists l. split_and!; [done..|lia].
Qed.
Lemma wp_check_vtimer s0 L n s i l sig (Q : unit -> state W -> Prop) :
  st s0 L n s -> aget L i = Some l -> sig = SIGVTALRM \/ sig = SIGPROF -> (forall s', st s0 L n s' -> Q tt s') ->
  wp (check_vtimer i sig) Q never s.
Proof.
  intros Hs Hl Hsig HQ. unfold check_vtimer. pm_step. pm_step. cbn beta. pm_step.
  apply (wp_mono _ (fun a s' => s' = s /\ 0 <= a.1 < NR_ITIMERS) _ never); [| |done].
  { unfold ITIMER_VIRTUAL, ITIMER_PROF, NR_ITIMERS. destruct (sig =? SIGVTALRM) eqn:E; [by pm_go|].
    destruct (sig =? SIGPROF) eqn:E2; [by pm_go|]. lia. }
  intros [which num] s' [-> Hw]. cbn [fst] in Hw. pm_step. eapply wp_get_interval; [exact Hs|done..|]. intros t.
  destruct (0 <? t); pm_go; by apply HQ.
Qed.
Lemma st_now L n s1 : lives s1 = L -> procs_in_use s1 = n -> Forall local_ok (procs s1) -> Z.of_nat (length L) = NR_PROCS ->
  0 <= mp s1 < NR_PROCS -> globals_ok s1 -> st s1 L n s1.
Proof. intros. by split. Qed.
(** A signal for a process of the table; one that ends system processes is not for VFS. *)
Definition ksig_ok (ep signo : Z) : Prop :=
  signo <> SIGSNDELAY /\ (SIGS_IS_TERMINATION signo = true -> ep <> VFS_PROC_NR).
Lemma process_ksig_ok ep signo s : ksig_ok ep signo -> wf s -> wp (process_ksig ep signo) (fun _ => wf) never s.
Proof.
  intros [Hsn Hterm] Hwf. pose proof Hwf as (L & n & Hs & T & Hse). unfold process_ksig. pm_step.
  eapply wp_isokendpt_any; [exact Hs|]. intros r k Hk _. destruct (negb (is_ok r) || (k <? 0)) eqn:Hr; [by pm_go|].
  apply orb_false_iff in Hr as [->%is_ok_true Hk0]. destruct (Hk eq_refl) as [?|(l & Hl & Hu & Hep)]; [lia|].
  pm_step. pm_step. cbn beta. rewrite Hu. cbn [negb orb]. destruct (l_exiting l) eqn:He; [by pm_go|].
  pm_step. apply wp_modify. pose proof NR_PROCS_ok as [HNR _].
  assert (st (s <| mp := 0 |>) L n (s <| mp := 0 |>)) as Hs0.
  { destruct Hs as [Hfr HL Hn HF Hlen Hmp Hg]. by apply st_now. }
  clear Hs. rename Hs0 into Hs. set (s0 := s <| mp := 0 |>) in *.
  destruct (tr_pm _ _ _ T) as (l0 & Hl0 & Hu0 & He0 & Hp0 & _). set (l1 := l0 <| l_grp := l_grp l |>). pm_step.
  eapply (wp_set_slot _ _ _ _ _ l0 l1); [exact Hs|done| |].
  { intros q _ Hq Hqok. split; [change (life_of q <| l_grp := l_grp l |> = l1); by rewrite Hq|].
    split; try apply Hqok. simpl. rewrite <-Hlp. apply Hok. }
  clear Hs. intros s1 Hs. set (L1 := aupd 0 (fun _ => l1) L) in *.
  pose proof (tree_flags _ _ _ _ _ T Hl0 Hu0) as Hf. rewrite bool_decide_false in Hf by done.
  assert (tree None L1 n) as T1.
  { eapply tree_mild; [done..|split; try done; simpl; congruence|]. rewrite bool_decide_false by done. revert Hf. by simpl. }
  assert (settled None L1) as Hse1.
  { eapply settled_close; [eapply (settled_upd None); [done|by left|exact Hl0|done..]|by eapply aget_set|..].
    - intros _ Hx. exact (se_pend _ _ Hse _ _ ltac:(done) Hl0 Hu0 Hx).
    - intros _ Hx. exact (se_unpaused _ _ Hse _ _ ltac:(done) Hl0 Hu0 Hx). }
  assert (exists lk, aget L1 k = Some lk /\ l_used lk = true /\ l_pid lk = l_pid l /\ l_ep lk = ep) as (lk & Hlk & Hlku & Hlkp & Hlke).
  { destruct (decide (k = 0)) as [->|Hne].
    - exists l1. assert (l0 = l) as E0 by congruence. split_and!; [subst L1; solve_get|done|by rewrite <-E0|by rewrite <-Hep, <-E0].
    - exists l. split_and!; [subst L1; by rewrite aget_aupd_ne by done|done..]. }
  pm_step. apply (wp_mono _ (fun id s' => st s0 L1 n s' /\ spares_vfs id signo true L1) _ never); [| |done].
  { destruct ((signo =? SIGINT) || (signo =? SIGQUIT) || (signo =? SIGWINCH)) eqn:Hint.
    - pm_go. split; [done|]. intros _ Ht. pose proof SIGINT_spares. pose proof SIGQUIT_spares. pose proof SIGWINCH_spares.
      apply orb_true_iff in Hint as [[Hx|Hx]%orb_true_iff|Hx]; apply Z.eqb_eq in Hx; congruence.
    - pm_step. apply (wp_mono _ (fun _ s' => st s0 L1 n s') _ never); [| |done].
      { destruct ((signo =? SIGVTALRM) || (signo =? SIGPROF)) eqn:Hv; [|by pm_go].
        eapply wp_check_vtimer; [exact Hs|exact Hlk|lia|auto]. }
      clear Hs. intros [] s2 Hs. pm_go. split; [done|]. intros _ Ht.
      destruct (tr_slot _ _ _ T1 _ _ Hlk Hlku) as (_ & Hpos & _). rewrite Hlkp in Hpos. split; [done|].
      intros i y Hy Hyu Hyp. assert (i = k) as -> by (eapply tr_pids; [exact T1|exact Hy|exact Hlk|done|done|congruence]).
      assert (y = lk) as -> by congruence. rewrite Hlke. by apply Hterm. }
  clear Hs. intros id s2 [Hs Hsp]. cbn beta. pm_step.
  eapply wp_mono; [eapply check_sig_run; [exact Hs|exact T1|exact Hsp]| |done].
  clear Hs. intros r' s3 (L3 & n3 & Hs & T3 & E3). cbn beta. destruct (evolves_len' _ _ _ _ _ E3 Hlk) as [lk3 Hlk3].
  pm_step. pm_step. cbn beta. replace (signo =? SIGSNDELAY) with false by lia. cbn [andb]. pm_go.
  eapply wf_intro; [exact Hs|exact T3|by eapply settled_ev].
Qed.
Lemma cause_sigalrm_ok ep s : 0 <= _ENDPOINT_P ep -> wf s -> wp (cause_sigalrm ep) (fun _ => wf) never s.
Proof.
  intros Hpos Hwf. pose proof Hwf as (L & n & Hs & T & Hse). unfold cause_sigalrm. pm_step.
  eapply wp_isokendpt_any; [exact Hs|]. intros r k Hk ->. destruct (negb (is_ok r)) eqn:Hr; [by pm_go|].
  apply is_ok_true in Hr as ->. destruct (Hk eq_refl) as [?|(l & Hl & Hu & Hep)]; [lia|].
  pm_step. pm_step. cbn beta. destruct (_ || _); [by pm_go|]. destruct (negb _); [by pm_go|].
  pm_step. eapply wp_get_interval; [exact Hs|exact Hl|by unfold ITIMER_REAL, NR_ITIMERS|]. intros t. pm_step.
  apply (wp_mono _ (fun _ s' => st s L n s') _ never); [| |done].
  { destruct (0 <? t); [eapply wp_set_alarm; [exact Hs|exact Hl|auto]|by pm_step]. }
  clear Hs. intros [] s1 Hs. cbn beta. pm_step.
  eapply wp_mono; [eapply wp_after_wf; [exact Hse|eapply check_sig_run; [exact Hs|exact T|done]]| |done].
  intros r' s' ?. by pm_go.
Qed.

(** ** Replies *)
Lemma sendreply_ok s : stays sendreply s.
Proof.
  intros L n Hs T. unfold sendreply. apply (wp_foreach _ _ (fun _ s' => st s L n s')); [done| |done].
  intros pre i post s' Hseq Hs'. destruct (seq_slot _ _ _ _ _ _ _ Hs Hseq) as [l Hi]. clear Hs. pm_go.
  destruct (_ && _ && _); by pm_go.
Qed.

(** ** One turn of the loop *)
(** What a call of the table asks for besides a well-formed state. *)
Definition call_ok (h : handler) s : Prop :=
  match h with
  | srv_kill_ => spares_vfs (pid (m_in s)) (sig_nr (m_in s)) true (lives s)
  | reboot_ => vfs_idle s
  | trace_ => trace_request_ok s
  | itimer_ => itimer_ok s
  | getsetpriority_ => call_nr s <> GETPRIORITY -> nice_ok (m1_i3 (m_in s))
  | exec_newmem_ => newmem_ok s
  | execrestart_ => execrestart_ok s
  | _ => True
  end.
(** The calls that do not depend on what the caller is doing. *)
Definition any_caller (h : handler) : bool :=
  match h with
  | no_sys_ | get_ | pause_ | sigpending_ | sigaction_ | alarm_ | itimer_ | getsetpriority_ | exec_newmem_
  | execrestart_ | getprocnr_ | getepinfo_ | other => true
  | _ => false
  end.
Lemma any_call_ok h s : wf s -> 0 <= who_p s < NR_PROCS -> call_ok h s -> any_caller h = true ->
  wp (call_of h) (fun _ => wf) never s.
Proof.
  intros Hwf Hw Hok Hany. destruct h; try done; cbn [call_of call_ok] in *;
    first [by apply do_execrestart_ok|apply stays_wf; [|done]].
  - exact (do_get_ok s Hw).
  - exact (do_alarm_ok s).
  - exact (do_pause_ok s).
  - exact (do_itimer_ok s Hok).
  - exact (do_sigaction_ok s).
  - exact (do_sigpending_ok s).
  - intros L n Hs T. pm_step. eapply wp_mono; [by apply (do_getsetpriority_ok s Hok)| |done]. intros r s' Hs'. by pm_go.
  - exact (do_exec_newmem_ok s Hok).
  - exact (do_getprocnr_ok s).
  - exact (do_getepinfo_ok s).
  - intros L n Hs T. by pm_go.
Qed.
Lemma call_of_ok h s L n l : calling s L n l -> call_ok h s -> wp (call_of h) (fun _ => wf) never s.
Proof.
  intros Hc Hok. destruct (any_caller h) eqn:Hany.
  { apply any_call_ok; [by eapply calling_wf| |done|done]. rewrite (ca_who _ _ _ _ Hc). apply (ca_st _ _ _ _ Hc). }
  pose proof Hc as Hc'. destruct h; try done; cbn [call_of call_ok] in *; revert Hc'.
  - apply do_exit_ok.
  - apply do_fork_ok.
  - apply do_waitpid_ok.
  - apply do_set_ok.
  - intros ?. by eapply do_trace_ok.
  - apply do_kill_ok.
  - apply do_exec_ok.
  - apply do_sigsuspend_ok.
  - apply do_sigprocmask_ok.
  - apply do_sigreturn_ok.
  - intros ?. by eapply do_reboot_ok.
  - apply do_srv_fork_ok.
  - intros ?. eapply do_srv_kill_ok; [done|]. by rewrite <-(st_lives _ _ _ _ (ca_st _ _ _ _ Hc)).
Qed.

(** The state in which the call in message [m] of process [i] is made. *)
Definition received s (m : call) (i : Z) : state W :=
  s <| m_in := m |> <| who_e := m_source m |> <| who_p := i |> <| call_nr := m_type m |>
    <| mp := if i <? 0 then PM_PROC_NR else i |>.
(** A process that runs. *)
Definition running (i : Z) (l : life) : Prop :=
  0 < i /\ l_vfs l = false /\ l_unpaused l = false /\ l_waiting l = false /\ l_ep l <> VFS_PROC_NR.
Definition request_ok s (m : call) (i : Z) (l : life) : Prop :=
  if is_vfs_reply (m_type m) then
    m_source m = VFS_PROC_NR -> m_type m = PM_REBOOT_REPLY \/ exists k, awaits (received s m i) k (m_type m)
  else forall h, aget call_vec (m_type m) = Some h ->
    call_ok h (received s m i) /\ (any_caller h = true \/ running i l).
(** What PM relies on to be told.  A message is from a process that exists, and one that still
    runs, or from VFS; its call is one that PM can carry out.  A notification is from a process
    or from the clock. *)
Definition sender s (ep i : Z) (l : life) : Prop := aget (lives s) i = Some l /\ l_used l = true /\ l_ep l = ep.
Definition event_ok s (e : event) : Prop :=
  match e with
  | Message m => exists i l, sender s (m_source m) i l /\ (l_exiting l = false -> request_ok s m i l)
  | Notification m =>
      (exists i l, sender s (m_source m) i l) \/ _ENDPOINT_P (m_source m) = CLOCK
  | KernelSignal target signo => ksig_ok target signo
  end.

Lemma mp_received s m i : 0 <= i -> mp (received s m i) = i.
Proof. intros Hi. change (mp (received s m i)) with (if i <? 0 then PM_PROC_NR else i). destruct (i <? 0) eqn:E; lia. Qed.
Lemma st_received s L n m i : st s L n s -> i < NR_PROCS -> st (received s m i) L n (received s m i).
Proof.
  intros [Hfr HL Hn HF Hlen Hmp Hg] Hi. apply st_now; try done. simpl. rewrite PM_slot. destruct (i <? 0) eqn:E; lia.
Qed.
Lemma wf_received s m i : wf s -> i < NR_PROCS -> wf (received s m i).
Proof. intros (L & n & Hs & T & Hse) Hi. exists L, n. split_and!; [by apply st_received|done..]. Qed.
Lemma sender_range s ep i l : wf s -> sender s ep i l -> 0 <= i < NR_PROCS.
Proof.
  intros (L & n & Hs & _) [Hi _]. rewrite <-(st_len _ _ _ _ Hs). rewrite (st_lives _ _ _ _ Hs) in Hi. by eapply aget_range.
Qed.
Lemma accept_process_ok s m i l (Q : unit -> state W -> Prop) :
  wf s -> sender s (m_source m) i l -> Q tt (received s m i) -> wp (accept m) Q never s.
Proof.
  intros Hwf Hsend HQ. pose proof (sender_range _ _ _ _ Hwf Hsend) as Hr. destruct Hwf as (L & n & Hs & T & Hse).
  destruct Hsend as (Hi & Hu & Hep). rewrite (st_lives _ _ _ _ Hs) in Hi. unfold accept. pm_step. apply wp_modify.
  assert (st (s <| m_in := m |> <| who_e := m_source m |>) L n (s <| m_in := m |> <| who_e := m_source m |>)) as Hs1.
  { destruct Hs as [Hfr HL Hn HF Hlen Hmp Hg]. by apply st_now. }
  pm_step. replace (pm_isokendpt (m_source m)) with (pm_isokendpt (W:=W) (l_ep l)) by (by rewrite Hep).
  eapply wp_isokendpt; [exact Hs1|exact T|exact Hi|done|].
  change (negb (is_ok OK)) with false. cbv iota. pm_step. apply wp_modify. pm_step. pm_step. pm_step.
  change (wp (slot (mp (received s m i))) (fun a s' =>
    wp (if (0 <=? i) && negb (mp_endpoint a =? m_source m) then halt Panic else mret tt) Q never s') never (received s m i)).
  assert (mp (received s m i) = i) as -> by (apply mp_received; lia).
  eapply wp_slot; [eapply (st_received s L n); [done|lia]|exact Hi|]. intros p _ Hlp _. change (mp_endpoint p) with (l_ep (life_of p)).
  rewrite Hlp, Hep, Z.eqb_refl, andb_false_r. by pm_go.
Qed.
Lemma accept_clock_ok s m (Q : unit -> state W -> Prop) :
  wf s -> _ENDPOINT_P (m_source m) = CLOCK -> Q tt (received s m CLOCK) -> wp (accept m) Q never s.
Proof.
  intros (L & n & Hs & T & Hse) Hep HQ. pose proof CLOCK_task. pose proof NR_PROCS_ok. unfold accept. pm_step. apply wp_modify. pm_step.
  unfold pm_isokendpt. rewrite Hep. replace ((CLOCK <? - NR_TASKS) || (NR_PROCS <=? CLOCK)) with false by lia.
  replace (CLOCK <? 0) with true by lia. pm_step. change (negb (is_ok OK)) with false. cbv iota. pm_step. apply wp_modify.
  pm_step. pm_step. pm_step. replace (0 <=? CLOCK) with false by lia. cbn [andb].
  assert (wp (slot (mp (received s m CLOCK))) (fun a s' => Q tt s') never (received s m CLOCK)) as Hx; [|exact Hx].
  destruct (tr_pm _ _ _ T) as (l0 & Hl0 & _).
  assert (st (received s m CLOCK) L n (received s m CLOCK)) as Hs1 by (apply st_received; [done|lia]).
  destruct (st_mp_get _ _ _ _ Hs1) as [l Hl]. eapply wp_slot; [exact Hs1|exact Hl|done].
Qed.
(** [main] looks at the slot of the sender. *)
Lemma received_slot_ok s m i (Q : mproc -> state W -> Prop) :
  wf s -> i < NR_PROCS -> (forall p, Q p (received s m i)) -> wp (slot (mp (received s m i))) Q never (received s m i).
Proof.
  intros (L & n & Hs & T & Hse) Hi HQ. pose proof (st_received _ _ _ m _ Hs Hi) as Hs1.
  destruct (st_mp_get _ _ _ _ Hs1) as [l Hl]. eapply wp_slot; [exact Hs1|exact Hl|by auto].
Qed.
Lemma dispatch_ok s m i l :
  wf s -> sender s (m_source m) i l -> l_exiting l = false -> request_ok s m i l ->
  wp dispatch (fun _ => wf) never (received s m i).
Proof.
  intros Hwf Hsend He Hreq. pose proof (sender_range _ _ _ _ Hwf Hsend) as Hr.
  assert (wf (received s m i)) as Hwf1 by (apply wf_received; [done|lia]).
  unfold dispatch. pm_step. pm_step. cbn beta zeta.
  change (call_nr (received s m i)) with (m_type m). change (who_e (received s m i)) with (m_source m).
  unfold request_ok in Hreq. destruct (is_vfs_reply (m_type m)).
  { destruct (m_source m =? VFS_PROC_NR) eqn:Hv; [|by pm_go]. pm_step.
    eapply wp_mono; [eapply handle_vfs_reply_ok; [done|apply Hreq; lia]| |done]. intros [] s' ?. by pm_go. }
  destruct (aget call_vec (m_type m)) as [h|]; [|by pm_go]. destruct (Hreq h eq_refl) as [Hok Hcase].
  assert (who_p (received s m i) = i) as Hw by done.
  destruct Hcase as [Hany|(Hi0 & Hv & Hun & Hwt & Hne)]; [by apply any_call_ok|].
  destruct Hwf as (L & n & Hs & T & Hse). destruct Hsend as (Hi & Hu & Hep). rewrite (st_lives _ _ _ _ Hs) in Hi.
  assert (mp (received s m i) = i) as Hmp by (apply mp_received; lia).
  eapply (call_of_ok h _ L n l); [|done]. split; rewrite ?Hmp; try done.
  - apply st_received; [done|lia].
  - unfold alive. by rewrite Hu, He.
Qed.
Lemma finish_ok r i s : wf s -> 0 <= i < NR_PROCS ->
  wp ((if negb (bool_decide (r = SUSPEND)) then setreply i r else mret tt);; sendreply) (fun _ => wf) never s.
Proof.
  intros Hwf Hi. pm_step. apply (wp_mono _ (fun _ => wf) _ never); [| |done].
  - destruct (negb _); [|by pm_go]. destruct Hwf as (L & n & Hs & T & Hse).
    eapply wp_setreply_local; [exact Hs|done|]. intros s' Hs'. by eapply wf_intro.
  - intros [] s' Hwf'. apply stays_wf; [apply sendreply_ok|done].
Qed.
Lemma main_step_ok e s : wf s -> event_ok s e -> wp (main_step e) (fun _ => wf) never s.
Proof.
  intros Hwf He. destruct e as [m|m|target signo]; cbn [event_ok] in He.
  - destruct He as (i & l & Hsend & Hreq). pose proof (sender_range _ _ _ _ Hwf Hsend) as Hr.
    pose proof (wf_received s m i Hwf ltac:(lia)) as Hwf1. cbn [main_step]. pm_step.
    eapply accept_process_ok; [done..|]. pm_step. pm_step. pm_step.
    destruct Hwf as (L & n & Hs & T & Hse). pose proof Hsend as (Hi & Hu & Hep). rewrite (st_lives _ _ _ _ Hs) in Hi.
    assert (mp (received s m i) = i) as -> by (apply mp_received; lia).
    eapply wp_slot; [eapply (st_received s L n m i); [done|lia]|exact Hi|]. intros p _ Hlp _. to_life p Hlp.
    destruct (l_exiting l) eqn:Hx; [by pm_go|]. pm_step.
    eapply wp_mono; [eapply dispatch_ok; [by eapply wf_intro|done..|by apply Hreq]| |done].
    intros r s' Hwf'. by apply finish_ok.
  - cbn [main_step]. pm_step. destruct He as [(i & l & Hsend)|Hclock].
    + pose proof (sender_range _ _ _ _ Hwf Hsend) as Hr. pose proof CLOCK_task.
      eapply accept_process_ok; [done..|]. pm_step. pm_step. pm_step. apply received_slot_ok; [done|lia|]. intros p.
      destruct (has _ EXITING); [pm_go; apply wf_received; [done|lia]|]. change (who_p (received s m i)) with i.
      replace (i =? CLOCK) with false by lia. pm_step. pm_step. apply finish_ok; [apply wf_received; [done|lia]|done].
    + eapply accept_clock_ok; [done..|]. pm_step. pm_step. pm_step. pose proof CLOCK_task. pose proof NR_PROCS_ok. apply received_slot_ok; [done|lia|].
      intros p. assert (wf (received s m CLOCK)) as Hwf1 by (apply wf_received; [done|lia]).
      destruct (has _ EXITING); [by pm_go|]. change (who_p (received s m CLOCK)) with CLOCK. rewrite Z.eqb_refl. pm_step. pm_step.
      destruct Hwf1 as (L & n & Hs & T & Hse). pm_step.
      pose proof (expire_timers_ok (NOTIFY_TIMESTAMP m) w) as Hall. pm_step.
      apply (wp_foreach _ _ (fun _ => wf)); [by eapply wf_intro| |].
      * intros pre ep post s' Hl Hwf'. apply cause_sigalrm_ok; [|done]. rewrite Hl in Hall.
        apply list.Forall_app in Hall as [_ Hall]. by apply list.Forall_cons in Hall as [? _].
      * intros s' Hwf'. pm_step. change (negb (bool_decide (SUSPEND = SUSPEND))) with false. cbv iota. pm_step. pm_step.
        apply stays_wf; [apply sendreply_ok|done].
  - cbn [main_step]. pm_step. eapply wp_mono; [by apply process_ksig_ok| |done]. intros r s' Hwf'.
    apply stays_wf; [apply sendreply_ok|done].
Qed.
End loop.
