(* ===== verification/PmBoot.v ===== *)
(** The start of PM, [sef_cb_init_fresh] and [main] of
    [src/Project_2/servers/pm/main.c]: the table is filled from the boot image, and the main
    loop runs.  Whatever it is told that it may rely on, PM never panics and keeps its table
    well-formed. *)
From S2P Require Import Prelude Minix PmBase Pm PmAlarm PmSignal PmCalls PmMain PmTree PmInv PmEnd PmWf PmFork PmRun PmTrace PmLoop.
Local Open Scope Z_scope.

(** [struct boot_image], what PM reads of it. *)
Record boot_image := mk_boot_image {
  proc_nr : Z;
  proc_name : list Z;
  endpoint : Z;
}.
(** The calls of the start, and the queues of [minix/priv.h]. *)
Class PmBootEnv (W : Type) := {
  SRV_Q : Z;
  USR_Q : Z;
  init_timer : Z -> W -> unit * W;
  sys_getmonparams : W -> (rc * list Z) * W;
  sys_getkinfo : W -> rc * W;
  sys_getimage : W -> (rc * list boot_image) * W;
  send_init : Z -> Z -> Z -> W -> rc * W;         (* PM_INIT: slot, pid, endpoint *)
  sync_vfs : W -> (rc * rc) * W;                   (* the result, and the type of the answer *)
  minix_unmapzero : W -> unit * W;
}.

Section operations.
Context `{MinixHeaders} `{PmHeaders} {W : Type} `{PmSched W} `{PmEnv W} `{PmBootEnv W}.
Abbreviation cmd := (M (state W)).

Definition init_process (ip : boot_image) : cmd unit :=
  let i := proc_nr ip in
  if negb (0 <=? i) then mret tt else
  modify (fun s => s <| procs_in_use := procs_in_use s + 1 |>);;
  set_slot i (fun p => p <| mp_name := take (Z.to_nat PROC_NAME_LEN) (cstr (proc_name ip)) |>
    <| mp_ignore := 0 |> <| mp_sigmask := 0 |> <| mp_catch := 0 |>);;
  (if i =? INIT_PROC_NR then
     set_slot i (fun p => p <| mp_parent := INIT_PROC_NR |> <| mp_pid := INIT_PID |> <| mp_procgrp := INIT_PID |>
       <| mp_flags := Z.lor (mp_flags p) IN_USE |> <| mp_scheduler := KERNEL |> <| mp_nice := get_nice_value USR_Q |>)
   else
     set_slot i (fun p => p <| mp_parent := if i =? RS_PROC_NR then INIT_PROC_NR else RS_PROC_NR |>);;
     new_pid ← get_free_pid;
     set_slot i (fun p => p <| mp_pid := new_pid |> <| mp_flags := Z.lor (mp_flags p) (Z.lor IN_USE PRIV_PROC) |>
       <| mp_scheduler := NONE |> <| mp_nice := get_nice_value SRV_Q |>));;
  set_slot i (fun p => p <| mp_endpoint := endpoint ip |>);;
  p ← slot i;
  must (send_init i (mp_pid p) (mp_endpoint p)).
Definition sef_cb_init_fresh : cmd rc :=
  foreach (seqZ 0 NR_PROCS) (fun i => env (init_timer i));;
  '(r, params) ← env sys_getmonparams;
  if negb (is_ok r) then halt Panic else
  modify (fun s => s <| monitor_params := params |>);;
  must sys_getkinfo;;
  '(r, image) ← env sys_getimage;
  if negb (is_ok r) then halt Panic else
  modify (fun s => s <| procs_in_use := 0 |>);;
  foreach image init_process;;
  '(r, type) ← env sync_vfs;
  if negb (is_ok r) || negb (is_ok type) then halt Panic else
  modify (fun s => s <| unmap_ok := true |>);;
  env minix_unmapzero;;
  sched_init;;
  mret OK.
(** [main], for the events that it is told of. *)
Definition main (es : list event) : cmd unit := sef_cb_init_fresh;; foreach es main_step.

(** The variables before the start. *)
Definition zero_slot : mproc :=
  mk_mproc 0 0 0 0 0 0 0 0 0 0 0 0 0 0 0 (replicate (Z.to_nat NGROUPS_MAX) 0) 0 0 0 0 0 0 0
    (replicate (Z.to_nat _NSIG) (mk_sigaction 0 0 0)) 0 (replicate (Z.to_nat NR_ITIMERS) 0) 0 0 0
    (mk_reply OK 0 0 0 0 0 0) 0 0 [].
Definition start_state (m : call) (w : W) : state W :=
  mk_state (replicate (Z.to_nat NR_PROCS) zero_slot) (INIT_PID + 1) 0 0 0 [] false 0 0 0 0 m 0 w.
End operations.

(** ** The table after the start *)
(** The boot image: each process once, in the slot of its endpoint, with PM, RS and init among
    them. *)
Record image_ok `{MinixHeaders} (image : list boot_image) : Prop := {
  im_nodup : base.NoDup (proc_nr <$> image);
  im_slot ip : ip ∈ image -> 0 <= proc_nr ip -> proc_nr ip < NR_PROCS /\ _ENDPOINT_P (endpoint ip) = proc_nr ip;
  im_pm : exists ip, ip ∈ image /\ proc_nr ip = 0 /\ endpoint ip = PM_PROC_NR;
  im_init : exists ip, ip ∈ image /\ proc_nr ip = INIT_PROC_NR /\ endpoint ip = INIT_PROC_NR;
  im_rs : exists ip, ip ∈ image /\ proc_nr ip = RS_PROC_NR;
  im_vfs ip : ip ∈ image -> endpoint ip = VFS_PROC_NR -> proc_nr ip <> INIT_PROC_NR;
}.
Class BootLaws {W : Type} `{MinixHeaders} `{PmHeaders} `{PmBootEnv W} : Prop := {
  RS_slot : 0 < RS_PROC_NR < NR_PROCS /\ RS_PROC_NR <> INIT_PROC_NR;
  NSIG_pos : 0 <= _NSIG;
  getmonparams_ok w : (sys_getmonparams w).1.1 = OK;
  getkinfo_ok w : (sys_getkinfo w).1 = OK;
  getimage_ok w : (sys_getimage w).1.1 = OK /\ image_ok (sys_getimage w).1.2;
  send_init_ok i k e w : (send_init i k e w).1 = OK;
  sync_vfs_ok w : (sync_vfs w).1 = (OK, OK);
}.

Section boot.
Context `{MinixHeaders} `{PmHeaders} {W : Type} `{PmSched W} `{PmEnv W} `{PmBootEnv W} `{!PmLaws} `{!EnvLaws} `{!BootLaws}.
Implicit Types (s : state W) (L : list life).

Definition boot_parent (i : Z) : Z :=
  if i =? INIT_PROC_NR then INIT_PROC_NR else if i =? RS_PROC_NR then INIT_PROC_NR else RS_PROC_NR.
Definition booted (ip : boot_image) (k : Z) : life :=
  mk_life true false false false false false false false false (negb (proc_nr ip =? INIT_PROC_NR)) k (endpoint ip)
    (if proc_nr ip =? INIT_PROC_NR then INIT_PID else 0) 0 (boot_parent (proc_nr ip)) 0.
Definition l_free : life := life_of zero_slot.
(** The table when the processes [pre] of the image are in it. *)
Record filled (pre : list boot_image) L (n : Z) : Prop := {
  fi_used ip : ip ∈ pre -> 0 <= proc_nr ip -> exists k, aget L (proc_nr ip) = Some (booted ip k) /\ 0 < k;
  fi_free i l : aget L i = Some l -> (exists ip, ip ∈ pre /\ proc_nr ip = i) \/ l = l_free;
  fi_count : n = Z.of_nat (length (filter (fun l => l_used l = true) L));
  fi_pids i j l k : aget L i = Some l -> aget L j = Some k -> l_used l = true -> l_used k = true ->
    l_pid l = l_pid k -> i = j;
  fi_one i l : aget L i = Some l -> l_used l = true -> i <> INIT_PROC_NR -> l_pid l <> INIT_PID;
}.
Lemma filled_step pre L n ip k :
  filled pre L n -> aget L (proc_nr ip) = Some l_free -> (forall jp, jp ∈ pre -> proc_nr jp <> proc_nr ip) ->
  0 < k -> (proc_nr ip = INIT_PROC_NR /\ k = INIT_PID) \/ (proc_nr ip <> INIT_PROC_NR /\ k <> INIT_PID /\ forall j l, aget L j = Some l -> l_pid l <> k) ->
  filled (pre ++ [ip]) (aupd (proc_nr ip) (fun _ => booted ip k) L) (n + 1).
Proof.
  intros Hf Hi Hnew Hk Hcase.
  assert (forall j l, aget L j = Some l -> l_used l = true -> j <> proc_nr ip /\ l_pid l <> k) as Hold.
  { intros j l Hl Hu. split.
    - intros ->. assert (l = l_free) as -> by congruence. by vm_compute in Hu.
    - destruct Hcase as [[Hii ->]|(Hii & _ & Hfr)]; [|by eapply Hfr]. eapply fi_one; [done..|]. rewrite <-Hii. intros ->.
      assert (l = l_free) as -> by congruence. by vm_compute in Hu. }
  split.
  - intros jp Hj Hpos. apply elem_of_app in Hj as [Hj|Hj%list_elem_of_singleton].
    + destruct (fi_used _ _ _ Hf jp Hj Hpos) as (m & Hm & ?). exists m. split; [|done].
      rewrite aget_aupd_ne; [done|]. intros Heq. by apply (Hnew jp).
    + subst jp. exists k. split; [by eapply aget_set|done].
  - intros j l Hl. destruct (aget_upd_cases _ _ _ _ _ _ Hi Hl) as [[-> ->]|[_ Hl']].
    + left. exists ip. split; [set_solver|done].
    + destruct (fi_free _ _ _ Hf j l Hl') as [(jp & Hj & ?)|?]; [left|by right]. exists jp. split; [set_solver|done].
  - pose proof (filter_aupd l_used L (proc_nr ip) (fun _ => booted ip k) _ Hi) as Hc. cbv beta in Hc.
    change (l_used l_free) with false in Hc. change (l_used (booted ip k)) with true in Hc. cbv iota in Hc.
    rewrite (fi_count _ _ _ Hf). lia.
  - intros i j l m Hl Hm Hlu Hmu Hp.
    destruct (aget_upd_cases _ _ _ _ _ _ Hi Hl) as [[-> ->]|[_ Hl']], (aget_upd_cases _ _ _ _ _ _ Hi Hm) as [[-> ->]|[_ Hm']].
    + done.
    + destruct (Hold j m Hm' Hmu) as [_ Hx]. by destruct Hx.
    + destruct (Hold i l Hl' Hlu) as [_ Hx]. by destruct Hx.
    + by eapply fi_pids.
  - intros i l Hl Hu Hne. destruct (aget_upd_cases _ _ _ _ _ _ Hi Hl) as [[-> ->]|[_ Hl']]; [|by eapply fi_one].
    destruct Hcase as [[? _]|(_ & ? & _)]; done.
Qed.
Lemma life_free p : life_of p = l_free -> forall f, f ∈ [IN_USE; EXITING; VFS_CALL; ZOMBIE; TRACE_ZOMBIE; TOLD_PARENT; WAITING;
  PM_SIG_PENDING; UNPAUSED; PRIV_PROC] -> has (mp_flags p) f = false.
Proof. unfold l_free, life_of. intros [=] f Hf. repeat (apply elem_of_cons in Hf as [->|Hf]; [done|]). by apply not_elem_of_nil in Hf. Qed.
(** A free slot with new numbers and flags. *)
Lemma boot_life q q' F :
  life_of q = l_free -> F = IN_USE \/ F = Z.lor IN_USE PRIV_PROC -> mp_flags q' = Z.lor (mp_flags q) F ->
  life_of q' = mk_life true false false false false false false false false (has F PRIV_PROC) (mp_pid q') (mp_endpoint q')
    (mp_procgrp q') (mp_wpid q') (mp_parent q') (mp_tracer q').
Proof.
  intros Hq HF E. unfold life_of. rewrite E, !has_lor, !(life_free _ Hq) by set_solver. destruct HF as [->| ->]; eval_flags; done.
Qed.
Lemma free_numbers q : life_of q = l_free -> mp_endpoint q = 0 /\ mp_procgrp q = 0 /\ mp_wpid q = 0 /\ mp_tracer q = 0.
Proof. unfold l_free, life_of. intros [=]. done. Qed.
Lemma nice_value q : - 2 ^ 30 - 20 <= get_nice_value q < 2 ^ 30 - 20.
Proof. unfold get_nice_value, PRIO_MAX, PRIO_MIN. repeat case_match; lia. Qed.
Lemma init_process_ok s0 L n s pre ip :
  st s0 L n s -> filled pre L n -> (0 <= proc_nr ip -> proc_nr ip < NR_PROCS) -> (forall jp, jp ∈ pre -> proc_nr jp <> proc_nr ip) ->
  wp (init_process ip) (fun _ s' => exists L' n', st s0 L' n' s' /\ filled (pre ++ [ip]) L' n') never s.
Proof.
  intros Hs Hf Hr Hnew. unfold init_process. cbv zeta. set (i := proc_nr ip) in *. destruct (0 <=? i) eqn:Hpos; cbn [negb].
  2: { pm_go. exists L, n. split; [done|]. destruct Hf as [H1' H2' H3' H4' H5']. split; try done.
    - intros jp Hj Hp'. apply elem_of_app in Hj as [Hj|Hj%list_elem_of_singleton]; [by apply H1'|]. subst jp. lia.
    - intros j l Hl. destruct (H2' j l Hl) as [(jp & Hj & ?)|?]; [left|by right]. exists jp. split; [set_solver|done]. }
  assert (aget L i = Some l_free) as Hi.
  { destruct (st_slot _ _ _ _ i Hs) as [l Hl]; [lia|]. destruct (fi_free _ _ _ Hf i l Hl) as [(jp & Hj & Heq)|Heq]; [|congruence].
    by destruct (Hnew jp Hj). }
  pm_step. eapply (wp_modify_count _ _ _ _ 1); [exact Hs|next_state Hs]. pm_step.
  eapply wp_set_quiet; [exact Hs|exact Hi| |next_state Hs].
  { intros q _ _ Hq. split; [done|]. split; try apply Hq; simpl; try (unfold never_kill, sigismember; apply Z.bits_0). }
  cbn beta. pm_step.
  apply (wp_mono _ (fun _ s' => exists k, 0 < k /\ (i = INIT_PROC_NR /\ k = INIT_PID \/ i <> INIT_PROC_NR /\ k <> INIT_PID /\ forall j l, aget L j = Some l -> l_pid l <> k) /\
    st s0 (aupd i (fun _ => booted ip k <| l_ep := l_ep l_free |>) L) (n + 1) s') _ never); [| |done].
  - pose proof INIT_slot. pose proof NR_PROCS_ok. pose proof RS_slot as [HRS _].
    destruct (i =? INIT_PROC_NR) eqn:Hin.
    + eapply (wp_set_slot _ _ _ _ _ l_free (booted ip INIT_PID <| l_ep := l_ep l_free |>)); [exact Hs|exact Hi| |].
      * intros q _ Hq Hqok. split; [|split; try apply Hqok; simpl; try lia; [by unfold INIT_PID|apply nice_value|]].
        -- etrans; [by apply (boot_life q); [|left|]|]. destruct (free_numbers _ Hq) as (E1 & E2 & E3 & E4).
           unfold booted, boot_parent. fold i. simpl. by rewrite Hin, E1, E3, E4.
        -- rewrite has_lor, (life_free _ Hq) by set_solver. by eval_flags.
      * intros s' Hs'. exists INIT_PID. split; [by unfold INIT_PID|]. split; [left; lia|done].
    + set (par := if i =? RS_PROC_NR then INIT_PROC_NR else RS_PROC_NR).
      assert (0 <= par < NR_PROCS) as Hpar by (unfold par; destruct (i =? RS_PROC_NR); lia).
      pm_step. eapply (wp_set_slot _ _ _ _ _ l_free (l_free <| l_parent := par |>)); [exact Hs|exact Hi| |].
      { intros q _ Hq Hqok. split; [change (life_of q <| l_parent := par |> = l_free <| l_parent := par |>); by rewrite Hq|].
        split; try apply Hqok; done. }
      clear Hs. intros s6 Hs. pm_step. eapply wp_get_free_pid; [exact Hs|]. clear Hs. intros k s7 Hs Hk Hfresh.
      eapply (wp_set_slot _ _ _ _ _ _ (booted ip k <| l_ep := l_ep l_free |>)); [exact Hs|by eapply aget_set| |].
      * intros q _ Hq0 Hqok. set (q0 := q <| mp_parent := 0 |>).
        assert (life_of q0 = l_free) as Hq.
        { change (life_of q <| l_parent := 0 |> = l_free). rewrite Hq0. by vm_compute. }
        split; [|split; try apply Hqok; simpl; first [lia|apply nice_value|done]].
        etrans; [by apply (boot_life q0); [|right|]|]. destruct (free_numbers _ Hq) as (E1 & E2 & E3 & E4).
        assert (mp_parent q = par) as E5 by (change (l_parent (life_of q) = par); by rewrite Hq0).
        unfold booted, boot_parent. fold i. simpl in *. rewrite Hin, E1, E2, E3, E4, E5. by eval_flags.
      * intros s' Hs'. rewrite aupd_set_set in Hs'. exists k. unfold INIT_PID in *. split; [lia|]. split; [right|done].
        split_and!; [lia|lia|]. intros j l Hl. destruct (decide (j = i)) as [->|Hne].
        -- assert (l = l_free) as -> by congruence. change (l_pid l_free) with 0. lia.
        -- apply (Hfresh j). by rewrite aget_aupd_ne by done.
  - clear Hs. intros [] s8 (k & Hk & Hcase & Hs). pm_step.
    eapply (wp_set_slot _ _ _ _ _ _ (booted ip k)); [exact Hs|by eapply aget_set| |].
    { intros q _ Hq Hqok. split; [|split; try apply Hqok; done].
      change (life_of q <| l_ep := endpoint ip |> = booted ip k). by rewrite Hq. }
    clear Hs. intros s9 Hs. rewrite aupd_set_set in Hs. cbn beta.
    pm_step. eapply wp_slot; [exact Hs|by eapply aget_set|]. intros p _ _ _. cbn beta.
    eapply wp_must; [exact Hs|intros w; apply send_init_ok|]. intros s10 Hs10. do 2 eexists. split; [exact Hs10|].
    by apply filled_step.
Qed.

Lemma slot_pos L i l : aget L i = Some l -> 0 <= i.
Proof. by intros [? _]%aget_range. Qed.
Lemma filled_get image L n i l :
  filled image L n -> aget L i = Some l -> l_used l = true -> exists ip k, ip ∈ image /\ proc_nr ip = i /\ l = booted ip k /\ 0 < k.
Proof.
  intros Hf Hl Hu. destruct (fi_free _ _ _ Hf i l Hl) as [(ip & Hip & <-)| ->]; [|by vm_compute in Hu].
  destruct (fi_used _ _ _ Hf ip Hip) as (k & Hk & Hpos); [by eapply slot_pos|].
  exists ip, k. split_and!; try done. congruence.
Qed.
Lemma boot_head image L n i : image_ok image -> filled image L n -> exists q, aget L (boot_parent i) = Some q /\ head_ok q.
Proof.
  intros Him Hf. unfold boot_parent. pose proof INIT_slot. pose proof RS_slot as [? _].
  assert (forall ip, ip ∈ image -> 0 <= proc_nr ip -> exists q, aget L (proc_nr ip) = Some q /\ head_ok q) as Hq.
  { intros ip Hip Hpos. destruct (fi_used _ _ _ Hf ip Hip Hpos) as (k & Hk & _). by exists (booted ip k). }
  destruct (im_init _ Him) as (ii & Hii & Ei & _), (im_rs _ Him) as (ir & Hir & Er).
  destruct (i =? INIT_PROC_NR); [|destruct (i =? RS_PROC_NR)]; rewrite <-?Ei, <-?Er; apply Hq; try done; lia.
Qed.
Lemma boot_tree image L n :
  image_ok image -> filled image L n -> Z.of_nat (length L) = NR_PROCS -> tree None L n /\ settled None L.
Proof.
  intros Him Hf Hlen. pose proof INIT_slot. pose proof RS_slot as [? _].
  assert (forall i l, aget L i = Some l -> exists ip k, l = l_free \/ (ip ∈ image /\ proc_nr ip = i /\ l = booted ip k /\ 0 < k)) as Hcase.
  { intros i l Hl. destruct (l_used l) eqn:Hu.
    - destruct (filled_get _ _ _ _ _ Hf Hl Hu) as (ip & k & ?). exists ip, k. by right.
    - exists (mk_boot_image 0 [] 0), 0. left. destruct (fi_free _ _ _ Hf i l Hl) as [(ip & Hip & <-)|?]; [|done].
      destruct (fi_used _ _ _ Hf ip Hip) as (k & Hk & _); [by eapply slot_pos|]. assert (l = booted ip k) as -> by congruence. done. }
  split; [split|split].
  - done.
  - apply Hf.
  - intros i l Hl Hu. destruct (Hcase i l Hl) as (ip & k & [->|(_ & _ & -> & _)]); done.
  - intros i l Hl Hu. destruct (filled_get _ _ _ _ _ Hf Hl Hu) as (ip & k & Hip & <- & -> & Hk).
    destruct (im_slot _ Him ip Hip) as [_ Hslot]; [by eapply slot_pos|]. split_and!; try done.
    simpl. intros Hv%(im_vfs _ Him); [|done]. apply negb_true_iff. lia.
  - intros i l Hl Hu. destruct (filled_get _ _ _ _ _ Hf Hl Hu) as (ip & k & Hip & <- & -> & Hk). split; [|by eapply boot_head].
    simpl. unfold boot_parent. destruct (_ =? _); [|destruct (_ =? _)]; lia.
  - intros i l Hl Hu. destruct (filled_get _ _ _ _ _ Hf Hl Hu) as (ip & k & Hip & <- & -> & Hk). done.
  - intros i l Hl Hu _. destruct (filled_get _ _ _ _ _ Hf Hl Hu) as (ip & k & Hip & <- & -> & Hk). done.
  - intros i l Hl Hu. destruct (filled_get _ _ _ _ _ Hf Hl Hu) as (ip & k & Hip & <- & -> & Hk). done.
  - apply Hf.
  - destruct (im_init _ Him) as (ii & Hii & Ei & Ee). destruct (fi_used _ _ _ Hf ii Hii) as (k & Hk & _); [lia|].
    exists (booted ii k). by rewrite <-Ei at 1.
  - destruct (im_pm _ Him) as (ii & Hii & Ei & Ee). destruct (fi_used _ _ _ Hf ii Hii) as (k & Hk & _); [lia|].
    exists (booted ii k). rewrite <-Ei at 1. split_and!; try done. simpl. apply negb_true_iff. lia.
  - intros i l _ Hl Hu. destruct (filled_get _ _ _ _ _ Hf Hl Hu) as (ip & k & Hip & <- & -> & Hk). done.
  - intros i l _ Hl Hu. destruct (filled_get _ _ _ _ _ Hf Hl Hu) as (ip & k & Hip & <- & -> & Hk). done.
  - intros i l Hl Hu. destruct (filled_get _ _ _ _ _ Hf Hl Hu) as (ip & k & Hip & <- & -> & Hk). done.
Qed.
Lemma sched_init_ok s0 L n s image (Q : unit -> state W -> Prop) :
  image_ok image -> st s0 L n s -> filled image L n -> (forall s', st s0 L n s' -> Q tt s') -> wp sched_init Q never s.
Proof.
  intros Him Hs Hf HQ. destruct (boot_tree _ _ _ Him Hf (st_len _ _ _ _ Hs)) as [T _]. unfold sched_init.
  apply (wp_foreach _ _ (fun _ s' => st s0 L n s')); [done| |done].
  intros pre i post s' Hseq Hs'. destruct (seq_slot _ _ _ _ _ _ _ Hs Hseq) as [l Hl]. clear Hs. pm_go.
  destruct (l_used l && negb (l_priv l)) eqn:Hu; [|by pm_go]. apply andb_true_iff in Hu as [Hu Hp'%negb_true_iff].
  destruct (filled_get _ _ _ _ _ Hf Hl Hu) as (ip & k & Hip & Hi & -> & Hk). simpl in Hp'. apply negb_false_iff, Z.eqb_eq in Hp'.
  destruct (im_slot _ Him ip Hip) as [_ Hslot]; [rewrite Hi; by eapply slot_pos|].
  pm_step. apply wp_assert; [simpl; lia|]. assert (l_parent (booted ip k) = i) as ->.
  { simpl. unfold boot_parent. rewrite Hp', Z.eqb_refl. lia. }
  pm_step. pm_step. cbn beta. pm_step. apply wp_assert; [by rewrite Z.eqb_refl|]. pm_go.
  destruct (sched_start _ _ _ _ _ _) as [[r newsched] w']. cbn [fst].
  eapply wp_set_quiet; [exact Hs'|exact Hl| |next_state Hs'; exact Hs'].
  intros q _ Hq Hqok. split; [done|]. split; try apply Hqok. simpl. change (has (mp_flags q) PRIV_PROC) with (l_priv (life_of q)).
  rewrite Hq. simpl. rewrite Hp', Z.eqb_refl. done.
Qed.
Lemma wp_modify_same s0 L n n' s f (Q : unit -> state W -> Prop) :
  st s0 L n s -> procs_in_use (f s) = n' -> procs (f s) = procs s -> frame s (f s) -> next_pid (f s) = next_pid s -> next_child (f s) = next_child s ->
  next_child_srv (f s) = next_child_srv s -> (forall s', st s0 L n' s' -> Q tt s') -> wp (modify f) Q never s.
Proof.
  intros [Hfr HL Hn HF Hlen Hmp Hg] <- Hp Hf E1 E2 E3 HQ. apply wp_modify, HQ. split; try done.
  - by eapply frame_trans.
  - unfold lives. by rewrite Hp.
  - by rewrite Hp.
  - unfold globals_ok. by rewrite E1, E2, E3.
Qed.
Lemma local_zero : local_ok zero_slot.
Proof.
  pose proof NSIG_pos. pose proof NR_PROCS_ok. split; simpl; rewrite ?length_replicate; try lia; try (unfold never_kill, sigismember; apply Z.bits_0).
  - done.
  - apply list.Forall_replicate. apply Z.bits_0.
  - done.
Qed.
Lemma start_st m (w : W) : st (start_state m w) (replicate (Z.to_nat NR_PROCS) l_free) 0 (start_state m w).
Proof.
  pose proof NR_PROCS_ok. apply st_now; try done.
  - unfold lives. change (procs (start_state m w)) with (replicate (Z.to_nat NR_PROCS) zero_slot). by rewrite fmap_replicate.
  - simpl. apply list.Forall_replicate, local_zero.
  - rewrite length_replicate. lia.
  - simpl. lia.
  - unfold globals_ok. simpl. unfold INIT_PID, NR_PIDS. lia.
Qed.
Lemma init_fresh_ok m (w : W) : wp sef_cb_init_fresh (fun r s => r = OK /\ wf s) never (start_state m w).
Proof.
  set (s0 := start_state m w). set (L0 := replicate (Z.to_nat NR_PROCS) l_free).
  assert (st s0 L0 0 s0) as Hs by apply start_st. unfold sef_cb_init_fresh. pm_step.
  apply (wp_foreach _ _ (fun _ s' => st s0 L0 0 s')); [done|intros pre i post s' _ Hs'; clear Hs; by pm_go|].
  clear Hs. intros s1 Hs. pm_step. pm_step. pose proof (getmonparams_ok w0) as Hr.
  destruct (sys_getmonparams w0) as [[r params] w']. cbn [fst] in *. subst r. change (negb (is_ok OK)) with false. cbv iota.
  pm_step. eapply (wp_modify_same _ _ _ 0); [exact Hs|exact (st_count _ _ _ _ Hs)|done..|]. clear s Hs. intros s3 Hs.
  pm_step. eapply wp_must; [exact Hs|apply getkinfo_ok|]. clear s3 Hs. intros s3 Hs. pm_step. pm_step.
  destruct (getimage_ok w1) as [Hr Him]. destruct (sys_getimage w1) as [[r image] w2]. cbn [fst snd] in *. subst r.
  change (negb (is_ok OK)) with false. cbv iota. pm_step.
  eapply (wp_modify_same _ _ _ 0); [exact Hs|done..|]. clear s Hs. intros s3' Hs. pm_step.
  apply (wp_foreach _ _ (fun pre s' => exists L n, st s0 L n s' /\ filled pre L n)).
  { exists L0, 0. split; [done|]. split; try done.
    - intros ip Hip. by apply not_elem_of_nil in Hip.
    - intros i l Hl. right. by eapply aget_replicate.
    - rewrite filter_none; [done|]. by apply list.Forall_replicate.
    - intros i j l k Hl _ Hu. apply aget_replicate in Hl as ->. by vm_compute in Hu.
    - intros i l Hl Hu. apply aget_replicate in Hl as ->. by vm_compute in Hu. }
  { intros pre ip post s' Heq (L & n & Hs' & Hf). eapply init_process_ok; [exact Hs'|exact Hf| |].
    - intros Hpos. apply (im_slot _ Him); [rewrite Heq; set_solver|done].
    - intros jp Hjp Heq'. pose proof (im_nodup _ Him) as Hnd. rewrite Heq, fmap_app, fmap_cons in Hnd.
      apply list.NoDup_app in Hnd as (_ & Hnd & _). apply (Hnd (proc_nr jp)); [by apply list_elem_of_fmap_2|]. rewrite Heq'. set_solver. }
  clear s3 s3' Hs. intros s4 (L & n & Hs & Hf). pm_step. pm_step. rewrite (sync_vfs_ok w3). change (negb (is_ok OK) || negb (is_ok OK)) with false.
  cbv iota. pm_step. eapply (wp_modify_same _ _ _ n); [exact Hs|exact (st_count _ _ _ _ Hs)|done..|]. intros s5 Hs5. clear Hs.
  pm_step. pm_step. pm_step. eapply sched_init_ok; [exact Him|eassumption|exact Hf|]. intros s6 Hs6. pm_go.
  destruct (boot_tree _ _ _ Him Hf (st_len _ _ _ _ Hs6)). split; [done|]. by eapply wf_intro.
Qed.
End boot.
