(* ===== verification/PmSpec.v ===== *)
(** What single calls of PM compute: [kill] with the null signal, [waitpid], and the timers. *)
From S2P Require Import Prelude Minix PmBase Pm PmAlarm PmSignal PmCalls PmTree PmInv.
Local Open Scope Z_scope.

(** ** Times and ticks *)
Section ticks.
Context `{MinixHeaders} `{PmHeaders}.
Lemma ceil_small hz usec :
  0 < hz <= 4000 -> 0 <= usec < US ->
  s32 (u32 (hz * u32 usec + (US - 1)) `div` US) = (hz * usec + (US - 1)) `div` US /\
  0 <= (hz * usec + (US - 1)) `div` US <= hz.
Proof.
  unfold US. intros Hhz Hu. assert (0 <= hz * usec <= hz * 999999) by nia.
  rewrite (u32_small usec), u32_small by lia.
  assert (0 <= (hz * usec + (1000000 - 1)) `div` 1000000 <= hz) as Hr.
  { split; [apply Z.div_pos; lia|]. apply Z.lt_succ_r, Z.div_lt_upper_bound; lia. }
  split; [|done]. rewrite s32_small; lia.
Qed.

(** The ticks of a time, where there are any. *)
Definition ticks_of (sec usec : Z) : option Z :=
  let t := system_hz * sec in
  let u := (system_hz * usec + (US - 1)) `div` US in
  if 2 ^ 32 <=? t then Some LONG_MAX
  else if t <? 2 ^ 31 then (if t + u <? 2 ^ 31 then Some (t + u) else None)
  else Some (if t + u <? 2 ^ 32 then LONG_MAX else t + u - 2 ^ 32).
(** C34: [ticks_from_timeval] of a time, with the fraction rounded up, for clock frequencies up to
    4000.  The sum is exact as long as it is below 2^31.  At 2^31 ticks and more for the
    seconds alone the result is LONG_MAX, except that within the last second before 2^32
    ticks it wraps around to a time below a second; and when only the fraction takes the sum
    over 2^31 - 1, which [setitimer] lets through, the sum of a [clock_t] overflows. *)
Theorem ticks_from_timeval_spec sec usec :
  0 < system_hz <= 4000 -> 0 <= sec < 2 ^ 31 -> 0 <= usec < US ->
  ticks_from_timeval (mk_timeval sec usec) = ticks_of sec usec.
Proof.
  intros Hhz Hsec Husec. unfold ticks_of. set (t := system_hz * sec). set (u := (system_hz * usec + (US - 1)) `div` US).
  cbv zeta. destruct (ceil_small system_hz usec Hhz Husec) as [Hceil Hu]. fold u in Hceil, Hu.
  unfold ticks_from_timeval. cbn [tv_sec tv_usec]. rewrite (u32_small sec) by lia. fold t.
  replace (system_hz =? 0) with false by lia. rewrite Hceil, u32_s32, u32_u32.
  assert (0 <= t < 4000 * 2 ^ 31) as Ht by (unfold t; nia).
  destruct (2 ^ 32 <=? t) eqn:Hbig.
  - assert (negb (u32 t `div` system_hz =? sec) = true) as ->; [|simpl; by destruct (LONG_MAX <? 0)].
    apply negb_true_iff, Z.eqb_neq. intros Heq. pose proof (u32_range t). unfold u32 in *.
    assert ((t `mod` 2 ^ 32) `div` system_hz < sec) as Hlt; [|rewrite Heq in Hlt; lia]. apply Z.div_lt_upper_bound; [lia|]. fold t. lia.
  - rewrite (u32_small t) by lia. unfold t at 1. rewrite Z.mul_comm, Z.div_mul, Z.eqb_refl by lia. cbn [negb].
    destruct (t <? 2 ^ 31) eqn:Hmid.
    + rewrite s32_small by lia. unfold int. destruct (t + u <? 2 ^ 31) eqn:Hsum.
      * replace (- 2 ^ 31 <=? t + u) with true by lia. cbn [andb mbind option_bind]. by replace (t + u <? 0) with false by lia.
      * by rewrite andb_false_r.
    + assert (s32 t = t - 2 ^ 32) as ->.
      { unfold s32. replace (t + 2 ^ 31) with (t - 2 ^ 31 + 1 * 2 ^ 32) by lia. rewrite Z.mod_add, Z.mod_small by lia. lia. }
      unfold int. replace ((- 2 ^ 31 <=? t - 2 ^ 32 + u) && (t - 2 ^ 32 + u <? 2 ^ 31)) with true by lia. cbn [mbind option_bind].
      destruct (t + u <? 2 ^ 32) eqn:Hsum.
      * by replace (t - 2 ^ 32 + u <? 0) with true by lia.
      * replace (t - 2 ^ 32 + u <? 0) with false by lia. f_equal. lia.
Qed.
End ticks.

Section calls.
Context `{MinixHeaders} `{PmHeaders} {W : Type} `{PmSched W} `{PmEnv W}.
Implicit Types (s : state W).

Lemma get_interval_run i which p t s :
  aget (procs s) i = Some p -> aget (mp_interval p) which = Some t -> get_interval i which s = Ret t s.
Proof. intros Hp Ht. unfold get_interval. rewrite (bind_ret _ _ _ _ _ (pm_slot_run _ _ _ Hp)). by rewrite Ht. Qed.
(** [setitimer] for the virtual or profiling timer of a process, with a new value and asked for
    the old one, when the old timer had run out.  It reports the old interval, but as the
    old value the interval that was just set: the slot is overwritten before it is read. *)
Theorem getset_vtimer_reports_new i which p s v t0 newticks newint num old w' tv0 tv1 :
  aget (procs s) i = Some p -> aget (mp_interval p) which = Some t0 ->
  (which = ITIMER_VIRTUAL /\ num = VT_VIRTUAL) \/ (which = ITIMER_PROF /\ num = VT_PROF) ->
  ticks_from_timeval (it_value v) = Some newticks -> 0 < newticks -> ticks_from_timeval (it_interval v) = Some newint ->
  sys_vtimer (mp_endpoint p) num (Some newticks) true (world s) = ((OK, old), w') -> old <= 0 ->
  timeval_from_ticks t0 = Some tv0 -> timeval_from_ticks newint = Some tv1 ->
  getset_vtimer i which (Some v) true s =
    Ret (mk_itimerval tv1 tv0)
      (s <| procs := aupd i (fun p => p <| mp_interval := aupd which (fun _ => newint) (mp_interval p) |>) (procs s) |>
         <| world := w' |>).
Proof.
  intros Hp Ht0 Hwhich Hnew Hpos Hint Hsys Hold Htv0 Htv1. unfold getset_vtimer.
  rewrite (bind_ret _ _ _ _ _ (get_interval_run _ _ _ _ _ Hp Ht0)). cbv beta iota. rewrite Htv0.
  rewrite (bind_ret _ _ tv0 s s) by done. cbv beta iota. rewrite Hnew, Hint.
  set (s1 := s <| procs := aupd i (fun p => p <| mp_interval := aupd which (fun _ => newint) (mp_interval p) |>) (procs s) |>).
  erewrite bind_ret.
  2:{ rewrite (bind_ret _ _ newticks s s) by done. cbv beta. replace (newticks <=? 0) with false by lia.
      erewrite (bind_ret _ _ tt s s1).
      2:{ rewrite (bind_ret _ _ newint s s) by done. cbv beta. unfold set_interval.
          rewrite (bind_ret _ _ _ _ _ (get_interval_run _ _ _ _ _ Hp Ht0)). apply (set_mp_slot_run _ _ _ _ Hp). }
      reflexivity. }
  cbv beta. assert (vtimer_number which s1 = Ret num s1) as Hnum.
  { unfold vtimer_number, ITIMER_VIRTUAL, ITIMER_PROF in *. by destruct Hwhich as [[-> ->]|[-> ->]]. }
  rewrite (bind_ret _ _ _ _ _ Hnum). cbv beta.
  set (p1 := p <| mp_interval := aupd which (fun _ => newint) (mp_interval p) |>).
  assert (aget (procs s1) i = Some p1) as Hp1 by (unfold s1; cbn [procs upd]; by rewrite aget_aupd_eq, Hp).
  rewrite (bind_ret _ _ _ _ _ (pm_slot_run _ _ _ Hp1)). cbv beta.
  rewrite (bind_ret _ _ (OK, old) s1 (s1 <| world := w' |>)).
  2:{ rewrite pm_env_run. change (mp_endpoint p1) with (mp_endpoint p). change (world s1) with (world s). by rewrite Hsys. }
  cbv beta iota. change (negb (is_ok OK)) with false. cbv iota.
  rewrite (bind_ret _ _ newint (s1 <| world := w' |>) (s1 <| world := w' |>)).
  2:{ replace (old <=? 0) with true by lia. apply (get_interval_run _ _ p1); [exact Hp1|].
      unfold p1. cbn [mp_interval upd]. by rewrite aget_aupd_eq, Ht0. }
  cbv beta. by rewrite Htv1.
Qed.

(** ** The null signal *)
(** Whom [kill] with signal 0 finds, and its answer. *)
Definition null_answer (l : list mproc) (proc_id : Z) (me : mproc) : rc :=
  if existsb (fun p => selected proc_id 0 me p && permitted me p) l then OK
  else if existsb (selected proc_id 0 me) l then EPERM else ESRCH.
Lemma existsb_slots (f : mproc -> bool) s (l : list Z) :
  Z.of_nat (length (procs s)) = NR_PROCS -> (forall i, i ∈ l <-> i ∈ seqZ 0 NR_PROCS) ->
  (exists i p, i ∈ l /\ aget (procs s) i = Some p /\ f p = true) <-> existsb f (procs s) = true.
Proof.
  intros Hlen Hl. rewrite existsb_exists. split.
  - intros (i & p & _ & [_ Hp]%aget_Some & Hf). exists p. split; [|done]. by eapply list_elem_of_In, list_elem_of_lookup_2.
  - intros (p & Hp & Hf). apply list_elem_of_In, list_elem_of_lookup_1 in Hp as [n Hn]. exists (Z.of_nat n), p.
    rewrite aget_nat. split_and!; [|done|done]. apply Hl, elem_of_seqZ. apply lookup_lt_Some in Hn. lia.
Qed.
(** C11: [check_sig] with signal 0, for a caller that is alive, sends nothing and changes nothing: it
    answers OK when the caller may signal one of the processes that the number stands for
    (a process, a group, its own group, or all), EPERM when there are such processes but it
    may signal none of them, and ESRCH when there are none. *)
Theorem check_sig_null sp proc_id (ksig : bool) s me :
  Z.of_nat (length (procs s)) = NR_PROCS -> aget (procs s) (mp s) = Some me ->
  has (mp_flags me) IN_USE = true -> has (mp_flags me) EXITING = false ->
  0 < _NSIG -> SIGKILL <> 0 -> SIGTERM <> 0 -> SIGS_IS_LETHAL 0 = false ->
  check_sig sp proc_id 0 ksig s = Ret (null_answer (procs s) proc_id me) s.
Proof.
  intros Hlen Hme Hu He Hnsig Hkill Hterm Hleth.
  assert (wp (check_sig sp proc_id 0 ksig) (fun r s' => r = null_answer (procs s) proc_id me /\ s' = s) never s) as Hx.
  2:{ destruct (wp_never_run _ _ _ Hx) as (r & s' & Hrun & -> & ->). exact Hrun. }
  unfold check_sig. replace ((0 <? 0) || (_NSIG <=? 0)) with false by lia.
  replace (0 =? SIGKILL) with false by lia. rewrite andb_false_r. apply wp_bind.
  replace (0 =? SIGTERM) with false by lia. rewrite andb_false_r. apply wp_ret, wp_bind.
  set (sel i := exists p, aget (procs s) i = Some p /\ selected proc_id 0 me p && permitted me p = true).
  set (non i := exists p, aget (procs s) i = Some p /\ selected proc_id 0 me p && negb (permitted me p) = true).
  apply (wp_fold_break _ _ _ (fun pre a s' => s' = s /\ 0 <= a.1 /\ (0 < a.1 <-> exists i, i ∈ pre /\ sel i) /\
    (a.2 = ESRCH /\ (forall i, i ∈ pre -> ~ non i) \/ a.2 = EPERM /\ exists i, i ∈ pre /\ non i))).
  - split_and!; [done|done| |].
    + split; [done|]. intros (i & Hi & _). by apply not_elem_of_nil in Hi.
    + left. split; [done|]. intros i Hi. by apply not_elem_of_nil in Hi.
  - intros pre i post [count err] s' Hseq (-> & Hc & Hcnt & Herr). cbn [fst snd] in *.
    assert (exists p, aget (procs s) i = Some p) as [p Hp].
    { apply aget_is_Some. assert (i ∈ rev (seqZ 0 NR_PROCS)) as Hi by (rewrite Hseq; apply elem_of_app; right; apply elem_of_cons; by left).
      apply list_elem_of_In in Hi. rewrite <-in_rev in Hi. apply list_elem_of_In, elem_of_seqZ in Hi. lia. }
    unfold check_sig_step. apply wp_bind. apply (wp_ret_run _ _ _ _ _ _ (pm_slot_run _ _ _ Hp)).
    apply wp_bind, wp_gets, wp_bind. apply (wp_ret_run _ _ _ _ _ _ (pm_slot_run _ _ _ Hme)).
    assert (forall P : Z -> Prop, (exists j, j ∈ pre ++ [i] /\ P j) <-> (exists j, j ∈ pre /\ P j) \/ P i) as Hex.
    { intros P. split.
      - intros (j & [Hj|Hj%list_elem_of_singleton]%elem_of_app & HP); [left; by exists j|right; by subst j].
      - intros [(j & Hj & HP)|HP]; [exists j|exists i]; (split; [|done]); apply elem_of_app; [by left|right; by apply list_elem_of_singleton]. }
    assert (sel i <-> selected proc_id 0 me p && permitted me p = true) as Hsel.
    { split; [intros (q & Hq & ?); congruence|intros; by exists p]. }
    assert (non i <-> selected proc_id 0 me p && negb (permitted me p) = true) as Hnon.
    { split; [intros (q & Hq & ?); congruence|intros; by exists p]. }
    assert ((forall j, j ∈ pre -> ~ non j) -> ~ non i -> forall j, j ∈ pre ++ [i] -> ~ non j) as Hall.
    { intros H1' H2' j [Hj|Hj%list_elem_of_singleton]%elem_of_app; [by apply H1'|by subst j]. }
    rewrite Hleth, andb_false_r. cbn [andb].
    destruct (selected proc_id 0 me p); cbn [negb andb] in *; [destruct (permitted me p); cbn [negb andb] in *|].
    + change ((0 =? 0) || has (mp_flags p) EXITING) with true. cbv iota. apply wp_ret. cbn [fst snd]. split_and!; [done|lia| |].
      * rewrite Hex. split; [intros _; right; by apply Hsel|lia].
      * destruct Herr as [[-> Hno]|[-> Hyes]]; [left|right]; (split; [done|]); [apply Hall; [done|by rewrite Hnon]|apply Hex; by left].
    + apply wp_ret. cbn [fst snd]. split_and!; [done|done| |].
      * rewrite Hex, Hcnt, Hsel. split; [by left|]. by intros [?|?].
      * right. split; [done|]. apply Hex. right. by apply Hnon.
    + apply wp_ret. cbn [fst snd]. split_and!; [done|done| |].
      * rewrite Hex, Hcnt, Hsel. split; [by left|]. by intros [?|?].
      * destruct Herr as [[-> Hno]|[-> Hyes]]; [left|right]; (split; [done|]); [apply Hall; [done|by rewrite Hnon]|apply Hex; by left].
  - intros [count err] s' (-> & Hc & Hcnt & Herr). cbn [fst snd] in *. apply wp_bind, wp_gets, wp_bind.
    apply (wp_ret_run _ _ _ _ _ _ (pm_slot_run _ _ _ Hme)). rewrite Hu, He. cbn [negb orb]. apply wp_ret. split; [|done].
    assert (forall i, i ∈ rev (seqZ 0 NR_PROCS) <-> i ∈ seqZ 0 NR_PROCS) as Hrev.
    { intros i. rewrite !list_elem_of_In. symmetry. apply in_rev. }
    unfold null_answer. pose proof (existsb_slots (fun p => selected proc_id 0 me p && permitted me p) s _ Hlen Hrev) as Hs1.
    pose proof (existsb_slots (selected proc_id 0 me) s _ Hlen Hrev) as Hs2.
    destruct (existsb (fun p => _ && _) (procs s)) eqn:E1.
    + destruct Hs1 as [_ Hs1]. destruct (Hs1 eq_refl) as (i & p & Hi & Hp & Hf).
      replace (0 <? count) with true; [done|]. symmetry. apply Z.ltb_lt, Hcnt. exists i. split; [done|]. by exists p.
    + replace (0 <? count) with false.
      2:{ symmetry. apply Z.ltb_ge. destruct (decide (0 < count)) as [Hpos|]; [|lia]. exfalso.
          apply Hcnt in Hpos as (i & Hi & p & Hp & Hf). destruct Hs1 as [Hs1 _]. assert (false = true) as Hx; [|done]. apply Hs1. by exists i, p. }
      assert (forall i p, aget (procs s) i = Some p -> selected proc_id 0 me p = true -> i ∈ rev (seqZ 0 NR_PROCS) -> non i) as Hnon.
      { intros i p Hp Hsl Hi. exists p. split; [done|]. rewrite Hsl. destruct (permitted me p) eqn:Ep; [|done]. exfalso.
        destruct Hs1 as [Hs1 _]. assert (false = true) as Hx; [|done]. apply Hs1. exists i, p. by rewrite Hsl, Ep. }
      destruct Herr as [[-> Hno]|[-> (i & Hi & p & Hp & Hf)]].
      * destruct (existsb (selected proc_id 0 me) (procs s)) eqn:E2; [|done]. exfalso. destruct Hs2 as [_ Hs2].
        destruct (Hs2 eq_refl) as (i & p & Hi & Hp & Hsl). by eapply Hno, Hnon.
      * destruct Hs2 as [Hs2 _]. rewrite Hs2; [done|]. exists i, p. split_and!; [done|done|]. by apply andb_true_iff in Hf as [? _].
Qed.

(** ** Waiting for children *)
Definition with_procs s (P : list mproc) : state W := s <| procs := P |>.
Lemma with_procs_id s : with_procs s (procs s) = s.
Proof. by destruct s. Qed.
Lemma wp_slot_at s P i p (Q : mproc -> state W -> Prop) E :
  aget P i = Some p -> Q p (with_procs s P) -> wp (slot i) Q E (with_procs s P).
Proof. intros Hp HQ. unfold wp. by rewrite (pm_slot_run i p (with_procs s P)). Qed.
Lemma wp_set_at s P i p f (Q : unit -> state W -> Prop) E :
  aget P i = Some p -> Q tt (with_procs s (aupd i (fun _ => f p) P)) -> wp (set_slot i f) Q E (with_procs s P).
Proof.
  intros Hp HQ. unfold wp. rewrite (set_mp_slot_run i p f (with_procs s P)) by done.
  change (Q tt (with_procs s (aupd i f P))). by rewrite (aupd_ext P i f (fun _ => f p)) by (intros; congruence).
Qed.

(** The signal for which a traced process is stopped and [who] was not told yet. *)
Definition stopped_signal (who : Z) (p : mproc) : option Z :=
  if (mp_tracer p =? who) && has (mp_flags p) STOPPED then first_signal (mp_sigtrace p) else None.
Definition tracer_zombie (who : Z) (p : mproc) : bool := (mp_tracer p =? who) && has (mp_flags p) TRACE_ZOMBIE.
Definition parent_zombie (who : Z) (p : mproc) : bool := (mp_parent p =? who) && has (mp_flags p) ZOMBIE.
(** There is something to tell [who] of. *)
Definition ready (who pidarg : Z) (p : mproc) : bool :=
  waited_for who pidarg p &&
  (tracer_zombie who p || match stopped_signal who p with Some _ => true | None => false end || parent_zombie who p).
(** The argument and the options of the caller. *)
Definition wait_arg s (me : mproc) : Z :=
  let pidarg := if call_nr s =? WAIT then -1 else pid (m_in s) in
  if pidarg =? 0 then - mp_procgrp me else pidarg.
Definition wait_options s : Z := if call_nr s =? WAIT then 0 else sig_nr (m_in s).
(** The father is given the number of the child and its status. *)
Definition told_of (c q : mproc) : mproc :=
  q <| mp_reply := mp_reply q <| reply_res2 := wait_status c |> <| reply_res := Rc (mp_pid c) |> |>
    <| mp_flags := Z.ldiff (Z.lor (mp_flags q) REPLY) WAITING |>.
(** The slot of a zombie that was collected, and the state after that. *)
Definition reaped (c : mproc) : mproc :=
  let c' := c <| mp_flags := Z.lor (Z.ldiff (mp_flags c) ZOMBIE) TOLD_PARENT |> in
  if has (mp_flags c) VFS_CALL then c'
  else c' <| mp_pid := 0 |> <| mp_flags := 0 |> <| mp_child_utime := 0 |> <| mp_child_stime := 0 |>.
Definition reap s (i : Z) (c me : mproc) : state W :=
  with_procs (if has (mp_flags c) VFS_CALL then s else s <| procs_in_use := procs_in_use s - 1 |>)
    (aupd i (fun _ => reaped c) (aupd (mp s) (fun _ => told_of c me) (procs s))).

Lemma waitpid_skip pidarg s a i p :
  aget (procs s) i = Some p -> ready (who_p s) pidarg p = false -> a.2 = None ->
  waitpid_step pidarg a i s = Ret ((a.1 || waited_for (who_p s) pidarg p, None), false) s.
Proof.
  intros Hp Hr Ha. destruct a as [ch r]. cbn [fst snd] in *. subst r. unfold waitpid_step.
  rewrite (bind_ret _ _ s s s) by done. cbv beta zeta. rewrite (bind_ret _ _ _ _ _ (pm_slot_run _ _ _ Hp)). cbv beta.
  unfold ready in Hr. destruct (waited_for (who_p s) pidarg p); cbn [negb andb] in *; [|by rewrite orb_false_r].
  apply orb_false_iff in Hr as [[Ht Hst]%orb_false_iff Hz]. unfold tracer_zombie, stopped_signal, parent_zombie in *.
  rewrite Ht. match goal with |- context [match ?x with Some _ => _ | None => _ end] => destruct x; [done|] end. rewrite Hz. by rewrite orb_true_r.
Qed.
Lemma waitpid_skips pidarg s pre post ch :
  (forall i, i ∈ pre -> exists p, aget (procs s) i = Some p /\ ready (who_p s) pidarg p = false) ->
  exists ch', fold_break (pre ++ post) (ch, None) (waitpid_step pidarg) s = fold_break post (ch', None) (waitpid_step pidarg) s /\
    (ch' = true <-> ch = true \/ exists i p, i ∈ pre /\ aget (procs s) i = Some p /\ waited_for (who_p s) pidarg p = true).
Proof.
  revert ch. induction pre as [|i pre IH]; intros ch Hpre.
  - exists ch. split; [done|]. split; [by left|]. intros [?|(i & p & Hi & _)]; [done|by apply not_elem_of_nil in Hi].
  - destruct (Hpre i) as (p & Hp & Hr); [set_solver|].
    destruct (IH (ch || waited_for (who_p s) pidarg p)) as (ch' & Hrun & Hch); [intros j Hj; apply Hpre; set_solver|].
    exists ch'. split.
    + rewrite <-Hrun. cbn [fold_break app]. by rewrite (bind_ret _ _ _ _ _ (waitpid_skip pidarg s (ch, None) i p Hp Hr eq_refl)).
    + rewrite Hch, orb_true_iff. split.
      * intros [[?|?]|(j & q & Hj & ?)]; [by left|right; exists i, p; split_and!; [set_solver|done..]|right; exists j, q; split; [set_solver|done]].
      * intros [?|(j & q & Hj & Hq & Hw)]; [by left; left|]. apply elem_of_cons in Hj as [->|Hj]; [left; right; congruence|].
        right. by exists j, q.
Qed.

Lemma wp_at {A} (m : M (state W) A) Q E s : wp m Q E (with_procs s (procs s)) -> wp m Q E s.
Proof. by rewrite with_procs_id. Qed.
Lemma collect_run s me p i :
  aget (procs s) i = Some p -> aget (procs s) (mp s) = Some me -> i <> mp s -> 0 < mp s < NR_PROCS -> mp_parent p = mp s ->
  has (mp_flags p) ZOMBIE = true -> has (mp_flags p) TOLD_PARENT = false ->
  wp (tell_parent i;; p ← slot i; (if negb (has (mp_flags p) VFS_CALL) then cleanup i else mret tt);;
      mret ((true, Some SUSPEND) : bool * option rc, true))
    (fun r s' => r = (true, Some SUSPEND, true) /\ s' = reap s i p me) never (with_procs s (procs s)).
Proof.
  intros Hp Hme Hne Hpos Hpa Hz Ht. set (P := procs s) in *. unfold tell_parent, setreply, set_flag, clear_flag, set_reply.
  apply wp_bind, wp_bind. eapply wp_slot_at; [done|]. rewrite Hpa, Hz, Ht. replace (mp s <=? 0) with false by lia. cbn [negb].
  replace ((mp s <? 0) || (NR_PROCS <=? mp s)) with false by lia.
  apply wp_bind. eapply wp_set_at; [done|]. apply wp_bind, wp_bind.
  eapply wp_set_at; [by eapply aget_set|]. rewrite aupd_set_set.
  eapply wp_set_at; [by eapply aget_set|]. rewrite aupd_set_set. apply wp_bind.
  eapply wp_set_at; [by eapply aget_set|]. rewrite aupd_set_set. apply wp_bind.
  eapply wp_set_at; [by rewrite aget_aupd_ne by done|].
  eapply wp_set_at; [eapply aget_set; by rewrite aget_aupd_ne by done|]. rewrite aupd_set_set. cbn beta.
  match goal with |- context [aupd (mp s) ?f P] => change (aupd (mp s) f P) with (aupd (mp s) (fun _ => told_of p me) P) end.
  set (P2 := aupd (mp s) (fun _ => told_of p me) P). assert (aget P2 i = Some p) as Hp2 by (subst P2; by rewrite aget_aupd_ne by done).
  apply wp_bind. eapply wp_slot_at; [by eapply aget_set|]. 
  match goal with |- context [has (mp_flags ?c) VFS_CALL] => set (c1 := c) end.
  assert (has (mp_flags c1) VFS_CALL = has (mp_flags p) VFS_CALL) as Hv.
  { unfold c1. cbn [mp_flags upd]. rewrite has_lor, has_ldiff by apply _. eval_flags. by rewrite andb_true_r, orb_false_r. }
  rewrite Hv. apply wp_bind. unfold reap, reaped. fold P P2. destruct (has (mp_flags p) VFS_CALL); cbn [negb].
  - apply wp_ret, wp_ret. done.
  - unfold cleanup. apply wp_bind. eapply wp_set_at; [by eapply aget_set|]. rewrite aupd_set_set. apply wp_modify, wp_ret. done.
Qed.

(** The end of [waitpid], with what its loop found. *)
Definition waitpid_end s (pidarg : Z) (x : bool * option rc) : M (state W) rc :=
  match x.2 with
  | Some r => mret r
  | None =>
      if x.1 then
        if has (wait_options s) WNOHANG then mret (Rc 0) else
        set_flag (mp s) WAITING;;
        set_slot (mp s) (fun p => p <| mp_wpid := pidarg |>);;
        mret SUSPEND
      else mret ECHILD
  end.
Lemma do_waitpid_eq s me :
  aget (procs s) (mp s) = Some me ->
  do_waitpid s =
    (fold_break (seqZ 0 NR_PROCS) (false, None) (waitpid_step (wait_arg s me)) ≫= waitpid_end s (wait_arg s me)) s.
Proof.
  intros Hme. unfold do_waitpid. rewrite (bind_ret _ _ s s s) by done. cbv beta.
  rewrite (bind_ret _ _ _ _ _ (pm_slot_run _ _ _ Hme)). cbv beta zeta. fold (wait_arg s me). unfold mbind at 1 4, M_bind.
  destruct (fold_break _ _ _ s) as [[ch r] s1|]; [|done]. by destruct r.
Qed.
Lemma wp_eq {A} (m m' : M (state W) A) s Q E : m s = m' s -> wp m' Q E s -> wp m Q E s.
Proof. unfold wp. by intros ->. Qed.
Lemma wp_run {A} (m : M (state W) A) a s s' : wp m (fun r s1 => r = a /\ s1 = s') never s -> m s = Ret a s'.
Proof. intros Hx. destruct (wp_never_run _ _ _ Hx) as (? & ? & Hrun & -> & ->). exact Hrun. Qed.

(** C6: [waitpid], for a caller that nobody waits for in vain (it is no zombie, and does not trace
    itself).  The slots are searched in order for a process to tell of.  The first child
    that is a zombie is told to the caller, with its number and its status: its slot is freed when VFS
    has answered for it, and otherwise only marked as told; nothing else changes.  For a traced
    process that is stopped the caller gets its number and the first signal that it was not told
    of, which is then taken out of the set.  If there is no such process the call waits, or
    returns 0 with WNOHANG, when there are children that fit the argument, and fails with
    ECHILD when there are none. *)
Theorem do_waitpid_spec s me :
  Z.of_nat (length (procs s)) = NR_PROCS -> aget (procs s) (mp s) = Some me -> who_p s = mp s -> 0 < mp s ->
  ready (mp s) (wait_arg s me) me = false ->
  let P := procs s in
  let pidarg := wait_arg s me in
  match first_index (ready (mp s) pidarg) P with
  | None =>
      do_waitpid s =
        if existsb (waited_for (mp s) pidarg) P then
          if has (wait_options s) WNOHANG then Ret (Rc 0) s
          else Ret SUSPEND (with_procs s (aupd (mp s) (fun p =>
                 p <| mp_flags := Z.lor (mp_flags p) WAITING |> <| mp_wpid := pidarg |>) P))
        else Ret ECHILD s
  | Some i => forall p, aget P i = Some p -> tracer_zombie (mp s) p = false ->
      match stopped_signal (mp s) p with
      | Some n =>
          do_waitpid s = Ret (Rc (mp_pid p)) (with_procs s
            (aupd (mp s) (fun q => q <| mp_reply := mp_reply q <| reply_res2 := Z.lor 127 (Z.shiftl n 8) |> |>)
            (aupd i (fun p => p <| mp_sigtrace := sigdelset (mp_sigtrace p) n |>) P)))
      | None => do_waitpid s = Ret SUSPEND (reap s i p me)
      end
  end.
Proof.
  intros Hlen Hme Hwho Hpos Hself P pidarg.
  rewrite (do_waitpid_eq _ _ Hme). fold pidarg. assert (mp s < NR_PROCS) as Hlt by (apply aget_range in Hme; lia).
  assert (forall i, 0 <= i < NR_PROCS -> exists p, aget P i = Some p) as Hslot by (intros i Hi; apply aget_is_Some; unfold P; lia).
  destruct (first_index _ P) as [i|] eqn:Hfirst.
  - intros p Hp Htz. apply first_index_Some in Hfirst as (p' & Hp' & Hr & Hbefore). assert (p' = p) as -> by congruence. clear Hp'.
    pose proof (aget_range _ _ _ Hp) as Hi. unfold P in Hi.
    assert (i <> mp s) as Hne by (intros ->; unfold P in Hp; assert (p = me) as E by congruence; subst p; fold pidarg in Hself; rewrite Hself in Hr; done).
    assert (seqZ 0 NR_PROCS = seqZ 0 i ++ i :: seqZ (Z.succ i) (NR_PROCS - i - 1)) as ->.
    { replace NR_PROCS with (i + (NR_PROCS - i)) at 1 by lia. rewrite seqZ_app by lia. f_equal. rewrite seqZ_cons by lia.
      repeat f_equal; lia. }
    destruct (waitpid_skips pidarg s (seqZ 0 i) (i :: seqZ (Z.succ i) (NR_PROCS - i - 1)) false) as (ch & Hskip & _).
    { intros j Hj%elem_of_seqZ. destruct (Hslot j) as [q Hq]; [lia|]. exists q. split; [done|]. rewrite Hwho. eapply Hbefore; [|done]. lia. }
    unfold ready in Hr. apply andb_true_iff in Hr as [Hw Hr].
    assert (has (mp_flags p) TOLD_PARENT = false) as Htold.
    { unfold waited_for in Hw. repeat (apply andb_true_iff in Hw as [Hw ?]). by apply negb_true_iff. }
    destruct (stopped_signal (mp s) p) as [n|] eqn:Hst.
    all: apply wp_run, wp_bind, (wp_eq _ _ _ _ _ Hskip); cbn [fold_break]; apply wp_bind; unfold waitpid_step;
      apply wp_bind, wp_get, wp_bind, (wp_ret_run _ _ _ _ _ _ (pm_slot_run _ _ _ Hp)); cbv zeta; rewrite Hwho, Hw; cbn [negb];
      unfold tracer_zombie in Htz; rewrite Htz; unfold stopped_signal in Hst; rewrite Hst.
    + apply wp_at. eapply wp_bind, wp_set_at; [done|]. eapply wp_bind, wp_set_at; [by rewrite aget_aupd_ne by done|].
      apply wp_ret. cbv beta iota. apply wp_ret. split; [done|]. f_equal.
      unfold P in *. rewrite (aupd_ext (procs s) i (fun p => p <| mp_sigtrace := sigdelset (mp_sigtrace p) n |>)
        (fun _ => p <| mp_sigtrace := sigdelset (mp_sigtrace p) n |>)).
      2:{ intros x Hx. assert (x = p) as -> by congruence. done. }
      apply aupd_ext. intros x Hx. rewrite aget_aupd_ne in Hx by done. assert (x = me) as -> by congruence. done.
    + unfold tracer_zombie in Hr. rewrite Htz in Hr. cbn [orb] in Hr.
      unfold parent_zombie in Hr. rewrite Hr. apply andb_true_iff in Hr as [Hpa%Z.eqb_eq Hz].
      apply wp_at. eapply wp_mono; [apply (collect_run s me p i); done| |done].
      intros r s' [-> ->]. cbv beta iota. apply wp_ret. done.
  - assert (forall i p, aget P i = Some p -> ready (mp s) pidarg p = false) as Hnone.
    { intros i p Hp. apply first_index_None in Hfirst. apply aget_Some in Hp as [_ Hp]. by apply (Forall_lookup_1 _ _ _ _ Hfirst Hp). }
    destruct (waitpid_skips pidarg s (seqZ 0 NR_PROCS) [] false) as (ch & Hskip & Hch).
    { intros j Hj%elem_of_seqZ. destruct (Hslot j) as [q Hq]; [lia|]. exists q. split; [done|]. rewrite Hwho. by eapply Hnone. }
    rewrite app_nil_r in Hskip. cbn [fold_break] in Hskip.
    assert (ch = existsb (waited_for (mp s) pidarg) P) as ->.
    { pose proof (existsb_slots (waited_for (mp s) pidarg) s (seqZ 0 NR_PROCS) Hlen ltac:(done)) as Hex. apply eq_true_iff_eq. unfold P.
      rewrite Hch, <-Hex, Hwho. split; [by intros [?|?]|by right]. }
    rewrite (bind_ret _ _ _ _ _ Hskip). unfold waitpid_end. cbn [fst snd].
    destruct (existsb _ _); [|done]. destruct (has (wait_options s) WNOHANG); [done|].
    apply wp_run, wp_at. unfold set_flag. eapply wp_bind, wp_set_at; [done|].
    eapply wp_bind, wp_set_at; [by eapply aget_set|]. apply wp_ret. split; [done|]. f_equal. rewrite aupd_set_set.
    apply aupd_ext. intros x Hx. unfold P in Hx. assert (x = me) as -> by congruence. done.
Qed.
End calls.
