(* ===== verification/PmClaims.v ===== *)
(** What the process manager promises, and examples of each promise: it never panics, the
    ends that follow from one another come to an end, what [fork], [waitpid], [kill] and the end of a
    process do, and what its timers compute. *)
From S2P Require Import Prelude Minix PmBase Pm PmAlarm PmSignal PmCalls PmMain PmTree PmInv PmEnd PmWf PmFork PmRun PmTrace PmLoop PmBoot.
Local Open Scope Z_scope.

Section claims.
Context `{MinixHeaders} `{PmHeaders} {W : Type} `{PmSched W} `{PmEnv W} `{!PmLaws} `{!EnvLaws}.
Implicit Types (s : state W) (L : list life).

(** One turn of the main loop, which waits for the next event again. *)
Definition turn (e : event) s s' : Prop := main_step e s = Ret tt s'.
(** Each event is, in the state that it meets, one that PM may rely on. *)
Inductive heard : state W -> list event -> Prop :=
  | heard_nil s : heard s []
  | heard_cons s e es : event_ok s e -> (forall s', turn e s s' -> heard s' es) -> heard s (e :: es).
(** The table is well-formed, and has changed only in the ways that ends do: no process is
    created, renamed or moved to another father than init, no slot is freed before VFS has answered
    for it, and who ended has no children and traces no one. *)
Definition only_ends s s' : Prop := wf s' /\ evolves None (lives s) (lives s').
(** The process in slot [i] has ended, and VFS is to clean up; nobody depends on it. *)
Definition ended_slot s s' (i : Z) : Prop :=
  exists l l', aget (lives s) i = Some l /\ aget (lives s') i = Some l' /\
    l_used l' = true /\ l_exiting l' = true /\ l_vfs l' = true /\ l_pid l' = l_pid l /\ no_dep (lives s') i.
(** A new child [child] of the caller [l], in the free slot [c], waits for VFS. *)
Definition new_child s (l : life) (tracer c : Z) (child : life) : Prop :=
  exists l0 ep k, aget (lives s) c = Some l0 /\ l_used l0 = false /\ (tracer = 0 \/ tracer = l_tracer l) /\
    child = l_child (Z.lor IN_USE DELAY_CALL) (mp s) ep tracer k l <| l_vfs := true |> /\ newborn (lives s) c child.
Lemma heard_safe es s : wf s -> heard s es -> wp (foreach es main_step) (fun _ => wf) never s.
Proof.
  revert s. induction es as [|e es IH]; intros s Hwf Hh; [by apply wp_ret|]. inversion Hh as [|? ? ? He Hrest]; subst.
  destruct (wp_never_run _ _ _ (main_step_ok e s Hwf He)) as ([] & s' & Hrun & Hwf').
  simpl. apply wp_bind. apply (wp_ret_run _ _ _ _ _ _ Hrun). apply IH; [done|by apply Hrest].
Qed.

(** C1: From its start on PM handles any sequence of messages, notifications and signals of the
    kernel without a panic, an undefined operation or an endless loop, and its process
    table is well-formed after each: as long as each event is, in the state that it meets,
    one that PM may rely on. *)
Theorem pm_main_safe `{!PmBootEnv W} `{!BootLaws} (m : call) (w : W) es :
  (forall s, sef_cb_init_fresh (start_state m w) = Ret OK s -> heard s es) ->
  exists s', main es (start_state m w) = Ret tt s' /\ wf s'.
Proof.
  intros Hh. destruct (wp_never_run _ _ _ (init_fresh_ok m w)) as (r & s1 & Hrun & Hr & Hwf). subst r.
  destruct (wp_never_run _ _ _ (heard_safe es s1 Hwf (Hh s1 Hrun))) as ([] & s' & Hrun' & Hwf').
  exists s'. split; [|done]. unfold main. by rewrite (bind_ret _ _ _ _ _ Hrun).
Qed.

(** C33: One turn of PM's main loop, in any well-formed state and on any event that PM may rely
    on, returns and leaves a well-formed state. *)
Theorem pm_step_wf e s : wf s -> event_ok s e -> exists s', turn e s s' /\ wf s'.
Proof.
  intros Hwf He. destruct (wp_never_run _ _ _ (main_step_ok e s Hwf He)) as ([] & s' & ? & ?). by exists s'.
Qed.

(** C5: A signal to a process that is alive ends within one call of [sig_proc] more than there are
    slots: the process may end, with it those it traced, its orphans go to init, its
    father is signalled, its group hung up, and so on, but the nested calls come to an end
    without a panic, and the table changes only in the ways that ends do. *)
Theorem sig_proc_ends s i l signo (trace ksig : bool) :
  wf s -> aget (lives s) i = Some l -> alive l = true -> 1 <= signo < _NSIG ->
  (ksig = true -> SIGS_IS_TERMINATION signo = true -> l_ep l <> VFS_PROC_NR) ->
  exists s', sig_proc i signo trace ksig s = Ret tt s' /\ only_ends s s'.
Proof.
  intros (L & n & Hs & T & Hse) Hl Ha Hsig Hep. rewrite (st_lives _ _ _ _ Hs) in *.
  assert (wp (sig_proc i signo trace ksig) (fun _ => after s None L) never s) as Hx.
  { eapply sig_proc_ok; [exact Hs|exact T|exact Hl|done..|by eapply sig_fuel]. }
  destruct (wp_never_run _ _ _ Hx) as ([] & s' & Hrun & Haft). exists s'. split; [done|].
  split; [by eapply after_wf|]. destruct Haft as (L' & n' & Hs' & _ & E). by rewrite (st_lives _ _ _ _ Hs), (st_lives _ _ _ _ Hs').
Qed.

(** C17: The end of a process that is not init, VFS or PM: afterwards its slot is still in use and
    marked as ending, VFS was asked to clean up, and no process in use, whether or not others
    ended with it, has it as its father or its tracer. *)
Theorem exit_proc_orphans s i l status (dump : bool) :
  wf s -> aget (lives s) i = Some l -> alive l = true -> l_vfs l = false ->
  l_ep l <> VFS_PROC_NR -> i <> 0 -> i <> INIT_PROC_NR ->
  exists s', exit_proc sig_proc i status dump s = Ret tt s' /\ wf s' /\ ended_slot s s' i.
Proof.
  intros (L & n & Hs & T & Hse) Hl Ha Hv Hep Hi0 Hi. pose proof Hl as Hl0. rewrite (st_lives _ _ _ _ Hs) in Hl. destruct (alive_split _ Ha) as [_ He].
  destruct (st_mp_get _ _ _ _ Hs) as [lm Hm].
  assert (wp (exit_proc sig_proc i status dump) (fun _ => ended s L i) never s) as Hx.
  { eapply exit_proc_ok; [apply sig_proc_ok|exact Hs|exact T|done..|]. pose proof (sig_fuel _ _ T). lia. }
  destruct (wp_never_run _ _ _ Hx) as ([] & s' & Hrun & (L' & n' & Hs' & T' & E & Hend)).
  destruct (Hend Hi) as (l' & Hl' & Hu' & He' & Hv'). exists s'. split; [done|].
  split; [eapply after_wf; [exact Hse|]; by eapply after_intro|]. exists l, l'. rewrite (st_lives _ _ _ _ Hs').
  split_and!; try done.
  - destruct E as (_ & E & _). destruct (E _ _ _ Hl Hl') as [Hx' _]. by destruct (Hx' Hu') as (_ & ? & _).
  - destruct E as (_ & _ & E). by eapply E.
Qed.

(** C16: [fork] on a well-formed state, for the process that calls.  Either nothing has happened to
    any process (the table is full, or VM refused), or the result is that the father waits
    for VFS and there is a new process: in a slot that was free, with a number that no process
    has, the caller as its father, waiting for VFS, with no signal pending and not a system
    process; it is traced by the tracer of the caller or by nobody, and if by nobody no
    other slot has changed and one more is in use. *)
Theorem do_fork_spec s L n l :
  calling s L n l -> exists r s', do_fork s = Ret r s' /\ wf s' /\
    ((lives s' = lives s /\ procs_in_use s' = procs_in_use s) \/
     exists tracer c child, r = SUSPEND /\ new_child s l tracer c child /\
       (tracer = 0 -> lives s' = aupd c (fun _ => child) (lives s) /\ procs_in_use s' = procs_in_use s + 1)).
Proof.
  intros Hc. destruct (wp_never_run _ _ _ (do_fork_run _ _ _ _ Hc)) as (r & s' & Hrun & Hf). exists r, s'. split; [done|].
  rewrite (st_lives _ _ _ _ (ca_st _ _ _ _ Hc)), (st_count _ _ _ _ (ca_st _ _ _ _ Hc)).
  destruct Hf as [(? & ? & ?)|(c & l0 & ep & tracer & k & Hr & Hl0 & Hu & Ht & Hnb & [_ Hb] & Hwf)]; (split; [done|]); [by left|].
  right. eexists tracer, c, _. split; [done|]. split; [by exists l0, ep, k; rewrite (st_lives _ _ _ _ (ca_st _ _ _ _ Hc))|].
  intros Ht0. pose proof (Hb Ht0) as Hst.
  split; [apply (st_lives _ _ _ _ Hst)|apply (st_count _ _ _ _ Hst)].
Qed.
End claims.
