(* ===== verification/PmDemo.v ===== *)
(** A small machine that meets what PM relies on, and runs of PM on it: each promise of
    [PmClaims] and [PmSpec] at a concrete state. *)
From S2P Require Import Prelude Minix PmBase Pm PmAlarm PmSignal PmCalls PmMain PmTree PmInv PmEnd PmWf PmFork PmRun PmTrace PmLoop PmBoot PmSpec PmClaims.
Local Open Scope Z_scope.

Module Demo.
#[local] Existing Instances PmBase.Demo.minix_headers PmBase.Demo.pm_headers PmBase.Demo.pm_sched PmBase.Demo.pm_env.
Abbreviation world_ := (list PmBase.Demo.event).

(** The boot image: a kernel task, PM, VFS, RS and init. *)
Definition image : list boot_image :=
  [mk_boot_image (-2) [115; 121; 115] (-2); mk_boot_image 0 [112; 109] 0; mk_boot_image 1 [118; 102; 115] 1;
   mk_boot_image 2 [114; 115] 2; mk_boot_image 3 [105; 110; 105; 116] 3].
#[local] Instance pm_boot : PmBootEnv world_ := {
  SRV_Q := 3; USR_Q := 7;
  init_timer := fun i w => (tt, w);
  sys_getmonparams := fun w => ((OK, [0]), w);
  sys_getkinfo := fun w => (OK, w);
  sys_getimage := fun w => ((OK, image), w);
  send_init := fun i k e w => (OK, w);
  sync_vfs := fun w => ((OK, OK), w);
  minix_unmapzero := fun w => (tt, w);
}.
#[local] Instance pm_laws : PmLaws.
Proof. by constructor. Qed.
#[local] Instance env_laws : EnvLaws (W := world_).
Proof.
  split; try done; cbn -[Z.modulo]; try by left.
  intros ep i w e Hi [= <-]. split; [|lia]. replace (i + 1024 + 4) with (i + 4 + 1 * 1024) by lia.
  rewrite Z.mod_add, Z.mod_small by lia. lia.
Qed.
Lemma image_good : image_ok image.
Proof.
  split.
  - apply (bool_decide_unpack _). by vm_compute.
  - intros ip Hip. repeat (apply elem_of_cons in Hip as [->|Hip]; [vm_compute; intros; by split|]). by apply not_elem_of_nil in Hip.
  - exists (mk_boot_image 0 [112; 109] 0). split; [|done]. unfold image. set_solver.
  - exists (mk_boot_image 3 [105; 110; 105; 116] 3). split; [|done]. unfold image. set_solver.
  - exists (mk_boot_image 2 [114; 115] 2). split; [|done]. unfold image. set_solver.
  - intros ip Hip. repeat (apply elem_of_cons in Hip as [->|Hip]; [done|]). by apply not_elem_of_nil in Hip.
Qed.
#[local] Instance boot_laws : BootLaws (W := world_).
Proof. split; try done. intros w. split; [done|exact image_good]. Qed.

(** ** Messages and states *)
Definition message (from nr : Z) : call := PmBase.Demo.no_call <| m_source := from |> <| m_type := nr |>.
Definition from_vfs (nr ep : Z) : call := message 1 nr <| PM_PROC := ep |>.
Definition fork_ : Z := 2.
Definition after_steps (s : state world_) (es : list event) : state world_ :=
  match foreach es main_step s with Ret _ s' => s' | Halt _ s' => s' end.
Definition start : state world_ := start_state PmBase.Demo.no_call [].
Definition booted : state world_ :=
  Eval vm_compute in match sef_cb_init_fresh start with Ret _ s => s | Halt _ s => s end.
(** Init forks, and its child, in slot 4, forks too. *)
Definition two_forks : list event :=
  [Message (message 3 fork_); Message (from_vfs PM_FORK_REPLY 1028);
   Message (message 1028 fork_); Message (from_vfs PM_FORK_REPLY 1029)].
Definition family : state world_ := Eval vm_compute in after_steps booted two_forks.
(** The child exits while init waits; the clock ticks; init is killed. *)
Definition ends : list event :=
  [Message (message 3 WAIT); Message (message 1028 1 <| m1_i1 := 7 |>); Message (from_vfs PM_EXIT_REPLY 1028);
   Notification (message (-3) 0); Message (message 3 WAIT); KernelSignal 1029 SIGKILL].

(** Each event is one that PM may rely on. *)
Ltac heard_request k :=
  unfold request_ok; match goal with |- if ?b then _ else _ => let v := eval vm_compute in b in change b with v end; cbv iota;
  first
  [ intros h Hh; vm_compute in Hh; injection Hh as <-; split; [done|right; by vm_compute]
  | intros _; right; exists k; split; [done|]; eexists; split; [vm_compute; reflexivity|by vm_compute]
  | by intros ].
Ltac heard_message i k :=
  apply heard_cons;
  [ eexists i, _; split; [split; [vm_compute; reflexivity|by vm_compute]|]; intros _; heard_request k
  | intros ? Hrun; unfold turn in Hrun; vm_compute in Hrun; injection Hrun as <- ].
Lemma two_forks_heard es : heard family es -> heard booted (two_forks ++ es).
Proof.
  intros Hes. unfold two_forks. cbn [app].
  heard_message 3 0. heard_message 1 4. heard_message 4 0. heard_message 1 5. exact Hes.
Qed.
Lemma ends_heard : heard family ends.
Proof.
  unfold ends. heard_message 3 0. heard_message 4 0. heard_message 1 4.
  apply heard_cons; [by right|]. intros ? Hrun; unfold turn in Hrun; vm_compute in Hrun; injection Hrun as <-.
  heard_message 3 0. apply heard_cons; [by split|]. intros. apply heard_nil.
Qed.

(** ** What the promises leave out *)
(** A tracer that resumes a process with SIGTERM while the first stop was not collected, waits,
    and resumes it with SIGKILL: the process ends, and then PM wants to deliver the SIGTERM
    that is pending for it, and panics. *)
Definition trace (req sig : Z) : event := Message (message 3 26 <| m1_i1 := 6 |> <| m2_i2 := req |> <| m2_l2 := sig |>).
Definition resumed : state world_ :=
  after_steps family [trace T_ATTACH 0; trace T_RESUME SIGTERM; Message (message 3 WAIT)].
Example resume_dead_panics :
  match main_step (trace T_RESUME SIGKILL) resumed with Halt e _ => Some e | _ => None end = Some Panic.
Proof. by vm_compute. Qed.
(** A leader of a group ends on its own, and the group is hung up; it is killed by a process
    of another group, and nobody is told. *)
Definition session (me : Z) : state world_ :=
  family <| procs := aupd 4 (fun p => p <| mp_procgrp := 6 |>) (aupd 5 (fun p => p <| mp_procgrp := 6 |>) (procs family)) |>
         <| mp := me |>.
Definition dead (i : Z) (x : outcome (state world_) unit) : option bool :=
  match x with Ret _ s => (fun p => has (mp_flags p) EXITING) <$> aget (procs s) i | _ => None end.
Example hangup_of_caller :
  dead 5 (sig_proc 4 SIGKILL true false (session 4)) = Some true /\
  dead 5 (sig_proc 4 SIGKILL true false (session 3)) = Some false /\
  dead 4 (sig_proc 4 SIGKILL true false (session 3)) = Some true.
Proof. by vm_compute. Qed.
(** SIGSTOP may be ignored. *)
Definition ignores_stop : state world_ :=
  after_steps family [Message (message 1028 71 <| m1_i2 := SIGSTOP |> <| m1_p1 := SIG_IGN |>)].
Example sigstop_ignored :
  (fun p => sigismember (mp_ignore p) SIGSTOP) <$> aget (procs ignores_stop) 4 = Some true.
Proof. by vm_compute. Qed.

(** ** The promises *)
Lemma pm_main_safe_witness :
  exists s', main (two_forks ++ ends) start = Ret tt s' /\ wf s' /\
    map mp_flags (procs s') = map mp_flags (procs (after_steps family ends)).
Proof.
  destruct (pm_main_safe PmBase.Demo.no_call [] (two_forks ++ ends)) as (s' & Hrun & Hwf).
  - intros s Hs. vm_compute in Hs. injection Hs as <-. apply two_forks_heard, ends_heard.
  - exists s'. split; [exact Hrun|]. split; [exact Hwf|]. vm_compute in Hrun. injection Hrun as <-. by vm_compute.
Defined.
Lemma booted_wf : wf booted.
Proof.
  destruct (wp_never_run _ _ _ (init_fresh_ok PmBase.Demo.no_call [])) as (r & s & Hrun & _ & Hwf).
  vm_compute in Hrun. injection Hrun as <- <-. exact Hwf.
Qed.
Lemma family_wf : wf family.
Proof.
  destruct (wp_never_run _ _ _ (heard_safe (two_forks ++ []) booted booted_wf (two_forks_heard [] (heard_nil _)))) as ([] & s & Hrun & Hwf).
  vm_compute in Hrun. injection Hrun as <-. exact Hwf.
Qed.
Lemma pm_step_wf_witness :
  exists s', turn (Message (message 1028 1)) family s' /\ wf s'.
Proof.
  apply pm_step_wf; [exact family_wf|].
  eexists 4, _; split; [split; [vm_compute; reflexivity|by vm_compute]|]; intros _; heard_request 0.
Defined.
(** The child is killed: its own child goes to init, and VFS is to clean up. *)
Lemma sig_proc_ends_witness :
  exists s', sig_proc 4 SIGKILL true true family = Ret tt s' /\ only_ends family s' /\
    world s' = world family ++ [PmBase.Demo.Stop 1028; PmBase.Demo.Vfs (PM_EXIT 1028)].
Proof.
  destruct (sig_proc_ends family 4 (life_of (nth 4 (procs family) (PmBase.Demo.free))) SIGKILL true true) as (s' & Hrun & He);
    [exact family_wf|by vm_compute|by vm_compute|by split|done|].
  exists s'. split; [exact Hrun|]. split; [exact He|]. vm_compute in Hrun. injection Hrun as <-. by vm_compute.
Defined.
Lemma exit_proc_orphans_witness :
  exists s', exit_proc sig_proc 4 7 false family = Ret tt s' /\ wf s' /\ ended_slot family s' 4 /\
    map mp_parent (procs s') = [2; 2; 3; 3; 3; 3; 0; 0].
Proof.
  destruct (exit_proc_orphans family 4 (life_of (nth 4 (procs family) (PmBase.Demo.free))) 7 false) as (s' & Hrun & Hwf & He);
    [exact family_wf|by vm_compute..|].
  exists s'. split; [exact Hrun|]. split; [exact Hwf|]. split; [exact He|].
  vm_compute in Hrun. injection Hrun as <-. by vm_compute.
Defined.
Definition forking : state world_ := received family (message 1028 fork_) 4.
Lemma do_fork_spec_witness :
  exists r s', do_fork forking = Ret r s' /\ wf s' /\ r = SUSPEND /\ procs_in_use s' = 7 /\
    map mp_parent (procs s') = [2; 2; 3; 3; 3; 4; 4; 0].
Proof.
  destruct (do_fork_spec forking (lives forking) (procs_in_use forking) (life_of (nth 4 (procs family) (PmBase.Demo.free))))
    as (r & s' & Hrun & Hwf & _).
  - assert (wf forking) as (L & n & Hs & T & Hse) by (apply wf_received; [exact family_wf|by split]).
    pose proof (st_lives _ _ _ _ Hs) as HL. pose proof (st_count _ _ _ _ Hs) as Hn. subst L n.
    split; [exact Hs|exact T|exact Hse|by vm_compute..].
  - exists r, s'. split; [exact Hrun|]. split; [exact Hwf|]. vm_compute in Hrun. injection Hrun as <- <-. by vm_compute.
Defined.

(** ** Single calls *)
Lemma ticks_from_timeval_spec_witness :
  ticks_from_timeval (mk_timeval 2 500000) = Some 150 /\ ticks_from_timeval (mk_timeval 71582788 300000) = Some 2.
Proof. split; rewrite ticks_from_timeval_spec; by vm_compute. Defined.
(** Init asks whom it may signal: all but itself, and nobody in group 77. *)
Lemma check_sig_null_witness :
  check_sig sig_proc (-1) 0 false (family <| mp := 3 |>) = Ret OK (family <| mp := 3 |>) /\
  check_sig sig_proc (-77) 0 false (family <| mp := 3 |>) = Ret ESRCH (family <| mp := 3 |>).
Proof.
  split; rewrite (check_sig_null _ _ _ _ (nth 3 (procs family) (PmBase.Demo.free))); by vm_compute.
Defined.
Definition armed : state world_ :=
  family <| procs := aupd 4 (fun p => p <| mp_interval := [0; 180; 0] |>) (procs family) |>.
Definition secs (n : Z) : timeval := mk_timeval n 0.
Lemma getset_vtimer_reports_new_witness :
  exists s', getset_vtimer 4 ITIMER_VIRTUAL (Some (mk_itimerval (secs 2) (secs 1))) true armed =
    Ret (mk_itimerval (secs 1) (secs 3)) s'.
Proof.
  eexists. rewrite (getset_vtimer_reports_new 4 ITIMER_VIRTUAL (nth 4 (procs armed) (PmBase.Demo.free)) armed _ 180 120 60 VT_VIRTUAL 0 (world armed) (secs 3) (secs 1)); try by vm_compute.
  by left.
Defined.
(** The child has exited, and VFS has answered: init is told. *)
Definition collecting : state world_ :=
  received (after_steps family [Message (message 1028 1 <| m1_i1 := 7 |>); Message (from_vfs PM_EXIT_REPLY 1028)])
    (message 3 WAIT) 3.
Lemma do_waitpid_spec_witness :
  exists p me, aget (procs collecting) 4 = Some p /\ aget (procs collecting) 3 = Some me /\
    do_waitpid collecting = Ret SUSPEND (reap collecting 4 p me) /\ wait_status p = 7 * 256 /\
    map mp_pid (procs (reap collecting 4 p me)) = [3; 4; 5; 1; 0; 7; 0; 0].
Proof.
  exists (nth 4 (procs collecting) (PmBase.Demo.free)), (nth 3 (procs collecting) (PmBase.Demo.free)).
  split; [by vm_compute|]. split; [by vm_compute|].
  pose proof (do_waitpid_spec collecting (nth 3 (procs collecting) (PmBase.Demo.free))) as Hx.
  assert (first_index (ready (mp collecting) (wait_arg collecting (nth 3 (procs collecting) PmBase.Demo.free))) (procs collecting) = Some 4) as Hf
    by by vm_compute.
  cbv zeta in Hx. rewrite Hf in Hx. specialize (Hx ltac:(by vm_compute) ltac:(by vm_compute) ltac:(by vm_compute) ltac:(by vm_compute) ltac:(by vm_compute)
    (nth 4 (procs collecting) PmBase.Demo.free) ltac:(by vm_compute) ltac:(by vm_compute)).
  assert (stopped_signal (mp collecting) (nth 4 (procs collecting) PmBase.Demo.free) = None) as Hst by by vm_compute.
  rewrite Hst in Hx. split; [exact Hx|]. clear Hx Hf Hst. by vm_compute.
Defined.
End Demo.
