(* ===== verification/VfsBase.v ===== *)
(** The virtual file system server, [src/Project_2/servers/vfs]: its tables ([fproc.h], [file.h],
    [vnode.h], [lock.h], [const.h]), its global variables ([glo.h]), the names of the fields of
    messages ([param.h]), the vnodes ([vnode.c]), endpoints ([utility.c]) and the reply
    ([main.c]).  A pointer into a table is the index of its slot. *)
From S2P Require Import Prelude Minix.
Local Open Scope Z_scope.

(** ** Data *)
(** [struct fproc]; the file descriptor sets are bit masks. *)
Record fproc := mk_fproc {
  fp_flags : Z;
  fp_umask : Z;
  fp_wd : option Z;
  fp_rd : option Z;
  fp_filp : list (option Z);
  fp_filp_inuse : Z;
  fp_realuid : Z;
  fp_effuid : Z;
  fp_realgid : Z;
  fp_effgid : Z;
  fp_ngroups : Z;
  fp_sgroups : list Z;
  fp_tty : Z;
  fp_block_fd : Z;
  fp_block_callnr : Z;
  fp_buffer : Z;
  fp_nbytes : Z;
  fp_cum_io_partial : Z;
  fp_revived : bool;  (* REVIVING or NOT_REVIVING *)
  fp_task : Z;
  fp_blocked_on : Z;
  fp_ioproc : Z;
  fp_grant : Z;
  fp_sesldr : Z;
  fp_execced : Z;
  fp_pid : Z;
  fp_cloexec_set : Z;
  fp_endpoint : Z;
}.
#[export] Instance eta_fproc : Eta fproc := fun r =>
  mk_fproc
    (fp_flags r) (fp_umask r) (fp_wd r) (fp_rd r) (fp_filp r) (fp_filp_inuse r) (fp_realuid r)
    (fp_effuid r) (fp_realgid r) (fp_effgid r) (fp_ngroups r) (fp_sgroups r) (fp_tty r)
    (fp_block_fd r) (fp_block_callnr r) (fp_buffer r) (fp_nbytes r) (fp_cum_io_partial r)
    (fp_revived r) (fp_task r) (fp_blocked_on r) (fp_ioproc r) (fp_grant r) (fp_sesldr r)
    (fp_execced r) (fp_pid r) (fp_cloexec_set r) (fp_endpoint r).
(** [struct filp], without the fields that belong to [select]. *)
Record filp := mk_filp {
  filp_mode : Z;
  filp_flags : Z;
  filp_state : Z;
  filp_count : Z;
  filp_vno : option Z;
  filp_pos : Z;  (* u64_t *)
  filp_pipe_select_ops : Z;
}.
#[export] Instance eta_filp : Eta filp := fun r =>
  mk_filp
    (filp_mode r) (filp_flags r) (filp_state r) (filp_count r) (filp_vno r) (filp_pos r)
    (filp_pipe_select_ops r).
Record vnode := mk_vnode {
  v_fs_e : Z;
  v_mapfs_e : Z;
  v_inode_nr : Z;
  v_mapinode_nr : Z;
  v_mode : Z;
  v_uid : Z;
  v_gid : Z;
  v_size : Z;
  v_ref_count : Z;
  v_fs_count : Z;
  v_mapfs_count : Z;
  v_pipe : Z;
  v_pipe_rd_pos : Z;
  v_pipe_wr_pos : Z;
  v_bfs_e : Z;
  v_dev : Z;
  v_sdev : Z;
  v_vmnt : option Z;
}.
#[export] Instance eta_vnode : Eta vnode := fun r =>
  mk_vnode
    (v_fs_e r) (v_mapfs_e r) (v_inode_nr r) (v_mapinode_nr r) (v_mode r) (v_uid r) (v_gid r)
    (v_size r) (v_ref_count r) (v_fs_count r) (v_mapfs_count r) (v_pipe r) (v_pipe_rd_pos r)
    (v_pipe_wr_pos r) (v_bfs_e r) (v_dev r) (v_sdev r) (v_vmnt r).
Record file_lock := mk_file_lock {
  lock_type : Z;
  lock_pid : Z;
  lock_vnode : Z;
  lock_first : Z;
  lock_last : Z;
}.
#[export] Instance eta_file_lock : Eta file_lock := fun r =>
  mk_file_lock
    (lock_type r) (lock_pid r) (lock_vnode r) (lock_first r) (lock_last r).
(** The message received: the fields of [param.h] and [com.h]. *)
Record vmessage := mk_vmessage {
  m_source : Z;
  m_type : Z;
  m1_i1 : Z;
  m1_i2 : Z;
  m1_i3 : Z;
  m1_p1 : Z;
  m1_p2 : Z;
  IO_ENDPT : Z;  (* of com.h, as the fields below *)
  COUNT : Z;
  ADDRESS : option Z;
  PM_PROC : Z;
  PM_PPROC : Z;
  PM_CPID : Z;
  PM_EID : Z;
  PM_RID : Z;
  PM_GROUP_NO : Z;
  PM_GROUP_ADDR : Z;
  PM_PATH : Z;
  PM_PATH_LEN : Z;
  PM_FRAME : Z;
  PM_FRAME_LEN : Z;
}.
#[export] Instance eta_vmessage : Eta vmessage := fun r =>
  mk_vmessage
    (m_source r) (m_type r) (m1_i1 r) (m1_i2 r) (m1_i3 r) (m1_p1 r) (m1_p2 r) (IO_ENDPT r)
    (COUNT r) (ADDRESS r) (PM_PROC r) (PM_PPROC r) (PM_CPID r) (PM_EID r) (PM_RID r)
    (PM_GROUP_NO r) (PM_GROUP_ADDR r) (PM_PATH r) (PM_PATH_LEN r) (PM_FRAME r)
    (PM_FRAME_LEN r).
Definition fd (m : vmessage) : Z := m1_i1 m.
Definition fd2 (m : vmessage) : Z := m1_i2 m.
Definition addr (m : vmessage) : Z := m1_i3 m.
Definition nbytes (m : vmessage) : Z := m1_i2 m.
Definition request (m : vmessage) : Z := m1_i2 m.
Definition buffer (m : vmessage) : Z := m1_p1 m.
Definition name1 (m : vmessage) : Z := m1_p1 m.
(** The message to answer with. *)
Record vreply := mk_vreply {
  reply_type : rc + Z;  (* the result of a call, or the type of an answer to PM *)
  reply_i1 : Z;
  reply_i2 : Z;
  out_PM_PROC : Z;
  out_PM_STATUS : rc;
  out_PM_PC : Z;
  out_ADDRESS : option Z;
}.
#[export] Instance eta_vreply : Eta vreply := fun r =>
  mk_vreply
    (reply_type r) (reply_i1 r) (reply_i2 r) (out_PM_PROC r) (out_PM_STATUS r) (out_PM_PC r)
    (out_ADDRESS r).
(** [struct flock], and what VFS reads of [struct node_details]. *)
Record flock := mk_flock { l_type : Z; l_whence : Z; l_start : Z; l_len : Z; l_pid : Z }.
Record node_details := mk_node_details { fs_e : Z; inode_nr : Z; fmode : Z }.

(** ** Constants *)
Definition NR_FILPS : Z := 512.
Definition NR_LOCKS : Z := 8.
Definition NR_VNODES : Z := 512.
Definition FP_BLOCKED_ON_NONE : Z := 0.
Definition FP_BLOCKED_ON_PIPE : Z := 1.
Definition FP_BLOCKED_ON_LOCK : Z := 2.
Definition FP_BLOCKED_ON_POPEN : Z := 3.
Definition FP_BLOCKED_ON_SELECT : Z := 4.
Definition FP_BLOCKED_ON_DOPEN : Z := 5.
Definition FP_BLOCKED_ON_OTHER : Z := 6.
Definition FILP_CLOSED : Z := 0.
Definition FS_NORMAL : Z := 0.
Definition NO_PIPE : Z := 0.
Definition I_PIPE : Z := 1.
Definition PID_FREE : Z := 0.
Definition SUSP_REOPEN : Z := 1.
Definition DUP_MASK : Z := 64.
Definition FP_EXITING : Z := 1.
(** [minix/const.h], [fcntl.h], [limits.h], [minix/callnr.h], [minix/com.h], [sys/select.h]
    and [minix/safecopies.h]. *)
Class VfsHeaders := {
  errno : rc -> Z;  (* the number of a result *)
  OPEN_MAX : Z; NGROUPS : Z; sizeof_gid_t : Z;
  I_TYPE : Z; I_REGULAR : Z; I_CHAR_SPECIAL : Z; I_BLOCK_SPECIAL : Z; I_NAMED_PIPE : Z;
  R_BIT : Z; W_BIT : Z; NO_DEV : Z; MAX_FILE_POS : Z; PIPE_BUF : Z;
  F_DUPFD : Z; F_GETFD : Z; F_SETFD : Z; F_GETFL : Z; F_SETFL : Z;
  F_GETLK : Z; F_SETLK : Z; F_SETLKW : Z; F_FREESP : Z;
  F_RDLCK : Z; F_WRLCK : Z; F_UNLCK : Z; FD_CLOEXEC : Z;
  SEEK_SET : Z; SEEK_CUR : Z; SEEK_END : Z;
  O_NONBLOCK : Z; O_APPEND : Z; O_REOPEN : Z; O_ACCMODE : Z; O_RDONLY : Z; O_WRONLY : Z;
  READ : Z; WRITE : Z; SEL_RD : Z; SEL_WR : Z;
  GRANT_INVALID : Z; GRANT_VALID : Z -> bool;
  PFS_PROC_NR : Z; ROOT_FS_E : Z;
  PM_SETUID : Z; PM_SETGID : Z; PM_SETSID : Z; PM_EXEC : Z; PM_EXIT : Z; PM_DUMPCORE : Z;
  PM_FORK : Z; PM_SRV_FORK : Z; PM_SETGROUPS : Z; PM_UNPAUSE : Z; PM_REBOOT : Z;
  PM_SETUID_REPLY : Z; PM_SETGID_REPLY : Z; PM_SETSID_REPLY : Z; PM_EXEC_REPLY : Z; PM_EXIT_REPLY : Z;
  PM_CORE_REPLY : Z; PM_FORK_REPLY : Z; PM_SRV_FORK_REPLY : Z; PM_SETGROUPS_REPLY : Z;
  PM_UNPAUSE_REPLY : Z; PM_REBOOT_REPLY : Z;
}.
(** ** The outside
    The requests to the file servers, the drivers and the kernel. *)
Class VfsEnv (W : Type) := {
  in_flock : Z -> Z -> W -> (rc * flock) * W;
  out_flock : Z -> Z -> flock -> W -> rc * W;
  in_groups : Z -> Z -> Z -> W -> (rc * list Z) * W;
  req_putnode : Z -> Z -> Z -> W -> unit * W;
  req_flush : Z -> Z -> W -> unit * W;
  req_ftrunc : Z -> Z -> Z -> Z -> W -> rc * W;
  req_newnode : Z -> Z -> Z -> Z -> Z -> W -> (rc * node_details) * W;
  dmap_cancel : Z -> Z -> Z -> Z -> bool -> W -> rc * W;  (* device, task, process, grant, reading *)
  cpf_revoke : Z -> W -> bool * W;  (* true: it failed *)
  sendnb : Z -> vreply -> W -> rc * W;
  send_pm : vreply -> W -> rc * W;
  sys_kill_pipe : Z -> W -> unit * W;  (* SIGPIPE *)
  req_sync_all : W -> unit * W;
}.

(** ** The state *)
Record state (W : Type) := mk_state {
  fprocs : list fproc;  (* fproc *)
  filps : list filp;  (* filp *)
  vnodes : list vnode;  (* vnode *)
  file_locks : list file_lock;  (* file_lock *)
  fp : Z;
  susp_count : Z;
  nr_locks : Z;
  reviving : Z;
  err_code : rc;
  who_p : Z;
  who_e : Z;
  call_nr : Z;
  m_in : vmessage;
  m_out : vreply;
  world : W;
}.
Arguments mk_state {W}.
Arguments fprocs {W}.
Arguments filps {W}.
Arguments vnodes {W}.
Arguments file_locks {W}.
Arguments fp {W}.
Arguments susp_count {W}.
Arguments nr_locks {W}.
Arguments reviving {W}.
Arguments err_code {W}.
Arguments who_p {W}.
Arguments who_e {W}.
Arguments call_nr {W}.
Arguments m_in {W}.
Arguments m_out {W}.
Arguments world {W}.
#[export] Instance eta_state (W : Type) : Eta (state W) := fun r =>
  mk_state
    (fprocs r) (filps r) (vnodes r) (file_locks r) (fp r) (susp_count r) (nr_locks r)
    (reviving r) (err_code r) (who_p r) (who_e r) (call_nr r) (m_in r) (m_out r) (world r).
(** Calls of files of the server that are not part of this model: [select.c], [device.c], [exec.c]
    and [mount.c]. *)
Class VfsCalls (W : Type) := {
  dev_close : Z -> Z -> M (state W) unit;
  select_callback : Z -> Z -> M (state W) unit;
  select_forget : Z -> M (state W) unit;
  select_unsuspend_by_endpt : Z -> M (state W) unit;
  pm_exec : Z -> Z -> Z -> Z -> Z -> M (state W) (rc * Z);
  unmount_all : M (state W) unit;
}.

(** ** Sets of file descriptors, and [off_t] *)
Definition FD_ISSET (n set : Z) : bool := Z.testbit set n.
Definition FD_SET (n set : Z) : Z := Z.setbit set n.
Definition FD_CLR (n set : Z) : Z := Z.clearbit set n.
Definition off_t (z : Z) : option Z := if (- 2 ^ 31 <=? z) && (z <? 2 ^ 31) then Some z else None.
Definition has (x f : Z) : bool := negb (Z.land x f =? 0).
Definition fp_is_blocked (p : fproc) : bool := negb (fp_blocked_on p =? FP_BLOCKED_ON_NONE).

Section operations.
Context `{MinixHeaders} `{VfsHeaders} {W : Type} `{VfsEnv W}.
Abbreviation cmd := (M (state W)).

Definition env {A} (f : W -> A * W) : cmd A :=
  s ← get; let '(a, w) := f (world s) in modify (fun s => s <| world := w |>);; mret a.
Definition fproc_at (i : Z) : cmd fproc := s ← get; deref (aget (fprocs s) i).
Definition set_fproc (i : Z) (f : fproc -> fproc) : cmd unit :=
  fproc_at i;; modify (fun s => s <| fprocs := aupd i f (fprocs s) |>).
Definition filp_at (i : Z) : cmd filp := s ← get; deref (aget (filps s) i).
Definition upd_filp (i : Z) (f : filp -> filp) : cmd unit :=
  filp_at i;; modify (fun s => s <| filps := aupd i f (filps s) |>).
Definition vnode_at (i : Z) : cmd vnode := s ← get; deref (aget (vnodes s) i).
Definition upd_vnode (i : Z) (f : vnode -> vnode) : cmd unit :=
  vnode_at i;; modify (fun s => s <| vnodes := aupd i f (vnodes s) |>).
Definition lock_at (i : Z) : cmd file_lock := s ← get; deref (aget (file_locks s) i).
Definition upd_lock (i : Z) (f : file_lock -> file_lock) : cmd unit :=
  lock_at i;; modify (fun s => s <| file_locks := aupd i f (file_locks s) |>).
(** [rfp->fp_filp[i]] *)
Definition fd_slot (p : fproc) (i : Z) : cmd (option Z) := deref (aget (fp_filp p) i).
Definition set_fd (n i : Z) (v : option Z) : cmd unit :=
  p ← fproc_at n; fd_slot p i;; set_fproc n (fun p => p <| fp_filp := aupd i (fun _ => v) (fp_filp p) |>).

(** ** [vnode.c] *)
Definition get_free_vnode : cmd (option Z) :=
  s ← get;
  match first_index (fun v => v_ref_count v =? 0) (vnodes s) with
  | Some i =>
      upd_vnode i (fun v => v <| v_pipe := NO_PIPE |> <| v_uid := -1 |> <| v_gid := -1 |> <| v_sdev := NO_DEV |>
        <| v_mapfs_e := 0 |> <| v_mapinode_nr := 0 |>);;
      mret (Some i)
  | None => modify (fun s => s <| err_code := ENFILE |>);; mret None
  end.
Definition find_vnode (fs_e numb : Z) : cmd (option Z) :=
  s ← get;
  mret (first_index (fun v => (0 <? v_ref_count v) && (v_inode_nr v =? numb) && (v_fs_e v =? fs_e)) (vnodes s)).
Definition ASSERTVP (v : Z) : cmd unit := assert_ ((0 <=? v) && (v <? NR_VNODES)).
Definition dup_vnode (vp : Z) : cmd unit :=
  ASSERTVP vp;; upd_vnode vp (fun v => v <| v_ref_count := v_ref_count v + 1 |>).
Definition vnode_clean_refs (vp : Z) : cmd unit :=
  v ← vnode_at vp;
  if v_fs_count v <=? 1 then mret tt else
  env (req_putnode (v_fs_e v) (v_inode_nr v) (v_fs_count v - 1));;
  upd_vnode vp (fun v => v <| v_fs_count := 1 |>).
Definition put_vnode (vp : Z) : cmd unit :=
  ASSERTVP vp;;
  v ← vnode_at vp;
  if 1 <? v_ref_count v then
    upd_vnode vp (fun v => v <| v_ref_count := v_ref_count v - 1 |>);;
    if 256 <? v_fs_count v then vnode_clean_refs vp else mret tt
  else
  if v_ref_count v <=? 0 then halt Panic else
  if v_fs_count v <=? 0 then halt Panic else
  env (req_putnode (v_fs_e v) (v_inode_nr v) (v_fs_count v));;
  (if negb (v_mapfs_e v =? 0) && negb (v_mapinode_nr v =? v_inode_nr v) && negb (v_mapfs_e v =? v_fs_e v) then
     env (req_putnode (v_mapfs_e v) (v_mapinode_nr v) (v_mapfs_count v))
   else mret tt);;
  upd_vnode vp (fun v => v <| v_fs_count := 0 |> <| v_ref_count := 0 |> <| v_pipe := NO_PIPE |> <| v_sdev := NO_DEV |>
    <| v_mapfs_e := 0 |> <| v_mapinode_nr := 0 |> <| v_mapfs_count := 0 |>).

(** ** [utility.c]: [isokendpt] and [okendpt] *)
Definition isokendpt (e : Z) : cmd (rc * Z) :=
  let p := _ENDPOINT_P e in
  if e =? NONE then mret (EDEADEPT, p) else
  if (p <? 0) || (NR_PROCS <=? p) then mret (EDEADEPT, p) else
  f ← fproc_at p;
  if negb (fp_endpoint f =? e) then
    assert_ (if fp_endpoint f =? NONE then fp_pid f =? PID_FREE else negb (fp_pid f =? PID_FREE));;
    mret (EDEADEPT, p)
  else mret (OK, p).
Definition okendpt (e : Z) : cmd Z :=
  '(r, p) ← isokendpt e; if negb (is_ok r) then halt Panic else mret p.

(** ** [main.c] *)
Definition reply (whom : Z) (result : rc) : cmd unit :=
  modify (fun s => s <| m_out := m_out s <| reply_type := inl result |> |>);;
  s ← get; env (sendnb whom (m_out s));; mret tt.

(** ** [pipe.c]: [revive] *)
Definition revive (proc_nr_e : Z) (returned : rc) : cmd unit :=
  '(r, n) ← isokendpt proc_nr_e;
  if negb (is_ok r) then mret tt else
  p ← fproc_at n;
  if negb (fp_is_blocked p) || fp_revived p then mret tt else
  let blocked_on := fp_blocked_on p in
  if (blocked_on =? FP_BLOCKED_ON_PIPE) || (blocked_on =? FP_BLOCKED_ON_LOCK) then
    set_fproc n (fun p => p <| fp_revived := true |>);;
    modify (fun s => s <| reviving := reviving s + 1 |>)
  else
  set_fproc n (fun p => p <| fp_blocked_on := FP_BLOCKED_ON_NONE |>);;
  if blocked_on =? FP_BLOCKED_ON_DOPEN then
    let fd_nr := fp_block_fd p in
    if errno returned <? 0 then
      f ← fd_slot p fd_nr;
      set_fd n fd_nr None;;
      set_fproc n (fun p => p <| fp_filp_inuse := FD_CLR fd_nr (fp_filp_inuse p) |>);;
      f ← deref f;
      q ← filp_at f;
      if negb (filp_count q =? 1) then halt Panic else
      upd_filp f (fun q => q <| filp_count := 0 |>);;
      v ← deref (filp_vno q);
      put_vnode v;;
      upd_filp f (fun q => q <| filp_vno := None |>);;
      reply proc_nr_e returned
    else reply proc_nr_e (Rc fd_nr)
  else if blocked_on =? FP_BLOCKED_ON_POPEN then reply proc_nr_e (Rc (fp_block_fd p))
  else if blocked_on =? FP_BLOCKED_ON_SELECT then reply proc_nr_e returned
  else
    set_fproc n (fun p => p <| fp_nbytes := errno returned |>);;
    (if GRANT_VALID (fp_grant p) then
       b ← env (cpf_revoke (fp_grant p));
       if b : bool then halt Panic else set_fproc n (fun p => p <| fp_grant := GRANT_INVALID |>)
     else mret tt);;
    reply proc_nr_e returned.
End operations.
