(* ===== verification/VfsLock.v ===== *)
(** POSIX record locks, [src/Project_2/servers/vfs/lock.c].  The table of locks is related to
    what it stands for: which process holds which kind of lock on which byte of which file. *)
From S2P Require Import Prelude Minix VfsBase.
Local Open Scope Z_scope.

Section operations.
Context `{MinixHeaders} `{VfsHeaders} {W : Type} `{VfsEnv W}.
Abbreviation cmd := (M (state W)).

Definition lock_revive : cmd unit :=
  foreach (seqZ 0 NR_PROCS) (fun i =>
    p ← fproc_at i;
    if fp_pid p =? PID_FREE then mret tt else
    if fp_blocked_on p =? FP_BLOCKED_ON_LOCK then revive (fp_endpoint p) OK else mret tt).

(** [suspend], of [pipe.c]; the assertion on the grant always holds. *)
Definition suspend (why : Z) : cmd unit :=
  (if why =? FP_BLOCKED_ON_POPEN then modify (fun s => s <| susp_count := susp_count s + 1 |>) else mret tt);;
  s ← get;
  p ← fproc_at (fp s);
  assert_ ((fp_grant p =? GRANT_INVALID) || negb (GRANT_VALID (fp_grant p)));;
  set_fproc (fp s) (fun p => p <| fp_blocked_on := why |>
    <| fp_block_fd := fd (m_in s) |> <| fp_block_callnr := call_nr s |>
    <| fp_flags := Z.ldiff (fp_flags p) SUSP_REOPEN |>
    <| fp_buffer := if why =? FP_BLOCKED_ON_LOCK then name1 (m_in s) else buffer (m_in s) |>
    <| fp_nbytes := if why =? FP_BLOCKED_ON_LOCK then request (m_in s) else nbytes (m_in s) |>).

(** The first and the last byte of a request; None: the call fails with EINVAL. *)
Definition lock_region (q : filp) (v : vnode) (l : flock) : cmd (option (Z * Z)) :=
  first ← (if l_whence l =? SEEK_SET then mret (Some 0)
           else if l_whence l =? SEEK_CUR then
             if negb (Z.shiftr (filp_pos q) 32 =? 0) then halt Panic else mret (Some (s32 (filp_pos q)))
           else if l_whence l =? SEEK_END then mret (Some (v_size v))
           else mret None);
  match first with
  | None => mret None
  | Some first =>
      sum ← deref (off_t (first + l_start l));
      if (0 <? l_start l) && (sum <? first) then mret None else
      if (l_start l <? 0) && (first <? sum) then mret None else
      let first := sum in
      last ← (e ← deref (off_t (first + l_len l)); deref (off_t (e - 1)));
      let last := if l_len l =? 0 then MAX_FILE_POS else last in
      if last <? first then mret None else mret (Some (first, last))
  end.

(** What the search of the table carries: the first slot that is free, the lock that is in
    conflict, whether something was unlocked, and the result if it is decided. *)
Record search := mk_search {
  empty : option Z; conflict : option Z; unlocking : bool; decided : option rc
}.
#[export] Instance eta_search : Eta search := fun r => mk_search (empty r) (conflict r) (unlocking r) (decided r).
(** The lock in a slot is in the way of a request. *)
Definition in_way (ltype vno pid first last : Z) (l : file_lock) : bool :=
  (lock_vnode l =? vno) && negb (last <? lock_first l) && negb (lock_last l <? first) &&
  negb ((ltype =? F_RDLCK) && (lock_type l =? F_RDLCK)) && negb (negb (ltype =? F_UNLCK) && (lock_pid l =? pid)).
(** Part of the lock in slot [i] is unlocked; false: there is no slot for the rest. *)
Definition unlock_part (i first last : Z) : cmd bool :=
  l ← lock_at i;
  if (first <=? lock_first l) && (lock_last l <=? last) then
    upd_lock i (fun l => l <| lock_type := 0 |>);;
    modify (fun s => s <| nr_locks := nr_locks s - 1 |>);; mret true
  else if first <=? lock_first l then
    upd_lock i (fun l => l <| lock_first := last + 1 |>);; mret true
  else if lock_last l <=? last then
    upd_lock i (fun l => l <| lock_last := first - 1 |>);; mret true
  else
    s ← get;
    if nr_locks s =? NR_LOCKS then mret false else
    let i2 := default NR_LOCKS (first_index (fun l => lock_type l =? 0) (file_locks s)) in
    upd_lock i2 (fun _ => l <| lock_first := last + 1 |>);;
    upd_lock i (fun l => l <| lock_last := first - 1 |>);;
    modify (fun s => s <| nr_locks := nr_locks s + 1 |>);; mret true.
Definition lock_step (req ltype vno pid first last : Z) (a : search) (i : Z) : cmd (search * bool) :=
  l ← lock_at i;
  if lock_type l =? 0 then
    mret (match empty a with None => a <| empty := Some i |> | Some _ => a end, false)
  else if negb (in_way ltype vno pid first last l) then mret (a, false)
  else
    let a := a <| conflict := Some i |> in
    if req =? F_GETLK then mret (a, true) else
    if (ltype =? F_RDLCK) || (ltype =? F_WRLCK) then
      if req =? F_SETLK then mret (a <| decided := Some EAGAIN |>, true)
      else suspend FP_BLOCKED_ON_LOCK;; mret (a <| decided := Some SUSPEND |>, true)
    else
      b ← unlock_part i first last;
      if b : bool then mret (a <| unlocking := true |>, false)
      else mret (a <| unlocking := true |> <| decided := Some ENOLCK |>, true).

(** What follows the search. *)
Definition lock_finish (req : Z) (l : flock) (vno pid first last : Z) (a : search) : cmd rc :=
  match decided a with
  | Some r => mret r
  | None =>
      (if unlocking a then lock_revive else mret tt);;
      s ← get;
      if req =? F_GETLK then
        out ← (match conflict a with
               | Some i =>
                   c ← lock_at i;
                   mret (mk_flock (lock_type c) SEEK_SET (lock_first c) (lock_last c - lock_first c + 1) (lock_pid c))
               | None => mret (mk_flock F_UNLCK (l_whence l) (l_start l) (l_len l) (l_pid l))
               end);
        env (out_flock (who_e s) (name1 (m_in s)) out)
      else if l_type l =? F_UNLCK then mret OK else
      match empty a with
      | None => mret ENOLCK
      | Some e =>
          upd_lock e (fun _ => mk_file_lock (l_type l) pid vno first last);;
          modify (fun s => s <| nr_locks := nr_locks s + 1 |>);;
          mret OK
      end
  end.
Definition lock_op (f req : Z) : cmd rc :=
  s ← get;
  let user_flock := name1 (m_in s) in
  '(r, l) ← env (in_flock (who_e s) user_flock);
  if negb (is_ok r) then mret EINVAL else
  let ltype := l_type l in
  q ← filp_at f;
  let mo := filp_mode q in
  if negb (ltype =? F_UNLCK) && negb (ltype =? F_RDLCK) && negb (ltype =? F_WRLCK) then mret EINVAL else
  if (req =? F_GETLK) && (ltype =? F_UNLCK) then mret EINVAL else
  vno ← deref (filp_vno q);
  v ← vnode_at vno;
  if negb (Z.land (v_mode v) I_TYPE =? I_REGULAR) then mret EINVAL else
  if negb (req =? F_GETLK) && (ltype =? F_RDLCK) && negb (has mo R_BIT) then mret EBADF else
  if negb (req =? F_GETLK) && (ltype =? F_WRLCK) && negb (has mo W_BIT) then mret EBADF else
  region ← lock_region q v l;
  match region with
  | None => mret EINVAL
  | Some (first, last) =>
      me ← fproc_at (fp s);
      a ← fold_break (seqZ 0 NR_LOCKS) (mk_search None None false None)
            (lock_step req ltype vno (fp_pid me) first last);
      lock_finish req l vno (fp_pid me) first last a
  end.
End operations.

(** ** What the table stands for *)
Section locks.
Context `{MinixHeaders} `{VfsHeaders} {W : Type} `{VfsEnv W}.
Implicit Types (s : state W) (T : list file_lock).

(** The constants of [fcntl.h] are different, and 0 is none of them. *)
Class LockLaws : Prop := {
  RDLCK_WRLCK : F_RDLCK <> F_WRLCK;
  RDLCK_UNLCK : F_RDLCK <> F_UNLCK;
  WRLCK_UNLCK : F_WRLCK <> F_UNLCK;
  RDLCK_used : F_RDLCK <> 0;
  WRLCK_used : F_WRLCK <> 0;
  GETLK_SETLK : F_GETLK <> F_SETLK;
  GETLK_SETLKW : F_GETLK <> F_SETLKW;
  SETLK_SETLKW : F_SETLK <> F_SETLKW;
}.

Definition covers (l : file_lock) (v p t b : Z) : Prop :=
  lock_type l = t /\ t <> 0 /\ lock_vnode l = v /\ lock_pid l = p /\ lock_first l <= b <= lock_last l.
(** Process [p] holds a lock of type [t] on byte [b] of file [v]. *)
Definition holds T (v p t b : Z) : Prop := exists i l, aget T i = Some l /\ covers l v p t b.
(** Two processes hold locks on the same byte only if both are locks for reading. *)
Definition exclusive T : Prop :=
  forall v b p1 t1 p2 t2, holds T v p1 t1 b -> holds T v p2 t2 b -> p1 <> p2 -> t1 = F_RDLCK /\ t2 = F_RDLCK.
Definition used (l : file_lock) : Z := if lock_type l =? 0 then 0 else 1.
(** A lock that is set. *)
Record lock_slot (l : file_lock) : Prop := {
  ls_type : lock_type l = F_RDLCK \/ lock_type l = F_WRLCK;
  ls_bytes : lock_first l <= lock_last l;
}.
Record lock_table T (n : Z) : Prop := {
  lt_length : Z.of_nat (length T) = NR_LOCKS;
  lt_count : n = sumZ used T;
  lt_slots i l : aget T i = Some l -> lock_type l <> 0 -> lock_slot l;
}.
Lemma lock_slot_at T n pre i post :
  lock_table T n -> seqZ 0 NR_LOCKS = pre ++ i :: post -> exists l, aget T i = Some l.
Proof.
  intros HT Hseq. apply aget_is_Some. rewrite (lt_length _ _ HT).
  assert (i ∈ seqZ 0 NR_LOCKS) as Hi by (rewrite Hseq; set_solver). by apply elem_of_seqZ in Hi.
Qed.
Lemma lock_slot_seq T n j k : lock_table T n -> aget T j = Some k -> j ∈ seqZ 0 NR_LOCKS.
Proof. intros HT Hk. apply elem_of_seqZ. pose proof (aget_range _ _ _ Hk). pose proof (lt_length _ _ HT). lia. Qed.
Definition with_locks s T (n : Z) : state W := s <| file_locks := T |> <| nr_locks := n |>.

(** The locks of the other slots. *)
Definition elsewhere T (i v p t b : Z) : Prop := exists j l, j <> i /\ aget T j = Some l /\ covers l v p t b.
Lemma holds_split T i l v p t b :
  aget T i = Some l -> holds T v p t b <-> covers l v p t b \/ elsewhere T i v p t b.
Proof.
  intros Hl. split.
  - intros (j & k & Hk & Hc). destruct (decide (j = i)) as [->|]; [left; congruence|right; by exists j, k].
  - intros [Hc|(j & k & _ & Hk & Hc)]; [by exists i, l|by exists j, k].
Qed.
Lemma elsewhere_aupd T i f v p t b : elsewhere (aupd i f T) i v p t b <-> elsewhere T i v p t b.
Proof. split; intros (j & k & Hj & Hk & Hc); exists j, k; (rewrite aget_aupd_ne in * by done); done. Qed.
Lemma holds_aupd T i l f v p t b :
  aget T i = Some l -> holds (aupd i f T) v p t b <-> covers (f l) v p t b \/ elsewhere T i v p t b.
Proof.
  intros Hl. rewrite (holds_split _ i (f l)) by (by rewrite aget_aupd_eq, Hl). by rewrite elsewhere_aupd.
Qed.
Lemma covers_free l v p t b : lock_type l = 0 -> ~ covers l v p t b.
Proof. intros Hl (? & ? & _). congruence. Qed.

Lemma used_count_free T : first_index (fun l => lock_type l =? 0) T = None -> sumZ used T = Z.of_nat (length T).
Proof.
  intros Hn%first_index_None. induction T as [|l T IH]; [done|]. apply list.Forall_cons in Hn as [Hl HT].
  rewrite sumZ_cons, IH by done. cbn [length]. unfold used. rewrite Hl. lia.
Qed.
Lemma free_slot T : sumZ used T <> Z.of_nat (length T) ->
  exists i l, first_index (fun l => lock_type l =? 0) T = Some i /\ aget T i = Some l /\ lock_type l = 0.
Proof.
  intros Hn. destruct (first_index _ T) as [i|] eqn:E; [|by rewrite (used_count_free _ E) in Hn].
  apply first_index_Some in E as (l & Hl & Hz & _). exists i, l. split_and!; [done|done|lia].
Qed.
Lemma used_range T : 0 <= sumZ used T <= Z.of_nat (length T).
Proof. induction T as [|l T IH]; [done|]. rewrite sumZ_cons. cbn [length]. unfold used at 1 3. destruct (_ =? _); lia. Qed.
Lemma sumZ_all_used T e x : aget T e = Some x -> lock_type x = 0 -> sumZ used T < Z.of_nat (length T).
Proof.
  intros Hx Hx0. pose proof (sumZ_aupd used T e (fun _ => mk_file_lock 1 0 0 0 0) x Hx) as Hs.
  pose proof (used_range (aupd e (fun _ => mk_file_lock 1 0 0 0 0) T)) as Hr. rewrite length_aupd in Hr.
  unfold used in Hs at 3 4. rewrite Hx0 in Hs. simpl in Hs. lia.
Qed.
Lemma lock_table_aupd T n i l f :
  lock_table T n -> aget T i = Some l -> (lock_type (f l) <> 0 -> lock_slot (f l)) ->
  lock_table (aupd i f T) (n + used (f l) - used l).
Proof.
  intros HT Hl Hf. split.
  - by rewrite length_aupd, (lt_length _ _ HT).
  - rewrite (sumZ_aupd _ _ _ _ l) by done. rewrite <-(lt_count _ _ HT). lia.
  - intros j k Hk Hu. destruct (decide (j = i)) as [->|Hne].
    + rewrite aget_aupd_eq, Hl in Hk. injection Hk as <-. by apply Hf.
    + rewrite aget_aupd_ne in Hk by done. by apply (lt_slots _ _ HT j).
Qed.

(** ** The rules of the tables *)
Lemma vfs_slot {A} (o : option A) x (Q : A -> state W -> Prop) E s : o = Some x -> Q x s -> wp (s ← get; deref o) Q E s.
Proof. intros -> HQ. by apply wp_bind, wp_get, wp_deref with x. Qed.
Lemma wp_lock_at i l (Q : file_lock -> state W -> Prop) E s : aget (file_locks s) i = Some l -> Q l s -> wp (lock_at i) Q E s.
Proof. intros Hl HQ. by apply wp_bind, wp_get, wp_deref with l. Qed.
Lemma wp_upd_lock i f l (Q : unit -> state W -> Prop) E s :
  aget (file_locks s) i = Some l -> Q tt (with_locks s (aupd i f (file_locks s)) (nr_locks s)) -> wp (upd_lock i f) Q E s.
Proof. intros Hl HQ. apply wp_bind. eapply wp_lock_at; [done|]. apply wp_modify. by destruct s. Qed.
Lemma with_locks_id s : with_locks s (file_locks s) (nr_locks s) = s.
Proof. by destruct s. Qed.

Definition overlaps (first last : Z) (l : file_lock) : Prop := lock_first l <= last /\ first <= lock_last l.
(** Slot [i] gives up the bytes from [first] to [last]. *)
Record released T T' (i first last : Z) (l : file_lock) : Prop := {
  re_holds v p t b : holds T' v p t b <->
    (covers l v p t b /\ ~ (first <= b <= last)) \/ elsewhere T i v p t b;
  re_slots j k : aget T' j = Some k -> lock_type k <> 0 -> (j <> i /\ aget T j = Some k) \/ ~ overlaps first last k;
}.
Lemma released_aupd T i l f first last :
  aget T i = Some l ->
  (forall v p t b, covers (f l) v p t b <-> covers l v p t b /\ ~ (first <= b <= last)) ->
  (lock_type (f l) <> 0 -> ~ overlaps first last (f l)) -> released T (aupd i f T) i first last l.
Proof.
  intros Hl Hc Hov. split.
  - intros v p t b. by rewrite (holds_aupd _ _ l), Hc by done.
  - intros j k Hk Hu. destruct (decide (j = i)) as [->|Hne].
    + rewrite aget_aupd_eq, Hl in Hk. injection Hk as <-. right. by apply Hov.
    + rewrite aget_aupd_ne in Hk by done. by left.
Qed.
Lemma released_split T i i2 l x f first last :
  aget T i = Some l -> aget T i2 = Some x -> lock_type x = 0 -> lock_type l <> 0 ->
  lock_first l < first -> first <= last -> last < lock_last l -> f = (fun l => l <| lock_last := first - 1 |>) ->
  released T (aupd i f (aupd i2 (fun _ => l <| lock_first := last + 1 |>) T)) i first last l.
Proof.
  intros Hl Hx Hx0 Hl0 Hf Hfl Hlast ->. assert (i2 <> i) as Hne by (intros ->; congruence).
  assert (aget (aupd i2 (fun _ => l <| lock_first := last + 1 |>) T) i = Some l) as Hl' by by rewrite aget_aupd_ne.
  split.
  - intros v p t b. rewrite (holds_aupd _ _ l) by done.
    assert (elsewhere (aupd i2 (fun _ => l <| lock_first := last + 1 |>) T) i v p t b <->
            covers (l <| lock_first := last + 1 |>) v p t b \/ elsewhere T i v p t b) as ->.
    { split.
      - intros (j & k & Hj & Hk & Hc). destruct (decide (j = i2)) as [->|Hj2].
        + rewrite aget_aupd_eq, Hx in Hk. injection Hk as <-. by left.
        + rewrite aget_aupd_ne in Hk by done. right. by exists j, k.
      - intros [Hc|(j & k & Hj & Hk & Hc)].
        + exists i2, (l <| lock_first := last + 1 |>). split_and!; [done| |done]. by rewrite aget_aupd_eq, Hx.
        + exists j, k. split_and!; [done| |done]. rewrite aget_aupd_ne; [done|]. intros ->. 
          destruct (covers_free x v p t b); [done|congruence]. }
    unfold covers. simpl. split.
    + intros [(?&?&?&?&?)|[(?&?&?&?&?)|?]]; [left|left|by right]; (split; [done..|lia]) || (split; [split_and!; (done || lia)|lia]).
    + intros [[(?&?&?&?&?) Hb]|?]; [|by right; right].
      destruct (decide (b < first)); [left|right; left]; split_and!; (done || lia).
  - intros j k Hk Hu. destruct (decide (j = i)) as [->|Hji].
    + rewrite aget_aupd_eq, Hl' in Hk. injection Hk as <-. right. unfold overlaps. simpl. lia.
    + rewrite aget_aupd_ne in Hk by done. destruct (decide (j = i2)) as [->|Hj2].
      * rewrite aget_aupd_eq, Hx in Hk. injection Hk as <-. right. unfold overlaps. simpl. lia.
      * rewrite aget_aupd_ne in Hk by done. by left.
Qed.

Lemma unlock_part_ok s i l first last :
  lock_table (file_locks s) (nr_locks s) -> aget (file_locks s) i = Some l -> lock_type l <> 0 ->
  first <= last -> overlaps first last l ->
  wp (unlock_part i first last) (fun b s' =>
    if b then exists T' n', s' = with_locks s T' n' /\ lock_table T' n' /\ released (file_locks s) T' i first last l
    else s' = s /\ nr_locks s = NR_LOCKS) never s.
Proof.
  intros HT Hl Hl0 Hfl [Ho1 Ho2]. set (T := file_locks s) in *.
  assert (used l = 1) as Hul by (unfold used; by replace (lock_type l =? 0) with false by lia).
  assert (lock_slot l) as Hls by exact (lt_slots _ _ HT i l Hl Hl0).
  unfold unlock_part. apply wp_bind. eapply wp_lock_at; [done|].
  destruct ((first <=? lock_first l) && (lock_last l <=? last)) eqn:E1.
  { apply wp_bind. eapply wp_upd_lock; [done|]. apply wp_bind, wp_modify, wp_ret.
    exists (aupd i (fun l => l <| lock_type := 0 |>) T), (nr_locks s - 1). split; [done|]. split.
    - pose proof (lock_table_aupd _ _ _ _ (fun l => l <| lock_type := 0 |>) HT Hl) as Hx. simpl in Hx.
      replace (nr_locks s - 1) with (nr_locks s + 0 - used l) by lia. apply Hx. done.
    - apply released_aupd; [done| |by intros []]. intros v p t b. apply andb_true_iff in E1 as [?%Z.leb_le ?%Z.leb_le].
      unfold covers. simpl. split; [by intros (?&?&?&?&?)|]. intros [(?&?&?&?&?) Hb]. lia. }
  destruct (first <=? lock_first l) eqn:E2.
  { eapply wp_bind, wp_upd_lock; [done|]. apply wp_ret. eexists _, _. split; [done|]. split.
    - pose proof (lock_table_aupd _ _ _ _ (fun l => l <| lock_first := last + 1 |>) HT Hl) as Hx.
      assert (used (l <| lock_first := last + 1 |>) = 1) as Hu' by exact Hul. cbv beta in Hx. rewrite Hu', Hul in Hx.
      replace (nr_locks s) with (nr_locks s + 1 - 1) by lia. apply Hx. intros _. destruct Hls; split; [done|simpl; lia].
    - apply released_aupd; [done| |].
      + intros v p t b. unfold covers. simpl. split; [intros (?&?&?&?&?); split; [split_and!; (done || lia)|lia]|].
        intros [(?&?&?&?&?) Hb]. split_and!; (done || lia).
      + intros _. unfold overlaps. simpl. lia. }
  destruct (lock_last l <=? last) eqn:E3.
  { eapply wp_bind, wp_upd_lock; [done|]. apply wp_ret. eexists _, _. split; [done|]. split.
    - pose proof (lock_table_aupd _ _ _ _ (fun l => l <| lock_last := first - 1 |>) HT Hl) as Hx.
      assert (used (l <| lock_last := first - 1 |>) = 1) as Hu' by exact Hul. cbv beta in Hx. rewrite Hu', Hul in Hx.
      replace (nr_locks s) with (nr_locks s + 1 - 1) by lia. apply Hx. intros _. destruct Hls; split; [done|simpl; lia].
    - apply released_aupd; [done| |].
      + intros v p t b. unfold covers. simpl. split; [intros (?&?&?&?&?); split; [split_and!; (done || lia)|lia]|].
        intros [(?&?&?&?&?) Hb]. split_and!; (done || lia).
      + intros _. unfold overlaps. simpl. lia. }
  apply wp_bind, wp_get. destruct (nr_locks s =? NR_LOCKS) eqn:E4; [apply wp_ret; split; [done|lia]|].
  fold T. destruct (free_slot T) as (i2 & x & -> & Hx & Hx0).
  { rewrite <-(lt_count _ _ HT), (lt_length _ _ HT). lia. }
  assert (i2 <> i) as Hne by (intros ->; congruence). cbn [default].
  eapply wp_bind, wp_upd_lock; [done|]. eapply wp_bind, wp_upd_lock; [by simpl; rewrite aget_aupd_ne|].
  apply wp_bind, wp_modify, wp_ret.
  exists (aupd i (fun l => l <| lock_last := first - 1 |>) (aupd i2 (fun _ => l <| lock_first := last + 1 |>) T)), (nr_locks s + 1).
  split; [done|]. split.
  - set (l2 := l <| lock_first := last + 1 |>). set (g := fun l => l <| lock_last := first - 1 |>).
    assert (lock_table (aupd i2 (fun _ => l2) T) (nr_locks s + used l2 - used x)) as HT2.
    { apply (lock_table_aupd _ _ _ _ (fun _ => l2)); [done|done|]. intros _. destruct Hls; split; [done|simpl; lia]. }
    pose proof (lock_table_aupd _ _ i l g HT2) as Hx2. replace (nr_locks s + 1) with (nr_locks s + used l2 - used x + used (g l) - used l).
    + apply Hx2; [by rewrite aget_aupd_ne|]. intros _. destruct Hls; split; [done|simpl; lia].
    + assert (used l2 = 1) as -> by exact Hul. assert (used (g l) = 1) as -> by exact Hul. unfold used at 1. rewrite Hx0. cbn. lia.
  - eapply released_split; try done; lia.
Qed.

(** ** Waking those that wait for a lock *)
(** Each process is in the slot of its endpoint; a slot without an endpoint is free. *)
Record procs_ok s : Prop := {
  po_length : Z.of_nat (length (fprocs s)) = NR_PROCS;
  po_slot i p : aget (fprocs s) i = Some p -> fp_pid p <> PID_FREE ->
    _ENDPOINT_P (fp_endpoint p) = i /\ fp_endpoint p <> NONE;
}.
Definition waits_for_lock (p : fproc) : bool :=
  negb (fp_pid p =? PID_FREE) && (fp_blocked_on p =? FP_BLOCKED_ON_LOCK) && negb (fp_revived p).
Definition woken (p : fproc) : fproc := if waits_for_lock p then p <| fp_revived := true |> else p.
Definition wakes (p : fproc) : Z := if waits_for_lock p then 1 else 0.
Definition lock_woken s : state W :=
  s <| fprocs := woken <$> fprocs s |> <| reviving := reviving s + sumZ wakes (fprocs s) |>.
Lemma aupd_map_pre {A} (f : A -> A) (l : list A) (n : nat) x :
  l !! n = Some x -> aupd (Z.of_nat n) f (map_pre n f l) = map_pre (S n) f l.
Proof.
  intros Hx. rewrite <-(take_drop_middle l n x Hx). assert (length (take n l) = n) as Hn.
  { rewrite length_take. apply lookup_lt_Some in Hx. lia. }
  unfold map_pre. rewrite !take_app_length', drop_app_length' by done.
  rewrite <-(length_fmap f (take n l)) in Hn. rewrite <-Hn at 1. rewrite aupd_app.
  rewrite length_fmap in Hn. rewrite (take_app_ge _ _ (S n)), (drop_app_ge _ _ (S n)) by lia. rewrite Hn.
  replace (S n - n)%nat with 1%nat by lia. cbn [take drop firstn skipn]. rewrite fmap_app. by rewrite <-app_assoc.
Qed.
Lemma isokendpt_own s i p :
  procs_ok s -> aget (fprocs s) i = Some p -> fp_pid p <> PID_FREE -> isokendpt (fp_endpoint p) s = Ret (OK, i) s.
Proof.
  intros Hok Hp Hf. destruct (po_slot _ Hok _ _ Hp Hf) as [He Hn]. pose proof (aget_range _ _ _ Hp) as Hr.
  rewrite (po_length _ Hok) in Hr. unfold isokendpt. rewrite He. replace (fp_endpoint p =? NONE) with false by lia.
  replace ((i <? 0) || (NR_PROCS <=? i)) with false by lia. unfold fproc_at.
  rewrite (bind_ret _ _ p s s) by (unfold mbind, M_bind, get; by rewrite Hp). cbv beta. by rewrite Z.eqb_refl.
Qed.
Lemma lock_revive_run s : procs_ok s -> lock_revive s = Ret tt (lock_woken s).
Proof.
  intros Hok.
  set (at_ n := s <| fprocs := map_pre n woken (fprocs s) |> <| reviving := reviving s + sumZ wakes (take n (fprocs s)) |>).
  assert (wp lock_revive (fun _ s' => s' = lock_woken s) never s) as Hx.
  2:{ destruct (wp_never_run _ _ _ Hx) as ([] & s' & Hrun & ->). exact Hrun. }
  unfold lock_revive. apply (wp_foreach _ _ (fun pre s' => s' = at_ (length pre))).
  - unfold at_. rewrite map_pre_0. unfold sumZ. simpl. rewrite Z.add_0_r. by destruct s.
  - intros pre i post s' Hl ->. apply seqZ_visit in Hl as [-> Hlt]. set (n := length pre) in *.
    pose proof (po_length _ Hok). assert (exists p, fprocs s !! n = Some p) as [p Hp] by (apply lookup_lt_is_Some; lia).
    assert (aget (fprocs (at_ n)) (Z.of_nat n) = Some p) as Hp1.
    { simpl. rewrite aget_map_pre. rewrite decide_False by lia. by rewrite aget_nat. }
    assert (at_ (S n) = at_ n <| fprocs := aupd (Z.of_nat n) woken (fprocs (at_ n)) |> <| reviving := reviving (at_ n) + wakes p |>) as Hnext.
    { unfold at_. simpl. rewrite (aupd_map_pre _ _ _ p) by done. rewrite (sumZ_take_S _ _ _ _ Hp). by rewrite Z.add_assoc. }
    assert (length (pre ++ [Z.of_nat n]) = S n) as -> by (rewrite length_app; simpl; lia). rewrite Hnext.
    apply wp_bind, wp_bind, wp_get. apply (wp_deref _ p); [done|].
    assert (forall f, (woken p = f p) -> aupd (Z.of_nat n) woken (fprocs (at_ n)) = aupd (Z.of_nat n) f (fprocs (at_ n))) as Hup.
    { intros f Hf. apply aupd_ext. intros x Hx. assert (x = p) as -> by congruence. done. }
    assert (waits_for_lock p = false ->
      at_ n = at_ n <| fprocs := aupd (Z.of_nat n) woken (fprocs (at_ n)) |> <| reviving := reviving (at_ n) + wakes p |>) as Hsame.
    { intros Hw. unfold wakes. rewrite Hw. rewrite (Hup id) by (unfold woken; by rewrite Hw). rewrite aupd_id by done. simpl. by rewrite Z.add_0_r. }
    destruct (fp_pid p =? PID_FREE) eqn:Hfree; [apply wp_ret, Hsame; unfold waits_for_lock; by rewrite Hfree|].
    destruct (fp_blocked_on p =? FP_BLOCKED_ON_LOCK) eqn:Hb.
    2:{ apply wp_ret, Hsame. unfold waits_for_lock. rewrite Hb. by rewrite andb_false_r. }
    assert (procs_ok (at_ n)) as Hok'.
    { split.
      - simpl. by rewrite length_map_pre.
      - intros j q Hq Hqf. simpl in Hq. rewrite aget_map_pre in Hq. destruct (decide _) in Hq; [|by apply (po_slot _ Hok)].
        destruct (aget (fprocs s) j) as [q0|] eqn:E; [|done]. injection Hq as <-.
        assert (fp_pid (woken q0) = fp_pid q0 /\ fp_endpoint (woken q0) = fp_endpoint q0) as [E1 E2] by (unfold woken; by destruct (waits_for_lock q0)).
        rewrite E1 in Hqf. rewrite E2. by apply (po_slot _ Hok). }
    unfold revive. apply wp_bind. apply (wp_ret_run _ _ _ _ _ _ (isokendpt_own _ _ _ Hok' Hp1 ltac:(lia))).
    change (negb (is_ok OK)) with false. cbv iota. apply wp_bind, wp_bind, wp_get. apply (wp_deref _ p); [done|].
    unfold fp_is_blocked. assert (fp_blocked_on p = FP_BLOCKED_ON_LOCK) as Hb' by lia. rewrite Hb'.
    change (negb (FP_BLOCKED_ON_LOCK =? FP_BLOCKED_ON_NONE)) with true. cbn [negb orb].
    destruct (fp_revived p) eqn:Hr.
    { apply wp_ret, Hsame. unfold waits_for_lock. by rewrite Hr, andb_false_r. }
    change ((FP_BLOCKED_ON_LOCK =? FP_BLOCKED_ON_PIPE) || (FP_BLOCKED_ON_LOCK =? FP_BLOCKED_ON_LOCK)) with true. cbv iota.
    apply wp_bind, wp_bind, wp_bind, wp_get. apply (wp_deref _ p); [done|]. apply wp_modify, wp_modify.
    assert (waits_for_lock p = true) as Hwl by (unfold waits_for_lock; rewrite Hfree, Hb, Hr; done).
    unfold wakes. rewrite Hwl. rewrite (Hup (fun p => p <| fp_revived := true |>)); [done|]. unfold woken. by rewrite Hwl.
  - intros s' ->. unfold at_, lock_woken. pose proof (po_length _ Hok).
    assert (length (seqZ 0 NR_PROCS) = length (fprocs s)) as -> by (rewrite length_seqZ; lia).
    rewrite take_ge by lia. f_equal. unfold map_pre. by rewrite take_ge, drop_ge, app_nil_r by lia.
Qed.

(** ** [lock_op] *)
(** A request on an open regular file, for the bytes from [first] to [last]. *)
Record asks s (f : Z) (l : flock) (q : filp) (vno : Z) (v : vnode) (me : fproc) (first last : Z) (w : W) : Prop := {
  as_copy : in_flock (who_e s) (name1 (m_in s)) (world s) = ((OK, l), w);
  as_filp : aget (filps s) f = Some q;
  as_vno : filp_vno q = Some vno;
  as_vnode : aget (vnodes s) vno = Some v;
  as_regular : Z.land (v_mode v) I_TYPE = I_REGULAR;
  as_me : aget (fprocs s) (fp s) = Some me;
  as_region s' : lock_region q v l s' = Ret (Some (first, last)) s';
}.
Lemma lock_region_le q v l s s' first last : lock_region q v l s = Ret (Some (first, last)) s' -> first <= last.
Proof.
  intros Hrun. assert (wp (lock_region q v l) (fun r _ => match r with Some (a, b) => a <= b | None => True end) (fun _ _ => True) s) as Hx.
  2:{ unfold wp in Hx. by rewrite Hrun in Hx. }
  unfold lock_region. apply wp_bind. apply (wp_mono _ (fun _ _ => True) _ (fun _ _ => True)); [|intros [x|] s1 _|done]; [| |by apply wp_ret].
  - by repeat (destruct (_ =? _); [try (by apply wp_ret)|]).
  - apply wp_bind. destruct (off_t _) as [sum|]; [|done]. apply wp_ret.
    destruct (_ && _); [by apply wp_ret|]. destruct (_ && _); [by apply wp_ret|].
    apply wp_bind, wp_bind. destruct (off_t (sum + _)) as [e|]; [|done]. apply wp_ret. destruct (off_t _) as [z|]; [|done]. apply wp_ret.
    destruct (_ <? sum) eqn:Hlt; apply wp_ret; [done|lia].
Qed.
Lemma lock_op_enter s f req l q vno v me first last w Q E :
  asks s f l q vno v me first last w ->
  l_type l = F_UNLCK \/ l_type l = F_RDLCK \/ l_type l = F_WRLCK ->
  (req = F_GETLK -> l_type l <> F_UNLCK) ->
  (req <> F_GETLK -> l_type l = F_RDLCK -> has (filp_mode q) R_BIT = true) ->
  (req <> F_GETLK -> l_type l = F_WRLCK -> has (filp_mode q) W_BIT = true) ->
  wp (fold_break (seqZ 0 NR_LOCKS) (mk_search None None false None)
        (lock_step req (l_type l) vno (fp_pid me) first last) ≫= lock_finish req l vno (fp_pid me) first last)
     Q E (s <| world := w |>) ->
  wp (lock_op f req) Q E s.
Proof.
  intros Ha Ht Hget Hr Hw HQ. unfold lock_op. apply wp_bind, wp_get, wp_bind.
  apply (wp_ret_run _ _ _ (OK, l) _ (s <| world := w |>)).
  { unfold env. rewrite (bind_ret _ _ s s s) by done. cbv beta. by rewrite (as_copy _ _ _ _ _ _ _ _ _ _ Ha). }
  change (negb (is_ok OK)) with false. cbv iota. apply wp_bind, wp_bind, wp_get. apply (wp_deref _ q); [apply Ha|].
  assert (negb (l_type l =? F_UNLCK) && negb (l_type l =? F_RDLCK) && negb (l_type l =? F_WRLCK) = false) as ->.
  { destruct Ht as [-> | [-> | ->]]; rewrite Z.eqb_refl; cbn [negb]; by rewrite ?andb_false_r. }
  assert ((req =? F_GETLK) && (l_type l =? F_UNLCK) = false) as ->.
  { destruct (req =? F_GETLK) eqn:E1; [|done]. cbn [andb]. apply Z.eqb_neq, Hget. lia. }
  apply wp_bind. apply (wp_deref _ vno); [apply Ha|]. apply wp_bind, wp_bind, wp_get. apply (wp_deref _ v); [apply Ha|].
  rewrite (as_regular _ _ _ _ _ _ _ _ _ _ Ha), Z.eqb_refl. cbn [negb].
  assert (negb (req =? F_GETLK) && (l_type l =? F_RDLCK) && negb (has (filp_mode q) R_BIT) = false) as ->.
  { destruct (req =? F_GETLK) eqn:E1, (l_type l =? F_RDLCK) eqn:E2; try done. rewrite Hr by lia. done. }
  assert (negb (req =? F_GETLK) && (l_type l =? F_WRLCK) && negb (has (filp_mode q) W_BIT) = false) as ->.
  { destruct (req =? F_GETLK) eqn:E1, (l_type l =? F_WRLCK) eqn:E2; try done. rewrite Hw by lia. done. }
  apply wp_bind. apply (wp_ret_run _ _ _ _ _ _ (as_region _ _ _ _ _ _ _ _ _ _ Ha _)).
  apply wp_bind, wp_bind, wp_get. apply (wp_deref _ me); [apply Ha|]. exact HQ.
Qed.

(** Everything except the bytes from [first] to [last] of file [vno] is locked as before. *)
Definition same_outside T T' (vno first last : Z) : Prop :=
  forall v p t b, v <> vno \/ b < first \/ last < b -> holds T' v p t b <-> holds T v p t b.
Lemma elsewhere_holds T i v p t b : elsewhere T i v p t b -> holds T v p t b.
Proof. intros (j & k & _ & ? & ?). by exists j, k. Qed.
Lemma released_outside T T' i first last l :
  aget T i = Some l -> released T T' i first last l -> same_outside T T' (lock_vnode l) first last.
Proof.
  intros Hl Hr v p t b Ho. rewrite (re_holds _ _ _ _ _ _ Hr), (holds_split T i l) by done.
  split; (intros [?|?]; [left|by right]); [naive_solver|]. split; [done|]. intros Hb.
  assert (lock_vnode l = v) by (unfold covers in *; naive_solver). destruct Ho; [congruence|lia].
Qed.
Lemma released_less T T' i first last l v p t b :
  aget T i = Some l -> released T T' i first last l -> holds T' v p t b -> holds T v p t b.
Proof.
  intros Hl Hr. rewrite (re_holds _ _ _ _ _ _ Hr), (holds_split T i l) by done. naive_solver.
Qed.

(** What unlocking leaves. *)
Record unlocked s (w : W) (vno first last : Z) (r : rc) s' : Prop := {
  un_table : lock_table (file_locks s') (nr_locks s');
  un_outside : same_outside (file_locks s) (file_locks s') vno first last;
  un_less v p t b : holds (file_locks s') v p t b -> holds (file_locks s) v p t b;
  un_result : r = OK \/ r = ENOLCK;
  un_inside : r = OK -> forall p t b, first <= b <= last -> ~ holds (file_locks s') vno p t b;
  un_woken : r = OK -> s' = s <| world := w |> \/ fprocs s' = woken <$> fprocs s;
  un_asleep : r = ENOLCK -> fprocs s' = fprocs s /\ nr_locks s' = NR_LOCKS;
}.
(** The locks in the slots that were visited are out of the way. *)
Record unlock_loop s vno first last (pre : list Z) (a : search) s' : Prop := {
  ul_state : exists T n, s' = with_locks s T n;
  ul_table : lock_table (file_locks s') (nr_locks s');
  ul_outside : same_outside (file_locks s) (file_locks s') vno first last;
  ul_less v p t b : holds (file_locks s') v p t b -> holds (file_locks s) v p t b;
  ul_seen j k : j ∈ pre -> aget (file_locks s') j = Some k -> lock_type k <> 0 -> lock_vnode k = vno -> ~ overlaps first last k;
  ul_none : decided a = None;
  ul_idle : unlocking a = false -> s' = s;
}.
Lemma same_outside_trans T T1 T2 vno first last :
  same_outside T T1 vno first last -> same_outside T1 T2 vno first last -> same_outside T T2 vno first last.
Proof. intros H1' H2' v p t b Ho. rewrite (H2' v p t b Ho). by apply H1'. Qed.
Lemma unlock_step_ok s req vno pid first last pre i post a s' `{!LockLaws} :
  req <> F_GETLK -> first <= last -> seqZ 0 NR_LOCKS = pre ++ i :: post ->
  unlock_loop s vno first last pre a s' ->
  wp (lock_step req F_UNLCK vno pid first last a i) (fun r s'' =>
    if r.2 then decided r.1 = Some ENOLCK /\ nr_locks s'' = NR_LOCKS /\ unlock_loop s vno first last pre a s''
    else unlock_loop s vno first last (pre ++ [i]) r.1 s'') never s'.
Proof.
  intros Hreq Hle Hseq HI. pose proof (ul_table _ _ _ _ _ _ _ HI) as HT.
  destruct (lock_slot_at _ _ _ _ _ HT Hseq) as [l Hl].
  assert (forall a', decided a' = None -> (unlocking a' = false -> unlocking a = false) ->
    (lock_type l <> 0 -> lock_vnode l = vno -> ~ overlaps first last l) -> unlock_loop s vno first last (pre ++ [i]) a' s') as Hskip.
  { intros a' Hd Hu Hno. destruct HI as [? ? ? ? Hseen ? Hidle]. split; try done; [|by intros; apply Hidle, Hu].
    intros j k [Hj|Hj%list_elem_of_singleton]%elem_of_app Hk; [by eapply Hseen|]. subst j. assert (k = l) as -> by congruence. done. }
  unfold lock_step. apply wp_bind. eapply wp_lock_at; [done|].
  destruct (lock_type l =? 0) eqn:Hl0.
  { apply wp_ret. apply Hskip; [|by destruct (empty a)|lia]. destruct (empty a); apply HI. }
  destruct (in_way F_UNLCK vno pid first last l) eqn:Hway; cbn [negb].
  2:{ apply wp_ret. apply Hskip; [apply HI|done|]. intros _ Hv [Ho1 Ho2]. unfold in_way in Hway. rewrite Z.eqb_refl in Hway.
      pose proof RDLCK_UNLCK. replace (F_UNLCK =? F_RDLCK) with false in Hway by lia. cbn [negb andb] in Hway.
      replace (lock_vnode l =? vno) with true in Hway by lia. replace (last <? lock_first l) with false in Hway by lia.
      by replace (lock_last l <? first) with false in Hway by lia. }
  assert (lock_vnode l = vno /\ overlaps first last l) as [Hv Ho].
  { unfold in_way in Hway. repeat (apply andb_true_iff in Hway as [Hway ?]). unfold overlaps. lia. }
  pose proof RDLCK_UNLCK. pose proof WRLCK_UNLCK. replace (req =? F_GETLK) with false by lia.
  replace ((F_UNLCK =? F_RDLCK) || (F_UNLCK =? F_WRLCK)) with false by lia.
  apply wp_bind. eapply wp_mono; [by eapply unlock_part_ok; [exact HT|exact Hl|lia..|exact Ho]| |done].
  intros [] s''.
  - intros (T' & n' & -> & HT' & Hr). apply wp_ret. cbn [fst snd]. destruct HI as [(T & n & ->) ? Hout Hless Hseen ? Hidle].
    cbn [file_locks with_locks upd] in *. split; try done.
    + by eexists _, _.
    + eapply same_outside_trans; [done|]. rewrite <-Hv. by eapply released_outside.
    + intros v p t b Hh. apply Hless. by eapply released_less.
    + intros j k Hj Hk Hk0 Hkv. destruct (re_slots _ _ _ _ _ _ Hr _ _ Hk Hk0) as [[Hji Hk']|?]; [|done].
      apply elem_of_app in Hj as [Hj|Hj%list_elem_of_singleton]; [by eapply Hseen|done].
  - intros [-> Hfull]. apply wp_ret. done.
Qed.

(** C19: Unlocking bytes of a file.  Afterwards nobody holds a lock on any of them, and every
    other byte of every file is locked as before; the table keeps its form.  Who waits for a
    lock is woken if anything was unlocked.  The call fails only when a lock has to be
    split and the table is full; then some of the bytes may be unlocked, and nobody is
    woken.  The owner of the locks is not looked at. *)
Theorem lock_op_unlock s f req l q vno v me first last w `{!LockLaws} :
  asks s f l q vno v me first last w -> lock_table (file_locks s) (nr_locks s) -> procs_ok s ->
  l_type l = F_UNLCK -> req = F_SETLK \/ req = F_SETLKW ->
  exists r s', lock_op f req s = Ret r s' /\ unlocked s w vno first last r s'.
Proof.
  intros Ha HT Hpo Ht Hreq. pose proof (lock_region_le _ _ _ _ _ _ _ (as_region _ _ _ _ _ _ _ _ _ _ Ha s)) as Hle.
  pose proof RDLCK_UNLCK. pose proof WRLCK_UNLCK. pose proof GETLK_SETLK. pose proof GETLK_SETLKW.
  assert (req <> F_GETLK) as Hget by (destruct Hreq; congruence).
  assert (wp (lock_op f req) (unlocked s w vno first last) never s) as Hx.
  2:{ destruct (wp_never_run _ _ _ Hx) as (r & s' & ? & ?). by exists r, s'. }
  eapply lock_op_enter; [done|by left|done|congruence..|]. set (s1 := s <| world := w |>). rewrite Ht.
  apply wp_bind. apply (wp_fold_break _ _ _ (unlock_loop s1 vno first last)).
  - split; try done; [by exists (file_locks s1), (nr_locks s1)|by intros ?? ?%elem_of_nil].
  - intros pre i post a s' Hseq HI. eapply wp_mono; [by eapply unlock_step_ok| |done].
    intros [a' []] s''; cbn [fst snd]; [|done]. intros (Hd & Hn & HI'). unfold lock_finish. rewrite Hd. apply wp_ret.
    destruct HI' as [(T & n & ->) ? ? ? ? ? ?]. split; try done. by right.
  - intros a s' HI. unfold lock_finish. rewrite (ul_none _ _ _ _ _ _ _ HI). apply wp_bind.
    assert (forall p t b, first <= b <= last -> ~ holds (file_locks s') vno p t b) as Hin.
    { intros p t b Hb (j & k & Hk & Hc). destruct Hc as (Hc1 & Hc2 & Hc3 & Hc4 & Hc5). eapply (ul_seen _ _ _ _ _ _ _ HI j k); try done; [|congruence|unfold overlaps; lia].
      apply elem_of_seqZ. pose proof (aget_range _ _ _ Hk). pose proof (lt_length _ _ (ul_table _ _ _ _ _ _ _ HI)). lia. }
    destruct (unlocking a) eqn:Hu.
    + destruct HI as [(T & n & ->) ? ? ? ? ? ?]. eapply wp_ret_run.
      { apply lock_revive_run. split; apply Hpo. }
      apply wp_bind, wp_get. replace (req =? F_GETLK) with false by lia. rewrite Ht, Z.eqb_refl. apply wp_ret.
      split; try done; [by left|by right].
    + apply wp_ret, wp_bind, wp_get. replace (req =? F_GETLK) with false by lia. rewrite Ht, Z.eqb_refl. apply wp_ret.
      pose proof (ul_idle _ _ _ _ _ _ _ HI Hu) as ->. destruct HI. split; try done; by left.
Qed.

(** ** Setting a lock *)
(** Another process holds a lock on one of the bytes that excludes a lock of type [ltype]. *)
Definition contended T (ltype vno pid first last : Z) : Prop :=
  exists p t b, p <> pid /\ first <= b <= last /\ holds T vno p t b /\ ~ (ltype = F_RDLCK /\ t = F_RDLCK).
Definition suspended s (me : fproc) : state W :=
  s <| fprocs := aupd (fp s) (fun p => p <| fp_blocked_on := FP_BLOCKED_ON_LOCK |>
    <| fp_block_fd := fd (m_in s) |> <| fp_block_callnr := call_nr s |>
    <| fp_flags := Z.ldiff (fp_flags me) SUSP_REOPEN |>
    <| fp_buffer := name1 (m_in s) |> <| fp_nbytes := request (m_in s) |>) (fprocs s) |>.
Lemma in_way_contended T n i l ltype vno pid first last :
  lock_table T n -> ltype <> F_UNLCK -> first <= last -> aget T i = Some l -> lock_type l <> 0 ->
  in_way ltype vno pid first last l = true -> contended T ltype vno pid first last.
Proof.
  intros HT Ht Hfl Hl Hl0 Hw. destruct (lt_slots _ _ HT _ _ Hl Hl0) as [_ Hb].
  unfold in_way in Hw. rewrite !andb_true_iff, !negb_true_iff in Hw. destruct Hw as [[[[H1' H2'] H3'] H4'] H5'].
  replace (ltype =? F_UNLCK) with false in H5' by lia. simpl in H5'.
  exists (lock_pid l), (lock_type l), (Z.max first (lock_first l)). split_and!; [lia|lia|lia| |].
  - exists i, l. split; [done|]. unfold covers. split_and!; (done || lia).
  - intros [-> Heq]. by rewrite Heq, Z.eqb_refl in H4'.
Qed.
Lemma contended_in_way T ltype vno pid first last :
  contended T ltype vno pid first last ->
  exists i l, aget T i = Some l /\ lock_type l <> 0 /\ in_way ltype vno pid first last l = true.
Proof.
  intros (p & t & b & Hp & Hb & (i & l & Hl & (Hc1 & Hc2 & Hc3 & Hc4 & Hc5)) & Hno). exists i, l.
  split_and!; [done|congruence|]. unfold in_way. rewrite !andb_true_iff, !negb_true_iff.
  split_and!; lia.
Qed.

(** Slots that were visited without finding a lock in the way. *)
Record set_loop s ltype vno pid first last (pre : list Z) (a : search) s' : Prop := {
  sl_state : s' = s;
  sl_decided : decided a = None;
  sl_idle : unlocking a = false;
  sl_free e : empty a = Some e -> exists x, aget (file_locks s) e = Some x /\ lock_type x = 0;
  sl_used j k : empty a = None -> j ∈ pre -> aget (file_locks s) j = Some k -> lock_type k <> 0;
  sl_clear j k : j ∈ pre -> aget (file_locks s) j = Some k -> lock_type k <> 0 ->
    in_way ltype vno pid first last k = false;
}.
Lemma set_visit_free s ltype vno pid first last pre a i l :
  set_loop s ltype vno pid first last pre a s -> aget (file_locks s) i = Some l -> lock_type l = 0 ->
  set_loop s ltype vno pid first last (pre ++ [i])
    (match empty a with None => a <| empty := Some i |> | Some _ => a end) s.
Proof.
  intros [_ Hd Hu Hfree Hused Hclear] Hl Hl0. split; try (by destruct (empty a)).
  - intros e He. destruct (empty a) eqn:Ee; [by apply Hfree; rewrite <-He, <-Ee|]. injection He as <-. by exists l.
  - intros j k He. by destruct (empty a) eqn:Ee; [rewrite Ee in He|].
  - intros j k [Hj|Hj%list_elem_of_singleton]%elem_of_app Hk Hk0; [by eapply Hclear|]. subst j. congruence.
Qed.
Lemma set_visit_clear s ltype vno pid first last pre a i l :
  set_loop s ltype vno pid first last pre a s -> aget (file_locks s) i = Some l -> lock_type l <> 0 ->
  in_way ltype vno pid first last l = false -> set_loop s ltype vno pid first last (pre ++ [i]) a s.
Proof.
  intros [_ Hd Hu Hfree Hused Hclear] Hl Hl0 Hw. split; try done.
  - intros j k He [Hj|Hj%list_elem_of_singleton]%elem_of_app Hk; [by eapply Hused|]. subst j. congruence.
  - intros j k [Hj|Hj%list_elem_of_singleton]%elem_of_app Hk Hk0; [by eapply Hclear|]. subst j. congruence.
Qed.
(** What the search finds. *)
Definition set_found s req ltype vno pid first last (me : fproc) (a : search) s' : Prop :=
  match decided a with
  | Some r => contended (file_locks s) ltype vno pid first last /\
      ((req = F_SETLK /\ r = EAGAIN /\ s' = s) \/ (req = F_SETLKW /\ r = SUSPEND /\ s' = suspended s me))
  | None => set_loop s ltype vno pid first last (seqZ 0 NR_LOCKS) a s'
  end.
Lemma set_step_ok s req ltype vno me first last pre i post a s' `{!LockLaws} :
  req = F_SETLK \/ req = F_SETLKW -> ltype = F_RDLCK \/ ltype = F_WRLCK ->
  lock_table (file_locks s) (nr_locks s) -> first <= last ->
  aget (fprocs s) (fp s) = Some me -> GRANT_VALID (fp_grant me) = false ->
  seqZ 0 NR_LOCKS = pre ++ i :: post -> set_loop s ltype vno (fp_pid me) first last pre a s' ->
  wp (lock_step req ltype vno (fp_pid me) first last a i) (fun r s'' =>
    if r.2 then set_found s req ltype vno (fp_pid me) first last me r.1 s''
    else set_loop s ltype vno (fp_pid me) first last (pre ++ [i]) r.1 s'') never s'.
Proof.
  intros Hreq Ht HT Hle Hme Hg Hseq HI. pose proof (sl_state _ _ _ _ _ _ _ _ _ HI) as ->.
  pose proof GETLK_SETLK. pose proof GETLK_SETLKW. pose proof SETLK_SETLKW. pose proof RDLCK_UNLCK. pose proof WRLCK_UNLCK.
  destruct (lock_slot_at _ _ _ _ _ HT Hseq) as [l Hl].
  unfold lock_step. apply wp_bind. eapply wp_lock_at; [done|].
  destruct (lock_type l =? 0) eqn:Hl0.
  { apply wp_ret. eapply set_visit_free; [done|exact Hl|lia]. }
  destruct (in_way ltype vno (fp_pid me) first last l) eqn:Hway; cbn [negb].
  2:{ apply wp_ret. eapply set_visit_clear; [done|exact Hl|lia|done]. }
  assert (contended (file_locks s) ltype vno (fp_pid me) first last) as Hc.
  { eapply in_way_contended; [exact HT|destruct Ht; congruence|done|exact Hl|lia|done]. }
  replace (req =? F_GETLK) with false by lia.
  replace ((ltype =? F_RDLCK) || (ltype =? F_WRLCK)) with true by lia.
  destruct (req =? F_SETLK) eqn:Hr.
  { apply wp_ret. cbn [fst snd]. split; [done|]. left. split_and!; [lia|done|done]. }
  unfold suspend. change (FP_BLOCKED_ON_LOCK =? FP_BLOCKED_ON_POPEN) with false. cbv iota.
  apply wp_bind, wp_bind, wp_ret, wp_bind, wp_get. apply wp_bind, wp_bind, wp_get. apply (wp_deref _ me); [done|].
  apply wp_bind, wp_assert; [rewrite Hg; apply orb_true_r|].
  apply wp_bind, wp_bind, wp_get. apply (wp_deref _ me); [done|]. apply wp_modify, wp_ret.
  cbn [fst snd]. split; [done|]. right. split_and!; [lia|done|]. unfold suspended. erewrite aupd_ext; [reflexivity|].
  intros x Hx. assert (x = me) as -> by congruence. done.
Qed.

Lemma wp_same_run {A} (m m' : M (state W) A) s s' : (forall Q E, wp m' Q E s' -> wp m Q E s) -> m s = m' s'.
Proof.
  intros Hw. specialize (Hw (fun a s1 => m' s' = Ret a s1) (fun h s1 => m' s' = Halt h s1)). unfold wp in Hw.
  destruct (m' s') as [a s1|h s1]; specialize (Hw eq_refl); by destruct (m s).
Qed.
Definition get_found s ltype vno pid first last (a : search) s' : Prop :=
  match conflict a with
  | Some i => s' = s /\ decided a = None /\ unlocking a = false /\
      exists k, aget (file_locks s) i = Some k /\ lock_type k <> 0 /\ in_way ltype vno pid first last k = true
  | None => set_loop s ltype vno pid first last (seqZ 0 NR_LOCKS) a s'
  end.
Lemma get_step_ok s ltype vno pid first last pre i post a s' :
  lock_table (file_locks s) (nr_locks s) ->
  seqZ 0 NR_LOCKS = pre ++ i :: post -> conflict a = None -> set_loop s ltype vno pid first last pre a s' ->
  wp (lock_step F_GETLK ltype vno pid first last a i) (fun r s'' =>
    if r.2 then get_found s ltype vno pid first last r.1 s''
    else conflict r.1 = None /\ set_loop s ltype vno pid first last (pre ++ [i]) r.1 s'') never s'.
Proof.
  intros HT Hseq Hn HI. pose proof (sl_state _ _ _ _ _ _ _ _ _ HI) as ->. destruct (lock_slot_at _ _ _ _ _ HT Hseq) as [l Hl].
  unfold lock_step. apply wp_bind. eapply wp_lock_at; [done|].
  destruct (lock_type l =? 0) eqn:Hl0.
  { apply wp_ret. cbn [fst snd]. split; [by destruct (empty a)|]. eapply set_visit_free; [done|exact Hl|lia]. }
  destruct (in_way ltype vno pid first last l) eqn:Hway; cbn [negb].
  2:{ apply wp_ret. cbn [fst snd]. split; [done|]. eapply set_visit_clear; [done|exact Hl|lia|done]. }
  rewrite Z.eqb_refl. apply wp_ret. cbn [fst snd]. unfold get_found. simpl. destruct HI.
  split_and!; [done..|]. exists l. split_and!; [done|lia|done].
Qed.

(** Process [p] holds a lock of type [t] on more bytes: those from [first] to [last]. *)
Definition locked_too T T' (vno pid ltype first last : Z) : Prop :=
  forall v p t b, holds T' v p t b <->
    holds T v p t b \/ (v = vno /\ p = pid /\ t = ltype /\ first <= b <= last).
Lemma locked_too_exclusive T T' vno pid ltype first last :
  ltype = F_RDLCK \/ ltype = F_WRLCK -> locked_too T T' vno pid ltype first last ->
  ~ contended T ltype vno pid first last -> exclusive T -> exclusive T'.
Proof.
  intros Ht Hl Hc He v b p1 t1 p2 t2 [H1'|(-> & -> & -> & Hb)]%Hl [H2'|(Hv & -> & -> & Hb2)]%Hl Hne.
  - by eapply He.
  - subst v. destruct (decide (ltype = F_RDLCK /\ t1 = F_RDLCK)) as [[? ?]|Hn]; [done|]. destruct Hc. by exists p1, t1, b.
  - destruct (decide (ltype = F_RDLCK /\ t2 = F_RDLCK)) as [[? ?]|Hn]; [done|]. destruct Hc. exists p2, t2, b. split_and!; [done|lia|lia|done|done].
  - done.
Qed.
Lemma store_lock T n e x vno pid ltype first last `{!LockLaws} :
  ltype = F_RDLCK \/ ltype = F_WRLCK -> first <= last -> lock_table T n -> aget T e = Some x -> lock_type x = 0 ->
  let T' := aupd e (fun _ => mk_file_lock ltype pid vno first last) T in
  lock_table T' (n + 1) /\ locked_too T T' vno pid ltype first last.
Proof.
  intros Ht Hle HT Hx Hx0 T'. pose proof RDLCK_used. pose proof WRLCK_used.
  set (l := mk_file_lock ltype pid vno first last). split.
  - pose proof (lock_table_aupd _ _ _ _ (fun _ => l) HT Hx) as Hn. unfold used in Hn. rewrite Hx0 in Hn. simpl in Hn.
    replace (ltype =? 0) with false in Hn by (destruct Ht; lia). replace (n + 1) with (n + 1 - 0) by lia. by apply Hn.
  - intros v p t b. unfold T'. rewrite (holds_aupd _ _ x), (holds_split T e x) by done.
    pose proof (covers_free x v p t b Hx0). unfold covers at 1. simpl. split.
    + intros [(<- & ? & <- & <- & ?)|?]; [by right|left; by right].
    + intros [[?|?]|(-> & -> & -> & ?)]; [done|by right|left]. split_and!; (done || destruct Ht; congruence || lia).
Qed.

(** C20: Setting a lock.  If another process holds a lock that excludes it on one of the bytes,
    F_SETLK answers EAGAIN and F_SETLKW suspends the caller, with the request remembered for
    when it is revived; the table of locks is unchanged.  Otherwise, if the table has a free
    slot, the caller holds the lock on the bytes asked for and everything else is locked as
    before; if it has none, the answer is ENOLCK and nothing changes.  Two processes never
    hold locks on the same byte unless both are for reading. *)
Theorem lock_op_set s f req l q vno v me first last w `{!LockLaws} :
  asks s f l q vno v me first last w -> lock_table (file_locks s) (nr_locks s) ->
  l_type l = F_RDLCK /\ has (filp_mode q) R_BIT = true \/ l_type l = F_WRLCK /\ has (filp_mode q) W_BIT = true ->
  req = F_SETLK \/ req = F_SETLKW -> GRANT_VALID (fp_grant me) = false ->
  let s1 := s <| world := w |> in
  let T := file_locks s in
  exists r s', lock_op f req s = Ret r s' /\
    (contended T (l_type l) vno (fp_pid me) first last ->
       (req = F_SETLK -> r = EAGAIN /\ s' = s1) /\ (req = F_SETLKW -> r = SUSPEND /\ s' = suspended s1 me)) /\
    (~ contended T (l_type l) vno (fp_pid me) first last -> nr_locks s = NR_LOCKS -> r = ENOLCK /\ s' = s1) /\
    (~ contended T (l_type l) vno (fp_pid me) first last -> nr_locks s <> NR_LOCKS ->
       r = OK /\ s' = with_locks s1 (file_locks s') (nr_locks s + 1) /\ lock_table (file_locks s') (nr_locks s') /\
       locked_too T (file_locks s') vno (fp_pid me) (l_type l) first last /\ (exclusive T -> exclusive (file_locks s'))).
Proof.
  intros Ha HT Ht Hreq Hg s1 T. pose proof (lock_region_le _ _ _ _ _ _ _ (as_region _ _ _ _ _ _ _ _ _ _ Ha s)) as Hle.
  pose proof RDLCK_UNLCK. pose proof WRLCK_UNLCK. pose proof GETLK_SETLK. pose proof GETLK_SETLKW. pose proof SETLK_SETLKW. pose proof RDLCK_WRLCK.
  assert (req <> F_GETLK) as Hget by (destruct Hreq; congruence).
  assert (l_type l = F_RDLCK \/ l_type l = F_WRLCK) as Ht' by (destruct Ht as [[? _]|[? _]]; auto).
  set (C := contended T (l_type l) vno (fp_pid me) first last).
  match goal with |- exists r s', _ /\ @?P r s' => assert (wp (lock_op f req) P never s) as Hx end.
  2:{ destruct (wp_never_run _ _ _ Hx) as (r & s' & ? & ?). by exists r, s'. }
  eapply lock_op_enter; [done|by right|done|destruct Ht as [[-> ?]|[-> ?]]; congruence..|]. fold s1.
  apply wp_bind. eapply (wp_mono _ (set_found s1 req (l_type l) vno (fp_pid me) first last me) _ never); [| |done].
  { apply (wp_fold_break _ _ _ (set_loop s1 (l_type l) vno (fp_pid me) first last)).
    - split; try done; by intros ??? ?%elem_of_nil || intros ?? ?%elem_of_nil.
    - intros pre i post a s' Hseq HI. eapply set_step_ok; try done. apply Ha.
    - intros a s' HI. unfold set_found. by rewrite (sl_decided _ _ _ _ _ _ _ _ _ HI). }
  intros a s' Hf. unfold lock_finish. unfold set_found in Hf. destruct (decided a) as [r|] eqn:Hd.
  { destruct Hf as [Hc Hf]. apply wp_ret. split_and!; [|done..]. intros _.
    destruct Hf as [(-> & -> & ->)|(-> & -> & ->)]; split; intros; (done || congruence). }
  destruct Hf as [-> _ Hu Hfree Hused Hclear]. rewrite Hu. apply wp_bind, wp_ret, wp_bind, wp_get.
  replace (req =? F_GETLK) with false by lia. replace (l_type l =? F_UNLCK) with false by (destruct Ht'; lia).
  assert (forall j k, aget T j = Some k -> j ∈ seqZ 0 NR_LOCKS) as Hin by (intros j k; by apply lock_slot_seq with (nr_locks s)).
  assert (~ C) as Hnc.
  { intros (i & k & Hk & Hk0 & Hw)%contended_in_way. rewrite (Hclear i k) in Hw; try done. by eapply Hin. }
  destruct (empty a) as [e|] eqn:He.
  - destruct (Hfree e) as (x & Hx & Hx0); [done|]. change (file_locks s1) with T in Hx.
    destruct (store_lock T (nr_locks s) e x vno (fp_pid me) (l_type l) first last) as [HT' Hl']; try done.
    assert (nr_locks s <> NR_LOCKS) as Hn.
    { intros Hn. rewrite (lt_count _ _ HT) in Hn. fold T in Hn.
      pose proof (sumZ_all_used T e x Hx Hx0). pose proof (lt_length _ _ HT). unfold T in *. lia. }
    eapply wp_bind, wp_upd_lock; [done|]. apply wp_bind, wp_modify, wp_ret. split_and!; [done|done|]. intros _ _.
    split_and!; [done|done|exact HT'|exact Hl'|]. by eapply locked_too_exclusive.
  - apply wp_ret. split_and!; [done|done|]. intros _ Hn. destruct Hn. rewrite (lt_count _ _ HT). fold T.
    destruct (decide (sumZ used T = Z.of_nat (length T))) as [->|Hne]; [apply HT|].
    destruct (free_slot T Hne) as (i & x & _ & Hx & Hx0). destruct (Hused i x); try done. by eapply Hin.
Qed.

(** Asking who holds a lock (F_GETLK).  If another process holds a lock that excludes the
    one asked about, such a lock is copied to the caller, with its type, its bytes and the
    process that holds it; otherwise the request is copied back with the type F_UNLCK.
    The result is that of the copy, and nothing else changes. *)
Theorem lock_op_getlk s f l q vno v me first last w `{!LockLaws} :
  asks s f l q vno v me first last w -> lock_table (file_locks s) (nr_locks s) ->
  l_type l = F_RDLCK \/ l_type l = F_WRLCK ->
  let s1 := s <| world := w |> in
  let C := contended (file_locks s) (l_type l) vno (fp_pid me) first last in
  exists out, lock_op f F_GETLK s = env (out_flock (who_e s) (name1 (m_in s)) out) s1 /\
    (~ C -> out = mk_flock F_UNLCK (l_whence l) (l_start l) (l_len l) (l_pid l)) /\
    (C -> exists i k, aget (file_locks s) i = Some k /\ lock_type k <> 0 /\
       in_way (l_type l) vno (fp_pid me) first last k = true /\
       out = mk_flock (lock_type k) SEEK_SET (lock_first k) (lock_last k - lock_first k + 1) (lock_pid k)).
Proof.
  intros Ha HT Ht s1 C. pose proof (lock_region_le _ _ _ _ _ _ _ (as_region _ _ _ _ _ _ _ _ _ _ Ha s)) as Hle.
  pose proof RDLCK_UNLCK. pose proof WRLCK_UNLCK.
  set (search_of := fold_break (S := state W) (seqZ 0 NR_LOCKS) (mk_search None None false None)
        (lock_step (W := W) F_GETLK (l_type l) vno (fp_pid me) first last)).
  assert (exists a s', search_of s1 = Ret a s' /\ get_found s1 (l_type l) vno (fp_pid me) first last a s') as (a & s' & Hrun & Hf).
  { apply wp_never_run. apply (wp_fold_break _ _ _ (fun pre a s' => conflict a = None /\ set_loop s1 (l_type l) vno (fp_pid me) first last pre a s')).
    - split; [done|]. split; try done; by intros ??? ?%elem_of_nil || intros ?? ?%elem_of_nil.
    - intros pre i post a s' Hseq [Hn HI]. by eapply get_step_ok.
    - intros a s' [Hn HI]. unfold get_found. by rewrite Hn. }
  assert (lock_op f F_GETLK s = lock_finish F_GETLK l vno (fp_pid me) first last a s') as ->.
  { apply wp_same_run. intros Q E HQ. eapply lock_op_enter; [done|by right|by destruct Ht; congruence|done..|].
    fold s1 search_of. apply wp_bind. eapply wp_ret_run; [exact Hrun|exact HQ]. }
  unfold get_found in Hf. unfold lock_finish. destruct (conflict a) as [i|].
  - destruct Hf as (-> & Hd & Hu & k & Hk & Hk0 & Hw). rewrite Hd, Hu.
    eexists. split; [|split; [|by intros _; exists i, k]].
    + rewrite (bind_ret _ _ tt s1 s1), (bind_ret _ _ s1 s1 s1) by done. cbv beta. rewrite Z.eqb_refl.
      rewrite (bind_ret _ _ (mk_flock (lock_type k) SEEK_SET (lock_first k) (lock_last k - lock_first k + 1) (lock_pid k)) s1 s1); [done|].
      unfold lock_at. rewrite (bind_ret _ _ k s1 s1); [done|]. unfold mbind, M_bind, get. by rewrite Hk.
    + intros Hn. destruct Hn. eapply in_way_contended; [exact HT|destruct Ht; congruence|done..].
  - destruct Hf as [-> Hd Hu _ _ Hclear]. rewrite Hd, Hu. eexists. split; [|split; [intros _; reflexivity|]].
    + rewrite (bind_ret _ _ tt s1 s1), (bind_ret _ _ s1 s1 s1) by done. cbv beta. by rewrite Z.eqb_refl.
    + intros (i & k & Hk & Hk0 & Hw)%contended_in_way. rewrite (Hclear i k) in Hw; try done. by eapply lock_slot_seq.
Qed.
End locks.
