(* ===== verification/VfsFd.v ===== *)
(** File descriptors, [src/Project_2/servers/vfs]: the descriptors and the table of open files
    ([filedes.c], [open.c], [misc.c]), pipes and processes that wait ([pipe.c]), and what VFS does
    for the process manager ([misc.c], [device.c], [main.c]). *)
From S2P Require Import Prelude Minix VfsBase VfsLock.
Local Open Scope Z_scope.

Section operations.
Context `{MinixHeaders} `{VfsHeaders} {W : Type} `{VfsEnv W} `{VfsCalls W}.
Abbreviation cmd := (M (state W)).

(** ** [filedes.c] *)
(** The result, the descriptor ([*k]) and the slot for the open file ([*fpt]). *)
Definition get_fd (start bits : Z) : cmd (rc * option Z * option Z) :=
  s ← get;
  k ← for_ (seqZ start (OPEN_MAX - start)) (fun i =>
        p ← fproc_at (fp s);
        x ← fd_slot p i;
        mret (match x with
              | None => if negb (FD_ISSET i (fp_filp_inuse p)) then Some i else None
              | Some _ => None
              end));
  match k with
  | None => mret (EMFILE, None, None)
  | Some _ =>
      fpt ← for_ (seqZ 0 NR_FILPS) (fun f =>
              q ← filp_at f;
              assert_ (0 <=? filp_count q);;
              if filp_count q =? 0 then
                upd_filp f (fun q => q <| filp_mode := bits |> <| filp_pos := 0 |> <| filp_pipe_select_ops := 0 |>
                  <| filp_flags := 0 |> <| filp_state := FS_NORMAL |>);;
                mret (Some f)
              else mret None);
      match fpt with
      | None => mret (ENFILE, k, None)
      | Some _ => mret (OK, k, fpt)
      end
  end.
Definition get_filp2 (rfp fild : Z) : cmd (option Z) :=
  modify (fun s => s <| err_code := EBADF |>);;
  if (fild <? 0) || (OPEN_MAX <=? fild) then mret None else
  p ← fproc_at rfp;
  x ← fd_slot p fild;
  (match x with
   | None => if FD_ISSET fild (fp_filp_inuse p) then modify (fun s => s <| err_code := EIO |>) else mret tt
   | Some _ => mret tt
   end);;
  mret x.
Definition get_filp (fild : Z) : cmd (option Z) := s ← get; get_filp2 (fp s) fild.
Definition find_filp (vp bits : Z) : cmd (option Z) :=
  s ← get;
  mret (first_index (fun q => negb (filp_count q =? 0) && bool_decide (filp_vno q = Some vp) && has (filp_mode q) bits) (filps s)).
Definition invalidate (f : Z) : cmd Z :=
  fold_ (seqZ 0 NR_PROCS) 0 (fun n i =>
    p ← fproc_at i;
    if fp_pid p =? PID_FREE then mret n else
    fold_ (seqZ 0 OPEN_MAX) n (fun n fd =>
      p ← fproc_at i;
      x ← fd_slot p fd;
      if bool_decide (x = Some f) then set_fd i fd None;; mret (n + 1) else mret n)).
Definition verify_fd (ep fd : Z) : cmd (option Z) :=
  '(r, p) ← isokendpt ep;
  if negb (is_ok r) then mret None else get_filp2 p fd.
Definition do_verify_fd : cmd rc :=
  s ← get;
  a ← verify_fd (IO_ENDPT (m_in s)) (COUNT (m_in s));
  modify (fun s => s <| m_out := m_out s <| out_ADDRESS := a |> |>);;
  mret (match a with Some _ => OK | None => EINVAL end).
Definition set_filp (sfilp : option Z) : cmd rc :=
  match sfilp with
  | None => mret EINVAL
  | Some f => upd_filp f (fun q => q <| filp_count := filp_count q + 1 |>);; mret OK
  end.
Definition do_set_filp : cmd rc := s ← get; set_filp (ADDRESS (m_in s)).
(** A null pointer as [cfilp] is stored, and then followed. *)
Definition copy_filp (to_ep : Z) (cfilp : option Z) : cmd rc :=
  '(r, n) ← isokendpt to_ep;
  if negb (is_ok r) then mret EINVAL else
  j ← for_ (seqZ 0 OPEN_MAX) (fun j =>
        p ← fproc_at n;
        x ← fd_slot p j;
        match x with
        | None =>
            if negb (FD_ISSET j (fp_filp_inuse p)) then
              set_fproc n (fun p => p <| fp_filp_inuse := FD_SET j (fp_filp_inuse p) |>);;
              set_fd n j cfilp;;
              f ← deref cfilp;
              upd_filp f (fun q => q <| filp_count := filp_count q + 1 |>);;
              mret (Some j)
            else mret None
        | Some _ => mret None
        end);
  mret (match j with Some j => Rc j | None => EMFILE end).
Definition do_copy_filp : cmd rc := s ← get; copy_filp (IO_ENDPT (m_in s)) (ADDRESS (m_in s)).
Definition cancel_fd (ep fd : Z) : cmd rc :=
  '(r, n) ← isokendpt ep;
  if negb (is_ok r) then mret EINVAL else
  a ← verify_fd ep fd;
  match a with
  | Some _ =>
      set_fproc n (fun p => p <| fp_filp_inuse := FD_CLR fd (fp_filp_inuse p) |>);;
      p ← fproc_at n;
      x ← fd_slot p fd;
      f ← deref x;
      upd_filp f (fun q => q <| filp_count := filp_count q - 1 |>);;
      set_fd n fd None;;
      mret (Rc fd)
  | None => mret EINVAL
  end.
Definition do_cancel_fd : cmd rc := s ← get; cancel_fd (IO_ENDPT (m_in s)) (COUNT (m_in s)).

(** ** [pipe.c]: releasing the processes that wait for a pipe *)
Definition release (vp call count : Z) : cmd unit :=
  (if (call =? READ) || (call =? WRITE) then
     let op := if call =? READ then SEL_RD else SEL_WR in
     foreach (seqZ 0 NR_FILPS) (fun f =>
       q ← filp_at f;
       if (filp_count q <? 1) || negb (has (filp_pipe_select_ops q) op) || negb (bool_decide (filp_vno q = Some vp))
       then mret tt
       else
         select_callback f op;;
         upd_filp f (fun q => q <| filp_pipe_select_ops := Z.ldiff (filp_pipe_select_ops q) op |>))
   else mret tt);;
  fold_break (seqZ 0 NR_PROCS) count (fun count i =>
    if negb (0 <? count) then mret (count, true) else
    p ← fproc_at i;
    b ← (if negb (fp_pid p =? PID_FREE) && fp_is_blocked p && negb (fp_revived p) && (fp_block_callnr p =? call) then
           x ← fd_slot p (fp_block_fd p);
           f ← deref x;
           q ← filp_at f;
           mret (bool_decide (filp_vno q = Some vp))
         else mret false);
    if b : bool then
      revive (fp_endpoint p) OK;;
      modify (fun s => s <| susp_count := susp_count s - 1 |>);;
      s ← get;
      if susp_count s <? 0 then halt Panic else mret (count - 1, count - 1 =? 0)
    else mret (count, false));;
  mret tt.

(** [truncate_vnode] of [link.c] *)
Definition truncate_vnode (vp newsize : Z) : cmd rc :=
  v ← vnode_at vp;
  let file_type := Z.land (v_mode v) I_TYPE in
  if negb (file_type =? I_REGULAR) && negb (file_type =? I_NAMED_PIPE) then mret EINVAL else
  r ← env (req_ftrunc (v_fs_e v) (v_inode_nr v) newsize 0);
  (if is_ok r then upd_vnode vp (fun v => v <| v_size := newsize |>) else mret tt);;
  mret r.

(** ** Closing *)
Definition close_filp (f : Z) : cmd unit :=
  q ← filp_at f;
  vp ← deref (filp_vno q);
  v ← vnode_at vp;
  (if (filp_count q - 1 =? 0) && negb (filp_mode q =? FILP_CLOSED) then
     let mode_word := Z.land (v_mode v) I_TYPE in
     if (mode_word =? I_CHAR_SPECIAL) || (mode_word =? I_BLOCK_SPECIAL) then
       let dev := v_sdev v in
       (if (mode_word =? I_BLOCK_SPECIAL) && (v_bfs_e v =? ROOT_FS_E) then env (req_flush (v_bfs_e v) dev) else mret tt);;
       dev_close dev f;;
       upd_filp f (fun q => q <| filp_mode := FILP_CLOSED |>)
     else mret tt
   else mret tt);;
  v ← vnode_at vp;
  (if v_pipe v =? I_PIPE then
     q ← filp_at f;
     release vp (if has (filp_mode q) R_BIT then WRITE else READ) NR_PROCS
   else mret tt);;
  upd_filp f (fun q => q <| filp_count := filp_count q - 1 |>);;
  q ← filp_at f;
  if filp_count q =? 0 then
    v ← vnode_at vp;
    (if v_pipe v =? I_PIPE then truncate_vnode vp (v_size v);; mret tt else mret tt);;
    vp ← deref (filp_vno q);
    put_vnode vp
  else mret tt.
Definition put_filp (pfilp : option Z) : cmd rc :=
  match pfilp with
  | None => mret EINVAL
  | Some f => close_filp f;; mret OK
  end.
Definition do_put_filp : cmd rc := s ← get; put_filp (ADDRESS (m_in s)).
(** The locks of process [pid] on file [vp] are removed. *)
Definition drop_locks (vp pid : Z) : cmd unit :=
  foreach (seqZ 0 NR_LOCKS) (fun i =>
    l ← lock_at i;
    if lock_type l =? 0 then mret tt else
    if (lock_vnode l =? vp) && (lock_pid l =? pid) then
      upd_lock i (fun l => l <| lock_type := 0 |>);;
      modify (fun s => s <| nr_locks := nr_locks s - 1 |>)
    else mret tt).
Definition close_fd (rfp fd_nr : Z) : cmd rc :=
  x ← get_filp2 rfp fd_nr;
  match x with
  | None => s ← get; mret (err_code s)
  | Some rfilp =>
      q ← filp_at rfilp;
      vp ← deref (filp_vno q);
      close_filp rfilp;;
      set_fproc rfp (fun p => p <| fp_cloexec_set := FD_CLR fd_nr (fp_cloexec_set p) |>);;
      set_fd rfp fd_nr None;;
      set_fproc rfp (fun p => p <| fp_filp_inuse := FD_CLR fd_nr (fp_filp_inuse p) |>);;
      s ← get;
      if nr_locks s =? 0 then mret OK else
      let lock_count := nr_locks s in
      p ← fproc_at rfp;
      drop_locks vp (fp_pid p);;
      s ← get;
      (if nr_locks s <? lock_count then lock_revive else mret tt);;
      mret OK
  end.
Definition do_close : cmd rc := s ← get; close_fd (fp s) (fd (m_in s)).

(** ** [misc.c]: [dup] and [fcntl] *)
(** Descriptor [fd2] of the process refers to open file [f] too. *)
Definition dup_share (f : Z) : cmd rc :=
  upd_filp f (fun q => q <| filp_count := filp_count q + 1 |>);;
  s ← get;
  set_fd (fp s) (fd2 (m_in s)) (Some f);;
  set_fproc (fp s) (fun p => p <| fp_filp_inuse := FD_SET (fd2 (m_in s)) (fp_filp_inuse p) |>);;
  mret (Rc (fd2 (m_in s))).
Definition do_dup : cmd rc :=
  s ← get;
  let rfd := Z.ldiff (fd (m_in s)) DUP_MASK in
  x ← get_filp rfd;
  match x with
  | None => s ← get; mret (err_code s)
  | Some f =>
      if fd (m_in s) =? rfd then
        '(r, k, _) ← get_fd 0 0;
        (match k with Some k => modify (fun s => s <| m_in := m_in s <| m1_i2 := k |> |>) | None => mret tt end);;
        if negb (is_ok r) then mret r else dup_share f
      else
      if (fd2 (m_in s) <? 0) || (OPEN_MAX <=? fd2 (m_in s)) then mret EBADF else
      if rfd =? fd2 (m_in s) then mret (Rc (fd2 (m_in s))) else
      modify (fun s => s <| m_in := m_in s <| m1_i1 := fd2 (m_in s) |> |>);;
      do_close;;
      dup_share f
  end.
(** The start and the end of the section F_FREESP frees; end 0: up to the end of the file. *)
Definition freesp_section (q : filp) (v : vnode) (l : flock) : cmd (option (Z * Z)) :=
  start ← (if l_whence l =? SEEK_SET then mret (Some 0)
           else if l_whence l =? SEEK_CUR then
             if negb (Z.shiftr (filp_pos q) 32 =? 0) then halt Panic else mret (Some (s32 (filp_pos q)))
           else if l_whence l =? SEEK_END then mret (Some (v_size v))
           else mret None);
  match start with
  | None => mret None
  | Some start =>
      let offset := l_start l in
      sum ← deref (off_t (start + offset));
      if (0 <? offset) && (sum <? start) then mret None else
      if (offset <? 0) && (start <? sum) then mret None else
      let start := sum in
      if start <? 0 then mret None else
      if negb (l_len l =? 0) then
        if v_size v <=? start then mret None else
        e ← deref (off_t (start + l_len l));
        if e <=? start then mret None else mret (Some (start, Z.min e (v_size v)))
      else mret (Some (start, 0))
  end.
Definition do_fcntl : cmd rc :=
  s ← get;
  let m := m_in s in
  x ← get_filp (fd m);
  match x with
  | None => s ← get; mret (err_code s)
  | Some f =>
      let req := request m in
      if req =? F_DUPFD then
        if (addr m <? 0) || (OPEN_MAX <=? addr m) then mret EINVAL else
        '(r, k, _) ← get_fd (addr m) 0;
        if negb (is_ok r) then mret r else
        new_fd ← deref k;
        upd_filp f (fun q => q <| filp_count := filp_count q + 1 |>);;
        set_fd (fp s) new_fd (Some f);;
        mret (Rc new_fd)
      else if req =? F_GETFD then
        p ← fproc_at (fp s);
        mret (Rc (if FD_ISSET (fd m) (fp_cloexec_set p) then FD_CLOEXEC else 0))
      else if req =? F_SETFD then
        (if has (addr m) FD_CLOEXEC
         then set_fproc (fp s) (fun p => p <| fp_cloexec_set := FD_SET (fd m) (fp_cloexec_set p) |>)
         else set_fproc (fp s) (fun p => p <| fp_cloexec_set := FD_CLR (fd m) (fp_cloexec_set p) |>));;
        mret OK
      else if req =? F_GETFL then
        q ← filp_at f;
        mret (Rc (Z.land (filp_flags q) (Z.lor (Z.lor O_NONBLOCK O_APPEND) O_ACCMODE)))
      else if req =? F_SETFL then
        let fl := Z.lor (Z.lor O_NONBLOCK O_APPEND) O_REOPEN in
        upd_filp f (fun q => q <| filp_flags := Z.lor (Z.ldiff (filp_flags q) fl) (Z.land (addr m) fl) |>);;
        mret OK
      else if (req =? F_GETLK) || (req =? F_SETLK) || (req =? F_SETLKW) then lock_op f req
      else if req =? F_FREESP then
        q ← filp_at f;
        vno ← deref (filp_vno q);
        v ← vnode_at vno;
        if negb (Z.land (v_mode v) I_TYPE =? I_REGULAR) then mret EINVAL else
        if negb (has (filp_mode q) W_BIT) then mret EBADF else
        '(r, l) ← env (in_flock (who_e s) (name1 m));
        if negb (is_ok r) then mret r else
        section ← freesp_section q v l;
        match section with
        | None => mret EINVAL
        | Some (start, end_) =>
            r ← env (req_ftrunc (v_fs_e v) (v_inode_nr v) start end_);
            (if is_ok r && (l_len l =? 0) then upd_vnode vno (fun v => v <| v_size := start |>) else mret tt);;
            mret r
        end
      else mret EINVAL
  end.

(** ** [pipe.c]: making a pipe, and waiting *)
(** A descriptor for slot [f] of the open files is claimed. *)
Definition claim_fd (k f : Z) : cmd unit :=
  s ← get;
  set_fd (fp s) k (Some f);;
  set_fproc (fp s) (fun p => p <| fp_filp_inuse := FD_SET k (fp_filp_inuse p) |>);;
  upd_filp f (fun q => q <| filp_count := 1 |>).
Definition unclaim_fd (k f : Z) : cmd unit :=
  s ← get;
  set_fd (fp s) k None;;
  set_fproc (fp s) (fun p => p <| fp_filp_inuse := FD_CLR k (fp_filp_inuse p) |>);;
  upd_filp f (fun q => q <| filp_count := 0 |>).
Definition do_pipe : cmd rc :=
  vp ← get_free_vnode;
  match vp with
  | None => s ← get; mret (err_code s)
  | Some vp =>
      '(r, k0, f0) ← get_fd 0 R_BIT;
      if negb (is_ok r) then mret r else
      k0 ← deref k0; f0 ← deref f0;
      claim_fd k0 f0;;
      '(r, k1, f1) ← get_fd 0 W_BIT;
      if negb (is_ok r) then unclaim_fd k0 f0;; mret r else
      k1 ← deref k1; f1 ← deref f1;
      claim_fd k1 f1;;
      s ← get;
      p ← fproc_at (fp s);
      '(r, res) ← env (req_newnode PFS_PROC_NR (fp_effuid p) (fp_effgid p) I_NAMED_PIPE NO_DEV);
      if negb (is_ok r) then unclaim_fd k0 f0;; unclaim_fd k1 f1;; mret r else
      upd_vnode vp (fun v => v <| v_fs_e := fs_e res |> <| v_mapfs_e := fs_e res |> <| v_inode_nr := inode_nr res |>
        <| v_mapinode_nr := inode_nr res |> <| v_mode := fmode res |> <| v_pipe := I_PIPE |> <| v_pipe_rd_pos := 0 |>
        <| v_pipe_wr_pos := 0 |> <| v_fs_count := 1 |> <| v_mapfs_count := 1 |> <| v_ref_count := 1 |> <| v_size := 0 |>
        <| v_vmnt := None |> <| v_dev := NO_DEV |>);;
      upd_filp f0 (fun q => q <| filp_vno := Some vp |>);;
      dup_vnode vp;;
      upd_filp f1 (fun q => q <| filp_vno := Some vp |>);;
      upd_filp f0 (fun q => q <| filp_flags := O_RDONLY |>);;
      upd_filp f1 (fun q => q <| filp_flags := O_WRONLY |>);;
      modify (fun s => s <| m_out := m_out s <| reply_i1 := k0 |> <| reply_i2 := k1 |> |>);;
      mret OK
  end.
Definition map_vnode (vp : Z) : cmd rc :=
  v ← vnode_at vp;
  if negb (v_mapfs_e v =? 0) then mret OK else
  s ← get;
  p ← fproc_at (fp s);
  '(r, res) ← env (req_newnode PFS_PROC_NR (fp_effuid p) (fp_effgid p) I_NAMED_PIPE (v_dev v));
  (if is_ok r then
     upd_vnode vp (fun v => v <| v_mapfs_e := fs_e res |> <| v_mapinode_nr := inode_nr res |> <| v_mapfs_count := 1 |>)
   else mret tt);;
  mret r.
(** Whether a pipe can be read or written: the number of bytes, or why not. *)
Definition pipe_check (vp : Z) (reading : bool) (oflags bytes position : Z) (notouch : bool) : cmd rc :=
  if negb (Z.shiftr position 32 =? 0) then halt Panic else
  let pos := s32 position in
  v ← vnode_at vp;
  if reading then
    if v_size v <=? pos then
      w ← find_filp vp W_BIT;
      match w with
      | Some _ =>
          s ← get;
          (if 0 <? susp_count s then release vp WRITE (susp_count s) else mret tt);;
          mret (if has oflags O_NONBLOCK then EAGAIN else SUSPEND)
      | None => mret OK
      end
    else mret (Rc bytes)
  else
  w ← find_filp vp R_BIT;
  match w with
  | None =>
      s ← get;
      p ← fproc_at (fp s);
      (if negb notouch then env (sys_kill_pipe (fp_endpoint p)) else mret tt);;
      mret EPIPE
  | Some _ =>
      s ← get;
      let wake := if negb notouch then release vp READ (susp_count s) else mret tt in
      sum ← deref (off_t (pos + bytes));
      if PIPE_BUF <? sum then
        if has oflags O_NONBLOCK then
          if bytes <=? PIPE_BUF then mret EAGAIN else
          let bytes := PIPE_BUF - pos in
          if 0 <? bytes then wake;; mret (Rc bytes) else mret EAGAIN
        else
        if (PIPE_BUF <? bytes) && (0 <? PIPE_BUF - pos) then wake;; mret (Rc (PIPE_BUF - pos)) else
        mret SUSPEND
      else
        (if pos =? 0 then wake else mret tt);;
        mret (Rc bytes)
  end.
Definition pipe_suspend (reading : bool) (fd_nr buf size : Z) : cmd unit :=
  modify (fun s => s <| susp_count := susp_count s + 1 |>);;
  s ← get;
  p ← fproc_at (fp s);
  assert_ (negb (GRANT_VALID (fp_grant p)));;
  set_fproc (fp s) (fun p => p <| fp_blocked_on := FP_BLOCKED_ON_PIPE |> <| fp_block_fd := fd_nr |>
    <| fp_block_callnr := if reading then READ else WRITE |> <| fp_buffer := buf |> <| fp_nbytes := size |>).
Definition wait_for (who : Z) : cmd unit :=
  if (who =? NONE) || (who =? ANY) then halt Panic else
  suspend FP_BLOCKED_ON_OTHER;;
  s ← get;
  set_fproc (fp s) (fun p => p <| fp_task := who |>).
Definition unsuspend_by_endpt (proc_e : Z) : cmd unit :=
  foreach (seqZ 0 NR_PROCS) (fun i =>
    p ← fproc_at i;
    if negb (fp_pid p =? PID_FREE) && (fp_blocked_on p =? FP_BLOCKED_ON_OTHER) && (fp_task p =? proc_e)
    then revive (fp_endpoint p) EAGAIN else mret tt);;
  select_unsuspend_by_endpt proc_e.
Definition unpause (proc_nr_e : Z) : cmd unit :=
  '(r, n) ← isokendpt proc_nr_e;
  if negb (is_ok r) then mret tt else
  p ← fproc_at n;
  if negb (fp_is_blocked p) then mret tt else
  let blocked_on := fp_blocked_on p in
  let wasreviving := fp_revived p in
  (if fp_revived p then
     set_fproc n (fun p => p <| fp_revived := false |>);;
     modify (fun s => s <| reviving := reviving s - 1 |>)
   else mret tt);;
  (* the status to answer with; None: the call is not interrupted now *)
  st ← (if (blocked_on =? FP_BLOCKED_ON_PIPE) || (blocked_on =? FP_BLOCKED_ON_LOCK) then mret (Some EINTR)
        else if blocked_on =? FP_BLOCKED_ON_SELECT then select_forget proc_nr_e;; mret (Some EINTR)
        else if blocked_on =? FP_BLOCKED_ON_POPEN then mret (Some EINTR)
        else if blocked_on =? FP_BLOCKED_ON_DOPEN then mret None
        else if blocked_on =? FP_BLOCKED_ON_OTHER then
          if has (fp_flags p) SUSP_REOPEN then
            set_fproc n (fun p => p <| fp_flags := Z.ldiff (fp_flags p) SUSP_REOPEN |>);;
            mret (Some EINTR)
          else
          let fild := fp_block_fd p in
          if (fild <? 0) || (OPEN_MAX <=? fild) then halt Panic else
          x ← fd_slot p fild;
          f ← deref x;
          q ← filp_at f;
          vno ← deref (filp_vno q);
          v ← vnode_at vno;
          modify (fun s => s <| fp := n |>);;
          status ← env (dmap_cancel (v_sdev v) (fp_task p) (fp_ioproc p) (fp_grant p) (fp_block_callnr p =? READ));
          if bool_decide (status = SUSPEND) then mret None else
          (if GRANT_VALID (fp_grant p) then
             b ← env (cpf_revoke (fp_grant p));
             if b : bool then halt Panic else set_fproc n (fun p => p <| fp_grant := GRANT_INVALID |>)
           else mret tt);;
          mret (Some (if bool_decide (status = EAGAIN) then EINTR else status))
        else halt Panic);
  match st with
  | None => mret tt
  | Some status =>
      set_fproc n (fun p => p <| fp_blocked_on := FP_BLOCKED_ON_NONE |>);;
      (if ((blocked_on =? FP_BLOCKED_ON_PIPE) || (blocked_on =? FP_BLOCKED_ON_POPEN)) && negb wasreviving then
         modify (fun s => s <| susp_count := susp_count s - 1 |>)
       else mret tt);;
      reply proc_nr_e status
  end.

(** ** Processes *)
Definition pm_fork (pproc cproc cpid : Z) : cmd unit :=
  parentno ← okendpt pproc;
  let childno := _ENDPOINT_P cproc in
  if (childno <? 0) || (NR_PROCS <=? childno) then halt Panic else
  c ← fproc_at childno;
  if negb (fp_pid c =? PID_FREE) then halt Panic else
  parent ← fproc_at parentno;
  set_fproc childno (fun _ => parent);;
  modify (fun s => s <| fp := parentno |>);;
  foreach (seqZ 0 OPEN_MAX) (fun i =>
    c ← fproc_at childno;
    x ← fd_slot c i;
    match x with
    | Some f => upd_filp f (fun q => q <| filp_count := filp_count q + 1 |>)
    | None => mret tt
    end);;
  set_fproc childno (fun c => c <| fp_pid := cpid |> <| fp_endpoint := cproc |>);;
  s ← get;
  p ← fproc_at (fp s);
  if GRANT_VALID (fp_grant p) then halt Panic else
  c ← fproc_at childno;
  if GRANT_VALID (fp_grant c) then halt Panic else
  set_fproc childno (fun c => c <| fp_sesldr := 0 |> <| fp_execced := 0 |>);;
  c ← fproc_at childno;
  (match fp_rd c with Some v => dup_vnode v | None => mret tt end);;
  (match fp_wd c with Some v => dup_vnode v | None => mret tt end).
(** The terminal [dev] is taken from process [i]. *)
Definition revoke_tty (dev i : Z) : cmd unit :=
  p ← fproc_at i;
  if fp_pid p =? PID_FREE then mret tt else
  (if fp_tty p =? dev then set_fproc i (fun p => p <| fp_tty := 0 |>) else mret tt);;
  foreach (seqZ 0 OPEN_MAX) (fun fd =>
    p ← fproc_at i;
    x ← fd_slot p fd;
    match x with
    | None => mret tt
    | Some f =>
        q ← filp_at f;
        if filp_mode q =? FILP_CLOSED then mret tt else
        vp ← deref (filp_vno q);
        v ← vnode_at vp;
        if negb (Z.land (v_mode v) I_TYPE =? I_CHAR_SPECIAL) then mret tt else
        if negb (v_sdev v =? dev) then mret tt else
        dev_close dev f;;
        upd_filp f (fun q => q <| filp_mode := FILP_CLOSED |>)
    end).
(** Root and working directory of process [n] are released. *)
Definition put_rd (n : Z) : cmd unit :=
  p ← fproc_at n;
  match fp_rd p with
  | Some v => put_vnode v;; set_fproc n (fun p => p <| fp_rd := None |>)
  | None => mret tt
  end.
Definition put_wd (n : Z) : cmd unit :=
  p ← fproc_at n;
  match fp_wd p with
  | Some v => put_vnode v;; set_fproc n (fun p => p <| fp_wd := None |>)
  | None => mret tt
  end.
(** The part of [free_proc] that reboots do too; the slot of the process. *)
Definition leave_proc (exiter : Z) : cmd Z :=
  modify (fun s => s <| fp := exiter |>);;
  p ← fproc_at exiter;
  if fp_endpoint p =? NONE then halt Panic else
  (if fp_is_blocked p then unpause (fp_endpoint p) else mret tt);;
  foreach (seqZ 0 OPEN_MAX) (fun i => s ← get; close_fd (fp s) i;; mret tt);;
  s ← get;
  p ← fproc_at (fp s);
  unsuspend_by_endpt (fp_endpoint p);;
  s ← get;
  put_rd (fp s);; put_wd (fp s);;
  mret (fp s).
Definition free_proc (exiter flags : Z) : cmd unit :=
  n ← leave_proc exiter;
  if negb (has flags FP_EXITING) then mret tt else
  set_fproc n (fun p => p <| fp_endpoint := NONE |>);;
  p ← fproc_at n;
  (if negb (fp_sesldr p =? 0) && negb (fp_tty p =? 0) then foreach (seqZ 0 NR_PROCS) (revoke_tty (fp_tty p)) else mret tt);;
  set_fproc n (fun p => p <| fp_pid := PID_FREE |>).
Definition pm_exit (proc : Z) : cmd unit := n ← okendpt proc; free_proc n FP_EXITING.
Definition pm_dumpcore (proc_e : Z) : cmd rc := n ← okendpt proc_e; free_proc n FP_EXITING;; mret OK.
Definition pm_setgid (proc_e egid rgid : Z) : cmd unit :=
  n ← okendpt proc_e; set_fproc n (fun p => p <| fp_effgid := egid |> <| fp_realgid := rgid |>).
Definition pm_setuid (proc_e euid ruid : Z) : cmd unit :=
  n ← okendpt proc_e; set_fproc n (fun p => p <| fp_effuid := euid |> <| fp_realuid := ruid |>).
(** The sizes are compared as [size_t]. *)
Definition pm_setgroups (proc_e ngroups groups : Z) : cmd unit :=
  n ← okendpt proc_e;
  s ← get;
  if NGROUPS * sizeof_gid_t <? u32 (u32 ngroups * sizeof_gid_t) then halt Panic else
  '(r, gs) ← env (in_groups (who_e s) groups ngroups);
  if is_ok r then
    set_fproc n (fun p => p <| fp_sgroups := gs ++ drop (length gs) (fp_sgroups p) |> <| fp_ngroups := ngroups |>)
  else halt Panic.
Definition pm_setsid (proc_e : Z) : cmd unit :=
  n ← okendpt proc_e; set_fproc n (fun p => p <| fp_sesldr := 1 |> <| fp_tty := 0 |>).
(** [do_sync] is [req_sync_all]. *)
Definition pm_reboot : cmd unit :=
  env req_sync_all;;
  foreach (seqZ 0 NR_PROCS) (fun i =>
    p ← fproc_at i;
    modify (fun s => s <| m_in := m_in s <| m1_i1 := fp_endpoint p |> |>);;
    if negb (fp_endpoint p =? NONE) then free_proc i 0 else mret tt);;
  unmount_all.

(** ** [main.c]: a request of the process manager *)
Definition answer (t proc : Z) : cmd unit :=
  modify (fun s => s <| m_out := m_out s <| reply_type := inr t |> <| out_PM_PROC := proc |> |>).
Definition service_pm : cmd unit :=
  s ← get;
  let m := m_in s in
  let c := call_nr s in
  known ←
    (if c =? PM_SETUID then pm_setuid (PM_PROC m) (PM_EID m) (PM_RID m);; answer PM_SETUID_REPLY (PM_PROC m);; mret true
     else if c =? PM_SETGID then pm_setgid (PM_PROC m) (PM_EID m) (PM_RID m);; answer PM_SETGID_REPLY (PM_PROC m);; mret true
     else if c =? PM_SETSID then pm_setsid (PM_PROC m);; answer PM_SETSID_REPLY (PM_PROC m);; mret true
     else if c =? PM_EXEC then
       '(r, pc) ← pm_exec (PM_PROC m) (PM_PATH m) (PM_PATH_LEN m) (PM_FRAME m) (PM_FRAME_LEN m);
       answer PM_EXEC_REPLY (PM_PROC m);;
       modify (fun s => s <| m_out := m_out s <| out_PM_PC := pc |> <| out_PM_STATUS := r |> |>);; mret true
     else if c =? PM_EXIT then pm_exit (PM_PROC m);; answer PM_EXIT_REPLY (PM_PROC m);; mret true
     else if c =? PM_DUMPCORE then
       r ← pm_dumpcore (PM_PROC m);
       answer PM_CORE_REPLY (PM_PROC m);;
       modify (fun s => s <| m_out := m_out s <| out_PM_STATUS := r |> |>);; mret true
     else if (c =? PM_FORK) || (c =? PM_SRV_FORK) then
       pm_fork (PM_PPROC m) (PM_PROC m) (PM_CPID m);;
       s ← get;
       answer (if call_nr s =? PM_FORK then PM_FORK_REPLY else PM_SRV_FORK_REPLY) (PM_PROC m);; mret true
     else if c =? PM_SETGROUPS then
       pm_setgroups (PM_PROC m) (PM_GROUP_NO m) (PM_GROUP_ADDR m);; answer PM_SETGROUPS_REPLY (PM_PROC m);; mret true
     else if c =? PM_UNPAUSE then unpause (PM_PROC m);; answer PM_UNPAUSE_REPLY (PM_PROC m);; mret true
     else if c =? PM_REBOOT then
       pm_reboot;; modify (fun s => s <| m_out := m_out s <| reply_type := inr PM_REBOOT_REPLY |> |>);; mret true
     else mret false);
  if negb known then mret tt else
  s ← get;
  r ← env (send_pm (m_out s));
  if negb (is_ok r) then halt Panic else mret tt.
End operations.
