(* ===== verification/VfsRefs.v ===== *)
(** What refers to what in the virtual file system server, and how it is counted.  A process
    refers to open files through its descriptors and to vnodes through its directories; an
    open file that is used refers to its vnode.  The operations here are the specification
    that the code of [filedes.c], [open.c] and [misc.c] implements; see [VfsClose] and
    [VfsProc]. *)
From S2P Require Import Prelude Minix VfsBase.
Local Open Scope Z_scope.

(** ** References *)
Record holder := mk_holder {
  h_fds : list (option Z);  (* the open file of each descriptor *)
  h_rd : option Z;
  h_wd : option Z;
  h_pid : Z;
}.
#[export] Instance eta_holder : Eta holder := fun r => mk_holder (h_fds r) (h_rd r) (h_wd r) (h_pid r).
Record refs := mk_refs {
  holders : list holder;
  opens : list (Z * option Z);  (* how often each open file is used, and its vnode *)
  counts : list Z;  (* how often each vnode is used *)
}.
#[export] Instance eta_refs : Eta refs := fun r => mk_refs (holders r) (opens r) (counts r).

Lemma refs_ext R R' : holders R = holders R' -> opens R = opens R' -> counts R = counts R' -> R = R'.
Proof. destruct R, R'. cbn. congruence. Qed.

Definition points (x : Z) (o : option Z) : Z := if bool_decide (o = Some x) then 1 else 0.
Definition fds_of (f : Z) (h : holder) : Z := sumZ (points f) (h_fds h).
Definition dirs_of (v : Z) (h : holder) : Z := points v (h_rd h) + points v (h_wd h).
Definition open_of (v : Z) (q : Z * option Z) : Z := if q.1 =? 0 then 0 else points v q.2.
(** A process that refers to nothing. *)
Definition idle (h : holder) : Prop :=
  (forall j f, aget (h_fds h) j <> Some (Some f)) /\ h_rd h = None /\ h_wd h = None.
(** Every counter is the number of references; [flights f] of those to open file [f] are in
    messages of the pipe server, and [mounts v] of those to vnode [v] are in the mount table. *)
Record counted (flights mounts : Z -> Z) (R : refs) : Prop := {
  ct_open f n o : aget (opens R) f = Some (n, o) -> n = sumZ (fds_of f) (holders R) + flights f;
  ct_vnode v n : aget (counts R) v = Some n ->
    n = sumZ (dirs_of v) (holders R) + sumZ (open_of v) (opens R) + mounts v;
  ct_vno f n o : aget (opens R) f = Some (n, o) -> n <> 0 -> exists v k, o = Some v /\ aget (counts R) v = Some k;
  ct_fd i h j f : aget (holders R) i = Some h -> aget (h_fds h) j = Some (Some f) -> exists q, aget (opens R) f = Some q;
  ct_dir i h v : aget (holders R) i = Some h -> h_rd h = Some v \/ h_wd h = Some v -> exists n, aget (counts R) v = Some n;
  ct_free i h : aget (holders R) i = Some h -> h_pid h = PID_FREE -> idle h;
  ct_flights f : 0 <= flights f;
  ct_mounts v : 0 <= mounts v;
}.

(** ** The operations *)
Definition use_open (f d : Z) (R : refs) : refs := R <| opens := aupd f (fun q => (q.1 + d, q.2)) (opens R) |>.
Definition use_vnode (v d : Z) (R : refs) : refs := R <| counts := aupd v (fun n => n + d) (counts R) |>.
Definition set_holder (i : Z) (f : holder -> holder) (R : refs) : refs := R <| holders := aupd i f (holders R) |>.
Definition set_slot (i j : Z) (x : option Z) (R : refs) : refs :=
  set_holder i (fun h => h <| h_fds := aupd j (fun _ => x) (h_fds h) |>) R.
(** One use of an open file ends; the last one gives its vnode up. *)
Definition end_use (f : Z) (R : refs) : refs :=
  match aget (opens R) f with
  | Some (1, Some v) => use_vnode v (-1) (use_open f (-1) R)
  | _ => use_open f (-1) R
  end.
(** A descriptor is closed; one that is not open stays so. *)
Definition closed (i j : Z) (R : refs) : refs :=
  match aget (holders R) i ≫= (fun h => aget (h_fds h) j) with
  | Some (Some f) => set_slot i j None (end_use f R)
  | _ => R
  end.
Definition use_dirs (h : holder) (d : Z) (R : refs) : refs :=
  let R := match h_rd h with Some v => use_vnode v d R | None => R end in
  match h_wd h with Some v => use_vnode v d R | None => R end.
(** A process gives up its root, its working directory. *)
Definition put_rd_of (i : Z) (R : refs) : refs :=
  match aget (holders R) i ≫= h_rd with
  | Some v => set_holder i (fun h => h <| h_rd := None |>) (use_vnode v (-1) R)
  | None => R
  end.
Definition put_wd_of (i : Z) (R : refs) : refs :=
  match aget (holders R) i ≫= h_wd with
  | Some v => set_holder i (fun h => h <| h_wd := None |>) (use_vnode v (-1) R)
  | None => R
  end.
(** The first [n] descriptors of a process are closed. *)
Definition closed_all (i n : Z) (R : refs) : refs := fold_left (fun R j => closed i j R) (seqZ 0 n) R.
(** A process with [n] descriptors gives up all that it refers to; then its slot is free. *)
Definition left_all (i n : Z) (R : refs) : refs := put_wd_of i (put_rd_of i (closed_all i n R)).
Definition exited (i n : Z) (R : refs) : refs := set_holder i (fun h => h <| h_pid := PID_FREE |>) (left_all i n R).

(** ** Sums *)
Lemma points_nonneg x o : 0 <= points x o.
Proof. unfold points. by case_bool_decide. Qed.
Lemma points_eq x : points x (Some x) = 1.
Proof. unfold points. by rewrite bool_decide_true. Qed.
Lemma points_ne x y : x <> y -> points x (Some y) = 0.
Proof. intros. unfold points. rewrite bool_decide_false; [done|congruence]. Qed.
Lemma sumZ_pos {A} (g : A -> Z) l : (forall x, 0 <= g x) -> 0 <= sumZ g l.
Proof. intros Hg. apply sumZ_nonneg, Forall_forall. auto. Qed.
Lemma sumZ_member {A} (g : A -> Z) l i x : (forall y, 0 <= g y) -> aget l i = Some x -> g x <= sumZ g l.
Proof.
  intros Hg [_ Hx]%aget_Some. rewrite <-(take_drop_middle _ _ _ Hx), sumZ_app, sumZ_cons.
  pose proof (sumZ_pos g (take (Z.to_nat i) l) Hg). pose proof (sumZ_pos g (drop (S (Z.to_nat i)) l) Hg). lia.
Qed.
Lemma sumZ_aupd_same {A} (g : A -> Z) l i u : (forall x, aget l i = Some x -> g (u x) = g x) -> sumZ g (aupd i u l) = sumZ g l.
Proof.
  intros Hu. destruct (aget l i) as [x|] eqn:Hx; [rewrite (sumZ_aupd _ _ _ _ _ Hx), (Hu x) by done; lia|].
  by rewrite aupd_id by (intros x Hx'; congruence).
Qed.
Lemma fds_of_nonneg f h : 0 <= fds_of f h.
Proof. apply sumZ_pos, points_nonneg. Qed.
Lemma dirs_of_nonneg v h : 0 <= dirs_of v h.
Proof. unfold dirs_of. pose proof (points_nonneg v (h_rd h)). pose proof (points_nonneg v (h_wd h)). lia. Qed.
Lemma open_of_nonneg v q : 0 <= open_of v q.
Proof. unfold open_of. destruct (_ =? _); [done|apply points_nonneg]. Qed.
#[export] Hint Resolve points_nonneg fds_of_nonneg dirs_of_nonneg open_of_nonneg : core.

Section counted.
Context (flights mounts : Z -> Z).
Implicit Types (R : refs) (h : holder).
Abbreviation counted := (counted flights mounts).

(** A descriptor's open file is in use. *)
Lemma counted_fd R i h j f :
  counted R -> aget (holders R) i = Some h -> aget (h_fds h) j = Some (Some f) ->
  exists n o, aget (opens R) f = Some (n, o) /\ 1 <= n.
Proof.
  intros Hc Hh Hf. destruct (ct_fd _ _ _ Hc _ _ _ _ Hh Hf) as [[n o] Hq]. exists n, o. split; [done|].
  rewrite (ct_open _ _ _ Hc _ _ _ Hq). pose proof (ct_flights _ _ _ Hc f).
  pose proof (sumZ_member (fds_of f) _ _ _ (fds_of_nonneg f) Hh) as Hm.
  pose proof (sumZ_member (points f) _ _ _ (points_nonneg f) Hf) as Hp. rewrite points_eq in Hp. unfold fds_of in Hm at 1. lia.
Qed.
Lemma counted_vno R f n v :
  counted R -> aget (opens R) f = Some (n, Some v) -> n <> 0 -> exists k, aget (counts R) v = Some k /\ 1 <= k.
Proof.
  intros Hc Hq Hn. destruct (ct_vno _ _ _ Hc _ _ _ Hq Hn) as (v' & k & [= <-] & Hk). exists k. split; [done|].
  rewrite (ct_vnode _ _ _ Hc _ _ Hk). pose proof (ct_mounts _ _ _ Hc v).
  pose proof (sumZ_member (open_of v) _ _ _ (open_of_nonneg v) Hq) as Hm. unfold open_of in Hm at 1. simpl in Hm.
  replace (n =? 0) with false in Hm by lia. rewrite points_eq in Hm.
  pose proof (sumZ_pos (dirs_of v) (holders R) (dirs_of_nonneg v)). lia.
Qed.
Lemma counted_dir R i h v :
  counted R -> aget (holders R) i = Some h -> h_rd h = Some v \/ h_wd h = Some v -> exists k, aget (counts R) v = Some k /\ 1 <= k.
Proof.
  intros Hc Hh Hv. destruct (ct_dir _ _ _ Hc _ _ _ Hh Hv) as [k Hk]. exists k. split; [done|].
  rewrite (ct_vnode _ _ _ Hc _ _ Hk). pose proof (ct_mounts _ _ _ Hc v).
  pose proof (sumZ_member (dirs_of v) _ _ _ (dirs_of_nonneg v) Hh) as Hm. unfold dirs_of in Hm at 1.
  pose proof (sumZ_pos (open_of v) (opens R) (open_of_nonneg v)). pose proof (points_nonneg v (h_rd h)). pose proof (points_nonneg v (h_wd h)).
  destruct Hv as [Hv|Hv]; rewrite Hv, points_eq in Hm; lia.
Qed.

Lemma sum_fds_slot R i j h old x g :
  aget (holders R) i = Some h -> aget (h_fds h) j = Some old ->
  sumZ (fds_of g) (holders (set_slot i j x R)) = sumZ (fds_of g) (holders R) - points g old + points g x.
Proof.
  intros Hh Ho. unfold set_slot, set_holder. simpl. rewrite (sumZ_aupd _ _ _ _ _ Hh). unfold fds_of at 2 3. simpl.
  rewrite (sumZ_aupd _ _ _ _ _ Ho). lia.
Qed.
Lemma sum_dirs_slot R i j x v : sumZ (dirs_of v) (holders (set_slot i j x R)) = sumZ (dirs_of v) (holders R).
Proof. by apply sumZ_aupd_same. Qed.
(** The processes after a descriptor was set. *)
Lemma set_slot_holder R i j x k h' :
  aget (holders (set_slot i j x R)) k = Some h' ->
  exists h, aget (holders R) k = Some h /\ h_rd h' = h_rd h /\ h_wd h' = h_wd h /\ h_pid h' = h_pid h /\
    forall m f, aget (h_fds h') m = Some (Some f) -> aget (h_fds h) m = Some (Some f) \/ k = i /\ x = Some f.
Proof.
  unfold set_slot, set_holder. simpl. rewrite aget_aupd. case_decide as Hk; [subst k|intros Hh; exists h'; split_and!; auto].
  destruct (aget (holders R) i) as [h|] eqn:Hh; [|done]. intros [= <-]. exists h. split_and!; try done. simpl.
  intros m f. rewrite aget_aupd. case_decide as Hm; [subst m|by left]. destruct (aget (h_fds h) j); [|done]. intros [= ->]. by right.
Qed.

Lemma end_use_opens f R : opens (end_use f R) = aupd f (fun q => (q.1 + -1, q.2)) (opens R).
Proof. unfold end_use. by repeat case_match. Qed.
Lemma end_use_holders f R : holders (end_use f R) = holders R.
Proof. unfold end_use. by repeat case_match. Qed.
Lemma end_use_counts f R v k n o :
  aget (opens R) f = Some (n, o) -> 1 <= n -> (exists v, o = Some v) -> aget (counts (end_use f R)) v = Some k ->
  aget (counts R) v = Some (k + (open_of v (n, o) - open_of v (n + -1, o))).
Proof.
  intros Hq Hn [v' ->]. unfold end_use. rewrite Hq. unfold open_of. simpl. destruct (decide (n = 1)) as [->|Hn1].
  - simpl. rewrite aget_aupd. case_decide as Hv.
    + subst v'. rewrite points_eq. destruct (aget (counts R) v); [|done]. intros [= <-]. f_equal. lia.
    + intros ->. rewrite points_ne by congruence. f_equal. lia.
  - assert (counts (match n with 1 => use_vnode v' (-1) (use_open f (-1) R) | _ => use_open f (-1) R end) = counts R) as ->.
    { destruct n as [|[]|]; done. }
    intros ->. replace (n =? 0) with false by lia. replace (n + -1 =? 0) with false by lia. f_equal. lia.
Qed.
Lemma end_use_count_kept f R v : (exists k, aget (counts R) v = Some k) -> exists k, aget (counts (end_use f R)) v = Some k.
Proof.
  intros [k Hk]. unfold end_use. repeat case_match; eauto. simpl. rewrite aget_aupd. case_decide; rewrite Hk; eauto.
Qed.

(** Closing a descriptor keeps the counters right. *)
Lemma counted_closed R i j : counted R -> counted (closed i j R).
Proof.
  intros Hc. unfold closed. destruct (aget (holders R) i) as [h|] eqn:Hh; [|done]. cbn [mbind option_bind].
  destruct (aget (h_fds h) j) as [[f|]|] eqn:Hf; [|done..].
  destruct (counted_fd _ _ _ _ _ Hc Hh Hf) as (n & o & Hq & Hn).
  destruct (ct_vno _ _ _ Hc _ _ _ Hq ltac:(lia)) as (w & kw & Ho & Hw).
  pose proof (end_use_holders f R) as Hho. pose proof (end_use_opens f R) as Hop.
  assert (aget (holders (end_use f R)) i = Some h) as Hh' by by rewrite Hho.
  assert (forall g m o', aget (opens (set_slot i j None (end_use f R))) g = Some (m, o') ->
     aget (opens R) g = Some (m + points f (Some g), o')) as Hopen.
  { intros g m o'. change (opens (set_slot _ _ _ ?x)) with (opens x). rewrite Hop, aget_aupd. case_decide as Hg.
    - subst g. rewrite Hq, points_eq. intros [= <- <-]. f_equal. f_equal. simpl. lia.
    - intros ->. rewrite points_ne by congruence. by rewrite Z.add_0_r. }
  split.
  - intros g m o' Hg%Hopen. rewrite (sum_fds_slot _ _ _ _ _ _ _ Hh' Hf), Hho. pose proof (ct_open _ _ _ Hc _ _ _ Hg).
    unfold points at 2. rewrite bool_decide_false by done. unfold points in *. repeat case_bool_decide; simplify_eq; lia.
  - intros v k. rewrite sum_dirs_slot, Hho. change (counts (set_slot _ _ _ ?x)) with (counts x). change (opens (set_slot _ _ _ ?x)) with (opens x).
    intros Hk%(end_use_counts _ _ _ _ n o); [|done|done|by exists w]. rewrite Hop, (sumZ_aupd _ _ _ _ _ Hq). simpl.
    pose proof (ct_vnode _ _ _ Hc _ _ Hk). lia.
  - intros g m o' Hg%Hopen Hm. destruct (ct_vno _ _ _ Hc _ _ _ Hg) as (v & k & -> & Hk).
    { unfold points in *. case_bool_decide as Hgf; [|lia]. injection Hgf as ->. rewrite Hq in Hg. injection Hg as Hg _. lia. }
    destruct (end_use_count_kept f R v) as [k' Hk']; [by exists k|]. by exists v, k'.
  - intros k h' m g (h0 & Hk & _ & _ & _ & Hfds)%set_slot_holder Hm. rewrite Hho in Hk.
    destruct (Hfds _ _ Hm) as [Hm'|[_ [=]]]. destruct (ct_fd _ _ _ Hc _ _ _ _ Hk Hm') as [q Hq'].
    change (opens (set_slot _ _ _ ?x)) with (opens x). rewrite Hop, aget_aupd, Hq'. case_decide; eauto.
  - intros k h' v (h0 & Hk & -> & -> & _ & _)%set_slot_holder Hv. rewrite Hho in Hk.
    apply end_use_count_kept. by eapply ct_dir.
  - intros k h' (h0 & Hk & Hrd & Hwd & -> & Hfds)%set_slot_holder Hfree. rewrite Hho in Hk.
    destruct (ct_free _ _ _ Hc _ _ Hk Hfree) as (Hi1 & Hi2 & Hi3). split_and!; [|congruence..].
    intros m g Hm. destruct (Hfds _ _ Hm) as [Hm'|[_ [=]]]. by eapply Hi1.
  - apply Hc.
  - apply Hc.
Qed.

(** Another descriptor for an open file that is in use. *)
Definition dup_slot (i j f : Z) (R : refs) : refs := set_slot i j (Some f) (use_open f 1 R).
Lemma counted_dup R i j f h n o :
  counted R -> aget (holders R) i = Some h -> h_pid h <> PID_FREE -> aget (h_fds h) j = Some None ->
  aget (opens R) f = Some (n, o) -> 1 <= n -> counted (dup_slot i j f R).
Proof.
  intros Hc Hh Hpid Hf Hq Hn. unfold dup_slot.
  assert (forall g m o', aget (opens (set_slot i j (Some f) (use_open f 1 R))) g = Some (m, o') ->
     aget (opens R) g = Some (m - points g (Some f), o')) as Hopen.
  { intros g m o'. simpl. rewrite aget_aupd. case_decide as Hg.
    - subst g. rewrite Hq, points_eq. intros [= <- <-]. f_equal. f_equal. simpl. lia.
    - intros ->. rewrite points_ne by congruence. by rewrite Z.sub_0_r. }
  split.
  - intros g m o' Hg%Hopen. rewrite (sum_fds_slot (use_open f 1 R) _ _ _ _ _ _ Hh Hf). simpl.
    pose proof (ct_open _ _ _ Hc _ _ _ Hg). change (points g None) with 0. lia.
  - intros v k Hk. simpl in Hk. rewrite sum_dirs_slot. simpl. rewrite (sumZ_aupd _ _ _ _ _ Hq).
    pose proof (ct_vnode _ _ _ Hc _ _ Hk). unfold open_of at 2 3. simpl.
    replace (n =? 0) with false by lia. replace (n + 1 =? 0) with false by lia. lia.
  - intros g m o' Hg%Hopen Hm. apply (ct_vno _ _ _ Hc _ _ _ Hg). unfold points in *.
    case_bool_decide as Hgf; [|lia]. injection Hgf as ->. rewrite Hq in Hg. injection Hg as Hg _. lia.
  - intros k h' m g (h0 & Hk & _ & _ & _ & Hfds)%set_slot_holder Hm. simpl in Hk. simpl. rewrite aget_aupd.
    assert (exists q, aget (opens R) g = Some q) as [q ->].
    { destruct (Hfds _ _ Hm) as [Hm'|[_ [= <-]]]; [by eapply ct_fd|eauto]. }
    case_decide; simpl; eauto.
  - intros k h' v (h0 & Hk & -> & -> & _ & _)%set_slot_holder Hv. by eapply (ct_dir _ _ _ Hc).
  - intros k h' (h0 & Hk & Hrd & Hwd & Hp & Hfds)%set_slot_holder Hfree. simpl in Hk. rewrite Hp in Hfree.
    destruct (ct_free _ _ _ Hc _ _ Hk Hfree) as (Hi1 & Hi2 & Hi3). split_and!; [|congruence..].
    intros m g Hm. destruct (Hfds _ _ Hm) as [Hm'|[-> _]]; [by eapply Hi1|]. congruence.
  - apply Hc.
  - apply Hc.
Qed.

(** Every descriptor of [l] is one more for its open file. *)
Definition share (l : list (option Z)) (R : refs) : refs :=
  fold_left (fun R x => match x with Some f => use_open f 1 R | None => R end) l R.
Lemma share_holders l R : holders (share l R) = holders R /\ counts (share l R) = counts R.
Proof. revert R. induction l as [|[f|] l IH]; intros R; [done|..]; simpl; [|apply IH]. by destruct (IH (use_open f 1 R)) as [-> ->]. Qed.
Lemma share_opens l R f : aget (opens (share l R)) f = (fun q => (q.1 + sumZ (points f) l, q.2)) <$> aget (opens R) f.
Proof.
  revert R. induction l as [|x l IH]; intros R; simpl.
  - destruct (aget (opens R) f) as [[n o]|]; simpl; [|done]. by rewrite Z.add_0_r.
  - rewrite sumZ_cons. destruct x as [g|]; rewrite IH; [|done]. simpl. rewrite aget_aupd. case_decide as Hg.
    + subst g. rewrite points_eq. destruct (aget (opens R) f) as [[n o]|]; simpl; [|done]. f_equal. f_equal. lia.
    + rewrite points_ne by congruence. done.
Qed.
Lemma share_sum l R (Hc : forall f, 0 < sumZ (points f) l -> exists n o, aget (opens R) f = Some (n, o) /\ 1 <= n) v :
  (forall f n o, aget (opens R) f = Some (n, o) -> 0 <= n) ->
  sumZ (open_of v) (opens (share l R)) = sumZ (open_of v) (opens R).
Proof.
  revert R Hc. induction l as [|x l IH]; intros R Hc Hpos; [done|]. simpl. destruct x as [f|].
  2:{ apply IH; [|done]. intros f Hf. apply Hc. by rewrite sumZ_cons. }
  destruct (Hc f) as (n & o & Hq & Hn).
  { rewrite sumZ_cons, points_eq. pose proof (sumZ_pos (points f) l (points_nonneg f)). lia. }
  rewrite IH.
  - simpl. rewrite (sumZ_aupd _ _ _ _ _ Hq). unfold open_of at 2 3. simpl.
    replace (n =? 0) with false by lia. replace (n + 1 =? 0) with false by lia. lia.
  - intros g Hg. simpl. rewrite aget_aupd. case_decide as Hfg.
    + subst g. rewrite Hq. exists (n + 1), o. split; [done|lia].
    + apply Hc. rewrite sumZ_cons. pose proof (points_nonneg g (Some f)). lia.
  - intros g m o'. simpl. rewrite aget_aupd. case_decide; [|apply Hpos]. subst g. rewrite Hq. intros [= <- <-]. simpl. lia.
Qed.
Lemma use_vnode_get v d R w k : aget (counts (use_vnode v d R)) w = Some k -> aget (counts R) w = Some (k - d * points w (Some v)).
Proof.
  simpl. rewrite aget_aupd. case_decide as Hw.
  - subst w. rewrite points_eq. destruct (aget (counts R) v); [|done]. intros [= <-]. f_equal. lia.
  - intros ->. rewrite points_ne by congruence. f_equal. lia.
Qed.
Lemma use_vnode_kept v d R w : (exists k, aget (counts R) w = Some k) -> exists k, aget (counts (use_vnode v d R)) w = Some k.
Proof. intros [k Hk]. simpl. rewrite aget_aupd, Hk. case_decide; simpl; eauto. Qed.
Lemma use_dirs_get h d R w k : aget (counts (use_dirs h d R)) w = Some k -> aget (counts R) w = Some (k - d * dirs_of w h).
Proof.
  unfold use_dirs, dirs_of. destruct (h_rd h) as [a|], (h_wd h) as [b|]; intros Hk; repeat apply use_vnode_get in Hk; rewrite Hk; f_equal;
    try change (points w None) with 0; lia.
Qed.
Lemma use_dirs_kept h d R w : (exists k, aget (counts R) w = Some k) -> exists k, aget (counts (use_dirs h d R)) w = Some k.
Proof. intros Hk. unfold use_dirs. destruct (h_rd h), (h_wd h); repeat apply use_vnode_kept; done. Qed.
Lemma use_dirs_same h d R : holders (use_dirs h d R) = holders R /\ opens (use_dirs h d R) = opens R.
Proof. unfold use_dirs. by destruct (h_rd h), (h_wd h). Qed.

(** Process [c], which was idle, refers to all that [h] refers to. *)
Definition forked (h : holder) (c pid : Z) (R : refs) : refs :=
  use_dirs h 1 (share (h_fds h) (set_holder c (fun _ => h <| h_pid := pid |>) R)).
Lemma forked_get h c pid R f n o :
  aget (opens (forked h c pid R)) f = Some (n, o) -> aget (opens R) f = Some (n - fds_of f h, o).
Proof.
  unfold forked. destruct (use_dirs_same h 1 (share (h_fds h) (set_holder c (fun _ => h <| h_pid := pid |>) R))) as [_ ->].
  rewrite share_opens. simpl. destruct (aget (opens R) f) as [[m o']|]; [|done]. intros [= <- <-].
  f_equal. f_equal. unfold fds_of. lia.
Qed.
Lemma forked_holders h c pid R : holders (forked h c pid R) = aupd c (fun _ => h <| h_pid := pid |>) (holders R).
Proof.
  unfold forked. destruct (use_dirs_same h 1 (share (h_fds h) (set_holder c (fun _ => h <| h_pid := pid |>) R))) as [-> _].
  by destruct (share_holders (h_fds h) (set_holder c (fun _ => h <| h_pid := pid |>) R)) as [-> _].
Qed.
Lemma idle_sums h f v : idle h -> fds_of f h = 0 /\ dirs_of v h = 0.
Proof.
  intros (Hf & Hrd & Hwd). unfold dirs_of. rewrite Hrd, Hwd. split; [|done]. unfold fds_of.
  assert (forall l, (forall j, aget l j <> Some (Some f)) -> sumZ (points f) l = 0) as Hx; [|apply Hx; intros j; apply Hf].
  intros l Hl. assert (Forall (fun x => points f x = 0) l) as Hall.
  { apply Forall_lookup. intros k x Hx. unfold points. rewrite bool_decide_false; [done|]. intros ->. apply (Hl (Z.of_nat k)). by rewrite aget_nat. }
  clear Hl. induction Hall as [|x l Hx _ IH]; [done|]. rewrite sumZ_cons. lia.
Qed.
Lemma holder_fd_at h f : 0 < fds_of f h -> exists j, aget (h_fds h) j = Some (Some f).
Proof.
  unfold fds_of. intros Hp. assert (exists x, x ∈ h_fds h /\ points f x <> 0) as (x & Hx & Hne).
  { induction (h_fds h) as [|x l IH]; [done|]. rewrite sumZ_cons in Hp. destruct (decide (points f x = 0)).
    - destruct IH as (y & ? & ?); [lia|]. exists y. split; [by right|done].
    - exists x. split; [by left|done]. }
  unfold points in Hne. case_bool_decide; [|done]. subst x. apply list_elem_of_lookup in Hx as [k Hk]. exists (Z.of_nat k). by rewrite aget_nat.
Qed.
Lemma counted_forked R p c h hc pid :
  counted R -> aget (holders R) p = Some h -> aget (holders R) c = Some hc -> h_pid hc = PID_FREE ->
  pid <> PID_FREE -> counted (forked h c pid R).
Proof.
  intros Hc Hh Hhc Hfree Hpid. set (h' := h <| h_pid := pid |>). pose proof (ct_free _ _ _ Hc _ _ Hhc Hfree) as Hidle.
  pose proof (forked_holders h c pid R) as Hho. fold h' in Hho.
  assert (forall f, fds_of f h' = fds_of f h) as Hfd by done. assert (forall v, dirs_of v h' = dirs_of v h) as Hdir by done.
  assert (forall v, sumZ (open_of v) (opens (forked h c pid R)) = sumZ (open_of v) (opens R)) as Hsum.
  { intros v. unfold forked. set (R0 := set_holder c (fun _ => h <| h_pid := pid |>) R). destruct (use_dirs_same h 1 (share (h_fds h) R0)) as [_ ->].
    transitivity (sumZ (open_of v) (opens R0)); [apply share_sum|done].
    - intros f Hf. destruct (holder_fd_at h f Hf) as [j Hj]. exact (counted_fd R _ _ _ _ Hc Hh Hj).
    - intros f n o Hq. rewrite (ct_open _ _ _ Hc _ _ _ Hq). pose proof (ct_flights _ _ _ Hc f). pose proof (sumZ_pos _ (holders R) (fds_of_nonneg f)). lia. }
  assert (forall v k, aget (counts (forked h c pid R)) v = Some k -> aget (counts R) v = Some (k - dirs_of v h)) as Hcnt.
  { intros v k Hk%use_dirs_get. rewrite Z.mul_1_l in Hk. by destruct (share_holders (h_fds h) (set_holder c (fun _ => h <| h_pid := pid |>) R)) as [_ Heq]; rewrite Heq in Hk. }
  assert (forall v, (exists k, aget (counts R) v = Some k) -> exists k, aget (counts (forked h c pid R)) v = Some k) as Hkept.
  { intros v Hv. apply use_dirs_kept. by destruct (share_holders (h_fds h) (set_holder c (fun _ => h <| h_pid := pid |>) R)) as [_ ->]. }
  assert (forall k x, aget (holders (forked h c pid R)) k = Some x -> x = h' \/ aget (holders R) k = Some x) as Hget.
  { intros k x. rewrite Hho, aget_aupd. case_decide; [subst; rewrite Hhc; intros [= <-]; by left|by right]. }
  split.
  - intros f n o Hq%forked_get. rewrite Hho, (sumZ_aupd _ _ _ _ _ Hhc). destruct (idle_sums hc f 0 Hidle) as [-> _].
    pose proof (ct_open _ _ _ Hc _ _ _ Hq). rewrite Hfd. lia.
  - intros v k Hk%Hcnt. rewrite Hsum, Hho, (sumZ_aupd _ _ _ _ _ Hhc). destruct (idle_sums hc 0 v Hidle) as [_ ->].
    pose proof (ct_vnode _ _ _ Hc _ _ Hk). rewrite Hdir. lia.
  - intros f n o Hq%forked_get Hn.
    assert (exists v k, o = Some v /\ aget (counts R) v = Some k) as (v & k & -> & Hk).
    { destruct (decide (n - fds_of f h = 0)) as [Hz|Hz]; [|by apply (ct_vno _ _ _ Hc _ _ _ Hq)].
      pose proof (fds_of_nonneg f h). destruct (holder_fd_at h f ltac:(lia)) as [j Hj].
      destruct (counted_fd _ _ _ _ _ Hc Hh Hj) as (m & o' & Hm & Hm1). rewrite Hq in Hm. injection Hm as Hm _. lia. }
    destruct (Hkept v) as [k' Hk']; [by exists k|]. by exists v, k'.
  - intros k x j f Hx Hj. assert (exists q, aget (opens R) f = Some q) as [q Hq].
    { destruct (Hget _ _ Hx) as [->|Hx']; [eapply (ct_fd _ _ _ Hc p h)|eapply (ct_fd _ _ _ Hc)]; done. }
    unfold forked. set (R0 := set_holder c (fun _ => h <| h_pid := pid |>) R). destruct (use_dirs_same h 1 (share (h_fds h) R0)) as [_ ->].
    rewrite share_opens. change (opens R0) with (opens R). rewrite Hq. simpl. eauto.
  - intros k x v Hx Hv. apply Hkept. destruct (Hget _ _ Hx) as [->|Hx']; [eapply (ct_dir _ _ _ Hc p h)|eapply (ct_dir _ _ _ Hc)]; done.
  - intros k x Hx Hf. destruct (Hget _ _ Hx) as [->|Hx']; [done|by eapply ct_free].
  - apply Hc.
  - apply Hc.
Qed.

(** A process gives up a directory, or ends. *)
Lemma counted_put R i h u v :
  counted R -> aget (holders R) i = Some h ->
  (forall f, fds_of f (u h) = fds_of f h) -> (forall j f, aget (h_fds (u h)) j = Some (Some f) -> aget (h_fds h) j = Some (Some f)) ->
  (forall w, dirs_of w (u h) = dirs_of w h - points w (Some v)) ->
  (forall w, h_rd (u h) = Some w \/ h_wd (u h) = Some w -> h_rd h = Some w \/ h_wd h = Some w) ->
  h_pid (u h) = h_pid h -> counted (set_holder i u (use_vnode v (-1) R)).
Proof.
  intros Hc Hh Hfd Hsub Hdir Hkeep Hpid.
  assert (forall k x, aget (holders (set_holder i u (use_vnode v (-1) R))) k = Some x -> x = u h /\ k = i \/ aget (holders R) k = Some x) as Hget.
  { intros k x. simpl. rewrite aget_aupd. case_decide; [subst; rewrite Hh; intros [= <-]; by left|by right]. }
  split.
  - intros f n o Hq. simpl in *. rewrite (sumZ_aupd _ _ _ _ _ Hh), Hfd. pose proof (ct_open _ _ _ Hc _ _ _ Hq). lia.
  - intros w k Hk%use_vnode_get. simpl. rewrite (sumZ_aupd _ _ _ _ _ Hh), Hdir. pose proof (ct_vnode _ _ _ Hc _ _ Hk). lia.
  - intros f n o Hq Hn. destruct (ct_vno _ _ _ Hc _ _ _ Hq Hn) as (w & k & -> & Hk).
    destruct (use_vnode_kept v (-1) R w) as [k' Hk']; [by exists k|]. by exists w, k'.
  - intros k x j f [[-> ->]|Hx]%Hget Hj; [exact (ct_fd _ _ _ Hc _ _ _ _ Hh (Hsub _ _ Hj))|by eapply (ct_fd _ _ _ Hc)].
  - intros k x w [[-> ->]|Hx]%Hget Hw; apply use_vnode_kept; [exact (ct_dir _ _ _ Hc _ _ _ Hh (Hkeep _ Hw))|by eapply (ct_dir _ _ _ Hc)].
  - intros k x [[-> ->]|Hx]%Hget Hf; [|by eapply (ct_free _ _ _ Hc)]. rewrite Hpid in Hf.
    destruct (ct_free _ _ _ Hc _ _ Hh Hf) as (Hi1 & Hi2 & Hi3). split_and!.
    + intros j f Hj%Hsub. by eapply Hi1.
    + destruct (h_rd (u h)) as [w|] eqn:E; [|done]. destruct (Hkeep w); [by left|congruence..].
    + destruct (h_wd (u h)) as [w|] eqn:E; [|done]. destruct (Hkeep w); [by right|congruence..].
  - apply Hc.
  - apply Hc.
Qed.
Lemma counted_freed R i h : counted R -> aget (holders R) i = Some h -> idle h -> counted (set_holder i (fun h => h <| h_pid := PID_FREE |>) R).
Proof.
  intros Hc Hh Hi. set (u := fun h => h <| h_pid := PID_FREE |>).
  assert (forall k x, aget (holders (set_holder i u R)) k = Some x ->
    exists y, aget (holders R) k = Some y /\ h_fds x = h_fds y /\ h_rd x = h_rd y /\ h_wd x = h_wd y /\ (h_pid x = h_pid y \/ k = i)) as Hget.
  { intros k x. simpl. rewrite aget_aupd. case_decide; [subst; rewrite Hh; intros [= <-]; exists h|intros Hx; exists x]; split_and!; auto. }
  split; simpl.
  - intros f n o Hq. rewrite sumZ_aupd_same by done. by eapply (ct_open _ _ _ Hc).
  - intros v k Hk. rewrite sumZ_aupd_same by done. by eapply (ct_vnode _ _ _ Hc).
  - apply Hc.
  - intros k x j f (y & Hy & -> & _)%Hget. by eapply (ct_fd _ _ _ Hc).
  - intros k x v (y & Hy & _ & -> & -> & _)%Hget. by eapply (ct_dir _ _ _ Hc).
  - intros k x (y & Hy & E1 & E2 & E3 & Hp)%Hget Hf. destruct Hp as [Hp| ->].
    + destruct (ct_free _ _ _ Hc _ _ Hy) as (? & ? & ?); [congruence|]. unfold idle. rewrite E1, E2, E3. done.
    + assert (y = h) as -> by congruence. unfold idle. rewrite E1, E2, E3. done.
  - apply Hc.
  - apply Hc.
Qed.

Lemma closed_holder R i j k h : aget (holders R) k = Some h ->
  aget (holders (closed i j R)) k = Some (if decide (k = i) then h <| h_fds := aupd j (fun _ => None) (h_fds h) |> else h).
Proof.
  intros Hh. unfold closed. destruct (aget (holders R) i) as [hi|] eqn:Hi; cbn [mbind option_bind].
  2:{ rewrite Hh. case_decide; [congruence|done]. }
  assert (forall x, aget (h_fds hi) j = x -> x = None \/ x = Some None -> aupd j (fun _ => None) (h_fds hi) = h_fds hi) as Hnone.
  { intros x Hx Hn. apply aupd_id. intros y Hy. destruct Hn; congruence. }
  destruct (aget (h_fds hi) j) as [[f|]|] eqn:Hf.
  - unfold set_slot, set_holder. cbn. rewrite end_use_holders, aget_aupd. case_decide as H1; case_decide as H2; try congruence. by rewrite Hh.
  - rewrite Hh. case_decide; [|done]. subst k. assert (hi = h) as -> by congruence. rewrite (Hnone _ eq_refl) by auto. by destruct h.
  - rewrite Hh. case_decide; [|done]. subst k. assert (hi = h) as -> by congruence. rewrite (Hnone _ eq_refl) by auto. by destruct h.
Qed.
Lemma counted_closes l R i : counted R -> counted (fold_left (fun R j => closed i j R) l R).
Proof. revert R. induction l as [|j l IH]; intros R Hc; [done|]. by apply IH, counted_closed. Qed.
Lemma closes_holder l R i h : aget (holders R) i = Some h ->
  exists h', aget (holders (fold_left (fun R j => closed i j R) l R)) i = Some h' /\
    h_rd h' = h_rd h /\ h_wd h' = h_wd h /\ h_pid h' = h_pid h /\ length (h_fds h') = length (h_fds h) /\
    forall j f, aget (h_fds h') j = Some (Some f) -> aget (h_fds h) j = Some (Some f) /\ ~ In j l.
Proof.
  revert R h. induction l as [|j l IH]; intros R h Hh.
  { exists h. split_and!; try done. intros j f Hj. by split; [|intros []]. }
  pose proof (closed_holder R i j i h Hh) as Hx. rewrite decide_True in Hx by done. destruct (IH _ _ Hx) as (h' & Hh' & E1 & E2 & E3 & E4 & Hf).
  exists h'. cbn in *. split_and!; [done..|by rewrite E4, length_aupd|]. intros m f Hm. destruct (Hf _ _ Hm) as [Hm1 Hm2].
  rewrite aget_aupd in Hm1. case_decide as Hjm; [by destruct (aget (h_fds h) m)|]. split; [done|]. by intros [?|?].
Qed.
Lemma counted_put_rd R i : counted R -> counted (put_rd_of i R).
Proof.
  intros Hc. unfold put_rd_of. destruct (aget (holders R) i) as [h|] eqn:Hh; [|done]. cbn. destruct (h_rd h) as [v|] eqn:Hv; [|done].
  eapply counted_put; [done|exact Hh|done|done| |by cbn; intros w [?|?]; [done|right]|done]. intros w. unfold dirs_of. cbn. rewrite Hv. change (points w None) with 0. lia.
Qed.
Lemma counted_put_wd R i : counted R -> counted (put_wd_of i R).
Proof.
  intros Hc. unfold put_wd_of. destruct (aget (holders R) i) as [h|] eqn:Hh; [|done]. cbn. destruct (h_wd h) as [v|] eqn:Hv; [|done].
  eapply counted_put; [done|exact Hh|done|done| |by cbn; intros w [?|?]; [left|done]|done]. intros w. unfold dirs_of. cbn. rewrite Hv. change (points w None) with 0. lia.
Qed.
Lemma put_dirs_holder R i h : aget (holders R) i = Some h ->
  aget (holders (put_rd_of i R)) i = Some (h <| h_rd := None |>) /\
  aget (holders (put_wd_of i (put_rd_of i R))) i = Some (h <| h_rd := None |> <| h_wd := None |>).
Proof.
  intros Hh. assert (forall R h, aget (holders R) i = Some h -> aget (holders (put_rd_of i R)) i = Some (h <| h_rd := None |>)) as Hrd.
  { clear. intros R h Hh. unfold put_rd_of. rewrite Hh. cbn. destruct (h_rd h) eqn:E; cbn; [by rewrite aget_aupd_eq, Hh|rewrite Hh; f_equal; destruct h; cbn in *; by subst]. }
  assert (forall R h, aget (holders R) i = Some h -> aget (holders (put_wd_of i R)) i = Some (h <| h_wd := None |>)) as Hwd.
  { clear. intros R h Hh. unfold put_wd_of. rewrite Hh. cbn. destruct (h_wd h) eqn:E; cbn; [by rewrite aget_aupd_eq, Hh|rewrite Hh; f_equal; destruct h; cbn in *; by subst]. }
  split; [by apply Hrd|]. by apply (Hwd _ (h <| h_rd := None |>)), Hrd.
Qed.
(** A process that ends refers to nothing, and every counter is right. *)
Lemma counted_left R i n h : counted R -> aget (holders R) i = Some h -> Z.of_nat (length (h_fds h)) = n ->
  counted (left_all i n R) /\ exists h', aget (holders (left_all i n R)) i = Some h' /\ idle h' /\ h_pid h' = h_pid h.
Proof.
  intros Hc Hh Hn. split; [by apply counted_put_wd, counted_put_rd, counted_closes|].
  destruct (closes_holder (seqZ 0 n) R i h Hh) as (h' & Hh' & _ & _ & Hp & Hl & Hf). destruct (put_dirs_holder _ _ _ Hh') as [_ Hx].
  eexists. split; [exact Hx|]. split; [|done]. split; [|done]. intros j f Hj. destruct (Hf _ _ Hj) as [Hj' Hno]. apply Hno, list_elem_of_In, elem_of_seqZ.
  pose proof (aget_range _ _ _ Hj'). lia.
Qed.
Lemma counted_exited R i n h : counted R -> aget (holders R) i = Some h -> Z.of_nat (length (h_fds h)) = n -> counted (exited i n R).
Proof. intros Hc Hh Hn. destruct (counted_left _ _ _ _ Hc Hh Hn) as [Hc' (h' & Hh' & Hi & _)]. by eapply counted_freed. Qed.
End counted.
