(* ===== verification/VfsInv.v ===== *)
(** The invariant of the virtual file system server: the form of its tables and the processes
    that wait.  The references of a state ([view]) are those of [VfsRefs]; what the parts of
    the server outside this development may change is stated by [VfsCallsLaws]. *)
From S2P Require Import Prelude Minix VfsBase VfsLock VfsFd VfsRefs.
Local Open Scope Z_scope.

Section invariant.
Context `{MinixHeaders} `{VfsHeaders} {W : Type} `{VfsEnv W}.
Implicit Types (s : state W).

Definition holder_of (p : fproc) : holder := mk_holder (fp_filp p) (fp_rd p) (fp_wd p) (fp_pid p).
Definition open_at (q : filp) : Z * option Z := (filp_count q, filp_vno q).
Definition view s : refs := mk_refs (holder_of <$> fprocs s) (open_at <$> filps s) (v_ref_count <$> vnodes s).

(** A process waits to read or write. *)
Definition awaits (p : fproc) : bool :=
  negb (fp_pid p =? PID_FREE) && fp_is_blocked p && negb (fp_revived p) &&
  ((fp_block_callnr p =? READ) || (fp_block_callnr p =? WRITE)).
(** What [susp_count] counts. *)
Definition pending (p : fproc) : Z :=
  if negb (fp_pid p =? PID_FREE) && negb (fp_revived p) &&
     ((fp_blocked_on p =? FP_BLOCKED_ON_PIPE) || (fp_blocked_on p =? FP_BLOCKED_ON_POPEN)) then 1 else 0.
(** The descriptor a process waits on is open, and if it is a pipe, the process waits for a pipe. *)
Definition waits_on s (p : fproc) : Prop :=
  exists f q, aget (fp_filp p) (fp_block_fd p) = Some (Some f) /\ aget (filps s) f = Some q /\
    forall v x, filp_vno q = Some v -> aget (vnodes s) v = Some x -> v_pipe x = I_PIPE -> fp_blocked_on p = FP_BLOCKED_ON_PIPE.
Record vfs_ok s : Prop := {
  vo_procs : procs_ok s;
  vo_filps : Z.of_nat (length (filps s)) = NR_FILPS;
  vo_vnodes : Z.of_nat (length (vnodes s)) = NR_VNODES;
  vo_locks : lock_table (file_locks s) (nr_locks s);
  vo_exclusive : exclusive (file_locks s);
  vo_fds i p : aget (fprocs s) i = Some p -> Z.of_nat (length (fp_filp p)) = OPEN_MAX;
  vo_fs v x : aget (vnodes s) v = Some x -> 0 < v_ref_count x -> 0 < v_fs_count x;
  vo_susp : susp_count s = sumZ pending (fprocs s);
  vo_wait i p : aget (fprocs s) i = Some p -> awaits p = true -> waits_on s p;
}.
Definition unblocked s (i : Z) : Prop := exists p, aget (fprocs s) i = Some p /\ fp_is_blocked p = false.
(** What a part of a call that changes no references keeps. *)
Record kept s s' : Prop := {
  kp_view : view s' = view s;
  kp_fp : fp s' = fp s;
  kp_pipe : v_pipe <$> vnodes s' = v_pipe <$> vnodes s;
  kp_locks : file_locks s' = file_locks s /\ nr_locks s' = nr_locks s;
  kp_ok : vfs_ok s';
  kp_free i : unblocked s i -> unblocked s' i;
  kp_in : m_in s' = m_in s /\ call_nr s' = call_nr s;
}.
Lemma kept_refl s : vfs_ok s -> kept s s.
Proof. by split. Qed.
Lemma kept_trans s s1 s' : kept s s1 -> kept s1 s' -> kept s s'.
Proof.
  intros [? ? ? [? ?] ? ? [? ?]] [? ? ? [? ?] ? ? [? ?]].
  split; [congruence|congruence|congruence|split; congruence|done|auto|split; congruence].
Qed.

(** ** What the calls out of the model may change *)
(** A process may get a terminal, be woken from waiting for a lock, or its call may end if it
    does not wait for a pipe. *)
Record quiet (p p' : fproc) : Prop := {
  qt_holder : holder_of p' = holder_of p;
  qt_endpoint : fp_endpoint p' = fp_endpoint p;
  qt_revived : fp_revived p' = fp_revived p \/ (fp_blocked_on p = FP_BLOCKED_ON_LOCK /\ fp_revived p' = true);
  qt_fd : fp_block_fd p' = fp_block_fd p;
  qt_call : fp_block_callnr p' = fp_block_callnr p;
  qt_blocked : fp_blocked_on p' = fp_blocked_on p \/
    (fp_blocked_on p <> FP_BLOCKED_ON_PIPE /\ fp_blocked_on p <> FP_BLOCKED_ON_POPEN /\ fp_blocked_on p' = FP_BLOCKED_ON_NONE);
}.
Record outer s s' : Prop := {
  ou_state : s' = s <| fprocs := fprocs s' |> <| reviving := reviving s' |> <| m_out := m_out s' |> <| world := world s' |>;
  ou_procs : Forall2 quiet (fprocs s) (fprocs s');
}.
(** [select.c] and [device.c]: ending [select] calls, and closing a device. *)
Class VfsCallsLaws `{VfsCalls W} : Prop := {
  dev_close_ok d f s : wp (dev_close d f) (fun _ s' => outer s s') never s;
  select_callback_ok f op s : wp (select_callback f op) (fun _ s' => outer s s') never s;
  select_forget_ok e s : wp (select_forget e) (fun _ s' => outer s s') never s;
  select_unsuspend_ok e s : wp (select_unsuspend_by_endpt e) (fun _ s' => outer s s') never s;
}.
(** The grants of VFS can be revoked. *)
Class VfsEnvLaws : Prop := { cpf_revoke_ok g w : (cpf_revoke g w).1 = false }.

Lemma quiet_refl p : quiet p p.
Proof. split; auto. Qed.
Lemma quiet_pending p p' : quiet p p' -> pending p' = pending p.
Proof.
  intros [Hh _ Hr _ _ Hb]. assert (fp_pid p' = fp_pid p) as Hp by exact (f_equal h_pid Hh). unfold pending. rewrite Hp.
  destruct Hr as [-> | [Hl _]].
  - destruct Hb as [-> | (Hn1 & Hn2 & ->)]; [done|]. replace (fp_blocked_on p =? FP_BLOCKED_ON_PIPE) with false by lia.
    by replace (fp_blocked_on p =? FP_BLOCKED_ON_POPEN) with false by lia.
  - rewrite Hl in *. destruct Hb as [-> | (_ & _ & ->)]; cbn; by rewrite !andb_false_r.
Qed.
Lemma quiet_unblocked p p' : quiet p p' -> fp_is_blocked p = false -> fp_is_blocked p' = false.
Proof. intros [_ _ _ _ _ [Hb|(_ & _ & Hb)]]; unfold fp_is_blocked; by rewrite Hb. Qed.
Lemma quiet_awaits p p' : quiet p p' -> awaits p' = true -> awaits p = true /\ fp_blocked_on p' = fp_blocked_on p.
Proof.
  intros [Hh _ Hr _ Hc Hb]. assert (fp_pid p' = fp_pid p) as Hp by exact (f_equal h_pid Hh). unfold awaits, fp_is_blocked. rewrite Hp, Hc.
  destruct Hr as [-> | [_ ->]]; [|by rewrite andb_false_r].
  destruct Hb as [-> | (_ & _ & ->)]; [done|]. cbn. by rewrite andb_false_r.
Qed.
Lemma Forall2_aget {A} (P : A -> A -> Prop) l l' i y :
  Forall2 P l l' -> aget l' i = Some y -> exists x, aget l i = Some x /\ P x y.
Proof. intros HF [Hi Hy]%aget_Some. destruct (Forall2_lookup_r _ _ _ _ _ HF Hy) as (x & Hx & HP). exists x. by rewrite aget_Some. Qed.
Lemma Forall2_aget_l {A} (P : A -> A -> Prop) l l' i x :
  Forall2 P l l' -> aget l i = Some x -> exists y, aget l' i = Some y /\ P x y.
Proof. intros HF [Hi Hy]%aget_Some. destruct (Forall2_lookup_l _ _ _ _ _ HF Hy) as (y & Hx & HP). exists y. by rewrite aget_Some. Qed.
Lemma outer_kept s s' : vfs_ok s -> outer s s' -> kept s s'.
Proof.
  intros Hok [Hs HF]. rewrite Hs. set (P' := fprocs s') in *. clearbody P'. split; try done.
  - unfold view. cbn. f_equal. symmetry. clear Hs. induction HF as [|p p' P P' [Hh _ _ _ _ _] _ IH]; [done|]. rewrite !fmap_cons. congruence.
  - split; cbn; try apply Hok.
    + split; cbn; [rewrite <-(Forall2_length HF); apply Hok|]. intros i p' Hp' Hf.
      destruct (Forall2_aget _ _ _ _ _ HF Hp') as (p & Hp & [Hh He _ _ _ _]). rewrite He. apply (po_slot _ (vo_procs _ Hok) i p Hp).
      by rewrite <-(f_equal h_pid Hh : fp_pid p' = fp_pid p).
    + intros i p' Hp'. destruct (Forall2_aget _ _ _ _ _ HF Hp') as (p & Hp & [Hh _ _ _ _ _]).
      rewrite (f_equal h_fds Hh : fp_filp p' = fp_filp p). by eapply (vo_fds _ Hok).
    + rewrite (vo_susp _ Hok). clear Hs. induction HF as [|p p' P P' Hq _ IH]; [done|]. rewrite !sumZ_cons, (quiet_pending _ _ Hq). congruence.
    + intros i p' Hp' Ha. destruct (Forall2_aget _ _ _ _ _ HF Hp') as (p & Hp & Hq). destruct (quiet_awaits _ _ Hq Ha) as [Ha' Hb].
      destruct (vo_wait _ Hok _ _ Hp Ha') as (f & q & Hf & Hx & Hv). destruct Hq as [Hh _ _ Hfd _ _]. exists f, q.
      rewrite (f_equal h_fds Hh : fp_filp p' = fp_filp p), Hfd, Hb. done.
  - intros i (p & Hp & Hb). destruct (Forall2_aget_l _ _ _ _ _ HF Hp) as (p' & Hp' & Hq). exists p'. split; [done|by eapply quiet_unblocked].
Qed.

(** ** Reading and writing the tables *)
Lemma wp_fproc_at i p (Q : fproc -> state W -> Prop) E s : aget (fprocs s) i = Some p -> Q p s -> wp (fproc_at i) Q E s.
Proof. intros Hp HQ. by apply wp_bind, wp_get, wp_deref with p. Qed.
Lemma wp_filp_at i q (Q : filp -> state W -> Prop) E s : aget (filps s) i = Some q -> Q q s -> wp (filp_at i) Q E s.
Proof. intros Hp HQ. by apply wp_bind, wp_get, wp_deref with q. Qed.
Lemma wp_vnode_at i v (Q : vnode -> state W -> Prop) E s : aget (vnodes s) i = Some v -> Q v s -> wp (vnode_at i) Q E s.
Proof. intros Hp HQ. by apply wp_bind, wp_get, wp_deref with v. Qed.
Lemma wp_set_fproc i f p (Q : unit -> state W -> Prop) E s :
  aget (fprocs s) i = Some p -> Q tt (s <| fprocs := aupd i f (fprocs s) |>) -> wp (set_fproc i f) Q E s.
Proof. intros Hp HQ. apply wp_bind. eapply wp_fproc_at; [done|]. by apply wp_modify. Qed.
Lemma wp_upd_filp i f q (Q : unit -> state W -> Prop) E s :
  aget (filps s) i = Some q -> Q tt (s <| filps := aupd i f (filps s) |>) -> wp (upd_filp i f) Q E s.
Proof. intros Hp HQ. apply wp_bind. eapply wp_filp_at; [done|]. by apply wp_modify. Qed.
Lemma wp_upd_vnode i f v (Q : unit -> state W -> Prop) E s :
  aget (vnodes s) i = Some v -> Q tt (s <| vnodes := aupd i f (vnodes s) |>) -> wp (upd_vnode i f) Q E s.
Proof. intros Hp HQ. apply wp_bind. eapply wp_vnode_at; [done|]. by apply wp_modify. Qed.
Lemma wp_vfs_env {A} (f : W -> A * W) (Q : A -> state W -> Prop) E s :
  Q (f (world s)).1 (s <| world := (f (world s)).2 |>) -> wp (env f) Q E s.
Proof. intros HQ. apply wp_bind, wp_get. destruct (f (world s)) as [a w]. apply wp_bind, wp_modify. by apply wp_ret. Qed.
Lemma wp_fd_slot p i x (Q : option Z -> state W -> Prop) E s : aget (fp_filp p) i = Some x -> Q x s -> wp (fd_slot p i) Q E s.
Proof. intros Hp HQ. unfold fd_slot. by apply wp_deref with x. Qed.
Lemma aupd_compose {A} (l : list A) i (f g h : A -> A) : (forall x, h x = f (g x)) -> aupd i f (aupd i g l) = aupd i h l.
Proof. intros Hh. rewrite aupd_aupd. apply aupd_ext. intros x _. by rewrite Hh. Qed.
Lemma wp_set_fd n i v p x (Q : unit -> state W -> Prop) E s :
  aget (fprocs s) n = Some p -> aget (fp_filp p) i = Some x ->
  Q tt (s <| fprocs := aupd n (fun p => p <| fp_filp := aupd i (fun _ => v) (fp_filp p) |>) (fprocs s) |>) -> wp (set_fd n i v) Q E s.
Proof.
  intros Hp Hx HQ. apply wp_bind. eapply wp_fproc_at; [done|]. apply wp_bind. eapply wp_fd_slot; [done|].
  by eapply wp_set_fproc.
Qed.
Lemma wp_reply whom r (Q : unit -> state W -> Prop) E s :
  (forall o w, Q tt (s <| m_out := o |> <| world := w |>)) -> wp (reply whom r) Q E s.
Proof. intros HQ. apply wp_bind, wp_modify, wp_bind, wp_get, wp_bind, wp_vfs_env, wp_ret, HQ. Qed.


(** ** Steps that keep the invariant *)
Lemma vfs_ok_same s s' :
  vfs_ok s -> fprocs s' = fprocs s -> filps s' = filps s -> vnodes s' = vnodes s -> susp_count s' = susp_count s ->
  file_locks s' = file_locks s -> nr_locks s' = nr_locks s -> vfs_ok s'.
Proof.
  intros Hok Hp Hf Hv Hs Hl Hn. destruct Hok as [Hpo H1' H2' H3' HX' H4' H5' H6' H7']. split; rewrite ?Hp, ?Hf, ?Hv, ?Hs, ?Hl, ?Hn; try done.
  - destruct Hpo. by split; rewrite ?Hp.
  - intros i p Hi Ha. destruct (H7' _ _ Hi Ha) as (f & q & ? & ? & ?). exists f, q. by rewrite Hf, Hv.
Qed.
Lemma vfs_ok_slot s s' i p u :
  vfs_ok s -> aget (fprocs s) i = Some p -> fprocs s' = aupd i u (fprocs s) -> filps s' = filps s -> vnodes s' = vnodes s ->
  file_locks s' = file_locks s -> nr_locks s' = nr_locks s -> susp_count s' = susp_count s - pending p + pending (u p) ->
  length (fp_filp (u p)) = length (fp_filp p) ->
  (fp_pid (u p) <> PID_FREE -> _ENDPOINT_P (fp_endpoint (u p)) = i /\ fp_endpoint (u p) <> NONE) ->
  (awaits (u p) = true -> waits_on s (u p)) -> vfs_ok s'.
Proof.
  intros Hok Hi Hp Hf Hv Hl Hn Hs Hlen Hep Ha. pose proof Hok as [Hpo H1' H2' H3' HX' H4' H5' H6' H7'].
  assert (forall j x, aget (aupd i u (fprocs s)) j = Some x -> (j = i /\ x = u p) \/ (j <> i /\ aget (fprocs s) j = Some x)) as Hget.
  { intros j x. rewrite aget_aupd. case_decide; [subst j; rewrite Hi; intros [= <-]; by left|by right]. }
  split; rewrite ?Hp, ?Hf, ?Hv, ?Hl, ?Hn; try done.
  - destruct Hpo as [Hln Hsl]. split; rewrite Hp; [by rewrite length_aupd|].
    intros j x [[-> ->]|[_ Hx]]%Hget Hfree; [by apply Hep|by eapply Hsl].
  - intros j x [[-> ->]|[_ Hx]]%Hget; [rewrite Hlen|]; by eapply H4'.
  - rewrite Hs, (sumZ_aupd _ _ _ _ _ Hi), H6'. lia.
  - intros j x [[-> ->]|[_ Hx]]%Hget Hax; [specialize (Ha Hax)|pose proof (H7' _ _ Hx Hax) as Ha'];
      [destruct Ha as (f & q & ? & ? & ?)|destruct Ha' as (f & q & ? & ? & ?)]; exists f, q; by rewrite Hf, Hv.
Qed.
Lemma vfs_ok_proc s s' i p u :
  vfs_ok s -> aget (fprocs s) i = Some p -> fprocs s' = aupd i u (fprocs s) -> filps s' = filps s -> vnodes s' = vnodes s ->
  file_locks s' = file_locks s -> nr_locks s' = nr_locks s -> susp_count s' = susp_count s - pending p + pending (u p) ->
  length (fp_filp (u p)) = length (fp_filp p) -> (fp_pid (u p) <> PID_FREE -> fp_pid p <> PID_FREE /\ fp_endpoint (u p) = fp_endpoint p) ->
  (awaits (u p) = true -> waits_on s (u p)) -> vfs_ok s'.
Proof.
  intros Hok Hi Hp Hf Hv Hl Hn Hs Hlen Hep Ha. eapply (vfs_ok_slot s s' i p u); try done.
  intros Hfree. destruct (Hep Hfree) as [Hpf ->]. by apply (po_slot _ (vo_procs _ Hok) i p).
Qed.
Lemma vfs_ok_filps s s' :
  vfs_ok s -> filp_vno <$> filps s' = filp_vno <$> filps s -> fprocs s' = fprocs s ->
  vnodes s' = vnodes s -> susp_count s' = susp_count s -> file_locks s' = file_locks s -> nr_locks s' = nr_locks s -> vfs_ok s'.
Proof.
  intros [Hpo H1' H2' H3' HX' H4' H5' H6' H7'] Hf Hp Hv Hs Hl Hn. split; rewrite ?Hp, ?Hv, ?Hs, ?Hl, ?Hn; try done.
  - destruct Hpo. by split; rewrite ?Hp.
  - by rewrite <-(length_fmap filp_vno), Hf, length_fmap.
  - intros i p Hi Ha. destruct (H7' _ _ Hi Ha) as (g & q & Hg & Hq & Hw).
    assert (filp_vno <$> aget (filps s') g = Some (filp_vno q)) as Hq' by by rewrite <-aget_fmap, Hf, aget_fmap, Hq.
    destruct (aget (filps s') g) as [q'|] eqn:E; [|done]. injection Hq' as Hq'. exists g, q'. rewrite Hv, Hq'. done.
Qed.
Lemma vfs_ok_filp s s' f u :
  vfs_ok s -> (forall q, aget (filps s) f = Some q -> filp_vno (u q) = filp_vno q) -> fprocs s' = fprocs s -> filps s' = aupd f u (filps s) ->
  vnodes s' = vnodes s -> susp_count s' = susp_count s -> file_locks s' = file_locks s -> nr_locks s' = nr_locks s -> vfs_ok s'.
Proof. intros Hok Hu Hp Hf Hv Hs Hl Hn. apply (vfs_ok_filps s s'); try done. rewrite Hf. by apply fmap_aupd_same. Qed.
Lemma vfs_ok_vnode s s' v u :
  vfs_ok s -> (forall x, aget (vnodes s) v = Some x -> (0 < v_ref_count (u x) -> 0 < v_fs_count (u x)) /\ (v_pipe (u x) = I_PIPE -> v_pipe x = I_PIPE)) ->
  fprocs s' = fprocs s -> filps s' = filps s -> vnodes s' = aupd v u (vnodes s) -> susp_count s' = susp_count s ->
  file_locks s' = file_locks s -> nr_locks s' = nr_locks s -> vfs_ok s'.
Proof.
  intros [Hpo H1' H2' H3' HX' H4' H5' H6' H7'] Hu Hp Hf Hv Hs Hl Hn.
  assert (forall w x, aget (aupd v u (vnodes s)) w = Some x -> exists y, aget (vnodes s) w = Some y /\ (x = y \/ w = v /\ x = u y)) as Hget.
  { intros w x. rewrite aget_aupd. case_decide; [subst w|by eauto]. destruct (aget (vnodes s) v) as [y|] eqn:Hy; [|done]. intros [= <-]. eauto. }
  split; rewrite ?Hp, ?Hf, ?Hv, ?Hs, ?Hl, ?Hn, ?length_aupd; try done.
  - destruct Hpo. by split; rewrite ?Hp.
  - intros w x (y & Hy & [->|[-> ->]])%Hget; [by eapply H5'|by apply Hu].
  - intros i p Hi Ha. destruct (H7' _ _ Hi Ha) as (g & q & Hg & Hq & Hw). exists g, q. rewrite Hf, Hv. split_and!; [done..|].
    intros w x Hqv (y & Hy & [->|[-> ->]])%Hget Hpipe; [by eapply Hw|]. eapply Hw; [done..|]. by apply (Hu _ Hy).
Qed.
End invariant.
