(* ===== verification/VfsClose.v ===== *)
(** Releasing what a process holds: vnodes, pipes, open files, descriptors.  Each operation of
    [vnode.c], [pipe.c], [filedes.c] and [open.c] is shown to do to the references what its
    counterpart in [VfsRefs] does, and to keep the invariant of the server. *)
From S2P Require Import Prelude Minix VfsBase VfsLock VfsFd VfsRefs VfsInv.
Local Open Scope Z_scope.

Section close.
Context `{MinixHeaders} `{VfsHeaders} {W : Type} `{VfsEnv W} `{VfsCalls W} `{!VfsCallsLaws}.
Implicit Types (s : state W).

(** A step that changes the references to [R]. *)
Record moved s (R : refs) s' : Prop := {
  mv_view : view s' = R;
  mv_fp : fp s' = fp s;
  mv_locks : file_locks s' = file_locks s /\ nr_locks s' = nr_locks s;
  mv_ok : vfs_ok s';
  mv_free i : unblocked s i -> unblocked s' i;
  mv_in : m_in s' = m_in s /\ call_nr s' = call_nr s;
}.
Lemma kept_moved s s' : kept s s' -> moved s (view s) s'.
Proof. intros []. by split. Qed.
Lemma moved_trans s R s1 R' s' : moved s R s1 -> moved s1 R' s' -> moved s R' s'.
Proof.
  intros [? ? [? ?] ? ? [? ?]] [? ? [? ?] ? ? [? ?]]. split; [done|congruence|split; congruence|done|auto|split; congruence].
Qed.
Lemma kept_moved_trans s s1 R s' : kept s s1 -> moved s1 R s' -> moved s R s'.
Proof. intros Hk. by apply moved_trans with (view s), kept_moved. Qed.
Lemma kept_same s s' :
  vfs_ok s -> fprocs s' = fprocs s -> filps s' = filps s -> vnodes s' = vnodes s -> susp_count s' = susp_count s ->
  file_locks s' = file_locks s -> nr_locks s' = nr_locks s -> fp s' = fp s -> m_in s' = m_in s /\ call_nr s' = call_nr s -> kept s s'.
Proof.
  intros Hok Hp Hf Hv Hs Hl Hn Hfp Hin. split; [unfold view; by rewrite Hp, Hf, Hv|done|by rewrite Hv|done|by eapply vfs_ok_same| |done].
  intros i. unfold unblocked. by rewrite Hp.
Qed.

(** ** [vnode.c] *)
Lemma wp_ASSERTVP s v x (Q : unit -> state W -> Prop) E : vfs_ok s -> aget (vnodes s) v = Some x -> Q tt s -> wp (ASSERTVP v) Q E s.
Proof. intros Hok Hx HQ. pose proof (aget_range _ _ _ Hx). pose proof (vo_vnodes _ Hok). apply wp_assert; [lia|done]. Qed.
Lemma vnode_moved s s' v u d x :
  vfs_ok s -> aget (vnodes s) v = Some x -> v_ref_count (u x) = v_ref_count x + d ->
  (0 < v_ref_count (u x) -> 0 < v_fs_count (u x)) -> (v_pipe (u x) = I_PIPE -> v_pipe x = I_PIPE) ->
  vnodes s' = aupd v u (vnodes s) -> fprocs s' = fprocs s -> filps s' = filps s -> susp_count s' = susp_count s ->
  file_locks s' = file_locks s -> nr_locks s' = nr_locks s -> fp s' = fp s -> m_in s' = m_in s /\ call_nr s' = call_nr s -> moved s (use_vnode v d (view s)) s'.
Proof.
  intros Hok Hx Hr Hf Hp Hvn Hfp Hfl Hs Hl Hn Hcur Hin. split; try done.
  - apply refs_ext; cbn; [by rewrite Hfp|by rewrite Hfl|]. rewrite Hvn. apply fmap_aupd. intros y Hy. by assert (y = x) as -> by congruence.
  - apply (vfs_ok_vnode s _ v u Hok); try done. intros y Hy. by assert (y = x) as -> by congruence.
  - intros i. unfold unblocked. by rewrite Hfp.
Qed.
Lemma dup_vnode_ok s v x :
  vfs_ok s -> aget (vnodes s) v = Some x -> 0 < v_fs_count x -> wp (dup_vnode v) (fun _ s' => moved s (use_vnode v 1 (view s)) s') never s.
Proof.
  intros Hok Hx Hf. eapply wp_bind, wp_ASSERTVP; [done..|]. eapply wp_upd_vnode; [done|].
  by apply (vnode_moved s _ v (fun v => v <| v_ref_count := v_ref_count v + 1 |>) 1 x).
Qed.
Lemma put_vnode_ok s v x :
  vfs_ok s -> aget (vnodes s) v = Some x -> 0 < v_ref_count x -> wp (put_vnode v) (fun _ s' => moved s (use_vnode v (-1) (view s)) s') never s.
Proof.
  intros Hok Hx Hr. pose proof (vo_fs _ Hok _ _ Hx Hr) as Hf. eapply wp_bind, wp_ASSERTVP; [done..|].
  eapply wp_bind, wp_vnode_at; [done|]. destruct (1 <? v_ref_count x) eqn:E1.
  - set (u := fun v => v <| v_ref_count := v_ref_count v - 1 |>). eapply wp_bind, wp_upd_vnode; [done|]. fold u.
    assert (moved s (use_vnode v (-1) (view s)) (s <| vnodes := aupd v u (vnodes s) |>)) as Hm by by apply (vnode_moved s _ v u (-1) x).
    destruct (256 <? v_fs_count x) eqn:E2; [|by apply wp_ret].
    assert (aget (vnodes (s <| vnodes := aupd v u (vnodes s) |>)) v = Some (u x)) as Hx' by (simpl; by rewrite aget_aupd_eq, Hx).
    eapply wp_bind, wp_vnode_at; [done|]. destruct (v_fs_count (u x) <=? 1); [by apply wp_ret|].
    apply wp_bind, wp_vfs_env. eapply wp_upd_vnode; [exact Hx'|].
    apply (vnode_moved s _ v (fun v => u v <| v_fs_count := 1 |>) (-1) x); try done. by apply aupd_compose.
  - replace (v_ref_count x <=? 0) with false by lia. replace (v_fs_count x <=? 0) with false by lia. cbv iota.
    apply wp_bind, wp_vfs_env, wp_bind. set (u := fun v => v <| v_fs_count := 0 |> <| v_ref_count := 0 |> <| v_pipe := NO_PIPE |> <| v_sdev := NO_DEV |>
       <| v_mapfs_e := 0 |> <| v_mapinode_nr := 0 |> <| v_mapfs_count := 0 |>).
    assert (v_ref_count x = 1) as Hr1 by lia.
    assert (forall w, wp (upd_vnode v u) (fun _ s' => moved s (use_vnode v (-1) (view s)) s') never (s <| world := w |>)) as Hend.
    { intros w. eapply wp_upd_vnode; [done|]. apply (vnode_moved s _ v u (-1) x); try done. cbn. lia. }
    destruct (_ && _); [apply wp_vfs_env|apply wp_ret]; apply Hend.
Qed.
Lemma truncate_vnode_ok s v x n : vfs_ok s -> aget (vnodes s) v = Some x -> wp (truncate_vnode v n) (fun _ s' => kept s s') never s.
Proof.
  intros Hok Hx. eapply wp_bind, wp_vnode_at; [done|]. cbv zeta. destruct (_ && _); [by apply wp_ret, kept_refl|].
  apply wp_bind, wp_vfs_env, wp_bind. match goal with |- context [is_ok ?r] => destruct (is_ok r) end; [eapply wp_upd_vnode; [done|]|]; apply wp_ret; [|by apply kept_same].
  set (u := fun v => v <| v_size := n |>). split; try done.
  - apply refs_ext; [done|done|]. by apply fmap_aupd_same.
  - cbn. by apply fmap_aupd_same.
  - apply (vfs_ok_vnode s _ v u Hok); [|done..]. intros y Hy. split; [exact (vo_fs _ Hok v y Hy)|done].
Qed.

(** ** Processes that wait *)
Lemma lock_revive_ok s : vfs_ok s -> wp lock_revive (fun _ s' => kept s s') never s.
Proof.
  intros Hok. eapply wp_ret_run; [apply lock_revive_run, Hok|]. apply outer_kept; [done|]. split; [by destruct s|].
  cbn. apply list.Forall2_fmap_r, list.Forall_Forall2_diag, Forall_forall. intros p _. unfold compose, woken.
  case_match eqn:E; split; try done; try by left. right. unfold waits_for_lock in E.
  apply andb_true_iff in E as [E _]. apply andb_true_iff in E as [_ E]. cbn. split; [lia|done].
Qed.
Lemma revive_waiting s i p r :
  procs_ok s -> aget (fprocs s) i = Some p -> fp_pid p <> PID_FREE -> fp_blocked_on p = FP_BLOCKED_ON_PIPE -> fp_revived p = false ->
  revive (fp_endpoint p) r s = Ret tt (s <| fprocs := aupd i (fun p => p <| fp_revived := true |>) (fprocs s) |> <| reviving := reviving s + 1 |>).
Proof.
  intros Hok Hp Hf Hb Hr.
  assert (wp (revive (fp_endpoint p) r) (fun _ s' => s' = s <| fprocs := aupd i (fun p => p <| fp_revived := true |>) (fprocs s) |> <| reviving := reviving s + 1 |>) never s) as Hx.
  2:{ destruct (wp_never_run _ _ _ Hx) as ([] & s' & Hrun & ->). exact Hrun. }
  apply wp_bind. apply (wp_ret_run _ _ _ _ _ _ (isokendpt_own _ _ _ Hok Hp Hf)). change (negb (is_ok OK)) with false. cbv iota.
  eapply wp_bind, wp_fproc_at; [done|]. unfold fp_is_blocked. rewrite Hb, Hr. cbn. eapply wp_bind, wp_set_fproc; [done|]. by apply wp_modify.
Qed.
(** Waking a process that waits for a pipe. *)
Lemma release_one s i p vp x (Q : unit -> state W -> Prop) :
  vfs_ok s -> aget (fprocs s) i = Some p -> awaits p = true ->
  (exists f q, aget (fp_filp p) (fp_block_fd p) = Some (Some f) /\ aget (filps s) f = Some q /\ filp_vno q = Some vp) ->
  aget (vnodes s) vp = Some x -> v_pipe x = I_PIPE ->
  (forall s', kept s s' -> 0 <= susp_count s' -> Q tt s') ->
  wp (revive (fp_endpoint p) OK;; modify (fun s => s <| susp_count := susp_count s - 1 |>)) Q never s.
Proof.
  intros Hok Hp Ha (f & q & Hf & Hq & Hv) Hx Hpipe HQ. destruct (vo_wait _ Hok _ _ Hp Ha) as (f' & q' & Hf' & Hq' & Hw).
  assert (fp_blocked_on p = FP_BLOCKED_ON_PIPE) as Hb by (eapply (Hw vp x); congruence).
  unfold awaits in Ha. rewrite !andb_true_iff, !negb_true_iff in Ha. destruct Ha as [[[Hpid Hbl] Hr] Hc].
  apply wp_bind. eapply wp_ret_run; [eapply revive_waiting; [apply Hok|done|lia|done|done]|]. apply wp_modify.
  assert (pending p = 1) as Hpend by (unfold pending; by rewrite Hpid, Hr, Hb). set (u := fun p => p <| fp_revived := true |>).
  assert (pending (u p) = 0) as Hpend' by (unfold pending, u; cbn; by rewrite andb_false_r). apply HQ.
  - split; try done.
    + apply refs_ext; [|done|done]. by apply fmap_aupd_same.
    + apply (vfs_ok_proc s _ i p u Hok Hp); try done; [cbn; lia|].
      unfold awaits, u. cbn. by rewrite andb_false_r.
    + intros j (y & Hy & Hyb). exists (if decide (i = j) then u y else y). cbn. rewrite aget_aupd. case_decide; [|done]. by rewrite Hy.
  - cbn. rewrite (vo_susp _ Hok). pose proof (sumZ_member pending (fprocs s) i p) as Hm. rewrite Hpend in Hm.
    assert (forall y, 0 <= pending y) as Hpos by (intros y; unfold pending; by destruct (_ && _)). specialize (Hm Hpos Hp). lia.
Qed.

Lemma kept_vnode s s' v x : kept s s' -> aget (vnodes s) v = Some x ->
  exists x', aget (vnodes s') v = Some x' /\ v_pipe x' = v_pipe x /\ v_ref_count x' = v_ref_count x.
Proof.
  intros Hk Hx. assert (aget (v_pipe <$> vnodes s') v = Some (v_pipe x)) as Hp by by rewrite (kp_pipe _ _ Hk), aget_fmap, Hx.
  assert (aget (counts (view s')) v = Some (v_ref_count x)) as Hc by (rewrite (kp_view _ _ Hk); cbn; by rewrite aget_fmap, Hx).
  rewrite aget_fmap in Hp. cbn in Hc. rewrite aget_fmap in Hc. destruct (aget (vnodes s') v) as [x'|]; [|done].
  injection Hp as Hp. injection Hc as Hc. by exists x'.
Qed.
Lemma view_filp s s' f q : opens (view s') = opens (view s) -> aget (filps s) f = Some q ->
  exists q', aget (filps s') f = Some q' /\ filp_count q' = filp_count q /\ filp_vno q' = filp_vno q.
Proof.
  intros Hv Hq. assert (aget (opens (view s')) f = Some (open_at q)) as Ho by (rewrite Hv; cbn; by rewrite aget_fmap, Hq).
  cbn in Ho. rewrite aget_fmap in Ho. destruct (aget (filps s') f) as [q'|]; [|done]. exists q'. by injection Ho as -> ->.
Qed.
Lemma filp_kept s f q u :
  vfs_ok s -> aget (filps s) f = Some q -> open_at (u q) = open_at q -> kept s (s <| filps := aupd f u (filps s) |>).
Proof.
  intros Hok Hq Hu. split; try done.
  - apply refs_ext; [done| |done]. apply fmap_aupd_same. intros y Hy. by assert (y = q) as -> by congruence.
  - apply (vfs_ok_filp s _ f u Hok); try done. intros y Hy. assert (y = q) as -> by congruence. exact (f_equal snd Hu).
Qed.
Lemma proc_at s i : vfs_ok s -> 0 <= i < NR_PROCS -> exists p, aget (fprocs s) i = Some p.
Proof. intros Hok Hi. apply aget_is_Some. by rewrite (po_length _ (vo_procs _ Hok)). Qed.
Lemma filp_exists s f : vfs_ok s -> 0 <= f < NR_FILPS -> exists q, aget (filps s) f = Some q.
Proof. intros Hok Hi. apply aget_is_Some. by rewrite (vo_filps _ Hok). Qed.
Lemma seqZ_in pre i post n : seqZ 0 n = pre ++ i :: post -> 0 <= i < n.
Proof. by intros [_ ?]%seqZ_visit. Qed.

(** [release], for a pipe: the references stay, and those it wakes are no longer counted as waiting. *)
Lemma release_ok s vp x call n :
  vfs_ok s -> aget (vnodes s) vp = Some x -> v_pipe x = I_PIPE -> call = READ \/ call = WRITE ->
  wp (release vp call n) (fun _ s' => kept s s') never s.
Proof.
  intros Hok Hx Hpipe Hcall. unfold release. replace ((call =? READ) || (call =? WRITE)) with true by lia.
  apply wp_bind. eapply (wp_mono _ (fun _ s1 => kept s s1) _ never); [| |done].
  - apply (wp_foreach _ _ (fun _ s1 => kept s s1)); [by apply kept_refl| |done].
    intros pre f post s1 Hf%seqZ_in Hk. destruct (filp_exists s1 f (kp_ok _ _ Hk) Hf) as [q Hq]. eapply wp_bind, wp_filp_at; [done|].
    destruct (_ || _); [by apply wp_ret|]. apply wp_bind. eapply wp_mono; [apply select_callback_ok| |done].
    intros [] s2 Ho. pose proof (kept_trans _ _ _ Hk (outer_kept _ _ (kp_ok _ _ Hk) Ho)) as Hk2.
    destruct (filp_exists s2 f (kp_ok _ _ Hk2) Hf) as [q2 Hq2]. eapply wp_upd_filp; [done|].
    eapply kept_trans; [exact Hk2|]. by eapply filp_kept; [apply Hk2|..].
  - intros [] s1 Hk. apply wp_bind. eapply (wp_mono _ (fun _ s1 => kept s s1) _ never); [|by intros; apply wp_ret|done].
    apply (wp_fold_break _ _ _ (fun _ _ s2 => kept s s2)); [done| |done].
    clear s1 Hk. intros pre i post c s1 Hi%seqZ_in Hk. pose proof (kp_ok _ _ Hk) as Hok1.
    destruct (negb (0 <? c)); [by apply wp_ret|]. destruct (proc_at s1 i Hok1 Hi) as [p Hp]. eapply wp_bind, wp_fproc_at; [done|].
    destruct (negb (fp_pid p =? PID_FREE) && fp_is_blocked p && negb (fp_revived p) && (fp_block_callnr p =? call)) eqn:Hc;
      [|by apply wp_bind, wp_ret, wp_ret].
    assert (awaits p = true) as Ha.
    { unfold awaits. apply andb_true_iff in Hc as [-> Hc]. cbn. lia. }
    destruct (vo_wait _ Hok1 _ _ Hp Ha) as (f & q & Hf & Hq & _).
    apply wp_bind. eapply wp_bind, wp_fd_slot; [done|]. apply wp_bind, (wp_deref _ f); [done|]. eapply wp_bind, wp_filp_at; [done|].
    apply wp_ret. case_bool_decide as Hv; [|by apply wp_ret].
    destruct (kept_vnode _ _ _ _ Hk Hx) as (x1 & Hx1 & Hp1 & _).
    assert (forall (k : M (state W) (Z * bool)), wp ((revive (fp_endpoint p) OK;; modify (fun s => s <| susp_count := susp_count s - 1 |>));; k) (fun r s2 => if r.2 then kept s s2 else kept s s2) never s1 ->
      wp (revive (fp_endpoint p) OK;; modify (fun s => s <| susp_count := susp_count s - 1 |>);; k) (fun r s2 => if r.2 then kept s s2 else kept s s2) never s1) as Hassoc.
    { intros k. unfold wp, mbind, M_bind. by destruct (revive _ _ s1). }
    apply Hassoc. apply wp_bind. eapply release_one; [done|done|done|by exists f, q|done|congruence|].
    intros s2 Hk2 Hpos. apply wp_bind, wp_get. replace (susp_count s2 <? 0) with false by lia. apply wp_ret.
    destruct (c - 1 =? 0); cbn; by eapply kept_trans.
Qed.

(** ** [close_filp] *)
Lemma end_use_last R f v : aget (opens R) f = Some (1, Some v) -> end_use f R = use_vnode v (-1) (use_open f (-1) R).
Proof. intros Hq. unfold end_use. by rewrite Hq. Qed.
Lemma end_use_more R f n o : aget (opens R) f = Some (n, o) -> n <> 1 -> end_use f R = use_open f (-1) R.
Proof. intros Hq Hn. unfold end_use. rewrite Hq. by destruct n as [|[]|]. Qed.
Lemma filp_moved s f q d :
  vfs_ok s -> aget (filps s) f = Some q ->
  moved s (use_open f d (view s)) (s <| filps := aupd f (fun q => q <| filp_count := filp_count q + d |>) (filps s) |>).
Proof.
  intros Hok Hq. split; try done.
  - apply refs_ext; [done| |done]. cbn. by apply fmap_aupd.
  - by apply (vfs_ok_filp s _ f (fun q => q <| filp_count := filp_count q + d |>) Hok).
Qed.
Lemma close_special_ok s f q x :
  vfs_ok s -> aget (filps s) f = Some q ->
  wp (if (filp_count q - 1 =? 0) && negb (filp_mode q =? FILP_CLOSED) then
       let mode_word := Z.land (v_mode x) I_TYPE in
       if (mode_word =? I_CHAR_SPECIAL) || (mode_word =? I_BLOCK_SPECIAL) then
         let dev := v_sdev x in
         (if (mode_word =? I_BLOCK_SPECIAL) && (v_bfs_e x =? ROOT_FS_E) then env (req_flush (v_bfs_e x) dev) else mret tt);;
         dev_close dev f;;
         upd_filp f (fun q => q <| filp_mode := FILP_CLOSED |>)
       else mret tt
     else mret tt) (fun _ s' => kept s s') never s.
Proof.
  intros Hok Hq. destruct (_ && _); [|by apply wp_ret, kept_refl]. cbv zeta. destruct (_ || _); [|by apply wp_ret, kept_refl].
  apply wp_bind. eapply (wp_mono _ (fun _ s1 => kept s s1) _ never); [| |done].
  { destruct (_ && _); [apply wp_vfs_env; by apply kept_same|by apply wp_ret, kept_refl]. }
  intros [] s1 Hk. apply wp_bind. eapply wp_mono; [apply dev_close_ok| |done]. intros [] s2 Ho.
  pose proof (kept_trans _ _ _ Hk (outer_kept _ _ (kp_ok _ _ Hk) Ho)) as Hk2.
  destruct (view_filp s s2 f q) as (q2 & Hq2 & _); [by rewrite (kp_view _ _ Hk2)|done|]. eapply wp_upd_filp; [done|].
  eapply kept_trans; [exact Hk2|]. by eapply filp_kept; [apply Hk2|..].
Qed.
Lemma close_filp_ok s f q vp x :
  vfs_ok s -> aget (filps s) f = Some q -> filp_vno q = Some vp -> aget (vnodes s) vp = Some x ->
  (filp_count q = 1 -> 0 < v_ref_count x) ->
  wp (close_filp f) (fun _ s' => moved s (end_use f (view s)) s') never s.
Proof.
  intros Hok Hq Hv Hx Hr. unfold close_filp. eapply wp_bind, wp_filp_at; [done|]. apply wp_bind, (wp_deref _ vp); [done|].
  eapply wp_bind, wp_vnode_at; [done|]. apply wp_bind. eapply wp_mono; [by eapply close_special_ok| |done].
  intros [] s1 Hk1. destruct (kept_vnode _ _ _ _ Hk1 Hx) as (x1 & Hx1 & Hp1 & Hr1).
  destruct (view_filp s s1 f q) as (q1 & Hq1 & _); [by rewrite (kp_view _ _ Hk1)|done|].
  eapply wp_bind, wp_vnode_at; [done|]. apply wp_bind.
  eapply (wp_mono _ (fun _ s2 => kept s s2) _ never); [| |done].
  { destruct (v_pipe x1 =? I_PIPE) eqn:Hp; [|by apply wp_ret]. eapply wp_bind, wp_filp_at; [done|].
    eapply wp_mono; [eapply (release_ok s1 vp x1); [apply Hk1|done|lia|destruct (has _ _); auto]| |done].
    intros [] s2 Hk2. by eapply kept_trans. }
  clear s1 Hk1 x1 Hx1 Hp1 Hr1 q1 Hq1. intros [] s2 Hk. destruct (kept_vnode _ _ _ _ Hk Hx) as (x2 & Hx2 & Hp2 & Hr2).
  destruct (view_filp s s2 f q) as (q2 & Hq2 & Hc2 & Hv2); [by rewrite (kp_view _ _ Hk)|done|].
  eapply wp_bind, wp_upd_filp; [done|]. set (u := fun q => q <| filp_count := filp_count q - 1 |>).
  pose proof (filp_moved s2 f q2 (-1) (kp_ok _ _ Hk) Hq2) as Hm. rewrite (kp_view _ _ Hk) in Hm. set (s3 := _ <| filps := _ |>) in Hm.
  change (s2 <| filps := aupd f u (filps s2) |>) with s3. pose proof (kept_moved_trans _ _ _ _ Hk Hm) as Hm3.
  assert (aget (filps s3) f = Some (u q2)) as Hq3 by (simpl; by rewrite aget_aupd_eq, Hq2).
  eapply wp_bind, wp_filp_at; [done|]. assert (filp_count (u q2) = filp_count q - 1) as Hcu by (cbn; lia).
  assert (aget (opens (view s)) f = Some (filp_count q, Some vp)) as Hov.
  { cbn. rewrite aget_fmap, Hq. cbn. unfold open_at. by rewrite Hv. }
  rewrite Hcu. destruct (filp_count q - 1 =? 0) eqn:E.
  2:{ apply wp_ret. rewrite (end_use_more _ _ _ _ Hov); [done|]. lia. }
  assert (filp_count q = 1) as Hq1 by lia. rewrite Hq1 in Hov. rewrite (end_use_last _ _ _ Hov).
  eapply wp_bind, wp_vnode_at; [exact Hx2|]. apply wp_bind. eapply (wp_mono _ (fun _ s4 => kept s3 s4) _ never); [| |done].
  { destruct (v_pipe x2 =? I_PIPE); [|by apply wp_ret, kept_refl, (mv_ok _ _ _ Hm)]. apply wp_bind. eapply wp_mono; [by eapply truncate_vnode_ok; [apply Hm|]| |done].
    intros r s4 Hk4. by apply wp_ret. }
  intros [] s4 Hk4. apply wp_bind, (wp_deref _ vp); [cbn; congruence|]. destruct (kept_vnode s3 s4 vp x2 Hk4 Hx2) as (x4 & Hx4 & _ & Hr4).
  eapply wp_mono; [eapply (put_vnode_ok s4 vp x4); [apply Hk4|done|rewrite Hr4, Hr2; auto]| |done]. intros [] s5 Hm5.
  rewrite (kp_view _ _ Hk4), (mv_view _ _ _ Hm3) in Hm5. eapply moved_trans; [exact Hm3|]. by eapply kept_moved_trans.
Qed.

(** ** Closing a descriptor *)
(** A process that waits for nothing changes. *)
Lemma proc_moved s s' i p u u' :
  vfs_ok s -> aget (fprocs s) i = Some p -> fp_is_blocked p = false -> fp_blocked_on (u p) = fp_blocked_on p ->
  length (fp_filp (u p)) = length (fp_filp p) -> (fp_pid (u p) <> PID_FREE -> fp_pid p <> PID_FREE /\ fp_endpoint (u p) = fp_endpoint p) ->
  holder_of (u p) = u' (holder_of p) -> fprocs s' = aupd i u (fprocs s) -> filps s' = filps s -> vnodes s' = vnodes s ->
  susp_count s' = susp_count s -> file_locks s' = file_locks s -> nr_locks s' = nr_locks s -> fp s' = fp s -> m_in s' = m_in s /\ call_nr s' = call_nr s ->
  moved s (set_holder i u' (view s)) s'.
Proof.
  intros Hok Hp Hb Hub Hlen Hpid Hh Hps Hf Hv Hs Hl Hn Hcur.
  assert (forall x, fp_is_blocked x = false -> pending x = 0) as Hpend.
  { intros x Hx. unfold pending. unfold fp_is_blocked in Hx. apply negb_false_iff, Z.eqb_eq in Hx. rewrite Hx. cbn. by rewrite andb_false_r. }
  assert (fp_is_blocked (u p) = false) as Hub' by (unfold fp_is_blocked; by rewrite Hub).
  split; try done.
  - apply refs_ext; cbn; [|by rewrite Hf|by rewrite Hv]. rewrite Hps. apply fmap_aupd. intros y Hy. by assert (y = p) as -> by congruence.
  - apply (vfs_ok_proc s _ i p u Hok Hp); try done; [rewrite !Hpend by done; lia|].
    unfold awaits. by rewrite Hub', andb_false_r.
  - intros j (y & Hy & Hyb). exists (if decide (i = j) then u y else y). rewrite Hps, aget_aupd. case_decide; [|done].
    subst j. rewrite Hy. split; [done|]. by assert (y = p) as -> by congruence.
Qed.
Definition dropped (vp pid : Z) (l : file_lock) : file_lock :=
  if negb (lock_type l =? 0) && ((lock_vnode l =? vp) && (lock_pid l =? pid)) then l <| lock_type := 0 |> else l.
Lemma drop_locks_run s vp pid :
  lock_table (file_locks s) (nr_locks s) ->
  let T := dropped vp pid <$> file_locks s in drop_locks vp pid s = Ret tt (with_locks s T (sumZ used T)).
Proof.
  intros HT T. set (T0 := file_locks s). set (at_ k := with_locks s (map_pre k (dropped vp pid) T0) (sumZ used (map_pre k (dropped vp pid) T0))).
  assert (wp (drop_locks vp pid) (fun _ s' => s' = with_locks s T (sumZ used T)) never s) as Hx.
  2:{ destruct (wp_never_run _ _ _ Hx) as ([] & s' & Hrun & ->). exact Hrun. }
  apply (wp_foreach _ _ (fun pre s' => s' = at_ (length pre))).
  - unfold at_. rewrite map_pre_0. unfold T0. rewrite <-(lt_count _ _ HT). by rewrite with_locks_id.
  - intros pre i post s' Hl ->. apply seqZ_visit in Hl as [-> Hlt]. set (k := length pre) in *.
    assert (length (pre ++ [Z.of_nat k]) = S k) as -> by (rewrite length_app; simpl; lia).
    pose proof (lt_length _ _ HT). assert (exists l, T0 !! k = Some l) as [l Hlk] by (apply lookup_lt_is_Some; unfold T0; lia).
    assert (aget (file_locks (at_ k)) (Z.of_nat k) = Some l) as Hl1.
    { cbn. rewrite aget_map_pre. rewrite decide_False by lia. by rewrite aget_nat. }
    assert (at_ (S k) = with_locks s (aupd (Z.of_nat k) (dropped vp pid) (file_locks (at_ k))) (nr_locks (at_ k) - used l + used (dropped vp pid l))) as ->.
    { unfold at_. cbn. rewrite (aupd_map_pre _ _ _ l) by done. by rewrite <-(aupd_map_pre _ _ _ l), (sumZ_aupd _ _ _ _ l) by done. }
    eapply wp_bind, wp_lock_at; [exact Hl1|].
    assert (forall g, dropped vp pid l = g l -> aupd (Z.of_nat k) (dropped vp pid) (file_locks (at_ k)) = aupd (Z.of_nat k) g (file_locks (at_ k))) as Hup.
    { intros g Hg. apply aupd_ext. intros x Hx. by assert (x = l) as -> by congruence. }
    assert (dropped vp pid l = l -> at_ k = with_locks s (aupd (Z.of_nat k) (dropped vp pid) (file_locks (at_ k))) (nr_locks (at_ k) - used l + used (dropped vp pid l))) as Hsame.
    { intros Hd. rewrite (Hup id), aupd_id, Hd by done. replace (_ - _ + _) with (nr_locks (at_ k)) by lia. done. }
    unfold dropped in Hsame at 1. destruct (lock_type l =? 0) eqn:E1; [by apply wp_ret, Hsame|].
    destruct ((lock_vnode l =? vp) && (lock_pid l =? pid)) eqn:E2; [|by apply wp_ret, Hsame].
    assert (dropped vp pid l = l <| lock_type := 0 |>) as Hd by (unfold dropped; by rewrite E1, E2).
    eapply wp_bind, wp_upd_lock; [exact Hl1|]. apply wp_modify. rewrite (Hup (fun l => l <| lock_type := 0 |>)), Hd by done.
    assert (used l = 1) as -> by (unfold used; by rewrite E1). change (used (l <| lock_type := 0 |>)) with 0.
    replace (nr_locks (at_ k) - 1 + 0) with (nr_locks (at_ k) - 1) by lia. done.
  - intros s' ->. unfold at_. pose proof (lt_length _ _ HT). assert (map_pre (length (seqZ 0 NR_LOCKS)) (dropped vp pid) T0 = T) as ->; [|done].
    unfold map_pre, T. rewrite length_seqZ, take_ge, drop_ge, app_nil_r by (unfold T0; lia). done.
Qed.
Lemma dropped_holds vp pid T v p t b :
  holds (dropped vp pid <$> T) v p t b <-> holds T v p t b /\ ~ (v = vp /\ p = pid).
Proof.
  unfold holds. setoid_rewrite aget_fmap. split.
  - intros (i & l & Hl & Hc). destruct (aget T i) as [k|] eqn:Hk; [|done]. injection Hl as <-. unfold dropped in Hc.
    destruct (negb (lock_type k =? 0) && ((lock_vnode k =? vp) && (lock_pid k =? pid))) eqn:E.
    + exfalso. destruct Hc as (Hc1 & Hc2 & _). cbn in Hc1. congruence.
    + split; [by exists i, k|]. destruct Hc as (<- & Hc2 & <- & <- & _). intros [<- <-]. rewrite !Z.eqb_refl in E. lia.
  - intros [(i & l & Hl & Hc) Hn]. exists i, l. rewrite Hl. split; [|done]. cbn. f_equal. unfold dropped.
    destruct (negb (lock_type l =? 0) && ((lock_vnode l =? vp) && (lock_pid l =? pid))) eqn:E; [|done].
    exfalso. apply Hn. destruct Hc as (_ & _ & <- & <- & _). lia.
Qed.
Lemma dropped_table vp pid T n : lock_table T n -> lock_table (dropped vp pid <$> T) (sumZ used (dropped vp pid <$> T)).
Proof.
  intros HT. split; [by rewrite length_fmap; apply HT|done|]. intros i l. rewrite aget_fmap. destruct (aget T i) as [k|] eqn:Hk; [|done].
  intros [= <-]. unfold dropped. case_match; [done|]. by eapply lt_slots.
Qed.
Lemma vfs_ok_locks s T n : vfs_ok s -> lock_table T n -> exclusive T -> vfs_ok (with_locks s T n).
Proof. intros [[? ?] ? ? ? ? ? ? ? Hw] HT He. split; try done. Qed.
Lemma no_locks T v p t b : lock_table T 0 -> ~ holds T v p t b.
Proof.
  intros HT (i & l & Hl & (Ht & Ht0 & _)). pose proof (lt_count _ _ HT) as Hc.
  assert (forall x, 0 <= used x) as Hu by (intros x; unfold used; by destruct (_ =? _)).
  pose proof (sumZ_member used T i l Hu Hl) as Hm. unfold used in Hm at 1. replace (lock_type l =? 0) with false in Hm by lia. lia.
Qed.

(** What closing a descriptor leaves. *)
Record closes s (rfp fd_nr : Z) s' : Prop := {
  cl_view : view s' = closed rfp fd_nr (view s);
  cl_fp : fp s' = fp s;
  cl_ok : vfs_ok s';
  cl_free i : unblocked s i -> unblocked s' i;
  cl_in : m_in s' = m_in s /\ call_nr s' = call_nr s;
}.
Lemma get_filp2_run s rfp fd_nr p x :
  aget (fprocs s) rfp = Some p -> aget (fp_filp p) fd_nr = Some x -> Z.of_nat (length (fp_filp p)) = OPEN_MAX ->
  exists r, get_filp2 rfp fd_nr s = Ret x (s <| err_code := r |>) /\ (r = EBADF \/ r = EIO).
Proof.
  intros Hp Hx Hlen. pose proof (aget_range _ _ _ Hx). exists (match x with None => if FD_ISSET fd_nr (fp_filp_inuse p) then EIO else EBADF | _ => EBADF end).
  split; [|destruct x; [by left|destruct (FD_ISSET _ _); auto]].
  assert (wp (get_filp2 rfp fd_nr) (fun y s' => y = x /\ s' = s <| err_code := match x with None => if FD_ISSET fd_nr (fp_filp_inuse p) then EIO else EBADF | _ => EBADF end |>) never s) as Hx'.
  2:{ destruct (wp_never_run _ _ _ Hx') as (y & s' & Hrun & -> & ->). exact Hrun. }
  apply wp_bind, wp_modify. replace ((fd_nr <? 0) || (OPEN_MAX <=? fd_nr)) with false by lia.
  eapply wp_bind, wp_fproc_at; [done|]. eapply wp_bind, wp_fd_slot; [done|]. apply wp_bind.
  destruct x as [f|]; [by apply wp_ret, wp_ret|]. destruct (FD_ISSET _ _); [apply wp_modify|apply wp_ret]; by apply wp_ret.
Qed.
Lemma get_filp2_bad s rfp fd_nr p :
  aget (fprocs s) rfp = Some p -> aget (fp_filp p) fd_nr = None -> Z.of_nat (length (fp_filp p)) = OPEN_MAX ->
  get_filp2 rfp fd_nr s = Ret None (s <| err_code := EBADF |>).
Proof.
  intros Hp Hx Hlen. unfold get_filp2. rewrite (bind_ret _ _ tt s (s <| err_code := EBADF |>)) by done.
  destruct ((fd_nr <? 0) || (OPEN_MAX <=? fd_nr)) eqn:E; [done|]. destruct (aget_is_Some (fp_filp p) fd_nr) as [y Hy]; [lia|congruence].
Qed.

(** After [close_filp], the descriptor itself. *)
Definition fd_closed (fd_nr : Z) (p : fproc) : fproc :=
  p <| fp_cloexec_set := FD_CLR fd_nr (fp_cloexec_set p) |> <| fp_filp := aupd fd_nr (fun _ => None) (fp_filp p) |>
    <| fp_filp_inuse := FD_CLR fd_nr (fp_filp_inuse p) |>.
Lemma close_slot_run s rfp fd_nr p x :
  aget (fprocs s) rfp = Some p -> aget (fp_filp p) fd_nr = Some x ->
  forall {A} (k : M (state W) A) Q E, wp k Q E (s <| fprocs := aupd rfp (fd_closed fd_nr) (fprocs s) |>) ->
  wp (set_fproc rfp (fun p => p <| fp_cloexec_set := FD_CLR fd_nr (fp_cloexec_set p) |>);;
      set_fd rfp fd_nr None;;
      set_fproc rfp (fun p => p <| fp_filp_inuse := FD_CLR fd_nr (fp_filp_inuse p) |>);; k) Q E s.
Proof.
  intros Hp Hx A k Q E HQ. set (u1 := fun p => p <| fp_cloexec_set := FD_CLR fd_nr (fp_cloexec_set p) |>).
  eapply wp_bind, wp_set_fproc; [done|]. apply wp_bind. eapply (wp_set_fd _ _ _ (u1 p)); [by cbn; rewrite aget_aupd_eq, Hp|done|]. cbn.
  rewrite aupd_aupd. eapply wp_bind, wp_set_fproc; [cbn; by rewrite aget_aupd_eq, Hp|]. cbn. rewrite aupd_aupd. exact HQ.
Qed.
Lemma close_locks_ok s rfp p vp :
  vfs_ok s -> aget (fprocs s) rfp = Some p ->
  wp (s ← get;
      if nr_locks s =? 0 then mret OK else
      let lock_count := nr_locks s in
      p ← fproc_at rfp;
      drop_locks vp (fp_pid p);;
      s ← get;
      (if nr_locks s <? lock_count then lock_revive else mret tt);;
      mret OK)
    (fun r s' => r = OK /\ view s' = view s /\ fp s' = fp s /\ vfs_ok s' /\ (forall i, unblocked s i -> unblocked s' i) /\
       (m_in s' = m_in s /\ call_nr s' = call_nr s) /\
       forall v q t b, holds (file_locks s') v q t b <-> holds (file_locks s) v q t b /\ ~ (v = vp /\ q = fp_pid p)) never s.
Proof.
  intros Hok Hp. pose proof (vo_locks _ Hok) as HT. apply wp_bind, wp_get. destruct (nr_locks s =? 0) eqn:E.
  { apply wp_ret. split_and!; try done. intros v q t b. assert (lock_table (file_locks s) 0) as HT0 by (by replace 0 with (nr_locks s) by lia).
    split; [intros Hh|intros [Hh _]]; by destruct (no_locks _ _ _ _ _ HT0 Hh). }
  cbv zeta. eapply wp_bind, wp_fproc_at; [done|]. apply wp_bind, (wp_ret_run _ _ _ _ _ _ (drop_locks_run s vp (fp_pid p) HT)).
  set (T := dropped vp (fp_pid p) <$> file_locks s). apply wp_bind, wp_get.
  assert (vfs_ok (with_locks s T (sumZ used T))) as Hok1.
  { apply vfs_ok_locks; [done|by eapply dropped_table|]. intros v b p1 t1 p2 t2 [H1' _]%dropped_holds [H2' _]%dropped_holds. by apply (vo_exclusive _ Hok v b). }
  apply wp_bind. eapply (wp_mono _ (fun _ s2 => kept (with_locks s T (sumZ used T)) s2) _ never); [| |done].
  { destruct (_ <? _); [by apply lock_revive_ok|by apply wp_ret, kept_refl]. }
  intros [] s2 [Hv Hf _ [Hl _] Hok2 Hfree [Hin Hcall]]. apply wp_ret. split; [done|]. split; [done|]. split; [done|]. split; [done|]. split; [exact Hfree|]. split; [done|].
  intros v q t b. rewrite Hl. apply dropped_holds.
Qed.

(** What closing an open descriptor does beyond its references: the descriptor is free, and
    the process holds no lock on the file. *)
Record closed_open s s' (rfp fd_nr : Z) (p : fproc) : Prop := {
  co_free : exists p', aget (fprocs s') rfp = Some p' /\ aget (fp_filp p') fd_nr = Some None;
  co_locks : exists f q vp, aget (fp_filp p) fd_nr = Some (Some f) /\ aget (filps s) f = Some q /\ filp_vno q = Some vp /\
    forall v i t b, holds (file_locks s') v i t b <-> holds (file_locks s) v i t b /\ ~ (v = vp /\ i = fp_pid p);
}.
Lemma close_fd_ok s rfp fd_nr p flights mounts :
  vfs_ok s -> counted flights mounts (view s) -> aget (fprocs s) rfp = Some p -> fp_is_blocked p = false ->
  wp (close_fd rfp fd_nr) (fun r s' => closes s rfp fd_nr s' /\
    match aget (fp_filp p) fd_nr with
    | Some (Some f) => r = OK /\ closed_open s s' rfp fd_nr p
    | _ => (r = EBADF \/ r = EIO) /\ s' = s <| err_code := r |>
    end) never s.
Proof.
  intros Hok Hc Hp Hb. pose proof (vo_fds _ Hok _ _ Hp) as Hlen.
  assert (aget (holders (view s)) rfp = Some (holder_of p)) as Hh by (cbn; by rewrite aget_fmap, Hp).
  assert (closed rfp fd_nr (view s) = match aget (fp_filp p) fd_nr with Some (Some f) => set_slot rfp fd_nr None (end_use f (view s)) | _ => view s end) as Hcl.
  { unfold closed. rewrite Hh. done. }
  assert (forall r, vfs_ok (s <| err_code := r |>)) as Hoke by (intros r; by eapply vfs_ok_same).
  apply wp_bind. destruct (aget (fp_filp p) fd_nr) as [[f|]|] eqn:Hf.
  2:{ destruct (get_filp2_run s rfp fd_nr p None Hp Hf Hlen) as (r & Hrun & Hr). apply (wp_ret_run _ _ _ _ _ _ Hrun).
      apply wp_bind, wp_get, wp_ret. split; [split; try done; by rewrite Hcl|done]. }
  2:{ apply (wp_ret_run _ _ _ _ _ _ (get_filp2_bad s rfp fd_nr p Hp Hf Hlen)).
      apply wp_bind, wp_get, wp_ret. split; [split; try done; by rewrite Hcl|split; [by left|done]]. }
  destruct (get_filp2_run s rfp fd_nr p (Some f) Hp Hf Hlen) as (r & Hrun & _). apply (wp_ret_run _ _ _ _ _ _ Hrun).
  set (s0 := s <| err_code := r |>). destruct (counted_fd _ _ _ _ _ _ _ Hc Hh Hf) as (n & o & Ho & Hn).
  destruct (ct_vno _ _ _ Hc _ _ _ Ho ltac:(lia)) as (vp & k & -> & Hk). pose proof (counted_vno _ _ _ _ _ _ Hc Ho ltac:(lia)) as (k' & Hk' & Hk1).
  assert (k' = k) as -> by congruence. clear Hk'. change (aget (open_at <$> filps s) f = Some (n, Some vp)) in Ho.
  change (aget (v_ref_count <$> vnodes s) vp = Some k) in Hk. rewrite aget_fmap in Ho. rewrite aget_fmap in Hk.
  destruct (aget (filps s) f) as [q|] eqn:Hq; [|done]. injection Ho as Hqn Hqv. destruct (aget (vnodes s) vp) as [x|] eqn:Hx; [|done]. injection Hk as Hxk.
  eapply wp_bind, wp_filp_at; [done|]. apply wp_bind, (wp_deref _ vp); [done|]. apply wp_bind.
  eapply wp_mono; [eapply (close_filp_ok s0 f q vp x (Hoke r)); [done..|lia]| |done]. intros [] s1 [Hv1 Hf1 [Hl1 Hn1] Hok1 Hfree1 [Hi1 Hc1]].
  change (view s0) with (view s) in Hv1. destruct (Hfree1 rfp) as (p1 & Hp1 & Hb1); [by exists p|].
  assert (holder_of p1 = holder_of p) as Hh1.
  { assert (aget (holders (view s1)) rfp = Some (holder_of p)) as Hx1 by by rewrite Hv1, end_use_holders. cbn in Hx1. rewrite aget_fmap, Hp1 in Hx1. exact (f_equal (default (holder_of p)) Hx1). }
  assert (aget (fp_filp p1) fd_nr = Some (Some f)) as Hs1 by by rewrite (f_equal h_fds Hh1 : fp_filp p1 = fp_filp p).
  eapply close_slot_run; [done..|]. set (s2 := s1 <| fprocs := _ |>).
  assert (moved s1 (set_slot rfp fd_nr None (view s1)) s2) as [Hv2 Hf2 [Hl2 Hn2] Hok2 Hfree2 [Hi2 Hc2]].
  { apply (proc_moved s1 s2 rfp p1 (fd_closed fd_nr) _ Hok1 Hp1 Hb1); try done. cbn. apply length_aupd. }
  assert (aget (fprocs s2) rfp = Some (fd_closed fd_nr p1)) as Hp2 by (cbn; by rewrite aget_aupd_eq, Hp1).
  eapply wp_mono; [by eapply (close_locks_ok s2 rfp _ vp)| |done]. intros r' s3 (-> & Hv3 & Hf3 & Hok3 & Hfree3 & [Hi3 Hc3] & Hl3).
  assert (fp_pid (fd_closed fd_nr p1) = fp_pid p) as Hpid by exact (f_equal h_pid Hh1). rewrite Hpid in Hl3.
  split; [split; [by rewrite Hcl, Hv3, Hv2, Hv1|by rewrite Hf3, Hf2, Hf1|done|auto|split; [by rewrite Hi3, Hi2, Hi1|by rewrite Hc3, Hc2, Hc1]]|]. split; [done|]. split.
  - assert (aget (holders (view s3)) rfp = Some (holder_of (fd_closed fd_nr p1))) as Hx3 by (rewrite Hv3; cbn; by rewrite aget_fmap, aget_aupd_eq, Hp1).
    cbn in Hx3. rewrite aget_fmap in Hx3. destruct (aget (fprocs s3) rfp) as [p3|]; [|done]. apply (f_equal (default (holder_of p3))) in Hx3. apply (f_equal h_fds) in Hx3. cbn in Hx3.
    exists p3. split; [done|]. rewrite Hx3. by rewrite aget_aupd_eq, Hs1.
  - exists f, q, vp. split_and!; try done. intros v i t b. rewrite Hl3, Hl2, Hl1. done.
Qed.
End close.
