(* ===== verification/VfsProc.v ===== *)
(** Processes in the virtual file system server: [close], [dup] and [fcntl] of [open.c] and
    [misc.c], and what VFS does when a process forks, is interrupted or ends.  Each keeps the
    invariant of the server and the counters of open files and vnodes. *)
From S2P Require Import Prelude Minix VfsBase VfsLock VfsFd VfsRefs VfsInv VfsClose.
Local Open Scope Z_scope.

Section processes.
Context `{MinixHeaders} `{VfsHeaders} {W : Type} `{VfsEnv W} `{VfsCalls W} `{!VfsCallsLaws}.
Context (flights mounts : Z -> Z).
Implicit Types (s : state W).

(** The invariant of the server: its tables have their form, and every counter of an open
    file and of a vnode is the number of its references. *)
Record vfs_inv s : Prop := { vi_ok : vfs_ok s; vi_counted : counted flights mounts (view s) }.
(** The process that is served: process [i] is live and waits for nothing. *)
Record serves s (i : Z) (p : fproc) : Prop := {
  sv_fp : fp s = i;
  sv_proc : aget (fprocs s) i = Some p;
  sv_live : fp_pid p <> PID_FREE;
  sv_ready : fp_is_blocked p = false;
}.
Lemma vfs_inv_moved s R s' : vfs_inv s -> moved s R s' -> counted flights mounts R -> vfs_inv s'.
Proof. intros _ Hm Hc. split; [apply Hm|]. by rewrite (mv_view _ _ _ Hm). Qed.
Lemma vfs_inv_same s s' :
  vfs_inv s -> fprocs s' = fprocs s -> filps s' = filps s -> vnodes s' = vnodes s -> susp_count s' = susp_count s ->
  file_locks s' = file_locks s -> nr_locks s' = nr_locks s -> vfs_inv s'.
Proof.
  intros [Hok Hc] Hp Hf Hv Hs Hl Hn. split; [by eapply vfs_ok_same|].
  assert (view s' = view s) as -> by (unfold view; by rewrite Hp, Hf, Hv). done.
Qed.
Lemma view_holder s i p : aget (fprocs s) i = Some p -> aget (holders (view s)) i = Some (holder_of p).
Proof. intros Hp. cbn. by rewrite aget_fmap, Hp. Qed.
Lemma view_holder_inv s i h : aget (holders (view s)) i = Some h -> exists p, aget (fprocs s) i = Some p /\ holder_of p = h.
Proof. cbn. rewrite aget_fmap. destruct (aget (fprocs s) i) as [p|]; [|done]. intros Hh. exists p. split; [done|]. exact (f_equal (default h) Hh). Qed.
Lemma view_open s f q : aget (filps s) f = Some q -> aget (opens (view s)) f = Some (filp_count q, filp_vno q).
Proof. intros Hq. cbn. by rewrite aget_fmap, Hq. Qed.
Lemma view_open_inv s f n o : aget (opens (view s)) f = Some (n, o) -> exists q, aget (filps s) f = Some q /\ filp_count q = n /\ filp_vno q = o.
Proof.
  cbn. rewrite aget_fmap. destruct (aget (filps s) f) as [q|]; [|done]. intros Hh. exists q. split; [done|].
  pose proof (f_equal (default (n, o)) Hh) as Hx. by injection Hx.
Qed.
Lemma count_nonneg s f q : vfs_inv s -> aget (filps s) f = Some q -> 0 <= filp_count q.
Proof.
  intros Hi Hq. rewrite (ct_open _ _ _ (vi_counted _ Hi) _ _ _ (view_open _ _ _ Hq)). pose proof (ct_flights _ _ _ (vi_counted _ Hi) f).
  pose proof (sumZ_pos _ (holders (view s)) (fds_of_nonneg f)). lia.
Qed.
Lemma fd_filp s i p j f : vfs_inv s -> aget (fprocs s) i = Some p -> aget (fp_filp p) j = Some (Some f) ->
  exists q, aget (filps s) f = Some q /\ 1 <= filp_count q.
Proof.
  intros Hi Hp Hf. destruct (counted_fd _ _ _ _ _ _ _ (vi_counted _ Hi) (view_holder _ _ _ Hp) Hf) as (n & o & Ho & Hn).
  destruct (view_open_inv _ _ _ _ Ho) as (q & Hq & Hqn & _). exists q. split; [done|lia].
Qed.

(** ** Free descriptors *)
Definition free_fd (p : fproc) (k : Z) : Prop := aget (fp_filp p) k = Some None /\ FD_ISSET k (fp_filp_inuse p) = false.
(** What [get_fd] answers: the first free descriptor and a free slot for an open file. *)
Definition got_fd s (p : fproc) (start : Z) (a : rc * option Z * option Z) : Prop :=
  match a with
  | (OK, Some k, Some f) => start <= k /\ free_fd p k /\ (forall j, start <= j < k -> ~ free_fd p j) /\
      exists q, aget (filps s) f = Some q /\ filp_count q = 0
  | (ENFILE, Some k, None) => free_fd p k /\ forall f q, aget (filps s) f = Some q -> filp_count q <> 0
  | (EMFILE, None, None) => forall j, start <= j -> ~ free_fd p j
  | _ => False
  end.
Lemma seqZ_prefix m n pre x post j : seqZ m n = pre ++ x :: post -> m <= j < x -> j ∈ pre.
Proof.
  intros Hs Hj. assert (seqZ m n !! length pre = Some x) as Hx by by rewrite Hs, list_lookup_middle.
  apply lookup_seqZ in Hx as [Hx Hlt]. assert (seqZ m n !! Z.to_nat (j - m) = Some j) as Hy by (apply lookup_seqZ; lia).
  rewrite Hs, lookup_app_l in Hy by lia. by eapply list_elem_of_lookup_2.
Qed.
Lemma seqZ_mid m n pre x post : seqZ m n = pre ++ x :: post -> m <= x < m + n.
Proof.
  intros Hs. assert (seqZ m n !! length pre = Some x) as Hx by by rewrite Hs, list_lookup_middle.
  apply lookup_seqZ in Hx. lia.
Qed.
Lemma get_fd_ok s i p start bits :
  vfs_inv s -> serves s i p -> 0 <= start ->
  wp (get_fd start bits) (fun a s' => kept s s' /\ got_fd s p start a /\ fprocs s' = fprocs s /\ m_in s' = m_in s) never s.
Proof.
  intros Hi [Hcur Hp _ _] Hst. pose proof (vi_ok _ Hi) as Hok. pose proof (vo_fds _ Hok _ _ Hp) as Hlen.
  apply wp_bind, wp_get, wp_bind.
  apply (wp_for _ _ (fun pre s' => s' = s /\ forall j, j ∈ pre -> ~ free_fd p j)).
  { split; [done|]. by intros j ?%elem_of_nil. }
  { intros pre j post s' Hs [-> Hpre]. pose proof (seqZ_mid _ _ _ _ _ Hs). destruct (aget_is_Some (fp_filp p) j) as [x Hx]; [lia|].
    eapply wp_bind, wp_fproc_at; [by rewrite Hcur|]. eapply wp_bind, wp_fd_slot; [done|]. apply wp_ret.
    destruct x as [f|]; [|destruct (FD_ISSET j (fp_filp_inuse p)) eqn:E]; cbn [negb].
    - split; [done|]. intros k [Hk|Hk%list_elem_of_singleton]%elem_of_app [Hk1 Hk2]; [by eapply Hpre|congruence].
    - split; [done|]. intros k [Hk|Hk%list_elem_of_singleton]%elem_of_app [Hk1 Hk2]; [by eapply Hpre|congruence].
    - assert (forall k, start <= k < j -> ~ free_fd p k) as Hlow by (intros k Hk; by eapply Hpre, seqZ_prefix).
      apply wp_bind. apply (wp_for _ _ (fun pre s' => s' = s /\ forall f q, f ∈ pre -> aget (filps s) f = Some q -> filp_count q <> 0)).
      { split; [done|]. by intros f q ?%elem_of_nil. }
      { intros pre' f post' s' Hs' [-> Hpre']. pose proof (seqZ_mid _ _ _ _ _ Hs'). destruct (filp_exists s f Hok) as [q Hq]; [lia|].
        eapply wp_bind, wp_filp_at; [done|]. pose proof (count_nonneg _ _ _ Hi Hq). apply wp_bind, wp_assert; [lia|].
        destruct (filp_count q =? 0) eqn:E0.
        - eapply wp_bind, wp_upd_filp; [done|]. apply wp_ret, wp_ret. split; [by eapply filp_kept|]. split; [|done].
          cbn. split_and!; [lia|done|exact Hlow|]. exists q. split; [done|lia].
        - apply wp_ret. split; [done|]. intros g y [Hg|Hg%list_elem_of_singleton]%elem_of_app Hy; [by eapply Hpre'|]. subst g.
          assert (y = q) as -> by congruence. lia. }
      intros s' [-> Hall]. apply wp_ret. split; [by apply kept_refl|]. split; [|done]. cbn. split; [done|].
      intros f q Hq. eapply Hall; [|done]. apply elem_of_seqZ. pose proof (aget_range _ _ _ Hq). pose proof (vo_filps _ Hok). lia. }
  intros s' [-> Hall]. apply wp_ret. split; [by apply kept_refl|]. split; [|done]. cbn. intros j Hj [Hf Hu].
  destruct (Hall j); [|done]. apply elem_of_seqZ. pose proof (aget_range _ _ _ Hf). lia.
Qed.

(** ** Another descriptor *)
(** An open file gets one more descriptor, with or without the mark that it is used. *)
Lemma add_fd_ok s i p k f n o (mark : bool) :
  vfs_inv s -> serves s i p -> aget (fp_filp p) k = Some None -> aget (opens (view s)) f = Some (n, o) -> 1 <= n ->
  wp (upd_filp f (fun q => q <| filp_count := filp_count q + 1 |>);;
      set_fd i k (Some f);;
      if mark then set_fproc i (fun p => p <| fp_filp_inuse := FD_SET k (fp_filp_inuse p) |>) else mret tt)
     (fun _ s' => moved s (dup_slot i k f (view s)) s' /\ counted flights mounts (dup_slot i k f (view s))) never s.
Proof.
  intros [Hok Hc] [Hcur Hp Hlive Hb] Hk Ho Hn. destruct (view_open_inv _ _ _ _ Ho) as (q & Hq & _).
  assert (counted flights mounts (dup_slot i k f (view s))) as Hc'.
  { eapply counted_dup; [done|by apply view_holder|done|done|exact Ho|done]. }
  eapply wp_bind, wp_upd_filp; [done|]. pose proof (filp_moved s f q 1 Hok Hq) as Hm1. set (s1 := s <| filps := _ |>) in *.
  apply wp_bind. eapply (wp_set_fd _ _ _ p); [done|done|].
  set (u := fun p => p <| fp_filp := aupd k (fun _ => Some f) (fp_filp p) |>). set (s2 := s1 <| fprocs := _ |>).
  set (v := fun p => if mark then u p <| fp_filp_inuse := FD_SET k (fp_filp_inuse (u p)) |> else u p).
  assert (forall s3, fprocs s3 = aupd i v (fprocs s1) -> filps s3 = filps s1 -> vnodes s3 = vnodes s1 -> susp_count s3 = susp_count s1 ->
    file_locks s3 = file_locks s1 -> nr_locks s3 = nr_locks s1 -> fp s3 = fp s1 ->
    m_in s3 = m_in s1 /\ call_nr s3 = call_nr s1 -> moved s (dup_slot i k f (view s)) s3) as Hend.
  { intros s3 E1 E2 E3 E4 E5 E6 E7 E8. eapply moved_trans; [exact Hm1|]. unfold dup_slot, set_slot. rewrite <-(mv_view _ _ _ Hm1).
    eapply (proc_moved s1 s3 i p v); try done; [apply Hm1|..].
    - unfold v. by destruct mark.
    - unfold v. destruct mark; cbn; by rewrite length_aupd.
    - unfold v. by destruct mark.
    - unfold v. by destruct mark. }
  destruct mark.
  - eapply (wp_set_fproc _ _ (u p)); [cbn; rewrite aget_aupd_eq; cbn in Hp; by rewrite Hp|]. split; [|done]. apply Hend; try done. cbn. by apply aupd_compose.
  - apply wp_ret. split; [|done]. by apply Hend.
Qed.

Lemma serves_same s s' i p : serves s i p -> fp s' = fp s -> fprocs s' = fprocs s -> serves s' i p.
Proof. intros [? ? ? ?] Hf Hp. split; [congruence|by rewrite Hp|done|done]. Qed.
(** The process is still served after a step; its directories and its number are the same. *)
Lemma serves_view s s' i p h :
  serves s i p -> fp s' = fp s -> unblocked s' i -> aget (holders (view s')) i = Some h -> h_pid h = fp_pid p ->
  exists p', serves s' i p' /\ holder_of p' = h.
Proof.
  intros [Hcur Hp Hl Hb] Hf (p' & Hp' & Hb') Hh Hpid. exists p'. destruct (view_holder_inv _ _ _ Hh) as (p2 & Hp2 & Hh2).
  assert (p2 = p') as -> by congruence. split; [|done]. split; [congruence|done| |done]. change (h_pid (holder_of p') <> PID_FREE). congruence.
Qed.
Lemma serves_unblocked s i p : serves s i p -> unblocked s i.
Proof. intros [_ Hp _ Hb]. by exists p. Qed.
Lemma err_kept s r : vfs_ok s -> kept s (s <| err_code := r |>).
Proof. intros Hok. by apply kept_same. Qed.
Lemma vfs_inv_kept s s' : vfs_inv s -> kept s s' -> vfs_inv s'.
Proof. intros [Hok Hc] Hk. split; [apply Hk|]. by rewrite (kp_view _ _ Hk). Qed.
(** A descriptor of the process that is served. *)
Lemma get_filp_ok s i p fild :
  vfs_inv s -> serves s i p ->
  wp (get_filp fild) (fun a s' => exists r, s' = s <| err_code := r |> /\ (r = EBADF \/ r = EIO) /\
    a = default None (aget (fp_filp p) fild)) never s.
Proof.
  intros [Hok _] [Hcur Hp _ _]. pose proof (vo_fds _ Hok _ _ Hp) as Hlen. apply wp_bind, wp_get. rewrite Hcur.
  destruct (aget (fp_filp p) fild) as [x|] eqn:Hx.
  - destruct (get_filp2_run s i fild p x Hp Hx Hlen) as (r & Hrun & Hr). apply (wp_ret_run _ _ _ _ _ _ Hrun). by exists r.
  - apply (wp_ret_run _ _ _ _ _ _ (get_filp2_bad s i fild p Hp Hx Hlen)). exists EBADF. split_and!; [done|by left|done].
Qed.
Lemma closed_other R i j k f : j <> k ->
  (aget (holders R) i ≫= fun h => aget (h_fds h) j) = Some (Some f) ->
  (aget (holders (closed i k R)) i ≫= fun h => aget (h_fds h) j) = Some (Some f).
Proof.
  intros Hne. destruct (aget (holders R) i) as [h|] eqn:Hh; [|done]. cbn. intros Hj.
  rewrite (closed_holder R i k i h Hh), decide_True by done. cbn. by rewrite aget_aupd_ne.
Qed.

(** What [dup] and [dup2] answer, and the references afterwards. *)
Definition dup_result s s' (i : Z) (p : fproc) (r : rc) : Prop :=
  let m := m_in s in
  let rfd := Z.ldiff (fd m) DUP_MASK in
  match aget (fp_filp p) rfd with
  | Some (Some f) =>
      if fd m =? rfd then
        (exists k, r = Rc k /\ free_fd p k /\ (forall j, 0 <= j < k -> ~ free_fd p j) /\ view s' = dup_slot i k f (view s)) \/
        (r = EMFILE /\ (forall j, 0 <= j -> ~ free_fd p j) /\ view s' = view s) \/
        (r = ENFILE /\ (forall f q, aget (filps s) f = Some q -> filp_count q <> 0) /\ view s' = view s)
      else if (fd2 m <? 0) || (OPEN_MAX <=? fd2 m) then r = EBADF /\ view s' = view s
      else r = Rc (fd2 m) /\
        view s' = (if rfd =? fd2 m then view s else dup_slot i (fd2 m) f (closed i (fd2 m) (view s)))
  | _ => (r = EBADF \/ r = EIO) /\ view s' = view s
  end.
Lemma wp_upd_filp_inv i f q (Q : unit -> state W -> Prop) E s :
  aget (filps s) i = Some q -> wp (upd_filp i f) Q E s -> Q tt (s <| filps := aupd i f (filps s) |>).
Proof. intros Hq. unfold upd_filp, filp_at, wp, mbind, M_bind, get, modify. by rewrite Hq. Qed.
(** What sharing open file [f] with descriptor [fd2] leaves. *)
Lemma dup_share_ok s i p f x :
  vfs_inv s -> serves s i p -> aget (fp_filp p) x = Some (Some f) -> aget (fp_filp p) (fd2 (m_in s)) = Some None ->
  wp (dup_share f) (fun r s' => r = Rc (fd2 (m_in s)) /\ vfs_inv s' /\ view s' = dup_slot i (fd2 (m_in s)) f (view s)) never s.
Proof.
  intros Hi Hsv Hx Hk. destruct (fd_filp _ _ _ _ _ Hi (sv_proc _ _ _ Hsv) Hx) as (q & Hq & Hqc).
  pose proof (add_fd_ok s i p (fd2 (m_in s)) f _ _ true Hi Hsv Hk (view_open _ _ _ Hq) Hqc) as Hw. cbv iota in Hw.
  apply wp_bind_inv, (wp_upd_filp_inv _ _ _ _ _ _ Hq), wp_bind_inv in Hw. pose proof (sv_fp _ _ _ Hsv) as Hcur.
  eapply wp_bind, wp_upd_filp; [done|]. apply wp_bind, wp_get, wp_bind.
  change (fp (s <| filps := _ |>)) with (fp s). rewrite Hcur. eapply wp_mono; [exact Hw| |done].
  intros [] s1 Hw1. apply wp_bind. eapply wp_mono; [exact Hw1| |done]. intros [] s2 [Hm Hc]. apply wp_ret. split; [done|].
  split; [by eapply vfs_inv_moved|apply Hm].
Qed.
Lemma dup_new_ok s i p f x :
  vfs_inv s -> serves s i p -> aget (fp_filp p) x = Some (Some f) ->
  wp ('(r, k, _) ← get_fd 0 0;
      (match k with Some k => modify (fun s => s <| m_in := m_in s <| m1_i2 := k |> |>) | None => mret tt end);;
      if negb (is_ok r) then mret r else dup_share f)
     (fun r s' => vfs_inv s' /\
       ((exists k, r = Rc k /\ free_fd p k /\ (forall j, 0 <= j < k -> ~ free_fd p j) /\ view s' = dup_slot i k f (view s)) \/
        (r = EMFILE /\ (forall j, 0 <= j -> ~ free_fd p j) /\ view s' = view s) \/
        (r = ENFILE /\ (forall f q, aget (filps s) f = Some q -> filp_count q <> 0) /\ view s' = view s))) never s.
Proof.
  intros Hi Hsv Hx. apply wp_bind. eapply wp_mono; [by eapply (get_fd_ok s i p 0 0)| |done]. intros [[r k] fpt] s2 (Hk2 & Hgot & Hps & Hm).
  assert (vfs_inv s2) as Hi2 by by eapply vfs_inv_kept. pose proof (serves_same _ _ _ _ Hsv (kp_fp _ _ Hk2) Hps) as Hsv2.
  pose proof (kp_view _ _ Hk2) as Hv2. destruct r; try (by destruct Hgot).
  - destruct k as [k|], fpt as [g|]; try done. destruct Hgot as (_ & Hk & Hlow & _). apply wp_bind, wp_modify.
    set (s3 := s2 <| m_in := m_in s2 <| m1_i2 := k |> |>). change (negb (is_ok OK)) with false. cbv iota.
    assert (vfs_inv s3) as Hi3 by by eapply (vfs_inv_same s2). pose proof (serves_same s2 s3 _ _ Hsv2 eq_refl eq_refl) as Hsv3.
    eapply wp_mono; [eapply (dup_share_ok s3 i p f x); [done|done|done|apply Hk]| |done]. intros r s4 (-> & Hi4 & Hv4). split; [done|].
    left. exists k. split_and!; [done|exact Hk|exact Hlow|]. rewrite Hv4. change (view s3) with (view s2). by rewrite Hv2.
  - destruct k; [done|]. destruct fpt; [done|]. apply wp_bind, wp_ret, wp_ret. split; [done|]. right. left. by split_and!.
  - destruct k; [|done]. destruct fpt; [done|]. destruct Hgot as [_ Hfull]. apply wp_bind, wp_modify, wp_ret.
    split; [by eapply (vfs_inv_same s2)|]. right. right. by split_and!.
Qed.
Lemma dup2_ok s i p f x :
  vfs_inv s -> serves s i p -> aget (fp_filp p) x = Some (Some f) -> x <> fd2 (m_in s) -> 0 <= fd2 (m_in s) < OPEN_MAX ->
  wp (modify (fun s => s <| m_in := m_in s <| m1_i1 := fd2 (m_in s) |> |>);; do_close;; dup_share f)
     (fun r s' => vfs_inv s' /\ r = Rc (fd2 (m_in s)) /\ view s' = dup_slot i (fd2 (m_in s)) f (closed i (fd2 (m_in s)) (view s))) never s.
Proof.
  intros Hi Hsv Hx Hne Hr. pose proof (view_holder _ _ _ (sv_proc _ _ _ Hsv)) as Hh. set (k := fd2 (m_in s)) in *.
  apply wp_bind, wp_modify. set (s2 := s <| m_in := _ |>). assert (vfs_inv s2) as Hi2 by by eapply (vfs_inv_same s).
  assert (serves s2 i p) as Hsv2 by by eapply serves_same. apply wp_bind. unfold do_close. apply wp_bind, wp_get. rewrite (sv_fp _ _ _ Hsv2).
  eapply wp_mono; [eapply close_fd_ok; [apply Hi2|apply Hi2|apply Hsv2|apply Hsv2]| |done].
  change (fd (m_in s2)) with k. intros r3 s3 [[Hv3 Hf3 Hok3 Hfree3 [Hin3 _]] _]. change (view s2) with (view s) in Hv3.
  assert (vfs_inv s3) as Hi3 by (split; [done|]; rewrite Hv3; apply counted_closed, Hi).
  assert (aget (holders (view s3)) i = Some (holder_of p <| h_fds := aupd k (fun _ => None) (fp_filp p) |>)) as Hh3.
  { by rewrite Hv3, (closed_holder _ _ _ _ _ Hh), decide_True by done. }
  destruct (serves_view s2 s3 i p _ Hsv2 Hf3 (Hfree3 _ (serves_unblocked _ _ _ Hsv2)) Hh3 eq_refl) as (p3 & Hsv3 & Hp3).
  assert (fp_filp p3 = aupd k (fun _ => None) (fp_filp p)) as Hfd3 by exact (f_equal h_fds Hp3).
  destruct (aget_is_Some (fp_filp p) k) as [y Hy]; [rewrite (vo_fds _ (vi_ok _ Hi) _ _ (sv_proc _ _ _ Hsv)); lia|].
  assert (fd2 (m_in s3) = k) as Hk3 by by rewrite Hin3.
  eapply wp_mono; [eapply (dup_share_ok s3 i p3 f x); [done|done|by rewrite Hfd3, aget_aupd_ne|by rewrite Hk3, Hfd3, aget_aupd_eq, Hy]| |done].
  intros r s4 (-> & Hi4 & Hv4). rewrite Hk3 in *. split_and!; [done|done|]. by rewrite Hv4, Hv3.
Qed.
(** [dup] gives the first free descriptor, and [dup2] the one that is asked for, which is
    closed first if it is open; it refers to the open file of the old one.  The number of
    uses of every open file and vnode stays the number of references to it.  A call that
    fails changes no references: the descriptor is not open, there is no free one, or
    the table of open files is full, although [dup] needs no slot of it. *)
Theorem do_dup_ok s i p :
  vfs_inv s -> serves s i p ->
  exists r s', do_dup s = Ret r s' /\ vfs_inv s' /\ dup_result s s' i p r.
Proof.
  intros Hi Hsv. apply wp_never_run. apply wp_bind, wp_get. unfold dup_result. cbv zeta.
  set (rfd := Z.ldiff (fd (m_in s)) DUP_MASK). apply wp_bind. eapply wp_mono; [by eapply get_filp_ok| |done].
  intros a s1 (r1 & -> & Hr1 & Ha). set (s1 := s <| err_code := r1 |>) in *.
  assert (serves s1 i p) as Hsv1 by (by eapply serves_same).
  assert (vfs_inv s1) as Hi1 by (eapply vfs_inv_kept; [exact Hi|by apply err_kept, Hi]).
  destruct (aget (fp_filp p) rfd) as [[f|]|] eqn:Hf; cbn in Ha; subst a.
  2,3: apply wp_bind, wp_get, wp_ret; split; [done|split; [done|done]].
  destruct (fd (m_in s) =? rfd); [exact (dup_new_ok s1 i p f rfd Hi1 Hsv1 Hf)|].
  destruct (_ || _) eqn:Hrange; [apply wp_ret; split; [done|by split]|].
  destruct (rfd =? fd2 (m_in s)) eqn:Heq; [apply wp_ret; split; [done|by split]|].
  eapply (dup2_ok s1 i p f rfd); try done; cbn; lia.
Qed.

(** C18: [close].  The descriptor is free afterwards, its open file is used once less, and the last
    use gives up the vnode; the counters are right.  The process holds no lock on the file
    any more, whatever other descriptors of the file it has, and all other locks stay.  A
    descriptor that is not open changes nothing. *)
Theorem do_close_ok s i p :
  vfs_inv s -> serves s i p ->
  exists r s', do_close s = Ret r s' /\ vfs_inv s' /\ closes s i (fd (m_in s)) s' /\
    match aget (fp_filp p) (fd (m_in s)) with
    | Some (Some f) => r = OK /\ closed_open s s' i (fd (m_in s)) p
    | _ => (r = EBADF \/ r = EIO) /\ s' = s <| err_code := r |>
    end.
Proof.
  intros [Hok Hc] [Hcur Hp Hl Hb]. apply wp_never_run, wp_bind, wp_get. rewrite Hcur.
  eapply wp_mono; [by eapply close_fd_ok| |done]. intros r s' [Hcl Hr]. split; [|by split].
  split; [apply Hcl|]. rewrite (cl_view _ _ _ _ Hcl). by apply counted_closed.
Qed.

(** ** [pm_fork] *)
(** The open files after every descriptor of [l] was counted once more. *)
Definition bumped (l : list (option Z)) (fl : list filp) : list filp :=
  fold_left (fun fl x => match x with Some f => aupd f (fun q => q <| filp_count := filp_count q + 1 |>) fl | None => fl end) l fl.
Lemma bumped_snoc l x fl : bumped (l ++ [x]) fl =
  match x with Some f => aupd f (fun q => q <| filp_count := filp_count q + 1 |>) (bumped l fl) | None => bumped l fl end.
Proof. unfold bumped. by rewrite fold_left_app. Qed.
Lemma bumped_view l fl R : opens R = open_at <$> fl -> opens (share l R) = open_at <$> bumped l fl.
Proof.
  revert fl R. induction l as [|[f|] l IH]; intros fl R Hf; [done| |by apply IH]. unfold share, bumped. cbn. apply IH. cbn. rewrite Hf.
  symmetry. by apply fmap_aupd.
Qed.
Lemma bumped_vno l fl : filp_vno <$> bumped l fl = filp_vno <$> fl.
Proof. revert fl. induction l as [|[f|] l IH]; intros fl; [done| |by apply IH]. unfold bumped. cbn. fold (bumped l). rewrite IH. by apply fmap_aupd_same. Qed.
Lemma bumped_length l fl : length (bumped l fl) = length fl.
Proof. by rewrite <-(length_fmap filp_vno), bumped_vno, length_fmap. Qed.
(** The process that [pm_fork] makes. *)
Definition child_of (p : fproc) (cproc cpid : Z) : fproc :=
  p <| fp_pid := cpid |> <| fp_endpoint := cproc |> <| fp_sesldr := 0 |> <| fp_execced := 0 |>.
(** What the process manager asks for: process [p] of slot [i] forks, and the child gets the free
    slot [c], endpoint [cproc] and number [cpid]. *)
Record forks s (pproc cproc cpid i c : Z) (p : fproc) : Prop := {
  fk_parent : aget (fprocs s) i = Some p;
  fk_live : fp_pid p <> PID_FREE;
  fk_endpoint : fp_endpoint p = pproc;
  fk_ready : fp_is_blocked p = false;
  fk_grant : GRANT_VALID (fp_grant p) = false;
  fk_slot : _ENDPOINT_P cproc = c /\ cproc <> NONE;
  fk_free : exists pc, aget (fprocs s) c = Some pc /\ fp_pid pc = PID_FREE;
  fk_pid : cpid <> PID_FREE;
}.
Lemma unblocked_pending p : fp_is_blocked p = false -> pending p = 0 /\ awaits p = false.
Proof.
  intros Hb. split; [|unfold awaits; by rewrite Hb, andb_false_r]. unfold fp_is_blocked in Hb. apply negb_false_iff, Z.eqb_eq in Hb.
  unfold pending. rewrite Hb. cbn. by rewrite andb_false_r.
Qed.
Lemma free_pending p : fp_pid p = PID_FREE -> pending p = 0.
Proof. intros Hf. unfold pending. by rewrite Hf. Qed.

(** The counters of the open files of the child. *)
Lemma fork_bump_ok s c x :
  vfs_inv s -> Z.of_nat (length (fp_filp x)) = OPEN_MAX -> (forall j f, aget (fp_filp x) j = Some (Some f) -> exists q, aget (filps s) f = Some q) ->
  (exists pc, aget (fprocs s) c = Some pc) ->
  forall {A} (k : M (state W) A) Q,
  wp k Q never (s <| fprocs := aupd c (fun _ => x) (fprocs s) |> <| fp := fp s |> <| filps := bumped (fp_filp x) (filps s) |>) ->
  forall n, n = fp s ->
  wp (foreach (seqZ 0 OPEN_MAX) (fun i =>
        p ← fproc_at c;
        y ← fd_slot p i;
        match y with
        | Some f => upd_filp f (fun q => q <| filp_count := filp_count q + 1 |>)
        | None => mret tt
        end);; k) Q never (s <| fprocs := aupd c (fun _ => x) (fprocs s) |> <| fp := n |>).
Proof.
  intros Hi Hlen Hfd [pc Hpc] A k Q HQ n ->. set (s1 := s <| fprocs := _ |> <| fp := _ |>). apply wp_bind.
  apply (wp_foreach _ _ (fun pre s' => s' = s1 <| filps := bumped (take (length pre) (fp_filp x)) (filps s) |>)).
  - by rewrite take_0.
  - intros pre i post s' Hs ->. apply seqZ_visit in Hs as [-> Hlt]. set (m := length pre) in *.
    assert (length (pre ++ [Z.of_nat m]) = S m) as -> by (rewrite length_app; cbn; lia).
    assert (exists y, fp_filp x !! m = Some y) as [y Hy] by (apply lookup_lt_is_Some; lia).
    rewrite (take_S_r _ _ _ Hy), bumped_snoc. eapply wp_bind, wp_fproc_at; [cbn; by rewrite aget_aupd_eq, Hpc|].
    eapply wp_bind, wp_fd_slot; [by rewrite aget_nat|]. destruct y as [f|]; [|by apply wp_ret].
    destruct (Hfd (Z.of_nat m) f) as [q Hq]; [by rewrite aget_nat|].
    destruct (aget_is_Some (bumped (take m (fp_filp x)) (filps s)) f) as [q' Hq'].
    { rewrite bumped_length. by eapply aget_range. }
    by eapply wp_upd_filp.
  - intros s' ->. rewrite length_seqZ, take_ge by lia. exact HQ.
Qed.

Lemma view_count_inv s v k : aget (counts (view s)) v = Some k -> exists x, aget (vnodes s) v = Some x /\ v_ref_count x = k.
Proof. cbn. rewrite aget_fmap. destruct (aget (vnodes s) v) as [x|]; [|done]. intros Hk. exists x. split; [done|]. exact (f_equal (default k) Hk). Qed.
Lemma dup_dir_ok s v k : vfs_ok s -> aget (counts (view s)) v = Some k -> 1 <= k ->
  wp (dup_vnode v) (fun _ s' => moved s (use_vnode v 1 (view s)) s' /\ fprocs s' = fprocs s) never s.
Proof.
  intros Hok Hk H1'. destruct (view_count_inv _ _ _ Hk) as (x & Hx & <-). apply wp_conj; [eapply dup_vnode_ok; try done; eapply (vo_fs _ Hok); [done|lia]|].
  eapply wp_bind, wp_ASSERTVP; [done..|]. by eapply wp_upd_vnode.
Qed.
Lemma dup_opt_ok s o :
  vfs_ok s -> (forall v, o = Some v -> exists k, aget (counts (view s)) v = Some k /\ 1 <= k) ->
  wp (match o with Some v => dup_vnode v | None => mret tt end)
    (fun _ s' => moved s (match o with Some v => use_vnode v 1 (view s) | None => view s end) s' /\ fprocs s' = fprocs s) never s.
Proof.
  intros Hok Ho. destruct o as [v|]; [|apply wp_ret; split; [by apply kept_moved, kept_refl|done]].
  destruct (Ho v eq_refl) as (k & Hk & H1'). by eapply dup_dir_ok.
Qed.
Lemma forks_ne s pproc cproc cpid i c p : forks s pproc cproc cpid i c p -> i <> c.
Proof. intros [Hp Hl _ _ _ _ (pc & Hpc & Hf) _] ->. congruence. Qed.
(** The child in its slot, before its directories are counted. *)
Lemma fork_slot s pproc cproc cpid i c p s' :
  vfs_inv s -> forks s pproc cproc cpid i c p ->
  fprocs s' = aupd c (fun _ => child_of p cproc cpid) (fprocs s) -> filps s' = bumped (fp_filp p) (filps s) ->
  vnodes s' = vnodes s -> susp_count s' = susp_count s -> file_locks s' = file_locks s -> nr_locks s' = nr_locks s ->
  vfs_ok s' /\ view s' = share (fp_filp p) (set_holder c (fun _ => holder_of p <| h_pid := cpid |>) (view s)).
Proof.
  intros [Hok Hc] Hf Hps Hfs Hv Hs Hl Hn. destruct Hf as [Hp Hlive He Hb Hg [Hslot Hnone] (pc & Hpc & Hfree) Hpid].
  assert (fp_is_blocked (child_of p cproc cpid) = false) as Hcb by done. destruct (unblocked_pending _ Hcb) as [Hcp Hca]. split.
  - set (s1 := s <| filps := bumped (fp_filp p) (filps s) |>). assert (vfs_ok s1) as Hok1 by (apply (vfs_ok_filps s s1 Hok); [apply bumped_vno|done..]).
    apply (vfs_ok_slot s1 s' c pc (fun _ => child_of p cproc cpid) Hok1 Hpc); try done.
    + rewrite Hs, (free_pending _ Hfree), Hcp. cbn. lia.
    + pose proof (vo_fds _ Hok _ _ Hp). pose proof (vo_fds _ Hok _ _ Hpc). cbn. lia.
    + by rewrite Hca.
  - apply refs_ext.
    + destruct (share_holders (fp_filp p) (set_holder c (fun _ => holder_of p <| h_pid := cpid |>) (view s))) as [-> _]. cbn.
      rewrite Hps. by apply fmap_aupd.
    + rewrite (bumped_view _ (filps s)) by done. cbn. by rewrite Hfs.
    + destruct (share_holders (fp_filp p) (set_holder c (fun _ => holder_of p <| h_pid := cpid |>) (view s))) as [_ ->]. cbn. by rewrite Hv.
Qed.

(** What the fork of process [p] into slot [c] leaves: the child gets its parent's descriptors and
    directories, its own number and endpoint; no other process changes. *)
Record fork_done s (cproc cpid i c : Z) (p : fproc) s' : Prop := {
  fd_inv : vfs_inv s';
  fd_view : view s' = forked (holder_of p) c cpid (view s);
  fd_child : aget (fprocs s') c = Some (child_of p cproc cpid);
  fd_others j : j <> c -> aget (fprocs s') j = aget (fprocs s) j;
  fd_fp : fp s' = i;
  fd_in : m_in s' = m_in s /\ call_nr s' = call_nr s;
}.
Lemma pm_fork_wp s pproc cproc cpid i c p :
  vfs_inv s -> forks s pproc cproc cpid i c p -> wp (pm_fork pproc cproc cpid) (fun _ s' => fork_done s cproc cpid i c p s') never s.
Proof.
  intros Hi Hf. pose proof (forks_ne _ _ _ _ _ _ _ Hf) as Hne. pose proof Hf as [Hp Hlive He Hb Hg [Hslot Hnone] (pc & Hpc & Hfree) Hpid].
  pose proof (vi_ok _ Hi) as Hok. pose proof (aget_range _ _ _ Hpc) as Hrange. rewrite (po_length _ (vo_procs _ Hok)) in Hrange.
  unfold pm_fork. apply wp_bind. unfold okendpt. apply wp_bind. rewrite <-He. apply (wp_ret_run _ _ _ _ _ _ (isokendpt_own _ _ _ (vo_procs _ Hok) Hp Hlive)).
  change (negb (is_ok OK)) with false. cbv iota. apply wp_ret. cbv zeta. rewrite Hslot.
  replace ((c <? 0) || (NR_PROCS <=? c)) with false by lia. eapply wp_bind, wp_fproc_at; [done|].
  replace (negb (fp_pid pc =? PID_FREE)) with false by (rewrite Hfree; by rewrite Z.eqb_refl).
  eapply wp_bind, wp_fproc_at; [done|]. eapply wp_bind, wp_set_fproc; [done|]. apply wp_bind, wp_modify.
  pose proof (fork_bump_ok (s <| fp := i |>) c p) as Hbump. eapply Hbump; [by eapply vfs_inv_same|by eapply vo_fds| |by exists pc| |done].
  { intros j f Hj. destruct (fd_filp _ _ _ _ _ Hi Hp Hj) as (q & Hq & _). by exists q. }
  set (s1 := _ <| filps := bumped _ _ |>). eapply (wp_bind (set_fproc _ _)), wp_set_fproc; [cbn; by rewrite aget_aupd_eq, Hpc|].
  apply wp_bind, wp_get. eapply wp_bind, wp_fproc_at; [cbn; rewrite !aget_aupd_ne by congruence; exact Hp|]. rewrite Hg.
  eapply wp_bind, wp_fproc_at; [cbn; by rewrite !aget_aupd_eq, Hpc|]. replace (GRANT_VALID _) with false by (by rewrite <-Hg).
  eapply wp_bind, wp_set_fproc; [cbn; by rewrite !aget_aupd_eq, Hpc|].
  match goal with |- wp _ _ _ ?x => set (s2 := x) end.
  assert (fprocs s2 = aupd c (fun _ => child_of p cproc cpid) (fprocs s)) as Hps2.
  { cbn. rewrite !aupd_aupd. by apply aupd_ext. }
  destruct (fork_slot s pproc cproc cpid i c p s2 Hi Hf Hps2) as [Hok2 Hv2]; [done..|].
  assert (aget (fprocs s2) c = Some (child_of p cproc cpid)) as Hc2 by by rewrite Hps2, aget_aupd_eq, Hpc.
  assert (forall v, fp_rd p = Some v \/ fp_wd p = Some v -> exists k, aget (counts (view s2)) v = Some k /\ 1 <= k) as Hdir.
  { intros v Hv. destruct (counted_dir _ _ _ _ _ _ (vi_counted _ Hi) (view_holder _ _ _ Hp) Hv) as (k & Hk & H1').
    exists k. split; [exact Hk|done]. }
  eapply wp_bind, wp_fproc_at; [exact Hc2|]. apply wp_bind. eapply wp_mono; [by apply (dup_opt_ok s2); [|intros v Hv; apply Hdir; left]| |done].
  intros [] s3 [Hm3 Hps3]. eapply wp_mono; [apply (dup_opt_ok s3); [apply Hm3|]| |done].
  { intros v Hv. rewrite (mv_view _ _ _ Hm3). destruct (Hdir v) as (k & Hk & H1'); [by right|].
    destruct (fp_rd (child_of p cproc cpid)) as [w|]; [|by exists k]. cbn. rewrite aget_aupd. cbn in Hk. rewrite Hk.
    case_decide; cbn; [exists (k + 1); split; [done|lia]|by exists k]. }
  intros [] s4 [Hm4 Hps4].
  assert (view s4 = forked (holder_of p) c cpid (view s)) as Hv4.
  { rewrite (mv_view _ _ _ Hm4), (mv_view _ _ _ Hm3), Hv2. unfold forked, use_dirs. cbn. by destruct (fp_rd p), (fp_wd p). }
  split; [split; [apply Hm4|]|done|congruence| | |].
  - rewrite Hv4. eapply counted_forked; [apply Hi|by apply view_holder|exact (view_holder _ _ _ Hpc)|done|done].
  - intros j Hj. by rewrite Hps4, Hps3, Hps2, aget_aupd_ne.
  - by rewrite (mv_fp _ _ _ Hm4), (mv_fp _ _ _ Hm3).
  - destruct (mv_in _ _ _ Hm4) as [-> ->], (mv_in _ _ _ Hm3) as [-> ->]. done.
Qed.

(** C21: [fork], on the side of VFS.  The child gets its parent's descriptors and directories, its
    own number and endpoint, and is neither a session leader nor has executed a program; each
    open file and each vnode is counted once more for every reference of the child.  No other
    process changes, and every counter is again the number of references. *)
Theorem pm_fork_ok s pproc cproc cpid i c p :
  vfs_inv s -> forks s pproc cproc cpid i c p -> exists s', pm_fork pproc cproc cpid s = Ret tt s' /\ fork_done s cproc cpid i c p s'.
Proof.
  intros Hi Hf. destruct (wp_never_run _ _ _ (pm_fork_wp _ _ _ _ _ _ _ Hi Hf)) as ([] & s' & Hrun & Hd). by exists s'.
Qed.

(** ** Interrupting a process *)
Context `{!VfsEnvLaws (W := W)}.
Lemma outer_proc s s' i p u :
  aget (fprocs s) i = Some p -> quiet p (u p) ->
  s' = s <| fprocs := aupd i u (fprocs s) |> <| m_out := m_out s' |> <| world := world s' |> -> outer s s'.
Proof.
  intros Hp Hq Hs. split; [rewrite Hs; by destruct s|]. rewrite Hs. cbn. apply Forall2_lookup. intros k.
  destruct (fprocs s !! k) as [x|] eqn:Hx.
  - assert (aupd i u (fprocs s) !! k = Some (if decide (i = Z.of_nat k) then u x else x)) as ->.
    { rewrite <-aget_nat, aget_aupd, aget_nat, Hx. by case_decide. }
    constructor. case_decide as Hk; [|apply quiet_refl]. subst i. rewrite aget_nat in Hp. by assert (x = p) as -> by congruence.
  - assert (aupd i u (fprocs s) !! k = None) as ->; [|constructor]. apply lookup_ge_None. rewrite length_aupd. by apply lookup_ge_None.
Qed.
(** A process whose call to a device ends is answered. *)
Lemma revive_other_ok s i p r :
  vfs_ok s -> aget (fprocs s) i = Some p -> fp_pid p <> PID_FREE -> fp_blocked_on p = FP_BLOCKED_ON_OTHER ->
  wp (revive (fp_endpoint p) r) (fun _ s' => outer s s') never s.
Proof.
  intros Hok Hp Hf Hb. apply wp_bind. apply (wp_ret_run _ _ _ _ _ _ (isokendpt_own _ _ _ (vo_procs _ Hok) Hp Hf)).
  change (negb (is_ok OK)) with false. cbv iota. eapply wp_bind, wp_fproc_at; [done|]. unfold fp_is_blocked. rewrite Hb. cbn.
  destruct (fp_revived p) eqn:Hr; [apply wp_ret; eapply (outer_proc _ _ i p id); [done|apply quiet_refl|rewrite aupd_id by done; by destruct s]|].
  eapply wp_bind, wp_set_fproc; [done|]. eapply wp_bind, wp_set_fproc; [cbn; by rewrite aget_aupd_eq, Hp|]. cbn. rewrite aupd_aupd.
  set (u1 := compose _ _). apply wp_bind.
  assert (forall u, (forall x, u x = u1 x \/ u x = u1 x <| fp_grant := GRANT_INVALID |>) -> quiet p (u p)) as Hquiet.
  { intros u Hu. destruct (Hu p) as [-> | ->]; split; try done; try (by left); right; rewrite Hb; done. }
  destruct (GRANT_VALID (fp_grant p)).
  - apply wp_bind, wp_vfs_env. rewrite cpf_revoke_ok. eapply wp_set_fproc; [cbn; by rewrite aget_aupd_eq, Hp|]. cbn. rewrite aupd_aupd.
    apply wp_reply. intros o w. eapply (outer_proc _ _ i p); [done|by apply Hquiet; right|done].
  - apply wp_ret, wp_reply. intros o w. eapply (outer_proc _ _ i p); [done|by apply Hquiet; left|done].
Qed.
Lemma unsuspend_ok s e : vfs_ok s -> wp (unsuspend_by_endpt e) (fun _ s' => kept s s') never s.
Proof.
  intros Hok. apply wp_bind. eapply (wp_mono _ (fun _ s1 => kept s s1) _ never); [| |done].
  - apply (wp_foreach _ _ (fun _ s1 => kept s s1)); [by apply kept_refl| |done].
    intros pre i post s1 Hi%seqZ_in Hk. pose proof (kp_ok _ _ Hk) as Hok1. destruct (proc_at s1 i Hok1 Hi) as [p Hp].
    eapply wp_bind, wp_fproc_at; [done|]. destruct (_ && _) eqn:E; [|by apply wp_ret].
    apply andb_true_iff in E as [E _]. apply andb_true_iff in E as [E1 E2].
    eapply wp_mono; [eapply (revive_other_ok s1 i p); [done|done|lia|lia]| |done]. intros [] s2 Ho. eapply kept_trans; [exact Hk|by apply outer_kept].
  - intros [] s1 Hk. eapply wp_mono; [apply select_unsuspend_ok| |done]. intros [] s2 Ho. eapply kept_trans; [exact Hk|]. apply outer_kept; [apply Hk|done].
Qed.
(** The calls that [unpause] ends at once: on pipes, on locks, and [select]. *)
Definition interruptible (p : fproc) : Prop :=
  fp_blocked_on p = FP_BLOCKED_ON_PIPE \/ fp_blocked_on p = FP_BLOCKED_ON_LOCK \/ fp_blocked_on p = FP_BLOCKED_ON_POPEN \/
  (fp_blocked_on p = FP_BLOCKED_ON_SELECT /\ fp_revived p = false).
Lemma proc_kept s s' i p u :
  vfs_ok s -> aget (fprocs s) i = Some p -> holder_of (u p) = holder_of p -> fp_endpoint (u p) = fp_endpoint p -> fp_is_blocked (u p) = false ->
  susp_count s' = susp_count s - pending p -> fprocs s' = aupd i u (fprocs s) -> filps s' = filps s -> vnodes s' = vnodes s ->
  file_locks s' = file_locks s -> nr_locks s' = nr_locks s -> fp s' = fp s -> m_in s' = m_in s /\ call_nr s' = call_nr s -> kept s s'.
Proof.
  intros Hok Hp Hh He Hub Hs Hps Hf Hv Hl Hn Hcur Hin. destruct (unblocked_pending _ Hub) as [Hpd Ha]. split; try done.
  - apply refs_ext; cbn; [|by rewrite Hf|by rewrite Hv]. rewrite Hps. apply fmap_aupd_same. intros y Hy. by assert (y = p) as -> by congruence.
  - by rewrite Hv.
  - apply (vfs_ok_proc s s' i p u Hok Hp); try done; [lia|by rewrite (f_equal h_fds Hh : fp_filp (u p) = fp_filp p)| |congruence].
    by rewrite (f_equal h_pid Hh : fp_pid (u p) = fp_pid p).
  - intros j (y & Hy & Hyb). exists (if decide (i = j) then u y else y). rewrite Hps, aget_aupd. case_decide; [|done].
    subst j. rewrite Hy. split; [done|]. by assert (y = p) as -> by congruence.
Qed.
(** The process is no longer revived. *)
Definition interrupted s (i : Z) (p : fproc) : state W :=
  if fp_revived p then s <| fprocs := aupd i (fun p => p <| fp_revived := false |>) (fprocs s) |> <| reviving := reviving s - 1 |> else s.
Lemma interrupted_run s i p : aget (fprocs s) i = Some p ->
  wp (if fp_revived p then
        set_fproc i (fun p => p <| fp_revived := false |>);; modify (fun s => s <| reviving := reviving s - 1 |>)
      else mret tt) (fun _ s1 => s1 = interrupted s i p) never s.
Proof.
  intros Hp. unfold interrupted. destruct (fp_revived p); [|by apply wp_ret].
  eapply wp_bind, wp_set_fproc; [done|]. by apply wp_modify.
Qed.
Lemma interrupted_end s i p (b : bool) :
  vfs_ok s -> aget (fprocs s) i = Some p -> pending p = (if b then 1 else 0) ->
  wp (set_fproc i (fun p => p <| fp_blocked_on := FP_BLOCKED_ON_NONE |>);;
      (if b then modify (fun s => s <| susp_count := susp_count s - 1 |>) else mret tt);;
      reply (fp_endpoint p) EINTR) (fun _ s' => kept s s' /\ unblocked s' i) never (interrupted s i p).
Proof.
  intros Hok Hp Hpend.
  set (u := fun x => (if fp_revived p then x <| fp_revived := false |> else x) <| fp_blocked_on := FP_BLOCKED_ON_NONE |>).
  assert (exists x, aget (fprocs (interrupted s i p)) i = Some x) as [x Hx].
  { unfold interrupted. destruct (fp_revived p); [cbn; rewrite aget_aupd_eq, Hp|]; eauto. }
  eapply wp_bind, wp_set_fproc; [done|]. apply wp_bind.
  assert (forall s', susp_count s' = susp_count s - pending p -> fprocs s' = aupd i u (fprocs s) -> filps s' = filps s -> vnodes s' = vnodes s ->
    file_locks s' = file_locks s -> nr_locks s' = nr_locks s -> fp s' = fp s -> m_in s' = m_in s /\ call_nr s' = call_nr s -> kept s s' /\ unblocked s' i) as Hend.
  { intros s' E1 E2 E3 E4 E5 E6 E7 E8. split; [|exists (u p); split; [by rewrite E2, aget_aupd_eq, Hp|done]].
    apply (proc_kept s s' i p u); try done; unfold u; by destruct (fp_revived p). }
  assert (aupd i (fun p => p <| fp_blocked_on := FP_BLOCKED_ON_NONE |>) (fprocs (interrupted s i p)) = aupd i u (fprocs s)) as Hfin.
  { unfold interrupted, u. destruct (fp_revived p); [|done]. cbn. by apply aupd_compose. }
  destruct b; [apply wp_modify|apply wp_ret]; apply wp_reply; intros o w; apply Hend; try done; unfold interrupted; cbn -[pending]; rewrite ?Hpend; destruct (fp_revived p); cbn -[pending]; first [done|lia].
Qed.
Lemma unpause_wp s i p :
  vfs_ok s -> aget (fprocs s) i = Some p -> fp_pid p <> PID_FREE -> interruptible p ->
  wp (unpause (fp_endpoint p)) (fun _ s' => kept s s' /\ unblocked s' i) never s.
Proof.
  intros Hok Hp Hf Hi. apply wp_bind. apply (wp_ret_run _ _ _ _ _ _ (isokendpt_own _ _ _ (vo_procs _ Hok) Hp Hf)).
  change (negb (is_ok OK)) with false. cbv iota. eapply wp_bind, wp_fproc_at; [done|].
  replace (fp_is_blocked p) with true by (unfold fp_is_blocked; destruct Hi as [-> | [-> | [-> | [-> _]]]]; done). cbv zeta. change (negb true) with false. cbv iota.
  destruct Hi as [Hb|[Hb|[Hb|[Hb Hr]]]]; rewrite Hb; cbn -[set_fproc env reply modify select_forget].
  1-3: apply wp_bind; eapply (wp_mono _ (fun _ s1 => s1 = interrupted s i p) _ never); [by apply interrupted_run| |done];
    intros [] s1 ->; apply wp_bind, wp_ret;
    first [apply (interrupted_end s i p (negb (fp_revived p)) Hok Hp)|apply (interrupted_end s i p false Hok Hp)];
    unfold pending; rewrite Hb; replace (fp_pid p =? PID_FREE) with false by lia; by destruct (fp_revived p).
  rewrite Hr. apply wp_bind, wp_ret. apply wp_bind, wp_bind. eapply wp_mono; [apply select_forget_ok| |done].
  intros [] s2 Ho. pose proof (outer_kept _ _ Hok Ho) as Hk2. destruct Ho as [_ HF]. destruct (Forall2_aget_l _ _ _ _ _ HF Hp) as (p2 & Hp2 & Hq).
  apply wp_ret. eapply wp_bind, wp_set_fproc; [done|]. apply wp_bind, wp_ret, wp_reply. intros o w.
  set (u := fun p => p <| fp_blocked_on := FP_BLOCKED_ON_NONE |>). split; [|exists (u p2); split; [cbn; by rewrite aget_aupd_eq, Hp2|done]].
  eapply kept_trans; [exact Hk2|]. apply outer_kept; [apply Hk2|]. eapply (outer_proc _ _ i p2 u); [done| |done].
  split; try done; [by left|]. right. destruct (qt_blocked _ _ Hq) as [-> | (_ & _ & ->)]; rewrite ?Hb; done.
Qed.

(** ** The end of a process *)
(** Process [i] gives its references up, step by step. *)
Record leaving s (i : Z) (R : refs) s' : Prop := {
  lv_view : view s' = R;
  lv_ok : vfs_ok s';
  lv_fp : fp s' = i;
  lv_free : unblocked s' i;
  lv_in : m_in s' = m_in s /\ call_nr s' = call_nr s;
}.
Lemma leaving_moved s i R s1 R' s' : leaving s i R s1 -> moved s1 R' s' -> leaving s i R' s'.
Proof. intros [Hv Hok Hf Hu [? ?]] [? ? _ ? Hfree [? ?]]. split; [done|done|congruence|auto|split; congruence]. Qed.
Lemma leaving_kept s i R s1 s' : leaving s i R s1 -> kept s1 s' -> leaving s i R s'.
Proof. intros Hl Hk. eapply leaving_moved; [exact Hl|]. rewrite <-(lv_view _ _ _ _ Hl). by apply kept_moved. Qed.
Lemma leaving_proc s i R s' : leaving s i R s' -> exists p, aget (fprocs s') i = Some p /\ fp_is_blocked p = false /\ aget (holders R) i = Some (holder_of p).
Proof. intros [Hv _ _ (p & Hp & Hb) _]. exists p. split_and!; [done|done|]. rewrite <-Hv. by apply view_holder. Qed.

Lemma close_all_ok s i R s0 :
  leaving s i R s0 -> counted flights mounts R ->
  wp (foreach (seqZ 0 OPEN_MAX) (fun j => s ← get; close_fd (fp s) j;; mret tt)) (fun _ s' => leaving s i (closed_all i OPEN_MAX R) s') never s0.
Proof.
  intros Hl0 Hc. apply (wp_foreach _ _ (fun pre s' => leaving s i (fold_left (fun R j => closed i j R) pre R) s')); [done| |done].
  intros pre j post s1 _ Hl. pose proof Hl as [Hv Hok Hf (p & Hp & Hb) [Hin Hcall]]. apply wp_bind, wp_get, wp_bind. rewrite Hf.
  eapply wp_mono; [eapply (close_fd_ok s1 i j p); [done|rewrite Hv; by apply counted_closes|done|done]| |done].
  intros r s2 [[Hv2 Hf2 Hok2 Hfree2 [Hi2 Hc2]] _]. apply wp_ret. rewrite fold_left_app. cbn.
  split; [by rewrite Hv2, Hv|done|congruence|by apply Hfree2; exists p|split; congruence].
Qed.
Lemma put_dir_ok s i v (u : fproc -> fproc) (u' : holder -> holder) p :
  vfs_ok s -> counted flights mounts (view s) -> aget (fprocs s) i = Some p -> fp_is_blocked p = false -> fp_rd p = Some v \/ fp_wd p = Some v ->
  (forall x, holder_of (u x) = u' (holder_of x) /\ fp_blocked_on (u x) = fp_blocked_on x /\ fp_filp (u x) = fp_filp x /\ fp_pid (u x) = fp_pid x /\ fp_endpoint (u x) = fp_endpoint x) ->
  wp (put_vnode v;; set_fproc i u) (fun _ s' => moved s (set_holder i u' (use_vnode v (-1) (view s))) s') never s.
Proof.
  intros Hok Hc Hp Hb Hv Hu. destruct (counted_dir _ _ _ _ _ _ Hc (view_holder _ _ _ Hp) Hv) as (k & Hk & H1').
  destruct (view_count_inv _ _ _ Hk) as (x & Hx & Hxk). apply wp_bind. eapply wp_mono; [eapply (put_vnode_ok s v x); [done|done|lia]| |done].
  intros [] s1 Hm. destruct (mv_free _ _ _ Hm i) as (p1 & Hp1 & Hb1); [by exists p|]. eapply wp_set_fproc; [done|].
  eapply moved_trans; [exact Hm|]. rewrite <-(mv_view _ _ _ Hm). destruct (Hu p1) as (E1 & E2 & E3 & E4 & E5).
  eapply (proc_moved s1 _ i p1 u u' (mv_ok _ _ _ Hm) Hp1 Hb1); try done; [by rewrite E3|by rewrite E4, E5].
Qed.
Lemma put_rd_ok s i R s0 : leaving s i R s0 -> counted flights mounts R -> wp (put_rd i) (fun _ s' => leaving s i (put_rd_of i R) s') never s0.
Proof.
  intros Hl Hc. destruct (leaving_proc _ _ _ _ Hl) as (p & Hp & Hb & Hh). eapply wp_bind, wp_fproc_at; [done|]. unfold put_rd_of. rewrite Hh. cbn.
  destruct (fp_rd p) as [v|] eqn:Hv; [|by apply wp_ret]. pose proof (lv_view _ _ _ _ Hl) as Hview.
  eapply wp_mono; [eapply (put_dir_ok s0 i v _ (fun h => h <| h_rd := None |>) p); [apply Hl|by rewrite Hview|done|done|by left|done]| |done].
  intros [] s1 Hm. rewrite Hview in Hm. by eapply leaving_moved.
Qed.
Lemma put_wd_ok s i R s0 : leaving s i R s0 -> counted flights mounts R -> wp (put_wd i) (fun _ s' => leaving s i (put_wd_of i R) s') never s0.
Proof.
  intros Hl Hc. destruct (leaving_proc _ _ _ _ Hl) as (p & Hp & Hb & Hh). eapply wp_bind, wp_fproc_at; [done|]. unfold put_wd_of. rewrite Hh. cbn.
  destruct (fp_wd p) as [v|] eqn:Hv; [|by apply wp_ret]. pose proof (lv_view _ _ _ _ Hl) as Hview.
  eapply wp_mono; [eapply (put_dir_ok s0 i v _ (fun h => h <| h_wd := None |>) p); [apply Hl|by rewrite Hview|done|done|by right|done]| |done].
  intros [] s1 Hm. rewrite Hview in Hm. by eapply leaving_moved.
Qed.

(** The slot of process [i] made free. *)
Definition free_slot_of (p : fproc) : fproc := p <| fp_endpoint := NONE |> <| fp_pid := PID_FREE |>.
Definition freed (i : Z) s : state W := s <| fprocs := aupd i free_slot_of (fprocs s) |>.
Lemma quiet_freed p p' : quiet p p' -> quiet (free_slot_of p) (free_slot_of p').
Proof.
  intros [Hh He Hr Hf Hc Hb]. split; try done. unfold holder_of. cbn.
  by rewrite (f_equal h_fds Hh : fp_filp p' = fp_filp p), (f_equal h_rd Hh : fp_rd p' = fp_rd p), (f_equal h_wd Hh : fp_wd p' = fp_wd p).
Qed.
Lemma freed_outer i s s' : outer s s' -> outer (freed i s) (freed i s').
Proof.
  intros [Hs HF]. split; [rewrite Hs; by destruct s|]. unfold freed. cbn. unfold aupd. case_bool_decide; [|done]. apply Forall2_alter; auto using quiet_freed.
Qed.
Lemma freed_ok s i R s1 h :
  leaving s i R s1 -> aget (holders R) i = Some h -> vfs_ok (freed i s1) /\ view (freed i s1) = set_holder i (fun h => h <| h_pid := PID_FREE |>) R.
Proof.
  intros Hl _. destruct (leaving_proc _ _ _ _ Hl) as (p & Hp & Hb & _). split.
  - destruct (unblocked_pending p Hb) as [Hpd _]. destruct (unblocked_pending (free_slot_of p) Hb) as [Hpd' Ha].
    apply (vfs_ok_proc s1 _ i p free_slot_of (lv_ok _ _ _ _ Hl) Hp); try done; cbn -[pending]; lia.
  - rewrite <-(lv_view _ _ _ _ Hl). apply refs_ext; [|done|done]. cbn. by apply fmap_aupd.
Qed.

(** Taking the terminal away changes no references, whether or not the slot is free. *)
Record revoking s (i : Z) s' : Prop := {
  rv_kept : kept (freed i s) (freed i s');
  rv_gone : exists p, aget (fprocs s') i = Some p /\ fp_endpoint p = NONE;
}.
Lemma revoking_outer s i s1 s' : revoking s i s1 -> outer s1 s' -> revoking s i s'.
Proof.
  intros [Hk (p & Hp & He)] Ho. split.
  - eapply kept_trans; [exact Hk|]. apply outer_kept; [apply Hk|by apply freed_outer].
  - destruct (Forall2_aget_l _ _ _ _ _ (ou_procs _ _ Ho) Hp) as (p' & Hp' & Hq). exists p'. split; [done|]. by rewrite (qt_endpoint _ _ Hq).
Qed.
Lemma revoking_proc s i s' k : revoking s i s' -> 0 <= k < NR_PROCS -> exists p, aget (fprocs s') k = Some p /\ Z.of_nat (length (fp_filp p)) = OPEN_MAX /\
  exists p', aget (fprocs (freed i s')) k = Some p' /\ fp_filp p' = fp_filp p.
Proof.
  intros [Hk _] Hr. destruct (proc_at (freed i s') k (kp_ok _ _ Hk) Hr) as [p' Hp']. pose proof (vo_fds _ (kp_ok _ _ Hk) _ _ Hp') as Hlen.
  cbn in Hp'. rewrite aget_aupd in Hp'. destruct (aget (fprocs s') k) as [p|] eqn:Hp; [|by case_decide].
  assert (fp_filp p' = fp_filp p) as He by (case_decide; [by injection Hp' as <-|congruence]). exists p. split_and!; [done|by rewrite <-He|].
  exists p'. split; [|done]. cbn. by rewrite aget_aupd, Hp.
Qed.
Lemma revoke_tty_ok s i dev k s1 :
  revoking s i s1 -> counted flights mounts (view (freed i s)) -> 0 <= k < NR_PROCS ->
  wp (revoke_tty dev k) (fun _ s' => revoking s i s') never s1.
Proof.
  intros Hr Hc Hk. destruct (revoking_proc _ _ _ _ Hr Hk) as (p & Hp & _). eapply wp_bind, wp_fproc_at; [done|].
  destruct (fp_pid p =? PID_FREE); [by apply wp_ret|]. apply wp_bind. eapply (wp_mono _ (fun _ s2 => revoking s i s2) _ never); [| |done].
  { destruct (fp_tty p =? dev); [|by apply wp_ret]. eapply wp_set_fproc; [done|]. eapply revoking_outer; [exact Hr|].
    eapply (outer_proc _ _ k p (fun p => p <| fp_tty := 0 |>)); [done|split; try done; by left|by destruct s1]. }
  intros [] s2 Hr2. apply (wp_foreach _ _ (fun _ s' => revoking s i s')); [done| |done].
  clear p Hp s2 Hr2 s1 Hr. intros pre j post s1 Hj%seqZ_in Hr. destruct (revoking_proc _ _ _ _ Hr Hk) as (p & Hp & Hlen & p' & Hp' & Hfd).
  eapply wp_bind, wp_fproc_at; [done|]. destruct (aget_is_Some (fp_filp p) j) as [x Hx]; [lia|]. eapply wp_bind, wp_fd_slot; [done|].
  destruct x as [f|]; [|by apply wp_ret]. pose proof Hr as [Hkept _]. rewrite <-(kp_view _ _ Hkept) in Hc.
  destruct (counted_fd _ _ _ _ _ _ _ Hc (view_holder _ _ _ Hp') ltac:(cbn; rewrite Hfd; exact Hx)) as (n & o & Ho & Hn).
  destruct (ct_vno _ _ _ Hc _ _ _ Ho ltac:(lia)) as (v & m & -> & Hm).
  destruct (view_open_inv _ _ _ _ Ho) as (q & Hq & _ & Hqv). destruct (view_count_inv _ _ _ Hm) as (y & Hy & _).
  change (filps (freed i s1)) with (filps s1) in Hq. change (vnodes (freed i s1)) with (vnodes s1) in Hy.
  eapply wp_bind, wp_filp_at; [done|]. destruct (filp_mode q =? FILP_CLOSED); [by apply wp_ret|].
  apply wp_bind, (wp_deref _ v); [done|]. eapply wp_bind, wp_vnode_at; [done|]. destruct (negb (_ =? _)); [by apply wp_ret|].
  destruct (negb (_ =? _)); [by apply wp_ret|]. apply wp_bind. eapply wp_mono; [apply dev_close_ok| |done]. intros [] s2 Ho2.
  pose proof (revoking_outer _ _ _ _ Hr Ho2) as Hr2. pose proof (rv_kept _ _ _ Hr2) as Hk2.
  destruct (aget_is_Some (filps s2) f) as [q2 Hq2].
  { pose proof (vo_filps _ (kp_ok _ _ Hk2)) as E1. pose proof (vo_filps _ (kp_ok _ _ Hkept)) as E2. cbn in E1, E2. pose proof (aget_range _ _ _ Hq). lia. }
  eapply wp_upd_filp; [done|]. split; [|apply Hr2]. eapply kept_trans; [exact Hk2|].
  by eapply (filp_kept (freed i s2) f q2 _ (kp_ok _ _ Hk2)).
Qed.

(** A process that VFS can end: it waits for nothing, or for something that can be interrupted. *)
Record ends s (proc : Z) (i : Z) (p : fproc) : Prop := {
  en_proc : aget (fprocs s) i = Some p;
  en_live : fp_pid p <> PID_FREE;
  en_endpoint : fp_endpoint p = proc;
  en_wait : fp_is_blocked p = false \/ interruptible p;
}.
(** Up to the point where the slot is freed. *)
Lemma leave_ok s i p :
  vfs_inv s -> ends s (fp_endpoint p) i p ->
  wp (leave_proc i) (fun n s' => n = i /\ leaving s i (left_all i OPEN_MAX (view s)) s') never s.
Proof.
  intros [Hok Hc] [Hp Hl _ Hw]. set (s0 := s <| fp := i |>). apply wp_bind, wp_modify. eapply wp_bind, wp_fproc_at; [done|].
  assert (vfs_ok s0) as Hok0 by by eapply vfs_ok_same. destruct (po_slot _ (vo_procs _ Hok) _ _ Hp Hl) as [_ Hnone].
  replace (fp_endpoint p =? NONE) with false by lia. apply wp_bind.
  eapply (wp_mono _ (fun _ s1 => leaving s i (view s) s1) _ never); [| |done].
  { destruct (fp_is_blocked p) eqn:Hb; [|apply wp_ret; split; try done; by exists p].
    destruct Hw as [|Hi]; [congruence|]. eapply wp_mono; [by eapply (unpause_wp s0 i p)| |done].
    intros [] s1 [[Hv Hf _ _ Hok1 _ Hin] Hu]. by split. }
  intros [] s1 Hl1. apply wp_bind. eapply wp_mono; [by eapply close_all_ok| |done]. intros [] s2 Hl2.
  apply wp_bind, wp_get. rewrite (lv_fp _ _ _ _ Hl2). destruct (leaving_proc _ _ _ _ Hl2) as (p2 & Hp2 & _).
  eapply wp_bind, wp_fproc_at; [done|]. apply wp_bind. eapply wp_mono; [eapply unsuspend_ok, Hl2| |done]. intros [] s3 Hk3.
  pose proof (leaving_kept _ _ _ _ _ Hl2 Hk3) as Hl3. apply wp_bind, wp_get. rewrite (lv_fp _ _ _ _ Hl3).
  assert (counted flights mounts (closed_all i OPEN_MAX (view s))) as Hc3 by by apply counted_closes.
  apply wp_bind. eapply wp_mono; [by eapply put_rd_ok| |done]. intros [] s4 Hl4.
  apply wp_bind. eapply wp_mono; [eapply put_wd_ok; [done|by apply counted_put_rd]| |done]. intros [] s5 Hl5. by apply wp_ret.
Qed.
Lemma free_slot_ok s i R s1 h :
  leaving s i R s1 -> counted flights mounts R -> aget (holders R) i = Some h -> idle h ->
  wp (set_fproc i (fun p => p <| fp_endpoint := NONE |>);;
      p ← fproc_at i;
      (if negb (fp_sesldr p =? 0) && negb (fp_tty p =? 0) then foreach (seqZ 0 NR_PROCS) (revoke_tty (fp_tty p)) else mret tt);;
      set_fproc i (fun p => p <| fp_pid := PID_FREE |>))
     (fun _ s' => vfs_inv s' /\ view s' = set_holder i (fun h => h <| h_pid := PID_FREE |>) R /\ fp s' = i /\
        (exists p', aget (fprocs s') i = Some p' /\ fp_endpoint p' = NONE) /\ m_in s' = m_in s1 /\ call_nr s' = call_nr s1) never s1.
Proof.
  intros Hl Hc Hh Hidle. destruct (leaving_proc _ _ _ _ Hl) as (p & Hp & Hb & _). destruct (freed_ok _ _ _ _ _ Hl Hh) as [Hok1 Hv1].
  pose proof (counted_freed _ _ _ _ _ Hc Hh Hidle) as Hcf.
  eapply wp_bind, wp_set_fproc; [done|]. set (s2 := s1 <| fprocs := _ |>).
  assert (revoking s1 i s2) as Hr2.
  { split; [|eexists; cbn; by rewrite aget_aupd_eq, Hp]. apply kept_same; try done. cbn. by apply aupd_compose. }
  eapply wp_bind, wp_fproc_at; [cbn; by rewrite aget_aupd_eq, Hp|]. apply wp_bind.
  eapply (wp_mono _ (fun _ s3 => revoking s1 i s3) _ never); [| |done].
  { destruct (_ && _); [|by apply wp_ret]. apply (wp_foreach _ _ (fun _ s3 => revoking s1 i s3)); [done| |done].
    intros pre k post s3 Hk%seqZ_in Hr3. eapply revoke_tty_ok; [done|by rewrite Hv1|done]. }
  intros [] s3 [Hk3 (p3 & Hp3 & He3)]. eapply wp_set_fproc; [done|]. set (s4 := s3 <| fprocs := _ |>).
  assert (aupd i (fun p => p <| fp_pid := PID_FREE |>) (fprocs s3) = aupd i free_slot_of (fprocs s3)) as Heq.
  { apply aupd_ext. intros x Hx. assert (x = p3) as -> by congruence. unfold free_slot_of. destruct p3. cbn in *. by subst. }
  assert (s4 = freed i s3) as ->.
  { unfold s4, freed. by rewrite Heq. }
  assert (view (freed i s3) = set_holder i (fun h => h <| h_pid := PID_FREE |>) R) as Hv by (by rewrite (kp_view _ _ Hk3)).
  split; [split; [apply Hk3|by rewrite Hv]|]. split; [done|]. split; [by rewrite (kp_fp _ _ Hk3), <-(lv_fp _ _ _ _ Hl)|].
  split; [exists (free_slot_of p3); split; [|done]; cbn; by rewrite aget_aupd_eq, Hp3|]. exact (kp_in _ _ Hk3).
Qed.

(** What the end of process [i] leaves: it refers to nothing, and its slot is free. *)
Record exit_done s (i : Z) s' : Prop := {
  ed_inv : vfs_inv s';
  ed_view : view s' = exited i OPEN_MAX (view s);
  ed_fp : fp s' = i;
  ed_slot : exists p', aget (fprocs s') i = Some p' /\ fp_pid p' = PID_FREE /\ fp_endpoint p' = NONE /\ idle (holder_of p');
  ed_in : m_in s' = m_in s /\ call_nr s' = call_nr s;
}.
Lemma free_proc_wp s i p : vfs_inv s -> ends s (fp_endpoint p) i p -> wp (free_proc i FP_EXITING) (fun _ s' => exit_done s i s') never s.
Proof.
  intros Hi Hen. pose proof Hen as [Hp Hl _ Hw].
  destruct (counted_left _ _ _ _ OPEN_MAX _ (vi_counted _ Hi) (view_holder _ _ _ Hp) (vo_fds _ (vi_ok _ Hi) _ _ Hp)) as [Hc (h & Hh & Hidle & Hpid)].
  apply wp_bind. eapply wp_mono; [by eapply (leave_ok s i p)| |done]. intros n s1 [-> Hl1]. change (has FP_EXITING FP_EXITING) with true.
  eapply wp_mono; [by eapply free_slot_ok| |done]. intros [] s' (Hi' & Hv & Hf & (p' & Hp' & Hn) & Hin1 & Hin2).
  destruct (lv_in _ _ _ _ Hl1) as [Hi1 Hi2]. split; [done|done|done| |split; congruence]. pose proof (view_holder _ _ _ Hp') as Hh'.
  rewrite Hv in Hh'. unfold set_holder in Hh'. cbn in Hh'. rewrite aget_aupd_eq, Hh in Hh'.
  pose proof (f_equal (default h) Hh') as Hx'. cbn in Hx'. exists p'. split_and!; [done| |done|].
  - change (h_pid (holder_of p') = PID_FREE). by rewrite <-Hx'.
  - rewrite <-Hx'. destruct Hidle as (? & ? & ?). by split_and!.
Qed.
(** The slot of a live process. *)
Lemma okendpt_ok s i p : vfs_inv s -> aget (fprocs s) i = Some p -> fp_pid p <> PID_FREE -> okendpt (fp_endpoint p) s = Ret i s.
Proof.
  intros Hi Hp Hl. unfold okendpt. by rewrite (bind_ret _ _ _ _ _ (isokendpt_own _ _ _ (vo_procs _ (vi_ok _ Hi)) Hp Hl)).
Qed.
Lemma pm_exit_wp s proc i p : vfs_inv s -> ends s proc i p -> wp (pm_exit proc) (fun _ s' => exit_done s i s') never s.
Proof.
  intros Hi Hen. pose proof Hen as [Hp Hl <- Hw]. apply wp_bind, (wp_ret_run _ _ _ _ _ _ (okendpt_ok _ _ _ Hi Hp Hl)). by eapply free_proc_wp.
Qed.

End processes.
