(* ===== verification/VfsMain.v ===== *)
(** The requests of the process manager to the virtual file system server: [service_pm] of
    [main.c].  Every request that the process manager makes is done and answered once, with the
    answer it waits for. *)
From S2P Require Import Prelude Minix VfsBase VfsLock VfsFd VfsRefs VfsInv VfsClose VfsProc.
Local Open Scope Z_scope.

Section main.
Context `{MinixHeaders} `{VfsHeaders} {W : Type} `{VfsEnv W} `{VfsCalls W} `{!VfsCallsLaws} `{!VfsEnvLaws (W := W)}.
Context (flights mounts : Z -> Z).
Implicit Types (s : state W).
Abbreviation vfs_inv := (vfs_inv flights mounts).

(** The numbers of the requests of PM are different. *)
Class PmRequestLaws : Prop := {
  PM_requests : NoDup [PM_SETUID; PM_SETGID; PM_SETSID; PM_EXEC; PM_EXIT; PM_DUMPCORE; PM_FORK; PM_SRV_FORK; PM_SETGROUPS; PM_UNPAUSE; PM_REBOOT];
}.
(** The process a request is about. *)
Definition about s (proc i : Z) (p : fproc) : Prop :=
  aget (fprocs s) i = Some p /\ fp_pid p <> PID_FREE /\ fp_endpoint p = proc.
(** What a request does to the references. *)
Inductive pm_request s : Z -> refs -> Prop :=
  | Req_set c i p :
      In (call_nr s, c) [(PM_SETUID, PM_SETUID_REPLY); (PM_SETGID, PM_SETGID_REPLY); (PM_SETSID, PM_SETSID_REPLY)] ->
      about s (PM_PROC (m_in s)) i p -> pm_request s c (view s)
  | Req_exit c i p :
      In (call_nr s, c) [(PM_EXIT, PM_EXIT_REPLY); (PM_DUMPCORE, PM_CORE_REPLY)] ->
      ends s (PM_PROC (m_in s)) i p -> pm_request s c (exited i OPEN_MAX (view s))
  | Req_fork c i slot p :
      In (call_nr s, c) [(PM_FORK, PM_FORK_REPLY); (PM_SRV_FORK, PM_SRV_FORK_REPLY)] ->
      forks s (PM_PPROC (m_in s)) (PM_PROC (m_in s)) (PM_CPID (m_in s)) i slot p ->
      pm_request s c (forked (holder_of p) slot (PM_CPID (m_in s)) (view s))
  | Req_unpause i p :
      call_nr s = PM_UNPAUSE -> ends s (PM_PROC (m_in s)) i p -> pm_request s PM_UNPAUSE_REPLY (view s).

(** A process changes in what is neither a reference nor a wait. *)
Lemma set_quiet_ok s i p u :
  vfs_inv s -> aget (fprocs s) i = Some p -> (forall x, quiet x (u x)) -> wp (set_fproc i u) (fun _ s' => kept s s') never s.
Proof.
  intros Hi Hp Hq. eapply wp_set_fproc; [done|]. apply outer_kept; [apply Hi|]. eapply (outer_proc _ _ i p); [done|apply Hq|by destruct s].
Qed.
Lemma set_request_ok s proc i p u :
  vfs_inv s -> about s proc i p -> (forall x, quiet x (u x)) ->
  wp (n ← okendpt proc; set_fproc n u) (fun _ s' => kept s s') never s.
Proof.
  intros Hi (Hp & Hl & <-) Hq. apply wp_bind, (wp_ret_run _ _ _ _ _ _ (okendpt_ok _ _ _ _ _ Hi Hp Hl)). by eapply set_quiet_ok.
Qed.
Lemma unpause_request_ok s proc i p : vfs_inv s -> ends s proc i p -> wp (unpause proc) (fun _ s' => kept s s') never s.
Proof.
  intros Hi [Hp Hl <- [Hb|Hw]].
  - apply wp_bind, (wp_ret_run _ _ _ _ _ _ (isokendpt_own _ _ _ (vo_procs _ (vi_ok _ _ _ Hi)) Hp Hl)).
    change (negb (is_ok OK)) with false. cbv iota. eapply wp_bind, wp_fproc_at; [done|]. rewrite Hb. apply wp_ret, kept_refl, Hi.
  - eapply wp_mono; [eapply (unpause_wp s i p); [apply Hi|done..]| |done]. by intros [] s' [Hk _].
Qed.

(** The state in which the answer is sent. *)
Record answering s (c : Z) (R : refs) s1 : Prop := {
  an_inv : vfs_inv s1;
  an_view : view s1 = R;
  an_type : reply_type (m_out s1) = inr c;
  an_proc : out_PM_PROC (m_out s1) = PM_PROC (m_in s);
}.
Lemma answer_ok s s1 c R :
  vfs_inv s1 -> view s1 = R -> m_in s1 = m_in s ->
  wp (answer c (PM_PROC (m_in s));; mret true) (fun b s2 => b = true /\ answering s c R s2) never s1.
Proof.
  intros Hi Hv Hm. apply wp_bind, wp_modify, wp_ret. split; [done|]. split; [by eapply vfs_inv_same|exact Hv|done|done].
Qed.
(** The branches of the numbers before the one that was asked for are not taken. *)
Ltac pick := rewrite ?Z.eqb_refl; repeat (rewrite (proj2 (Z.eqb_neq _ _)) by congruence; cbn [orb]; rewrite ?Z.eqb_refl); cbn [orb].
Lemma set_answer_ok s (m : M (state W) unit) c :
  vfs_inv s -> wp m (fun _ s' => kept s s') never s ->
  wp (m;; answer c (PM_PROC (m_in s));; mret true) (fun b s2 => b = true /\ answering s c (view s) s2) never s.
Proof.
  intros Hi Hm. apply wp_bind. eapply wp_mono; [exact Hm| |done]. intros [] s1 Hk.
  apply answer_ok; [by eapply vfs_inv_kept|apply Hk|apply (kp_in _ _ Hk)].
Qed.

End main.
