(* ===== verification/VfsDemo.v ===== *)
(** A small system: its processes, open files, pipe and locks meet the invariant of the virtual file
    system server, and each promise of [VfsLock], [VfsProc] and [VfsMain] is applied to it. *)
From S2P Require Import Prelude Minix VfsBase VfsLock VfsFd VfsRefs VfsInv VfsClose VfsProc VfsMain.
Local Open Scope Z_scope.

Module Demo.
(** What was sent, and the locks that are asked for and told. *)
Record outside := mk_outside { asked : list flock; told : list flock; sent : list (Z * vreply) }.
#[export] Instance minix_headers : MinixHeaders := {
  NR_PROCS := 8; NR_TASKS := 4; NR_SYS_PROCS := 4;
  _ENDPOINT_P := fun e => (e + 4) mod 1024 - 4;
  ANY := 1000; NONE := 1001;
  PM_PROC_NR := 0; VFS_PROC_NR := 1; RS_PROC_NR := 2; INIT_PROC_NR := 3;
  SCHED_PROC_NR := 900; DS_PROC_NR := 901; VM_PROC_NR := 902;
  CLOCK := -3; SYSTEM := -2; KERNEL := -1; HARDWARE := -1;
}.
#[export] Instance vfs_headers : VfsHeaders := {
  errno := fun r => match r with OK => 0 | Rc n => n | _ => -1 end;
  OPEN_MAX := 20; NGROUPS := 8; sizeof_gid_t := 1;
  I_TYPE := 61440; I_REGULAR := 32768; I_CHAR_SPECIAL := 8192; I_BLOCK_SPECIAL := 24576; I_NAMED_PIPE := 4096;
  R_BIT := 4; W_BIT := 2; NO_DEV := 0; MAX_FILE_POS := 2147483647; PIPE_BUF := 32768;
  F_DUPFD := 0; F_GETFD := 1; F_SETFD := 2; F_GETFL := 3; F_SETFL := 4;
  F_GETLK := 5; F_SETLK := 6; F_SETLKW := 7; F_FREESP := 8;
  F_RDLCK := 1; F_WRLCK := 2; F_UNLCK := 3; FD_CLOEXEC := 1;
  SEEK_SET := 0; SEEK_CUR := 1; SEEK_END := 2;
  O_NONBLOCK := 2048; O_APPEND := 1024; O_REOPEN := 4096; O_ACCMODE := 3; O_RDONLY := 0; O_WRONLY := 1;
  READ := 3; WRITE := 4; SEL_RD := 1; SEL_WR := 2;
  GRANT_INVALID := -1; GRANT_VALID := fun g => -1 <? g;
  PFS_PROC_NR := 900; ROOT_FS_E := 9;
  PM_SETUID := 1; PM_SETGID := 2; PM_SETSID := 3; PM_EXEC := 4; PM_EXIT := 5; PM_DUMPCORE := 6;
  PM_FORK := 7; PM_SRV_FORK := 8; PM_SETGROUPS := 9; PM_UNPAUSE := 10; PM_REBOOT := 11;
  PM_SETUID_REPLY := 21; PM_SETGID_REPLY := 22; PM_SETSID_REPLY := 23; PM_EXEC_REPLY := 24; PM_EXIT_REPLY := 25;
  PM_CORE_REPLY := 26; PM_FORK_REPLY := 27; PM_SRV_FORK_REPLY := 28; PM_SETGROUPS_REPLY := 29;
  PM_UNPAUSE_REPLY := 30; PM_REBOOT_REPLY := 31;
}.
#[export] Instance vfs_env : VfsEnv outside := {
  in_flock := fun _ _ w =>
    match asked w with
    | l :: r => ((OK, l), mk_outside r (told w) (sent w))
    | [] => ((EFAULT, mk_flock 0 0 0 0 0), w)
    end;
  out_flock := fun _ _ l w => (OK, mk_outside (asked w) (told w ++ [l]) (sent w));
  in_groups := fun _ _ n w => ((OK, replicate (Z.to_nat n) 0), w);
  req_putnode := fun _ _ _ w => (tt, w);
  req_flush := fun _ _ w => (tt, w);
  req_ftrunc := fun _ _ _ _ w => (OK, w);
  req_newnode := fun _ _ _ _ _ w => ((OK, mk_node_details 900 50 4096), w);
  dmap_cancel := fun _ _ _ _ _ w => (SUSPEND, w);
  cpf_revoke := fun _ w => (false, w);
  sendnb := fun e m w => (OK, mk_outside (asked w) (told w) (sent w ++ [(e, m)]));
  send_pm := fun m w => (OK, mk_outside (asked w) (told w) (sent w ++ [(0, m)]));
  sys_kill_pipe := fun _ w => (tt, w);
  req_sync_all := fun w => (tt, w);
}.
#[export] Instance vfs_calls : VfsCalls outside := {
  dev_close := fun _ _ => mret tt;
  select_callback := fun _ _ => mret tt;
  select_forget := fun _ => mret tt;
  select_unsuspend_by_endpt := fun _ => mret tt;
  pm_exec := fun _ _ _ _ _ => mret (OK, 0);
  unmount_all := mret tt;
}.
Lemma outer_refl (s : state outside) : outer s s.
Proof. split; [by destruct s|]. apply list.Forall_Forall2_diag, Forall_forall. intros p _. apply quiet_refl. Qed.
#[export] Instance calls_laws : VfsCallsLaws (W := outside).
Proof. split; intros; apply wp_ret, outer_refl. Qed.
#[export] Instance env_laws : VfsEnvLaws (W := outside).
Proof. by split. Qed.
#[export] Instance lock_laws : LockLaws.
Proof. by split. Qed.
#[export] Instance request_laws : PmRequestLaws.
Proof. split. apply (bool_decide_unpack _). by vm_compute. Qed.

(** ** The system *)
Definition no_proc : fproc :=
  mk_fproc 0 0 None None (replicate 20 None) 0 0 0 0 0 0 [] 0 0 0 0 0 0 false 0 0 0 (-1) 0 0 0 0 1001.
Definition no_filp : filp := mk_filp 0 0 0 0 None 0 0.
Definition no_vnode : vnode := mk_vnode 0 0 0 0 0 0 0 0 0 0 0 0 0 0 0 0 0 None.
Definition user (slot pid : Z) (fds : list (option Z)) : fproc :=
  no_proc <| fp_endpoint := slot |> <| fp_pid := pid |> <| fp_rd := Some 0 |> <| fp_wd := Some 0 |>
    <| fp_filp := fds ++ replicate (20 - length fds) None |> <| fp_filp_inuse := Z.ones (Z.of_nat (length fds)) |>.
Definition no_message : vmessage := mk_vmessage 0 0 0 0 0 0 0 0 0 None 0 0 0 0 0 0 0 0 0 0 0.
(** Init; a process with a file open twice and both ends of a pipe; a process that reads from the
    pipe and waits. *)
Definition start : state outside :=
  mk_state
    ([no_proc; no_proc; no_proc; user 3 1 []; user 4 20 [Some 0; Some 0; Some 1; Some 2];
      user 5 21 [Some 1] <| fp_blocked_on := FP_BLOCKED_ON_PIPE |> <| fp_block_callnr := 3 |>; no_proc; no_proc])
    ([mk_filp 6 0 0 2 (Some 1) 0 0; mk_filp 4 0 0 2 (Some 2) 0 0; mk_filp 2 1 0 1 (Some 2) 0 0] ++ replicate 509 no_filp)
    ([no_vnode <| v_mode := 16384 |> <| v_ref_count := 7 |> <| v_fs_count := 1 |>;
      no_vnode <| v_mode := 32768 |> <| v_ref_count := 1 |> <| v_fs_count := 1 |> <| v_size := 100 |>;
      no_vnode <| v_mode := 4096 |> <| v_ref_count := 2 |> <| v_fs_count := 1 |> <| v_pipe := I_PIPE |>] ++ replicate 509 no_vnode)
    (replicate 8 (mk_file_lock 0 0 0 0 0)) 4 1 0 0 OK 4 4 0 no_message
    (mk_vreply (inl OK) 0 0 0 OK 0 None) (mk_outside [] [] []).
Definition mounts (v : Z) : Z := if v =? 0 then 1 else 0.

(** ** The invariant, decided *)
Fixpoint all_from {A} (P : Z -> A -> bool) (i : Z) (l : list A) : bool :=
  match l with [] => true | x :: l => P i x && all_from P (i + 1) l end.
Lemma all_from_spec {A} (P : Z -> A -> bool) l : all_from P 0 l = true -> forall i x, aget l i = Some x -> P i x = true.
Proof.
  intros Hl i x [Hi Hx]%aget_Some. assert (forall m k, all_from P m l = true -> l !! k = Some x -> P (m + Z.of_nat k) x = true) as Hgen.
  { clear. induction l as [|y l IH]; intros m k Hm Hk; [done|]. apply andb_true_iff in Hm as [Hy Hm]. destruct k as [|k]; cbn in Hk.
    - injection Hk as ->. by rewrite Z.add_0_r.
    - replace (m + Z.of_nat (S k)) with (m + 1 + Z.of_nat k) by lia. by apply IH. }
  specialize (Hgen 0 (Z.to_nat i) Hl Hx). rewrite Z.add_0_l, Z2Nat.id in Hgen by done. done.
Qed.
Definition in_range {A} (l : list A) (o : option Z) : bool := match o with Some i => (0 <=? i) && (i <? Z.of_nat (length l)) | None => true end.
Definition idle_b (h : holder) : bool := forallb (fun x => bool_decide (x = None)) (h_fds h) && bool_decide (h_rd h = None) && bool_decide (h_wd h = None).
Definition counted_b (mounts : Z -> Z) (R : refs) : bool :=
  all_from (fun f q => (q.1 =? sumZ (fds_of f) (holders R)) &&
    ((q.1 =? 0) || match q.2 with Some v => in_range (counts R) (Some v) | None => false end)) 0 (opens R) &&
  all_from (fun v n => n =? sumZ (dirs_of v) (holders R) + sumZ (open_of v) (opens R) + mounts v) 0 (counts R) &&
  all_from (fun _ h => forallb (in_range (opens R)) (h_fds h) && in_range (counts R) (h_rd h) && in_range (counts R) (h_wd h) &&
    (negb (h_pid h =? PID_FREE) || idle_b h)) 0 (holders R).
Lemma in_range_get {A} (l : list A) i : in_range l (Some i) = true -> exists x, aget l i = Some x.
Proof. intros Hr. apply aget_is_Some. unfold in_range in Hr. lia. Qed.
Lemma idle_b_idle h : idle_b h = true -> idle h.
Proof.
  unfold idle_b, idle. rewrite !andb_true_iff, !bool_decide_eq_true, forallb_forall. intros [[Hf ?] ?]. split_and!; try done.
  intros j f [_ Hj]%aget_Some. specialize (Hf (Some f)). rewrite bool_decide_eq_true in Hf. discriminate Hf.
  apply list_elem_of_In. by eapply list_elem_of_lookup_2.
Qed.
Lemma counted_b_counted mounts R : counted_b mounts R = true -> (forall v, 0 <= mounts v) -> counted (fun _ => 0) mounts R.
Proof.
  unfold counted_b. rewrite !andb_true_iff. intros [[Ho Hv] Hh] Hm. pose proof (all_from_spec _ _ Ho) as Ho'. pose proof (all_from_spec _ _ Hv) as Hv'.
  pose proof (all_from_spec _ _ Hh) as Hh'. cbv beta in *. split.
  - intros f n o Hq. specialize (Ho' _ _ Hq). cbn in Ho'. lia.
  - intros v n Hn. specialize (Hv' _ _ Hn). lia.
  - intros f n o Hq Hn. specialize (Ho' _ _ Hq). cbn [fst snd] in Ho'.
    apply andb_true_iff in Ho' as [_ [Ho'|Ho']%orb_true_iff]; [lia|]. destruct o as [v|]; [|done].
    destruct (in_range_get (counts R) v Ho') as [k Hk]. by exists v, k.
  - intros i h j f Hi Hj. specialize (Hh' _ _ Hi). rewrite !andb_true_iff in Hh'. destruct Hh' as [[[Hf _] _] _]. rewrite forallb_forall in Hf.
    apply in_range_get, Hf, list_elem_of_In. apply aget_Some in Hj as [_ Hj]. by eapply list_elem_of_lookup_2.
  - intros i h v Hi Hd. specialize (Hh' _ _ Hi). rewrite !andb_true_iff in Hh'. destruct Hh' as [[[_ Hr] Hw] _].
    apply in_range_get. destruct Hd as [<-|<-]; done.
  - intros i h Hi Hf. specialize (Hh' _ _ Hi). rewrite !andb_true_iff in Hh'. destruct Hh' as [_ Hx]. apply idle_b_idle. rewrite Hf in Hx. exact Hx.
  - done.
  - done.
Qed.
Definition slot_b (i : Z) (p : fproc) : bool :=
  (Z.of_nat (length (fp_filp p)) =? OPEN_MAX) && ((fp_pid p =? PID_FREE) || ((_ENDPOINT_P (fp_endpoint p) =? i) && negb (fp_endpoint p =? NONE))).
Definition waits_b (s : state outside) (p : fproc) : bool :=
  match aget (fp_filp p) (fp_block_fd p) with
  | Some (Some f) => in_range (filps s) (Some f) && (fp_blocked_on p =? FP_BLOCKED_ON_PIPE)
  | _ => false
  end.
(** No lock is set. *)
Definition vfs_ok_b (s : state outside) : bool :=
  (Z.of_nat (length (fprocs s)) =? NR_PROCS) && (Z.of_nat (length (filps s)) =? NR_FILPS) &&
  (Z.of_nat (length (vnodes s)) =? NR_VNODES) && (Z.of_nat (length (file_locks s)) =? NR_LOCKS) &&
  forallb (fun l => lock_type l =? 0) (file_locks s) && (nr_locks s =? 0) && (susp_count s =? sumZ pending (fprocs s)) &&
  all_from slot_b 0 (fprocs s) && all_from (fun _ p => negb (awaits p) || waits_b s p) 0 (fprocs s) &&
  all_from (fun _ x => negb (0 <? v_ref_count x) || (0 <? v_fs_count x)) 0 (vnodes s).
Lemma vfs_ok_b_ok (s : state outside) : vfs_ok_b s = true -> vfs_ok s.
Proof.
  unfold vfs_ok_b. rewrite !andb_true_iff. intros [[[[[[[[[Hp Hf] Hv] Hl] Hfree] Hn] Hs] Hsl] Hw] Hfs].
  pose proof (all_from_spec _ _ Hsl) as Hsl'. pose proof (all_from_spec _ _ Hw) as Hw'. pose proof (all_from_spec _ _ Hfs) as Hfs'. cbv beta in *.
  assert (forall i l, aget (file_locks s) i = Some l -> lock_type l = 0) as Hl0.
  { intros i l [_ Hi]%aget_Some. rewrite forallb_forall in Hfree. apply Z.eqb_eq, Hfree, list_elem_of_In. by eapply list_elem_of_lookup_2. }
  split; try lia.
  - split; [lia|]. intros i p Hi Hpid. specialize (Hsl' _ _ Hi). unfold slot_b in Hsl'. lia.
  - split; [lia| |intros i l Hi Hx; by destruct Hx; eapply Hl0].
    replace (nr_locks s) with 0 by lia. clear -Hfree. induction (file_locks s) as [|l L IH]; [done|]. cbn in Hfree. apply andb_true_iff in Hfree as [H1' H2'].
    rewrite sumZ_cons, <-IH by done. unfold used. by rewrite H1'.
  - intros v b p1 t1 p2 t2 (i & l & Hi & Ht & Hne & _) _ _. destruct Hne. rewrite <-Ht. by eapply Hl0.
  - intros i p Hi. specialize (Hsl' _ _ Hi). unfold slot_b in Hsl'. lia.
  - intros v x Hi Hr. specialize (Hfs' _ _ Hi). lia.
  - intros i p Hi Ha. specialize (Hw' _ _ Hi). rewrite Ha in Hw'. unfold waits_b in Hw'. cbn in Hw'.
    destruct (aget (fp_filp p) (fp_block_fd p)) as [[f|]|] eqn:Hfd; [|done..]. apply andb_true_iff in Hw' as [Hr Hb].
    destruct (in_range_get _ _ Hr) as [q Hq]. exists f, q. split_and!; [done|done|]. intros _ _ _ _ _. lia.
Qed.
Lemma mounts_nonneg v : 0 <= mounts v.
Proof. unfold mounts. by destruct (v =? 0). Qed.
Lemma inv_b (s : state outside) : vfs_ok_b s && counted_b mounts (view s) = true -> vfs_inv (fun _ => 0) mounts s.
Proof. intros [Ho Hc]%andb_true_iff. split; [by apply vfs_ok_b_ok|]. by apply counted_b_counted, mounts_nonneg. Qed.
Lemma start_inv : vfs_inv (fun _ => 0) mounts start.
Proof. apply inv_b. by vm_compute. Qed.
Lemma ok_fields (s s' : state outside) :
  vfs_inv (fun _ => 0) mounts s -> fprocs s' = fprocs s -> filps s' = filps s -> vnodes s' = vnodes s -> susp_count s' = susp_count s ->
  file_locks s' = file_locks s -> nr_locks s' = nr_locks s -> vfs_inv (fun _ => 0) mounts s'.
Proof. apply vfs_inv_same. Qed.
Definition writer : fproc := nth 4 (fprocs start) no_proc.
Definition reader : fproc := nth 5 (fprocs start) no_proc.

(** ** Descriptors *)
Definition asking (m : vmessage) : state outside := start <| m_in := m |>.
Definition state_of {A} (s : state outside) (r : outcome (state outside) A) : state outside := match r with Ret _ s' => s' | Halt _ s' => s' end.
Ltac computed := vm_compute; repeat split.
Definition value_of {A} (r : outcome (state outside) A) : option A := match r with Ret a _ => Some a | Halt _ _ => None end.
Lemma run_is {A} (m : M (state outside) A) s r s' a : m s = Ret r s' -> value_of (m s) = Some a -> r = a /\ s' = state_of s (m s).
Proof. by intros -> [= ->]. Qed.
(** The last writer closes its end of the pipe: the one who waits is woken. *)
Definition closing : state outside := asking (no_message <| m1_i1 := 3 |>).
Lemma do_close_ok_witness :
  exists s', do_close closing = Ret OK s' /\ vfs_inv (fun _ => 0) mounts s' /\ susp_count s' = 0 /\ reviving s' = 1 /\
    map filp_count (take 3 (filps s')) = [2; 2; 0] /\ map v_ref_count (take 3 (vnodes s')) = [7; 1; 1].
Proof.
  destruct (do_close_ok (fun _ => 0) mounts closing 4 writer) as (r & s' & Hrun & Hi & _ & _).
  - by apply (ok_fields start _ start_inv).
  - by split.
  - destruct (run_is _ _ _ _ OK Hrun) as [-> Hs']; [by vm_compute|].
    exists s'. split; [exact Hrun|]. split; [exact Hi|]. rewrite Hs'. computed.
Defined.
(** The first free descriptor after four that are open is 4. *)
Definition dupping : state outside := asking (no_message <| m1_i1 := 0 |>).
Lemma do_dup_ok_witness :
  exists s', do_dup dupping = Ret (Rc 4) s' /\ vfs_inv (fun _ => 0) mounts s' /\ map filp_count (take 3 (filps s')) = [3; 2; 1].
Proof.
  destruct (do_dup_ok (fun _ => 0) mounts dupping 4 writer) as (r & s' & Hrun & Hi & _).
  - by apply (ok_fields start _ start_inv).
  - by split.
  - destruct (run_is _ _ _ _ (Rc 4) Hrun) as [-> Hs']; [by vm_compute|].
    exists s'. split; [exact Hrun|]. split; [exact Hi|]. rewrite Hs'. computed.
Defined.
(** [dup2] onto the read end of the pipe: that is closed, and the file is open three times. *)
Example dup2_closes :
  let s := asking (no_message <| m1_i1 := 64 |> <| m1_i2 := 2 |>) in
  value_of (do_dup s) = Some (Rc 2) /\ map filp_count (take 3 (filps (state_of s (do_dup s)))) = [3; 1; 1].
Proof. computed. Qed.

(** ** Processes *)
Definition forking : state outside := asking (no_message <| PM_PPROC := 4 |> <| PM_PROC := 1030 |> <| PM_CPID := 30 |>) <| call_nr := PM_FORK |>.
Lemma forking_forks : forks forking 4 1030 30 4 6 writer.
Proof. split; try done. by exists no_proc. Qed.
Lemma pm_fork_ok_witness :
  exists s', pm_fork 4 1030 30 forking = Ret tt s' /\ vfs_inv (fun _ => 0) mounts s' /\
    map filp_count (take 3 (filps s')) = [4; 3; 2] /\ map v_ref_count (take 3 (vnodes s')) = [9; 1; 2].
Proof.
  destruct (pm_fork_ok (fun _ => 0) mounts forking 4 1030 30 4 6 writer) as (s' & Hrun & Hd).
  - by apply (ok_fields start _ start_inv).
  - exact forking_forks.
  - exists s'. split; [exact Hrun|]. split; [apply Hd|]. destruct (run_is _ _ _ _ tt Hrun) as [_ Hs']; [by vm_compute|].
    rewrite Hs'. computed.
Defined.
(** The reader is ended while it waits for the pipe. *)
Lemma reader_ends : ends start 5 5 reader.
Proof. split; try done. right. by left. Qed.
(** A process waits for a terminal whose driver does not end the call at once: [unpause] returns
    although the process still waits.  [free_proc] then closes the descriptor it waits on, and
    [release], for the next pipe it closes, follows a null pointer. *)
Definition on_terminal : state outside :=
  start <| fprocs := aupd 5 (fun p => p <| fp_filp := [Some 3; Some 2] ++ replicate 18 None |> <| fp_blocked_on := FP_BLOCKED_ON_OTHER |>
      <| fp_filp_inuse := 3 |>) (fprocs start) |>
    <| filps := aupd 1 (fun q => q <| filp_count := 1 |>) (aupd 2 (fun q => q <| filp_count := 2 |>)
      (aupd 3 (fun q => q <| filp_count := 1 |> <| filp_mode := 6 |> <| filp_vno := Some 3 |>) (filps start))) |>
    <| vnodes := aupd 3 (fun v => v <| v_mode := 8192 |> <| v_ref_count := 1 |> <| v_fs_count := 1 |>) (vnodes start) |> <| susp_count := 0 |>.
Example exit_on_terminal_crashes :
  match pm_exit 5 on_terminal with Halt Undef _ => True | _ => False end.
Proof. by vm_compute. Qed.

(** ** Locks *)
Definition ask_lock (l : flock) (s : state outside) : state outside := s <| world := mk_outside [l] [] [] |>.
(** Process 21 may read the bytes from 10 to 29 of the file. *)
Definition locked : state outside :=
  start <| file_locks := mk_file_lock F_RDLCK 21 1 10 29 :: replicate 7 (mk_file_lock 0 0 0 0 0) |> <| nr_locks := 1 |>.
Lemma locked_table : lock_table (file_locks locked) (nr_locks locked).
Proof.
  split; [done|by vm_compute|]. intros i l Hi Ht. apply aget_Some in Hi as [_ Hi]. destruct (Z.to_nat i) as [|n].
  - injection Hi as <-. split; [by left|]. cbn. lia.
  - change (replicate 7 (mk_file_lock 0 0 0 0 0) !! n = Some l) in Hi. apply lookup_replicate in Hi as [-> _]. done.
Qed.
Definition the_file : filp := nth 0 (filps start) no_filp.
Definition the_vnode : vnode := nth 1 (vnodes start) no_vnode.
(** Bytes 20 to 39 are unlocked: the lock of 21 keeps 10 to 19. *)
Definition unlocking_ : state outside := ask_lock (mk_flock F_UNLCK SEEK_SET 20 20 0) locked.
Lemma lock_op_unlock_witness :
  exists s', lock_op 0 F_SETLK unlocking_ = Ret OK s' /\ take 1 (file_locks s') = [mk_file_lock F_RDLCK 21 1 10 19].
Proof.
  destruct (lock_op_unlock unlocking_ 0 F_SETLK (mk_flock F_UNLCK SEEK_SET 20 20 0) the_file 1 the_vnode writer 20 39 (mk_outside [] [] [])) as (r & s' & Hrun & _).
  - by split.
  - exact locked_table.
  - split; [done|]. apply (po_slot _ (vo_procs _ (vi_ok _ _ _ start_inv))).
  - done.
  - by left.
  - destruct (run_is _ _ _ _ OK Hrun) as [-> Hs']; [by vm_compute|]. exists s'. split; [exact Hrun|]. rewrite Hs'. computed.
Defined.
(** A lock for writing on byte 25 has to wait. *)
Definition lock_waits : state outside := ask_lock (mk_flock F_WRLCK SEEK_SET 25 1 0) locked.
Lemma lock_op_set_witness :
  exists s', lock_op 0 F_SETLKW lock_waits = Ret SUSPEND s' /\ map fp_blocked_on (fprocs s') = [0; 0; 0; 0; FP_BLOCKED_ON_LOCK; 1; 0; 0].
Proof.
  destruct (lock_op_set lock_waits 0 F_SETLKW (mk_flock F_WRLCK SEEK_SET 25 1 0) the_file 1 the_vnode writer 25 25 (mk_outside [] [] [])) as (r & s' & Hrun & _).
  - by split.
  - exact locked_table.
  - by right.
  - by right.
  - done.
  - destruct (run_is _ _ _ _ SUSPEND Hrun) as [-> Hs']; [by vm_compute|]. exists s'. split; [exact Hrun|]. rewrite Hs'. computed.
Defined.
Definition lock_asks : state outside := ask_lock (mk_flock F_WRLCK SEEK_SET 5 10 0) locked.
Lemma lock_op_getlk_witness :
  exists out, lock_op 0 F_GETLK lock_asks = env (out_flock 4 0 out) (lock_asks <| world := mk_outside [] [] [] |>) /\
    out = mk_flock F_RDLCK SEEK_SET 10 20 21.
Proof.
  destruct (lock_op_getlk lock_asks 0 (mk_flock F_WRLCK SEEK_SET 5 10 0) the_file 1 the_vnode writer 5 14 (mk_outside [] [] [])) as (out & Hrun & _).
  - by split.
  - exact locked_table.
  - by right.
  - exists out. split; [exact Hrun|].
    assert (told (world (state_of lock_asks (lock_op 0 F_GETLK lock_asks))) = [out]) as Ht by (rewrite Hrun; reflexivity).
    vm_compute in Ht. by injection Ht as <-.
Defined.
End Demo.
